(* ===== verification/_CoqProject ===== *)
-Q . S2P
Prelude.v
Strings.v
CBuf.v
Rcp.v
Format.v
Lists.v
Bitmap.v
Frame.v
Setup.v
Pool.v
Paging.v
Spaces.v
Window.v
Exec.v
Task.v
Path.v
Block.v
Iso.v
Tty.v
Input.v
Console.v
Irq.v
Ps2.v
Devfs.v
Terminal.v
Hook.v
Naming.v
Tree.v
Pci.v
Ahci.v
Vfs.v
Files.v
Symbols.v
Elf.v
Load.v
Proc.v
Kill.v
Exit.v
Spawn.v
Ports.v
Irqc.v
Uart.v
Acpi.v
