(* ===== verification/Prelude.v ===== *)
(** * aexkernel: a verification development

    The kernel is a monolithic x86-64 kernel in C.  This library has its portable core as
    executable definitions, each function under the name it has in the source, and theorems
    about them.  A definition returns [res]: [Ok], [Panic msg] for [kpanic], [Fault] where the C
    program reads or writes outside an object or follows a null pointer, and [OutOfFuel], which is
    no behaviour of the code: it is a loop of the model that was not given enough rounds (or, in
    the readers of the console and the events, a thread that is still asleep).  Integers are [Z],
    wrapped where the C type wraps.  Memory is a list of bytes from an address to the end of its
    object, or a map from addresses where objects are shared.

    ** The parts and the files

    Foundations.  This file: results, machine integers, indexing of objects with a fault outside
    of them, the automation ([case_cmp], [res_inv], [decided], the hint database [kern]).
    Strings.v is kernel/string.c.  CBuf.v is kernel/cbuf.c (module [Cbuf]) and kernel/cbufm.c
    ([Cbufm]).  Format.v is kernel/snprintf.c and kernel/printk.c.  Lists.v is kernel/klist.c,
    kernel/kslist.c and proc/exec_load.c.  Rcp.v is the macros of include/aex/rcparray.h and
    rcptable.h, on which all global tables stand: the class [RcStore] has the operations of a
    reference-counted table, [RcStoreLaws] what they promise, both tables are instances, and the
    theorem about holders of references is proved from the laws alone.  Hook.v is kernel/hook.c.

    Memory.  Bitmap.v is the bit arrays that mem/frame.c (Frame.v) and mem/pool.c (Pool.v) keep.
    Setup.v is mem/mem.c, which makes the pieces of Frame.v out of the memory map of the boot loader.
    Paging.v is arch/x64/page.c over the class [FrameSource], which [frames] of Frame.v
    implements.  Spaces.v is the walk over all pages of a map ([kpforeach] of the same file) and,
    with it, how proc/task.c ends an address space.  Window.v has two maps over the same tables:
    every operation of page.c is a sequence of small steps, and steps on one map leave the other's
    own pages alone.

    Threads.  Task.v is kernel/spinlock.c, proc/tqueue.c, kernel/event.c and the thread half of
    proc/task.c with the scheduler's choice, and kpalloc of arch/x64/page.c, of which only the two
    locks it takes are there at this commit.  Proc.v is the process half of proc/task.c,
    fs/syscalls_fs.c, kernel/syscall.c and the cleanup in fs/fs.c, over Task.v and Vfs.v.
    Kill.v is task_tkill and the cleaner thread, Exit.v _task_prkill_async and task_prwait, both
    as places of threads that interleave with the scheduler of Task.v.  Exec.v is arch/x64/exec.c,
    the arguments a program is started with, Elf.v arch/x64/exec_elf.c, the loader, and Load.v
    what elf_load does from an open file to the image in the page tables of Paging.v.  Spawn.v puts
    the loader, the processes and the threads together: task_tcreate with its context (cpu.c),
    task_pricreate and syscall_spawn.

    Files.  Path.v is the path macros of include/aex/fs/fs.h and fs_to_absolute_path.  Vfs.v is
    fs/fs.c and fs/fd.c over a record of driver functions and a driver state, so that what is
    proved holds for any driver.  Iso.v is fs/drv/iso9660/iso9660.c over the class [BlockSource];
    Devfs.v is dev/char.c and fs/drv/devfs/devfs.c over a record of device functions, with the null
    device of drv/pseudo/null.c as the smallest of them.  Files.v is
    the interface of the kernel's own readers of files ([FileOps], [FileLaws]), which Vfs.v
    implements; Symbols.v is arch/x64/elftypes.h and the symbols of arch/x64/debug.c over it.

    Devices.  Block.v is dev/dev.c, dev/block.c and dev/class/disk.c over a record of driver
    functions; it implements [BlockSource] for Iso.v ([block_layer_serves_iso]).  Tty.v is
    arch/x64/tty.c, Input.v is dev/input.c over the ring of CBuf.v, Console.v is drv/ttyk/ttyk.c
    over both, and Terminal.v puts the console behind the character devices and devfs.  Naming.v
    is dev_name_inc of dev/name.c over the list of Lists.v.  Irq.v is sys/irq.c.  Tree.v is
    dev/tree.c over what drivers and classes do, and Pci.v is sys/pci.c over the ports of the
    configuration space (classes [PciPorts] and [PciPortsLaws]), the tree and the page tables.
    Ps2.v is the keyboard of arch/x64/ps2.c over Input.v, with the initialisation of its controller.
    Ports.v is the class [PortIO] of the machine's ports; Irqc.v is the interrupt descriptors of
    arch/x64/cpu.c and the interrupt controllers of arch/x64/irqc.c over it.  Acpi.v is the search for
    the tables of the firmware and their list in kernel/acpi/acpi.c.  Ahci.v is drv/ata/ahci.c with its
    optical drives (ahci/sr.c) over the registers of a port as a class with laws, and puts them
    below the block layer of Block.v.  Uart.v is arch/x64/pcuart/pcuart.c over the ports of the machine
    ([PortIO] with the laws [PortUarts]) and puts the serial ports behind Devfs.v and Irq.v.

    ** What the theorems show

    Invariants over any interleaving or sequence of calls, by induction on the steps: references
    are never used after release (Rcp.v), the ring of cbuf is a queue for any mixture of readers
    and writers (CBuf.v), the tables of open files stay well formed whatever the drivers answer
    (Vfs.v), block requests are served in order (Block.v), interrupts that fit in the queue are taken
    in order and their handlers run once (Irq.v), terminals keep their screens (Tty.v), a killed
    thread is never touched after it is gone (Kill.v), those that return from waiting for a process
    have its exit code (Exit.v), what comes in on a serial line is read in order (Uart.v).  Each says
    for which runs it holds, and a theorem next to it shows a run beyond that
    ([remove_twice_releases], [count_overflows], [irq_queue_overflow], [tkill_twice_faults], [prwait_too_late],
    [blk_interrupt_race], [uart_overrun]).

    Initialisation, over hardware and firmware as they are: which frames are there and that no two
    pieces share one (Setup.v), which tables of the firmware are taken and what is done without them
    (Acpi.v), where each interrupt goes (Irqc.v), when the keyboard is taken for working (Ps2.v).

    What an operation does, on every branch: allocation of frames, pools and pages takes the first
    run that is free and nothing else (Frame.v, Pool.v, Paging.v); opening, reading and closing
    files and devices (Vfs.v, Proc.v, Iso.v, Devfs.v); the scheduler's choice (Task.v); formatted
    text (Format.v); paths (Path.v); escape sequences (Console.v).

    Refinement: an ISO 9660 file is its bytes and a position, a directory the list of its records,
    a terminal a grid of rows, a file on a terminal its screen, a list a finite map.  Round trips:
    what is opened and closed, mapped and unmapped, allocated and freed, printed and read back; a
    whole address space from its creation to its end; the arguments a program is given and finds.
    Liveness and termination: no runnable thread starves whatever the other threads do while
    preemption is on, a reader and a writer of a ring are
    never both asleep, a worker serves all that waits in a known number of steps, and the reads of
    a block device that return, with those that do not.

    Composition: a program that elf_load accepts is in memory, in a map of its own, byte by byte
    as its file says, with its arguments where it looks for them, and what it does not accept
    leaves no map behind (Load.v).  It is never started, though: kpalloc keeps its locks, so
    syscall_spawn panics where the first thread of the program gets its second stack (Spawn.v).
    Keys are followed from the wire through repeats and the input thread to the readers (Ps2.v), text
    from a file on a terminal to its screen (Terminal.v), reads of an optical drive from the block
    layer to the port of the controller (Ahci.v).

    Faults of the code are theorems too; their names say what is wrong ([..._faults], [..._lost],
    [..._stuck], [..._overflows], [..._leaks], [..._overruns], [..._loses]), and they are stated for the code as it is.

    ** Fuel

    Loops that count down are structural.  A loop with another end has a number of rounds as an
    argument, and its theorem says how many are enough: as many as the bytes of a format or a
    path, the slots of a table, the sectors of a read ([sectors_of]), the records of a directory
    ([way_ok], [listable]), twice the threads for the scheduler, [drain_steps] for a worker.
    Termination is part of those statements: the result is [Ok].

    ** What is not modelled

    Of arch/x64: the timer of irqc.c, which is set with floating point, the task state segment and
    the base register of cpu.c with the disposal of stacks, fault.c, which prints and halts, the
    assembly and boot code.  kernel/acpi/lai.c, the callbacks of a library that is not in the
    repository, and acpi_shutdown, which calls it.  The walk over the ports of a controller in
    drv/ata/ahci.c.  Of mem/mem.c the mapping of the pieces at its end; mem/syscalls_mem.c, which
    returns what kpalloc returns, and that is no value.  Start-up order and messages: main.c, kernel/init,
    kernel/kpanic.c.  Of proc/task.c: task_init, the
    thread that task_prkill starts, the code of _call_async.  Of
    arch/x64/debug.c: printing the registers.  Of kernel/string.c: gcvt, which is floating point.  Locks have no
    state of their own where an operation runs under one from beginning to end: that is one step;
    where a lock is given up in between, the steps are separate and the theorems are about their
    interleavings.  There is one CPU, as in the code. *)

From stdpp Require Export base tactics numbers list list_numbers option gmap strings.
From Stdlib Require Export ZArith Lia.

#[global] Open Scope Z_scope.

(** ** Results of running kernel code

    [Panic msg] is a call of [kpanic(msg)], which never returns; [Fault] is an access
    the C program may not make: a NULL dereference, an index outside an object, a call
    through a NULL function pointer; [OutOfFuel] is a loop of the model that was not given
    enough steps, never a behaviour of the code. *)
Inductive res (A : Type) : Type :=
  | Ok (a : A)
  | Panic (msg : string)
  | Fault
  | OutOfFuel.

Arguments Ok {A} a.
Arguments Panic {A} msg.
Arguments Fault {A}.
Arguments OutOfFuel {A}.

#[global] Instance res_ret : MRet res := fun A a => Ok a.

#[global] Instance res_bind : MBind res := fun A B f m =>
  match m with
  | Ok a => f a
  | Panic s => Panic s
  | Fault => Fault
  | OutOfFuel => OutOfFuel
  end.

Definition res_of_option {A} (o : option A) : res A :=
  match o with Some a => Ok a | None => Fault end.

Lemma bind_Ok {A B} (m : res A) (f : A -> res B) b :
  (m ≫= f) = Ok b <-> exists a, m = Ok a /\ f a = Ok b.
Proof.
  split.
  - destruct m; simpl; intros; simplify_eq; eauto.
  - intros (a & -> & H); done.
Qed.

Lemma res_of_option_Ok {A} (o : option A) a :
  res_of_option o = Ok a <-> o = Some a.
Proof. destruct o; simpl; split; intros; simplify_eq; done. Qed.

(** ** Machine integers: a w-bit object is a [Z] and every operation that can leave the
    width is followed by the wrap-around of its C type. *)
Definition u8 (z : Z) : Z := z mod 2 ^ 8.
Definition u16 (z : Z) : Z := z mod 2 ^ 16.
Definition u32 (z : Z) : Z := z mod 2 ^ 32.
Definition u64 (z : Z) : Z := z mod 2 ^ 64.

Definition swrap (w z : Z) : Z := (z + 2 ^ (w - 1)) mod 2 ^ w - 2 ^ (w - 1).
Definition s8 : Z -> Z := swrap 8.
Definition s16 : Z -> Z := swrap 16.
Definition s32 : Z -> Z := swrap 32.
Definition s64 : Z -> Z := swrap 64.

Lemma u8_small z : 0 <= z < 2 ^ 8 -> u8 z = z.
Proof. apply Z.mod_small. Qed.
Lemma u16_small z : 0 <= z < 2 ^ 16 -> u16 z = z.
Proof. apply Z.mod_small. Qed.
Lemma u32_small z : 0 <= z < 2 ^ 32 -> u32 z = z.
Proof. apply Z.mod_small. Qed.
Lemma u64_small z : 0 <= z < 2 ^ 64 -> u64 z = z.
Proof. apply Z.mod_small. Qed.

Lemma u8_range z : 0 <= u8 z < 2 ^ 8.
Proof. by apply Z.mod_pos_bound. Qed.
Lemma u16_range z : 0 <= u16 z < 2 ^ 16.
Proof. by apply Z.mod_pos_bound. Qed.
Lemma u32_range z : 0 <= u32 z < 2 ^ 32.
Proof. by apply Z.mod_pos_bound. Qed.
Lemma u64_range z : 0 <= u64 z < 2 ^ 64.
Proof. by apply Z.mod_pos_bound. Qed.

Lemma swrap_small w z : 0 < w -> - 2 ^ (w - 1) <= z < 2 ^ (w - 1) -> swrap w z = z.
Proof.
  intros Hw Hz. unfold swrap. rewrite Z.mod_small; [lia|].
  replace (2 ^ w) with (2 * 2 ^ (w - 1)); [lia|].
  rewrite <- Z.pow_succ_r by lia. f_equal; lia.
Qed.

Lemma s8_small z : - 2 ^ 7 <= z < 2 ^ 7 -> s8 z = z.
Proof. intros. by apply swrap_small. Qed.
Lemma s16_small z : - 2 ^ 15 <= z < 2 ^ 15 -> s16 z = z.
Proof. intros. by apply swrap_small. Qed.
Lemma s32_small z : - 2 ^ 31 <= z < 2 ^ 31 -> s32 z = z.
Proof. intros. by apply swrap_small. Qed.
Lemma s64_small z : - 2 ^ 63 <= z < 2 ^ 63 -> s64 z = z.
Proof. intros. by apply swrap_small. Qed.

(** ** Objects in memory are lists; an access outside the object is a [Fault]. *)
Definition get {A} (l : list A) (i : Z) : option A :=
  if 0 <=? i then l !! Z.to_nat i else None.

Definition upd {A} (l : list A) (i : Z) (a : A) : option (list A) :=
  if (0 <=? i) && (i <? Z.of_nat (length l)) then Some (<[Z.to_nat i := a]> l) else None.

Definition load {A} (l : list A) (i : Z) : res A := res_of_option (get l i).
Definition store {A} (l : list A) (i : Z) (a : A) : res (list A) := res_of_option (upd l i a).

(** [zlen l] is the length of an object as a [size_t]. *)
Definition zlen {A} (l : list A) : Z := Z.of_nat (length l).

Lemma zlen_nonneg {A} (l : list A) : 0 <= zlen l.
Proof. unfold zlen; lia. Qed.

Lemma zlen_app {A} (l k : list A) : zlen (l ++ k) = zlen l + zlen k.
Proof. unfold zlen; rewrite length_app; lia. Qed.

Lemma get_Some {A} (l : list A) i a :
  get l i = Some a <-> 0 <= i /\ l !! Z.to_nat i = Some a.
Proof. unfold get. destruct (Z.leb_spec 0 i); split; intros; intuition (done || lia). Qed.

Lemma get_is_Some {A} (l : list A) i : is_Some (get l i) <-> 0 <= i < zlen l.
Proof.
  unfold get, zlen. destruct (Z.leb_spec 0 i).
  - rewrite lookup_lt_is_Some. lia.
  - split; [intros [? ?]; done | lia].
Qed.

Lemma get_in_range {A} (l : list A) i : 0 <= i < zlen l -> exists a, get l i = Some a.
Proof. intros H. apply get_is_Some in H as [a Ha]. eauto. Qed.

Lemma load_in_range {A} (l : list A) i : 0 <= i < zlen l -> exists a, load l i = Ok a /\ get l i = Some a.
Proof. intros [a Ha]%get_in_range. exists a. unfold load. by rewrite Ha. Qed.

Lemma store_in_range {A} (l : list A) i a :
  0 <= i < zlen l -> store l i a = Ok (<[Z.to_nat i := a]> l).
Proof.
  intros H. unfold store, upd, zlen in *.
  destruct (Z.leb_spec 0 i); destruct (Z.ltb_spec i (Z.of_nat (length l))); simpl; done || lia.
Qed.

Lemma get_of_nat {A} (l : list A) (n : nat) : get l (Z.of_nat n) = l !! n.
Proof. unfold get. destruct (Z.leb_spec 0 (Z.of_nat n)); [by rewrite Nat2Z.id | lia]. Qed.

(** Text of the source as bytes. *)
Fixpoint bytes (s : string) : list Z :=
  match s with
  | EmptyString => []
  | String c s' => Z.of_nat (Ascii.nat_of_ascii c) :: bytes s'
  end.

(** ** Return codes, [include/aex/vals/rcode_names.h] *)
Inductive aex_return_code : Type :=
  | EPERM | ENOENT | ENOPS | EINTR | EIO | EINVAL | EBADF | EBADEXE
  | ENOSYS | ENODEV | ENOTDIR | EISDIR | EROFS | ERANGE | EBUSY | ENAMETOOLONG.

Definition rc (e : aex_return_code) : Z :=
  match e with
  | EPERM => 1 | ENOENT => 2 | ENOPS => 3 | EINTR => 4
  | EIO => 5 | EINVAL => 6 | EBADF => 7 | EBADEXE => 8
  | ENOSYS => 9 | ENODEV => 10 | ENOTDIR => 11 | EISDIR => 12
  | EROFS => 13 | ERANGE => 14 | EBUSY => 15 | ENAMETOOLONG => 16
  end.

#[global] Instance aex_return_code_eq_dec : EqDecision aex_return_code.
Proof. solve_decision. Defined.

(** [RETURN_IF_ERROR(x)] and [IF_ERROR(x)] test [x < 0]. *)
Definition is_error (x : Z) : bool := x <? 0.

Lemma rc_is_error e : is_error (- rc e) = true.
Proof. by destruct e. Qed.

Lemma rc_inj e e' : rc e = rc e' -> e = e'.
Proof. destruct e, e'; simpl; intros; done || lia. Qed.

(** [min] and [max] of [include/aex/math.h]. *)
Definition cmin (x y : Z) : Z := if x <? y then x else y.
Definition cmax (x y : Z) : Z := if x >? y then x else y.

Lemma cmin_min x y : cmin x y = Z.min x y.
Proof. unfold cmin. destruct (Z.ltb_spec x y); lia. Qed.
Lemma cmax_max x y : cmax x y = Z.max x y.
Proof. unfold cmax. rewrite Z.gtb_ltb. destruct (Z.ltb_spec y x); lia. Qed.

(** ** Automation *)

(** Turn the boolean comparisons of the code into inequalities, one case each. *)
Ltac case_cmp :=
  repeat match goal with
  | |- context [Z.ltb ?a ?b] => destruct (Z.ltb_spec a b)
  | |- context [Z.leb ?a ?b] => destruct (Z.leb_spec a b)
  | |- context [Z.eqb ?a ?b] => destruct (Z.eqb_spec a b)
  | H : context [Z.ltb ?a ?b] |- _ => destruct (Z.ltb_spec a b)
  | H : context [Z.leb ?a ?b] |- _ => destruct (Z.leb_spec a b)
  | H : context [Z.eqb ?a ?b] |- _ => destruct (Z.eqb_spec a b)
  end.

(** Open up the results of [≫=] in the hypotheses. *)
Ltac res_inv :=
  repeat match goal with
  | H : (_ ≫= _) = Ok _ |- _ => apply bind_Ok in H as (? & ? & ?)
  | H : res_of_option _ = Ok _ |- _ => apply res_of_option_Ok in H
  | H : Ok _ = Ok _ |- _ => injection H as H; subst
  | H : Panic _ = Ok _ |- _ => discriminate H
  | H : Fault = Ok _ |- _ => discriminate H
  | H : OutOfFuel = Ok _ |- _ => discriminate H
  | p : (_ * _)%type |- _ => destruct p; simpl in *
  end.

(** Close a decidable goal by evaluating its decision procedure. *)
Ltac decided :=
  match goal with |- ?P => exact (bool_decide_eq_true_1 P eq_refl) end.

Create HintDb kern.
Create Rewrite HintDb kern.
#[export] Hint Resolve zlen_nonneg u8_range u16_range u32_range u64_range : kern.
#[export] Hint Rewrite @zlen_app @length_app @length_insert @length_take @length_drop
  @length_replicate cmin_min cmax_max : kern.

(** ** Generic facts on lists *)

Lemma load_nat {A} (l : list A) i (x : A) : 0 <= i -> l !! Z.to_nat i = Some x -> load l i = Ok x.
Proof.
  intros Hi Hx. unfold load. replace i with (Z.of_nat (Z.to_nat i)) by lia.
  by rewrite get_of_nat, Hx.
Qed.

Lemma lookup_zlen {A} (l : list A) i :
  0 <= i < zlen l -> exists x, l !! Z.to_nat i = Some x.
Proof. intros H. apply lookup_lt_is_Some. unfold zlen in H. lia. Qed.

Lemma zlen_insert {A} (l : list A) i x : zlen (<[i := x]> l) = zlen l.
Proof. unfold zlen. by rewrite length_insert. Qed.

Lemma take_S_insert {A} (m : list A) k v :
  (k < length m)%nat -> take (S k) (<[k := v]> m) = take k m ++ [v].
Proof.
  intros Hk. rewrite (take_S_r _ _ v).
  - by rewrite take_insert_ge by lia.
  - by apply list_lookup_insert_eq.
Qed.

Lemma drop_S_lookup {A} (l : list A) k x :
  l !! k = Some x -> drop k l = x :: drop (S k) l.
Proof. intros. by apply drop_S. Qed.

Lemma load_0 {A} (x : A) l : load (x :: l) 0 = Ok x.
Proof. reflexivity. Qed.

Lemma load_app {A} (pre post : list A) x : load (pre ++ x :: post) (zlen pre) = Ok x.
Proof. unfold load, zlen. by rewrite get_of_nat, list_lookup_middle. Qed.

Lemma store_app {A} (pre post : list A) x y :
  store (pre ++ x :: post) (zlen pre) y = Ok (pre ++ y :: post).
Proof.
  rewrite store_in_range.
  - unfold zlen. rewrite Nat2Z.id. rewrite insert_app_r_alt by lia. by rewrite Nat.sub_diag.
  - unfold zlen. rewrite length_app. simpl. lia.
Qed.

Lemma load_app_at {A} (pre post : list A) x i : i = zlen pre -> load (pre ++ x :: post) i = Ok x.
Proof. intros ->. apply load_app. Qed.

Lemma store_app_at {A} (pre post : list A) x y i :
  i = zlen pre -> store (pre ++ x :: post) i y = Ok (pre ++ y :: post).
Proof. intros ->. apply store_app. Qed.

Lemma zlen_cons {A} (x : A) l : zlen (x :: l) = zlen l + 1.
Proof. unfold zlen. simpl. lia. Qed.

Lemma zlen_nil {A} : zlen (@nil A) = 0.
Proof. reflexivity. Qed.

#[export] Hint Rewrite @zlen_cons @zlen_nil : kern.

(** Both ends of a list of at least two elements. *)
Lemma list_two_ends {A} (l : list A) :
  l = [] \/ (exists x, l = [x]) \/ exists x m y, l = x :: m ++ [y].
Proof.
  destruct l as [|x l]; [by left|]. right.
  destruct l as [|y l] using rev_ind; [left|right]; eauto.
Qed.

(** ** Little-endian integers in memory *)
Fixpoint le_bytes (n : nat) (v : Z) : list Z :=
  match n with O => [] | S n' => v mod 256 :: le_bytes n' (v / 256) end.

Fixpoint le_val (bs : list Z) : Z :=
  match bs with [] => 0 | b :: bs' => b + 256 * le_val bs' end.

Lemma le_bytes_val n : forall v, 0 <= v < 2 ^ (8 * Z.of_nat n) -> le_val (le_bytes n v) = v.
Proof.
  induction n as [|n IH]; intros v Hv; cbn [le_bytes le_val].
  - simpl in Hv. lia.
  - replace (2 ^ (8 * Z.of_nat (S n))) with (256 * 2 ^ (8 * Z.of_nat n)) in Hv.
    + rewrite IH.
      * pose proof (Z.div_mod v 256 ltac:(lia)). lia.
      * split; [apply Z.div_pos; lia|apply Z.div_lt_upper_bound; lia].
    + replace (8 * Z.of_nat (S n)) with (8 + 8 * Z.of_nat n) by lia. rewrite Z.pow_add_r by lia. done.
Qed.

Lemma length_le_bytes n : forall v, length (le_bytes n v) = n.
Proof. induction n as [|n IH]; intros v; simpl; [done|]. by rewrite IH. Qed.
