(* ===== verification/Strings.v ===== *)
(** * kernel/string.c: byte and string routines, number conversion

    A [char*] argument is the list of bytes (0..255) from the address it points at to the
    end of the object that holds it; a routine that walks past that end is a [Fault].
    [char] is signed on this target, so comparisons and arithmetic on characters go
    through [s8].  [memcpy] takes two distinct objects ([restrict]); [memmove] one object
    and two offsets into it. *)

From S2P Require Import Prelude.

(** ** Memory *)

Fixpoint memcmp (a b : list Z) (size : nat) : res Z :=
  match size with
  | O => Ok 0
  | S n =>
      match a, b with
      | x :: a', y :: b' =>
          if x <? y then Ok (-1) else if y <? x then Ok 1 else memcmp a' b' n
      | _, _ => Fault
      end
  end.

(** [for (i = 0; i < size; i++) dst[i] = src[i];] from offsets [doff] and [soff]. *)
Fixpoint memcpy_loop (dst : list Z) (doff : Z) (src : list Z) (soff : Z) (i : Z) (n : nat)
  : res (list Z) :=
  match n with
  | O => Ok dst
  | S n' =>
      v ← load src (soff + i);
      dst' ← store dst (doff + i) v;
      memcpy_loop dst' doff src soff (i + 1) n'
  end.

Definition memcpy (dst : list Z) (doff : Z) (src : list Z) (soff : Z) (size : Z) : res (list Z) :=
  memcpy_loop dst doff src soff 0 (Z.to_nat size).

Fixpoint memmove_up (m : list Z) (doff soff i : Z) (n : nat) : res (list Z) :=
  match n with
  | O => Ok m
  | S n' =>
      v ← load m (soff + i);
      m' ← store m (doff + i) v;
      memmove_up m' doff soff (i + 1) n'
  end.

(** [for (i = size; i != 0; i--) dst[i-1] = src[i-1];] *)
Fixpoint memmove_down (m : list Z) (doff soff : Z) (i : nat) : res (list Z) :=
  match i with
  | O => Ok m
  | S i' =>
      v ← load m (soff + Z.of_nat i');
      m' ← store m (doff + Z.of_nat i') v;
      memmove_down m' doff soff i'
  end.

Definition memmove (m : list Z) (doff soff size : Z) : res (list Z) :=
  if doff <? soff then memmove_up m doff soff 0 (Z.to_nat size)
  else memmove_down m doff soff (Z.to_nat size).

Fixpoint memset_loop (m : list Z) (off value i : Z) (n : nat) : res (list Z) :=
  match n with
  | O => Ok m
  | S n' => m' ← store m (off + i) (u8 value); memset_loop m' off value (i + 1) n'
  end.

Definition memset (m : list Z) (off value size : Z) : res (list Z) :=
  memset_loop m off value 0 (Z.to_nat size).

(** ** Strings *)

Fixpoint strlen (s : list Z) : res Z :=
  match s with
  | [] => Fault
  | c :: s' => if c =? 0 then Ok 0 else n ← strlen s'; Ok (n + 1)
  end.

Fixpoint strcmp (left right : list Z) : res Z :=
  match left, right with
  | a :: l, b :: r =>
      if a =? b then (if a =? 0 then Ok 0 else strcmp l r)
      else Ok (if s8 a <? s8 b then -1 else 1)
  | _, _ => Fault
  end.

(** [i] is the index the loop has reached; [src] is what is left of the source. *)
Fixpoint strcpy_loop (dst : list Z) (i : Z) (src : list Z) : res (list Z) :=
  match src with
  | [] => Fault
  | c :: src' =>
      if c =? 0 then store dst i 0
      else dst' ← store dst i c; strcpy_loop dst' (i + 1) src'
  end.

Definition strcpy (dst : list Z) (src : list Z) : res (list Z) := strcpy_loop dst 0 src.

Definition toupper (c : Z) : Z := if (97 <=? c) && (c <=? 122) then c - 32 else c.
Definition tolower (c : Z) : Z := if (65 <=? c) && (c <=? 90) then c + 32 else c.

(** The result is the offset of the returned pointer. *)
Fixpoint strchrnul (s : list Z) (c : Z) : res Z :=
  match s with
  | [] => Fault
  | x :: s' => if (s8 x =? c) || (x =? 0) then Ok 0 else n ← strchrnul s' c; Ok (n + 1)
  end.

(** ** Numbers to text: [NTOA_COMMON] and [UNTOA_COMMON] *)

Definition NTOA_DICTIONARY : list Z :=
  bytes "zyxwvutsrqponmlkjihgfedcba9876543210123456789abcdefghijklmnopqrstuvwxyz".

(** [do { *ptr++ = NTOA_DICTIONARY[35 + value % base]; value /= base; } while (value);] *)
Fixpoint ntoa_digits (fuel : nat) (str : list Z) (ptr value base : Z) : res (list Z * Z) :=
  match fuel with
  | O => OutOfFuel
  | S f =>
      c ← load NTOA_DICTIONARY (35 + Z.rem value base);
      str' ← store str ptr c;
      let value' := Z.quot value base in
      if value' =? 0 then Ok (str', ptr + 1) else ntoa_digits f str' (ptr + 1) value' base
  end.

(** [while (low < ptr) { tmp = *low; *low++ = *ptr; *ptr-- = tmp; }] *)
Fixpoint ntoa_reverse (fuel : nat) (str : list Z) (low ptr : Z) : res (list Z) :=
  if low <? ptr then
    match fuel with
    | O => OutOfFuel
    | S f =>
        tmp ← load str low;
        v ← load str ptr;
        str1 ← store str low v;
        str2 ← store str1 ptr tmp;
        ntoa_reverse f str2 (low + 1) (ptr - 1)
    end
  else Ok str.

(** A [long] has at most 64 digits in any base, so 64 rounds are enough for both loops. *)
Definition ntoa_fuel : nat := 64.

Definition ntoa_common (str : list Z) (value base : Z) (signed : bool) : res (list Z) :=
  if (base <? 2) || (base >? 36) then store str 0 0
  else
    '(str1, low) ← (if signed && (value <? 0) && (base =? 10)
                    then s ← store str 0 45; Ok (s, 1) else Ok (str, 0));
    '(str2, ptr) ← ntoa_digits ntoa_fuel str1 low value base;
    str3 ← store str2 ptr 0;
    ntoa_reverse ntoa_fuel str3 low (ptr - 1).

Definition itoa (value : Z) (str : list Z) (base : Z) : res (list Z) := ntoa_common str (s32 value) base true.
Definition ltoa (value : Z) (str : list Z) (base : Z) : res (list Z) := ntoa_common str (s64 value) base true.
Definition htoa (value : Z) (str : list Z) (base : Z) : res (list Z) := ntoa_common str (s16 value) base true.
Definition uitoa (value : Z) (str : list Z) (base : Z) : res (list Z) := ntoa_common str (u32 value) base false.
Definition ultoa (value : Z) (str : list Z) (base : Z) : res (list Z) := ntoa_common str (u64 value) base false.
Definition uhtoa (value : Z) (str : list Z) (base : Z) : res (list Z) := ntoa_common str (u16 value) base false.

(** ** Text to numbers: [ATON_COMMON] and [UATON_COMMON]; [wrap] is the width of [x] *)

Fixpoint aton_loop (wrap : Z -> Z) (acc : Z) (str : list Z) : res Z :=
  match str with
  | [] => Fault
  | c :: str' =>
      if c =? 0 then Ok acc else aton_loop wrap (wrap (acc * 10 + s8 c - 48)) str'
  end.

Definition aton_common (wrap : Z -> Z) (str : list Z) : res Z :=
  c ← load str 0;
  if c =? 45 then r ← aton_loop wrap 0 (drop 1 str); Ok (wrap ((-1) * r))
  else r ← aton_loop wrap 0 str; Ok (wrap (1 * r)).

Definition uaton_common (wrap : Z -> Z) (str : list Z) : res Z := aton_loop wrap 0 str.

Definition atoi : list Z -> res Z := aton_common s32.
Definition atol : list Z -> res Z := aton_common s64.
Definition atoh : list Z -> res Z := aton_common s16.
Definition atoui : list Z -> res Z := uaton_common u32.
Definition atoul : list Z -> res Z := uaton_common u64.
Definition atouh : list Z -> res Z := uaton_common u16.

(** ** Reference descriptions *)

(** A C string: bytes other than NUL. *)
Definition nonul (s : list Z) : Prop := Forall (fun c => 1 <= c < 256) s.
#[global] Instance nonul_dec s : Decision (nonul s) := _.

(** [splice m off bs]: [m] with the bytes from [off] on replaced by [bs]. *)
Definition splice {A} (m : list A) (off : Z) (bs : list A) : list A :=
  take (Z.to_nat off) m ++ bs ++ drop (Z.to_nat off + length bs) m.

(** [slice m off n]: the [n] bytes of [m] at [off]. *)
Definition slice {A} (m : list A) (off n : Z) : list A :=
  take (Z.to_nat n) (drop (Z.to_nat off) m).

Definition digit_char (d : Z) : Z := if d <? 10 then 48 + d else 87 + d.

(** Digits of [n] in base [b], least significant first. *)
Fixpoint digits_le (fuel : nat) (b n : Z) : list Z :=
  match fuel with
  | O => []
  | S f => digit_char (n mod b) :: (if n / b =? 0 then [] else digits_le f b (n / b))
  end.

(** What a number prints as: a minus sign in base 10 only, then the digits of its
    absolute value, most significant first. *)
Definition numeral (v b : Z) (signed : bool) : list Z :=
  (if signed && (v <? 0) && (b =? 10) then [45] else []) ++ reverse (digits_le ntoa_fuel b (Z.abs v)).

(** ** Lemmas: copying *)

Lemma zlen_splice {A} (m bs : list A) off :
  0 <= off -> off + zlen bs <= zlen m -> zlen (splice m off bs) = zlen m.
Proof. unfold splice, zlen. intros. rewrite !length_app, length_take, length_drop. lia. Qed.

Lemma zlen_slice {A} (m : list A) off n :
  0 <= off -> 0 <= n -> off + n <= zlen m -> zlen (slice m off n) = n.
Proof. unfold slice, zlen. intros. rewrite length_take, length_drop. lia. Qed.

Lemma slice_0 {A} (m : list A) off : slice m off 0 = [].
Proof. reflexivity. Qed.

Lemma splice_nil {A} (m : list A) off : splice m off [] = m.
Proof. unfold splice. simpl. rewrite Nat.add_0_r. apply take_drop. Qed.

Lemma splice_0 {A} (m bs : list A) : splice m 0 bs = bs ++ drop (length bs) m.
Proof. reflexivity. Qed.

Lemma splice_insert_cons {A} (m : list A) off v bs :
  0 <= off < zlen m ->
  splice (<[Z.to_nat off := v]> m) (off + 1) bs = splice m off (v :: bs).
Proof.
  intros H. unfold splice, zlen in *.
  replace (Z.to_nat (off + 1)) with (S (Z.to_nat off)) by lia.
  rewrite take_S_insert, drop_insert_lt by lia. rewrite <- (assoc_L (++)). simpl.
  f_equal. f_equal. f_equal. f_equal. lia.
Qed.

Lemma slice_cons {A} (m : list A) off n x :
  0 <= off -> m !! Z.to_nat off = Some x ->
  slice m off (Z.of_nat (S n)) = x :: slice m (off + 1) (Z.of_nat n).
Proof.
  intros Ho Hx. unfold slice. rewrite !Nat2Z.id, (drop_S_lookup _ _ x Hx).
  simpl. f_equal. f_equal. f_equal. lia.
Qed.

Lemma slice_splice {A} (m bs : list A) off n :
  0 <= off -> zlen bs = n -> off + n <= zlen m -> slice (splice m off bs) off n = bs.
Proof.
  intros Ho Hb Hl. unfold slice, splice, zlen in *.
  rewrite drop_app_length' by (rewrite length_take; lia).
  rewrite take_app_length' by lia. done.
Qed.

Lemma slice_slice {A} (m : list A) off n o k : 0 <= off -> 0 <= o -> 0 <= k -> o + k <= n ->
  slice (slice m off n) o k = slice m (off + o) k.
Proof.
  intros. unfold slice. rewrite skipn_firstn_comm, drop_drop, take_take. f_equal; [lia|]. f_equal. lia.
Qed.

Lemma slice_join {A} (m : list A) off n k : 0 <= off -> 0 <= n -> 0 <= k ->
  slice m off n ++ slice m (off + n) k = slice m off (n + k).
Proof.
  intros. unfold slice. replace (Z.to_nat (off + n)) with (Z.to_nat off + Z.to_nat n)%nat by lia. rewrite <- drop_drop.
  replace (Z.to_nat (n + k)) with (Z.to_nat n + Z.to_nat k)%nat by lia. by rewrite take_take_drop.
Qed.

Lemma slice_splice_in {A} (m bs : list A) off o k : 0 <= off -> 0 <= o -> 0 <= k -> o + k <= zlen bs -> off + zlen bs <= zlen m ->
  slice (splice m off bs) (off + o) k = slice bs o k.
Proof.
  intros. rewrite <- (slice_slice _ off (zlen bs)) by lia. by rewrite slice_splice by lia.
Qed.

Lemma splice_splice {A} (m xs ys : list A) off : 0 <= off -> off + zlen xs + zlen ys <= zlen m ->
  splice (splice m off xs) (off + zlen xs) ys = splice m off (xs ++ ys).
Proof.
  intros Ho Hl. unfold splice, zlen in *. replace (Z.to_nat (off + Z.of_nat (length xs))) with (Z.to_nat off + length xs)%nat by lia.
  rewrite (app_assoc (take _ m)). rewrite (take_app_length' (take _ m ++ xs)) by (rewrite length_app, length_take; lia).
  rewrite <- drop_drop, (drop_app_length' (take _ m ++ xs)) by (rewrite length_app, length_take; lia).
  rewrite drop_drop, length_app, <- !app_assoc. do 4 f_equal. lia.
Qed.

Lemma get_splice_out {A} (m bs : list A) off p :
  0 <= off -> off + zlen bs <= zlen m -> p < off \/ off + zlen bs <= p ->
  get (splice m off bs) p = get m p.
Proof.
  intros Ho Hl Hp. unfold get, splice, zlen in *. destruct (Z.leb_spec 0 p); [|done].
  destruct Hp.
  - rewrite lookup_app_l by (rewrite length_take; lia). apply lookup_take_lt. lia.
  - rewrite lookup_app_r by (rewrite length_take; lia). rewrite length_take.
    rewrite lookup_app_r by lia. rewrite lookup_drop. f_equal. lia.
Qed.

Lemma memcpy_loop_ok dst doff src soff n : forall i,
  0 <= i -> 0 <= doff -> 0 <= soff ->
  doff + i + Z.of_nat n <= zlen dst -> soff + i + Z.of_nat n <= zlen src ->
  memcpy_loop dst doff src soff i n
  = Ok (splice dst (doff + i) (slice src (soff + i) (Z.of_nat n))).
Proof.
  revert dst. induction n as [|n IH]; intros dst i Hi Hd Hs Hdl Hsl.
  - by rewrite slice_0, splice_nil.
  - destruct (lookup_zlen src (soff + i)) as [x Hx]; [lia|].
    cbn [memcpy_loop]. rewrite (load_nat _ _ x) by (lia || done). simpl.
    rewrite store_in_range by lia. simpl.
    rewrite IH by (rewrite ?zlen_insert; lia).
    rewrite (slice_cons _ _ _ x) by (lia || done).
    rewrite <- splice_insert_cons by lia. by rewrite !Z.add_assoc.
Qed.

(** A source that ends too early. *)
Lemma memcpy_over dst src n : zlen src < n -> zlen src <= zlen dst -> memcpy dst 0 src 0 n = Fault.
Proof.
  intros Hs Hd. unfold memcpy. assert (forall k i d, 0 <= i <= zlen src -> zlen src < i + Z.of_nat k -> zlen d = zlen dst -> memcpy_loop d 0 src 0 i k = Fault) as H.
  { induction k as [|k IH]; intros i d Hi Hk Hz; [lia|]. cbn [memcpy_loop]. rewrite !Z.add_0_l. destruct (decide (i = zlen src)) as [->|Hne].
    - unfold load. destruct (get src (zlen src)) as [x|] eqn:E; [|done]. apply get_Some in E as [_ E]. apply lookup_lt_Some in E. unfold zlen in E. lia.
    - destruct (lookup_zlen src i) as [x Hx]; [lia|]. rewrite (load_nat _ _ x) by (lia || done). cbn [mbind res_bind].
      rewrite store_in_range by lia. cbn [mbind res_bind]. apply IH; rewrite ?zlen_insert; lia. }
  pose proof (zlen_nonneg src). apply H; lia.
Qed.

Lemma memcpy_ok dst doff src soff n :
  0 <= doff -> 0 <= soff -> 0 <= n -> doff + n <= zlen dst -> soff + n <= zlen src ->
  memcpy dst doff src soff n = Ok (splice dst doff (slice src soff n)).
Proof.
  intros. unfold memcpy. rewrite memcpy_loop_ok by lia.
  by rewrite !Z.add_0_r, Z2Nat.id by lia.
Qed.

(** While the upward loop runs, what it still has to read is unchanged. *)
Lemma memmove_up_memcpy m0 doff soff n : forall m i,
  0 <= i -> 0 <= doff < soff -> zlen m = zlen m0 ->
  (forall p, soff + i <= p -> get m p = get m0 p) ->
  memmove_up m doff soff i n = memcpy_loop m doff m0 soff i n.
Proof.
  induction n as [|n IH]; intros m i Hi Hd Hlen Heq; simpl; [done|].
  unfold load at 1 2. rewrite Heq by lia.
  destruct (get m0 (soff + i)) as [v|]; simpl; [|done].
  destruct (decide (doff + i < zlen m)) as [Hlt|Hge].
  - rewrite store_in_range by lia. simpl.
    apply IH; [lia|lia|by rewrite zlen_insert|].
    intros p Hp. rewrite <- Heq by lia. unfold get.
    destruct (Z.leb_spec 0 p); [|done]. apply list_lookup_insert_ne. lia.
  - unfold store, upd, zlen in *.
    by destruct (Z.ltb_spec (doff + i) (Z.of_nat (length m))); [lia|rewrite andb_false_r].
Qed.

Lemma memmove_down_ok m0 doff soff n : forall m,
  0 <= soff <= doff -> zlen m = zlen m0 -> doff + Z.of_nat n <= zlen m ->
  (forall p, p < soff + Z.of_nat n -> get m p = get m0 p) ->
  memmove_down m doff soff n = Ok (splice m doff (slice m0 soff (Z.of_nat n))).
Proof.
  induction n as [|n IH]; intros m Hd Hlen Hn Heq; cbn [memmove_down].
  - by rewrite slice_0, splice_nil.
  - destruct (lookup_zlen m0 (soff + Z.of_nat n)) as [x Hx]; [lia|].
    unfold load. rewrite Heq by lia. unfold get.
    destruct (Z.leb_spec 0 (soff + Z.of_nat n)); [|lia]. rewrite Hx. simpl.
    rewrite store_in_range by lia. simpl.
    rewrite IH; [f_equal|lia|by rewrite zlen_insert|rewrite zlen_insert; lia|].
    + unfold slice, splice. rewrite !Nat2Z.id.
      rewrite take_insert_ge by lia.
      assert (drop (Z.to_nat soff) m0 !! n = Some x) as Hx'.
      { rewrite lookup_drop, <- Hx. f_equal. lia. }
      assert (Hnl := lookup_lt_Some _ _ _ Hx'). rewrite length_drop in Hnl.
      rewrite (take_S_r _ _ x Hx'), !length_app, !length_take, !length_drop. simpl.
      rewrite Nat.min_l by lia.
      replace (Z.to_nat doff + n)%nat with (Z.to_nat (doff + Z.of_nat n)) by lia.
      rewrite (drop_S_lookup (<[_ := x]> m) _ x)
        by (apply list_lookup_insert_eq; unfold zlen in *; lia).
      rewrite drop_insert_lt by lia.
      rewrite <- !(assoc_L (++)). simpl. do 4 f_equal. lia.
    + intros p Hp. rewrite <- Heq by lia. unfold get.
      destruct (Z.leb_spec 0 p); [|done]. apply list_lookup_insert_ne. lia.
Qed.

Lemma memmove_ok m doff soff n :
  0 <= doff -> 0 <= soff -> 0 <= n -> doff + n <= zlen m -> soff + n <= zlen m ->
  memmove m doff soff n = Ok (splice m doff (slice m soff n)).
Proof.
  intros. unfold memmove. destruct (Z.ltb_spec doff soff).
  - rewrite (memmove_up_memcpy m) by (done || lia). by apply memcpy_ok.
  - rewrite (memmove_down_ok m) by (rewrite ?Z2Nat.id; done || lia). by rewrite Z2Nat.id.
Qed.

Lemma memset_loop_ok m off v n : forall i,
  0 <= off -> 0 <= i -> off + i + Z.of_nat n <= zlen m ->
  memset_loop m off v i n = Ok (splice m (off + i) (replicate n (u8 v))).
Proof.
  revert m. induction n as [|n IH]; intros m i Ho Hi Hl; simpl.
  - by rewrite splice_nil.
  - rewrite store_in_range by lia. simpl. rewrite IH by (rewrite ?zlen_insert; lia).
    rewrite <- splice_insert_cons by lia. by rewrite Z.add_assoc.
Qed.

Lemma memset_ok m off v n :
  0 <= off -> 0 <= n -> off + n <= zlen m ->
  memset m off v n = Ok (splice m off (replicate (Z.to_nat n) (u8 v))).
Proof. intros. unfold memset. rewrite memset_loop_ok by lia. by rewrite Z.add_0_r. Qed.

(** ** Lemmas: strings *)

Lemma nonul_cons c s : nonul (c :: s) <-> 1 <= c < 256 /\ nonul s.
Proof. unfold nonul. by rewrite Forall_cons. Qed.

Lemma nonul_app s t : nonul (s ++ t) <-> nonul s /\ nonul t.
Proof. unfold nonul. by rewrite Forall_app. Qed.

Lemma strlen_cstr s r : nonul s -> strlen (s ++ 0 :: r) = Ok (zlen s).
Proof.
  induction s as [|c s IH]; intros Hs; simpl; [done|].
  apply nonul_cons in Hs as [Hc Hs]. destruct (Z.eqb_spec c 0); [lia|].
  rewrite IH by done. simpl. by rewrite zlen_cons.
Qed.

Lemma strcmp_eq_iff a b ra rb : nonul a -> nonul b ->
  strcmp (a ++ 0 :: ra) (b ++ 0 :: rb) = Ok 0 <-> a = b.
Proof.
  revert b. induction a as [|x a IH]; intros [|y b] Ha Hb; simpl.
  - done.
  - apply nonul_cons in Hb as [Hy _]. destruct y; [lia| |lia].
    split; [by destruct (_ <? _) | done].
  - apply nonul_cons in Ha as [Hx _]. destruct (Z.eqb_spec x 0); [lia|].
    split; [by destruct (_ <? _) | done].
  - apply nonul_cons in Ha as [Hx Ha]. apply nonul_cons in Hb as [Hy Hb].
    destruct (Z.eqb_spec x y) as [->|Hne].
    + destruct (Z.eqb_spec y 0); [lia|]. rewrite IH by done. split; congruence.
    + split; [by destruct (_ <? _) | congruence].
Qed.

Lemma strcmp_total a b ra rb : nonul a -> nonul b ->
  exists v, strcmp (a ++ 0 :: ra) (b ++ 0 :: rb) = Ok v /\ (v = 0 <-> a = b).
Proof.
  intros Ha Hb. assert (exists v, strcmp (a ++ 0 :: ra) (b ++ 0 :: rb) = Ok v) as [v Hv].
  { clear Hb. revert b. induction a as [|x a IH]; intros [|y b]; cbn [strcmp app]; [eauto|..].
    - destruct (0 =? y); eauto.
    - apply nonul_cons in Ha as [Hx Ha]. destruct (Z.eqb_spec x 0); [lia|eauto].
    - apply nonul_cons in Ha as [Hx Ha].
      destruct (Z.eqb_spec x y); [|eauto]. destruct (Z.eqb_spec x 0); [lia|eauto]. }
  exists v. split; [done|]. rewrite <- (strcmp_eq_iff a b ra rb), Hv by done.
  split; congruence.
Qed.

Lemma memcmp_eq_iff n : forall a b,
  (n <= length a)%nat -> (n <= length b)%nat -> memcmp a b n = Ok 0 <-> take n a = take n b.
Proof.
  induction n as [|n IH]; intros [|x a] [|y b]; simpl; intros; try lia; try done.
  destruct (Z.ltb_spec x y); [split; [done|intros [=]; lia]|].
  destruct (Z.ltb_spec y x); [split; [done|intros [=]; lia]|].
  rewrite IH by lia. assert (x = y) as -> by lia. split; congruence.
Qed.

Lemma strcpy_loop_ok pre s r : forall dst, nonul s -> (length s < length dst)%nat ->
  strcpy_loop (pre ++ dst) (zlen pre) (s ++ 0 :: r)
  = Ok (pre ++ s ++ 0 :: drop (S (length s)) dst).
Proof.
  revert pre. induction s as [|c s IH]; intros pre [|d dst] Hs Hl; simpl in *; try lia.
  - by rewrite store_app.
  - apply nonul_cons in Hs as [Hc Hs]. destruct (Z.eqb_spec c 0); [lia|].
    rewrite store_app. simpl.
    specialize (IH (pre ++ [c]) dst Hs ltac:(lia)).
    rewrite zlen_app, <- !(assoc_L (++)) in IH. exact IH.
Qed.

Lemma strcpy_ok s r dst : nonul s -> (length s < length dst)%nat ->
  strcpy dst (s ++ 0 :: r) = Ok (s ++ 0 :: drop (S (length s)) dst).
Proof. apply (strcpy_loop_ok []). Qed.

(** ** Lemmas: numbers to text *)

Lemma dictionary_lookup r : -35 <= r <= 35 ->
  load NTOA_DICTIONARY (35 + r) = Ok (digit_char (Z.abs r)).
Proof.
  intros Hr.
  assert (Forall (fun k => load NTOA_DICTIONARY (35 + (Z.of_nat k - 35))
                     = Ok (digit_char (Z.abs (Z.of_nat k - 35)))) (seq 0 71)) as H.
  { cbv [seq]. repeat constructor. }
  rewrite Forall_forall in H. specialize (H (Z.to_nat (r + 35))).
  rewrite Z2Nat.id in H by lia. rewrite Z.add_simpl_r in H.
  apply H. apply elem_of_seq. lia.
Qed.

Lemma abs_rem v b : 0 < b -> Z.abs (Z.rem v b) = Z.abs v mod b.
Proof.
  intros Hb. rewrite <- Z.rem_mod_nonneg by lia. rewrite <- (Z.abs_eq b) at 2 by lia.
  by rewrite Z.rem_abs by lia.
Qed.

Lemma abs_quot v b : 0 < b -> Z.abs (Z.quot v b) = Z.abs v / b.
Proof.
  intros Hb. rewrite <- Z.quot_div_nonneg by lia. rewrite <- (Z.abs_eq b) at 2 by lia.
  by rewrite Z.quot_abs by lia.
Qed.

Lemma ntoa_digits_ok f : forall pre rest v b,
  2 <= b <= 36 -> (0 < f)%nat -> Z.abs v < b ^ Z.of_nat f ->
  (length (digits_le f b (Z.abs v)) <= length rest)%nat ->
  ntoa_digits f (pre ++ rest) (zlen pre) v b
  = Ok (pre ++ digits_le f b (Z.abs v) ++ drop (length (digits_le f b (Z.abs v))) rest,
        zlen pre + zlen (digits_le f b (Z.abs v))).
Proof.
  induction f as [|f IH]; intros pre rest v b Hb Hf Hv Hlen; [lia|].
  destruct rest as [|r rest]; [simpl in Hlen; lia|].
  cbn [ntoa_digits digits_le] in *.
  assert (Z.abs (Z.rem v b) = Z.abs v mod b) as Hrem by (apply abs_rem; lia).
  assert (0 <= Z.abs v mod b < b) by (apply Z.mod_pos_bound; lia).
  rewrite dictionary_lookup by lia. cbn [mbind res_bind]. rewrite store_app.
  cbn [mbind res_bind]. rewrite Hrem.
  assert (Z.abs (Z.quot v b) = Z.abs v / b) as Hquot by (apply abs_quot; lia).
  rewrite <- Hquot in *. set (q := Z.quot v b) in *.
  destruct (Z.eqb_spec q 0) as [Hq|Hq]; destruct (Z.eqb_spec (Z.abs q) 0); try lia.
  - rewrite zlen_cons. simpl. by rewrite zlen_nil.
  - assert (Z.abs v < b * b ^ Z.of_nat f).
    { rewrite <- Z.pow_succ_r by lia. rewrite <- Nat2Z.inj_succ. done. }
    assert (0 < f)%nat.
    { destruct f; [|lia]. exfalso.
      assert (Z.abs v / b = 0) by (apply Z.div_small; simpl in *; lia). lia. }
    specialize (IH (pre ++ [digit_char (Z.abs v mod b)]) rest q b Hb ltac:(lia)).
    rewrite zlen_app, zlen_cons, zlen_nil in IH. cbn [length] in Hlen.
    rewrite zlen_cons. rewrite <- !(assoc_L (++)) in IH. cbn [app length drop] in IH |- *.
    rewrite Z.add_0_l in IH. rewrite IH.
    + f_equal. f_equal. lia.
    + rewrite Hquot. apply Z.div_lt_upper_bound; lia.
    + lia.
Qed.

Lemma ntoa_reverse_ok f : forall pre seg post,
  (length seg <= 2 * f + 1)%nat ->
  ntoa_reverse f (pre ++ seg ++ post) (zlen pre) (zlen pre + zlen seg - 1)
  = Ok (pre ++ reverse seg ++ post).
Proof.
  induction f as [|f IH]; intros pre seg post Hf.
  - simpl. destruct (Z.ltb_spec (zlen pre) (zlen pre + zlen seg - 1)) as [H|H].
    + unfold zlen in H. lia.
    + destruct seg as [|x [|y seg]]; simpl in *; done || lia.
  - destruct (list_two_ends seg) as [->|[[x ->]|(x & m & y & ->)]]; cbn [ntoa_reverse].
    + autorewrite with kern. destruct (Z.ltb_spec (zlen pre) (zlen pre + 0 - 1)); [lia|done].
    + autorewrite with kern. destruct (Z.ltb_spec (zlen pre) (zlen pre + (0 + 1) - 1)); [lia|done].
    + set (p := zlen pre + zlen (x :: m ++ [y]) - 1).
      assert (p = zlen (pre ++ x :: m)) as Hp by (unfold p; autorewrite with kern; lia).
      assert (p = zlen (pre ++ y :: m)) as Hp' by (unfold p; autorewrite with kern; lia).
      destruct (Z.ltb_spec (zlen pre) p) as [_|Hge].
      2: { rewrite Hp in Hge. rewrite zlen_app, zlen_cons in Hge. pose proof (zlen_nonneg m). lia. }
      replace (pre ++ (x :: m ++ [y]) ++ post) with (pre ++ x :: (m ++ y :: post))
        by (simpl; by rewrite <- (assoc_L (++))).
      rewrite load_app. cbn [mbind res_bind].
      replace (pre ++ x :: m ++ y :: post) with ((pre ++ x :: m) ++ y :: post)
        by (by rewrite <- (assoc_L (++))).
      rewrite load_app_at by done. cbn [mbind res_bind].
      rewrite <- (assoc_L (++)), <- app_comm_cons, store_app. cbn [mbind res_bind].
      replace (pre ++ y :: m ++ y :: post) with ((pre ++ y :: m) ++ y :: post)
        by (by rewrite <- (assoc_L (++))).
      rewrite store_app_at by done. cbn [mbind res_bind].
      specialize (IH (pre ++ [y]) m (x :: post)).
      rewrite <- !(assoc_L (++)) in IH |- *. simpl in IH |- *.
      replace (zlen (pre ++ [y])) with (zlen pre + 1) in IH by (by autorewrite with kern).
      replace (p - 1) with (zlen pre + 1 + zlen m - 1)
        by (rewrite Hp'; autorewrite with kern; lia).
      rewrite IH by (simpl in Hf; rewrite length_app in Hf; simpl in Hf; lia).
      rewrite reverse_cons, reverse_app. simpl. rewrite <- !(assoc_L (++)). done.
Qed.

Lemma digits_le_bound f b n : (length (digits_le f b n) <= f)%nat.
Proof.
  revert n. induction f as [|f IH]; intros n; simpl; [lia|].
  destruct (_ =? 0); simpl; [lia|]. specialize (IH (n / b)). lia.
Qed.

Lemma numeral_bound v b sg : zlen (numeral v b sg) <= 65.
Proof.
  unfold numeral. rewrite zlen_app.
  pose proof (digits_le_bound ntoa_fuel b (Z.abs v)) as H.
  generalize dependent (digits_le ntoa_fuel b (Z.abs v)). intros ds Hds.
  unfold zlen, ntoa_fuel in *. rewrite length_reverse.
  destruct (_ && _ && _); simpl; lia.
Qed.

Lemma ntoa_fuel_pos : (0 < ntoa_fuel)%nat.
Proof. unfold ntoa_fuel. lia. Qed.

Lemma ntoa_fuel_64 : Z.of_nat ntoa_fuel = 64.
Proof. reflexivity. Qed.

#[global] Opaque ntoa_fuel.

(** Every numeric routine writes exactly the numeral of its value and a NUL. *)
Lemma ntoa_common_ok str v b sg :
  2 <= b <= 36 -> Z.abs v < 2 ^ 64 -> zlen (numeral v b sg) < zlen str ->
  ntoa_common str v b sg
  = Ok (numeral v b sg ++ 0 :: drop (S (length (numeral v b sg))) str).
Proof.
  intros Hb Hv Hlen. unfold ntoa_common.
  destruct (Z.ltb_spec b 2); [lia|]. rewrite Z.gtb_ltb. destruct (Z.ltb_spec 36 b); [lia|].
  cbn [orb]. set (ds := digits_le ntoa_fuel b (Z.abs v)).
  assert (Z.abs v < b ^ Z.of_nat ntoa_fuel) as Hb64.
  { rewrite ntoa_fuel_64. eapply Z.lt_le_trans; [exact Hv|]. apply Z.pow_le_mono_l. lia. }
  assert (forall pre rest, (length ds < length rest)%nat ->
    ('(str2, ptr) ← ntoa_digits ntoa_fuel (pre ++ rest) (zlen pre) v b;
     str3 ← store str2 ptr 0;
     ntoa_reverse ntoa_fuel str3 (zlen pre) (ptr - 1))
    = Ok (pre ++ reverse ds ++ 0 :: drop (S (length ds)) rest)) as Hcore.
  { intros pre rest Hr. rewrite ntoa_digits_ok by (done || apply ntoa_fuel_pos || (fold ds; lia)).
    fold ds. cbn [mbind res_bind].
    destruct (lookup_lt_is_Some_2 rest (length ds) Hr) as [c Hc].
    rewrite (drop_S_lookup _ _ c Hc), (assoc_L (++)), store_app_at by (by rewrite zlen_app).
    cbn [mbind res_bind]. rewrite <- (assoc_L (++)).
    apply ntoa_reverse_ok. pose proof (digits_le_bound ntoa_fuel b (Z.abs v)).
    fold ds in H1. lia. }
  unfold numeral in *. fold ds in Hlen |- *.
  destruct (sg && (v <? 0) && (b =? 10)); cbn [mbind res_bind].
  - destruct str as [|c0 rest]; [unfold zlen in Hlen; simpl in Hlen; lia|].
    rewrite (store_app [] rest c0 45 : store (c0 :: rest) 0 45 = _). cbn [mbind res_bind].
    etransitivity; [apply (Hcore [45] rest)|].
    2: { simpl. by rewrite length_reverse. }
    autorewrite with kern in Hlen. unfold zlen in Hlen. rewrite length_reverse in Hlen. lia.
  - etransitivity; [apply (Hcore [] str)|].
    2: { simpl. by rewrite length_reverse. }
    simpl in Hlen. unfold zlen in Hlen. rewrite length_reverse in Hlen. lia.
Qed.

(** ** Lemmas: text to numbers *)

Definition is_digit (c : Z) : Prop := 48 <= c <= 57.

(** The number a list of digits denotes, continuing from [acc]. *)
Definition dec_val (acc : Z) (ds : list Z) : Z := fold_left (fun a c => a * 10 + (c - 48)) ds acc.

Lemma dec_val_snoc acc ds d : dec_val acc (ds ++ [d]) = dec_val acc ds * 10 + (d - 48).
Proof. unfold dec_val. by rewrite fold_left_app. Qed.

Lemma dec_val_mono ds : forall acc, 0 <= acc -> Forall is_digit ds -> acc <= dec_val acc ds.
Proof.
  induction ds as [|c ds IH]; intros acc Ha Hd; simpl; [lia|].
  apply Forall_cons in Hd as [Hc Hd]. unfold is_digit in Hc.
  transitivity (acc * 10 + (c - 48)); [lia|]. apply IH; [lia|done].
Qed.

Lemma digits_le_digit f n : 0 <= n -> Forall is_digit (digits_le f 10 n).
Proof.
  revert n. induction f as [|f IH]; intros n Hn; cbn [digits_le]; [constructor|].
  pose proof (Z.mod_pos_bound n 10 ltac:(lia)). constructor.
  - unfold is_digit, digit_char. destruct (Z.ltb_spec (n mod 10) 10); lia.
  - destruct (_ =? 0); [constructor|]. apply IH. apply Z.div_pos; lia.
Qed.

Lemma dec_val_digits f n : 0 <= n < 10 ^ Z.of_nat f ->
  dec_val 0 (reverse (digits_le f 10 n)) = n.
Proof.
  revert n. induction f as [|f IH]; intros n Hn; cbn [digits_le].
  - simpl in *. unfold dec_val. simpl. lia.
  - rewrite reverse_cons, dec_val_snoc.
    pose proof (Z.mod_pos_bound n 10 ltac:(lia)). pose proof (Z.div_mod n 10 ltac:(lia)).
    assert (digit_char (n mod 10) - 48 = n mod 10) as ->
      by (unfold digit_char; destruct (Z.ltb_spec (n mod 10) 10); lia).
    destruct (Z.eqb_spec (n / 10) 0) as [He|He].
    + unfold dec_val. simpl. lia.
    + rewrite IH; [lia|]. split; [apply Z.div_pos; lia|].
      apply Z.div_lt_upper_bound; [lia|].
      rewrite <- Z.pow_succ_r by lia. rewrite <- Nat2Z.inj_succ. lia.
Qed.

Lemma aton_loop_ok wrap M ds r :
  (forall z, 0 <= z < M -> wrap z = z) ->
  forall acc, 0 <= acc -> Forall is_digit ds -> dec_val acc ds < M ->
  aton_loop wrap acc (ds ++ 0 :: r) = Ok (dec_val acc ds).
Proof.
  intros Hw. induction ds as [|c ds IH]; intros acc Ha Hd Hm; simpl; [done|].
  apply Forall_cons in Hd as [Hc Hd]. unfold is_digit in Hc.
  destruct (Z.eqb_spec c 0); [lia|].
  rewrite s8_small by lia. replace (acc * 10 + c - 48) with (acc * 10 + (c - 48)) by lia.
  rewrite Hw.
  - apply IH; [lia|done|done].
  - split; [lia|]. eapply Z.le_lt_trans; [|exact Hm]. apply (dec_val_mono ds); [lia|done].
Qed.

Lemma digits_nonempty f b n : (0 < f)%nat -> exists d ds, digits_le f b n = d :: ds.
Proof. destruct f; [lia|]. simpl. eauto. Qed.

Lemma aton_numeral wrap M v r :
  (forall z, - M < z < M -> wrap z = z) -> Z.abs v < M -> M <= 2 ^ 64 ->
  aton_common wrap (numeral v 10 true ++ 0 :: r) = Ok v.
Proof.
  intros Hw Hv HM. unfold numeral. cbn [Z.eqb Pos.eqb andb].
  rewrite andb_true_r.
  assert (Hloop : aton_loop wrap 0 (reverse (digits_le ntoa_fuel 10 (Z.abs v)) ++ 0 :: r) = Ok (Z.abs v)).
  { assert (Hval : dec_val 0 (reverse (digits_le ntoa_fuel 10 (Z.abs v))) = Z.abs v).
    { apply dec_val_digits. rewrite ntoa_fuel_64. split; [lia|].
      eapply Z.lt_le_trans; [exact Hv|]. etransitivity; [exact HM|]. by apply Z.pow_le_mono_l. }
    rewrite (aton_loop_ok wrap M), Hval; [done|..|lia].
    - intros z Hz. apply Hw. lia.
    - lia.
    - apply Forall_reverse. apply digits_le_digit. lia. }
  unfold aton_common. destruct (Z.ltb_spec v 0).
  - rewrite <- (assoc_L (++)). cbn [app].
    rewrite (load_app [] _ 45 : load (45 :: _) 0 = _). cbn [mbind res_bind].
    rewrite Z.eqb_refl, skipn_cons, drop_0, Hloop. cbn [mbind res_bind].
    rewrite Hw by lia. f_equal. lia.
  - cbn [app].
    destruct (reverse (digits_le ntoa_fuel 10 (Z.abs v))) as [|c cs] eqn:E.
    + exfalso. destruct (digits_nonempty ntoa_fuel 10 (Z.abs v) ntoa_fuel_pos) as (d & ds & Hd).
      rewrite Hd, reverse_cons in E. by apply app_nil in E as [_ ?].
    + assert (is_digit c) as Hc.
      { assert (Forall is_digit (c :: cs)) as Hf
          by (rewrite <- E; apply Forall_reverse;  apply digits_le_digit; lia).
        by apply Forall_cons in Hf as [? _]. }
      cbn [app]. rewrite (load_app [] _ c : load (c :: _) 0 = _). cbn [mbind res_bind].
      unfold is_digit in Hc. destruct (Z.eqb_spec c 45); [lia|].
      cbn [app] in Hloop. rewrite Hloop. cbn [mbind res_bind]. rewrite Hw by lia. f_equal. lia.
Qed.

Lemma numeral_abs v b : 0 <= v -> numeral v b true = numeral v b false.
Proof. intros. unfold numeral. destruct (Z.ltb_spec v 0); [lia|]. done. Qed.

Lemma uaton_numeral wrap M v r :
  (forall z, 0 <= z < M -> wrap z = z) -> 0 <= v < M -> M <= 2 ^ 64 ->
  uaton_common wrap (numeral v 10 false ++ 0 :: r) = Ok v.
Proof.
  intros Hw Hv HM. unfold numeral, uaton_common. cbn [andb app].
  assert (Hval : dec_val 0 (reverse (digits_le ntoa_fuel 10 (Z.abs v))) = v).
  { rewrite Z.abs_eq by lia. apply dec_val_digits. rewrite ntoa_fuel_64. split; [lia|].
    eapply Z.lt_le_trans; [apply Hv|]. etransitivity; [exact HM|]. by apply Z.pow_le_mono_l. }
  rewrite (aton_loop_ok wrap M), Hval; [done|done|lia| |lia].
  apply Forall_reverse. apply digits_le_digit. lia.
Qed.

(** ** Properties *)

(** Printing a number in base 10 and reading it back gives the number, for the int, long
    and unsigned long routines ([itoa]/[atoi], [ltoa]/[atol], [ultoa]/[atoul]), whatever the
    buffer held before, as long as it has the 66 bytes any numeral can need. *)
Theorem number_text_roundtrip (str : list Z) (v : Z) :
  66 <= zlen str ->
  (- 2 ^ 31 < v < 2 ^ 31 -> (itoa v str 10 ≫= atoi) = Ok v) /\
  (- 2 ^ 63 < v < 2 ^ 63 -> (ltoa v str 10 ≫= atol) = Ok v) /\
  (0 <= v < 2 ^ 64 -> (ultoa v str 10 ≫= atoul) = Ok v).
Proof.
  intros Hl. unfold itoa, ltoa, ultoa, atoi, atol, atoul.
  repeat split; intros Hv.
  - rewrite s32_small by lia. pose proof (numeral_bound v 10 true).
    rewrite ntoa_common_ok by lia. cbn [mbind res_bind].
    apply (aton_numeral _ (2 ^ 31)); [intros; apply s32_small; lia|lia|lia].
  - rewrite s64_small by lia. pose proof (numeral_bound v 10 true).
    rewrite ntoa_common_ok by lia. cbn [mbind res_bind].
    apply (aton_numeral _ (2 ^ 63)); [intros; apply s64_small; lia|lia|lia].
  - rewrite u64_small by lia. pose proof (numeral_bound v 10 false).
    rewrite ntoa_common_ok by lia. cbn [mbind res_bind].
    apply (uaton_numeral _ (2 ^ 64)); [intros; apply u64_small; lia|lia|lia].
Qed.

Lemma number_text_roundtrip_witness :
  (itoa (-1234) (replicate 72 0) 10 ≫= atoi) = Ok (-1234).
Proof.
  refine (proj1 (number_text_roundtrip (replicate 72 0) (-1234) _) _); [vm_compute; done | lia].
Defined.

(** [memmove] copies as if through a temporary, in whichever direction the ranges overlap:
    the destination range gets the bytes the source range held before the call, and every
    other byte of the object is left alone. *)
Theorem memmove_overlap (m : list Z) (doff soff n : Z) :
  0 <= doff -> 0 <= soff -> 0 <= n -> doff + n <= zlen m -> soff + n <= zlen m ->
  exists m', memmove m doff soff n = Ok m' /\ zlen m' = zlen m /\
    slice m' doff n = slice m soff n /\
    (forall p, p < doff \/ doff + n <= p -> get m' p = get m p).
Proof.
  intros. exists (splice m doff (slice m soff n)). rewrite memmove_ok by done.
  assert (zlen (slice m soff n) = n) as Hsl by (apply zlen_slice; lia).
  repeat split.
  - apply zlen_splice; lia.
  - apply slice_splice; lia.
  - intros p Hp. apply get_splice_out; lia.
Qed.

Lemma memmove_overlap_witness :
  exists m', memmove [1; 2; 3; 4; 5] 1 0 4 = Ok m' /\ zlen m' = 5 /\
    slice m' 1 4 = [1; 2; 3; 4] /\ (forall p, p < 1 \/ 5 <= p -> get m' p = get [1; 2; 3; 4; 5] p).
Proof. apply (memmove_overlap [1; 2; 3; 4; 5] 1 0 4); vm_compute; done. Defined.

(** ** Text in bytes *)

(** [l] up to its first [c]. *)
Fixpoint cut (c : Z) (l : list Z) : list Z :=
  match l with [] => [] | x :: l' => if x =? c then [] else x :: cut c l' end.

Lemma cut_split c l : exists r, l = cut c l ++ r /\ (r = [] \/ exists r', r = c :: r').
Proof.
  induction l as [|x l (r & E & Hr)]; simpl; [by exists []; auto|]. destruct (Z.eqb_spec x c) as [->|]; [exists (c :: l); eauto|].
  exists r. split; [simpl; by rewrite <- E|done].
Qed.

Lemma s8_eqb x c : 1 <= x < 256 -> 0 < c < 128 -> (s8 x =? c) = (x =? c).
Proof.
  intros Hx Hc. unfold s8, swrap. change (2 ^ (8 - 1)) with 128. change (2 ^ 8) with 256. destruct (Z.lt_ge_cases x 128).
  - rewrite Z.mod_small by lia. f_equal. lia.
  - replace (x + 128) with (x - 128 + 1 * 256) by lia. rewrite Z.mod_add, Z.mod_small by lia.
    destruct (Z.eqb_spec (x - 128 - 128) c), (Z.eqb_spec x c); done || lia.
Qed.

Lemma strchrnul_at c t r : 0 < c < 128 -> nonul t -> strchrnul (t ++ 0 :: r) c = Ok (zlen (cut c t)).
Proof.
  intros Hc. induction 1 as [|x t Hx Ht IH]; simpl; [by rewrite orb_true_r|]. rewrite s8_eqb by done.
  destruct (Z.eqb_spec x c); [done|]. destruct (Z.eqb_spec x 0); [lia|]. cbn [orb]. rewrite IH. cbn [mbind res_bind]. by rewrite zlen_cons.
Qed.

Lemma cut_free c l : Forall (fun x => x <> c) (cut c l).
Proof. induction l as [|x l IH]; simpl; [done|]. destruct (Z.eqb_spec x c); by constructor. Qed.

Lemma cut_sub (P : Z -> Prop) c l : Forall P l -> Forall P (cut c l).
Proof. induction 1 as [|x l]; simpl; [done|]. destruct (x =? c); by constructor. Qed.

Lemma zlen_cut c l : zlen (cut c l) <= zlen l.
Proof. induction l as [|x l IH]; simpl; [done|]. destruct (x =? c); rewrite ?zlen_cons, ?zlen_nil; pose proof (zlen_nonneg l); lia. Qed.

Definition byte_list (b : list Z) : Prop := Forall (fun c => 0 <= c < 256) b.

Lemma slice_byte b o n : byte_list b -> byte_list (slice b o n).
Proof. intros. by apply Forall_take, Forall_drop. Qed.

Lemma cut0_nonul l : byte_list l -> nonul (cut 0 l).
Proof.
  intros Hl. apply Forall_forall. intros x Hx. pose proof (cut_free 0 l) as Hf. pose proof (cut_sub _ 0 l Hl) as Hb.
  rewrite Forall_forall in Hf, Hb. specialize (Hf x Hx). specialize (Hb x Hx). simpl in *. lia.
Qed.

Lemma le_val_range l : byte_list l -> 0 <= le_val l < 256 ^ zlen l.
Proof.
  induction 1 as [|c l Hc _ IH]; cbn [le_val]; [done|]. rewrite zlen_cons, Z.pow_add_r by (pose proof (zlen_nonneg l); lia). change (256 ^ 1) with 256. lia.
Qed.

Lemma le_slice_range b o n : byte_list b -> 0 <= n -> 0 <= le_val (slice b o n) < 256 ^ n.
Proof.
  intros Hb Hn. pose proof (le_val_range _ (slice_byte b o n Hb)) as Hr. assert (zlen (slice b o n) <= n) as Hl by (unfold zlen, slice; rewrite length_take; lia).
  pose proof (Z.pow_le_mono_r 256 (zlen (slice b o n)) n). lia.
Qed.

Lemma cut_text s r : nonul s -> cut 0 (s ++ 0 :: r) = s.
Proof. induction 1 as [|c s Hc _ IH]; cbn [app cut]; [done|]. destruct (Z.eqb_spec c 0); [lia|]. by rewrite IH. Qed.
