(* ===== verification/CBuf.v ===== *)
(** * kernel/cbuf.c and kernel/cbufm.c: circular buffers

    [cbuf] is the blocking pipe buffer with one read and one write pointer; [cbufm] is the
    broadcast buffer whose readers keep their own position.  Each round of a loop runs under
    the buffer's spinlock, so a round is one step of the model: [cbuf_read_iter] and
    [cbuf_write_iter] are the rounds, [cbuf_read] and [cbuf_write] the loops up to the point
    where the thread has to wait on the event, and [sys_step] the interleavings of the rounds
    of any number of readers and writers. *)

From S2P Require Import Prelude Strings.

(** ** The part of a ring of [size] cells that starts at [p] *)
Section Ring.
Context {A : Type} (dflt : A).

Fixpoint ring_at (b : list A) (p : Z) (n : nat) : list A :=
  match n with
  | O => []
  | S n' => default dflt (get b (p mod zlen b)) :: ring_at b (p + 1) n'
  end.

Lemma length_ring_at b p n : length (ring_at b p n) = n.
Proof. revert p. induction n; intros; simpl; auto. Qed.

Lemma ring_at_app b p n m : ring_at b p (n + m) = ring_at b p n ++ ring_at b (p + Z.of_nat n) m.
Proof.
  revert p. induction n as [|n IH]; intros p; simpl.
  - by rewrite Z.add_0_r.
  - rewrite IH. do 3 f_equal. lia.
Qed.

Lemma ring_at_mod b p q n : p mod zlen b = q mod zlen b -> ring_at b p n = ring_at b q n.
Proof.
  revert p q. induction n as [|n IH]; intros p q H; simpl; [done|].
  rewrite H. f_equal. apply IH.
  rewrite <- (Zplus_mod_idemp_l p), H, Zplus_mod_idemp_l. done.
Qed.

Lemma ring_at_slice b p n : 0 <= p -> p + Z.of_nat n <= zlen b ->
  ring_at b p n = slice b p (Z.of_nat n).
Proof.
  revert p. induction n as [|n IH]; intros p Hp Hn.
  - by rewrite slice_0.
  - destruct (lookup_zlen b p) as [x Hx]; [lia|].
    rewrite (slice_cons _ _ _ x), <- IH by (done || lia). cbn [ring_at].
    rewrite Z.mod_small by lia. unfold get. destruct (Z.leb_spec 0 p); [|lia]. by rewrite Hx.
Qed.

(** Writing a run that does not wrap, [d] cells after [q], leaves the [n <= d] cells from
    [q] on alone, when the run does not reach round to [q] again. *)
Lemma ring_at_splice_before b q n d bs :
  0 < zlen b -> 0 <= d -> Z.of_nat n <= d -> d + zlen bs <= zlen b ->
  (q + d) mod zlen b + zlen bs <= zlen b ->
  ring_at (splice b ((q + d) mod zlen b) bs) q n = ring_at b q n.
Proof.
  intros Hb Hd Hn Hw Hp. set (L := zlen b) in *.
  assert (HLr := Z.mod_pos_bound (q + d) L Hb). assert (Hbs := zlen_nonneg bs).
  revert q d Hd Hn Hw Hp HLr. induction n as [|n IH]; intros q d Hd Hn Hw Hp HLr; simpl; [done|].
  rewrite zlen_splice by (fold L; lia). fold L. f_equal.
  - assert (Hqr := Z.mod_pos_bound q L Hb).
    assert ((q + d) mod L = (q mod L + d) mod L) as He by (by rewrite Zplus_mod_idemp_l).
    rewrite get_splice_out; [done|lia|fold L; lia|].
    destruct (Z.lt_ge_cases (q mod L + d) L).
    + rewrite (Z.mod_small (q mod L + d)) in He by lia. lia.
    + assert ((q mod L + d) mod L = q mod L + d - L) as He2.
      { symmetry. apply (Z.mod_unique _ _ 1); lia. }
      lia.
  - specialize (IH (q + 1) (d - 1)). replace (q + 1 + (d - 1)) with (q + d) in IH by lia.
    apply IH; lia.
Qed.

Lemma ring_at_splice_self b p bs :
  0 <= p -> p + zlen bs <= zlen b -> ring_at (splice b p bs) p (length bs) = bs.
Proof.
  intros Hp Hl. rewrite ring_at_slice.
  - by apply slice_splice.
  - done.
  - rewrite zlen_splice by lia. unfold zlen in *. lia.
Qed.

(** Appending a run at the end of what the ring holds. *)
Lemma ring_at_append b q n bs :
  0 < zlen b -> Z.of_nat n + zlen bs <= zlen b ->
  (q + Z.of_nat n) mod zlen b + zlen bs <= zlen b ->
  ring_at (splice b ((q + Z.of_nat n) mod zlen b) bs) q (n + length bs) = ring_at b q n ++ bs.
Proof.
  intros Hb Hn Hp. pose proof (Z.mod_pos_bound (q + Z.of_nat n) (zlen b) Hb).
  rewrite ring_at_app, ring_at_splice_before by lia. f_equal.
  rewrite (ring_at_mod _ _ ((q + Z.of_nat n) mod zlen b)).
  - apply ring_at_splice_self; lia.
  - rewrite zlen_splice by lia. by rewrite Z.mod_mod by lia.
Qed.
End Ring.

(** ** cbuf *)
Module Cbuf.

Record cbuf := mk_cbuf {
  write_ptr : Z;
  read_ptr : Z;
  size : Z;
  buffer : list Z;
}.

(** [mem] is what [kmalloc(size)] returned. *)
Definition cbuf_create (mem : list Z) (sz : Z) : cbuf :=
  {| write_ptr := 0; read_ptr := 0; size := sz; buffer := mem |}.

(** What a round of the loop did: waited on the event, or moved bytes. *)
Inductive iter :=
  | Wait
  | Moved (c : cbuf) (bytes : list Z).

Definition read_possible (c : cbuf) (len : Z) : Z :=
  let w_off := if write_ptr c <? read_ptr c then u64 (write_ptr c + size c) else write_ptr c in
  let possible := u64 (size c - read_ptr c) in
  let possible := if possible >? u64 (w_off - read_ptr c) then u64 (w_off - read_ptr c) else possible in
  if possible >? len then len else possible.

Definition cbuf_read_iter (c : cbuf) (len : Z) : res iter :=
  let possible := read_possible c len in
  if possible =? 0 then Ok Wait
  else
    out ← memcpy (replicate (Z.to_nat possible) 0) 0 (buffer c) (read_ptr c) possible;
    let rp := u64 (read_ptr c + possible) in
    Ok (Moved {| write_ptr := write_ptr c;
                 read_ptr := if rp =? size c then 0 else rp;
                 size := size c; buffer := buffer c |} out).

Definition write_possible (c : cbuf) (len : Z) : Z :=
  let r_off := if read_ptr c <=? write_ptr c then u64 (read_ptr c + size c) else read_ptr c in
  let possible := u64 (size c - write_ptr c) in
  let possible :=
    if possible >? u64 (u64 (r_off - 1) - write_ptr c)
    then u64 (u64 (r_off - 1) - write_ptr c) else possible in
  if possible >? len then len else possible.

Definition cbuf_write_iter (c : cbuf) (src : list Z) : res iter :=
  let possible := write_possible c (zlen src) in
  if possible =? 0 then Ok Wait
  else
    buf ← memcpy (buffer c) (write_ptr c) src 0 possible;
    let wp := u64 (write_ptr c + possible) in
    Ok (Moved {| write_ptr := if wp =? size c then 0 else wp;
                 read_ptr := read_ptr c;
                 size := size c; buffer := buf |} (take (Z.to_nat possible) src)).

(** The loops, up to completion or to the first round that has to wait. *)
Inductive outcome (X : Type) :=
  | Done (c : cbuf) (x : X) (ret : Z)
  | Blocked (c : cbuf) (x : X).
Arguments Done {X} c x ret.
Arguments Blocked {X} c x.

Fixpoint cbuf_read (fuel : nat) (c : cbuf) (out : list Z) (len : Z) : res (outcome (list Z)) :=
  if len >? 0 then
    match fuel with
    | O => OutOfFuel
    | S f =>
        r ← cbuf_read_iter c len;
        match r with
        | Wait => Ok (Blocked c out)
        | Moved c' bs => cbuf_read f c' (out ++ bs) (len - zlen bs)
        end
    end
  else Ok (Done c out (read_ptr c)).

Fixpoint cbuf_write (fuel : nat) (c : cbuf) (src : list Z) : res (outcome (list Z)) :=
  if zlen src >? 0 then
    match fuel with
    | O => OutOfFuel
    | S f =>
        r ← cbuf_write_iter c src;
        match r with
        | Wait => Ok (Blocked c src)
        | Moved c' bs => cbuf_write f c' (drop (length bs) src)
        end
    end
  else Ok (Done c src (write_ptr c)).

Definition cbuf_available (c : cbuf) : Z :=
  if read_ptr c =? write_ptr c then 0
  else if read_ptr c >? write_ptr c then u64 (u64 (size c - read_ptr c) + write_ptr c)
  else u64 (write_ptr c - read_ptr c).

(** *** Invariant and abstraction: the queue of bytes written and not yet read *)

Definition wf (c : cbuf) : Prop :=
  0 < size c < 2 ^ 63 /\ zlen (buffer c) = size c /\
  0 <= read_ptr c < size c /\ 0 <= write_ptr c < size c.

Definition count (c : cbuf) : Z := (write_ptr c - read_ptr c) mod size c.

Definition contents (c : cbuf) : list Z := ring_at 0 (buffer c) (read_ptr c) (Z.to_nat (count c)).

Lemma count_cases c : wf c ->
  count c = if write_ptr c <? read_ptr c then write_ptr c + size c - read_ptr c
            else write_ptr c - read_ptr c.
Proof.
  intros (Hs & _ & Hr & Hw). unfold count. destruct (Z.ltb_spec (write_ptr c) (read_ptr c)).
  - symmetry. apply (Z.mod_unique _ _ (-1)); lia.
  - apply Z.mod_small. lia.
Qed.

Lemma count_bounds c : wf c -> 0 <= count c < size c.
Proof. intros (Hs & _). apply Z.mod_pos_bound. lia. Qed.

Lemma zlen_contents c : wf c -> zlen (contents c) = count c.
Proof.
  intros H. unfold contents, zlen. rewrite length_ring_at.
  pose proof (count_bounds c H). lia.
Qed.

Lemma available_count c : wf c -> cbuf_available c = count c.
Proof.
  intros H. rewrite count_cases by done. destruct H as (Hs & _ & Hr & Hw).
  unfold cbuf_available. rewrite Z.gtb_ltb. case_cmp; rewrite ?u64_small by lia; try lia.
  all: rewrite ?u64_small by (rewrite ?u64_small by lia; lia); lia.
Qed.

Lemma read_possible_eq c len : wf c -> 0 <= len ->
  read_possible c len = Z.min len (Z.min (size c - read_ptr c) (count c)).
Proof.
  intros H Hl. rewrite count_cases by done. destruct H as (Hs & _ & Hr & Hw).
  unfold read_possible. rewrite !Z.gtb_ltb.
  destruct (Z.ltb_spec (write_ptr c) (read_ptr c)); rewrite !u64_small by (rewrite ?u64_small; lia);
    case_cmp; lia.
Qed.

Lemma write_possible_eq c len : wf c -> 0 <= len ->
  write_possible c len = Z.min len (Z.min (size c - write_ptr c) (size c - 1 - count c)).
Proof.
  intros H Hl. rewrite count_cases by done. destruct H as (Hs & _ & Hr & Hw).
  unfold write_possible. rewrite !Z.gtb_ltb.
  destruct (Z.leb_spec (read_ptr c) (write_ptr c));
    rewrite ?(u64_small (_ + _)) by lia; rewrite ?(u64_small (_ - 1)) by lia;
    rewrite !u64_small by lia; case_cmp; lia.
Qed.

(** A read round takes the front of the queue. *)
Lemma read_iter_ok c len : wf c -> 0 <= len ->
  let n := Z.min len (Z.min (size c - read_ptr c) (count c)) in
  if n =? 0 then cbuf_read_iter c len = Ok Wait
  else exists c', cbuf_read_iter c len = Ok (Moved c' (take (Z.to_nat n) (contents c))) /\
    wf c' /\ contents c' = drop (Z.to_nat n) (contents c) /\ size c' = size c /\
    write_ptr c' = write_ptr c /\ read_ptr c' = (read_ptr c + n) mod size c.
Proof.
  intros H Hl n. unfold cbuf_read_iter. rewrite read_possible_eq by done. fold n.
  pose proof (count_bounds c H) as Hc. destruct (Z.eqb_spec n 0) as [|Hn]; [done|].
  assert (0 <= n <= count c /\ n <= size c - read_ptr c) as [Hnc Hns].
  { pose proof H as (? & ? & ? & ?). lia. }
  assert (0 < n) by lia. clearbody n.
  destruct H as (Hs & Hb & Hr & Hw).
  rewrite memcpy_ok by (rewrite ?Hb; unfold zlen; rewrite ?length_replicate; lia). simpl.
  assert (splice (replicate (Z.to_nat n) 0) 0 (slice (buffer c) (read_ptr c) n)
          = take (Z.to_nat n) (contents c)) as ->.
  { assert (zlen (slice (buffer c) (read_ptr c) n) = n) as Hz by (apply zlen_slice; lia).
    unfold splice. simpl. rewrite drop_ge, app_nil_r
      by (rewrite length_replicate; unfold zlen in Hz; lia).
    unfold contents. replace (Z.to_nat (count c)) with (Z.to_nat n + Z.to_nat (count c - n))%nat by lia.
    rewrite ring_at_app, take_app_length' by (by rewrite length_ring_at).
    rewrite ring_at_slice by lia. by rewrite Z2Nat.id by lia. }
  eexists. split; [done|].
  assert ((if u64 (read_ptr c + n) =? size c then 0 else u64 (read_ptr c + n))
          = (read_ptr c + n) mod size c) as Hrp.
  { rewrite u64_small by lia. destruct (Z.eqb_spec (read_ptr c + n) (size c)) as [->|].
    - by rewrite Z.mod_same by lia.
    - by rewrite Z.mod_small by lia. }
  pose proof (Z.mod_pos_bound (read_ptr c + n) (size c) ltac:(lia)).
  repeat split; simpl; rewrite ?Hrp; try lia.
  unfold contents, count. simpl.
  assert ((write_ptr c - (read_ptr c + n) mod size c) mod size c = count c - n) as ->.
  { rewrite Zminus_mod_idemp_r. unfold count in *.
    replace (write_ptr c - (read_ptr c + n)) with (write_ptr c - read_ptr c - n) by lia.
    rewrite <- Zminus_mod_idemp_l. apply Z.mod_small. lia. }
  fold (count c).
  replace (Z.to_nat (count c)) with (Z.to_nat n + Z.to_nat (count c - n))%nat by lia.
  rewrite ring_at_app, drop_app_length' by (by rewrite length_ring_at).
  apply ring_at_mod. rewrite Hb, Z.mod_mod by lia. f_equal. lia.
Qed.

(** A write round appends to the back of the queue. *)
Lemma write_iter_ok c src : wf c ->
  let n := Z.min (zlen src) (Z.min (size c - write_ptr c) (size c - 1 - count c)) in
  if n =? 0 then cbuf_write_iter c src = Ok Wait
  else exists c', cbuf_write_iter c src = Ok (Moved c' (take (Z.to_nat n) src)) /\
    wf c' /\ contents c' = contents c ++ take (Z.to_nat n) src /\ size c' = size c /\
    read_ptr c' = read_ptr c /\ write_ptr c' = (write_ptr c + n) mod size c.
Proof.
  intros H n. unfold cbuf_write_iter. pose proof (zlen_nonneg src) as Hl.
  rewrite write_possible_eq by done. fold n.
  pose proof (count_bounds c H) as Hc. destruct (Z.eqb_spec n 0) as [|Hn]; [done|].
  assert (0 < n <= size c - 1 - count c /\ n <= size c - write_ptr c /\ n <= zlen src)
    as (Hnc & Hns & Hnl) by (pose proof H as (? & ? & ? & ?); lia). clearbody n.
  destruct H as (Hs & Hb & Hr & Hw).
  rewrite memcpy_ok by lia. simpl.
  assert (slice src 0 n = take (Z.to_nat n) src) as -> by (unfold slice; by rewrite drop_0).
  set (bs := take (Z.to_nat n) src).
  assert (zlen bs = n) as Hbs by (unfold bs, zlen in *; rewrite length_take; lia).
  eexists. split; [done|].
  assert ((if u64 (write_ptr c + n) =? size c then 0 else u64 (write_ptr c + n))
          = (write_ptr c + n) mod size c) as Hwp.
  { rewrite u64_small by lia. destruct (Z.eqb_spec (write_ptr c + n) (size c)) as [->|].
    - by rewrite Z.mod_same by lia.
    - by rewrite Z.mod_small by lia. }
  pose proof (Z.mod_pos_bound (write_ptr c + n) (size c) ltac:(lia)).
  repeat split; simpl; rewrite ?Hwp; try lia.
  { rewrite zlen_splice; lia. }
  unfold contents, count. simpl.
  assert (((write_ptr c + n) mod size c - read_ptr c) mod size c = count c + n) as ->.
  { rewrite Zminus_mod_idemp_l. unfold count in *.
    replace (write_ptr c + n - read_ptr c) with (write_ptr c - read_ptr c + n) by lia.
    rewrite <- Zplus_mod_idemp_l. apply Z.mod_small. lia. }
  fold (count c).
  assert (write_ptr c = (read_ptr c + Z.of_nat (Z.to_nat (count c))) mod zlen (buffer c)) as Hwr.
  { rewrite Z2Nat.id, Hb by lia. unfold count. rewrite Zplus_mod_idemp_r.
    replace (read_ptr c + (write_ptr c - read_ptr c)) with (write_ptr c) by lia.
    symmetry. apply Z.mod_small. lia. }
  replace (Z.to_nat (count c + n)) with (Z.to_nat (count c) + length bs)%nat
    by (unfold zlen in Hbs; lia).
  rewrite Hwr at 1. apply ring_at_append; rewrite <- ?Hwr; lia.
Qed.

(** *** The loops *)

Lemma read_loop_enough f : forall c out len,
  wf c -> 0 <= len <= count c -> (Z.to_nat len <= f)%nat ->
  exists c', cbuf_read f c out len
               = Ok (Done c' (out ++ take (Z.to_nat len) (contents c)) (read_ptr c')) /\
    wf c' /\ contents c' = drop (Z.to_nat len) (contents c) /\ size c' = size c.
Proof.
  induction f as [|f IH]; intros c out len H Hl Hf.
  - assert (len = 0) as -> by lia. simpl. exists c. by rewrite app_nil_r.
  - cbn [cbuf_read]. rewrite Z.gtb_ltb. destruct (Z.ltb_spec 0 len).
    2: { assert (len = 0) as -> by lia. exists c. by rewrite app_nil_r. }
    pose proof (read_iter_ok c len H ltac:(lia)) as Hi. simpl in Hi.
    set (n := Z.min len (Z.min (size c - read_ptr c) (count c))) in Hi.
    assert (0 < n <= len) as Hn by (destruct H as (? & ? & ? & ?); lia). clearbody n.
    destruct (Z.eqb_spec n 0); [lia|].
    destruct Hi as (c' & -> & Hwf & Hct & Hsz & _). cbn [mbind res_bind].
    assert (length (take (Z.to_nat n) (contents c)) = Z.to_nat n) as Hlen.
    { rewrite length_take. pose proof (zlen_contents c H). unfold zlen in *. lia. }
    assert (count c' = count c - n) as Hcnt.
    { rewrite <- !zlen_contents, Hct by done. unfold zlen in *. rewrite length_drop.
      pose proof (zlen_contents c H). unfold zlen in *. lia. }
    unfold zlen. rewrite Hlen.
    destruct (IH c' (out ++ take (Z.to_nat n) (contents c)) (len - Z.of_nat (Z.to_nat n)) Hwf)
      as (c'' & -> & Hwf'' & Hct'' & Hsz''); [lia|lia|].
    exists c''. rewrite Hct'', Hct, Hsz'', Hsz, drop_drop, <- (assoc_L (++)). split_and!; try done.
    + do 3 f_equal. rewrite <- (take_drop (Z.to_nat n) (contents c)) at 3.
      rewrite take_app, Hlen, take_take.
      f_equal; f_equal; lia.
    + f_equal. lia.
Qed.

Lemma write_loop_enough f : forall c src,
  wf c -> zlen src <= size c - 1 - count c -> (length src <= f)%nat ->
  exists c', cbuf_write f c src = Ok (Done c' [] (write_ptr c')) /\
    wf c' /\ contents c' = contents c ++ src /\ size c' = size c.
Proof.
  induction f as [|f IH]; intros c src H Hl Hf.
  - destruct src; [|simpl in Hf; lia]. simpl. exists c. by rewrite app_nil_r.
  - cbn [cbuf_write]. rewrite Z.gtb_ltb. destruct (Z.ltb_spec 0 (zlen src)).
    2: { destruct src; [|unfold zlen in *; simpl in *; lia]. exists c. by rewrite app_nil_r. }
    pose proof (write_iter_ok c src H) as Hi. simpl in Hi.
    set (n := Z.min (zlen src) (Z.min (size c - write_ptr c) (size c - 1 - count c))) in Hi.
    assert (0 < n <= zlen src) as Hn by (destruct H as (? & ? & ? & ?); lia). clearbody n.
    destruct (Z.eqb_spec n 0); [lia|].
    destruct Hi as (c' & -> & Hwf & Hct & Hsz & _). cbn [mbind res_bind].
    assert (length (take (Z.to_nat n) src) = Z.to_nat n) as Hlen
      by (rewrite length_take; unfold zlen in *; lia).
    assert (count c' = count c + n) as Hcnt.
    { rewrite <- !zlen_contents, Hct by done. rewrite zlen_app. unfold zlen. lia. }
    rewrite Hlen.
    destruct (IH c' (drop (Z.to_nat n) src) Hwf) as (c'' & -> & Hwf'' & Hct'' & Hsz'').
    + rewrite Hcnt, Hsz. unfold zlen in *. rewrite length_drop. lia.
    + rewrite length_drop. lia.
    + exists c''. rewrite Hct'', Hct, Hsz'', Hsz, <- (assoc_L (++)), take_drop. done.
Qed.

(** *** Interleavings of the rounds of several threads *)

Inductive event :=
  | ERead (t : nat) (bs : list Z)
  | EWrite (t : nat) (bs : list Z).

Record sys := mk_sys {
  cb : cbuf;
  readers : gmap nat Z;          (** bytes each pending [cbuf_read] still needs *)
  writers : gmap nat (list Z);   (** bytes each pending [cbuf_write] still has to place *)
  trace : list event;
}.

Inductive sys_step : sys -> sys -> Prop :=
  | call_read s t len :
      readers s !! t = None -> 0 <= len < 2 ^ 64 ->
      sys_step s (mk_sys (cb s) (<[t := len]> (readers s)) (writers s) (trace s))
  | call_write s t src :
      writers s !! t = None ->
      sys_step s (mk_sys (cb s) (readers s) (<[t := src]> (writers s)) (trace s))
  | round_read s t len c' bs :
      readers s !! t = Some len -> 0 < len -> cbuf_read_iter (cb s) len = Ok (Moved c' bs) ->
      sys_step s (mk_sys c' (<[t := len - zlen bs]> (readers s)) (writers s) (trace s ++ [ERead t bs]))
  | round_write s t src c' bs :
      writers s !! t = Some src -> 0 < zlen src -> cbuf_write_iter (cb s) src = Ok (Moved c' bs) ->
      sys_step s (mk_sys c' (readers s) (<[t := drop (length bs) src]> (writers s))
                    (trace s ++ [EWrite t bs]))
  | return_read s t :
      readers s !! t = Some 0 ->
      sys_step s (mk_sys (cb s) (delete t (readers s)) (writers s) (trace s))
  | return_write s t :
      writers s !! t = Some [] ->
      sys_step s (mk_sys (cb s) (readers s) (delete t (writers s)) (trace s)).

Definition written (tr : list event) : list Z :=
  tr ≫= (fun e => match e with EWrite _ bs => bs | ERead _ _ => [] end).
Definition consumed (tr : list event) : list Z :=
  tr ≫= (fun e => match e with ERead _ bs => bs | EWrite _ _ => [] end).

Lemma written_snoc tr e :
  written (tr ++ [e]) = written tr ++ match e with EWrite _ bs => bs | ERead _ _ => [] end.
Proof. unfold written. rewrite bind_app. simpl. by rewrite app_nil_r. Qed.
Lemma consumed_snoc tr e :
  consumed (tr ++ [e]) = consumed tr ++ match e with ERead _ bs => bs | EWrite _ _ => [] end.
Proof. unfold consumed. rewrite bind_app. simpl. by rewrite app_nil_r. Qed.

Definition sys_inv (s : sys) : Prop :=
  wf (cb s) /\ written (trace s) = consumed (trace s) ++ contents (cb s) /\
  map_Forall (fun _ len => 0 <= len) (readers s).

Lemma sys_inv_step s s' : sys_inv s -> sys_step s s' -> sys_inv s'.
Proof.
  intros (Hwf & Hq & Hr) Hstep. destruct Hstep as [s t len Ht Hlen|s t src Ht|
    s t len c' bs Ht Hlen Hi|s t src c' bs Ht Hlen Hi|s t Ht|s t Ht]; unfold sys_inv; simpl.
  - split_and!; try done. apply map_Forall_insert_2; [lia|done].
  - done.
  - pose proof (read_iter_ok (cb s) len Hwf ltac:(lia)) as Hok. simpl in Hok.
    destruct (Z.eqb_spec (Z.min len (Z.min (size (cb s) - read_ptr (cb s)) (count (cb s)))) 0);
      [congruence|].
    destruct Hok as (c & Hm & Hwf' & Hct & _). rewrite Hi in Hm. simplify_eq.
    set (k := Z.to_nat _) in *.
    rewrite written_snoc, consumed_snoc, app_nil_r, Hq, Hct, <- (assoc_L (++)), take_drop.
    split_and!; try done. apply map_Forall_insert_2; [|done].
    unfold zlen. rewrite length_take. lia.
  - pose proof (write_iter_ok (cb s) src Hwf) as Hok. simpl in Hok.
    destruct (Z.eqb_spec (Z.min (zlen src) (Z.min (size (cb s) - write_ptr (cb s))
      (size (cb s) - 1 - count (cb s)))) 0); [congruence|].
    destruct Hok as (c & Hm & Hwf' & Hct & _). rewrite Hi in Hm. simplify_eq.
    rewrite written_snoc, consumed_snoc, app_nil_r, Hq, Hct, <- (assoc_L (++)). done.
  - split_and!; try done. by apply map_Forall_delete.
  - done.
Qed.

Lemma sys_inv_reachable s s' : sys_inv s -> rtc sys_step s s' -> sys_inv s'.
Proof. intros H Hs. induction Hs; eauto using sys_inv_step. Qed.

Lemma create_inv mem sz : 0 < sz < 2 ^ 63 -> zlen mem = sz ->
  sys_inv (mk_sys (cbuf_create mem sz) ∅ ∅ []).
Proof.
  intros Hs Hm. split_and!; simpl.
  - repeat split; simpl; lia.
  - reflexivity.
  - by apply map_Forall_empty.
Qed.

(** C7: however the rounds of any number of concurrent readers and writers interleave, the
    buffer is a FIFO: the bytes accepted from writers, in the order they were accepted, are
    exactly the bytes handed to readers, in the order they were handed out, followed by what
    the ring still holds; none is lost, duplicated or reordered. *)
Theorem cbuf_fifo (mem : list Z) (sz : Z) (s : sys) :
  0 < sz < 2 ^ 63 -> zlen mem = sz ->
  rtc sys_step (mk_sys (cbuf_create mem sz) ∅ ∅ []) s ->
  wf (cb s) /\ written (trace s) = consumed (trace s) ++ contents (cb s).
Proof.
  intros Hs Hm Hr. destruct (sys_inv_reachable _ _ (create_inv mem sz Hs Hm) Hr) as (? & ? & _).
  done.
Qed.

Lemma cbuf_fifo_witness :
  exists s, rtc sys_step (mk_sys (cbuf_create [0; 0; 0] 3) ∅ ∅ []) s /\
    (wf (cb s) /\ written (trace s) = consumed (trace s) ++ contents (cb s)) /\
    contents (cb s) = [7].
Proof.
  assert (exists s, rtc sys_step (mk_sys (cbuf_create [0; 0; 0] 3) ∅ ∅ []) s /\
            contents (cb s) = [7]) as (s & Hr & Hc).
  { eexists. split.
    - eapply rtc_l; [by apply (call_write _ 0 [7])|]. eapply rtc_once.
      eapply (round_write _ 0 [7] (mk_cbuf 1 0 3 [7; 0; 0]) [7]); vm_compute; done.
    - vm_compute. reflexivity. }
  exists s. split; [exact Hr|]. split; [|exact Hc].
  apply (cbuf_fifo [0; 0; 0] 3 s); [lia|reflexivity|exact Hr].
Defined.

(** A call that fits completes without waiting, in one go: reading [len] bytes that are
    available returns exactly the [len] oldest ones, and writing into a ring with room for
    all of it (one cell is always kept free) queues every byte; the loops take at most [len]
    rounds. *)
Theorem cbuf_read_write_complete (c : cbuf) (len : Z) (src : list Z) :
  wf c -> 0 <= len <= cbuf_available c -> zlen src <= size c - 1 - cbuf_available c ->
  (exists c', cbuf_read (Z.to_nat len) c [] len
                = Ok (Done c' (take (Z.to_nat len) (contents c)) (read_ptr c')) /\
     wf c' /\ contents c' = drop (Z.to_nat len) (contents c)) /\
  (exists c', cbuf_write (length src) c src = Ok (Done c' [] (write_ptr c')) /\
     wf c' /\ contents c' = contents c ++ src).
Proof.
  intros H Hl Hs. rewrite available_count in * by done. split.
  - destruct (read_loop_enough (Z.to_nat len) c [] len H Hl ltac:(lia)) as (c' & ? & ? & ? & _). eauto.
  - destruct (write_loop_enough (length src) c src H Hs ltac:(lia)) as (c' & ? & ? & ? & _). eauto.
Qed.

Lemma cbuf_read_write_complete_witness :
  exists c', cbuf_read 2 (mk_cbuf 1 3 4 [12; 0; 0; 11]) [] 2
             = Ok (Done c' [11; 12] (read_ptr c')) /\ wf c' /\ contents c' = [].
Proof.
  refine (proj1 (cbuf_read_write_complete (mk_cbuf 1 3 4 [12; 0; 0; 11]) 2 [] _ _ _)).
  - repeat split; vm_compute; done.
  - vm_compute; done.
  - vm_compute; done.
Defined.

(** No deadlock: in any state of a ring with at least two cells, a reader that wants bytes
    and a writer that has bytes are never both sent to wait. *)
Theorem cbuf_no_deadlock (c : cbuf) (len : Z) (src : list Z) :
  wf c -> 2 <= size c -> 0 < len -> src <> [] ->
  cbuf_read_iter c len <> Ok Wait \/ cbuf_write_iter c src <> Ok Wait.
Proof.
  intros H Hs Hl Hsrc.
  pose proof (read_iter_ok c len H ltac:(lia)) as Hr. pose proof (write_iter_ok c src H) as Hw.
  simpl in Hr, Hw. pose proof (count_bounds c H). pose proof H as (? & ? & ? & ?).
  assert (0 < zlen src) by (destruct src; [done|rewrite zlen_cons; pose proof (zlen_nonneg src); lia]).
  destruct (Z.eqb_spec (Z.min len (Z.min (size c - read_ptr c) (count c))) 0).
  - right. destruct (Z.eqb_spec (Z.min (zlen src) (Z.min (size c - write_ptr c) (size c - 1 - count c))) 0);
      [lia|]. destruct Hw as (? & -> & _). done.
  - left. destruct Hr as (? & -> & _). done.
Qed.

Lemma cbuf_no_deadlock_witness :
  cbuf_read_iter (mk_cbuf 0 0 2 [0; 0]) 1 <> Ok Wait \/
  cbuf_write_iter (mk_cbuf 0 0 2 [0; 0]) [5] <> Ok Wait.
Proof.
  apply (cbuf_no_deadlock (mk_cbuf 0 0 2 [0; 0]) 1 [5]); [repeat split; vm_compute; done|vm_compute; done|lia|done].
Defined.

End Cbuf.

(** ** cbufm: one writer pointer, every reader keeps its own [start] *)
Module Cbufm.

Record cbufm := mk_cbufm {
  write_ptr : Z;
  size : Z;
  buffer : list Z;
}.

Definition cbufm_create (mem : list Z) (sz : Z) : cbufm :=
  {| write_ptr := 0; size := sz; buffer := mem |}.

Inductive outcome :=
  | Done (out : list Z) (start : Z)
  | Blocked (out : list Z) (start len : Z).

Definition read_possible (c : cbufm) (start len : Z) : Z :=
  let w_off := if write_ptr c <? start then u64 (write_ptr c + size c) else write_ptr c in
  let possible := u64 (size c - start) in
  let possible := if possible >? u64 (w_off - start) then u64 (w_off - start) else possible in
  if possible >? len then len else possible.

(** The reader changes nothing in the buffer; [Blocked] is the round that calls
    [event_wait]. *)
Fixpoint cbufm_read (fuel : nat) (c : cbufm) (out : list Z) (start len : Z) : res outcome :=
  if len >? 0 then
    match fuel with
    | O => OutOfFuel
    | S f =>
        let possible := read_possible c start len in
        if possible =? 0 then Ok (Blocked out start len)
        else
          bs ← memcpy (replicate (Z.to_nat possible) 0) 0 (buffer c) start possible;
          let st := u64 (start + possible) in
          cbufm_read f c (out ++ bs) (if st =? size c then 0 else st) (len - possible)
    end
  else Ok (Done out start).

Fixpoint cbufm_write (fuel : nat) (c : cbufm) (src : list Z) : res (cbufm * Z) :=
  if zlen src >? 0 then
    match fuel with
    | O => OutOfFuel
    | S f =>
        let amnt := u64 (size c - write_ptr c) in
        let amnt := if amnt >? zlen src then zlen src else amnt in
        buf ← memcpy (buffer c) (write_ptr c) src 0 amnt;
        let wp := u64 (write_ptr c + amnt) in
        cbufm_write f {| write_ptr := if wp =? size c then 0 else wp; size := size c; buffer := buf |}
          (drop (Z.to_nat amnt) src)
    end
  else Ok (c, write_ptr c).

Definition cbufm_sync (c : cbufm) : Z := write_ptr c.

Definition cbufm_available (c : cbufm) (start : Z) : Z :=
  if start =? write_ptr c then 0
  else if start >? write_ptr c then u64 (u64 (size c - start) + write_ptr c)
  else u64 (write_ptr c - start).

(** [cbufm_wait] returns in the states in which this holds and waits on the event in the
    others. *)
Definition cbufm_wait_returns (c : cbufm) (start : Z) : bool := negb (cbufm_available c start =? 0).

Definition wf (c : cbufm) : Prop :=
  0 < size c < 2 ^ 63 /\ zlen (buffer c) = size c /\ 0 <= write_ptr c < size c.

Definition dist (c : cbufm) (start : Z) : Z := (write_ptr c - start) mod size c.

Lemma dist_cases c start : wf c -> 0 <= start < size c ->
  dist c start = if write_ptr c <? start then write_ptr c + size c - start else write_ptr c - start.
Proof.
  intros (Hs & _ & Hw) Hr. unfold dist. destruct (Z.ltb_spec (write_ptr c) start).
  - symmetry. apply (Z.mod_unique _ _ (-1)); lia.
  - apply Z.mod_small. lia.
Qed.

Lemma available_dist c start : wf c -> 0 <= start < size c -> cbufm_available c start = dist c start.
Proof.
  intros H Hr. rewrite dist_cases by done. destruct H as (Hs & _ & Hw).
  unfold cbufm_available. rewrite Z.gtb_ltb. case_cmp; rewrite ?u64_small by lia; try lia.
  all: rewrite ?u64_small by (rewrite ?u64_small by lia; lia); lia.
Qed.

Lemma mread_possible_eq c start len : wf c -> 0 <= start < size c -> 0 <= len ->
  read_possible c start len = Z.min len (Z.min (size c - start) (dist c start)).
Proof.
  intros H Hr Hl. rewrite dist_cases by done. destruct H as (Hs & _ & Hw).
  unfold read_possible. rewrite !Z.gtb_ltb.
  destruct (Z.ltb_spec (write_ptr c) start); rewrite !u64_small by (rewrite ?u64_small; lia);
    case_cmp; lia.
Qed.

Lemma step_ptr p n sz : 0 < sz < 2 ^ 63 -> 0 <= p -> 0 <= n -> p + n <= sz ->
  (if u64 (p + n) =? sz then 0 else u64 (p + n)) = (p + n) mod sz.
Proof.
  intros. rewrite u64_small by lia. destruct (Z.eqb_spec (p + n) sz) as [->|].
  - by rewrite Z.mod_same by lia.
  - by rewrite Z.mod_small by lia.
Qed.

Lemma read_ok f : forall c out start len, wf c -> 0 <= start < size c ->
  0 <= len <= dist c start -> (Z.to_nat len <= f)%nat ->
  cbufm_read f c out start len
  = Ok (Done (out ++ ring_at 0 (buffer c) start (Z.to_nat len)) ((start + len) mod size c)).
Proof.
  induction f as [|f IH]; intros c out start len H Hst Hl Hf; cbn [cbufm_read];
    rewrite Z.gtb_ltb; destruct (Z.ltb_spec 0 len) as [Hp|Hz]; try lia.
  1,3: assert (len = 0) as -> by lia; by rewrite Z.add_0_r, app_nil_r, Z.mod_small by lia.
  rewrite mread_possible_eq by (done || lia).
  set (n := Z.min len _). assert (0 < n <= len /\ n <= size c - start) as [Hn Hns] by lia.
  clearbody n. pose proof H as (Hs & Hb & Hw).
  destruct (Z.eqb_spec n 0); [lia|].
  rewrite memcpy_ok by (rewrite ?Hb; unfold zlen; rewrite ?length_replicate; lia).
  cbn [mbind res_bind]. rewrite step_ptr by lia.
  pose proof (Z.mod_pos_bound (start + n) (size c) ltac:(lia)).
  assert (dist c ((start + n) mod size c) = dist c start - n) as Hd.
  { pose proof (Z.mod_pos_bound (write_ptr c - start) (size c) ltac:(lia)).
    unfold dist in *. rewrite Zminus_mod_idemp_r.
    replace (write_ptr c - (start + n)) with (write_ptr c - start - n) by lia.
    rewrite <- Zminus_mod_idemp_l. apply Z.mod_small. lia. }
  rewrite IH by (done || lia). do 2 f_equal.
  - rewrite <- (assoc_L (++)). f_equal.
    replace (Z.to_nat len) with (Z.to_nat n + Z.to_nat (len - n))%nat by lia.
    rewrite ring_at_app, Z2Nat.id by lia. f_equal.
    + rewrite ring_at_slice, Z2Nat.id by lia. unfold splice. simpl.
      rewrite drop_ge, app_nil_r; [done|]. rewrite length_replicate.
      assert (zlen (slice (buffer c) start n) = n) by (apply zlen_slice; lia). unfold zlen in *. lia.
    + apply ring_at_mod. rewrite Hb. by rewrite Z.mod_mod by lia.
  - rewrite Zplus_mod_idemp_l. f_equal. lia.
Qed.

(** A write moves the pointer round the ring by its length, and as long as no more than the
    whole ring is in use it keeps what readers at distance [n] have not seen yet. *)
Lemma write_ok f : forall c src, wf c -> (length src <= f)%nat ->
  exists c', cbufm_write f c src = Ok (c', write_ptr c') /\ wf c' /\ size c' = size c /\
    write_ptr c' = (write_ptr c + zlen src) mod size c /\
    forall start n, write_ptr c = (start + Z.of_nat n) mod size c ->
      Z.of_nat n + zlen src <= size c ->
      ring_at 0 (buffer c') start (n + length src) = ring_at 0 (buffer c) start n ++ src.
Proof.
  induction f as [|f IH]; intros c src H Hf; cbn [cbufm_write];
    rewrite Z.gtb_ltb; destruct (Z.ltb_spec 0 (zlen src)) as [Hp|Hz];
    try (destruct src; [|unfold zlen in *; simpl in *; lia]).
  - unfold zlen in Hp. simpl in Hp. lia.
  - exists c. pose proof H as (? & ? & ?). rewrite zlen_nil, Z.add_0_r, Z.mod_small by lia.
    split_and!; try done. intros. by rewrite Nat.add_0_r, app_nil_r.
  - pose proof H as (Hs & Hb & Hw). rewrite (u64_small (size c - write_ptr c)), Z.gtb_ltb by lia.
    set (n := if zlen src <? size c - write_ptr c then zlen src else size c - write_ptr c).
    assert (n = Z.min (zlen src) (size c - write_ptr c)) as Hn by (unfold n; case_cmp; lia).
    clearbody n. rewrite memcpy_ok by lia. cbn [mbind res_bind]. rewrite step_ptr by lia.
    assert (slice src 0 n = take (Z.to_nat n) src) as -> by (unfold slice; by rewrite drop_0).
    set (bs := take (Z.to_nat n) src).
    assert (zlen bs = n) as Hbs by (unfold bs, zlen in *; rewrite length_take; lia).
    pose proof (Z.mod_pos_bound (write_ptr c + n) (size c) ltac:(lia)).
    set (c1 := mk_cbufm _ _ _).
    assert (wf c1) as H1 by (repeat split; simpl; rewrite ?zlen_splice; lia).
    assert (zlen (drop (Z.to_nat n) src) = zlen src - n) as Hdz
      by (unfold zlen in *; rewrite length_drop; lia).
    destruct (IH c1 (drop (Z.to_nat n) src) H1) as (c' & -> & Hwf & Hsz & Hwp & Hring).
    { unfold zlen in *. rewrite length_drop. lia. }
    exists c'. split_and!; try done.
    + rewrite Hwp, Hdz. simpl. rewrite Zplus_mod_idemp_l. f_equal. lia.
    + intros start k Hk Hfit.
      specialize (Hring start (k + length bs)%nat). rewrite Hdz in Hring. simpl in Hring.
      replace (k + length src)%nat
        with (k + length bs + length (drop (Z.to_nat n) src))%nat
        by (unfold zlen in *; lia).
      rewrite Hring.
      * rewrite Hk. rewrite <- Hb. rewrite ring_at_append; rewrite ?Hb, <- ?Hk; try lia.
        rewrite <- (assoc_L (++)). f_equal. apply take_drop.
      * rewrite Hk, Zplus_mod_idemp_l. f_equal. unfold zlen in *. lia.
      * unfold zlen in *. lia.
  - exists c. pose proof H as (? & ? & ?). rewrite zlen_nil, Z.add_0_r, Z.mod_small by lia.
    split_and!; try done. intros. by rewrite Nat.add_0_r, app_nil_r.
Qed.

(** A reader that took its position with [cbufm_sync] gets back, byte for byte, whatever
    prefix it asks for of what was written afterwards, as long as the writer has not lapped
    it (fewer than [size] bytes), and the new position is the old one advanced round the
    ring. *)
Theorem cbufm_sync_write_read (c : cbufm) (src : list Z) (len : Z) :
  wf c -> zlen src < size c -> 0 <= len <= zlen src ->
  exists c', cbufm_write (length src) c src = Ok (c', write_ptr c') /\ wf c' /\
    cbufm_available c' (cbufm_sync c) = zlen src /\
    cbufm_read (Z.to_nat len) c' [] (cbufm_sync c) len
    = Ok (Done (take (Z.to_nat len) src) ((cbufm_sync c + len) mod size c)).
Proof.
  intros H Hs Hl. pose proof H as (Hsz & Hb & Hw).
  destruct (write_ok (length src) c src H ltac:(lia)) as (c' & -> & Hwf & Hsize & Hwp & Hring).
  assert (dist c' (cbufm_sync c) = zlen src) as Hd.
  { unfold dist, cbufm_sync. rewrite Hwp, Hsize, Zminus_mod_idemp_l.
    replace (write_ptr c + zlen src - write_ptr c) with (zlen src) by lia.
    apply Z.mod_small. lia. }
  exists c'. unfold cbufm_sync in *. split_and!; try done.
  - rewrite available_dist by (rewrite ?Hsize; done || lia). done.
  - rewrite read_ok by (rewrite ?Hsize; done || lia). rewrite Hsize.
    cbn [app]. do 2 f_equal.
    specialize (Hring (write_ptr c) 0%nat). cbn [ring_at app Nat.add] in Hring.
    rewrite <- Hring by (rewrite ?Z.add_0_r, ?Z.mod_small by lia; lia).
    replace (length src) with (Z.to_nat len + (length src - Z.to_nat len))%nat
      by (unfold zlen in *; lia).
    rewrite ring_at_app, take_app_length'; [done|by rewrite length_ring_at].
Qed.

Lemma cbufm_sync_write_read_witness :
  exists c', cbufm_write 2 (mk_cbufm 3 4 [0; 0; 0; 0]) [8; 9] = Ok (c', write_ptr c') /\ wf c' /\
    cbufm_available c' 3 = 2 /\ cbufm_read 2 c' [] 3 2 = Ok (Done [8; 9] 1).
Proof.
  apply (cbufm_sync_write_read (mk_cbufm 3 4 [0; 0; 0; 0]) [8; 9] 2);
    [repeat split; vm_compute; done | vm_compute; done | vm_compute; done].
Defined.

(** Overrun is silent: what [cbufm_available] reports after [n] bytes were written is [n]
    modulo the ring size, so a writer that laps a reader by exactly one ring makes all of it
    invisible. *)
Theorem cbufm_overrun_available (c : cbufm) (src : list Z) :
  wf c ->
  exists c', cbufm_write (length src) c src = Ok (c', write_ptr c') /\
    cbufm_available c' (cbufm_sync c) = zlen src mod size c.
Proof.
  intros H. pose proof H as (Hsz & Hb & Hw).
  destruct (write_ok (length src) c src H ltac:(lia)) as (c' & -> & Hwf & Hsize & Hwp & _).
  exists c'. split; [done|]. unfold cbufm_sync.
  rewrite available_dist by (rewrite ?Hsize; done || lia).
  unfold dist. rewrite Hwp, Hsize, Zminus_mod_idemp_l. f_equal. lia.
Qed.

Lemma cbufm_overrun_available_witness :
  exists c', cbufm_write 4 (mk_cbufm 3 4 [0; 0; 0; 0]) [5; 6; 7; 8] = Ok (c', write_ptr c') /\
    cbufm_available c' 3 = 4 mod 4.
Proof.
  apply (cbufm_overrun_available (mk_cbufm 3 4 [0; 0; 0; 0]) [5; 6; 7; 8]).
  repeat split; vm_compute; done.
Defined.

End Cbufm.
