(* ===== verification/Rcp.v ===== *)
(** * include/aex/rcparray.h and include/aex/rcptable.h: reference counted tables

    Every global table of the kernel (devices, mounts, file handles, descriptors, processes)
    is one of these.  Each macro runs under the table's spinlock and is one step.  A slot is
    [None] for a NULL pointer; a [refs] count is an [int], which wraps at 32 bits ([s32]).
    Nothing in the macros keeps an entry from being removed twice or its count from running
    over: the theorem about holders is for users who do neither, and
    [remove_twice_releases] and [count_overflows] are what happens to the others. *)

From S2P Require Import Prelude.

Record cell (A : Type) := mk_cell { refs : Z; present : bool; value : A }.
Arguments mk_cell {A} refs present value.
Arguments refs {A} c.
Arguments present {A} c.
Arguments value {A} c.

Definition set_refs {A} (c : cell A) (n : Z) : cell A := mk_cell (s32 n) (present c) (value c).
Definition set_value {A} (c : cell A) (v : A) : cell A := mk_cell (refs c) (present c) v.

(** [refs--] and the release of the cell when nothing refers to it any more. *)
Definition drop_ref {A} (c : cell A) : option (cell A) :=
  if s32 (refs c - 1) =? 0 then None else Some (set_refs c (refs c - 1)).

(** [present = false; refs--] and the release. *)
Definition retire {A} (c : cell A) : option (cell A) :=
  if s32 (refs c - 1) =? 0 then None else Some (mk_cell (s32 (refs c - 1)) false (value c)).

(** A count that has not run over. *)
Definition counted {A} (c : cell A) : Prop := 1 <= refs c < 2 ^ 31.

Lemma drop_value {A} (c : cell A) v : counted c -> drop_ref (set_value (set_refs c (refs c + 1)) v) = Some (set_value c v).
Proof.
  intros Hc. unfold counted in Hc. unfold drop_ref, set_value, set_refs. cbn [refs present value].
  assert (s32 (s32 (refs c + 1) - 1) = refs c) as E.
  { destruct (decide (refs c = 2 ^ 31 - 1)) as [->|]; [reflexivity|]. rewrite (s32_small (refs c + 1)) by lia. rewrite s32_small by lia. lia. }
  rewrite E. by destruct (Z.eqb_spec (refs c) 0); [lia|].
Qed.

(** A reference that is taken and given back leaves a cell as it was. *)
Lemma drop_taken {A} (c : cell A) : counted c -> drop_ref (set_refs c (refs c + 1)) = Some c.
Proof. intros Hc. pose proof (drop_value c (value c) Hc) as E. by destruct c. Qed.

Lemma set_refs_small {A} (c : cell A) n : 0 <= n < 2 ^ 31 -> set_refs c n = mk_cell n (present c) (value c).
Proof. intros Hn. unfold set_refs. by rewrite s32_small by lia. Qed.

Lemma drop_small {A} (c : cell A) : 2 <= refs c < 2 ^ 31 -> drop_ref c = Some (mk_cell (refs c - 1) (present c) (value c)).
Proof. intros Hc. unfold drop_ref, set_refs. rewrite s32_small by lia. by destruct (Z.eqb_spec (refs c - 1) 0); [lia|]. Qed.

Lemma retire_small {A} (c : cell A) : 2 <= refs c < 2 ^ 31 -> retire c = Some (mk_cell (refs c - 1) false (value c)).
Proof. intros Hc. unfold retire. rewrite s32_small by lia. by destruct (Z.eqb_spec (refs c - 1) 0); [lia|]. Qed.

(** Retiring a cell while somebody holds it. *)
Lemma retire_taken {A} (c : cell A) : counted c -> retire (set_refs c (refs c + 1)) = Some (mk_cell (refs c) false (value c)).
Proof.
  intros Hc. pose proof (drop_taken c Hc) as E. unfold drop_ref, retire, set_refs in *. cbn [refs present value] in *.
  destruct (s32 _ =? 0); [done|]. injection E as E. apply (f_equal refs) in E. cbn [refs] in E. by rewrite E.
Qed.

(** ** rcparray *)
Abbreviation rcparray A := (list (option (cell A))).

Section Rcparray.
Context {A : Type}.

(** [rcparray.array[_id]] for an index below [size], NULL or not. *)
Definition arr_slot (a : rcparray A) (_id : Z) : option (cell A) :=
  match get a _id with Some o => o | None => None end.

Definition arr_set (a : rcparray A) (_id : Z) (c : option (cell A)) : rcparray A :=
  <[Z.to_nat _id := c]> a.

(** First NULL slot at or after position [i]. *)
Fixpoint first_null (a : rcparray A) (i : Z) : option Z :=
  match a with
  | [] => None
  | None :: _ => Some i
  | Some _ :: a' => first_null a' (i + 1)
  end.

Definition rcparray_add (a : rcparray A) (data : A) : rcparray A * Z :=
  match first_null a 0 with
  | Some i => (arr_set a i (Some (mk_cell 1 true data)), i)
  | None => (a ++ [Some (mk_cell 1 true data)], zlen a)
  end.

(** The pointer to the value is the index of its slot. *)
Definition rcparray_get (a : rcparray A) (id : Z) : rcparray A * option A :=
  let _id := u64 id in
  if _id >=? zlen a then (a, None)
  else
    match arr_slot a _id with
    | None => (a, None)
    | Some c =>
        if present c then (arr_set a _id (Some (set_refs c (refs c + 1))), Some (value c))
        else (a, None)
    end.

Definition rcparray_unref (a : rcparray A) (id : Z) : rcparray A :=
  let _id := u64 id in
  if _id >=? zlen a then a
  else match arr_slot a _id with None => a | Some c => arr_set a _id (drop_ref c) end.

Definition rcparray_remove (a : rcparray A) (id : Z) : rcparray A * Z :=
  let _id := u64 id in
  if _id >=? zlen a then (a, -1)
  else
    match arr_slot a _id with
    | None => (a, -1)
    | Some c => (arr_set a _id (retire c), s32 (refs c - 1))
    end.

(** A store through the pointer [rcparray_get] returned. *)
Definition rcparray_write (a : rcparray A) (id : Z) (v : A) : rcparray A :=
  match arr_slot a (u64 id) with
  | None => a
  | Some c => arr_set a (u64 id) (Some (set_value c v))
  end.

Definition is_present (o : option (cell A)) : bool :=
  match o with Some c => present c | None => false end.

(** The test of [rcparray_foreach]: some slot from [id] on is present.  The macro looks for
    it with a copy of the index, so the loop variable itself only moves by [id++]. *)
Definition foreach_more (a : rcparray A) (id : Z) : bool :=
  existsb is_present (drop (Z.to_nat (u64 id)) a).

(** The ids the body of [rcparray_foreach] sees while it leaves the array alone. *)
Fixpoint foreach_ids (fuel : nat) (a : rcparray A) (id : Z) : list Z :=
  match fuel with
  | O => []
  | S f => if foreach_more a id then id :: foreach_ids f a (id + 1) else []
  end.

Definition rcparray_foreach (a : rcparray A) : list Z := foreach_ids (length a) a 0.

(** [rcparray_find]: the first present element that satisfies [cond], referenced. *)
Fixpoint find_from (cond : A -> bool) (a : rcparray A) (i : Z) : option (Z * A) :=
  match a with
  | [] => None
  | o :: a' =>
      match o with
      | Some c =>
          if present c && cond (value c) then Some (i, value c) else find_from cond a' (i + 1)
      | None => find_from cond a' (i + 1)
      end
  end.

Definition rcparray_find (a : rcparray A) (cond : A -> bool) : rcparray A * option (Z * A) :=
  match find_from cond a 0 with
  | None => (a, None)
  | Some (i, v) =>
      (match arr_slot a i with
       | Some c => arr_set a i (Some (set_refs c (refs c + 1)))
       | None => a
       end, Some (i, v))
  end.
End Rcparray.

(** ** rcptable *)
Section Rcptable.
Context {A : Type}.

Record tcell := mk_tcell { tid : Z; tc : cell A }.

(** [sizes[i]] is the length of segment [i]; the tables of this kernel have no [cleanup]. *)
Record rcptable := mk_rcptable { table : list (list (option tcell)); counter : Z }.

Definition rcptable_init (hashsegs : nat) (ctr : Z) : rcptable :=
  {| table := replicate hashsegs []; counter := ctr |}.

Definition rcptable_hash (t : rcptable) (id : Z) : nat :=
  Z.to_nat (id mod zlen (table t)).

Definition seg (t : rcptable) (h : nat) : list (option tcell) := default [] (table t !! h).

Definition set_seg (t : rcptable) (h : nat) (s : list (option tcell)) : rcptable :=
  {| table := <[h := s]> (table t); counter := counter t |}.

(** The slot of a segment that holds [id], present or not. *)
Fixpoint seg_find (s : list (option tcell)) (id : Z) (i : nat) : option (nat * cell A) :=
  match s with
  | [] => None
  | Some c :: s' => if tid c =? id then Some (i, tc c) else seg_find s' id (S i)
  | None :: s' => seg_find s' id (S i)
  end.

Fixpoint seg_null (s : list (option tcell)) (i : nat) : option nat :=
  match s with
  | [] => None
  | None :: _ => Some i
  | Some _ :: s' => seg_null s' (S i)
  end.

Definition rcptable_set (t : rcptable) (id : Z) (v : A) : rcptable :=
  let __id := u64 id in
  let h := rcptable_hash t __id in
  let c := Some (mk_tcell __id (mk_cell 1 true v)) in
  match seg_null (seg t h) 0 with
  | Some i => set_seg t h (<[i := c]> (seg t h))
  | None => set_seg t h (seg t h ++ [c])
  end.

Definition rcptable_get (t : rcptable) (id : Z) : rcptable * option A :=
  let __id := u64 id in
  let h := rcptable_hash t __id in
  match seg_find (seg t h) __id 0 with
  | None => (t, None)
  | Some (i, c) =>
      if present c then
        (set_seg t h (<[i := Some (mk_tcell __id (set_refs c (refs c + 1)))]> (seg t h)), Some (value c))
      else (t, None)
  end.

Definition rcptable_unref (t : rcptable) (id : Z) : rcptable :=
  let __id := u64 id in
  let h := rcptable_hash t __id in
  match seg_find (seg t h) __id 0 with
  | None => t
  | Some (i, c) => set_seg t h (<[i := mk_tcell __id <$> drop_ref c]> (seg t h))
  end.

Definition rcptable_remove (t : rcptable) (id : Z) : rcptable :=
  let __id := u64 id in
  let h := rcptable_hash t __id in
  match seg_find (seg t h) __id 0 with
  | None => t
  | Some (i, c) => set_seg t h (<[i := mk_tcell __id <$> retire c]> (seg t h))
  end.

Definition rcptable_refcount (t : rcptable) (id : Z) : Z :=
  let __id := u64 id in
  match seg_find (seg t (rcptable_hash t __id)) __id 0 with
  | None => -1
  | Some (_, c) => refs c
  end.

(** A store through the pointer [rcptable_get] returned. *)
Definition rcptable_write (t : rcptable) (id : Z) (v : A) : rcptable :=
  let __id := u64 id in
  let h := rcptable_hash t __id in
  match seg_find (seg t h) __id 0 with
  | None => t
  | Some (i, c) => set_seg t h (<[i := Some (mk_tcell __id (set_value c v))]> (seg t h))
  end.
End Rcptable.

Arguments tcell A : clear implicits.
Arguments rcptable A : clear implicits.

(** ** What both promise: the interface their clients' proofs use *)

Class RcStore (S A : Type) := {
  cell_at : S -> Z -> option (cell A);
  rc_get : S -> Z -> S * option A;
  rc_unref : S -> Z -> S;
  rc_remove : S -> Z -> S;
}.

(** [s'] is [s] with the cell of [id] replaced. *)
Definition cell_update {S A} `{RcStore S A} (s : S) (id : Z) (o : option (cell A)) (s' : S) : Prop :=
  cell_at s' id = o /\ forall j, 0 <= j < 2 ^ 64 -> j <> id -> cell_at s' j = cell_at s j.

Class RcStoreLaws (S A : Type) `{RcStore S A} (store_ok : S -> Prop) := {
  law_get_hit : forall s id c, store_ok s -> 0 <= id < 2 ^ 64 ->
    cell_at s id = Some c -> present c = true ->
    exists s', rc_get s id = (s', Some (value c)) /\ store_ok s' /\
      cell_update s id (Some (set_refs c (refs c + 1))) s';
  law_get_miss : forall s id, store_ok s -> 0 <= id < 2 ^ 64 ->
    (forall c, cell_at s id = Some c -> present c = false) -> rc_get s id = (s, None);
  law_unref : forall s id c, store_ok s -> 0 <= id < 2 ^ 64 -> cell_at s id = Some c ->
    store_ok (rc_unref s id) /\ cell_update s id (drop_ref c) (rc_unref s id);
  law_unref_none : forall s id, store_ok s -> 0 <= id < 2 ^ 64 -> cell_at s id = None ->
    rc_unref s id = s;
  law_remove : forall s id c, store_ok s -> 0 <= id < 2 ^ 64 -> cell_at s id = Some c ->
    store_ok (rc_remove s id) /\ cell_update s id (retire c) (rc_remove s id);
}.

(** ** The array discharges the interface *)
Section ArrayLaws.
Context {A : Type}.
Implicit Types (a : rcparray A).

Definition array_ok (a : rcparray A) : Prop := zlen a < 2 ^ 64.

#[global] Instance rcparray_store : RcStore (rcparray A) A := {
  cell_at := arr_slot;
  rc_get := rcparray_get;
  rc_unref := rcparray_unref;
  rc_remove := fun a id => fst (rcparray_remove a id);
}.

Lemma arr_slot_Some a id c : arr_slot a id = Some c <-> 0 <= id /\ a !! Z.to_nat id = Some (Some c).
Proof.
  unfold arr_slot. destruct (get a id) as [o|] eqn:E; simpl.
  - apply get_Some in E as [? E]. split; [intros ->; auto|intros [_ ?]; congruence].
  - split; [done|]. intros [? H]. assert (get a id = Some (Some c)) by (by apply get_Some). congruence.
Qed.

Lemma arr_slot_range a id c : arr_slot a id = Some c -> 0 <= id < zlen a.
Proof.
  intros [? H]%arr_slot_Some. apply lookup_lt_Some in H. unfold zlen. lia.
Qed.

Lemma arr_slot_set a id o : 0 <= id < zlen a -> arr_slot (arr_set a id o) id = o.
Proof.
  intros H. unfold arr_slot, arr_set, get, zlen in *. destruct (Z.leb_spec 0 id); [|lia].
  rewrite list_lookup_insert_eq by lia. done.
Qed.

Lemma arr_slot_set_ne a id j o : 0 <= id -> j <> id -> arr_slot (arr_set a id o) j = arr_slot a j.
Proof.
  intros Hi H. unfold arr_slot, arr_set, get. destruct (Z.leb_spec 0 j); [|done].
  rewrite list_lookup_insert_ne by lia. done.
Qed.

Lemma zlen_arr_set a id o : zlen (arr_set a id o) = zlen a.
Proof. apply zlen_insert. Qed.

Lemma arr_update a id o : array_ok a -> 0 <= id < zlen a ->
  array_ok (arr_set a id o) /\ cell_update a id o (arr_set a id o).
Proof.
  intros Ha Hi. split; [unfold array_ok; by rewrite zlen_arr_set|].
  split; [by apply arr_slot_set|]. intros j _ Hj. apply arr_slot_set_ne; [lia|done].
Qed.

Lemma rcparray_get_eq a id : 0 <= id < 2 ^ 64 ->
  rcparray_get a id = match arr_slot a id with
    | Some c => if present c then (arr_set a id (Some (set_refs c (refs c + 1))), Some (value c)) else (a, None)
    | None => (a, None) end.
Proof.
  intros Hi. unfold rcparray_get. rewrite u64_small by done. rewrite Z.geb_leb.
  destruct (Z.leb_spec (zlen a) id); [|done].
  destruct (arr_slot a id) as [c|] eqn:E; [|done]. apply arr_slot_range in E. lia.
Qed.

Lemma rcparray_unref_eq a id : 0 <= id < 2 ^ 64 ->
  rcparray_unref a id = match arr_slot a id with Some c => arr_set a id (drop_ref c) | None => a end.
Proof.
  intros Hi. unfold rcparray_unref. rewrite u64_small by done. rewrite Z.geb_leb.
  destruct (Z.leb_spec (zlen a) id); [|done].
  destruct (arr_slot a id) as [c|] eqn:E; [|done]. apply arr_slot_range in E. lia.
Qed.

Lemma rcparray_remove_eq a id : 0 <= id < 2 ^ 64 ->
  rcparray_remove a id = match arr_slot a id with
    | Some c => (arr_set a id (retire c), s32 (refs c - 1)) | None => (a, -1) end.
Proof.
  intros Hi. unfold rcparray_remove. rewrite u64_small by done. rewrite Z.geb_leb.
  destruct (Z.leb_spec (zlen a) id); [|done].
  destruct (arr_slot a id) as [c|] eqn:E; [|done]. apply arr_slot_range in E. lia.
Qed.

(** A reference taken and given back leaves the table as it was. *)
Lemma get_unref_same a id c : arr_slot a id = Some c -> present c = true -> counted c -> 0 <= id < 2 ^ 64 ->
  exists a1, rcparray_get a id = (a1, Some (value c)) /\ rcparray_unref a1 id = a.
Proof.
  intros Hs Hp Hr Hid. rewrite rcparray_get_eq, Hs, Hp by done. eexists. split; [done|]. pose proof (arr_slot_range _ _ _ Hs).
  rewrite rcparray_unref_eq, arr_slot_set, drop_taken by done. unfold arr_set. rewrite list_insert_insert_eq. apply list_insert_id.
  by apply arr_slot_Some in Hs as [_ Hs].
Qed.

(** A value changed while a reference on it is held. *)
Lemma get_write_unref a id c : arr_slot a id = Some c -> present c = true -> counted c -> 0 <= id < 2 ^ 64 ->
  exists a1, rcparray_get a id = (a1, Some (value c)) /\
    forall v, rcparray_unref (rcparray_write a1 id v) id = arr_set a id (Some (set_value c v)).
Proof.
  intros Hs Hp Hr Hid. rewrite rcparray_get_eq, Hs, Hp by done. eexists. split; [done|]. intros v. pose proof (arr_slot_range _ _ _ Hs) as Hrg.
  unfold rcparray_write. rewrite (u64_small id), arr_slot_set by (done || lia).
  assert (zlen (arr_set a id (Some (set_refs c (refs c + 1)))) = zlen a) as Hz by (unfold zlen, arr_set; by rewrite length_insert).
  rewrite rcparray_unref_eq, arr_slot_set by (rewrite ?Hz; done). rewrite drop_value by done. unfold arr_set. by rewrite !list_insert_insert_eq.
Qed.

#[global] Instance rcparray_laws : RcStoreLaws (rcparray A) A array_ok.
Proof.
  split; simpl.
  - intros a id c Ha Hi Hc Hp. rewrite rcparray_get_eq, Hc, Hp by done.
    eexists. split; [done|]. apply arr_update; [done|]. by apply arr_slot_range in Hc.
  - intros a id Ha Hi Hc. rewrite rcparray_get_eq by done.
    destruct (arr_slot a id) as [c|]; [|done]. by rewrite (Hc c).
  - intros a id c Ha Hi Hc. rewrite rcparray_unref_eq, Hc by done.
    apply arr_update; [done|]. by apply arr_slot_range in Hc.
  - intros a id Ha Hi Hc. by rewrite rcparray_unref_eq, Hc by done.
  - intros a id c Ha Hi Hc. rewrite rcparray_remove_eq, Hc by done.
    apply arr_update; [done|]. by apply arr_slot_range in Hc.
Qed.

(** [rcparray_add] takes the lowest free index. *)
Lemma first_null_spec a : forall i,
  match first_null a i with
  | Some k => exists n, k = i + Z.of_nat n /\ a !! n = Some None /\
      forall m, (m < n)%nat -> exists c, a !! m = Some (Some c)
  | None => forall m, (m < length a)%nat -> exists c, a !! m = Some (Some c)
  end.
Proof.
  induction a as [|[c|] a IH]; intros i; simpl.
  - intros m. lia.
  - specialize (IH (i + 1)). destruct (first_null a (i + 1)) as [k|].
    + destruct IH as (n & -> & Hn & Hlt). exists (S n). split_and!; [lia|done|].
      intros [|m] Hm; simpl; [eauto|]. apply Hlt. lia.
    + intros [|m] Hm; simpl; [eauto|]. apply IH. lia.
  - exists 0%nat. split_and!; [lia|done|lia].
Qed.

Lemma rcparray_add_spec a v : let (a', id) := rcparray_add a v in
  0 <= id <= zlen a /\ arr_slot a id = None /\ (forall j, 0 <= j < id -> exists c, arr_slot a j = Some c) /\
  cell_update a id (Some (mk_cell 1 true v)) a' /\ zlen a' <= zlen a + 1.
Proof.
  unfold rcparray_add. pose proof (first_null_spec a 0) as H.
  destruct (first_null a 0) as [k|].
  - destruct H as (n & -> & Hn & Hlt). rewrite Z.add_0_l.
    pose proof (lookup_lt_Some _ _ _ Hn).
    assert (arr_slot a (Z.of_nat n) = None) as He
      by (unfold arr_slot; by rewrite get_of_nat, Hn).
    split_and!; try done.
    1,2: unfold zlen; lia.
    + intros j Hj. destruct (Hlt (Z.to_nat j)) as [c Hc]; [lia|]. exists c. apply arr_slot_Some. split; [lia|done].
    + split; [apply arr_slot_set; unfold zlen; lia|]. intros j _ Hj. apply arr_slot_set_ne; [lia|done].
    + rewrite zlen_arr_set. lia.
  - pose proof (zlen_nonneg a). split_and!; try lia.
    + destruct (arr_slot a (zlen a)) as [c|] eqn:E; [|done]. apply arr_slot_range in E. lia.
    + intros j Hj. destruct (H (Z.to_nat j)) as [c Hc]; [unfold zlen in *; lia|].
      exists c. apply arr_slot_Some. split; [lia|done].
    + split.
      * simpl. unfold arr_slot, zlen. rewrite get_of_nat, list_lookup_middle by done. done.
      * intros j Hj Hne. simpl. unfold arr_slot, get. destruct (Z.leb_spec 0 j); [|done].
        destruct (decide (j < zlen a)) as [Hlt|Hge].
        -- rewrite lookup_app_l by (unfold zlen in *; lia). done.
        -- rewrite !(lookup_ge_None_2); [done|unfold zlen in *; lia|].
           rewrite length_app. simpl. unfold zlen in *. lia.
    + rewrite zlen_app. unfold zlen. simpl. lia.
Qed.

(** [rcparray_foreach] visits every index up to the last present one, holes included. *)
Lemma foreach_more_true a id : 0 <= id < 2 ^ 64 ->
  foreach_more a id = true <-> exists j c, id <= j /\ arr_slot a j = Some c /\ present c = true.
Proof.
  intros Hi. unfold foreach_more. rewrite u64_small by done. rewrite existsb_exists. split.
  - intros (o & Hin & Hp). apply list_elem_of_In, list_elem_of_lookup in Hin as [k Hk].
    rewrite lookup_drop in Hk. destruct o as [c|]; [|done].
    exists (id + Z.of_nat k), c. split_and!; [lia| |done]. apply arr_slot_Some. split; [lia|].
    rewrite <- Hk. f_equal. lia.
  - intros (j & c & Hj & Hc & Hp). exists (Some c). split; [|done].
    apply list_elem_of_In, list_elem_of_lookup. exists (Z.to_nat (j - id)). rewrite lookup_drop.
    apply arr_slot_Some in Hc as [? Hc]. rewrite <- Hc. f_equal. lia.
Qed.
End ArrayLaws.

(** ** A table around one slot *)

Section Find.
Context {A : Type} (cond : A -> bool).

(** Whether the search stops at a slot. *)
Definition slot_hit (o : option (cell A)) : bool := match o with Some c => present c && cond (value c) | None => false end.

Lemma find_from_app (a b : rcparray A) : forall i, existsb slot_hit a = false -> find_from cond (a ++ b) i = find_from cond b (i + zlen a).
Proof.
  induction a as [|o a IH]; intros i H; [by rewrite Z.add_0_r|]. cbn [existsb] in H. apply orb_false_iff in H as [Ho Ha]. rewrite zlen_cons. cbn [app find_from].
  rewrite (IH (i + 1)) by done. replace (i + 1 + zlen a) with (i + (zlen a + 1)) by lia. destruct o as [c|]; [|done]. cbn [slot_hit] in Ho. by rewrite Ho.
Qed.

Lemma find_from_none (a : rcparray A) : forall i, existsb slot_hit a = false -> find_from cond a i = None.
Proof. intros i H. rewrite <- (app_nil_r a), find_from_app by done. done. Qed.

Lemma find_from_split (a : rcparray A) : forall i j v, find_from cond a i = Some (j, v) ->
  exists p c r, a = p ++ Some c :: r /\ j = i + zlen p /\ present c = true /\ value c = v /\ cond v = true /\ existsb slot_hit p = false.
Proof.
  induction a as [|o a IH]; intros i j v E; [done|]. cbn [find_from] in E.
  assert (slot_hit o = false -> find_from cond a (i + 1) = Some (j, v) -> exists p c r, o :: a = p ++ Some c :: r /\ j = i + zlen p /\ present c = true /\ value c = v /\ cond v = true /\ existsb slot_hit p = false) as Hnext.
  { intros Ho E'. destruct (IH _ _ _ E') as (p & c & r & -> & -> & H1 & H2 & H3 & H4). exists (o :: p), c, r. split_and!; try done; [rewrite zlen_cons; lia|]. cbn [existsb]. by rewrite Ho. }
  destruct o as [c|]; [|by apply Hnext]. cbn [slot_hit] in Hnext. destruct (present c && cond (value c)) eqn:Ec; [|by apply Hnext].
  injection E as <- <-. apply andb_true_iff in Ec as [Hp Hc]. exists [], c, a. split_and!; try done. unfold zlen. cbn. lia.
Qed.

Lemma find_from_hit (p r : rcparray A) c i : existsb slot_hit p = false -> present c = true -> cond (value c) = true -> find_from cond (p ++ Some c :: r) i = Some (i + zlen p, value c).
Proof. intros Hp H1 H2. rewrite find_from_app by done. cbn [find_from]. by rewrite H1, H2. Qed.
End Find.

Lemma slot_mid {A} (p r : rcparray A) o : arr_slot (p ++ o :: r) (zlen p) = o.
Proof.
  pose proof (zlen_nonneg p). assert (Z.to_nat (zlen p) = length p) as E by (unfold zlen; lia).
  destruct o as [k|]; [apply arr_slot_Some; split; [lia|]; rewrite E; by apply list_lookup_middle|].
  destruct (arr_slot (p ++ None :: r) (zlen p)) as [k|] eqn:Ek; [|done]. apply arr_slot_Some in Ek as [_ Ek]. rewrite E, list_lookup_middle in Ek by done. done.
Qed.

Lemma set_mid {A} (p r : rcparray A) o o' : arr_set (p ++ o :: r) (zlen p) o' = p ++ o' :: r.
Proof. unfold arr_set. replace (Z.to_nat (zlen p)) with (length p + 0)%nat by (unfold zlen; lia). by rewrite insert_app_r. Qed.

(** A reference taken on an element that is found. *)
Lemma find_split {A} cond (a : rcparray A) p c r : a = p ++ Some c :: r -> existsb (slot_hit cond) p = false -> present c = true -> cond (value c) = true ->
  rcparray_find a cond = (p ++ Some (set_refs c (refs c + 1)) :: r, Some (zlen p, value c)).
Proof.
  intros -> Hp H1 H2. unfold rcparray_find. rewrite find_from_hit by done. rewrite Z.add_0_l, slot_mid. by rewrite set_mid.
Qed.

Lemma find_none {A} cond (a : rcparray A) : existsb (slot_hit cond) a = false -> rcparray_find a cond = (a, None).
Proof. intros H. unfold rcparray_find. by rewrite find_from_none. Qed.

Lemma write_mid {A} (p r : rcparray A) c v : zlen p < 2 ^ 64 -> rcparray_write (p ++ Some c :: r) (zlen p) v = p ++ Some (set_value c v) :: r.
Proof. intros H. pose proof (zlen_nonneg p). unfold rcparray_write. rewrite u64_small by lia. by rewrite slot_mid, set_mid. Qed.

Lemma unref_mid {A} (p r : rcparray A) c : zlen p < 2 ^ 64 -> rcparray_unref (p ++ Some c :: r) (zlen p) = p ++ drop_ref c :: r.
Proof. intros H. pose proof (zlen_nonneg p). rewrite rcparray_unref_eq by lia. by rewrite slot_mid, set_mid. Qed.

Lemma get_mid {A} (p r : rcparray A) o : zlen p < 2 ^ 64 -> rcparray_get (p ++ o :: r) (zlen p) =
  match o with
  | Some c => if present c then (p ++ Some (set_refs c (refs c + 1)) :: r, Some (value c)) else (p ++ o :: r, None)
  | None => (p ++ o :: r, None)
  end.
Proof. intros H. pose proof (zlen_nonneg p). rewrite rcparray_get_eq by lia. rewrite slot_mid. destruct o as [c|]; [|done]. by rewrite set_mid. Qed.

(** An element goes to the first free slot. *)
Lemma add_mid {A} (a : rcparray A) v : exists p r, rcparray_add a v = (p ++ Some (mk_cell 1 true v) :: r, zlen p) /\ (a = p ++ None :: r \/ a = p /\ r = []) /\ forall o, o ∈ p -> is_Some o.
Proof.
  unfold rcparray_add. assert (forall i, match first_null a i with
    | Some j => exists p r, a = p ++ None :: r /\ j = i + zlen p /\ forall o, o ∈ p -> is_Some o | None => forall o, o ∈ a -> is_Some o end) as H.
  { induction a as [|o a IH]; intros i; cbn [first_null]; [by intros o Ho%elem_of_nil|]. destruct o as [c|]; [|exists [], a; split_and!; try done; [unfold zlen; cbn; lia|by intros o Ho%elem_of_nil]].
    specialize (IH (i + 1)). destruct (first_null a (i + 1)).
    - destruct IH as (p & r & -> & -> & Hp). exists (Some c :: p), r. split_and!; [done|rewrite zlen_cons; lia|]. intros o [->|Ho]%elem_of_cons; [done|by apply Hp].
    - intros o [->|Ho]%elem_of_cons; [done|by apply IH]. }
  specialize (H 0). destruct (first_null a 0) as [j|].
  - destruct H as (p & r & Ea & -> & Hp). exists p, r. rewrite Ea, Z.add_0_l, set_mid. split; [done|]. by split; [left|].
  - exists a, []. split; [done|]. by split; [right|].
Qed.


(** ** The hash table discharges the interface *)
Section TableLaws.
Context {A : Type}.
Implicit Types (t : rcptable A) (s : list (option (tcell A))).

(** The ids of a segment are distinct and hash to it. *)
Definition seg_uniq s : Prop :=
  forall i j c d, s !! i = Some (Some c) -> s !! j = Some (Some d) -> tid c = tid d -> i = j.

Definition table_ok (t : rcptable A) : Prop :=
  0 < zlen (table t) /\ forall h, seg_uniq (seg t h).

#[global] Instance rcptable_store : RcStore (rcptable A) A := {
  cell_at := fun t id => snd <$> seg_find (seg t (rcptable_hash t id)) id 0;
  rc_get := rcptable_get;
  rc_unref := rcptable_unref;
  rc_remove := rcptable_remove;
}.

Lemma seg_find_Some s id k i (c : cell A) :
  seg_find s id k = Some (i, c) -> (k <= i)%nat /\ s !! (i - k)%nat = Some (Some (mk_tcell id c)).
Proof.
  revert k. induction s as [|[d|] s IH]; intros k H; simpl in *; [done| |].
  - destruct (Z.eqb_spec (tid d) id) as [<-|Hne].
    + simplify_eq. rewrite Nat.sub_diag. by destruct d.
    + apply IH in H as [Hle H]. split; [lia|].
      replace (i - k)%nat with (S (i - S k)) by lia. done.
  - apply IH in H as [Hle H]. split; [lia|]. replace (i - k)%nat with (S (i - S k)) by lia. done.
Qed.

Lemma seg_find_None s id k :
  seg_find s id k = None <-> forall i (c : cell A), s !! i <> Some (Some (mk_tcell id c)).
Proof.
  revert k. induction s as [|[d|] s IH]; intros k; simpl.
  - done.
  - destruct (Z.eqb_spec (tid d) id) as [<-|Hne].
    + split; [done|]. intros H. destruct (H 0%nat (tc d)). by destruct d.
    + rewrite IH. split.
      * intros H [|i] c; simpl; [|apply H]. intros [= ->]. done.
      * intros H i c. apply (H (S i)).
  - rewrite IH. split; [intros H [|i] c; simpl; [done|apply H] | intros H i c; apply (H (S i))].
Qed.

Lemma seg_find_iff s id i (c : cell A) : seg_uniq s ->
  seg_find s id 0 = Some (i, c) <-> s !! i = Some (Some (mk_tcell id c)).
Proof.
  intros Hu. split.
  - intros [_ H]%seg_find_Some. by rewrite Nat.sub_0_r in H.
  - intros H. destruct (seg_find s id 0) as [[j d]|] eqn:E.
    + apply seg_find_Some in E as [_ E]. rewrite Nat.sub_0_r in E.
      assert (i = j) as -> by (by eapply Hu). congruence.
    + by rewrite seg_find_None in E; edestruct E.
Qed.

Lemma seg_uniq_insert s i o : seg_uniq s ->
  (forall d, o = Some d -> exists c, s !! i = Some (Some c) /\ tid c = tid d) ->
  seg_uniq (<[i := o]> s).
Proof.
  intros Hu Ho j k c d Hj Hk Heq.
  apply list_lookup_insert_Some in Hj as [(-> & Hc & Hl)|[Hne1 Hj]];
    apply list_lookup_insert_Some in Hk as [(-> & Hd & Hl')|[Hne2 Hk]].
  - done.
  - subst o. destruct (Ho c eq_refl) as (c0 & H0 & Ht). eapply Hu; [exact H0|exact Hk|congruence].
  - subst o. destruct (Ho d eq_refl) as (c0 & H0 & Ht). eapply Hu; [exact Hj|exact H0|congruence].
  - by eapply Hu.
Qed.

Lemma seg_set_seg t h h' s : (h < length (table t))%nat ->
  seg (set_seg t h s) h' = if decide (h = h') then s else seg t h'.
Proof.
  intros Hh. unfold seg, set_seg. simpl. destruct (decide (h = h')) as [<-|Hne].
  - by rewrite list_lookup_insert_eq.
  - by rewrite list_lookup_insert_ne.
Qed.

Lemma hash_range t id : table_ok t -> (rcptable_hash t id < length (table t))%nat.
Proof.
  intros [Hn _]. unfold rcptable_hash.
  pose proof (Z.mod_pos_bound id (zlen (table t)) Hn). unfold zlen in *. lia.
Qed.

Lemma hash_set_seg t h s id : rcptable_hash (set_seg t h s) id = rcptable_hash t id.
Proof. unfold rcptable_hash. simpl. by rewrite zlen_insert. Qed.

(** Replacing the cell of [id] in place. *)
Lemma table_update t id i (c : cell A) (o : option (cell A)) : table_ok t ->
  seg_find (seg t (rcptable_hash t id)) id 0 = Some (i, c) ->
  let t' := set_seg t (rcptable_hash t id)
              (<[i := mk_tcell id <$> o]> (seg t (rcptable_hash t id))) in
  table_ok t' /\ cell_update t id o t'.
Proof.
  intros Ht Hf t'. pose proof Ht as [Hn Hu]. set (h := rcptable_hash t id) in *.
  pose proof (hash_range t id Ht) as Hh. fold h in Hh.
  apply seg_find_iff in Hf; [|apply Hu].
  assert (seg_uniq (<[i := mk_tcell id <$> o]> (seg t h))) as Hu'.
  { apply seg_uniq_insert; [apply Hu|]. intros d Hd. exists (mk_tcell id c). split; [done|].
    destruct o; simplify_eq/=. done. }
  assert (table_ok t') as Ht'.
  { split; [unfold t'; simpl; by rewrite zlen_insert|]. intros h'. unfold t'.
    rewrite seg_set_seg by done. case_decide; [done|apply Hu]. }
  split; [done|]. pose proof (lookup_lt_Some _ _ _ Hf) as Hil. split.
  - simpl. unfold t'. rewrite hash_set_seg, seg_set_seg by done. fold h. case_decide; [|done].
    destruct o as [c'|].
    + rewrite (proj2 (seg_find_iff _ id i c' Hu')); [done|]. by rewrite list_lookup_insert_eq.
    + rewrite (proj2 (seg_find_None _ id 0)); [done|].
      intros j d Hj. apply list_lookup_insert_Some in Hj as [(_ & ? & _)|[Hne Hj]]; [done|].
      destruct Hne. by eapply Hu.
  - intros j _ Hj. simpl. unfold t'. rewrite hash_set_seg, seg_set_seg by done. fold h.
    case_decide as Hhj; [|done]. rewrite <- Hhj.
    assert (seg_find (<[i := mk_tcell id <$> o]> (seg t h)) j 0 = seg_find (seg t h) j 0) as ->; [|done].
    apply option_eq. intros [k d]. rewrite !seg_find_iff by (done || apply Hu).
    split; intros Hk.
    + apply list_lookup_insert_Some in Hk as [(<- & Hk & _)|[_ Hk]]; [|done].
      destruct o; simplify_eq/=.
    + rewrite list_lookup_insert_ne; [done|]. intros <-. congruence.
Qed.

#[global] Instance rcptable_laws : RcStoreLaws (rcptable A) A table_ok.
Proof.
  split; simpl.
  - intros t id c Ht Hi Hc Hp. unfold rcptable_get. rewrite u64_small by done.
    destruct (seg_find _ id 0) as [[i d]|] eqn:E; simplify_eq/=. rewrite Hp.
    eexists. split; [done|]. by apply (table_update t id i c (Some _)).
  - intros t id Ht Hi Hc. unfold rcptable_get. rewrite u64_small by done.
    destruct (seg_find _ id 0) as [[i d]|]; [|done]. simpl in Hc. by rewrite (Hc d).
  - intros t id c Ht Hi Hc. unfold rcptable_unref. rewrite u64_small by done.
    destruct (seg_find _ id 0) as [[i d]|] eqn:E; simplify_eq/=. by apply (table_update t id i c).
  - intros t id Ht Hi Hc. unfold rcptable_unref. rewrite u64_small by done.
    destruct (seg_find _ id 0) as [[i d]|]; [done|done].
  - intros t id c Ht Hi Hc. unfold rcptable_remove. rewrite u64_small by done.
    destruct (seg_find _ id 0) as [[i d]|] eqn:E; simplify_eq/=. by apply (table_update t id i c).
Qed.
End TableLaws.

(** ** Insertion into the hash table *)
Section TableSet.
Context {A : Type}.
Implicit Types (t : rcptable A) (s : list (option (tcell A))).

Lemma seg_null_spec s k :
  match seg_null s k with
  | Some i => (k <= i)%nat /\ s !! (i - k)%nat = Some None
  | None => True
  end.
Proof.
  revert k. induction s as [|[c|] s IH]; intros k; simpl; [done| |].
  - specialize (IH (S k)). destruct (seg_null s (S k)) as [i|]; [|done].
    destruct IH as [Hle H]. split; [lia|]. replace (i - k)%nat with (S (i - S k)) by lia. done.
  - rewrite Nat.sub_diag. split; [lia|done].
Qed.

(** A segment [s'] that is [s] with the tcell of a fresh id put into an empty place. *)
Definition seg_put s (d : tcell A) s' : Prop :=
  exists i, s' !! i = Some (Some d) /\
    forall j c, j <> i -> s' !! j = Some (Some c) <-> s !! j = Some (Some c).

Lemma seg_put_find s id (c : cell A) s' : seg_uniq s -> seg_find s id 0 = None ->
  seg_put s (mk_tcell id c) s' -> (forall i d, s !! i = Some (Some d) -> s' !! i = Some (Some d)) ->
  seg_uniq s' /\ (exists i, seg_find s' id 0 = Some (i, c)) /\
  forall j, j <> id -> seg_find s' j 0 = seg_find s j 0.
Proof.
  intros Hu Hn (i & Hi & Hrest) Hkeep.
  assert (seg_uniq s') as Hu'.
  { intros a b x y Ha Hb Heq. destruct (decide (a = i)) as [->|Ha'], (decide (b = i)) as [->|Hb']; [done| | |].
    - exfalso. apply Hrest in Hb; [|done]. rewrite seg_find_None in Hn.
      destruct x as [x1 x2], y as [y1 y2]. simplify_eq/=. by eapply Hn.
    - exfalso. apply Hrest in Ha; [|done]. rewrite seg_find_None in Hn.
      destruct x as [x1 x2], y as [y1 y2]. simplify_eq/=. by eapply Hn.
    - apply Hrest in Ha, Hb; [|done|done]. by eapply Hu. }
  split_and!; [done| |].
  - exists i. by apply seg_find_iff.
  - intros j Hj. apply option_eq. intros [k d]. rewrite !seg_find_iff by done. split; [|apply Hkeep].
    intros Hk. destruct (decide (k = i)) as [->|Hne]; [congruence|]. by apply Hrest.
Qed.

Lemma rcptable_set_spec t id v : table_ok t -> 0 <= id < 2 ^ 64 -> cell_at t id = None ->
  table_ok (rcptable_set t id v) /\ cell_update t id (Some (mk_cell 1 true v)) (rcptable_set t id v).
Proof.
  intros Ht Hi Hc. unfold rcptable_set. rewrite u64_small by done.
  pose proof (hash_range t id Ht) as Hh. pose proof Ht as [Hn Hu].
  simpl in Hc. set (h := rcptable_hash t id) in *.
  assert (seg_find (seg t h) id 0 = None) as Hf by (by destruct (seg_find (seg t h) id 0)).
  assert (forall s', (seg_put (seg t h) (mk_tcell id (mk_cell 1 true v)) s') ->
     (forall i d, seg t h !! i = Some (Some d) -> s' !! i = Some (Some d)) ->
     table_ok (set_seg t h s') /\ cell_update t id (Some (mk_cell 1 true v)) (set_seg t h s')) as Hmain.
  { intros s' Hput Hkeep. destruct (seg_put_find _ _ _ _ (Hu h) Hf Hput Hkeep) as (Hu' & [i Hfi] & Hoth).
    split; [split|split].
    - simpl. by rewrite zlen_insert.
    - intros h'. rewrite seg_set_seg by done. case_decide; [done|apply Hu].
    - simpl. rewrite hash_set_seg. fold h. rewrite seg_set_seg by done. case_decide; [|done]. by rewrite Hfi.
    - intros j _ Hj. simpl. rewrite hash_set_seg, seg_set_seg by done.
      case_decide as Hhj; [|done]. rewrite <- Hhj. by rewrite Hoth. }
  pose proof (seg_null_spec (seg t h) 0) as Hnull.
  destruct (seg_null (seg t h) 0) as [i|]; apply Hmain.
  - destruct Hnull as [_ Hnull]. rewrite Nat.sub_0_r in Hnull.
    exists i. split; [apply list_lookup_insert_eq; by eapply lookup_lt_Some|].
    intros j c Hj. by rewrite list_lookup_insert_ne.
  - destruct Hnull as [_ Hnull]. rewrite Nat.sub_0_r in Hnull. intros j d Hj.
    rewrite list_lookup_insert_ne; [done|]. intros <-. congruence.
  - exists (length (seg t h)). split; [by apply list_lookup_middle|].
    intros j c Hj. split; intros Hl.
    + apply lookup_app_Some in Hl as [?|[Hle Hl]]; [done|].
      apply list_lookup_singleton_Some in Hl as [? _]. lia.
    + by apply lookup_app_l_Some.
  - intros j d Hj. by apply lookup_app_l_Some.
Qed.
End TableSet.

(** ** The reference protocol, proved once against the interface *)
Section Protocol.
Context {S A : Type} {st_ok : S -> Prop} `{RcStoreLaws S A st_ok}.

(** A table and, for every id, how many references its users have taken and not yet given
    back. *)
Record pstate := mk_pstate { store : S; held : Z -> Z }.

Definition bump (f : Z -> Z) (id d : Z) : Z -> Z := fun j => if j =? id then f j + d else f j.

(** What users do with the table. *)
Inductive rc_op := OAdd (id : Z) (v : A) | OGet (id : Z) | OUnref (id : Z) | ORemove (id : Z).

Inductive pstep : rc_op -> pstate -> pstate -> Prop :=
  | p_add p id v s' :
      0 <= id < 2 ^ 64 -> cell_at (store p) id = None ->
      st_ok s' -> cell_update (store p) id (Some (mk_cell 1 true v)) s' ->
      pstep (OAdd id v) p (mk_pstate s' (held p))
  | p_get p id v s' :
      0 <= id < 2 ^ 64 -> rc_get (store p) id = (s', Some v) ->
      pstep (OGet id) p (mk_pstate s' (bump (held p) id 1))
  | p_miss p id s' :
      0 <= id < 2 ^ 64 -> rc_get (store p) id = (s', None) -> pstep (OGet id) p (mk_pstate s' (held p))
  | p_unref p id :
      0 <= id < 2 ^ 64 ->
      pstep (OUnref id) p (mk_pstate (rc_unref (store p) id) (bump (held p) id (-1)))
  | p_remove p id :
      0 <= id < 2 ^ 64 -> pstep (ORemove id) p (mk_pstate (rc_remove (store p) id) (held p)).

(** What the macros leave to their users: to give back only what was taken, to remove an entry once,
    while it is listed, and not to hold 2^31 - 1 references of one entry at a time. *)
Definition proper (op : rc_op) (p : pstate) : Prop :=
  match op with
  | OAdd _ _ => True
  | OGet id => held p id < 2 ^ 31 - 2
  | OUnref id => 0 < held p id
  | ORemove id => exists c, cell_at (store p) id = Some c /\ present c = true
  end.

Definition proper_step (p p' : pstate) : Prop := exists op, proper op p /\ pstep op p p'.

Definition owner_ref (c : cell A) : Z := if present c then 1 else 0.

Definition cell_inv (h : Z) (o : option (cell A)) : Prop :=
  match o with
  | Some c => refs c = h + owner_ref c /\ 0 < refs c < 2 ^ 31 /\ 0 <= h < 2 ^ 31 - 1
  | None => h = 0
  end.

Definition pinv (p : pstate) : Prop :=
  st_ok (store p) /\ forall id, 0 <= id < 2 ^ 64 -> cell_inv (held p id) (cell_at (store p) id).

Lemma pinv_update p s' id o h' : pinv p -> 0 <= id < 2 ^ 64 -> st_ok s' ->
  cell_update (store p) id o s' -> cell_inv (h' id) o -> (forall j, j <> id -> h' j = held p j) ->
  pinv (mk_pstate s' h').
Proof.
  intros [Hok Hinv] Hid Hok' [Heq Hne] Hc Hh. split; [done|]. simpl. intros j Hj.
  destruct (decide (j = id)) as [->|Hji]; [by rewrite Heq|].
  rewrite Hne, Hh by done. by apply Hinv.
Qed.

Lemma bump_eq f id d : bump f id d id = f id + d.
Proof. unfold bump. by rewrite Z.eqb_refl. Qed.
Lemma bump_ne f id d j : j <> id -> bump f id d j = f j.
Proof. unfold bump. by intros ?%Z.eqb_neq; rewrite H1. Qed.

Lemma pinv_step p p' : pinv p -> proper_step p p' -> pinv p'.
Proof.
  intros Hp (op & Hop & Hstep). pose proof Hp as [Hok Hinv].
  destruct Hstep as [p id v s' Hid Hn Hok' Hu|p id v s' Hid Hg|p id s' Hid Hg|p id Hid|p id Hid]; cbn [proper] in Hop;
    specialize (Hinv id Hid).
  - eapply pinv_update; [done|done|done|exact Hu| |done].
    rewrite Hn in Hinv. unfold owner_ref; simpl in *. unfold owner_ref; simpl. lia.
  - destruct (cell_at (store p) id) as [c|] eqn:E; [destruct (present c) eqn:Hpr|].
    + destruct (law_get_hit _ id c Hok Hid E Hpr) as (s1 & Heq & Hok1 & Hu1).
      rewrite Hg in Heq. simplify_eq. eapply pinv_update; [done|done|done|exact Hu1| |by apply bump_ne].
      rewrite bump_eq. unfold cell_inv, owner_ref in *. rewrite Hpr in Hinv. rewrite set_refs_small by lia. simpl. rewrite Hpr. lia.
    + rewrite law_get_miss in Hg by (done || congruence). done.
    + rewrite law_get_miss in Hg by (done || congruence). done.
  - destruct (cell_at (store p) id) as [c|] eqn:E; [destruct (present c) eqn:Hpr|].
    + destruct (law_get_hit _ id c Hok Hid E Hpr) as (s1 & Heq & _). congruence.
    + rewrite law_get_miss in Hg by (done || congruence). simplify_eq. by destruct p.
    + rewrite law_get_miss in Hg by (done || congruence). simplify_eq. by destruct p.
  - destruct (cell_at (store p) id) as [c|] eqn:E; [|simpl in Hinv; lia].
    destruct (law_unref _ id c Hok Hid E) as [Hok' Hu].
    eapply pinv_update; [done|done|done|exact Hu| |by apply bump_ne].
    rewrite bump_eq. unfold cell_inv, owner_ref in *. destruct (decide (refs c = 1)) as [E1|].
    + unfold drop_ref. rewrite E1. simpl. destruct (present c); lia.
    + rewrite drop_small by lia. simpl. destruct (present c); lia.
  - destruct Hop as (c & Hc & Hpr). rewrite Hc in Hinv. destruct (law_remove _ id c Hok Hid Hc) as [Hok' Hu].
    eapply pinv_update; [done|done|done|exact Hu| |done].
    unfold cell_inv, owner_ref in *. rewrite Hpr in Hinv. destruct (decide (refs c = 1)) as [E1|].
    + unfold retire. rewrite E1. simpl. lia.
    + rewrite retire_small by lia. simpl. lia.
Qed.

Lemma pinv_reachable p p' : pinv p -> rtc proper_step p p' -> pinv p'.
Proof. intros Hi Hs. induction Hs; eauto using pinv_step. Qed.

(** C2: Users of a table who give back only what they took, remove an entry once and never hold
    2^31 - 1 references of one entry: however their calls interleave, over any table that meets the
    interface, an entry somebody still holds has not been released; its count, an [int], is the
    number of holders, plus one for the table while it is listed; and an entry that is gone has no
    holder. *)
Theorem rc_holder_safe (p p' : pstate) (id : Z) :
  pinv p -> rtc proper_step p p' -> 0 <= id < 2 ^ 64 ->
  match cell_at (store p') id with
  | Some c => refs c = held p' id + (if present c then 1 else 0) /\ 0 < refs c < 2 ^ 31
  | None => held p' id = 0
  end.
Proof.
  intros Hi Hs Hid. destruct (pinv_reachable p p' Hi Hs) as [_ Hinv]. specialize (Hinv id Hid).
  unfold cell_inv, owner_ref in Hinv. destruct (cell_at (store p') id); intuition.
Qed.

(** The macros do not look whether an entry is still listed: the second of two removals takes the
    reference of the one user who holds it, and releases it. *)
Theorem remove_twice_releases (p : pstate) (id : Z) (c : cell A) : pinv p -> 0 <= id < 2 ^ 64 ->
  cell_at (store p) id = Some c -> present c = false -> held p id = 1 ->
  exists p', pstep (ORemove id) p p' /\ cell_at (store p') id = None /\ held p' id = 1.
Proof.
  intros [Hok Hinv] Hid Hc Hpr Hh. specialize (Hinv id Hid). rewrite Hc in Hinv. unfold cell_inv, owner_ref in Hinv. rewrite Hpr, Hh in Hinv.
  destruct (law_remove _ id c Hok Hid Hc) as [_ [Hu _]]. eexists. split; [by apply p_remove|]. cbn [store held]. split; [|done]. rewrite Hu. unfold retire. by replace (refs c) with 1 by lia.
Qed.

(** The reference that is one too many makes the count negative. *)
Theorem count_overflows (p : pstate) (id : Z) (c : cell A) : pinv p -> 0 <= id < 2 ^ 64 ->
  cell_at (store p) id = Some c -> present c = true -> held p id = 2 ^ 31 - 2 ->
  exists p' c', pstep (OGet id) p p' /\ cell_at (store p') id = Some c' /\ refs c' = - 2 ^ 31 /\ held p' id = 2 ^ 31 - 1.
Proof.
  intros [Hok Hinv] Hid Hc Hpr Hh. specialize (Hinv id Hid). rewrite Hc in Hinv. unfold cell_inv, owner_ref in Hinv. rewrite Hpr, Hh in Hinv.
  destruct (law_get_hit _ id c Hok Hid Hc Hpr) as (s1 & E & _ & [Hu _]). exists (mk_pstate s1 (bump (held p) id 1)). eexists.
  split; [by eapply p_get|]. cbn [store held]. split; [exact Hu|]. unfold set_refs. cbn [refs]. rewrite bump_eq, Hh. replace (refs c) with (2 ^ 31 - 1) by lia. done.
Qed.
End Protocol.

Arguments pstate S : clear implicits.

Lemma empty_array_pinv {A} : pinv (st_ok:=array_ok) (mk_pstate ([] : rcparray A) (fun _ => 0)).
Proof. split; [done|]. intros id Hid. simpl. unfold arr_slot, get. destruct (0 <=? id); done. Qed.

(** The reader of a removed descriptor: the entry lives until it is given back. *)
Lemma rc_holder_safe_witness :
  exists p', rtc (proper_step (st_ok:=array_ok)) (mk_pstate ([] : rcparray Z) (fun _ => 0)) p' /\ held p' 0 = 1 /\
    match cell_at (store p') 0 with
    | Some c => refs c = held p' 0 + (if present c then 1 else 0) /\ 0 < refs c < 2 ^ 31
    | None => held p' 0 = 0
    end.
Proof.
  set (a1 := [Some (mk_cell 1 true 42)]). set (a2 := [Some (mk_cell 2 true 42)]).
  assert (rtc (proper_step (st_ok:=array_ok)) (mk_pstate ([] : rcparray Z) (fun _ => 0))
            (mk_pstate (rc_remove a2 0) (bump (fun _ => 0) 0 1))) as Hr.
  { eapply (rtc_l _ _ (mk_pstate a1 (fun _ => 0))).
    { exists (OAdd 0 42). split; [done|]. apply (p_add (mk_pstate [] (fun _ => 0)) 0 42); [lia|done|done|].
      split; [done|]. intros j Hj Hne. simpl. unfold arr_slot, get, a1.
      destruct (Z.leb_spec 0 j); [|done]. destruct (Z.to_nat j) eqn:E; [lia|done]. }
    eapply (rtc_l _ _ (mk_pstate a2 (bump (fun _ => 0) 0 1))).
    { exists (OGet 0). split; [simpl; lia|]. by apply (p_get (mk_pstate a1 (fun _ => 0)) 0 42 a2). }
    eapply rtc_once. exists (ORemove 0). split; [by exists (mk_cell 2 true 42)|]. by apply (p_remove (mk_pstate a2 (bump (fun _ => 0) 0 1)) 0). }
  eexists. split; [exact Hr|]. split; [reflexivity|].
  apply (rc_holder_safe _ _ 0 empty_array_pinv Hr). lia.
Defined.

(** [rcparray_add] stores under the lowest index that is free, growing the array only when
    every slot is taken; a [rcparray_get] of that index returns the value and no other entry
    is touched. *)
Theorem rcparray_add_lowest {A} (a : rcparray A) (v : A) (a' : rcparray A) (id : Z) :
  zlen a < 2 ^ 63 -> rcparray_add a v = (a', id) ->
  arr_slot a id = None /\ (forall j, 0 <= j < id -> exists c, arr_slot a j = Some c) /\
  (zlen a' > zlen a -> id = zlen a) /\
  snd (rcparray_get a' id) = Some v /\
  (forall j, 0 <= j < 2 ^ 64 -> j <> id -> arr_slot a' j = arr_slot a j).
Proof.
  intros Hlen Hadd. pose proof (rcparray_add_spec a v) as H. rewrite Hadd in H.
  destruct H as (Hid & Hnone & Hlow & [Hupd Hoth] & Hgrow). split_and!; try done.
  - intros Hgt. unfold rcparray_add in Hadd. destruct (first_null a 0); simplify_eq; [|done].
    rewrite zlen_arr_set in Hgt. lia.
  - rewrite rcparray_get_eq by lia. simpl in Hupd. by rewrite Hupd.
Qed.

Lemma rcparray_add_lowest_witness :
  let a := [Some (mk_cell 1 true 5); None; Some (mk_cell 1 true 7)] in
  let a' := [Some (mk_cell 1 true 5); Some (mk_cell 1 true 6); Some (mk_cell 1 true 7)] in
  arr_slot a 1 = None /\ (forall j, 0 <= j < 1 -> exists c, arr_slot a j = Some c) /\
  (zlen a' > zlen a -> 1 = zlen a) /\ snd (rcparray_get a' 1) = Some 6 /\
  (forall j, 0 <= j < 2 ^ 64 -> j <> 1 -> arr_slot a' j = arr_slot a j).
Proof.
  intros a a'. apply (rcparray_add_lowest a 6 a' 1); vm_compute; done.
Defined.

(** The process table: storing under a fresh id makes that id resolve to the value with one
    reference, and leaves every other id alone, those in the same hash segment included. *)
Theorem rcptable_set_get {A} (t : rcptable A) (id : Z) (v : A) :
  table_ok t -> 0 <= id < 2 ^ 64 -> cell_at t id = None ->
  let t' := rcptable_set t id v in
  snd (rcptable_get t' id) = Some v /\ rcptable_refcount t' id = 1 /\ table_ok t' /\
  (forall j, 0 <= j < 2 ^ 64 -> j <> id -> cell_at t' j = cell_at t j).
Proof.
  intros Ht Hid Hn t'. destruct (rcptable_set_spec t id v Ht Hid Hn) as [Hok [Heq Hne]].
  fold t' in Hok, Heq, Hne. split_and!; try done.
  - destruct (law_get_hit t' id _ Hok Hid Heq eq_refl) as (s' & Hg & _). simpl in Hg. by rewrite Hg.
  - unfold rcptable_refcount. rewrite u64_small by done. simpl in Heq.
    destruct (seg_find _ id 0) as [[i c]|]; simplify_eq/=. done.
Qed.

Lemma init_table_ok {A} n ctr : (0 < n)%nat -> table_ok (rcptable_init n ctr : rcptable A).
Proof.
  intros Hn. split; [unfold zlen, rcptable_init; simpl; rewrite length_replicate; lia|].
  intros h i j c d Hi. unfold seg in Hi. simpl in Hi.
  destruct (replicate n [] !! h) as [s|] eqn:E; simpl in Hi; [|done].
  apply lookup_replicate in E as [-> _]. done.
Qed.

Lemma rcptable_set_get_witness :
  let t' := rcptable_set (rcptable_set (rcptable_init 32 1) 1 10) 33 20 in
  snd (rcptable_get t' 33) = Some 20 /\ rcptable_refcount t' 33 = 1 /\ table_ok t' /\
  (forall j, 0 <= j < 2 ^ 64 -> j <> 33 ->
     cell_at t' j = cell_at (rcptable_set (rcptable_init 32 1) 1 10) j).
Proof.
  apply (rcptable_set_get (rcptable_set (rcptable_init 32 1) 1 10) 33 20); [|lia|reflexivity].
  apply rcptable_set_spec; [apply init_table_ok; lia|lia|reflexivity].
Defined.

(** [rcparray_foreach] does not skip holes: its body sees every index from 0 up to the last
    present entry, so a body that dereferences what [rcparray_get] returns meets a NULL as soon
    as an entry below the last one was removed. *)
Theorem rcparray_foreach_visits {A} (a : rcparray A) (last : Z) (c : cell A) :
  zlen a < 2 ^ 63 -> arr_slot a last = Some c -> present c = true ->
  (forall j d, last < j -> arr_slot a j = Some d -> present d = false) ->
  rcparray_foreach a = seqZ 0 (last + 1).
Proof.
  intros Hlen Hc Hp Hlast. pose proof (arr_slot_range _ _ _ Hc) as Hr.
  assert (forall f id, 0 <= id <= last + 1 -> last + 1 - id <= Z.of_nat f ->
    foreach_ids f a id = seqZ id (last + 1 - id)) as Hloop.
  { induction f as [|f IH]; intros id Hid Hf.
    - simpl. replace (last + 1 - id) with 0 by lia. done.
    - cbn [foreach_ids]. destruct (decide (id = last + 1)) as [->|Hne].
      + replace (last + 1 - (last + 1)) with 0 by lia.
        destruct (foreach_more a (last + 1)) eqn:E; [|done].
        apply foreach_more_true in E as (j & d & Hj & Hd & Hpd); [|lia].
        rewrite (Hlast j d) in Hpd by (done || lia). done.
      + rewrite (proj2 (foreach_more_true a id ltac:(lia))) by (exists last, c; split_and!; (done || lia)).
        rewrite IH by lia. rewrite (seqZ_cons id) by lia. f_equal. f_equal; lia. }
  unfold rcparray_foreach. rewrite Hloop by (unfold zlen in *; lia). f_equal. lia.
Qed.

Lemma rcparray_foreach_visits_witness :
  rcparray_foreach [None; Some (mk_cell 1 true 3)] = [0; 1] /\
  snd (rcparray_get [None; Some (mk_cell 1 true 3)] 0) = None.
Proof.
  split; [|reflexivity].
  apply (rcparray_foreach_visits [None; Some (mk_cell 1 true 3)] 1 (mk_cell 1 true 3)); [done|done|done|].
  intros j d Hj Hd. apply arr_slot_range in Hd. unfold zlen in Hd. simpl in Hd. lia.
Defined.
