(* ===== verification/Format.v ===== *)
(** * Formatted output: kernel/snprintf.c and kernel/printk.c

    A format string is the memory from its first byte on, so that reading past the end of the
    object is a [Fault]; variadic arguments are a list of register images and strings.  The
    output of [printk] is the sequence of calls it makes on terminal 0.  The reference
    semantics is a list of items (literal bytes and directives) with the text each stands
    for. *)
From S2P Require Import Prelude Strings.

(** ** Variadic arguments: [VInt] is a 64-bit register image, [VStr] the memory of a string. *)
Inductive varg :=
  | VInt (z : Z)
  | VStr (s : list Z).

Definition va_int (args : list varg) : res (Z * list varg) :=
  match args with VInt z :: r => Ok (z, r) | _ => Fault end.

Definition va_str (args : list varg) : res (list Z * list varg) :=
  match args with VStr s :: r => Ok (s, r) | _ => Fault end.

(** ** Reading a directive *)

Definition FMT_BUFFER : Z := 72.

(** [while ( *format >= '0' && *format <= '9') buffer[blen++] = *format++;] *)
Fixpoint fmt_digits (fmt buffer : list Z) (blen : Z) : res (list Z * Z * list Z) :=
  match fmt with
  | [] => Fault
  | c :: fmt' =>
      if (48 <=? s8 c) && (s8 c <=? 57) then
        b ← store buffer blen c; fmt_digits fmt' b (blen + 1)
      else Ok (buffer, blen, fmt)
  end.

Record directive := mk_directive { pad_with : Z; pad_len : Z; leng : Z; dtype : Z }.

(** One head of the loop: the directive, the scratch buffer, and the format from [type] on. *)
Definition parse_directive (fmt buffer : list Z) : res (directive * list Z * list Z) :=
  c ← load fmt 0;
  if c =? 37 then
    let fmt := drop 1 fmt in
    c ← load fmt 0;
    let '(pad, fmt) := if c =? 48 then (c, drop 1 fmt) else (32, fmt) in
    '(buffer, blen, fmt) ← fmt_digits fmt buffer 0;
    buffer ← store buffer blen 0;
    w ← atoi buffer;
    c ← load fmt 0;
    let '(lg, fmt) := if (c =? 108) || (c =? 104) then (c, drop 1 fmt) else (0, fmt) in
    t ← load fmt 0;
    Ok (mk_directive pad (u64 w) lg t, buffer, fmt)
  else Ok (mk_directive 32 0 0 0, buffer, fmt).

(** ** Converting an argument *)

(** [for (i = 0; i < blen; i++) buffer[i] = toupper(buffer[i]);] *)
Fixpoint upcase (buffer : list Z) (i : Z) (n : nat) : res (list Z) :=
  match n with
  | O => Ok buffer
  | S n' => c ← load buffer i; b ← store buffer i (toupper c); upcase b (i + 1) n'
  end.

Definition upcase_if (upper : bool) (buffer : list Z) : res (list Z) :=
  if upper then blen ← strlen buffer; upcase buffer 0 (Z.to_nat blen) else Ok buffer.

Definition is_type (t : Z) (c : string) : bool := bool_decide ([t] = bytes c).

(** The number cases of the switch: the argument into the scratch buffer. *)
Definition convert_number (d : directive) (z : Z) (buffer : list Z) : res (list Z) :=
  let h := is_type (leng d) "h" in
  let l := is_type (leng d) "l" in
  if is_type (dtype d) "i" then
    if h then htoa z buffer 10 else if l then ltoa z buffer 10 else itoa z buffer 10
  else if is_type (dtype d) "u" then
    if h then uhtoa z buffer 10 else if l then ultoa z buffer 10 else uitoa z buffer 10
  else if is_type (dtype d) "x" || is_type (dtype d) "X" then
    b ← (if h then uhtoa z buffer 16 else if l then ultoa z buffer 16 else uitoa z buffer 16);
    upcase_if (is_type (dtype d) "X") b
  else
    b ← ultoa z buffer 16; upcase_if (is_type (dtype d) "P") b.

Definition is_number (t : Z) : bool :=
  is_type t "i" || is_type t "u" || is_type t "x" || is_type t "X" || is_type t "p" || is_type t "P".

(** [%p] and [%P] pad with zeroes whatever the directive says. *)
Definition pad_char_of (d : directive) : Z :=
  if is_type (dtype d) "p" || is_type (dtype d) "P" then 48 else pad_with d.

(** ** snprintf *)

(** The destination object, the offset of [dst] in it and the bytes remaining. *)
Record out := mk_out { odst : list Z; opos : Z; remaining : Z }.

Definition put (o : out) (c : Z) : res out :=
  d ← store (odst o) (opos o) c; Ok (mk_out d (opos o + 1) (remaining o - 1)).

(** The padding loop; [false] when the function returned from inside it. *)
Fixpoint pad_loop (o : out) (pad_char : Z) (n : nat) : res (out * bool) :=
  match n with
  | O => Ok (o, true)
  | S n' =>
      if remaining o =? 0 then Ok (o, false)
      else o' ← put o pad_char; pad_loop o' pad_char n'
  end.

Fixpoint copy_loop (o : out) (buffer : list Z) : res out :=
  match buffer with
  | [] => Fault
  | c :: buffer' =>
      if c =? 0 then Ok o
      else if remaining o =? 0 then Ok o
      else o' ← put o c; copy_loop o' buffer'
  end.

Definition snprintf_common (o : out) (buffer : list Z) (pad_char plen : Z) : res out :=
  if plen =? 0 then copy_loop o buffer
  else
    n ← strlen buffer;
    '(o', more) ← pad_loop o pad_char (Z.to_nat (s32 (plen - n)));
    match more with true => copy_loop o' buffer | false => Ok o' end.

Definition snprintf_round (o : out) (fmt buffer : list Z) (args : list varg)
  : res (out * list Z * list Z * list varg) :=
  '(d, buffer, fmt) ← parse_directive fmt buffer;
  '(o', buffer, args) ←
    (if is_number (dtype d) then
       '(z, args) ← va_int args;
       b ← convert_number d z buffer;
       o' ← snprintf_common o b (pad_char_of d) (pad_len d);
       Ok (o', b, args)
     else if is_type (dtype d) "s" then
       '(s, args) ← va_str args;
       o' ← snprintf_common o s (pad_with d) (pad_len d);
       Ok (o', buffer, args)
     else
       o' ← (if remaining o >? 0 then c ← load fmt 0; put o c else Ok o);
       Ok (o', buffer, args));
  Ok (o', drop 1 fmt, buffer, args).

Fixpoint snprintf_loop (fuel : nat) (o : out) (fmt buffer : list Z) (args : list varg) : res out :=
  c ← load fmt 0;
  if c =? 0 then Ok o
  else
    match fuel with
    | O => OutOfFuel
    | S f =>
        '(o', fmt, buffer, args) ← snprintf_round o fmt buffer args;
        snprintf_loop f o' fmt buffer args
    end.

(** [buffer] is the uninitialised local array. *)
Definition snprintf (dst : list Z) (size : Z) (format : list Z) (args : list varg) (buffer : list Z)
  : res (list Z * Z) :=
  if size =? 0 then Ok (dst, 0)
  else
    o ← snprintf_loop (length format) (mk_out dst 0 (size - 1)) format buffer args;
    d ← store (odst o) (opos o) 0;
    Ok (d, s32 (size - 1 - remaining o)).

(** ** printk *)

(** The calls made on terminal 0. *)
Inductive tty_op :=
  | PutChar (c : Z)
  | Write (s : list Z)
  | Color (ansi : Z).

Fixpoint cstr (s : list Z) : res (list Z) :=
  match s with
  | [] => Fault
  | c :: s' => if c =? 0 then Ok [] else r ← cstr s'; Ok (c :: r)
  end.

Definition printk_common (buffer : list Z) (pad_char plen : Z) : res (list tty_op) :=
  n ← (if plen =? 0 then Ok 0 else n ← strlen buffer; Ok (s32 (plen - n)));
  s ← cstr buffer;
  Ok (replicate (Z.to_nat n) (PutChar pad_char) ++ [Write s]).

Definition badge (open label close : string) (color : Z) : list tty_op :=
  [Color 90; Write (bytes open); Color color; Write (bytes label); Color 90; Write (bytes close); Color 97].

(** The [^n] prefix: what it prints and whether the padding is skipped. *)
Definition printk_badge (c : Z) : list tty_op * bool :=
  if c =? 49 then
    ([Color 90; Write (bytes " [  "); Color 97; Color 92; Write (bytes "OK"); Color 90;
      Write (bytes "  ] "); Color 97], true)
  else if c =? 50 then (badge " [ " "WARN" " ] " 93, true)
  else if c =? 51 then (badge " [ " "FAIL" " ] " 91, true)
  else if c =? 52 then (badge " [ " "INIT" " ] " 94, true)
  else if c =? 53 then (badge " [ " "DEV " " ] " 36, true)
  else ([], false).

(** [while ( *format != '}' && *format != '\0') { buffer[blen] = *format; ... }] *)
Fixpoint color_digits (fmt buffer : list Z) (blen : Z) : res (list Z * Z * list Z) :=
  match fmt with
  | [] => Fault
  | c :: fmt' =>
      if negb (c =? 125) && negb (c =? 0) then
        b ← store buffer blen c; color_digits fmt' b (blen + 1)
      else Ok (buffer, blen, fmt)
  end.

(** A round: the newline flag, what is printed, and the state the next round starts from. *)
Definition printk_round (nl : bool) (fmt buffer : list Z) (args : list varg)
  : res (bool * list tty_op * list Z * list Z * list varg) :=
  c0 ← load fmt 0;
  let nl := if c0 =? 10 then true else nl in
  '(d, buffer, fmt) ← parse_directive fmt buffer;
  '(ops, fmt, buffer, args) ←
    (if is_type (dtype d) "$" then
       let fmt := drop 1 fmt in
       c ← load fmt 0;
       if negb (c =? 123) then Ok ([], fmt, buffer, args)
       else
         '(b, blen, fmt) ← color_digits (drop 1 fmt) buffer 0;
         b ← store b blen 0;
         col ← atoi b;
         Ok ([Color col], fmt, b, args)
     else if is_number (dtype d) then
       '(z, args) ← va_int args;
       b ← convert_number d z buffer;
       ops ← printk_common b (pad_char_of d) (pad_len d);
       Ok (ops, fmt, b, args)
     else if is_type (dtype d) "s" then
       '(s, args) ← va_str args;
       ops ← printk_common s (pad_with d) (pad_len d);
       Ok (ops, fmt, buffer, args)
     else if is_type (dtype d) "c" then
       ops ← printk_common [0] (pad_with d) (pad_len d);
       '(z, args) ← va_int args;
       Ok (ops ++ [PutChar (u8 z)], fmt, buffer, args)
     else
       c ← load fmt 0;
       Ok ([PutChar c], fmt, buffer, args));
  Ok (nl, ops, drop 1 fmt, buffer, args).

Fixpoint printk_loop (fuel : nat) (nl : bool) (acc : list tty_op) (fmt buffer : list Z)
    (args : list varg) : res (bool * list tty_op) :=
  c ← load fmt 0;
  if c =? 0 then Ok (nl, acc)
  else
    match fuel with
    | O => OutOfFuel
    | S f =>
        '(nl, ops, fmt, buffer, args) ← printk_round nl fmt buffer args;
        printk_loop f nl (acc ++ ops) fmt buffer args
    end.

(** [nl] is the static [newline_encountered]; the result has its new value. *)
Definition printk (nl : bool) (format : list Z) (args : list varg) (buffer : list Z)
  : res (bool * list tty_op) :=
  c ← load format 0;
  let spec := c =? 94 in
  let fmt := if spec then drop 1 format else format in
  '(ops, skip_padding, fmt) ←
    (if spec && nl then
       c ← load fmt 0;
       let '(ops, skip) := printk_badge c in
       Ok (ops, skip, drop 1 fmt)
     else Ok ([], false, fmt));
  let ops := ops ++ (if nl && negb skip_padding then [Write (bytes "  ")] else []) in
  printk_loop (length format) false ops fmt buffer args.

(** What the terminal calls print, colours left out. *)
Definition op_text (op : tty_op) : list Z :=
  match op with PutChar c => [c] | Write s => s | Color _ => [] end.
Definition ops_text (ops : list tty_op) : list Z := ops ≫= op_text.

(** ** Reference semantics: a format is a list of items *)

Inductive item :=
  | Lit (c : Z)
  | Dir (zero : bool) (width : list Z) (length_mod : option bool) (t : Z).

Definition mod_char (m : option bool) : Z :=
  match m with None => 0 | Some true => 108 | Some false => 104 end.

Definition print_item (it : item) : list Z :=
  match it with
  | Lit c => [c]
  | Dir z w m t =>
      37 :: (if z then [48] else []) ++ w ++ (match m with None => [] | _ => [mod_char m] end) ++ [t]
  end.

Definition print_items (its : list item) : list Z := its ≫= print_item.

Definition item_ok (it : item) : Prop :=
  match it with
  | Lit c => 1 <= c < 256 /\ c <> 37
  | Dir z w m t =>
      Forall is_digit w /\ zlen w <= 9 /\ (z = false -> head w <> Some 48) /\
      1 <= t < 128 /\ ~ is_digit t /\ t <> 108 /\ t <> 104
  end.

Definition dir_of (it : item) : directive :=
  match it with
  | Lit _ => mk_directive 32 0 0 0
  | Dir z w m t => mk_directive (if z then 48 else 32) (dec_val 0 w) (mod_char m) t
  end.

Definition item_last (it : item) : Z := match it with Lit c => c | Dir _ _ _ t => t end.

Definition padded (pad w : Z) (s : list Z) : list Z := replicate (Z.to_nat (w - zlen s)) pad ++ s.

(** What a number prints as under a directive. *)
Definition num_text (d : directive) (z : Z) : list Z :=
  let h := is_type (leng d) "h" in
  let l := is_type (leng d) "l" in
  if is_type (dtype d) "i" then
    numeral (if h then s16 z else if l then s64 z else s32 z) 10 true
  else
    let v := if h then u16 z else if l then u64 z else u32 z in
    if is_type (dtype d) "u" then numeral v 10 false
    else if is_type (dtype d) "x" then numeral v 16 false
    else if is_type (dtype d) "X" then toupper <$> numeral v 16 false
    else if is_type (dtype d) "P" then toupper <$> numeral (u64 z) 16 false
    else numeral (u64 z) 16 false.

Definition item_text (it : item) (args : list varg) : option (list Z * list varg) :=
  let d := dir_of it in
  if is_number (dtype d) then
    match args with
    | VInt z :: r => Some (padded (pad_char_of d) (pad_len d) (num_text d z), r)
    | _ => None
    end
  else if is_type (dtype d) "s" then
    match args with
    | VStr m :: r =>
        match cstr m with Ok s => Some (padded (pad_with d) (pad_len d) s, r) | _ => None end
    | _ => None
    end
  else Some ([item_last it], args).

Fixpoint render (its : list item) (args : list varg) : option (list Z) :=
  match its with
  | [] => Some []
  | it :: its' =>
      '(s, args') ← item_text it args;
      r ← render its' args';
      Some (s ++ r)
  end.

Definition arg_ok (a : varg) : Prop :=
  match a with VInt _ => True | VStr m => zlen m < 2 ^ 31 /\ Forall (fun c => 0 <= c < 256) m end.

(** ** Reading a directive back *)

Lemma fmt_digits_ok w c r : Forall is_digit w -> 0 <= c < 128 -> ~ is_digit c -> forall buffer blen,
  0 <= blen -> blen + zlen w <= zlen buffer ->
  fmt_digits (w ++ c :: r) buffer blen = Ok (splice buffer blen w, blen + zlen w, c :: r).
Proof.
  intros Hw Hc Hnd. induction Hw as [|d w Hd Hw IH]; intros buffer blen Hb Hl; cbn [fmt_digits app].
  - rewrite s8_small by lia. unfold is_digit in Hnd.
    destruct (Z.leb_spec 48 c), (Z.leb_spec c 57); simpl; try lia; by rewrite splice_nil, Z.add_0_r.
  - rewrite zlen_cons in Hl. pose proof (zlen_nonneg w). unfold is_digit in Hd.
    rewrite s8_small by lia. destruct (Z.leb_spec 48 d), (Z.leb_spec d 57); simpl; try lia.
    rewrite store_in_range by lia. cbn [mbind res_bind]. rewrite IH by (rewrite ?zlen_insert; lia).
    rewrite splice_insert_cons by lia. rewrite zlen_cons. do 3 f_equal. lia.
Qed.

Lemma dec_val_bound ds : Forall is_digit ds -> forall acc, 0 <= acc ->
  0 <= dec_val acc ds < (acc + 1) * 10 ^ zlen ds.
Proof.
  induction 1 as [|c ds Hc Hd IH]; intros acc Ha.
  - unfold dec_val, zlen. simpl. lia.
  - change (dec_val acc (c :: ds)) with (dec_val (acc * 10 + (c - 48)) ds). unfold is_digit in Hc.
    specialize (IH (acc * 10 + (c - 48)) ltac:(lia)). rewrite zlen_cons.
    pose proof (zlen_nonneg ds). rewrite Z.pow_add_r by lia. pose proof (Z.pow_pos_nonneg 10 (zlen ds)).
    nia.
Qed.

Lemma width_bound w : Forall is_digit w -> zlen w <= 9 -> 0 <= dec_val 0 w < 10 ^ 9.
Proof.
  intros Hw Hl. pose proof (dec_val_bound w Hw 0 ltac:(lia)).
  pose proof (Z.pow_le_mono_r 10 (zlen w) 9 ltac:(lia) Hl). lia.
Qed.

Lemma atoi_digits w r : Forall is_digit w -> zlen w <= 9 -> atoi (w ++ 0 :: r) = Ok (dec_val 0 w).
Proof.
  intros Hw Hl. pose proof (width_bound w Hw Hl). unfold atoi, aton_common.
  assert (exists c, load (w ++ 0 :: r) 0 = Ok c /\ (c = 0 \/ is_digit c)) as (c & -> & Hc).
  { destruct Hw as [|d w Hd Hw]; [exists 0|exists d]; split; auto. }
  cbn [mbind res_bind]. destruct (Z.eqb_spec c 45); [unfold is_digit in Hc; lia|].
  rewrite (aton_loop_ok s32 (2 ^ 31)) by (try done; try lia; intros; apply s32_small; lia).
  cbn [mbind res_bind]. rewrite s32_small by lia. f_equal. lia.
Qed.

Lemma parse_item it rest buffer : item_ok it -> zlen buffer = FMT_BUFFER ->
  exists b, parse_directive (print_item it ++ rest) buffer = Ok (dir_of it, b, item_last it :: rest) /\
    zlen b = FMT_BUFFER.
Proof.
  unfold FMT_BUFFER. intros Hok Hb. destruct it as [c|z w m t]; simpl in Hok.
  { exists buffer. unfold parse_directive. cbn [print_item app]. rewrite load_0.
    cbn [mbind res_bind]. destruct (Z.eqb_spec c 37); [lia|]. done. }
  destruct Hok as (Hw & Hl & Hz & Ht & Hnd & Hn1 & Hn2). pose proof (width_bound w Hw Hl).
  set (tl := match m with None => [] | _ => [mod_char m] end ++ t :: rest).
  assert (exists c r, tl = c :: r /\ 0 <= c < 128 /\ ~ is_digit c /\ load tl 0 = Ok c) as (c & r & Htl & Hc & Hcd & Hld).
  { unfold tl, is_digit in *. destruct m as [[]|]; simpl; eexists _, _; (split; [reflexivity|]); repeat split; try done; lia. }
  exists (w ++ 0 :: drop (S (length w)) buffer). split; cycle 1.
  { unfold zlen in *. rewrite length_app. simpl. rewrite length_drop. lia. }
  unfold parse_directive. cbn [print_item app]. rewrite load_0.
  cbn [mbind res_bind]. rewrite Z.eqb_refl. cbn [drop].
  assert (forall pre, ((pre ++ w ++ match m with None => [] | _ => [mod_char m] end ++ [t]) ++ rest) = pre ++ w ++ tl) as Hassoc.
  { intros pre. unfold tl. by rewrite <- !app_assoc. }
  rewrite Hassoc, drop_0.
  assert (exists c1, load ((if z then [48] else []) ++ w ++ tl) 0 = Ok c1 /\
    (if c1 =? 48 then (c1, drop 1 ((if z then [48] else []) ++ w ++ tl)) else (32, (if z then [48] else []) ++ w ++ tl))
    = (if z then 48 else 32, w ++ tl)) as (c1 & -> & Hsplit).
  { destruct z; [exists 48; done|]. simpl. destruct w as [|d w].
    - exists c. simpl. rewrite Hld. split; [done|]. destruct (Z.eqb_spec c 48); [unfold is_digit in Hcd; lia|done].
    - exists d. split; [done|]. destruct (Z.eqb_spec d 48); [|done]. subst. by destruct Hz. }
  cbn [mbind res_bind]. rewrite Hsplit, Htl.
  rewrite fmt_digits_ok by (try done; unfold zlen in *; lia). cbn [mbind res_bind].
  rewrite splice_0. destruct (drop (length w) buffer) as [|x bs] eqn:E.
  { apply (f_equal length) in E. rewrite length_drop in E. unfold zlen in *. simpl in E. lia. }
  rewrite store_app_at by lia. cbn [mbind res_bind].
  rewrite atoi_digits by done. cbn [mbind res_bind]. rewrite <- Htl, Hld. cbn [mbind res_bind].
  rewrite u64_small by lia.
  assert (drop (S (length w)) buffer = bs) as ->.
  { replace (S (length w)) with (length w + 1)%nat by lia. rewrite <- drop_drop, E. done. }
  unfold tl in *. destruct m as [[]|]; simpl in Htl; simplify_eq; simpl; try done.
  destruct (Z.eqb_spec c 108), (Z.eqb_spec c 104); done || lia.
Qed.

(** ** Converting a number *)

Lemma numeral_nonul v b sg : 2 <= b <= 36 -> nonul (numeral v b sg).
Proof.
  intros Hb. unfold nonul, numeral. apply Forall_app. split.
  - destruct (_ && _); repeat constructor; lia.
  - apply Forall_reverse. generalize (Z.abs v). intros n.
    assert (forall f n, Forall (fun c => 1 <= c < 256) (digits_le f b n)) as H; [|apply H].
    clear n. induction f as [|f IH]; intros n; cbn [digits_le]; constructor.
    + unfold digit_char. pose proof (Z.mod_pos_bound n b). destruct (Z.ltb_spec (n mod b) 10); lia.
    + destruct (n / b =? 0); [constructor|apply IH].
Qed.

Lemma upcase_ok s : forall pre r,
  upcase (pre ++ s ++ r) (zlen pre) (length s) = Ok (pre ++ (toupper <$> s) ++ r).
Proof.
  induction s as [|c s IH]; intros pre r; [done|]. cbn [upcase length app].
  rewrite load_app. cbn [mbind res_bind]. rewrite store_app. cbn [mbind res_bind].
  specialize (IH (pre ++ [toupper c]) r). rewrite <- !app_assoc in IH. simpl in IH.
  replace (zlen pre + 1) with (zlen (pre ++ [toupper c])) by (rewrite zlen_app; done).
  rewrite IH. done.
Qed.

Lemma toupper_nonul s : nonul s -> nonul (toupper <$> s).
Proof.
  intros Hs. apply Forall_fmap. eapply Forall_impl; [exact Hs|]. intros c Hc. simpl in *.
  unfold toupper. destruct (Z.leb_spec 97 c), (Z.leb_spec c 122); simpl; lia.
Qed.

(** A scratch buffer that holds the string [s]. *)
Definition holds (b s : list Z) : Prop :=
  zlen b = FMT_BUFFER /\ nonul s /\ zlen s <= 65 /\ exists r, b = s ++ 0 :: r.

Lemma ntoa_holds buffer v b sg : 2 <= b <= 36 -> Z.abs v < 2 ^ 64 -> zlen buffer = FMT_BUFFER ->
  exists b', ntoa_common buffer v b sg = Ok b' /\ holds b' (numeral v b sg).
Proof.
  intros Hb Hv Hl. pose proof (numeral_bound v b sg). unfold FMT_BUFFER in *.
  eexists. split; [apply ntoa_common_ok; lia|]. split_and!; [|by apply numeral_nonul|done|by eexists].
  unfold FMT_BUFFER, zlen in *. rewrite length_app. simpl. rewrite length_drop. lia.
Qed.

Lemma upcase_holds b s up : holds b s ->
  exists b', upcase_if up b = Ok b' /\ holds b' (if up then toupper <$> s else s).
Proof.
  intros (Hl & Hs & Hb & r & ->). destruct up; [|eexists; repeat split; eauto].
  unfold upcase_if. rewrite strlen_cstr by done. cbn [mbind res_bind].
  unfold zlen at 1. rewrite Nat2Z.id. change (upcase (s ++ 0 :: r) 0 (length s)) with (upcase ([] ++ s ++ 0 :: r) (zlen (@nil Z)) (length s)).
  rewrite upcase_ok.
  eexists. split; [reflexivity|]. unfold holds, zlen in *. rewrite !length_app, !length_fmap in *.
  split_and!; [done|by apply toupper_nonul|done|by eexists].
Qed.

Lemma swrap_abs w z : 0 < w <= 64 -> Z.abs (swrap w z) < 2 ^ 64.
Proof.
  intros Hw. unfold swrap. pose proof (Z.mod_pos_bound (z + 2 ^ (w - 1)) (2 ^ w) ltac:(lia)).
  pose proof (Z.pow_le_mono_r 2 w 64 ltac:(lia) ltac:(lia)).
  pose proof (Z.pow_le_mono_r 2 (w - 1) 63 ltac:(lia) ltac:(lia)). lia.
Qed.

Lemma uwrap_abs z : Z.abs (u16 z) < 2 ^ 64 /\ Z.abs (u32 z) < 2 ^ 64 /\ Z.abs (u64 z) < 2 ^ 64.
Proof. pose proof (u16_range z). pose proof (u32_range z). pose proof (u64_range z). lia. Qed.

Lemma is_type_excl t c c' : bytes c <> bytes c' -> is_type t c = true -> is_type t c' = false.
Proof.
  unfold is_type. intros Hne Ht. apply bool_decide_eq_true in Ht. apply bool_decide_eq_false. congruence.
Qed.

Lemma convert_number_ok d z buffer : is_number (dtype d) = true -> zlen buffer = FMT_BUFFER ->
  exists b, convert_number d z buffer = Ok b /\ holds b (num_text d z).
Proof.
  intros Hn Hl. pose proof (uwrap_abs z) as (H1 & H2 & H3). unfold convert_number, num_text.
  destruct (is_type (dtype d) "i") eqn:Ei.
  { unfold htoa, ltoa, itoa. destruct (is_type (leng d) "h"); [|destruct (is_type (leng d) "l")];
      (apply ntoa_holds; [lia|apply swrap_abs; lia|done]). }
  destruct (is_type (dtype d) "u") eqn:Eu.
  { unfold uhtoa, ultoa, uitoa. destruct (is_type (leng d) "h"); [|destruct (is_type (leng d) "l")];
      (apply ntoa_holds; [lia|done|done]). }
  set (v := if is_type (leng d) "h" then u16 z else if is_type (leng d) "l" then u64 z else u32 z).
  assert (exists b, (if is_type (leng d) "h" then uhtoa z buffer 16 else if is_type (leng d) "l"
     then ultoa z buffer 16 else uitoa z buffer 16) = Ok b /\ holds b (numeral v 16 false)) as (b & -> & Hb).
  { unfold v, uhtoa, ultoa, uitoa. destruct (is_type (leng d) "h"); [|destruct (is_type (leng d) "l")];
      (apply ntoa_holds; [lia|done|done]). }
  destruct (ntoa_holds buffer (u64 z) 16 false ltac:(lia) H3 Hl) as (bp & Hbp & Hhp).
  unfold ultoa. rewrite Hbp. cbn [mbind res_bind].
  destruct (is_type (dtype d) "x") eqn:Ex; cbn [orb].
  - rewrite (is_type_excl _ "x" "X" ltac:(discriminate) Ex). by apply (upcase_holds b _ false).
  - destruct (is_type (dtype d) "X"); [by apply (upcase_holds b _ true)|].
    destruct (is_type (dtype d) "P"); [by apply (upcase_holds bp _ true)|by apply (upcase_holds bp _ false)].
Qed.

(** ** snprintf writes a prefix of the text *)

(** After printing [T] into [n] bytes of [dst0]. *)
Definition sinv (dst0 : list Z) (n : nat) (T : list Z) (o : out) : Prop :=
  odst o = splice dst0 0 (take n T) /\ opos o = zlen (take n T) /\
  remaining o = Z.of_nat n - zlen (take n T).

Lemma print_items_cons it its : print_items (it :: its) = print_item it ++ print_items its.
Proof. reflexivity. Qed.

Lemma print_item_cons it : item_ok it -> exists c r, print_item it = c :: r /\ c <> 0.
Proof. destruct it as [c|z w m t]; simpl; intros H; eexists _, _; (split; [done|]); lia. Qed.

Lemma cstr_split m s : Forall (fun c => 0 <= c < 256) m -> cstr m = Ok s ->
  exists r, m = s ++ 0 :: r /\ nonul s.
Proof.
  intros Hm. revert s. induction Hm as [|c m Hc Hm IH]; intros s H; simpl in H; [done|].
  destruct (Z.eqb_spec c 0); [simplify_eq; exists m; split; [done|constructor]|].
  apply bind_Ok in H as (s' & Hs' & Heq). simplify_eq.
  destruct (IH s' Hs') as (r & -> & Hnn). exists r. split; [done|]. apply nonul_cons. split; [lia|done].
Qed.

Lemma pad_len_bound it : item_ok it -> 0 <= pad_len (dir_of it) < 2 ^ 31.
Proof.
  destruct it as [c|z w m t]; simpl; intros H; [lia|].
  pose proof (width_bound w ltac:(tauto) ltac:(tauto)). lia.
Qed.

Section Snprintf.
Context (dst0 : list Z) (n : nat) (Hn : (n < length dst0)%nat).

Lemma sinv_full T X o : sinv dst0 n T o -> remaining o = 0 -> sinv dst0 n (T ++ X) o.
Proof.
  intros (Hd & Hp & Hr) H0. assert (length (take n T) = n) as Hl by (unfold zlen in *; lia).
  rewrite length_take in Hl. unfold sinv. by rewrite take_app_le by lia.
Qed.

Lemma sinv_rem T o : sinv dst0 n T o -> 0 <= remaining o.
Proof. intros (_ & _ & ->). unfold zlen. rewrite length_take. lia. Qed.

Lemma sinv_put T o c : sinv dst0 n T o -> remaining o <> 0 ->
  exists o', put o c = Ok o' /\ sinv dst0 n (T ++ [c]) o'.
Proof.
  intros (Hd & Hp & Hr) H0. assert (length T < n)%nat as Hl.
  { unfold zlen in Hr. rewrite length_take in Hr. lia. }
  rewrite take_ge in * by lia. unfold put. rewrite Hd, Hp, splice_0.
  destruct (drop (length T) dst0) as [|x r] eqn:E.
  { apply (f_equal length) in E. rewrite length_drop in E. simpl in E. lia. }
  rewrite store_app. cbn [mbind res_bind]. eexists. split; [reflexivity|].
  unfold sinv. simpl. rewrite take_ge by (rewrite length_app; simpl; lia).
  rewrite splice_0, length_app, <- drop_drop, E, zlen_app, <- app_assoc. simpl.
  rewrite Hr. split_and!; try done. unfold zlen. simpl. lia.
Qed.

Lemma copy_loop_ok s r : nonul s -> forall T o, sinv dst0 n T o ->
  exists o', copy_loop o (s ++ 0 :: r) = Ok o' /\ sinv dst0 n (T ++ s) o'.
Proof.
  induction s as [|c s IH]; intros Hs T o Ho; cbn [copy_loop app].
  - exists o. by rewrite Z.eqb_refl, app_nil_r.
  - apply nonul_cons in Hs as [Hc Hs]. destruct (Z.eqb_spec c 0); [lia|].
    destruct (Z.eqb_spec (remaining o) 0); [eexists; split; [done|by apply sinv_full]|].
    destruct (sinv_put T o c Ho ltac:(done)) as (o1 & -> & Ho1). cbn [mbind res_bind].
    destruct (IH Hs _ _ Ho1) as (o2 & -> & Ho2). rewrite <- app_assoc in Ho2. by exists o2.
Qed.

Lemma pad_loop_ok p k : forall T o, sinv dst0 n T o ->
  exists o' more, pad_loop o p k = Ok (o', more) /\ sinv dst0 n (T ++ replicate k p) o' /\
    (more = false -> remaining o' = 0).
Proof.
  induction k as [|k IH]; intros T o Ho; cbn [pad_loop replicate].
  - exists o, true. by rewrite app_nil_r.
  - destruct (Z.eqb_spec (remaining o) 0); [eexists _, _; split_and!; [done|by apply sinv_full|done]|].
    destruct (sinv_put T o p Ho ltac:(done)) as (o1 & -> & Ho1). cbn [mbind res_bind].
    destruct (IH _ _ Ho1) as (o2 & m & -> & Ho2 & Hm). rewrite <- app_assoc in Ho2. by exists o2, m.
Qed.

Lemma snprintf_common_ok s r p w T o : nonul s -> zlen s < 2 ^ 31 -> 0 <= w < 2 ^ 31 ->
  sinv dst0 n T o ->
  exists o', snprintf_common o (s ++ 0 :: r) p w = Ok o' /\ sinv dst0 n (T ++ padded p w s) o'.
Proof.
  intros Hs Hl Hw Ho. unfold snprintf_common, padded. pose proof (zlen_nonneg s).
  destruct (Z.eqb_spec w 0) as [->|Hne].
  - replace (Z.to_nat (0 - zlen s)) with 0%nat by lia. by apply copy_loop_ok.
  - rewrite strlen_cstr by done. cbn [mbind res_bind]. rewrite s32_small by lia.
    destruct (pad_loop_ok p (Z.to_nat (w - zlen s)) T o Ho) as (o1 & m & -> & Ho1 & Hm).
    cbn [mbind res_bind]. rewrite app_assoc. destruct m; [by apply copy_loop_ok|].
    eexists. split; [done|]. apply sinv_full; [done|by apply Hm].
Qed.

Lemma snprintf_round_ok it rest buffer args s args' T o :
  item_ok it -> Forall arg_ok args -> zlen buffer = FMT_BUFFER ->
  item_text it args = Some (s, args') -> sinv dst0 n T o ->
  exists o' b, snprintf_round o (print_item it ++ rest) buffer args = Ok (o', rest, b, args') /\
    zlen b = FMT_BUFFER /\ Forall arg_ok args' /\ sinv dst0 n (T ++ s) o'.
Proof.
  intros Hit Ha Hb Htx Ho. unfold snprintf_round.
  destruct (parse_item it rest buffer Hit Hb) as (b & -> & Hlb). cbn [mbind res_bind].
  pose proof (pad_len_bound it Hit) as Hw. unfold item_text in Htx.
  destruct (is_number (dtype (dir_of it))) eqn:En; [|destruct (is_type (dtype (dir_of it)) "s")].
  - destruct args as [|[z|?] args]; simplify_eq. inversion Ha; subst. cbn [va_int mbind res_bind].
    destruct (convert_number_ok (dir_of it) z b En Hlb) as (b' & -> & (Hl' & Hs & Hbd & r & Hr)).
    cbn [mbind res_bind]. rewrite Hr.
    destruct (snprintf_common_ok _ r (pad_char_of (dir_of it)) (pad_len (dir_of it)) T o Hs ltac:(lia) Hw Ho)
      as (o' & -> & Ho'). rewrite <- Hr. by exists o', b'.
  - destruct args as [|[|m] args]; simplify_eq. apply Forall_cons in Ha as [[Hm1 Hm2] Ha'].
    destruct (cstr m) as [s0| | |] eqn:Ec; simplify_eq. cbn [va_str mbind res_bind].
    destruct (cstr_split m s0 Hm2 Ec) as (r & -> & Hs0). rewrite zlen_app in Hm1.
    pose proof (zlen_nonneg (0 :: r)).
    destruct (snprintf_common_ok _ r (pad_with (dir_of it)) (pad_len (dir_of it)) T o Hs0 ltac:(lia) Hw Ho)
      as (o' & -> & Ho'). by exists o', b.
  - simplify_eq. rewrite Z.gtb_ltb. pose proof (sinv_rem _ _ Ho).
    destruct (Z.ltb_spec 0 (remaining o)); rewrite ?load_0; cbn [mbind res_bind].
    + destruct (sinv_put T o (item_last it) Ho ltac:(lia)) as (o' & -> & Ho'). by exists o', b.
    + exists o, b. split_and!; try done. apply sinv_full; [done|lia].
Qed.

Lemma snprintf_loop_ok its r : forall fuel buffer args text T o,
  Forall item_ok its -> Forall arg_ok args -> zlen buffer = FMT_BUFFER ->
  render its args = Some text -> sinv dst0 n T o -> (length its <= fuel)%nat ->
  exists o', snprintf_loop fuel o (print_items its ++ 0 :: r) buffer args = Ok o' /\
    sinv dst0 n (T ++ text) o'.
Proof.
  induction its as [|it its IH]; intros fuel buffer args text T o Hits Ha Hb Htx Ho Hf.
  - simpl in Htx. simplify_eq. exists o. rewrite app_nil_r. by destruct fuel.
  - apply Forall_cons in Hits as [Hit Hits]. destruct fuel as [|fuel]; simpl in Hf; [lia|].
    cbn [render] in Htx. destruct (item_text it args) as [[s args']|] eqn:Eit; simpl in Htx; [|done].
    destruct (render its args') as [text'|] eqn:Er; simpl in Htx; simplify_eq.
    rewrite print_items_cons, <- app_assoc. cbn [snprintf_loop].
    destruct (snprintf_round_ok it (print_items its ++ 0 :: r) buffer args s args' T o Hit Ha Hb Eit Ho)
      as (o1 & b1 & Hround & Hb1 & Ha1 & Ho1). rewrite Hround.
    destruct (print_item_cons it Hit) as (c & r' & -> & Hc). cbn [app]. rewrite load_0.
    cbn [mbind res_bind]. destruct (Z.eqb_spec c 0); [lia|].
    rewrite app_assoc. apply (IH fuel b1 args'); (done || lia).
Qed.
End Snprintf.

Lemma print_items_length its : Forall item_ok its -> (length its <= length (print_items its))%nat.
Proof.
  induction 1 as [|it its Hit _ IH]; [done|].
  rewrite print_items_cons, length_app. destruct (print_item_cons it Hit) as (c & r' & -> & _). simpl. lia.
Qed.

Lemma snprintf_ok (dst : list Z) (size : Z) (its : list item) (after : list Z) (args : list varg)
    (buffer text : list Z) :
  Forall item_ok its -> Forall arg_ok args -> zlen buffer = FMT_BUFFER ->
  render its args = Some text -> 0 < size <= zlen dst -> size <= 2 ^ 31 ->
  snprintf dst size (print_items its ++ 0 :: after) args buffer
  = Ok (splice dst 0 (take (Z.to_nat (size - 1)) text ++ [0]), Z.min (size - 1) (zlen text)).
Proof.
  intros Hits Ha Hb Htx Hs Hs2. unfold snprintf. destruct (Z.eqb_spec size 0); [lia|].
  set (k := Z.to_nat (size - 1)). assert (k < length dst)%nat as Hk by (unfold zlen in *; lia).
  destruct (snprintf_loop_ok dst k Hk its after (length (print_items its ++ 0 :: after)) buffer args text []
    (mk_out dst 0 (size - 1)) Hits Ha Hb Htx) as (o & -> & (Hd & Hp & Hr)).
  { unfold sinv. rewrite take_nil, splice_nil. unfold zlen. simpl. split_and!; [done|done|lia]. }
  { rewrite length_app. pose proof (print_items_length its Hits). lia. }
  cbn [mbind res_bind app] in *. rewrite Hd, Hp, splice_0.
  destruct (drop (length (take k text)) dst) as [|x r] eqn:E.
  { apply (f_equal length) in E. rewrite length_drop, length_take in E. simpl in E. lia. }
  rewrite store_app. cbn [mbind res_bind].
  rewrite splice_0, length_app, <- drop_drop, E, <- app_assoc. simpl. do 2 f_equal.
  assert (zlen (take k text) = Z.min (size - 1) (zlen text)) as Hz by (unfold zlen; rewrite length_take; lia).
  pose proof (zlen_nonneg text). rewrite Hr, s32_small by lia. lia.
Qed.

(** C39: whatever the format and its arguments, [snprintf(dst, size, ...)] writes the rendered
    text cut to [size - 1] bytes and a terminating NUL at the start of [dst], changes nothing
    beyond, and returns the number of characters it kept. *)
Theorem snprintf_text (dst : list Z) (size : Z) (its : list item) (after : list Z) (args : list varg)
    (buffer text : list Z) :
  Forall item_ok its -> Forall arg_ok args -> zlen buffer = FMT_BUFFER ->
  render its args = Some text -> 0 < size <= zlen dst -> size <= 2 ^ 31 ->
  snprintf dst size (print_items its ++ 0 :: after) args buffer
  = Ok (splice dst 0 (take (Z.to_nat (size - 1)) text ++ [0]), Z.min (size - 1) (zlen text)).
Proof. apply snprintf_ok. Qed.

(** ["d%03u%s"] into six bytes keeps five characters. *)
Lemma snprintf_text_witness :
  let its := [Lit 100; Dir true [51] None 117; Dir false [] None 115] in
  print_items its = bytes "d%03u%s" /\
  snprintf [9; 9; 9; 9; 9; 9; 9] 6 (print_items its ++ 0 :: []) [VInt 7; VStr (bytes "xyz" ++ [0])] (replicate 72 0)
  = Ok ([100; 48; 48; 55; 120; 0; 9], 5).
Proof.
  intros its. split; [done|].
  rewrite (snprintf_text [9; 9; 9; 9; 9; 9; 9] 6 its []
    [VInt 7; VStr (bytes "xyz" ++ [0])] (replicate 72 0) (bytes "d007xyz")).
  - vm_compute. reflexivity.
  - repeat constructor; unfold is_digit; simpl; try (done || lia).
  - repeat constructor; simpl; lia.
  - reflexivity.
  - vm_compute. reflexivity.
  - unfold zlen. simpl. lia.
  - lia.
Defined.

(** ** printk prints the same text *)

Lemma ops_text_app a b : ops_text (a ++ b) = ops_text a ++ ops_text b.
Proof. apply bind_app. Qed.

Lemma cstr_nonul s r : nonul s -> cstr (s ++ 0 :: r) = Ok s.
Proof.
  induction s as [|c s IH]; intros Hs; simpl; [done|]. apply nonul_cons in Hs as [Hc Hs].
  destruct (Z.eqb_spec c 0); [lia|]. by rewrite IH.
Qed.

Lemma printk_common_ok s r p w : nonul s -> zlen s < 2 ^ 31 -> 0 <= w < 2 ^ 31 ->
  exists ops, printk_common (s ++ 0 :: r) p w = Ok ops /\ ops_text ops = padded p w s.
Proof.
  intros Hs Hl Hw. unfold printk_common, padded. pose proof (zlen_nonneg s).
  assert ((if w =? 0 then Ok 0 else n ← strlen (s ++ 0 :: r); Ok (s32 (w - n)))
          = Ok (if w =? 0 then 0 else w - zlen s)) as ->.
  { destruct (w =? 0); [done|]. rewrite strlen_cstr by done. cbn [mbind res_bind]. by rewrite s32_small by lia. }
  cbn [mbind res_bind]. rewrite cstr_nonul by done. eexists. split; [reflexivity|].
  rewrite ops_text_app. f_equal; [|apply app_nil_r].
  replace (Z.to_nat (if w =? 0 then 0 else w - zlen s)) with (Z.to_nat (w - zlen s))
    by (destruct (Z.eqb_spec w 0); lia).
  induction (Z.to_nat (w - zlen s)) as [|k IH]; [done|]. cbn [replicate]. rewrite <- IH. done.
Qed.

(** Items that [snprintf] knows too: no colour and no [%c]. *)
Definition plain (it : item) : Prop :=
  is_type (dtype (dir_of it)) "$" = false /\ is_type (dtype (dir_of it)) "c" = false.

Definition is_newline (it : item) : bool :=
  match it with Lit c => c =? 10 | Dir _ _ _ _ => false end.

Lemma printk_round_ok it rest nl buffer args s args' :
  item_ok it -> plain it -> Forall arg_ok args -> zlen buffer = FMT_BUFFER ->
  item_text it args = Some (s, args') ->
  exists ops b, printk_round nl (print_item it ++ rest) buffer args
                = Ok (nl || is_newline it, ops, rest, b, args') /\
    zlen b = FMT_BUFFER /\ Forall arg_ok args' /\ ops_text ops = s.
Proof.
  intros Hit [Hp1 Hp2] Ha Hb Htx. unfold printk_round.
  assert (exists c r, print_item it = c :: r /\ (if c =? 10 then true else nl) = nl || is_newline it)
    as (c & r0 & Hpr & Hnl).
  { destruct it as [c|z w m t]; simpl; eexists _, _; (split; [reflexivity|]).
    - destruct (c =? 10), nl; done.
    - by rewrite orb_false_r. }
  assert (load (print_item it ++ rest) 0 = Ok c) as -> by (by rewrite Hpr).
  destruct (parse_item it rest buffer Hit Hb) as (b & -> & Hlb). cbn [mbind res_bind]. rewrite Hnl, Hp1.
  pose proof (pad_len_bound it Hit) as Hw. unfold item_text in Htx.
  destruct (is_number (dtype (dir_of it))) eqn:En; [|destruct (is_type (dtype (dir_of it)) "s")].
  - destruct args as [|[z|?] args]; simplify_eq. apply Forall_cons in Ha as [_ Ha]. cbn [va_int mbind res_bind].
    destruct (convert_number_ok (dir_of it) z b En Hlb) as (b' & -> & (Hl' & Hs & Hbd & r & Hr)).
    cbn [mbind res_bind]. rewrite Hr.
    destruct (printk_common_ok _ r (pad_char_of (dir_of it)) (pad_len (dir_of it)) Hs ltac:(lia) Hw)
      as (ops & -> & Hops). rewrite <- Hr. by exists ops, b'.
  - destruct args as [|[|m] args]; simplify_eq. apply Forall_cons in Ha as [[Hm1 Hm2] Ha].
    destruct (cstr m) as [s0| | |] eqn:Ec; simplify_eq. cbn [va_str mbind res_bind].
    destruct (cstr_split m s0 Hm2 Ec) as (r & -> & Hs0). rewrite zlen_app in Hm1.
    pose proof (zlen_nonneg (0 :: r)).
    destruct (printk_common_ok _ r (pad_with (dir_of it)) (pad_len (dir_of it)) Hs0 ltac:(lia) Hw)
      as (ops & -> & Hops). by exists ops, b.
  - rewrite Hp2, load_0. cbn [mbind res_bind]. simplify_eq. by exists [PutChar (item_last it)], b.
Qed.

Lemma printk_loop_ok its r : forall fuel nl acc buffer args text,
  Forall item_ok its -> Forall plain its -> Forall arg_ok args -> zlen buffer = FMT_BUFFER ->
  render its args = Some text -> (length its <= fuel)%nat ->
  exists ops, printk_loop fuel nl acc (print_items its ++ 0 :: r) buffer args
              = Ok (nl || existsb is_newline its, ops) /\ ops_text ops = ops_text acc ++ text.
Proof.
  induction its as [|it its IH]; intros fuel nl acc buffer args text Hits Hpl Ha Hb Htx Hf.
  - simpl in Htx. simplify_eq. exists acc. rewrite app_nil_r, orb_false_r. by destruct fuel.
  - apply Forall_cons in Hits as [Hit Hits]. apply Forall_cons in Hpl as [Hp Hpl].
    destruct fuel as [|fuel]; simpl in Hf; [lia|].
    cbn [render] in Htx. destruct (item_text it args) as [[s args']|] eqn:Eit; simpl in Htx; [|done].
    destruct (render its args') as [text'|] eqn:Er; simpl in Htx; simplify_eq.
    rewrite print_items_cons, <- app_assoc. cbn [printk_loop].
    destruct (printk_round_ok it (print_items its ++ 0 :: r) nl buffer args s args' Hit Hp Ha Hb Eit)
      as (ops & b1 & Hround & Hb1 & Ha1 & Hops). rewrite Hround.
    destruct (print_item_cons it Hit) as (c & r' & -> & Hc). cbn [app]. rewrite load_0.
    cbn [mbind res_bind]. destruct (Z.eqb_spec c 0); [lia|].
    destruct (IH fuel (nl || is_newline it) (acc ++ ops) b1 args' text') as (ops2 & -> & Hops2); try (done || lia).
    exists ops2. cbn [existsb]. rewrite orb_assoc. split; [done|].
    by rewrite Hops2, ops_text_app, Hops, <- app_assoc.
Qed.

(** On any format without colour escapes, [%c] and a [^] prefix, [printk] prints the same
    text as [snprintf], preceded by two spaces when the last message ended its line, and
    remembers whether a newline was printed. *)
Theorem printk_text (nl : bool) (its : list item) (after : list Z) (args : list varg)
    (buffer text : list Z) :
  Forall item_ok its -> Forall plain its -> Forall arg_ok args -> zlen buffer = FMT_BUFFER ->
  render its args = Some text -> head its <> Some (Lit 94) ->
  exists ops, printk nl (print_items its ++ 0 :: after) args buffer
              = Ok (existsb is_newline its, ops) /\
    ops_text ops = (if nl then bytes "  " else []) ++ text.
Proof.
  intros Hits Hpl Ha Hb Htx Hhd. unfold printk.
  assert (exists c, load (print_items its ++ 0 :: after) 0 = Ok c /\ c <> 94) as (c & -> & Hc).
  { destruct its as [|[c|z w m t] its]; [by exists 0| |by exists 37].
    exists c. split; [done|]. intros ->. by apply Hhd. }
  cbn [mbind res_bind]. destruct (Z.eqb_spec c 94); [done|]. cbn [andb mbind res_bind app negb].
  rewrite andb_true_r.
  destruct (printk_loop_ok its after (length (print_items its ++ 0 :: after)) false
    (if nl then [Write (bytes "  ")] else []) buffer args text Hits Hpl Ha Hb Htx) as (ops & -> & Hops).
  { rewrite length_app. pose proof (print_items_length its Hits). lia. }
  exists ops. split; [done|]. rewrite Hops. by destruct nl.
Qed.

Lemma printk_text_witness :
  let its := [Lit 112; Dir false [] (Some true) 120; Lit 10] in
  exists ops, printk true (print_items its ++ 0 :: []) [VInt (-1)] (replicate 72 0) = Ok (true, ops) /\
    ops_text ops = bytes "  " ++ bytes "pffffffffffffffff" ++ [10].
Proof.
  intros its. apply (printk_text true its [] [VInt (-1)] (replicate 72 0)).
  - repeat constructor; unfold is_digit; simpl; try (done || lia).
  - repeat constructor.
  - repeat constructor.
  - reflexivity.
  - vm_compute. reflexivity.
  - done.
Defined.

(** ** A plain [%s] of a string that may be longer than the room for it *)

Lemma snprintf_s dst size local scratch : 0 < size -> zlen scratch = FMT_BUFFER ->
  snprintf dst size (bytes "%s" ++ [0]) [VStr local] scratch
  = (o ← copy_loop (mk_out dst 0 (size - 1)) local; d ← store (odst o) (opos o) 0; Ok (d, s32 (size - 1 - remaining o))).
Proof.
  intros Hs Hb. unfold snprintf. destruct (Z.eqb_spec size 0); [lia|].
  destruct (parse_item (Dir false [] None 115) [0] scratch) as (b & E & _); [repeat constructor; unfold is_digit; simpl; try (done || lia)|done|].
  cbn [snprintf_loop length bytes app]. rewrite load_0. cbn [mbind res_bind Z.eqb Pos.eqb]. unfold snprintf_round.
  change (bytes "%s" ++ [0]) with (print_item (Dir false [] None 115) ++ [0]) in *.
  cbn [print_item app] in E.
  match goal with |- context [parse_directive ?a ?b] => change a with (37 :: 115 :: [0]) end. rewrite E.
  cbn [mbind res_bind dir_of dtype pad_with pad_len]. change (is_number 115) with false. change (is_type 115 "s") with true. cbv iota.
  cbn [va_str mbind res_bind]. unfold snprintf_common. change (dec_val 0 [] =? 0) with true. cbv iota.
  destruct (copy_loop (mk_out dst 0 (size - 1)) local) as [o| | |]; try done.
Qed.

Lemma copy_loop_text t : nonul t -> forall dst p k c r, (c = 0 /\ zlen t <= k \/ zlen t = k) -> 0 <= p -> p + zlen t < zlen dst ->
  copy_loop (mk_out dst p k) (t ++ c :: r) = Ok (mk_out (splice dst p t) (p + zlen t) (k - zlen t)).
Proof.
  induction t as [|x t IH]; intros Ht dst p k c r Hc Hp Hl; cbn [copy_loop app].
  - rewrite splice_nil, zlen_nil in *. rewrite Z.add_0_r, Z.sub_0_r. destruct (Z.eqb_spec c 0); [done|]. cbn [remaining].
    destruct (Z.eqb_spec k 0); [done|lia].
  - apply nonul_cons in Ht as [Hx Ht]. rewrite zlen_cons in *. pose proof (zlen_nonneg t). destruct (Z.eqb_spec x 0); [lia|].
    cbn [remaining]. destruct (Z.eqb_spec k 0); [lia|]. unfold put. cbn [odst opos remaining]. rewrite store_in_range by lia.
    cbn [mbind res_bind]. rewrite IH; [|done|lia|lia|rewrite zlen_insert; lia]. rewrite splice_insert_cons by lia. do 2 f_equal; lia.
Qed.

Lemma insert_splice {A} (m : list A) p v : 0 <= p < zlen m -> <[Z.to_nat p := v]> m = splice m p [v].
Proof. intros. rewrite <- (splice_insert_cons m p v []) by done. by rewrite splice_nil. Qed.

(** The text [t] ends at its NUL, or where the room does. *)
Lemma snprintf_str dst size scratch t c r : nonul t -> 0 < size <= zlen dst -> zlen scratch = FMT_BUFFER ->
  (c = 0 /\ zlen t <= size - 1 \/ zlen t = size - 1) ->
  exists v, snprintf dst size (bytes "%s" ++ [0]) [VStr (t ++ c :: r)] scratch = Ok (splice dst 0 (t ++ [0]), v).
Proof.
  intros Ht Hs Hb Hc. pose proof (zlen_nonneg t). rewrite snprintf_s by (done || lia). rewrite copy_loop_text by (done || lia).
  cbn [mbind res_bind odst opos remaining]. assert (zlen (splice dst 0 t) = zlen dst) as Hl by (apply zlen_splice; lia).
  rewrite store_in_range by lia. cbn [mbind res_bind]. rewrite insert_splice by lia. rewrite splice_splice by (change (zlen [0]) with 1; lia).
  by eexists.
Qed.
