(* ===== verification/Lists.v ===== *)
(** * Linked lists: kernel/klist.c, kernel/kslist.c and the executor registry of proc/exec_load.c

    A chain of entries is the list of its nodes in [next] order; a node is named by its
    position.  [void*] data is [option A] with [None] for NULL. *)
From S2P Require Import Prelude Strings.

(** ** klist: entries under a [size_t] index *)
Section Klist.
Context {A : Type}.

Record klist_entry := mk_klist_entry { index : Z; data : A }.
Record klist := mk_klist { kcount : Z; kfirst : list klist_entry }.

Definition klist_init : klist := {| kcount := 0; kfirst := [] |}.

Definition klist_init_raw (e : klist_entry) : klist := {| kcount := 1; kfirst := [e] |}.

(** The loop of [klist_set] from a node on: [None] when it ran off the end. *)
Fixpoint klist_walk (es : list klist_entry) (i : Z) (ptr : option A)
  : option (list klist_entry * Z) :=
  match es with
  | [] => None
  | e :: next =>
      if index e =? i then
        match ptr with
        | None => Some (next, -1)
        | Some v => Some (mk_klist_entry (index e) v :: next, 0)
        end
      else
        match klist_walk next i ptr with
        | Some (next', d) => Some (e :: next', d)
        | None => None
        end
  end.

Definition klist_set (l : klist) (i : Z) (ptr : option A) : klist * bool :=
  match klist_walk (kfirst l) i ptr with
  | Some (es, d) => ({| kcount := u64 (kcount l + d); kfirst := es |}, true)
  | None =>
      match ptr with
      | None => (l, false)
      | Some v =>
          ({| kcount := u64 (kcount l + 1); kfirst := kfirst l ++ [mk_klist_entry i v] |}, false)
      end
  end.

Fixpoint klist_find (es : list klist_entry) (i : Z) : option A :=
  match es with
  | [] => None
  | e :: next => if index e =? i then Some (data e) else klist_find next i
  end.

Definition klist_get (l : klist) (i : Z) : option A := klist_find (kfirst l) i.

Definition klist_first (l : klist) : Z :=
  match kfirst l with e :: _ => s64 (index e) | [] => -1 end.

(** [entry] is the position of the node the iterator stands on. *)
Definition klist_iter (l : klist) (entry : option nat) : option nat * option A :=
  let entry' := match entry with None => 0%nat | Some k => S k end in
  match kfirst l !! entry' with
  | None => (None, None)
  | Some e => (Some entry', Some (data e))
  end.

(** The pairs a [klist_foreach] body sees, with enough rounds for the whole chain. *)
Fixpoint klist_foreach (fuel : nat) (l : klist) (entry : option nat) : list (Z * A) :=
  match fuel with
  | O => []
  | S f =>
      match klist_iter l entry with
      | (Some k, Some v) =>
          match kfirst l !! k with
          | Some e => (index e, v) :: klist_foreach f l (Some k)
          | None => []
          end
      | _ => []
      end
  end.

(** *** klist is a finite map *)

Definition klist_map (l : klist) : gmap Z A :=
  list_to_map ((fun e => (index e, data e)) <$> kfirst l).

Definition klist_ok (l : klist) : Prop :=
  NoDup (index <$> kfirst l) /\ kcount l = zlen (kfirst l) /\ zlen (kfirst l) < 2 ^ 63.

Lemma klist_find_spec es i :
  klist_find es i = (list_to_map ((fun e => (index e, data e)) <$> es) : gmap Z A) !! i.
Proof.
  induction es as [|e es IH]; simpl; [done|].
  destruct (Z.eqb_spec (index e) i) as [->|Hne]; [by rewrite lookup_insert_eq|].
  by rewrite lookup_insert_ne.
Qed.

Definition walk_spec (es : list klist_entry) (i : Z) (ptr : option A) (es' : list klist_entry) (d : Z) : Prop :=
  i ∈ (index <$> es) /\ zlen es' = zlen es + d /\ d <= 0 /\
  (forall j, j ∈ (index <$> es') -> j ∈ (index <$> es)) /\
  (NoDup (index <$> es) -> NoDup (index <$> es')) /\
  (NoDup (index <$> es) ->
   forall j, klist_find es' j = if decide (j = i) then ptr else klist_find es j).

Lemma klist_find_notin es i : i ∉ (index <$> es) -> klist_find es i = None.
Proof.
  induction es as [|e es IH]; simpl; intros Hni; [done|]. apply not_elem_of_cons in Hni as [Hne Hni].
  destruct (Z.eqb_spec (index e) i); [congruence|by apply IH].
Qed.

Lemma klist_walk_spec es i ptr :
  match klist_walk es i ptr with
  | Some (es', d) => walk_spec es i ptr es' d
  | None => i ∉ (index <$> es)
  end.
Proof.
  induction es as [|e es IH]; simpl; [apply not_elem_of_nil|].
  destruct (Z.eqb_spec (index e) i) as [Hi|Hne].
  - destruct ptr as [v|]; (unfold walk_spec; rewrite ?zlen_cons; simpl; split_and!; [rewrite Hi; left|lia|lia|..]).
    + done.
    + done.
    + intros _ j. destruct (Z.eqb_spec (index e) j); case_decide; congruence.
    + intros j Hj. by right.
    + intros Hnd. apply NoDup_cons in Hnd as [_ Hnd]. done.
    + intros Hnd j. apply NoDup_cons in Hnd as [Hni _]. rewrite Hi in Hni.
      case_decide as Hj; [subst; by apply klist_find_notin|].
      destruct (Z.eqb_spec (index e) j); [congruence|done].
  - destruct (klist_walk es i ptr) as [[es' d]|]; [|rewrite not_elem_of_cons; split; [congruence|done]].
    destruct IH as (Hin & Hlen & Hd & Hsub & Hnd & Hf). unfold walk_spec. rewrite !zlen_cons. simpl.
    split_and!; [by right|lia|done| | |].
    + intros j. rewrite !elem_of_cons. intuition.
    + intros [Hni Hnd']%NoDup_cons. apply NoDup_cons. split; [|by apply Hnd]. intros Hx. by apply Hni, Hsub.
    + intros [Hni Hnd']%NoDup_cons j. rewrite Hf by done.
      destruct (Z.eqb_spec (index e) j); case_decide; congruence.
Qed.

Lemma klist_find_app es e i : klist_find (es ++ [e]) i =
  match klist_find es i with Some v => Some v | None => if index e =? i then Some (data e) else None end.
Proof. induction es as [|x es IH]; simpl; [done|]. by destruct (index x =? i). Qed.

Lemma klist_find_elem es i : i ∈ (index <$> es) -> is_Some (klist_find es i).
Proof.
  induction es as [|e es IH]; simpl; [by intros ?%elem_of_nil|].
  intros [->|Hi]%elem_of_cons; [rewrite Z.eqb_refl; eauto|]. destruct (index e =? i); eauto.
Qed.

(** A klist implements a finite map from indices: setting an index to a value inserts or
    replaces it, setting it to NULL deletes it, the result says whether the index was there
    before, [count] stays the number of entries and no index is ever stored twice. *)
Theorem klist_set_refines (l l' : klist) (i : Z) (ptr : option A) (b : bool) :
  klist_ok l -> zlen (kfirst l) < 2 ^ 63 - 1 -> klist_set l i ptr = (l', b) ->
  klist_ok l' /\
  klist_map l' = match ptr with Some v => <[i := v]> (klist_map l) | None => delete i (klist_map l) end /\
  b = bool_decide (is_Some (klist_get l i)) /\
  forall j, klist_get l' j = klist_map l' !! j.
Proof.
  intros (Hnd & Hc & Hl) Hl2 Hset. unfold klist_set in Hset. unfold klist_get.
  pose proof (klist_walk_spec (kfirst l) i ptr) as Hw. pose proof (zlen_nonneg (kfirst l)).
  assert (forall j, klist_find (kfirst l') j = klist_map l' !! j) as Hget by (intros j; apply klist_find_spec).
  cut (klist_ok l' /\ b = bool_decide (is_Some (klist_find (kfirst l) i)) /\
       forall j, klist_find (kfirst l') j = if decide (j = i) then ptr else klist_find (kfirst l) j).
  { intros (Hok & Hb & Hj). split_and!; [done| |done|done]. apply map_eq. intros j. rewrite <- Hget, Hj.
    rewrite klist_find_spec. fold (klist_map l).
    destruct ptr; case_decide; subst; by simplify_map_eq. }
  destruct (klist_walk (kfirst l) i ptr) as [[es d]|].
  - destruct Hw as (Hin & Hlen & Hd & Hsub & Hnd' & Hf). simplify_eq/=. pose proof (zlen_nonneg es).
    split_and!; [split_and!; simpl; [by apply Hnd'|rewrite u64_small; lia|lia]| |by apply Hf].
    symmetry. apply bool_decide_eq_true. by apply klist_find_elem.
  - rewrite (klist_find_notin _ _ Hw). destruct ptr as [v|]; simplify_eq/=.
    + split_and!; [split_and!; simpl| |].
      * rewrite fmap_app. apply NoDup_app. split_and!; [done| |apply NoDup_singleton].
        intros x Hx ->%list_elem_of_singleton. done.
      * rewrite zlen_app, zlen_cons, zlen_nil, u64_small; lia.
      * rewrite zlen_app, zlen_cons, zlen_nil; lia.
      * done.
      * intros j. rewrite klist_find_app. simpl. case_decide as Hj.
        -- subst. rewrite (klist_find_notin _ _ Hw). by rewrite Z.eqb_refl.
        -- destruct (Z.eqb_spec i j); [congruence|]. by destruct (klist_find (kfirst l) j).
    + split_and!; [done|done|]. intros j. case_decide; [subst; by apply klist_find_notin|done].
Qed.

(** [klist_foreach] sees every entry once, in chain order. *)
Lemma klist_foreach_drop (l : klist) : forall fuel k, (length (kfirst l) <= k + fuel)%nat ->
  klist_foreach fuel l (match k with O => None | S p => Some p end)
  = (fun e => (index e, data e)) <$> drop k (kfirst l).
Proof.
  induction fuel as [|f IH]; intros k Hk; cbn [klist_foreach].
  - by rewrite drop_ge by lia.
  - unfold klist_iter.
    replace (match match k with O => None | S p => Some p end with None => 0%nat | Some p => S p end)
      with k by (by destruct k).
    destruct (kfirst l !! k) as [e|] eqn:E.
    + rewrite E, (drop_S _ _ _ E). cbn [fmap list_fmap]. f_equal. apply (IH (S k)). lia.
    + apply lookup_ge_None in E. by rewrite drop_ge by lia.
Qed.
End Klist.

Arguments klist A : clear implicits.
Arguments klist_entry A : clear implicits.

Lemma klist_set_refines_witness :
  let l := mk_klist 2 [mk_klist_entry 4 10; mk_klist_entry 7 20] in
  let l' := mk_klist 1 [mk_klist_entry 7 20] in
  klist_ok l' /\ klist_map l' = delete 4 (klist_map l) /\
  true = bool_decide (is_Some (klist_get l 4)) /\ forall j, klist_get l' j = klist_map l' !! j.
Proof.
  intros l l'. apply (klist_set_refines l l' 4 None true); [|vm_compute; done|reflexivity].
  split_and!; [|reflexivity|vm_compute; done].
  simpl. repeat (apply NoDup_cons; split; [by rewrite ?elem_of_cons, elem_of_nil; intuition|]). by apply NoDup_nil_2.
Defined.

(** ** kslist: entries under a name *)

(** [ret += *string; ...; ret = ((ret << 11) | (ret >> (32 - 11)));] on a [uint32_t]. *)
Definition hash_mix (ret c : Z) : Z :=
  let ret := u32 (ret + s8 c) in
  let ret := u32 (ret + Z.shiftl (s8 c) 6) in
  let ret := u32 (ret + Z.rem (s8 c) 11 * 100) in
  let ret := u32 (ret * 3) in
  Z.lor (u32 (Z.shiftl ret 11)) (Z.shiftr ret (32 - 11)).

(** [while ( *string++ != '\0')] tests a byte and mixes in the one after it. *)
Fixpoint kslist_hash_loop (ret : Z) (s : list Z) : res Z :=
  match s with
  | [] => Fault
  | c :: s' =>
      if c =? 0 then Ok ret
      else match s' with [] => Fault | d :: _ => kslist_hash_loop (hash_mix ret d) s' end
  end.

Definition kslist_hash (s : list Z) : res Z := kslist_hash_loop 0 s.

Section Kslist.
Context {A : Type}.

Record kslist_entry := mk_kslist_entry { khash : Z; kname : list Z; kdata : A }.
Record kslist := mk_kslist { scount : Z; sfirst : list kslist_entry }.

Definition kslist_init : kslist := {| scount := 0; sfirst := [] |}.

(** [entry->hash == hash && memcmp(entry->name, name, strlen(entry->name)) == 0] *)
Definition kslist_match (e : kslist_entry) (hash : Z) (name : list Z) : res bool :=
  if khash e =? hash then
    name_len ← strlen (kname e);
    r ← memcmp (kname e) name (Z.to_nat name_len);
    Ok (r =? 0)
  else Ok false.

(** The loop of [kslist_set].  [prev] is never assigned in it, so a matching entry is always
    unlinked by storing its [next] into [first], which drops the entries before it. *)
Fixpoint kslist_walk (es : list kslist_entry) (before : list kslist_entry) (hash : Z) (name : list Z)
    (ptr : option A) : res (option (list kslist_entry)) :=
  match es with
  | [] => Ok None
  | e :: next =>
      m ← kslist_match e hash name;
      if (m : bool) then
        match ptr with
        | None => Ok (Some next)
        | Some v => Ok (Some (before ++ mk_kslist_entry (khash e) (kname e) v :: next))
        end
      else kslist_walk next (before ++ [e]) hash name ptr
  end.

(** [fresh] is the content of [name] in the memory [kmalloc] returned. *)
Definition kslist_set (fresh : list Z) (l : kslist) (name : list Z) (ptr : option A) : res (kslist * bool) :=
  hash ← kslist_hash name;
  w ← kslist_walk (sfirst l) [] hash name ptr;
  match w with
  | Some es => Ok (mk_kslist (scount l) es, true)
  | None =>
      match ptr with
      | None => Ok (l, false)
      | Some v =>
          match sfirst l with
          | _ :: _ => Fault (* prev->next = entry, with prev == NULL *)
          | [] =>
              n ← strlen fresh;
              let name_len := if n >? 31 then 31 else n in
              nm ← memcpy fresh 0 name 0 name_len;
              nm ← store nm name_len 0;
              Ok (mk_kslist (scount l) [mk_kslist_entry hash nm v], false)
          end
      end
  end.

Fixpoint kslist_find (es : list kslist_entry) (hash : Z) (name : list Z) : res (option A) :=
  match es with
  | [] => Ok None
  | e :: next =>
      m ← kslist_match e hash name;
      if (m : bool) then Ok (Some (kdata e)) else kslist_find next hash name
  end.

Definition kslist_get (l : kslist) (name : list Z) : res (option A) :=
  hash ← kslist_hash name; kslist_find (sfirst l) hash name.

Definition kslist_iter (l : kslist) (entry : option nat) : option nat * option A :=
  let entry' := match entry with None => 0%nat | Some k => S k end in
  match sfirst l !! entry' with
  | None => (None, None)
  | Some e => (Some entry', Some (kdata e))
  end.
End Kslist.

Arguments kslist A : clear implicits.
Arguments kslist_entry A : clear implicits.

(** ** Executors.  An executor runs on the path, the arguments and the structures it fills in,
    which are the state [St]; it returns a code. *)
Section Exec.
Context {St : Type}.

Definition executor : Type := St -> Z * St.

Definition exec_register_executor (fresh : list Z) (executors : option (kslist executor))
    (name : list Z) (f : executor) : res (option (kslist executor) * Z) :=
  let l := match executors with None => kslist_init | Some l => l end in
  '(l', _) ← kslist_set fresh l name (Some f);
  Ok (Some l', 0).

(** A NULL list is dereferenced. *)
Definition exec_unregister_executor (fresh : list Z) (executors : option (kslist executor))
    (name : list Z) : res (option (kslist executor) * Z) :=
  match executors with
  | None => Fault
  | Some l => '(l', b) ← kslist_set fresh l name None; Ok (Some l', if (b : bool) then 0 else -1)
  end.

Fixpoint exec_load_loop (fuel : nat) (l : kslist executor) (entry : option nat) (s : St) : Z * St :=
  match fuel with
  | O => (- rc EBADEXE, s)
  | S f =>
      match kslist_iter l entry with
      | (entry', Some ex) =>
          let '(ret, s') := ex s in
          if is_error ret then exec_load_loop f l entry' s' else (ret, s')
      | (_, None) => (- rc EBADEXE, s)
      end
  end.

(** One round more than there are executors: the last one finds the end of the list. *)
Definition exec_load (executors : option (kslist executor)) (s : St) : res (Z * St) :=
  match executors with
  | None => Fault
  | Some l => Ok (exec_load_loop (S (length (sfirst l))) l None s)
  end.

(** Trying a list of executors one after the other. *)
Fixpoint try_all (exs : list executor) (s : St) : Z * St :=
  match exs with
  | [] => (- rc EBADEXE, s)
  | ex :: exs' => let '(ret, s') := ex s in if is_error ret then try_all exs' s' else (ret, s')
  end.

Lemma exec_load_loop_drop (l : kslist executor) : forall fuel k s, (length (sfirst l) < k + fuel)%nat ->
  exec_load_loop fuel l (match k with O => None | S p => Some p end) s
  = try_all (kdata <$> drop k (sfirst l)) s.
Proof.
  induction fuel as [|f IH]; intros k s Hk; cbn [exec_load_loop].
  - by rewrite drop_ge by lia.
  - unfold kslist_iter.
    replace (match match k with O => None | S p => Some p end with None => 0%nat | Some p => S p end)
      with k by (by destruct k).
    destruct (sfirst l !! k) as [e|] eqn:E.
    + rewrite (drop_S _ _ _ E). cbn [fmap list_fmap try_all]. destruct (kdata e s) as [ret s'].
      destruct (is_error ret); [|done]. apply (IH (S k)). lia.
    + apply lookup_ge_None in E. by rewrite drop_ge by lia.
Qed.

(** [exec_load] tries the registered executors in registration order, each on what the ones
    before it left behind, and stops at the first that does not return an error; when every
    one fails the result is [-EBADEXE]. *)
Theorem exec_load_first_success (l : kslist executor) (s : St) :
  exec_load (Some l) s = Ok (try_all (kdata <$> sfirst l) s).
Proof. unfold exec_load. f_equal. apply (exec_load_loop_drop l _ 0). lia. Qed.
End Exec.

(** ** What the names do *)

Lemma kslist_hash_total s r : nonul s -> exists h, kslist_hash (s ++ 0 :: r) = Ok h.
Proof.
  unfold kslist_hash. generalize 0 at 1 as ret. intros ret Hs. revert ret.
  induction s as [|c s IH]; intros ret; simpl; [by exists ret|].
  apply nonul_cons in Hs as [Hc Hs]. destruct (Z.eqb_spec c 0); [lia|].
  destruct s as [|d s]; simpl; [by eexists|]. by apply IH.
Qed.

Lemma kslist_match_empty {A} (h h' : Z) (v : A) name :
  kslist_match (mk_kslist_entry h (replicate 32 0) v) h' name = Ok (h =? h').
Proof. unfold kslist_match. simpl. by destruct (h =? h'). Qed.

(** With the zeroed memory [kmalloc] hands out a new entry keeps an empty name and is found
    by its hash alone; a second name with another hash cannot be added, the kernel
    dereferences the NULL [prev]. *)
Theorem kslist_second_name_faults {A} (name name' rest rest' : list Z) (v v' : A) (h h' : Z) :
  nonul name -> nonul name' ->
  kslist_hash (name ++ 0 :: rest) = Ok h -> kslist_hash (name' ++ 0 :: rest') = Ok h' -> h <> h' ->
  let l := mk_kslist 0 [mk_kslist_entry h (replicate 32 0) v] in
  kslist_set (replicate 32 0) kslist_init (name ++ 0 :: rest) (Some v) = Ok (l, false) /\
  kslist_get l (name ++ 0 :: rest) = Ok (Some v) /\
  kslist_get l (name' ++ 0 :: rest') = Ok None /\
  kslist_set (replicate 32 0) l (name' ++ 0 :: rest') (Some v') = Fault.
Proof.
  intros Hn Hn' Hh Hh' Hne l. unfold kslist_set, kslist_get. rewrite Hh, Hh'. cbn [mbind res_bind].
  unfold l. cbn [kslist_walk kslist_find sfirst kslist_init scount]. rewrite !kslist_match_empty.
  rewrite Z.eqb_refl. destruct (Z.eqb_spec h h'); [done|]. split_and!; reflexivity.
Qed.

Lemma kslist_second_name_faults_witness :
  let l := mk_kslist 0 [mk_kslist_entry 3901128412 (replicate 32 0) 1] in
  kslist_set (replicate 32 0) kslist_init (bytes "elf" ++ 0 :: []) (Some 1) = Ok (l, false) /\
  kslist_get l (bytes "elf" ++ 0 :: []) = Ok (Some 1) /\
  kslist_get l (bytes "sh" ++ 0 :: []) = Ok None /\
  kslist_set (replicate 32 0) l (bytes "sh" ++ 0 :: []) (Some 2) = Fault.
Proof.
  apply (kslist_second_name_faults (bytes "elf") (bytes "sh") [] [] 1 2 3901128412 3472883775).
  - decided.
  - decided.
  - vm_compute. reflexivity.
  - vm_compute. reflexivity.
  - done.
Defined.
