(* ===== verification/Bitmap.v ===== *)
(** * Allocation bitmaps

    The frame allocator (mem/frame.c) and the heap pools (mem/pool.c) both keep an array of
    [uint32_t] words with one bit per unit and look for a run of clear bits from the low end.
    This file has the bit level of both: reading and changing one bit, the units as a list of
    booleans, and the first-fit scan with its reference description. *)
From S2P Require Import Prelude.

(** ** One bit of a word array *)

Definition WORD_BITS : Z := 32.

(** [bitmap[i / 32] & (1UL << (i % 32))] *)
Definition bm_test (bm : list Z) (i : Z) : res bool :=
  w ← load bm (i / WORD_BITS);
  Ok (negb (Z.land w (Z.shiftl 1 (i mod WORD_BITS)) =? 0)).

(** [bitmap[i / 32] |= 1UL << (i % 32)] *)
Definition bm_set (bm : list Z) (i : Z) : res (list Z) :=
  w ← load bm (i / WORD_BITS);
  store bm (i / WORD_BITS) (Z.lor w (Z.shiftl 1 (i mod WORD_BITS))).

(** [bitmap[i / 32] &= ~(1UL << (i % 32))] *)
Definition bm_clear (bm : list Z) (i : Z) : res (list Z) :=
  w ← load bm (i / WORD_BITS);
  store bm (i / WORD_BITS) (Z.land w (Z.lnot (Z.shiftl 1 (i mod WORD_BITS)))).

(** The units as booleans. *)
Definition bit (bm : list Z) (i : Z) : bool :=
  Z.testbit (default 0 (bm !! Z.to_nat (i / WORD_BITS))) (i mod WORD_BITS).

Definition bits (bm : list Z) (n : Z) : list bool := bit bm <$> seqZ 0 n.

Lemma zlen_bits bm n : 0 <= n -> zlen (bits bm n) = n.
Proof. intros. unfold bits, zlen. rewrite length_fmap, length_seqZ. lia. Qed.

Lemma bits_lookup bm n i : 0 <= i < n -> bits bm n !! Z.to_nat i = Some (bit bm i).
Proof.
  intros Hi. unfold bits. rewrite list_lookup_fmap, lookup_seqZ_lt by lia. simpl. do 2 f_equal. lia.
Qed.

Lemma land_bit w j : 0 <= j -> negb (Z.land w (Z.shiftl 1 j) =? 0) = Z.testbit w j.
Proof.
  intros Hj. rewrite Z.shiftl_1_l.
  destruct (Z.testbit w j) eqn:E; destruct (Z.eqb_spec (Z.land w (2 ^ j)) 0) as [H|H]; simpl; try done.
  - assert (Z.testbit (Z.land w (2 ^ j)) j = false) as Hb by (rewrite H; apply Z.bits_0).
    rewrite Z.land_spec, E, Z.pow2_bits_true in Hb by done. done.
  - exfalso. apply H. apply Z.bits_inj'. intros k Hk. rewrite Z.land_spec, Z.bits_0.
    destruct (decide (k = j)) as [->|Hne]; [by rewrite E|].
    rewrite Z.pow2_bits_false by done. apply andb_false_r.
Qed.

(** The array has a word for every one of the first [n] units. *)
Definition covers (bm : list Z) (n : Z) : Prop := n <= WORD_BITS * zlen bm.

Lemma covers_word bm n i : covers bm n -> 0 <= i < n ->
  0 <= i / WORD_BITS < zlen bm /\ 0 <= i mod WORD_BITS < 32.
Proof.
  unfold covers, WORD_BITS. intros Hc Hi. pose proof (Z.mod_pos_bound i 32).
  pose proof (Z.div_mod i 32 ltac:(lia)). split; [|lia]. split; [apply Z.div_pos; lia|].
  apply Z.div_lt_upper_bound; lia.
Qed.

Lemma bm_test_ok bm n i : covers bm n -> 0 <= i < n -> bm_test bm i = Ok (bit bm i).
Proof.
  intros Hc Hi. destruct (covers_word bm n i Hc Hi) as [Hw Hj]. unfold bm_test, bit.
  destruct (lookup_zlen _ _ Hw) as [w E]. rewrite (load_nat _ _ _ (proj1 Hw) E), E.
  cbn [mbind res_bind default]. by rewrite land_bit by lia.
Qed.

Lemma bit_word_update bm i w w' b : bm !! Z.to_nat (i / WORD_BITS) = Some w -> 0 <= i ->
  (forall j, 0 <= j < 32 -> Z.testbit w' j = if decide (j = i mod WORD_BITS) then b else Z.testbit w j) ->
  forall j, 0 <= j ->
    bit (<[Z.to_nat (i / WORD_BITS) := w']> bm) j = if decide (j = i) then b else bit bm j.
Proof.
  unfold bit, WORD_BITS. intros E Hi Hw j Hj. pose proof (lookup_lt_Some _ _ _ E) as Hlt.
  pose proof (Z.mod_pos_bound j 32 ltac:(lia)). pose proof (Z.mod_pos_bound i 32 ltac:(lia)).
  pose proof (Z.div_mod j 32 ltac:(lia)). pose proof (Z.div_mod i 32 ltac:(lia)).
  pose proof (Z.div_pos i 32 Hi ltac:(lia)). pose proof (Z.div_pos j 32 Hj ltac:(lia)).
  destruct (decide (j / 32 = i / 32)) as [Heq|Hne].
  - rewrite Heq, list_lookup_insert_eq by done. cbn [default]. rewrite Hw by lia. rewrite E.
    repeat case_decide; try done; exfalso; lia.
  - rewrite list_lookup_insert_ne by lia. case_decide; [subst; lia|done].
Qed.

Lemma bm_set_ok bm n i : covers bm n -> 0 <= i < n ->
  exists bm', bm_set bm i = Ok bm' /\ zlen bm' = zlen bm /\
    forall j, 0 <= j -> bit bm' j = if decide (j = i) then true else bit bm j.
Proof.
  intros Hc Hi. destruct (covers_word bm n i Hc Hi) as [Hw Hj]. unfold bm_set.
  destruct (lookup_zlen _ _ Hw) as [w E]. rewrite (load_nat _ _ _ (proj1 Hw) E). cbn [mbind res_bind].
  rewrite store_in_range by done. eexists. split; [reflexivity|]. split; [apply zlen_insert|].
  apply (bit_word_update _ _ w); [done|lia|]. intros j Hj'.
  rewrite Z.lor_spec, Z.shiftl_1_l. case_decide as Heq.
  - subst. rewrite Z.pow2_bits_true by lia. apply orb_true_r.
  - rewrite Z.pow2_bits_false by done. apply orb_false_r.
Qed.

Lemma bm_clear_ok bm n i : covers bm n -> 0 <= i < n ->
  exists bm', bm_clear bm i = Ok bm' /\ zlen bm' = zlen bm /\
    forall j, 0 <= j -> bit bm' j = if decide (j = i) then false else bit bm j.
Proof.
  intros Hc Hi. destruct (covers_word bm n i Hc Hi) as [Hw Hj]. unfold bm_clear.
  destruct (lookup_zlen _ _ Hw) as [w E]. rewrite (load_nat _ _ _ (proj1 Hw) E). cbn [mbind res_bind].
  rewrite store_in_range by done. eexists. split; [reflexivity|]. split; [apply zlen_insert|].
  apply (bit_word_update _ _ w); [done|lia|]. intros j Hj'.
  rewrite Z.land_spec, Z.lnot_spec, Z.shiftl_1_l by lia. case_decide as Heq.
  - subst. rewrite Z.pow2_bits_true by lia. apply andb_false_r.
  - rewrite Z.pow2_bits_false by done. apply andb_true_r.
Qed.

(** A one-bit change seen on the list of booleans. *)
Lemma bits_update bm bm' n i b : 0 <= i < n ->
  (forall j, 0 <= j -> bit bm' j = if decide (j = i) then b else bit bm j) ->
  bits bm' n = <[Z.to_nat i := b]> (bits bm n).
Proof.
  intros Hi Hb. apply list_eq. intros k.
  destruct (decide (k < Z.to_nat n)%nat) as [Hk|Hk].
  - replace k with (Z.to_nat (Z.of_nat k)) by lia. rewrite bits_lookup, Hb by lia.
    case_decide as Heq.
    + rewrite Heq, list_lookup_insert_eq; [done|]. unfold bits. rewrite length_fmap, length_seqZ. lia.
    + rewrite list_lookup_insert_ne by lia. by rewrite bits_lookup by lia.
  - rewrite !lookup_ge_None_2; [done| |]; unfold bits; rewrite ?length_insert, length_fmap, length_seqZ; lia.
Qed.

(** ** The first-fit scan: [start] and [combo] as both loops keep them, [-1] for no start *)
Fixpoint scan (l : list bool) (i start combo amount : Z) : option Z :=
  match l with
  | [] => None
  | true :: l' => scan l' (i + 1) (-1) 0 amount
  | false :: l' =>
      let start' := if start =? -1 then i else start in
      if combo + 1 =? amount then Some start' else scan l' (i + 1) start' (combo + 1) amount
  end.

(** Units [s .. s + n - 1] exist and are free. *)
Definition free_run (l : list bool) (s n : Z) : Prop :=
  0 <= s /\ forall i, s <= i < s + n -> l !! Z.to_nat i = Some false.

(** The lowest such place. *)
Definition first_fit (l : list bool) (n s : Z) : Prop :=
  free_run l s n /\ forall s', s' < s -> ~ free_run l s' n.

Lemma free_run_app l k s n : free_run l s n -> free_run (l ++ k) s n.
Proof. intros [H0 H]. split; [done|]. intros i Hi. apply lookup_app_l_Some. by apply H. Qed.

Lemma free_run_prefix l k s n : s + n <= zlen l -> free_run (l ++ k) s n -> free_run l s n.
Proof.
  intros Hl [H0 H]. split; [done|]. intros i Hi. specialize (H i Hi).
  rewrite lookup_app_l in H; [done|]. unfold zlen in Hl. lia.
Qed.

Lemma free_run_bound l s n : 0 < n -> free_run l s n -> s + n <= zlen l.
Proof.
  intros Hn [H0 H]. specialize (H (s + n - 1) ltac:(lia)). apply lookup_lt_Some in H. unfold zlen. lia.
Qed.

Lemma scan_ok amount : 0 < amount -> forall l pre start combo,
  0 <= combo < amount -> combo <= zlen pre ->
  free_run pre (zlen pre - combo) combo ->
  (combo < zlen pre -> pre !! Z.to_nat (zlen pre - combo - 1) = Some true) ->
  (forall s, ~ free_run pre s amount) ->
  start = (if combo =? 0 then -1 else zlen pre - combo) ->
  match scan l (zlen pre) start combo amount with
  | Some s => first_fit (pre ++ l) amount s
  | None => forall s, ~ free_run (pre ++ l) s amount
  end.
Proof.
  intros Ha. induction l as [|b l IH]; intros pre start combo Hc Hcl Hrun Hstop Hno Hst; cbn [scan].
  { by rewrite app_nil_r. }
  assert (zlen pre + 1 = zlen (pre ++ [b])) as Hlen by (rewrite zlen_app; unfold zlen; simpl; lia).
  assert (forall s, free_run (pre ++ b :: l) s amount -> s < zlen pre - combo -> False) as Hbefore.
  { intros s Hs Hlt. destruct (decide (s + amount <= zlen pre)) as [Hin|Hout].
    - by eapply Hno, free_run_prefix.
    - pose proof (zlen_nonneg pre). destruct Hs as [Hs0 Hs]. specialize (Hs (zlen pre - combo - 1) ltac:(lia)).
      rewrite lookup_app_l in Hs by (unfold zlen in *; lia). rewrite Hstop in Hs by lia. done. }
  replace (pre ++ b :: l) with ((pre ++ [b]) ++ l) in * by (by rewrite <- app_assoc).
  rewrite Hlen. pose proof (zlen_nonneg pre). destruct b.
  - apply IH; try lia.
    + split; [lia|]. intros i Hi. lia.
    + intros _. rewrite <- Hlen. replace (Z.to_nat (zlen pre + 1 - 0 - 1)) with (length pre) by (unfold zlen; lia).
      by apply list_lookup_middle.
    + intros s Hs. destruct (decide (s + amount <= zlen pre)) as [Hin|Hout]; [by eapply Hno, free_run_prefix|].
      pose proof (free_run_bound _ _ _ Ha Hs). destruct Hs as [_ Hs]. specialize (Hs (zlen pre) ltac:(lia)).
      unfold zlen in Hs. rewrite Nat2Z.id, list_lookup_middle in Hs by done. done.
    + done.
  - assert ((if start =? -1 then zlen pre else start) = zlen pre - combo) as ->.
    { subst start. destruct (Z.eqb_spec combo 0) as [->|]; [rewrite Z.eqb_refl; lia|].
      destruct (Z.eqb_spec (zlen pre - combo) (-1)); lia. }
    assert (free_run (pre ++ [false]) (zlen pre - combo) (combo + 1)) as Hrun'.
    { split; [lia|]. intros i Hi. destruct (decide (i = zlen pre)) as [->|].
      - unfold zlen. rewrite Nat2Z.id. by apply list_lookup_middle.
      - apply lookup_app_l_Some. apply Hrun. lia. }
    destruct (Z.eqb_spec (combo + 1) amount) as [Hd|Hd].
    + split; [apply free_run_app; by rewrite <- Hd|]. intros s' Hlt Hs. by apply (Hbefore s').
    + apply IH; try lia.
      * rewrite <- Hlen. by replace (zlen pre + 1 - (combo + 1)) with (zlen pre - combo) by lia.
      * intros Hlt. rewrite <- Hlen. replace (zlen pre + 1 - (combo + 1) - 1) with (zlen pre - combo - 1) by lia.
        apply lookup_app_l_Some, Hstop. lia.
      * intros s Hs. pose proof (free_run_bound _ _ _ Ha Hs). apply (Hbefore s); [by apply free_run_app|lia].
      * destruct (Z.eqb_spec (combo + 1) 0); lia.
Qed.

(** Both loops start with nothing found. *)
Lemma scan_first_fit l amount : 0 < amount ->
  match scan l 0 (-1) 0 amount with
  | Some s => first_fit l amount s
  | None => forall s, ~ free_run l s amount
  end.
Proof.
  intros Ha. apply (scan_ok amount Ha l [] (-1) 0); try (done || lia).
  - split; [done|]. intros i Hi. lia.
  - intros s [H0 H]. specialize (H s ltac:(lia)). done.
Qed.

(** ** Marking a run *)
Fixpoint fill (l : list bool) (s : Z) (n : nat) (b : bool) : list bool :=
  match n with
  | O => l
  | S n' => fill (<[Z.to_nat s := b]> l) (s + 1) n' b
  end.

Lemma length_fill l s n b : length (fill l s n b) = length l.
Proof. revert l s. induction n as [|n IH]; intros l s; cbn [fill]; [done|]. by rewrite IH, length_insert. Qed.

Lemma fill_lookup n : forall l s b i, 0 <= s -> 0 <= i < zlen l ->
  fill l s n b !! Z.to_nat i = if decide (s <= i < s + Z.of_nat n) then Some b else l !! Z.to_nat i.
Proof.
  induction n as [|n IH]; intros l s b i Hs Hi; cbn [fill].
  - case_decide; [lia|done].
  - rewrite IH by (rewrite ?zlen_insert; lia). unfold zlen in Hi.
    destruct (decide (i = s)) as [->|Hne].
    + rewrite list_lookup_insert_eq by lia. repeat case_decide; done || lia.
    + rewrite list_lookup_insert_ne by lia. repeat case_decide; done || lia.
Qed.

Lemma fill_restore l s n : free_run l s (Z.of_nat n) -> fill (fill l s n true) s n false = l.
Proof.
  intros Hf. pose proof Hf as [H0 Hr]. apply list_eq. intros k.
  destruct (decide (k < length l)%nat) as [Hk|Hk].
  - replace k with (Z.to_nat (Z.of_nat k)) by lia.
    rewrite !fill_lookup by (unfold zlen; rewrite ?length_fill; lia).
    case_decide as Hd; [|done]. by rewrite Hr.
  - rewrite !lookup_ge_None_2; [done| |]; rewrite ?length_fill; lia.
Qed.

(** ** Counting *)
Fixpoint count_set (l : list bool) : Z :=
  match l with [] => 0 | b :: l' => (if b then 1 else 0) + count_set l' end.

Lemma count_set_app l k : count_set (l ++ k) = count_set l + count_set k.
Proof. induction l as [|b l IH]; simpl; [done|]. rewrite IH. lia. Qed.

Lemma count_set_bound l : 0 <= count_set l <= zlen l.
Proof. induction l as [|b l IH]; [done|]. rewrite zlen_cons. simpl. destruct b; lia. Qed.

Lemma count_set_insert l i (b x : bool) : l !! i = Some x ->
  count_set (<[i := b]> l) = count_set l + (if b then 1 else 0) - (if x then 1 else 0).
Proof.
  revert i. induction l as [|y l IH]; intros [|i] E; simpl in *; simplify_eq; [lia|].
  rewrite (IH i E). lia.
Qed.

Lemma count_set_fill n : forall l s b, 0 <= s ->
  (forall i, s <= i < s + Z.of_nat n -> l !! Z.to_nat i = Some (negb b)) ->
  count_set (fill l s n b) = count_set l + (if b then Z.of_nat n else - Z.of_nat n).
Proof.
  induction n as [|n IH]; intros l s b Hs Hl; cbn [fill].
  - destruct b; lia.
  - rewrite IH; [| lia |].
    + rewrite (count_set_insert _ _ _ (negb b)) by (apply Hl; lia). destruct b; simpl; lia.
    + intros i Hi. rewrite list_lookup_insert_ne by lia. apply Hl. lia.
Qed.
