(* ===== verification/Frame.v ===== *)
(** * Physical frames: mem/frame.c

    The chain of [memfr_alloc_piece_t] is the list of pieces in [next] order, the bitmap of a
    piece its array of [uint32_t] words.  The "false alloc" and "false unalloc" messages are
    not part of the state.  [fr_spinlock] brackets each of [kfalloc], [kffree] and [kfcalloc],
    so one call is one step. *)
From S2P Require Import Prelude Bitmap.

Definition FRAME_SIZE : Z := 4096.

Record piece := mk_piece { pstart : Z; usable : Z; pbitmap : list Z }.

Record frames := mk_frames { pieces : list piece; frames_used : Z; frames_possible : Z }.

Definition set_piece (st : frames) (k : nat) (p : piece) (used : Z) : frames :=
  mk_frames (<[k := p]> (pieces st)) used (frames_possible st).

(** The loop every operation starts with: the piece that holds frame [id], its place in the
    chain and the index inside it. *)
Fixpoint frame_walk (ps : list piece) (k : nat) (id possible : Z) (msg : string) : res (nat * piece * Z) :=
  match ps with
  | [] => Panic msg
  | p :: next =>
      if id <? usable p then Ok (k, p, id)
      else
        let id' := u32 (id - usable p) in
        match next with
        | [] => Panic msg
        | _ => if id' >? possible then Panic msg else frame_walk next (S k) id' possible msg
        end
  end.

Definition memfr_alloc_internal (st : frames) (id : Z) : res (frames * Z) :=
  '(k, p, i) ← frame_walk (pieces st) 0 id (frames_possible st) "Failed to allocate a memory frame";
  b ← bm_test (pbitmap p) i;
  let used := if (b : bool) then frames_used st else u64 (frames_used st + 1) in
  bm ← bm_set (pbitmap p) i;
  Ok (set_piece st k (mk_piece (pstart p) (usable p) bm) used, u64 (pstart p + u32 (i * FRAME_SIZE))).

Definition kfalloc (st : frames) (id : Z) : res (frames * Z) := memfr_alloc_internal st id.

Definition kffree (st : frames) (id : Z) : res frames :=
  '(k, p, i) ← frame_walk (pieces st) 0 id (frames_possible st) "Failed to unallocate a memory frame";
  b ← bm_test (pbitmap p) i;
  let used := if (b : bool) then u64 (frames_used st - 1) else frames_used st in
  bm ← bm_clear (pbitmap p) i;
  Ok (set_piece st k (mk_piece (pstart p) (usable p) bm) used).

Definition kfamount (st : frames) : Z := frames_possible st.
Definition kfused (st : frames) : Z := frames_used st.

Definition kfisfree (st : frames) (id : Z) : res bool :=
  '(_, p, i) ← frame_walk (pieces st) 0 id (frames_possible st) "Failed to unallocate a memory frame";
  b ← bm_test (pbitmap p) i;
  Ok (negb b).

Definition kfpaddrof (st : frames) (id : Z) : res Z :=
  '(_, p, i) ← frame_walk (pieces st) 0 id (frames_possible st) "Failed to get pointer to a memory frame";
  Ok (u64 (pstart p + u32 (i * FRAME_SIZE))).

(** [usable * MEM_FRAME_SIZE] is a product of [uint32_t]s. *)
Fixpoint kfindexof_loop (ps : list piece) (addr : Z) : res Z :=
  match ps with
  | [] => Panic "kfindexof() fail"
  | p :: next =>
      if (pstart p <=? addr) && (u64 (pstart p + u32 (usable p * FRAME_SIZE)) >? addr)
      then Ok (u32 (u64 (addr - pstart p) / FRAME_SIZE))
      else kfindexof_loop next addr
  end.

Definition kfindexof (st : frames) (addr : Z) : res Z := kfindexof_loop (pieces st) addr.

Definition NO_START : Z := 2 ^ 32 - 1.

(** The search loop of [kfcalloc]. *)
Fixpoint kfcalloc_loop (fuel : nat) (st : frames) (i start_id combo amount : Z) : res (option Z) :=
  if i <? frames_possible st then
    match fuel with
    | O => OutOfFuel
    | S f =>
        start_id ← (if start_id =? NO_START
                    then b ← kfisfree st i; Ok (if (b : bool) then i else start_id)
                    else Ok start_id);
        b ← kfisfree st i;
        if negb b then kfcalloc_loop f st (u32 (i + 1)) NO_START 0 amount
        else if u32 (combo + 1) =? amount then Ok (Some start_id)
        else kfcalloc_loop f st (u32 (i + 1)) start_id (u32 (combo + 1)) amount
    end
  else Ok None.

(** [for (i = 0; i < amount; i++) memfr_alloc_internal(start_id + i);] *)
Fixpoint alloc_run (st : frames) (id : Z) (n : nat) : res frames :=
  match n with
  | O => Ok st
  | S n' => '(st', _) ← memfr_alloc_internal st (u32 id); alloc_run st' (id + 1) n'
  end.

Definition kfcalloc (st : frames) (amount : Z) : res (frames * Z) :=
  if amount =? 0 then Ok (st, 0)
  else
    r ← kfcalloc_loop (Z.to_nat (frames_possible st)) st 0 NO_START 0 amount;
    match r with
    | Some start_id => st' ← alloc_run st start_id (Z.to_nat amount); Ok (st', start_id)
    | None => Panic "Failed to allocate contiguous frames"
    end.

(** ** The frames as one list of booleans *)

Definition flat_pieces (ps : list piece) : list bool := ps ≫= (fun p => bits (pbitmap p) (usable p)).
Definition flat (st : frames) : list bool := flat_pieces (pieces st).

Definition piece_ok (p : piece) : Prop := 0 <= usable p /\ covers (pbitmap p) (usable p).

(** The count of used frames is the number of set bits, and the chain holds the frames the
    allocator thinks it has. *)
Definition frames_ok (st : frames) : Prop :=
  Forall piece_ok (pieces st) /\ zlen (flat st) < NO_START /\
  frames_possible st = zlen (flat st) /\ frames_used st = count_set (flat st).

Lemma flat_pieces_cons p ps : flat_pieces (p :: ps) = bits (pbitmap p) (usable p) ++ flat_pieces ps.
Proof. reflexivity. Qed.

Lemma flat_pieces_app ps qs : flat_pieces (ps ++ qs) = flat_pieces ps ++ flat_pieces qs.
Proof. apply bind_app. Qed.

Lemma frame_walk_ok possible msg ps : Forall piece_ok ps -> forall k id,
  0 <= id < zlen (flat_pieces ps) -> zlen (flat_pieces ps) < 2 ^ 32 -> zlen (flat_pieces ps) <= possible ->
  exists j p i, frame_walk ps k id possible msg = Ok ((k + j)%nat, p, i) /\ ps !! j = Some p /\
    piece_ok p /\ 0 <= i < usable p /\ id = zlen (flat_pieces (take j ps)) + i.
Proof.
  induction 1 as [|p ps [Hu Hc] Hps IH]; intros k id Hid Hlen Hpos.
  { unfold flat_pieces, zlen in Hid. simpl in Hid. lia. }
  rewrite flat_pieces_cons, zlen_app, zlen_bits in * by done. cbn [frame_walk].
  destruct (Z.ltb_spec id (usable p)).
  - exists 0%nat, p, id. rewrite Nat.add_0_r. split_and!; try done; lia.
  - pose proof (zlen_nonneg (flat_pieces ps)). rewrite u32_small by lia. rewrite Z.gtb_ltb.
    destruct ps as [|q ps]; [unfold flat_pieces, zlen in *; simpl in *; lia|].
    destruct (Z.ltb_spec possible (id - usable p)); [lia|].
    destruct (IH (S k) (id - usable p)) as (j & q' & i & Heq & Hj & Hok & Hi & Hsum); [lia..|].
    exists (S j), q', i. rewrite Heq. split_and!; try done; try lia; [do 3 f_equal; lia|].
    cbn [take]. rewrite flat_pieces_cons, zlen_app, zlen_bits by done. lia.
Qed.

Lemma frame_walk_msg possible msg msg' ps : forall k id r,
  frame_walk ps k id possible msg = Ok r -> frame_walk ps k id possible msg' = Ok r.
Proof.
  induction ps as [|p ps IH]; intros k id r; cbn [frame_walk]; [done|].
  destruct (id <? usable p); [done|]. destruct ps as [|q ps]; [done|].
  destruct (_ >? possible); [done|]. apply IH.
Qed.

Lemma frame_walk_out possible msg ps : Forall piece_ok ps -> forall k id,
  zlen (flat_pieces ps) <= id < 2 ^ 32 -> frame_walk ps k id possible msg = Panic msg.
Proof.
  induction 1 as [|p ps [Hu Hc] Hps IH]; intros k id Hid; cbn [frame_walk]; [done|].
  rewrite flat_pieces_cons, zlen_app, zlen_bits in Hid by done. pose proof (zlen_nonneg (flat_pieces ps)).
  destruct (Z.ltb_spec id (usable p)); [lia|]. destruct ps as [|q ps]; [done|].
  rewrite u32_small by lia. destruct (id - usable p >? possible); [done|]. apply IH. lia.
Qed.

(** A change of one bit in piece [j] is the change of one frame of the whole. *)
Lemma flat_set_piece ps j p p' i b : ps !! j = Some p -> usable p' = usable p -> 0 <= i < usable p ->
  (forall x, 0 <= x -> bit (pbitmap p') x = if decide (x = i) then b else bit (pbitmap p) x) ->
  flat_pieces (<[j := p']> ps)
  = <[Z.to_nat (zlen (flat_pieces (take j ps)) + i) := b]> (flat_pieces ps).
Proof.
  intros Hj Hu Hi Hb. pose proof (lookup_lt_Some _ _ _ Hj).
  rewrite insert_take_drop by done. rewrite <- (take_drop_middle ps j p Hj) at 4.
  rewrite !flat_pieces_app, !flat_pieces_cons, Hu, (bits_update _ _ _ i b Hi Hb).
  pose proof (zlen_nonneg (flat_pieces (take j ps))).
  rewrite insert_app_r_alt by (unfold zlen; lia). f_equal.
  rewrite insert_app_l by (pose proof (zlen_bits (pbitmap p) (usable p) ltac:(lia)); unfold zlen in *; lia).
  do 2 f_equal. unfold zlen. lia.
Qed.

Lemma flat_lookup ps j p i : ps !! j = Some p -> 0 <= i < usable p ->
  flat_pieces ps !! Z.to_nat (zlen (flat_pieces (take j ps)) + i) = Some (bit (pbitmap p) i).
Proof.
  intros Hj Hi. rewrite <- (take_drop_middle ps j p Hj) at 2.
  rewrite flat_pieces_app, flat_pieces_cons.
  rewrite lookup_app_r by (unfold zlen; lia).
  rewrite lookup_app_l by (pose proof (zlen_bits (pbitmap p) (usable p) ltac:(lia)); unfold zlen in *; lia).
  rewrite <- (bits_lookup _ (usable p)) by done. f_equal. unfold zlen. lia.
Qed.

Section Ops.
Context (st : frames) (Hok : frames_ok st).

Lemma locate id msg : 0 <= id < zlen (flat st) ->
  exists j p i, frame_walk (pieces st) 0 id (frames_possible st) msg = Ok (j, p, i) /\
    pieces st !! j = Some p /\ piece_ok p /\ 0 <= i < usable p /\
    id = zlen (flat_pieces (take j (pieces st))) + i.
Proof.
  intros Hid. destruct Hok as (Hps & Hl & Hp & _).
  apply (frame_walk_ok (frames_possible st) msg _ Hps 0 id); unfold NO_START, flat in *; lia.
Qed.

Lemma kfisfree_ok id : 0 <= id < zlen (flat st) ->
  exists b, flat st !! Z.to_nat id = Some b /\ kfisfree st id = Ok (negb b).
Proof.
  intros Hid. unfold kfisfree.
  destruct (locate id "Failed to unallocate a memory frame" Hid) as (j & p & i & -> & Hj & [Hu Hc] & Hi & ->).
  cbn [mbind res_bind]. rewrite (bm_test_ok _ _ _ Hc Hi). eexists. split; [by apply flat_lookup|done].
Qed.

Lemma set_piece_ok j p p' i b used : pieces st !! j = Some p -> piece_ok p ->
  usable p' = usable p -> zlen (pbitmap p') = zlen (pbitmap p) -> 0 <= i < usable p ->
  (forall x, 0 <= x -> bit (pbitmap p') x = if decide (x = i) then b else bit (pbitmap p) x) ->
  used = count_set (flat (set_piece st j p' used)) ->
  frames_ok (set_piece st j p' used) /\
  flat (set_piece st j p' used)
  = <[Z.to_nat (zlen (flat_pieces (take j (pieces st))) + i) := b]> (flat st).
Proof.
  intros Hj [Hu0 Hc] Hu Hbm Hi Hb Hcnt. destruct Hok as (Hps & Hl & Hp & Hus).
  assert (flat (set_piece st j p' used)
    = <[Z.to_nat (zlen (flat_pieces (take j (pieces st))) + i) := b]> (flat st)) as Hfl
    by (by apply (flat_set_piece _ _ p)).
  split; [|done]. unfold frames_ok. rewrite Hfl, zlen_insert. split_and!; [|done|done|].
  - simpl. apply Forall_insert; [done|]. split; [lia|]. unfold covers in *. by rewrite Hbm, Hu.
  - simpl. rewrite <- Hfl. done.
Qed.

Lemma used_bound : 0 <= frames_used st < 2 ^ 32.
Proof.
  destruct Hok as (_ & Hl & _ & ->). pose proof (count_set_bound (flat st)). unfold NO_START in *. lia.
Qed.

(** One frame allocated, with its address. *)
Lemma alloc_one id : 0 <= id < zlen (flat st) ->
  exists st' addr, memfr_alloc_internal st id = Ok (st', addr) /\ frames_ok st' /\
    flat st' = <[Z.to_nat id := true]> (flat st) /\ kfpaddrof st id = Ok addr.
Proof.
  intros Hid. unfold memfr_alloc_internal, kfpaddrof.
  destruct (locate id "Failed to allocate a memory frame" Hid) as (j & p & i & Hw & Hj & Hpk & Hi & Heq).
  rewrite Hw, (frame_walk_msg _ _ _ _ _ _ _ Hw). cbn [mbind res_bind]. pose proof Hpk as [Hu Hc].
  rewrite (bm_test_ok _ _ _ Hc Hi). destruct (bm_set_ok _ _ _ Hc Hi) as (bm & -> & Hlen & Hb).
  cbn [mbind res_bind]. eexists _, _. split; [reflexivity|]. rewrite Heq.
  edestruct (set_piece_ok j p (mk_piece (pstart p) (usable p) bm) i true) as [Hok' Hfl]; try done.
  cbn [pbitmap usable]. unfold flat, set_piece. cbn [pieces].
  rewrite (flat_set_piece _ _ p _ i true Hj) by done.
  rewrite (count_set_insert _ _ _ _ (flat_lookup _ _ _ _ Hj Hi)).
  pose proof used_bound. destruct Hok as (_ & _ & _ & Hus). unfold flat in Hus.
  destruct (bit (pbitmap p) i); [lia|]. rewrite u64_small by lia. lia.
Qed.

(** One frame given back. *)
Lemma free_one id : 0 <= id < zlen (flat st) ->
  exists st', kffree st id = Ok st' /\ frames_ok st' /\ flat st' = <[Z.to_nat id := false]> (flat st).
Proof.
  intros Hid. unfold kffree.
  destruct (locate id "Failed to unallocate a memory frame" Hid) as (j & p & i & -> & Hj & Hpk & Hi & Heq).
  cbn [mbind res_bind]. pose proof Hpk as [Hu Hc].
  rewrite (bm_test_ok _ _ _ Hc Hi). destruct (bm_clear_ok _ _ _ Hc Hi) as (bm & -> & Hlen & Hb).
  cbn [mbind res_bind]. eexists. split; [reflexivity|]. rewrite Heq.
  edestruct (set_piece_ok j p (mk_piece (pstart p) (usable p) bm) i false) as [Hok' Hfl]; try done.
  cbn [pbitmap usable]. unfold flat, set_piece. cbn [pieces].
  rewrite (flat_set_piece _ _ p _ i false Hj) by done.
  pose proof (count_set_insert _ _ false _ (flat_lookup _ _ _ _ Hj Hi)) as Hcs. rewrite Hcs.
  pose proof used_bound. destruct Hok as (_ & _ & _ & Hus). unfold flat in Hus.
  pose proof (count_set_bound (<[Z.to_nat (zlen (flat_pieces (take j (pieces st))) + i):=false]> (flat_pieces (pieces st)))).
  destruct (bit (pbitmap p) i); [|lia]. rewrite u64_small by lia. lia.
Qed.

Lemma kfcalloc_loop_ok amount : 0 < amount < 2 ^ 32 -> forall fuel i start combo,
  0 <= i <= zlen (flat st) -> zlen (flat st) - i <= Z.of_nat fuel -> 0 <= combo < amount ->
  (start = NO_START \/ 0 <= start < NO_START) ->
  kfcalloc_loop fuel st i start combo amount
  = Ok (scan (drop (Z.to_nat i) (flat st)) i (if start =? NO_START then -1 else start) combo amount).
Proof.
  intros Ha. destruct Hok as (_ & Hl & Hp & _).
  induction fuel as [|f IH]; intros i start combo Hi Hf Hc Hs; cbn [kfcalloc_loop]; rewrite Hp.
  { destruct (Z.ltb_spec i (zlen (flat st))); [lia|]. by rewrite drop_ge by (unfold zlen in *; lia). }
  destruct (Z.ltb_spec i (zlen (flat st))); [|by rewrite drop_ge by (unfold zlen in *; lia)].
  destruct (kfisfree_ok i ltac:(lia)) as (b & Hb & ->). cbn [mbind res_bind].
  rewrite (drop_S _ _ _ Hb). cbn [scan]. unfold NO_START in *.
  assert ((if start =? 2 ^ 32 - 1 then Ok (if negb b then i else start) else Ok start)
          = Ok (if start =? 2 ^ 32 - 1 then if negb b then i else start else start)) as ->
    by (by destruct (start =? 2 ^ 32 - 1)).
  cbn [mbind res_bind]. rewrite (u32_small (i + 1)) by lia.
  replace (drop (S (Z.to_nat i)) (flat st)) with (drop (Z.to_nat (i + 1)) (flat st)) by (f_equal; lia).
  destruct b; cbn [negb].
  - rewrite IH by lia. done.
  - rewrite u32_small by lia.
    assert ((if (if start =? 2 ^ 32 - 1 then -1 else start) =? -1 then i
             else if start =? 2 ^ 32 - 1 then -1 else start) = if start =? 2 ^ 32 - 1 then i else start) as ->.
    { destruct (Z.eqb_spec start (2 ^ 32 - 1)); [done|]. destruct (Z.eqb_spec start (-1)); [lia|done]. }
    destruct (Z.eqb_spec (combo + 1) amount); [done|].
    rewrite IH; [|lia|lia|lia|destruct (Z.eqb_spec start (2 ^ 32 - 1)); lia].
    do 2 f_equal. destruct (Z.eqb_spec start (2 ^ 32 - 1)); [destruct (Z.eqb_spec i (2 ^ 32 - 1)); [lia|done]|].
    destruct (Z.eqb_spec start (2 ^ 32 - 1)); [lia|done].
Qed.
End Ops.

Lemma alloc_run_ok n : forall st id, frames_ok st -> 0 <= id -> id + Z.of_nat n <= zlen (flat st) ->
  exists st', alloc_run st id n = Ok st' /\ frames_ok st' /\ flat st' = fill (flat st) id n true.
Proof.
  induction n as [|n IH]; intros st id Hok Hid Hn; cbn [alloc_run fill]; [by exists st|].
  pose proof Hok as (_ & Hl & _). unfold NO_START in Hl. rewrite u32_small by lia.
  destruct (alloc_one st Hok id ltac:(lia)) as (st1 & a & -> & Hok1 & Hfl & _). cbn [mbind res_bind].
  rewrite <- Hfl. apply IH; [done|lia|]. rewrite Hfl, zlen_insert. lia.
Qed.

(** The caller's loop that gives a run back, [kffree(id + i)]. *)
Fixpoint free_frames (st : frames) (id : Z) (n : nat) : res frames :=
  match n with
  | O => Ok st
  | S n' => st' ← kffree st id; free_frames st' (id + 1) n'
  end.

Lemma free_frames_ok n : forall st id, frames_ok st -> 0 <= id -> id + Z.of_nat n <= zlen (flat st) ->
  exists st', free_frames st id n = Ok st' /\ frames_ok st' /\ flat st' = fill (flat st) id n false.
Proof.
  induction n as [|n IH]; intros st id Hok Hid Hn; cbn [free_frames fill]; [by exists st|].
  destruct (free_one st Hok id ltac:(lia)) as (st1 & -> & Hok1 & Hfl). cbn [mbind res_bind].
  rewrite <- Hfl. apply IH; [done|lia|]. rewrite Hfl, zlen_insert. lia.
Qed.

Lemma kfcalloc_cases st amount : frames_ok st -> 0 < amount < 2 ^ 32 ->
  (exists st' s, kfcalloc st amount = Ok (st', s) /\ first_fit (flat st) amount s /\ frames_ok st' /\
     flat st' = fill (flat st) s (Z.to_nat amount) true) \/
  (kfcalloc st amount = Panic "Failed to allocate contiguous frames" /\
     forall s, ~ free_run (flat st) s amount).
Proof.
  intros Hok Ha. unfold kfcalloc. destruct (Z.eqb_spec amount 0); [lia|].
  pose proof Hok as (_ & Hl & Hp & Hus). pose proof (zlen_nonneg (flat st)).
  rewrite (kfcalloc_loop_ok st Hok amount Ha) by lia.
  cbn [mbind res_bind]. rewrite Z.eqb_refl, Z2Nat.inj_0, drop_0.
  pose proof (scan_first_fit (flat st) amount ltac:(lia)) as Hff.
  destruct (scan (flat st) 0 (-1) 0 amount) as [s|]; [left|by right].
  pose proof Hff as [Hrun _]. pose proof (free_run_bound (flat st) s amount ltac:(lia) Hrun).
  destruct (alloc_run_ok (Z.to_nat amount) st s Hok ltac:(destruct Hrun; lia) ltac:(lia)) as (st' & -> & Hok' & Hfl).
  by exists st', s.
Qed.

Lemma fill_used st st' s n : frames_ok st -> frames_ok st' -> free_run (flat st) s (Z.of_nat n) ->
  flat st' = fill (flat st) s n true -> frames_used st' = frames_used st + Z.of_nat n.
Proof.
  intros (_ & _ & _ & ->) (_ & _ & _ & ->) [Hs Hr] ->. apply count_set_fill; [done|]. intros i Hi. by apply Hr.
Qed.

(** ** The promises of the allocator *)

(** C9: [kfcalloc] is first fit: it returns the lowest run of [amount] free frames, marks
    exactly that run, adds [amount] to the used count and keeps the count equal to the number
    of set bits; it panics exactly when no run of that length is free, and neither faults nor
    runs on. *)
Theorem kfcalloc_first_fit (st : frames) (amount : Z) :
  frames_ok st -> 0 < amount < 2 ^ 32 ->
  match kfcalloc st amount with
  | Ok (st', s) =>
      first_fit (flat st) amount s /\ flat st' = fill (flat st) s (Z.to_nat amount) true /\
      frames_used st' = frames_used st + amount /\ frames_ok st'
  | Panic _ => forall s, ~ free_run (flat st) s amount
  | Fault | OutOfFuel => False
  end.
Proof.
  intros Hok Ha. destruct (kfcalloc_cases st amount Hok Ha) as [(st' & s & -> & Hff & Hok' & Hfl)|[-> Hno]]; [|done].
  split_and!; try done. rewrite (fill_used st st' s (Z.to_nat amount)); [lia|done|done| |done].
  rewrite Z2Nat.id by lia. apply Hff.
Qed.

Definition boot_frames : frames :=
  mk_frames [mk_piece 1048576 40 [7; 0]; mk_piece 8388608 8 [1]] 4 48.

Lemma boot_frames_ok : frames_ok boot_frames.
Proof.
  unfold frames_ok, piece_ok, covers, WORD_BITS, NO_START.
  split_and!; [repeat constructor; vm_compute; done|vm_compute; done..].
Qed.

Lemma kfcalloc_first_fit_witness :
  match kfcalloc boot_frames 4 with
  | Ok (st', s) =>
      first_fit (flat boot_frames) 4 s /\ flat st' = fill (flat boot_frames) s (Z.to_nat 4) true /\
      frames_used st' = frames_used boot_frames + 4 /\ frames_ok st'
  | Panic _ => forall s, ~ free_run (flat boot_frames) s 4
  | Fault | OutOfFuel => False
  end.
Proof. apply (kfcalloc_first_fit boot_frames 4 boot_frames_ok). lia. Defined.

(** Giving back what [kfcalloc] returned, frame by frame, restores the allocator: the same
    frames are free as before and the used count is the same. *)
Theorem kfcalloc_kffree_restore (st st' : frames) (amount s : Z) :
  frames_ok st -> 0 < amount < 2 ^ 32 -> kfcalloc st amount = Ok (st', s) ->
  exists st'', free_frames st' s (Z.to_nat amount) = Ok st'' /\
    flat st'' = flat st /\ kfused st'' = kfused st /\ frames_ok st''.
Proof.
  intros Hok Ha Hc.
  destruct (kfcalloc_cases st amount Hok Ha) as [(st1 & s1 & Heq & Hff & Hok1 & Hfl)|[Heq _]];
    rewrite Heq in Hc; simplify_eq.
  pose proof Hff as [Hrun _]. pose proof (free_run_bound (flat st) s amount ltac:(lia) Hrun).
  destruct (free_frames_ok (Z.to_nat amount) st' s Hok1) as (st2 & -> & Hok2 & Hfl2);
    [destruct Hrun; lia|rewrite Hfl; unfold zlen in *; rewrite length_fill; lia|].
  exists st2. rewrite Hfl, fill_restore in Hfl2 by (by rewrite Z2Nat.id by lia).
  pose proof Hok as (_ & _ & _ & Hus). pose proof Hok2 as (_ & _ & _ & Hus2). unfold kfused.
  by rewrite Hus, Hus2, Hfl2.
Qed.

Lemma kfcalloc_kffree_restore_witness :
  let st' := mk_frames [mk_piece 1048576 40 [4294967295; 255]; mk_piece 8388608 8 [1]] 41 48 in
  exists st'', free_frames st' 3 (Z.to_nat 37) = Ok st'' /\
    flat st'' = flat boot_frames /\ kfused st'' = kfused boot_frames /\ frames_ok st''.
Proof.
  intros st'. apply (kfcalloc_kffree_restore boot_frames st' 37 3 boot_frames_ok); [lia|].
  vm_compute. reflexivity.
Defined.

(** A single frame: [kfalloc] and [kffree] of an existing frame set and clear exactly that
    frame and keep the used count equal to the number of set bits, also when the frame was
    already in the wanted state; a frame beyond the last one panics. *)
Theorem kfalloc_kffree_exact (st : frames) (id : Z) :
  frames_ok st -> 0 <= id < 2 ^ 32 ->
  if decide (id < zlen (flat st)) then
    (exists st' addr, kfalloc st id = Ok (st', addr) /\ kfpaddrof st id = Ok addr /\ frames_ok st' /\
       flat st' = <[Z.to_nat id := true]> (flat st)) /\
    (exists st', kffree st id = Ok st' /\ frames_ok st' /\ flat st' = <[Z.to_nat id := false]> (flat st))
  else
    kfalloc st id = Panic "Failed to allocate a memory frame" /\
    kffree st id = Panic "Failed to unallocate a memory frame".
Proof.
  intros Hok Hid. case_decide as Hlt.
  - split; [|apply (free_one st Hok); lia].
    destruct (alloc_one st Hok id ltac:(lia)) as (st' & a & ? & ? & ? & ?). by exists st', a.
  - pose proof Hok as (Hps & _ & _ & _). unfold kfalloc, memfr_alloc_internal, kffree, flat in *.
    rewrite !frame_walk_out by (done || lia). done.
Qed.

Lemma kfalloc_kffree_exact_witness :
  exists st' addr, kfalloc boot_frames 45 = Ok (st', addr) /\ kfpaddrof boot_frames 45 = Ok addr /\
    frames_ok st' /\ flat st' = <[Z.to_nat 45 := true]> (flat boot_frames).
Proof.
  assert (45 < zlen (flat boot_frames)) as Hlt by (vm_compute; done).
  pose proof (kfalloc_kffree_exact boot_frames 45 boot_frames_ok ltac:(lia)) as H.
  rewrite decide_True in H by exact Hlt. apply H.
Defined.

(** ** Addresses *)

(** Pieces below 4 GB long, at addresses that do not overlap. *)
Definition layout_ok (st : frames) : Prop :=
  Forall (fun p => 0 <= pstart p /\ usable p * FRAME_SIZE < 2 ^ 32 /\
                   pstart p + usable p * FRAME_SIZE < 2 ^ 64) (pieces st) /\
  forall j j' p p', pieces st !! j = Some p -> pieces st !! j' = Some p' -> j <> j' ->
    pstart p + usable p * FRAME_SIZE <= pstart p' \/ pstart p' + usable p' * FRAME_SIZE <= pstart p.

Definition in_piece (p : piece) (addr : Z) : Prop :=
  pstart p <= addr < pstart p + usable p * FRAME_SIZE.

Lemma kfindexof_loop_ok ps : Forall (fun p => 0 <= usable p /\ 0 <= pstart p /\
    usable p * FRAME_SIZE < 2 ^ 32 /\ pstart p + usable p * FRAME_SIZE < 2 ^ 64) ps ->
  forall j p addr, ps !! j = Some p -> in_piece p addr ->
  (forall j' p', (j' < j)%nat -> ps !! j' = Some p' -> ~ in_piece p' addr) ->
  kfindexof_loop ps addr = Ok ((addr - pstart p) / FRAME_SIZE).
Proof.
  unfold in_piece, FRAME_SIZE. induction 1 as [|q ps (Hu & Hs & Hm & Hb) _ IH]; intros j p addr Hj Hin Hno; [done|].
  cbn [kfindexof_loop]. unfold FRAME_SIZE. rewrite Z.gtb_ltb.
  rewrite (u32_small (usable q * 4096)), (u64_small (pstart q + usable q * 4096)) by lia. destruct j as [|j].
  - simpl in Hj. simplify_eq. destruct (Z.leb_spec (pstart p) addr); [|lia].
    destruct (Z.ltb_spec addr (pstart p + usable p * 4096)); [|lia]. cbn [andb]. rewrite u64_small by lia.
    rewrite u32_small; [done|]. split; [apply Z.div_pos; lia|apply Z.div_lt_upper_bound; lia].
  - specialize (Hno 0%nat q ltac:(lia) eq_refl) as Hq.
    destruct (Z.leb_spec (pstart q) addr), (Z.ltb_spec addr (pstart q + usable q * 4096)); cbn [andb]; try lia;
      (eapply (IH j); [done|done|]; intros j' p' Hlt Hj'; by apply (Hno (S j') p' ltac:(lia))).
Qed.

(** *** Addresses stay put: allocation changes bitmaps only *)

Definition shape (st : frames) : list (Z * Z) := (fun p => (pstart p, usable p)) <$> pieces st.

Lemma frame_walk_lookup possible msg ps : forall k id j p i,
  frame_walk ps k id possible msg = Ok (j, p, i) -> exists n, j = (k + n)%nat /\ ps !! n = Some p.
Proof.
  induction ps as [|q ps IH]; intros k id j p i; cbn [frame_walk]; [done|].
  destruct (id <? usable q). { intros [= <- <- <-]. exists 0%nat. split; [lia|done]. }
  destruct ps as [|r ps]; [done|]. destruct (_ >? _); [done|]. intros Hw. destruct (IH _ _ _ _ _ Hw) as (n & -> & Hn).
  exists (S n). split; [lia|done].
Qed.

Lemma alloc_shape st id st' a : memfr_alloc_internal st id = Ok (st', a) ->
  shape st' = shape st /\ frames_possible st' = frames_possible st.
Proof.
  unfold memfr_alloc_internal. intros H. apply bind_Ok in H as ([[j p] i] & Hw & H).
  destruct (frame_walk_lookup _ _ _ _ _ _ _ _ Hw) as (n & -> & Hn). res_inv. split; [|done].
  unfold shape, set_piece. cbn [pieces Nat.add]. rewrite list_fmap_insert. apply list_insert_id. by rewrite list_lookup_fmap, Hn.
Qed.

Lemma alloc_run_shape n : forall st id st', alloc_run st id n = Ok st' ->
  shape st' = shape st /\ frames_possible st' = frames_possible st.
Proof.
  induction n as [|n IH]; intros st id st'; cbn [alloc_run]; intros H; [by simplify_eq|].
  apply bind_Ok in H as ([st1 a] & Ha & H). destruct (IH _ _ _ H) as [-> ->]. by eapply alloc_shape.
Qed.

Lemma kfcalloc_shape st amount st' s : kfcalloc st amount = Ok (st', s) ->
  shape st' = shape st /\ frames_possible st' = frames_possible st.
Proof.
  unfold kfcalloc. destruct (amount =? 0); [by intros [= <- _]|]. intros H. apply bind_Ok in H as ([x|] & _ & H); [|done].
  apply bind_Ok in H as (st1 & Ha & [= <- _]). by eapply alloc_run_shape.
Qed.

Lemma frame_walk_shape possible msg ps : forall ps' k id,
  (fun p => (pstart p, usable p)) <$> ps = (fun p => (pstart p, usable p)) <$> ps' ->
  match frame_walk ps k id possible msg, frame_walk ps' k id possible msg with
  | Ok (_, p, i), Ok (_, p', i') => pstart p = pstart p' /\ i = i'
  | Panic m, Panic m' => m = m'
  | _, _ => False
  end.
Proof.
  induction ps as [|p ps IH]; intros [|p' ps'] k id E; try done. injection E as E1 E2 E3. cbn [frame_walk]. rewrite E2.
  destruct (id <? usable p'); [done|]. specialize (IH ps' (S k) (u32 (id - usable p')) E3).
  destruct ps, ps'; try done. by destruct (_ >? _).
Qed.

Lemma kfpaddrof_shape st st' id : shape st' = shape st -> frames_possible st' = frames_possible st -> kfpaddrof st' id = kfpaddrof st id.
Proof.
  intros Es Ep. unfold kfpaddrof. rewrite Ep. pose proof (frame_walk_shape (frames_possible st)
    "Failed to get pointer to a memory frame" (pieces st') (pieces st) 0 id Es) as Hw.
  destruct (frame_walk (pieces st') _ _ _ _) as [[[? p] i]|m| |], (frame_walk (pieces st) _ _ _ _) as [[[? p'] i']|m'| |]; try done;
    cbn [mbind res_bind]; [by destruct Hw as [-> ->]|by rewrite Hw].
Qed.

Lemma kfpaddrof_ok st id : frames_ok st -> layout_ok st -> 0 <= id < zlen (flat st) ->
  exists j p i, pieces st !! j = Some p /\ 0 <= i < usable p /\ id = zlen (flat_pieces (take j (pieces st))) + i /\
    kfpaddrof st id = Ok (pstart p + i * FRAME_SIZE) /\ 0 <= pstart p + i * FRAME_SIZE < 2 ^ 64.
Proof.
  intros Hok [Hlay _] Hid.
  destruct (locate st Hok id "Failed to get pointer to a memory frame" Hid) as (j & p & i & Hw & Hj & [Hu Hc] & Hi & Heq).
  pose proof (Forall_lookup_1 _ _ _ _ Hlay Hj) as (Hp0 & Hm & Hb). exists j, p, i. unfold kfpaddrof. rewrite Hw. cbn [mbind res_bind].
  unfold FRAME_SIZE in *. rewrite u32_small, u64_small by lia. split_and!; done || lia.
Qed.

(** Different frames have different addresses. *)
Lemma kfpaddrof_inj st id id' a : frames_ok st -> layout_ok st -> 0 <= id < zlen (flat st) -> 0 <= id' < zlen (flat st) ->
  kfpaddrof st id = Ok a -> kfpaddrof st id' = Ok a -> id = id'.
Proof.
  intros Hok Hlay Hid Hid' Ha Ha'. destruct (kfpaddrof_ok st id Hok Hlay Hid) as (j & p & i & Hj & Hi & -> & E & _).
  destruct (kfpaddrof_ok st id' Hok Hlay Hid') as (j' & p' & i' & Hj' & Hi' & -> & E' & _).
  rewrite E in Ha. rewrite E' in Ha'. injection Ha as Ha. injection Ha' as Ha'. unfold FRAME_SIZE in *.
  destruct (decide (j = j')) as [->|Hne]; [rewrite Hj in Hj'; injection Hj' as ->; lia|].
  destruct Hlay as [_ Hdis]. destruct (Hdis j j' p p' Hj Hj' Hne); unfold FRAME_SIZE in *; lia.
Qed.

(** The address of a frame maps back to the frame only in the first piece of the chain:
    [kfindexof] leaves out the frames of the pieces before the one it found, while [kffree]
    and [kfpaddrof] count from the first frame of the chain. *)
Theorem kfindexof_relative (st : frames) (id : Z) :
  frames_ok st -> layout_ok st -> 0 <= id < zlen (flat st) ->
  exists j addr, kfpaddrof st id = Ok addr /\
    zlen (flat_pieces (take j (pieces st))) <= id < zlen (flat_pieces (take (S j) (pieces st))) /\
    kfindexof st addr = Ok (id - zlen (flat_pieces (take j (pieces st)))).
Proof.
  intros Hok [Hlay Hdis] Hid.
  destruct (locate st Hok id "Failed to get pointer to a memory frame" Hid) as (j & p & i & Hw & Hj & [Hu Hc] & Hi & Heq).
  pose proof (Forall_lookup_1 _ _ _ _ Hlay Hj) as (Hp0 & Hm & Hb).
  assert (in_piece p (pstart p + i * FRAME_SIZE)) as Hin by (unfold in_piece, FRAME_SIZE in *; lia).
  exists j, (pstart p + i * FRAME_SIZE). split_and!.
  - unfold kfpaddrof. rewrite Hw. cbn [mbind res_bind]. unfold FRAME_SIZE in *.
    by rewrite u32_small, u64_small by lia.
  - lia.
  - rewrite (take_S_r _ _ _ Hj), flat_pieces_app, zlen_app, flat_pieces_cons, zlen_app, zlen_bits by done.
    pose proof (zlen_nonneg (flat_pieces [])). lia.
  - unfold kfindexof. rewrite (kfindexof_loop_ok _) with (j := j) (p := p); [|..|done|done|].
    + do 2 f_equal. rewrite Z.add_simpl_l, Z.div_mul by done. lia.
    + apply Forall_lookup_2. intros k q Hk. pose proof (Forall_lookup_1 _ _ _ _ Hlay Hk) as (? & ? & ?).
      pose proof (Forall_lookup_1 _ _ _ _ (proj1 Hok) Hk) as [? _]. done.
    + intros j' p' Hlt Hj' Hin'. unfold in_piece in *. destruct (Hdis j j' p p' Hj Hj' ltac:(lia)); lia.
Qed.

(** Frame 45 is frame 5 of the second piece, and that is what [kfindexof] answers. *)
Lemma kfindexof_relative_witness :
  (exists j addr, kfpaddrof boot_frames 45 = Ok addr /\
    zlen (flat_pieces (take j (pieces boot_frames))) <= 45 < zlen (flat_pieces (take (S j) (pieces boot_frames))) /\
    kfindexof boot_frames addr = Ok (45 - zlen (flat_pieces (take j (pieces boot_frames))))) /\
  (kfpaddrof boot_frames 45 ≫= kfindexof boot_frames) = Ok 5.
Proof.
  split; [|vm_compute; reflexivity].
  apply (kfindexof_relative boot_frames 45 boot_frames_ok); [|vm_compute; done].
  split; [repeat constructor; vm_compute; done|].
  intros [|[|j]] [|[|j']] p p' Hj Hj' Hne; try done; vm_compute in Hj, Hj'; simplify_eq; vm_compute;
    ((left; done) || (right; done)).
Defined.
