(* ===== verification/Setup.v ===== *)
(** * Memory set-up: mem_init_multiboot of mem/mem.c

    The memory map of the boot loader becomes the pieces of Frame.v.  The map is the list of its
    entries, found by their sizes.  A piece behind the first lies in a frame of its own, behind a
    header of 24 bytes: its bitmap is what that frame holds ([junk], by its address) and the
    cleared frames that follow it in memory.  The messages are left out, and so is the mapping of
    the pieces at the end, with the initialisation of the pages and of the heap, which are
    Paging.v's and Pool.v's. *)
From S2P Require Import Prelude Bitmap Frame.

Definition MULTIBOOT_MEMORY_AVAILABLE : Z := 1.

(** [multiboot_memory_map_t] *)
Record mmap_entry := mk_mmap_entry { mm_addr : Z; mm_len : Z; mm_type : Z }.

(** The words of [memfr_alloc_piece_root_t]'s bitmap, and its bits. *)
Definition ROOT_WORDS : Z := 1018.
Definition ROOT_FRAMES : Z := ROOT_WORDS * 4 * 8.

(** [head] is the address of the last piece and [pages] the frames it has so far. *)
Record setup := mk_setup { fr : frames; frame_current : Z; frame_last : Z; mem_total_size : Z; frame_pieces_amount : Z; head : Z; pages : Z }.

Definition set_fr (s : setup) x := mk_setup x (frame_current s) (frame_last s) (mem_total_size s) (frame_pieces_amount s) (head s) (pages s).
Definition set_current (s : setup) x := mk_setup (fr s) x (frame_last s) (mem_total_size s) (frame_pieces_amount s) (head s) (pages s).
Definition set_frame_last (s : setup) x := mk_setup (fr s) (frame_current s) x (mem_total_size s) (frame_pieces_amount s) (head s) (pages s).
Definition set_total (s : setup) x := mk_setup (fr s) (frame_current s) (frame_last s) x (frame_pieces_amount s) (head s) (pages s).

Definition with_pieces (f : frames) x := mk_frames x (frames_used f) (frames_possible f).

(** A change of the piece the loop is at. *)
Definition on_last (f : frames) (g : piece -> piece) : frames := with_pieces f (alter g (pred (length (pieces f))) (pieces f)).

(** ** The frames of the kernel *)

Fixpoint system_frames (fuel : nat) (i end_ : Z) : res Z :=
  if i <? end_ then
    match fuel with
    | O => OutOfFuel
    | S f => n ← system_frames f (u32 (i + FRAME_SIZE)) end_; Ok (u32 (n + 1))
    end
  else Ok 0.

Section Setup.
Context (junk : Z -> list Z) (sys : Z).

(** ** The pieces *)

(** [kfalloc(system_frame_amount + frame_pieces_amount++)] *)
Definition take_reserved (s : setup) : res (setup * Z) :=
  '(f, ptr) ← kfalloc (fr s) (u32 (sys + frame_pieces_amount s));
  Ok (mk_setup f (frame_current s) (frame_last s) (mem_total_size s) (u32 (frame_pieces_amount s + 1)) (head s) (pages s), ptr).

(** A cleared frame belongs to the bitmap if it comes next in memory. *)
Definition extend (s : setup) (ptr : Z) : setup :=
  if ptr =? head s + FRAME_SIZE * pages s then
    mk_setup (on_last (fr s) (fun p => mk_piece (pstart p) (usable p) (pbitmap p ++ replicate (Z.to_nat (FRAME_SIZE / 4)) 0)))
      (frame_current s) (frame_last s) (mem_total_size s) (frame_pieces_amount s) (head s) (pages s + 1)
  else s.

Fixpoint extend_loop (n : nat) (s : setup) : res setup :=
  match n with
  | O => Ok s
  | S n => '(s, ptr) ← take_reserved s; extend_loop n (extend s ptr)
  end.

(** The frames of the bitmap behind the first, when the piece has its size. *)
Definition close_piece (s : setup) : res setup :=
  p ← res_of_option (last (pieces (fr s)));
  extend_loop (Z.to_nat ((usable p / 8 + (FRAME_SIZE - 1)) / FRAME_SIZE - 1)) s.

Definition at_root (s : setup) : bool := bool_decide (length (pieces (fr s)) = 1%nat).

Definition new_piece (s : setup) : res setup :=
  s ← (if at_root s then Ok s else close_piece s);
  '(s, ptr) ← take_reserved s;
  Ok (mk_setup (with_pieces (fr s) (pieces (fr s) ++ [mk_piece (frame_current s) 0 (junk ptr)])) (frame_current s) (frame_last s) (mem_total_size s) (frame_pieces_amount s) ptr 1).

(** One round of the loop over the frames of an entry. *)
Definition frame_round (s : setup) : res setup :=
  p ← res_of_option (last (pieces (fr s)));
  let s := if pstart p =? 0 then set_frame_last (set_fr s (on_last (fr s) (fun p => mk_piece (frame_current s) (usable p) (pbitmap p)))) (frame_current s) else s in
  s ← (if at_root s && (usable p =? ROOT_FRAMES) then new_piece s
       else if frame_current s =? frame_last s then Ok (set_fr s (on_last (fr s) (fun p => mk_piece (pstart p) (u32 (usable p + 1)) (pbitmap p))))
       else new_piece s);
  let next := u64 (frame_current s + FRAME_SIZE) in
  let f := mk_frames (pieces (fr s)) (frames_used (fr s)) (u64 (frames_possible (fr s) + 1)) in
  Ok (set_frame_last (set_current (set_fr s f) next) next).

Fixpoint frames_loop (fuel : nat) (s : setup) (end_ : Z) : res setup :=
  if frame_current s <? end_ then
    match fuel with O => OutOfFuel | S f => s ← frame_round s; frames_loop f s end_ end
  else Ok s.

Fixpoint skip_loop (fuel : nat) (s : setup) (addr : Z) : res setup :=
  if frame_current s <? addr then
    match fuel with O => OutOfFuel | S f => skip_loop f (set_current s (u64 (frame_current s + FRAME_SIZE))) addr end
  else Ok s.

(** ** The memory map *)

(** [fuel] for either loop of an entry. *)
Definition entry_round (fuel : nat) (s : setup) (m : mmap_entry) : res setup :=
  if negb (mm_type m =? MULTIBOOT_MEMORY_AVAILABLE) || (mm_addr m <? 1048576) then Ok s
  else
    let s := if frame_current s =? 0 then set_current s (mm_addr m) else s in
    s ← skip_loop fuel s (mm_addr m);
    s ← frames_loop fuel s (u64 (mm_addr m + mm_len m));
    Ok (set_total s (u64 (mem_total_size s + mm_len m))).

Fixpoint map_loop (fuel : nat) (s : setup) (map : list mmap_entry) : res setup :=
  match map with
  | [] => Ok s
  | m :: map => s ← entry_round fuel s m; map_loop fuel s map
  end.

Definition no_frames : setup := mk_setup (mk_frames [mk_piece 0 0 (replicate (Z.to_nat ROOT_WORDS) 0)] 0 0) 0 0 0 0 0 0.

Definition build_frames (fuel : nat) (map : list mmap_entry) : res setup :=
  s ← map_loop fuel no_frames map;
  p ← res_of_option (last (pieces (fr s)));
  s ← (if (usable p >? 0) && negb (at_root s) then close_piece s else Ok s);
  '(f, _) ← kfcalloc (fr s) sys;
  Ok (set_fr s f).

(** ** The frames are available memory, each once *)

(** Where the pieces are and how large. *)
Definition spans (ps : list piece) : list (Z * Z) := (fun p => (pstart p, usable p)) <$> ps.

(** The addresses of the frames. *)
Definition piece_frames (x : Z * Z) : list Z := (fun i => x.1 + i * FRAME_SIZE) <$> seqZ 0 x.2.
Definition all_frames (l : list (Z * Z)) : list Z := l ≫= piece_frames.

Lemma alter_last {A} (l : list A) x g : alter g (pred (length (l ++ [x]))) (l ++ [x]) = l ++ [g x].
Proof. rewrite length_app, Nat.add_1_r. cbn [pred]. by rewrite alter_app_r_alt, Nat.sub_diag by lia. Qed.

Lemma spans_app l k : spans (l ++ k) = spans l ++ spans k.
Proof. apply fmap_app. Qed.

(** What the loops look at, without the bitmaps. *)
Record same_setup (s s' : setup) : Prop := {
  ss_shape : spans (pieces (fr s')) = spans (pieces (fr s));
  ss_possible : frames_possible (fr s') = frames_possible (fr s);
  ss_current : frame_current s' = frame_current s;
  ss_last : frame_last s' = frame_last s }.

Lemma same_setup_trans s1 s2 s3 : same_setup s1 s2 -> same_setup s2 s3 -> same_setup s1 s3.
Proof. intros [A B C D] [A' B' C' D']. split; congruence. Qed.

Lemma reserved_same s s' ptr : take_reserved s = Ok (s', ptr) -> same_setup s s'.
Proof. unfold take_reserved. intros E. apply bind_Ok in E as ([f a] & E & [= <- _]). apply alloc_shape in E as [E1 E2]. by split. Qed.

Lemma extend_same s ptr : same_setup s (extend s ptr).
Proof.
  unfold extend. destruct (_ =? _); [|done]. split; try done. cbn [fr on_last with_pieces pieces]. destruct (pieces (fr s)) as [|x l] using rev_ind; [done|].
  unfold on_last, with_pieces. cbn [pieces]. by rewrite alter_last, !spans_app.
Qed.

Lemma extend_loop_same n : forall s s', extend_loop n s = Ok s' -> same_setup s s'.
Proof.
  induction n as [|n IH]; intros s s' E; cbn [extend_loop] in E; [by injection E as <-|]. apply bind_Ok in E as ([s1 ptr] & E1 & E).
  eapply same_setup_trans; [by eapply reserved_same|]. eapply same_setup_trans; [apply (extend_same s1 ptr)|by apply IH].
Qed.

Lemma close_same s s' : close_piece s = Ok s' -> same_setup s s'.
Proof. unfold close_piece. intros E. apply bind_Ok in E as (p & _ & E). by eapply extend_loop_same. Qed.
(** *** Pieces in order of their addresses

    [sl] is 0 at the root and 1 behind it: the first frame of a later piece is counted for the
    machine and not for the piece, so that one more frame is passed than it has. *)
Section Laid.
Context (visited : Z -> Prop).

Fixpoint laid (lo sl : Z) (l : list (Z * Z)) (hi : Z) : Prop :=
  match l with
  | [] => lo = hi
  | (a, n) :: r => lo <= a /\ 0 <= n /\ (forall i, 0 <= i < n + sl -> visited (a + i * FRAME_SIZE)) /\ laid (a + (n + sl) * FRAME_SIZE) 1 r hi
  end.

Definition slack (sl : Z) (l : list (Z * Z)) : Z := match l with [] => sl | _ => 1 end.

Lemma laid_snoc l : forall lo sl a n hi, laid lo sl (l ++ [(a, n)]) hi <->
  exists m, laid lo sl l m /\ m <= a /\ 0 <= n /\ (forall i, 0 <= i < n + slack sl l -> visited (a + i * FRAME_SIZE)) /\ hi = a + (n + slack sl l) * FRAME_SIZE.
Proof.
  induction l as [|[b k] l IH]; intros lo sl a n hi.
  - cbn. split; [intros (H1 & H2 & H3 & <-); by exists lo|intros (m & <- & H1 & H2 & H3 & ->); done].
  - cbn [app laid slack]. rewrite IH. assert (slack 1 l = 1) as -> by (by destruct l). split.
    + intros (H1 & H2 & H3 & m & H4 & H). exists m. done.
    + intros (m & (H1 & H2 & H3 & H4) & H). split_and!; try done. by exists m.
Qed.

Definition total (l : list (Z * Z)) : Z := foldr (fun x t => x.2 + t) 0 l.

Lemma total_app l k : total (l ++ k) = total l + total k.
Proof. induction l as [|x l IH]; [done|]. cbn [app total foldr] in *. unfold total in *. lia. Qed.

Lemma laid_total l : forall lo sl hi, 0 <= sl -> laid lo sl l hi -> 0 <= total l /\ lo + FRAME_SIZE * (total l + match l with [] => 0 | _ => sl + (zlen l - 1) end) <= hi.
Proof.
  induction l as [|[a n] l IH]; intros lo sl hi Hsl H; [cbn in *; lia|]. destruct H as (H1 & H2 & _ & H4). apply IH in H4 as [Ht H4]; [|lia].
  unfold total in *. cbn [foldr snd]. unfold FRAME_SIZE in *. destruct l; rewrite ?zlen_cons, ?(@zlen_nil (Z * Z)) in *; cbn [foldr] in *; lia.
Qed.

(** Every frame is one of those passed, and no address comes twice. *)
Lemma laid_frames l : forall lo sl hi, 0 <= sl -> laid lo sl l hi -> Forall (fun x => visited x /\ lo <= x < hi) (all_frames l) /\ NoDup (all_frames l) /\ lo <= hi.
Proof.
  induction l as [|[a n] l IH]; intros lo sl hi Hsl H; [cbn in *; split_and!; [done|apply NoDup_nil_2|lia]|]. destruct H as (H1 & H2 & H3 & H4).
  destruct (IH _ 1 _ ltac:(lia) H4) as (Hf & Hd & Hle). unfold FRAME_SIZE in Hle. unfold all_frames in *. cbn [mbind list_bind].
  assert (forall x, x ∈ piece_frames (a, n) -> visited x /\ a <= x < a + n * FRAME_SIZE) as Hp.
  { intros x (i & -> & Hi)%list_elem_of_fmap. apply elem_of_seqZ in Hi. cbn [fst snd] in *. unfold FRAME_SIZE. split; [apply H3; lia|lia]. }
  unfold FRAME_SIZE in Hp. split_and!.
  - apply Forall_app. split; apply Forall_forall; intros x Hx; [apply Hp in Hx as [? ?]; split; [done|lia]|].
    pose proof (proj1 (Forall_forall _ _) Hf x Hx) as [? ?]. unfold FRAME_SIZE in *. split; [done|lia].
  - apply NoDup_app. split_and!; [|intros x Hx1 Hx2|done].
    + apply NoDup_fmap_2_strong; [|apply NoDup_seqZ]. intros i j _ _. unfold FRAME_SIZE. cbn. lia.
    + apply Hp in Hx1 as [_ Hx1]. pose proof (proj1 (Forall_forall _ _) Hf x Hx2) as [_ Hx3]. unfold FRAME_SIZE in *. lia.
  - lia.
Qed.

Lemma laid_length l : forall lo sl hi, laid lo sl l hi -> zlen (all_frames l) = total l.
Proof.
  induction l as [|[a n] l IH]; intros lo sl hi H; [done|]. destruct H as (_ & H2 & _ & H4). unfold all_frames. cbn [mbind list_bind total foldr snd]. rewrite zlen_app. fold (all_frames l). rewrite (IH _ _ _ H4).
  unfold piece_frames, zlen. cbn [snd fst]. rewrite length_fmap, length_seqZ. unfold total. lia.
Qed.

(** The state between two frames. *)
Record setup_inv (s : setup) : Prop := {
  si_some : exists l p, pieces (fr s) = l ++ [p];
  si_current : 0 <= frame_current s <= 2 ^ 43 + FRAME_SIZE /\ frame_last s <= frame_current s;
  si_count : frames_possible (fr s) = total (spans (pieces (fr s))) + (zlen (pieces (fr s)) - 1);
  si_laid : spans (pieces (fr s)) = [(0, 0)] \/ laid 1048576 0 (spans (pieces (fr s))) (frame_last s) }.

Lemma spans_length ps : zlen (spans ps) = zlen ps.
Proof. unfold zlen, spans. by rewrite length_fmap. Qed.

Lemma inv_same s s' : setup_inv s -> same_setup s s' -> setup_inv s'.
Proof.
  intros [(l & p & Hs) Hc Hn Hl] [E1 E2 E3 E4]. split.
  - destruct (pieces (fr s')) as [|x k _] using rev_ind; [rewrite Hs, spans_app in E1; by destruct (spans l)|by exists k, x].
  - by rewrite E3, E4.
  - by rewrite E2, E1, <- spans_length, E1, spans_length.
  - by rewrite E1, E4.
Qed.

(** A new piece that begins with the frame the loop is at. *)
Lemma new_piece_shape s s' : new_piece s = Ok s' ->
  exists l, pieces (fr s') = l ++ [mk_piece (frame_current s) 0 (junk (head s'))] /\ spans l = spans (pieces (fr s)) /\ frames_possible (fr s') = frames_possible (fr s) /\ frame_current s' = frame_current s.
Proof.
  intros E. unfold new_piece in E. apply bind_Ok in E as (s1 & E1 & E). apply bind_Ok in E as ([s2 ptr] & E2 & [= <-]).
  assert (same_setup s s1) as H1 by (destruct (at_root s); [by injection E1 as <-|by eapply close_same]). pose proof (same_setup_trans _ _ _ H1 (reserved_same _ _ _ E2)) as [A B C D].
  exists (pieces (fr s2)). cbn [fr pieces with_pieces head frame_current frames_possible]. by rewrite C.
Qed.

(** A round of the inner loop, at a frame that may be counted. *)
Lemma frame_round_inv s s' : setup_inv s -> visited (frame_current s) -> 1048576 <= frame_current s <= 2 ^ 43 -> frame_round s = Ok s' ->
  setup_inv s' /\ frame_current s' = frame_current s + FRAME_SIZE.
Proof.
  intros [(l & p & Hs) [Hc1 Hc2] Hn Hl] Hv Hc E. unfold frame_round in E. rewrite Hs, last_snoc in E. cbn [res_of_option mbind res_bind] in E.
  set (s1 := if pstart p =? 0 then _ else s) in E.
  assert (exists p1, pieces (fr s1) = l ++ [p1] /\ usable p1 = usable p /\ laid 1048576 0 (spans (l ++ [p1])) (frame_last s1) /\ frame_current s1 = frame_current s /\ frame_last s1 <= frame_current s1 /\
    frames_possible (fr s1) = frames_possible (fr s)) as (p1 & Hs1 & Hu1 & Hl1 & Hcur & Hle & Hfp).
  { unfold s1. rewrite Hs in Hl. destruct (Z.eqb_spec (pstart p) 0) as [E0|E0].
    - assert (spans (l ++ [p]) = [(0, 0)]) as Hf.
      { destruct Hl as [Hl|Hl]; [done|]. rewrite spans_app in Hl. cbn [spans fmap list_fmap] in Hl. apply laid_snoc in Hl as (m & H1 & H2 & _). rewrite E0 in H2.
        pose proof (laid_frames _ _ 0 _ ltac:(lia) H1) as (_ & _ & H3). lia. }
      destruct l as [|? [|? ?]]; [|done|done]. injection Hf as _ Hu. exists (mk_piece (frame_current s) (usable p) (pbitmap p)). cbn [set_frame_last set_fr fr on_last with_pieces pieces frame_last frame_current frames_possible]. rewrite Hs.
      split; [done|]. split; [done|]. split; [|split_and!; done || lia]. cbn. rewrite Hu. split_and!; lia.
    - exists p. split_and!; try done; try lia. destruct Hl as [Hl|Hl]; [|done]. rewrite spans_app in Hl. destruct l as [|? [|? ?]]; [|done|done]. by injection Hl as ? ?. }
  rewrite <- Hu1 in E. clearbody s1. apply bind_Ok in E as (s2 & E2 & [= <-]). cbn [frame_current set_frame_last set_current set_fr frame_last fr pieces frames_possible].
  pose proof (laid_total _ _ 0 _ ltac:(lia) Hl1) as [Ht0 Ht]. rewrite spans_length, zlen_app in Ht. change (zlen [p1]) with 1 in Ht. pose proof (zlen_nonneg l).
  assert (total (spans (l ++ [p1])) + zlen l < 2 ^ 32 /\ usable p1 < 2 ^ 32 - 1) as [Htb Hub].
  { destruct (spans (l ++ [p1])) as [|x r] eqn:Es; [destruct l; done|]. rewrite <- Es in *. unfold FRAME_SIZE in Ht. rewrite spans_app in Hl1. apply laid_snoc in Hl1 as (m & Hlm & _ & Hup & _).
    apply laid_total in Hlm as [Htl _]; [|lia]. rewrite spans_app, total_app in *. cbn [total spans fmap list_fmap foldr snd] in *. lia. }
  assert (frames_possible (fr s) = total (spans (l ++ [p1])) + zlen l) as Hcount.
  { rewrite Hn, Hs, !spans_app, !total_app, zlen_app. cbn [total spans fmap list_fmap foldr snd]. rewrite Hu1. change (zlen [p]) with 1. lia. }
  assert (exists l2 p2, pieces (fr s2) = l2 ++ [p2] /\ frame_current s2 = frame_current s /\ laid 1048576 0 (spans (pieces (fr s2))) (frame_current s + FRAME_SIZE) /\
    frames_possible (fr s2) + 1 = total (spans (pieces (fr s2))) + (zlen (pieces (fr s2)) - 1) /\ frames_possible (fr s2) = frames_possible (fr s)) as (l2 & p2 & Hs2 & Hc2' & Hl2 & Hn2 & Hfp2).
  { assert (new_piece s1 = Ok s2 -> exists l2 p2, pieces (fr s2) = l2 ++ [p2] /\ frame_current s2 = frame_current s /\ laid 1048576 0 (spans (pieces (fr s2))) (frame_current s + FRAME_SIZE) /\
      frames_possible (fr s2) + 1 = total (spans (pieces (fr s2))) + (zlen (pieces (fr s2)) - 1) /\ frames_possible (fr s2) = frames_possible (fr s)) as Hnew.
    { intros E. destruct (new_piece_shape _ _ E) as (l2 & A & B & C & D). exists l2, (mk_piece (frame_current s1) 0 (junk (head s2))). split; [done|]. split; [congruence|]. rewrite Hs1 in B. rewrite A, spans_app, B. split.
      - apply laid_snoc. exists (frame_last s1). cbn [pstart usable]. rewrite Hcur in *. assert (slack 0 (spans (l ++ [p1])) = 1) as -> by (rewrite spans_app; by destruct (spans l)).
        split_and!; [done|done|lia| |lia]. intros i Hi. assert (i = 0) as -> by lia. by rewrite Z.add_0_r.
      - split; [|congruence]. rewrite total_app, C, Hfp, Hcount, zlen_app. cbn [total foldr spans fmap list_fmap usable snd]. change (zlen [_]) with 1. assert (zlen l2 = zlen l + 1) as -> by (rewrite <- (spans_length l2), B, spans_length, zlen_app; done). lia. }
    destruct (at_root s1 && (usable p1 =? ROOT_FRAMES)); [by apply Hnew|]. destruct (Z.eqb_spec (frame_current s1) (frame_last s1)) as [Heq|]; [|by apply Hnew]. injection E2 as <-.
    cbn [set_fr fr on_last with_pieces pieces frame_current frames_possible]. unfold on_last. cbn [with_pieces pieces frames_possible]. rewrite Hs1, alter_last. exists l, (mk_piece (pstart p1) (u32 (usable p1 + 1)) (pbitmap p1)).
    rewrite spans_app in *. cbn [spans fmap list_fmap] in *. apply laid_snoc in Hl1 as (m & Hlm & Hlo & Hup & Hall & Hhi). cbn [pstart usable] in *. rewrite u32_small by lia. split_and!; [done|done| | |done].
    - apply laid_snoc. exists m. split_and!; [done|done|lia| |unfold FRAME_SIZE in *; lia]. intros i Hi. destruct (decide (i = usable p1 + slack 0 (spans l))) as [->|]; [|apply Hall; lia].
      unfold FRAME_SIZE in *. replace (pstart p1 + (usable p1 + slack 0 (spans l)) * 4096) with (frame_current s) by lia. done.
    - rewrite Hfp, Hcount, !total_app. cbn [total spans fmap list_fmap foldr snd]. rewrite !zlen_app. change (zlen [_]) with 1. lia. }
  rewrite Hc2'. rewrite (u64_small (frame_current s + FRAME_SIZE)) by (unfold FRAME_SIZE; lia). split; [|done]. split; cbn [frame_current set_frame_last set_current set_fr frame_last fr pieces frames_possible].
  - by exists l2, p2.
  - unfold FRAME_SIZE. lia.
  - rewrite u64_small by lia. lia.
  - by right.
Qed.

(** The loops over an entry.  [al] is that the entries begin with pages. *)
Context (al : Prop).
Definition in_step (s : setup) : Prop := al -> frame_current s mod FRAME_SIZE = 0.

Lemma step_aligned x : x mod FRAME_SIZE = 0 -> (x + FRAME_SIZE) mod FRAME_SIZE = 0.
Proof. intros H. unfold FRAME_SIZE in *. rewrite <- (Z.mul_1_l 4096) at 1. by rewrite Z.mod_add. Qed.

Lemma skip_loop_inv fuel addr : addr <= 2 ^ 43 -> forall s s', setup_inv s -> in_step s -> skip_loop fuel s addr = Ok s' -> setup_inv s' /\ in_step s' /\ addr <= frame_current s' /\ mem_total_size s' = mem_total_size s.
Proof.
  intros Ha. induction fuel as [|fuel IH]; intros s s' Hinv Hal E; cbn [skip_loop] in E; destruct (Z.ltb_spec (frame_current s) addr); try done; try by injection E as <-.
  pose proof Hinv as [Hs [Hc1 Hc2] Hn Hl]. rewrite u64_small in E by (unfold FRAME_SIZE in *; lia). apply IH in E; [done| |].
  - split; cbn [fr frame_current frame_last set_current]; [done|unfold FRAME_SIZE in *; lia|done|done].
  - intros H1. cbn [frame_current set_current]. by apply step_aligned, Hal.
Qed.

Lemma frames_loop_inv fuel end_ : end_ <= 2 ^ 43 -> forall s s', setup_inv s -> in_step s -> 1048576 <= frame_current s -> (forall x, frame_current s <= x < end_ -> (al -> x mod FRAME_SIZE = 0) -> visited x) ->
  frames_loop fuel s end_ = Ok s' -> setup_inv s' /\ in_step s'.
Proof.
  intros He. induction fuel as [|fuel IH]; intros s s' Hinv Hal Hlo Hv E; cbn [frames_loop] in E; destruct (Z.ltb_spec (frame_current s) end_); try done; try by injection E as <-.
  apply bind_Ok in E as (s1 & E1 & E). destruct (frame_round_inv s s1 Hinv) as [Hinv1 Hc]; [apply Hv; [lia|done]|lia|done|]. unfold FRAME_SIZE in Hc.
  apply IH in E; [done|done| |lia|intros x Hx; apply Hv; lia]. intros H1. rewrite Hc. by apply step_aligned, Hal.
Qed.

Definition fits (m : mmap_entry) : Prop := mm_type m = MULTIBOOT_MEMORY_AVAILABLE /\ 1048576 <= mm_addr m.

Lemma entry_round_inv fuel m s s' : (fits m -> 0 <= mm_len m /\ mm_addr m + mm_len m <= 2 ^ 43 /\ (al -> mm_addr m mod FRAME_SIZE = 0) /\ forall x, mm_addr m <= x < mm_addr m + mm_len m -> (al -> x mod FRAME_SIZE = 0) -> visited x) ->
  setup_inv s -> in_step s -> entry_round fuel s m = Ok s' -> setup_inv s' /\ in_step s'.
Proof.
  intros Hm Hinv Hal E. unfold entry_round in E. destruct (Z.eqb_spec (mm_type m) MULTIBOOT_MEMORY_AVAILABLE) as [Et|]; cbn [negb orb] in E; [|by injection E as <-].
  destruct (Z.ltb_spec (mm_addr m) 1048576); [by injection E as <-|]. destruct Hm as (Hlen & Hend & Ham & Hv); [by split|].
  set (s0 := if frame_current s =? 0 then _ else s) in E. assert (setup_inv s0 /\ in_step s0) as [Hinv0 Hal0].
  { unfold s0. destruct (Z.eqb_spec (frame_current s) 0) as [E0|]; [|done]. pose proof Hinv as [Hs [Hc1 Hc2] Hn Hl]. split; [|by intros H1; apply Ham]. split; cbn [fr frame_current frame_last set_current]; [done|unfold FRAME_SIZE; lia|done|done]. }
  clearbody s0. apply bind_Ok in E as (s1 & E1 & E). destruct (skip_loop_inv fuel (mm_addr m) ltac:(lia) s0 s1 Hinv0 Hal0 E1) as (Hinv1 & Hal1 & Hge & _).
  apply bind_Ok in E as (s2 & E2 & [= <-]). rewrite u64_small in E2 by lia. destruct (frames_loop_inv fuel _ Hend s1 s2 Hinv1 Hal1 ltac:(lia) ltac:(intros x Hx; apply Hv; lia) E2) as [[A B C D] Hal2].
  split; [by split|exact Hal2].
Qed.

Lemma map_loop_inv fuel map : (forall m, m ∈ map -> fits m -> 0 <= mm_len m /\ mm_addr m + mm_len m <= 2 ^ 43 /\ (al -> mm_addr m mod FRAME_SIZE = 0) /\ forall x, mm_addr m <= x < mm_addr m + mm_len m -> (al -> x mod FRAME_SIZE = 0) -> visited x) ->
  forall s s', setup_inv s -> in_step s -> map_loop fuel s map = Ok s' -> setup_inv s' /\ in_step s'.
Proof.
  induction map as [|m map IH]; intros Hm s s' Hinv Hal E; cbn [map_loop] in E; [by injection E as <-|]. apply bind_Ok in E as (s1 & E1 & E).
  destruct (entry_round_inv fuel m s s1 (Hm m ltac:(by left)) Hinv Hal E1) as [Hinv1 Hal1]. apply IH in E; [done| |done|done]. intros x Hx. apply Hm. by right.
Qed.
End Laid.

(** A frame the loops pass: it begins in an available entry above 1 MiB. *)
Definition passed (map : list mmap_entry) (x : Z) : Prop :=
  (exists m, m ∈ map /\ fits m /\ mm_addr m <= x < mm_addr m + mm_len m) /\ ((forall m, m ∈ map -> fits m -> mm_addr m mod FRAME_SIZE = 0) -> x mod FRAME_SIZE = 0).

(** The same before the frames of the kernel are counted. *)
Lemma build_frames_available fuel map s : (forall m, m ∈ map -> fits m -> 0 <= mm_len m /\ mm_addr m + mm_len m <= 2 ^ 43) -> build_frames fuel map = Ok s ->
  let frames := all_frames (spans (pieces (fr s))) in
  Forall (fun x => exists m, m ∈ map /\ fits m /\ mm_addr m <= x < mm_addr m + mm_len m) frames /\
  ((forall m, m ∈ map -> fits m -> mm_addr m mod FRAME_SIZE = 0 /\ (mm_addr m + mm_len m) mod FRAME_SIZE = 0) ->
    Forall (fun x => exists m, m ∈ map /\ fits m /\ mm_addr m <= x /\ x + FRAME_SIZE <= mm_addr m + mm_len m) frames) /\
  NoDup frames /\ frames_possible (fr s) = zlen frames + (zlen (pieces (fr s)) - 1).
Proof.
  intros Hm E. unfold build_frames in E. apply bind_Ok in E as (s1 & E1 & E).
  destruct (map_loop_inv (passed map) (forall m, m ∈ map -> fits m -> mm_addr m mod FRAME_SIZE = 0) fuel map) with (s := no_frames) (s' := s1) as [Hinv1 _]; [| | |done|].
  { intros m Hin Hf. destruct (Hm m Hin Hf). split_and!; [done|done|by intros H1; apply H1|]. intros x Hx Hal. split; [by exists m|done]. }
  { split; [by eexists [], _|cbn; unfold FRAME_SIZE; lia|done|by left]. }
  { intros _. done. }
  apply bind_Ok in E as (p & _ & E). apply bind_Ok in E as (s2 & E2 & E). apply bind_Ok in E as ([f a] & E3 & [= <-]). apply kfcalloc_shape in E3 as [Esh Efp]; change (spans (pieces f) = spans (pieces (fr s2))) in Esh.
  assert (setup_inv (passed map) s2) as Hinv2. { destruct (_ && _) in E2; [|by injection E2 as <-]. eapply inv_same; [exact Hinv1|by eapply close_same]. }
  cbn [fr set_fr]. rewrite Esh, Efp, <- (spans_length (pieces f)), Esh. clear Esh Efp. destruct Hinv2 as [_ _ Hn Hl].
  assert (Forall (passed map) (all_frames (spans (pieces (fr s2)))) /\ NoDup (all_frames (spans (pieces (fr s2)))) /\ zlen (all_frames (spans (pieces (fr s2)))) = total (spans (pieces (fr s2)))) as (Hp & Hd & Hz).
  { destruct Hl as [->|Hl]; [split_and!; [done|apply NoDup_nil_2|done]|]. destruct (laid_frames _ _ _ 0 _ ltac:(lia) Hl) as (Hf & Hd & _). split_and!; [|done|by eapply laid_length].
    eapply Forall_impl; [exact Hf|]. by intros x [Hx _]. }
  split_and!; [| |done|by rewrite Hn, Hz, spans_length].
  - eapply Forall_impl; [exact Hp|]. intros x [Hx _]. exact Hx.
  - intros Hal. eapply Forall_impl; [exact Hp|]. intros x [(m & Hin & Hf & Hx) Hx0]. exists m. split; [done|]. split; [done|]. split; [lia|]. specialize (Hx0 ltac:(intros; by apply Hal)). destruct (Hal m Hin Hf) as [_ He].
    unfold FRAME_SIZE in *. apply Z.mod_divide in Hx0 as [a0 ->]; [|done]. apply Z.mod_divide in He as [b0 He]; [|done]. lia.
Qed.

(** ** One stretch of memory *)

Definition counted (addr k total : Z) : setup :=
  mk_setup (mk_frames [mk_piece addr k (replicate (Z.to_nat ROOT_WORDS) 0)] 0 k) (addr + k * FRAME_SIZE) (addr + k * FRAME_SIZE) total 0 0 0.

Lemma counted_round addr k t : 1048576 <= addr -> addr + (k + 1) * FRAME_SIZE < 2 ^ 63 -> 0 <= k < ROOT_FRAMES -> frame_round (counted addr k t) = Ok (counted addr (k + 1) t).
Proof.
  intros Ha Hb Hk. unfold ROOT_FRAMES, ROOT_WORDS, FRAME_SIZE in *. unfold frame_round, counted. cbn [fr pieces last res_of_option mbind res_bind pstart].
  destruct (Z.eqb_spec addr 0); [lia|]. unfold at_root. cbn [fr pieces length]. rewrite bool_decide_eq_true_2 by done. cbn [andb usable]. destruct (Z.eqb_spec k ROOT_FRAMES); [unfold ROOT_FRAMES, ROOT_WORDS in *; lia|].
  cbn [frame_current frame_last]. rewrite Z.eqb_refl. cbn [mbind res_bind]. unfold set_fr, on_last, with_pieces. cbn [fr pieces length pred alter list_alter frames_used frames_possible frame_current frame_last pstart usable pbitmap mem_total_size frame_pieces_amount head pages].
  unfold set_frame_last, set_current. cbn [fr pieces frames_used frames_possible frame_current frame_last mem_total_size frame_pieces_amount head pages].
  rewrite u32_small, !u64_small by (unfold FRAME_SIZE; lia). unfold FRAME_SIZE. by replace (addr + k * 4096 + 4096) with (addr + (k + 1) * 4096) by lia.
Qed.

(** The first frame gives the root its address. *)
Lemma first_round addr t : 1048576 <= addr -> addr + FRAME_SIZE < 2 ^ 63 ->
  frame_round (mk_setup (fr no_frames) addr 0 t 0 0 0) = Ok (counted addr 1 t).
Proof.
  intros Ha Hb. pose proof (counted_round addr 0 t Ha ltac:(unfold FRAME_SIZE in *; lia) ltac:(unfold ROOT_FRAMES, ROOT_WORDS; lia)) as E. change (0 + 1) with 1 in E. rewrite <- E. clear E. unfold frame_round, counted. cbn [fr no_frames pieces last res_of_option mbind res_bind pstart].
  destruct (Z.eqb_spec addr 0); [lia|]. cbn [Z.eqb]. unfold set_frame_last, set_fr, on_last, with_pieces. cbn [fr pieces length pred alter list_alter frame_current usable pbitmap frames_used frames_possible frame_last mem_total_size frame_pieces_amount head pages].
  by rewrite Z.mul_0_l, Z.add_0_r.
Qed.

Lemma counted_loop addr t n : 1048576 <= addr -> addr + n * FRAME_SIZE < 2 ^ 63 -> n <= ROOT_FRAMES -> forall fuel k, 0 <= k <= n -> n - k <= Z.of_nat fuel ->
  frames_loop fuel (counted addr k t) (addr + n * FRAME_SIZE) = Ok (counted addr n t).
Proof.
  intros Ha Hb Hn. induction fuel as [|fuel IH]; intros k Hk Hf; cbn [frames_loop counted frame_current]; unfold FRAME_SIZE in *.
  - assert (k = n) as -> by lia. by rewrite Z.ltb_irrefl.
  - destruct (Z.ltb_spec (addr + k * 4096) (addr + n * 4096)); [|by assert (k = n) as -> by lia]. fold (counted addr k t). rewrite counted_round by (unfold FRAME_SIZE; lia). cbn [mbind res_bind]. apply IH; lia.
Qed.

Lemma entries_skipped fuel l s : Forall (fun m => ~ fits m) l -> map_loop fuel s l = Ok s.
Proof.
  induction 1 as [|m l Hm _ IH]; [done|]. cbn [map_loop]. unfold entry_round. unfold fits in Hm. destruct (Z.eqb_spec (mm_type m) MULTIBOOT_MEMORY_AVAILABLE); cbn [negb orb].
  - destruct (Z.ltb_spec (mm_addr m) 1048576); [exact IH|]. exfalso. apply Hm. split; [done|lia].
  - exact IH.
Qed.

Lemma map_loop_app fuel l k s : map_loop fuel s (l ++ k) = s ← map_loop fuel s l; map_loop fuel s k.
Proof. revert s. induction l as [|m l IH]; intros s; [done|]. cbn [app map_loop]. destruct (entry_round fuel s m); [apply IH|done..]. Qed.

Lemma one_entry fuel addr n : 1048576 <= addr -> 0 < n <= ROOT_FRAMES -> addr + n * FRAME_SIZE < 2 ^ 63 -> n <= Z.of_nat fuel ->
  entry_round fuel no_frames (mk_mmap_entry addr (n * FRAME_SIZE) MULTIBOOT_MEMORY_AVAILABLE) = Ok (counted addr n (n * FRAME_SIZE)).
Proof.
  intros Ha Hn Hb Hf. unfold entry_round. cbn [mm_type mm_addr mm_len negb orb Z.eqb MULTIBOOT_MEMORY_AVAILABLE Pos.eqb]. destruct (Z.ltb_spec addr 1048576); [lia|]. cbn [orb frame_current no_frames Z.eqb].
  assert (skip_loop fuel (set_current no_frames addr) addr = Ok (set_current no_frames addr)) as -> by (destruct fuel; cbn [skip_loop frame_current set_current]; by rewrite Z.ltb_irrefl).
  cbn [mbind res_bind]. rewrite u64_small by (unfold FRAME_SIZE in *; lia). destruct fuel as [|fuel]; [lia|]. cbn [frames_loop frame_current set_current].
  destruct (Z.ltb_spec addr (addr + n * FRAME_SIZE)); [|unfold FRAME_SIZE in *; lia]. unfold FRAME_SIZE in Hb. pose proof (first_round addr 0 Ha ltac:(unfold FRAME_SIZE; lia)) as E. unfold set_current. cbn [fr frame_last mem_total_size frame_pieces_amount head pages no_frames] in *.
  rewrite E. cbn [mbind res_bind]. rewrite (counted_loop addr 0 n) by (unfold FRAME_SIZE; lia). cbn [mbind res_bind]. unfold set_total, counted. cbn [fr frame_current frame_last mem_total_size frame_pieces_amount head pages].
  by rewrite Z.add_0_l, u64_small by (unfold FRAME_SIZE in *; lia).
Qed.

Lemma counted_ok addr n t : 0 <= n <= ROOT_FRAMES -> frames_ok (fr (counted addr n t)) /\ flat (fr (counted addr n t)) = replicate (Z.to_nat n) false.
Proof.
  intros Hn. unfold ROOT_FRAMES, ROOT_WORDS in Hn. assert (forall i, bit (replicate (Z.to_nat ROOT_WORDS) 0) i = false) as Hbit.
  { intros i. unfold bit. destruct (replicate (Z.to_nat ROOT_WORDS) 0 !! Z.to_nat (i / WORD_BITS)) as [w|] eqn:E; [|apply Z.bits_0]. apply lookup_replicate in E as [-> _]. apply Z.bits_0. }
  assert (flat (fr (counted addr n t)) = replicate (Z.to_nat n) false) as Hf.
  { unfold flat, flat_pieces, counted. cbn [fr pieces mbind list_bind pbitmap usable]. rewrite app_nil_r. apply list_eq. intros i. destruct (decide (i < Z.to_nat n)%nat) as [Hi|Hi].
    - rewrite <- (Nat2Z.id i) at 1. rewrite bits_lookup, Hbit by lia. symmetry. by apply lookup_replicate.
    - rewrite !lookup_ge_None_2; [done|rewrite length_replicate; lia|]. pose proof (zlen_bits (replicate (Z.to_nat ROOT_WORDS) 0) n ltac:(lia)). unfold zlen in *. lia. }
  split; [|done]. unfold frames_ok. rewrite Hf. split_and!; [|unfold zlen, NO_START; rewrite length_replicate; lia|cbn [counted fr frames_possible]; unfold zlen; rewrite length_replicate; lia|].
  - repeat constructor; [cbn; lia|]. unfold covers, zlen, WORD_BITS. cbn [counted pbitmap usable]. rewrite length_replicate. unfold ROOT_WORDS. lia.
  - cbn [counted fr frames_used]. clear Hf. induction (Z.to_nat n) as [|k IH]; [done|exact IH].
Qed.

Lemma build_one_region fuel pre post addr n : Forall (fun m => ~ fits m) pre -> Forall (fun m => ~ fits m) post ->
  1048576 <= addr -> 0 < sys <= n -> n <= ROOT_FRAMES -> addr + n * FRAME_SIZE < 2 ^ 63 -> n <= Z.of_nat fuel ->
  exists s bm, build_frames fuel (pre ++ mk_mmap_entry addr (n * FRAME_SIZE) MULTIBOOT_MEMORY_AVAILABLE :: post) = Ok s /\ frames_ok (fr s) /\
    pieces (fr s) = [mk_piece addr n bm] /\ flat (fr s) = fill (replicate (Z.to_nat n) false) 0 (Z.to_nat sys) true /\ frames_used (fr s) = sys /\ mem_total_size s = n * FRAME_SIZE.
Proof.
  intros Hpre Hpost Ha Hs Hn Hb Hf. destruct (counted_ok addr n (n * FRAME_SIZE) ltac:(lia)) as [Hok Hfl].
  assert (map_loop fuel no_frames (pre ++ mk_mmap_entry addr (n * FRAME_SIZE) MULTIBOOT_MEMORY_AVAILABLE :: post) = Ok (counted addr n (n * FRAME_SIZE))) as E.
  { rewrite map_loop_app, entries_skipped by done. cbn [mbind res_bind map_loop]. rewrite one_entry by (done || lia). cbn [mbind res_bind]. by apply entries_skipped. }
  unfold build_frames. rewrite E. cbn [mbind res_bind]. unfold at_root. cbn [counted fr pieces last length res_of_option mbind res_bind usable]. rewrite bool_decide_eq_true_2 by done. rewrite andb_false_r. cbn [mbind res_bind].
  fold (counted addr n (n * FRAME_SIZE)). unfold ROOT_FRAMES, ROOT_WORDS in Hn.
  assert (free_run (flat (fr (counted addr n (n * FRAME_SIZE)))) 0 sys) as Hrun.
  { rewrite Hfl. split; [lia|]. intros i Hi. apply lookup_replicate. split; [done|lia]. }
  destruct (kfcalloc_cases _ sys Hok ltac:(lia)) as [(f & a & Ek & Hff & Hok' & Hfl')|[_ Hno]]; [|by destruct (Hno 0)].
  assert (a = 0) as ->. { destruct Hff as [[Ha0 _] Hlow]. destruct (decide (0 < a)); [by destruct (Hlow 0)|lia]. }
  pose proof (proj1 (kfcalloc_shape _ _ _ _ Ek)) as Hsh; unfold shape in Hsh. destruct (pieces f) as [|[st us bm] [|? ?]] eqn:Ep; [done| |done]. injection Hsh as -> ->.
  rewrite Ek. cbn [mbind res_bind]. exists (set_fr (counted addr n (n * FRAME_SIZE)) f), bm. split; [done|]. cbn [fr set_fr mem_total_size]. split; [done|]. split; [done|]. rewrite Hfl', Hfl. split; [done|]. split; [|done].
  rewrite (fill_used _ _ 0 (Z.to_nat sys) Hok Hok'); [cbn; lia| |done]. rewrite Z2Nat.id by lia. done.
Qed.

(** ** What does not fit *)

(** The frames of a bitmap are counted without the header in front of it: behind a piece of 32577
    to 32768 frames there is no second one, and the last bits are outside of the first. *)
Theorem bitmap_overflows s l p : pieces (fr s) = l ++ [p] -> zlen (pbitmap p) = ROOT_WORDS -> ROOT_FRAMES < usable p <= FRAME_SIZE * 8 ->
  close_piece s = Ok s /\ bm_test (pbitmap p) (usable p - 1) = Fault.
Proof.
  intros Hs Hb Hu. unfold ROOT_FRAMES, ROOT_WORDS, FRAME_SIZE in *. unfold close_piece. rewrite Hs, last_snoc. cbn [res_of_option mbind res_bind]. split.
  - assert ((usable p / 8 + (FRAME_SIZE - 1)) / FRAME_SIZE - 1 <= 0) as Hz; [|replace (Z.to_nat _) with 0%nat by lia; done].
    assert (usable p / 8 <= 4096) by (apply Z.div_le_upper_bound; lia). unfold FRAME_SIZE. assert ((usable p / 8 + (4096 - 1)) / 4096 < 2) by (apply Z.div_lt_upper_bound; lia). lia.
  - unfold bm_test, load. assert (get (pbitmap p) ((usable p - 1) / WORD_BITS) = None) as ->; [|done]. unfold WORD_BITS.
    destruct (get (pbitmap p) ((usable p - 1) / 32)) eqn:E; [|done]. assert (is_Some (get (pbitmap p) ((usable p - 1) / 32))) as Hi by eauto. apply get_is_Some in Hi.
    assert (1018 <= (usable p - 1) / 32) by (apply Z.div_le_lower_bound; lia). lia.
Qed.
End Setup.

(** The frames under the kernel: those that its bytes reach into. *)
Lemma system_frames_ok fuel : forall i end_, 0 <= i -> end_ + FRAME_SIZE <= 2 ^ 32 -> (end_ - i + (FRAME_SIZE - 1)) / FRAME_SIZE <= Z.of_nat fuel ->
  system_frames fuel i end_ = Ok (Z.max 0 ((end_ - i + (FRAME_SIZE - 1)) / FRAME_SIZE)).
Proof.
  unfold FRAME_SIZE. induction fuel as [|fuel IH]; intros i end_ Hi He Hf; cbn [system_frames]; destruct (Z.ltb_spec i end_).
  - assert (1 <= (end_ - i + (4096 - 1)) / 4096) by (apply Z.div_le_lower_bound; lia). lia.
  - assert ((end_ - i + (4096 - 1)) / 4096 < 1) by (apply Z.div_lt_upper_bound; lia). by rewrite Z.max_l by lia.
  - assert ((end_ - i + (4096 - 1)) / 4096 = (end_ - (i + 4096) + (4096 - 1)) / 4096 + 1) as Eq by (rewrite <- Z.div_add by lia; f_equal; lia).
    unfold FRAME_SIZE. rewrite u32_small by lia. rewrite IH by lia. cbn [mbind res_bind]. assert (0 <= (end_ - (i + 4096) + (4096 - 1)) / 4096) by (apply Z.div_pos; lia).
    assert ((end_ - (i + 4096) + (4096 - 1)) / 4096 < 2 ^ 20) by (apply Z.div_lt_upper_bound; lia). rewrite Eq, !Z.max_r by lia. by rewrite u32_small by lia.
  - assert ((end_ - i + (4096 - 1)) / 4096 < 1) by (apply Z.div_lt_upper_bound; lia). by rewrite Z.max_l by lia.
Qed.

(** [_start_text] and [_end_bss] are the addresses of the linker's symbols. *)
Definition mem_init_multiboot (junk : Z -> list Z) (fuel : nat) (_start_text _end_bss : Z) (map : list mmap_entry) : res setup :=
  sys ← system_frames fuel _start_text _end_bss;
  build_frames junk sys fuel map.

(** C28: whatever the memory map, if [mem_init_multiboot] comes to its end: every frame of every piece
    begins in an available entry of the map above 1 MiB, and lies in it from its first byte to its
    last when the entries begin and end with pages; no frame comes twice; and each piece behind
    the first has made the number of frames one too high. *)
Theorem mem_init_frames junk fuel start end_ map s : (forall m, m ∈ map -> fits m -> 0 <= mm_len m /\ mm_addr m + mm_len m <= 2 ^ 43) -> mem_init_multiboot junk fuel start end_ map = Ok s ->
  let frames := all_frames (spans (pieces (fr s))) in
  Forall (fun x => exists m, m ∈ map /\ fits m /\ mm_addr m <= x < mm_addr m + mm_len m) frames /\
  ((forall m, m ∈ map -> fits m -> mm_addr m mod FRAME_SIZE = 0 /\ (mm_addr m + mm_len m) mod FRAME_SIZE = 0) ->
    Forall (fun x => exists m, m ∈ map /\ fits m /\ mm_addr m <= x /\ x + FRAME_SIZE <= mm_addr m + mm_len m) frames) /\
  NoDup frames /\ frames_possible (fr s) = zlen frames + (zlen (pieces (fr s)) - 1).
Proof. intros Hm E. unfold mem_init_multiboot in E. apply bind_Ok in E as (sys & _ & E). exact (build_frames_available junk sys fuel map s Hm E). Qed.

(** C36: a machine whose memory above 1 MiB is one available entry of [n] frames, up to the 32576 of
    the root piece, with anything else in the map below or of another kind: the set-up ends,
    the allocator is in order with exactly those frames, and the first of them, those under the
    kernel when it begins where they do, are the ones taken. *)
Theorem mem_init_one_region junk fuel start end_ pre post addr n :
  let sys := (end_ - start + (FRAME_SIZE - 1)) / FRAME_SIZE in 0 <= start -> end_ + FRAME_SIZE <= 2 ^ 32 -> Forall (fun m => ~ fits m) pre -> Forall (fun m => ~ fits m) post ->
  1048576 <= addr -> 0 < sys <= n -> n <= ROOT_FRAMES -> addr + n * FRAME_SIZE < 2 ^ 63 -> n <= Z.of_nat fuel ->
  exists s bm, mem_init_multiboot junk fuel start end_ (pre ++ mk_mmap_entry addr (n * FRAME_SIZE) MULTIBOOT_MEMORY_AVAILABLE :: post) = Ok s /\ frames_ok (fr s) /\
    pieces (fr s) = [mk_piece addr n bm] /\ flat (fr s) = fill (replicate (Z.to_nat n) false) 0 (Z.to_nat sys) true /\ frames_used (fr s) = sys /\ mem_total_size s = n * FRAME_SIZE.
Proof.
  intros sys Hs He Hpre Hpost Ha Hsys Hn Hb Hf. unfold mem_init_multiboot. rewrite system_frames_ok by (fold sys; lia). fold sys. cbn [mbind res_bind]. rewrite Z.max_r by lia.
  by apply build_one_region.
Qed.

Module SetupDemo.
(** 640 KiB, a hole, 12 pages from 1 MiB on, a reserved stretch, 8 pages. *)
Definition map : list mmap_entry :=
  [mk_mmap_entry 0 655360 1; mk_mmap_entry 983040 65536 2; mk_mmap_entry 1048576 49152 1; mk_mmap_entry 1097728 8192 2; mk_mmap_entry 1105920 32768 1].
Definition junk (a : Z) : list Z := replicate 1018 0.
Definition done_ : setup := match mem_init_multiboot junk 20 1048576 1060000 map with Ok s => s | _ => no_frames end.
Lemma done_eq : mem_init_multiboot junk 20 1048576 1060000 map = Ok done_.
Proof. vm_compute. reflexivity. Qed.
End SetupDemo.

(** Twelve frames, and seven of the last eight. *)
Lemma mem_init_frames_witness : spans (pieces (fr SetupDemo.done_)) = [(1048576, 12); (1105920, 7)] /\ frames_possible (fr SetupDemo.done_) = 20 /\
  NoDup (all_frames (spans (pieces (fr SetupDemo.done_)))).
Proof.
  split; [vm_compute; reflexivity|]. split; [vm_compute; reflexivity|].
  apply (mem_init_frames SetupDemo.junk 20 1048576 1060000 SetupDemo.map SetupDemo.done_); [|exact SetupDemo.done_eq].
  intros m Hm [_ Hf]. repeat (apply elem_of_cons in Hm as [->|Hm]; [cbn in *; lia|]). by apply elem_of_nil in Hm.
Defined.

Lemma mem_init_one_region_witness : exists s bm,
  mem_init_multiboot SetupDemo.junk 20 1048576 1060000 [mk_mmap_entry 0 655360 1; mk_mmap_entry 1048576 49152 1; mk_mmap_entry 1097728 8192 2] = Ok s /\ frames_ok (fr s) /\
  pieces (fr s) = [mk_piece 1048576 12 bm] /\ flat (fr s) = fill (replicate 12 false) 0 3 true /\ frames_used (fr s) = 3 /\ mem_total_size s = 49152.
Proof.
  apply (mem_init_one_region SetupDemo.junk 20 1048576 1060000 [mk_mmap_entry 0 655360 1] [mk_mmap_entry 1097728 8192 2] 1048576 12);
    [lia|unfold FRAME_SIZE; lia|repeat constructor; intros [_ H]; cbn in H; lia|repeat constructor; intros [H _]; done|lia|done|unfold ROOT_FRAMES, ROOT_WORDS; lia|unfold FRAME_SIZE; lia|lia].
Defined.
