(* ===== verification/Pool.v ===== *)
(** * Heap pools: mem/pool.c

    A pool is its header fields, its bitmap words and the bytes from [start] on; the chain of
    pools is a list in [next] order whose head is [mem_pool0].  The bytes of a block begin with
    the 16-byte [mem_block_t].  A spinlock is its [val]: acquiring one that is held spins until
    the "stuck" panic, since the holder is this very call. *)
From S2P Require Import Prelude Strings Bitmap.

Definition POOL_PIECE_SIZE : Z := 16.
Definition DEFAULT_POOL_SIZE : Z := 4096 * 256.
Definition SIZEOF_POOL : Z := 64.
Definition BITMAP_OFFSET : Z := 60.
Definition PAGE_SIZE : Z := 4096.

Record pool := mk_pool {
  npieces : Z;
  free_pieces : Z;
  start : Z;
  lock : bool;
  bitmap : list Z;
  mem : list Z;
}.

Definition floor_to_alignment (x : Z) : Z := x / POOL_PIECE_SIZE * POOL_PIECE_SIZE.
Definition ceil_to_alignment (x : Z) : Z := (x + (POOL_PIECE_SIZE - 1)) / POOL_PIECE_SIZE * POOL_PIECE_SIZE.

(** [kptopg] and [kpfrompg] of include/aex/mem.h. *)
Definition kptopg (nbytes : Z) : Z := u64 (nbytes + (PAGE_SIZE - 1)) / PAGE_SIZE.
Definition kpfrompg (pages : Z) : Z := pages * PAGE_SIZE.

(** ** Creating a pool *)

(** [memset(&(pool->bitmap), 0, pieces / 8)] over what the pages held before. *)
Definition clear_bitmap (raw : list Z) (nbytes : Z) : list Z :=
  let full := Z.to_nat (nbytes / 4) in
  match drop full raw with
  | [] => replicate (length raw) 0
  | w :: rest => replicate full 0 ++ Z.land w (Z.lnot (2 ^ (8 * (nbytes mod 4)) - 1)) :: rest
  end.

Definition pool_size (size : Z) : Z := u64 (size + size mod (POOL_PIECE_SIZE * 2)).
Definition pool_bitmap_bytes (size : Z) : Z := pool_size size / POOL_PIECE_SIZE / 8.
Definition pool_pages (size : Z) : Z := kptopg (u64 (pool_size size + SIZEOF_POOL)).
Definition pool_pieces (size : Z) : Z :=
  let actual := (kpfrompg (pool_pages size) - SIZEOF_POOL) / POOL_PIECE_SIZE * POOL_PIECE_SIZE in
  floor_to_alignment (u64 (actual - pool_bitmap_bytes size)) / POOL_PIECE_SIZE.
Definition pool_start (size addr : Z) : Z :=
  ceil_to_alignment (addr + SIZEOF_POOL + pool_bitmap_bytes size).

(** [addr] is what [kpalloc] returned and [raw] the words found where the bitmap goes. *)
Definition kmpool_create (size addr : Z) (raw : list Z) : pool :=
  let n := pool_pieces size in
  mk_pool n n (pool_start size addr) false (clear_bitmap raw (n / 8))
    (replicate (Z.to_nat (n * POOL_PIECE_SIZE)) 0).

(** ** find_space *)
Fixpoint find_space_loop (remaining : nat) (bm : list Z) (current_index bit_ bitmap_piece : Z)
    (start combo amount : Z) : res Z :=
  match remaining with
  | O => Ok (-1)
  | S r =>
      '(ci, b, w) ← (if bit_ >=? 32
                     then w ← load bm (current_index + 1); Ok (current_index + 1, 0, w)
                     else Ok (current_index, bit_, bitmap_piece));
      if Z.land (Z.shiftr w b) 1 =? 1 then find_space_loop r bm ci (b + 1) w (-1) 0 amount
      else
        let start := if start =? -1 then ci * 32 + b else start in
        if combo + 1 =? amount then Ok start
        else find_space_loop r bm ci (b + 1) w start (combo + 1) amount
  end.

Definition find_space (p : pool) (piece_amount : Z) : res Z :=
  if piece_amount =? 0 then Ok (-1)
  else
    w ← load (bitmap p) 0;
    find_space_loop (Z.to_nat (npieces p)) (bitmap p) 0 0 w (-1) 0 piece_amount.

(** ** set_pieces: the current word is cached and written back when the loop leaves it *)
Fixpoint set_pieces_loop (amount : nat) (bm : list Z) (ci bit_ w : Z) (occupied : bool)
  : res (list Z * Z * Z) :=
  match amount with
  | O => Ok (bm, ci, w)
  | S a =>
      '(bm, ci, b, w) ← (if bit_ >=? 32
                         then bm ← store bm ci w; w' ← load bm (ci + 1); Ok (bm, ci + 1, 0, w')
                         else Ok (bm, ci, bit_, w));
      let m := Z.shiftl 1 b in
      if occupied then
        if negb (Z.land w m =? 0) then Panic "mempool: Attempt to occupy an already-occupied piece"
        else set_pieces_loop a bm ci (b + 1) (Z.lor w m) occupied
      else
        if Z.land w m =? 0 then Panic "mempool: Attempt to free an already-freed piece"
        else set_pieces_loop a bm ci (b + 1) (Z.land w (Z.lnot m)) occupied
  end.

Definition set_pieces (bm : list Z) (starting_piece amount : Z) (occupied : bool) : res (list Z) :=
  if amount =? 0 then Ok bm
  else
    let ci := starting_piece / 32 in
    w ← load bm ci;
    '(bm, ci, w) ← set_pieces_loop (Z.to_nat amount) bm ci (starting_piece mod 32) w occupied;
    store bm ci w.

(** ** Blocks *)
Definition addr_to_piece (p : pool) (addr : Z) : Z := u64 (addr - start p) / POOL_PIECE_SIZE.

Definition get_block_from_ext_addr (addr : Z) : Z := u64 (floor_to_alignment addr - POOL_PIECE_SIZE).

Fixpoint find_parent (chain : list pool) (k : nat) (addr : Z) : option (nat * pool) :=
  match chain with
  | [] => None
  | p :: next =>
      if (u64 (addr - start p) <=? npieces p * POOL_PIECE_SIZE) && (addr >=? start p)
      then Some (k, p) else find_parent next (S k) addr
  end.

Definition set_lock (p : pool) (b : bool) : pool :=
  mk_pool (npieces p) (free_pieces p) (start p) b (bitmap p) (mem p).

Definition spinlock_acquire (chain : list pool) (k : nat) : res (list pool) :=
  match chain !! k with
  | None => Fault
  | Some p => if lock p then Panic "spinlock_acquire stuck for too long" else Ok (<[k := set_lock p true]> chain)
  end.

Definition spinlock_release (chain : list pool) (k : nat) : res (list pool) :=
  match chain !! k with None => Fault | Some p => Ok (<[k := set_lock p false]> chain) end.

(** The [mem_block_t] of an allocation: [wasted_size], [uses], [cookie], [start_piece],
    [pieces]; the last four of the sixteen bytes are not written. *)
Definition block_header (start_piece blk_pieces : Z) : list Z :=
  [0; 1] ++ le_bytes 2 54948 ++ le_bytes 4 start_piece ++ le_bytes 4 blk_pieces.

Definition BLOCK_PIECES_OFFSET : Z := 8.

(** A [uint32_t] of the heap, by address. *)
Fixpoint read32 (chain : list pool) (addr : Z) : res Z :=
  match chain with
  | [] => Fault
  | p :: next =>
      if (start p <=? addr) && (addr + 4 <=? start p + zlen (mem p))
      then Ok (le_val (slice (mem p) (addr - start p) 4)) else read32 next addr
  end.

Fixpoint read_bytes (chain : list pool) (addr n : Z) : res (list Z) :=
  match chain with
  | [] => Fault
  | p :: next =>
      if (start p <=? addr) && (addr + n <=? start p + zlen (mem p))
      then Ok (slice (mem p) (addr - start p) n) else read_bytes next addr n
  end.

Definition set_mem (p : pool) (m : list Z) : pool :=
  mk_pool (npieces p) (free_pieces p) (start p) (lock p) (bitmap p) m.

Fixpoint write_bytes (chain : list pool) (addr : Z) (bs : list Z) : res (list pool) :=
  match chain with
  | [] => Fault
  | p :: next =>
      if (start p <=? addr) && (addr + zlen bs <=? start p + zlen (mem p))
      then Ok (set_mem p (splice (mem p) (addr - start p) bs) :: next)
      else next' ← write_bytes next addr bs; Ok (p :: next')
  end.

(** ** Allocation.  [newpool size] is the pool [kmpool_create] makes. *)
Section Alloc.
Variable newpool : Z -> pool.

Definition take_pieces (p : pool) (bm : list Z) (pieces : Z) : pool :=
  mk_pool (npieces p) (u32 (free_pieces p - pieces)) (start p) (lock p) bm (mem p).

(** The loop of [_kmalloc]: the chain, the pool it ended in and the first piece. *)
Fixpoint kmalloc_loop (fuel : nat) (chain : list pool) (k : nat) (size pieces starting_piece : Z)
  : res (list pool * nat * Z) :=
  match fuel with
  | O => OutOfFuel
  | S f =>
      p ← res_of_option (chain !! k);
      '(chain, k) ←
        (if (free_pieces p <? pieces) || (starting_piece =? -1) then
           let chain :=
             match chain !! S k with
             | None => chain ++ [newpool (if size >? DEFAULT_POOL_SIZE then u64 (size * 2) else DEFAULT_POOL_SIZE)]
             | Some _ => chain
             end in
           chain ← spinlock_release chain k;
           chain ← spinlock_acquire chain (S (S k)); (* &(pool->next->spinlock) *)
           Ok (chain, S k)
         else Ok (chain, k));
      p ← res_of_option (chain !! k);
      sp ← find_space p pieces;
      if sp =? -1 then kmalloc_loop f chain k size pieces (-1)
      else
        bm ← set_pieces (bitmap p) sp pieces true;
        Ok (<[k := take_pieces p bm pieces]> chain, k, sp)
  end.

(** One round for every pool there can be: the chain grows by at most one. *)
Definition _kmalloc (chain : list pool) (k : nat) (size : Z) : res (list pool * Z) :=
  if size =? 0 then Ok (chain, 0)
  else
    let size := ceil_to_alignment size in
    let pieces := size / POOL_PIECE_SIZE + ceil_to_alignment 12 / POOL_PIECE_SIZE in
    chain ← spinlock_acquire chain k;
    '(chain, k, sp) ← kmalloc_loop (2 + length chain) chain k size pieces 0;
    chain ← spinlock_release chain k;
    p ← res_of_option (chain !! k);
    let addr := u64 (start p + (sp + 1) * POOL_PIECE_SIZE) in
    test ← read_bytes chain (get_block_from_ext_addr addr) (pieces * POOL_PIECE_SIZE);
    if negb (forallb (Z.eqb 0) test) then Panic "not blank"
    else
      chain ← write_bytes chain (get_block_from_ext_addr addr) (block_header (u32 sp) (u32 (pieces - 1)));
      Ok (chain, addr).

Definition kmalloc (chain : list pool) (size : Z) : res (list pool * Z) := _kmalloc chain 0 size.

(** [memset] through the pointer, which is NULL only for a size of 0. *)
Definition kzmalloc (chain : list pool) (size : Z) : res (list pool * Z) :=
  '(chain, ptr) ← _kmalloc chain 0 size;
  if size =? 0 then Ok (chain, ptr)
  else chain ← write_bytes chain ptr (replicate (Z.to_nat size) 0); Ok (chain, ptr).

Definition give_pieces (p : pool) (bm m : list Z) (pieces : Z) : pool :=
  mk_pool (npieces p) (u32 (free_pieces p + pieces)) (start p) false bm m.

Definition _kfree (chain : list pool) (space : Z) : res (list pool) :=
  if space =? 0 then Ok chain
  else
    let block := get_block_from_ext_addr space in
    match find_parent chain 0 block with
    | None => Fault
    | Some (k, parent) =>
        chain ← spinlock_acquire chain k;
        bp ← read32 chain (block + BLOCK_PIECES_OFFSET);
        bm ← set_pieces (bitmap parent) (addr_to_piece parent block) (u32 (bp + 1)) false;
        m ← memset (mem parent) (block - start parent) 0 (u32 (u32 (bp + 1) * POOL_PIECE_SIZE));
        Ok (<[k := give_pieces parent bm m (u32 (bp + 1))]> chain)
    end.

Definition kfree (chain : list pool) (space : Z) : res (list pool) := _kfree chain space.

Definition krealloc (chain : list pool) (space size : Z) : res (list pool * Z) :=
  if space =? 0 then (if size =? 0 then Ok (chain, 0) else _kmalloc chain 0 size)
  else if size =? 0 then chain ← _kfree chain space; Ok (chain, 0)
  else
    bp ← read32 chain (get_block_from_ext_addr space + BLOCK_PIECES_OFFSET);
    let oldsize := u32 (bp * POOL_PIECE_SIZE) in
    '(chain, new) ← _kmalloc chain 0 size;
    bs ← read_bytes chain space (if size <? oldsize then size else oldsize);
    chain ← write_bytes chain new bs;
    chain ← _kfree chain space;
    Ok (chain, new).
End Alloc.

(** ** The bitmap loops against the list of pieces *)

Lemma shiftr_bit w b : 0 <= b -> (Z.land (Z.shiftr w b) 1 =? 1) = Z.testbit w b.
Proof.
  intros Hb. rewrite Z.testbit_odd. change 1 with (Z.ones 1) at 1. rewrite Z.land_ones by lia.
  change (2 ^ 1) with 2. rewrite Zmod_odd. by destruct (Z.odd _).
Qed.

Lemma pos_word c b : 0 <= b < 32 -> (c * 32 + b) / WORD_BITS = c /\ (c * 32 + b) mod WORD_BITS = b.
Proof.
  intros Hb. unfold WORD_BITS. rewrite Z.add_comm, Z.div_add, Z.mod_add by lia.
  rewrite Z.div_small, Z.mod_small by lia. lia.
Qed.

Lemma bit_word bm c b w : bm !! Z.to_nat c = Some w -> 0 <= b < 32 -> bit bm (c * 32 + b) = Z.testbit w b.
Proof. intros E Hb. destruct (pos_word c b Hb) as [Hd Hm]. unfold bit. by rewrite Hd, Hm, E. Qed.

Lemma drop_bits bm n i : 0 <= i < n -> drop (Z.to_nat i) (bits bm n) = bit bm i :: drop (Z.to_nat (i + 1)) (bits bm n).
Proof.
  intros Hi. rewrite (drop_S _ _ _ (bits_lookup bm n i Hi)). do 2 f_equal. lia.
Qed.

Definition found (o : option Z) : Z := match o with Some s => s | None => -1 end.

Lemma find_space_loop_ok bm n amount : covers bm n -> 0 < amount -> forall r ci b w start combo,
  0 <= ci -> 0 <= b <= 32 -> bm !! Z.to_nat ci = Some w -> ci * 32 + b + Z.of_nat r = n ->
  find_space_loop r bm ci b w start combo amount
  = Ok (found (scan (drop (Z.to_nat (ci * 32 + b)) (bits bm n)) (ci * 32 + b) start combo amount)).
Proof.
  intros Hc Ha. induction r as [|r IH]; intros ci b w start combo Hci Hb Hw Hn; cbn [find_space_loop].
  { rewrite drop_ge; [done|]. pose proof (zlen_bits bm n ltac:(lia)). unfold zlen in *. lia. }
  assert (exists ci' b' w', (if b >=? 32 then w ← load bm (ci + 1); Ok (ci + 1, 0, w) else Ok (ci, b, w))
    = Ok (ci', b', w') /\ 0 <= ci' /\ 0 <= b' < 32 /\ bm !! Z.to_nat ci' = Some w' /\
    ci' * 32 + b' = ci * 32 + b) as (c1 & b1 & w1 & -> & Hc1 & Hb1 & Hw1 & Heq).
  { rewrite Z.geb_leb. destruct (Z.leb_spec 32 b); [|exists ci, b, w; split_and!; done || lia].
    destruct (lookup_zlen bm (ci + 1)) as [w1 Hw1]; [unfold covers, WORD_BITS in Hc; lia|].
    rewrite (load_nat bm (ci + 1) w1 ltac:(lia) Hw1). exists (ci + 1), 0, w1. split_and!; done || lia. }
  cbn [mbind res_bind]. rewrite shiftr_bit by lia. rewrite <- Heq, (drop_bits bm n) by lia.
  rewrite (bit_word bm c1 b1 w1 Hw1 Hb1). cbn [scan].
  replace (c1 * 32 + b1 + 1) with (c1 * 32 + (b1 + 1)) by lia.
  destruct (Z.testbit w1 b1); [by rewrite IH by (done || lia)|].
  destruct (combo + 1 =? amount); [done|]. by rewrite IH by (done || lia).
Qed.

Lemma find_space_ok p amount : covers (bitmap p) (npieces p) -> 0 < npieces p -> 0 < amount ->
  find_space p amount = Ok (found (scan (bits (bitmap p) (npieces p)) 0 (-1) 0 amount)).
Proof.
  intros Hc Hn Ha. unfold find_space. destruct (Z.eqb_spec amount 0); [lia|].
  destruct (lookup_zlen (bitmap p) 0) as [w Hw]; [unfold covers, WORD_BITS in Hc; lia|].
  rewrite (load_nat (bitmap p) 0 w ltac:(lia) Hw). cbn [mbind res_bind].
  by rewrite (find_space_loop_ok _ (npieces p)) by (done || lia).
Qed.

(** What the loop of [set_pieces] does to the array with the cached word in place. *)
Definition run_is (bm : list Z) (s : Z) (n : nat) (b : bool) : Prop :=
  forall i, s <= i < s + Z.of_nat n -> bit bm i = b.

Definition set_msg (occupied : bool) : string :=
  if occupied then "mempool: Attempt to occupy an already-occupied piece"
  else "mempool: Attempt to free an already-freed piece".

Lemma set_word_bit w b (occ : bool) : 0 <= b -> forall j, 0 <= j < 32 ->
  Z.testbit (if occ then Z.lor w (Z.shiftl 1 b) else Z.land w (Z.lnot (Z.shiftl 1 b))) j
  = if decide (j = b) then occ else Z.testbit w j.
Proof.
  intros Hb j Hj. destruct occ.
  - rewrite Z.lor_spec, Z.shiftl_1_l. case_decide as Heq.
    + subst. rewrite Z.pow2_bits_true by lia. apply orb_true_r.
    + rewrite Z.pow2_bits_false by done. apply orb_false_r.
  - rewrite Z.land_spec, Z.lnot_spec, Z.shiftl_1_l by lia. case_decide as Heq.
    + subst. rewrite Z.pow2_bits_true by lia. apply andb_false_r.
    + rewrite Z.pow2_bits_false by done. apply andb_true_r.
Qed.

Lemma set_pieces_loop_ok n occ : forall a bm ci b w,
  covers bm n -> 0 <= ci < zlen bm -> 0 <= b <= 32 -> ci * 32 + b + Z.of_nat a <= n ->
  let E := <[Z.to_nat ci := w]> bm in
  match set_pieces_loop a bm ci b w occ with
  | Ok (bm', ci', w') =>
      run_is E (ci * 32 + b) a (negb occ) /\ 0 <= ci' < zlen bm' /\ zlen bm' = zlen bm /\
      bits (<[Z.to_nat ci' := w']> bm') n = fill (bits E n) (ci * 32 + b) a occ
  | Panic m => m = set_msg occ /\ exists i, ci * 32 + b <= i < ci * 32 + b + Z.of_nat a /\ bit E i = occ
  | Fault | OutOfFuel => False
  end.
Proof.
  induction a as [|a IH]; intros bm ci b w Hc Hci Hb Hn E; cbn [set_pieces_loop].
  { split_and!; try done; try lia. intros i Hi. lia. }
  assert (exists bm1 c1 b1 w1, (if b >=? 32 then bm0 ← store bm ci w; w' ← load bm0 (ci + 1); Ok (bm0, ci + 1, 0, w')
      else Ok (bm, ci, b, w)) = Ok (bm1, c1, b1, w1) /\ zlen bm1 = zlen bm /\ 0 <= c1 < zlen bm1 /\ 0 <= b1 < 32 /\
      <[Z.to_nat c1 := w1]> bm1 = E /\ c1 * 32 + b1 = ci * 32 + b)
    as (bm1 & c1 & b1 & w1 & -> & Hl1 & Hc1 & Hb1 & HE & Heq).
  { rewrite Z.geb_leb. destruct (Z.leb_spec 32 b); [|exists bm, ci, b, w; split_and!; done || lia].
    rewrite store_in_range by done. cbn [mbind res_bind]. fold E.
    assert (zlen E = zlen bm) as HlE by apply zlen_insert.
    destruct (lookup_zlen E (ci + 1)) as [w1 Hw1]; [unfold covers, WORD_BITS in Hc; lia|].
    rewrite (load_nat E (ci + 1) w1 ltac:(lia) Hw1). cbn [mbind res_bind].
    exists E, (ci + 1), 0, w1. split_and!; try done; try lia; [unfold covers, WORD_BITS in Hc; lia|].
    by apply list_insert_id. }
  cbn [mbind res_bind].
  assert (E !! Z.to_nat c1 = Some w1) as HEw
    by (rewrite <- HE; apply list_lookup_insert_eq; unfold zlen in Hc1; lia).
  set (w2 := if occ then Z.lor w1 (Z.shiftl 1 b1) else Z.land w1 (Z.lnot (Z.shiftl 1 b1))).
  assert (forall j, 0 <= j -> bit (<[Z.to_nat c1 := w2]> bm1) j
            = if decide (j = ci * 32 + b) then occ else bit E j) as Hbit.
  { destruct (pos_word c1 b1 Hb1) as [Hd Hm]. rewrite Heq in Hd, Hm.
    replace (<[Z.to_nat c1 := w2]> bm1) with (<[Z.to_nat ((ci * 32 + b) / WORD_BITS) := w2]> E)
      by (rewrite Hd, <- HE; apply list_insert_insert_eq).
    apply (bit_word_update E _ w1); [by rewrite Hd|lia|]. rewrite Hm. apply set_word_bit. lia. }
  assert (bit E (ci * 32 + b) = Z.testbit w1 b1) as Hcur by (rewrite <- Heq; by apply bit_word).
  assert ((if occ then negb (Z.land w1 (Z.shiftl 1 b1) =? 0) else Z.land w1 (Z.shiftl 1 b1) =? 0)
          = Bool.eqb (Z.testbit w1 b1) occ) as Htest.
  { rewrite <- (land_bit w1 b1) by lia. destruct occ, (Z.land w1 (Z.shiftl 1 b1) =? 0); done. }
  assert (forall X Y : res (list Z * Z * Z), (if occ then if negb (Z.land w1 (Z.shiftl 1 b1) =? 0) then X else Y
     else if Z.land w1 (Z.shiftl 1 b1) =? 0 then X else Y) = if Bool.eqb (Z.testbit w1 b1) occ then X else Y) as Hif
    by (intros; rewrite <- Htest; by destruct occ).
  assert ((if occ
     then if negb (Z.land w1 (Z.shiftl 1 b1) =? 0) then Panic "mempool: Attempt to occupy an already-occupied piece"
          else set_pieces_loop a bm1 c1 (b1 + 1) (Z.lor w1 (Z.shiftl 1 b1)) occ
     else if Z.land w1 (Z.shiftl 1 b1) =? 0 then Panic "mempool: Attempt to free an already-freed piece"
          else set_pieces_loop a bm1 c1 (b1 + 1) (Z.land w1 (Z.lnot (Z.shiftl 1 b1))) occ)
     = if Bool.eqb (Z.testbit w1 b1) occ then Panic (set_msg occ) else set_pieces_loop a bm1 c1 (b1 + 1) w2 occ) as ->.
  { rewrite <- Hif. unfold w2, set_msg. by destruct occ. }
  clear Htest Hif. destruct (Bool.eqb (Z.testbit w1 b1) occ) eqn:Eb.
  { apply Bool.eqb_prop in Eb. split; [done|]. exists (ci * 32 + b). split; [lia|congruence]. }
  apply Bool.eqb_false_iff in Eb.
  specialize (IH bm1 c1 (b1 + 1) w2). cbn zeta in IH.
  replace (c1 * 32 + (b1 + 1)) with (ci * 32 + b + 1) in IH by lia.
  specialize (IH ltac:(unfold covers in *; lia) Hc1 ltac:(lia) ltac:(lia)).
  destruct (set_pieces_loop a bm1 c1 (b1 + 1) w2 occ) as [[[bm' ci'] w']|m| |]; try done.
  - destruct IH as (Hrun & Hci' & Hl' & Hbits). split_and!; try done; try lia.
    + intros i Hi. destruct (decide (i = ci * 32 + b)) as [->|Hne].
      * rewrite Hcur. by destruct (Z.testbit w1 b1), occ.
      * specialize (Hrun i ltac:(lia)). rewrite Hbit in Hrun by lia. by rewrite decide_False in Hrun by done.
    + rewrite Hbits. cbn [fill]. f_equal.
      rewrite (bits_update E _ n (ci * 32 + b) occ) by (done || lia). done.
  - destruct IH as [-> (i & Hi & Hbi)]. split; [done|]. exists i. split; [lia|].
    rewrite Hbit in Hbi by lia. case_decide; [lia|done].
Qed.

(** [set_pieces] flips a run that is uniformly in the other state, and panics on any other. *)
Lemma set_pieces_ok bm n s amount occ : covers bm n -> 0 <= s -> 0 < amount -> s + amount <= n ->
  match set_pieces bm s amount occ with
  | Ok bm' => run_is bm s (Z.to_nat amount) (negb occ) /\ zlen bm' = zlen bm /\
      bits bm' n = fill (bits bm n) s (Z.to_nat amount) occ
  | Panic m => m = set_msg occ /\ exists i, s <= i < s + amount /\ bit bm i = occ
  | Fault | OutOfFuel => False
  end.
Proof.
  intros Hc Hs Ha Hn. unfold set_pieces. destruct (Z.eqb_spec amount 0); [lia|].
  pose proof (Z.div_mod s 32 ltac:(lia)). pose proof (Z.mod_pos_bound s 32 ltac:(lia)).
  assert (0 <= s / 32 < zlen bm) as Hci by (apply (covers_word bm n s); [done|lia]).
  destruct (lookup_zlen bm (s / 32) Hci) as [w Hw]. rewrite (load_nat _ _ _ (proj1 Hci) Hw). cbn [mbind res_bind].
  pose proof (set_pieces_loop_ok n occ (Z.to_nat amount) bm (s / 32) (s mod 32) w Hc Hci ltac:(lia) ltac:(lia)) as H1.
  cbn zeta in H1. rewrite (list_insert_id bm _ w) in H1 by done.
  replace (s / 32 * 32 + s mod 32) with s in H1 by lia.
  destruct (set_pieces_loop _ _ _ _ _ _) as [[[bm' ci'] w']|m| |]; cbn [mbind res_bind]; try done.
  - destruct H1 as (Hrun & Hci' & Hl & Hb). rewrite store_in_range by done. by rewrite zlen_insert.
  - destruct H1 as [-> (i & Hi & Hbi)]. split; [done|]. exists i. split; [lia|done].
Qed.

Lemma run_is_free bm n s k : 0 <= s -> s + Z.of_nat k <= n ->
  run_is bm s k false <-> free_run (bits bm n) s (Z.of_nat k).
Proof.
  intros Hs Hn. split.
  - intros Hr. split; [done|]. intros i Hi. rewrite bits_lookup by lia. by rewrite Hr.
  - intros [_ Hf] i Hi. specialize (Hf i Hi). rewrite bits_lookup in Hf by lia. by simplify_eq.
Qed.

(** ** A well-formed pool: the free count is the number of clear bits, and the bytes of every
    free piece are zero. *)
Definition zeroed (m : list Z) (off n : Z) : Prop :=
  forall x, off <= x < off + n -> m !! Z.to_nat x = Some 0.

Definition blank (bm m : list Z) (n : Z) : Prop :=
  forall i, 0 <= i < n -> bit bm i = false -> zeroed m (i * POOL_PIECE_SIZE) POOL_PIECE_SIZE.

Definition pool_ok (p : pool) : Prop :=
  0 < npieces p < 2 ^ 28 /\ covers (bitmap p) (npieces p) /\
  zlen (mem p) = npieces p * POOL_PIECE_SIZE /\
  free_pieces p = npieces p - count_set (bits (bitmap p) (npieces p)) /\
  blank (bitmap p) (mem p) (npieces p) /\
  0 < start p < 2 ^ 63 /\ start p mod POOL_PIECE_SIZE = 0 /\ lock p = false.

Lemma zeroed_run bm m n s k : blank bm m n -> 0 <= s -> s + Z.of_nat k <= n -> run_is bm s k false ->
  zeroed m (s * POOL_PIECE_SIZE) (Z.of_nat k * POOL_PIECE_SIZE).
Proof.
  unfold zeroed, POOL_PIECE_SIZE. intros Hb Hs Hn Hr x Hx.
  pose proof (Z.div_mod x 16 ltac:(lia)). pose proof (Z.mod_pos_bound x 16 ltac:(lia)).
  assert (s <= x / 16 < s + Z.of_nat k) as Hi.
  { split; [apply Z.div_le_lower_bound; lia|apply Z.div_lt_upper_bound; lia]. }
  apply (Hb (x / 16) ltac:(lia) (Hr _ Hi)). unfold POOL_PIECE_SIZE. lia.
Qed.

Lemma zeroed_slice m off n : 0 <= off -> 0 <= n -> zeroed m off n ->
  slice m off n = replicate (Z.to_nat n) 0.
Proof.
  intros Ho Hn Hz. unfold slice. apply list_eq. intros k. destruct (decide (k < Z.to_nat n)%nat) as [Hk|Hk].
  - rewrite lookup_take, lookup_drop, decide_True by lia. rewrite lookup_replicate_2 by done.
    rewrite <- (Hz (off + Z.of_nat k) ltac:(lia)). f_equal. lia.
  - rewrite !lookup_ge_None_2; [done|rewrite length_replicate; lia|rewrite length_take; lia].
Qed.

Lemma forallb_zero n : forallb (Z.eqb 0) (replicate n 0) = true.
Proof. induction n; done. Qed.

(** ** The geometry of a fresh pool *)

Lemma geometry sz : 2 ^ 19 <= sz < 2 ^ 33 ->
  let pg := (sz + 64 + 4095) / 4096 in
  let act := (pg * 4096 - 64) / 16 * 16 in
  let n := (act - sz / 16 / 8) / 16 in
  0 < n /\ n <= sz / 16 /\ 0 <= act - sz / 16 / 8 < 2 ^ 64 /\
  (64 + sz / 16 / 8 + 15) / 16 * 16 + n * 16 <= pg * 4096.
Proof. intros H pg act n. subst n act pg. Z.to_euclidean_division_equations. lia. Qed.

Lemma kptopg_bounds n : 0 <= n < 2 ^ 63 -> (kptopg n - 1) * PAGE_SIZE < n <= kptopg n * PAGE_SIZE.
Proof. intros. unfold kptopg, PAGE_SIZE. rewrite u64_small by lia. pose proof (Z.div_mod (n + (4096 - 1)) 4096). pose proof (Z.mod_pos_bound (n + (4096 - 1)) 4096). lia. Qed.

Lemma bitmap_room n sz : 0 < n -> n <= sz / 16 -> 60 + (n + 31) / 32 * 4 <= (64 + sz / 16 / 8 + 15) / 16 * 16.
Proof. intros. Z.to_euclidean_division_equations. lia. Qed.

(** For every size of at least half a megabyte, and the kernel asks for a whole one or more,
    a fresh pool fits the pages it was given: the bitmap has a bit for every piece and ends
    before the first piece, and the last piece ends inside the pages. *)
Theorem kmpool_create_fits (size addr : Z) (raw : list Z) :
  2 ^ 19 <= size < 2 ^ 32 -> addr mod PAGE_SIZE = 0 -> 0 < addr < 2 ^ 62 ->
  let p := kmpool_create size addr raw in
  0 < npieces p /\
  addr + BITMAP_OFFSET + (npieces p + 31) / 32 * 4 <= start p /\
  start p + npieces p * POOL_PIECE_SIZE <= addr + kpfrompg (pool_pages size).
Proof.
  intros Hs Ha Hr. cbn [kmpool_create npieces start].
  unfold pool_pieces, pool_start, pool_bitmap_bytes, pool_pages, pool_size, kptopg, kpfrompg,
    floor_to_alignment, ceil_to_alignment, POOL_PIECE_SIZE, PAGE_SIZE, SIZEOF_POOL, BITMAP_OFFSET in *.
  pose proof (Z.mod_pos_bound size 32 ltac:(lia)). change (16 * 2) with 32.
  rewrite !(u64_small (size + size mod 32)) by lia. set (sz := size + size mod 32) in *.
  assert (0 <= sz < 2 ^ 33) as Hsz by (unfold sz; lia).
  rewrite (u64_small (sz + 64)) by lia. change (4096 - 1) with 4095. change (16 - 1) with 15.
  pose proof (geometry sz ltac:(lia)) as Hg. cbn zeta in Hg. destruct Hg as (Hn & Hle & Hu & Hend).
  rewrite (u64_small (sz + 64 + 4095)) by lia. rewrite u64_small by lia. rewrite Z.div_mul by done.
  set (n := (((sz + 64 + 4095) / 4096 * 4096 - 64) / 16 * 16 - sz / 16 / 8) / 16) in *.
  pose proof (bitmap_room n sz Hn Hle).
  assert ((addr + 64 + sz / 16 / 8 + 15) / 16 * 16 = addr + (64 + sz / 16 / 8 + 15) / 16 * 16) as ->.
  { clear - Ha. generalize (sz / 16 / 8). intros y. Z.to_euclidean_division_equations. lia. }
  lia.
Qed.

Lemma kmpool_create_fits_witness :
  let p := kmpool_create DEFAULT_POOL_SIZE 4096 [] in
  0 < npieces p /\
  4096 + BITMAP_OFFSET + (npieces p + 31) / 32 * 4 <= start p /\
  start p + npieces p * POOL_PIECE_SIZE <= 4096 + kpfrompg (pool_pages DEFAULT_POOL_SIZE).
Proof. apply (kmpool_create_fits DEFAULT_POOL_SIZE 4096 []); [unfold DEFAULT_POOL_SIZE; lia|reflexivity|lia]. Defined.

(** ** Allocation and release inside the first pool *)

Lemma fill_bit bm bm' n s k b : bits bm' n = fill (bits bm n) s k b -> 0 <= s -> forall i, 0 <= i < n ->
  bit bm' i = if decide (s <= i < s + Z.of_nat k) then b else bit bm i.
Proof.
  intros Hf Hs i Hi. pose proof (bits_lookup bm' n i Hi) as H1. rewrite Hf in H1.
  rewrite fill_lookup in H1 by (rewrite ?zlen_bits; lia). rewrite bits_lookup in H1 by done.
  case_decide; by simplify_eq.
Qed.

Lemma splice_lookup_out {A} (m bs : list A) off x : 0 <= off -> off + zlen bs <= zlen m ->
  0 <= x -> x < off \/ off + zlen bs <= x -> splice m off bs !! Z.to_nat x = m !! Z.to_nat x.
Proof.
  intros Ho Hl Hx Hout. pose proof (get_splice_out m bs off x Ho Hl Hout) as H. unfold get in H.
  by destruct (Z.leb_spec 0 x); [|lia].
Qed.

Lemma block_addr st s : st mod POOL_PIECE_SIZE = 0 -> 0 <= st -> 0 <= s -> st + (s + 1) * POOL_PIECE_SIZE < 2 ^ 64 ->
  get_block_from_ext_addr (st + (s + 1) * POOL_PIECE_SIZE) = st + s * POOL_PIECE_SIZE.
Proof.
  unfold get_block_from_ext_addr, floor_to_alignment, POOL_PIECE_SIZE. intros Hm H0 Hs Hb.
  replace ((st + (s + 1) * 16) / 16 * 16) with (st + (s + 1) * 16).
  - rewrite u64_small; lia.
  - Z.to_euclidean_division_equations. lia.
Qed.

(** The number of pieces a request takes, header included. *)
Definition request_pieces (size : Z) : Z := ceil_to_alignment size / POOL_PIECE_SIZE + 1.

Lemma request_bounds size : 0 < size < 2 ^ 31 ->
  2 <= request_pieces size < 2 ^ 28 /\ size <= (request_pieces size - 1) * POOL_PIECE_SIZE < size + POOL_PIECE_SIZE.
Proof.
  unfold request_pieces, ceil_to_alignment, POOL_PIECE_SIZE. intros H. rewrite Z.div_mul by done.
  Z.to_euclidean_division_equations. lia.
Qed.

(** The pool after [k] pieces from [s] on were taken for a block. *)
Definition taken (p : pool) (s k : Z) (bm : list Z) : pool :=
  mk_pool (npieces p) (free_pieces p - k) (start p) false bm
    (splice (mem p) (s * POOL_PIECE_SIZE) (block_header s (k - 1))).

Lemma block_header_len a b : zlen (block_header a b) = 12.
Proof. reflexivity. Qed.

Lemma free_count p s k : pool_ok p -> 0 < k -> free_run (bits (bitmap p) (npieces p)) s k -> k <= free_pieces p.
Proof.
  intros (Hn & Hc & _ & Hf & _) Hk Hr. pose proof Hr as [Hs Hall].
  pose proof (count_set_fill (Z.to_nat k) (bits (bitmap p) (npieces p)) s true Hs) as Hcs.
  rewrite Z2Nat.id in Hcs by lia. specialize (Hcs Hall).
  pose proof (count_set_bound (fill (bits (bitmap p) (npieces p)) s (Z.to_nat k) true)) as Hb.
  pose proof (zlen_bits (bitmap p) (npieces p) ltac:(lia)). unfold zlen in *. rewrite length_fill in Hb. lia.
Qed.

Section PoolOps.
Context (newpool : Z -> pool).

(** The search ends in the first pool when the request fits there. *)
Lemma kmalloc_loop_hit f p rest size k s : 0 < npieces p -> covers (bitmap p) (npieces p) ->
  0 < k <= free_pieces p -> first_fit (bits (bitmap p) (npieces p)) k s ->
  exists bm, zlen bm = zlen (bitmap p) /\
    bits bm (npieces p) = fill (bits (bitmap p) (npieces p)) s (Z.to_nat k) true /\
    kmalloc_loop newpool (S f) (p :: rest) 0 size k 0 = Ok (take_pieces p bm k :: rest, 0%nat, s).
Proof.
  intros Hn Hc Hk Hff. pose proof Hff as [Hrun Hmin]. pose proof Hrun as [Hs _].
  pose proof (free_run_bound _ s k ltac:(lia) Hrun) as Hend. rewrite zlen_bits in Hend by lia.
  cbn [kmalloc_loop lookup list_lookup res_of_option mbind res_bind].
  destruct (Z.ltb_spec (free_pieces p) k); [lia|]. change (0 =? -1) with false.
  cbn [orb lookup list_lookup res_of_option mbind res_bind]. rewrite find_space_ok by (done || lia).
  pose proof (scan_first_fit (bits (bitmap p) (npieces p)) k ltac:(lia)) as Hscan.
  destruct (scan (bits (bitmap p) (npieces p)) 0 (-1) 0 k) as [s'|]; [|by destruct (Hscan s)].
  assert (s' = s) as ->.
  { destruct Hscan as [Hr' Hmin']. destruct (Z.lt_trichotomy s' s) as [Hlt|[->|Hlt]]; [|done|].
    - by destruct (Hmin s' Hlt).
    - by destruct (Hmin' s Hlt). }
  cbn [found mbind res_bind]. destruct (Z.eqb_spec s (-1)); [lia|].
  pose proof (set_pieces_ok (bitmap p) (npieces p) s k true Hc Hs ltac:(lia) Hend) as Hsp.
  assert (run_is (bitmap p) s (Z.to_nat k) false) as Hri
    by (apply (run_is_free _ (npieces p)); rewrite ?Z2Nat.id by lia; done || lia).
  destruct (set_pieces (bitmap p) s k true) as [bm| | |]; [|destruct Hsp as [_ (i & Hi & Hb)];
    rewrite Hri in Hb by lia; done|done..].
  destruct Hsp as (_ & Hlen & Hbits). by exists bm.
Qed.

(** The rest of [_kmalloc]: the block is blank, and its header is written. *)
Lemma kmalloc_hit p rest size s : pool_ok p -> 0 < size < 2 ^ 31 ->
  first_fit (bits (bitmap p) (npieces p)) (request_pieces size) s ->
  exists bm, zlen bm = zlen (bitmap p) /\
    bits bm (npieces p) = fill (bits (bitmap p) (npieces p)) s (Z.to_nat (request_pieces size)) true /\
    kmalloc newpool (p :: rest) size
    = Ok (taken p s (request_pieces size) bm :: rest, start p + (s + 1) * POOL_PIECE_SIZE).
Proof.
  intros Hok Hsz Hff. pose proof (request_bounds size Hsz) as [Hk _].
  pose proof Hff as [Hrun Hmin]. pose proof (free_count p s (request_pieces size) Hok ltac:(lia) Hrun) as Hfree.
  pose proof (free_run_bound _ s (request_pieces size) ltac:(lia) Hrun) as Hend. pose proof Hrun as [Hs _].
  destruct Hok as (Hn & Hc & Hm & Hf & Hbl & Hst & Hal & Hlk). rewrite zlen_bits in Hend by lia.
  unfold kmalloc, _kmalloc. destruct (Z.eqb_spec size 0); [lia|].
  change (ceil_to_alignment 12 / POOL_PIECE_SIZE) with 1. fold (request_pieces size).
  set (k := request_pieces size) in *.
  unfold spinlock_acquire at 1. cbn [lookup list_lookup]. rewrite Hlk. cbn [mbind res_bind insert list_insert Nat.add].
  destruct (kmalloc_loop_hit (S (length (set_lock p true :: rest))) (set_lock p true) rest (ceil_to_alignment size) k s)
    as (bm & Hlen & Hbits & ->); [cbn; done || lia..|].
  exists bm. split_and!; [done|done|].
  cbn [mbind res_bind]. unfold spinlock_release. cbn [lookup list_lookup mbind res_bind insert list_insert res_of_option].
  change (set_lock (take_pieces (set_lock p true) bm k) false)
    with (mk_pool (npieces p) (u32 (free_pieces p - k)) (start p) false bm (mem p)).
  cbn [start].
  assert (run_is (bitmap p) s (Z.to_nat k) false) as Hri
    by (apply (run_is_free _ (npieces p)); rewrite ?Z2Nat.id by lia; done || lia).
  pose proof (zeroed_run (bitmap p) (mem p) (npieces p) s (Z.to_nat k) Hbl Hs ltac:(lia) Hri) as Hz.
  rewrite Z2Nat.id in Hz by lia.
  rewrite (u64_small (start p + (s + 1) * POOL_PIECE_SIZE)) by (unfold POOL_PIECE_SIZE in *; lia).
  rewrite (block_addr (start p) s) by (unfold POOL_PIECE_SIZE in *; done || lia).
  cbn [read_bytes start mem]. unfold POOL_PIECE_SIZE in *.
  destruct (Z.leb_spec (start p) (start p + s * 16)); [|lia].
  destruct (Z.leb_spec (start p + s * 16 + k * 16) (start p + zlen (mem p))); [|lia].
  cbn [andb mbind res_bind]. rewrite Z.add_simpl_l.
  rewrite (zeroed_slice (mem p) (s * 16) (k * 16) ltac:(lia) ltac:(lia) Hz), forallb_zero. cbn [negb write_bytes start mem].
  rewrite block_header_len.
  destruct (Z.leb_spec (start p) (start p + s * 16)); [|lia].
  destruct (Z.leb_spec (start p + s * 16 + 12) (start p + zlen (mem p))); [|lia].
  pose proof (count_set_bound (bits (bitmap p) (npieces p))). cbn [andb mbind res_bind]. rewrite Z.add_simpl_l, !u32_small by lia. done.
Qed.
End PoolOps.

Lemma blank_taken p s k bm : pool_ok p -> 0 <= s -> 0 < k -> s + k <= npieces p ->
  bits bm (npieces p) = fill (bits (bitmap p) (npieces p)) s (Z.to_nat k) true ->
  blank bm (mem (taken p s k bm)) (npieces p).
Proof.
  intros (Hn & Hc & Hm & Hf & Hbl & _) Hs Hk Hend Hbits i Hi Hb x Hx. cbn [taken mem].
  rewrite (fill_bit _ _ _ _ _ _ Hbits Hs i Hi) in Hb. case_decide as Hd; [done|].
  rewrite splice_lookup_out; [by apply (Hbl i Hi Hb)|..];
    rewrite ?block_header_len; unfold POOL_PIECE_SIZE in *; lia.
Qed.

Lemma taken_ok p s k bm : pool_ok p -> 0 < k -> free_run (bits (bitmap p) (npieces p)) s k ->
  zlen bm = zlen (bitmap p) ->
  bits bm (npieces p) = fill (bits (bitmap p) (npieces p)) s (Z.to_nat k) true ->
  pool_ok (taken p s k bm).
Proof.
  intros Hok Hk Hrun Hlen Hbits. pose proof Hrun as [Hs Hall].
  pose proof (free_run_bound _ s k Hk Hrun) as Hend. pose proof Hok as (Hn & Hc & Hm & Hf & Hbl & Hst & Hal & Hlk).
  rewrite zlen_bits in Hend by lia.
  split_and!; cbn [taken npieces bitmap mem free_pieces start lock]; try done; try lia.
  - unfold covers in *. by rewrite Hlen.
  - rewrite zlen_splice; [done|..]; rewrite ?block_header_len; unfold POOL_PIECE_SIZE in *; lia.
  - rewrite Hbits, count_set_fill, Hf by (try done; rewrite Z2Nat.id by lia; done). lia.
  - by apply blank_taken.
Qed.

(** C8: [kmalloc] is first fit in the root pool.  When a run of pieces for the request and its
    header is free there, the lowest one is taken: exactly its bits are set, the free count
    drops by its length, the bytes handed out are zero and hold the whole request, every byte
    outside the block header keeps its value, other pools are untouched, the lock is released
    and the pool stays well formed. *)
Theorem kmalloc_first_fit (newpool : Z -> pool) (p : pool) (rest : list pool) (size s : Z) :
  pool_ok p -> 0 < size < 2 ^ 31 -> first_fit (bits (bitmap p) (npieces p)) (request_pieces size) s ->
  exists p', kmalloc newpool (p :: rest) size = Ok (p' :: rest, start p + (s + 1) * POOL_PIECE_SIZE) /\
    pool_ok p' /\ free_pieces p' = free_pieces p - request_pieces size /\
    bits (bitmap p') (npieces p)
      = fill (bits (bitmap p) (npieces p)) s (Z.to_nat (request_pieces size)) true /\
    zeroed (mem p') ((s + 1) * POOL_PIECE_SIZE) size /\
    (forall x, 0 <= x -> x < s * POOL_PIECE_SIZE \/ s * POOL_PIECE_SIZE + 12 <= x ->
       mem p' !! Z.to_nat x = mem p !! Z.to_nat x).
Proof.
  intros Hok Hsz Hff. pose proof (request_bounds size Hsz) as [Hk Hlen].
  destruct (kmalloc_hit newpool p rest size s Hok Hsz Hff) as (bm & Hl & Hbits & Heq).
  pose proof Hff as [Hrun _]. pose proof Hrun as [Hs _].
  pose proof (free_run_bound _ s (request_pieces size) ltac:(lia) Hrun) as Hend.
  pose proof Hok as (Hn & Hc & Hm & Hf & Hbl & Hst & Hal & Hlk). rewrite zlen_bits in Hend by lia.
  set (k := request_pieces size) in *. exists (taken p s k bm).
  assert (forall x, 0 <= x -> x < s * POOL_PIECE_SIZE \/ s * POOL_PIECE_SIZE + 12 <= x ->
    mem (taken p s k bm) !! Z.to_nat x = mem p !! Z.to_nat x) as Hout.
  { intros x Hx Hor. apply splice_lookup_out; rewrite ?block_header_len; unfold POOL_PIECE_SIZE in *; lia. }
  split_and!; [done|by apply taken_ok; [|lia|..]|done|done| |done].
  intros x Hx. rewrite Hout by (unfold POOL_PIECE_SIZE in *; lia).
  assert (run_is (bitmap p) s (Z.to_nat k) false) as Hri
    by (apply (run_is_free _ (npieces p)); rewrite ?Z2Nat.id by lia; done || lia).
  apply (zeroed_run (bitmap p) (mem p) (npieces p) s (Z.to_nat k) Hbl Hs ltac:(lia) Hri).
  unfold POOL_PIECE_SIZE in *. lia.
Qed.

Definition small_pool : pool := mk_pool 8 5 4096 false [19] (replicate 128 0).

Lemma zeroed_replicate k off n : 0 <= off -> off + n <= Z.of_nat k -> zeroed (replicate k 0) off n.
Proof. intros Ho Hk x Hx. apply lookup_replicate_2. lia. Qed.

Lemma small_pool_ok : pool_ok small_pool.
Proof.
  split_and!; try (vm_compute; done). intros i Hi _. apply zeroed_replicate; unfold POOL_PIECE_SIZE in *; simpl in *; lia.
Qed.

Lemma small_pool_fit : first_fit (bits (bitmap small_pool) (npieces small_pool)) (request_pieces 20) 5.
Proof. exact (scan_first_fit (bits (bitmap small_pool) (npieces small_pool)) (request_pieces 20) ltac:(vm_compute; done)). Qed.

Lemma kmalloc_first_fit_witness :
  exists p', kmalloc (fun _ => small_pool) [small_pool] 20 = Ok ([p'], 4096 + (5 + 1) * POOL_PIECE_SIZE) /\
    pool_ok p' /\ free_pieces p' = 5 - request_pieces 20 /\
    bits (bitmap p') 8 = fill (bits [19] 8) 5 (Z.to_nat (request_pieces 20)) true /\
    zeroed (mem p') ((5 + 1) * POOL_PIECE_SIZE) 20 /\
    (forall x, 0 <= x -> x < 5 * POOL_PIECE_SIZE \/ 5 * POOL_PIECE_SIZE + 12 <= x ->
       mem p' !! Z.to_nat x = replicate 128 0 !! Z.to_nat x).
Proof. exact (kmalloc_first_fit (fun _ => small_pool) small_pool [] 20 5 small_pool_ok ltac:(lia) small_pool_fit). Defined.

(** When the request fits in no run of the root pool and there is no third pool, [kmalloc]
    faults: after adding a pool it takes the lock of the pool after the new one, which does
    not exist. *)
Theorem kmalloc_growth_faults (newpool : Z -> pool) (p : pool) (size : Z) :
  pool_ok p -> 0 < size < 2 ^ 31 ->
  (forall s, ~ free_run (bits (bitmap p) (npieces p)) s (request_pieces size)) ->
  kmalloc newpool [p] size = Fault.
Proof.
  intros (Hn & Hc & Hm & Hf & Hbl & Hst & Hal & Hlk) Hsz Hno. pose proof (request_bounds size Hsz) as [Hk _].
  unfold kmalloc, _kmalloc. destruct (Z.eqb_spec size 0); [lia|].
  change (ceil_to_alignment 12 / POOL_PIECE_SIZE) with 1. fold (request_pieces size).
  set (k := request_pieces size) in *.
  unfold spinlock_acquire at 1. cbn [lookup list_lookup]. rewrite Hlk. cbn [mbind res_bind insert list_insert Nat.add length].
  cbn [kmalloc_loop lookup list_lookup res_of_option mbind res_bind].
  change (free_pieces (set_lock p true)) with (free_pieces p).
  destruct (free_pieces p <? k); [done|]. change (0 =? -1) with false.
  cbn [orb lookup list_lookup res_of_option mbind res_bind].
  rewrite find_space_ok by (done || (cbn; lia)).
  change (bits (bitmap (set_lock p true)) (npieces (set_lock p true))) with (bits (bitmap p) (npieces p)).
  pose proof (scan_first_fit (bits (bitmap p) (npieces p)) k ltac:(lia)) as Hscan.
  destruct (scan _ 0 (-1) 0 k) as [s|]; [by destruct (Hno s), Hscan|]. cbn. by rewrite orb_true_r.
Qed.

Lemma kmalloc_growth_faults_witness : kmalloc (fun _ => small_pool) [small_pool] 64 = Fault.
Proof.
  apply (kmalloc_growth_faults (fun _ => small_pool) small_pool 64 small_pool_ok); [lia|].
  exact (scan_first_fit (bits (bitmap small_pool) (npieces small_pool)) (request_pieces 64) ltac:(vm_compute; done)).
Defined.

(** ** Release *)

Lemma splice_lookup {A} (m bs : list A) off x : 0 <= off -> off + zlen bs <= zlen m -> 0 <= x ->
  splice m off bs !! Z.to_nat x
  = if decide (off <= x < off + zlen bs) then bs !! Z.to_nat (x - off) else m !! Z.to_nat x.
Proof.
  intros Ho Hl Hx. case_decide as Hd; [|apply splice_lookup_out; lia].
  unfold splice, zlen in *. rewrite lookup_app_r by (rewrite length_take; lia).
  rewrite lookup_app_l by (rewrite length_take; lia). f_equal. rewrite length_take. lia.
Qed.

(** The memory of the pool after a block was cleared. *)
Definition wiped (p : pool) (s k : Z) : list Z :=
  splice (mem p) (s * POOL_PIECE_SIZE) (replicate (Z.to_nat (k * POOL_PIECE_SIZE)) 0).

(** A block of [k] pieces that starts at piece [s]. *)
Definition block_at (p : pool) (s k : Z) : Prop :=
  0 <= s /\ 0 < k /\ s + k <= npieces p /\ run_is (bitmap p) s (Z.to_nat k) true /\
  le_val (slice (mem p) (s * POOL_PIECE_SIZE + BLOCK_PIECES_OFFSET) 4) = k - 1.

Lemma free_block_header p rest s : pool_ok p -> 0 <= s < npieces p ->
  get_block_from_ext_addr (start p + (s + 1) * POOL_PIECE_SIZE) = start p + s * POOL_PIECE_SIZE /\
  find_parent (p :: rest) 0 (start p + s * POOL_PIECE_SIZE) = Some (0%nat, p) /\
  addr_to_piece p (start p + s * POOL_PIECE_SIZE) = s /\
  read32 (set_lock p true :: rest) (start p + s * POOL_PIECE_SIZE + BLOCK_PIECES_OFFSET)
  = Ok (le_val (slice (mem p) (s * POOL_PIECE_SIZE + BLOCK_PIECES_OFFSET) 4)).
Proof.
  intros (Hn & Hc & Hm & _ & _ & Hst & Hal & _) Hs. unfold BLOCK_PIECES_OFFSET. split_and!.
  - apply block_addr; unfold POOL_PIECE_SIZE in *; done || lia.
  - cbn [find_parent]. unfold POOL_PIECE_SIZE in *. rewrite u64_small by lia. rewrite Z.geb_leb.
    destruct (Z.leb_spec (start p + s * 16 - start p) (npieces p * 16)); [|lia].
    by destruct (Z.leb_spec (start p) (start p + s * 16)); [|lia].
  - unfold addr_to_piece, POOL_PIECE_SIZE in *. rewrite u64_small by lia. rewrite Z.add_simpl_l. by apply Z.div_mul.
  - cbn [read32 set_lock start mem]. unfold POOL_PIECE_SIZE in *.
    destruct (Z.leb_spec (start p) (start p + s * 16 + 8)); [|lia].
    destruct (Z.leb_spec (start p + s * 16 + 8 + 4) (start p + zlen (mem p))); [|lia]. cbn [andb].
    do 3 f_equal. lia.
Qed.

Lemma kfree_hit p rest s k : pool_ok p -> block_at p s k ->
  exists bm, zlen bm = zlen (bitmap p) /\
    bits bm (npieces p) = fill (bits (bitmap p) (npieces p)) s (Z.to_nat k) false /\
    kfree (p :: rest) (start p + (s + 1) * POOL_PIECE_SIZE)
    = Ok (mk_pool (npieces p) (free_pieces p + k) (start p) false bm (wiped p s k) :: rest).
Proof.
  intros Hok (Hs & Hk & Hend & Hrun & Hhdr).
  destruct (free_block_header p rest s Hok ltac:(lia)) as (Hb1 & Hb2 & Hb3 & Hb4).
  destruct Hok as (Hn & Hc & Hm & Hf & Hbl & Hst & Hal & Hlk).
  unfold kfree, _kfree. destruct (Z.eqb_spec (start p + (s + 1) * POOL_PIECE_SIZE) 0);
    [unfold POOL_PIECE_SIZE in *; lia|].
  rewrite Hb1, Hb2. unfold spinlock_acquire. cbn [lookup list_lookup]. rewrite Hlk.
  cbn [mbind res_bind insert list_insert]. rewrite Hb4, Hhdr. cbn [mbind res_bind].
  rewrite Hb3. replace (k - 1 + 1) with k by lia. rewrite (u32_small k) by lia.
  pose proof (set_pieces_ok (bitmap p) (npieces p) s k false Hc Hs Hk Hend) as Hsp.
  destruct (set_pieces (bitmap p) s k false) as [bm| | |]; [|destruct Hsp as [_ (i & Hi & Hb)];
    rewrite Hrun in Hb by lia; done|done..].
  destruct Hsp as (_ & Hlen & Hbits). exists bm. split_and!; [done|done|]. cbn [mbind res_bind].
  rewrite (u32_small (k * POOL_PIECE_SIZE)) by (unfold POOL_PIECE_SIZE; lia).
  rewrite Z.add_simpl_l, memset_ok by (unfold POOL_PIECE_SIZE in *; lia). cbn [mbind res_bind].
  unfold give_pieces. rewrite u32_small; [done|].
  pose proof (count_set_bound (bits (bitmap p) (npieces p))) as Hcb0.
  rewrite zlen_bits in Hcb0 by lia.
  pose proof (count_set_bound (bits bm (npieces p))) as Hcb. rewrite Hbits, count_set_fill in Hcb;
    [cbv iota in Hcb; lia|lia|].
  intros i Hi. rewrite bits_lookup by lia. by rewrite Hrun by lia.
Qed.

(** The header [kmalloc] wrote is the one [kfree] reads. *)
Lemma taken_header p s k bm : 0 <= s -> 0 < k < 2 ^ 28 -> s * POOL_PIECE_SIZE + 12 <= zlen (mem p) ->
  le_val (slice (mem (taken p s k bm)) (s * POOL_PIECE_SIZE + BLOCK_PIECES_OFFSET) 4) = k - 1.
Proof.
  intros Hs Hk Hl. rewrite <- (le_bytes_val 4 (k - 1)) by lia. f_equal.
  cbn [taken mem]. unfold slice, BLOCK_PIECES_OFFSET. apply list_eq. intros i.
  destruct (decide (i < 4)%nat) as [Hi|Hi].
  - rewrite lookup_take, decide_True, lookup_drop by lia.
    replace (Z.to_nat (s * POOL_PIECE_SIZE + 8) + i)%nat with (Z.to_nat (s * POOL_PIECE_SIZE + 8 + Z.of_nat i))
      by (unfold POOL_PIECE_SIZE in *; lia).
    rewrite splice_lookup by (rewrite ?block_header_len; unfold POOL_PIECE_SIZE in *; lia).
    rewrite block_header_len, decide_True by lia.
    replace (Z.to_nat (s * POOL_PIECE_SIZE + 8 + Z.of_nat i - s * POOL_PIECE_SIZE)) with (8 + i)%nat by lia.
    reflexivity.
  - rewrite !lookup_ge_None_2; [done|rewrite length_le_bytes; lia|rewrite length_take; lia].
Qed.

Lemma wiped_taken p s k bm : pool_ok p -> 0 <= s -> 0 < k -> s + k <= npieces p ->
  run_is (bitmap p) s (Z.to_nat k) false -> wiped (taken p s k bm) s k = mem p.
Proof.
  intros (Hn & Hc & Hm & Hf & Hbl & _) Hs Hk Hend Hrun. unfold wiped. cbn [taken mem].
  pose proof (zeroed_run (bitmap p) (mem p) (npieces p) s (Z.to_nat k) Hbl Hs ltac:(lia) Hrun) as Hz.
  rewrite Z2Nat.id in Hz by lia. unfold POOL_PIECE_SIZE in *.
  assert (zlen (replicate (Z.to_nat (k * 16)) 0) = k * 16) as Hlr by (unfold zlen; rewrite length_replicate; lia).
  assert (zlen (splice (mem p) (s * 16) (block_header s (k - 1))) = zlen (mem p)) as Hl1
    by (apply zlen_splice; rewrite ?block_header_len; lia).
  apply list_eq. intros i. destruct (decide (i < length (mem p))%nat) as [Hi|Hi].
  - replace i with (Z.to_nat (Z.of_nat i)) by lia. rewrite splice_lookup by (rewrite ?Hlr, ?Hl1; lia).
    rewrite Hlr. case_decide as Hd; [by rewrite Hz, lookup_replicate_2 by lia|].
    apply splice_lookup_out; rewrite ?block_header_len; lia.
  - rewrite !lookup_ge_None_2; [done|lia|].
    pose proof (zlen_splice (splice (mem p) (s * 16) (block_header s (k - 1)))
      (replicate (Z.to_nat (k * 16)) 0) (s * 16)) as Hz2. unfold zlen in *. lia.
Qed.

Lemma same_bits bm bm' n : bits bm' n = bits bm n -> forall i, 0 <= i < n -> bit bm' i = bit bm i.
Proof.
  intros Hb i Hi. pose proof (bits_lookup bm' n i Hi) as H1. rewrite Hb, bits_lookup in H1 by done. by simplify_eq.
Qed.

(** A free piece reads as a block of one piece, which [set_pieces] refuses to free. *)
Lemma kfree_blank_panics p rest s : pool_ok p -> 0 <= s < npieces p -> bit (bitmap p) s = false ->
  kfree (p :: rest) (start p + (s + 1) * POOL_PIECE_SIZE)
  = Panic "mempool: Attempt to free an already-freed piece".
Proof.
  intros Hok Hs Hb. destruct (free_block_header p rest s Hok Hs) as (Hb1 & Hb2 & Hb3 & Hb4).
  destruct Hok as (Hn & Hc & Hm & Hf & Hbl & Hst & Hal & Hlk).
  unfold kfree, _kfree. destruct (Z.eqb_spec (start p + (s + 1) * POOL_PIECE_SIZE) 0);
    [unfold POOL_PIECE_SIZE in *; lia|].
  rewrite Hb1, Hb2. unfold spinlock_acquire. cbn [lookup list_lookup]. rewrite Hlk.
  cbn [mbind res_bind insert list_insert]. rewrite Hb4, Hb3. cbn [mbind res_bind].
  rewrite zeroed_slice; [|unfold POOL_PIECE_SIZE, BLOCK_PIECES_OFFSET; lia|lia|].
  - change (u32 (le_val (replicate (Z.to_nat 4) 0) + 1)) with 1.
    pose proof (set_pieces_ok (bitmap p) (npieces p) s 1 false Hc ltac:(lia) ltac:(lia) ltac:(lia)) as Hsp.
    destruct (set_pieces (bitmap p) s 1 false) as [bm|m| |]; try done.
    + destruct Hsp as [Hr _]. rewrite Hr in Hb by lia. done.
    + by destruct Hsp as [-> _].
  - intros x Hx. apply (Hbl s Hs Hb). unfold POOL_PIECE_SIZE, BLOCK_PIECES_OFFSET in *. lia.
Qed.

(** [kfree] undoes [kmalloc]: after both the pool has the same free pieces, the same free
    count and byte for byte the same memory, and the lock is free; freeing the pointer once
    more is caught as a panic. *)
Theorem kmalloc_kfree_restore (newpool : Z -> pool) (p : pool) (rest : list pool) (size s : Z) :
  pool_ok p -> 0 < size < 2 ^ 31 -> first_fit (bits (bitmap p) (npieces p)) (request_pieces size) s ->
  exists p' addr p'', kmalloc newpool (p :: rest) size = Ok (p' :: rest, addr) /\
    kfree (p' :: rest) addr = Ok (p'' :: rest) /\
    mem p'' = mem p /\ free_pieces p'' = free_pieces p /\ start p'' = start p /\ lock p'' = false /\
    bits (bitmap p'') (npieces p'') = bits (bitmap p) (npieces p) /\
    kfree (p'' :: rest) addr = Panic "mempool: Attempt to free an already-freed piece".
Proof.
  intros Hok Hsz Hff. pose proof (request_bounds size Hsz) as [Hk _].
  destruct (kmalloc_hit newpool p rest size s Hok Hsz Hff) as (bm & Hl & Hbits & Heq).
  pose proof Hff as [Hrun _]. pose proof Hrun as [Hs _].
  pose proof (free_run_bound _ s (request_pieces size) ltac:(lia) Hrun) as Hend.
  pose proof Hok as (Hn & Hc & Hm & Hf & Hbl & Hst & Hal & Hlk). rewrite zlen_bits in Hend by lia.
  set (k := request_pieces size) in *.
  assert (run_is (bitmap p) s (Z.to_nat k) false) as Hri
    by (apply (run_is_free _ (npieces p)); rewrite ?Z2Nat.id by lia; done || lia).
  assert (pool_ok (taken p s k bm)) as Hok' by (apply taken_ok; [done|lia|done..]).
  assert (block_at (taken p s k bm) s k) as Hblk.
  { split_and!; [done|lia|done| |apply taken_header; unfold POOL_PIECE_SIZE in *; lia].
    intros i Hi. cbn [taken bitmap]. rewrite (fill_bit _ _ _ _ _ _ Hbits Hs) by lia. by rewrite decide_True. }
  destruct (kfree_hit (taken p s k bm) rest s k Hok' Hblk) as (bm2 & Hl2 & Hbits2 & Hfree).
  cbn [taken npieces bitmap free_pieces start] in Hbits2, Hfree, Hl2.
  rewrite wiped_taken in Hfree by (done || lia).
  rewrite Hbits, fill_restore in Hbits2 by (by rewrite Z2Nat.id by lia).
  eexists _, _, _. split; [exact Heq|]. split; [exact Hfree|].
  cbn [mem free_pieces start lock bitmap npieces]. split_and!; try done; [lia|].
  apply (kfree_blank_panics (mk_pool (npieces p) (free_pieces p - k + k) (start p) false bm2 (mem p))); [|cbn; lia|].
  - unfold covers in *. split_and!; cbn [npieces bitmap mem free_pieces start lock]; try done; try lia.
    + unfold covers. lia.
    + rewrite Hbits2. lia.
    + intros i Hi Hb. apply Hbl; [done|]. rewrite <- (same_bits _ _ _ Hbits2) by done. done.
  - cbn [bitmap]. rewrite (same_bits _ _ _ Hbits2) by lia. apply Hri. lia.
Qed.

Lemma kmalloc_kfree_restore_witness :
  exists p' addr p'', kmalloc (fun _ => small_pool) [small_pool] 20 = Ok ([p'], addr) /\
    kfree [p'] addr = Ok [p''] /\
    mem p'' = mem small_pool /\ free_pieces p'' = free_pieces small_pool /\ start p'' = start small_pool /\
    lock p'' = false /\ bits (bitmap p'') (npieces p'') = bits (bitmap small_pool) (npieces small_pool) /\
    kfree [p''] addr = Panic "mempool: Attempt to free an already-freed piece".
Proof. exact (kmalloc_kfree_restore (fun _ => small_pool) small_pool [] 20 5 small_pool_ok ltac:(lia) small_pool_fit). Defined.
