(* ===== verification/Paging.v ===== *)
(** * Virtual memory: the page tables of arch/x64/page.c

    Page tables live in physical pages; [tabs] gives the 512 entries of each page that holds one.
    [aim_pgsptr] moves a one-page window onto such a page, so a pointer into the window is the
    address of the page it was aimed at.  The TLB flushes leave no trace.  [proot] is never NULL:
    the code puts [kernel_pmap] in its place.  Both spinlocks are taken and released around each
    operation, which is one step.  Frames come from an interface that mem/frame.c implements. *)
From S2P Require Import Prelude Bitmap Frame.

Definition PAGE_PRESENT : Z := 1.
Definition PAGE_WRITE : Z := 2.
Definition PAGE_USER : Z := 4.
Definition PAGE_NOPHYS : Z := 512.
Definition MEM_PAGE_SIZE : Z := 4096.

(** [x & MEM_PAGE_MASK], the mask being [~0xFFF]; [x & ~MEM_PAGE_MASK]. *)
Definition page_mask (x : Z) : Z := Z.land x (Z.lnot 4095).
Definition page_flags (x : Z) : Z := Z.land x 4095.

(** ** What paging needs of the frame allocator *)
Class FrameSource (F : Type) := {
  (** [kfpaddrof(kfcalloc(amount))] *)
  frame_run : F -> Z -> res (F * Z);
  (** [kffree(kfindexof(addr))] *)
  frame_drop : F -> Z -> res F;
  (** The frame at an address is in use. *)
  taken : F -> Z -> Prop;
  source_ok : F -> Prop }.

Class FrameSourceLaws (F : Type) `{FrameSource F} :=
  law_new_frame : forall f, source_ok f ->
    (exists f' a, frame_run f 1 = Ok (f', a) /\ source_ok f' /\ 0 <= a < 2 ^ 64 /\ a mod MEM_PAGE_SIZE = 0 /\ ~ taken f a /\
       forall b, taken f' b <-> b = a \/ taken f b) \/
    frame_run f 1 = Panic "Failed to allocate contiguous frames".

#[global] Instance frames_source : FrameSource frames := {
  frame_run := fun st amount => '(st', id) ← kfcalloc st amount; a ← kfpaddrof st' id; Ok (st', a);
  frame_drop := fun st addr => id ← kfindexof st addr; kffree st id;
  taken := fun st a => exists id, 0 <= id /\ flat st !! Z.to_nat id = Some true /\ kfpaddrof st id = Ok a;
  source_ok := fun st => frames_ok st /\ layout_ok st /\ Forall (fun p => pstart p mod MEM_PAGE_SIZE = 0) (pieces st) }.

(** [pagemap_t] *)
Record pagemap := mk_pagemap {
  root_dir : Z; vstart : Z; vend : Z; pm_frames_used : Z; dir_frames_used : Z; map_frames_used : Z }.

Definition add_frames (p : pagemap) (n : Z) : pagemap :=
  mk_pagemap (root_dir p) (vstart p) (vend p) (u64 (pm_frames_used p + n)) (dir_frames_used p) (map_frames_used p).
Definition add_dir (p : pagemap) (n : Z) : pagemap :=
  mk_pagemap (root_dir p) (vstart p) (vend p) (pm_frames_used p) (u64 (dir_frames_used p + n)) (map_frames_used p).
Definition add_map (p : pagemap) (n : Z) : pagemap :=
  mk_pagemap (root_dir p) (vstart p) (vend p) (pm_frames_used p) (dir_frames_used p) (u64 (map_frames_used p + n)).

Section Paging.
Context {F : Type} `{FrameSource F}.

Record pg := mk_pg { fr : F; tabs : gmap Z (list Z); pmap : pagemap }.

Definition set_tabs (s : pg) m := mk_pg (fr s) m (pmap s).
Definition set_pmap (s : pg) p := mk_pg (fr s) (tabs s) p.

(** [table[i]], read and written. *)
Definition rd (m : gmap Z (list Z)) (t i : Z) : res Z := tb ← res_of_option (m !! t); load tb i.
Definition wr (m : gmap Z (list Z)) (t i e : Z) : res (gmap Z (list Z)) :=
  tb ← res_of_option (m !! t); tb ← store tb i e; Ok (<[t := tb]> m).

(** [(virt_addr >> shift) & 0x1FF] *)
Definition pg_index (virt_addr shift : Z) : Z := Z.land (Z.shiftr virt_addr shift) 511.

(** [_mempg_find_table]: the table and how far [*skip] moves when there is none. *)
Fixpoint find_levels (n : nat) (m : gmap Z (list Z)) (t virt_addr shift : Z) : res (option Z * Z) :=
  match n with
  | O => Ok (Some (page_mask t), 0)
  | S n' =>
      e ← rd m (page_mask t) (pg_index virt_addr shift);
      if e =? 0 then Ok (None, Z.shiftl 1 shift)
      else find_levels n' m (page_mask e) virt_addr (shift - 9)
  end.

Definition _mempg_find_table (s : pg) (virt_addr skip : Z) : res (option Z * Z) :=
  '(t, d) ← find_levels 3 (tabs s) (root_dir (pmap s)) virt_addr 39;
  Ok (t, u64 (skip + d)).

Definition mempg_find_table (s : pg) (virt_addr : Z) : res (option Z) :=
  '(t, _) ← _mempg_find_table s virt_addr 0; Ok t.

(** The loop of [mempg_find_table_ensure] from the table [t] on. *)
Fixpoint ensure_levels (n : nat) (s : pg) (t virt_addr shift : Z) : res (pg * Z) :=
  match n with
  | O => Ok (s, t)
  | S n' =>
      let index := pg_index virt_addr shift in
      e ← rd (tabs s) t index;
      if Z.land e PAGE_PRESENT =? 0 then
        '(f, a) ← frame_run (fr s) 1;
        let e := Z.lor (Z.lor (Z.lor a PAGE_USER) PAGE_WRITE) PAGE_PRESENT in
        m ← wr (tabs s) t index e;
        let m := <[page_mask e := replicate 512 0]> m in
        ensure_levels n' (mk_pg f m (add_dir (pmap s) 1)) (page_mask e) virt_addr (shift - 9)
      else
        let e := Z.lor e (Z.lor (Z.lor PAGE_USER PAGE_WRITE) PAGE_PRESENT) in
        m ← wr (tabs s) t index e;
        ensure_levels n' (set_tabs s m) (page_mask e) virt_addr (shift - 9)
  end.

Definition mempg_find_table_ensure (s : pg) (virt_addr : Z) : res (pg * Z) :=
  ensure_levels 3 s (page_mask (root_dir (pmap s))) virt_addr 39.

(** The loop of [mempg_find_contiguous]; [tb] is the current table. *)
Fixpoint contiguous_loop (fuel : nat) (s : pg) (tb index virt start combo amount : Z) : res Z :=
  match fuel with
  | O => OutOfFuel
  | S f =>
      o ← (if index >=? 512 then t ← mempg_find_table s virt; Ok (t, 0) else Ok (Some tb, index));
      match o with
      | (None, _) =>
          let combo := u64 (combo + 512) in
          let virt := u64 (virt + MEM_PAGE_SIZE * 512) in
          if combo >=? amount then Ok start else contiguous_loop f s tb 512 virt start combo amount
      | (Some tb, index) =>
          e ← rd (tabs s) tb index;
          if negb (e =? 0) then
            let virt := u64 (virt + MEM_PAGE_SIZE) in contiguous_loop f s tb (index + 1) virt virt 0 amount
          else if u64 (combo + 1) >=? amount then Ok start
          else contiguous_loop f s tb (index + 1) (u64 (virt + MEM_PAGE_SIZE)) start (u64 (combo + 1)) amount
      end
  end.

(** NULL for no pages. *)
Definition mempg_find_contiguous (fuel : nat) (s : pg) (amount : Z) : res (pg * Z) :=
  if amount =? 0 then Ok (s, 0)
  else
    let vs := vstart (pmap s) in
    o ← mempg_find_table s vs;
    '(s, tb) ← (match o with Some tb => Ok (s, tb) | None => mempg_find_table_ensure s vs end);
    start ← contiguous_loop fuel s tb (pg_index vs 12) vs vs 0 amount;
    Ok (s, start).

Definition mempg_assign (s : pg) (virt phys flags : Z) : res pg :=
  let virt_addr := page_mask virt in
  '(s, table) ← mempg_find_table_ensure s virt_addr;
  m ← wr (tabs s) table (pg_index virt_addr 12) (Z.lor (Z.lor (page_mask phys) flags) PAGE_PRESENT);
  Ok (set_tabs s m).

Definition mempg_remove (s : pg) (virt : Z) : res (pg * Z) :=
  let virt_addr := page_mask virt in
  '(s, table) ← mempg_find_table_ensure s virt_addr;
  let index := pg_index virt_addr 12 in
  e ← rd (tabs s) table index;
  m ← wr (tabs s) table index 0;
  Ok (set_tabs s m, page_flags e).

Definition _kppaddrof (s : pg) (virt : Z) : res (pg * Z) :=
  let virt_addr := page_mask virt in
  '(s, table) ← mempg_find_table_ensure s virt_addr;
  e ← rd (tabs s) table (pg_index virt_addr 12);
  Ok (s, u64 (page_mask e + page_flags virt)).

Definition kppaddrof (s : pg) (virt : Z) : res (pg * Z) := _kppaddrof s virt.

(** [for (i = 0; i < amount; i++) { mempg_assign(virt, phys, ...); phys += ...; virt += ...; }] *)
Fixpoint assign_loop (n : nat) (s : pg) (virt phys flags : Z) : res pg :=
  match n with
  | O => Ok s
  | S n' =>
      s ← mempg_assign s virt phys flags;
      assign_loop n' s (u64 (virt + MEM_PAGE_SIZE)) (u64 (phys + MEM_PAGE_SIZE)) flags
  end.

Definition kpcalloc (fuel : nat) (s : pg) (amount flags : Z) : res (pg * Z) :=
  if amount =? 0 then Ok (s, 0)
  else
    let flags := Z.land flags 4095 in
    '(f, phys) ← frame_run (fr s) amount;
    '(s, virt) ← mempg_find_contiguous fuel (mk_pg f (tabs s) (pmap s)) amount;
    s ← assign_loop (Z.to_nat amount) s virt phys flags;
    Ok (set_pmap s (add_frames (pmap s) amount), virt).

Fixpoint valloc_loop (n : nat) (s : pg) (virt flags : Z) : res pg :=
  match n with
  | O => Ok s
  | S n' =>
      '(f, phys) ← frame_run (fr s) 1;
      s ← mempg_assign (mk_pg f (tabs s) (pmap s)) virt phys flags;
      valloc_loop n' s (u64 (virt + MEM_PAGE_SIZE)) flags
  end.

Definition kpvalloc (s : pg) (amount virt flags : Z) : res (pg * Z) :=
  if amount =? 0 then Ok (s, 0)
  else
    s ← valloc_loop (Z.to_nat amount) s virt (Z.land flags 4095);
    Ok (set_pmap s (add_frames (pmap s) amount), virt).

Fixpoint free_loop (n : nat) (s : pg) (virt : Z) : res pg :=
  match n with
  | O => Ok s
  | S n' =>
      '(s, paddr) ← _kppaddrof s virt;
      '(s, flags) ← mempg_remove s virt;
      s ← (if Z.land flags PAGE_NOPHYS =? 0 then
             f ← frame_drop (fr s) paddr;
             Ok (mk_pg f (tabs s) (add_frames (pmap s) (-1)))
           else Ok (set_pmap s (add_map (pmap s) (-1))));
      free_loop n' s (u64 (virt + MEM_PAGE_SIZE))
  end.

Definition kpfree (s : pg) (virt amount : Z) : res pg :=
  if page_flags virt >? 0 then Panic "free alignment" else free_loop (Z.to_nat amount) s virt.

Definition kpunmap (s : pg) (virt amount : Z) : res pg := kpfree s virt amount.

Definition kpmap (fuel : nat) (s : pg) (amount phys_ptr flags : Z) : res (pg * Z) :=
  let flags := Z.land flags 4095 in
  let offset := page_flags phys_ptr in
  let amount := if offset >? 0 then u64 (amount + 1) else amount in
  '(s, virt) ← mempg_find_contiguous fuel s amount;
  s ← assign_loop (Z.to_nat amount) s virt (u64 (phys_ptr - offset)) (Z.lor flags PAGE_NOPHYS);
  Ok (set_pmap s (add_map (pmap s) amount), u64 (virt + offset)).

Definition mempg_mapvto (s : pg) (amount virt phys flags : Z) : res (pg * Z) :=
  s ← assign_loop (Z.to_nat amount) s virt phys (Z.lor (Z.land flags 4095) PAGE_NOPHYS);
  Ok (set_pmap s (add_map (pmap s) amount), virt).

(** A new map: its directory shares the kernel's last entry, [PDPT1]. *)
Definition _mempg_create_dir (f : F) (m : gmap Z (list Z)) (PDPT1 : Z) : res (F * gmap Z (list Z) * Z) :=
  '(f, a) ← frame_run f 1;
  m ← wr (<[page_mask a := replicate 512 0]> m) (page_mask a) 511 (Z.lor (Z.lor PDPT1 PAGE_WRITE) PAGE_PRESENT);
  Ok (f, m, a).

Definition kp_create_map (f : F) (m : gmap Z (list Z)) (PDPT1 : Z) : res (F * gmap Z (list Z) * pagemap) :=
  '(f, m, a) ← _mempg_create_dir f m PDPT1; Ok (f, m, mk_pagemap a 0 0 0 0 0).

(** The loops of [_mempg_dispose_dir]. *)
Fixpoint dispose_pd (n : nat) (f : F) (m : gmap Z (list Z)) (pd pdi : Z) : res F :=
  match n with
  | O => Ok f
  | S n' =>
      e ← rd m pd pdi;
      if Z.land e PAGE_PRESENT =? 0 then dispose_pd n' f m pd (pdi + 1)
      else f ← frame_drop f (page_mask e); dispose_pd n' f m pd (pdi + 1)
  end.

Fixpoint dispose_pdp (n : nat) (f : F) (m : gmap Z (list Z)) (pdp pdpi : Z) : res F :=
  match n with
  | O => Ok f
  | S n' =>
      e ← rd m pdp pdpi;
      if Z.land e PAGE_PRESENT =? 0 then dispose_pdp n' f m pdp (pdpi + 1)
      else
        let pd := page_mask e in
        f ← dispose_pd 512 f m pd 0;
        f ← frame_drop f pd;
        dispose_pdp n' f m pdp (pdpi + 1)
  end.

Fixpoint dispose_pml4 (n : nat) (f : F) (m : gmap Z (list Z)) (addr pml4i : Z) : res F :=
  match n with
  | O => Ok f
  | S n' =>
      e ← rd m addr pml4i;
      if Z.land e PAGE_PRESENT =? 0 then dispose_pml4 n' f m addr (pml4i + 1)
      else
        let pdp := page_mask e in
        f ← dispose_pdp 512 f m pdp 0;
        f ← frame_drop f pdp;
        dispose_pml4 n' f m addr (pml4i + 1)
  end.

Definition _mempg_dispose_dir (f : F) (m : gmap Z (list Z)) (addr : Z) : res F :=
  f ← dispose_pml4 510 f m (page_mask addr) 0;
  frame_drop f addr.

Definition kp_dispose_map (f : F) (m : gmap Z (list Z)) (map : pagemap) : res F :=
  _mempg_dispose_dir f m (root_dir map).
End Paging.

Arguments pg F : clear implicits.

(** ** Entries *)

Lemma page_mask_eq x : page_mask x = x - x mod 4096.
Proof.
  unfold page_mask. rewrite <- Z.ldiff_land. change 4095 with (Z.ones 12). rewrite Z.ldiff_ones_r by lia.
  rewrite Z.shiftl_mul_pow2, Z.shiftr_div_pow2 by lia. change (2 ^ 12) with 4096. pose proof (Z.div_mod x 4096). lia.
Qed.

Lemma page_flags_eq x : page_flags x = x mod 4096.
Proof. unfold page_flags. change 4095 with (Z.ones 12). by rewrite Z.land_ones. Qed.

Lemma page_mask_lor x y : page_mask (Z.lor x y) = Z.lor (page_mask x) (page_mask y).
Proof. apply Z.land_lor_distr_l. Qed.

Lemma page_mask_idem x : page_mask (page_mask x) = page_mask x.
Proof. unfold page_mask. rewrite <- Z.land_assoc. done. Qed.

Lemma page_mask_small x : 0 <= x < 4096 -> page_mask x = 0.
Proof. intros. rewrite page_mask_eq, Z.mod_small by lia. lia. Qed.

Lemma page_mask_aligned a : a mod MEM_PAGE_SIZE = 0 -> page_mask a = a.
Proof. unfold MEM_PAGE_SIZE. intros H. rewrite page_mask_eq. lia. Qed.

Definition present (e : Z) : Prop := Z.land e PAGE_PRESENT <> 0.

Lemma present_lor e x : present x -> present (Z.lor e x).
Proof.
  unfold present, PAGE_PRESENT. change 1 with (Z.ones 1). rewrite !Z.land_ones by lia. change (2 ^ 1) with 2.
  rewrite !Zmod_odd. rewrite <- !Z.bit0_odd, Z.lor_spec. destruct (Z.testbit x 0), (Z.testbit e 0); simpl; congruence.
Qed.

Lemma present_nonzero e : present e -> e <> 0.
Proof. intros H ->. by apply H. Qed.

(** ** The tree of tables *)
Section Tree.
Implicit Types (m : gmap Z (list Z)) (p q : list nat).

Definition ent m (t : Z) (i : nat) : option Z := tb ← m !! t; tb !! i.

(** The table an entry of a directory points to. *)
Definition next m (t : Z) (i : nat) : option Z :=
  e ← ent m t i; if Z.land e PAGE_PRESENT =? 0 then None else Some (page_mask e).

Fixpoint walk m (t : Z) p : option Z :=
  match p with [] => Some t | i :: p' => t' ← next m t i; walk m t' p' end.

Lemma walk_snoc m t p i : walk m t (p ++ [i]) = (t' ← walk m t p; next m t' i).
Proof.
  revert t. induction p as [|j p IH]; intros t; cbn [walk app mbind option_bind].
  - by destruct (next m t i).
  - destruct (next m t j); [apply IH|done].
Qed.

(** From the root, every table is a full page in use and is reached one way only; a directory
    entry is empty or present. *)
Record tree_ok m (used : Z -> Prop) (root : Z) : Prop := {
  tr_table : forall p t, (length p <= 3)%nat -> walk m root p = Some t -> (exists tb, m !! t = Some tb /\ length tb = 512%nat) /\ used t;
  tr_inj : forall p q t, (length p <= 3)%nat -> (length q <= 3)%nat -> walk m root p = Some t -> walk m root q = Some t -> p = q;
  tr_zero : forall p t i e, (length p <= 2)%nat -> walk m root p = Some t -> ent m t i = Some e -> e = 0 \/ present e }.

(** The entry for a page: its table's entry, or none. *)
Definition leaf m (root : Z) p (i : nat) : Z :=
  match walk m root p with Some t => default 0 (ent m t i) | None => 0 end.

Lemma ent_insert m t tb i e t' j : m !! t = Some tb -> (i < length tb)%nat ->
  ent (<[t := <[i := e]> tb]> m) t' j = if decide (t' = t /\ j = i) then Some e else ent m t' j.
Proof.
  intros Ht Hi. unfold ent. destruct (decide (t' = t)) as [->|Hne].
  - rewrite lookup_insert_eq. cbn [mbind option_bind]. rewrite Ht. cbn [mbind option_bind].
    destruct (decide (j = i)) as [->|Hj].
    + rewrite list_lookup_insert_eq by done. by destruct (decide _) as [|[]].
    + rewrite list_lookup_insert_ne by done. by destruct (decide _) as [[]|].
  - rewrite lookup_insert_ne by done. by destruct (decide _) as [[]|].
Qed.

(** Setting flag bits on a present directory entry moves nothing. *)
Lemma walk_touch m t tb i e root : m !! t = Some tb -> tb !! i = Some e -> present e ->
  forall q, walk (<[t := <[i := Z.lor e 7]> tb]> m) root q = walk m root q.
Proof.
  intros Ht Hi Hp q. pose proof (lookup_lt_Some _ _ _ Hi) as Hl. induction q as [|j q IH] using rev_ind; [done|].
  rewrite !walk_snoc, IH. destruct (walk m root q) as [t'|]; [|done]. cbn [mbind option_bind]. unfold next.
  rewrite (ent_insert m t tb i) by done. destruct (decide _) as [[-> ->]|]; [|done].
  unfold ent. rewrite Ht. cbn [mbind option_bind]. rewrite Hi. cbn [mbind option_bind].
  assert (present (Z.lor e 7)) as Hp7 by (apply present_lor; done). unfold present in *.
  destruct (Z.eqb_spec (Z.land (Z.lor e 7) PAGE_PRESENT) 0); [done|]. destruct (Z.eqb_spec (Z.land e PAGE_PRESENT) 0); [done|].
  rewrite page_mask_lor, (page_mask_small 7) by lia. by rewrite Z.lor_0_r.
Qed.

Lemma tree_touch m used root p t tb i e : tree_ok m used root -> (length p <= 2)%nat -> walk m root p = Some t ->
  m !! t = Some tb -> tb !! i = Some e -> present e ->
  tree_ok (<[t := <[i := Z.lor e 7]> tb]> m) used root /\
  forall q j, length q = 3%nat -> leaf (<[t := <[i := Z.lor e 7]> tb]> m) root q j = leaf m root q j.
Proof.
  intros Ho Hp Hw Ht Hi He. pose proof (lookup_lt_Some _ _ _ Hi) as Hl. split; [split|].
  - intros q u Hq. rewrite walk_touch by done. intros Hu. destruct (tr_table _ _ _ Ho q u Hq Hu) as [(tu & Htu & Hlu) Hused].
    split; [|done]. destruct (decide (u = t)) as [->|].
    + rewrite lookup_insert_eq. eexists. split; [done|]. rewrite length_insert. congruence.
    + rewrite lookup_insert_ne by done. by exists tu.
  - intros q q' u Hq Hq'. rewrite !walk_touch by done. by apply Ho.
  - intros q u j x Hq. rewrite walk_touch by done. intros Hu. rewrite (ent_insert m t tb i) by done.
    destruct (decide _); [|by apply (tr_zero _ _ _ Ho q)]. intros [= <-]. right. by apply present_lor.
  - intros q j Hq. unfold leaf. rewrite walk_touch by done. destruct (walk m root q) as [u|] eqn:Hu; [|done].
    rewrite (ent_insert m t tb i) by done. destruct (decide _) as [[-> _]|]; [|done].
    assert (p = q) as -> by (apply (tr_inj _ _ _ Ho p q t); done || lia). lia.
Qed.

(** A new table under an empty directory entry. *)
Section Grow.
Context (m : gmap Z (list Z)) (used : Z -> Prop) (root a t e : Z) (tb : list Z) (p : list nat) (i : nat).
Context (Ho : tree_ok m used root) (Hp : (length p <= 2)%nat) (Hw : walk m root p = Some t).
Context (Ht : m !! t = Some tb) (Hi : tb !! i = Some 0) (Ha : ~ used a) (He : present e) (Hea : page_mask e = a).

Definition grown : gmap Z (list Z) := <[a := replicate 512 0]> (<[t := <[i := e]> tb]> m).

Lemma grow_ne : t <> a.
Proof. intros ->. apply Ha. by apply (tr_table _ _ _ Ho p a); [lia|]. Qed.

Lemma ent_grown u j : u <> a -> ent grown u j = if decide (u = t /\ j = i) then Some e else ent m u j.
Proof.
  intros Hu. rewrite <- (ent_insert m t tb i e u j Ht (lookup_lt_Some _ _ _ Hi)). unfold ent, grown.
  by rewrite lookup_insert_ne.
Qed.

Lemma ent_grown_new j : ent grown a j = if decide (j < 512)%nat then Some 0 else None.
Proof.
  unfold ent, grown. rewrite lookup_insert_eq. cbn [mbind option_bind]. destruct (decide _).
  - by apply lookup_replicate_2.
  - apply lookup_ge_None_2. rewrite length_replicate. lia.
Qed.

Lemma next_grown_new j : next grown a j = None.
Proof. unfold next. rewrite ent_grown_new. by destruct (decide _). Qed.

Lemma walk_grown q : (length q <= 3)%nat ->
  walk grown root q = if decide (q = p ++ [i]) then Some a
                      else if decide ((p ++ [i]) `prefix_of` q) then None else walk m root q.
Proof.
  induction q as [|j q IH] using rev_ind; intros Hq.
  - destruct (decide _) as [E|]; [by destruct p|]. destruct (decide _) as [[k E]|]; [by destruct p|done].
  - rewrite length_app in Hq. simpl in Hq. specialize (IH ltac:(lia)). rewrite !walk_snoc, IH. clear IH.
    destruct (decide (q = p ++ [i])) as [->|Hq1].
    { cbn [mbind option_bind]. rewrite next_grown_new. destruct (decide _) as [E|].
      { apply (f_equal length) in E. rewrite !length_app in E. simpl in E. lia. }
      destruct (decide _) as [|[]]; [done|]. by eexists. }
    destruct (decide ((p ++ [i]) `prefix_of` q)) as [Hpre|Hpre].
    { destruct (decide _) as [E|]; [apply app_inj_tail in E as [-> ->]; apply prefix_length in Hpre; rewrite length_app in Hpre; simpl in Hpre; lia|].
      destruct (decide _) as [|[]]; [done|]. by apply prefix_app_r. }
    assert (forall x, (p ++ [i]) `prefix_of` q ++ [x] -> q = p /\ x = i) as Hsnoc.
    { intros x [k Hk]. destruct k as [|y k] using rev_ind; [rewrite app_nil_r in Hk; by apply app_inj_tail in Hk|].
      rewrite app_assoc in Hk. apply app_inj_tail in Hk as [Hk _]. destruct Hpre. by exists k. }
    destruct (walk m root q) as [u|] eqn:Hu; cbn [mbind option_bind].
    + assert (u <> a) as Hua by (intros ->; apply Ha; by apply (tr_table _ _ _ Ho q a); [lia|]).
      unfold next at 1. rewrite ent_grown by done. destruct (decide (u = t /\ j = i)) as [[-> ->]|Hne].
      * assert (q = p) as -> by (apply (tr_inj _ _ _ Ho q p t); done || lia). destruct (decide _); [|done].
        cbn [mbind option_bind]. destruct (Z.eqb_spec (Z.land e PAGE_PRESENT) 0); [done|]. by rewrite Hea.
      * destruct (decide (q ++ [j] = p ++ [i])) as [E|]; [apply app_inj_tail in E as [-> ->]; rewrite Hw in Hu; injection Hu as ->; tauto|].
        destruct (decide _) as [Hx|]; [apply Hsnoc in Hx as [-> ->]; done|done].
    + destruct (decide (q ++ [j] = p ++ [i])) as [E|]; [apply app_inj_tail in E as [-> ->]; congruence|].
      destruct (decide _); done.
Qed.

Lemma walk_before q : (p ++ [i]) `prefix_of` q -> walk m root q = None.
Proof.
  intros [k ->]. induction k as [|j k IH] using rev_ind.
  - rewrite app_nil_r, walk_snoc, Hw. cbn [mbind option_bind]. unfold next, ent. rewrite Ht. cbn [mbind option_bind]. by rewrite Hi.
  - by rewrite app_assoc, walk_snoc, IH.
Qed.

Lemma tree_grow used' : (forall b, used' b <-> b = a \/ used b) ->
  length tb = 512%nat -> tree_ok grown used' root /\ walk grown root (p ++ [i]) = Some a /\
  forall q j, length q = 3%nat -> leaf grown root q j = leaf m root q j.
Proof.
  intros Hused Hl. split; [split|split].
  - intros q u Hq. rewrite walk_grown by done. destruct (decide _).
    { intros [= <-]. split; [|apply Hused; by left]. exists (replicate 512 0). unfold grown. rewrite lookup_insert_eq. split; [done|apply length_replicate]. }
    destruct (decide _); [done|]. intros Hu. destruct (tr_table _ _ _ Ho q u Hq Hu) as [(tu & Htu & Hlu) Hus].
    split; [|apply Hused; by right]. unfold grown. rewrite lookup_insert_ne by (intros ->; done). destruct (decide (u = t)) as [->|].
    + rewrite lookup_insert_eq. eexists. split; [done|]. by rewrite length_insert.
    + rewrite lookup_insert_ne by done. by exists tu.
  - intros q q' u Hq Hq'. rewrite !walk_grown by done. destruct (decide (q = p ++ [i])) as [->|], (decide (q' = p ++ [i])) as [->|]; [done|..].
    + destruct (decide _); [done|]. intros [= <-] Hu. destruct Ha. by apply (tr_table _ _ _ Ho q' a).
    + destruct (decide _); [done|]. intros Hu [= <-]. destruct Ha. by apply (tr_table _ _ _ Ho q a).
    + destruct (decide _), (decide _); try done. by apply (tr_inj _ _ _ Ho).
  - intros q u j x Hq. rewrite walk_grown by lia. destruct (decide _).
    { intros [= <-]. rewrite ent_grown_new. destruct (decide _); [|done]. intros [= <-]. by left. }
    destruct (decide _); [done|]. intros Hu.
    assert (u <> a) by (intros ->; apply Ha; by apply (tr_table _ _ _ Ho q a); [lia|]). rewrite ent_grown by done.
    destruct (decide _); [intros [= <-]; by right|]. by apply (tr_zero _ _ _ Ho q).
  - rewrite walk_grown by (rewrite length_app; simpl; lia). by destruct (decide _).
  - intros q j Hq. unfold leaf. rewrite walk_grown by lia. destruct (decide (q = p ++ [i])) as [->|].
    { rewrite walk_before by done. rewrite ent_grown_new. by destruct (decide _). }
    destruct (decide _); [by rewrite walk_before|]. destruct (walk m root q) as [u|] eqn:Hu; [|done].
    assert (u <> a) by (intros ->; apply Ha; by apply (tr_table _ _ _ Ho q a); [lia|]). rewrite ent_grown by done.
    destruct (decide _) as [[-> _]|]; [|done]. assert (p = q) as -> by (apply (tr_inj _ _ _ Ho p q t); done || lia). lia.
Qed.
End Grow.

(** Writing an entry of a last-level table. *)
Lemma tree_write m used root q t tb i e : tree_ok m used root -> length q = 3%nat -> walk m root q = Some t ->
  m !! t = Some tb -> (i < length tb)%nat ->
  tree_ok (<[t := <[i := e]> tb]> m) used root /\
  (forall q', (length q' <= 3)%nat -> walk (<[t := <[i := e]> tb]> m) root q' = walk m root q') /\
  forall q' j, length q' = 3%nat ->
    leaf (<[t := <[i := e]> tb]> m) root q' j = if decide (q' = q /\ j = i) then e else leaf m root q' j.
Proof.
  intros Ho Hq Hw Ht Hi.
  assert (forall q' u, (length q' <= 2)%nat -> walk m root q' = Some u -> u <> t) as Hdeep.
  { intros q' u Hq' Hu ->. assert (q' = q) as -> by (apply (tr_inj _ _ _ Ho q' q t); done || lia). lia. }
  assert (forall q', (length q' <= 3)%nat -> walk (<[t := <[i := e]> tb]> m) root q' = walk m root q') as Hwalk.
  { induction q' as [|j q' IH] using rev_ind; intros Hq'; [done|]. rewrite length_app in Hq'. simpl in Hq'.
    rewrite !walk_snoc, IH by lia. destruct (walk m root q') as [u|] eqn:Hu; [|done]. cbn [mbind option_bind]. unfold next.
    rewrite (ent_insert m t tb i) by done. destruct (decide _) as [[-> _]|]; [|done]. by destruct (Hdeep q' t ltac:(lia) Hu). }
  split_and!; [split|done|].
  - intros q' u Hq'. rewrite Hwalk by done. intros Hu. destruct (tr_table _ _ _ Ho q' u Hq' Hu) as [(tu & Htu & Hlu) Hused].
    split; [|done]. destruct (decide (u = t)) as [->|].
    + rewrite lookup_insert_eq. eexists. split; [done|]. rewrite length_insert. congruence.
    + rewrite lookup_insert_ne by done. by exists tu.
  - intros q1 q2 u H1 H2. rewrite !Hwalk by done. by apply Ho.
  - intros q' u j x Hq'. rewrite Hwalk by lia. intros Hu. rewrite (ent_insert m t tb i) by done.
    destruct (decide _) as [[-> _]|]; [by destruct (Hdeep q' t Hq' Hu)|]. by apply (tr_zero _ _ _ Ho q').
  - intros q' j Hq'. unfold leaf. rewrite Hwalk by lia. destruct (decide (q' = q /\ j = i)) as [[-> ->]|Hne].
    + rewrite Hw, (ent_insert m t tb i) by done. destruct (decide _) as [|[]]; done.
    + destruct (walk m root q') as [u|] eqn:Hu; [|done]. rewrite (ent_insert m t tb i) by done.
      destruct (decide _) as [[-> ->]|]; [|done]. destruct Hne. split; [|done]. apply (tr_inj _ _ _ Ho q' q t); done || lia.
Qed.
End Tree.

(** ** Finding the table of an address *)

Lemma pg_index_range va sh : 0 <= pg_index va sh < 512.
Proof. unfold pg_index. change 511 with (Z.ones 9). rewrite Z.land_ones by lia. apply Z.mod_pos_bound. lia. Qed.

Definition idx (va sh : Z) : nat := Z.to_nat (pg_index va sh).

Lemma idx_Z va sh : pg_index va sh = Z.of_nat (idx va sh).
Proof. unfold idx. pose proof (pg_index_range va sh). lia. Qed.

Lemma idx_lt va sh : (idx va sh < 512)%nat.
Proof. unfold idx. pose proof (pg_index_range va sh). lia. Qed.

Fixpoint idxs (n : nat) (va sh : Z) : list nat :=
  match n with O => [] | S n' => idx va sh :: idxs n' va (sh - 9) end.

Lemma length_idxs n va sh : length (idxs n va sh) = n.
Proof. revert sh. induction n as [|n IH]; intros sh; simpl; [done|]. by rewrite IH. Qed.

(** The way to the table of an address, and the entry of its page. *)
Definition vpath (va : Z) : list nat := idxs 3 va 39.
Definition pte m (root va : Z) : Z := leaf m root (vpath va) (idx va 12).

Lemma rd_ent m t i e : rd m t (Z.of_nat i) = Ok e <-> ent m t i = Some e.
Proof.
  unfold rd, ent, load. destruct (m !! t) as [tb|]; cbn [res_of_option mbind res_bind option_bind]; [|done].
  rewrite get_of_nat. by rewrite res_of_option_Ok.
Qed.

Lemma wr_ok m t i e tb : m !! t = Some tb -> (i < length tb)%nat -> wr m t (Z.of_nat i) e = Ok (<[t := <[i := e]> tb]> m).
Proof.
  intros Ht Hi. unfold wr. rewrite Ht. cbn [res_of_option mbind res_bind]. rewrite store_in_range by (unfold zlen; lia).
  by rewrite Nat2Z.id.
Qed.

Section PagingLaws.
Context {F : Type} `{FrameSourceLaws F}.
Implicit Types (s : pg F).

Definition OOM : string := "Failed to allocate contiguous frames".

Definition pg_root s : Z := page_mask (root_dir (pmap s)).

Definition pg_ok s : Prop := source_ok (fr s) /\ tree_ok (tabs s) (taken (fr s)) (pg_root s).

(** The same place: what an operation may not change. *)
Definition same_map s s' : Prop :=
  root_dir (pmap s') = root_dir (pmap s) /\ vstart (pmap s') = vstart (pmap s) /\ vend (pmap s') = vend (pmap s) /\
  pm_frames_used (pmap s') = pm_frames_used (pmap s) /\ map_frames_used (pmap s') = map_frames_used (pmap s).

Lemma same_map_refl s : same_map s s.
Proof. done. Qed.

Lemma same_map_trans s1 s2 s3 : same_map s1 s2 -> same_map s2 s3 -> same_map s1 s3.
Proof. unfold same_map. intuition congruence. Qed.

Lemma same_map_root s s' : same_map s s' -> pg_root s' = pg_root s.
Proof. intros (E & _). unfold pg_root. by rewrite E. Qed.

(** An address has a table; tables stay, and so do the frames in use. *)
Definition has_table s (v : Z) : Prop := is_Some (walk (tabs s) (pg_root s) (vpath v)).

Definition grows s s' : Prop :=
  pg_ok s' /\ same_map s s' /\ (forall v, has_table s v -> has_table s' v) /\ forall a, taken (fr s) a -> taken (fr s') a.

Lemma grows_trans s1 s2 s3 : grows s1 s2 -> grows s2 s3 -> grows s1 s3.
Proof. intros (_ & Hm1 & Ht1 & Hu1) (Hok & Hm2 & Ht2 & Hu2). split_and!; [done|by eapply same_map_trans|by auto|by auto]. Qed.

Lemma grows_refl s : pg_ok s -> grows s s.
Proof. done. Qed.

Lemma grows_root s s' : grows s s' -> pg_root s' = pg_root s.
Proof. intros (_ & Hm & _). by apply same_map_root. Qed.

(** The loop below a table [t] at path [p]. *)
Lemma ensure_levels_ok va n : forall s p t sh, pg_ok s -> (length p + n = 3)%nat -> walk (tabs s) (pg_root s) p = Some t ->
  (exists s' t', ensure_levels n s t va sh = Ok (s', t') /\ grows s s' /\
     walk (tabs s') (pg_root s) (p ++ idxs n va sh) = Some t' /\
     forall q j, length q = 3%nat -> leaf (tabs s') (pg_root s) q j = leaf (tabs s) (pg_root s) q j) \/
  (ensure_levels n s t va sh = Panic OOM /\ walk (tabs s) (pg_root s) (p ++ idxs n va sh) = None).
Proof.
  induction n as [|n IH]; intros s p t sh Hok Hlen Hw; cbn [ensure_levels idxs].
  { left. exists s, t. rewrite app_nil_r. split_and!; try done. }
  destruct Hok as [Hsrc Htree]. destruct (tr_table _ _ _ Htree p t ltac:(lia) Hw) as [(tb & Htb & Hltb) _].
  rewrite idx_Z. set (i := idx va sh). pose proof (idx_lt va sh) as Hi. fold i in Hi.
  destruct (lookup_lt_is_Some_2 tb i ltac:(lia)) as [e He].
  assert (ent (tabs s) t i = Some e) as Hent by (unfold ent; rewrite Htb; done).
  rewrite (proj2 (rd_ent _ _ _ _) Hent). cbn [mbind res_bind].
  assert (p ++ i :: idxs n va (sh - 9) = (p ++ [i]) ++ idxs n va (sh - 9)) as Epath by (by rewrite <- app_assoc).
  rewrite Epath. destruct (Z.eqb_spec (Z.land e PAGE_PRESENT) 0) as [Hnp|Hpr].
  - assert (e = 0) as -> by (destruct (tr_zero _ _ _ Htree p t i e ltac:(lia) Hw Hent); [done|contradiction]).
    assert (forall q, (p ++ [i]) `prefix_of` q -> walk (tabs s) (pg_root s) q = None) as Hnone
      by (intros; by apply (walk_before (tabs s) (pg_root s) t tb p i)).
    destruct (law_new_frame (fr s) Hsrc) as [(f & a & -> & Hsrc' & Ha0 & Hal & Hfresh & Htaken)| ->];
      [|right; split; [done|apply Hnone; by eexists]].
    cbn [mbind res_bind]. set (e := Z.lor (Z.lor (Z.lor a PAGE_USER) PAGE_WRITE) PAGE_PRESENT).
    assert (page_mask e = a) as Hea.
    { unfold e. rewrite !page_mask_lor. rewrite (page_mask_aligned a Hal). unfold PAGE_USER, PAGE_WRITE, PAGE_PRESENT.
      rewrite !(page_mask_small _) by lia. by rewrite !Z.lor_0_r. }
    assert (present e) as Hpe by (apply present_lor; done).
    rewrite (wr_ok _ _ _ _ tb) by (done || lia). cbn [mbind res_bind]. rewrite Hea.
    destruct (tree_grow (tabs s) (taken (fr s)) (pg_root s) a t e tb p i Htree ltac:(lia) Hw Htb He Hfresh Hpe Hea
      (taken f) Htaken Hltb) as (Htree' & Hwalk & Hleaf).
    change (<[a := replicate 512 0]> (<[t := <[i := e]> tb]> (tabs s))) with (grown (tabs s) a t e tb i).
    set (s1 := mk_pg f _ _).
    assert (grows s s1) as Hgr.
    { split_and!; [by split|done| |intros b Hb; apply Htaken; by right]. intros v [u Hu]. exists u. cbn [tabs s1]. change (pg_root s1) with (pg_root s).
      rewrite (walk_grown (tabs s) (taken (fr s)) (pg_root s) a t e tb p i) by (done || lia || (unfold vpath; rewrite length_idxs; lia)).
      destruct (decide _) as [E|]; [rewrite E, Hnone in Hu by done; done|]. destruct (decide _) as [E|]; [by rewrite Hnone in Hu|done]. }
    destruct (IH s1 (p ++ [i]) a (sh - 9)) as [(s' & t' & -> & Hg & Hw' & Hl')|[-> _]]; [apply Hgr|rewrite length_app; simpl; lia|done| |].
    + left. exists s', t'. split_and!; [done|by eapply grows_trans|done|]. intros q j Hq. etransitivity; [apply (Hl' q j Hq)|by apply Hleaf].
    + right. split; [done|]. apply Hnone. by eexists.
  - destruct (tree_touch (tabs s) (taken (fr s)) (pg_root s) p t tb i e Htree ltac:(lia) Hw Htb He Hpr) as [Htree' Hleaf].
    change (Z.lor (Z.lor PAGE_USER PAGE_WRITE) PAGE_PRESENT) with 7.
    rewrite (wr_ok _ _ _ _ tb) by (done || lia). cbn [mbind res_bind].
    assert (page_mask (Z.lor e 7) = page_mask e) as -> by (rewrite page_mask_lor, (page_mask_small 7) by lia; apply Z.lor_0_r).
    set (s1 := set_tabs s _).
    assert (forall q, walk (tabs s1) (pg_root s) q = walk (tabs s) (pg_root s) q) as Hwt by (intros; by apply walk_touch).
    assert (grows s s1) as Hgr.
    { split_and!; [by split|done| |done]. intros v. unfold has_table. change (pg_root s1) with (pg_root s). by rewrite Hwt. }
    rewrite <- Hwt. destruct (IH s1 (p ++ [i]) (page_mask e) (sh - 9)) as [(s' & t' & -> & Hg & Hw' & Hl')|[-> Hn]];
      [apply Hgr|rewrite length_app; simpl; lia| | |by right].
    + change (pg_root s1) with (pg_root s). rewrite Hwt, walk_snoc, Hw. cbn [mbind option_bind].
      unfold next. rewrite Hent. cbn [mbind option_bind]. destruct (Z.eqb_spec (Z.land e PAGE_PRESENT) 0); done.
    + left. exists s', t'. split_and!; [done|by eapply grows_trans|done|]. intros q j Hq. etransitivity; [apply (Hl' q j Hq)|by apply Hleaf].
Qed.

(** [mempg_find_table_ensure] makes the tables on the way to an address and changes no page; it
    needs a frame only if the address has no table. *)
Lemma ensure_ok s va : pg_ok s ->
  (exists s' t, mempg_find_table_ensure s va = Ok (s', t) /\ grows s s' /\
     walk (tabs s') (pg_root s') (vpath va) = Some t /\
     forall w, pte (tabs s') (pg_root s) w = pte (tabs s) (pg_root s) w) \/
  (mempg_find_table_ensure s va = Panic OOM /\ ~ has_table s va).
Proof.
  intros Hok. unfold mempg_find_table_ensure. fold (pg_root s).
  destruct (ensure_levels_ok va 3 s [] (pg_root s) 39 Hok eq_refl eq_refl) as [(s' & t & -> & Hg & Hw & Hl)|[-> Hn]]; [left|right].
  - exists s', t. split_and!; try done; [by rewrite (grows_root s s')|]. intros w. apply Hl. apply length_idxs.
  - split; [done|]. intros [t Ht]. change ([] ++ idxs 3 va 39) with (vpath va) in Hn. congruence.
Qed.

(** ** Pages *)

Definition same_page (w v : Z) : Prop := vpath w = vpath v /\ idx w 12 = idx v 12.
#[global] Instance same_page_dec w v : Decision (same_page w v) := _.

Lemma pg_index_eq v sh : 0 <= sh -> pg_index v sh = (v / 2 ^ sh) mod 512.
Proof. intros. unfold pg_index. change 511 with (Z.ones 9). rewrite Z.land_ones, Z.shiftr_div_pow2 by lia. done. Qed.

Lemma idx_mask v sh : 12 <= sh -> idx (page_mask v) sh = idx v sh.
Proof.
  intros Hsh. unfold idx. f_equal. rewrite !pg_index_eq by lia. f_equal. rewrite page_mask_eq.
  replace (2 ^ sh) with (4096 * 2 ^ (sh - 12)) by (change 4096 with (2 ^ 12); rewrite <- Z.pow_add_r by lia; f_equal; lia).
  rewrite <- !Z.div_div by lia. f_equal. pose proof (Z.div_mod v 4096).
  replace (v - v mod 4096) with (v / 4096 * 4096) by lia. by rewrite Z.div_mul.
Qed.

Lemma vpath_mask v : vpath (page_mask v) = vpath v.
Proof. unfold vpath, idxs. by rewrite !idx_mask by lia. Qed.

Lemma pte_mask m root v : pte m root (page_mask v) = pte m root v.
Proof. unfold pte. by rewrite vpath_mask, idx_mask by lia. Qed.

Lemma same_page_mask {A} w v (x y : A) :
  (if decide (same_page w (page_mask v)) then x else y) = if decide (same_page w v) then x else y.
Proof. apply decide_ext. unfold same_page. by rewrite vpath_mask, idx_mask by lia. Qed.

Lemma page_digits v : (v / 4096) mod 2 ^ 36
  = pg_index v 12 + 512 * (pg_index v 21 + 512 * (pg_index v 30 + 512 * pg_index v 39)).
Proof.
  rewrite !pg_index_eq by lia. set (n := v / 4096). change (2 ^ 12) with 4096. fold n.
  assert (v / 2 ^ 21 = n / 512) as -> by (unfold n; rewrite Z.div_div by lia; done).
  assert (v / 2 ^ 30 = n / 512 / 512) as -> by (unfold n; rewrite !Z.div_div by lia; done).
  assert (v / 2 ^ 39 = n / 512 / 512 / 512) as -> by (unfold n; rewrite !Z.div_div by lia; done).
  change (2 ^ 36) with (512 * (512 * (512 * 512))). rewrite !Z.rem_mul_r by lia. done.
Qed.

(** Two addresses share an entry when they are on the same of the [2^36] pages of the 48-bit
    address space. *)
Lemma same_page_iff w v : same_page w v <-> (w / 4096) mod 2 ^ 36 = (v / 4096) mod 2 ^ 36.
Proof.
  rewrite !page_digits. unfold same_page, vpath, idxs, idx. pose proof (pg_index_range w 12). pose proof (pg_index_range w 21).
  pose proof (pg_index_range w 30). pose proof (pg_index_range w 39). pose proof (pg_index_range v 12).
  pose proof (pg_index_range v 21). pose proof (pg_index_range v 30). pose proof (pg_index_range v 39).
  change (39 - 9) with 30. change (30 - 9) with 21. split.
  - intros [[= E1 E2 E3] E4]. lia.
  - intros E. assert (pg_index w 12 = pg_index v 12 /\ pg_index w 21 = pg_index v 21 /\ pg_index w 30 = pg_index v 30 /\
      pg_index w 39 = pg_index v 39) as (-> & -> & -> & ->) by lia. done.
Qed.

Lemma pte_write s va t e : pg_ok s -> walk (tabs s) (pg_root s) (vpath va) = Some t ->
  exists m, wr (tabs s) t (pg_index va 12) e = Ok m /\ pg_ok (set_tabs s m) /\
    (forall v, walk m (pg_root s) (vpath v) = walk (tabs s) (pg_root s) (vpath v)) /\
    forall w, pte m (pg_root s) w = if decide (same_page w va) then e else pte (tabs s) (pg_root s) w.
Proof.
  intros [Hsrc Htree] Hw. assert (length (vpath va) = 3%nat) as Hlen by apply length_idxs.
  destruct (tr_table _ _ _ Htree (vpath va) t ltac:(lia) Hw) as [(tb & Htb & Hltb) _].
  rewrite idx_Z. pose proof (idx_lt va 12). rewrite (wr_ok _ _ _ _ tb) by (done || lia). eexists. split; [done|].
  destruct (tree_write (tabs s) (taken (fr s)) (pg_root s) (vpath va) t tb (idx va 12) e Htree Hlen Hw Htb ltac:(lia))
    as (Htree' & Hwk & Hleaf). split; [by split|]. split; [intros v; apply Hwk; unfold vpath; rewrite length_idxs; lia|].
  intros w. unfold pte. rewrite Hleaf by apply length_idxs. done.
Qed.

Lemma pte_read s va t : pg_ok s -> walk (tabs s) (pg_root s) (vpath va) = Some t ->
  rd (tabs s) t (pg_index va 12) = Ok (pte (tabs s) (pg_root s) va).
Proof.
  intros [Hsrc Htree] Hw. assert (length (vpath va) = 3%nat) as Hlen by apply length_idxs.
  destruct (tr_table _ _ _ Htree (vpath va) t ltac:(lia) Hw) as [(tb & Htb & Hltb) _].
  rewrite idx_Z. apply rd_ent. unfold pte, leaf. rewrite Hw. unfold ent. rewrite Htb. cbn [mbind option_bind].
  pose proof (idx_lt va 12). destruct (lookup_lt_is_Some_2 tb (idx va 12) ltac:(lia)) as [e ->]. done.
Qed.

(** How many pages [w] is after [v], around the address space. *)
Definition off (w v : Z) : Z := (w / 4096 - v / 4096) mod 2 ^ 36.

Lemma off_range w v : 0 <= off w v < 2 ^ 36.
Proof. apply Z.mod_pos_bound. lia. Qed.

Lemma u64_page v : u64 v / 4096 = (v / 4096) mod 2 ^ 52.
Proof. unfold u64. change (2 ^ 64) with (4096 * 2 ^ 52). rewrite Z.rem_mul_r by lia. rewrite Z.mul_comm, Z.div_add by lia. rewrite Z.div_small by (apply Z.mod_pos_bound; lia). done. Qed.

Lemma off_u64_l w v : off (u64 w) v = off w v.
Proof.
  unfold off. rewrite u64_page. set (a := w / 4096). pose proof (Z.div_mod a (2 ^ 52)).
  replace (a mod 2 ^ 52 - v / 4096) with (a - v / 4096 + - (a / 2 ^ 52 * 2 ^ 16) * 2 ^ 36) by lia. by rewrite Z.mod_add.
Qed.

Lemma off_u64_r w v : off w (u64 v) = off w v.
Proof.
  unfold off. rewrite u64_page. set (a := v / 4096). pose proof (Z.div_mod a (2 ^ 52)).
  replace (w / 4096 - a mod 2 ^ 52) with (w / 4096 - a + a / 2 ^ 52 * 2 ^ 16 * 2 ^ 36) by lia. by rewrite Z.mod_add.
Qed.

Lemma off_pages w v k : off w (v + 4096 * k) = (off w v - k) mod 2 ^ 36.
Proof. unfold off. rewrite (Z.mul_comm 4096), Z.div_add by lia. rewrite Zminus_mod_idemp_l. f_equal. lia. Qed.

Lemma off_next w v : off w (u64 (v + MEM_PAGE_SIZE)) = if decide (off w v = 0) then 2 ^ 36 - 1 else off w v - 1.
Proof.
  rewrite off_u64_r. change MEM_PAGE_SIZE with (4096 * 1). rewrite off_pages. pose proof (off_range w v).
  destruct (decide _) as [->|]; [done|]. apply Z.mod_small. lia.
Qed.

Lemma same_page_off w v : same_page w v <-> off w v = 0.
Proof.
  rewrite same_page_iff. unfold off. split.
  - intros E. rewrite Zminus_mod, E, Z.sub_diag. done.
  - intros E. apply Z.mod_divide in E as [k E]; [|done]. replace (w / 4096) with (v / 4096 + k * 2 ^ 36) by lia. by rewrite Z.mod_add.
Qed.

Lemma pte_same m root w v : same_page w v -> pte m root w = pte m root v.
Proof. intros [E1 E2]. unfold pte. by rewrite E1, E2. Qed.

Lemma has_table_same s w v : same_page w v -> has_table s w <-> has_table s v.
Proof. intros [E _]. unfold has_table. by rewrite E. Qed.

(** The outcome of an operation that may run out of frames, but only when it [need]s one. *)
Definition result {A} (need : Prop) (r : res A) (P : A -> Prop) : Prop :=
  match r with Ok a => P a | Panic msg => msg = OOM /\ need | _ => False end.

Lemma result_bind {A B} need need' (r : res A) (f : A -> res B) P Q : result need' r P -> (need' -> need) ->
  (forall a, P a -> result need (f a) Q) -> result need (r ≫= f) Q.
Proof. intros Hr Hn Hf. destruct r; simpl in *; try done; [by apply Hf|intuition]. Qed.

Lemma result_mono {A} need need' (r : res A) (P Q : A -> Prop) :
  result need' r P -> (need' -> need) -> (forall a, P a -> Q a) -> result need r Q.
Proof. intros Hr Hn Hq. destruct r; simpl in *; intuition. Qed.

Lemma result_Ok {A} need (r : res A) (P : A -> Prop) : result need r P -> ~ need -> exists a, r = Ok a /\ P a.
Proof. intros Hr Hn. destruct r; simpl in *; try tauto. by eexists. Qed.

(** One page mapped, the others as they were. *)
Lemma assign_ok s virt phys flags : pg_ok s ->
  result (~ has_table s virt) (mempg_assign s virt phys flags) (fun s' =>
    grows s s' /\ has_table s' virt /\
    forall w, pte (tabs s') (pg_root s) w
      = if decide (same_page w virt) then Z.lor (Z.lor (page_mask phys) flags) PAGE_PRESENT else pte (tabs s) (pg_root s) w).
Proof.
  intros Hok. unfold mempg_assign.
  destruct (ensure_ok s (page_mask virt) Hok) as [(s1 & t & -> & Hg & Hw & Hp)|[-> Hn]];
    [|unfold has_table in Hn; by rewrite vpath_mask in Hn].
  cbn [mbind res_bind]. pose proof (grows_root _ _ Hg) as Er.
  destruct (pte_write s1 (page_mask virt) t (Z.lor (Z.lor (page_mask phys) flags) PAGE_PRESENT)) as (m & -> & Hok2 & Hwk & Hpte);
    [apply Hg|done|]. cbn [mbind res_bind result]. assert (grows s1 (set_tabs s1 m)) as Hg2.
  { split_and!; [done|done| |done]. intros v. unfold has_table. change (pg_root (set_tabs s1 m)) with (pg_root s1). by rewrite Hwk. }
  split_and!; [by eapply grows_trans| |].
  - apply Hg2. exists t. by rewrite vpath_mask in Hw.
  - rewrite Er in Hpte. intros w. cbn [tabs set_tabs]. rewrite Hpte, Hp. apply same_page_mask.
Qed.

Lemma remove_ok s virt : pg_ok s ->
  result (~ has_table s virt) (mempg_remove s virt) (fun '(s', flags) =>
    grows s s' /\ flags = page_flags (pte (tabs s) (pg_root s) virt) /\
    forall w, pte (tabs s') (pg_root s) w = if decide (same_page w virt) then 0 else pte (tabs s) (pg_root s) w).
Proof.
  intros Hok. unfold mempg_remove.
  destruct (ensure_ok s (page_mask virt) Hok) as [(s1 & t & -> & Hg & Hw & Hp)|[-> Hn]];
    [|unfold has_table in Hn; by rewrite vpath_mask in Hn].
  cbn [mbind res_bind]. pose proof (grows_root _ _ Hg) as Er. rewrite (pte_read s1 (page_mask virt) t) by (apply Hg || done).
  cbn [mbind res_bind]. destruct (pte_write s1 (page_mask virt) t 0) as (m & -> & Hok2 & Hwk & Hpte); [apply Hg|done|].
  cbn [mbind res_bind result]. rewrite Er in Hpte. rewrite Er. split_and!.
  - eapply grows_trans; [done|]. split_and!; [done|done| |done]. intros v. unfold has_table.
    change (pg_root (set_tabs s1 m)) with (pg_root s1). by rewrite Hwk.
  - by rewrite Hp, pte_mask.
  - intros w. cbn [tabs set_tabs]. rewrite Hpte, Hp. apply same_page_mask.
Qed.

Lemma paddrof_ok s virt : pg_ok s ->
  result (~ has_table s virt) (_kppaddrof s virt) (fun '(s', a) =>
    grows s s' /\ a = u64 (page_mask (pte (tabs s) (pg_root s) virt) + virt mod 4096) /\
    forall w, pte (tabs s') (pg_root s) w = pte (tabs s) (pg_root s) w).
Proof.
  intros Hok. unfold _kppaddrof.
  destruct (ensure_ok s (page_mask virt) Hok) as [(s1 & t & -> & Hg & Hw & Hp)|[-> Hn]];
    [|unfold has_table in Hn; by rewrite vpath_mask in Hn].
  cbn [mbind res_bind]. pose proof (grows_root _ _ Hg) as Er. rewrite (pte_read s1 (page_mask virt) t) by (apply Hg || done).
  cbn [mbind res_bind result]. rewrite Er. split_and!; [done| |done]. by rewrite Hp, page_flags_eq, pte_mask.
Qed.

(** Some of [n] pages has no table. *)
Definition lacks_table s (virt n : Z) : Prop := exists v, off v virt < n /\ ~ has_table s v.

Lemma lacks_first s virt n : 0 < n -> ~ has_table s virt -> lacks_table s virt n.
Proof. intros Hn Hv. exists virt. split; [|done]. unfold off. by rewrite Z.sub_diag. Qed.

Lemma lacks_next s s' virt n : grows s s' -> 0 < n <= 2 ^ 36 -> lacks_table s' (u64 (virt + MEM_PAGE_SIZE)) (n - 1) -> lacks_table s virt n.
Proof.
  intros (_ & _ & Ht & _) Hn (v & Hv & Hno). exists v. split; [|by auto]. rewrite off_next in Hv. destruct (decide _); lia.
Qed.

(** The entry [assign_loop] gives to page [d]. *)
Definition mapped_to (phys flags d : Z) : Z := Z.lor (Z.lor (page_mask (u64 (phys + MEM_PAGE_SIZE * d))) flags) PAGE_PRESENT.

Lemma mapped_to_next phys flags d : mapped_to (u64 (phys + MEM_PAGE_SIZE)) flags (d - 1) = mapped_to phys flags d.
Proof. unfold mapped_to, u64, MEM_PAGE_SIZE. rewrite Zplus_mod_idemp_l. do 4 f_equal. lia. Qed.

Lemma assign_loop_ok flags n : forall s virt phys, pg_ok s -> Z.of_nat n <= 2 ^ 36 -> 0 <= phys < 2 ^ 64 ->
  result (lacks_table s virt (Z.of_nat n)) (assign_loop n s virt phys flags) (fun s' =>
    grows s s' /\ (forall v, off v virt < Z.of_nat n -> has_table s' v) /\
    forall w, pte (tabs s') (pg_root s) w =
      if off w virt <? Z.of_nat n then mapped_to phys flags (off w virt) else pte (tabs s) (pg_root s) w).
Proof.
  induction n as [|n IH]; intros s virt phys Hok Hn Hphys; cbn [assign_loop].
  { cbn [result]. split_and!; [done| |]; intros v; pose proof (off_range v virt); [lia|]. destruct (Z.ltb_spec (off v virt) (Z.of_nat 0)); [lia|done]. }
  eapply result_bind; [by apply assign_ok|intros; apply lacks_first; [lia|done]|]. intros s1 (Hg1 & Ht1 & Hp1).
  eapply result_mono; [apply (IH s1); [apply Hg1|lia|apply u64_range]|intros Hl; eapply lacks_next; [done|lia|];
    by replace (Z.of_nat (S n) - 1) with (Z.of_nat n) by lia|].
  intros s' (Hg & Ht & Hp). rewrite (grows_root _ _ Hg1) in Hp. split_and!; [by eapply grows_trans| |].
  - intros v Hv. specialize (Ht v). rewrite off_next in Ht. destruct (decide (off v virt = 0)); [|apply Ht; lia].
    apply Hg. by apply (has_table_same s1 v virt), Ht1; apply same_page_off.
  - intros w. rewrite Hp, Hp1, off_next. pose proof (off_range w virt).
    destruct (decide (same_page w virt)) as [E%same_page_off|E]; [|rewrite same_page_off in E]; destruct (decide (off w virt = 0)) as [E0|]; try lia.
    + rewrite E0. destruct (Z.ltb_spec (2 ^ 36 - 1) (Z.of_nat n)); [lia|]. destruct (Z.ltb_spec 0 (Z.of_nat (S n))); [|lia].
      unfold mapped_to. by rewrite Z.mul_0_r, Z.add_0_r, u64_small.
    + rewrite mapped_to_next. destruct (Z.ltb_spec (off w virt - 1) (Z.of_nat n)), (Z.ltb_spec (off w virt) (Z.of_nat (S n))); done || lia.
Qed.

(** Freeing pages that were mapped with [PAGE_NOPHYS]. *)
Definition nophys (e : Z) : Prop := Z.land (page_flags e) PAGE_NOPHYS <> 0.

Definition count_map s (k : Z) : pg F := set_pmap s (add_map (pmap s) k).

Lemma grows_count s s' k : grows s s' -> grows (count_map s k) (count_map s' k).
Proof. intros (Hok & (E1 & E2 & E3 & E4 & E5) & Ht & Hu). split_and!; [done| |done|done]. unfold same_map. simpl. by rewrite E5. Qed.

Lemma count_count s a b : count_map (count_map s a) b = count_map s (a + b).
Proof. unfold count_map, set_pmap, add_map. simpl. f_equal. f_equal. unfold u64. rewrite Zplus_mod_idemp_l. f_equal. lia. Qed.

Lemma count_0 s : 0 <= map_frames_used (pmap s) < 2 ^ 64 -> count_map s 0 = s.
Proof. intros Hr. unfold count_map, add_map, set_pmap. rewrite Z.add_0_r, u64_small by done. by destruct s as [? ? []]. Qed.

Lemma free_loop_ok n : forall s virt, pg_ok s -> Z.of_nat n <= 2 ^ 36 -> 0 <= map_frames_used (pmap s) < 2 ^ 64 ->
  (forall w, off w virt < Z.of_nat n -> nophys (pte (tabs s) (pg_root s) w)) ->
  result (lacks_table s virt (Z.of_nat n)) (free_loop n s virt) (fun s' =>
    grows (count_map s (- Z.of_nat n)) s' /\
    forall w, pte (tabs s') (pg_root s) w = if off w virt <? Z.of_nat n then 0 else pte (tabs s) (pg_root s) w).
Proof.
  induction n as [|n IH]; intros s virt Hok Hn Hm Hno; cbn [free_loop].
  { cbn [result]. rewrite count_0 by done. split; [done|]. intros w. pose proof (off_range w virt).
    destruct (Z.ltb_spec (off w virt) (Z.of_nat 0)); [lia|done]. }
  eapply result_bind; [by apply paddrof_ok|intros; apply lacks_first; [lia|done]|]. intros [s1 a] (Hg1 & _ & Hp1).
  eapply result_bind; [apply remove_ok, Hg1|intros Hl; apply lacks_first; [lia|]; by intros ?%Hg1|]. intros [s2 fl] (Hg2 & -> & Hp2).
  pose proof (grows_root _ _ Hg1) as Er. rewrite Er in *. rewrite Hp1.
  assert (off virt virt = 0) as Hv0 by (unfold off; by rewrite Z.sub_diag).
  destruct (Z.eqb_spec (Z.land (page_flags (pte (tabs s) (pg_root s) virt)) PAGE_NOPHYS) 0) as [E|_]; [by destruct (Hno virt ltac:(lia))|].
  cbn [mbind res_bind]. fold (count_map s2 (-1)). assert (grows s s2) as Hg by (by eapply grows_trans).
  assert (forall w, pte (tabs s2) (pg_root s) w = if decide (same_page w virt) then 0 else pte (tabs s) (pg_root s) w) as Hp
    by (intros w; by rewrite Hp2, Hp1).
  pose proof (grows_root _ _ Hg) as Er2. eapply result_mono; [apply (IH (count_map s2 (-1)))| |].
  - apply Hg.
  - lia.
  - apply u64_range.
  - intros w. change (pg_root (count_map s2 (-1))) with (pg_root s2). rewrite Er2, off_next. cbn [tabs count_map set_pmap]. rewrite Hp.
    intros Hw. destruct (decide (off w virt = 0)) as [E0|E0]; [lia|]. rewrite <- same_page_off in E0. destruct (decide _); [done|]. apply Hno. lia.
  - intros Hl. eapply lacks_next; [exact Hg|lia|]. by replace (Z.of_nat (S n) - 1) with (Z.of_nat n) by lia.
  - intros s' (Hg' & Hp'). change (pg_root (count_map s2 (-1))) with (pg_root s2) in Hp'. rewrite Er2 in Hp'. split.
    + rewrite count_count in Hg'. eapply grows_trans; [by apply grows_count|]. by replace (- Z.of_nat (S n)) with (-1 + - Z.of_nat n) by lia.
    + intros w. rewrite Hp', off_next. cbn [tabs count_map set_pmap]. rewrite Hp. pose proof (off_range w virt).
      destruct (decide (same_page w virt)) as [E%same_page_off|E]; [|rewrite same_page_off in E]; destruct (decide (off w virt = 0)) as [E0|]; try lia.
      * rewrite E0. destruct (Z.ltb_spec 0 (Z.of_nat (S n))); [|lia]. by destruct (_ <? _).
      * destruct (Z.ltb_spec (off w virt - 1) (Z.of_nat n)), (Z.ltb_spec (off w virt) (Z.of_nat (S n))); done || lia.
Qed.

(** ** Looking for free pages *)

(** How much of the address space has no table where the walk ends. *)
Fixpoint gap (n : nat) (m : gmap Z (list Z)) (t va sh : Z) : Z :=
  match n with
  | O => 0
  | S n' => match next m t (idx va sh) with None => Z.shiftl 1 sh | Some t' => gap n' m t' va (sh - 9) end
  end.

Lemma find_levels_ok m used root va n : tree_ok m used root -> forall p t sh, (length p + n = 3)%nat ->
  walk m root p = Some (page_mask t) ->
  find_levels n m t va sh = Ok (walk m (page_mask t) (idxs n va sh), gap n m (page_mask t) va sh).
Proof.
  intros Htree. induction n as [|n IH]; intros p t sh Hlen Hw; cbn [find_levels idxs walk gap]; [done|].
  destruct (tr_table _ _ _ Htree p _ ltac:(lia) Hw) as [(tb & Htb & Hltb) _].
  rewrite idx_Z. set (i := idx va sh). pose proof (idx_lt va sh) as Hi. fold i in Hi.
  destruct (lookup_lt_is_Some_2 tb i ltac:(lia)) as [e He].
  assert (ent m (page_mask t) i = Some e) as Hent by (unfold ent; rewrite Htb; done).
  rewrite (proj2 (rd_ent _ _ _ _) Hent). cbn [mbind res_bind].
  assert (next m (page_mask t) i = if Z.land e PAGE_PRESENT =? 0 then None else Some (page_mask e)) as En
    by (unfold next; by rewrite Hent).
  rewrite En. destruct (tr_zero _ _ _ Htree p _ i e ltac:(lia) Hw Hent) as [->|Hpr]; [done|].
  destruct (Z.eqb_spec e 0); [by destruct (present_nonzero e)|]. unfold present in Hpr.
  destruct (Z.eqb_spec (Z.land e PAGE_PRESENT) 0); [done|]. cbn [mbind option_bind].
  rewrite (IH (p ++ [i]) (page_mask e) (sh - 9)); [by rewrite page_mask_idem|rewrite length_app; simpl; lia|].
  rewrite walk_snoc, Hw. cbn [mbind option_bind]. by rewrite En, page_mask_idem.
Qed.

Lemma find_gap_ok s va skip : pg_ok s ->
  _mempg_find_table s va skip = Ok (walk (tabs s) (pg_root s) (vpath va), u64 (skip + gap 3 (tabs s) (pg_root s) va 39)).
Proof. intros [_ Htree]. unfold _mempg_find_table. by rewrite (find_levels_ok _ _ _ va 3 Htree [] (root_dir (pmap s)) 39 eq_refl eq_refl). Qed.

Lemma find_table_ok s va : pg_ok s -> mempg_find_table s va = Ok (walk (tabs s) (pg_root s) (vpath va)).
Proof. intros Hok. unfold mempg_find_table. by rewrite find_gap_ok. Qed.

Lemma vpath_near v j : 0 <= j -> pg_index v 12 + j < 512 ->
  vpath (v + 4096 * j) = vpath v /\ pg_index (v + 4096 * j) 12 = pg_index v 12 + j.
Proof.
  intros Hj. rewrite !pg_index_eq by lia. change (2 ^ 12) with 4096. rewrite (Z.mul_comm 4096), Z.div_add by lia. intros Hlt.
  assert (forall sh, 21 <= sh -> idx (v + j * 4096) sh = idx v sh) as Hidx.
  { intros sh Hsh. unfold idx. f_equal. rewrite !pg_index_eq by lia. f_equal.
    replace (2 ^ sh) with (4096 * 512 * 2 ^ (sh - 21)) by (change (4096 * 512) with (2 ^ 21); rewrite <- Z.pow_add_r by lia; f_equal; lia).
    rewrite <- !(Z.div_div _ (4096 * 512)), <- !(Z.div_div _ 4096 512) by lia. rewrite Z.div_add by lia. f_equal.
    pose proof (Z.div_mod (v / 4096) 512). pose proof (Z.mod_pos_bound (v / 4096) 512).
    symmetry. apply (Z.div_unique_pos _ _ _ ((v / 4096) mod 512 + j)); lia. }
  split; [unfold vpath, idxs; by rewrite !Hidx by lia|]. pose proof (Z.div_mod (v / 4096) 512).
  pose proof (Z.mod_pos_bound (v / 4096) 512). symmetry. apply (Z.mod_unique_pos _ _ (v / 4096 / 512)); lia.
Qed.

Lemma page_wrap v : pg_index (v + 4096) 12 = (pg_index v 12 + 1) mod 512.
Proof.
  rewrite !pg_index_eq by lia. change (2 ^ 12) with 4096. replace (v + 4096) with (v + 1 * 4096) by lia.
  rewrite Z.div_add by lia. by rewrite Zplus_mod_idemp_l.
Qed.

Lemma same_page_u64 v : same_page (u64 v) v.
Proof. apply same_page_off. rewrite off_u64_l. unfold off. by rewrite Z.sub_diag. Qed.

Lemma pg_index_u64 v : pg_index (u64 v) 12 = pg_index v 12.
Proof. destruct (same_page_u64 v) as [_ E]. by rewrite !idx_Z, E. Qed.

Lemma vpath_u64 v : vpath (u64 v) = vpath v.
Proof. apply (same_page_u64 v). Qed.

Section Contiguous.
Context (s : pg F) (v0 amount k : Z).
Context (Hok : pg_ok s) (Ha : 0 < amount < 2 ^ 60) (Hk : 0 <= k).

(** Page [j] from [v0] on is free. *)
Definition page_free (j : Z) : Prop := pte (tabs s) (pg_root s) (v0 + 4096 * j) = 0.
Definition run_free (j n : Z) : Prop := forall i, j <= i < j + n -> page_free i.
Context (Hrun : run_free k amount).

(** [tb] and [index] are those of page [n], or that is looked up next. *)
Definition at_page (tb index n : Z) : Prop :=
  let v := v0 + 4096 * n in
  (index = pg_index v 12 /\ walk (tabs s) (pg_root s) (vpath v) = Some tb) \/ (index = 512 /\ pg_index v 12 = 0).

Lemma at_page_next tb index n : 0 <= n -> at_page tb index n -> index < 512 -> at_page tb (index + 1) (n + 1).
Proof.
  unfold at_page. intros Hn [[-> Hw]|[-> _]] Hi; [|lia]. replace (v0 + 4096 * (n + 1)) with (v0 + 4096 * n + 4096 * 1) by lia.
  set (v := v0 + 4096 * n) in *. destruct (decide (pg_index v 12 = 511)) as [E|E].
  - right. split; [lia|]. rewrite Z.mul_1_r, page_wrap, E. done.
  - left. pose proof (pg_index_range v 12). destruct (vpath_near v 1) as [-> ->]; [lia|lia|done].
Qed.

Lemma u64_next n : u64 (u64 (v0 + 4096 * n) + MEM_PAGE_SIZE) = u64 (v0 + 4096 * (n + 1)).
Proof. unfold u64, MEM_PAGE_SIZE. rewrite Zplus_mod_idemp_l. f_equal. lia. Qed.

Lemma contiguous_ok fuel : forall tb index n st, at_page tb index n -> 0 <= st <= n -> n - st < amount -> st <= k ->
  run_free st (n - st) -> k + amount - n < Z.of_nat fuel ->
  exists r, contiguous_loop fuel s tb index (u64 (v0 + 4096 * n)) (u64 (v0 + 4096 * st)) (n - st) amount = Ok (u64 (v0 + 4096 * r)) /\
    st <= r <= k /\ run_free r amount.
Proof.
  induction fuel as [|fuel IH]; intros tb index n st Hat Hst Hcombo Hle Hfree Hfuel; [lia|]. cbn [contiguous_loop].
  rewrite find_table_ok, vpath_u64 by done. set (v := v0 + 4096 * n) in *.
  assert (forall tb' i', i' = pg_index v 12 -> walk (tabs s) (pg_root s) (vpath v) = Some tb' ->
    exists r, (e ← rd (tabs s) tb' i';
          if negb (e =? 0) then
            let virt := u64 (u64 v + MEM_PAGE_SIZE) in contiguous_loop fuel s tb' (i' + 1) virt virt 0 amount
          else if u64 (n - st + 1) >=? amount then Ok (u64 (v0 + 4096 * st))
          else contiguous_loop fuel s tb' (i' + 1) (u64 (u64 v + MEM_PAGE_SIZE)) (u64 (v0 + 4096 * st)) (u64 (n - st + 1)) amount)
      = Ok (u64 (v0 + 4096 * r)) /\ st <= r <= k /\ run_free r amount) as Hstep.
  { intros tb' i' -> Hw. rewrite (pte_read s v tb' Hok Hw). cbn [mbind res_bind]. pose proof (pg_index_range v 12).
    assert (at_page tb' (pg_index v 12 + 1) (n + 1)) as Hat' by (apply at_page_next; [lia|by left|lia]).
    rewrite (u64_next n : u64 (u64 v + MEM_PAGE_SIZE) = _), (u64_small (n - st + 1)) by lia. destruct (Z.eqb_spec (pte (tabs s) (pg_root s) v) 0) as [E|E]; cbn [negb].
    - assert (run_free st (n + 1 - st)) as Hfree'.
      { intros i Hi. destruct (decide (i = n)) as [->|]; [done|apply Hfree; lia]. }
      destruct (Z.geb_spec (n - st + 1) amount).
      + exists st. split_and!; [done|lia|lia|]. intros i Hi. apply Hfree'. lia.
      + replace (n - st + 1) with (n + 1 - st) by lia. apply IH; done || lia.
    - assert (~ k <= n) as Hnk. { intros ?. apply E. apply Hrun. lia. }
      destruct (IH tb' (pg_index v 12 + 1) (n + 1) (n + 1)) as (r & Hr & ? & ?); [done|lia..|intros i; lia|lia|].
      rewrite Z.sub_diag in Hr. exists r. split_and!; [done|lia|lia|done]. }
  unfold at_page in Hat. cbv zeta in Hat. fold v in Hat. destruct Hat as [[Hi Hw]|[-> Hi]].
  - pose proof (pg_index_range v 12). destruct (Z.geb_spec index 512); [lia|]. cbn [mbind res_bind]. by apply Hstep.
  - cbn [Z.geb Z.compare mbind res_bind]. destruct (walk (tabs s) (pg_root s) (vpath v)) as [tb'|] eqn:Hw; [by apply Hstep|].
    assert (run_free st (n + 512 - st)) as Hfree'.
    { intros i Hi'. destruct (decide (i < n)) as [|]; [apply Hfree; lia|]. unfold page_free, pte, leaf.
      destruct (vpath_near v (i - n)) as [E _]; [lia|lia|]. unfold v in E.
      replace (v0 + 4096 * n + 4096 * (i - n)) with (v0 + 4096 * i) in E by lia. rewrite E. fold v. by rewrite Hw. }
    rewrite (u64_small (n - st + 512)) by lia. destruct (Z.geb_spec (n - st + 512) amount).
    + exists st. split_and!; [done|lia|lia|]. intros i Hi'. apply Hfree'. lia.
    + replace (u64 (u64 v + MEM_PAGE_SIZE * 512)) with (u64 (v0 + 4096 * (n + 512)))
        by (unfold u64, v, MEM_PAGE_SIZE; rewrite Zplus_mod_idemp_l; f_equal; lia).
      replace (n - st + 512) with (n + 512 - st) by lia. apply IH; [|done || lia..]. right. split; [done|].
      replace (v0 + 4096 * (n + 512)) with (v + 4096 * 512) by (unfold v; lia).
      rewrite pg_index_eq by lia. rewrite pg_index_eq in Hi by lia. change (2 ^ 12) with 4096 in *.
      rewrite (Z.mul_comm 4096), Z.div_add by lia. by rewrite (Z.mod_add _ 1 512).
Qed.
End Contiguous.

Lemma run_free_pte s s' v0 r n : pg_root s' = pg_root s -> (forall w, pte (tabs s') (pg_root s) w = pte (tabs s) (pg_root s) w) ->
  run_free s' v0 r n <-> run_free s v0 r n.
Proof. intros Er Hp. unfold run_free, page_free. rewrite Er. by setoid_rewrite Hp. Qed.

Lemma find_contiguous_ok fuel s amount k : pg_ok s -> 0 < amount < 2 ^ 60 -> 0 <= k -> 0 <= vstart (pmap s) < 2 ^ 64 ->
  run_free s (vstart (pmap s)) k amount -> k + amount < Z.of_nat fuel ->
  result (~ has_table s (vstart (pmap s))) (mempg_find_contiguous fuel s amount) (fun '(s', v) =>
    grows s s' /\ (forall w, pte (tabs s') (pg_root s) w = pte (tabs s) (pg_root s) w) /\
    exists r, v = u64 (vstart (pmap s) + 4096 * r) /\ 0 <= r <= k /\ run_free s (vstart (pmap s)) r amount).
Proof.
  intros Hok Ha Hk Hvs Hrun Hfuel. unfold mempg_find_contiguous. destruct (Z.eqb_spec amount 0); [lia|]. rewrite find_table_ok by done.
  set (vs := vstart (pmap s)) in *. cbn [mbind res_bind].
  apply (result_bind _ (~ has_table s vs) _ _ (fun '(s1, tb) => grows s s1 /\ walk (tabs s1) (pg_root s1) (vpath vs) = Some tb /\
    forall w, pte (tabs s1) (pg_root s) w = pte (tabs s) (pg_root s) w)); [|done|].
  - destruct (walk (tabs s) (pg_root s) (vpath vs)) as [tb|] eqn:Hw; [done|].
    destruct (ensure_ok s vs Hok) as [(s1 & t & -> & Hg & Hw1 & Hp)|[-> Hn]]; done.
  - intros [s1 tb] (Hg & Hw & Hp). pose proof (grows_root _ _ Hg) as Er.
    destruct (contiguous_ok s1 vs amount k (proj1 Hg) Ha (proj2 (run_free_pte s s1 vs k amount Er Hp) Hrun) fuel tb (pg_index vs 12) 0 0)
      as (r & Hr & Hrk & Hfree); [|lia|lia|lia|intros i; lia|lia|].
    { left. by rewrite Z.mul_0_r, Z.add_0_r. }
    rewrite Z.mul_0_r, Z.add_0_r, (u64_small vs) in Hr by done. rewrite Z.sub_diag in Hr. rewrite Hr. cbn [mbind res_bind result].
    split_and!; [done..|]. exists r. split_and!; [done|lia|lia|]. by apply (run_free_pte s s1).
Qed.

(** The addresses of the pages of a map, [kpmap]'s [amount] with the extra page. *)
Definition map_pages (amount phys : Z) : Z := if page_flags phys >? 0 then u64 (amount + 1) else amount.

(** What [kpmap] does: pages [r ..] from [vstart] on were free and now lead to the frames from
    [phys] on; other pages stay. *)
Lemma kpmap_ok fuel s amount phys flags k : pg_ok s -> 0 < amount < 2 ^ 36 -> 0 <= phys < 2 ^ 64 -> 0 <= k ->
  0 <= vstart (pmap s) < 2 ^ 64 -> let n := map_pages amount phys in
  run_free s (vstart (pmap s)) k n -> k + n < Z.of_nat fuel ->
  result True (kpmap fuel s amount phys flags) (fun '(s', v) => exists r s1,
    grows s s1 /\ s' = count_map s1 n /\ v = u64 (vstart (pmap s) + 4096 * r + page_flags phys) /\ 0 <= r <= k /\
    run_free s (vstart (pmap s)) r n /\
    (forall w, off w (vstart (pmap s) + 4096 * r) < n -> has_table s1 w) /\
    forall w, pte (tabs s1) (pg_root s) w =
      let d := off w (vstart (pmap s) + 4096 * r) in
      if d <? n then mapped_to (phys - page_flags phys) (Z.lor (Z.land flags 4095) PAGE_NOPHYS) d
      else pte (tabs s) (pg_root s) w).
Proof.
  intros Hok Ha Hphys Hk Hvs n Hrun Hfuel. unfold kpmap. fold (map_pages amount phys). fold n.
  pose proof (Z.mod_pos_bound phys 4096 eq_refl) as Hpf. pose proof (Z.mod_le phys 4096).
  rewrite <- page_flags_eq in *. assert (0 < n <= 2 ^ 36) as Hn.
  { unfold n, map_pages. destruct (Z.gtb_spec (page_flags phys) 0); [rewrite u64_small|]; lia. }
  eapply result_bind; [by apply (find_contiguous_ok fuel s n k); lia || done|done|].
  intros [s0 v] (Hg0 & Hp0 & r & -> & Hr & Hfree). pose proof (grows_root _ _ Hg0) as Er.
  rewrite (u64_small (phys - page_flags phys)) by lia.
  eapply result_bind; [apply assign_loop_ok; [apply Hg0|lia|lia]|done|].
  intros s1 (Hg1 & Ht1 & Hp1). cbn [result]. rewrite Z2Nat.id in * by lia. setoid_rewrite off_u64_r in Ht1. setoid_rewrite off_u64_r in Hp1.
  exists r, s1. split_and!; try done; try lia; [by eapply grows_trans| |].
  - unfold u64. rewrite Zplus_mod_idemp_l. done.
  - intros w. rewrite Er in Hp1. by rewrite Hp1, Hp0, off_u64_r.
Qed.

Lemma mapped_frame phys flags d : page_mask (mapped_to phys (Z.lor (Z.land flags 4095) PAGE_NOPHYS) d) = page_mask (u64 (phys + MEM_PAGE_SIZE * d)).
Proof.
  unfold mapped_to, PAGE_NOPHYS, PAGE_PRESENT. rewrite !page_mask_lor, page_mask_idem, (page_mask_small 1), (page_mask_small 512) by lia.
  rewrite (page_mask_small (Z.land flags 4095)); [by rewrite !Z.lor_0_r|]. fold (page_flags flags). rewrite page_flags_eq. by apply Z.mod_pos_bound.
Qed.

Lemma mapped_nophys phys flags d : nophys (mapped_to phys (Z.lor flags PAGE_NOPHYS) d).
Proof.
  unfold nophys, page_flags, mapped_to, PAGE_NOPHYS, PAGE_PRESENT. intros E. apply (f_equal (fun x => Z.testbit x 9)) in E.
  rewrite !Z.land_spec, !Z.lor_spec in E. by rewrite !orb_true_r in E.
Qed.

Lemma translate_arith phys j : 0 <= phys -> 0 <= j -> let o := page_flags phys in
  u64 (page_mask (u64 (phys - o + MEM_PAGE_SIZE * ((o + j) / 4096))) + (o + j) mod 4096) = u64 (phys + j).
Proof.
  intros Hp Hj o. unfold o. rewrite page_flags_eq, page_mask_eq. unfold MEM_PAGE_SIZE, u64. set (b := phys / 4096). set (c := phys mod 4096).
  assert (phys = 4096 * b + c) as E by (apply Z.div_mod; lia). set (q := (c + j) / 4096). set (t := (c + j) mod 4096).
  assert (c + j = 4096 * q + t) as E2 by (apply Z.div_mod; lia). replace (phys - c + 4096 * q) with (4096 * (b + q)) by lia.
  change (2 ^ 64) with (4096 * 2 ^ 52). rewrite Z.mul_mod_distr_l by lia. rewrite (Z.mul_comm 4096 ((b + q) mod 2 ^ 52)) at 2.
  rewrite Z.mod_mul, Z.sub_0_r, <- Z.mul_mod_distr_l by lia. rewrite Zplus_mod_idemp_l. f_equal. lia.
Qed.

(** The offset of byte [j] of a map whose first byte is [o] into its first page. *)
Lemma off_byte base o j : 0 <= o < 4096 -> base mod 4096 = 0 -> 0 <= j -> (o + j) / 4096 < 2 ^ 36 ->
  off (base + o + j) base = (o + j) / 4096 /\ (base + o + j) mod 4096 = (o + j) mod 4096.
Proof.
  intros Ho Hb Hj Hlt. assert (base = base / 4096 * 4096) as E by (pose proof (Z.div_mod base 4096); lia).
  replace (base + o + j) with (o + j + base / 4096 * 4096) by lia. rewrite Z.mod_add by lia. split; [|done].
  unfold off. rewrite Z.div_add by lia. replace (_ + _ - _) with ((o + j) / 4096) by lia. apply Z.mod_small.
  split; [apply Z.div_pos; lia|done].
Qed.

(** The bytes of a map. *)
Lemma kpmap_bytes fuel s amount phys flags k : pg_ok s -> 0 < amount < 2 ^ 36 -> 0 <= phys < 2 ^ 64 -> 0 <= k ->
  0 <= vstart (pmap s) < 2 ^ 64 -> vstart (pmap s) mod 4096 = 0 ->
  run_free s (vstart (pmap s)) k (map_pages amount phys) -> k + map_pages amount phys < Z.of_nat fuel ->
  result True (kpmap fuel s amount phys flags) (fun '(s', v) => pg_ok s' /\ exists r, 0 <= r <= k /\
    run_free s (vstart (pmap s)) r (map_pages amount phys) /\
    (forall w, map_pages amount phys <= off w (vstart (pmap s) + 4096 * r) ->
       pte (tabs s') (pg_root s) w = pte (tabs s) (pg_root s) w) /\
    forall j, 0 <= j < amount * MEM_PAGE_SIZE -> exists s2, kppaddrof s' (u64 (v + j)) = Ok (s2, u64 (phys + j))).
Proof.
  intros Hok Ha Hphys Hk Hvs Hal Hrun Hfuel. set (n := map_pages amount phys) in *.
  eapply result_mono; [by apply (kpmap_ok fuel s amount phys flags k)|done|].
  intros [s' v] (r & s1 & Hg & -> & -> & Hr & Hfree & Ht & Hp). cbv zeta in Hp. fold n in Hfree, Ht, Hp.
  fold n. set (base := vstart (pmap s) + 4096 * r) in *. split; [apply Hg|]. exists r. split_and!; try done; try lia.
  { intros w Hw. fold base in Hw. cbn [tabs count_map set_pmap]. rewrite Hp. destruct (Z.ltb_spec (off w base) n); [lia|done]. }
  intros j Hj. pose proof (Z.mod_pos_bound phys 4096 eq_refl) as Ho. rewrite <- page_flags_eq in Ho. set (o := page_flags phys) in *.
  assert (base mod 4096 = 0) as Hb by (unfold base; rewrite (Z.mul_comm 4096); by rewrite Z.mod_add).
  assert (0 <= (o + j) / 4096 < n /\ n <= 2 ^ 36) as [Hd Hn36].
  { unfold MEM_PAGE_SIZE in Hj. unfold n, map_pages. fold o. destruct (Z.gtb_spec o 0).
    - rewrite u64_small by lia. split; [split; [apply Z.div_pos; lia|apply Z.div_lt_upper_bound; lia]|lia].
    - split; [split; [apply Z.div_pos; lia|apply Z.div_lt_upper_bound; lia]|lia]. }
  destruct (off_byte base o j Ho Hb ltac:(lia) ltac:(lia)) as [Eo Em].
  assert (u64 (u64 (base + o) + j) = u64 (base + o + j)) as -> by (unfold u64; by rewrite Zplus_mod_idemp_l).
  set (w := u64 (base + o + j)). assert (off w base = (o + j) / 4096) as Ew by (unfold w; by rewrite off_u64_l).
  destruct (result_Ok _ _ _ (paddrof_ok (count_map s1 n) w (proj1 Hg))) as ([s2 a] & E & _ & -> & _).
  { intros Hno. apply Hno. apply Ht. lia. }
  exists s2. unfold kppaddrof. rewrite E. do 2 f_equal. change (pg_root (count_map s1 n)) with (pg_root s1). rewrite (grows_root _ _ Hg).
  cbn [tabs count_map set_pmap]. rewrite Hp, Ew. destruct (Z.ltb_spec ((o + j) / 4096) n); [|lia].
  rewrite mapped_frame. replace (w mod 4096) with ((o + j) mod 4096); [by apply translate_arith; lia|].
  rewrite <- Em. unfold w, u64. change (2 ^ 64) with (4096 * 2 ^ 52). rewrite Z.rem_mul_r by lia.
  rewrite (Z.mul_comm 4096), Z.mod_add, Z.mod_mod by lia. done.
Qed.

(** C10: [kpmap] maps physical memory: it takes the first run of pages from [vstart] on that are
    all free, every byte [j] of the range then translates, by [kppaddrof], to byte [j] of the
    physical range, also when that starts inside a page, and every page that is outside the run
    keeps its entry.  It gives up only for want of a frame for a page table. *)
Theorem kpmap_translates fuel s amount phys flags k : pg_ok s -> 0 < amount < 2 ^ 36 -> 0 <= phys < 2 ^ 64 -> 0 <= k ->
  0 <= vstart (pmap s) < 2 ^ 64 -> vstart (pmap s) mod 4096 = 0 ->
  run_free s (vstart (pmap s)) k (map_pages amount phys) -> k + map_pages amount phys < Z.of_nat fuel ->
  result True (kpmap fuel s amount phys flags) (fun '(s', v) => pg_ok s' /\ exists r, 0 <= r <= k /\
    run_free s (vstart (pmap s)) r (map_pages amount phys) /\
    (forall w, map_pages amount phys <= off w (vstart (pmap s) + 4096 * r) ->
       pte (tabs s') (pg_root s) w = pte (tabs s) (pg_root s) w) /\
    forall j, 0 <= j < amount * MEM_PAGE_SIZE -> exists s2, kppaddrof s' (u64 (v + j)) = Ok (s2, u64 (phys + j))).
Proof. apply kpmap_bytes. Qed.

Lemma map_unmap fuel s amount phys flags k : pg_ok s -> 0 < amount < 2 ^ 36 -> 0 <= phys < 2 ^ 64 -> 0 <= k ->
  0 <= vstart (pmap s) < 2 ^ 64 -> vstart (pmap s) mod 4096 = 0 -> 0 <= map_frames_used (pmap s) < 2 ^ 64 ->
  run_free s (vstart (pmap s)) k (map_pages amount phys) -> k + map_pages amount phys < Z.of_nat fuel ->
  result True (kpmap fuel s amount phys flags) (fun '(s', v) =>
    if page_flags phys =? 0 then
      exists s2, kpunmap s' v amount = Ok s2 /\ grows s s2 /\
        forall w, pte (tabs s2) (pg_root s) w = pte (tabs s) (pg_root s) w
    else forall n, kpunmap s' v n = Panic "free alignment").
Proof.
  intros Hok Ha Hphys Hk Hvs Hal Hm Hrun Hfuel. eapply result_mono; [by apply (kpmap_ok fuel s amount phys flags k)|done|].
  intros [s' v] (r & s1 & Hg & -> & -> & Hr & Hfree & Ht & Hp). cbv zeta in Hp. set (base := vstart (pmap s) + 4096 * r) in *.
  assert (base mod 4096 = 0) as Hb by (unfold base; rewrite (Z.mul_comm 4096); by rewrite Z.mod_add).
  pose proof (Z.mod_pos_bound phys 4096 eq_refl) as Ho. rewrite <- page_flags_eq in Ho. unfold kpunmap, kpfree.
  assert (page_flags (u64 (base + page_flags phys)) = page_flags phys) as ->.
  { rewrite (page_flags_eq (u64 _)). unfold u64. change (2 ^ 64) with (4096 * 2 ^ 52). rewrite Z.rem_mul_r by lia.
    rewrite (Z.mul_comm 4096), Z.mod_add, Z.mod_mod by lia. rewrite Zplus_mod, Hb, Z.add_0_l, Z.mod_mod by lia. by apply Z.mod_small. }
  unfold map_pages in *. destruct (Z.eqb_spec (page_flags phys) 0) as [E0|E0]; [|intros n; by destruct (Z.gtb_spec (page_flags phys) 0); [|lia]].
  rewrite !E0 in *. cbn [Z.gtb Z.compare] in *. rewrite Z.add_0_r. pose proof (grows_root _ _ Hg) as Er.
  destruct (result_Ok _ _ _ (free_loop_ok (Z.to_nat amount) (count_map s1 amount) (u64 base) (proj1 Hg) ltac:(lia) (u64_range _)
    ltac:(intros w; rewrite off_u64_r, Z2Nat.id by lia; change (pg_root (count_map s1 amount)) with (pg_root s1);
      cbn [tabs count_map set_pmap]; rewrite Er, Hp; intros Hw; destruct (Z.ltb_spec (off w base) amount); [apply mapped_nophys|lia])))
    as (s2 & Hs2 & Hg2 & Hp2); rewrite Z2Nat.id in * by lia.
  { intros (w & Hw & Hno). apply Hno, Ht. by rewrite off_u64_r in Hw. }
  exists s2. split; [done|]. split.
  - rewrite count_count, Z.add_opp_diag_r, count_0 in Hg2; [by eapply grows_trans|]. destruct Hg as (_ & (_ & _ & _ & _ & ->) & _). done.
  - intros w. change (pg_root (count_map s1 amount)) with (pg_root s1) in Hp2. cbn [tabs count_map set_pmap] in Hp2.
    rewrite Er in Hp2. rewrite Hp2, Hp, off_u64_r. destruct (Z.ltb_spec (off w base) amount) as [Hlt|]; [|done].
    symmetry. rewrite (pte_same _ _ w (vstart (pmap s) + 4096 * (r + off w base))).
    + apply Hfree. pose proof (off_range w base). lia.
    + apply same_page_off. replace (vstart (pmap s) + 4096 * (r + off w base)) with (base + 4096 * off w base) by (unfold base; lia).
      rewrite off_pages, Z.sub_diag. done.
Qed.

(** C11: [kpunmap] undoes [kpmap]: unmapping the pages a map of page-aligned memory took always
    succeeds and leaves every page of the address space with the entry it had before, and the
    counters of the map where they were.  For memory that starts inside a page, [kpmap] returns
    an address inside the first page, and handing that to [kpunmap] panics. *)
Theorem kpmap_kpunmap fuel s amount phys flags k : pg_ok s -> 0 < amount < 2 ^ 36 -> 0 <= phys < 2 ^ 64 -> 0 <= k ->
  0 <= vstart (pmap s) < 2 ^ 64 -> vstart (pmap s) mod 4096 = 0 -> 0 <= map_frames_used (pmap s) < 2 ^ 64 ->
  run_free s (vstart (pmap s)) k (map_pages amount phys) -> k + map_pages amount phys < Z.of_nat fuel ->
  result True (kpmap fuel s amount phys flags) (fun '(s', v) =>
    if page_flags phys =? 0 then
      exists s2, kpunmap s' v amount = Ok s2 /\ grows s s2 /\
        forall w, pte (tabs s2) (pg_root s) w = pte (tabs s) (pg_root s) w
    else forall n, kpunmap s' v n = Panic "free alignment").
Proof. apply map_unmap. Qed.

Lemma result_and {A} need (r : res A) (P Q : A -> Prop) : result need r P -> result need r Q -> result need r (fun a => P a /\ Q a).
Proof. destruct r; simpl; intuition. Qed.

Lemma off_refl v : off v v = 0.
Proof. unfold off. by rewrite Z.sub_diag. Qed.

Lemma run_one s v0 r : run_free s v0 r 1 <-> pte (tabs s) (pg_root s) (v0 + 4096 * r) = 0.
Proof. unfold run_free, page_free. split; [intros Hr; apply Hr; lia|]. intros E i Hi. by replace i with r by lia. Qed.

(** One page of physical memory, seen at an address for as long as it is mapped there. *)
Lemma window_ok fuel s a flags k : pg_ok s -> 0 <= a < 2 ^ 64 -> page_mask a = a -> 0 <= k ->
  0 <= vstart (pmap s) < 2 ^ 64 -> vstart (pmap s) mod 4096 = 0 -> 0 <= map_frames_used (pmap s) < 2 ^ 64 ->
  run_free s (vstart (pmap s)) k 1 -> k + 1 < Z.of_nat fuel ->
  result True (kpmap fuel s 1 a flags) (fun '(s', v) => pg_ok s' /\ pg_root s' = pg_root s /\ v mod 4096 = 0 /\ 0 <= v < 2 ^ 64 /\
    (let e := pte (tabs s') (pg_root s) v in present e /\ nophys e /\ page_mask e = a) /\
    exists s2, kpunmap s' v 1 = Ok s2 /\ grows s s2 /\ forall w, pte (tabs s2) (pg_root s) w = pte (tabs s) (pg_root s) w).
Proof.
  intros Hok Ha Hal Hk Hvs Hvm Hm Hrun Hfuel. assert (page_flags a = 0) as E0 by (rewrite page_flags_eq; rewrite page_mask_eq in Hal; lia).
  assert (map_pages 1 a = 1) as En by (unfold map_pages; by rewrite E0).
  eapply result_mono; [apply result_and; [apply (kpmap_ok fuel s 1 a flags k); rewrite ?En; done|apply (map_unmap fuel s 1 a flags k); rewrite ?En; done]|done|].
  intros [s' v]. rewrite E0. cbn [Z.eqb]. rewrite En. intros [(r & s1 & Hg & -> & -> & Hr & _ & _ & Hp) Hu]. cbv zeta in Hp. rewrite Z.add_0_r, Z.sub_0_r in *.
  change (pg_root (count_map s1 1)) with (pg_root s1). cbn [tabs count_map set_pmap]. rewrite Hp, off_u64_l, off_refl.
  split; [apply Hg|]. split; [by apply grows_root|]. split; [|split; [apply u64_range|split; [|exact Hu]]].
  - unfold u64. change (2 ^ 64) with (4096 * 2 ^ 52). rewrite Z.rem_mul_r, (Z.mul_comm 4096 (_ mod _)), Z.mod_add, Z.mod_mod by lia. by rewrite (Z.mul_comm 4096), Z.mod_add by lia.
  - change (0 <? 1) with true. cbv iota. split; [by apply present_lor|]. split; [apply mapped_nophys|]. rewrite mapped_frame. change (MEM_PAGE_SIZE * 0) with 0. by rewrite Z.add_0_r, u64_small.
Qed.

(** ** Memory of one's own *)

Lemma tree_mono m (used used' : Z -> Prop) root : tree_ok m used root -> (forall a, used a -> used' a) -> tree_ok m used' root.
Proof. intros [Ht Hi Hz] Hu. split; [|done..]. intros p t Hp Hw. destruct (Ht p t Hp Hw). auto. Qed.

(** A new frame for a page: free before, in use after. *)
Lemma new_frame_ok s : pg_ok s ->
  result True (frame_run (fr s) 1) (fun '(f, a) =>
    grows s (mk_pg f (tabs s) (pmap s)) /\ (0 <= a < 2 ^ 64 /\ page_mask a = a) /\ ~ taken (fr s) a /\ taken f a).
Proof.
  intros [Hsrc Htree]. destruct (law_new_frame (fr s) Hsrc) as [(f & a & -> & Hsrc' & Ha & Hal & Hfresh & Htaken)| ->]; [|done].
  cbn [result]. assert (forall b, taken (fr s) b -> taken f b) by (intros; apply Htaken; by right).
  split_and!; [|lia|lia|by apply page_mask_aligned|done|apply Htaken; by left]. split_and!; [split; [done|by eapply tree_mono]|done..].
Qed.

Definition own_entry (a flags : Z) : Z := Z.lor (Z.lor a flags) PAGE_PRESENT.

Lemma own_entry_ok a flags : page_mask a = a -> present (own_entry a (Z.land flags 4095)) /\ page_mask (own_entry a (Z.land flags 4095)) = a.
Proof.
  intros Ha. split; [by apply present_lor|]. unfold own_entry, PAGE_PRESENT. rewrite !page_mask_lor, Ha, (page_mask_small 1) by lia.
  rewrite (page_mask_small (Z.land flags 4095)); [by rewrite !Z.lor_0_r|]. fold (page_flags flags). rewrite page_flags_eq. by apply Z.mod_pos_bound.
Qed.

(** A page at the first free address. *)
Lemma kpcalloc_ok fuel s flags k : pg_ok s -> 0 <= k -> 0 <= vstart (pmap s) < 2 ^ 64 -> run_free s (vstart (pmap s)) k 1 -> k + 1 < Z.of_nat fuel ->
  result True (kpcalloc fuel s 1 flags) (fun '(s', v) => pg_ok s' /\ pg_root s' = pg_root s /\ exists r a, v = u64 (vstart (pmap s) + 4096 * r) /\ 0 <= r <= k /\
    run_free s (vstart (pmap s)) r 1 /\ (0 <= a < 2 ^ 64 /\ page_mask a = a) /\ ~ taken (fr s) a /\ taken (fr s') a /\
    forall w, pte (tabs s') (pg_root s) w = if decide (same_page w v) then own_entry a (Z.land flags 4095) else pte (tabs s) (pg_root s) w).
Proof.
  intros Hok Hk Hvs Hrun Hfuel. unfold kpcalloc. cbn [Z.eqb]. eapply result_bind; [by apply new_frame_ok|done|]. intros [f a] (Hg0 & [Ha Hal] & Hfresh & Hta).
  set (s0 := mk_pg f (tabs s) (pmap s)) in *. eapply result_bind; [by apply (find_contiguous_ok fuel s0 1 k); [apply Hg0|lia|..]|done|].
  intros [s1 v] (Hg1 & Hp1 & r & -> & Hr & Hfree). eapply result_bind; [apply assign_loop_ok; [apply Hg1|lia|done]|done|]. intros s2 (Hg2 & _ & Hp2). cbn [result].
  assert (grows s s2) as Hg by (eapply grows_trans; [exact Hg0|]; by eapply grows_trans). rewrite (grows_root _ _ Hg1) in Hp2. change (pg_root s0) with (pg_root s) in *.
  split; [apply Hg|]. split; [by apply (grows_root s s2)|]. exists r, a. split; [done|]. split; [done|]. split; [done|]. split; [done|]. split; [done|]. split; [apply Hg2, Hg1, Hta|].
  intros w. cbn [tabs set_pmap]. rewrite Hp2, Hp1. change (Z.of_nat (Z.to_nat 1)) with 1. cbn [vstart pmap s0] in *. set (b := u64 _). pose proof (off_range w b). change (tabs s0) with (tabs s).
  destruct (Z.ltb_spec (off w b) 1) as [Hl|Hl], (decide (same_page w b)) as [E|E]; rewrite same_page_off in E; try lia.
  rewrite E. unfold mapped_to, own_entry. change (MEM_PAGE_SIZE * 0) with 0. by rewrite Z.add_0_r, u64_small, Hal.
Qed.

(** The frames [l] handed out, one per page. *)
Lemma valloc_loop_ok flags n : forall s virt, pg_ok s -> Z.of_nat n <= 2 ^ 36 ->
  result True (valloc_loop n s virt flags) (fun s' => grows s s' /\ exists l, length l = n /\ NoDup l /\
    Forall (fun a => (0 <= a < 2 ^ 64 /\ page_mask a = a) /\ ~ taken (fr s) a /\ taken (fr s') a) l /\
    forall w, pte (tabs s') (pg_root s) w = match get l (off w virt) with
                                            | Some a => own_entry a flags
                                            | None => pte (tabs s) (pg_root s) w end).
Proof.
  induction n as [|n IH]; intros s virt Hok Hn; cbn [valloc_loop].
  { cbn [result]. split; [done|]. exists []. split_and!; try constructor. intros w. unfold get. destruct (0 <=? _); [by rewrite lookup_nil|done]. }
  eapply result_bind; [by apply new_frame_ok|done|]. intros [f a] (Hg0 & Hal & Hfresh & Hta).
  eapply result_bind; [apply assign_ok, Hg0|done|]. intros s1 (Hg1 & _ & Hp1).
  assert (grows s s1) as Hg by (by eapply grows_trans). change (pg_root (mk_pg f (tabs s) (pmap s))) with (pg_root s) in Hp1.
  eapply result_mono; [apply (IH s1); [apply Hg|lia]|done|]. intros s' (Hg' & l & Hl & Hnd & Hall & Hp).
  rewrite (grows_root _ _ Hg) in Hp. rewrite (proj2 Hal) in Hp1. split; [by eapply grows_trans|]. exists (a :: l).
  assert (taken (fr s1) a) as Hta1 by (by apply Hg1). rewrite Forall_forall in Hall. split_and!.
  - simpl. by rewrite Hl.
  - constructor; [|done]. intros Hin. by destruct (Hall a Hin) as (_ & Hno & _).
  - constructor; [split; [done|]; split; [done|by apply Hg']|]. apply Forall_forall. intros b Hb. destruct (Hall b Hb) as (? & Hno & ?).
    split; [done|]. split; [|done]. intros ?. by apply Hno, Hg.
  - intros w. rewrite Hp, Hp1, off_next. pose proof (off_range w virt). unfold get.
    destruct (decide (same_page w virt)) as [E%same_page_off|E]; [|rewrite same_page_off in E]; destruct (decide (off w virt = 0)) as [E0|]; try lia.
    + rewrite E0. destruct (Z.leb_spec 0 (2 ^ 36 - 1)); [|lia]. rewrite lookup_ge_None_2 by lia. done.
    + destruct (Z.leb_spec 0 (off w virt - 1)), (Z.leb_spec 0 (off w virt)); try lia.
      replace (Z.to_nat (off w virt)) with (S (Z.to_nat (off w virt - 1))) by lia. done.
Qed.

(** C12: [kpvalloc] gives out memory of its own: each of the pages gets a frame that nothing used
    before, no two pages the same one, and the other pages keep their entries; it counts what it
    took.  It gives up only for want of frames. *)
Theorem kpvalloc_own_frames s amount virt flags : pg_ok s -> 0 < amount <= 2 ^ 36 ->
  result True (kpvalloc s amount virt flags) (fun '(s', v) => pg_ok s' /\ v = virt /\
    pm_frames_used (pmap s') = u64 (pm_frames_used (pmap s) + amount) /\
    exists l, zlen l = amount /\ NoDup l /\ Forall (fun a => (0 <= a < 2 ^ 64 /\ page_mask a = a) /\ ~ taken (fr s) a /\ taken (fr s') a) l /\
    forall w, pte (tabs s') (pg_root s) w = match get l (off w virt) with
                                            | Some a => own_entry a (Z.land flags 4095)
                                            | None => pte (tabs s) (pg_root s) w end).
Proof.
  intros Hok Ha. unfold kpvalloc. destruct (Z.eqb_spec amount 0); [lia|].
  eapply result_bind; [apply (valloc_loop_ok (Z.land flags 4095) (Z.to_nat amount) s virt Hok); lia|done|].
  intros s' (Hg & l & Hl & Hrest). cbn [result]. split_and!; [apply Hg|done| |].
  - destruct Hg as (_ & (_ & _ & _ & E & _) & _). simpl. by rewrite E.
  - exists l. split; [unfold zlen; lia|done].
Qed.
End PagingLaws.

(** ** The frame allocator keeps the promise *)
Lemma shape_lookup st st' j p : shape st' = shape st -> pieces st' !! j = Some p ->
  exists q, pieces st !! j = Some q /\ pstart q = pstart p /\ usable q = usable p.
Proof.
  intros Es Hj. assert (shape st !! j = Some (pstart p, usable p)) as E by (rewrite <- Es; unfold shape; by rewrite list_lookup_fmap, Hj).
  unfold shape in E. rewrite list_lookup_fmap in E. destruct (pieces st !! j) as [q|]; [|done]. simpl in E. injection E as <- <-. by exists q.
Qed.

Lemma shape_pieces (P : Z -> Z -> Prop) st st' : shape st' = shape st ->
  Forall (fun p => P (pstart p) (usable p)) (pieces st) -> Forall (fun p => P (pstart p) (usable p)) (pieces st').
Proof.
  intros Es HP. apply Forall_lookup_2. intros j p Hj. destruct (shape_lookup _ _ _ _ Es Hj) as (q & Hq & <- & <-).
  apply (Forall_lookup_1 _ _ _ _ HP Hq).
Qed.

Lemma layout_shape st st' : shape st' = shape st -> layout_ok st -> layout_ok st'.
Proof.
  intros Es [Hb Hd]. split; [by apply (shape_pieces (fun a u => 0 <= a /\ u * FRAME_SIZE < 2 ^ 32 /\ a + u * FRAME_SIZE < 2 ^ 64) st)|].
  intros j j' p p' Hj Hj' Hne. destruct (shape_lookup _ _ _ _ Es Hj) as (q & Hqj & <- & <-), (shape_lookup _ _ _ _ Es Hj') as (q' & Hqj' & <- & <-).
  by apply (Hd j j').
Qed.

Lemma aligned_shape st st' : shape st' = shape st ->
  Forall (fun p => pstart p mod MEM_PAGE_SIZE = 0) (pieces st) -> Forall (fun p => pstart p mod MEM_PAGE_SIZE = 0) (pieces st').
Proof. apply (shape_pieces (fun a _ => a mod MEM_PAGE_SIZE = 0)). Qed.

#[global] Instance frames_source_laws : FrameSourceLaws frames.
Proof.
  intros st (Hok & Hlay & Hal). destruct (kfcalloc_cases st 1 Hok ltac:(lia)) as [(st' & s & E & [Hrun _] & Hok' & Hfl)|[E _]].
  2: { right. simpl. by rewrite E. }
  left. destruct (kfcalloc_shape _ _ _ _ E) as [Es Ep]. pose proof (free_run_bound (flat st) s 1 ltac:(lia) Hrun) as Hs.
  destruct Hrun as [Hs0 Hfree]. specialize (Hfree s ltac:(lia)). change (fill (flat st) s (Z.to_nat 1) true) with (<[Z.to_nat s := true]> (flat st)) in Hfl.
  destruct (kfpaddrof_ok st s Hok Hlay ltac:(lia)) as (j & p & i & Hj & Hi & _ & Ea & Ha0). exists st'. eexists. split.
  { simpl. rewrite E. cbn [mbind res_bind]. rewrite (kfpaddrof_shape st st') by done. by rewrite Ea. }
  assert (forall id a, 0 <= id -> flat st !! Z.to_nat id = Some true -> kfpaddrof st id = Ok a -> 0 <= id < zlen (flat st) /\ id <> s) as Hold.
  { intros id a Hid Hf _. split; [apply lookup_lt_Some in Hf; unfold zlen; lia|]. intros ->. congruence. }
  split_and!.
  - split_and!; [done|by apply (layout_shape st)|by apply (aligned_shape st)].
  - apply Ha0.
  - apply Ha0.
  - pose proof (Forall_lookup_1 _ _ _ _ Hal Hj) as Hp. cbv beta in Hp. unfold MEM_PAGE_SIZE, FRAME_SIZE in *. by rewrite Z.mod_add.
  - intros (id & Hid & Hf & Hpa). destruct (Hold _ _ Hid Hf Hpa) as [? Hne]. apply Hne. eapply (kfpaddrof_inj st); [done..|lia|done|done].
  - intros b. simpl. setoid_rewrite (kfpaddrof_shape st st' _ Es Ep). rewrite Hfl. split.
    + intros (id & Hid & Hf & Hpa). destruct (decide (id = s)) as [->|Hne]; [left; congruence|].
      right. exists id. rewrite list_lookup_insert_ne in Hf by lia. done.
    + intros [->|(id & Hid & Hf & Hpa)].
      * exists s. split_and!; [done| |done]. apply list_lookup_insert_eq. unfold zlen in Hs. lia.
      * destruct (Hold _ _ Hid Hf Hpa). exists id. split_and!; [done| |done]. by rewrite list_lookup_insert_ne by lia.
Qed.

(** ** A map with an empty directory *)
Lemma walk_empty root p t : walk {[root := replicate 512 0]} root p = Some t -> p = [] /\ t = root.
Proof.
  destruct p as [|i p]; cbn [walk]; [by intros [= <-]|]. unfold next, ent. rewrite lookup_singleton_eq. cbn [mbind option_bind].
  destruct (replicate 512 0 !! i) as [e|] eqn:He; cbn [mbind option_bind]; [|done]. apply lookup_replicate in He as [-> _]. done.
Qed.

Lemma tree_empty (used : Z -> Prop) root : used root -> tree_ok {[root := replicate 512 0]} used root.
Proof.
  intros Hu. split.
  - intros p t _ [-> ->]%walk_empty. split; [|done]. exists (replicate 512 0). by rewrite lookup_singleton_eq.
  - by intros p q t _ _ [-> _]%walk_empty [-> _]%walk_empty.
  - intros p t i e _ [-> ->]%walk_empty. unfold ent. rewrite lookup_singleton_eq. cbn [mbind option_bind].
    intros [-> _]%lookup_replicate. by left.
Qed.

Lemma pte_empty root w : pte {[root := replicate 512 0]} root w = 0.
Proof.
  unfold pte, leaf. destruct (walk _ root (vpath w)) as [t|] eqn:Hw; [|done]. apply walk_empty in Hw as [E _].
  pose proof (length_idxs 3 w 39). unfold vpath in E. by rewrite E in H.
Qed.

Definition demo_pg : pg frames :=
  mk_pg boot_frames {[1048576 := replicate 512 0]} (mk_pagemap 1048576 18446744071563083776 18446744073709551615 0 8 5).

Lemma demo_ok : pg_ok demo_pg.
Proof.
  split.
  - split_and!; [apply boot_frames_ok|split|repeat constructor].
    + repeat constructor; vm_compute; done.
    + intros [|[|j]] [|[|j']] p p' Hj Hj' Hne; try done; vm_compute in Hj, Hj'; simplify_eq; vm_compute; ((left; done) || (right; done)).
  - apply (tree_empty (taken boot_frames) 1048576). exists 0. by split_and!; vm_compute.
Qed.

Lemma demo_free k n : run_free demo_pg (vstart (pmap demo_pg)) k n.
Proof. intros i _. apply pte_empty. Qed.

(** Two pages of video memory that start in the middle of a page. *)
Lemma kpmap_translates_witness :
  exists s' v, kpmap 8 demo_pg 2 753680 2 = Ok (s', v) /\
    forall j, 0 <= j < 2 * MEM_PAGE_SIZE -> exists s2, kppaddrof s' (u64 (v + j)) = Ok (s2, u64 (753680 + j)).
Proof.
  pose proof (kpmap_translates 8 demo_pg 2 753680 2 0 demo_ok ltac:(lia) ltac:(lia) ltac:(lia) ltac:(vm_compute; split; done)
    eq_refl (demo_free _ _) eq_refl) as H.
  destruct (kpmap 8 demo_pg 2 753680 2) as [[s' v]|m| |] eqn:E; cbn [result] in H; [|vm_compute in E; discriminate E..].
  exists s', v. split; [reflexivity|]. destruct H as (_ & r & _ & _ & _ & H). exact H.
Defined.

Lemma kpmap_kpunmap_witness :
  exists s' v s2, kpmap 8 demo_pg 2 753664 2 = Ok (s', v) /\ kpunmap s' v 2 = Ok s2 /\ grows demo_pg s2 /\
    forall w, pte (tabs s2) (pg_root demo_pg) w = pte (tabs demo_pg) (pg_root demo_pg) w.
Proof.
  pose proof (kpmap_kpunmap 8 demo_pg 2 753664 2 0 demo_ok ltac:(lia) ltac:(lia) ltac:(lia) ltac:(vm_compute; split; done)
    eq_refl ltac:(vm_compute; split; done) (demo_free _ _) eq_refl) as H.
  destruct (kpmap 8 demo_pg 2 753664 2) as [[s' v]|m| |] eqn:E; cbn [result] in H; [|vm_compute in E; discriminate E..].
  destruct H as (s2 & H). exists s', v, s2. split; [reflexivity|exact H].
Defined.

Lemma kpvalloc_own_frames_witness :
  exists s' v, kpvalloc demo_pg 3 4194304 7 = Ok (s', v) /\ pg_ok s' /\
    exists l, zlen l = 3 /\ NoDup l /\ Forall (fun a => (0 <= a < 2 ^ 64 /\ page_mask a = a) /\ ~ taken (fr demo_pg) a /\ taken (fr s') a) l.
Proof.
  pose proof (kpvalloc_own_frames demo_pg 3 4194304 7 demo_ok ltac:(lia)) as H.
  destruct (kpvalloc demo_pg 3 4194304 7) as [[s' v]|m| |] eqn:E; cbn [result] in H; [|vm_compute in E; discriminate E..].
  exists s', v. destruct H as (Hok & _ & _ & l & Hl & Hnd & Hall & _). split; [reflexivity|]. split; [exact Hok|].
  exact (ex_intro _ l (conj Hl (conj Hnd Hall))).
Defined.
