(* ===== verification/Spaces.v ===== *)
(** * The pages of a map, one after another, and the end of an address space

    [kpforeach] of arch/x64/page.c visits the pages of a map; the end of a process in proc/task.c
    uses it to give the frames of the process back before [kp_dispose_map] gives back those of the
    tables.  The loop body is a function of the visit, as a macro's body is; the walk itself
    changes nothing, and holds both spinlocks from the first visit to the last. *)
From S2P Require Import Prelude Bitmap Frame Paging.

Definition KPFOREACH_FIRST : Z := 2048.

(** [virt] and [kpforeach_data_t]. *)
Record cursor := mk_cursor { kf_virt : Z; local_index : Z; page_table : Z }.

(** What one round leaves in [virt], [phys] and [flags]. *)
Record visit := mk_visit { v_virt : Z; v_phys : Z; v_flags : Z }.

Section Foreach.
Context {F : Type} `{FrameSource F}.
Implicit Types (s : pg F).

Definition _kpforeach_init s : cursor := mk_cursor (vstart (pmap s)) KPFOREACH_FIRST 0.

(** The rest of the current table: the address, the index and the entry the loop stops at, 0 at
    the end of the table. *)
Fixpoint table_rest (n : nat) (m : gmap Z (list Z)) (t virt index : Z) : res (Z * Z * Z) :=
  match n with
  | O => Ok (virt, index, 0)
  | S n =>
      let virt := u64 (virt + 4096) in let index := index + 1 in
      if index =? 512 then Ok (virt, index, 0)
      else e ← rd m t index; if e =? 0 then table_rest n m t virt index else Ok (virt, index, e)
  end.

(** The first entry in use from [index] on, 0 if there is none. *)
Fixpoint table_first (n : nat) (m : gmap Z (list Z)) (t index : Z) : res (Z * Z) :=
  match n with
  | O => Ok (index, 0)
  | S n => e ← rd m t index; if e =? 0 then table_first n m t (index + 1) else Ok (index, e)
  end.

(** From the label [again] on. *)
Fixpoint next_table (fuel : nat) s (virt index : Z) : res (option (Z * Z * Z * Z)) :=
  match fuel with
  | O => OutOfFuel
  | S f =>
      if virt <? vend (pmap s) then
        '(o, virt) ← _mempg_find_table s virt virt;
        match o with
        | None => next_table f s virt index
        | Some pt =>
            let i := if index =? KPFOREACH_FIRST then Z.land virt 2097151 / 4096 else 0 in
            '(i, e) ← table_first (Z.to_nat (512 - i)) (tabs s) pt i;
            if e =? 0 then next_table f s virt i else Ok (Some (virt, i, pt, e))
        end
      else Ok None
  end.

Definition _kpforeach_advance (fuel : nat) s (c : cursor) : res (option (cursor * visit)) :=
  '(virt, index, e) ← table_rest (Z.to_nat (512 - local_index c)) (tabs s) (page_table c) (kf_virt c) (local_index c);
  if negb (e =? 0) then Ok (Some (mk_cursor virt index (page_table c), mk_visit virt (page_mask e) (page_flags e)))
  else
    r ← next_table fuel s virt index;
    match r with
    | None => Ok None
    | Some (virt, i, pt, e) => Ok (Some (mk_cursor virt i pt, mk_visit virt (page_mask e) (page_flags e)))
    end.

(** [kpforeach(virt, phys, flags, proot) { body }], from a round on. *)
Fixpoint kpforeach {A} (n fuel : nat) s (c : cursor) (body : A -> visit -> res A) (a : A) : res A :=
  match n with
  | O => OutOfFuel
  | S n =>
      r ← _kpforeach_advance fuel s c;
      match r with None => Ok a | Some (c, v) => a ← body a v; kpforeach n fuel s c body a end
  end.

(** The body of the loop in [_task_prkill_async], and what it does to the memory of a process. *)
Definition give_page_back (f : F) (v : visit) : res F :=
  if negb (Z.land (v_flags v) PAGE_NOPHYS =? 0) then Ok f else frame_drop f (v_phys v).

Definition release_space (n fuel : nat) s : res F :=
  f ← kpforeach n fuel s (_kpforeach_init s) give_page_back (fr s);
  kp_dispose_map f (tabs s) (pmap s).
End Foreach.

(** ** Blocks of the address space *)

Lemma pow_split k sh : 0 <= k <= sh -> 2 ^ sh = 2 ^ k * 2 ^ (sh - k).
Proof. intros. rewrite <- Z.pow_add_r by lia. f_equal. lia. Qed.

Lemma block_up k sh v w : 0 <= k <= sh -> v / 2 ^ k = w / 2 ^ k -> v / 2 ^ sh = w / 2 ^ sh.
Proof. intros Hk E. rewrite (pow_split k sh) by lia. rewrite <- !Z.div_div by lia. by rewrite E. Qed.

Lemma idx_block k sh v w : 0 <= k <= sh -> v / 2 ^ k = w / 2 ^ k -> idx v sh = idx w sh.
Proof. intros Hk E. unfold idx. rewrite !pg_index_eq by lia. by rewrite (block_up k sh v w). Qed.

Lemma in_block k v w : 0 <= k -> v mod 2 ^ k = 0 -> v <= w < v + 2 ^ k -> v / 2 ^ k = w / 2 ^ k.
Proof. intros Hk Hv Hw. pose proof (Z.div_mod v (2 ^ k)). assert (0 < 2 ^ k) by lia. apply (Z.div_unique_pos w _ _ (w - v)); lia. Qed.

Lemma block_next k sh v : 0 <= k <= sh -> v mod 2 ^ k = 0 -> (v + 2 ^ k) mod 2 ^ sh <> 0 -> v / 2 ^ sh = (v + 2 ^ k) / 2 ^ sh.
Proof.
  intros Hk Hv Hn. assert (0 < 2 ^ k /\ 0 < 2 ^ sh /\ 0 < 2 ^ (sh - k)) as (H1 & H2 & H3) by lia. pose proof (pow_split k sh Hk) as Es.
  pose proof (Z.div_mod v (2 ^ k)) as Ev. rewrite Hv, Z.add_0_r in Ev. specialize (Ev ltac:(lia)). set (q := v / 2 ^ k) in *.
  assert (v + 2 ^ k = 2 ^ k * (q + 1)) as Ew by lia. rewrite Ew in *. rewrite Ev, Es in *. rewrite !Z.div_mul_cancel_l by lia.
  rewrite Z.mul_mod_distr_l in Hn by lia. assert ((q + 1) mod 2 ^ (sh - k) <> 0) as Hq by (intros E; apply Hn; rewrite E; lia).
  pose proof (Z.div_mod q (2 ^ (sh - k))). pose proof (Z.mod_pos_bound q (2 ^ (sh - k))). set (r := q mod 2 ^ (sh - k)) in *.
  assert (r + 1 <> 2 ^ (sh - k)) as Hr.
  { intros E. apply Hq. replace (q + 1) with ((q / 2 ^ (sh - k) + 1) * 2 ^ (sh - k)) by lia. by rewrite Z.mod_mul by lia. }
  apply (Z.div_unique_pos _ _ _ (r + 1)); lia.
Qed.

Lemma mod_pow_down k sh v : 0 <= k <= sh -> v mod 2 ^ sh = 0 -> v mod 2 ^ k = 0.
Proof.
  intros Hk Hv. assert (0 < 2 ^ k /\ 0 < 2 ^ sh) by lia. pose proof (Z.div_mod v (2 ^ sh)). rewrite (pow_split k sh) in * by lia.
  replace v with (2 ^ (sh - k) * (v / (2 ^ k * 2 ^ (sh - k))) * 2 ^ k) by lia. by rewrite Z.mod_mul by lia.
Qed.

(** ** The pages in order *)

Section Pages.
Context {F : Type} `{FrameSource F}.
Context (s : pg F).

Definition ptev (v : Z) : Z := pte (tabs s) (pg_root s) v.

(** The page at [v], as a visit. *)
Definition page_visit (v : Z) : visit := mk_visit v (page_mask (ptev v)) (page_flags (ptev v)).

(** The pages in use among [n] pages from [v] on. *)
Fixpoint pages (n : nat) (v : Z) : list visit :=
  match n with O => [] | S n => (if ptev v =? 0 then [] else [page_visit v]) ++ pages n (v + 4096) end.

Fixpoint each {A} (body : A -> visit -> res A) (a : A) (l : list visit) : res A :=
  match l with [] => Ok a | v :: l => a ← body a v; each body a l end.

Definition zero_pages (v w : Z) : Prop := forall x, v <= x < w -> ptev x = 0.

Lemma zero_trans u v w : zero_pages u v -> zero_pages v w -> zero_pages u w.
Proof. intros H1 H2 x Hx. destruct (decide (x < v)); [apply H1|apply H2]; lia. Qed.

Lemma pages_skip k n v : zero_pages v (v + 4096 * Z.of_nat k) -> pages (k + n) v = pages n (v + 4096 * Z.of_nat k).
Proof.
  revert v. induction k as [|k IH]; intros v Hz; [by rewrite Z.mul_0_r, Z.add_0_r|]. cbn [Nat.add pages]. rewrite (Hz v) by lia. cbn [Z.eqb app].
  rewrite IH; [f_equal; lia|]. intros x Hx. apply Hz. lia.
Qed.

Lemma each_app {A} (body : A -> visit -> res A) l k : forall a, each body a (l ++ k) = (a ← each body a l; each body a k).
Proof. induction l as [|v l IH]; intros a; cbn [app each mbind res_bind]; [done|]. destruct (body a v); cbn [mbind res_bind]; auto. Qed.
End Pages.

Section ForeachLaws.
Context {F : Type} `{FrameSourceLaws F}.
Context (s : pg F) (Hok : pg_ok s).
#[local] Abbreviation m := (tabs s).
#[local] Abbreviation root := (pg_root s).
#[local] Abbreviation table_of v := (walk m root (vpath v)).

Lemma idx_of_page v i : v mod 2 ^ 21 = 0 -> 0 <= i < 512 -> vpath (v + 4096 * i) = vpath v /\ pg_index (v + 4096 * i) 12 = i.
Proof.
  intros Hv Hi. assert (pg_index v 12 = 0) as E0.
  { rewrite pg_index_eq by lia. pose proof (Z.div_mod v (2 ^ 21)) as Ev. rewrite Hv in Ev. change (2 ^ 21) with (512 * 2 ^ 12) in *.
    rewrite Ev by lia. rewrite Z.add_0_r. replace (512 * 2 ^ 12 * (v / (512 * 2 ^ 12))) with (v / (512 * 2 ^ 12) * 512 * 2 ^ 12) by lia. rewrite Z.div_mul by lia. by rewrite Z.mod_mul by lia. }
  destruct (vpath_near v i) as [-> E]; [lia|lia|]. split; [done|lia].
Qed.

Lemma entry_read t v i : table_of v = Some t -> v mod 2 ^ 21 = 0 -> 0 <= i < 512 -> rd m t i = Ok (ptev s (v + 4096 * i)).
Proof. intros Ht Hv Hi. destruct (idx_of_page v i Hv Hi) as [Ep Ei]. rewrite <- Ei at 1. apply pte_read; [done|by rewrite Ep]. Qed.

Lemma table_rest_ok t v n : table_of v = Some t -> v mod 2 ^ 21 = 0 -> forall i virt, 0 <= i -> i + Z.of_nat n = 512 -> 0 < Z.of_nat n ->
  0 <= virt -> virt + 4096 * (512 - i) < 2 ^ 64 ->
  exists j, i < j <= 512 /\ (forall x, i < x < j -> ptev s (v + 4096 * x) = 0) /\ (j < 512 -> ptev s (v + 4096 * j) <> 0) /\
    table_rest n m t virt i = Ok (virt + 4096 * (j - i), j, if j =? 512 then 0 else ptev s (v + 4096 * j)).
Proof.
  intros Ht Hv. induction n as [|n IH]; intros i virt Hi Hn Hn0 Hv0 Hvirt; [lia|]. cbn [table_rest]. rewrite u64_small by lia.
  destruct (Z.eqb_spec (i + 1) 512) as [E|E].
  - exists 512. split; [lia|]. split; [intros x; lia|]. split; [lia|]. do 3 f_equal; lia.
  - rewrite (entry_read t v) by (done || lia). cbn [mbind res_bind]. destruct (Z.eqb_spec (ptev s (v + 4096 * (i + 1))) 0) as [Ez|Ez].
    + destruct (IH (i + 1) (virt + 4096)) as (j & Hj & Hz & Hnz & ->); [lia..|]. exists j. split; [lia|]. split; [|split; [done|do 3 f_equal; lia]].
      intros x Hx. destruct (decide (x = i + 1)) as [->|]; [done|apply Hz; lia].
    + exists (i + 1). split; [lia|]. split; [intros x; lia|]. split; [done|]. destruct (Z.eqb_spec (i + 1) 512); [lia|]. do 3 f_equal. lia.
Qed.

Lemma table_first_ok t v n : table_of v = Some t -> v mod 2 ^ 21 = 0 -> forall i, 0 <= i -> i + Z.of_nat n = 512 ->
  exists j, i <= j <= 512 /\ (forall x, i <= x < j -> ptev s (v + 4096 * x) = 0) /\ (j < 512 -> ptev s (v + 4096 * j) <> 0) /\
    table_first n m t i = Ok (j, if j =? 512 then 0 else ptev s (v + 4096 * j)).
Proof.
  intros Ht Hv. induction n as [|n IH]; intros i Hi Hn; cbn [table_first].
  - assert (i = 512) as -> by lia. exists 512. split; [lia|]. split; [intros x; lia|]. by split.
  - rewrite (entry_read t v) by (done || lia). cbn [mbind res_bind]. destruct (Z.eqb_spec (ptev s (v + 4096 * i)) 0) as [Ez|Ez].
    + destruct (IH (i + 1)) as (j & Hj & Hz & Hnz & ->); [lia..|]. exists j. split; [lia|]. split; [|by split].
      intros x Hx. destruct (decide (x = i)) as [->|]; [done|apply Hz; lia].
    + exists i. split; [lia|]. split; [intros x; lia|]. split; [done|]. destruct (Z.eqb_spec i 512); [lia|]. done.
Qed.

(** ** From table to table *)

(** The directories of an address, and where the walk may arrive: inside of a block that a
    directory describes only if it has that directory. *)
Definition has_dir1 (v : Z) : Prop := is_Some (walk m root [idx v 39]).
Definition has_dir2 (v : Z) : Prop := is_Some (walk m root [idx v 39; idx v 30]).
Definition arrived (v : Z) : Prop := 0 <= v /\ v mod 2 ^ 21 = 0 /\ (v mod 2 ^ 39 <> 0 -> has_dir1 v) /\ (v mod 2 ^ 30 <> 0 -> has_dir2 v).

Lemma ptev_block v w : v / 2 ^ 12 = w / 2 ^ 12 -> ptev s v = ptev s w.
Proof. intros E. unfold ptev, pte, vpath, idxs. by rewrite (idx_block 12 39 v w), (idx_block 12 (39 - 9) v w), (idx_block 12 (39 - 9 - 9) v w), (idx_block 12 12 v w) by (done || lia). Qed.

Lemma no_table_zero v w : (forall x, v <= x < w -> table_of x = None) -> zero_pages s v w.
Proof. intros Hn x Hx. unfold ptev, pte, leaf. by rewrite Hn. Qed.

Lemma dir1_next k v : (k = 21 \/ k = 30 \/ k = 39) -> v mod 2 ^ k = 0 -> has_dir1 v -> (v + 2 ^ k) mod 2 ^ 39 <> 0 -> has_dir1 (v + 2 ^ k).
Proof. intros Hk Hv Hd Hn. assert (v / 2 ^ 39 = (v + 2 ^ k) / 2 ^ 39) as E by (apply (block_next k); [lia|done|done]). unfold has_dir1. by rewrite <- (idx_block 39 39 v (v + 2 ^ k)) by (lia || done). Qed.
Lemma dir2_next k v : (k = 21 \/ k = 30) -> v mod 2 ^ k = 0 -> has_dir2 v -> (v + 2 ^ k) mod 2 ^ 30 <> 0 -> has_dir2 (v + 2 ^ k).
Proof.
  intros Hk Hv Hd Hn. assert (v / 2 ^ 30 = (v + 2 ^ k) / 2 ^ 30) as E by (apply (block_next k); [lia|done|done]).
  unfold has_dir2. by rewrite <- (idx_block 30 39 v (v + 2 ^ k)), <- (idx_block 30 30 v (v + 2 ^ k)) by (lia || done).
Qed.

(** After a block of the size the walk skips. *)
Lemma arrived_next k v : (k = 21 \/ k = 30 \/ k = 39) -> arrived v -> v mod 2 ^ k = 0 -> (k < 39 -> has_dir1 v) -> (k < 30 -> has_dir2 v) -> arrived (v + 2 ^ k).
Proof.
  intros Hk (H0' & Hv & _ & _) Hvk H1 H2. split; [lia|]. split; [|split].
  - rewrite <- Zplus_mod_idemp_l, Hv. destruct Hk as [-> |[-> | ->]]; done.
  - intros Hn. apply dir1_next; [done..| |done]. apply H1. destruct (decide (k = 39)) as [->|]; [|lia]. exfalso. apply Hn. by rewrite <- Zplus_mod_idemp_l, Hvk, Z.add_0_l, Z.mod_same.
  - intros Hn. destruct (decide (k < 30)); [apply dir2_next; [lia|done|by apply H2|done]|]. exfalso. apply Hn. apply (mod_pow_down 30 k); [lia|]. by rewrite <- Zplus_mod_idemp_l, Hvk, Z.add_0_l, Z.mod_same by lia.
Qed.

Lemma table_dirs v t : table_of v = Some t -> has_dir1 v /\ has_dir2 v.
Proof.
  unfold has_dir1, has_dir2, vpath, idxs. cbn [walk]. change (39 - 9) with 30. destruct (next m root (idx v 39)) as [t1|]; cbn [mbind option_bind]; [|done].
  destruct (next m t1 (idx v 30)) as [t2|]; cbn [mbind option_bind]; [|done]. intros _. split; by eexists.
Qed.

(** Where an address has no table, the walk skips a block that has none. *)
Lemma gap_block v : arrived v -> table_of v = None ->
  exists k, (k = 21 \/ k = 30 \/ k = 39) /\ gap 3 m root v 39 = 2 ^ k /\ zero_pages s v (v + 2 ^ k) /\ arrived (v + 2 ^ k).
Proof.
  intros Ha Hn. pose proof Ha as (_ & Hv & Hd1 & Hd2). cbn [gap]. change (39 - 9) with 30. change (30 - 9) with 21.
  assert (forall k, (k = 21 \/ k = 30 \/ k = 39) -> v mod 2 ^ k = 0 -> (forall x, v / 2 ^ k = x / 2 ^ k -> table_of x = None) -> zero_pages s v (v + 2 ^ k)) as Hz.
  { intros k Hk Hvk Hx. apply no_table_zero. intros x Hx'. apply Hx. apply in_block; [lia|done|done]. }
  unfold vpath, idxs in Hn. cbn [walk] in Hn. change (39 - 9) with 30 in Hn. change (30 - 9) with 21 in Hn.
  assert (forall x, table_of x = (t1 ← next m root (idx x 39); t2 ← next m t1 (idx x 30); t3 ← next m t2 (idx x 21); Some t3)) as Ew by done.
  unfold has_dir1, has_dir2 in *. cbn [walk] in Hd1, Hd2.
  destruct (next m root (idx v 39)) as [t1|] eqn:E1; cbn [mbind option_bind] in *.
  - destruct (next m t1 (idx v 30)) as [t2|] eqn:E2; cbn [mbind option_bind] in *.
    + destruct (next m t2 (idx v 21)) as [t3|] eqn:E3; [done|]. exists 21. split; [by left|]. split; [done|]. split.
      * apply Hz; [by left|done|]. intros x Hx. rewrite Ew, <- (idx_block 21 39 v x), <- (idx_block 21 30 v x), <- (idx_block 21 21 v x) by (lia || done). rewrite E1. cbn [mbind option_bind]. rewrite E2. cbn [mbind option_bind]. by rewrite E3.
      * apply arrived_next; [by left|done|done| |]; intros _; [exists t1|exists t2]; cbn [walk]; rewrite E1; cbn [mbind option_bind]; by rewrite ?E2.
    + assert (v mod 2 ^ 30 = 0) as Hv30 by (destruct (decide (v mod 2 ^ 30 = 0)) as [|Hne]; [done|]; by destruct (Hd2 Hne)).
      exists 30. split; [by right; left|]. split; [done|]. split.
      * apply Hz; [by right; left|done|]. intros x Hx. rewrite Ew, <- (idx_block 30 39 v x), <- (idx_block 30 30 v x) by (lia || done). rewrite E1. cbn [mbind option_bind]. by rewrite E2.
      * apply arrived_next; [by right; left|done|done| |lia]. intros _. exists t1. cbn [walk]. by rewrite E1.
  - assert (v mod 2 ^ 39 = 0) as Hv39 by (destruct (decide (v mod 2 ^ 39 = 0)) as [|Hne]; [done|]; by destruct (Hd1 Hne)).
    exists 39. split; [by right; right|]. split; [done|]. split.
    + apply Hz; [by right; right|done|]. intros x Hx. rewrite Ew, <- (idx_block 39 39 v x) by (lia || done). by rewrite E1.
    + apply arrived_next; [by right; right|done|done|lia|lia].
Qed.

(** ** The whole walk *)

(** The first page after the map: the walk goes on to the end of the last table. *)
Definition walk_end : Z := (vend (pmap s) + (2 ^ 21 - 1)) / 2 ^ 21 * 2 ^ 21.

Context (Hvs : vstart (pmap s) = 0) (Hve : 0 <= vend (pmap s) <= 2 ^ 47).

Lemma walk_end_spec : walk_end mod 2 ^ 21 = 0 /\ vend (pmap s) <= walk_end < vend (pmap s) + 2 ^ 21.
Proof. unfold walk_end. split; [by apply Z.mod_mul|]. pose proof (Z.div_mod (vend (pmap s) + (2 ^ 21 - 1)) (2 ^ 21)). pose proof (Z.mod_pos_bound (vend (pmap s) + (2 ^ 21 - 1)) (2 ^ 21)). lia. Qed.

Lemma before_end v : v mod 2 ^ 21 = 0 -> vend (pmap s) <= v <-> walk_end <= v.
Proof.
  intros Hv. pose proof walk_end_spec as [He Hb]. split; [|lia]. intros Hle. pose proof (Z.div_mod v (2 ^ 21)). pose proof (Z.div_mod walk_end (2 ^ 21)).
  destruct (decide (walk_end <= v)); [done|]. assert (v / 2 ^ 21 < walk_end / 2 ^ 21) by lia. lia.
Qed.

Lemma end_room v : v mod 2 ^ 21 = 0 -> v < walk_end -> v + 2 ^ 21 <= walk_end.
Proof. intros Hv Hlt. pose proof walk_end_spec as [He _]. pose proof (Z.div_mod v (2 ^ 21)). pose proof (Z.div_mod walk_end (2 ^ 21)). lia. Qed.

(** Every table has its first page in use. *)
Definition first_pages : Prop := forall v, v mod 2 ^ 21 = 0 -> 0 <= v < vend (pmap s) -> has_table s v -> ptev s v <> 0.
Context (Hfirst : first_pages).

Lemma low_bits v : Z.land v 2097151 = v mod 2 ^ 21.
Proof. change 2097151 with (Z.ones 21). by rewrite Z.land_ones. Qed.

Lemma next_table_ok fuel : forall v index, arrived v -> index = 512 \/ index = KPFOREACH_FIRST -> v <= 2 ^ 48 -> (0 < fuel)%nat -> walk_end - v < 2 ^ 21 * Z.of_nat fuel ->
  (exists w t, next_table fuel s v index = Ok (Some (w, 0, t, ptev s w)) /\ v <= w < vend (pmap s) /\ arrived w /\ table_of w = Some t /\ ptev s w <> 0 /\ zero_pages s v w) \/
  (next_table fuel s v index = Ok None /\ zero_pages s v walk_end).
Proof.
  induction fuel as [|fuel IH]; intros v index Ha Hi Hb Hf Hlt; [lia|]. pose proof Ha as (H0' & Hv & _). cbn [next_table].
  destruct (Z.ltb_spec v (vend (pmap s))) as [Hlt'|Hge].
  2: { right. split; [done|]. apply before_end in Hge; [|done]. intros x. lia. }
  rewrite find_gap_ok by done. cbn [mbind res_bind]. destruct (table_of v) as [t|] eqn:Et.
  - assert (gap 3 m root v 39 = 0) as ->.
    { unfold vpath, idxs in Et. cbn [walk] in Et. cbn [gap]. destruct (next m root (idx v 39)) as [t1|]; cbn [mbind option_bind] in Et; [|done].
      destruct (next m t1 (idx v (39 - 9))) as [t2|]; cbn [mbind option_bind] in Et; [|done]. by destruct (next m t2 (idx v (39 - 9 - 9))). }
    rewrite Z.add_0_r, u64_small by lia. assert ((if index =? KPFOREACH_FIRST then Z.land v 2097151 / 4096 else 0) = 0) as -> by (rewrite low_bits, Hv; by destruct (_ =? _)).
    left. exists v, t. destruct (table_first_ok t v (Z.to_nat (512 - 0)) Et Hv 0) as (j & Hj & Hz & Hnz & ->); [lia|lia|].
    assert (ptev s v <> 0) as Hp by (apply Hfirst; [done|lia|by exists t]). assert (j = 0) as ->.
    { destruct (decide (j = 0)); [done|]. destruct Hp. rewrite <- (Hz 0) by lia. f_equal. lia. }
    cbn [mbind res_bind]. change (0 =? 512) with false. cbv iota. rewrite Z.mul_0_r, Z.add_0_r. destruct (Z.eqb_spec (ptev s v) 0); [done|].
    split; [done|]. split; [lia|]. split; [done|]. split; [done|]. split; [done|]. intros x. lia.
  - destruct (gap_block v Ha Et) as (k & Hk & -> & Hz & Ha'). assert (2 ^ 21 <= 2 ^ k <= 2 ^ 39) as Hpk by (destruct Hk as [-> |[-> | ->]]; lia). rewrite u64_small by lia.
    assert (v < walk_end) as Hve' by (pose proof walk_end_spec; lia). pose proof (end_room v Hv Hve') as Hroom.
    destruct (IH (v + 2 ^ k) index Ha' Hi) as [(w & t & -> & Hw & Haw & Ht & Hp & Hzw)|[-> Hzw]]; [lia|lia|lia| |].
    + left. exists w, t. split; [done|]. split; [lia|]. split; [done|]. split; [done|]. split; [done|]. by eapply zero_trans.
    + right. split; [done|]. by eapply zero_trans.
Qed.

(** The cursor is at page [i] of the table for the block at [r]. *)
Definition at_visit (c : cursor) (r i : Z) : Prop :=
  arrived r /\ r < vend (pmap s) /\ table_of r = Some (page_table c) /\ 0 <= i < 512 /\ local_index c = i /\ kf_virt c = r + 4096 * i.

(** The page that is looked at next. *)
Definition before (c : cursor) (v : Z) : Prop := c = _kpforeach_init s /\ v = 0 \/ exists r i, at_visit c r i /\ v = r + 4096 * (i + 1).

Lemma zero_run r i j : r mod 2 ^ 21 = 0 -> (forall x, i < x < j -> ptev s (r + 4096 * x) = 0) -> zero_pages s (r + 4096 * (i + 1)) (r + 4096 * j).
Proof.
  intros Hr Hz x Hx. pose proof (Z.div_mod (x - r) 4096). pose proof (Z.mod_pos_bound (x - r) 4096).
  rewrite (ptev_block x (r + 4096 * ((x - r) / 4096))); [apply Hz; lia|]. change (2 ^ 12) with 4096.
  assert (r mod 2 ^ 12 = 0) as Hr' by (by apply (mod_pow_down 12 21)). change (2 ^ 12) with 4096 in Hr'. pose proof (Z.div_mod r 4096).
  rewrite (Z.mul_comm 4096), Z.div_add by lia. symmetry. apply (Z.div_unique_pos _ _ _ ((x - r) mod 4096)); lia.
Qed.

Context (fuel : nat) (Hfuel : (0 < fuel)%nat /\ walk_end < 2 ^ 21 * Z.of_nat fuel).

(** Looking for the next table from a block on. *)
Lemma onward r index : arrived r -> r <= 2 ^ 48 -> index = 512 \/ index = KPFOREACH_FIRST ->
  (exists c' r', (o ← next_table fuel s r index;
      match o with None => Ok None | Some (virt, i, pt, e) => Ok (Some (mk_cursor virt i pt, mk_visit virt (page_mask e) (page_flags e))) end)
      = Ok (Some (c', page_visit s r')) /\ at_visit c' r' 0 /\ r <= r' /\ ptev s r' <> 0 /\ zero_pages s r r') \/
  ((o ← next_table fuel s r index;
      match o with None => Ok None | Some (virt, i, pt, e) => Ok (Some (mk_cursor virt i pt, mk_visit virt (page_mask e) (page_flags e))) end)
      = Ok None /\ zero_pages s r walk_end).
Proof.
  intros Ha Hr Hi. pose proof Ha as (H0' & _). destruct (next_table_ok fuel r index Ha Hi Hr) as [(w & t & -> & Hw & Haw & Ht & Hp & Hz)|[-> Hz]]; [lia|lia|left|by right].
  cbn [mbind res_bind]. exists (mk_cursor w 0 t), w. split; [done|]. split; [|by split; [lia|]].
  split; [done|]. split; [lia|]. split; [done|]. split; [lia|]. split; [done|]. cbn. lia.
Qed.

Lemma advance_ok c v : before c v ->
  (exists c' w, _kpforeach_advance fuel s c = Ok (Some (c', page_visit s w)) /\ before c' (w + 4096) /\ v <= w < walk_end /\ (w - v) mod 4096 = 0 /\ ptev s w <> 0 /\ zero_pages s v w) \/
  (_kpforeach_advance fuel s c = Ok None /\ zero_pages s v walk_end).
Proof.
  pose proof walk_end_spec as [_ Hwe]. assert (forall c' r', at_visit c' r' 0 -> before c' (r' + 4096) /\ r' < walk_end /\ r' mod 4096 = 0) as Hat.
  { intros c' r' Hat. pose proof Hat as ((_ & Hr & _) & Hlt & _). split; [right; exists r', 0; split; [done|lia]|]. split; [lia|]. by apply (mod_pow_down 12 21). }
  intros [[-> ->]|(r & i & (Ha & Hlt & Ht & Hi & Eli & Ev) & ->)]; unfold _kpforeach_advance.
  - cbn [local_index _kpforeach_init kf_virt table_rest]. change (Z.to_nat (512 - KPFOREACH_FIRST)) with O. cbn [table_rest mbind res_bind]. change (negb (0 =? 0)) with false. cbv iota. rewrite Hvs.
    assert (arrived 0) as Ha0 by (split; [lia|]; split; [done|]; by split).
    destruct (onward 0 KPFOREACH_FIRST Ha0) as [(c' & r' & -> & Hc & Hr & Hp & Hz)|[-> Hz]]; [lia|by right|left|by right].
    destruct (Hat c' r' Hc) as (Hb & He & Hm). exists c', r'. split; [done|]. split; [done|]. split; [lia|]. split; [by rewrite Z.sub_0_r|]. by split.
  - pose proof Ha as (H0' & Hr & _). rewrite Eli, Ev.
    destruct (table_rest_ok (page_table c) r (Z.to_nat (512 - i)) Ht Hr i (r + 4096 * i)) as (j & Hj & Hz & Hnz & ->); [lia..|].
    cbn [mbind res_bind]. apply zero_run in Hz; [|done]. replace (r + 4096 * i + 4096 * (j - i)) with (r + 4096 * j) by lia. destruct (Z.eqb_spec j 512) as [->|Hj'].
    + change (negb (0 =? 0)) with false. cbv iota. change (4096 * 512) with (2 ^ 21) in *.
      assert (arrived (r + 2 ^ 21)) as Ha'. { destruct (table_dirs _ _ Ht). by apply arrived_next; [by left|..]. }
      destruct (onward (r + 2 ^ 21) 512 Ha') as [(c' & r' & -> & Hc & Hr' & Hp & Hz')|[-> Hz']]; [lia|by left| |].
      * destruct (Hat c' r' Hc) as (Hb & He & Hm). left. exists c', r'. split; [done|]. split; [done|]. split; [lia|]. split; [|split; [done|by eapply zero_trans]].
        rewrite <- Zminus_mod_idemp_l, Hm. replace (0 - (r + 4096 * (i + 1))) with (- (r + 4096 * (i + 1))) by lia.
        rewrite Z.mod_opp_l_z; [done|done|]. rewrite (Z.mul_comm 4096), Z.mod_add by lia. by apply (mod_pow_down 12 21).
      * right. split; [done|by eapply zero_trans].
    + specialize (Hnz ltac:(lia)). destruct (Z.eqb_spec (ptev s (r + 4096 * j)) 0); [done|]. cbn [negb]. left.
      exists (mk_cursor (r + 4096 * j) j (page_table c)), (r + 4096 * j). split; [done|]. split.
      { right. exists r, j. split; [|lia]. split; [done|]. split; [done|]. split; [done|]. split; [lia|]. by split. }
      split; [pose proof (end_room r Hr ltac:(lia)); lia|]. split; [|by split]. replace (r + 4096 * j - (r + 4096 * (i + 1))) with ((j - i - 1) * 4096) by lia. by rewrite Z.mod_mul.
Qed.

Lemma kpforeach_ok {A} (body : A -> visit -> res A) N : forall c v n a, before c v -> v + 4096 * Z.of_nat n = walk_end -> (n < N)%nat ->
  kpforeach N fuel s c body a = each body a (pages s n v).
Proof.
  induction N as [|N IH]; intros c v n a Hb Hn HN; [lia|]. cbn [kpforeach].
  destruct (advance_ok c v Hb) as [(c' & w & -> & Hb' & Hw & Hm & Hp & Hz)|[-> Hz]]; cbn [mbind res_bind].
  - pose proof (Z.div_mod (w - v) 4096) as Ek. rewrite Hm in Ek. set (k := Z.to_nat ((w - v) / 4096)).
    assert (w = v + 4096 * Z.of_nat k) as Ew by (unfold k; rewrite Z2Nat.id by (apply Z.div_pos; lia); lia).
    assert (exists n', n = (k + S n')%nat) as [n' ->]. { exists (n - k - 1)%nat. lia. }
    rewrite pages_skip, <- Ew by (by rewrite <- Ew). cbn [pages]. destruct (Z.eqb_spec (ptev s w) 0); [done|]. cbn [app each].
    destruct (body a (page_visit s w)); cbn [mbind res_bind]; [|done..]. apply IH; [done|lia|lia].
  - rewrite <- (Nat.add_0_r n), pages_skip by (by rewrite Hn). done.
Qed.

(** C14: The loop visits exactly the pages in use, once each and in order, with the address, the frame
    and the flags of each, when the map starts at 0, as those of processes do, and the first page
    of every table is in use; and it ends. *)
Theorem kpforeach_visits {A} (body : A -> visit -> res A) N a : walk_end < 4096 * Z.of_nat N ->
  kpforeach N fuel s (_kpforeach_init s) body a = each body a (pages s (Z.to_nat (walk_end / 4096)) 0).
Proof.
  intros HN. pose proof walk_end_spec as [He Hb]. apply (mod_pow_down 12 21) in He; [|lia]. change (2 ^ 12) with 4096 in He. pose proof (Z.div_mod walk_end 4096).
  pose proof (Z.div_pos walk_end 4096). apply kpforeach_ok; [by left|lia|lia].
Qed.
End ForeachLaws.

(** ** What the walk does with other tables *)
Section Gaps.
Context {F : Type} `{FrameSourceLaws F}.
Context (s : pg F) (Hok : pg_ok s) (Hvs : vstart (pmap s) = 0) (Hve : 2 ^ 21 <= vend (pmap s)).
Context (t : Z) (Ht : walk (tabs s) (pg_root s) (vpath 0) = Some t).

(** The table of the first block, from any address inside of it. *)
Lemma first_block virt : 0 <= virt < 2 ^ 21 -> _mempg_find_table s virt virt = Ok (Some t, virt).
Proof.
  intros Hv. assert (forall sh, 21 <= sh -> idx virt sh = idx 0 sh) as E.
  { intros sh Hsh. symmetry. apply (idx_block 21); [lia|]. apply in_block; [lia|done|lia]. }
  rewrite find_gap_ok by done. assert (vpath virt = vpath 0) as -> by (unfold vpath, idxs; by rewrite (E 39), (E (39 - 9)), (E (39 - 9 - 9)) by lia). rewrite Ht. do 2 f_equal.
  assert (gap 3 (tabs s) (pg_root s) virt 39 = 0) as ->; [|rewrite Z.add_0_r, u64_small by lia; done].
  unfold vpath, idxs in Ht. cbn [walk] in Ht. cbn [gap]. rewrite (E 39), (E (39 - 9)), (E (39 - 9 - 9)) by lia. destruct (next _ _ (idx 0 39)) as [t1|]; cbn [mbind option_bind] in Ht; [|done].
  destruct (next _ t1 (idx 0 (39 - 9))) as [t2|]; cbn [mbind option_bind] in Ht; [|done]. by destruct (next _ t2 (idx 0 (39 - 9 - 9))).
Qed.

(** C29: A table without a page in use, as it is left when the pages of its block are given back, is
    looked up again and again: the walk never ends, and both spinlocks stay taken. *)
Theorem kpforeach_empty_table {A} (body : A -> visit -> res A) a : zero_pages s 0 (2 ^ 21) ->
  forall N fuel, kpforeach N fuel s (_kpforeach_init s) body a = OutOfFuel.
Proof.
  intros Hz N fuel. assert (forall index, (index = 512 \/ index = KPFOREACH_FIRST) -> next_table fuel s 0 index = OutOfFuel) as Hn.
  { induction fuel as [|fuel IH]; intros index Hi; cbn [next_table]; [done|]. destruct (Z.ltb_spec 0 (vend (pmap s))); [|lia].
    rewrite first_block by lia. cbn [mbind res_bind]. assert ((if index =? KPFOREACH_FIRST then Z.land 0 2097151 / 4096 else 0) = 0) as -> by (by destruct (_ =? _)).
    destruct (table_first_ok s Hok t 0 (Z.to_nat (512 - 0)) Ht eq_refl 0) as (j & Hj & _ & Hnz & ->); [lia|lia|]. cbn [mbind res_bind].
    destruct (Z.eqb_spec j 512) as [->|Hne]; [cbn [Z.eqb]; apply IH; by left|]. exfalso. apply (Hnz ltac:(lia)). apply Hz. lia. }
  destruct N; [done|]. cbn [kpforeach]. unfold _kpforeach_advance. change (Z.to_nat (512 - local_index (_kpforeach_init s))) with O. cbn [table_rest mbind res_bind].
  change (negb (0 =? 0)) with false. cbv iota. cbn [kf_virt _kpforeach_init local_index]. rewrite Hvs, Hn by (by right). done.
Qed.

(** The first rounds of the loop. *)
Fixpoint first_visits (n fuel : nat) (c : cursor) : res (list visit) :=
  match n with
  | O => Ok []
  | S n => r ← _kpforeach_advance fuel s c; match r with None => Ok [] | Some (c, v) => l ← first_visits n fuel c; Ok (v :: l) end
  end.

Lemma first_visits_S n fuel c :
  first_visits (S n) fuel c = (r ← _kpforeach_advance fuel s c; match r with None => Ok [] | Some (c, v) => l ← first_visits n fuel c; Ok (v :: l) end).
Proof. done. Qed.

Section Again.
Context (k : Z) (Hk : 1 <= k < 512) (Hzero : forall x, 0 <= x < k -> ptev s (4096 * x) = 0) (Hnz : ptev s (4096 * k) <> 0).

Definition again (virt : Z) : visit := mk_visit virt (page_mask (ptev s (4096 * k))) (page_flags (ptev s (4096 * k))).

Lemma lands_on_k fuel virt index : (0 < fuel)%nat -> 0 <= virt < 2 ^ 21 -> index = 512 \/ index = KPFOREACH_FIRST /\ virt = 0 ->
  next_table fuel s virt index = Ok (Some (virt, k, t, ptev s (4096 * k))).
Proof.
  intros Hf Hv Hi. destruct fuel as [|fuel]; [lia|]. cbn [next_table]. destruct (Z.ltb_spec virt (vend (pmap s))); [|lia]. rewrite first_block by done.
  cbn [mbind res_bind]. assert ((if index =? KPFOREACH_FIRST then Z.land virt 2097151 / 4096 else 0) = 0) as -> by (by destruct Hi as [-> |[-> ->]]).
  destruct (table_first_ok s Hok t 0 (Z.to_nat (512 - 0)) Ht eq_refl 0) as (j & Hj & Hz & Hn & ->); [lia|lia|]. cbn [mbind res_bind].
  assert (j = k) as ->.
  { destruct (Z.lt_trichotomy j k) as [Hlt|[?|Hlt]]; [|done|]; exfalso; [apply Hn; [lia|exact (Hzero j ltac:(lia))]|exact (Hnz (Hz k ltac:(lia)))]. }
  destruct (Z.eqb_spec k 512); [lia|]. rewrite Z.add_0_l. destruct (Z.eqb_spec (ptev s (4096 * k)) 0); done.
Qed.

Lemma rounds_again fuel n : (0 < fuel)%nat -> forall i, k <= i < 512 -> 512 - i <= Z.of_nat n ->
  exists l, first_visits (S (length l)) fuel (mk_cursor (4096 * (i - k)) i t) = Ok (l ++ [again (4096 * (512 - k))]).
Proof.
  intros Hf. induction n as [|n IH]; intros i Hi Hn; [lia|].
  destruct (table_rest_ok s Hok t 0 (Z.to_nat (512 - i)) Ht eq_refl i (4096 * (i - k))) as (j & Hj & _ & Hnj & E); [lia..|].
  destruct (Z.eqb_spec j 512) as [->|Hne].
  - exists []. cbn [length app first_visits]. unfold _kpforeach_advance. cbn [local_index page_table kf_virt]. rewrite E. cbn [mbind res_bind].
    change (negb (0 =? 0)) with false. cbv iota. rewrite lands_on_k by (lia || by left). cbn [mbind res_bind]. do 3 f_equal. unfold again. f_equal. lia.
  - destruct (IH j ltac:(lia) ltac:(lia)) as [l El]. exists (mk_visit (4096 * (j - k)) (page_mask (ptev s (4096 * j))) (page_flags (ptev s (4096 * j))) :: l).
    specialize (Hnj ltac:(lia)). rewrite Z.add_0_l in *. cbn [length app]. rewrite first_visits_S. unfold _kpforeach_advance. cbn [local_index page_table kf_virt].
    rewrite E. cbn [mbind res_bind]. destruct (Z.eqb_spec (ptev s (4096 * j)) 0); [done|]. cbn [negb mbind res_bind].
    replace (4096 * (i - k) + 4096 * (j - i)) with (4096 * (j - k)) by lia. by rewrite El.
Qed.

(** When the first page of a table is not in use, its pages are visited under addresses that are
    too low, and then all over again: here [k] is the first page in use of the first table. *)
Theorem kpforeach_visits_twice fuel : (0 < fuel)%nat ->
  exists l, first_visits (2 + length l) fuel (_kpforeach_init s) = Ok (again 0 :: l ++ [again (4096 * (512 - k))]) /\ page_visit s (4096 * k) = again (4096 * k).
Proof.
  intros Hf. destruct (rounds_again fuel 512 Hf k ltac:(lia) ltac:(lia)) as [l El]. exists l. split; [|done].
  change (2 + length l)%nat with (S (S (length l))). rewrite first_visits_S. unfold _kpforeach_advance. change (Z.to_nat (512 - local_index (_kpforeach_init s))) with O. cbn [table_rest mbind res_bind].
  change (negb (0 =? 0)) with false. cbv iota. cbn [kf_virt _kpforeach_init local_index]. rewrite Hvs, lands_on_k by (done || lia || by right). cbn [mbind res_bind].
  rewrite Z.sub_diag, Z.mul_0_r in El. by rewrite El.
Qed.
End Again.
End Gaps.

(** ** Giving an address space back *)

(** What giving a frame back promises, for the addresses [kfindexof] finds the frame of. *)
Class FrameReturn (F : Type) `{FrameSource F} := {
  returnable : F -> Z -> Prop;
  law_frame_drop : forall f a, source_ok f -> taken f a -> returnable f a ->
    exists f', frame_drop f a = Ok f' /\ source_ok f' /\ (forall b, taken f' b <-> taken f b /\ b <> a) /\ forall b, returnable f' b <-> returnable f b }.

Section Return.
Context {F : Type} `{FrameReturn F}.

Fixpoint drop_all (f : F) (l : list Z) : res F := match l with [] => Ok f | a :: l => f ← frame_drop f a; drop_all f l end.

Lemma drop_all_app l k : forall f, drop_all f (l ++ k) = (f ← drop_all f l; drop_all f k).
Proof. induction l as [|a l IH]; intros f; cbn [app drop_all mbind res_bind]; [done|]. destruct (frame_drop f a); cbn [mbind res_bind]; auto. Qed.

Lemma drop_all_ok l : forall f, source_ok f -> NoDup l -> (forall a, a ∈ l -> taken f a /\ returnable f a) ->
  exists f', drop_all f l = Ok f' /\ source_ok f' /\ forall b, taken f' b <-> taken f b /\ b ∉ l.
Proof.
  induction l as [|a l IH]; intros f Hok Hn Hl; cbn [drop_all]; [exists f; split; [done|]; split; [done|]; set_solver|].
  apply NoDup_cons in Hn as [Ha Hn]. destruct (Hl a) as [Ht Hr]; [set_solver|]. destruct (law_frame_drop f a Hok Ht Hr) as (f1 & -> & Hok1 & Ht1 & Hr1). cbn [mbind res_bind].
  destruct (IH f1 Hok1 Hn) as (f2 & -> & Hok2 & Ht2).
  - intros b Hb. destruct (Hl b) as [Htb Hrb]; [set_solver|]. split; [apply Ht1; split; [done|]; intros ->; done|by apply Hr1].
  - exists f2. split; [done|]. split; [done|]. intros b. rewrite Ht2, Ht1. set_solver.
Qed.

(** The tables below a table, [d] levels of them, under its entries [l]: those below each first. *)
Fixpoint tables_below (d : nat) (m : gmap Z (list Z)) (t : Z) (l : list nat) : list Z :=
  l ≫= fun i => match next m t i with None => [] | Some t' => match d with O => [] | S d => tables_below d m t' (seq 0 512) end ++ [t'] end.

(** The frames of the tables of a map that are not shared with the kernel. *)
Definition space_tables (s : pg F) : list Z := tables_below 2 (tabs s) (pg_root s) (seq 0 510) ++ [root_dir (pmap s)].

(** The frames of its own pages, and what the walk makes of them. *)
Definition own_frames (l : list visit) : list Z := v_phys <$> filter (fun v => Z.land (v_flags v) PAGE_NOPHYS = 0) l.

Lemma give_pages_back l : forall f : F, each give_page_back f l = drop_all f (own_frames l).
Proof.
  induction l as [|v l IH]; intros f; cbn [each]; [done|]. unfold give_page_back, own_frames. rewrite filter_cons. destruct (Z.eqb_spec (Z.land (v_flags v) PAGE_NOPHYS) 0) as [E|E].
  - rewrite decide_True by done. cbn [negb fmap list_fmap drop_all]. destruct (frame_drop f (v_phys v)); cbn [mbind res_bind]; [apply IH|done..].
  - rewrite decide_False by done. cbn [negb mbind res_bind]. apply IH.
Qed.

Section Dispose.
Context (m : gmap Z (list Z)) (used : Z -> Prop) (root : Z) (Htree : tree_ok m used root).

Lemma entry_of p t i : (length p <= 2)%nat -> walk m root p = Some t -> (i < 512)%nat ->
  exists e, rd m t (Z.of_nat i) = Ok e /\ next m t i = if Z.land e PAGE_PRESENT =? 0 then None else Some (page_mask e).
Proof.
  intros Hp Hw Hi. destruct (tr_table _ _ _ Htree p t ltac:(lia) Hw) as [(tb & Htb & Hl) _]. destruct (lookup_lt_is_Some_2 tb i ltac:(lia)) as [e He].
  exists e. assert (ent m t i = Some e) as E by (unfold ent; by rewrite Htb). split; [by apply rd_ent|]. unfold next. by rewrite E.
Qed.

Lemma dispose_pd_eq p t n : (length p <= 2)%nat -> walk m root p = Some t -> forall i f, (i + n <= 512)%nat ->
  dispose_pd n f m t (Z.of_nat i) = drop_all f (tables_below 0 m t (seq i n)).
Proof.
  intros Hp Hw. induction n as [|n IH]; intros i f Hi; cbn [dispose_pd seq]; [done|]. destruct (entry_of p t i Hp Hw ltac:(lia)) as (e & -> & En). cbn [mbind res_bind].
  replace (Z.of_nat i + 1) with (Z.of_nat (S i)) by lia. cbn [tables_below mbind list_bind]. rewrite En. destruct (_ =? 0); [by apply IH; lia|].
  cbn [app drop_all]. destruct (frame_drop f (page_mask e)); cbn [mbind res_bind]; [apply IH; lia|done..].
Qed.

Lemma dispose_pdp_eq p t n : (length p <= 1)%nat -> walk m root p = Some t -> forall i f, (i + n <= 512)%nat ->
  dispose_pdp n f m t (Z.of_nat i) = drop_all f (tables_below 1 m t (seq i n)).
Proof.
  intros Hp Hw. induction n as [|n IH]; intros i f Hi; cbn [dispose_pdp seq]; [done|]. destruct (entry_of p t i ltac:(lia) Hw ltac:(lia)) as (e & -> & En). cbn [mbind res_bind].
  replace (Z.of_nat i + 1) with (Z.of_nat (S i)) by lia. change (tables_below 1 m t (i :: seq (S i) n)) with
    (match next m t i with None => [] | Some t' => tables_below 0 m t' (seq 0 512) ++ [t'] end ++ tables_below 1 m t (seq (S i) n)).
  assert (next m t i = Some (page_mask e) -> walk m root (p ++ [i]) = Some (page_mask e)) as Hw' by (intros E; rewrite walk_snoc, Hw; cbn [mbind option_bind]; done).
  rewrite En in *. destruct (_ =? 0); [by apply IH; lia|]. assert (dispose_pd 512 f m (page_mask e) 0 = drop_all f (tables_below 0 m (page_mask e) (seq 0 512))) as ->
    by (apply (dispose_pd_eq (p ++ [i]) (page_mask e) 512) with (i := O); [rewrite length_app; simpl; lia|by apply Hw'|lia]).
  rewrite !drop_all_app. destruct (drop_all f _) as [f1| | |]; cbn [mbind res_bind drop_all]; [|done..]. destruct (frame_drop f1 (page_mask e)); cbn [mbind res_bind]; [apply IH; lia|done..].
Qed.

Lemma dispose_pml4_eq n : forall i f, (i + n <= 512)%nat -> dispose_pml4 n f m root (Z.of_nat i) = drop_all f (tables_below 2 m root (seq i n)).
Proof.
  induction n as [|n IH]; intros i f Hi; cbn [dispose_pml4 seq]; [done|]. destruct (entry_of [] root i ltac:(simpl; lia) eq_refl ltac:(lia)) as (e & -> & En). cbn [mbind res_bind].
  replace (Z.of_nat i + 1) with (Z.of_nat (S i)) by lia. change (tables_below 2 m root (i :: seq (S i) n)) with
    (match next m root i with None => [] | Some t' => tables_below 1 m t' (seq 0 512) ++ [t'] end ++ tables_below 2 m root (seq (S i) n)).
  assert (next m root i = Some (page_mask e) -> walk m root [i] = Some (page_mask e)) as Hw' by (intros E; cbn [walk]; by rewrite E).
  rewrite En in *. destruct (_ =? 0); [by apply IH; lia|]. assert (dispose_pdp 512 f m (page_mask e) 0 = drop_all f (tables_below 1 m (page_mask e) (seq 0 512))) as ->
    by (apply (dispose_pdp_eq [i] (page_mask e) 512) with (i := O); [simpl; lia|by apply Hw'|lia]).
  rewrite !drop_all_app. destruct (drop_all f _) as [f1| | |]; cbn [mbind res_bind drop_all]; [|done..]. destruct (frame_drop f1 (page_mask e)); cbn [mbind res_bind]; [apply IH; lia|done..].
Qed.

(** Each table has a place of its own, so none is given back twice. *)
Lemma below_walk d : forall t l x, x ∈ tables_below d m t l -> exists i q, i ∈ l /\ (length q <= d)%nat /\ walk m t (i :: q) = Some x.
Proof.
  clear Htree. induction d as [|d IH]; intros t l x; cbn [tables_below]; rewrite list_elem_of_bind; intros (i & Hx & Hi); cbn [walk].
  - destruct (next m t i) as [t'|] eqn:En; [|set_solver]. apply list_elem_of_singleton in Hx as ->. exists i, []. split; [done|]. split; [done|]. by rewrite En.
  - destruct (next m t i) as [t'|] eqn:En; [|set_solver]. apply elem_of_app in Hx as [Hx|Hx%list_elem_of_singleton].
    + destruct (IH t' (seq 0 512) x Hx) as (j & q & _ & Hq & Hw). exists i, (j :: q). split; [done|]. split; [simpl; lia|]. by rewrite En.
    + subst x. exists i, []. split; [done|]. split; [simpl; lia|]. by rewrite En.
Qed.

Lemma walk_app t p q : walk m t (p ++ q) = (t' ← walk m t p; walk m t' q).
Proof. clear Htree. revert t. induction p as [|i p IH]; intros t; cbn [app walk mbind option_bind]; [done|]. destruct (next m t i); cbn [mbind option_bind]; [apply IH|done]. Qed.

Lemma below_nodup d : forall p t l, (length p + d + 1 <= 3)%nat -> walk m root p = Some t -> NoDup l -> NoDup (tables_below d m t l).
Proof.
  induction d as [|d IH]; intros p t l Hp Hw Hl.
  - cbn [tables_below]. apply NoDup_bind; [| |done].
    + intros i j y _ _. destruct (next m t i) as [t1|] eqn:E1, (next m t j) as [t2|] eqn:E2; try set_solver. cbn [app]. intros ->%list_elem_of_singleton ->%list_elem_of_singleton.
      assert (p ++ [i] = p ++ [j]) as E; [|by apply app_inj_tail in E as [_ ->]].
      apply (tr_inj _ _ _ Htree _ _ t2); rewrite ?length_app; simpl; [lia|lia| |]; rewrite walk_snoc, Hw; cbn [mbind option_bind]; done.
    + intros i _. destruct (next m t i); [apply NoDup_singleton|apply NoDup_nil_2].
  - change (tables_below (S d) m t l) with (l ≫= fun i => match next m t i with None => [] | Some t' => tables_below d m t' (seq 0 512) ++ [t'] end). apply NoDup_bind; [| |done].
    + assert (forall i y, y ∈ match next m t i with None => [] | Some t' => tables_below d m t' (seq 0 512) ++ [t'] end -> exists q, (length q <= S d)%nat /\ walk m root (p ++ i :: q) = Some y) as Hwk.
      { intros i y Hy. destruct (next m t i) as [t'|] eqn:E; [|set_solver]. apply elem_of_app in Hy as [Hy| ->%list_elem_of_singleton].
        - destruct (below_walk d t' _ y Hy) as (j & q & _ & Hq & Hwq). exists (j :: q). split; [simpl; lia|]. rewrite walk_app, Hw. cbn [mbind option_bind]. change (walk m t (i :: j :: q)) with (t' ← next m t i; walk m t' (j :: q)). by rewrite E.
        - exists []. split; [simpl; lia|]. rewrite walk_snoc, Hw. done. }
      intros i j y _ _ (q & Hq & H1)%Hwk (q' & Hq' & H2)%Hwk. assert (p ++ i :: q = p ++ j :: q') as E; [|apply app_inv_head in E; congruence].
      apply (tr_inj _ _ _ Htree _ _ y); rewrite ?length_app; simpl; [lia|lia|done|done].
    + intros i _. destruct (next m t i) as [t'|] eqn:E; [|apply NoDup_nil_2]. assert (walk m root (p ++ [i]) = Some t') as Hw' by (rewrite walk_snoc, Hw; done).
      apply NoDup_app. split; [apply (IH (p ++ [i])); [rewrite length_app; simpl; lia|done|apply NoDup_seq]|]. split; [|apply NoDup_singleton].
      intros x Hx ->%list_elem_of_singleton. destruct (below_walk d t' _ t' Hx) as (j & q & _ & Hq & Hwq).
      assert (p ++ [i] = (p ++ [i]) ++ j :: q) as E'; [|apply (f_equal length) in E'; rewrite !length_app in E'; simpl in E'; lia].
      apply (tr_inj _ _ _ Htree _ _ t'); rewrite ?length_app; simpl; [lia|lia|done|]. by rewrite walk_app, Hw'.
Qed.
End Dispose.
End Return.

(** ** Whose the frames are *)

(** The way to a table that is not shared with the kernel; an address below those. *)
Definition user_path (p : list nat) : Prop := (length p <= 3)%nat /\ forall i q, p = i :: q -> (i < 510)%nat.
Definition user (v : Z) : Prop := (idx v 39 < 510)%nat.

Section Accounts.
Context {F : Type} `{FrameSourceLaws F}.
Implicit Types (s : pg F).

Definition table_at s (b : Z) : Prop := exists p, user_path p /\ walk (tabs s) (pg_root s) p = Some b.

(** The frames in use are those of [f0], and, all of them different, one for each table of the map
    and one for each of its pages. *)
Record accounted (f0 : Z -> Prop) s : Prop := mk_accounted {
  ac_old : forall b, f0 b -> taken (fr s) b;
  ac_table : forall b, table_at s b -> ~ f0 b;
  ac_page : forall v, user v -> ptev s v <> 0 -> let b := page_mask (ptev s v) in
    taken (fr s) b /\ ~ f0 b /\ ~ table_at s b /\ ~ nophys (ptev s v) /\ forall w, user w -> ptev s w <> 0 -> page_mask (ptev s w) = b -> same_page w v;
  ac_all : forall b, taken (fr s) b -> f0 b \/ table_at s b \/ exists v, user v /\ ptev s v <> 0 /\ page_mask (ptev s v) = b }.

(** A state with the same walks from the root and the same entries. *)
Lemma accounted_same f0 s s' : accounted f0 s -> pg_root s' = pg_root s -> (forall b, taken (fr s') b <-> taken (fr s) b) ->
  (forall p, (length p <= 3)%nat -> walk (tabs s') (pg_root s) p = walk (tabs s) (pg_root s) p) -> (forall v, ptev s' v = ptev s v) -> accounted f0 s'.
Proof.
  intros [H1 H2 H3 H4] Er Ht Hw Hp. assert (forall b, table_at s' b <-> table_at s b) as Hta.
  { intros b. unfold table_at. rewrite Er. split; intros (p & Hu & E); exists p; (split; [done|]); [rewrite <- Hw|rewrite Hw]; done || apply Hu. }
  split; intros x; rewrite ?Hta, ?Ht, ?Hp.
  - apply H1.
  - apply H2.
  - intros Hu Hx. destruct (H3 x Hu Hx) as (? & ? & ? & ? & Hs). cbv zeta. rewrite Ht, Hta. split_and!; [done..|]. intros w Hw' . rewrite Hp. by apply Hs.
  - intros Hx. destruct (H4 x Hx) as [?|[?|(v & ? & ? & ?)]]; [by left|by right; left|]. right. right. exists v. by rewrite Hp.
Qed.

(** A fresh frame belongs to whoever has it. *)
Lemma accounted_fresh f0 s f a : accounted f0 s -> pg_ok s -> ~ taken (fr s) a -> (forall b, taken f b <-> b = a \/ taken (fr s) b) ->
  accounted (fun b => b = a \/ f0 b) (mk_pg f (tabs s) (pmap s)).
Proof.
  intros [H1 H2 H3 H4] [_ Htree] Ha Ht. split; cbn [fr]; intros x.
  - rewrite Ht. intros [?|?]; auto.
  - intros (p & Hu & Hw) [->|Hf]; [|by apply (H2 x); [by exists p|]]. apply Ha. by eapply tr_table; [exact Htree|apply Hu|exact Hw].
  - intros Hu Hx. destruct (H3 x Hu Hx) as (Hb & Hf & Htb & Hn & Hs). cbv zeta. split; [apply Ht; by right|]. split; [|done]. intros [E|?]; [|done].
    apply Ha. by rewrite <- E.
  - rewrite Ht. intros [->|Hx]; [by left; left|]. destruct (H4 x Hx) as [?|?]; [left; by right|by right].
Qed.

(** Setting flag bits of a directory entry. *)
Lemma accounted_touch f0 s p t tb i e : accounted f0 s -> pg_ok s -> (length p <= 2)%nat -> walk (tabs s) (pg_root s) p = Some t ->
  tabs s !! t = Some tb -> tb !! i = Some e -> present e -> accounted f0 (set_tabs s (<[t := <[i := Z.lor e 7]> tb]> (tabs s))).
Proof.
  intros Ha [_ Htree] Hp Hw Ht Hi He. apply (accounted_same f0 s); [done|done|done| |].
  - intros q _. by apply walk_touch.
  - intros v. unfold ptev, pte. destruct (tree_touch _ _ _ p t tb i e Htree Hp Hw Ht Hi He) as [_ Hl]. apply Hl. apply length_idxs.
Qed.

(** A new table on the way to a user address. *)
Lemma accounted_grow f0 s f a e p t tb i : accounted f0 s -> pg_ok s -> (length p <= 2)%nat -> walk (tabs s) (pg_root s) p = Some t ->
  tabs s !! t = Some tb -> length tb = 512%nat -> tb !! i = Some 0 -> user_path (p ++ [i]) -> ~ taken (fr s) a -> (forall b, taken f b <-> b = a \/ taken (fr s) b) ->
  present e -> page_mask e = a -> accounted f0 (mk_pg f (grown (tabs s) a t e tb i) (add_dir (pmap s) 1)).
Proof.
  intros [H1 H2 H3 H4] [_ Htree] Hp Hw Ht Hltb Hi Hup Ha Htk He Hea.
  destruct (tree_grow (tabs s) (taken (fr s)) (pg_root s) a t e tb p i Htree Hp Hw Ht Hi Ha He Hea (taken f) Htk Hltb) as (_ & _ & Hl).
  assert (forall q, (length q <= 3)%nat -> walk (grown (tabs s) a t e tb i) (pg_root s) q = if decide (q = p ++ [i]) then Some a else if decide ((p ++ [i]) `prefix_of` q) then None else walk (tabs s) (pg_root s) q) as Hwk
    by (intros q Hq; by apply (walk_grown (tabs s) (taken (fr s)) (pg_root s) a t e tb p i)).
  set (s1 := mk_pg f _ _). assert (forall v, ptev s1 v = ptev s v) as Hpt by (intros v; apply Hl, length_idxs).
  assert (forall b, table_at s1 b <-> b = a \/ table_at s b) as Hta.
  { intros b. unfold table_at. cbn [tabs s1]. change (pg_root s1) with (pg_root s). split.
    - intros (q & Hq & E). rewrite (Hwk q (proj1 Hq)) in E. destruct (decide (q = p ++ [i])); [left; congruence|]. destruct (decide _); [done|]. right. by exists q.
    - intros [->|(q & Hq & E)].
      + exists (p ++ [i]). split; [done|]. rewrite (Hwk _ (proj1 Hup)). by rewrite decide_True.
      + exists q. split; [done|]. rewrite (Hwk q (proj1 Hq)). destruct (decide _) as [->|]; [|destruct (decide _) as [[k ->]|]; [|done]].
        * rewrite walk_before with (t := t) (tb := tb) (p := p) (i := i) in E by done. done.
        * rewrite walk_before with (t := t) (tb := tb) (p := p) (i := i) in E by (done || by eexists). done. }
  split; cbn [fr]; intros x; rewrite ?Hta, ?Hpt.
  - intros Hx. apply Htk. right. by apply H1.
  - intros [->|?]; [|by apply H2]. intros Hf. by apply Ha, H1.
  - intros Hu Hx. destruct (H3 x Hu Hx) as (Hb & Hf & Htb & Hn & Hs). cbv zeta. rewrite ?Hta. split; [apply Htk; by right|]. split; [done|]. split; [intros [E|?]; [|done]; apply Ha; by rewrite <- E|].
    split; [done|]. intros w. rewrite Hpt. by apply Hs.
  - intros [->|Hx]%Htk; [by right; left; left|]. destruct (H4 x Hx) as [?|[?|(v & Hv)]]; [by left|right; left; by right|right; right; exists v; by rewrite Hpt].
Qed.

(** The entry of a page that was free, for the frame that was taken for it. *)
Lemma accounted_write f0 s a v e t : accounted (fun b => b = a \/ f0 b) s -> pg_ok s -> ~ f0 a -> user v -> walk (tabs s) (pg_root s) (vpath v) = Some t ->
  ptev s v = 0 -> e <> 0 -> page_mask e = a -> ~ nophys e ->
  exists m, wr (tabs s) t (pg_index v 12) e = Ok m /\ accounted f0 (set_tabs s m).
Proof.
  intros [H1 H2 H3 H4] Hok Ha Hv Hw Hz He Hea Hn. destruct Hok as [Hsrc Htree]. assert (length (vpath v) = 3%nat) as Hlen by apply length_idxs.
  destruct (tr_table _ _ _ Htree (vpath v) t ltac:(lia) Hw) as [(tb & Htb & Hltb) _]. rewrite idx_Z. pose proof (idx_lt v 12).
  rewrite (wr_ok _ _ _ _ tb) by (done || lia). eexists. split; [done|].
  destruct (tree_write (tabs s) (taken (fr s)) (pg_root s) (vpath v) t tb (idx v 12) e Htree Hlen Hw Htb ltac:(lia)) as (_ & Hwk & Hleaf).
  set (s1 := set_tabs s _). assert (forall w, ptev s1 w = if decide (same_page w v) then e else ptev s w) as Hpt by (intros w; unfold ptev, pte; rewrite Hleaf by apply length_idxs; done).
  assert (forall b, table_at s1 b <-> table_at s b) as Hta.
  { intros b. unfold table_at. cbn [tabs s1 set_tabs]. change (pg_root s1) with (pg_root s). split; intros (q & Hq & E); exists q; (split; [done|]); [rewrite (Hwk q (proj1 Hq)) in E|rewrite (Hwk q (proj1 Hq))]; done. }
  split; change (fr s1) with (fr s); intros x; rewrite ?Hta, ?Hpt.
  - intros Hx. apply H1. by right.
  - intros Hx Hf. apply (H2 x Hx). by right.
  - intros Hu. cbv zeta. rewrite ?Hta, ?Hpt. destruct (decide (same_page x v)) as [Hx|Hx].
    + intros _. rewrite Hea. split; [apply H1; by left|]. split; [done|]. split; [intros Hb; apply (H2 a Hb); by left|]. split; [done|]. intros w Hw'. rewrite Hpt. destruct (decide (same_page w v)) as [Hwv|Hwv].
      * intros _ _. unfold same_page in *. intuition congruence.
      * intros Hwz Eb. destruct (H3 w Hw' Hwz) as (_ & Hf & _). rewrite Eb in Hf. destruct Hf. by left.
    + intros Hxz. destruct (H3 x Hu Hxz) as (Hb & Hf & Htb' & Hnp & Hs). split; [done|]. split; [intros ?; apply Hf; by right|]. split; [done|]. split; [done|]. intros w Hw'. rewrite Hpt.
      destruct (decide (same_page w v)); [|by apply Hs]. rewrite Hea. intros _ E. destruct Hf. left. by rewrite E.
  - intros Hx. destruct (H4 x Hx) as [[->|?]|[?|(w & Hw' & Hwz & Ew)]]; [|by left|by right; left|].
    + right. right. exists v. rewrite Hpt. destruct (decide (same_page v v)) as [_|[]]; done.
    + right. right. exists w. rewrite Hpt. destruct (decide (same_page w v)) as [[E1 E2]|]; [|done]. exfalso. apply Hwz. rewrite <- Hz. unfold ptev, pte. by rewrite E1, E2.
Qed.

(** One level of the way to an address: the directory entry is there, or it gets a new table. *)
Lemma ensure_step f0 va n s p t sh : pg_ok s -> accounted f0 s -> (length p <= 2)%nat -> walk (tabs s) (pg_root s) p = Some t -> user_path (p ++ [idx va sh]) ->
  (exists s1 t1, ensure_levels (S n) s t va sh = ensure_levels n s1 t1 va (sh - 9) /\ pg_ok s1 /\ accounted f0 s1 /\ pg_root s1 = pg_root s /\
     walk (tabs s1) (pg_root s) (p ++ [idx va sh]) = Some t1 /\
     forall q u, (length q <= 3)%nat -> walk (tabs s1) (pg_root s) q = Some u -> q = p ++ [idx va sh] \/ is_Some (walk (tabs s) (pg_root s) q)) \/
  ensure_levels (S n) s t va sh = Panic OOM.
Proof.
  intros Hok Hac Hp Hw Hup. pose proof Hok as [Hsrc Htree]. cbn [ensure_levels]. destruct (tr_table _ _ _ Htree p t ltac:(lia) Hw) as [(tb & Htb & Hltb) _].
  rewrite idx_Z. set (i := idx va sh) in *. pose proof (idx_lt va sh) as Hi. fold i in Hi. destruct (lookup_lt_is_Some_2 tb i ltac:(lia)) as [e He].
  assert (ent (tabs s) t i = Some e) as Hent by (unfold ent; by rewrite Htb). rewrite (proj2 (rd_ent _ _ _ _) Hent). cbn [mbind res_bind].
  destruct (Z.eqb_spec (Z.land e PAGE_PRESENT) 0) as [Hnp|Hpr].
  - assert (e = 0) as -> by (destruct (tr_zero _ _ _ Htree p t i e Hp Hw Hent); done).
    destruct (law_new_frame (fr s) Hsrc) as [(f & a & -> & Hsrc' & Ha0 & Hal & Hfresh & Htaken)| ->]; [|by right].
    cbn [mbind res_bind]. set (e := Z.lor (Z.lor (Z.lor a PAGE_USER) PAGE_WRITE) PAGE_PRESENT).
    assert (page_mask e = a) as Hea by (unfold e; rewrite !page_mask_lor, (page_mask_aligned a Hal), (page_mask_small PAGE_USER), (page_mask_small PAGE_WRITE), (page_mask_small PAGE_PRESENT) by done; by rewrite !Z.lor_0_r).
    assert (present e) as Hpe by (apply present_lor; done). rewrite (wr_ok _ _ _ _ tb) by (done || lia). cbn [mbind res_bind]. rewrite Hea.
    change (<[a := replicate 512 0]> (<[t := <[i := e]> tb]> (tabs s))) with (grown (tabs s) a t e tb i).
    destruct (tree_grow (tabs s) (taken (fr s)) (pg_root s) a t e tb p i Htree Hp Hw Htb He Hfresh Hpe Hea (taken f) Htaken Hltb) as (Htree' & Hwa & _).
    left. exists (mk_pg f (grown (tabs s) a t e tb i) (add_dir (pmap s) 1)), a. split; [done|]. split; [by split|]. split; [by apply (accounted_grow f0 s f a e p)|].
    split; [done|]. split; [done|]. intros q u Hq. cbn [tabs]. rewrite (walk_grown (tabs s) (taken (fr s)) (pg_root s) a t e tb p i) by done.
    destruct (decide _); [by left|]. destruct (decide _); [done|]. intros E. right. by exists u.
  - change (Z.lor (Z.lor PAGE_USER PAGE_WRITE) PAGE_PRESENT) with 7. rewrite (wr_ok _ _ _ _ tb) by (done || lia). cbn [mbind res_bind].
    destruct (tree_touch (tabs s) (taken (fr s)) (pg_root s) p t tb i e Htree Hp Hw Htb He Hpr) as [Htree' _].
    assert (forall q, walk (<[t := <[i := Z.lor e 7]> tb]> (tabs s)) (pg_root s) q = walk (tabs s) (pg_root s) q) as Hwt by (intros; by apply walk_touch).
    left. eexists (set_tabs s _), (page_mask (Z.lor e 7)). split; [done|]. split; [by split|]. split; [by apply (accounted_touch f0 s p)|]. split; [done|].
    split; [|intros q u _; cbn [tabs set_tabs]; rewrite Hwt; intros E; right; by exists u]. cbn [tabs set_tabs]. rewrite Hwt, walk_snoc, Hw. cbn [mbind option_bind]. unfold next. rewrite Hent. cbn [mbind option_bind].
    destruct (Z.eqb_spec (Z.land e PAGE_PRESENT) 0); [done|]. by rewrite page_mask_lor, (page_mask_small 7), Z.lor_0_r by lia.
Qed.

Lemma user_prefix p q : user_path (p ++ q) -> user_path p.
Proof. intros [Hl Hh]. split; [rewrite length_app in Hl; lia|]. intros i r ->. by apply (Hh i (r ++ q)). Qed.

Lemma ensure_levels_accounted f0 va n : forall s p t sh s' t', pg_ok s -> accounted f0 s -> (length p + n = 3)%nat -> walk (tabs s) (pg_root s) p = Some t ->
  user_path (p ++ idxs n va sh) -> ensure_levels n s t va sh = Ok (s', t') ->
  accounted f0 s' /\ forall v, has_table s' v -> has_table s v \/ vpath v = p ++ idxs n va sh.
Proof.
  induction n as [|n IH]; intros s p t sh s' t' Hok Hac Hlen Hw Hup E; [injection E as <- <-; split; [done|by left]|].
  cbn [idxs] in *. assert (p ++ idx va sh :: idxs n va (sh - 9) = (p ++ [idx va sh]) ++ idxs n va (sh - 9)) as Ep by (by rewrite <- app_assoc). rewrite Ep in *.
  destruct (ensure_step f0 va n s p t sh Hok Hac ltac:(lia) Hw (user_prefix _ _ Hup)) as [(s1 & t1 & E1 & Hok1 & Hac1 & Er & Hw1 & Hq)|E1]; rewrite E1 in E; [|done].
  destruct (IH s1 (p ++ [idx va sh]) t1 (sh - 9) s' t') as [Hac' Hv]; [done|done|rewrite length_app; simpl; lia|by rewrite Er|done|done|]. split; [done|].
  intros v Hhv. destruct (Hv v Hhv) as [[u Hu]|?]; [|by right]. rewrite Er in Hu. destruct (Hq (vpath v) u) as [E2|?]; [unfold vpath; rewrite length_idxs; lia|done| |by left].
  right. rewrite E2. assert (length (vpath v) = 3%nat) as Hl by apply length_idxs. rewrite E2, length_app in Hl. simpl in Hl. assert (n = 0)%nat as -> by lia. by rewrite app_nil_r.
Qed.

Lemma user_vpath v : user v -> user_path (vpath v).
Proof. intros Hv. unfold vpath. split; [by rewrite length_idxs|]. cbn [idxs]. intros i q [= <- _]. done. Qed.

Lemma ensure_accounted f0 s va s' t : pg_ok s -> accounted f0 s -> user va -> mempg_find_table_ensure s va = Ok (s', t) ->
  accounted f0 s' /\ forall v, has_table s' v -> has_table s v \/ vpath v = vpath va.
Proof. intros Hok Hac Hu. apply (ensure_levels_accounted f0 va 3 s [] (pg_root s) 39); [done|done|done|done|by apply user_vpath]. Qed.

(** ** Building a map *)

(** A page of [kpvalloc]: its entry, for a frame nothing used. *)
Lemma assign_accounted f0 s virt a flags s' : pg_ok s -> accounted (fun b => b = a \/ f0 b) s -> ~ f0 a -> user virt -> virt mod 4096 = 0 -> ptev s virt = 0 ->
  a mod MEM_PAGE_SIZE = 0 -> 0 <= flags < 4096 -> Z.land flags PAGE_NOPHYS = 0 -> mempg_assign s virt a flags = Ok s' ->
  accounted f0 s' /\ forall v, has_table s' v -> has_table s v \/ vpath v = vpath virt.
Proof.
  intros Hok Hac Ha Hu Hv Hz Hal Hfl Hno E. unfold mempg_assign in E. rewrite (page_mask_aligned virt Hv) in E. apply bind_Ok in E as ([s1 t] & E1 & E).
  destruct (ensure_accounted _ s virt s1 t Hok Hac Hu E1) as [Hac1 Htab]. destruct (ensure_ok s virt Hok) as [(s2 & t2 & E2 & Hg & Hw & Hp)|[E2 _]]; [|congruence].
  rewrite E1 in E2. injection E2 as <- <-. pose proof (grows_root _ _ Hg) as Er. set (e := Z.lor (Z.lor (page_mask a) flags) PAGE_PRESENT) in *.
  assert (present e) as Hpe by (by apply present_lor). assert (page_mask e = a) as Hea.
  { unfold e. rewrite !page_mask_lor, (page_mask_small flags), (page_mask_small PAGE_PRESENT), !Z.lor_0_r by done. by rewrite (page_mask_aligned a Hal), page_mask_aligned. }
  destruct (accounted_write f0 s1 a virt e t Hac1 (proj1 Hg) Ha Hu Hw) as (m & Em & Hac2); [unfold ptev; rewrite Er, Hp; exact Hz|by apply present_nonzero|done| |].
  - unfold nophys, e, page_flags. rewrite !Z.land_lor_distr_l. rewrite (page_mask_aligned a Hal), <- Z.land_assoc. change (Z.land 4095 PAGE_NOPHYS) with 512.
    assert (Z.land a 4095 = 0) as Ha0 by (change 4095 with (Z.ones 12); by rewrite Z.land_ones). intros Hn. apply Hn.
    rewrite <- (Z.land_assoc flags). change (Z.land 4095 PAGE_NOPHYS) with PAGE_NOPHYS. rewrite Hno. change (Z.land (Z.land PAGE_PRESENT 4095) PAGE_NOPHYS) with 0.
    rewrite !Z.lor_0_r. change 512 with (Z.land 4095 PAGE_NOPHYS). by rewrite Z.land_assoc, Ha0.
  - rewrite Em in E. cbn [mbind res_bind] in E. injection E as <-. split; [done|]. intros v [u Hu']. apply Htab. exists u. change (pg_root (set_tabs s1 m)) with (pg_root s1) in Hu'.
    destruct (pte_write s1 virt t e (proj1 Hg) Hw) as (m' & Em' & _ & Hwk & _). rewrite Em in Em'. injection Em' as <-. by rewrite <- Hwk.
Qed.

Lemma low_user v : 0 <= v < 2 ^ 47 -> user v.
Proof.
  intros Hv. unfold user, idx. rewrite pg_index_eq by lia. assert (0 <= v / 2 ^ 39 < 256) by (split; [apply Z.div_pos; lia|apply Z.div_lt_upper_bound; lia]).
  rewrite Z.mod_small by lia. lia.
Qed.

(** The page of an address, in the lower half. *)
Lemma same_page_low v virt : 0 <= virt < 2 ^ 47 -> virt mod 4096 = 0 -> same_page v virt <-> virt <= v mod 2 ^ 48 < virt + 4096.
Proof.
  intros Hv Hm. rewrite same_page_iff. rewrite (Z.mod_small (virt / 4096)) by (split; [apply Z.div_pos; lia|apply Z.div_lt_upper_bound; lia]).
  change (2 ^ 48) with (4096 * 2 ^ 36). rewrite Z.rem_mul_r by lia. pose proof (Z.mod_pos_bound v 4096). pose proof (Z.div_mod virt 4096). lia.
Qed.

(** A map with exactly the user pages [P], and no table that is not needed for one of them. *)
Record built (f0 P : Z -> Prop) s : Prop := mk_built {
  bu_ok : pg_ok s;
  bu_accounted : accounted f0 s;
  bu_page : forall v, user v -> ptev s v <> 0 <-> P (v mod 2 ^ 48);
  bu_table : forall v, user v -> has_table s v -> exists w, P w /\ vpath v = vpath w }.

Lemma built_ext f0 P Q s : (forall v, P v <-> Q v) -> built f0 P s -> built f0 Q s.
Proof. intros E [H1 H2 H3 H4]. split; [done|done|intros v Hv; by rewrite H3, E|]. intros v Hv Ht. destruct (H4 v Hv Ht) as (w & ? & ?). exists w. by rewrite <- E. Qed.

Lemma built_count f0 P s k : built f0 P s -> built f0 P (set_pmap s (add_frames (pmap s) k)).
Proof. intros [H1 [A1 A2 A3 A4] H3 H4]. by split. Qed.

Lemma valloc_built f0 flags n : 0 <= flags < 4096 -> Z.land flags PAGE_NOPHYS = 0 -> forall s P virt s', built f0 P s -> virt mod 4096 = 0 -> 0 <= virt -> virt + 4096 * Z.of_nat n <= 2 ^ 47 ->
  (forall v, virt <= v < virt + 4096 * Z.of_nat n -> ~ P v) -> valloc_loop n s virt flags = Ok s' ->
  built f0 (fun v => P v \/ virt <= v < virt + 4096 * Z.of_nat n) s' /\ same_map s s'.
Proof.
  intros Hfl Hno. induction n as [|n IH]; intros s P virt s' Hb Hal Hv0 Hv Hfree E; cbn [valloc_loop] in E.
  { injection E as <-. split; [|done]. eapply built_ext; [|exact Hb]. intros v. intuition lia. }
  apply bind_Ok in E as ([f a] & Ef & E). apply bind_Ok in E as (s1 & E1 & E). pose proof Hb as [Hok Hac Hpg Htab].
  destruct (law_new_frame (fr s) (proj1 Hok)) as [(f' & a' & Ef' & Hsrc & Ha0 & Haal & Hfresh & Htk)|Ef']; [|congruence]. rewrite Ef in Ef'. injection Ef' as <- <-.
  pose proof (accounted_fresh f0 s f a Hac Hok Hfresh Htk) as Hac0. set (s0 := mk_pg f (tabs s) (pmap s)) in *.
  assert (pg_ok s0) as Hok0 by (split; [done|]; eapply tree_mono; [apply Hok|]; intros; apply Htk; by right).
  assert (user virt) as Hu by (apply low_user; lia). assert (virt mod 2 ^ 48 = virt) as Em by (apply Z.mod_small; lia).
  assert (ptev s virt = 0) as Hz. { destruct (decide (ptev s virt = 0)) as [|Hne]; [done|]. apply Hpg in Hne; [|done]. rewrite Em in Hne. by destruct (Hfree virt ltac:(lia)). }
  assert (~ f0 a) as Ha by (intros Hf; by apply Hfresh, (ac_old _ _ Hac)).
  destruct (assign_accounted f0 s0 virt a flags s1 Hok0 Hac0 Ha Hu Hal Hz Haal Hfl Hno E1) as [Hac1 Ht1].
  pose proof (assign_ok s0 virt a flags Hok0) as Hr. rewrite E1 in Hr. destruct Hr as (Hg & _ & Hp1). pose proof (grows_root _ _ Hg) as Er.
  assert (built f0 (fun v => P v \/ virt <= v < virt + 4096) s1) as Hb1.
  { split; [apply Hg|done| |].
    - intros v Hvu. unfold ptev. rewrite Er. rewrite Hp1. destruct (decide (same_page v virt)) as [Hs|Hs].
      + split; [intros _; right; by apply same_page_low in Hs; [|lia..]|]. intros _. by apply present_nonzero, present_lor.
      + change (pte (tabs s0) (pg_root s0) v) with (ptev s v). rewrite Hpg by done. rewrite same_page_low in Hs by lia. intuition lia.
    - intros v Hvu Hhv. destruct (Ht1 v Hhv) as [Ho|Eq]; [|exists virt; split; [right; lia|done]]. destruct (Htab v Hvu Ho) as (w & ? & ?). exists w. by split; [left|]. }
  rewrite (u64_small (virt + MEM_PAGE_SIZE)) in E by (unfold MEM_PAGE_SIZE; lia). unfold MEM_PAGE_SIZE in E.
  destruct (IH s1 _ (virt + 4096) s' Hb1) as [Hb' Hm]; [|lia|lia| |done|].
  - rewrite <- Zplus_mod_idemp_l, Hal. done.
  - intros v Hvr [?|?]; [|lia]. by apply (Hfree v); [lia|].
  - split; [|eapply same_map_trans; [apply Hg|exact Hm]]. eapply built_ext; [|exact Hb']. intros v. intuition lia.
Qed.

(** The segments of an image, one after another, as [kpvalloc] gets them. *)
Fixpoint map_segments s (flags : Z) (segs : list (Z * Z)) : res (pg F) :=
  match segs with [] => Ok s | (virt, n) :: segs => '(s, _) ← kpvalloc s n virt flags; map_segments s flags segs end.

Definition in_segment (v : Z) (seg : Z * Z) : Prop := fst seg <= v < fst seg + 4096 * snd seg.
Definition segment_ok (seg : Z * Z) : Prop := fst seg mod 2 ^ 21 = 0 /\ 0 <= fst seg /\ 0 < snd seg /\ fst seg + 4096 * snd seg <= 2 ^ 47.

Lemma segments_built f0 flags segs : 0 <= flags < 4096 -> Z.land flags PAGE_NOPHYS = 0 -> forall s P s', built f0 P s -> Forall segment_ok segs ->
  (forall v seg, seg ∈ segs -> in_segment v seg -> ~ P v) -> ForallOrdPairs (fun a b => forall v, in_segment v a -> ~ in_segment v b) segs ->
  map_segments s flags segs = Ok s' ->
  built f0 (fun v => P v \/ exists seg, seg ∈ segs /\ in_segment v seg) s' /\ root_dir (pmap s') = root_dir (pmap s) /\ vstart (pmap s') = vstart (pmap s) /\ vend (pmap s') = vend (pmap s).
Proof.
  intros Hfl Hno. induction segs as [|[virt n] segs IH]; intros s P s' Hb Hsegs Hfree Hdis E; cbn [map_segments] in E.
  { injection E as <-. split; [|done]. eapply built_ext; [|exact Hb]. set_solver. }
  apply Forall_cons in Hsegs as [(Hal & Hv0 & Hn & Hv) Hsegs]. cbn [fst snd] in *. inversion Hdis as [|x y Hd1 Hd2]; subst.
  apply bind_Ok in E as ([s1 r] & E1 & E). unfold kpvalloc in E1. destruct (Z.eqb_spec n 0); [lia|]. apply bind_Ok in E1 as (s0 & E0 & [= <- <-]).
  assert (Z.land flags 4095 = flags) as Efl by (change 4095 with (Z.ones 12); rewrite Z.land_ones by lia; by apply Z.mod_small). rewrite Efl in E0.
  destruct (valloc_built f0 flags (Z.to_nat n) Hfl Hno s P virt s0 Hb) as [Hb0 Hm]; [by apply (mod_pow_down 12 21)|done|lia| |done|].
  { intros v Hvr. apply (Hfree v (virt, n)); [set_solver|]. unfold in_segment. cbn. lia. }
  pose proof (built_count _ _ _ n Hb0) as Hb1. destruct (IH _ _ s' Hb1) as (Hb' & H1 & H2 & H3); [done| |done|done|].
  - intros v seg Hin Hvs [HP|Hvr]; [by apply (Hfree v seg); [set_solver|..]|]. rewrite Forall_forall in Hd1. apply (Hd1 seg Hin v); [|done]. unfold in_segment. cbn. lia.
  - destruct Hm as (M1 & M2 & M3 & _). cbn [pmap set_pmap add_frames root_dir vstart vend] in *. split; [|by rewrite H1, H2, H3]. eapply built_ext; [|exact Hb'].
    intros v. cbv beta. split.
    + intros [[?|?]|(seg & ? & ?)]; [by left| |]; right; [exists (virt, n); split; [set_solver|]; unfold in_segment; cbn; lia|exists seg; split; [set_solver|done]].
    + intros [?|(seg & [-> |Hin]%elem_of_cons & Hs)]; [by left; left| |right; by exists seg]. left. right. unfold in_segment in Hs. cbn in Hs. lia.
Qed.
End Accounts.

(** ** From its creation to its end *)
Section Lifetime.
Context {F : Type} `{FrameSource F} {HL : FrameSourceLaws F} {HR : FrameReturn F}.
Implicit Types (s : pg F).

Lemma pages_elem s n : forall v x, x ∈ pages s n v <-> exists i, 0 <= i < Z.of_nat n /\ ptev s (v + 4096 * i) <> 0 /\ x = page_visit s (v + 4096 * i).
Proof.
  induction n as [|n IH]; intros v x; cbn [pages]; [split; [set_solver|intros (i & ? & _); lia]|]. rewrite elem_of_app, IH. split.
  - intros [Hx|(i & Hi & Hp & ->)].
    + destruct (Z.eqb_spec (ptev s v) 0); [set_solver|]. apply list_elem_of_singleton in Hx as ->. exists 0. rewrite Z.mul_0_r, Z.add_0_r. split; [lia|done].
    + exists (i + 1). replace (v + 4096 * (i + 1)) with (v + 4096 + 4096 * i) by lia. split; [lia|done].
  - intros (i & Hi & Hp & ->). destruct (decide (i = 0)) as [->|Hne].
    + rewrite Z.mul_0_r, Z.add_0_r in *. left. destruct (Z.eqb_spec (ptev s v) 0); [done|]. set_solver.
    + right. exists (i - 1). replace (v + 4096 + 4096 * (i - 1)) with (v + 4096 * i) by lia. split; [lia|done].
Qed.

Lemma own_elem s n b : b ∈ own_frames (pages s n 0) <-> exists i, 0 <= i < Z.of_nat n /\ ptev s (4096 * i) <> 0 /\ ~ nophys (ptev s (4096 * i)) /\ b = page_mask (ptev s (4096 * i)).
Proof.
  unfold own_frames. rewrite list_elem_of_fmap. setoid_rewrite list_elem_of_filter. setoid_rewrite pages_elem. split.
  - intros (y & -> & Hn & i & Hi & Hp & ->). change (0 + 4096 * i) with (4096 * i) in *. exists i. unfold nophys. cbn in Hn |- *. rewrite Hn. split; [done|]. split; [done|]. split; [by intros []|done].
  - intros (i & Hi & Hp & Hn & ->). exists (page_visit s (4096 * i)). split; [done|]. split; [|by exists i]. cbn. unfold nophys in Hn. destruct (decide (Z.land (page_flags (ptev s (4096 * i))) PAGE_NOPHYS = 0)); [done|by destruct Hn].
Qed.

(** Every page has a frame of its own. *)
Lemma own_nodup f0 s n : accounted f0 s -> 4096 * Z.of_nat n <= 2 ^ 47 -> NoDup (own_frames (pages s n 0)).
Proof.
  intros Hac Hn. assert (forall k v, v mod 4096 = 0 -> 0 <= v -> v + 4096 * Z.of_nat k <= 2 ^ 47 -> NoDup (own_frames (pages s k v))) as Hall; [|by apply Hall].
  induction k as [|k IH]; intros v Hm Hv Hb; cbn [pages]; [apply NoDup_nil_2|]. assert ((v + 4096) mod 4096 = 0) as Hm' by (by rewrite <- Zplus_mod_idemp_l, Hm).
  specialize (IH (v + 4096) Hm' ltac:(lia) ltac:(lia)). destruct (Z.eqb_spec (ptev s v) 0) as [|Hz]; [done|]. unfold own_frames in *. cbn [app]. rewrite filter_cons.
  destruct (decide _); [|done]. cbn [fmap list_fmap]. apply NoDup_cons. split; [|done]. rewrite list_elem_of_fmap. intros (y & Ey & [_ Hy]%list_elem_of_filter).
  apply pages_elem in Hy as (i & Hi & Hp & ->). cbn in Ey. destruct (ac_page _ _ Hac v (low_user v ltac:(lia)) Hz) as (_ & _ & _ & _ & Hs).
  specialize (Hs _ (low_user (v + 4096 + 4096 * i) ltac:(lia)) Hp (eq_sym Ey)). apply same_page_low in Hs; [|lia|done]. rewrite Z.mod_small in Hs by lia. lia.
Qed.

(** The tables that are given back are those of the map. *)
Lemma below_elem s d : pg_ok s -> forall p t l i q x, (length p + d + 1 <= 3)%nat -> walk (tabs s) (pg_root s) p = Some t -> i ∈ l -> (length q <= d)%nat ->
  walk (tabs s) t (i :: q) = Some x -> x ∈ tables_below d (tabs s) t l.
Proof.
  intros [_ Htree]. induction d as [|d IH]; intros p t l i q x Hl Hw Hi Hq Hx; cbn [tables_below]; rewrite list_elem_of_bind; exists i; (split; [|done]);
    cbn [walk] in Hx; destruct (next (tabs s) t i) as [t'|] eqn:En; try done.
  - destruct q; [|simpl in Hq; lia]. injection Hx as ->. set_solver.
  - apply elem_of_app. destruct q as [|j q]; [right; injection Hx as ->; set_solver|]. left. simpl in Hq.
    assert (walk (tabs s) (pg_root s) (p ++ [i]) = Some t') as Hw' by (rewrite walk_snoc, Hw; done).
    apply (IH (p ++ [i]) t' _ j q); [rewrite length_app; simpl; lia|done| |lia|done]. apply elem_of_seq. split; [lia|].
    destruct (tr_table _ _ _ Htree (p ++ [i]) t') as [(tb & Htb & Hltb) _]; [rewrite length_app; simpl; lia|done|].
    cbn [walk mbind option_bind] in Hx. destruct (next (tabs s) t' j) as [u|] eqn:Ej; [|done]. unfold next, ent in Ej. rewrite Htb in Ej. cbn [mbind option_bind] in Ej.
    destruct (tb !! j) as [e|] eqn:Ee; [|done]. apply lookup_lt_Some in Ee. lia.
Qed.

Lemma space_tables_elem s b : pg_ok s -> page_mask (root_dir (pmap s)) = root_dir (pmap s) -> b ∈ space_tables s <-> table_at s b.
Proof.
  intros Hok Hr. unfold space_tables. rewrite elem_of_app, list_elem_of_singleton. split.
  - intros [Hb| ->].
    + destruct (below_walk _ 2 _ _ _ Hb) as (i & q & Hi%elem_of_seq & Hq & Hw). exists (i :: q). split; [|done]. split; [simpl; lia|]. intros j r [= <- _]. lia.
    + exists []. split; [split; [simpl; lia|done]|]. unfold pg_root. cbn [walk]. by rewrite Hr.
  - intros ([|i q] & [Hl Hh] & Hw).
    + right. cbn [walk] in Hw. unfold pg_root in Hw. congruence.
    + left. apply (below_elem s 2 Hok [] (pg_root s) _ i q); [simpl; lia|done| |simpl in Hl; lia|done]. apply elem_of_seq. specialize (Hh i q eq_refl). lia.
Qed.

Lemma space_tables_nodup s : pg_ok s -> page_mask (root_dir (pmap s)) = root_dir (pmap s) -> NoDup (space_tables s).
Proof.
  intros [_ Htree] Hr. apply NoDup_app. split; [by apply (below_nodup _ _ _ Htree 2 []); [simpl; lia|..|apply NoDup_seq]|]. split; [|apply NoDup_singleton].
  intros x Hx ->%list_elem_of_singleton. destruct (below_walk _ 2 _ _ _ Hx) as (i & q & _ & Hq & Hw).
  assert ([] = i :: q) as E; [|done]. apply (tr_inj _ _ _ Htree _ _ (root_dir (pmap s))); [simpl; lia|simpl; lia| |done]. unfold pg_root. cbn [walk]. by rewrite Hr.
Qed.

Lemma dispose_space s f : pg_ok s -> kp_dispose_map f (tabs s) (pmap s) = drop_all f (space_tables s).
Proof.
  intros [_ Htree]. unfold kp_dispose_map, _mempg_dispose_dir, space_tables. fold (pg_root s). rewrite drop_all_app.
  pose proof (dispose_pml4_eq _ _ _ Htree 510 O f ltac:(lia)) as E. change (Z.of_nat O) with 0 in E. rewrite E.
  destruct (drop_all f _) as [f2| | |]; cbn [mbind res_bind drop_all]; [|done..]. by destruct (frame_drop f2 (root_dir (pmap s))).
Qed.

Section Release.
Context (f0 P : Z -> Prop) (s : pg F) (Hb : built f0 P s) (Hr : page_mask (root_dir (pmap s)) = root_dir (pmap s)).
Context (Hvs : vstart (pmap s) = 0) (Hve : 0 <= vend (pmap s) <= 2 ^ 47) (HP : forall v, P v -> 0 <= v < vend (pmap s)).
Context (Hblock : forall v w, v mod 2 ^ 21 = 0 -> 0 <= v < vend (pmap s) -> P w -> vpath v = vpath w -> P v).

Lemma built_first : first_pages s.
Proof.
  intros v Hm Hv Ht. assert (user v) as Hu by (apply low_user; lia). apply (bu_page _ _ _ Hb); [done|]. rewrite Z.mod_small by lia.
  destruct (bu_table _ _ _ Hb v Hu Ht) as (w & Hw & Ev). by apply (Hblock v w).
Qed.

Lemma walk_end_low : walk_end s <= 2 ^ 47.
Proof. pose proof (walk_end_spec s) as [_ He]. pose proof (before_end s (2 ^ 47) eq_refl) as Hi. apply Hi. lia. Qed.

(** The pages are those of the walk. *)
Lemma built_own n b : walk_end s = 4096 * Z.of_nat n -> b ∈ own_frames (pages s n 0) <-> exists v, user v /\ ptev s v <> 0 /\ page_mask (ptev s v) = b.
Proof.
  intros En. pose proof walk_end_low. pose proof (walk_end_spec s) as [_ He]. rewrite own_elem. split.
  - intros (i & Hi & Hp & _ & ->). exists (4096 * i). split; [apply low_user; lia|done].
  - intros (v & Hu & Hp & <-). pose proof (proj1 (bu_page _ _ _ Hb v Hu) Hp) as HPv. apply HP in HPv. set (w := v mod 2 ^ 48) in *.
    pose proof (Z.div_mod w 4096). pose proof (Z.mod_pos_bound w 4096). assert (ptev s (4096 * (w / 4096)) = ptev s v) as Ew.
    { unfold ptev. apply pte_same, same_page_iff. rewrite Z.mul_comm, Z.div_mul by lia. unfold w. change (2 ^ 48) with (4096 * 2 ^ 36). rewrite Z.rem_mul_r by lia.
      rewrite (Z.mul_comm 4096), Z.div_add by lia. rewrite (Z.div_small (v mod 4096)) by (apply Z.mod_pos_bound; lia). by rewrite Z.add_0_l, Z.mod_mod. }
    exists (w / 4096). rewrite Ew. split; [split; [apply Z.div_pos; lia|apply Z.div_lt_upper_bound; lia]|]. split; [done|]. split; [|done].
    by destruct (ac_page _ _ (bu_accounted _ _ _ Hb) v Hu Hp) as (_ & _ & _ & ? & _).
Qed.

(** The end of a map whose pages all lie in front of its end. *)
Lemma release_built N fuel : (forall b, taken (fr s) b -> returnable (fr s) b) -> walk_end s < 4096 * Z.of_nat N -> walk_end s < 2 ^ 21 * Z.of_nat fuel ->
  exists f', release_space N fuel s = Ok f' /\ source_ok f' /\ forall b, taken f' b <-> f0 b.
Proof.
  intros Hret HN Hfuel. pose proof (bu_ok _ _ _ Hb) as Hok. pose proof (bu_accounted _ _ _ Hb) as Hac. pose proof (walk_end_spec s) as [Hwm Hwe]. pose proof walk_end_low as Hwb.
  assert (exists n, walk_end s = 4096 * Z.of_nat n) as [n En].
  { exists (Z.to_nat (walk_end s / 4096)). apply (mod_pow_down 12 21) in Hwm; [|lia]. change (2 ^ 12) with 4096 in Hwm. pose proof (Z.div_mod (walk_end s) 4096). pose proof (Z.div_pos (walk_end s) 4096). lia. }
  assert (forall b, b ∈ own_frames (pages s n 0) -> taken (fr s) b /\ ~ f0 b /\ ~ table_at s b) as Hown.
  { intros b (v & Hu & Hp & <-)%(built_own n b En). destruct (ac_page _ _ Hac v Hu Hp) as (? & ? & ? & _). done. }
  destruct (drop_all_ok (own_frames (pages s n 0) ++ space_tables s) (fr s) (proj1 Hok)) as (f' & E & Hok' & Ht).
  - apply NoDup_app. split; [apply (own_nodup f0); [done|lia]|]. split; [|by apply space_tables_nodup]. intros b Hb1 Hb2. apply space_tables_elem in Hb2; [|done..]. by destruct (Hown b Hb1) as (_ & _ & ?).
  - intros b Hb1. assert (taken (fr s) b) as Htk; [|split; [done|by apply Hret]]. apply elem_of_app in Hb1 as [Hb1|Hb1]; [by apply Hown|].
    apply space_tables_elem in Hb1 as (p & Hup & Hw); [|done..]. eapply tr_table; [apply Hok|apply Hup|exact Hw].
  - exists f'. split; [|split; [done|]].
    + unfold release_space. rewrite (kpforeach_ok s Hok Hvs Hve built_first fuel ltac:(lia) _ N _ 0 n) by (lia || by left). rewrite give_pages_back.
      rewrite drop_all_app in E. destruct (drop_all (fr s) _) as [f1| | |]; cbn [mbind res_bind] in *; [|done..]. by rewrite dispose_space.
    + intros b. rewrite Ht, elem_of_app, space_tables_elem by done. split.
      * intros [Htk Hno]. destruct (ac_all _ _ Hac b Htk) as [?|[?|Hv]]; [done|by destruct Hno; right|]. destruct Hno. left. by apply built_own.
      * intros Hf. split; [by apply (ac_old _ _ Hac)|]. intros [Hb1|Hb1]; [by destruct (Hown b Hb1) as (_ & ? & _)|by apply (ac_table _ _ Hac b Hb1)].
Qed.
End Release.

(** A new map, with the part it shares with the kernel. *)
Section Create.
Context (f f1 : F) (m : gmap Z (list Z)) (PDPT1 kroot a : Z) (Hsrc : source_ok f) (Hk : tree_ok m (taken f) kroot).
Context (Hp1 : walk m kroot [511%nat] = Some PDPT1) (Hpa : PDPT1 mod 4096 = 0).
Context (Ha : ~ taken f a) (Htk : forall b, taken f1 b <-> b = a \/ taken f b).

Definition shared_entry : Z := Z.lor (Z.lor PDPT1 PAGE_WRITE) PAGE_PRESENT.
Definition new_dir : gmap Z (list Z) := <[a := <[511%nat := shared_entry]> (replicate 512 0)]> m.

Lemma shared_entry_ok : present shared_entry /\ page_mask shared_entry = PDPT1.
Proof.
  split; [by apply present_lor|]. unfold shared_entry. rewrite !page_mask_lor, (page_mask_small PAGE_WRITE), (page_mask_small PAGE_PRESENT), !Z.lor_0_r by done.
  by apply page_mask_aligned.
Qed.

Lemma next_new i : next new_dir a i = if decide (i = 511%nat) then Some PDPT1 else None.
Proof.
  unfold next, ent, new_dir. rewrite lookup_insert_eq. cbn [mbind option_bind]. destruct shared_entry_ok as [Hpr Hm]. destruct (decide (i = 511%nat)) as [->|Hne].
  - rewrite list_lookup_insert_eq by (rewrite length_replicate; lia). cbn [mbind option_bind]. unfold present in Hpr. destruct (Z.eqb_spec (Z.land shared_entry PAGE_PRESENT) 0); [done|]. by rewrite Hm.
  - rewrite list_lookup_insert_ne by done. destruct (replicate 512 0 !! i) as [e|] eqn:E; cbn [mbind option_bind]; [|done]. by apply lookup_replicate in E as [-> _].
Qed.

Lemma shared_walk q : (length q <= 2)%nat -> walk new_dir PDPT1 q = walk m kroot (511%nat :: q).
Proof.
  assert (forall q, walk m kroot (511%nat :: q) = walk m PDPT1 q) as E1.
  { intros q0. change (walk m kroot (511%nat :: q0)) with (t ← next m kroot 511; walk m t q0). change (walk m kroot [511%nat]) with (t ← next m kroot 511; Some t) in Hp1.
    destruct (next m kroot 511); cbn [mbind option_bind] in *; [congruence|done]. }
  rewrite E1. induction q as [|j q IH] using rev_ind; intros Hq; [done|]. rewrite length_app in Hq. cbn in Hq. rewrite !walk_snoc, IH by lia.
  destruct (walk m PDPT1 q) as [u|] eqn:Eu; [|done]. cbn [mbind option_bind]. assert (u <> a) as Hu.
  { intros ->. apply Ha. apply (tr_table _ _ _ Hk (511%nat :: q) a); [simpl; lia|by rewrite E1]. }
  unfold next, ent, new_dir. by rewrite lookup_insert_ne.
Qed.

Lemma walk_new i q : (length q <= 2)%nat -> walk new_dir a (i :: q) = if decide (i = 511%nat) then walk m kroot (i :: q) else None.
Proof.
  intros Hq. change (walk new_dir a (i :: q)) with (t ← next new_dir a i; walk new_dir t q). rewrite next_new. destruct (decide (i = 511%nat)) as [->|]; [|done]. by apply shared_walk.
Qed.

Lemma new_tree : tree_ok new_dir (taken f1) a.
Proof.
  assert (forall i q t, (length q <= 2)%nat -> walk new_dir a (i :: q) = Some t -> i = 511%nat /\ walk m kroot (i :: q) = Some t /\ t <> a) as Hin.
  { intros i q t Hq. rewrite walk_new by done. destruct (decide (i = 511%nat)); [|done]. intros E. split; [done|]. split; [done|]. intros ->. apply Ha. by apply (tr_table _ _ _ Hk (i :: q) a); [simpl; lia|]. }
  split.
  - intros [|i q] t Hl Hw; [injection Hw as <-; split; [eexists; split; [apply lookup_insert_eq|by rewrite length_insert, length_replicate]|apply Htk; by left]|].
    destruct (Hin i q t) as (-> & Hw' & Hne); [simpl in Hl; lia|done|]. destruct (tr_table _ _ _ Hk _ t Hl Hw') as [(tb & Htb & Hlt) Hu].
    split; [exists tb; split; [by unfold new_dir; rewrite lookup_insert_ne|done]|apply Htk; by right].
  - intros [|i q] [|j r] t H1 H2 W1 W2.
    + done.
    + injection W1 as <-. destruct (Hin j r a) as (_ & _ & ?); [simpl in H2; lia|done|done].
    + injection W2 as <-. destruct (Hin i q a) as (_ & _ & ?); [simpl in H1; lia|done|done].
    + destruct (Hin i q t) as (_ & W1' & _); [simpl in H1; lia|done|]. destruct (Hin j r t) as (_ & W2' & _); [simpl in H2; lia|done|]. by apply (tr_inj _ _ _ Hk _ _ t).
  - intros [|i q] t j e Hl Hw.
    + injection Hw as <-. unfold ent, new_dir. rewrite lookup_insert_eq. cbn [mbind option_bind]. intros [(_ & <- & _)|(_ & Hlk)]%list_lookup_insert_Some; [right; apply shared_entry_ok|]. left. by apply lookup_replicate in Hlk as [-> _].
    + destruct (Hin i q t) as (-> & Hw' & Hne); [simpl in Hl; lia|done|]. unfold ent, new_dir. rewrite lookup_insert_ne by done. by apply (tr_zero _ _ _ Hk (511%nat :: q)).
Qed.

Lemma new_built V : page_mask a = a -> source_ok f1 -> built (taken f) (fun _ => False) (mk_pg f1 new_dir (mk_pagemap a 0 V 0 0 0)).
Proof.
  intros Hal Hsrc1. set (s := mk_pg _ _ _). assert (pg_root s = a) as Er by done.
  assert (forall i q, (length q <= 2)%nat -> (i < 510)%nat -> walk new_dir a (i :: q) = None) as Hnone by (intros i q Hq Hi; rewrite walk_new by done; destruct (decide _); [lia|done]).
  assert (forall v, user v -> ptev s v = 0 /\ ~ has_table s v) as Hz.
  { intros v Hv. assert (walk new_dir a (vpath v) = None) as E by (apply Hnone; [done|done]). unfold ptev, pte, leaf, has_table. rewrite Er. cbn [tabs s]. rewrite E. split; [done|by intros []]. }
  assert (forall b, table_at s b <-> b = a) as Hta.
  { intros b. unfold table_at. rewrite Er. split; [|intros ->; exists []; split; [split; [simpl; lia|done]|done]]. intros ([|i q] & [Hl Hh] & Hw); [by injection Hw|].
    cbn [tabs s] in Hw. rewrite Hnone in Hw; [done|simpl in Hl; lia|by apply (Hh i q)]. }
  split.
  - split; [done|]. rewrite Er. apply new_tree.
  - split; cbn [fr s].
    + intros b Hb. apply Htk. by right.
    + by intros b ->%Hta.
    + intros v Hv Hne. by destruct (Hz v Hv).
    + intros b [->|Hb]%Htk; [right; left; by apply Hta|by left].
  - intros v Hv. destruct (Hz v Hv) as [-> _]. split; [done|by intros []].
  - intros v Hv Ht. by destruct (Hz v Hv).
Qed.
End Create.

Lemma create_map_ok (f : F) m PDPT1 : source_ok f -> result True (kp_create_map f m PDPT1) (fun '(f1, m1, map) => exists a,
  map = mk_pagemap a 0 0 0 0 0 /\ m1 = new_dir m PDPT1 a /\ source_ok f1 /\ page_mask a = a /\ ~ taken f a /\ forall b, taken f1 b <-> b = a \/ taken f b).
Proof.
  intros Hsrc. unfold kp_create_map, _mempg_create_dir. destruct (law_new_frame f Hsrc) as [(f' & a & -> & Hsrc1 & _ & Hal & Hfresh & Htk)| ->]; [|done]. cbn [mbind res_bind]. apply page_mask_aligned in Hal.
  rewrite Hal. change 511 with (Z.of_nat 511). rewrite (wr_ok _ _ _ _ (replicate 512 0)) by (apply lookup_insert_eq || (rewrite length_replicate; lia)). cbn [mbind res_bind result].
  exists a. rewrite insert_insert_eq. done.
Qed.

(** C13: From its creation to its end, an address space gives back every frame it took and no other:
    after [kp_create_map], segments of user memory that start at a boundary of two MiB and do not
    overlap, and the loop and [kp_dispose_map] at the end of the process, the frames in use are
    those that were in use before; every table and every page goes back once.  The frames in use
    must be ones that [kffree] can find ([returnable]: those of the first piece of memory, see
    [frames_return]), and the boundary matters: behind a table whose first page is not mapped
    the loop comes to pages twice ([kpforeach_visits_twice]) or does not end
    ([kpforeach_empty_table], page.c:226). *)
Theorem address_space_returned (f f1 : F) m m1 (PDPT1 kroot V flags : Z) map segs s N fuel : source_ok f -> tree_ok m (taken f) kroot -> walk m kroot [511%nat] = Some PDPT1 -> PDPT1 mod 4096 = 0 ->
  0 <= V <= 2 ^ 47 -> Forall segment_ok segs -> Forall (fun seg => fst seg + 4096 * snd seg <= V) segs -> ForallOrdPairs (fun a b => forall v, in_segment v a -> ~ in_segment v b) segs ->
  0 <= flags < 4096 -> Z.land flags PAGE_NOPHYS = 0 ->
  kp_create_map f m PDPT1 = Ok (f1, m1, map) -> map_segments (mk_pg f1 m1 (mk_pagemap (root_dir map) 0 V 0 0 0)) flags segs = Ok s ->
  (forall b, taken (fr s) b -> returnable (fr s) b) -> V + 2 ^ 21 < 4096 * Z.of_nat N -> V + 2 ^ 21 < 2 ^ 21 * Z.of_nat fuel ->
  exists f', release_space N fuel s = Ok f' /\ source_ok f' /\ forall b, taken f' b <-> taken f b.
Proof.
  intros Hsrc Hk Hp1 Hpa HV Hsegs Hin Hdis Hfl Hno E1 E2 Hret HN Hfuel. pose proof (create_map_ok f m PDPT1 Hsrc) as Hc. rewrite E1 in Hc. destruct Hc as (a & -> & -> & Hsrc1 & Hal & Hfresh & Htk).
  cbn [root_dir] in E2. pose proof (new_built f f1 m PDPT1 kroot a Hk Hp1 Hpa Hfresh Htk V Hal Hsrc1) as Hb.
  destruct (segments_built _ flags segs Hfl Hno _ _ s Hb Hsegs) as (Hb' & H1 & H2 & H3); [by intros ? ? ? ? []|done|exact E2|]. cbn [pmap root_dir vstart vend] in H1, H2, H3.
  assert (forall v, (False \/ exists seg, seg ∈ segs /\ in_segment v seg) -> 0 <= v < V) as Hr.
  { intros v [[]|(seg & Hs & Hv)]. rewrite Forall_forall in Hsegs, Hin. destruct (Hsegs seg Hs) as (_ & ? & _). specialize (Hin seg Hs). unfold in_segment in Hv. lia. }
  pose proof (walk_end_spec s) as [_ He]. rewrite H3 in He. apply (release_built _ _ s Hb'); rewrite ?H1, ?H2, ?H3; [done|done|done|exact Hr| |exact Hret|lia|lia].
  intros v w Hm Hv Hw Ep. right. pose proof (Hr w Hw) as Hwr. destruct Hw as [[]|(seg & Hs & Hws)]. exists seg. split; [done|]. rewrite Forall_forall in Hsegs. destruct (Hsegs seg Hs) as (Hsm & Hs0 & Hsn & Hse).
  assert (v / 2 ^ 21 = w / 2 ^ 21) as Eb.
  { unfold vpath in Ep. cbn [idxs] in Ep. change (39 - 9) with 30 in Ep. change (30 - 9) with 21 in Ep. injection Ep as I1 I2 I3. unfold idx in I1, I2, I3. pose proof (pg_index_range v 39). pose proof (pg_index_range w 39).
    pose proof (pg_index_range v 30). pose proof (pg_index_range w 30). pose proof (pg_index_range v 21). pose proof (pg_index_range w 21).
    assert (pg_index v 39 = pg_index w 39 /\ pg_index v 30 = pg_index w 30 /\ pg_index v 21 = pg_index w 21) as (J1 & J2 & J3) by lia. clear I1 I2 I3. rewrite !pg_index_eq in J1, J2, J3 by lia.
    assert (forall x, 0 <= x < 2 ^ 47 -> x / 2 ^ 21 = (x / 2 ^ 21) mod 512 + 512 * ((x / 2 ^ 30) mod 512 + 512 * ((x / 2 ^ 39) mod 512))) as D; [|rewrite (D v), (D w) by lia; congruence].
    intros x Hx. assert (0 <= x / 2 ^ 39 < 256) by (split; [apply Z.div_pos; lia|apply Z.div_lt_upper_bound; lia]).
    assert (x / 2 ^ 30 = x / 2 ^ 21 / 512 /\ x / 2 ^ 39 = x / 2 ^ 21 / 512 / 512) as [E30 E39] by (rewrite !Z.div_div by lia; done).
    rewrite (Z.mod_small (x / 2 ^ 39)) by lia. rewrite E30, E39. set (y := x / 2 ^ 21). pose proof (Z.div_mod y 512). pose proof (Z.div_mod (y / 512) 512). lia. }
  unfold in_segment in *. pose proof (Z.div_mod v (2 ^ 21)). pose proof (Z.div_mod w (2 ^ 21)). pose proof (Z.mod_pos_bound w (2 ^ 21)). pose proof (Z.div_mod (fst seg) (2 ^ 21)).
  assert (fst seg / 2 ^ 21 <= w / 2 ^ 21) by (apply Z.div_le_mono; lia). lia.
Qed.
End Lifetime.

(** ** The frame allocator takes frames back, if they are in the first piece of memory *)

Lemma free_shape st id st' : kffree st id = Ok st' -> shape st' = shape st /\ frames_possible st' = frames_possible st.
Proof.
  unfold kffree. intros E. apply bind_Ok in E as ([[j p] i] & Hw & E). destruct (frame_walk_lookup _ _ _ _ _ _ _ _ Hw) as (n & -> & Hn). res_inv.
  split; [|done]. unfold shape, set_piece. cbn [pieces Nat.add]. rewrite list_fmap_insert. apply list_insert_id. by rewrite list_lookup_fmap, Hn.
Qed.

Definition in_first (st : frames) (a : Z) : Prop := match pieces st with p :: _ => in_piece p a | [] => False end.

Lemma in_first_shape st st' a : shape st' = shape st -> in_first st' a <-> in_first st a.
Proof.
  unfold in_first, shape, in_piece. destruct (pieces st) as [|p ps], (pieces st') as [|q qs]; try done. intros [= E1 E2 _]. by rewrite E1, E2.
Qed.

Lemma kfindexof_first st id a : frames_ok st -> layout_ok st -> 0 <= id < zlen (flat st) -> kfpaddrof st id = Ok a -> in_first st a -> kfindexof st a = Ok id.
Proof.
  intros Hok Hlay Hid Ea Hf. destruct (kfpaddrof_ok st id Hok Hlay Hid) as (j & p & i & Hj & Hi & -> & E & _). rewrite E in Ea. injection Ea as <-.
  unfold in_first in Hf. destruct (pieces st) as [|p0 ps] eqn:Ep; [done|]. unfold in_piece, FRAME_SIZE in *.
  assert (j = O) as ->. { destruct (decide (j = O)) as [|Hne]; [done|]. destruct Hlay as [_ Hd]. destruct (Hd j O p p0); [by rewrite Ep|by rewrite Ep|done|unfold FRAME_SIZE in *; lia..]. }
  injection Hj as <-. change (zlen (flat_pieces (take 0 (p0 :: ps)))) with 0. rewrite Z.add_0_l. unfold kfindexof. rewrite Ep.
  rewrite (kfindexof_loop_ok (p0 :: ps)) with (j := O) (p := p0); [do 2 f_equal; unfold FRAME_SIZE; rewrite Z.add_simpl_l, Z.div_mul; lia| |done|unfold in_piece, FRAME_SIZE; lia|lia].
  rewrite <- Ep. apply Forall_lookup_2. intros k q Hk. pose proof (Forall_lookup_1 _ _ _ _ (proj1 Hlay) Hk) as (? & ? & ?). pose proof (Forall_lookup_1 _ _ _ _ (proj1 Hok) Hk) as [? _]. done.
Qed.

#[global] Instance frames_return : FrameReturn frames.
Proof.
  exists in_first. intros st a (Hok & Hlay & Hal) (id & Hid & Hf & Ea) Hret. assert (0 <= id < zlen (flat st)) as Hr by (apply lookup_lt_Some in Hf; unfold zlen; lia).
  cbn [frame_drop frames_source]. rewrite (kfindexof_first st id a) by done. cbn [mbind res_bind]. destruct (free_one st Hok id Hr) as (st' & E & Hok' & Hfl). exists st'.
  destruct (free_shape _ _ _ E) as [Es Ep]. split; [done|]. split; [split_and!; [done|by apply (layout_shape st)|by apply (aligned_shape st)]|]. split; [|intros b; by apply in_first_shape].
  intros b. cbn [taken frames_source]. setoid_rewrite (kfpaddrof_shape st st' _ Es Ep). rewrite Hfl. split.
  - intros (k & Hk & Hkf & Hkb). destruct (decide (k = id)) as [->|Hne]; [rewrite list_lookup_insert_eq in Hkf by (unfold zlen in Hr; lia); done|].
    rewrite list_lookup_insert_ne in Hkf by lia. split; [by exists k|]. intros ->. apply Hne. apply (kfpaddrof_inj st k id a); [done|done| |done|done|done]. apply lookup_lt_Some in Hkf. unfold zlen. lia.
  - intros [(k & Hk & Hkf & Hkb) Hne]. exists k. split; [done|]. split; [|done]. rewrite list_lookup_insert_ne; [done|]. intros Eid. assert (k = id) as -> by lia. congruence.
Defined.

(** ** A kernel, and maps in it *)
Module SpaceDemo.
Definition memory : frames := mk_frames [mk_piece 1048576 64 [3; 0]] 2 64.
Definition kernel_tables : gmap Z (list Z) :=
  {[1048576 := <[511%nat := 1052679]> (replicate 512 0); 1052672 := replicate 512 0]}.

Lemma memory_ok : source_ok memory.
Proof.
  split_and!; [|split|repeat constructor].
  - unfold frames_ok, piece_ok, covers, WORD_BITS, NO_START. split_and!; [repeat constructor; vm_compute; done|vm_compute; done..].
  - repeat constructor; vm_compute; done.
  - intros [|j] [|j'] p p' Hj Hj' Hne; done.
Qed.

Lemma used_frame i : 0 <= i < 2 -> taken memory (1048576 + 4096 * i).
Proof. intros Hi. exists i. assert (i = 0 \/ i = 1) as [->| ->] by lia; by split_and!; vm_compute. Qed.

Lemma kernel_next i : next kernel_tables 1048576 i = if decide (i = 511%nat) then Some 1052672 else None.
Proof.
  unfold next, ent, kernel_tables. rewrite lookup_insert_eq. cbn [mbind option_bind]. destruct (decide (i = 511%nat)) as [->|Hne]; [done|]. rewrite list_lookup_insert_ne by done.
  destruct (replicate 512 0 !! i) as [e|] eqn:E; cbn [mbind option_bind]; [|done]. by apply lookup_replicate in E as [-> _].
Qed.
Lemma kernel_next2 i : next kernel_tables 1052672 i = None.
Proof.
  unfold next, ent, kernel_tables. rewrite lookup_insert_ne, lookup_singleton_eq by done. cbn [mbind option_bind].
  destruct (replicate 512 0 !! i) as [e|] eqn:E; cbn [mbind option_bind]; [|done]. by apply lookup_replicate in E as [-> _].
Qed.

Lemma kernel_walk p t : walk kernel_tables 1048576 p = Some t -> p = [] /\ t = 1048576 \/ p = [511%nat] /\ t = 1052672.
Proof.
  destruct p as [|i p]; cbn [walk]; [intros [= <-]; by left|]. rewrite kernel_next. destruct (decide (i = 511%nat)) as [->|]; [|done]. cbn [mbind option_bind].
  destruct p as [|j p]; cbn [walk]; [intros [= <-]; by right|]. by rewrite kernel_next2.
Qed.

Lemma kernel_tree : tree_ok kernel_tables (taken memory) 1048576.
Proof.
  split.
  - intros p t _ [[-> ->]|[-> ->]]%kernel_walk.
    + split; [eexists; split; [apply lookup_insert_eq|by rewrite length_insert, length_replicate]|apply (used_frame 0); lia].
    + split; [eexists; split; [unfold kernel_tables; by rewrite lookup_insert_ne, lookup_singleton_eq|by rewrite length_replicate]|apply (used_frame 1); lia].
  - intros p q t _ _ [[-> ->]|[-> ->]]%kernel_walk [[-> ?]|[-> ?]]%kernel_walk; done.
  - intros p t i e _ [[-> ->]|[-> ->]]%kernel_walk; unfold ent, kernel_tables.
    + rewrite lookup_insert_eq. cbn [mbind option_bind]. intros [(_ & <- & _)|(_ & Hl)]%list_lookup_insert_Some; [right; by vm_compute|left; by apply lookup_replicate in Hl as [-> _]].
    + rewrite lookup_insert_ne, lookup_singleton_eq by done. cbn [mbind option_bind]. intros Hl. left. by apply lookup_replicate in Hl as [-> _].
Qed.

Definition get_ok {A} (d : A) (r : res A) : A := match r with Ok a => a | _ => d end.
Definition created := get_ok (memory, kernel_tables, mk_pagemap 0 0 0 0 0 0) (kp_create_map memory kernel_tables 1052672).
Definition fresh_map : pg frames := mk_pg created.1.1 created.1.2 (mk_pagemap (root_dir created.2) 0 8388608 0 0 0).
Definition image : list (Z * Z) := [(4194304, 3); (6291456, 2)].
Definition loaded : pg frames := get_ok fresh_map (map_segments fresh_map 6 image).
(** A page that is not the first of its table; a table without a page. *)
Definition odd_map : pg frames := get_ok fresh_map (valloc_loop 2 fresh_map 4096 6).
Definition empty_map : pg frames := (get_ok (fresh_map, 0) (mempg_find_table_ensure fresh_map 0)).1.

Lemma fresh_built : built (taken memory) (fun _ => False) fresh_map.
Proof.
  destruct (frames_source_laws memory memory_ok) as [(f' & a & Ea & Hsrc1 & _ & Hal & Hfresh & Htk)|Ea]; [|vm_compute in Ea; discriminate Ea].
  assert (frame_run memory 1 = Ok (created.1.1, 1056768)) as Ec by (vm_compute; reflexivity). rewrite Ea in Ec. injection Ec as -> ->.
  assert (fresh_map = mk_pg created.1.1 (new_dir kernel_tables 1052672 1056768) (mk_pagemap 1056768 0 8388608 0 0 0)) as -> by (vm_compute; reflexivity).
  by apply (new_built memory created.1.1 kernel_tables 1052672 1048576 1056768 kernel_tree).
Qed.

Lemma image_ok : Forall segment_ok image /\ Forall (fun seg => fst seg + 4096 * snd seg <= 8388608) image /\ ForallOrdPairs (fun a b => forall v, in_segment v a -> ~ in_segment v b) image.
Proof.
  split; [|split].
  - repeat constructor; cbn; lia.
  - repeat constructor; cbn; lia.
  - unfold image. repeat constructor. intros v. unfold in_segment. cbn. lia.
Qed.

Lemma loaded_built : built (taken memory) (fun v => False \/ exists seg, seg ∈ image /\ in_segment v seg) loaded.
Proof.
  destruct image_ok as (H1 & _ & H3). destruct (segments_built (taken memory) 6 image ltac:(lia) eq_refl fresh_map _ loaded fresh_built H1) as [Hb _]; [by intros ? ? ? ? []|exact H3|vm_compute; reflexivity|done].
Qed.

Lemma loaded_first : first_pages loaded.
Proof.
  apply (built_first (taken memory) (fun v => False \/ exists seg, seg ∈ image /\ in_segment v seg)); [exact loaded_built|vm_compute; split; congruence|].
  intros v w Hm Hv [[]|(seg & Hs & Hw)] E. right. change (vend (pmap loaded)) with 8388608 in Hv. pose proof (Z.div_mod v (2 ^ 21)) as Ev. rewrite Hm, Z.add_0_r in Ev. specialize (Ev ltac:(lia)).
  unfold vpath in E. cbn [idxs] in E. injection E as _ _ E. unfold idx in E. change (39 - 9 - 9) with 21 in E. pose proof (pg_index_range v 21). pose proof (pg_index_range w 21).
  assert (pg_index v 21 = pg_index w 21) as E' by lia. rewrite !pg_index_eq in E' by lia.
  assert (0 <= v / 2 ^ 21 < 4) by lia. unfold image in *. unfold in_segment in Hw.
  apply elem_of_cons in Hs as [-> |Hs]; [|apply list_elem_of_singleton in Hs as ->]; cbn [fst snd] in Hw.
  - assert (w / 2 ^ 21 = 2) as Ew by (symmetry; apply (Z.div_unique_pos w _ _ (w - 4194304)); lia). rewrite Ew in E'. change (2 mod 512) with 2 in E'. rewrite Z.mod_small in E' by lia. exists (4194304, 3). split; [set_solver|]. unfold in_segment. cbn. lia.
  - assert (w / 2 ^ 21 = 3) as Ew by (symmetry; apply (Z.div_unique_pos w _ _ (w - 6291456)); lia). rewrite Ew in E'. change (3 mod 512) with 3 in E'. rewrite Z.mod_small in E' by lia. exists (6291456, 2). split; [set_solver|]. unfold in_segment. cbn. lia.
Qed.

Lemma all_returnable b : taken (fr loaded) b -> returnable (fr loaded) b.
Proof.
  assert (fr loaded = mk_frames [mk_piece 1048576 64 [4095; 0]] 12 64) as -> by (vm_compute; reflexivity). intros (id & Hid & Hf & Ea). cbn in Hid. set (st := mk_frames _ _ _) in *.
  assert (0 <= id < 64) as Hr by (apply lookup_lt_Some in Hf; change (length (flat st)) with 64%nat in Hf; lia).
  assert (kfpaddrof st id = Ok (u64 (1048576 + id * 4096))) as E.
  { unfold kfpaddrof, st. cbn [pieces frames_possible frame_walk usable]. destruct (Z.ltb_spec id 64); [|lia]. cbn [mbind res_bind pstart]. unfold FRAME_SIZE. by rewrite u32_small by lia. }
  rewrite E in Ea. injection Ea as <-. rewrite u64_small by lia. cbn [returnable frames_return in_first pieces st]. unfold in_piece, FRAME_SIZE. cbn. lia.
Qed.
End SpaceDemo.

Lemma address_space_returned_witness : exists f', release_space 2561 6 SpaceDemo.loaded = Ok f' /\ source_ok f' /\ forall b, taken f' b <-> taken SpaceDemo.memory b.
Proof.
  destruct SpaceDemo.image_ok as (H1 & H2 & H3).
  apply (address_space_returned SpaceDemo.memory SpaceDemo.created.1.1 SpaceDemo.kernel_tables SpaceDemo.created.1.2 1052672 1048576 8388608 6 SpaceDemo.created.2 SpaceDemo.image SpaceDemo.loaded 2561 6
    SpaceDemo.memory_ok SpaceDemo.kernel_tree); [vm_compute; reflexivity|done|lia|exact H1|exact H2|exact H3|lia|done|vm_compute; reflexivity|vm_compute; reflexivity|exact SpaceDemo.all_returnable|lia|lia].
Defined.

Lemma kpforeach_visits_witness : kpforeach 2049 5 SpaceDemo.loaded (_kpforeach_init SpaceDemo.loaded) (fun l v => Ok (l ++ [v])) [] =
  each (fun l v => Ok (l ++ [v])) [] (pages SpaceDemo.loaded (Z.to_nat (walk_end SpaceDemo.loaded / 4096)) 0).
Proof.
  apply (kpforeach_visits SpaceDemo.loaded (bu_ok _ _ _ SpaceDemo.loaded_built) ltac:(vm_compute; reflexivity)); [vm_compute; split; congruence|exact SpaceDemo.loaded_first|split; [lia|vm_compute; reflexivity]|vm_compute; reflexivity].
Defined.

Lemma kpforeach_empty_table_witness : kpforeach 100 100 SpaceDemo.empty_map (_kpforeach_init SpaceDemo.empty_map) (fun l v => Ok (l ++ [v])) [] = OutOfFuel.
Proof.
  pose proof (bu_ok _ _ _ SpaceDemo.fresh_built) as Hok. destruct (ensure_ok SpaceDemo.fresh_map 0 Hok) as [(s' & t & E & Hg & Hw & Hp)|[E _]]; [|vm_compute in E; discriminate E].
  assert (s' = SpaceDemo.empty_map) as -> by (unfold SpaceDemo.empty_map; rewrite E; reflexivity).
  apply (kpforeach_empty_table SpaceDemo.empty_map (proj1 Hg) ltac:(vm_compute; reflexivity) ltac:(vm_compute; congruence) t Hw). intros x Hx. unfold ptev. rewrite (grows_root _ _ Hg), Hp.
  pose proof (bu_page _ _ _ SpaceDemo.fresh_built x (low_user x ltac:(lia))) as [Hi _]. unfold ptev in Hi.
  destruct (decide (pte (tabs SpaceDemo.fresh_map) (pg_root SpaceDemo.fresh_map) x = 0)) as [E0|Hne]; [exact E0|destruct (Hi Hne)].
Defined.

Lemma kpforeach_visits_twice_witness : exists l, first_visits SpaceDemo.odd_map (2 + length l) 1 (_kpforeach_init SpaceDemo.odd_map) =
  Ok (again SpaceDemo.odd_map 1 0 :: l ++ [again SpaceDemo.odd_map 1 (4096 * 511)]) /\ page_visit SpaceDemo.odd_map 4096 = again SpaceDemo.odd_map 1 4096.
Proof.
  destruct (valloc_built (taken SpaceDemo.memory) 6 2 ltac:(lia) eq_refl SpaceDemo.fresh_map _ 4096 SpaceDemo.odd_map SpaceDemo.fresh_built) as [Hb _]; [done|lia|lia|by intros ? ? []|vm_compute; reflexivity|].
  apply (kpforeach_visits_twice SpaceDemo.odd_map (bu_ok _ _ _ Hb) ltac:(vm_compute; reflexivity) ltac:(vm_compute; congruence) 1073152 ltac:(vm_compute; reflexivity) 1 ltac:(lia)); [|vm_compute; congruence|lia].
  intros x Hx. assert (x = 0) as -> by lia. vm_compute. reflexivity.
Defined.
