(* ===== verification/Window.v ===== *)
(** * Two address spaces at a time

    The maps of all processes and the kernel's are trees of tables in the same memory that share
    the part of the kernel's addresses, entry 511 of the directory.  The kernel works on the map
    of a new process and on its own in turn: here is what an operation of arch/x64/page.c on one
    map leaves of the other.  Every operation is a sequence of small steps ([pstep]) on the tree
    it is given; [apart] is what the steps keep of a pair of trees. *)
From S2P Require Import Prelude Bitmap Frame Paging Spaces.

(** ** The steps *)
Section Steps.
Context {F : Type} `{FrameSourceLaws F}.
Implicit Types (s : pg F).

Inductive pstep s : pg F -> Prop :=
| ps_touch p t tb i e : (length p <= 2)%nat -> walk (tabs s) (pg_root s) p = Some t -> tabs s !! t = Some tb -> tb !! i = Some e -> present e ->
    pstep s (set_tabs s (<[t := <[i := Z.lor e 7]> tb]> (tabs s)))
| ps_grow f p t tb i a e : (length p <= 2)%nat -> walk (tabs s) (pg_root s) p = Some t -> tabs s !! t = Some tb -> length tb = 512%nat -> tb !! i = Some 0 ->
    ~ taken (fr s) a -> present e -> page_mask e = a -> source_ok f -> (forall b, taken f b <-> b = a \/ taken (fr s) b) ->
    pstep s (mk_pg f (grown (tabs s) a t e tb i) (add_dir (pmap s) 1))
| ps_write q t tb i e : length q = 3%nat -> walk (tabs s) (pg_root s) q = Some t -> tabs s !! t = Some tb -> (i < length tb)%nat ->
    pstep s (set_tabs s (<[t := <[i := e]> tb]> (tabs s)))
| ps_frame f : source_ok f -> (forall b, taken (fr s) b -> taken f b) -> pstep s (mk_pg f (tabs s) (pmap s))
| ps_count p : root_dir p = root_dir (pmap s) -> vstart p = vstart (pmap s) -> vend p = vend (pmap s) -> pstep s (set_pmap s p).

Definition psteps : pg F -> pg F -> Prop := rtc pstep.

Lemma step_root s s' : pstep s s' -> pg_root s' = pg_root s.
Proof. unfold pg_root. intros [| | | |? E _ _]; [done..|]. cbn [pmap set_pmap]. by rewrite E. Qed.

Lemma step_ok s s' : pg_ok s -> pstep s s' -> pg_ok s'.
Proof.
  intros [Hs Ht] Hst. split; [by destruct Hst|]. rewrite (step_root s s' Hst).
  destruct Hst as [p t tb i e Hp Hw Htb Hi He|f p t tb i a e Hp Hw Htb Hl Hi Ha He Hea Hf Htk|q t tb i e Hq Hw Htb Hi|f Hf Htk|]; cbn [tabs fr set_tabs set_pmap].
  - by apply (tree_touch _ _ _ p).
  - by apply (tree_grow _ (taken (fr s)) _ a t e tb p).
  - by apply (tree_write _ _ _ q).
  - by eapply tree_mono.
  - done.
Qed.

Lemma psteps_ok s s' : pg_ok s -> psteps s s' -> pg_ok s' /\ pg_root s' = pg_root s.
Proof. intros Hok Hs. induction Hs as [|s s1 s2 Hst Hs IH]; [done|]. destruct (IH (step_ok _ _ Hok Hst)) as [? ->]. split; [done|by apply step_root]. Qed.

(** ** The operations are made of them *)
Lemma ensure_levels_steps va n : forall s p t sh s' t', pg_ok s -> (length p + n = 3)%nat -> walk (tabs s) (pg_root s) p = Some t ->
  ensure_levels n s t va sh = Ok (s', t') -> psteps s s'.
Proof.
  induction n as [|n IH]; intros s p t sh s' t' Hok Hn Hw; [intros [= <- _]; apply rtc_refl|]. pose proof Hok as [Hsrc Htree]. cbn [ensure_levels].
  destruct (tr_table _ _ _ Htree p t ltac:(lia) Hw) as [(tb & Htb & Hltb) _]. rewrite idx_Z. set (i := idx va sh) in *. pose proof (idx_lt va sh) as Hi. fold i in Hi.
  destruct (lookup_lt_is_Some_2 tb i ltac:(lia)) as [e He]. assert (ent (tabs s) t i = Some e) as Hent by (unfold ent; by rewrite Htb). rewrite (proj2 (rd_ent _ _ _ _) Hent). cbn [mbind res_bind].
  destruct (Z.eqb_spec (Z.land e PAGE_PRESENT) 0) as [Hnp|Hpr].
  - assert (e = 0) as -> by (destruct (tr_zero _ _ _ Htree p t i e ltac:(lia) Hw Hent); done).
    destruct (law_new_frame (fr s) Hsrc) as [(f & a & -> & Hsrc' & Ha0 & Hal & Hfresh & Htaken)| ->]; [|done]. cbn [mbind res_bind]. set (e := Z.lor (Z.lor (Z.lor a PAGE_USER) PAGE_WRITE) PAGE_PRESENT).
    assert (page_mask e = a) as Hea by (unfold e; rewrite !page_mask_lor, (page_mask_aligned a Hal), (page_mask_small PAGE_USER), (page_mask_small PAGE_WRITE), (page_mask_small PAGE_PRESENT) by done; by rewrite !Z.lor_0_r).
    assert (present e) as Hpe by (apply present_lor; done). rewrite (wr_ok _ _ _ _ tb) by (done || lia). cbn [mbind res_bind]. rewrite Hea. fold (grown (tabs s) a t e tb i). intros E.
    assert (pstep s (mk_pg f (grown (tabs s) a t e tb i) (add_dir (pmap s) 1))) as Hst by (apply (ps_grow s f p); done || lia).
    eapply rtc_l; [exact Hst|]. apply (IH _ (p ++ [i]) a (sh - 9) s' t'); [by apply (step_ok s)|rewrite length_app; simpl; lia| |exact E].
    cbn [tabs]. by apply (tree_grow (tabs s) (taken (fr s)) (pg_root s) a t e tb p i Htree ltac:(lia) Hw Htb He Hfresh Hpe Hea (taken f) Htaken Hltb).
  - change (Z.lor (Z.lor PAGE_USER PAGE_WRITE) PAGE_PRESENT) with 7. rewrite (wr_ok _ _ _ _ tb) by (done || lia). cbn [mbind res_bind]. intros E.
    assert (pstep s (set_tabs s (<[t := <[i := Z.lor e 7]> tb]> (tabs s)))) as Hst by (apply (ps_touch s p); done || lia).
    eapply rtc_l; [exact Hst|]. apply (IH _ (p ++ [i]) (page_mask (Z.lor e 7)) (sh - 9) s' t'); [by apply (step_ok s)|rewrite length_app; simpl; lia| |exact E].
    cbn [tabs set_tabs]. rewrite (walk_touch _ t tb i e _ Htb He Hpr). change (pg_root (set_tabs s _)) with (pg_root s). rewrite walk_snoc, Hw. cbn [mbind option_bind]. unfold next. rewrite Hent. cbn [mbind option_bind].
    destruct (Z.eqb_spec (Z.land e PAGE_PRESENT) 0); [done|]. by rewrite page_mask_lor, (page_mask_small 7), Z.lor_0_r by lia.
Qed.

Lemma ensure_steps s va s' t : pg_ok s -> mempg_find_table_ensure s va = Ok (s', t) -> psteps s s' /\ walk (tabs s') (pg_root s') (vpath va) = Some t.
Proof.
  intros Hok E. split; [by apply (ensure_levels_steps va 3 s [] (pg_root s) 39 s' t)|].
  destruct (ensure_ok s va Hok) as [(s1 & t1 & E1 & _ & Hw & _)|[E1 _]]; [|congruence]. rewrite E1 in E. by injection E as <- <-.
Qed.

Lemma write_step s va t e m : pg_ok s -> walk (tabs s) (pg_root s) (vpath va) = Some t -> wr (tabs s) t (pg_index va 12) e = Ok m -> pstep s (set_tabs s m).
Proof.
  intros [_ Htree] Hw. destruct (tr_table _ _ _ Htree (vpath va) t ltac:(done) Hw) as [(tb & Htb & Hltb) _]. rewrite idx_Z. pose proof (idx_lt va 12).
  rewrite (wr_ok _ _ _ _ tb) by (done || lia). intros [= <-]. apply (ps_write s (vpath va)); done || lia.
Qed.

Lemma psteps_trans s1 s2 s3 : psteps s1 s2 -> psteps s2 s3 -> psteps s1 s3.
Proof. intros H1 H2. unfold psteps in *. by etransitivity. Qed.

Lemma assign_steps s virt phys flags s' : pg_ok s -> mempg_assign s virt phys flags = Ok s' -> psteps s s'.
Proof.
  intros Hok E. unfold mempg_assign in E. apply bind_Ok in E as ([s1 t] & E1 & E). destruct (ensure_steps _ _ _ _ Hok E1) as [H1 Hw].
  apply bind_Ok in E as (m & E2 & [= <-]). eapply psteps_trans; [exact H1|]. apply rtc_once. exact (write_step s1 (page_mask virt) t _ m (proj1 (psteps_ok _ _ Hok H1)) Hw E2).
Qed.

Lemma paddrof_steps s virt s' a : pg_ok s -> kppaddrof s virt = Ok (s', a) -> psteps s s'.
Proof.
  intros Hok E. unfold kppaddrof, _kppaddrof in E. apply bind_Ok in E as ([s1 t] & E1 & E). apply bind_Ok in E as (e & _ & [= <- _]). by destruct (ensure_steps _ _ _ _ Hok E1).
Qed.

Lemma remove_steps s virt s' fl : pg_ok s -> mempg_remove s virt = Ok (s', fl) -> psteps s s'.
Proof.
  intros Hok E. unfold mempg_remove in E. apply bind_Ok in E as ([s1 t] & E1 & E). destruct (ensure_steps _ _ _ _ Hok E1) as [H1 Hw].
  apply bind_Ok in E as (e & _ & E). apply bind_Ok in E as (m & E2 & [= <- _]). eapply psteps_trans; [exact H1|]. apply rtc_once. exact (write_step s1 (page_mask virt) t _ m (proj1 (psteps_ok _ _ Hok H1)) Hw E2).
Qed.

Lemma count_step s p : root_dir p = root_dir (pmap s) -> vstart p = vstart (pmap s) -> vend p = vend (pmap s) -> psteps s (set_pmap s p).
Proof. intros. by apply rtc_once, ps_count. Qed.

Lemma frame_step s n f a : pg_ok s -> frame_run (fr s) 1 = Ok (f, a) -> n = 1 -> psteps s (mk_pg f (tabs s) (pmap s)).
Proof.
  intros [Hsrc _] E _. destruct (law_new_frame (fr s) Hsrc) as [(f' & a' & E' & Hs & _ & _ & _ & Ht)|E']; [|congruence]. rewrite E' in E. injection E as <- <-.
  apply rtc_once, ps_frame; [done|]. intros b Hb. apply Ht. by right.
Qed.

Lemma assign_loop_steps flags n : forall s virt phys s', pg_ok s -> assign_loop n s virt phys flags = Ok s' -> psteps s s'.
Proof.
  induction n as [|n IH]; intros s virt phys s' Hok E; cbn [assign_loop] in E; [injection E as <-; apply rtc_refl|]. apply bind_Ok in E as (s1 & E1 & E).
  pose proof (assign_steps _ _ _ _ _ Hok E1) as H1. eapply psteps_trans; [exact H1|]. eapply IH; [by apply (psteps_ok s)|exact E].
Qed.

Lemma valloc_loop_steps flags n : forall s virt s', pg_ok s -> valloc_loop n s virt flags = Ok s' -> psteps s s'.
Proof.
  induction n as [|n IH]; intros s virt s' Hok E; cbn [valloc_loop] in E; [injection E as <-; apply rtc_refl|]. apply bind_Ok in E as ([f a] & E0 & E). apply bind_Ok in E as (s1 & E1 & E).
  pose proof (frame_step s 1 f a Hok E0 eq_refl) as H0'. assert (pg_ok (mk_pg f (tabs s) (pmap s))) as Hok0 by (by apply (psteps_ok s)). pose proof (assign_steps _ _ _ _ _ Hok0 E1) as H1.
  eapply psteps_trans; [exact H0'|]. eapply psteps_trans; [exact H1|]. eapply IH; [by apply (psteps_ok _ _ Hok0)|exact E].
Qed.

Lemma kpvalloc_steps s amount virt flags s' v : pg_ok s -> kpvalloc s amount virt flags = Ok (s', v) -> psteps s s'.
Proof.
  intros Hok E. unfold kpvalloc in E. destruct (amount =? 0); [injection E as <- _; apply rtc_refl|]. apply bind_Ok in E as (s1 & E1 & [= <- _]).
  eapply psteps_trans; [by eapply valloc_loop_steps|by apply count_step].
Qed.

Lemma contiguous_steps fuel s amount s' v : pg_ok s -> mempg_find_contiguous fuel s amount = Ok (s', v) -> psteps s s'.
Proof.
  intros Hok E. unfold mempg_find_contiguous in E. destruct (amount =? 0); [injection E as <- _; apply rtc_refl|]. apply bind_Ok in E as (o & _ & E). apply bind_Ok in E as ([s1 tb] & E1 & E).
  apply bind_Ok in E as (st & _ & [= <- _]). destruct o as [tb'|]; [injection E1 as <- _; apply rtc_refl|]. by destruct (ensure_steps _ _ _ _ Hok E1).
Qed.

Lemma kpmap_steps fuel s amount phys flags s' v : pg_ok s -> kpmap fuel s amount phys flags = Ok (s', v) -> psteps s s'.
Proof.
  intros Hok E. unfold kpmap in E. apply bind_Ok in E as ([s1 v1] & E1 & E). apply bind_Ok in E as (s2 & E2 & [= <- _]). pose proof (contiguous_steps _ _ _ _ _ Hok E1) as H1.
  eapply psteps_trans; [exact H1|]. eapply psteps_trans; [eapply assign_loop_steps; [by apply (psteps_ok s)|exact E2]|by apply count_step].
Qed.

Lemma kpcalloc_steps fuel s flags s' v : pg_ok s -> kpcalloc fuel s 1 flags = Ok (s', v) -> psteps s s'.
Proof.
  intros Hok E. unfold kpcalloc in E. change (1 =? 0) with false in E. cbv iota in E. apply bind_Ok in E as ([f a] & E0 & E). apply bind_Ok in E as ([s1 v1] & E1 & E). apply bind_Ok in E as (s2 & E2 & [= <- _]).
  pose proof (frame_step s 1 f a Hok E0 eq_refl) as H0'. assert (pg_ok (mk_pg f (tabs s) (pmap s))) as Hok0 by (by apply (psteps_ok s)). pose proof (contiguous_steps _ _ _ _ _ Hok0 E1) as H1.
  eapply psteps_trans; [exact H0'|]. eapply psteps_trans; [exact H1|]. eapply psteps_trans; [eapply assign_loop_steps; [by apply (psteps_ok _ _ Hok0)|exact E2]|by apply count_step].
Qed.

(** A loop that gives no frame back: every page was mapped with [PAGE_NOPHYS]. *)
Lemma free_loop_steps n : forall s virt s', pg_ok s -> Z.of_nat n <= 2 ^ 36 -> (forall w, off w virt < Z.of_nat n -> nophys (pte (tabs s) (pg_root s) w)) -> free_loop n s virt = Ok s' -> psteps s s'.
Proof.
  induction n as [|n IH]; intros s virt s' Hok Hn Hno E; cbn [free_loop] in E; [injection E as <-; apply rtc_refl|]. apply bind_Ok in E as ([s1 a] & E1 & E). apply bind_Ok in E as ([s2 fl] & E2 & E).
  pose proof (paddrof_steps s virt s1 a Hok E1) as H1. destruct (psteps_ok _ _ Hok H1) as [Hok1 Er1]. pose proof (remove_steps _ _ _ _ Hok1 E2) as H2. destruct (psteps_ok _ _ Hok1 H2) as [Hok2 Er2].
  pose proof (paddrof_ok s virt Hok) as R1. rewrite E1 in R1. destruct R1 as (_ & _ & Hp1). pose proof (remove_ok s1 virt Hok1) as R2. rewrite E2 in R2. destruct R2 as (_ & -> & Hp2).
  rewrite Er1 in *. rewrite Hp1 in E. assert (off virt virt = 0) as Hv0 by (unfold off; by rewrite Z.sub_diag).
  destruct (Z.eqb_spec (Z.land (page_flags (pte (tabs s) (pg_root s) virt)) PAGE_NOPHYS) 0) as [Ez|_]; [by destruct (Hno virt ltac:(lia))|]. cbn [mbind res_bind] in E.
  eapply psteps_trans; [exact H1|]. eapply psteps_trans; [exact H2|]. eapply psteps_trans; [apply (count_step s2 (add_map (pmap s2) (-1))); done|].
  apply (IH (set_pmap s2 (add_map (pmap s2) (-1))) _ _ Hok2 ltac:(lia)) with (2 := E). intros w. change (pg_root (set_pmap s2 _)) with (pg_root s2). rewrite Er2, off_next. cbn [tabs set_pmap]. rewrite Hp2, Hp1.
  intros Hw. destruct (decide (off w virt = 0)) as [E0|E0]; [lia|]. rewrite <- same_page_off in E0. destruct (decide _); [done|]. apply Hno. rewrite same_page_off in E0. pose proof (off_range w virt). lia.
Qed.
End Steps.

(** ** What they leave of another tree *)

(** A change to nothing the tree uses. *)
Lemma off_tree m m' (used used' : Z -> Prop) root : tree_ok m used root -> (forall q u, (length q <= 3)%nat -> walk m root q = Some u -> m' !! u = m !! u) -> (forall b, used b -> used' b) ->
  tree_ok m' used' root /\ (forall q, (length q <= 3)%nat -> walk m' root q = walk m root q) /\ forall q j, length q = 3%nat -> leaf m' root q j = leaf m root q j.
Proof.
  intros Ho Hm Hu. assert (forall q u, (length q <= 3)%nat -> walk m root q = Some u -> forall j, ent m' u j = ent m u j) as He by (intros q u Hq Hw j; unfold ent; by rewrite (Hm q u)).
  assert (forall q, (length q <= 3)%nat -> walk m' root q = walk m root q) as Hwk.
  { induction q as [|j q IH] using rev_ind; intros Hq; [done|]. rewrite length_app in Hq. simpl in Hq. rewrite !walk_snoc, IH by lia.
    destruct (walk m root q) as [u|] eqn:E; [|done]. cbn [mbind option_bind]. unfold next. by rewrite (He q u) by (done || lia). }
  split; [split|split; [done|]].
  - intros q u Hq. rewrite Hwk by done. intros Hw. rewrite (Hm q u) by done. destruct (tr_table _ _ _ Ho q u Hq Hw). auto.
  - intros q q' u Hq Hq'. rewrite !Hwk by done. by apply Ho.
  - intros q u j x Hq. rewrite Hwk by lia. intros Hw. rewrite (He q u) by (done || lia). by apply (tr_zero _ _ _ Ho q).
  - intros q j Hq. unfold leaf. rewrite Hwk by lia. destruct (walk m root q) as [u|] eqn:E; [|done]. by rewrite (He q u) by (done || lia).
Qed.

(** The way goes through the shared entry. *)
Definition shared (p : list nat) : Prop := exists q, p = 511%nat :: q.

Lemma shared_dec p : shared p \/ ~ shared p.
Proof. destruct p as [|i p]; [right; by intros [q ?]|]. destruct (decide (i = 511%nat)) as [->|Hne]; [left; by exists p|right; intros [q [= E _]]; done]. Qed.

Lemma shared_snoc p i : shared (p ++ [i]) <-> shared p \/ p = [] /\ i = 511%nat.
Proof.
  unfold shared. destruct p as [|j p]; cbn [app].
  - split; [intros [q [= -> _]]; by right|intros [[q ?]|[_ ->]]; [done|by exists []]].
  - split; [intros [q [= -> _]]; left; by exists p|intros [[q [= -> _]]|[? _]]; [by exists (p ++ [i])|done]].
Qed.

(** Two trees that share what lies behind entry 511 and nothing else. *)
Record apart (m : gmap Z (list Z)) (used : Z -> Prop) (ra rb : Z) : Prop := mk_apart {
  ap_a : tree_ok m used ra;
  ap_b : tree_ok m used rb;
  ap_shared : forall p, shared p -> (length p <= 3)%nat -> walk m ra p = walk m rb p;
  ap_there : is_Some (walk m ra [511%nat]);
  ap_sep : forall p q t, (length p <= 3)%nat -> (length q <= 3)%nat -> walk m ra p = Some t -> walk m rb q = Some t -> p = q /\ shared p }.

Lemma apart_sym m used ra rb : apart m used ra rb -> apart m used rb ra.
Proof.
  intros [H1 H2 H3 H4 H5]. split; [done|done|intros p Hp Hl; symmetry; by apply H3| |].
  - rewrite <- H3; [done|by exists []|simpl; lia].
  - intros p q t Hp Hq W1 W2. destruct (H5 q p t Hq Hp W2 W1) as [-> ?]. done.
Qed.

Section Apart.
Context {F : Type} `{FrameSourceLaws F}.
Implicit Types (s : pg F).

(** The tables of a way that is not shared are none of the other tree's. *)
Lemma not_theirs m used ra rb p t q u : apart m used ra rb -> (length p <= 3)%nat -> (length q <= 3)%nat -> walk m ra p = Some t -> ~ shared p -> walk m rb q = Some u -> u <> t.
Proof. intros Ha Hp Hq Hw Hn Hu ->. by destruct (ap_sep _ _ _ _ Ha p q t Hp Hq Hw Hu). Qed.

Definition keeps (m m' : gmap Z (list Z)) (used' : Z -> Prop) (rb : Z) : Prop :=
  tree_ok m' used' rb /\ forall q j, length q = 3%nat -> ~ shared q -> leaf m' rb q j = leaf m rb q j.

Lemma apart_intro m' used' ra rb m used : apart m used ra rb -> tree_ok m' used' ra -> keeps m m' used' rb ->
  (forall p, shared p -> (length p <= 3)%nat -> walk m' ra p = walk m' rb p) -> is_Some (walk m' ra [511%nat]) ->
  (forall p q t, (length p <= 3)%nat -> (length q <= 3)%nat -> walk m' ra p = Some t -> walk m' rb q = Some t -> p = q /\ shared p) ->
  apart m' used' ra rb /\ keeps m m' used' rb.
Proof. intros Ha Ht [Hk1 Hk2] Hs Hi Hp. by split. Qed.

Lemma apart_same_walks m' used' ra rb m used : apart m used ra rb -> tree_ok m' used' ra -> keeps m m' used' rb ->
  (forall p, (length p <= 3)%nat -> walk m' ra p = walk m ra p /\ walk m' rb p = walk m rb p) -> apart m' used' ra rb /\ keeps m m' used' rb.
Proof.
  intros Ha Ht Hk Hw. apply (apart_intro _ _ _ _ m used); [done|done|done| | |].
  - intros p Hp Hl. destruct (Hw p Hl) as [-> ->]. by apply (ap_shared _ _ _ _ Ha).
  - destruct (Hw [511%nat] ltac:(simpl; lia)) as [-> _]. apply Ha.
  - intros p q t Hp Hq. destruct (Hw p Hp) as [-> _], (Hw q Hq) as [_ ->]. by apply (ap_sep _ _ _ _ Ha).
Qed.

Lemma apart_step s s' rb : apart (tabs s) (taken (fr s)) (pg_root s) rb -> pstep s s' ->
  apart (tabs s') (taken (fr s')) (pg_root s) rb /\ keeps (tabs s) (tabs s') (taken (fr s')) rb.
Proof.
  intros Ha Hst. destruct Hst as [p t tb i e Hp Hw Htb Hi He|f p t tb i a e Hp Hw Htb Hl Hi Hfr He Hea Hf Htk|p t tb i e Hp Hw Htb Hi|f Hf Htk|]; cbn [tabs fr set_tabs set_pmap].
  - pose proof (walk_touch (tabs s) t tb i e) as Hwt. pose proof (tree_touch (tabs s) (taken (fr s)) (pg_root s) p t tb i e (ap_a _ _ _ _ Ha) Hp Hw Htb Hi He) as [Hta _].
    apply (apart_same_walks _ _ _ _ (tabs s) (taken (fr s))); [done|done| |by intros; rewrite !Hwt]. destruct (shared_dec p) as [Hs|Hs].
    + rewrite (ap_shared _ _ _ _ Ha) in Hw by (done || lia). destruct (tree_touch _ _ _ p t tb i e (ap_b _ _ _ _ Ha) Hp Hw Htb Hi He) as [Htr Hlf]. split; [done|auto].
    + destruct (off_tree (tabs s) (<[t := <[i := Z.lor e 7]> tb]> (tabs s)) (taken (fr s)) (taken (fr s)) rb (ap_b _ _ _ _ Ha)) as (H1 & _ & H3); [|done|by split; auto].
      intros q u Hq Hu. rewrite lookup_insert_ne; [done|]. intros ->. apply (not_theirs _ _ _ _ p u q u Ha ltac:(lia) Hq Hw Hs Hu). done.
  - pose proof (tree_grow (tabs s) (taken (fr s)) (pg_root s) a t e tb p i (ap_a _ _ _ _ Ha) Hp Hw Htb Hi Hfr He Hea (taken f) Htk Hl) as (Hta & _ & _).
    pose proof (fun q => walk_grown (tabs s) (taken (fr s)) (pg_root s) a t e tb p i (ap_a _ _ _ _ Ha) Hp Hw Htb Hi Hfr He Hea q) as Wa.
    assert (forall q u, (length q <= 3)%nat -> walk (tabs s) rb q = Some u -> u <> a) as Hb by (intros q u Hq Hu ->; apply Hfr; by apply (tr_table _ _ _ (ap_b _ _ _ _ Ha) q a)).
    assert (forall q u, (length q <= 3)%nat -> walk (tabs s) (pg_root s) q = Some u -> u <> a) as Hb' by (intros q u Hq Hu ->; apply Hfr; by apply (tr_table _ _ _ (ap_a _ _ _ _ Ha) q a)).
    destruct (shared_dec p) as [Hs|Hs].
    + pose proof Hw as Hw'. rewrite (ap_shared _ _ _ _ Ha) in Hw' by (done || lia). destruct (tree_grow (tabs s) (taken (fr s)) rb a t e tb p i (ap_b _ _ _ _ Ha) Hp Hw' Htb Hi Hfr He Hea (taken f) Htk Hl) as (Htr & _ & Hlf).
      pose proof (fun q => walk_grown (tabs s) (taken (fr s)) rb a t e tb p i (ap_b _ _ _ _ Ha) Hp Hw' Htb Hi Hfr He Hea q) as Wb.
      assert (shared (p ++ [i])) as Hs' by (apply shared_snoc; by left). apply (apart_intro _ _ _ _ (tabs s) (taken (fr s))); [done|done|by split; auto| | |].
      * intros q Hq Hlq. rewrite Wa, Wb by done. by rewrite (ap_shared _ _ _ _ Ha q).
      * rewrite Wa by (simpl; lia). destruct (decide _); [done|]. destruct (decide _) as [Hpre|]; [|apply Ha]. apply prefix_length in Hpre. rewrite length_app in Hpre. destruct Hs as [r ->]. simpl in Hpre. lia.
      * intros q1 q2 u H1 H2. rewrite Wa, Wb by done. destruct (decide (q1 = p ++ [i])) as [->|], (decide (q2 = p ++ [i])) as [->|]; [done| | |].
        -- intros [= <-]. destruct (decide _); [done|]. intros Hu. by destruct (Hb q2 a H2 Hu).
        -- destruct (decide _); [done|]. intros Hu [= <-]. by destruct (Hb' q1 a H1 Hu).
        -- do 2 (destruct (decide _); [done|]). by apply (ap_sep _ _ _ _ Ha).
    + assert (~ shared (p ++ [i])) as Hs'.
      { rewrite shared_snoc. intros [?|[-> ->]]; [done|]. destruct (ap_there _ _ _ _ Ha) as [u Hu]. injection Hw as <-. change (walk (tabs s) (pg_root s) [511%nat]) with (t' ← next (tabs s) (pg_root s) 511; Some t') in Hu.
        unfold next, ent in Hu. rewrite Htb in Hu. cbn [mbind option_bind] in Hu. rewrite Hi in Hu. done. }
      destruct (off_tree (tabs s) (grown (tabs s) a t e tb i) (taken (fr s)) (taken f) rb (ap_b _ _ _ _ Ha)) as (H1 & H2 & H3).
      { intros q u Hq Hu. unfold grown. rewrite lookup_insert_ne by (intros ->; by destruct (Hb q u Hq Hu)). rewrite lookup_insert_ne; [done|]. intros ->. apply (not_theirs _ _ _ _ p u q u Ha ltac:(lia) Hq Hw Hs Hu). done. }
      { intros b Hb0. apply Htk. by right. }
      assert (forall q, shared q -> (length q <= 3)%nat -> walk (grown (tabs s) a t e tb i) (pg_root s) q = walk (tabs s) (pg_root s) q) as Hsame.
      { intros q Hq Hlq. rewrite Wa by done. destruct (decide (q = p ++ [i])) as [->|]; [done|]. destruct (decide _) as [[r ->]|]; [|done]. destruct Hs'. destruct Hq as [q' Hq]. destruct p as [|j p]; simpl in Hq; injection Hq as -> _; [by exists []|by exists (p ++ [i])]. }
      apply (apart_intro _ _ _ _ (tabs s) (taken (fr s))); [done|done|split; auto| | |].
      * intros q Hq Hlq. rewrite Hsame, H2 by done. by apply (ap_shared _ _ _ _ Ha).
      * rewrite Hsame; [apply Ha|by exists []|simpl; lia].
      * intros q1 q2 u L1 L2. rewrite Wa, H2 by done. destruct (decide (q1 = p ++ [i])) as [->|]; [intros [= <-] Hu; by destruct (Hb q2 a L2 Hu)|]. destruct (decide _); [done|]. by apply (ap_sep _ _ _ _ Ha).
  - destruct (tree_write _ _ _ p t tb i e (ap_a _ _ _ _ Ha) Hp Hw Htb Hi) as (Hta & Wa & _). destruct (shared_dec p) as [Hs|Hs].
    + rewrite (ap_shared _ _ _ _ Ha) in Hw by (done || lia). destruct (tree_write _ _ _ p t tb i e (ap_b _ _ _ _ Ha) Hp Hw Htb Hi) as (Htr & Wb & Hlf).
      apply (apart_same_walks _ _ _ _ (tabs s) (taken (fr s))); [done|done| |intros q Hq; by rewrite Wa, Wb]. split; [done|]. intros q j Hq Hns. rewrite Hlf by done. by destruct (decide _) as [[-> _]|].
    + destruct (off_tree (tabs s) (<[t := <[i := e]> tb]> (tabs s)) (taken (fr s)) (taken (fr s)) rb (ap_b _ _ _ _ Ha)) as (H1 & H2 & H3); [|done|].
      { intros q u Hq Hu. rewrite lookup_insert_ne; [done|]. intros ->. apply (not_theirs _ _ _ _ p u q u Ha ltac:(lia) Hq Hw Hs Hu). done. }
      apply (apart_same_walks _ _ _ _ (tabs s) (taken (fr s))); [done|done|by split; auto|intros q Hq; by rewrite Wa, H2].
  - apply (apart_same_walks _ _ _ _ (tabs s) (taken (fr s))); [done|eapply tree_mono; [apply Ha|done]|split; [eapply tree_mono; [apply Ha|done]|done]|done].
  - apply (apart_same_walks _ _ _ _ (tabs s) (taken (fr s))); [done|apply Ha|split; [apply Ha|done]|done].
Qed.

(** The pages of the other tree that are not shared. *)
Definition own (v : Z) : Prop := idx v 39 <> 511%nat.

Lemma own_vpath v : own v -> ~ shared (vpath v).
Proof. intros Hv [q E]. unfold vpath in E. cbn [idxs] in E. by injection E as E _. Qed.

Lemma apart_steps s s' rb : pg_ok s -> apart (tabs s) (taken (fr s)) (pg_root s) rb -> psteps s s' ->
  pg_ok s' /\ pg_root s' = pg_root s /\ apart (tabs s') (taken (fr s')) (pg_root s) rb /\ forall v, own v -> pte (tabs s') rb v = pte (tabs s) rb v.
Proof.
  intros Hok Ha Hs. induction Hs as [s|s s1 s2 Hst Hs IH]; [done|]. destruct (apart_step s s1 rb Ha Hst) as [Ha1 [_ Hk]]. pose proof (step_root _ _ Hst) as Er.
  rewrite Er in IH. destruct (IH (step_ok _ _ Hok Hst) Ha1) as (Hok2 & -> & Ha2 & Hp). split; [done|]. split; [done|]. split; [done|]. intros v Hv. rewrite Hp by done. unfold pte. apply Hk; [done|by apply own_vpath].
Qed.

(** The pages they share. *)
Lemma shared_pte m used ra rb v : apart m used ra rb -> ~ own v -> pte m ra v = pte m rb v.
Proof.
  intros Ha Hv. unfold pte, leaf. rewrite (ap_shared _ _ _ _ Ha); [done| |done]. unfold vpath. cbn [idxs].
  unfold own in Hv. destruct (decide (idx v 39 = 511%nat)) as [->|]; [by eexists|done].
Qed.
End Apart.

(** ** A new map beside the one it was made from *)
Section Beside.
Context {F : Type} `{FrameSourceLaws F}.
Implicit Types (s : pg F).

Lemma psteps_taken s s' : psteps s s' -> forall b, taken (fr s) b -> taken (fr s') b.
Proof.
  intros Hs. induction Hs as [|s s1 s2 Hst _ IH]; [done|]. intros b Hb. apply IH.
  destruct Hst as [| f p t tb i a e _ _ _ _ _ _ _ _ _ Htk| |f _ Htk|]; cbn [fr set_tabs set_pmap]; auto. apply Htk. by right.
Qed.

Lemma create_apart (f f1 : F) m PDPT1 kroot a : tree_ok m (taken f) kroot -> walk m kroot [511%nat] = Some PDPT1 -> PDPT1 mod 4096 = 0 ->
  ~ taken f a -> (forall b, taken f1 b <-> b = a \/ taken f b) ->
  apart (new_dir m PDPT1 a) (taken f1) kroot a /\ (forall v, pte (new_dir m PDPT1 a) kroot v = pte m kroot v) /\ forall v, own v -> pte (new_dir m PDPT1 a) a v = 0.
Proof.
  intros Hk Hp1 Hpa Ha Htk. pose proof (new_tree f f1 m PDPT1 kroot a Hk Hp1 Hpa Ha Htk) as Hn. pose proof (walk_new f m PDPT1 kroot a Hk Hp1 Hpa Ha) as Wn.
  destruct (off_tree m (new_dir m PDPT1 a) (taken f) (taken f1) kroot Hk) as (Hk' & Wk & Lk).
  { intros q u Hq Hu. unfold new_dir. rewrite lookup_insert_ne; [done|]. intros ->. apply Ha. by apply (tr_table _ _ _ Hk q u). }
  { intros b Hb. apply Htk. by right. }
  split; [split|split].
  - done.
  - done.
  - intros p [q ->] Hl. simpl in Hl. rewrite Wk by (simpl; lia). by rewrite Wn by lia.
  - rewrite Wk by (simpl; lia). by rewrite Hp1.
  - intros p q t Hlp Hlq. rewrite Wk by done. intros W1. destruct q as [|i q]; [intros [= <-]; destruct Ha; by apply (tr_table _ _ _ Hk p a)|]. simpl in Hlq. rewrite Wn by lia.
    destruct (decide (i = 511%nat)) as [->|]; [|done]. intros W2. assert (p = 511%nat :: q) as -> by (apply (tr_inj _ _ _ Hk p _ t); simpl; done || lia). split; [done|by exists q].
  - intros v. unfold pte. by apply Lk.
  - intros v Hv. unfold pte, leaf, vpath. cbn [idxs]. rewrite Wn by (simpl; lia). by rewrite decide_False.
Qed.

(** The window is closed by steps. *)
Lemma unmap_steps s v s' : pg_ok s -> nophys (pte (tabs s) (pg_root s) v) -> kpunmap s v 1 = Ok s' -> psteps s s'.
Proof.
  intros Hok Hno. unfold kpunmap, kpfree. destruct (page_flags v >? 0); [done|]. apply free_loop_steps; [done|done|]. intros w Hw. rewrite (pte_same _ _ w v); [done|].
  apply same_page_off. pose proof (off_range w v). change (Z.of_nat (Z.to_nat 1)) with 1 in Hw. lia.
Qed.
End Beside.
