(* ===== verification/Exec.v ===== *)
(** * Starting a program: arch/x64/exec.c

    The arguments of a new program are copied behind a piece of code, [entry_caller], which the
    program starts in: the pointers to the arguments first, then their text.  An array of
    arguments is the list of its pointers, NULL at its end, each with the bytes it leads to. *)
From S2P Require Import Prelude Strings Pool.

Definition CPU_ENTRY_CALLER_SIZE : Z := 32.

Fixpoint args_count_loop (args : list (option (list Z))) (i : Z) : res Z :=
  match args with
  | [] => Fault
  | None :: _ => Ok (s32 (i + 1))
  | Some _ :: args => args_count_loop args (i + 1)
  end.
Definition args_count (args : list (option (list Z))) : res Z := args_count_loop args 0.

(** [args] is what is left of the array before [args[i++]]; the body looks at the argument after. *)
Fixpoint memlen_loop (args : list (option (list Z))) (len : Z) : res Z :=
  match args with
  | [] => Fault
  | None :: _ => Ok len
  | Some _ :: args =>
      match args with
      | [] => Fault
      | None :: _ => memlen_loop args len
      | Some a :: _ => n ← strlen a; memlen_loop args (s32 (len + (n + 1 + 8)))
      end
  end.
Definition args_memlen (args : list (option (list Z))) : res Z := memlen_loop args 0.

(** [*((size_t* ) (addr + off)) = v] *)
Definition put64 (m : list Z) (off v : Z) : res (list Z) := memcpy m off (le_bytes 8 v) 0 8.

Fixpoint setup_loop (m : list Z) (proc_addr : Z) (args : list (option (list Z))) (i offset : Z) : res (list Z) :=
  match args with
  | [] => Fault
  | None :: _ => put64 m (32 + 8 * i) 0
  | Some a :: args =>
      n ← strlen a;
      let len := s32 (n + 1) in
      m ← memcpy m offset a 0 len;
      m ← put64 m (32 + 8 * i) (u64 (proc_addr + offset));
      setup_loop m proc_addr args (i + 1) (offset + len)
  end.

Definition setup_entry_caller (entry_caller : list Z) (m : list Z) (proc_addr : Z) (args : list (option (list Z))) : res (list Z) :=
  m ← memcpy m 0 entry_caller 0 32;
  n ← args_count args;
  setup_loop m proc_addr args 0 (32 + n * 8).

(** The registers a thread starts with. *)
Record regs := mk_regs { rax : Z; rdi : Z; rsi : Z; rdx : Z; rcx : Z; r8 : Z; r9 : Z }.

Definition init_entry_caller (r : regs) (entry init_code_addr arg_count : Z) : regs :=
  mk_regs entry (u64 (s32 (arg_count - 1))) (u64 (init_code_addr + 32)) (rdx r) (rcx r) (r8 r) (r9 r).

Definition set_varguments (r : regs) (a0 a1 a2 a3 a4 a5 : Z) : regs := mk_regs (rax r) a0 a1 a2 a3 a4 a5.

(** [task_pricreate] gives the new thread what it starts with. *)
Definition start_registers (r : regs) (entry init_code_addr : Z) (args : list (option (list Z))) : res regs :=
  n ← args_count args; Ok (init_entry_caller r entry init_code_addr n).

(** ** What a program finds *)

(** The text at an address of a memory that lies at [base]; a word of it. *)
Definition text_at (m : list Z) (base p : Z) : option (list Z) :=
  if (base <=? p) && (p <? base + zlen m) then Some (cut 0 (drop (Z.to_nat (p - base)) m)) else None.
Definition word_at (m : list Z) (base p : Z) : Z := le_val (slice m (p - base) 8).

(** [argv] of a program that starts with [r]: [argc] is in [rdi], the array at [rsi]. *)
Definition program_args (m : list Z) (base : Z) (r : regs) : list (option (list Z)) :=
  (fun i => text_at m base (word_at m base (rsi r + 8 * i))) <$> seqZ 0 (rdi r).

(** What an argument leads to. *)
Definition leads_to (a s : list Z) : Prop := nonul s /\ zlen s < 2 ^ 20 /\ exists r, a = s ++ 0 :: r.

(** An array of arguments with the texts [ss]. *)
Definition is_argv (args : list (option (list Z))) (ss : list (list Z)) : Prop :=
  exists l, args = (Some <$> l) ++ [None] /\ Forall2 leads_to l ss /\ zlen ss < 2 ^ 10.

(** What is written: the pointers and the texts. *)
Fixpoint pointers (base off : Z) (ss : list (list Z)) : list Z :=
  match ss with [] => le_bytes 8 0 | s :: ss => le_bytes 8 (u64 (base + off)) ++ pointers base (off + (zlen s + 1)) ss end.
Definition texts (ss : list (list Z)) : list Z := ss ≫= fun s => s ++ [0].
Definition caller_size (ss : list (list Z)) : Z := 32 + 8 * (zlen ss + 1) + zlen (texts ss).

Lemma zlen_pointers base ss : forall off, zlen (pointers base off ss) = 8 * (zlen ss + 1).
Proof.
  induction ss as [|s ss IH]; intros off; cbn [pointers]; [done|]. rewrite zlen_app, IH, zlen_cons. assert (zlen (le_bytes 8 (u64 (base + off))) = 8) as -> by done. lia.
Qed.

Lemma texts_cons s ss : texts (s :: ss) = (s ++ [0]) ++ texts ss.
Proof. done. Qed.

Lemma splice_mid {A} (x y z bs : list A) : zlen bs = zlen y -> splice (x ++ y ++ z) (zlen x) bs = x ++ bs ++ z.
Proof.
  intros E. unfold splice, zlen in *. rewrite Nat2Z.id, take_app_length. do 2 f_equal. rewrite <- drop_drop, drop_app_length. rewrite drop_app_length'; [done|lia].
Qed.

(** A copy that leaves the memory. *)
Lemma memcpy_leaves dst doff src soff n : 0 <= doff -> 0 <= soff -> zlen dst < doff + n -> 0 < n -> soff + n <= zlen src -> memcpy dst doff src soff n = Fault.
Proof.
  intros Hd Hs Hl Hn Hsrc. unfold memcpy. assert (forall k i d, 0 <= i -> zlen d = zlen dst -> (0 < k)%nat -> i + Z.of_nat k = n -> memcpy_loop d doff src soff i k = Fault) as H; [|apply H; lia].
  induction k as [|k IH]; intros i d Hi Ed Hk En; [lia|]. cbn [memcpy_loop]. destruct (lookup_zlen src (soff + i)) as [x Hx]; [lia|]. rewrite (load_nat _ _ x) by (lia || done). cbn [mbind res_bind].
  destruct (decide (doff + i < zlen d)) as [Hin|Hin].
  - rewrite store_in_range by lia. cbn [mbind res_bind]. destruct k as [|k]; [lia|]. apply IH; rewrite ?zlen_insert; lia.
  - unfold store, upd, zlen in *. destruct (Z.leb_spec 0 (doff + i)), (Z.ltb_spec (doff + i) (Z.of_nat (length d))); done || lia.
Qed.

Lemma count_ok l : forall i, 0 <= i -> i + zlen l < 2 ^ 30 -> args_count_loop ((Some <$> l) ++ [None]) i = Ok (i + zlen l + 1).
Proof.
  induction l as [|a l IH]; intros i Hi Hb; cbn [fmap list_fmap app args_count_loop].
  - change (zlen (@nil (list Z))) with 0 in *. rewrite s32_small by lia. f_equal. lia.
  - rewrite zlen_cons in *. rewrite IH by lia. f_equal. lia.
Qed.

(** One turn: the text goes behind the others, [C], its address behind the other addresses, [A]. *)
Lemma setup_turn base a s args A B C D i off : leads_to a s -> 0 <= i -> zlen A = 32 + 8 * i -> 8 <= zlen B -> zlen s + 1 <= zlen D -> off = zlen (A ++ B ++ C) ->
  setup_loop (A ++ B ++ C ++ D) base (Some a :: args) i off =
  setup_loop ((A ++ le_bytes 8 (u64 (base + off))) ++ drop 8 B ++ (C ++ s ++ [0]) ++ drop (length (s ++ [0])) D) base args (i + 1) (off + (zlen s + 1)).
Proof.
  intros (Hs & Hsl & r & ->) Hi HA HB HD ->. cbn [setup_loop]. rewrite strlen_cstr by done. cbn [mbind res_bind]. pose proof (zlen_nonneg s). pose proof (zlen_nonneg C).
  rewrite s32_small by lia. rewrite memcpy_ok by (rewrite ?zlen_app, ?zlen_cons; pose proof (zlen_nonneg r); lia). cbn [mbind res_bind].
  assert (slice (s ++ 0 :: r) 0 (zlen s + 1) = s ++ [0]) as ->.
  { unfold slice. rewrite drop_0. replace (Z.to_nat (zlen s + 1)) with (length (s ++ [0])) by (rewrite length_app; unfold zlen; cbn; lia). replace (s ++ 0 :: r) with ((s ++ [0]) ++ r) by (by rewrite <- app_assoc). apply take_app_length. }
  set (k := length (s ++ [0])). assert (zlen (s ++ [0]) = zlen s + 1) as Ek by (by rewrite zlen_app).
  assert (splice (A ++ B ++ C ++ D) (zlen (A ++ B ++ C)) (s ++ [0]) = A ++ B ++ (C ++ s ++ [0]) ++ drop k D) as ->.
  { rewrite <- (take_drop k D) at 1. replace (A ++ B ++ C ++ take k D ++ drop k D) with ((A ++ B ++ C) ++ take k D ++ drop k D) by (by rewrite <- !app_assoc).
    rewrite splice_mid; [by rewrite <- !app_assoc|]. unfold k, zlen in *. rewrite length_take. lia. }
  unfold put64. set (w := le_bytes 8 _). assert (zlen w = 8) as E8 by done. rewrite memcpy_ok; [|lia|lia|lia|rewrite !zlen_app; pose proof (zlen_nonneg (drop k D)); pose proof (zlen_nonneg [0]); lia|lia].
  cbn [mbind res_bind]. change (slice w 0 8) with w.
  rewrite <- (take_drop 8 B) at 1. rewrite <- (app_assoc (take 8 B)), <- HA, splice_mid by (rewrite E8; unfold zlen in *; rewrite length_take; lia).
  by rewrite <- (app_assoc A w).
Qed.

(** The texts fit behind the pointers, or the writing leaves the memory. *)
Lemma setup_ok base ss : forall l A B C D i off, Forall2 leads_to l ss -> 0 <= i ->
  zlen A = 32 + 8 * i -> zlen B = 8 * (zlen ss + 1) -> off = zlen (A ++ B ++ C) ->
  setup_loop (A ++ B ++ C ++ D) base ((Some <$> l) ++ [None]) i off =
  if zlen (texts ss) <=? zlen D then Ok (A ++ pointers base off ss ++ C ++ texts ss ++ drop (length (texts ss)) D) else Fault.
Proof.
  induction ss as [|s ss IH]; intros l A B C D i off Hl Hi HA HB Hoff; pose proof (zlen_nonneg C); pose proof (zlen_nonneg D).
  - apply Forall2_nil_inv_r in Hl as ->. cbn [fmap list_fmap app setup_loop pointers texts mbind list_bind length drop]. unfold put64. change (zlen (@nil Z)) with 0. change (zlen (@nil (list Z))) with 0 in HB.
    destruct (Z.leb_spec 0 (zlen D)); [|lia]. rewrite memcpy_ok; [|lia|lia|lia|rewrite !zlen_app; lia|done]. change (slice (le_bytes 8 0) 0 8) with (le_bytes 8 0).
    rewrite <- HA, splice_mid by (rewrite HB; done). done.
  - apply Forall2_cons_inv_r in Hl as (a & l' & Ha & Hl & ->). cbn [fmap list_fmap app]. rewrite zlen_cons in HB. rewrite texts_cons. assert (zlen ((s ++ [0]) ++ texts ss) = zlen s + 1 + zlen (texts ss)) as -> by (by rewrite !zlen_app).
    pose proof (zlen_nonneg ss). pose proof (zlen_nonneg (texts ss)). destruct (Z.leb_spec (zlen s + 1) (zlen D)) as [Hf|Hf].
    + rewrite (setup_turn base a s) by first [done|lia]. set (k := length (s ++ [0])). assert (Z.of_nat k = zlen s + 1) as Ek by (unfold k, zlen; rewrite length_app; cbn; lia).
      assert (zlen (drop k D) = zlen D - (zlen s + 1)) as Ed by (unfold zlen in *; rewrite length_drop; lia).
      rewrite IH; [|done|lia|rewrite zlen_app; change (zlen (le_bytes 8 _)) with 8; lia|unfold zlen in *; rewrite length_drop; lia|unfold zlen in *; rewrite !length_app, length_drop in *; cbn in *; lia].
      rewrite Ed. destruct (Z.leb_spec (zlen (texts ss)) (zlen D - (zlen s + 1))), (Z.leb_spec (zlen s + 1 + zlen (texts ss)) (zlen D)); [|lia..|done].
      cbn [pointers]. rewrite drop_drop. rewrite !length_app.
      unfold k. by rewrite !length_app, <- !app_assoc.
    + destruct (Z.leb_spec (zlen s + 1 + zlen (texts ss)) (zlen D)); [lia|]. destruct Ha as (Hs & Hsl & r & ->). cbn [setup_loop]. rewrite strlen_cstr by done. cbn [mbind res_bind]. pose proof (zlen_nonneg s).
      rewrite s32_small, memcpy_leaves; [done|pose proof (zlen_nonneg A); pose proof (zlen_nonneg B); rewrite ?zlen_app, ?zlen_cons in *; pose proof (zlen_nonneg r); lia..].
Qed.

Lemma argv_sizes args ss : is_argv args ss -> args_count args = Ok (zlen ss + 1) /\ Forall (fun s => nonul s /\ zlen s < 2 ^ 20) ss /\ zlen ss < 2 ^ 10.
Proof.
  intros (l & -> & Hl & Hn). pose proof (Forall2_length _ _ _ Hl) as El. unfold args_count. rewrite count_ok by (unfold zlen in *; lia). split; [do 2 f_equal; unfold zlen; lia|].
  split; [|done]. clear -Hl. induction Hl as [|a s l ss (? & ? & _) _ IH]; constructor; done.
Qed.

Lemma setup_image code m base args ss : is_argv args ss -> 32 <= zlen code -> 32 <= zlen m ->
  setup_entry_caller code m base args =
  if caller_size ss <=? zlen m then Ok (take 32 code ++ pointers base (32 + 8 * (zlen ss + 1)) ss ++ texts ss ++ drop (Z.to_nat (caller_size ss)) m) else Fault.
Proof.
  intros Ha Hc Hm. destruct (argv_sizes args ss Ha) as (En & _ & Hn). destruct Ha as (l & -> & Hl & _). unfold caller_size in *. pose proof (zlen_nonneg ss). pose proof (zlen_nonneg (texts ss)).
  unfold setup_entry_caller. rewrite memcpy_ok by lia. cbn [mbind res_bind]. rewrite En. cbn [mbind res_bind]. change (slice code 0 32) with (take 32 code). rewrite splice_0.
  assert (length (take 32 code) = 32%nat) as E32 by (rewrite length_take; unfold zlen in Hc; lia). rewrite E32.
  destruct (Z.leb_spec (32 + 8 * (zlen ss + 1)) (zlen m)) as [Hp|Hp].
  2: { destruct (Z.leb_spec (32 + 8 * (zlen ss + 1) + zlen (texts ss)) (zlen m)); [lia|]. destruct Hl as [|a s l ss (Hs & Hsl & r & ->) Hl]; cbn [fmap list_fmap app setup_loop].
    - unfold put64. apply memcpy_leaves; [lia|lia| |lia|done]. unfold zlen in *. rewrite length_app, length_drop. cbn in Hp. lia.
    - rewrite strlen_cstr by done. cbn [mbind res_bind]. rewrite zlen_cons in *. pose proof (zlen_nonneg s). pose proof (zlen_nonneg r). rewrite s32_small by lia.
      rewrite memcpy_leaves; [done|lia|lia| |lia|rewrite zlen_app, zlen_cons; lia]. unfold zlen in *. rewrite length_app, length_drop. lia. }
  set (nb := Z.to_nat (8 * (zlen ss + 1))). rewrite <- (take_drop nb (drop 32 m)), drop_drop. set (B := take nb (drop 32 m)). set (D := drop (32 + nb) m).
  assert (zlen B = 8 * (zlen ss + 1)) as EB by (unfold B, nb, zlen in *; rewrite length_take, length_drop; lia).
  assert (zlen D = zlen m - (32 + 8 * (zlen ss + 1))) as ED by (unfold D, nb, zlen in *; rewrite length_drop; lia).
  assert (zlen (take 32 code) = 32) as EA by (unfold zlen; lia).
  pose proof (setup_ok base ss l (take 32 code) B [] D 0 (32 + 8 * (zlen ss + 1)) Hl) as Hs. cbn [app] in Hs. replace (32 + (zlen ss + 1) * 8) with (32 + 8 * (zlen ss + 1)) by lia.
  rewrite Hs; [|lia|lia|lia|rewrite app_nil_r, zlen_app; lia]. rewrite ED.
  destruct (Z.leb_spec (zlen (texts ss)) (zlen m - (32 + 8 * (zlen ss + 1)))), (Z.leb_spec (32 + 8 * (zlen ss + 1) + zlen (texts ss)) (zlen m)); [|lia..|done].
  unfold D. rewrite drop_drop. do 4 f_equal. f_equal. unfold nb, zlen. lia.
Qed.

Lemma text_found x s r base : nonul s -> text_at (x ++ s ++ 0 :: r) base (base + zlen x) = Some s.
Proof.
  intros Hs. unfold text_at. destruct (Z.leb_spec base (base + zlen x)); [|pose proof (zlen_nonneg x); lia].
  destruct (Z.ltb_spec (base + zlen x) (base + zlen (x ++ s ++ 0 :: r))); [|rewrite !zlen_app, zlen_cons in *; pose proof (zlen_nonneg s); pose proof (zlen_nonneg r); lia].
  cbn [andb]. f_equal. replace (base + zlen x - base) with (zlen x) by lia. unfold zlen. rewrite Nat2Z.id, drop_app_length. by apply cut_text.
Qed.

Lemma word_found x v r base : 0 <= v < 2 ^ 64 -> word_at (x ++ le_bytes 8 v ++ r) base (base + zlen x) = v.
Proof.
  intros Hv. unfold word_at, slice. replace (base + zlen x - base) with (zlen x) by lia. unfold zlen. rewrite Nat2Z.id, drop_app_length.
  change (Z.to_nat 8) with (length (le_bytes 8 v)). rewrite take_app_length. by apply le_bytes_val.
Qed.

(** Pointer [i] and its text, in memory with pointers between [x] and [y]. *)
Lemma argument_found base ss : forall x y z i s off, Forall (fun s => nonul s /\ zlen s < 2 ^ 20) ss -> ss !! i = Some s -> 0 <= base ->
  off = zlen (x ++ pointers base off ss ++ y) -> base + zlen (x ++ pointers base off ss ++ y ++ texts ss ++ z) < 2 ^ 64 ->
  text_at (x ++ pointers base off ss ++ y ++ texts ss ++ z) base (word_at (x ++ pointers base off ss ++ y ++ texts ss ++ z) base (base + zlen x + 8 * Z.of_nat i)) = Some s.
Proof.
  induction ss as [|s0 ss IH]; intros x y z i s off Hss Hi Hb Hoff Hlt; [done|]. apply Forall_cons in Hss as [[Hs0 _] Hss]. destruct i as [|i].
  - injection Hi as ->. rewrite Z.mul_0_r, Z.add_0_r. cbn [pointers] in *. rewrite !zlen_app in *. pose proof (zlen_nonneg x). pose proof (zlen_nonneg y).
    pose proof (zlen_nonneg (le_bytes 8 (u64 (base + off)))). pose proof (zlen_nonneg (pointers base (off + (zlen s + 1)) ss)). pose proof (zlen_nonneg (texts (s :: ss))). pose proof (zlen_nonneg z).
    rewrite <- (app_assoc (le_bytes 8 _)), word_found by apply u64_range. rewrite u64_small by lia.
    assert (zlen (le_bytes 8 (u64 (base + off))) = zlen (le_bytes 8 (base + off))) as Ele by done. rewrite Ele in *.
    set (w := x ++ le_bytes 8 (base + off) ++ pointers base (off + (zlen s + 1)) ss ++ y). assert (off = zlen w) as Ew by (unfold w; rewrite !zlen_app; lia).
    replace (x ++ le_bytes 8 (base + off) ++ pointers base (off + (zlen s + 1)) ss ++ y ++ texts (s :: ss) ++ z) with (w ++ s ++ 0 :: (texts ss ++ z))
      by (unfold w; rewrite texts_cons, <- !app_assoc; done). rewrite Ew. by apply text_found.
  - cbn [pointers] in *. set (p0 := le_bytes 8 (u64 (base + off))) in *. assert (zlen p0 = 8) as E8 by done.
    replace (x ++ (p0 ++ pointers base (off + (zlen s0 + 1)) ss) ++ y ++ texts (s0 :: ss) ++ z) with ((x ++ p0) ++ pointers base (off + (zlen s0 + 1)) ss ++ (y ++ s0 ++ [0]) ++ texts ss ++ z) in *
      by (rewrite texts_cons, <- !app_assoc; done).
    replace (base + zlen x + 8 * Z.of_nat (S i)) with (base + zlen (x ++ p0) + 8 * Z.of_nat i) by (rewrite zlen_app; lia). apply IH; [done|done|done| |done].
    rewrite !zlen_app in *. change (zlen [0]) with 1. lia.
Qed.

Lemma args_found code m base args ss r entry : is_argv args ss -> 32 <= zlen code -> caller_size ss <= zlen m -> 0 <= base -> base + zlen m < 2 ^ 64 ->
  exists m' r', setup_entry_caller code m base args = Ok m' /\ start_registers r entry base args = Ok r' /\ rax r' = entry /\ rdi r' = zlen ss /\
    program_args m' base r' = Some <$> ss /\ word_at m' base (rsi r' + 8 * rdi r') = 0 /\
    take 32 m' = take 32 code /\ zlen m' = zlen m /\ drop (Z.to_nat (caller_size ss)) m' = drop (Z.to_nat (caller_size ss)) m.
Proof.
  intros Ha Hc Hm Hb Hlt. destruct (argv_sizes args ss Ha) as (En & Hss & Hn). rewrite (setup_image code m base args ss) by first [done|unfold caller_size in Hm; pose proof (zlen_nonneg (texts ss)); pose proof (zlen_nonneg ss); lia]. destruct (Z.leb_spec (caller_size ss) (zlen m)); [|lia]. set (off := 32 + 8 * (zlen ss + 1)).
  set (m' := take 32 code ++ _). unfold start_registers. rewrite En. cbn [mbind res_bind]. pose proof (zlen_nonneg ss). pose proof (zlen_nonneg (texts ss)). unfold caller_size in *.
  set (r' := init_entry_caller r entry base (zlen ss + 1)).
  assert (zlen (take 32 code) = 32) as EA by (unfold zlen in *; rewrite length_take; lia). 
  assert (rdi r' = zlen ss) as Ec by (cbn; replace (zlen ss + 1 - 1) with (zlen ss) by lia; by rewrite s32_small, u64_small by lia).
  assert (rsi r' = base + 32) as Ep by (cbn; by rewrite u64_small by lia).
  exists m', r'. split; [done|]. split; [done|]. split; [done|]. split; [done|].
  set (rest := drop _ m) in m'. assert (zlen rest = zlen m - (32 + 8 * (zlen ss + 1) + zlen (texts ss))) as Er by (unfold rest, zlen in *; rewrite length_drop; lia).
  assert (zlen m' = zlen m) as Em by (unfold m'; rewrite !zlen_app, zlen_pointers, EA, Er; lia). split_and!.
  - apply list_eq. intros i. unfold program_args. rewrite Ec, Ep, !list_lookup_fmap. destruct (decide (i < length ss)%nat) as [Hi|Hi].
    + rewrite lookup_seqZ_lt by (unfold zlen; lia). cbn [fmap option_fmap option_map]. destruct (lookup_lt_is_Some_2 ss i Hi) as [s Es]. rewrite Es. cbn [fmap option_fmap option_map]. f_equal.
      rewrite Z.add_0_l, <- EA. unfold m'. apply (argument_found base ss (take 32 code) [] rest i s off); [done|done|done|rewrite app_nil_r, zlen_app, zlen_pointers, EA; done|].
      change ([] ++ texts ss ++ rest) with (texts ss ++ rest). fold m'. lia.
    + rewrite lookup_seqZ_ge by (unfold zlen; lia). rewrite lookup_ge_None_2 by lia. done.
  - assert (exists x, pointers base off ss = x ++ le_bytes 8 0 /\ zlen x = 8 * zlen ss) as (x & Ex & Hx).
    { clear. generalize off. induction ss as [|s ss IH]; intros o; [by exists []|]. destruct (IH (o + (zlen s + 1))) as (x & Ex & Hx). exists (le_bytes 8 (u64 (base + o)) ++ x). cbn [pointers]. rewrite Ex, <- app_assoc. split; [done|].
      rewrite zlen_app, zlen_cons, Hx. assert (zlen (le_bytes 8 (u64 (base + o))) = 8) as -> by done. lia. }
    rewrite Ec, Ep. unfold m'. rewrite Ex. replace (base + 32 + 8 * zlen ss) with (base + zlen (take 32 code ++ x)) by (rewrite zlen_app; lia). rewrite <- !app_assoc, (app_assoc (take 32 code)). by apply word_found.
  - unfold m'. apply take_app_length'. unfold zlen in EA. lia.
  - done.
  - unfold m'. rewrite !app_assoc. apply drop_app_length'. rewrite !length_app. pose proof (zlen_pointers base ss off). unfold zlen in *. lia.
Qed.

(** A program finds its arguments: it starts with the number of them in [rdi] and the address of
    the array in [rsi], every pointer of the array leads to the text of its argument, the array
    ends with a NULL, and the code in front is the caller's.  Nothing behind it is touched. *)
Theorem program_finds_args code m base args ss r entry : is_argv args ss -> 32 <= zlen code -> caller_size ss <= zlen m -> 0 <= base -> base + zlen m < 2 ^ 64 ->
  exists m' r', setup_entry_caller code m base args = Ok m' /\ start_registers r entry base args = Ok r' /\ rax r' = entry /\ rdi r' = zlen ss /\
    program_args m' base r' = Some <$> ss /\ word_at m' base (rsi r' + 8 * rdi r') = 0 /\
    take 32 m' = take 32 code /\ zlen m' = zlen m /\ drop (Z.to_nat (caller_size ss)) m' = drop (Z.to_nat (caller_size ss)) m.
Proof. apply args_found. Qed.

(** [ls -l /boot], in an array of two addresses more than it needs text for. *)
Definition demo_args : list (option (list Z)) := [Some [108; 115; 0]; Some [45; 108; 0; 9]; Some [47; 98; 111; 111; 116; 0]; None].
Definition demo_texts : list (list Z) := [[108; 115]; [45; 108]; [47; 98; 111; 111; 116]].
Lemma demo_argv : is_argv demo_args demo_texts.
Proof.
  exists [[108; 115; 0]; [45; 108; 0; 9]; [47; 98; 111; 111; 116; 0]]. split; [done|]. split; [|done].
  repeat constructor; unfold nonul; try (by repeat constructor); [by exists []|by exists [9]|by exists []].
Defined.

Lemma program_finds_args_witness : exists m' r',
  setup_entry_caller (repeat 144 40) (repeat 7 100) 8192 demo_args = Ok m' /\ start_registers (mk_regs 0 0 0 0 0 0 0) 4194304 8192 demo_args = Ok r' /\
  program_args m' 8192 r' = Some <$> demo_texts /\ drop 76 m' = repeat 7 24.
Proof.
  destruct (program_finds_args (repeat 144 40) (repeat 7 100) 8192 demo_args demo_texts (mk_regs 0 0 0 0 0 0 0) 4194304) as (m' & r' & E1 & E2 & _ & _ & E3 & _ & _ & _ & E4);
    [exact demo_argv|done..|]. exists m', r'. split; [exact E1|]. split; [exact E2|]. split; [exact E3|exact E4].
Defined.

(** ** The room for the arguments *)

Lemma memlen_ok ss : forall l x len, Forall2 leads_to l ss -> 0 <= len -> len + 2 ^ 21 * zlen ss < 2 ^ 31 ->
  memlen_loop (Some x :: (Some <$> l) ++ [None]) len = Ok (len + (8 * zlen ss + zlen (texts ss))).
Proof.
  induction ss as [|s ss IH]; intros l x len Hl Hn Hb.
  - apply Forall2_nil_inv_r in Hl as ->. cbn [fmap list_fmap app memlen_loop texts mbind list_bind]. change (zlen (@nil Z)) with 0. change (zlen (@nil (list Z))) with 0. f_equal. lia.
  - apply Forall2_cons_inv_r in Hl as (a & l' & (Hs & Hsl & r & ->) & Hl & ->). rewrite zlen_cons in Hb |- *. pose proof (zlen_nonneg s). pose proof (zlen_nonneg ss).
    change (memlen_loop (Some x :: (Some <$> (s ++ 0 :: r) :: l') ++ [None]) len) with
      (n ← strlen (s ++ 0 :: r); memlen_loop (Some (s ++ 0 :: r) :: (Some <$> l') ++ [None]) (s32 (len + (n + 1 + 8)))).
    rewrite strlen_cstr by done. cbn [mbind res_bind]. rewrite s32_small by lia. rewrite IH by first [done|lia]. rewrite texts_cons, !zlen_app. change (zlen [0]) with 1. f_equal. lia.
Qed.

Lemma texts_short ss : forall l, Forall2 leads_to l ss -> zlen (texts ss) <= 2 ^ 20 * zlen ss.
Proof.
  induction ss as [|s ss IH]; intros l Hl; [done|]. apply Forall2_cons_inv_r in Hl as (a & l' & (_ & Hs & _) & Hl & _). specialize (IH l' Hl).
  rewrite texts_cons, zlen_cons, !zlen_app. change (zlen [0]) with 1. lia.
Qed.

Lemma memlen_argv args s ss : is_argv args (s :: ss) -> args_memlen args = Ok (8 * zlen ss + zlen (texts ss)) /\ 8 * zlen ss + zlen (texts ss) < 2 ^ 31.
Proof.
  intros (l & -> & Hl & Hlt). apply Forall2_cons_inv_r in Hl as (a & l' & Ha & Hl & ->). rewrite zlen_cons in Hlt. pose proof (zlen_nonneg ss).
  split; [apply (memlen_ok ss l' a 0); [done|lia|lia]|]. pose proof (texts_short ss l' Hl). lia.
Qed.

(** The pages [elf_load] maps for the code and the arguments. *)
Definition caller_pages (args : list (option (list Z))) : res Z := n ← args_memlen args; Ok (kptopg (u64 (CPU_ENTRY_CALLER_SIZE + u64 n))).

Lemma one_page args ss : is_argv args ss -> caller_size ss <= PAGE_SIZE -> caller_pages args = Ok 1.
Proof.
  intros Ha Hs. unfold caller_pages, PAGE_SIZE in *. destruct ss as [|s ss].
  - destruct Ha as (l & -> & Hl & _). apply Forall2_nil_inv_r in Hl as ->. done.
  - destruct (memlen_argv args s ss Ha) as [-> Hn]. unfold caller_size in Hs. rewrite texts_cons, zlen_cons, !zlen_app in Hs. change (zlen [0]) with 1 in Hs.
    pose proof (zlen_nonneg s). pose proof (zlen_nonneg ss). pose proof (zlen_nonneg (texts ss)). cbn [mbind res_bind]. unfold CPU_ENTRY_CALLER_SIZE. rewrite (u64_small (8 * zlen ss + zlen (texts ss))), u64_small by lia.
    pose proof (kptopg_bounds (32 + (8 * zlen ss + zlen (texts ss))) ltac:(lia)) as Hk. unfold PAGE_SIZE in Hk. f_equal. lia.
Qed.

(** C31: The pages for the arguments are counted without the first argument's text, its pointer and
    the NULL pointer.  With one argument or more, the writing behind them leaves the pages exactly
    if what is missing, [17] bytes and the first text, is more than the last page has left. *)
Theorem entry_caller_overflows code base args s ss m : is_argv args (s :: ss) -> 32 <= zlen code ->
  exists k, caller_pages args = Ok k /\ caller_size (s :: ss) = 32 + (8 * zlen ss + zlen (texts ss)) + 17 + zlen s /\ 0 < k /\
    (k - 1) * PAGE_SIZE < 32 + (8 * zlen ss + zlen (texts ss)) <= k * PAGE_SIZE /\
    (zlen m = k * PAGE_SIZE -> (caller_size (s :: ss) <= k * PAGE_SIZE -> exists m', setup_entry_caller code m base args = Ok m') /\
      (k * PAGE_SIZE < caller_size (s :: ss) -> setup_entry_caller code m base args = Fault)).
Proof.
  intros Ha Hc. pose proof (zlen_nonneg (texts ss)). pose proof (zlen_nonneg ss). set (n := 8 * zlen ss + zlen (texts ss)).
  destruct (memlen_argv args s ss Ha) as [En Hn]. fold n in En, Hn.
  unfold caller_pages. rewrite En. cbn [mbind res_bind]. rewrite (u64_small n) by lia. unfold CPU_ENTRY_CALLER_SIZE. rewrite u64_small by lia. exists (kptopg (32 + n)).
  assert ((kptopg (32 + n) - 1) * PAGE_SIZE < 32 + n <= kptopg (32 + n) * PAGE_SIZE) as Hk.
  { apply kptopg_bounds. lia. }
  split; [done|]. split; [unfold caller_size; rewrite texts_cons, zlen_cons, !zlen_app; change (zlen [0]) with 1; unfold n; lia|]. split; [unfold PAGE_SIZE in *; lia|]. split; [done|].
  intros Em. rewrite (setup_image code m base args (s :: ss)) by first [done|lia]. rewrite Em. destruct (Z.leb_spec (caller_size (s :: ss)) (kptopg (32 + n) * PAGE_SIZE)); split; intros ?; (lia || eauto || done).
Qed.

(** A program of which the name is long and the arguments fill the page just. *)
Definition long_args : list (option (list Z)) := [Some [47; 97; 0]; Some (repeat 120 4040 ++ [0]); None].

Lemma entry_caller_overflows_witness : caller_pages long_args = Ok 1 /\ setup_entry_caller (repeat 144 32) (repeat 7 4096) 8192 long_args = Fault.
Proof.
  destruct (entry_caller_overflows (repeat 144 32) 8192 long_args [47; 97] [repeat 120 4040] (repeat 7 4096)) as (k & E & Hs & _ & _ & Hm).
  - exists [[47; 97; 0]; repeat 120 4040 ++ [0]]. split; [done|]. split; [|done]. constructor; [|constructor; [|constructor]].
    + split; [by repeat constructor|]. split; [done|]. by exists [].
    + split; [apply Forall_forall; intros x Hx; apply list_elem_of_In, repeat_spec in Hx; lia|]. split; [done|]. by exists [].
  - done.
  - assert (caller_pages long_args = Ok 1) as E1 by (vm_compute; reflexivity). rewrite E1 in E. injection E as <-. split; [exact E1|]. apply Hm; vm_compute; reflexivity.
Defined.
