(* ===== verification/Task.v ===== *)
(** * Threads, spinlocks, wait queues and the scheduler: kernel/spinlock.c, proc/tqueue.c,
    kernel/event.c and the thread half of proc/task.c

    The state of one CPU: the thread array, the CPU-local record, the spinlocks that are held
    (a lock is named by an address) and how often [task_reshed] was entered.  A spinlock that
    is already held can only be held by this CPU, so acquiring it spins into the panic.
    Stacks and saved registers are left out; of [kpalloc], which is to give the stacks, there are
    only the two locks it takes and never gives back, which is all it does. *)
From S2P Require Import Prelude.

(** ** Data *)
Inductive thread_status := CREATED | RUNNABLE | SLEEPING | BLOCKED | DEAD.
#[global] Instance thread_status_eq_dec : EqDecision thread_status.
Proof. solve_decision. Defined.

Record thread := mk_thread {
  tprocess : Z;
  status : thread_status;
  kernelmode : bool;
  resume_after : Z;
  abort_ : bool;
  running : bool;
  busy : Z;
}.

Record cpu_local := mk_cpu {
  current_pid : Z;
  current_tid : Z;
  last_tid : Z;
  reshed_block : Z;
  should_reshed : bool;
}.

Record tstate := mk_tstate {
  threads : list (option thread);
  thread_count : Z;
  cpu : cpu_local;
  held_locks : gset Z;
  sheduler_ready : bool;
  resheds : nat;
}.

Definition set_status (t : thread) (s : thread_status) : thread :=
  mk_thread (tprocess t) s (kernelmode t) (resume_after t) (abort_ t) (running t) (busy t).
Definition set_abort (t : thread) (b : bool) : thread :=
  mk_thread (tprocess t) (status t) (kernelmode t) (resume_after t) b (running t) (busy t).
Definition set_running (t : thread) (b : bool) : thread :=
  mk_thread (tprocess t) (status t) (kernelmode t) (resume_after t) (abort_ t) b (busy t).
Definition set_busy (t : thread) (n : Z) : thread :=
  mk_thread (tprocess t) (status t) (kernelmode t) (resume_after t) (abort_ t) (running t) n.
Definition set_sleep (t : thread) (ms : Z) : thread :=
  mk_thread (tprocess t) SLEEPING (kernelmode t) ms (abort_ t) (running t) (busy t).

Definition set_threads (st : tstate) (ts : list (option thread)) : tstate :=
  mk_tstate ts (thread_count st) (cpu st) (held_locks st) (sheduler_ready st) (resheds st).
Definition set_cpu (st : tstate) (c : cpu_local) : tstate :=
  mk_tstate (threads st) (thread_count st) c (held_locks st) (sheduler_ready st) (resheds st).
Definition set_locks (st : tstate) (l : gset Z) : tstate :=
  mk_tstate (threads st) (thread_count st) (cpu st) l (sheduler_ready st) (resheds st).
Definition set_block (c : cpu_local) (n : Z) : cpu_local :=
  mk_cpu (current_pid c) (current_tid c) (last_tid c) n (should_reshed c).
Definition set_should (c : cpu_local) (b : bool) : cpu_local :=
  mk_cpu (current_pid c) (current_tid c) (last_tid c) (reshed_block c) b.

(** ** Preemption and spinlocks *)

Definition task_reshed (st : tstate) : tstate :=
  mk_tstate (threads st) (thread_count st) (cpu st) (held_locks st) (sheduler_ready st) (S (resheds st)).

Definition task_tcan_yield (st : tstate) : bool := reshed_block (cpu st) =? 0.

Definition task_tyield (st : tstate) : res tstate :=
  if reshed_block (cpu st) >? 0 then Panic "task_tyield() while scheduling is disabled"
  else Ok (task_reshed st).

Definition task_ttry_yield (st : tstate) : tstate * bool :=
  if negb (task_tcan_yield st) then (st, false) else (task_reshed st, true).

Definition task_reshed_disable (st : tstate) : tstate :=
  if negb (sheduler_ready st) then st
  else set_cpu st (set_block (cpu st) (reshed_block (cpu st) + 1)).

Definition task_reshed_enable (st : tstate) : res tstate :=
  if negb (sheduler_ready st) then Ok st
  else
    let b := reshed_block (cpu st) - 1 in
    let st := set_cpu st (set_block (cpu st) b) in
    if should_reshed (cpu st) && (b =? 0) then task_tyield st else Ok st.

Definition spinlock_acquire (l : Z) (st : tstate) : res tstate :=
  let st := task_reshed_disable st in
  if bool_decide (l ∈ held_locks st) then Panic "spinlock_acquire stuck for too long"
  else Ok (set_locks st ({[l]} ∪ held_locks st)).

Definition spinlock_release (l : Z) (st : tstate) : res tstate :=
  task_reshed_enable (set_locks st (held_locks st ∖ {[l]})).

Definition spinlock_try (l : Z) (st : tstate) : res (tstate * bool) :=
  let st := task_reshed_disable st in
  if bool_decide (l ∈ held_locks st) then st ← task_reshed_enable st; Ok (st, false)
  else Ok (set_locks st ({[l]} ∪ held_locks st), true).

Definition spinlock_wait (l : Z) (st : tstate) : res tstate :=
  if bool_decide (l ∈ held_locks st) then Panic "spinlock_wait stuck for too long" else Ok st.

(** ** The thread array *)

(** [threads[tid]] below zero is outside the array. *)
Definition thread_get (ts : list (option thread)) (tid : Z) : res (option thread) :=
  if tid >=? zlen ts then Ok None else load ts tid.

Fixpoint first_free (ts : list (option thread)) (tid : Z) : option Z :=
  match ts with
  | [] => None
  | None :: _ => Some tid
  | Some _ :: ts' => first_free ts' (tid + 1)
  end.

Definition thread_add (ts : list (option thread)) (t : thread) : list (option thread) * Z :=
  match first_free ts 0 with
  | Some tid => (<[Z.to_nat tid := Some t]> ts, tid)
  | None => (ts ++ [Some t], zlen ts)
  end.

Definition thread_remove (ts : list (option thread)) (tid : Z) : res (list (option thread)) :=
  if tid >=? zlen ts then Ok ts else store ts tid None.

(** [__sync_bool_compare_and_swap(&thread->running, false, true)] *)
Definition thread_try_take (t : thread) : thread * bool :=
  if running t then (t, false) else (set_running t true, true).
Definition thread_release (t : thread) : thread := if running t then set_running t false else t.

(** ** Operations on one thread, each under [sheduler_lock] *)

Definition SHEDULER_LOCK : Z := 0.

(** Look the thread up and change it; [None] when there is none. *)
Definition with_thread {A} (st : tstate) (tid : Z) (f : thread -> thread * A) : res (tstate * option A) :=
  st ← spinlock_acquire SHEDULER_LOCK st;
  o ← thread_get (threads st) tid;
  match o with
  | None => st ← spinlock_release SHEDULER_LOCK st; Ok (st, None)
  | Some t =>
      let '(t', a) := f t in
      ts ← store (threads st) tid (Some t');
      st ← spinlock_release SHEDULER_LOCK (set_threads st ts);
      Ok (st, Some a)
  end.

Definition task_tstart (st : tstate) (tid : Z) : res tstate :=
  '(st, _) ← with_thread st tid (fun t => (set_status t RUNNABLE, tt)); Ok st.

Definition _task_prepare_tkill (st : tstate) (tid : Z) : res tstate :=
  '(st, _) ← with_thread st tid (fun t =>
    let t := set_abort t true in
    (if bool_decide (status t = DEAD) then t else set_status t RUNNABLE, tt));
  Ok st.

Definition task_tset_status (st : tstate) (tid : Z) (s : thread_status) : res tstate :=
  '(st, _) ← with_thread st tid (fun t => (set_status t s, tt)); Ok st.

Definition task_tget_status (st : tstate) (tid : Z) : res (tstate * thread_status) :=
  '(st, r) ← with_thread st tid (fun t => (t, status t)); Ok (st, default DEAD r).

Definition task_tshould_exit (st : tstate) (tid : Z) : res (tstate * bool) :=
  '(st, r) ← with_thread st tid (fun t => (t, abort_ t)); Ok (st, default true r).

Definition task_tuse (st : tstate) (tid : Z) : res (tstate * bool) :=
  '(st, r) ← with_thread st tid (fun t => (set_busy t (busy t + 1), true)); Ok (st, default false r).

Definition task_trelease (st : tstate) (tid : Z) : res tstate :=
  '(st, r) ← with_thread st tid (fun t => (set_busy t (busy t - 1), (busy t - 1, abort_ t)));
  match r with
  | None => Ok st
  | Some (n, ab) =>
      if (current_tid (cpu st) =? tid) && ab && (n =? 0)
      then st ← task_tset_status st (current_tid (cpu st)) BLOCKED; task_tyield st
      else Ok st
  end.

Definition task_tprocessof (st : tstate) (tid : Z) : res (tstate * Z) :=
  '(st, r) ← with_thread st tid (fun t => (t, tprocess t)); Ok (st, default (- rc EINVAL) r).

(** [now] is [time_get_ms_passed()]. *)
Definition task_tsleep (st : tstate) (now delay : Z) : res tstate :=
  '(st, r) ← with_thread st (current_tid (cpu st)) (fun t => (set_sleep t (u64 (now + delay)), tt));
  match r with None => Ok st | Some _ => Ok (task_reshed st) end.

(** The lock of the map of the kernel and [sptr_aim_spinlock], arch/x64/page.c. *)
Definition KERNEL_PMAP_LOCK : Z := -1.
Definition SPTR_AIM_LOCK : Z := -2.
Definition USR_STACK_SIZE : Z := 8192.
Definition KERNEL_STACK_SIZE : Z := 8192.
Definition stack_pages (size : Z) : Z := (size + 4095) / 4096.

(** [kpalloc] of page.c, all of it: the two locks are taken, and the body ends.  Nothing is mapped,
    nothing is released, and no value is returned: what the caller finds is whatever the register
    holds.  [proot] is the lock of the map. *)
Definition kpalloc (amount proot : Z) (st : tstate) : res tstate :=
  if amount =? 0 then Ok st
  else st ← spinlock_acquire proot st; spinlock_acquire SPTR_AIM_LOCK st.

(** The thread part of [task_tcreate]: the process has been found, and [map_lock] is the lock of its
    map. *)
Definition tcreate_thread (st : tstate) (pid map_lock : Z) (kmode : bool) : res (tstate * Z) :=
  st ← spinlock_acquire SHEDULER_LOCK st;
  st ← if kmode then Ok st else kpalloc (stack_pages KERNEL_STACK_SIZE) KERNEL_PMAP_LOCK st;
  st ← kpalloc (stack_pages USR_STACK_SIZE) map_lock st;
  let t := mk_thread pid CREATED kmode 0 false false 0 in
  let '(ts, tid) := thread_add (threads st) t in
  let st := mk_tstate ts (thread_count st + 1) (cpu st) (held_locks st) (sheduler_ready st) (resheds st) in
  st ← spinlock_release SHEDULER_LOCK st;
  Ok (st, tid).

(** ** The scheduler *)

(** [while ((thread = thread_get(tid)) == NULL && tid <= thread_count) tid++;] *)
Fixpoint skip_holes (fuel : nat) (ts : list (option thread)) (tid count : Z) : res (Z * option thread) :=
  o ← thread_get ts tid;
  match o with
  | Some t => Ok (tid, Some t)
  | None =>
      if tid <=? count then
        match fuel with O => OutOfFuel | S f => skip_holes f ts (tid + 1) count end
      else Ok (tid, None)
  end.

(** [ms] is the time; the results are the array, [selected_tid] and the thread [thread] points
    to, by its tid. *)
Fixpoint shed_loop (n : nat) (ts : list (option thread)) (tid sel : Z) (cur : option Z) (count ms : Z)
  : res (list (option thread) * Z * option Z) :=
  match n with
  | O => Ok (ts, sel, cur)
  | S n' =>
      '(tid, o) ← skip_holes (Z.to_nat (count + 1)) ts (tid + 1) count;
      let cur := match o with Some _ => Some tid | None => None end in
      if tid >? count then shed_loop n' ts 0 sel cur count ms
      else
        match o with
        | None => Fault
        | Some t =>
            let select (t : thread) :=
              let '(t', took) := thread_try_take t in
              ts' ← store ts tid (Some t');
              if (took : bool) then Ok (ts', tid, cur) else shed_loop n' ts' tid tid cur count ms in
            match status t with
            | RUNNABLE => select t
            | SLEEPING => if resume_after t >=? ms then shed_loop n' ts tid sel cur count ms
                          else select (set_status t RUNNABLE)
            | _ => shed_loop n' ts tid sel cur count ms
            end
        end
  end.

(** The idle thread of the CPU belongs to process 0. *)
Definition task_shed_choose (st : tstate) (ms : Z) : res tstate :=
  if reshed_block (cpu st) >? 0 then Ok (set_cpu st (set_should (cpu st) true))
  else
    '(st, ok) ← spinlock_try SHEDULER_LOCK st;
    match ok with
    | false => Ok st
    | true =>
        let st := set_cpu st (set_should (cpu st) false) in
        o ← thread_get (threads st) (current_tid (cpu st));
        ts ← match o with
             | Some t => store (threads st) (current_tid (cpu st)) (Some (thread_release t))
             | None => Ok (threads st)
             end;
        '(ts, sel, cur) ← shed_loop (Z.to_nat (thread_count st + 1)) ts (last_tid (cpu st)) 0 None (thread_count st) ms;
        pid ← (if sel =? 0 then Ok 0
               else
                 match cur with
                 | None => Fault
                 | Some c => o ← thread_get ts c; match o with Some t => Ok (tprocess t) | None => Fault end
                 end);
        let c := cpu st in
        let c' := mk_cpu pid sel (if sel =? 0 then last_tid c else sel) (reshed_block c) (should_reshed c) in
        spinlock_release SHEDULER_LOCK (set_cpu (set_threads st ts) c')
    end.

(** ** Wait queues and events *)

(** The queue is the list of its entries in [next] order; [last] is its last entry. *)
Record event := mk_event { ev_lock : Z; tq_lock : Z; ev_counter : Z; wait_queue : list Z }.

Definition set_queue (e : event) (q : list Z) : event := mk_event (ev_lock e) (tq_lock e) (ev_counter e) q.

Definition tqueue_add (st : tstate) (e : event) : res (tstate * event) :=
  st ← spinlock_acquire (tq_lock e) st;
  let e := set_queue e (wait_queue e ++ [current_tid (cpu st)]) in
  st ← task_tset_status st (current_tid (cpu st)) BLOCKED;
  st ← spinlock_release (tq_lock e) st;
  Ok (st, e).

Definition wake_thread (st : tstate) (tid : Z) : res tstate :=
  '(st, s) ← task_tget_status st tid;
  if bool_decide (s = BLOCKED) then task_tset_status st tid RUNNABLE else Ok st.

Definition tqueue_wakeup (st : tstate) (e : event) : res (tstate * event * bool) :=
  st ← spinlock_acquire (tq_lock e) st;
  match wait_queue e with
  | [] => st ← spinlock_release (tq_lock e) st; Ok (st, e, false)
  | tid :: q =>
      st ← wake_thread st tid;
      st ← spinlock_release (tq_lock e) st;
      Ok (st, set_queue e q, true)
  end.

Fixpoint wake_all (st : tstate) (q : list Z) (count : Z) : res (tstate * Z) :=
  match q with
  | [] => Ok (st, count)
  | tid :: q' => st ← wake_thread st tid; wake_all st q' (count + 1)
  end.

Definition tqueue_wakeup_all (st : tstate) (e : event) : res (tstate * event * Z) :=
  st ← spinlock_acquire (tq_lock e) st;
  '(st, count) ← wake_all st (wait_queue e) 0;
  st ← spinlock_release (tq_lock e) st;
  Ok (st, set_queue e [], count).

(** [event_wait] up to the point where another thread runs: [inl] is an early return. *)
Definition event_wait_begin (st : tstate) (e : event) : res (tstate * event * option Z) :=
  st ← spinlock_acquire (ev_lock e) st;
  '(st, ab) ← task_tshould_exit st (current_tid (cpu st));
  if (ab : bool) then st ← spinlock_release (ev_lock e) st; Ok (st, e, Some (-1))
  else
    '(st, e) ← tqueue_add st e;
    st ← spinlock_release (ev_lock e) st;
    if task_tcan_yield st then st ← task_tyield st; Ok (st, e, None) else Ok (st, e, None).

(** The rest, when the thread runs again. *)
Definition event_wait_end (st : tstate) (e : event) : res (tstate * Z) :=
  '(st, ab) ← task_tshould_exit st (current_tid (cpu st));
  if (ab : bool) then st ← spinlock_release (ev_lock e) st; Ok (st, -1) else Ok (st, 0).

Definition event_trigger (st : tstate) (e : event) : res (tstate * event) :=
  st ← spinlock_acquire (ev_lock e) st;
  '(st, e, _) ← tqueue_wakeup st e;
  st ← spinlock_release (ev_lock e) st;
  Ok (st, e).

Definition event_trigger_all (st : tstate) (e : event) : res (tstate * event) :=
  st ← spinlock_acquire (ev_lock e) st;
  '(st, e, _) ← tqueue_wakeup_all st e;
  st ← spinlock_release (ev_lock e) st;
  Ok (st, e).

Definition event_defunct (st : tstate) (e : event) : res (tstate * event) :=
  st ← spinlock_acquire (ev_lock e) st;
  '(st, e, _) ← tqueue_wakeup_all st e;
  let e := mk_event (ev_lock e) (tq_lock e) 134217727 (wait_queue e) in
  st ← spinlock_release (ev_lock e) st;
  Ok (st, e).

(** ** The scheduler is round robin *)

Definition can_run (t : thread) (ms : Z) : bool :=
  match status t with
  | RUNNABLE => true
  | SLEEPING => resume_after t <? ms
  | _ => false
  end.

Definition slot (ts : list (option thread)) (tid : Z) : option thread :=
  if 0 <=? tid then ts !! Z.to_nat tid ≫= id else None.

Definition eligible (ts : list (option thread)) (ms tid : Z) : bool :=
  match slot ts tid with Some t => can_run t ms | None => false end.

Lemma thread_get_slot ts tid : 0 <= tid -> thread_get ts tid = Ok (slot ts tid).
Proof.
  intros Ht. unfold thread_get, slot. rewrite Z.geb_leb. destruct (Z.leb_spec 0 tid); [|lia].
  destruct (Z.leb_spec (zlen ts) tid) as [Hle|Hlt].
  - by rewrite lookup_ge_None_2 by (unfold zlen in Hle; lia).
  - destruct (lookup_zlen ts tid) as [o Ho]; [lia|]. by rewrite (load_nat _ _ _ Ht Ho), Ho.
Qed.

Lemma slot_range ts tid t : slot ts tid = Some t -> 0 <= tid < zlen ts.
Proof.
  unfold slot. destruct (Z.leb_spec 0 tid); [|done]. destruct (ts !! Z.to_nat tid) eqn:E; [|done].
  apply lookup_lt_Some in E. unfold zlen. lia.
Qed.

Lemma eligible_range ts ms tid : eligible ts ms tid = true -> 0 <= tid < zlen ts.
Proof. unfold eligible. destruct (slot ts tid) eqn:E; [|done]. intros _. by eapply slot_range. Qed.

Lemma skip_holes_ok ts count : zlen ts <= count + 1 -> forall f tid,
  0 <= tid <= count + 1 -> count + 1 - tid <= Z.of_nat f ->
  exists tid' o, skip_holes f ts tid count = Ok (tid', o) /\ tid <= tid' <= count + 1 /\
    (forall j, tid <= j < tid' -> slot ts j = None) /\ slot ts tid' = o /\
    (o = None <-> tid' = count + 1).
Proof.
  intros Hl. induction f as [|f IH]; intros tid Ht Hf; cbn [skip_holes];
    rewrite thread_get_slot by lia; cbn [mbind res_bind].
  - assert (tid = count + 1) as -> by lia. destruct (slot ts (count + 1)) eqn:E; [apply slot_range in E; lia|].
    destruct (Z.leb_spec (count + 1) count); [lia|]. exists (count + 1), None. split_and!; try done; lia.
  - destruct (slot ts tid) as [t|] eqn:E.
    + exists tid, (Some t). split_and!; try done; try lia. apply slot_range in E. split; [done|lia].
    + destruct (Z.leb_spec tid count).
      * destruct (IH (tid + 1)) as (t' & o & -> & Hr & Hno & Hs & Hiff); [lia..|].
        exists t', o. split_and!; try done; try lia. intros j Hj.
        destruct (decide (j = tid)) as [->|]; [done|apply Hno; lia].
      * exists tid, None. split; [done|]. split; [lia|]. split; [intros j Hj; lia|]. split; [done|]. split; [lia|done].
Qed.

Lemma hole_not_eligible ts ms tid : slot ts tid = None -> eligible ts ms tid = false.
Proof. unfold eligible. by intros ->. Qed.

(** The array after a thread was picked. *)
Definition picked (ts : list (option thread)) (p : Z) (t : thread) : list (option thread) :=
  <[Z.to_nat p := Some (set_running (set_status t RUNNABLE) true)]> ts.

Definition quiet (ts : list (option thread)) : Prop :=
  forall tid t, slot ts tid = Some t -> running t = true -> status t = DEAD.

Section Shed.
Context (ts : list (option thread)) (count ms : Z).
Context (Hlen : zlen ts <= count + 1) (Hcount : 0 <= count) (Hquiet : quiet ts).

Lemma shed_loop_found p t : slot ts p = Some t -> can_run t ms = true -> p <= count ->
  forall n tid cur, 0 <= tid < p -> p - tid <= Z.of_nat n ->
  (forall j, tid < j < p -> eligible ts ms j = false) ->
  shed_loop n ts tid 0 cur count ms = Ok (picked ts p t, p, Some p).
Proof.
  intros Hp Hrun Hpc. induction n as [|n IH]; intros tid cur Ht Hn Hno; [lia|]. cbn [shed_loop].
  destruct (skip_holes_ok ts count Hlen (Z.to_nat (count + 1)) (tid + 1)) as (t' & o & -> & Hr & Hh & Hs & Hiff); [lia..|].
  cbn [mbind res_bind]. rewrite Z.gtb_ltb.
  assert (t' <= p) as Htp. { destruct (Z.le_gt_cases t' p); [done|]. rewrite (Hh p) in Hp by lia. done. }
  destruct (Z.ltb_spec count t'); [lia|]. destruct o as [th|]; [|assert (t' = count + 1) by (by apply Hiff); lia].
  destruct (decide (t' = p)) as [->|Hne].
  - assert (th = t) as -> by congruence. pose proof (slot_range _ _ _ Hp).
    assert (running t = false) as Hq.
    { destruct (running t) eqn:Er; [|done]. unfold can_run in Hrun. by rewrite (Hquiet _ _ Hp Er) in Hrun. }
    assert ((let '(t'0, took) := thread_try_take (set_status t RUNNABLE) in
      ts' ← store ts p (Some t'0); if took : bool then Ok (ts', p, Some p) else shed_loop n ts' p p (Some p) count ms)
      = Ok (picked ts p t, p, Some p)) as Hsel.
    { unfold thread_try_take. cbn [set_status running]. rewrite Hq, store_in_range by done. done. }
    unfold can_run in Hrun. destruct (status t) eqn:E; try done.
    + replace (set_status t RUNNABLE) with t in Hsel by (destruct t; unfold set_status; simpl in *; by subst).
      exact Hsel.
    + rewrite Z.geb_leb. destruct (Z.ltb_spec (resume_after t) ms); [|done].
      destruct (Z.leb_spec ms (resume_after t)); [lia|]. exact Hsel.
  - pose proof (Hno t' ltac:(lia)) as He. unfold eligible in He. rewrite Hs in He. unfold can_run in He.
    assert (shed_loop n ts t' 0 (Some t') count ms = Ok (picked ts p t, p, Some p)) as Hnext
      by (apply IH; [lia|lia|intros j Hj; apply Hno; lia]).
    destruct (status th); try done. rewrite Z.geb_leb.
    destruct (Z.ltb_spec (resume_after th) ms); [done|]. by destruct (Z.leb_spec ms (resume_after th)); [|lia].
Qed.

Lemma shed_loop_skip n tid sel cur t' th : slot ts t' = Some th -> eligible ts ms t' = false -> tid < t' <= count ->
  0 <= tid -> (forall j, tid < j < t' -> slot ts j = None) ->
  shed_loop (S n) ts tid sel cur count ms = shed_loop n ts t' sel (Some t') count ms.
Proof.
  intros Hs He Ht Htid Hh. cbn [shed_loop].
  destruct (skip_holes_ok ts count Hlen (Z.to_nat (count + 1)) (tid + 1)) as (t2 & o & -> & Hr & Hh2 & Hs2 & Hiff); [lia..|].
  assert (t2 = t') as ->.
  { destruct (Z.lt_trichotomy t2 t') as [Hlt|[->|Hlt]]; [|done|].
    - rewrite (Hh t2) in Hs2 by lia. subst o. assert (t2 = count + 1) by (by apply Hiff). lia.
    - rewrite (Hh2 t') in Hs by lia. done. }
  cbn [mbind res_bind]. rewrite Hs in Hs2. subst o. rewrite Z.gtb_ltb. destruct (Z.ltb_spec count t'); [lia|].
  unfold eligible in He. rewrite Hs in He. unfold can_run in He. destruct (status th); try done.
  rewrite Z.geb_leb. destruct (Z.ltb_spec (resume_after th) ms); [done|].
  by destruct (Z.leb_spec ms (resume_after th)); [|lia].
Qed.

Lemma shed_loop_wrap k : forall n tid cur, 0 <= tid <= count -> count - tid + 1 + k <= Z.of_nat n ->
  (forall j, tid < j <= count -> eligible ts ms j = false) -> 0 <= k ->
  exists n' cur', k <= Z.of_nat n' /\ shed_loop n ts tid 0 cur count ms = shed_loop n' ts 0 0 cur' count ms.
Proof.
  induction n as [|n IH]; intros tid cur Ht Hn Hno Hk; [lia|].
  destruct (skip_holes_ok ts count Hlen (Z.to_nat (count + 1)) (tid + 1)) as (t' & o & Hsk & Hr & Hh & Hs & Hiff); [lia..|].
  destruct o as [th|].
  - assert (t' <= count) by (apply slot_range in Hs; lia).
    rewrite (shed_loop_skip n tid 0 cur t' th); [|done|apply Hno; lia|lia|lia|intros; apply Hh; lia].
    apply IH; [lia|lia|intros j Hj; apply Hno; lia|done].
  - assert (t' = count + 1) as -> by (by apply Hiff). exists n, None. split; [lia|].
    cbn [shed_loop]. rewrite Hsk. cbn [mbind res_bind]. rewrite Z.gtb_ltb.
    by destruct (Z.ltb_spec count (count + 1)); [|lia].
Qed.

Lemma shed_loop_none : (forall j, 1 <= j <= count -> eligible ts ms j = false) ->
  forall n tid cur, 0 <= tid <= count ->
  exists cur', shed_loop n ts tid 0 cur count ms = Ok (ts, 0, cur').
Proof.
  intros Hno. induction n as [|n IH]; intros tid cur Ht; [by exists cur|].
  destruct (skip_holes_ok ts count Hlen (Z.to_nat (count + 1)) (tid + 1)) as (t' & o & Hsk & Hr & Hh & Hs & Hiff); [lia..|].
  destruct o as [th|].
  - assert (t' <= count) by (apply slot_range in Hs; lia).
    rewrite (shed_loop_skip n tid 0 cur t' th); [|done|apply Hno; lia|lia|lia|intros; apply Hh; lia].
    apply IH. lia.
  - assert (t' = count + 1) as -> by (by apply Hiff). cbn [shed_loop]. rewrite Hsk. cbn [mbind res_bind].
    rewrite Z.gtb_ltb. destruct (Z.ltb_spec count (count + 1)); [|lia]. apply IH. lia.
Qed.
End Shed.

Lemma slot_insert ts i x j : 0 <= i < zlen ts ->
  slot (<[Z.to_nat i := Some x]> ts) j = if decide (j = i) then Some x else slot ts j.
Proof.
  intros Hi. unfold slot, zlen in *. destruct (Z.leb_spec 0 j); [|case_decide; [lia|done]].
  case_decide as Hd; [subst; by rewrite list_lookup_insert_eq by lia|].
  by rewrite list_lookup_insert_ne by lia.
Qed.

(** Between two runs of the scheduler only the current thread of this CPU is marked running, and
    dead threads that were taken so that they can be removed. *)
Definition sched_ok (st : tstate) : Prop :=
  0 <= last_tid (cpu st) <= thread_count st /\ zlen (threads st) <= thread_count st + 1 /\
  0 <= current_tid (cpu st) /\ reshed_block (cpu st) = 0 /\ (SHEDULER_LOCK ∉ held_locks st) /\
  (forall tid t, slot (threads st) tid = Some t -> running t = true -> tid = current_tid (cpu st) \/ status t = DEAD).

(** [thread_release] of the outgoing thread. *)
Definition released (ts : list (option thread)) (tid : Z) : list (option thread) :=
  match slot ts tid with Some t => <[Z.to_nat tid := Some (thread_release t)]> ts | None => ts end.

Lemma can_run_release t ms : can_run (thread_release t) ms = can_run t ms.
Proof. unfold thread_release. by destruct (running t). Qed.

Lemma released_slot ts tid j :
  slot (released ts tid) j = if decide (j = tid) then (thread_release <$> slot ts j) else slot ts j.
Proof.
  unfold released. destruct (slot ts tid) as [t|] eqn:E.
  - rewrite slot_insert by (by eapply slot_range). case_decide; [subst; by rewrite E|done].
  - case_decide; [subst; by rewrite E|done].
Qed.

Lemma released_eligible ts tid ms j : eligible (released ts tid) ms j = eligible ts ms j.
Proof.
  unfold eligible. rewrite released_slot. case_decide; [|done].
  destruct (slot ts j); [|done]. simpl. apply can_run_release.
Qed.

Lemma zlen_released ts tid : zlen (released ts tid) = zlen ts.
Proof. unfold released. destruct (slot ts tid); [apply zlen_insert|done]. Qed.

Lemma released_quiet st : sched_ok st -> quiet (released (threads st) (current_tid (cpu st))).
Proof.
  intros (_ & _ & _ & _ & _ & Hrun) tid t. rewrite released_slot. case_decide as Hd.
  - destruct (slot (threads st) tid) as [t0|]; simpl; [|done]. intros [= <-] Hr. unfold thread_release in Hr.
    destruct (running t0) eqn:E; [done|congruence].
  - intros Hs Hr. by destruct (Hrun tid t Hs Hr).
Qed.

(** Everything but the choice itself: the lock is taken and given back and the counters are as
    they were. *)
Lemma shed_choose_frame st ms ts sel cur pid : sched_ok st ->
  shed_loop (Z.to_nat (thread_count st + 1)) (released (threads st) (current_tid (cpu st)))
    (last_tid (cpu st)) 0 None (thread_count st) ms = Ok (ts, sel, cur) ->
  (if sel =? 0 then pid = 0 else exists c t, cur = Some c /\ 0 <= c /\ slot ts c = Some t /\ pid = tprocess t) ->
  exists st', task_shed_choose st ms = Ok st' /\ threads st' = ts /\ thread_count st' = thread_count st /\
    cpu st' = mk_cpu pid sel (if sel =? 0 then last_tid (cpu st) else sel) 0 false /\
    held_locks st' = held_locks st /\ resheds st' = resheds st.
Proof.
  intros (Hl & Hz & Hc & Hb & Hlk & Hrun) Hloop Hpid. unfold task_shed_choose. rewrite Hb. change (0 >? 0) with false.
  set (b := if sheduler_ready st then 1 else 0).
  assert (task_reshed_disable st = set_cpu st (set_block (cpu st) b)) as Hdis.
  { unfold task_reshed_disable, b. destruct (sheduler_ready st); simpl; [by rewrite Hb|].
    destruct st as [a1 a2 c a4 a5 a6], c; simpl in *. by subst. }
  unfold spinlock_try. rewrite Hdis. cbn [held_locks set_cpu].
  rewrite bool_decide_eq_false_2 by done. cbn [mbind res_bind].
  cbn [set_locks set_cpu cpu threads set_should set_block current_tid last_tid thread_count].
  rewrite thread_get_slot by done. cbn [mbind res_bind].
  assert (match slot (threads st) (current_tid (cpu st)) with
    | Some t => store (threads st) (current_tid (cpu st)) (Some (thread_release t))
    | None => Ok (threads st) end = Ok (released (threads st) (current_tid (cpu st)))) as ->.
  { unfold released. destruct (slot _ _) eqn:E; [|done]. by rewrite store_in_range by (by eapply slot_range). }
  cbn [mbind res_bind]. rewrite Hloop. cbn [mbind res_bind].
  assert ((if sel =? 0 then Ok 0 else match cur with None => Fault
     | Some c => o ← thread_get ts c; match o with Some t => Ok (tprocess t) | None => Fault end end) = Ok pid) as ->.
  { destruct (sel =? 0); [by subst|]. destruct Hpid as (c & t & -> & Hc0 & Hs & ->).
    rewrite thread_get_slot by done. cbn [mbind res_bind]. by rewrite Hs. }
  cbn [mbind res_bind]. unfold spinlock_release, task_reshed_enable, set_locks, set_cpu, set_threads.
  cbn [sheduler_ready cpu held_locks reshed_block should_reshed set_block current_pid current_tid last_tid].
  unfold b. assert ((({[SHEDULER_LOCK]} ∪ held_locks st) ∖ {[SHEDULER_LOCK]}) = held_locks st) as ->
    by (apply set_eq; intros x; rewrite elem_of_difference, elem_of_union, elem_of_singleton; split; [tauto|intros Hx; split; [by right|congruence]]).
  destruct (sheduler_ready st); simpl; eexists; split_and!; done.
Qed.

(** Cyclic distance behind the last thread that ran. *)
Definition turn (count last t : Z) : Z := (t - last - 1) mod count.

Lemma turn_cases count last t : 0 <= last <= count -> 1 <= t <= count ->
  turn count last t = if last <? t then t - last - 1 else t - last - 1 + count.
Proof.
  intros Hl Ht. unfold turn. destruct (Z.ltb_spec last t).
  - apply Z.mod_small. lia.
  - symmetry. apply (Z.mod_unique _ _ (-1)); [lia|lia].
Qed.

(** The least index with a property, in a range. *)
Lemma least_in (P : Z -> bool) lo hi : (forall j, lo < j <= hi -> P j = false) \/
  exists p, lo < p <= hi /\ P p = true /\ forall j, lo < j < p -> P j = false.
Proof.
  destruct (Z.le_gt_cases hi lo) as [Hle|Hgt]; [left; lia|].
  remember (Z.to_nat (hi - lo)) as n eqn:Hn. revert lo Hgt Hn.
  induction n as [|n IH]; intros lo Hgt Hn; [lia|].
  destruct (P (lo + 1)) eqn:E; [right; exists (lo + 1); split_and!; [lia..|done|lia]|].
  destruct (decide (lo + 1 = hi)) as [<-|Hne].
  { left. intros j Hj. assert (j = lo + 1) as -> by lia. done. }
  destruct (IH (lo + 1) ltac:(lia) ltac:(lia)) as [Hno|(p & Hp & HP & Hno)].
  - left. intros j Hj. destruct (decide (j = lo + 1)) as [->|]; [done|apply Hno; lia].
  - right. exists p. split_and!; [lia..|done|]. intros j Hj. destruct (decide (j = lo + 1)) as [->|]; [done|apply Hno; lia].
Qed.

Definition chosen (st st' : tstate) (ms p : Z) : Prop :=
  exists t, slot (threads st) p = Some t /\ can_run t ms = true /\ 1 <= p <= thread_count st /\
    current_pid (cpu st') = tprocess t /\ last_tid (cpu st') = p /\
    (exists t', slot (threads st') p = Some t' /\ running t' = true /\ status t' = RUNNABLE) /\
    forall j, 1 <= j <= thread_count st -> eligible (threads st) ms j = true ->
      turn (thread_count st) (last_tid (cpu st)) p <= turn (thread_count st) (last_tid (cpu st)) j.

(** Running the scheduler takes nobody's turn away. *)
Definition keeps_eligible (st st' : tstate) (ms : Z) : Prop :=
  forall j, eligible (threads st) ms j = true -> eligible (threads st') ms j = true.

Lemma sched_ok_after st st' p (pid : Z) ts : sched_ok st -> quiet ts -> zlen ts <= thread_count st + 1 ->
  thread_count st' = thread_count st -> held_locks st' = held_locks st ->
  cpu st' = mk_cpu pid p (if p =? 0 then last_tid (cpu st) else p) 0 false -> 0 <= p <= thread_count st ->
  (forall j t, slot (threads st') j = Some t -> running t = true -> j = p \/ slot ts j = Some t) ->
  zlen (threads st') = zlen ts -> sched_ok st'.
Proof.
  intros (Hl & _ & _ & _ & Hlk & _) Hq Hz Hct Hhl Hcpu Hp Hrun Hzl. unfold sched_ok. rewrite Hcpu, Hct, Hhl, Hzl.
  cbn [last_tid current_tid reshed_block]. split_and!; try done; try lia.
  - by destruct (p =? 0); lia.
  - by destruct (p =? 0); lia.
  - intros j t Hs Hr. destruct (Hrun j t Hs Hr) as [->|Hs']; [by left|]. right. by apply (Hq j).
Qed.

Lemma picked_slot ts p t j : slot ts p = Some t ->
  slot (picked ts p t) j = if decide (j = p) then Some (set_running (set_status t RUNNABLE) true) else slot ts j.
Proof. intros Hs. unfold picked. apply slot_insert. by eapply slot_range. Qed.

(** What the scheduler may do to a thread: a sleeper wakes up, and only the threads it switches
    between are marked differently. *)
Definition moved (changes : Prop) (t t' : thread) : Prop :=
  tprocess t' = tprocess t /\ busy t' = busy t /\ abort_ t' = abort_ t /\
  (status t' = status t \/ status t = SLEEPING /\ status t' = RUNNABLE) /\ (changes \/ running t' = running t).
Definition slots_moved (st st' : tstate) : Prop := forall j,
  match slot (threads st) j, slot (threads st') j with
  | Some t, Some t' => moved (j = current_tid (cpu st) \/ j = current_tid (cpu st')) t t'
  | None, None => True
  | _, _ => False
  end.

Lemma moved_released st ts : threads ts = released (threads st) (current_tid (cpu st)) -> slots_moved st ts.
Proof.
  intros E j. rewrite E, released_slot. case_decide as Hd; destruct (slot (threads st) j) as [t|]; try done; simpl.
  - unfold thread_release, moved. destruct (running t); simpl; tauto.
  - unfold moved. tauto.
Qed.

(** A loop that picked [p] makes the scheduler switch to it. *)
Lemma shed_choose_picked st ms p t : sched_ok st -> 1 <= p <= thread_count st ->
  slot (released (threads st) (current_tid (cpu st))) p = Some t -> can_run t ms = true ->
  (forall j, 1 <= j <= thread_count st -> eligible (threads st) ms j = true ->
     turn (thread_count st) (last_tid (cpu st)) p <= turn (thread_count st) (last_tid (cpu st)) j) ->
  shed_loop (Z.to_nat (thread_count st + 1)) (released (threads st) (current_tid (cpu st)))
    (last_tid (cpu st)) 0 None (thread_count st) ms
  = Ok (picked (released (threads st) (current_tid (cpu st))) p t, p, Some p) ->
  exists st', task_shed_choose st ms = Ok st' /\ (reshed_block (cpu st') = 0 /\ should_reshed (cpu st') = false) /\ held_locks st' = held_locks st /\
    thread_count st' = thread_count st /\ sched_ok st' /\ keeps_eligible st st' ms /\ slots_moved st st' /\
    chosen st st' ms (current_tid (cpu st')).
Proof.
  intros Hok Hp Es Hcr Hmin Hloop. set (ts := released _ _) in *. pose proof (slot_range _ _ _ Es) as Hr.
  assert (slot (picked ts p t) p = Some (set_running (set_status t RUNNABLE) true)) as Hsp
    by (unfold picked; rewrite slot_insert by done; by rewrite decide_True).
  destruct (shed_choose_frame st ms (picked ts p t) p (Some p) (tprocess t) Hok Hloop) as
    (st' & Heq & Hts & Hct & Hcpu & Hhl & _).
  { destruct (Z.eqb_spec p 0); [lia|]. exists p, (set_running (set_status t RUNNABLE) true).
    split_and!; [done|lia|exact Hsp|done]. }
  exists st'.
  assert (sched_ok st') as Hok'.
  { apply (sched_ok_after st st' p (tprocess t) ts); try done; try lia.
    - by apply released_quiet.
    - unfold ts. rewrite zlen_released. apply Hok.
    - intros j t' Hs _. rewrite Hts, picked_slot in Hs by done. case_decide; [by left|by right].
    - rewrite Hts. apply zlen_insert. }
  assert (keeps_eligible st st' ms) as Hke.
  { intros j Hj. rewrite <- (released_eligible _ (current_tid (cpu st))) in Hj. fold ts in Hj.
    unfold eligible in *. rewrite Hts, picked_slot by done. by case_decide. }
  assert (slots_moved st st') as Hmv.
  { intros j. rewrite Hcpu, Hts, picked_slot by done. cbn [current_tid]. pose proof (moved_released st (set_threads st ts) eq_refl j) as Hj.
    cbn [threads set_threads] in Hj. case_decide as Hd; [|destruct (slot (threads st) j), (slot ts j); try done; unfold moved in *; simpl in Hj; tauto].
    subst j. rewrite Es in Hj. destruct (slot (threads st) p) as [t0|]; [|done]. destruct Hj as (? & ? & ? & H4 & _). unfold moved. cbn [set_running set_status tprocess busy abort_ status].
    split_and!; try done; [|tauto]. unfold can_run in Hcr. destruct H4 as [E4|[]]; [|tauto]. rewrite <- E4. destruct (status t); try done; tauto. }
  destruct (Z.eqb_spec p 0); [lia|]. rewrite Hcpu in *. cbn [reshed_block current_tid should_reshed].
  split_and!; try done. unfold ts in Es. rewrite released_slot in Es.
  assert (exists t0, slot (threads st) p = Some t0 /\ can_run t0 ms = true /\ tprocess t0 = tprocess t) as (t0 & H1 & H2 & H3).
  { case_decide; [|by exists t]. destruct (slot (threads st) p) as [t0|]; simplify_eq/=. exists t0.
    rewrite can_run_release in Hcr. split_and!; try done. unfold thread_release. by destruct (running t0). }
  exists t0. rewrite Hcpu. cbn [current_pid last_tid]. split_and!; try done; try lia.
  exists (set_running (set_status t RUNNABLE) true). by rewrite Hts.
Qed.

Lemma shed_choose_cases st ms : sched_ok st ->
  exists st', task_shed_choose st ms = Ok st' /\ (reshed_block (cpu st') = 0 /\ should_reshed (cpu st') = false) /\ held_locks st' = held_locks st /\
    thread_count st' = thread_count st /\ sched_ok st' /\ keeps_eligible st st' ms /\ slots_moved st st' /\
    ((current_tid (cpu st') = 0 /\ last_tid (cpu st') = last_tid (cpu st) /\
      forall j, 1 <= j <= thread_count st -> eligible (threads st) ms j = false) \/
     chosen st st' ms (current_tid (cpu st'))).
Proof.
  intros Hok. pose proof Hok as (Hl & Hz & Hc & Hb & Hlk & Hrun). set (last := last_tid (cpu st)) in *.
  set (ts := released (threads st) (current_tid (cpu st))). set (count := thread_count st) in *.
  assert (zlen ts <= count + 1) as Hzt by (unfold ts; by rewrite zlen_released).
  pose proof (released_quiet st Hok) as Hq. fold ts in Hq.
  assert (forall j, eligible (threads st) ms j = eligible ts ms j) as Hel by (intros j; symmetry; apply released_eligible).
  assert (0 <= count) as Hcnt by lia.
  destruct (least_in (eligible ts ms) last count) as [Hno1|(p & Hp & He & Hno1)].
  - destruct (least_in (eligible ts ms) 0 last) as [Hno2|(p & Hp & He & Hno2)].
    + assert (forall j, 1 <= j <= count -> eligible ts ms j = false) as Hno.
      { intros j Hj. destruct (Z.le_gt_cases j last); [apply Hno2|apply Hno1]; lia. }
      destruct (shed_loop_none ts count ms Hzt Hcnt Hno (Z.to_nat (count + 1)) last None Hl) as [cur' Hloop].
      destruct (shed_choose_frame st ms ts 0 cur' 0 Hok Hloop eq_refl) as (st' & Heq & Hts & Hct & Hcpu & Hhl & _).
      exists st'. assert (sched_ok st') as Hok'.
      { apply (sched_ok_after st st' 0 0 ts); try done; try lia; [|by rewrite Hts].
        intros j t Hs _. right. by rewrite <- Hts. }
      assert (keeps_eligible st st' ms) as Hke by (intros j Hj; by rewrite Hts, <- Hel).
      assert (slots_moved st st') as Hmv by (by apply moved_released). rewrite Hcpu. split_and!; try done. left. split_and!; try done.
      intros j Hj. rewrite Hel. by apply Hno.
    + unfold eligible in He. destruct (slot ts p) as [t|] eqn:Es; [|done].
      destruct (shed_choose_picked st ms p t Hok ltac:(lia) Es He) as (st' & ? & ? & ? & ? & ? & ? & ? & ?);
        [| |exists st'; repeat (split; [assumption|]); by right].
      * intros j Hj. rewrite Hel. intros Hej. assert (j <= last) as Hjl.
        { destruct (Z.le_gt_cases j last); [done|]. rewrite Hno1 in Hej by lia. done. }
        assert (p <= j). { destruct (Z.le_gt_cases p j); [done|]. rewrite Hno2 in Hej by lia. done. }
        rewrite !turn_cases by lia. case_cmp; lia.
      * destruct (shed_loop_wrap ts count ms Hzt Hcnt last (Z.to_nat (count + 1)) last None Hl ltac:(lia) Hno1 ltac:(lia))
          as (n' & cur' & Hn' & Hw). fold ts last count. rewrite Hw.
        apply (shed_loop_found ts count ms Hzt Hcnt Hq p t Es He ltac:(lia)); [lia|lia|]. intros j Hj. apply Hno2. lia.
  - unfold eligible in He. destruct (slot ts p) as [t|] eqn:Es; [|done].
    destruct (shed_choose_picked st ms p t Hok ltac:(lia) Es He) as (st' & ? & ? & ? & ? & ? & ? & ? & ?);
      [| |exists st'; repeat (split; [assumption|]); by right].
    + intros j Hj. rewrite Hel. intros Hej. fold last count. rewrite !turn_cases by lia.
      destruct (Z.ltb_spec last p), (Z.ltb_spec last j); try lia.
      destruct (Z.le_gt_cases p j); [lia|]. rewrite Hno1 in Hej by lia. done.
    + apply (shed_loop_found ts count ms Hzt Hcnt Hq p t Es He ltac:(lia)); [lia|lia|]. intros j Hj. apply Hno1. lia.
Qed.

(** The scheduler is round robin and complete: the thread it switches to is runnable, or a
    sleeper whose time has come, and among all such threads it is the one whose turn is next
    after the thread that ran last; it is marked running; the idle thread is chosen only when
    nobody can run; the lock is free again and preemption is as enabled as before. *)
Theorem shed_round_robin (st : tstate) (ms : Z) :
  sched_ok st ->
  exists st', task_shed_choose st ms = Ok st' /\ sched_ok st' /\ held_locks st' = held_locks st /\
    ((current_tid (cpu st') = 0 /\ forall j, 1 <= j <= thread_count st -> eligible (threads st) ms j = false) \/
     chosen st st' ms (current_tid (cpu st'))).
Proof.
  intros Hok. destruct (shed_choose_cases st ms Hok) as (st' & Heq & _ & Hhl & _ & Hok' & _ & _ & Hcase).
  exists st'. split_and!; try done. destruct Hcase as [(? & _ & ?)|?]; [by left|by right].
Qed.

(** Thread 1 runs, 2 waits, 3 sleeps until 50, 4 is ready. *)
Definition demo_threads : tstate :=
  mk_tstate [Some (mk_thread 0 RUNNABLE true 0 false false 0);
             Some (mk_thread 1 RUNNABLE true 0 false true 0);
             Some (mk_thread 1 BLOCKED true 0 false false 0);
             Some (mk_thread 2 SLEEPING false 50 false false 0);
             Some (mk_thread 2 RUNNABLE false 0 false false 0)]
    4 (mk_cpu 1 1 1 0 false) ∅ true 0.

Lemma demo_sched_ok : sched_ok demo_threads.
Proof.
  unfold sched_ok. split_and!; try (vm_compute; done).
  intros tid t Hs Hr. pose proof (slot_range _ _ _ Hs) as Hrg. change (zlen (threads demo_threads)) with 5 in Hrg.
  assert (tid = 0 \/ tid = 1 \/ tid = 2 \/ tid = 3 \/ tid = 4) as H5 by lia.
  destruct H5 as [->|[->|[->|[->| ->]]]]; vm_compute in Hs; simplify_eq; try done; by left.
Qed.

Lemma shed_round_robin_witness :
  exists st', task_shed_choose demo_threads 40 = Ok st' /\ sched_ok st' /\ held_locks st' = ∅ /\
    ((current_tid (cpu st') = 0 /\ forall j, 1 <= j <= 4 -> eligible (threads demo_threads) 40 j = false) \/
     chosen demo_threads st' 40 (current_tid (cpu st'))).
Proof. exact (shed_round_robin demo_threads 40 demo_sched_ok). Defined.

(** Scheduling [n] times with nothing else happening. *)
Fixpoint shed_iter (n : nat) (st : tstate) (ms : Z) : res tstate :=
  match n with O => Ok st | S n' => st' ← task_shed_choose st ms; shed_iter n' st' ms end.

Lemma turn_decreases count last p t : 0 <= last <= count -> 1 <= p <= count -> 1 <= t <= count -> p <> t ->
  turn count last p <= turn count last t -> 0 <= turn count p t < turn count last t.
Proof. intros Hl Hp Ht Hne. rewrite !turn_cases by lia. case_cmp; lia. Qed.

Lemma shed_reaches (st : tstate) (ms t : Z) :
  sched_ok st -> 1 <= t <= thread_count st -> eligible (threads st) ms t = true ->
  exists n st', Z.of_nat n <= thread_count st /\ shed_iter n st ms = Ok st' /\ current_tid (cpu st') = t /\ (0 < n)%nat.
Proof.
  intros Hok Ht He.
  cut (exists n st', Z.of_nat n <= turn (thread_count st) (last_tid (cpu st)) t + 1 /\
    shed_iter n st ms = Ok st' /\ current_tid (cpu st') = t /\ (0 < n)%nat).
  { intros (n & st' & Hn & ?). exists n, st'. split; [|done]. unfold turn in Hn.
    pose proof (Z.mod_pos_bound (t - last_tid (cpu st) - 1) (thread_count st) ltac:(lia)). lia. }
  remember (Z.to_nat (turn (thread_count st) (last_tid (cpu st)) t)) as k eqn:Hk.
  revert st Hok Ht He Hk. induction k as [k IH] using lt_wf_ind. intros st Hok Ht He Hk.
  pose proof Hok as (Hl & _). pose proof (Z.mod_pos_bound (t - last_tid (cpu st) - 1) (thread_count st) ltac:(lia)) as Htb.
  fold (turn (thread_count st) (last_tid (cpu st)) t) in Htb.
  destruct (shed_choose_cases st ms Hok) as (st1 & Heq & _ & _ & Hct & Hok1 & Hke & _ & Hcase).
  destruct Hcase as [(_ & _ & Hno)|(th & Hs & Hcr & Hp & Hpid & Hlast & _ & Hmin)].
  { rewrite Hno in He by done. done. }
  destruct (decide (current_tid (cpu st1) = t)) as [Hcur|Hne].
  { exists 1%nat, st1. split_and!; [lia| |done|lia]. cbn [shed_iter]. by rewrite Heq. }
  pose proof (turn_decreases _ _ _ t Hl Hp Ht Hne (Hmin t Ht He)) as Hdec. rewrite <- Hlast in Hdec.
  destruct (IH (Z.to_nat (turn (thread_count st) (last_tid (cpu st1)) t)) ltac:(lia) st1 Hok1 ltac:(lia) (Hke _ He)
    ltac:(by rewrite Hct))
    as (n & st2 & Hn & Hit & Hc2 & Hpos).
  exists (S n), st2. split_and!; [rewrite Hct in *; lia| |done|lia]. cbn [shed_iter]. rewrite Heq. exact Hit.
Qed.

(** ** Spinlocks and preemption *)

(** Preemption is blocked exactly as many times as locks are held. *)
Definition lock_ok (st : tstate) : Prop :=
  sheduler_ready st = true /\ reshed_block (cpu st) = Z.of_nat (size (held_locks st)).

(** What code that releases only what it holds can do. *)
Inductive lstep : tstate -> tstate -> Prop :=
  | l_acquire l st st' : spinlock_acquire l st = Ok st' -> lstep st st'
  | l_try l st st' b : spinlock_try l st = Ok (st', b) -> lstep st st'
  | l_release l st st' : l ∈ held_locks st -> spinlock_release l st = Ok st' -> lstep st st'.

Lemma size_add (X : gset Z) l : l ∉ X -> size ({[l]} ∪ X) = S (size X).
Proof. intros Hl. rewrite size_union by set_solver. by rewrite size_singleton. Qed.

Lemma size_remove (X : gset Z) l : l ∈ X -> S (size (X ∖ {[l]})) = size X.
Proof.
  intros Hl. rewrite <- (size_add (X ∖ {[l]}) l) by set_solver. f_equal.
  apply set_eq. intros x. rewrite elem_of_union, elem_of_difference, elem_of_singleton.
  destruct (decide (x = l)); set_solver.
Qed.

Lemma enable_ok st st' : sheduler_ready st = true -> reshed_block (cpu st) = Z.of_nat (S (size (held_locks st))) ->
  task_reshed_enable st = Ok st' ->
  lock_ok st' /\ held_locks st' = held_locks st /\ (resheds st' <> resheds st -> held_locks st' = ∅).
Proof.
  intros Hr Hb. unfold task_reshed_enable, lock_ok. rewrite Hr, Hb. cbn [negb].
  assert (Z.of_nat (S (size (held_locks st))) - 1 = Z.of_nat (size (held_locks st))) as -> by lia.
  cbn [cpu set_cpu should_reshed set_block].
  destruct (should_reshed (cpu st)); cbn [andb].
  - destruct (Z.eqb_spec (Z.of_nat (size (held_locks st))) 0) as [H0|H0].
    + unfold task_tyield. cbn [cpu set_cpu reshed_block set_block]. rewrite H0. cbn. intros. simplify_eq. cbn.
      split_and!; [done|lia|done|]. intros _. apply leibniz_equiv, size_empty_iff. lia.
    + intros. simplify_eq. cbn. done.
  - intros. simplify_eq. cbn. done.
Qed.

Lemma lstep_ok st st' : lock_ok st -> lstep st st' ->
  lock_ok st' /\ (resheds st' <> resheds st -> held_locks st' = ∅).
Proof.
  intros [Hr Hb] Hs. destruct Hs as [l st st' H|l st st' b H|l st st' Hl H].
  - unfold spinlock_acquire, task_reshed_disable in H. rewrite Hr in H. cbn [negb held_locks set_cpu] in H.
    case_bool_decide as Hd; simplify_eq. unfold lock_ok. cbn. rewrite size_add by done. split; [split; [done|lia]|done].
  - unfold spinlock_try, task_reshed_disable in H. rewrite Hr in H. cbn [negb held_locks set_cpu] in H.
    case_bool_decide as Hd.
    + apply bind_Ok in H as (st1 & H & Heq). simplify_eq. apply enable_ok in H as (? & _ & ?); [done|done|cbn; lia].
    + simplify_eq. unfold lock_ok. cbn. rewrite size_add by done. split; [split; [done|lia]|done].
  - unfold spinlock_release in H. apply enable_ok in H as (? & _ & ?); [done|done|].
    cbn. rewrite size_remove by done. lia.
Qed.

Lemma lsteps_ok st st' : lock_ok st -> rtc lstep st st' -> lock_ok st'.
Proof. intros Hi Hs. induction Hs; [done|]. apply IHHs. by eapply lstep_ok. Qed.

(** Holding a spinlock keeps the CPU: in any history of acquires, tries and releases of held
    locks, preemption is blocked once per held lock, a release switches threads only when it
    gave back the last lock, and a timer interrupt while any lock is held does not switch but
    leaves a note for the last release. *)
Theorem spinlock_blocks_switch (st0 st st' : tstate) (ms : Z) :
  lock_ok st0 -> rtc lstep st0 st -> lstep st st' ->
  lock_ok st' /\ (resheds st' <> resheds st -> held_locks st' = ∅) /\
  (held_locks st' <> ∅ -> task_shed_choose st' ms = Ok (set_cpu st' (set_should (cpu st') true))).
Proof.
  intros H0 Hs Hstep. destruct (lstep_ok st st' (lsteps_ok _ _ H0 Hs) Hstep) as [Hok Hres].
  split_and!; try done. intros Hne. destruct Hok as [_ Hb]. unfold task_shed_choose. rewrite Hb, Z.gtb_ltb.
  destruct (Z.ltb_spec 0 (Z.of_nat (size (held_locks st')))); [done|].
  destruct Hne. apply leibniz_equiv, size_empty_iff. lia.
Qed.

Lemma spinlock_blocks_switch_witness :
  exists st st', rtc lstep demo_threads st /\ lstep st st' /\ held_locks st' <> ∅ /\
  (lock_ok st' /\ (resheds st' <> resheds st -> held_locks st' = ∅) /\
   (held_locks st' <> ∅ -> task_shed_choose st' 7 = Ok (set_cpu st' (set_should (cpu st') true)))).
Proof.
  destruct (spinlock_acquire 5 demo_threads) as [st'| | |] eqn:E; [|discriminate E..].
  assert (lstep demo_threads st') as Hst by (by eapply l_acquire).
  exists demo_threads, st'. split; [apply rtc_refl|]. split; [exact Hst|]. split.
  - vm_compute in E. injection E as <-. intros Hem. apply (f_equal size) in Hem. discriminate Hem.
  - apply (spinlock_blocks_switch demo_threads demo_threads st' 7); [by split|apply rtc_refl|exact Hst].
Defined.

(** ** Events *)

(** Nothing asks for a switch and the scheduler lock is free. *)
Definition calm (st : tstate) : Prop := (SHEDULER_LOCK ∉ held_locks st) /\ should_reshed (cpu st) = false.

(** [st] with [l] taken. *)
Definition locked (l : Z) (st : tstate) : tstate :=
  set_locks (task_reshed_disable st) ({[l]} ∪ held_locks st).

Lemma acquire_ok l st : l ∉ held_locks st -> spinlock_acquire l st = Ok (locked l st).
Proof.
  intros Hl. unfold spinlock_acquire, locked.
  assert (held_locks (task_reshed_disable st) = held_locks st) as Hh
    by (unfold task_reshed_disable; by destruct (sheduler_ready st)).
  rewrite Hh. by rewrite bool_decide_eq_false_2.
Qed.

Lemma release_ok l st ts : l ∉ held_locks st -> should_reshed (cpu st) = false ->
  spinlock_release l (set_threads (locked l st) ts) = Ok (set_threads st ts).
Proof.
  intros Hl Hs. destruct st as [a n [p c la b sr] hl rd rs]. cbn in *. subst sr.
  unfold spinlock_release, task_reshed_enable, locked, task_reshed_disable.
  assert ((({[l]} ∪ hl) ∖ {[l]}) = hl) as Heq.
  { apply set_eq. intros x. rewrite elem_of_difference, elem_of_union, elem_of_singleton.
    split; [tauto|]. intros Hx. split; [by right|congruence]. }
  destruct rd; cbn; unfold set_threads, set_cpu, set_locks, set_block; cbn; rewrite Heq, ?Z.add_simpl_r; done.
Qed.

Lemma locked_calm l st : l <> SHEDULER_LOCK -> calm st -> calm (locked l st).
Proof.
  intros Hl [Hs Hr]. unfold calm, locked, task_reshed_disable. split.
  - destruct (sheduler_ready st); cbn; set_solver.
  - by destruct (sheduler_ready st).
Qed.

Lemma locked_threads l st : threads (locked l st) = threads st /\ cpu (locked l st) = cpu (task_reshed_disable st) /\
  current_tid (cpu (locked l st)) = current_tid (cpu st) /\ held_locks (locked l st) = {[l]} ∪ held_locks st.
Proof. unfold locked, task_reshed_disable. by destruct (sheduler_ready st). Qed.

(** ** Creating threads *)

Abbreviation stuck := (Panic "spinlock_acquire stuck for too long").

Lemma acquire_cases l st : spinlock_acquire l st = if bool_decide (l ∈ held_locks st) then stuck else Ok (locked l st).
Proof.
  case_bool_decide as Hl; [|by apply acquire_ok]. unfold spinlock_acquire.
  assert (held_locks (task_reshed_disable st) = held_locks st) as -> by (unfold task_reshed_disable; by destruct (sheduler_ready st)).
  by rewrite bool_decide_eq_true_2.
Qed.

Lemma locked_held l st : held_locks (locked l st) = {[l]} ∪ held_locks st.
Proof. apply (locked_threads l st). Qed.

(** Whoever gets through [kpalloc] holds [sptr_aim_spinlock], and nobody does who held it. *)
Lemma kpalloc_cases amount proot st : amount <> 0 ->
  kpalloc amount proot st = stuck \/ exists st', kpalloc amount proot st = Ok st' /\
    SPTR_AIM_LOCK ∉ held_locks st /\ held_locks st' = {[SPTR_AIM_LOCK]} ∪ ({[proot]} ∪ held_locks st).
Proof.
  intros Ha. unfold kpalloc. destruct (Z.eqb_spec amount 0); [done|]. rewrite acquire_cases. case_bool_decide; [by left|]. cbn [mbind res_bind].
  rewrite acquire_cases, locked_held. case_bool_decide; [by left|]. right. eexists. split; [done|]. rewrite !locked_held. split; [set_solver|done].
Qed.

Lemma enable_held st st' : task_reshed_enable st = Ok st' -> held_locks st' = held_locks st.
Proof.
  unfold task_reshed_enable, task_tyield. destruct (negb _); [by intros [= <-]|]. destruct (_ && _); [|by intros [= <-]]. by destruct (_ >? 0); intros [= <-].
Qed.

(** A thread that is to run in user mode needs two stacks; the second [kpalloc] waits for the lock
    the first one took, whatever the state. *)
Theorem tcreate_user_panics st pid l : tcreate_thread st pid l false = stuck.
Proof.
  unfold tcreate_thread. rewrite acquire_cases. case_bool_decide; [done|]. cbn [mbind res_bind].
  destruct (kpalloc_cases (stack_pages KERNEL_STACK_SIZE) KERNEL_PMAP_LOCK (locked SHEDULER_LOCK st) ltac:(done)) as [->|(st1 & -> & _ & Hh)]; [done|]. cbn [mbind res_bind].
  destruct (kpalloc_cases (stack_pages USR_STACK_SIZE) l st1 ltac:(done)) as [->|(st2 & _ & Hn & _)]; [done|]. rewrite Hh in Hn. set_solver.
Qed.

(** A thread of the kernel is created once: it leaves the locks of [kpalloc] behind. *)
Theorem tcreate_only_once st pid l st1 tid pid' l' kmode : tcreate_thread st pid l true = Ok (st1, tid) ->
  l <> SHEDULER_LOCK -> l ∈ held_locks st1 /\ SPTR_AIM_LOCK ∈ held_locks st1 /\ tcreate_thread st1 pid' l' kmode = stuck.
Proof.
  unfold tcreate_thread at 1. rewrite acquire_cases. case_bool_decide; [done|]. cbn [mbind res_bind].
  destruct (kpalloc_cases (stack_pages USR_STACK_SIZE) l (locked SHEDULER_LOCK st) ltac:(done)) as [->|(st2 & -> & _ & Hh)]; [done|]. cbn [mbind res_bind].
  destruct (thread_add _ _) as [ts t]. unfold spinlock_release. destruct (task_reshed_enable _) as [st3| | |] eqn:E; cbn [mbind res_bind]; try done. intros [= <- <-] Hl.
  apply enable_held in E. change (held_locks st3 = held_locks st2 ∖ {[SHEDULER_LOCK]}) in E.
  assert (SPTR_AIM_LOCK ∈ held_locks st3) as Haim by (rewrite E, Hh; set_solver). split; [rewrite E, Hh; set_solver|]. split; [done|].
  destruct kmode; [|apply tcreate_user_panics]. unfold tcreate_thread. rewrite acquire_cases. case_bool_decide; [done|]. cbn [mbind res_bind].
  destruct (kpalloc_cases (stack_pages USR_STACK_SIZE) l' (locked SHEDULER_LOCK st3) ltac:(done)) as [->|(st4 & _ & Hn & _)]; [done|]. rewrite locked_held in Hn. set_solver.
Qed.

Lemma tcreate_only_once_witness : exists st1 tid, tcreate_thread demo_threads 1 KERNEL_PMAP_LOCK true = Ok (st1, tid) /\ tcreate_thread st1 1 KERNEL_PMAP_LOCK true = stuck.
Proof.
  destruct (tcreate_thread demo_threads 1 KERNEL_PMAP_LOCK true) as [[st1 tid]| | |] eqn:E; [|discriminate E..]. exists st1, tid. split; [done|].
  by apply (tcreate_only_once demo_threads 1 KERNEL_PMAP_LOCK st1 tid 1 KERNEL_PMAP_LOCK true E).
Defined.

Lemma with_thread_ok {A} st tid (f : thread -> thread * A) : calm st -> 0 <= tid ->
  with_thread st tid f = match slot (threads st) tid with
    | None => Ok (st, None)
    | Some t => Ok (set_threads st (<[Z.to_nat tid := Some (fst (f t))]> (threads st)), Some (snd (f t)))
    end.
Proof.
  intros [Hs Hr] Ht. unfold with_thread. rewrite acquire_ok by done. cbn [mbind res_bind].
  destruct (locked_threads SHEDULER_LOCK st) as (Hth & _). rewrite Hth, thread_get_slot by done. cbn [mbind res_bind].
  destruct (slot (threads st) tid) as [t|] eqn:E.
  - destruct (f t) as [t' a]. rewrite store_in_range by (by eapply slot_range). cbn [mbind res_bind].
    by rewrite release_ok.
  - pose proof (release_ok SHEDULER_LOCK st (threads st) Hs Hr) as H.
    replace (set_threads (locked SHEDULER_LOCK st) (threads st)) with (locked SHEDULER_LOCK st) in H.
    + rewrite H. cbn [mbind res_bind]. by destruct st.
    + rewrite <- Hth. by destruct (locked SHEDULER_LOCK st).
Qed.

Definition wake_slot (ts : list (option thread)) (tid : Z) : list (option thread) :=
  match slot ts tid with
  | Some t => if bool_decide (status t = BLOCKED) then <[Z.to_nat tid := Some (set_status t RUNNABLE)]> ts else ts
  | None => ts
  end.

Lemma insert_slot_id ts tid t : slot ts tid = Some t -> <[Z.to_nat tid := Some t]> ts = ts.
Proof.
  unfold slot. destruct (0 <=? tid); [|done]. intros H. apply list_insert_id.
  destruct (ts !! Z.to_nat tid) as [[x|]|]; simplify_eq/=; done.
Qed.

Lemma set_threads_id st : set_threads st (threads st) = st.
Proof. by destruct st. Qed.

Lemma wake_thread_ok st tid : calm st -> 0 <= tid ->
  wake_thread st tid = Ok (set_threads st (wake_slot (threads st) tid)).
Proof.
  intros Hc Ht. unfold wake_thread, task_tget_status, wake_slot. rewrite with_thread_ok by done.
  destruct (slot (threads st) tid) as [t|] eqn:E; cbn [mbind res_bind fst snd].
  - rewrite (insert_slot_id _ _ _ E), set_threads_id. cbn [from_option id]. destruct (bool_decide (status t = BLOCKED)).
    + unfold task_tset_status. rewrite with_thread_ok by done. by rewrite E.
    + by rewrite set_threads_id.
  - cbn [default]. by rewrite bool_decide_eq_false_2, set_threads_id by done.
Qed.

Definition wake_slots (ts : list (option thread)) (q : list Z) : list (option thread) := foldl wake_slot ts q.

Lemma wake_all_ok q : forall st n, calm st -> Forall (fun tid => 0 <= tid) q ->
  wake_all st q n = Ok (set_threads st (wake_slots (threads st) q), n + zlen q).
Proof.
  induction q as [|tid q IH]; intros st n Hc Hq; cbn [wake_all wake_slots foldl].
  - rewrite set_threads_id. do 2 f_equal. unfold zlen. simpl. lia.
  - apply Forall_cons in Hq as [Ht Hq]. rewrite wake_thread_ok by done. cbn [mbind res_bind].
    rewrite IH by done. cbn [threads set_threads]. unfold set_threads. cbn. do 2 f_equal. rewrite zlen_cons. lia.
Qed.

Lemma wake_slot_spec ts tid j : slot (wake_slot ts tid) j =
  if decide (j = tid) then (fun t => if bool_decide (status t = BLOCKED) then set_status t RUNNABLE else t) <$> slot ts j
  else slot ts j.
Proof.
  unfold wake_slot. destruct (slot ts tid) as [t|] eqn:E.
  - case_bool_decide as Hb.
    + rewrite slot_insert by (by eapply slot_range). case_decide; [subst|done]. rewrite E. simpl.
      by rewrite bool_decide_eq_true_2.
    + case_decide; [subst|done]. rewrite E. simpl. by rewrite bool_decide_eq_false_2.
  - case_decide; [subst; by rewrite E|done].
Qed.

Lemma wake_slots_spec q : forall ts j, slot (wake_slots ts q) j =
  if decide (j ∈ q) then (fun t => if bool_decide (status t = BLOCKED) then set_status t RUNNABLE else t) <$> slot ts j
  else slot ts j.
Proof.
  induction q as [|tid q IH]; intros ts j; cbn [wake_slots foldl].
  - rewrite decide_False; [done|apply not_elem_of_nil].
  - unfold wake_slots in IH. rewrite IH, wake_slot_spec.
    destruct (decide (j = tid)) as [->|Hne].
    + rewrite (decide_True (P := tid ∈ tid :: q)) by apply list_elem_of_here.
      case_decide; [|done]. destruct (slot ts tid) as [t|]; [|done]. simpl. f_equal.
      destruct (bool_decide (status t = BLOCKED)) eqn:Hb; [by rewrite bool_decide_eq_false_2|by rewrite Hb].
    + assert (j ∈ q <-> j ∈ tid :: q) as Hiff by (rewrite elem_of_cons; tauto).
      repeat case_decide; tauto.
Qed.

(** Three different locks, the event's and the queue's free. *)
Definition event_ok (st : tstate) (e : event) : Prop :=
  ev_lock e <> tq_lock e /\ ev_lock e <> SHEDULER_LOCK /\ tq_lock e <> SHEDULER_LOCK /\
  (ev_lock e ∉ held_locks st) /\ (tq_lock e ∉ held_locks st) /\ Forall (fun tid => 0 <= tid) (wait_queue e).

Lemma wakeup_all_ok st e : calm st -> event_ok st e ->
  (st ← spinlock_acquire (ev_lock e) st; tqueue_wakeup_all st e) =
    Ok (set_threads (locked (ev_lock e) st) (wake_slots (threads st) (wait_queue e)), set_queue e [], 0 + zlen (wait_queue e)).
Proof.
  intros Hc (Hne & Hn1 & Hn2 & Hf1 & Hf2 & Hq). unfold tqueue_wakeup_all.
  rewrite acquire_ok by done. cbn [mbind res_bind].
  destruct (locked_threads (ev_lock e) st) as (Ht1 & _ & _ & Hh1).
  assert (calm (locked (ev_lock e) st)) as Hc1 by (by apply locked_calm).
  assert (tq_lock e ∉ held_locks (locked (ev_lock e) st)) as Hf3.
  { rewrite Hh1, elem_of_union, elem_of_singleton. intros [?|?]; congruence. }
  rewrite acquire_ok by done. cbn [mbind res_bind].
  rewrite wake_all_ok by (done || by apply locked_calm). cbn [mbind res_bind].
  destruct (locked_threads (tq_lock e) (locked (ev_lock e) st)) as (Ht2 & _). rewrite Ht2, Ht1.
  rewrite release_ok; [done|done|apply Hc1].
Qed.

Lemma trigger_all_ok st e : calm st -> event_ok st e ->
  event_trigger_all st e = Ok (set_threads st (wake_slots (threads st) (wait_queue e)), set_queue e []).
Proof.
  intros Hc He. pose proof (wakeup_all_ok st e Hc He) as Hw. destruct He as (_ & _ & _ & Hf & _). unfold event_trigger_all.
  rewrite acquire_ok in * by done. cbn [mbind res_bind] in *. rewrite Hw. cbn [mbind res_bind set_queue ev_lock].
  rewrite release_ok; [done|done|apply Hc].
Qed.

Lemma defunct_ok st e : calm st -> event_ok st e ->
  event_defunct st e = Ok (set_threads st (wake_slots (threads st) (wait_queue e)), mk_event (ev_lock e) (tq_lock e) 134217727 []).
Proof.
  intros Hc He. pose proof (wakeup_all_ok st e Hc He) as Hw. destruct He as (_ & _ & _ & Hf & _). unfold event_defunct.
  rewrite acquire_ok in * by done. cbn [mbind res_bind] in *. rewrite Hw. cbn [mbind res_bind set_queue ev_lock tq_lock wait_queue].
  rewrite release_ok; [done|done|apply Hc].
Qed.

(** A thread that is not asked to stop is queued and blocked, and gives the CPU away if it may. *)
Lemma wait_begin_ok (st : tstate) (e : event) (t : thread) : calm st -> event_ok st e -> 0 <= current_tid (cpu st) ->
  slot (threads st) (current_tid (cpu st)) = Some t -> abort_ t = false ->
  event_wait_begin st e =
    (let st1 := set_threads st (<[Z.to_nat (current_tid (cpu st)) := Some (set_status t BLOCKED)]> (threads st)) in
     let e1 := set_queue e (wait_queue e ++ [current_tid (cpu st)]) in
     if task_tcan_yield st1 then st ← task_tyield st1; Ok (st, e1, None) else Ok (st1, e1, None)).
Proof.
  intros Hc He Hcur Hs Hab. pose proof He as (Hne & Hn1 & Hn2 & Hf1 & Hf2 & Hq).
  set (c := current_tid (cpu st)) in *.
  destruct (locked_threads (ev_lock e) st) as (Ht1 & _ & Hc1 & Hh1).
  assert (calm (locked (ev_lock e) st)) as Hcl1 by (by apply locked_calm).
  assert (tq_lock e ∉ held_locks (locked (ev_lock e) st)) as Hf3.
  { rewrite Hh1, elem_of_union, elem_of_singleton. intros [?|?]; congruence. }
  unfold event_wait_begin, task_tshould_exit. rewrite acquire_ok by done. cbn [mbind res_bind].
  rewrite Hc1. fold c. rewrite with_thread_ok by done. rewrite Ht1, Hs. cbn [mbind res_bind fst snd default]. rewrite Hab.
  rewrite (insert_slot_id _ _ _ Hs), <- Ht1, set_threads_id. unfold tqueue_add. rewrite acquire_ok by done.
  cbn [mbind res_bind]. destruct (locked_threads (tq_lock e) (locked (ev_lock e) st)) as (Ht2 & _ & Hc2 & _).
  rewrite Hc2, Hc1. fold c. unfold task_tset_status.
  rewrite with_thread_ok by (done || by apply locked_calm). rewrite Ht2, Ht1, Hs. cbn [mbind res_bind fst snd set_queue tq_lock].
  rewrite release_ok by (done || apply Hcl1). cbn [mbind res_bind set_queue ev_lock].
  rewrite release_ok by (done || apply Hc). done.
Qed.

(** No lost wake-up: a thread that waits on an event without being asked to stop is queued
    and blocked in one go, and the next [event_trigger_all] empties the queue and makes every
    blocked thread in it runnable, leaving all others, the locks and the preemption count as
    they were. *)
Theorem event_wait_trigger_all (st : tstate) (e : event) (t : thread) :
  calm st -> event_ok st e -> reshed_block (cpu st) > 0 -> 0 <= current_tid (cpu st) ->
  slot (threads st) (current_tid (cpu st)) = Some t -> abort_ t = false ->
  exists st1 e1 st2 e2, event_wait_begin st e = Ok (st1, e1, None) /\
    wait_queue e1 = wait_queue e ++ [current_tid (cpu st)] /\
    slot (threads st1) (current_tid (cpu st)) = Some (set_status t BLOCKED) /\
    event_trigger_all st1 e1 = Ok (st2, e2) /\ wait_queue e2 = [] /\
    held_locks st2 = held_locks st /\ cpu st2 = cpu st /\
    (forall j t1, slot (threads st1) j = Some t1 ->
       slot (threads st2) j = Some (if bool_decide (j ∈ wait_queue e1 /\ status t1 = BLOCKED)
                                    then set_status t1 RUNNABLE else t1)).
Proof.
  intros Hc He Hb Hcur Hs Hab. pose proof He as (Hne & Hn1 & Hn2 & Hf1 & Hf2 & Hq).
  set (c := current_tid (cpu st)) in *.
  destruct (locked_threads (ev_lock e) st) as (Ht1 & _ & Hc1 & Hh1).
  assert (calm (locked (ev_lock e) st)) as Hcl1 by (by apply locked_calm).
  assert (tq_lock e ∉ held_locks (locked (ev_lock e) st)) as Hf3.
  { rewrite Hh1, elem_of_union, elem_of_singleton. intros [?|?]; congruence. }
  assert (event_wait_begin st e
    = Ok (set_threads st (<[Z.to_nat c := Some (set_status t BLOCKED)]> (threads st)),
          set_queue e (wait_queue e ++ [c]), None)) as Hbegin.
  { rewrite (wait_begin_ok st e t) by done. unfold task_tcan_yield. cbn [cpu set_threads]. by destruct (Z.eqb_spec (reshed_block (cpu st)) 0); [lia|]. }
  eexists _, _, _, _. split; [exact Hbegin|]. split; [done|]. split.
  { cbn [threads set_threads]. rewrite slot_insert by (by eapply slot_range). by rewrite decide_True. }
  split.
  { apply trigger_all_ok; [done|]. split_and!; try done. cbn. apply Forall_app. split; [done|by constructor]. }
  split_and!; try done. intros j t1 Hj. cbn [threads set_threads set_queue wait_queue] in *.
  rewrite wake_slots_spec, Hj. case_decide as Hin; simpl.
  - case_bool_decide as Hst; [by rewrite bool_decide_eq_true_2|]. rewrite bool_decide_eq_false_2; tauto.
  - by rewrite bool_decide_eq_false_2 by tauto.
Qed.

Definition demo_event : event := mk_event 7 8 0 [2].
Definition demo_locked : tstate :=
  mk_tstate (threads demo_threads) 4 (mk_cpu 1 1 1 1 false) {[ 9 ]} true 0.

Lemma event_wait_trigger_all_witness :
  exists st1 e1 st2 e2, event_wait_begin demo_locked demo_event = Ok (st1, e1, None) /\
    wait_queue e1 = wait_queue demo_event ++ [1] /\
    slot (threads st1) 1 = Some (set_status (mk_thread 1 RUNNABLE true 0 false true 0) BLOCKED) /\
    event_trigger_all st1 e1 = Ok (st2, e2) /\ wait_queue e2 = [] /\
    held_locks st2 = held_locks demo_locked /\ cpu st2 = cpu demo_locked /\
    (forall j t1, slot (threads st1) j = Some t1 ->
       slot (threads st2) j = Some (if bool_decide (j ∈ wait_queue e1 /\ status t1 = BLOCKED)
                                    then set_status t1 RUNNABLE else t1)).
Proof.
  apply (event_wait_trigger_all demo_locked demo_event (mk_thread 1 RUNNABLE true 0 false true 0)); try done.
  split_and!; try done; cbn; try (rewrite elem_of_singleton; done). by repeat constructor.
Defined.

(** The abort path of [event_wait] gives back a lock it no longer holds: the preemption count
    ends one too low, so that with no lock held before, the next spinlock that is taken does
    not keep the scheduler out. *)
Theorem event_wait_abort_unbalanced (st : tstate) (e : event) (t : thread) (l : Z) :
  calm st -> lock_ok st -> held_locks st = ∅ -> 0 <= current_tid (cpu st) ->
  slot (threads st) (current_tid (cpu st)) = Some t -> abort_ t = true ->
  exists st1 st2, event_wait_end st e = Ok (st1, -1) /\ reshed_block (cpu st1) = -1 /\
    spinlock_acquire l st1 = Ok st2 /\ held_locks st2 = {[l]} /\ task_tcan_yield st2 = true.
Proof.
  intros Hc [Hr Hb] Hh Hcur Hs Hab. unfold event_wait_end, task_tshould_exit. rewrite with_thread_ok by done.
  rewrite Hs. cbn [mbind res_bind fst snd default]. rewrite Hab, (insert_slot_id _ _ _ Hs), set_threads_id.
  rewrite Hh, size_empty in Hb. destruct Hc as [_ Hsr].
  assert (held_locks st ∖ {[ev_lock e]} = ∅) as Hd by (rewrite Hh; set_solver).
  unfold spinlock_release, task_reshed_enable. cbn [sheduler_ready set_locks]. rewrite Hr. cbn [negb].
  cbn [cpu set_locks set_cpu set_block should_reshed]. rewrite Hsr, Hb. cbn [andb mbind res_bind].
  eexists _, _. split; [reflexivity|]. cbn [cpu set_cpu reshed_block set_block]. split; [done|].
  rewrite acquire_ok; [|cbn; rewrite Hd; set_solver].
  split; [reflexivity|]. unfold locked, task_reshed_disable. cbn [sheduler_ready set_cpu set_locks]. rewrite Hr. cbn.
  split; [rewrite Hd; set_solver|done].
Qed.

Lemma event_wait_abort_unbalanced_witness :
  let st := mk_tstate [None; Some (mk_thread 2 RUNNABLE false 0 true true 0)] 1 (mk_cpu 2 1 1 0 false) ∅ true 0 in
  exists st1 st2, event_wait_end st demo_event = Ok (st1, -1) /\ reshed_block (cpu st1) = -1 /\
    spinlock_acquire 5 st1 = Ok st2 /\ held_locks st2 = {[5]} /\ task_tcan_yield st2 = true.
Proof.
  intros st. apply (event_wait_abort_unbalanced st demo_event (mk_thread 2 RUNNABLE false 0 true true 0) 5); try done.
Defined.

(** ** Fairness *)

(** What may happen between two decisions of the scheduler, to other threads than [t]: an operation
    on one thread changes its record without bringing back a dead thread (waking, blocking, putting
    to sleep, asking to stop, marking dead, all of them [with_thread]), a thread is added to the
    array, the killer takes a dead thread, and a thread is removed.  Operations on [t] itself leave its
    status alone.  Each is complete with its locks released, since the switch waits for that. *)
Inductive change (t : Z) : tstate -> tstate -> Prop :=
  | change_op {A} tid (f : thread -> thread * A) st st' r : with_thread st tid f = Ok (st', r) -> 0 <= tid ->
      (forall x, slot (threads st) tid = Some x -> running (f x).1 = running x /\ (status x = DEAD -> status (f x).1 = DEAD) /\
        (tid = t -> status (f x).1 = status x)) -> change t st st'
  | change_add st pid kmode : change t st
      (mk_tstate (thread_add (threads st) (mk_thread pid CREATED kmode 0 false false 0)).1 (thread_count st + 1) (cpu st) (held_locks st) (sheduler_ready st) (resheds st))
  | change_take st tid x : slot (threads st) tid = Some x -> status x = DEAD ->
      change t st (set_threads st (<[Z.to_nat tid := Some (set_running x true)]> (threads st)))
  | change_remove st tid ts : 0 <= tid -> tid <> t -> thread_remove (threads st) tid = Ok ts -> change t st (set_threads st ts).

(** Changes and decisions, at whatever times, with the threads that were switched to. *)
Inductive history (t : Z) : list Z -> tstate -> tstate -> Prop :=
  | history_start st : history t [] st st
  | history_change l st st1 st2 : history t l st st1 -> change t st1 st2 -> history t l st st2
  | history_decide l st st1 st2 ms : history t l st st1 -> task_shed_choose st1 ms = Ok st2 ->
      history t (l ++ [current_tid (cpu st2)]) st st2.

(** [t] can run, and the scheduler is between two decisions. *)
Definition waits (t : Z) (st : tstate) : Prop :=
  sched_ok st /\ calm st /\ 1 <= t /\ exists x, slot (threads st) t = Some x /\ status x = RUNNABLE.

Lemma waits_eligible t st ms : waits t st -> eligible (threads st) ms t = true /\ t <= thread_count st.
Proof.
  intros ((_ & Hz & _) & _ & Ht & x & Hs & Hr). split; [unfold eligible, can_run; by rewrite Hs, Hr|]. pose proof (slot_range _ _ _ Hs). lia.
Qed.

Lemma first_free_spec ts : forall n, match first_free ts n with
  | Some k => n <= k < n + zlen ts /\ ts !! Z.to_nat (k - n) = Some None
  | None => Forall is_Some ts
  end.
Proof.
  induction ts as [|[x|] ts IH]; intros n; cbn [first_free]; [constructor| |split; [rewrite zlen_cons; pose proof (zlen_nonneg ts); lia|by rewrite Z.sub_diag]].
  specialize (IH (n + 1)). destruct (first_free ts (n + 1)) as [k|]; [|by constructor]. destruct IH as [Hk E]. rewrite zlen_cons. split; [lia|].
  replace (Z.to_nat (k - n)) with (S (Z.to_nat (k - (n + 1)))) by lia. exact E.
Qed.

(** A new thread takes a free slot or a new one. *)
Lemma thread_add_slots ts x : zlen ts <= zlen (thread_add ts x).1 <= zlen ts + 1 /\
  forall j, slot (thread_add ts x).1 j = slot ts j \/ slot ts j = None /\ slot (thread_add ts x).1 j = Some x.
Proof.
  unfold thread_add. pose proof (first_free_spec ts 0) as Hf. destruct (first_free ts 0) as [k|]; cbn [fst].
  - destruct Hf as [Hk E]. rewrite Z.sub_0_r in E. split; [rewrite zlen_insert; lia|]. intros j. rewrite slot_insert by lia. case_decide as Hd; [|by left].
    subst j. right. split; [|done]. unfold slot. by rewrite (proj2 (Z.leb_le 0 k)), E by lia.
  - split; [rewrite zlen_app; change (zlen [Some x]) with 1; lia|]. intros j. unfold slot. destruct (Z.leb_spec 0 j); [|by left].
    destruct (Nat.lt_ge_cases (Z.to_nat j) (length ts)); [left; by rewrite lookup_app_l|]. rewrite lookup_app_r, (lookup_ge_None_2 ts) by lia.
    destruct (Z.to_nat j - length ts)%nat as [|n]; [by right|left; by destruct n].
Qed.

Lemma removed_slot ts tid ts' j : 0 <= tid -> thread_remove ts tid = Ok ts' -> zlen ts' = zlen ts /\ slot ts' j = if decide (j = tid) then None else slot ts j.
Proof.
  intros Ht. unfold thread_remove. rewrite Z.geb_leb. destruct (Z.leb_spec (zlen ts) tid) as [Hle|Hlt].
  - intros [= <-]. split; [done|]. case_decide as Hd; [|done]. subst j. destruct (slot ts tid) eqn:E; [apply slot_range in E; lia|done].
  - rewrite store_in_range by lia. intros [= <-]. split; [apply zlen_insert|]. unfold slot. destruct (Z.leb_spec 0 j); [|case_decide; [lia|done]].
    case_decide as Hd; [subst j; rewrite list_lookup_insert_eq by (unfold zlen in *; lia); done|by rewrite list_lookup_insert_ne by lia].
Qed.

(** The array after a change, for the scheduler. *)
Lemma waits_threads t st ts n : waits t st -> thread_count st <= n -> zlen ts <= n + 1 ->
  (forall j x, slot ts j = Some x -> running x = true -> j = current_tid (cpu st) \/ status x = DEAD) ->
  (exists x, slot ts t = Some x /\ status x = RUNNABLE) ->
  waits t (mk_tstate ts n (cpu st) (held_locks st) (sheduler_ready st) (resheds st)).
Proof.
  intros ((Hl & Hz & Hc & Hb & Hlk & Hrun) & Hcalm & Ht & _) Hn Hts Hr Hx. split; [|split; [exact Hcalm|by split]].
  split; [cbn; lia|]. split; [exact Hts|]. split; [done|]. split; [done|]. split; [done|exact Hr].
Qed.

Lemma waits_change t st st' : waits t st -> change t st st' -> waits t st' /\ thread_count st <= thread_count st' /\ last_tid (cpu st') = last_tid (cpu st).
Proof.
  intros Hw Hc. pose proof Hw as ((Hl & Hz & Hcur & Hb & Hlk & Hrun) & Hcalm & Ht & x & Hx & Hrx). destruct Hc as [A tid f st st' r E Htid Hf|st pid kmode|st tid y Hy Hd|st tid ts Htid Hne E].
  - rewrite (with_thread_ok st tid f Hcalm Htid) in E. destruct (slot (threads st) tid) as [y|] eqn:Ey; injection E as <- _; [|split; [done|lia]].
    destruct (Hf y eq_refl) as (H1 & H2 & H3). split; [|cbn; lia]. apply (waits_threads t st _ (thread_count st) Hw); [lia|by rewrite zlen_insert| |].
    + intros j z. rewrite slot_insert by (by eapply slot_range). case_decide as Hj; [|apply Hrun]. subst j. intros [= <-]. rewrite H1. intros Hr.
      destruct (Hrun tid y Ey Hr) as [?|Hdead]; [by left|right; by apply H2].
    + rewrite slot_insert by (by eapply slot_range). case_decide as Hj; [|by exists x]. subst tid. rewrite Hx in Ey. injection Ey as ->. exists (f y).1. split; [done|]. by rewrite H3.
  - destruct (thread_add_slots (threads st) (mk_thread pid CREATED kmode 0 false false 0)) as [Hzl Hsl]. split; [|cbn; lia].
    apply (waits_threads t st _ (thread_count st + 1) Hw); [lia|lia| |].
    + intros j z Hj Hr. destruct (Hsl j) as [E|[_ E]]; rewrite E in Hj; [by apply (Hrun j)|by injection Hj as <-].
    + destruct (Hsl t) as [->|[E _]]; [by exists x|by rewrite E in Hx].
  - split; [|cbn; lia]. apply (waits_threads t st _ (thread_count st) Hw); [lia|by rewrite zlen_insert| |].
    + intros j z. rewrite slot_insert by (by eapply slot_range). case_decide; [|apply Hrun]. intros [= <-] _. by right.
    + rewrite slot_insert by (by eapply slot_range). case_decide as Hj; [|by exists x]. subst tid. rewrite Hx in Hy. injection Hy as ->. congruence.
  - destruct (removed_slot _ _ _ 0 Htid E) as [Hzl _]. split; [|cbn; lia]. apply (waits_threads t st _ (thread_count st) Hw); [lia|lia| |].
    + intros j z. destruct (removed_slot _ _ _ j Htid E) as [_ ->]. case_decide; [done|apply Hrun].
    + destruct (removed_slot _ _ _ t Htid E) as [_ ->]. rewrite decide_False by done. by exists x.
Qed.

(** How far the turn of [t] is away, when there are never more than [n] threads. *)
Definition distance (n last t : Z) : Z := if last <? t then t - last else n - last + t.

Lemma waits_decide t n st ms : waits t st -> thread_count st <= n -> exists st', task_shed_choose st ms = Ok st' /\ waits t st' /\
  thread_count st' = thread_count st /\
  (current_tid (cpu st') = t \/ distance n (last_tid (cpu st')) t < distance n (last_tid (cpu st)) t).
Proof.
  intros Hw Hn. pose proof (waits_eligible t st ms Hw) as [He Hct]. destruct Hw as (Hok & Hcalm & Ht & x & Hx & Hrx). pose proof Hok as (Hl & _).
  destruct (shed_choose_cases st ms Hok) as (st' & E & [_ Hsr] & Hh & Ec & Hok' & _ & Hmv & Hcase). exists st'. split; [done|]. split; [split; [done|split]|].
  - split; [rewrite Hh; apply Hcalm|done].
  - split; [done|]. specialize (Hmv t). rewrite Hx in Hmv. destruct (slot (threads st') t) as [y|]; [|done]. exists y. split; [done|].
    destruct Hmv as (_ & _ & _ & [Ey|[_ Ey]] & _); congruence.
  - split; [done|]. destruct Hcase as [(_ & _ & Hno)|(z & _ & _ & Hp & _ & Hlast & _ & Hmin)]; [by rewrite Hno in He by lia|].
    destruct (decide (current_tid (cpu st') = t)) as [|Hne]; [by left|right]. specialize (Hmin t ltac:(lia) He). rewrite Hlast.
    revert Hmin. rewrite !turn_cases by lia. unfold distance. case_cmp; lia.
Qed.

Lemma history_waits t l st st' : history t l st st' -> waits t st -> waits t st' /\ thread_count st <= thread_count st'.
Proof.
  induction 1 as [st|l st st1 st2 _ IH Hc|l st st1 st2 ms _ IH E]; intros Hw; [done|destruct (IH Hw) as [Hw1 Hn]..].
  - destruct (waits_change t st1 st2 Hw1 Hc) as (Hw2 & Hn2 & _). split; [done|lia].
  - destruct (waits_decide t (thread_count st1) st1 ms Hw1 ltac:(lia)) as (st2' & E' & Hw2 & Hn2 & _). rewrite E in E'. injection E' as <-. split; [done|lia].
Qed.

Lemma history_distance t l st st' : history t l st st' -> waits t st -> t ∉ l -> forall n, thread_count st' <= n ->
  distance n (last_tid (cpu st')) t + Z.of_nat (length l) <= distance n (last_tid (cpu st)) t.
Proof.
  induction 1 as [st|l st st1 st2 Hh IH Hc|l st st1 st2 ms Hh IH E]; intros Hw Hnot n Hn; [simpl; lia|destruct (history_waits t l st st1 Hh Hw) as [Hw1 _]..].
  - destruct (waits_change t st1 st2 Hw1 Hc) as (_ & Hn2 & ->). apply IH; [done|done|lia].
  - destruct (waits_decide t n st1 ms Hw1) as (st2' & E' & _ & Hn2 & Hdec).
    { destruct (waits_decide t (thread_count st1) st1 ms Hw1 ltac:(lia)) as (st2' & E' & _ & Hn2 & _). rewrite E in E'. injection E' as <-. lia. }
    rewrite E in E'. injection E' as <-. rewrite not_elem_of_app, list_elem_of_singleton in Hnot. destruct Hnot as [Hnot Hne]. destruct Hdec as [Hdec|Hdec]; [congruence|].
    specialize (IH Hw Hnot n ltac:(lia)). rewrite length_app. simpl. lia.
Qed.


(** Thread 4 waits; 3 wakes up by itself, a sixth thread comes and is started, 2 is woken, 1 blocks,
    and five decisions are made. *)
Module FairDemo.
Definition status_op (st : tstate) (tid : Z) (s : thread_status) : tstate := match task_tset_status st tid s with Ok st' => st' | _ => st end.
Definition decide_at (st : tstate) (ms : Z) : tstate := match task_shed_choose st ms with Ok st' => st' | _ => st end.
Definition added (st : tstate) : tstate :=
  mk_tstate (thread_add (threads st) (mk_thread 3 CREATED true 0 false false 0)).1 (thread_count st + 1) (cpu st) (held_locks st) (sheduler_ready st) (resheds st).
Definition s1 : tstate := decide_at (status_op demo_threads 2 RUNNABLE) 40.
Definition s2 : tstate := decide_at (status_op (added s1) 5 RUNNABLE) 60.
Definition s3 : tstate := decide_at (status_op s2 1 BLOCKED) 70.
Definition s5 : tstate := decide_at (decide_at s3 80) 80.

Lemma op_change t st tid s : tid <> t -> 0 <= tid -> (match slot (threads st) tid with Some x => bool_decide (status x = DEAD) | None => false end) = false ->
  (match task_tset_status st tid s with Ok _ => true | _ => false end) = true -> change t st (status_op st tid s).
Proof.
  intros Hne Ht Hd Hok. unfold status_op, task_tset_status in *. destruct (with_thread st tid _) as [[st' r]| | |] eqn:E; try done. cbn [mbind res_bind].
  apply (change_op t tid _ st st' r E Ht). intros x Hx. rewrite Hx in Hd. apply bool_decide_eq_false in Hd. by split_and!.
Qed.

Lemma decide_history t l st st1 ms tid : history t l st st1 -> (match task_shed_choose st1 ms with Ok _ => true | _ => false end) = true ->
  current_tid (cpu (decide_at st1 ms)) = tid -> history t (l ++ [tid]) st (decide_at st1 ms).
Proof.
  intros Hh Hok <-. unfold decide_at. destruct (task_shed_choose st1 ms) as [st2| | |] eqn:E; try done. by apply (history_decide t l st st1 st2 ms).
Qed.

Lemma run : history 4 [2; 3; 4; 5; 2] demo_threads s5.
Proof.
  apply (decide_history 4 [2; 3; 4; 5] demo_threads (decide_at s3 80) 80 2); [|vm_compute; reflexivity..].
  apply (decide_history 4 [2; 3; 4] demo_threads s3 80 5); [|vm_compute; reflexivity..].
  apply (decide_history 4 [2; 3] demo_threads _ 70 4); [|vm_compute; reflexivity..].
  eapply history_change; [|apply op_change; [done|done|vm_compute; reflexivity..]].
  apply (decide_history 4 [2] demo_threads _ 60 3); [|vm_compute; reflexivity..].
  eapply history_change; [|apply op_change; [done|done|vm_compute; reflexivity..]].
  eapply history_change; [|apply change_add].
  apply (decide_history 4 [] demo_threads _ 40 2); [|vm_compute; reflexivity..].
  eapply history_change; [apply history_start|apply op_change; [done|done|vm_compute; reflexivity..]].
Qed.

Lemma fourth_waits : waits 4 demo_threads.
Proof. split; [exact demo_sched_ok|]. split; [by split|]. split; [done|]. by eexists. Qed.
End FairDemo.

