(* ===== verification/Path.v ===== *)
(** * Paths: the [path_walk] macros of include/aex/fs/fs.h and [fs_to_absolute_path] of fs/fs.c

    A path is the memory from its first byte on.  A fresh heap object is as long as the pieces
    [kmalloc] gives out for it (see Pool.v) and zeroed. *)
From S2P Require Import Prelude Strings Format Pool.

(** What [kmalloc(size)] returns a pointer to. *)
Definition heap_object (size : Z) : list Z := replicate (Z.to_nat (ceil_to_alignment size)) 0.

(** [while ( *local == '/') local++;] *)
Fixpoint skip_slashes (local : list Z) : res (list Z) :=
  match local with
  | [] => Fault
  | c :: r => if c =? 47 then skip_slashes r else Ok local
  end.

(** [path_count_segments] *)
Fixpoint count_segments_loop (fuel : nat) (local : list Z) (count : Z) : res Z :=
  local ← skip_slashes local;
  n ← strchrnul local 47;
  c ← load local 0;
  if (n =? 0) && (c =? 0) then Ok count
  else
    match fuel with
    | O => OutOfFuel
    | S f => count_segments_loop f (drop (Z.to_nat n) local) (count + 1)
    end.

Definition path_count_segments (path : list Z) : res Z := count_segments_loop (length path) path 0.

Definition SEGMENT_SIZE : Z := 256.

(** One test of [path_walk]: the segment buffer and the rest of the path, or the end.
    [scratch] is the local buffer of [snprintf]. *)
Definition path_next (segment local scratch : list Z) : res (option (list Z * list Z)) :=
  local ← skip_slashes local;
  n ← strchrnul local 47;
  c ← load local 0;
  if (n =? 0) && (c =? 0) then Ok None
  else
    let len := n + 1 in
    '(seg, _) ← snprintf segment (if len >? 256 then 256 else len) (bytes "%s" ++ [0]) [VStr local] scratch;
    Ok (Some (seg, drop (Z.to_nat (len - 1)) local)).

(** ** fs_to_absolute_path *)

(** [while ( *ptr != '/' && ptr != _path) --ptr;] *)
Fixpoint back_to_slash (fuel : nat) (_path : list Z) (ptr : Z) : res Z :=
  c ← load _path ptr;
  if negb (c =? 47) && negb (ptr =? 0) then
    match fuel with O => OutOfFuel | S f => back_to_slash f _path (ptr - 1) end
  else Ok ptr.

Fixpoint abs_loop (fuel : nat) (segment local scratch _path : list Z) (ptr : Z) : res (list Z * Z) :=
  o ← path_next segment local scratch;
  match o with
  | None => Ok (_path, ptr)
  | Some (segment, local) =>
      match fuel with
      | O => OutOfFuel
      | S f =>
          dd ← strcmp segment (bytes ".." ++ [0]);
          d ← strcmp segment (bytes "." ++ [0]);
          if dd =? 0 then
            ptr ← back_to_slash (Z.to_nat ptr) _path ptr;
            abs_loop f segment local scratch _path ptr
          else if d =? 0 then abs_loop f segment local scratch _path ptr
          else
            p ← store _path ptr 47;
            p ← strcpy_loop p (ptr + 1) segment;
            n ← strlen segment;
            abs_loop f segment local scratch p (ptr + 1 + n)
      end
  end.

(** The copy of the path, absolute. *)
Definition abs_source (loc : list Z) (base : option (list Z)) (scratch : list Z) : res (list Z) :=
  c ← load loc 0;
  n ← strlen loc;
  match (if c =? 47 then None else base) with
  | None => strcpy (heap_object n) loc
  | Some b =>
      m ← strlen b;
      '(p, _) ← snprintf (heap_object (n + m + 1)) (n + m + 1) (bytes "%s%s" ++ [0]) [VStr b; VStr loc] scratch;
      Ok p
  end.

Definition fs_to_absolute_path (loc : list Z) (base : option (list Z)) (segment scratch : list Z)
  : res (list Z) :=
  path ← abs_source loc base scratch;
  n ← strlen path;
  left ← path_count_segments path;
  '(_path, ptr) ← abs_loop (length path) segment (drop 1 path) scratch (heap_object (n + 1)) 0;
  last ← load path (n - 1);
  if last =? 47 then p ← store _path ptr last; store p (ptr + 1) 0
  else Ok _path.

(** ** Walking a path *)

(** A path segment: not empty, short enough, no slash. *)
Definition seg_ok (s : list Z) : Prop :=
  s <> [] /\ zlen s <= 255 /\ nonul s /\ Forall (fun c => c <> 47) s.

Lemma skip_slashes_ok k l : head l <> Some 47 -> l <> [] -> skip_slashes (replicate k 47 ++ l) = Ok l.
Proof.
  intros Hh Hl. induction k as [|k IH]; cbn [replicate app].
  - destruct l as [|c l]; [done|]. simpl. destruct (Z.eqb_spec c 47); [subst; done|done].
  - simpl. apply IH.
Qed.

Lemma strchrnul_seg s r : Forall (fun c => c <> 47) s -> nonul s -> (exists c r', r = c :: r' /\ (c = 47 \/ c = 0)) ->
  strchrnul (s ++ r) 47 = Ok (zlen s).
Proof.
  intros H47 Hs (c & r' & -> & Hc). induction s as [|x s IH]; simpl.
  - destruct Hc as [->| ->]; [done|]. by rewrite orb_true_r.
  - apply Forall_cons in H47 as [Hx H47]. apply nonul_cons in Hs as [Hr Hs].
    rewrite s8_eqb by done. destruct (Z.eqb_spec x 47); [done|].
    destruct (Z.eqb_spec x 0); [lia|]. cbn [orb]. rewrite IH by done. cbn [mbind res_bind]. by rewrite zlen_cons.
Qed.

(** The text of a plain [%s]. *)
Lemma item_text_s s r args : nonul s ->
  item_text (Dir false [] None 115) (VStr (s ++ 0 :: r) :: args) = Some (s, args).
Proof.
  intros Hs. unfold item_text. cbn [dir_of]. change (is_number _) with false. cbv iota.
  change (is_type _ "s") with true. cbv iota. rewrite cstr_nonul by done. unfold padded, pad_len.
  change (dec_val 0 _) with 0. pose proof (zlen_nonneg s).
  by replace (Z.to_nat (0 - zlen s)) with 0%nat by lia.
Qed.

(** What a walk sees next: after any number of slashes, the segment up to the next slash or the
    end. *)
Lemma path_next_seg segment scratch k s r after :
  seg_ok s -> nonul r -> (r = [] \/ head r = Some 47) -> zlen (s ++ r ++ 0 :: after) < 2 ^ 31 ->
  Forall (fun c => 0 <= c < 256) after -> zlen segment = SEGMENT_SIZE -> zlen scratch = FMT_BUFFER ->
  path_next segment (replicate k 47 ++ s ++ r ++ 0 :: after) scratch
  = Ok (Some (splice segment 0 (s ++ [0]), r ++ 0 :: after)).
Proof.
  intros (Hne & Hlen & Hs & H47) Hr Hhd Hl Haf Hseg Hscr. unfold path_next, SEGMENT_SIZE in *.
  destruct s as [|c0 s0] eqn:Es; [done|]. rewrite <- Es in *.
  assert (c0 <> 47 /\ c0 <> 0) as [Hc1 Hc2].
  { rewrite Es in H47, Hs. apply Forall_cons in H47 as [? _]. apply nonul_cons in Hs as [? _]. lia. }
  rewrite skip_slashes_ok by (rewrite Es; cbn; congruence). cbn [mbind res_bind].
  rewrite strchrnul_seg; [|done|done|destruct Hhd as [->|Hhd]; [by exists 0, after; auto|]; destruct r as [|c r]; simplify_eq/=; exists 47, (r ++ 0 :: after); auto].
  cbn [mbind res_bind]. assert (load (s ++ r ++ 0 :: after) 0 = Ok c0) as -> by (by rewrite Es).
  cbn [mbind res_bind]. assert (0 < zlen s) by (rewrite Es, zlen_cons; pose proof (zlen_nonneg s0); lia).
  destruct (Z.eqb_spec (zlen s) 0); [lia|]. cbn [andb]. rewrite Z.gtb_ltb.
  destruct (Z.ltb_spec 256 (zlen s + 1)); [lia|].
  assert (bytes "%s" ++ [0] = print_items [Dir false [] None 115] ++ 0 :: []) as -> by reflexivity.
  rewrite (snprintf_ok segment (zlen s + 1) [Dir false [] None 115] [] [VStr (s ++ r ++ 0 :: after)] scratch (s ++ r)).
  - cbn [mbind res_bind]. replace (zlen s + 1 - 1) with (zlen s) by lia. unfold zlen. rewrite !Nat2Z.id.
    by rewrite take_app_length, drop_app_length.
  - repeat constructor; unfold is_digit; simpl; try (done || lia).
  - repeat constructor; [done|]. apply Forall_app. split; [eapply Forall_impl; [exact Hs|]; simpl; lia|].
    apply Forall_app. split; [eapply Forall_impl; [exact Hr|]; simpl; lia|]. constructor; [lia|done].
  - done.
  - rewrite (app_assoc s r (0 :: after)). cbn [render]. rewrite item_text_s by (by apply Forall_app). simpl.
    by rewrite app_nil_r.
  - lia.
  - lia.
Qed.

Lemma path_next_end segment scratch k after :
  path_next segment (replicate k 47 ++ 0 :: after) scratch = Ok None.
Proof. unfold path_next. rewrite skip_slashes_ok by done. done. Qed.

(** ** Canonical paths *)

(** A path written with [S k] slashes before each segment and [t] at its end. *)
Definition spell (items : list (nat * list Z)) (t : nat) : list Z :=
  (items ≫= fun '(k, s) => replicate (S k) 47 ++ s) ++ replicate t 47.

(** One slash before each segment. *)
Definition canon (segs : list (list Z)) : list Z := segs ≫= fun s => 47 :: s.

(** Segments that name a child. *)
Definition child_ok (s : list Z) : Prop := seg_ok s /\ s <> bytes "." /\ s <> bytes "..".

Lemma spell_cons k s items t : spell ((k, s) :: items) t = replicate (S k) 47 ++ s ++ spell items t.
Proof. unfold spell. cbn [mbind list_bind]. by rewrite <- !app_assoc. Qed.

Lemma spell_head items t : spell items t = [] \/ head (spell items t) = Some 47.
Proof. destruct items as [|[k s] items]; [destruct t; auto|]. right. by rewrite spell_cons. Qed.

Lemma canon_cons s segs : canon (s :: segs) = 47 :: s ++ canon segs.
Proof. reflexivity. Qed.

Lemma canon_app a b : canon (a ++ b) = canon a ++ canon b.
Proof. apply bind_app. Qed.

Lemma nonul_slashes k : nonul (replicate k 47).
Proof. apply Forall_replicate. lia. Qed.

Lemma spell_nonul items t : Forall (fun '(_, s) => nonul s) items -> nonul (spell items t).
Proof.
  induction items as [|[k s] items IH]; intros H; [apply nonul_slashes|].
  apply Forall_cons in H as [Hs H]. rewrite spell_cons. apply Forall_app. split; [apply nonul_slashes|].
  apply Forall_app. split; [done|by apply IH].
Qed.

Lemma canon_le_spell items t : zlen (canon (snd <$> items)) + Z.of_nat t <= zlen (spell items t).
Proof.
  induction items as [|[k s] items IH]; [unfold spell; simpl; unfold zlen; rewrite length_replicate; simpl; lia|].
  rewrite spell_cons. cbn [fmap list_fmap snd]. rewrite canon_cons, zlen_cons, !zlen_app.
  unfold zlen at 3. rewrite length_replicate. lia.
Qed.

Lemma splice_seg (segment s : list Z) : zlen s <= 255 -> zlen segment = SEGMENT_SIZE ->
  exists r, splice segment 0 (s ++ [0]) = s ++ 0 :: r /\ zlen (splice segment 0 (s ++ [0])) = SEGMENT_SIZE.
Proof.
  unfold SEGMENT_SIZE. intros Hs Hl. exists (drop (length (s ++ [0])) segment). split.
  - rewrite splice_0. by rewrite <- app_assoc.
  - rewrite zlen_splice; [done|lia|]. rewrite zlen_app. change (zlen [0]) with 1. lia.
Qed.

(** The segments of a spelled path, counted. *)
Lemma count_segments_ok t after items : Forall (fun '(_, s) => seg_ok s) items -> forall f c,
  count_segments_loop (length items + f) (spell items t ++ 0 :: after) c = Ok (c + zlen items).
Proof.
  induction items as [|[k s] items IH]; intros Hit f c.
  - change (spell [] t) with (replicate t 47). assert (skip_slashes (replicate t 47 ++ 0 :: after) = Ok (0 :: after)) as E
      by (by apply skip_slashes_ok). destruct f; cbn [length Nat.add count_segments_loop]; rewrite E; simpl; by rewrite Z.add_0_r.
  - apply Forall_cons in Hit as [(Hne & _ & Hnn & H47) Hit]. cbn [length Nat.add count_segments_loop].
    rewrite spell_cons, <- !app_assoc. destruct s as [|x s]; [done|].
    rewrite skip_slashes_ok by (simpl; apply Forall_cons in H47 as [? _]; congruence). cbn [mbind res_bind].
    rewrite strchrnul_seg; [|done|done|].
    2: { destruct (spell_head items t) as [->|Hh]; [by exists 0, after; auto|].
         destruct (spell items t) as [|y l]; simplify_eq/=. exists 47, (l ++ 0 :: after). auto. }
    cbn [mbind res_bind app]. rewrite load_0. cbn [mbind res_bind]. rewrite zlen_cons. pose proof (zlen_nonneg s).
    destruct (Z.eqb_spec (zlen s + 1) 0); [lia|]. cbn [andb].
    replace (Z.to_nat (zlen s + 1)) with (length (x :: s)) by (unfold zlen; simpl; lia).
    change (x :: s ++ spell items t ++ 0 :: after) with ((x :: s) ++ spell items t ++ 0 :: after).
    rewrite drop_app_length, IH by done. rewrite zlen_cons. f_equal. lia.
Qed.

(** One child segment is appended at the write position, after a slash. *)
Lemma abs_loop_child scratch after f segment k s r pre tl :
  zlen scratch = FMT_BUFFER -> Forall (fun c => 0 <= c < 256) after -> zlen segment = SEGMENT_SIZE ->
  child_ok s -> nonul r -> (r = [] \/ head r = Some 47) -> zlen (s ++ r ++ 0 :: after) < 2 ^ 31 ->
  (length s + 2 <= length tl)%nat ->
  abs_loop (S f) segment (replicate k 47 ++ s ++ r ++ 0 :: after) scratch (pre ++ tl) (zlen pre)
  = abs_loop f (splice segment 0 (s ++ [0])) (r ++ 0 :: after) scratch
      (pre ++ (47 :: s) ++ 0 :: drop (length s + 2) tl) (zlen (pre ++ 47 :: s)).
Proof.
  intros Hscr Haf Hseg (Hok & Hd1 & Hd2) Hr Hhd Hl Htl. pose proof Hok as (Hne & Hlen & Hnn & H47).
  cbn [abs_loop]. rewrite path_next_seg by done. cbn [mbind res_bind].
  destruct (splice_seg segment s Hlen Hseg) as (sr & -> & _).
  destruct (strcmp_total s (bytes "..") sr [] Hnn ltac:(decided)) as (v1 & -> & Hv1).
  destruct (strcmp_total s (bytes ".") sr [] Hnn ltac:(decided)) as (v2 & -> & Hv2). cbn [mbind res_bind].
  destruct (Z.eqb_spec v1 0); [tauto|]. destruct (Z.eqb_spec v2 0); [tauto|].
  destruct tl as [|x tl]; simpl in Htl; [lia|]. rewrite store_app. cbn [mbind res_bind].
  replace (zlen pre + 1) with (zlen (pre ++ [47])) by (rewrite zlen_app; done).
  replace (pre ++ 47 :: tl) with ((pre ++ [47]) ++ tl) by (by rewrite <- app_assoc).
  rewrite strcpy_loop_ok by (done || lia). cbn [mbind res_bind]. rewrite strlen_cstr by done. cbn [mbind res_bind].
  f_equal.
  - replace (length s + 2)%nat with (S (S (length s))) by lia. rewrite <- app_assoc. reflexivity.
  - rewrite !zlen_app, !zlen_cons. unfold zlen. simpl. lia.
Qed.

(** Child segments are appended in order. *)
Lemma abs_loop_children scratch after r : zlen scratch = FMT_BUFFER -> Forall (fun c => 0 <= c < 256) after ->
  nonul r -> (r = [] \/ head r = Some 47) -> forall items segment pre tl,
  zlen segment = SEGMENT_SIZE -> Forall (fun '(_, s) => child_ok s) items ->
  zlen (spell items 0 ++ r ++ 0 :: after) < 2 ^ 31 -> (length (canon items.*2) < length tl)%nat ->
  exists segment' tl', zlen segment' = SEGMENT_SIZE /\
    (length tl' + length (canon items.*2) = length tl)%nat /\ (items <> [] \/ head tl = Some 0 -> head tl' = Some 0) /\
    forall f, abs_loop (length items + f) segment (spell items 0 ++ r ++ 0 :: after) scratch (pre ++ tl) (zlen pre)
      = abs_loop f segment' (r ++ 0 :: after) scratch ((pre ++ canon items.*2) ++ tl') (zlen (pre ++ canon items.*2)).
Proof.
  intros Hscr Haf Hr Hhd. induction items as [|[k s] items IH]; intros segment pre tl Hseg Hit Hl Htl.
  - exists segment, tl. split_and!; [done|simpl; lia|by intros [?|?]|]. intros f. by rewrite app_nil_r.
  - apply Forall_cons in Hit as [Hs Hit]. pose proof Hs as ((Hne & Hlen & Hnn & H47) & _).
    rewrite spell_cons, <- !app_assoc in *. cbn [fmap list_fmap snd] in *. rewrite canon_cons in *.
    cbn [length] in Htl. rewrite length_app in Htl.
    destruct (IH (splice segment 0 (s ++ [0])) (pre ++ 47 :: s) (0 :: drop (length s + 2) tl))
      as (segment' & tl' & Hseg' & Hlen' & Hhd' & Hrun).
    + by destruct (splice_seg segment s Hlen Hseg) as (_ & _ & ?).
    + done.
    + rewrite !zlen_app in Hl. rewrite !zlen_app. pose proof (zlen_nonneg s). pose proof (zlen_nonneg (replicate (S k) 47)). lia.
    + simpl. rewrite length_drop. lia.
    + exists segment', tl'. simpl in Hlen'. rewrite length_drop in Hlen'. split_and!.
      * done.
      * simpl. rewrite length_app. lia.
      * intros _. apply Hhd'. by right.
      * intros f. cbn [length Nat.add].
        rewrite (app_assoc (spell items 0) r (0 :: after)), abs_loop_child; try done.
        -- rewrite <- (app_assoc (spell items 0)), (app_assoc pre), Hrun. rewrite <- !app_assoc. cbn [app]. by rewrite <- !app_assoc.
        -- apply Forall_app. split; [|done]. apply spell_nonul. eapply Forall_impl; [exact Hit|].
           by intros [? x] [(_ & _ & ? & _) _].
        -- destruct (spell_head items 0) as [->|]; [done|]. right. by destruct (spell items 0).
        -- rewrite <- !app_assoc. rewrite !zlen_app in Hl. rewrite !zlen_app. pose proof (zlen_nonneg (replicate (S k) 47)). lia.
        -- lia.
Qed.

Lemma abs_loop_end f segment k after scratch p ptr :
  abs_loop f segment (replicate k 47 ++ 0 :: after) scratch p ptr = Ok (p, ptr).
Proof. destruct f; cbn [abs_loop]; rewrite path_next_end; reflexivity. Qed.

Lemma abs_loop_slash f segment l scratch p ptr :
  abs_loop f segment (47 :: l) scratch p ptr = abs_loop f segment l scratch p ptr.
Proof. by destruct f. Qed.

(** [path_walk] starts at the second byte, which makes no difference after a slash. *)
Lemma abs_loop_skip f segment items r scratch p ptr : items <> [] ->
  abs_loop f segment (drop 1 (spell items 0 ++ r)) scratch p ptr
  = abs_loop f segment (spell items 0 ++ r) scratch p ptr.
Proof. destruct items as [|[k s] items]; [done|]. intros _. rewrite spell_cons. cbn [replicate app drop]. by rewrite abs_loop_slash. Qed.

Lemma length_canon_spell items t : (length (canon items.*2) + t <= length (spell items t))%nat.
Proof. pose proof (canon_le_spell items t). unfold zlen in *. lia. Qed.

Lemma length_items_canon (items : list (nat * list Z)) : (length items <= length (canon items.*2))%nat.
Proof.
  induction items as [|[k s] items IH]; [done|]. cbn [fmap list_fmap snd]. rewrite canon_cons.
  simpl. rewrite length_app. lia.
Qed.

Lemma length_heap_object size : 0 <= size -> size <= zlen (heap_object size) < size + 16.
Proof.
  intros. unfold heap_object, ceil_to_alignment, zlen, POOL_PIECE_SIZE. rewrite length_replicate. change (16 - 1) with 15.
  pose proof (Z.div_mod (size + 15) 16). pose proof (Z.mod_pos_bound (size + 15) 16). lia.
Qed.

Lemma heap_object_odd size : 0 <= size -> size mod 16 <> 0 -> size < zlen (heap_object size).
Proof.
  intros ? Hm. unfold heap_object, ceil_to_alignment, zlen, POOL_PIECE_SIZE. rewrite length_replicate. change (16 - 1) with 15.
  pose proof (Z.div_mod (size + 15) 16). pose proof (Z.mod_pos_bound (size + 15) 16).
  assert (size <> (size + 15) / 16 * 16); [|lia]. intros E. apply Hm. rewrite E. apply Z.mod_mul. lia.
Qed.

Lemma heap_object_bytes size : Forall (fun c => 0 <= c < 256) (heap_object size).
Proof. apply Forall_replicate. lia. Qed.

(** The copy made of an absolute path that leaves room for its NUL. *)
Lemma abs_source_absolute l rl base scratch : nonul l -> head l = Some 47 -> zlen l mod 16 <> 0 ->
  abs_source (l ++ 0 :: rl) base scratch = Ok (l ++ 0 :: drop (S (length l)) (heap_object (zlen l))).
Proof.
  intros Hn Hh Hm. unfold abs_source. destruct l as [|c l']; [done|]. injection Hh as ->.
  cbn [app]. rewrite load_0. cbn [mbind res_bind]. change (47 =? 47) with true. cbv iota.
  change (47 :: l' ++ 0 :: rl) with ((47 :: l') ++ 0 :: rl). rewrite strlen_cstr by done. cbn [mbind res_bind].
  pose proof (heap_object_odd (zlen (47 :: l')) (zlen_nonneg _) Hm). unfold zlen in *.
  rewrite strcpy_ok by (done || lia). done.
Qed.

(** The copy made of a relative path: the base and the path, one after the other. *)
Lemma abs_source_relative l rl b rb scratch : nonul l -> nonul b -> head l <> Some 47 ->
  zlen (l ++ 0 :: rl) < 2 ^ 31 -> zlen (b ++ 0 :: rb) < 2 ^ 31 -> zlen (b ++ l) + 1 <= 2 ^ 31 ->
  Forall (fun c => 0 <= c < 256) rl -> Forall (fun c => 0 <= c < 256) rb -> zlen scratch = FMT_BUFFER ->
  abs_source (l ++ 0 :: rl) (Some (b ++ 0 :: rb)) scratch
  = Ok ((b ++ l) ++ 0 :: drop (S (length (b ++ l))) (heap_object (zlen (b ++ l) + 1))).
Proof.
  intros Hn Hb Hh Hl1 Hl2 Hl3 Hr1 Hr2 Hscr. unfold abs_source.
  assert (exists c, load (l ++ 0 :: rl) 0 = Ok c /\ c <> 47) as (c & -> & Hc).
  { destruct l as [|c l]; [by exists 0|]. exists c. split; [done|]. simpl in Hh. congruence. }
  cbn [mbind res_bind]. rewrite !strlen_cstr by done. cbn [mbind res_bind].
  destruct (Z.eqb_spec c 47); [done|]. cbn [mbind res_bind]. rewrite strlen_cstr by done. cbn [mbind res_bind].
  assert (zlen l + zlen b + 1 = zlen (b ++ l) + 1) as -> by (rewrite zlen_app; lia).
  pose proof (length_heap_object (zlen (b ++ l) + 1)). pose proof (zlen_nonneg (b ++ l)).
  change (bytes "%s%s" ++ [0]) with (print_items [Dir false [] None 115; Dir false [] None 115] ++ 0 :: []).
  rewrite (snprintf_ok _ _ _ _ _ _ (b ++ l)).
  - cbn [mbind res_bind]. replace (Z.to_nat (zlen (b ++ l) + 1 - 1)) with (length (b ++ l)) by (unfold zlen; lia).
    rewrite firstn_all, splice_0. rewrite <- !app_assoc. rewrite !length_app. simpl.
    by replace (length b + (length l + 1))%nat with (S (length b + length l)) by lia.
  - repeat constructor; unfold is_digit; simpl; try (done || lia).
  - repeat constructor; try done; repeat (apply Forall_app; split); try constructor; try done; try lia;
      by eapply Forall_impl; [eassumption|]; simpl; lia.
  - done.
  - cbn [render]. rewrite item_text_s by done. cbn [mbind option_bind]. rewrite item_text_s by done. simpl.
    by rewrite app_nil_r.
  - lia.
  - lia.
Qed.

(** The bytes of a C string object below [2 GiB]. *)
Definition object_ok (m : list Z) : Prop := zlen m < 2 ^ 31 /\ Forall (fun c => 0 <= c < 256) m.

(** [names local base p]: [p] is the absolute path that [local] stands for, [local] itself or
    [local] appended to [base].  The copy of an absolute path has room for its NUL only when its
    length is no multiple of the piece size. *)
Inductive names : list Z -> option (list Z) -> list Z -> Prop :=
  | names_absolute l r base : nonul l -> head l = Some 47 -> zlen l mod POOL_PIECE_SIZE <> 0 -> names (l ++ 0 :: r) base l
  | names_relative l r b rb : nonul l -> nonul b -> head l <> Some 47 -> object_ok (l ++ 0 :: r) ->
      object_ok (b ++ 0 :: rb) -> names (l ++ 0 :: r) (Some (b ++ 0 :: rb)) (b ++ l).

Lemma names_source loc base p scratch : names loc base p -> zlen p + 32 < 2 ^ 31 -> zlen scratch = FMT_BUFFER ->
  exists after, abs_source loc base scratch = Ok (p ++ 0 :: after) /\
    Forall (fun c => 0 <= c < 256) after /\ zlen (p ++ 0 :: after) < 2 ^ 31 /\ nonul p.
Proof.
  intros Hn Hp Hscr. destruct Hn as [l r base Hl Hh Hm|l r b rb Hl Hb Hh [Ho1 Ho2] [Ho3 Ho4]].
  - rewrite abs_source_absolute by done. eexists. split_and!; [done| |..|done].
    + apply Forall_drop, heap_object_bytes.
    + rewrite zlen_app, zlen_cons. pose proof (length_heap_object (zlen l) (zlen_nonneg _)).
      unfold zlen at 2. rewrite length_drop. unfold zlen in *. lia.
  - apply Forall_app in Ho2 as [_ Ho2]. apply Forall_cons in Ho2 as [_ Ho2].
    apply Forall_app in Ho4 as [_ Ho4]. apply Forall_cons in Ho4 as [_ Ho4].
    rewrite abs_source_relative by (done || lia). eexists. split_and!; [done| |..].
    + apply Forall_drop, heap_object_bytes.
    + rewrite zlen_app, zlen_cons. pose proof (length_heap_object (zlen (b ++ l) + 1)). pose proof (zlen_nonneg (b ++ l)).
      unfold zlen at 2. rewrite length_drop. unfold zlen in *. lia.
    + by apply Forall_app.
Qed.

Lemma children_segs items :
  Forall (fun '(_, s) => child_ok s) items -> Forall (fun '(_, s) => seg_ok s) (items : list (nat * list Z)).
Proof. intros H. eapply Forall_impl; [exact H|]. by intros [? ?] [? _]. Qed.

Lemma segs_nonul items t : Forall (fun '(_, s) => seg_ok s) items -> nonul (spell items t).
Proof. intros H. apply spell_nonul. eapply Forall_impl; [exact H|]. by intros [? ?] (_ & _ & ? & _). Qed.

Lemma spell_app a b t : spell (a ++ b) t = spell a 0 ++ spell b t.
Proof. unfold spell. rewrite bind_app. cbn [replicate]. rewrite app_nil_r. by rewrite app_assoc. Qed.

Lemma spell_split items t : spell items t = spell items 0 ++ replicate t 47.
Proof. unfold spell. by rewrite <- app_assoc. Qed.

Lemma last_byte p x after : load ((p ++ [x]) ++ 0 :: after) (zlen (p ++ [x]) - 1) = Ok x.
Proof. rewrite <- app_assoc. apply load_app_at. rewrite zlen_app. unfold zlen. simpl. lia. Qed.

Lemma spell_last items t after : items <> [] -> Forall (fun '(_, s) => seg_ok s) items ->
  exists x, load (spell items t ++ 0 :: after) (zlen (spell items t) - 1) = Ok x /\ (x = 47 <-> (0 < t)%nat).
Proof.
  intros Hne Hit. destruct t as [|t].
  - destruct (exists_last Hne) as (items' & [k s] & ->). apply Forall_app in Hit as [_ Hit].
    apply Forall_cons in Hit as [(Hs & _ & _ & H47) _]. destruct (exists_last Hs) as (s' & x & ->).
    exists x. split.
    + assert (spell (items' ++ [(k, s' ++ [x])]) 0 = (spell items' 0 ++ replicate (S k) 47 ++ s') ++ [x]) as ->; [|apply last_byte].
      unfold spell. rewrite bind_app. cbn [mbind list_bind replicate]. rewrite !app_nil_r. by rewrite <- !app_assoc.
    + apply Forall_app in H47 as [_ H47]. apply Forall_cons in H47 as [? _]. split; [done|lia].
  - exists 47. split; [|split; [lia|done]]. rewrite spell_split.
    assert (replicate (S t) 47 = replicate t 47 ++ [47]) as -> by (by rewrite <- replicate_S_end).
    rewrite app_assoc. apply last_byte.
Qed.

(** The walk over a path of children, with what is left of the output object. *)
Lemma abs_walk_children items r after segment scratch size fuel :
  items <> [] -> Forall (fun '(_, s) => child_ok s) items -> nonul r -> (r = [] \/ head r = Some 47) ->
  Forall (fun c => 0 <= c < 256) after -> zlen scratch = FMT_BUFFER -> zlen segment = SEGMENT_SIZE ->
  zlen (spell items 0 ++ r ++ 0 :: after) < 2 ^ 31 -> zlen (spell items 0) < size -> (length items <= fuel)%nat ->
  exists segment' tl, zlen segment' = SEGMENT_SIZE /\ zlen (0 :: tl) + zlen (canon items.*2) >= size /\
    abs_loop fuel segment (drop 1 (spell items 0 ++ r ++ 0 :: after)) scratch (heap_object size) 0
    = abs_loop (fuel - length items) segment' (r ++ 0 :: after) scratch
        (canon items.*2 ++ 0 :: tl) (zlen (canon items.*2)).
Proof.
  intros Hne Hit Hr Hh Haf Hscr Hseg Hl Hsz Hf. pose proof (length_canon_spell items 0).
  pose proof (length_heap_object size ltac:(pose proof (zlen_nonneg (spell items 0)); lia)) as Ho.
  destruct (abs_loop_children scratch after r Hscr Haf Hr Hh items segment [] (heap_object size) Hseg Hit Hl)
    as (segment' & tl & Hs' & Hlen & Hhd & Hrun); [unfold zlen in *; lia|].
  destruct tl as [|x tl].
  { exfalso. simpl in Hlen. unfold zlen in *. lia. }
  assert (x = 0) as ->.
  { assert (head (heap_object size) = Some 0) as Hh0; [|by specialize (Hhd (or_intror Hh0)); simplify_eq/=].
    unfold heap_object in *. destruct (Z.to_nat (ceil_to_alignment size)); [|done].
    unfold zlen in *. simpl in Ho. lia. }
  exists segment', tl. split_and!; [done|unfold zlen in *; lia|].
  rewrite abs_loop_skip by done. replace fuel with (length items + (fuel - length items))%nat at 1 by lia.
  apply Hrun.
Qed.

(** The walk's count of the segments. *)
Lemma path_count_ok items t after : Forall (fun '(_, s) => seg_ok s) items ->
  path_count_segments (spell items t ++ 0 :: after) = Ok (zlen items).
Proof.
  intros Hit. unfold path_count_segments. pose proof (length_canon_spell items t). pose proof (length_items_canon items).
  replace (length (spell items t ++ 0 :: after)) with (length items + (length (spell items t ++ 0%Z :: after) - length items))%nat
    by (rewrite length_app; lia). by rewrite count_segments_ok.
Qed.

(** A copy that exactly fills its destination has no room for the NUL. *)
Lemma strcpy_loop_full s r : nonul s -> forall pre dst, length s = length dst ->
  strcpy_loop (pre ++ dst) (zlen pre) (s ++ 0 :: r) = Fault.
Proof.
  induction s as [|c s IH]; intros Hs pre dst Hl; (destruct dst as [|d dst]; [|]); simplify_eq/=.
  - rewrite app_nil_r. unfold store, upd, zlen. destruct (Z.ltb_spec (Z.of_nat (length pre)) (Z.of_nat (length pre))); [lia|].
    by rewrite andb_false_r.
  - apply nonul_cons in Hs as [Hc Hs]. destruct (Z.eqb_spec c 0); [lia|]. rewrite store_app. cbn [mbind res_bind].
    specialize (IH Hs (pre ++ [c]) dst Hl). rewrite <- app_assoc in IH. cbn [app] in IH.
    replace (zlen pre + 1) with (zlen (pre ++ [c])) by (rewrite zlen_app; done). done.
Qed.

Lemma strcpy_full s r dst : nonul s -> length s = length dst -> strcpy dst (s ++ 0 :: r) = Fault.
Proof. intros. by apply (strcpy_loop_full s r ltac:(done) []). Qed.

Lemma cstr_result (s r : list Z) (v : res (list Z)) : nonul s -> v = Ok (s ++ 0 :: r) -> (v ≫= cstr) = Ok s.
Proof. intros Hs ->. simpl. by rewrite cstr_nonul. Qed.

Lemma canon_nonul (items : list (nat * list Z)) : Forall (fun '(_, s) => child_ok s) items -> nonul (canon items.*2).
Proof.
  induction items as [|[k s] items IH]; intros H; [constructor|]. apply Forall_cons in H as [((_ & _ & Hs & _) & _) H].
  cbn [fmap list_fmap snd]. rewrite canon_cons. constructor; [lia|]. apply Forall_app. split; [done|by apply IH].
Qed.

(** The last step: a slash at the end of the path is kept. *)
Lemma abs_finish (x : Z) (t : nat) (pre tl : list Z) : (x = 47 <-> (0 < t)%nat) -> nonul pre ->
  (t = 0%nat -> head tl = Some 0) -> (t <> 0%nat -> 2 <= zlen tl) ->
  ((if x =? 47 then p ← store (pre ++ tl) (zlen pre) x; store p (zlen pre + 1) 0 else Ok (pre ++ tl)) ≫= cstr)
  = Ok (pre ++ if decide (t = 0%nat) then [] else [47]).
Proof.
  intros Hx Hp Ht0 Ht. destruct (decide (t = 0%nat)) as [->|Hn].
  - destruct (Z.eqb_spec x 47) as [->|]; [lia|]. specialize (Ht0 eq_refl). destruct tl as [|y tl]; simplify_eq/=.
    by rewrite cstr_nonul, app_nil_r.
  - destruct (Z.eqb_spec x 47) as [->|]; [|lia]. specialize (Ht Hn).
    destruct tl as [|y [|z tl]]; [unfold zlen in Ht; simpl in Ht; lia..|]. rewrite store_app. cbn [mbind res_bind].
    apply (cstr_result _ tl); [apply Forall_app; split; [done|by repeat constructor]|].
    replace (pre ++ 47 :: z :: tl) with ((pre ++ [47]) ++ z :: tl) by (by rewrite <- app_assoc).
    apply store_app_at. rewrite zlen_app. done.
Qed.

(** The copy of an absolute path whose length is a multiple of the piece size has no room for
    its NUL: the write of the NUL leaves the heap object. *)
Theorem abs_path_copy_overflows (l r segment scratch : list Z) (base : option (list Z)) :
  nonul l -> head l = Some 47 -> zlen l mod POOL_PIECE_SIZE = 0 ->
  fs_to_absolute_path (l ++ 0 :: r) base segment scratch = Fault.
Proof.
  intros Hl Hh Hm. unfold fs_to_absolute_path, abs_source. destruct l as [|c l']; [done|]. injection Hh as ->.
  set (l := 47 :: l') in *. assert (load (l ++ 0 :: r) 0 = Ok 47) as -> by done. cbn [mbind res_bind].
  rewrite strlen_cstr by done. cbn [mbind res_bind]. change (47 =? 47) with true. cbv iota.
  rewrite strcpy_full; [done|done|]. unfold heap_object. rewrite length_replicate. unfold ceil_to_alignment.
  rewrite <- Z.div_exact in Hm by done. unfold zlen, POOL_PIECE_SIZE in *. change (16 - 1) with 15.
  pose proof (Z.div_mod (Z.of_nat (length l) + 15) 16 ltac:(lia)).
  pose proof (Z.mod_pos_bound (Z.of_nat (length l) + 15) 16 ltac:(lia)). lia.
Qed.

Lemma abs_path_copy_overflows_witness :
  fs_to_absolute_path (bytes "/sys/applicatio1" ++ [0]) None (replicate 256 0) (replicate 72 0) = Fault.
Proof. apply (abs_path_copy_overflows (bytes "/sys/applicatio1")); decided. Defined.

(** Whatever the number of slashes around its segments, and whether it is absolute or
    relative to a base, a path of plain segments becomes absolute with one slash before each
    segment; a slash at its end is kept as one slash. *)
Theorem abs_path_canonical (loc : list Z) (base : option (list Z)) (segment scratch : list Z)
    (items : list (nat * list Z)) (t : nat) :
  names loc base (spell items t) -> items <> [] -> Forall (fun '(_, s) => child_ok s) items ->
  zlen (spell items t) + 32 < 2 ^ 31 -> zlen segment = SEGMENT_SIZE -> zlen scratch = FMT_BUFFER ->
  (fs_to_absolute_path loc base segment scratch ≫= cstr)
  = Ok (canon items.*2 ++ if decide (t = 0%nat) then [] else [47]).
Proof.
  intros Hn Hne Hit Hlen Hseg Hscr. unfold fs_to_absolute_path.
  destruct (names_source loc base _ scratch Hn Hlen Hscr) as (after & -> & Haf & Hl & Hp). cbn [mbind res_bind].
  rewrite strlen_cstr by done. cbn [mbind res_bind]. rewrite path_count_ok by (by apply children_segs). cbn [mbind res_bind].
  destruct (spell_last items t after Hne (children_segs items Hit)) as (x & Hx & Hx47).
  pose proof (length_canon_spell items t). pose proof (length_items_canon items).
  destruct (abs_walk_children items (replicate t 47) after segment scratch (zlen (spell items t) + 1)
    (length (spell items t ++ 0 :: after)) Hne Hit (nonul_slashes t)) as (seg' & tl & Hs' & Htl & Hrun); try done.
  - destruct t; [by left|by right].
  - by rewrite app_assoc, <- spell_split.
  - rewrite (spell_split items t). rewrite zlen_app. pose proof (zlen_nonneg (replicate t 47)). lia.
  - rewrite length_app. lia.
  - rewrite app_assoc, <- spell_split in Hrun. rewrite Hrun, abs_loop_end. cbn [mbind res_bind].
    rewrite Hx. cbn [mbind res_bind]. apply abs_finish; [done|by apply canon_nonul|done|].
    intros Ht. unfold zlen in *. lia.
Qed.

Lemma abs_path_canonical_witness :
  (fs_to_absolute_path (bytes "a//bc/" ++ [0]) (Some (bytes "/dev/" ++ [0])) (replicate 256 0) (replicate 72 0) ≫= cstr)
  = Ok (canon [bytes "dev"; bytes "a"; bytes "bc"] ++ [47]).
Proof.
  apply (abs_path_canonical _ _ _ _ [(0%nat, bytes "dev"); (0%nat, bytes "a"); (1%nat, bytes "bc")] 1).
  - apply (names_relative (bytes "a//bc/") [] (bytes "/dev/") []); try decided; split; decided.
  - done.
  - repeat constructor; decided.
  - decided.
  - decided.
  - decided.
Defined.

(** ** Parent segments *)

Lemma back_to_slash_ok s : Forall (fun c => c <> 47) s -> forall fuel pre c tl, c <> 47 -> (length s < fuel)%nat ->
  back_to_slash fuel (pre ++ 47 :: s ++ c :: tl) (zlen (pre ++ 47 :: s)) = Ok (zlen pre).
Proof.
  induction s as [|y s IH] using rev_ind; intros Hs fuel pre c tl Hc Hf; (destruct fuel as [|fuel]; [lia|]).
  - cbn [back_to_slash app].
    replace (pre ++ 47 :: c :: tl) with ((pre ++ [47]) ++ c :: tl) by (by rewrite <- app_assoc).
    rewrite load_app. cbn [mbind res_bind]. destruct (Z.eqb_spec c 47); [done|].
    pose proof (zlen_nonneg pre). assert (zlen (pre ++ [47]) = zlen pre + 1) as -> by (rewrite zlen_app; done).
    destruct (Z.eqb_spec (zlen pre + 1) 0); [lia|]. cbn [negb andb]. replace (zlen pre + 1 - 1) with (zlen pre) by lia.
    destruct fuel; cbn [back_to_slash]; rewrite <- app_assoc; cbn [app]; rewrite load_app; done.
  - apply Forall_app in Hs as [Hs Hy]. apply Forall_cons in Hy as [Hy _]. rewrite length_app in Hf. simpl in Hf.
    cbn [back_to_slash].
    replace (pre ++ 47 :: (s ++ [y]) ++ c :: tl) with ((pre ++ 47 :: s ++ [y]) ++ c :: tl) by (by rewrite <- app_assoc).
    rewrite load_app. cbn [mbind res_bind]. destruct (Z.eqb_spec c 47); [done|].
    assert (zlen (pre ++ 47 :: s ++ [y]) = zlen (pre ++ 47 :: s) + 1) as ->
      by (rewrite !zlen_app, !zlen_cons, zlen_app; unfold zlen; simpl; lia).
    pose proof (zlen_nonneg (pre ++ 47 :: s)).
    destruct (Z.eqb_spec (zlen (pre ++ 47 :: s) + 1) 0); [lia|]. cbn [negb andb].
    replace (zlen (pre ++ 47 :: s) + 1 - 1) with (zlen (pre ++ 47 :: s)) by lia.
    specialize (IH Hs fuel pre y (c :: tl) Hy ltac:(lia)).
    replace ((pre ++ 47 :: s ++ [y]) ++ c :: tl) with (pre ++ 47 :: s ++ y :: c :: tl); [done|].
    rewrite <- !app_assoc. simpl. by rewrite <- app_assoc.
Qed.

(** [..] moves the write position back before the last segment and writes nothing. *)
Lemma abs_loop_dotdot scratch after f segment k r pre s tl :
  zlen scratch = FMT_BUFFER -> Forall (fun c => 0 <= c < 256) after -> zlen segment = SEGMENT_SIZE ->
  Forall (fun c => c <> 47) s -> nonul r -> (r = [] \/ head r = Some 47) -> zlen (r ++ 0 :: after) + 2 < 2 ^ 31 ->
  abs_loop (S f) segment (replicate k 47 ++ bytes ".." ++ r ++ 0 :: after) scratch
    (pre ++ (47 :: s) ++ 0 :: tl) (zlen (pre ++ 47 :: s))
  = abs_loop f (splice segment 0 (bytes ".." ++ [0])) (r ++ 0 :: after) scratch
      (pre ++ (47 :: s) ++ 0 :: tl) (zlen pre).
Proof.
  intros Hscr Haf Hseg Hs Hr Hhd Hl. assert (seg_ok (bytes "..")) as Hok by (split_and!; decided).
  cbn [abs_loop]. rewrite path_next_seg; [|done|done|done| |done..].
  2: { rewrite zlen_app. change (zlen (bytes "..")) with 2. lia. }
  cbn [mbind res_bind]. destruct (splice_seg segment (bytes "..") ltac:(decided) Hseg) as (sr & -> & _).
  assert (strcmp (bytes ".." ++ 0 :: sr) (bytes ".." ++ [0]) = Ok 0) as -> by done.
  destruct (strcmp_total (bytes "..") (bytes ".") sr [] ltac:(decided) ltac:(decided)) as (v & -> & _).
  cbn [mbind res_bind].
  change (0 =? 0) with true. cbv iota. cbn [app]. rewrite back_to_slash_ok; [done|done|done|].
  unfold zlen. rewrite Nat2Z.id, length_app. simpl. lia.
Qed.

(** The walk up to the segment after a parent segment. *)
Lemma abs_walk_parent items k s k2 rest t after segment scratch size fuel :
  Forall (fun '(_, s) => child_ok s) (items ++ (k, s) :: rest) -> Forall (fun c => 0 <= c < 256) after ->
  zlen scratch = FMT_BUFFER -> zlen segment = SEGMENT_SIZE ->
  zlen (spell (items ++ (k, s) :: (k2, bytes "..") :: rest) t ++ 0 :: after) < 2 ^ 31 ->
  zlen (spell (items ++ (k, s) :: (k2, bytes "..") :: rest) t) < size -> (length items + 2 <= fuel)%nat ->
  exists segment' tl, zlen segment' = SEGMENT_SIZE /\ zlen ((47 :: s) ++ 0 :: tl) + zlen (canon items.*2) >= size /\
    abs_loop fuel segment (drop 1 (spell (items ++ (k, s) :: (k2, bytes "..") :: rest) t ++ 0 :: after)) scratch (heap_object size) 0
    = abs_loop (fuel - length items - 2) segment' (spell rest t ++ 0 :: after) scratch
        (canon items.*2 ++ (47 :: s) ++ 0 :: tl) (zlen (canon items.*2)).
Proof.
  intros Hit Haf Hscr Hseg Hl Hsz Hf.
  assert (items ++ (k, s) :: (k2, bytes "..") :: rest = (items ++ [(k, s)]) ++ (k2, bytes "..") :: rest) as E
    by (by rewrite <- app_assoc). rewrite E, spell_app, <- app_assoc in *.
  assert (items ++ (k, s) :: rest = (items ++ [(k, s)]) ++ rest) as E2 by (by rewrite <- app_assoc).
  rewrite E2 in Hit. apply Forall_app in Hit as [Hit Hrest]. pose proof (segs_nonul rest t (children_segs _ Hrest)) as Hrn.
  assert (nonul (spell ((k2, bytes "..") :: rest) t)) as Hr.
  { rewrite spell_cons. apply Forall_app. split; [apply nonul_slashes|]. apply Forall_app. split; [decided|done]. }
  destruct (abs_walk_children (items ++ [(k, s)]) (spell ((k2, bytes "..") :: rest) t) after segment scratch size fuel)
    as (seg' & tl & Hs' & Htl & Hrun); try done; try apply spell_head.
  - by destruct items.
  - rewrite zlen_app in Hsz. pose proof (zlen_nonneg (spell ((k2, bytes "..") :: rest) t)). lia.
  - rewrite length_app. simpl. lia.
  - rewrite fmap_app, canon_app in Htl, Hrun. cbn [fmap list_fmap snd] in Htl, Hrun.
    assert (canon [s] = 47 :: s) as E3 by (by rewrite canon_cons, app_nil_r). rewrite E3 in Htl, Hrun.
    exists (splice seg' 0 (bytes ".." ++ [0])), tl. split_and!.
    + by destruct (splice_seg seg' (bytes "..") ltac:(decided) Hs') as (_ & _ & ?).
    + rewrite zlen_app in Htl |- *. lia.
    + rewrite Hrun, length_app. cbn [length].
      replace (fuel - (length items + 1))%nat with (S (fuel - length items - 2)) by lia.
      rewrite spell_cons, <- !app_assoc. apply abs_loop_dotdot; try done; [|apply spell_head|].
      * apply Forall_app in Hit as [_ Hit]. apply Forall_cons in Hit as [((_ & _ & _ & ?) & _) _]. done.
      * rewrite spell_cons, !zlen_app in Hl. rewrite zlen_app. change (zlen (bytes "..")) with 2 in Hl.
        pose proof (zlen_nonneg (spell (items ++ [(k, s)]) 0)). pose proof (zlen_nonneg (replicate (S k2) 47)). lia.
Qed.

(** The walk over children from any write position, to the end of the path. *)
Lemma abs_walk_end items t after segment scratch pre tl fuel :
  Forall (fun '(_, s) => child_ok s) items -> Forall (fun c => 0 <= c < 256) after -> zlen scratch = FMT_BUFFER ->
  zlen segment = SEGMENT_SIZE -> zlen (spell items t ++ 0 :: after) < 2 ^ 31 ->
  (length (canon items.*2) < length tl)%nat -> (length items <= fuel)%nat ->
  exists tl', (length tl' + length (canon items.*2) = length tl)%nat /\
    (items <> [] \/ head tl = Some 0 -> head tl' = Some 0) /\
    abs_loop fuel segment (spell items t ++ 0 :: after) scratch (pre ++ tl) (zlen pre)
    = Ok ((pre ++ canon items.*2) ++ tl', zlen (pre ++ canon items.*2)).
Proof.
  intros Hit Haf Hscr Hseg Hl Htl Hf. rewrite spell_split, <- app_assoc in *.
  destruct (abs_loop_children scratch after (replicate t 47) Hscr Haf (nonul_slashes t)
    ltac:(by destruct t; [left|right]) items segment pre tl Hseg Hit Hl Htl) as (seg' & tl' & _ & ? & ? & Hrun).
  exists tl'. split_and!; [done|done|]. replace fuel with (length items + (fuel - length items))%nat by lia.
  by rewrite Hrun, abs_loop_end.
Qed.

Lemma length_spell_parent (items rest : list (nat * list Z)) k s k2 t :
  (length items + 2 + length rest <= length (spell (items ++ (k, s) :: (k2, bytes "..") :: rest) t))%nat /\
  zlen (canon (items ++ rest).*2) + Z.of_nat t + 4 <= zlen (spell (items ++ (k, s) :: (k2, bytes "..") :: rest) t).
Proof.
  set (all := items ++ _). pose proof (length_canon_spell all t). pose proof (length_items_canon all).
  assert (length all = length items + 2 + length rest)%nat by (unfold all; rewrite length_app; simpl; lia).
  split; [lia|]. assert (length (canon (items ++ rest).*2) + 4 <= length (canon all.*2))%nat; [|unfold zlen; lia].
  unfold all. rewrite !fmap_app, !canon_app. cbn [fmap list_fmap snd]. rewrite !canon_cons. simpl.
  rewrite !length_app. simpl. rewrite !length_app. simpl. lia.
Qed.

(** A parent segment that something follows, be it a slash, removes the segment before it. *)
Theorem abs_path_parent (loc : list Z) (base : option (list Z)) (segment scratch : list Z)
    (items rest : list (nat * list Z)) (k k2 : nat) (s : list Z) (t : nat) :
  names loc base (spell (items ++ (k, s) :: (k2, bytes "..") :: rest) t) ->
  Forall (fun '(_, s) => child_ok s) (items ++ (k, s) :: rest) -> rest <> [] \/ t <> 0%nat ->
  zlen (spell (items ++ (k, s) :: (k2, bytes "..") :: rest) t) + 32 < 2 ^ 31 ->
  zlen segment = SEGMENT_SIZE -> zlen scratch = FMT_BUFFER ->
  (fs_to_absolute_path loc base segment scratch ≫= cstr)
  = Ok (canon (items ++ rest).*2 ++ if decide (t = 0%nat) then [] else [47]).
Proof.
  intros Hn Hit Hrt Hlen Hseg Hscr. unfold fs_to_absolute_path.
  destruct (names_source loc base _ scratch Hn Hlen Hscr) as (after & -> & Haf & Hl & Hp). cbn [mbind res_bind].
  rewrite strlen_cstr by done. cbn [mbind res_bind]. set (all := items ++ (k, s) :: (k2, bytes "..") :: rest) in *.
  destruct (length_spell_parent items rest k s k2 t) as [Hc1 Hc2]. fold all in Hc1, Hc2.
  assert (Forall (fun '(_, s) => seg_ok s) all) as Hall.
  { apply children_segs in Hit. unfold all. apply Forall_app in Hit as [? Hit]. apply Forall_cons in Hit as [? Hit].
    apply Forall_app. split; [done|]. constructor; [done|]. constructor; [split_and!; decided|done]. }
  destruct (spell_last all t after ltac:(by destruct items) Hall) as (x & Hx & Hx47).
  rewrite path_count_ok by done. cbn [mbind res_bind].
  destruct (abs_walk_parent items k s k2 rest t after segment scratch (zlen (spell all t) + 1)
    (length (spell all t ++ 0 :: after)) Hit Haf Hscr Hseg Hl ltac:(unfold all; lia)) as (seg' & tl & Hs' & Htl & Hrun).
  { rewrite length_app. lia. }
  fold all in Hrun. rewrite Hrun. clear Hrun. apply Forall_app in Hit as [Hit Hrest]. apply Forall_cons in Hrest as [Hs Hrest].
  rewrite fmap_app, canon_app in Hc2 |- *. rewrite zlen_app in Hc2.
  destruct (abs_walk_end rest t after seg' scratch (canon items.*2) ((47 :: s) ++ 0 :: tl)
    (length (spell all t ++ 0 :: after) - length items - 2) Hrest Haf Hscr Hs') as (tl' & Htl' & Hhd & ->).
  { unfold all in Hl. rewrite spell_app, <- app_assoc, zlen_app in Hl. rewrite !spell_cons, <- !app_assoc, !zlen_app in Hl.
    rewrite zlen_app. pose proof (zlen_nonneg (spell items 0)). pose proof (zlen_nonneg s). 
    pose proof (zlen_nonneg (replicate (S k) 47)). pose proof (zlen_nonneg (replicate (S k2) 47)).
    pose proof (zlen_nonneg (bytes "..")). lia. }
  { unfold zlen in *. lia. }
  { rewrite length_app. lia. }
  cbn [mbind res_bind]. rewrite Hx. cbn [mbind res_bind]. apply abs_finish.
  - done.
  - apply Forall_app. split; by apply canon_nonul.
  - intros ->. apply Hhd. left. by destruct Hrt.
  - intros Ht. unfold zlen in *. lia.
Qed.

Lemma abs_path_parent_witness :
  (fs_to_absolute_path (bytes "/sys/bin/../lib" ++ [0]) None (replicate 256 0) (replicate 72 0) ≫= cstr)
  = Ok (canon [bytes "sys"; bytes "lib"]).
Proof.
  apply (abs_path_parent _ _ _ _ [(0%nat, bytes "sys")] [(0%nat, bytes "lib")] 0 0 (bytes "bin") 0).
  - apply (names_absolute (bytes "/sys/bin/../lib")); decided.
  - repeat constructor; decided.
  - by left.
  - decided.
  - decided.
  - decided.
Defined.

(** A parent segment at the very end of a path is ignored: the path of a directory followed
    by [/..] names that directory and not the one above it. *)
Theorem abs_path_trailing_parent (loc : list Z) (base : option (list Z)) (segment scratch : list Z)
    (items : list (nat * list Z)) (k k2 : nat) (s : list Z) :
  names loc base (spell (items ++ [(k, s); (k2, bytes "..")]) 0) ->
  Forall (fun '(_, s) => child_ok s) (items ++ [(k, s)]) ->
  zlen (spell (items ++ [(k, s); (k2, bytes "..")]) 0) + 32 < 2 ^ 31 ->
  zlen segment = SEGMENT_SIZE -> zlen scratch = FMT_BUFFER ->
  (fs_to_absolute_path loc base segment scratch ≫= cstr) = Ok (canon (items.*2 ++ [s])).
Proof.
  intros Hn Hit Hlen Hseg Hscr. unfold fs_to_absolute_path.
  destruct (names_source loc base _ scratch Hn Hlen Hscr) as (after & -> & Haf & Hl & Hp). cbn [mbind res_bind].
  rewrite strlen_cstr by done. cbn [mbind res_bind]. set (all := items ++ _) in *.
  destruct (length_spell_parent items [] k s k2 0) as [Hc1 Hc2]. fold all in Hc1, Hc2.
  rewrite path_count_ok; cbn [mbind res_bind].
  2: { apply children_segs, Forall_app in Hit as [? Hit]. apply Forall_cons in Hit as [? _]. apply Forall_app. split; [done|].
       constructor; [done|]. constructor; [split_and!; decided|done]. }
  assert (load (spell all 0 ++ 0 :: after) (zlen (spell all 0) - 1) = Ok 46) as Hx.
  { unfold all. change [(k, s); (k2, bytes "..")] with ([(k, s)] ++ [(k2, bytes "..")]). rewrite app_assoc, spell_app, spell_cons.
    change (bytes ".." ++ spell [] 0) with ([46] ++ [46]). rewrite !app_assoc. apply last_byte. }
  destruct (abs_walk_parent items k s k2 [] 0 after segment scratch (zlen (spell all 0) + 1)
    (length (spell all 0 ++ 0 :: after)) Hit Haf Hscr Hseg Hl ltac:(unfold all; lia)) as (seg' & tl & Hs' & Htl & Hrun).
  { rewrite length_app. simpl in Hc1. lia. }
  fold all in Hrun. rewrite Hrun. change (spell [] 0) with (replicate 0 47). rewrite abs_loop_end.
  cbn [mbind res_bind]. rewrite Hx. cbn [mbind res_bind]. change (46 =? 47) with false. cbv iota.
  assert (canon (items.*2 ++ [s]) = canon items.*2 ++ 47 :: s) as -> by (by rewrite canon_app, canon_cons, app_nil_r).
  apply (cstr_result _ tl); [|by rewrite <- app_assoc].
  apply canon_nonul in Hit. rewrite fmap_app, canon_app in Hit. cbn [fmap list_fmap snd] in Hit.
  by rewrite canon_cons, app_nil_r in Hit.
Qed.

Lemma abs_path_trailing_parent_witness :
  (fs_to_absolute_path (bytes "/sys/bin/.." ++ [0]) None (replicate 256 0) (replicate 72 0) ≫= cstr)
  = Ok (canon [bytes "sys"; bytes "bin"]).
Proof.
  apply (abs_path_trailing_parent _ _ _ _ [(0%nat, bytes "sys")] 0 0 (bytes "bin")).
  - apply (names_absolute (bytes "/sys/bin/..")); decided.
  - repeat constructor; decided.
  - decided.
  - decided.
  - decided.
Defined.
