(* ===== verification/Block.v ===== *)
(** * Block devices: dev/dev.c, dev/block.c and dev/class/disk.c

    [dev_array] is the table of devices; a [dev_block_t*] is an address in [blks] and a
    [blk_request_t*] one in [brqs], where the stack frames of the waiting threads are.  A request
    carries the content of its buffer.  The driver behind a device is a record of functions over a
    state [D], NULL being [None].  [usable tid] says whether the process of a thread can be marked
    busy ([task_pruse]).  [kp_change_dir] and the events that wake the worker leave no trace.

    [queue_io_wait] is the thread's view: its request goes to the end of the queue and the worker
    runs until it is done.  What other threads may do meanwhile is the relation [wstep]. *)
From S2P Require Import Prelude Strings Rcp Pool Path.

(** ** The table of devices *)

Definition DEV_TYPE_CHAR : Z := 1.
Definition DEV_TYPE_BLOCK : Z := 2.
Definition DEV_TYPE_NET : Z := 3.

(** [dev_t]; [dspecific] is the [type_specific] pointer. *)
Record dev := mk_dev { dname : list Z; dtype : Z; dspecific : Z }.

Definition dev_register (a : rcparray dev) (d : dev) : rcparray dev * Z := rcparray_add a d.

Definition dev_current_amount (a : rcparray dev) : Z := zlen (rcparray_foreach a).

Definition dev_exists (a : rcparray dev) (id : Z) : rcparray dev * bool :=
  match rcparray_get a id with
  | (a, None) => (a, false)
  | (a, Some _) => (rcparray_unref a id, true)
  end.

Definition dev_type (a : rcparray dev) (id : Z) : rcparray dev * Z :=
  match rcparray_get a id with
  | (a, None) => (a, -1)
  | (a, Some d) => (rcparray_unref a id, dtype d)
  end.

(** [dev_id2name] of dev/name.c: the name's 32 bytes go to the buffer. *)
Definition dev_id2name (a : rcparray dev) (id : Z) (buffer : list Z) : res (rcparray dev * list Z * Z) :=
  match rcparray_get a id with
  | (a, None) => Ok (a, buffer, -1)
  | (a, Some d) => b ← memcpy buffer 0 (dname d) 0 32; Ok (rcparray_unref a id, b, 0)
  end.

(** ** Requests *)

Inductive blk_rq_type := BLK_INIT | BLK_READ | BLK_WRITE | BLK_RELEASE | BLK_IOCTL.

Record brq := mk_brq {
  q_type : blk_rq_type; q_sector : Z; q_count : Z; q_buffer : list Z;
  q_response : Z; q_thread : Z; q_done : bool; q_next : option Z }.

Definition MAX_BYTES_PER_RQ : Z := 65536.

Section Block.
Context {D : Type}.
Context (usable : Z -> bool).

(** [dev_block_ops_t] *)
Record block_ops := mk_block_ops {
  bop_init : option (D -> Z -> res (D * Z));
  bop_read : option (D -> Z -> Z -> Z -> list Z -> res (D * list Z * Z));
  bop_write : option (D -> Z -> Z -> Z -> list Z -> res (D * list Z * Z));
  bop_release : option (D -> Z -> res (D * Z)) }.

(** [dev_block_t] *)
Record dev_block := mk_dev_block {
  internal_id : Z; initialized : bool; burst_max : Z; sector_size : Z;
  io_queue : option Z; last_brq : Z; bops : block_ops;
  proxy_to : option Z; proxy_offset : Z }.

Definition set_queue (b : dev_block) (q : option Z) (l : Z) : dev_block :=
  mk_dev_block (internal_id b) (initialized b) (burst_max b) (sector_size b) q l (bops b) (proxy_to b) (proxy_offset b).
Definition set_initialized (b : dev_block) (i : bool) : dev_block :=
  mk_dev_block (internal_id b) i (burst_max b) (sector_size b) (io_queue b) (last_brq b) (bops b) (proxy_to b) (proxy_offset b).

Record blkw := mk_blkw { dev_array : rcparray dev; blks : gmap Z dev_block; brqs : gmap Z brq; bdrv : D }.

Definition set_dev_array (w : blkw) x := mk_blkw x (blks w) (brqs w) (bdrv w).
Definition set_blks (w : blkw) x := mk_blkw (dev_array w) x (brqs w) (bdrv w).
Definition set_brqs (w : blkw) x := mk_blkw (dev_array w) (blks w) x (bdrv w).

Definition respond (r : brq) (v : Z) (buf : list Z) : brq :=
  mk_brq (q_type r) (q_sector r) (q_count r) buf v (q_thread r) true (q_next r).

(** The [switch] of [blk_worker]: the driver's state, the device, the buffer and the response. *)
Definition serve (d : D) (b : dev_block) (r : brq) : res (D * dev_block * list Z * Z) :=
  let keep v := Ok (d, b, q_buffer r, v) in
  match q_type r with
  | BLK_INIT =>
      if initialized b then keep (- rc EPERM)
      else
        match bop_init (bops b) with
        | None => keep (- rc ENOSYS)
        | Some f => '(d, v) ← f d (internal_id b);
                    Ok (d, if v >=? 0 then set_initialized b true else b, q_buffer r, v)
        end
  | BLK_READ =>
      f ← res_of_option (bop_read (bops b));
      '(d, buf, v) ← f d (internal_id b) (q_sector r) (q_count r) (q_buffer r);
      Ok (d, b, buf, v)
  | BLK_WRITE =>
      f ← res_of_option (bop_write (bops b));
      '(d, buf, v) ← f d (internal_id b) (q_sector r) (q_count r) (q_buffer r);
      Ok (d, b, buf, v)
  | BLK_RELEASE =>
      if negb (initialized b) then keep (- rc EPERM)
      else
        match bop_release (bops b) with
        | None => keep (- rc ENOSYS)
        | Some f => '(d, v) ← f d (internal_id b);
                    Ok (d, if v >=? 0 then set_initialized b false else b, q_buffer r, v)
        end
  | BLK_IOCTL => keep 0
  end.

(** The end of a round: the request is done and unlinked, both under the [access] lock.  The next
    pointer is read then. *)
Definition finish (w : blkw) (blk p : Z) : res blkw :=
  b ← res_of_option (blks w !! blk);
  r ← res_of_option (brqs w !! p);
  '(d, b, buf, v) ← serve (bdrv w) b r;
  Ok (mk_blkw (dev_array w) (<[blk := set_queue b (q_next r) (last_brq b)]> (blks w))
        (<[p := respond r v buf]> (brqs w)) d).

(** The requester's process is gone: [done] is set before the lock is taken to unlink. *)
Definition interrupt (w : blkw) (p : Z) : res blkw :=
  r ← res_of_option (brqs w !! p);
  Ok (set_brqs w (<[p := respond r (- rc EINTR) (q_buffer r)]> (brqs w))).

Definition unlink (w : blkw) (blk p : Z) : res blkw :=
  b ← res_of_option (blks w !! blk);
  r ← res_of_option (brqs w !! p);
  Ok (set_blks w (<[blk := set_queue b (q_next r) (last_brq b)]> (blks w))).

(** One round of the loop of [blk_worker]; with nothing to do it waits. *)
Definition blk_worker_round (w : blkw) (blk : Z) : res blkw :=
  b ← res_of_option (blks w !! blk);
  match io_queue b with
  | None => Ok w
  | Some p =>
      r ← res_of_option (brqs w !! p);
      if usable (q_thread r) then finish w blk p
      else w ← interrupt w p; unlink w blk p
  end.

(** Appending a request, under the [access] lock. *)
Definition enqueue (w : blkw) (blk adr : Z) (r : brq) : res blkw :=
  b ← res_of_option (blks w !! blk);
  let w := set_brqs w (<[adr := r]> (brqs w)) in
  match io_queue b with
  | None => Ok (set_blks w (<[blk := set_queue b (Some adr) adr]> (blks w)))
  | Some q =>
      l ← res_of_option (brqs w !! last_brq b);
      let l := mk_brq (q_type l) (q_sector l) (q_count l) (q_buffer l) (q_response l) (q_thread l) (q_done l) (Some adr) in
      Ok (set_blks (set_brqs w (<[last_brq b := l]> (brqs w))) (<[blk := set_queue b (Some q) adr]> (blks w)))
  end.

(** [while (!brq.done) task_tyield();] *)
Fixpoint wait_done (fuel : nat) (w : blkw) (blk adr : Z) : res blkw :=
  r ← res_of_option (brqs w !! adr);
  if q_done r then Ok w
  else match fuel with O => OutOfFuel | S f => w ← blk_worker_round w blk; wait_done f w blk adr end.

(** The request a thread waits for; its frame is gone when it returns. *)
Definition submit_wait (w : blkw) (blk adr : Z) (r : brq) : res (blkw * list Z * Z) :=
  w ← enqueue w blk adr r;
  w ← wait_done (S (size (brqs w))) w blk adr;
  r ← res_of_option (brqs w !! adr);
  Ok (set_brqs w (delete adr (brqs w)), q_buffer r, s32 (q_response r)).

Definition queue_io_wait (w : blkw) (blk adr tid sector count : Z) (buffer : list Z) (write : bool)
  : res (blkw * list Z * Z) :=
  submit_wait w blk adr (mk_brq (if write then BLK_WRITE else BLK_READ) sector count buffer 0 tid false None).

(** ** The operations *)

Definition dev_block_get (w : blkw) (dev_id : Z) : blkw * option Z :=
  match rcparray_get (dev_array w) dev_id with
  | (a, None) => (set_dev_array w a, None)
  | (a, Some d) =>
      if negb (dtype d =? DEV_TYPE_BLOCK) then (set_dev_array w (rcparray_unref a dev_id), None)
      else (set_dev_array w a, Some (dspecific d))
  end.

Definition dev_block_unref (w : blkw) (dev_id : Z) : blkw := set_dev_array w (rcparray_unref (dev_array w) dev_id).

(** [if (block_dev->proxy_to != NULL) block_dev = block_dev->proxy_to;] *)
Definition through_proxy (w : blkw) (blk : Z) : res Z :=
  b ← res_of_option (blks w !! blk); Ok (default blk (proxy_to b)).

(** [dev_block_init] and [dev_block_release], which differ in the state they ask for. *)
Definition blk_control (type : blk_rq_type) (want : bool) (w : blkw) (dev_id adr tid : Z) : res (blkw * Z) :=
  match dev_block_get w dev_id with
  | (w, None) => Ok (w, - rc ENODEV)
  | (w, Some blk) =>
      blk ← through_proxy w blk;
      b ← res_of_option (blks w !! blk);
      if negb (Bool.eqb (initialized b) want) then Ok (dev_block_unref w dev_id, - rc EPERM)
      else
        '(w, _, v) ← submit_wait w blk adr (mk_brq type 0 0 [] 0 tid false None);
        Ok (dev_block_unref w dev_id, v)
  end.

Definition dev_block_init : blkw -> Z -> Z -> Z -> res (blkw * Z) := blk_control BLK_INIT false.
Definition dev_block_release : blkw -> Z -> Z -> Z -> res (blkw * Z) := blk_control BLK_RELEASE true.

(** The copying loop of [dev_block_read]; [boff] is how far [buffer] has moved. *)
Fixpoint read_loop (fuel : nat) (w : blkw) (blk adr tid ss : Z) (buffer : list Z) (boff : Z) (bouncer : list Z)
    (read_offset current_sector sector_count len : Z) : res (blkw * list Z * option Z) :=
  if sector_count >? 0 then
    match fuel with
    | O => OutOfFuel
    | S f =>
        b ← res_of_option (blks w !! blk);
        let burst_count := u16 sector_count in
        let burst_count := u16 (cmin burst_count (burst_max b)) in
        let burst_count := u16 (cmin burst_count (MAX_BYTES_PER_RQ / ss)) in
        '(w, bouncer, ret) ← queue_io_wait w blk adr tid current_sector burst_count bouncer false;
        if is_error ret then Ok (w, buffer, Some ret)
        else
          let copy_len := u32 (u32 (burst_count * ss) - read_offset) in
          let copy_len := u32 (cmin copy_len len) in
          buffer ← memcpy buffer boff bouncer read_offset copy_len;
          read_loop f w blk adr tid ss buffer (boff + copy_len) bouncer 0
            (u32 (current_sector + burst_count)) (u32 (sector_count - burst_count)) len
    end
  else Ok (w, buffer, None).

(** A failed transfer returns without giving the reference on the device back. *)
Definition dev_block_read (fuel : nat) (w : blkw) (dev_id adr tid : Z) (buffer : list Z) (pos len : Z)
  : res (blkw * list Z * Z) :=
  if len =? 0 then Ok (w, buffer, 0)
  else
    match dev_block_get w dev_id with
    | (w, None) => Ok (w, buffer, - rc ENODEV)
    | (w, Some blk) =>
        b ← res_of_option (blks w !! blk);
        let pos := match proxy_to b with Some _ => u64 (pos + u64 (proxy_offset b * 512)) | None => pos end in
        let blk := default blk (proxy_to b) in
        b ← res_of_option (blks w !! blk);
        w ← (if negb (initialized b) then '(w, _) ← dev_block_init w dev_id adr tid; Ok w else Ok w);
        b ← res_of_option (blks w !! blk);
        match bop_read (bops b) with
        | None => Ok (dev_block_unref w dev_id, buffer, - rc ENOSYS)
        | Some _ =>
            let ss := sector_size b in
            if ss =? 0 then Fault
            else
              let read_offset := u32 (pos mod ss) in
              let current_sector := u32 (pos / ss) in
              let sector_count := u32 (u64 (u64 (read_offset + len) + u32 (ss - 1)) / ss) in
              let bsc := u32 (cmin sector_count (burst_max b)) in
              let bsc := u32 (cmin bsc (MAX_BYTES_PER_RQ / ss)) in
              let bouncer := heap_object (u32 (bsc * ss)) in
              '(w, buffer, e) ← read_loop fuel w blk adr tid ss buffer 0 bouncer read_offset current_sector sector_count len;
              match e with
              | Some ret => Ok (w, buffer, ret)
              | None => Ok (dev_block_unref w dev_id, buffer, 0)
              end
        end
    end.
End Block.

Arguments block_ops D : clear implicits.
Arguments dev_block D : clear implicits.
Arguments blkw D : clear implicits.

(** ** A transfer *)
Section Transfer.
Context {D : Type} (usable : Z -> bool).
Implicit Types (w : blkw D) (b : dev_block D).

(** A device nobody waits for, and a place for a request. *)
Definition idle w (blk : Z) b (adr : Z) : Prop :=
  blks w !! blk = Some b /\ io_queue b = None /\ brqs w !! adr = None.

Lemma submit_idle w blk b adr r d buf v b' : idle w blk b adr -> usable (q_thread r) = true -> q_done r = false -> q_next r = None ->
  serve (bdrv w) (set_queue b (Some adr) adr) r = Ok (d, b', buf, v) ->
  submit_wait usable w blk adr r
  = Ok (mk_blkw (dev_array w) (<[blk := set_queue b' None (last_brq b')]> (blks w)) (brqs w) d, buf, s32 v).
Proof.
  intros (Hb & Hq & Ha) Hu Hd Hn Hs. unfold submit_wait, enqueue. rewrite Hb. cbn [res_of_option mbind res_bind]. rewrite Hq.
  cbn [mbind res_bind wait_done brqs set_blks set_brqs]. rewrite lookup_insert_eq. cbn [res_of_option mbind res_bind]. rewrite Hd.
  unfold blk_worker_round. cbn [blks set_blks set_brqs]. rewrite lookup_insert_eq. cbn [res_of_option mbind res_bind io_queue set_queue brqs set_blks set_brqs].
  rewrite lookup_insert_eq. cbn [res_of_option mbind res_bind]. rewrite Hu. unfold finish. cbn [blks brqs bdrv set_blks set_brqs].
  rewrite !lookup_insert_eq. cbn [res_of_option mbind res_bind]. rewrite Hs. cbn [mbind res_bind].
  destruct (size _) as [|k]; cbn [wait_done brqs]; rewrite lookup_insert_eq; cbn [res_of_option mbind res_bind q_done respond brqs];
    rewrite lookup_insert_eq; cbn [res_of_option mbind res_bind q_response q_buffer respond]; unfold set_brqs; cbn [dev_array blks brqs bdrv];
    rewrite !insert_insert_eq, delete_insert_id, Hn by done; done.
Qed.

(** What [disk] is worth, in the states [inv] of the drivers: reads of so many sectors as the
    driver [serves] bring its bytes and do not change it. *)
Definition reads_disk (inv : D -> Prop) (disk : D -> list Z) (serves : Z -> Prop) b : Prop :=
  exists f, bop_read (bops b) = Some f /\ forall d sector count buf, inv d -> serves count ->
    0 <= sector -> 0 <= count -> (sector + count) * sector_size b <= zlen (disk d) -> count * sector_size b <= zlen buf ->
    exists d' v, f d (internal_id b) sector count buf
        = Ok (d', splice buf 0 (slice (disk d) (sector * sector_size b) (count * sector_size b)), v) /\
      0 <= v < 2 ^ 31 /\ inv d' /\ disk d' = disk d.

Lemma io_read_ok inv disk serves w blk b adr tid sector count buf : idle w blk b adr -> usable tid = true -> reads_disk inv disk serves b -> inv (bdrv w) -> serves count ->
  0 <= sector -> 0 <= count -> (sector + count) * sector_size b <= zlen (disk (bdrv w)) -> count * sector_size b <= zlen buf ->
  exists d' v, queue_io_wait usable w blk adr tid sector count buf false
    = Ok (mk_blkw (dev_array w) (<[blk := set_queue b None adr]> (blks w)) (brqs w) d',
          splice buf 0 (slice (disk (bdrv w)) (sector * sector_size b) (count * sector_size b)), v) /\
    is_error v = false /\ inv d' /\ disk d' = disk (bdrv w).
Proof.
  intros Hi Hu (f & Hf & Hrd) Hinv Hsv0 Hs Hc Hl Hb. destruct (Hrd (bdrv w) sector count buf Hinv Hsv0 Hs Hc Hl Hb) as (d' & v & E & Hv & Hd).
  exists d', v. unfold queue_io_wait. set (r := mk_brq _ _ _ _ _ _ _ _).
  assert (serve (bdrv w) (set_queue b (Some adr) adr) r = Ok (d', set_queue b (Some adr) adr,
    splice buf 0 (slice (disk (bdrv w)) (sector * sector_size b) (count * sector_size b)), v)) as Hsv.
  { unfold serve. cbn [q_type r bops set_queue]. rewrite Hf. simpl. by rewrite E. }
  rewrite (submit_idle _ _ _ _ r _ _ _ _ Hi Hu eq_refl eq_refl Hsv).
  rewrite s32_small by lia. split; [done|]. split; [|done]. unfold is_error. apply Z.ltb_ge. lia.
Qed.

(** The sectors of one request. *)
Definition burst_cap b : Z := Z.min (burst_max b) (MAX_BYTES_PER_RQ / sector_size b).

Lemma burst_eq b n : 0 < n < 65536 -> 0 < burst_cap b ->
  u16 (cmin (u16 (cmin (u16 n) (burst_max b))) (MAX_BYTES_PER_RQ / sector_size b)) = Z.min n (burst_cap b).
Proof.
  intros Hn Hc. unfold burst_cap in *. rewrite (u16_small n), !cmin_min by lia. rewrite (u16_small (Z.min n _)) by lia. rewrite u16_small; lia.
Qed.

Lemma cap_bytes b c : 0 < sector_size b -> 0 <= c <= burst_cap b -> c * sector_size b <= MAX_BYTES_PER_RQ.
Proof.
  intros Hs Hc. unfold burst_cap in Hc. pose proof (Z.mul_div_le MAX_BYTES_PER_RQ (sector_size b) ltac:(lia)). nia.
Qed.

(** The loop brings the [need] bytes that are left, and goes on to the end of the last sector
    when that is not the first request. *)
Lemma read_loop_ok inv disk serves blk adr tid len ss cap fuel : usable tid = true -> 0 < len < 2 ^ 32 ->
  0 < ss -> 0 < cap -> forall w b bouncer buffer boff off sector n need,
  reads_disk inv disk serves b -> inv (bdrv w) -> sector_size b = ss -> burst_cap b = cap -> idle w blk b adr ->
  0 < n < 65536 -> (forall c, 0 < c <= Z.min n cap -> serves c) -> n <= Z.of_nat fuel -> 0 <= off < ss -> 0 <= sector -> sector + n < 2 ^ 32 ->
  (sector + n) * ss <= zlen (disk (bdrv w)) -> Z.min n cap * ss <= zlen bouncer ->
  0 < need <= len -> (n - 1) * ss < off + need <= n * ss -> 0 <= boff -> boff + Z.min (n * ss - off) len <= zlen buffer ->
  (cap < n -> boff + (n * ss - off) <= zlen buffer) ->
  exists d' W, read_loop usable fuel w blk adr tid ss buffer boff bouncer off sector n len
    = Ok (mk_blkw (dev_array w) (<[blk := set_queue b None adr]> (blks w)) (brqs w) d',
          splice buffer boff (slice (disk (bdrv w)) (sector * ss + off) W), None) /\
    inv d' /\ disk d' = disk (bdrv w) /\ need <= W <= n * ss - off /\ (n <= cap -> W = Z.min (n * ss - off) len).
Proof.
  intros Hu Hlen Hss Hcap. induction fuel as [|fuel IH];
    intros w b bouncer buffer boff off sector n need Hrd Hinv Es Ec Hi Hn Hsrv Hf Hoff Hsec Hs32 Hdl Hbl Hneed Hlast Hbo Hbuf Hbuf2; [lia|].
  cbn [read_loop]. destruct (Z.gtb_spec n 0); [|lia]. destruct (Hi) as (Hb & Hq & Ha). rewrite Hb. cbn [res_of_option mbind res_bind].
  rewrite <- Es. rewrite burst_eq by (lia || (rewrite Ec; lia)). rewrite Ec, Es. set (c := Z.min n cap) in *.
  assert (0 < c <= n) as Hc by lia. assert (c * ss <= MAX_BYTES_PER_RQ) as Hc64 by (rewrite <- Es; apply cap_bytes; rewrite ?Es, ?Ec; lia).
  unfold MAX_BYTES_PER_RQ in Hc64. assert (ss <= c * ss <= n * ss) as Hcn
    by (split; [rewrite <- (Z.mul_1_l ss) at 1|]; apply Z.mul_le_mono_nonneg_r; lia).
  assert (0 <= sector * ss) as Hs0 by (apply Z.mul_nonneg_nonneg; lia).
  destruct (io_read_ok inv disk serves w blk b adr tid sector c bouncer Hi Hu Hrd Hinv (Hsrv c ltac:(lia)) ltac:(lia) ltac:(lia) ltac:(rewrite Es; lia) ltac:(rewrite Es; lia))
    as (d' & v & -> & Hv & Hinv' & Hd').
  cbn [mbind res_bind]. rewrite Hv, Es, (u32_small (c * ss)) by lia. rewrite (u32_small (c * ss - off)) by lia.
  rewrite cmin_min, (u32_small (Z.min _ len)) by lia. set (m := Z.min (c * ss - off) len) in *.
  set (got := splice bouncer 0 _). assert (zlen (slice (disk (bdrv w)) (sector * ss) (c * ss)) = c * ss) as Hsl by (apply zlen_slice; lia).
  assert (slice got off m = slice (disk (bdrv w)) (sector * ss + off) m) as Hgot.
  { unfold got. rewrite <- (Z.add_0_l off) at 1. rewrite slice_splice_in by (rewrite ?Hsl; lia). apply slice_slice; lia. }
  assert (zlen got = zlen bouncer) as Hgl by (unfold got; apply zlen_splice; rewrite ?Hsl; lia).
  rewrite memcpy_ok by (rewrite ?Hgl; lia). cbn [mbind res_bind]. rewrite Hgot.
  set (bit := slice (disk (bdrv w)) (sector * ss + off) m). assert (zlen bit = m) as Hbit by (unfold bit; apply zlen_slice; lia).
  set (w1 := mk_blkw _ _ _ d'). rewrite !u32_small by lia.
  destruct (decide (n <= cap)) as [Hle|Hgt].
  - assert (c = n) as -> by lia. rewrite Z.sub_diag. exists d', m. split_and!; [|done|done|lia|lia|done].
    destruct fuel; cbn [read_loop Z.gtb Z.compare]; done.
  - assert (c = cap) as -> by lia. assert (cap * ss <= (n - 1) * ss) as Hcn1 by (apply Z.mul_le_mono_nonneg_r; lia). assert (m = cap * ss - off) as Em by lia.
    destruct (IH w1 (set_queue b None adr) got (splice buffer boff bit) (boff + m) 0 (sector + cap) (n - cap) (need - m))
      as (d2 & W & -> & Hinv2 & Hd2 & HW & _).
    1-4: done. 2: lia. 3-6: lia.
    + split_and!; [|done|done]. cbn [blks w1]. by rewrite lookup_insert_eq.
    + intros c' Hc'. apply Hsrv. lia.
    + change (bdrv w1) with d'. rewrite Hd'. lia.
    + rewrite Hgl. transitivity (cap * ss); [apply Z.mul_le_mono_nonneg_r; lia|lia].
    + lia.
    + lia.
    + lia.
    + rewrite zlen_splice by (rewrite ?Hbit; lia). lia.
    + rewrite zlen_splice by (rewrite ?Hbit; lia). lia.
    + exists d2, (m + W). change (bdrv w1) with d' in *. rewrite Hd' in *. split_and!; [|done|done|lia|lia|lia].
      cbn [dev_array blks brqs w1]. rewrite insert_insert_eq. do 3 f_equal.
      rewrite <- Hbit at 1. rewrite splice_splice; [|lia|rewrite Hbit; rewrite zlen_slice by lia; lia].
      f_equal. unfold bit. rewrite Z.add_0_r. replace ((sector + cap) * ss) with (sector * ss + off + m) by lia. apply slice_join; lia.
Qed.

(** Device [dev_id] is a block device, its disk is behind [blk], itself or the device it is a
    window of, and begins [shift] bytes further on there. *)
Record attached w (dev_id blk : Z) b (shift : Z) : Prop := {
  at_id : 0 <= dev_id < 2 ^ 64;
  at_dev : exists c, arr_slot (dev_array w) dev_id = Some c /\ present c = true /\ counted c /\ dtype (value c) = DEV_TYPE_BLOCK /\
    exists b1, blks w !! dspecific (value c) = Some b1 /\ blk = default (dspecific (value c)) (proxy_to b1) /\
      shift = match proxy_to b1 with Some _ => u64 (proxy_offset b1 * 512) | None => 0 end;
  at_blk : blks w !! blk = Some b;
  at_init : initialized b = true }.

(** The number of sectors a read touches. *)
Definition sectors_of (ss pos len : Z) : Z := (pos mod ss + len + (ss - 1)) / ss.

Lemma sectors_bounds ss pos len : 0 < ss -> 0 <= pos -> 0 < len -> let n := sectors_of ss pos len in
  0 < n /\ (n - 1) * ss < pos mod ss + len <= n * ss.
Proof.
  intros Hs Hp Hl n. unfold n, sectors_of. pose proof (Z.mod_pos_bound pos ss Hs) as Hm. set (x := pos mod ss + len) in *.
  pose proof (Z.div_mod (x + (ss - 1)) ss ltac:(lia)) as E. pose proof (Z.mod_pos_bound (x + (ss - 1)) ss Hs) as Hr.
  set (q := (x + (ss - 1)) / ss) in *. assert (0 < q) by (apply Z.div_str_pos; lia). lia.
Qed.

(** A read on an attached device is the loop, with the reference on the device held. *)
Lemma dev_block_read_loop fuel w dev_id blk b shift adr tid buffer pos len f : attached w dev_id blk b shift ->
  bop_read (bops b) = Some f -> 0 < sector_size b < 2 ^ 32 -> 0 <= burst_max b < 2 ^ 16 -> 0 <= pos -> 0 <= shift -> pos + shift < 2 ^ 64 -> 0 < len < 2 ^ 32 ->
  let ss := sector_size b in let p := pos + shift in let n := sectors_of ss p len in p / ss < 2 ^ 32 -> n < 2 ^ 32 ->
  exists a1, rcparray_unref a1 dev_id = dev_array w /\
    dev_block_read usable fuel w dev_id adr tid buffer pos len
    = '(w, buffer, e) ← read_loop usable fuel (set_dev_array w a1) blk adr tid ss buffer 0
          (heap_object (Z.min n (burst_cap b) * ss)) (p mod ss) (p / ss) n len;
      match e with Some ret => Ok (w, buffer, ret) | None => Ok (dev_block_unref w dev_id, buffer, 0) end.
Proof.
  intros [Hid (c & Hs & Hp & Hr & Ht & b1 & Hb1 & Hblk & Hsh) Hb Hini] Hf Hss Hbm Hpos Hsh0 Hps Hlen ss p n Hsec Hn32.
  destruct (get_unref_same _ _ _ Hs Hp Hr Hid) as (a1 & Hget & Hun). exists a1. split; [done|].
  unfold dev_block_read, dev_block_get. destruct (Z.eqb_spec len 0); [lia|]. rewrite Hget, Ht. cbn [negb Z.eqb Pos.eqb DEV_TYPE_BLOCK].
  cbn [blks set_dev_array]. rewrite Hb1. cbn [res_of_option mbind res_bind]. rewrite <- Hblk, Hb. cbn [res_of_option mbind res_bind].
  rewrite Hini. cbn [negb mbind res_bind blks set_dev_array]. rewrite Hb. cbn [res_of_option mbind res_bind]. rewrite Hf.
  assert (match proxy_to b1 with Some _ => u64 (pos + u64 (proxy_offset b1 * 512)) | None => pos end = p) as ->.
  { unfold p. rewrite Hsh in *. destruct (proxy_to b1); [apply u64_small; lia|lia]. }
  fold ss. destruct (Z.eqb_spec ss 0); [lia|]. pose proof (Z.mod_pos_bound p ss ltac:(lia)) as Hm.
  destruct (sectors_bounds ss p len) as (Hn & _ & _); [lia|unfold p; lia|lia|]. fold n in Hn.
  rewrite (u32_small (p mod ss)), (u32_small (ss - 1)), (u64_small (p mod ss + len)), u64_small by lia.
  fold (sectors_of ss p len). fold n. rewrite !cmin_min.
  assert (0 <= MAX_BYTES_PER_RQ / ss) by (apply Z.div_pos; unfold MAX_BYTES_PER_RQ; lia).
  assert (0 <= p / ss) by (apply Z.div_pos; unfold p; lia).
  rewrite (u32_small (p / ss)), (u32_small n) by lia. rewrite (u32_small (Z.min n _)) by lia. rewrite <- Z.min_assoc.
  change (Z.min (burst_max b) (MAX_BYTES_PER_RQ / ss)) with (burst_cap b). assert (0 <= Z.min n (burst_cap b)) by (unfold burst_cap; fold ss; lia).
  rewrite (u32_small (Z.min n (burst_cap b))) by lia.
  assert (Z.min n (burst_cap b) * ss <= MAX_BYTES_PER_RQ) by (apply cap_bytes; lia). unfold MAX_BYTES_PER_RQ in *.
  rewrite (u32_small (_ * ss)) by (split; [apply Z.mul_nonneg_nonneg; lia|lia]). done.
Qed.

(** A read of a device: what is in the buffer afterwards, and what is left of the device. *)
Lemma block_read_ok inv disk serves fuel w dev_id blk b shift adr tid buffer pos len :
  attached w dev_id blk b shift -> idle w blk b adr -> reads_disk inv disk serves b -> inv (bdrv w) -> usable tid = true ->
  0 < sector_size b < 2 ^ 32 -> 0 <= burst_max b < 2 ^ 16 -> 0 < burst_cap b -> 0 <= pos -> 0 <= shift -> pos + shift < 2 ^ 64 -> 0 < len < 2 ^ 32 ->
  let ss := sector_size b in let p := pos + shift in let n := sectors_of ss p len in
  (forall c, 0 < c <= Z.min n (burst_cap b) -> serves c) -> n < 65536 -> p / ss + n < 2 ^ 32 -> (p / ss + n) * ss <= zlen (disk (bdrv w)) ->
  len <= zlen buffer -> (burst_cap b < n -> n * ss - p mod ss <= zlen buffer) -> n <= Z.of_nat fuel ->
  exists w' W, dev_block_read usable fuel w dev_id adr tid buffer pos len
      = Ok (w', splice buffer 0 (slice (disk (bdrv w)) p W), 0) /\
    dev_array w' = dev_array w /\ brqs w' = brqs w /\ blks w' = <[blk := set_queue b None adr]> (blks w) /\ inv (bdrv w') /\ disk (bdrv w') = disk (bdrv w) /\
    len <= W <= n * ss - p mod ss /\ (n <= burst_cap b -> W = len).
Proof.
  intros Hat Hi Hrd Hinv Hu Hss Hbm Hcap Hpos Hsh Hps Hlen ss p n Hsrv Hn Hs32 Hdl Hbuf Hbuf2 Hfuel. pose proof Hrd as (f & Hf & _).
  assert (0 <= p / ss) as Hd0 by (apply Z.div_pos; unfold p, ss; lia). pose proof (Z.mod_pos_bound p ss ltac:(lia)) as Hm.
  destruct (sectors_bounds ss p len) as (Hn0 & Hn1 & Hn2); [lia|unfold p; lia|lia|]. fold n in Hn0, Hn1, Hn2.
  destruct (dev_block_read_loop fuel w dev_id blk b shift adr tid buffer pos len f) as (a1 & Hun & ->); try done.
  { fold ss p. lia. } { fold ss p n. lia. } fold ss p n.
  pose proof (length_heap_object (Z.min n (burst_cap b) * ss) ltac:(apply Z.mul_nonneg_nonneg; lia)) as Hho.
  destruct (read_loop_ok inv disk serves blk adr tid len ss (burst_cap b) fuel Hu Hlen ltac:(lia) Hcap (set_dev_array w a1) b
    (heap_object (Z.min n (burst_cap b) * ss)) buffer 0 (p mod ss) (p / ss) n len) as (d' & W & -> & Hinv' & Hd & HW & H1); try done; try lia.
  cbn [mbind res_bind]. exists (dev_block_unref (mk_blkw a1 (<[blk := set_queue b None adr]> (blks w)) (brqs w) d') dev_id), W.
  split_and!; try done; try lia.
  - replace (p / ss * ss + p mod ss) with p by (rewrite Z.mul_comm; apply Z.div_mod; lia). done.
Qed.

(** C18: reading fewer than 65536 sectors from a block device, for a thread that is not interrupted:
    the buffer gets the bytes of the disk from [pos] on, through as many requests as it takes, the
    device's references and queue are left as they were, and the call returns.  A read served by
    one request writes exactly [len] bytes; a longer one may go on writing up to the end of its
    last sector, so the caller's buffer must have room for that ([dev_block_read_overruns]).  With
    a multiple of 65536 sectors the call does not return ([dev_block_read_stuck]). *)
Theorem dev_block_read_disk inv disk serves fuel w dev_id blk b shift adr tid buffer pos len :
  attached w dev_id blk b shift -> idle w blk b adr -> reads_disk inv disk serves b -> inv (bdrv w) -> usable tid = true ->
  0 < sector_size b < 2 ^ 32 -> 0 <= burst_max b < 2 ^ 16 -> 0 < burst_cap b -> 0 <= pos -> 0 <= shift -> pos + shift < 2 ^ 64 -> 0 < len < 2 ^ 32 ->
  let ss := sector_size b in let p := pos + shift in let n := sectors_of ss p len in
  (forall c, 0 < c <= Z.min n (burst_cap b) -> serves c) -> n < 65536 -> p / ss + n < 2 ^ 32 -> (p / ss + n) * ss <= zlen (disk (bdrv w)) ->
  len <= zlen buffer -> (burst_cap b < n -> n * ss - p mod ss <= zlen buffer) -> n <= Z.of_nat fuel ->
  exists w' W, dev_block_read usable fuel w dev_id adr tid buffer pos len
      = Ok (w', splice buffer 0 (slice (disk (bdrv w)) p W), 0) /\
    dev_array w' = dev_array w /\ brqs w' = brqs w /\ blks w' = <[blk := set_queue b None adr]> (blks w) /\ inv (bdrv w') /\ disk (bdrv w') = disk (bdrv w) /\
    len <= W <= n * ss - p mod ss /\ (n <= burst_cap b -> W = len).
Proof. apply block_read_ok. Qed.

(** The number of sectors goes through 16 bits: 65536 sectors are none, and the loop asks for no
    sectors for ever. *)
Lemma read_loop_stuck inv disk serves blk adr tid len ss fuel : usable tid = true -> 0 < ss -> forall w b bouncer buffer sector n,
  reads_disk inv disk serves b -> inv (bdrv w) -> sector_size b = ss -> 0 <= burst_max b -> idle w blk b adr -> serves 0 -> 0 < n -> n mod 65536 = 0 -> 0 <= len -> n < 2 ^ 32 ->
  0 <= sector < 2 ^ 32 -> sector * ss <= zlen (disk (bdrv w)) -> read_loop usable fuel w blk adr tid ss buffer 0 bouncer 0 sector n len = OutOfFuel.
Proof.
  intros Hu Hss. induction fuel as [|fuel IH]; intros w b bouncer buffer sector n Hrd Hinv Es Hbm Hi Hsrv Hn Hmod Hlen Hn32 Hsec Hdl;
    cbn [read_loop]; (destruct (Z.gtb_spec n 0); [|lia]); [done|]. destruct (Hi) as (Hb & Hq & Ha). rewrite Hb. cbn [res_of_option mbind res_bind].
  assert (u16 (cmin (u16 (cmin (u16 n) (burst_max b))) (MAX_BYTES_PER_RQ / ss)) = 0) as ->.
  { assert (0 <= MAX_BYTES_PER_RQ / ss) by (apply Z.div_pos; unfold MAX_BYTES_PER_RQ; lia).
    unfold u16 at 3. change (2 ^ 16) with 65536. rewrite Hmod, !cmin_min, (Z.min_l 0), (u16_small 0), (Z.min_l 0) by lia. done. }
  destruct (io_read_ok inv disk serves w blk b adr tid sector 0 bouncer Hi Hu Hrd Hinv Hsrv) as (d' & v & -> & Hv & Hinv' & Hd'); [lia|lia|rewrite Es; lia|pose proof (zlen_nonneg bouncer); lia|].
  cbn [mbind res_bind]. rewrite Hv, !Z.mul_0_l. change (u32 (u32 0 - 0)) with 0. rewrite cmin_min, Z.min_l by lia. change (u32 0) with 0.
  rewrite memcpy_ok by (pose proof (zlen_nonneg buffer); pose proof (zlen_nonneg (splice bouncer 0 (slice (disk (bdrv w)) (sector * sector_size b) 0))); lia).
  cbn [mbind res_bind]. rewrite slice_0, splice_nil, !Z.add_0_r, !Z.sub_0_r, !u32_small by lia.
  apply (IH _ (set_queue b None adr)); try done; try lia.
  - split_and!; [|done|done]. cbn [blks]. by rewrite lookup_insert_eq.
  - cbn [bdrv]. by rewrite Hd'.
Qed.

(** A read of [65536 * k] whole sectors never returns: the sector count of the first request
    is cut to 16 bits, so it asks for no sectors, and so does every request after it. *)
Theorem dev_block_read_stuck inv disk serves w dev_id blk b shift adr tid buffer pos len k :
  attached w dev_id blk b shift -> idle w blk b adr -> reads_disk inv disk serves b -> inv (bdrv w) -> serves 0 -> usable tid = true ->
  0 < sector_size b < 2 ^ 32 -> 0 <= burst_max b < 2 ^ 16 -> 0 <= pos -> 0 <= shift -> pos + shift < 2 ^ 64 -> 0 < len < 2 ^ 32 ->
  (pos + shift) mod sector_size b = 0 -> 0 < k -> len = 65536 * k * sector_size b ->
  (pos + shift) / sector_size b < 2 ^ 32 -> pos + shift <= zlen (disk (bdrv w)) ->
  forall fuel, dev_block_read usable fuel w dev_id adr tid buffer pos len = OutOfFuel.
Proof.
  intros Hat Hi Hrd Hinv Hsrv Hu Hss Hbm Hpos Hsh Hps Hlen Hal Hk El Hsec Hdl fuel. pose proof Hrd as (f & Hf & _).
  set (ss := sector_size b) in *. set (p := pos + shift) in *.
  assert (sectors_of ss p len = 65536 * k) as En.
  { unfold sectors_of. rewrite Hal, El. symmetry. apply (Z.div_unique_pos _ _ _ (ss - 1)); lia. }
  assert (65536 * k < 2 ^ 32) by nia.
  destruct (dev_block_read_loop fuel w dev_id blk b shift adr tid buffer pos len f) as (a1 & Hun & ->); try done.
  { fold ss p. rewrite En. done. } fold ss p. rewrite En, Hal. rewrite (read_loop_stuck inv disk serves blk adr tid len ss fuel Hu ltac:(lia) _ b); try done; try lia.
  - rewrite Z.mul_comm. by apply Z.mod_mul.
  - split; [apply Z.div_pos; unfold p; lia|done].
  - cbn [bdrv set_dev_array]. pose proof (Z.mul_div_le p ss ltac:(lia)). lia.
Qed.
End Transfer.

(** ** The queue under interleaving

    Between any two steps of the worker other threads may append requests, and a thread whose
    request is done may return, which takes the request's memory away.  [submitted] and [answered]
    are not part of the code: they log what went into the queue and what the driver was asked. *)
Section Queue.
Context {D : Type} (usable : Z -> bool) (blk : Z).
Implicit Types (w : blkw D) (b : dev_block D).

Inductive phase := Looking | Serving (p : Z) | Unlinking (p : Z).

Record wstate := mk_wstate { ww : blkw D; wphase : phase; submitted : list (Z * brq); answered : list (Z * brq) }.

Definition with_next (r : brq) (n : option Z) : brq :=
  mk_brq (q_type r) (q_sector r) (q_count r) (q_buffer r) (q_response r) (q_thread r) (q_done r) n.

Inductive wstep : wstate -> wstate -> Prop :=
  | w_submit w w' ph sub ans adr r :
      brqs w !! adr = None -> q_done r = false -> q_next r = None -> enqueue w blk adr r = Ok w' ->
      wstep (mk_wstate w ph sub ans) (mk_wstate w' ph (sub ++ [(adr, r)]) ans)
  | w_look w b p r sub ans :
      blks w !! blk = Some b -> io_queue b = Some p -> brqs w !! p = Some r -> usable (q_thread r) = true ->
      wstep (mk_wstate w Looking sub ans) (mk_wstate w (Serving p) sub ans)
  | w_serve w w' p r sub ans :
      brqs w !! p = Some r -> finish w blk p = Ok w' ->
      wstep (mk_wstate w (Serving p) sub ans) (mk_wstate w' Looking sub (ans ++ [(p, with_next r None)]))
  | w_interrupt w w' b p r sub ans :
      blks w !! blk = Some b -> io_queue b = Some p -> brqs w !! p = Some r -> usable (q_thread r) = false ->
      interrupt w p = Ok w' ->
      wstep (mk_wstate w Looking sub ans) (mk_wstate w' (Unlinking p) sub ans)
  | w_unlink w w' p sub ans :
      unlink w blk p = Ok w' -> wstep (mk_wstate w (Unlinking p) sub ans) (mk_wstate w' Looking sub ans)
  | w_return w ph sub ans adr r :
      brqs w !! adr = Some r -> q_done r = true ->
      wstep (mk_wstate w ph sub ans) (mk_wstate (set_brqs w (delete adr (brqs w))) ph sub ans).

(** The requests linked from [q] on, as they were submitted. *)
Fixpoint chain (m : gmap Z brq) (q : option Z) (l : list (Z * brq)) : Prop :=
  match l with
  | [] => q = None
  | (a, r) :: l' => q = Some a /\ q_done r = false /\ q_next r = None /\ exists n, m !! a = Some (with_next r n) /\ chain m n l'
  end.

Lemma chain_lookup m q l a : chain m q l -> a ∈ l.*1 -> exists r, m !! a = Some r /\ q_done r = false.
Proof.
  revert q. induction l as [|[a' r'] l IH]; intros q Hc Hin; [by apply elem_of_nil in Hin|].
  destruct Hc as (_ & Hd & _ & n & Hm & Hc). cbn [fmap list_fmap fst] in Hin. apply elem_of_cons in Hin as [->|Hin]; [by eexists|by eapply IH].
Qed.

(** The links only depend on the requests in the queue. *)
Lemma chain_agree m m' q l : (forall a, a ∈ l.*1 -> m' !! a = m !! a) -> chain m q l -> chain m' q l.
Proof.
  revert q. induction l as [|[a r] l IH]; intros q Hag; [done|]. intros (-> & Hd & Hn & n & Hm & Hc).
  split_and!; try done. exists n. split; [rewrite Hag; [done|by left]|]. apply IH; [|done]. intros x Hx. apply Hag. by right.
Qed.

(** Appending behind the last request. *)
Lemma chain_append m l0 x rx adr r : forall q, NoDup (l0 ++ [(x, rx)]).*1 -> adr ∉ (l0 ++ [(x, rx)]).*1 ->
  q_done r = false -> q_next r = None -> chain m q (l0 ++ [(x, rx)]) -> m !! adr = Some r ->
  chain (<[x := with_next rx (Some adr)]> m) q ((l0 ++ [(x, rx)]) ++ [(adr, r)]).
Proof.
  induction l0 as [|[a ra] l0 IH]; intros q Hnd Hni Hd Hn.
  - intros (-> & Hdx & Hnx & n & Hm & ->) Hr. cbn [app chain] in *. split_and!; try done. exists (Some adr).
    rewrite lookup_insert_eq. split; [done|]. split_and!; try done. exists None. split; [|done].
    rewrite lookup_insert_ne; [|intros ->; apply Hni; by left]. rewrite Hr. destruct r; simpl in *. by rewrite Hn.
  - intros (-> & Hda & Hna & n & Hm & Hc) Hr. cbn [app fmap list_fmap fst] in *. apply NoDup_cons in Hnd as [Hna' Hnd].
    apply not_elem_of_cons in Hni as [Hne Hni]. cbn [chain]. split_and!; try done. exists n. split; [|by apply IH].
    rewrite lookup_insert_ne; [done|]. intros ->. apply Hna'. rewrite fmap_app. apply elem_of_app. right. by left.
Qed.

(** The queue of the device is a list, first come first served. *)
Definition queue_inv (s : wstate) : Prop :=
  exists b pend, blks (ww s) !! blk = Some b /\ chain (brqs (ww s)) (io_queue b) pend /\ NoDup pend.*1 /\
    (forall x rx, last pend = Some (x, rx) -> last_brq b = x) /\ submitted s = answered s ++ pend /\
    match wphase s with Looking => True | Serving p => exists r, head pend = Some (p, r) | Unlinking _ => False end.

Lemma serve_queue (d : D) b r d' b' buf v : serve d b r = Ok (d', b', buf, v) -> last_brq b' = last_brq b.
Proof.
  unfold serve. destruct (q_type r).
  - destruct (initialized b); [by intros [= <- <- <- <-]|]. destruct (bop_init (bops b)); [|by intros [= <- <- <- <-]].
    intros E. apply bind_Ok in E as ([d1 v1] & _ & [= <- <- <- <-]). by destruct (v1 >=? 0).
  - intros E. apply bind_Ok in E as (f & _ & E). apply bind_Ok in E as ([[d1 b1] v1] & _ & [= <- <- <- <-]). done.
  - intros E. apply bind_Ok in E as (f & _ & E). apply bind_Ok in E as ([[d1 b1] v1] & _ & [= <- <- <- <-]). done.
  - destruct (negb _); [by intros [= <- <- <- <-]|]. destruct (bop_release (bops b)); [|by intros [= <- <- <- <-]].
    intros E. apply bind_Ok in E as ([d1 v1] & _ & [= <- <- <- <-]). by destruct (v1 >=? 0).
  - by intros [= <- <- <- <-].
Qed.

Lemma queue_submit w w' ph sub ans adr r : brqs w !! adr = None -> q_done r = false -> q_next r = None ->
  enqueue w blk adr r = Ok w' -> queue_inv (mk_wstate w ph sub ans) -> queue_inv (mk_wstate w' ph (sub ++ [(adr, r)]) ans).
Proof.
  intros Ha Hd Hn E (b & pend & Hb & Hc & Hnd & Hl & Hs & Hph). cbn [ww submitted answered wphase] in *. unfold enqueue in E. rewrite Hb in E.
  cbn [res_of_option mbind res_bind] in E. assert (adr ∉ pend.*1) as Hni.
  { intros Hin. destruct (chain_lookup _ _ _ _ Hc Hin) as (? & ? & _). congruence. }
  assert (NoDup (pend ++ [(adr, r)]).*1) as Hnd' by (rewrite fmap_app; apply NoDup_app; split_and!; [done|by intros x Hx ->%list_elem_of_singleton|apply NoDup_singleton]).
  destruct pend as [|z pend0] eqn:Ep.
  - rewrite Hc in E. injection E as <-. exists (set_queue b (Some adr) adr), [(adr, r)]. cbn [blks brqs set_blks set_brqs ww].
    rewrite lookup_insert_eq. split_and!; try done.
    + cbn [chain io_queue set_queue]. split_and!; try done. exists None. rewrite lookup_insert_eq. split; [|done]. destruct r; simpl in *. by rewrite Hn.
    + by intros x rx [= <- <-].
    + cbn [submitted answered]. by rewrite Hs, app_nil_r.
    + destruct ph; [done|by destruct Hph as (? & ?)|done].
  - rewrite <- Ep in *. destruct (last pend) as [[x rx]|] eqn:Elast; [|by rewrite Ep in Elast; destruct (last_None (z :: pend0)) as [H _]; specialize (H Elast)].
    assert (exists l0, pend = l0 ++ [(x, rx)]) as [l0 El0] by (by apply last_Some in Elast).
    assert (io_queue b = Some (fst z)) as Eq by (rewrite Ep in Hc; destruct z; apply Hc).
    rewrite Eq in E. specialize (Hl x rx eq_refl). rewrite Hl in E. cbn [brqs set_brqs] in E.
    assert (x <> adr) as Hxa by (intros ->; apply Hni; rewrite El0, fmap_app; apply elem_of_app; right; by left).
    assert (chain (<[adr := r]> (brqs w)) (io_queue b) pend) as Hc1
      by (eapply chain_agree; [|exact Hc]; intros a Hin; apply lookup_insert_ne; by intros ->).
    assert (exists n, brqs w !! x = Some (with_next rx n)) as [n Hx].
    { rewrite El0 in Hc. clear - Hc. revert Hc. generalize (io_queue b). induction l0 as [|[a ra] l0 IH]; intros q.
      - intros (_ & _ & _ & n & Hm & _). by exists n. - intros (_ & _ & _ & n & _ & Hc). by eapply IH. }
    rewrite lookup_insert_ne, Hx in E by done. cbn [res_of_option mbind res_bind] in E. injection E as <-.
    exists (set_queue b (Some (fst z)) adr), (pend ++ [(adr, r)]). cbn [blks brqs set_blks set_brqs ww]. rewrite lookup_insert_eq. split_and!; try done.
    + cbn [io_queue set_queue]. rewrite <- Eq. rewrite El0 in *. apply chain_append; try done. by rewrite lookup_insert_eq.
    + intros y ry. rewrite last_snoc. by intros [= <- <-].
    + cbn [submitted answered]. by rewrite Hs, app_assoc.
    + destruct ph as [|p|]; [done| |done]. destruct Hph as [rp Hph]. exists rp. rewrite Ep in *. done.
Qed.
Lemma queue_serve w w' p r sub ans : brqs w !! p = Some r -> finish w blk p = Ok w' ->
  queue_inv (mk_wstate w (Serving p) sub ans) -> queue_inv (mk_wstate w' Looking sub (ans ++ [(p, with_next r None)])).
Proof.
  intros Hr E (b & pend & Hb & Hc & Hnd & Hl & Hs & rp & Hph). cbn [ww submitted answered wphase] in *.
  destruct pend as [|[p' r'] pend]; [done|]. injection Hph as -> ->. destruct Hc as (_ & Hd & Hn & n & Hm & Hc).
  assert (r = with_next rp n) as -> by congruence. unfold finish in E. rewrite Hb, Hr in E. cbn [res_of_option mbind res_bind] in E.
  apply bind_Ok in E as ([[[d b'] buf] v] & Hsv & [= <-]). apply serve_queue in Hsv. cbn [fmap list_fmap fst] in Hnd.
  apply NoDup_cons in Hnd as [Hp Hnd]. eexists _, pend. cbn [ww blks brqs]. rewrite lookup_insert_eq. split_and!; try done.
  - cbn [io_queue set_queue q_next with_next]. eapply chain_agree; [|exact Hc]. intros a Ha. apply lookup_insert_ne. by intros ->.
  - intros x rx Hx. cbn [last_brq set_queue]. rewrite Hsv. destruct pend as [|z pend]; [done|]. apply (Hl x rx). by rewrite last_cons_cons.
  - cbn [submitted answered]. rewrite Hs, <- app_assoc. do 2 f_equal. destruct rp; simpl in *. by rewrite Hn.
Qed.

Lemma queue_return w ph sub ans adr r : brqs w !! adr = Some r -> q_done r = true ->
  queue_inv (mk_wstate w ph sub ans) -> queue_inv (mk_wstate (set_brqs w (delete adr (brqs w))) ph sub ans).
Proof.
  intros Hr Hd (b & pend & Hb & Hc & Hrest). exists b, pend. cbn [ww blks brqs set_brqs]. split_and!; try done; [|apply Hrest..].
  eapply chain_agree; [|exact Hc]. intros a Ha. apply lookup_delete_ne. intros <-.
  destruct (chain_lookup _ _ _ _ Hc Ha) as (r' & Hr' & Hd'). cbn [ww] in Hr'. congruence.
Qed.

Lemma queue_step s s' : (forall tid, usable tid = true) -> wstep s s' -> queue_inv s -> queue_inv s'.
Proof.
  intros Hu Hst. destruct Hst as [w w' ph sub ans adr r|w b p r sub ans Hb Hq Hr _|w w' p r sub ans|w w' b p r sub ans _ _ _ Hu'|w w' p sub ans|w ph sub ans adr r].
  - by apply queue_submit.
  - intros (b' & pend & Hb' & Hc & Hnd & Hl & Hs & _). cbn [ww submitted answered wphase] in *. exists b', pend. split_and!; try done.
    assert (b' = b) as -> by congruence. destruct pend as [|[p' r'] pend]; [by rewrite Hc in Hq|]. destruct Hc as (E & _).
    exists r'. cbn [head]. congruence.
  - intros. by eapply queue_serve.
  - by rewrite Hu in Hu'.
  - intros (? & ? & _ & _ & _ & _ & _ & []).
  - intros. by eapply queue_return.
Qed.

Lemma queue_reachable s s' : (forall tid, usable tid = true) -> rtc wstep s s' -> queue_inv s -> queue_inv s'.
Proof. intros Hu. induction 1; [done|]. intros. apply IHrtc. by eapply queue_step. Qed.

(** C19: as long as no requester is interrupted (the worker finds the process of every request), and
    however submitting threads, returning threads and the worker of a device interleave, the
    requests are answered in the order they were submitted, each once: what was answered is a
    prefix of what was submitted, the rest is linked in the queue as it was submitted.  The worker
    never follows a pointer to a request that has gone: a round can only fail in the driver.  A
    request whose process is gone breaks this ([blk_interrupt_race]). *)
Theorem blk_queue_fifo s s' b0 : (forall tid, usable tid = true) ->
  blks (ww s) !! blk = Some b0 -> io_queue b0 = None -> wphase s = Looking -> submitted s = answered s -> rtc wstep s s' ->
  exists pend b, submitted s' = answered s' ++ pend /\ blks (ww s') !! blk = Some b /\ chain (brqs (ww s')) (io_queue b) pend /\
    match wphase s' with
    | Looking => io_queue b = None \/ exists p r, io_queue b = Some p /\ brqs (ww s') !! p = Some r
    | Serving p => exists r rest, pend = (p, r) :: rest /\
        ((exists w', finish (ww s') blk p = Ok w') \/ forall x, serve (bdrv (ww s')) b (with_next r (fst <$> head rest)) <> Ok x)
    | Unlinking p => False
    end.
Proof.
  intros Hu Hb Hq Hph Hs Hrt. destruct (queue_reachable s s' Hu Hrt) as (b & pend & Hb' & Hc & Hnd & Hl & Hs' & Hph').
  { exists b0, []. rewrite Hq, Hph, Hs, app_nil_r. split_and!; try done. apply NoDup_nil_2. }
  exists pend, b. split_and!; try done. destruct (wphase s') as [|p|]; [| |done].
  - destruct pend as [|[a r] pend]; [by left|]. destruct Hc as (-> & _ & _ & n & Hm & _). right. by eexists _, _.
  - destruct Hph' as [r Hh]. destruct pend as [|[p' r'] pend]; [done|]. injection Hh as -> ->. exists r, pend. split; [done|].
    destruct Hc as (_ & _ & _ & n & Hm & Hc). assert (fst <$> head pend = n) as -> by (destruct pend as [|[y ry] ?]; [by rewrite Hc|by destruct Hc as (-> & _)]).
    unfold finish. rewrite Hb', Hm. cbn [res_of_option mbind res_bind].
    destruct (serve (bdrv (ww s')) b (with_next r n)) as [[[[d b'] buf] v]|m| |] eqn:E; [left; by eexists|right; intros x; congruence..].
Qed.

(** When the process of the first requester is gone, the worker marks the request done before
    it unlinks it: the thread can return in between, and the worker then reads the [next] pointer
    of a request that no longer exists. *)
Theorem blk_interrupt_race w b p r sub ans : blks w !! blk = Some b -> io_queue b = Some p -> brqs w !! p = Some r ->
  usable (q_thread r) = false ->
  exists w', rtc wstep (mk_wstate w Looking sub ans) (mk_wstate w' (Unlinking p) sub ans) /\ unlink w' blk p = Fault.
Proof.
  intros Hb Hq Hr Hu. set (w1 := set_brqs w (<[p := respond r (- rc EINTR) (q_buffer r)]> (brqs w))).
  exists (set_brqs w1 (delete p (brqs w1))). split.
  - eapply rtc_l. { eapply (w_interrupt w w1 b p r); try done. unfold interrupt. rewrite Hr. done. }
    eapply rtc_once, w_return; [cbn [brqs set_brqs w1]; apply lookup_insert_eq|done].
  - unfold unlink. cbn [blks brqs set_brqs w1]. rewrite Hb, lookup_delete_eq. done.
Qed.
End Queue.

(** A disk of eight sectors of four bytes, read two sectors at a time, and a window on it that
    starts at its byte 512. *)
Module BlockDemo.
Definition content : list Z := Z.of_nat <$> seq 0 32.
Definition content2 : list Z := replicate 512 9 ++ content.
Definition rd_op (d : list Z) (id sector count : Z) (buf : list Z) : res (list Z * list Z * Z) :=
  if (sector + count) * 4 <=? zlen d then b ← memcpy buf 0 d (sector * 4) (count * 4); Ok (d, b, 0) else Ok (d, buf, -5).
Definition ops : block_ops (list Z) := mk_block_ops (Some (fun d _ => Ok (d, 0))) (Some rd_op) None None.
Definition disk0 : dev_block (list Z) := mk_dev_block 0 true 2 4 None 0 ops None 0.
Definition part0 : dev_block (list Z) := mk_dev_block 0 false 0 0 None 0 ops (Some 100) 1.
Definition w0 : blkw (list Z) :=
  mk_blkw [Some (mk_cell 1 true (mk_dev (bytes "sda" ++ [0]) DEV_TYPE_BLOCK 100));
           Some (mk_cell 1 true (mk_dev (bytes "sda1" ++ [0]) DEV_TYPE_BLOCK 200))]
    {[100 := disk0; 200 := part0]} ∅ content2.

Lemma disk_law : reads_disk (fun _ => True) (fun d => d) (fun _ => True) disk0.
Proof.
  exists rd_op. split; [done|]. intros d sector count buf _ _ Hs Hc Hl Hb. cbn [sector_size disk0 internal_id] in *.
  exists d, 0. unfold rd_op. destruct (Z.leb_spec ((sector + count) * 4) (zlen d)); [|lia].
  rewrite memcpy_ok by lia. done.
Qed.

Lemma at1 : attached w0 1 100 disk0 512.
Proof. split; [lia|by eexists; split_and!; [..|eexists]|done..]. Qed.

Lemma at0 : attached w0 0 100 disk0 0.
Proof. split; [lia|by eexists; split_and!; [..|eexists]|done..]. Qed.
End BlockDemo.

(** Nine bytes from byte 5 of the window, over two requests: the three bytes after them come too. *)
Lemma dev_block_read_disk_witness :
  exists w' W, dev_block_read (fun _ => true) 3 BlockDemo.w0 1 7 1 (replicate 12 0) 5 9
      = Ok (w', splice (replicate 12 0) 0 (slice BlockDemo.content2 517 W), 0) /\
    dev_array w' = dev_array BlockDemo.w0 /\ 9 <= W <= 11.
Proof.
  destruct (dev_block_read_disk (fun _ => true) (fun _ => True) (fun d => d) (fun _ => True) 3 BlockDemo.w0 1 100 BlockDemo.disk0 512 7 1 (replicate 12 0) 5 9)
    as (w' & W & E & Ha & _ & _ & _ & _ & HW & _);
    [apply BlockDemo.at1|by split_and!|apply BlockDemo.disk_law|done|done|done|done|done|lia|lia|lia|lia|done|vm_compute; done..|].
  exists w', W. split; [exact E|]. split; [exact Ha|exact HW].
Defined.

(** [copy_len] is never taken off [len] (block.c:273): the last of several requests is copied whole.
    Nine bytes, at byte 1 of a sector, in requests of two sectors of four bytes: eleven bytes are
    written, behind the end of a buffer of nine. *)
Theorem dev_block_read_overruns :
  dev_block_read (fun _ => true) 3 BlockDemo.w0 1 7 1 (replicate 9 0) 5 9 = Fault /\
  exists w', dev_block_read (fun _ => true) 3 BlockDemo.w0 1 7 1 (replicate 11 0) 5 9 = Ok (w', slice BlockDemo.content 5 11, 0).
Proof. split; [vm_compute; reflexivity|]. eexists. vm_compute. reflexivity. Qed.

Lemma dev_block_read_stuck_witness :
  dev_block_read (fun _ => true) 1000 BlockDemo.w0 0 7 1 (replicate 12 0) 8 (65536 * 4) = OutOfFuel.
Proof.
  apply (dev_block_read_stuck (fun _ => true) (fun _ => True) (fun d => d) (fun _ => True) BlockDemo.w0 0 100 BlockDemo.disk0 0 7 1 (replicate 12 0) 8 (65536 * 4) 1);
    [apply BlockDemo.at0|by split_and!|apply BlockDemo.disk_law|done|done|done|done|done|lia|lia|lia|lia|vm_compute; done..].
Defined.

Module QueueDemo.
Definition rq (tid : Z) : brq := mk_brq BLK_READ 0 1 (replicate 4 0) 0 tid false None.
Definition s0 : wstate := mk_wstate (D:=list Z) BlockDemo.w0 Looking [] [].
(** Two requests in the queue, the first one in the worker's hands. *)
Definition w2 : blkw (list Z) :=
  mk_blkw (dev_array BlockDemo.w0) (<[100 := set_queue BlockDemo.disk0 (Some 7) 8]> (blks BlockDemo.w0))
    {[7 := with_next (rq 1) (Some 8); 8 := rq 2]} BlockDemo.content2.
Definition s2 : wstate := mk_wstate w2 (Serving 7) [(7, rq 1); (8, rq 2)] [].

Lemma reach : rtc (wstep (fun _ => true) 100) s0 s2.
Proof.
  eapply rtc_l; [apply (w_submit _ _ BlockDemo.w0 (mk_blkw (dev_array BlockDemo.w0)
    (<[100 := set_queue BlockDemo.disk0 (Some 7) 7]> (blks BlockDemo.w0)) {[7 := rq 1]} BlockDemo.content2) Looking [] [] 7 (rq 1)); vm_compute; reflexivity|].
  eapply rtc_l; [apply (w_submit _ _ _ w2 Looking [(7, rq 1)] [] 8 (rq 2)); vm_compute; reflexivity|].
  apply rtc_once. eapply (w_look _ _ w2); vm_compute; reflexivity.
Qed.
End QueueDemo.

Lemma blk_queue_fifo_witness :
  exists pend b, submitted QueueDemo.s2 = [] ++ pend /\ blks (ww QueueDemo.s2) !! 100 = Some b /\
    chain (brqs (ww QueueDemo.s2)) (io_queue b) pend.
Proof.
  destruct (blk_queue_fifo (fun _ => true) 100 QueueDemo.s0 QueueDemo.s2 BlockDemo.disk0 (fun _ => eq_refl) eq_refl eq_refl eq_refl eq_refl
    QueueDemo.reach) as (pend & b & Hs & Hb & Hc & _).
  exists pend, b. exact (conj Hs (conj Hb Hc)).
Defined.

Lemma blk_interrupt_race_witness :
  exists w', rtc (wstep (fun _ => false) 100) (mk_wstate QueueDemo.w2 Looking [] []) (mk_wstate w' (Unlinking 7) [] []) /\
    unlink w' 100 7 = Fault.
Proof.
  apply (blk_interrupt_race (fun _ => false) 100 QueueDemo.w2 (set_queue BlockDemo.disk0 (Some 7) 8) 7 (with_next (QueueDemo.rq 1) (Some 8)));
    reflexivity.
Defined.

(** ** The disk class: dev/class/disk.c

    A [device_t*] in [disks] stands for its [class_data], a record of functions over the state
    [D0] of the disk drivers.  The class's own operations work on [disks] and that state. *)
Section Disk.
Context {D0 : Type}.

Record class_disk := mk_class_disk {
  cd_name : list Z; cd_type : Z; cd_sector_count : Z; cd_sector_size : Z; cd_burst_max : Z;
  cd_init : option (D0 -> res (D0 * Z));
  cd_read : option (D0 -> Z -> Z -> list Z -> res (D0 * list Z * Z));
  cd_write : option (D0 -> Z -> Z -> list Z -> res (D0 * list Z * Z));
  cd_release : option (D0 -> res (D0 * Z)) }.

Definition dstate : Type := rcparray class_disk * D0.

(** Look the disk up, work with it, let it go; -1 without one. *)
Definition on_disk {R} (st : dstate) (ifd : Z) (missing : R) (f : D0 -> class_disk -> res (D0 * R)) : res (dstate * R) :=
  let '(disks, d) := st in
  match rcparray_get disks ifd with
  | (disks, None) => Ok ((disks, d), missing)
  | (disks, Some c) => '(d, r) ← f d c; Ok ((rcparray_unref disks ifd, d), r)
  end.

Definition class_disk_devinit (st : dstate) (ifd : Z) : res (dstate * Z) :=
  on_disk st ifd (-1) (fun d c => f ← res_of_option (cd_init c); f d).

Definition class_disk_devread (st : dstate) (ifd sector count : Z) (buffer : list Z) : res (dstate * list Z * Z) :=
  '(st, (b, v)) ← on_disk st ifd (buffer, -1) (fun d c =>
    f ← res_of_option (cd_read c); '(d, b, v) ← f d sector count buffer; Ok (d, (b, v)));
  Ok (st, b, v).

(** It calls [data->read]. *)
Definition class_disk_devwrite (st : dstate) (ifd sector count : Z) (buffer : list Z) : res (dstate * list Z * Z) :=
  '(st, (b, v)) ← on_disk st ifd (buffer, -1) (fun d c =>
    f ← res_of_option (cd_read c); '(d, b, v) ← f d sector count buffer; Ok (d, (b, v)));
  Ok (st, b, v).

Definition class_disk_devrelease (st : dstate) (ifd : Z) : res (dstate * Z) :=
  on_disk st ifd (-1) (fun d c => f ← res_of_option (cd_release c); f d).

Definition class_bogus_func (d : D0) : res (D0 * Z) := Ok (d, 0).

Definition class_disk_ops : block_ops dstate :=
  mk_block_ops (Some class_disk_devinit) (Some class_disk_devread) (Some class_disk_devwrite) (Some class_disk_devrelease).

(** [class_disk_bind] up to the registration of the block device it makes; [kmalloc] zeroes. *)
Definition class_disk_bind (disks : rcparray class_disk) (c : class_disk) : rcparray class_disk * dev_block dstate :=
  let c' := mk_class_disk (cd_name c) (cd_type c) (cd_sector_count c) (cd_sector_size c) (cd_burst_max c)
              (Some (default class_bogus_func (cd_init c))) (cd_read c) (cd_write c) (Some (default class_bogus_func (cd_release c))) in
  let '(disks, id) := rcparray_add disks c' in
  (disks, mk_dev_block id false (cd_burst_max c) (cd_sector_size c) None 0 class_disk_ops None 0).

Definition DISK_TYPE_INVALID : Z := 0.

Definition disk_get_type (disks : rcparray class_disk) (name : list Z) : rcparray class_disk * Z :=
  match rcparray_find disks (fun c => match strcmp (cd_name c) name with Ok v => v =? 0 | _ => false end) with
  | (disks, None) => (disks, DISK_TYPE_INVALID)
  | (disks, Some (id, c)) => (rcparray_unref disks id, cd_type c)
  end.

(** What the class expects of a disk driver in the states [dinv], for as many sectors as it
    [serves]. *)
Definition disk_reads (dinv : D0 -> Prop) (disk : D0 -> list Z) (serves : Z -> Prop) (c : class_disk) : Prop :=
  exists f, cd_read c = Some f /\ forall d sector count buf, dinv d -> serves count ->
    0 <= sector -> 0 <= count -> (sector + count) * cd_sector_size c <= zlen (disk d) -> count * cd_sector_size c <= zlen buf ->
    exists d' v, f d sector count buf = Ok (d', splice buf 0 (slice (disk d) (sector * cd_sector_size c) (count * cd_sector_size c)), v) /\
      0 <= v < 2 ^ 31 /\ dinv d' /\ disk d' = disk d.

(** Disk [id] is listed and has the driver of [c]. *)
Definition listed (id : Z) (c : class_disk) (st : dstate) : Prop :=
  exists x, arr_slot (fst st) id = Some x /\ present x = true /\ counted x /\ cd_read (value x) = cd_read c.

Lemma devread_ok c id st sector count buf f : listed id c st -> 0 <= id < 2 ^ 64 -> cd_read c = Some f ->
  forall d' b v, f (snd st) sector count buf = Ok (d', b, v) ->
  class_disk_devread st id sector count buf = Ok ((fst st, d'), b, v) /\
  class_disk_devwrite st id sector count buf = Ok ((fst st, d'), b, v).
Proof.
  destruct st as [disks d]. intros (x & Hx & Hp & Hr & Ex) Hid Hf d' b v E. cbn [fst snd] in *.
  destruct (get_unref_same _ _ _ Hx Hp Hr Hid) as (a1 & Hg & Hun).
  unfold class_disk_devread, class_disk_devwrite, on_disk. rewrite Hg, Ex, Hf. cbn [res_of_option mbind res_bind]. rewrite E.
  cbn [mbind res_bind]. by rewrite Hun.
Qed.

(** The block device the disk class makes of a disk keeps the promise of a block driver as
    long as the disk stays listed: its reads bring the disk's bytes and leave the table of disks
    as it was.  Its writes do the same: the class calls the driver's [read], so the disk keeps its
    bytes and the caller's buffer is overwritten with them. *)
Theorem class_disk_reads dinv disk serves disks c disks' b : disk_reads dinv disk serves c -> zlen disks < 2 ^ 64 - 1 -> class_disk_bind disks c = (disks', b) ->
  (forall d, listed (internal_id b) c (disks', d)) /\
  reads_disk (fun st => listed (internal_id b) c st /\ dinv (snd st)) (fun st => disk (snd st)) serves b /\
  exists g, bop_write (bops b) = Some g /\ forall st sector count buf, listed (internal_id b) c st -> dinv (snd st) -> serves count ->
    0 <= sector -> 0 <= count -> (sector + count) * sector_size b <= zlen (disk (snd st)) -> count * sector_size b <= zlen buf ->
    exists st' v, g st (internal_id b) sector count buf
        = Ok (st', splice buf 0 (slice (disk (snd st)) (sector * sector_size b) (count * sector_size b)), v) /\
      disk (snd st') = disk (snd st).
Proof.
  intros (f & Hf & Hrd) Hl Hb. unfold class_disk_bind in Hb. set (c' := mk_class_disk _ _ _ _ _ _ _ _ _) in Hb.
  pose proof (rcparray_add_spec disks c') as Hadd. destruct (rcparray_add disks c') as [a id] eqn:Ea. injection Hb as <- <-.
  destruct Hadd as (Hid & _ & _ & [Hup _] & _). cbn [internal_id bops sector_size bop_write class_disk_ops]. split_and!.
  - intros d. exists (mk_cell 1 true c'). split_and!; [exact Hup|done|done|done].
  - exists class_disk_devread. split; [done|]. cbn [internal_id sector_size]. intros st sector count buf [Hli Hi] Hsv Hs Hc Hlen Hbuf.
    destruct (Hrd (snd st) sector count buf Hi Hsv Hs Hc Hlen Hbuf) as (d' & v & E & Hv & Hi' & Hd).
    destruct (devread_ok c id st sector count buf f Hli ltac:(lia) Hf _ _ _ E) as [-> _]. by exists (fst st, d'), v.
  - exists class_disk_devwrite. split; [done|]. intros st sector count buf Hli Hi Hsv Hs Hc Hlen Hbuf.
    destruct (Hrd (snd st) sector count buf Hi Hsv Hs Hc Hlen Hbuf) as (d' & v & E & Hv & _ & Hd).
    destruct (devread_ok c id st sector count buf f Hli ltac:(lia) Hf _ _ _ E) as [_ ->]. by exists (fst st, d'), v.
Qed.
End Disk.

Definition demo_disk : class_disk :=
  mk_class_disk (bytes "sra" ++ [0]) 2 8 4 2 None (Some (fun d sector count buf => BlockDemo.rd_op d 0 sector count buf)) None None.

Lemma demo_disk_reads : disk_reads (fun _ => True) (fun d => d) (fun _ => True) demo_disk.
Proof.
  eexists. split; [reflexivity|]. intros d sector count buf _ _ Hs Hc Hl Hb. cbn [cd_sector_size demo_disk] in *.
  exists d, 0. unfold BlockDemo.rd_op. destruct (Z.leb_spec ((sector + count) * 4) (zlen d)); [|lia]. rewrite memcpy_ok by lia. done.
Qed.

Lemma class_disk_reads_witness :
  let '(disks, b) := class_disk_bind [] demo_disk in
  reads_disk (fun st => listed (internal_id b) demo_disk st /\ True) (fun st => snd st) (fun _ => True) b.
Proof.
  destruct (class_disk_bind [] demo_disk) as [disks b] eqn:E.
  destruct (class_disk_reads (fun _ => True) (fun d => d) (fun _ => True) [] demo_disk disks b demo_disk_reads ltac:(vm_compute; reflexivity) E) as (_ & H & _). exact H.
Defined.
