(* ===== verification/Iso.v ===== *)
(** * The ISO 9660 driver: fs/drv/iso9660/iso9660.c

    Sectors come from an interface that dev/block.c implements.  [iso] is the private data of one
    mount with the device it reads from.  Structures on the disk are byte offsets into what was
    read; a field outside the object read is a [Fault].  The stack buffers of a call ([segment] of
    the path walk, [namebuffer], the one of [snprintf]) are arguments, and so is the value of the
    uninitialised [type] of a path walk that sees no segment.  Messages are left out. *)
From S2P Require Import Prelude Strings Format Rcp Pool Path Block.

(** ** What the driver needs of a block device *)
Class BlockSource (S : Type) := {
  (** [dev_block_read(dev_id, buffer, pos, len)]: the buffer and the return value. *)
  src_read : S -> Z -> list Z -> Z -> Z -> res (S * list Z * Z) }.

(** The device [dev] holds [content]: short reads are exact, longer ones may write past [len]. *)
Class BlockSourceLaws (S : Type) `{BlockSource S} (src_ok : S -> Prop) (dev : Z) (content : list Z) := {
  src_block : forall d buf pos len, src_ok d -> 0 <= pos -> 0 <= len <= 2048 -> pos + len <= zlen content -> len <= zlen buf ->
    exists d', src_read d dev buf pos len = Ok (d', splice buf 0 (slice content pos len), 0) /\ src_ok d';
  src_long : forall d buf pos len, src_ok d -> 0 <= pos -> 0 <= len < 2 ^ 24 -> pos + len <= zlen content -> len + 2048 <= zlen buf ->
    exists d' W, src_read d dev buf pos len = Ok (d', splice buf 0 (slice content pos W), 0) /\ src_ok d' /\ len <= W <= len + 2048 }.

Definition BLOCK_SIZE : Z := 2048.
Definition FS_TYPE_NONE : Z := 0.
Definition FS_TYPE_REG : Z := 1.
Definition FS_TYPE_DIR : Z := 2.
Definition IOCTL_BYTES_AVAILABLE : Z := 113.

(** Little-endian fields. *)
Definition le32 (b : list Z) (i : Z) : res Z :=
  if (0 <=? i) && (i + 4 <=? zlen b) then Ok (le_val (slice b i 4)) else Fault.

(** [iso9660_dentry_t]: the fields of the record at [o]. *)
Definition de_len (b : list Z) (o : Z) : res Z := load b o.
Definition de_lba (b : list Z) (o : Z) : res Z := le32 b (o + 2).
Definition de_size (b : list Z) (o : Z) : res Z := le32 b (o + 10).
Definition de_flags (b : list Z) (o : Z) : res Z := load b (o + 25).
Definition de_filename_len (b : list Z) (o : Z) : res Z := load b (o + 32).
Definition DENTRY_SIZE : Z := 33.

(** [(dentry->flags & 0x02) ? FS_TYPE_DIR : FS_TYPE_REG] *)
Definition de_type (b : list Z) (o : Z) : res Z :=
  fl ← de_flags b o; Ok (if negb (Z.land fl 2 =? 0) then FS_TYPE_DIR else FS_TYPE_REG).

(** [lhandle_t] *)
Record lhandle := mk_lhandle {
  l_start : Z; l_size : Z; l_pos : Z; l_block_read : Z; l_buffer : list Z; l_refs : Z; l_type : Z }.

Definition set_pos (h : lhandle) (p : Z) : lhandle :=
  mk_lhandle (l_start h) (l_size h) p (l_block_read h) (l_buffer h) (l_refs h) (l_type h).
Definition set_block (h : lhandle) (blk : Z) (b : list Z) : lhandle :=
  mk_lhandle (l_start h) (l_size h) (l_pos h) blk b (l_refs h) (l_type h).
Definition set_lrefs (h : lhandle) (n : Z) : lhandle :=
  mk_lhandle (l_start h) (l_size h) (l_pos h) (l_block_read h) (l_buffer h) n (l_type h).

(** [finfo_t] *)
Record finfo := mk_finfo { fi_dev_id : Z; fi_type : Z; fi_size : Z; fi_block_size : Z; fi_block_count : Z }.

Section Iso.
Context {S : Type} `{BlockSource S}.

(** [iso9660private_t]; [pvd] is the primary volume descriptor. *)
Record iso := mk_iso { src : S; pvd : list Z; root_lba : Z; lhandles : rcparray lhandle }.

Definition set_src (s : iso) x := mk_iso x (pvd s) (root_lba s) (lhandles s).
Definition set_lhandles (s : iso) x := mk_iso (src s) (pvd s) (root_lba s) x.

(** ** Mounting *)

(** The loop over the volume descriptors from [offset] on. *)
Fixpoint vdesc_loop (fuel : nat) (d : S) (dev offset : Z) (yeet pv : list Z) (complete : bool) : res (S * (list Z * option (list Z) + Z)) :=
  match fuel with
  | O => OutOfFuel
  | Datatypes.S f =>
      if offset >? 24 then Ok (d, inr (-1))
      else
        '(d, yeet, ret) ← src_read d dev yeet ((64 + offset * 4) * 512) BLOCK_SIZE;
        if is_error ret then Ok (d, inr ret)
        else
          t ← load yeet 0;
          let pv := if t =? 1 then yeet else pv in
          let complete := complete || (t =? 1) in
          if t =? 255 then Ok (d, inl (yeet, if complete then Some pv else None))
          else vdesc_loop f d dev (offset + 1) yeet pv complete
  end.

Definition iso9660_mount (d : S) (dev : Z) : res (iso * Z) :=
  '(d, r) ← vdesc_loop 26 d dev 0 (heap_object 2048) (replicate 2048 0) false;
  match r with
  | inr e => Ok (mk_iso d [] 0 [], e)
  | inl (_, None) => Ok (mk_iso d [] 0 [], -1)
  | inl (yeet, Some pv) =>
      lba ← le32 pv 158;
      '(d, _, ret) ← src_read d dev yeet (u32 (lba * 2048)) 2048;
      Ok (mk_iso d pv lba [], if is_error ret then ret else 0)
  end.

(** ** Directories *)

(** The name of the record at [o], in [namebuffer]; [cap] is the size of the buffer the code
    allows for. *)
Definition entry_name (cap : Z) (namebuffer b : list Z) (o : Z) (scratch : list Z) : res (list Z) :=
  flen ← de_filename_len b o;
  c ← load b (o + 33);
  if c =? 0 then strcpy namebuffer (bytes "." ++ [0])
  else if c =? 1 then strcpy namebuffer (bytes ".." ++ [0])
  else
    '(nb, _) ← snprintf namebuffer (cmin cap (flen + 1)) (bytes "%s" ++ [0]) [VStr (drop (Z.to_nat (o + 33)) b)] scratch;
    n ← strchrnul nb 59;
    Prelude.store nb n 0.

(** The loop of [iso9660_find]: the block and the offset of the record with the name. *)
Fixpoint find_loop (fuel : nat) (d : S) (dev start size : Z) (segment namebuffer scratch buffer : list Z) (offset progress : Z)
  : res (S * option (list Z * Z)) :=
  if progress <? size then
    match fuel with
    | O => OutOfFuel
    | Datatypes.S f =>
        len ← de_len buffer offset;
        if len =? 0 then
          let progress := u32 (progress + BLOCK_SIZE) in
          '(d, buffer, _) ← src_read d dev buffer (u64 (start + progress)) BLOCK_SIZE;
          if progress >=? size then Ok (d, None)
          else find_loop f d dev start size segment namebuffer scratch buffer 0 progress
        else
          let next := u16 (offset + len) in
          namebuffer ← entry_name 256 namebuffer buffer offset scratch;
          cmp ← strcmp namebuffer segment;
          if cmp =? 0 then Ok (d, Some (buffer, offset))
          else if next >=? BLOCK_SIZE then
            let progress := u32 (progress + BLOCK_SIZE) in
            '(d, buffer, _) ← src_read d dev buffer (u64 (start + progress)) BLOCK_SIZE;
            if progress >=? size then Ok (d, None)
            else find_loop f d dev start size segment namebuffer scratch buffer 0 progress
          else find_loop f d dev start size segment namebuffer scratch buffer next progress
    end
  else Ok (d, None).

(** The type, [*lba], [*size] and [*dentry_ext]. *)
Definition iso9660_find (fuel : nat) (d : S) (dev lba size : Z) (segment ext namebuffer scratch : list Z)
  : res (S * (Z * Z * Z * list Z)) :=
  let start := u32 (lba * BLOCK_SIZE) in
  '(d, buffer, _) ← src_read d dev (heap_object BLOCK_SIZE) start BLOCK_SIZE;
  '(d, o) ← find_loop fuel d dev start size segment namebuffer scratch buffer 0 0;
  match o with
  | None => Ok (d, (FS_TYPE_NONE, lba, size, ext))
  | Some (b, o) =>
      lba ← de_lba b o;
      size ← de_size b o;
      ext ← memcpy ext 0 b o DENTRY_SIZE;
      t ← de_type b o;
      Ok (d, (t, lba, size, ext))
  end.

(** The walk over the segments of a path; [inr] is the error to return. *)
Fixpoint iso_walk (fuel ffuel : nat) (d : S) (dev : Z) (segment local namebuffer scratch : list Z) (left dir size type : Z) (ext : list Z)
  : res (S * (Z * Z * Z * list Z + Z)) :=
  o ← path_next segment local scratch;
  match o with
  | None => Ok (d, inl (type, dir, size, ext))
  | Some (segment, local) =>
      match fuel with
      | O => OutOfFuel
      | Datatypes.S f =>
          let left := left - 1 in
          '(d, r) ← iso9660_find ffuel d dev dir size segment ext namebuffer scratch;
          let '(type, dir, size, ext) := (r : Z * Z * Z * list Z) in
          if type =? FS_TYPE_NONE then Ok (d, inr (- rc ENOENT))
          else if left =? 0 then Ok (d, inl (type, dir, size, ext))
          else if negb (type =? FS_TYPE_DIR) then Ok (d, inr (- rc ENOENT))
          else iso_walk f ffuel d dev segment local namebuffer scratch left dir size type ext
      end
  end.

(** The walk from the root; [uninit] is the initial [type]. *)
Definition walk_path (ffuel : nat) (s : iso) (dev : Z) (path segment namebuffer scratch : list Z) (uninit : Z) (ext : list Z)
  : res (iso * (Z * Z * Z * list Z + Z)) :=
  size ← le32 (pvd s) 166;
  left ← path_count_segments path;
  '(d, r) ← iso_walk (length path) ffuel (src s) dev segment (drop 1 path) namebuffer scratch left (root_lba s) size uninit ext;
  Ok (set_src s d, r).

Definition iso9660_open (ffuel : nat) (s : iso) (dev : Z) (path segment namebuffer scratch : list Z) (uninit : Z) : res (iso * Z) :=
  '(s, r) ← walk_path ffuel s dev path segment namebuffer scratch uninit (replicate 33 0);
  match r with
  | inr e => Ok (s, e)
  | inl (type, dir, size, _) =>
      if type =? FS_TYPE_DIR then Ok (s, - rc EISDIR)
      else
        let '(l, ret) := rcparray_add (lhandles s) (mk_lhandle dir size 0 0 [] 1 type) in
        Ok (set_lhandles s l, ret)
  end.

Definition iso9660_opendir (ffuel : nat) (s : iso) (dev : Z) (path segment namebuffer scratch : list Z) (uninit : Z) : res (iso * Z) :=
  '(s, r) ← walk_path ffuel s dev path segment namebuffer scratch uninit (replicate 33 0);
  match r with
  | inr e => Ok (s, e)
  | inl (type, dir, size, _) =>
      if negb (type =? FS_TYPE_DIR) then Ok (s, - rc ENOTDIR)
      else
        '(d, b, _) ← src_read (src s) dev (heap_object BLOCK_SIZE) (u32 (dir * BLOCK_SIZE)) BLOCK_SIZE;
        let '(l, ret) := rcparray_add (lhandles s) (mk_lhandle dir size 0 (2 ^ 32 - 1) b 0 type) in
        Ok (set_lhandles (set_src s d) l, ret)
  end.

Definition iso9660_finfo (ffuel : nat) (s : iso) (dev : Z) (path segment namebuffer scratch : list Z) (uninit : Z) (fi : finfo)
  : res (iso * finfo * Z) :=
  '(s, r) ← walk_path ffuel s dev path segment namebuffer scratch uninit (slice (pvd s) 156 33);
  match r with
  | inr e => Ok (s, fi, e)
  | inl (_, _, _, ext) =>
      size ← de_size ext 0;
      t ← de_type ext 0;
      Ok (s, mk_finfo dev t size BLOCK_SIZE (u32 (size + BLOCK_SIZE - 1) / BLOCK_SIZE), 0)
  end.

(** ** Open files *)

(** [rcparray_get], the work on the handle, [rcparray_unref]; -EBADF without one. *)
Definition on_handle {R} (s : iso) (ifd : Z) (missing : R) (f : iso -> lhandle -> res (iso * lhandle * R)) : res (iso * R) :=
  match rcparray_get (lhandles s) ifd with
  | (l, None) => Ok (set_lhandles s l, missing)
  | (l, Some h) =>
      '(s, h, r) ← f (set_lhandles s l) h;
      Ok (set_lhandles s (rcparray_unref (rcparray_write (lhandles s) ifd h) ifd), r)
  end.

Definition iso9660_read (s : iso) (dev ifd : Z) (buffer : list Z) (len : Z) : res (iso * (list Z * Z)) :=
  on_handle s ifd (buffer, - rc EBADF) (fun s h =>
    if l_type h =? FS_TYPE_DIR then Ok (s, h, (buffer, - rc EBADF))
    else
      let actual_len := s32 (cmin (u32 (l_size h - l_pos h)) len) in
      '(d, b, _) ← src_read (src s) dev buffer (u64 (l_start h * BLOCK_SIZE + l_pos h)) (u64 actual_len);
      Ok (set_src s d, set_pos h (u32 (l_pos h + actual_len)), (b, actual_len))).

Definition iso9660_write : Z := - rc EROFS.

Definition iso9660_seek (s : iso) (ifd offset mode : Z) : res (iso * Z) :=
  on_handle s ifd (- rc EBADF) (fun s h =>
    if l_type h =? FS_TYPE_DIR then Ok (s, h, - rc EBADF)
    else
      let new_pos := if mode =? 0 then offset
                     else if mode =? 1 then s64 (s32 (l_pos h) + offset)
                     else if mode =? 2 then s64 (s32 (l_size h) + offset)
                     else 0 in
      Ok (s, set_pos h (u32 (cmin (cmax new_pos 0) (l_size h))), 0)).

Definition iso9660_close (s : iso) (ifd : Z) : res (iso * Z) :=
  match rcparray_get (lhandles s) ifd with
  | (l, None) => Ok (set_lhandles s l, - rc EBADF)
  | (l, Some h) =>
      let refs := s32 (l_refs h - 1) in
      let l := rcparray_write l ifd (set_lrefs h refs) in
      let l := if refs =? 0 then fst (rcparray_remove l ifd) else l in
      Ok (set_lhandles s (rcparray_unref l ifd), 0)
  end.

(** The value written through [ioctl_data]. *)
Definition iso9660_ioctl (s : iso) (ifd code : Z) : res (iso * (option Z * Z)) :=
  if negb (code =? IOCTL_BYTES_AVAILABLE) then Ok (s, (None, - rc ENOSYS))
  else on_handle s ifd (None, - rc EBADF) (fun s h => Ok (s, h, (Some (u32 (l_size h - l_pos h)), 0))).

(** The loop of [iso9660_readdir]: the type and the name of the next record. *)
Fixpoint readdir_loop (fuel : nat) (s : iso) (dev : Z) (h : lhandle) (name scratch : list Z) (type : Z)
  : res (iso * lhandle * (Z * list Z * Z)) :=
  if l_pos h >=? l_size h then Ok (s, h, (type, name, -1))
  else
    match fuel with
    | O => OutOfFuel
    | Datatypes.S f =>
        '(s, h) ← (if negb (l_pos h / BLOCK_SIZE =? l_block_read h) then
                     '(d, b, _) ← src_read (src s) dev (l_buffer h) (u32 (u32 (l_start h * BLOCK_SIZE) + l_pos h)) BLOCK_SIZE;
                     Ok (set_src s d, set_block h (l_pos h / BLOCK_SIZE) b)
                   else Ok (s, h));
        let o := l_pos h mod BLOCK_SIZE in
        type ← de_type (l_buffer h) o;
        len ← de_len (l_buffer h) o;
        if len =? 0 then
          let h := set_pos h (u32 (l_pos h + (BLOCK_SIZE - l_pos h mod BLOCK_SIZE))) in
          if l_pos h >=? l_size h then Ok (s, h, (type, name, -1))
          else readdir_loop f s dev h name scratch type
        else
          let h := set_pos h (u32 (l_pos h + len)) in
          name ← entry_name 255 name (l_buffer h) o scratch;
          Ok (s, h, (type, name, 0))
    end.

Definition iso9660_readdir (fuel : nat) (s : iso) (dev ifd : Z) (type : Z) (name scratch : list Z) : res (iso * (Z * list Z * Z)) :=
  on_handle s ifd (type, name, - rc EBADF) (fun s h =>
    if negb (l_type h =? FS_TYPE_DIR) then Ok (s, h, (type, name, - rc EBADF))
    else readdir_loop fuel s dev h name scratch type).
End Iso.
Arguments iso S : clear implicits.

(** ** Names *)

Definition getd (b : list Z) (i : Z) : Z := default 0 (get b i).

(** The name of the record at [o]: a version after a semicolon does not count. *)
Definition rec_name (cap : Z) (b : list Z) (o : Z) : list Z :=
  let c := getd b (o + 33) in
  if c =? 0 then bytes "." else if c =? 1 then bytes ".."
  else cut 59 (cut 0 (slice b (o + 33) (Z.min (cap - 1) (getd b (o + 32))))).

Lemma load_getd b i : 0 <= i < zlen b -> load b i = Ok (getd b i).
Proof. intros Hi. destruct (get_in_range b i Hi) as [x E]. unfold load, getd. by rewrite E. Qed.

Lemma getd_byte b i : byte_list b -> 0 <= getd b i < 256.
Proof.
  intros Hb. unfold getd. destruct (get b i) as [x|] eqn:E; [|simpl; lia]. apply get_Some in E as [_ E]. simpl.
  by apply (Forall_lookup_1 _ _ _ _ Hb E).
Qed.

Lemma getd_slice b o n i : 0 <= o -> 0 <= i < n -> getd (slice b o n) i = getd b (o + i).
Proof.
  intros. unfold getd, get. destruct (Z.leb_spec 0 i), (Z.leb_spec 0 (o + i)); try lia. unfold slice. rewrite lookup_take_lt by lia.
  rewrite lookup_drop. do 2 f_equal. lia.
Qed.

Lemma rec_name_nonul cap b o : byte_list b -> nonul (rec_name cap b o).
Proof.
  intros Hb. unfold rec_name. destruct (_ =? 0); [by repeat constructor|]. destruct (_ =? 1); [by repeat constructor|].
  apply cut_sub, cut0_nonul. by apply slice_byte.
Qed.

Lemma strchrnul_cut t r : nonul t -> exists n, strchrnul (t ++ 0 :: r) 59 = Ok n /\ n = zlen (cut 59 t).
Proof. intros Ht. eexists. split; [by apply strchrnul_at|done]. Qed.

(** The room of [namebuffer] and the byte after the name, which is read too. *)
Definition name_room (b : list Z) (o : Z) : Prop := 0 <= o /\ o + 33 + getd b (o + 32) < zlen b.

(** A C string at the start of a 256 byte buffer. *)
Definition holds_name (nb t : list Z) : Prop := (exists r, nb = t ++ 0 :: r) /\ zlen nb = 256.

Lemma entry_name_ok cap nb b o scratch : byte_list b -> name_room b o -> zlen nb = 256 -> 2 <= cap <= 256 -> zlen scratch = FMT_BUFFER ->
  exists nb', entry_name cap nb b o scratch = Ok nb' /\ holds_name nb' (rec_name cap b o).
Proof.
  intros Hb (Ho & Hroom) Hnb Hcap Hscr. pose proof (getd_byte b (o + 32) Hb) as Hfl. unfold entry_name, rec_name, de_filename_len.
  rewrite !load_getd by lia. cbn [mbind res_bind]. set (flen := getd b (o + 32)) in *. set (c := getd b (o + 33)) in *.
  assert (forall t, nonul t -> zlen t <= 2 -> exists nb', strcpy nb (t ++ [0]) = Ok nb' /\ holds_name nb' t) as Hdot.
  { intros t Ht Hl. rewrite strcpy_ok by (done || (unfold zlen in *; lia)). eexists. split; [done|]. split; [by eexists|].
    unfold zlen in *. rewrite length_app. simpl. rewrite length_drop. lia. }
  destruct (Z.eqb_spec c 0); [by apply Hdot; repeat constructor|]. destruct (Z.eqb_spec c 1); [by apply Hdot; repeat constructor|].
  clear Hdot. rewrite cmin_min. set (k := Z.min (cap - 1) flen). assert (Z.min cap (flen + 1) = k + 1) as -> by lia.
  set (local := drop (Z.to_nat (o + 33)) b). assert (zlen local = zlen b - (o + 33)) as Hll by (unfold local, zlen in *; rewrite length_drop; lia).
  assert (slice b (o + 33) k = take (Z.to_nat k) local) as -> by done.
  set (nm := take (Z.to_nat k) local). assert (byte_list nm) as Hnm by (unfold nm, local; by apply Forall_take, Forall_drop).
  assert (zlen nm = k) as Hnl by (unfold nm, zlen in *; rewrite length_take; lia).
  assert (exists x r, local = cut 0 nm ++ x :: r /\ (x = 0 /\ zlen (cut 0 nm) <= k + 1 - 1 \/ zlen (cut 0 nm) = k + 1 - 1)) as (x & r & El & Hx).
  { pose proof (take_drop (Z.to_nat k) local) as Etd. fold nm in Etd. destruct (cut_split 0 nm) as (q & Eq & [->|[q' ->]]).
    - rewrite app_nil_r in Eq. destruct (drop (Z.to_nat k) local) as [|x r] eqn:Ed.
      { apply (f_equal length) in Ed. rewrite length_drop in Ed. unfold zlen in *. simpl in Ed. lia. }
      exists x, r. rewrite <- Eq. split; [done|]. right. lia.
    - exists 0, (q' ++ drop (Z.to_nat k) local). split; [rewrite <- Etd at 1; rewrite Eq at 1; by rewrite <- app_assoc|].
      left. split; [done|]. pose proof (zlen_cut 0 nm). lia. }
  rewrite El. destruct (snprintf_str nb (k + 1) scratch (cut 0 nm) x r (cut0_nonul nm Hnm) ltac:(lia) Hscr Hx) as (v & ->).
  cbn [mbind res_bind]. pose proof (zlen_cut 0 nm) as Hcl. pose proof (cut0_nonul nm Hnm) as Hcn. set (t := cut 0 nm) in *.
  rewrite splice_0, <- app_assoc. cbn [app]. destruct (strchrnul_cut t (drop (length (t ++ [0])) nb) Hcn) as (n2 & -> & ->).
  cbn [mbind res_bind]. destruct (cut_split 59 t) as (q & Eq & Hq).
  assert (exists y r', t ++ 0 :: drop (length (t ++ [0])) nb = cut 59 t ++ y :: r') as (y & r' & E').
  { destruct q as [|y q]; [exists 0; eexists; rewrite <- (app_nil_r (cut 59 t)), <- Eq; done|]. exists y. eexists.
    transitivity ((cut 59 t ++ y :: q) ++ 0 :: drop (length (t ++ [0])) nb); [by rewrite <- Eq|by rewrite <- app_assoc]. }
  assert (zlen (t ++ 0 :: drop (length (t ++ [0])) nb) = 256) as Hl'.
  { unfold zlen in *. rewrite length_app in *. simpl. rewrite length_drop, length_app. simpl. lia. }
  rewrite E', store_app. eexists. split; [done|]. split; [by eexists|]. rewrite E' in Hl'. unfold zlen in *. rewrite length_app in *. done.
Qed.

(** ** Directories as lists of records *)

Record drec := mk_drec { dr_name : list Z; dr_type : Z; dr_lba : Z; dr_size : Z }.

Definition rec_at (cap : Z) (b : list Z) (o : Z) : drec :=
  mk_drec (rec_name cap b o) (if negb (Z.land (getd b (o + 25)) 2 =? 0) then FS_TYPE_DIR else FS_TYPE_REG)
    (le_val (slice b (o + 2) 4)) (le_val (slice b (o + 10) 4)).

(** The offsets of the records of a block from [o] on; a length of zero ends it. *)
Fixpoint block_recs (fuel : nat) (b : list Z) (o : Z) : list Z :=
  match fuel with
  | O => []
  | Datatypes.S f => if (o <? BLOCK_SIZE) && negb (getd b o =? 0) then o :: block_recs f b (o + getd b o) else []
  end.

Section Directory.
Context (content : list Z) (start : Z).

Definition dir_block (i : nat) : list Z := slice content (start + BLOCK_SIZE * Z.of_nat i) BLOCK_SIZE.

(** The records of the blocks from [i] on, [n] of them. *)
Definition dir_from (i n : nat) : list (nat * Z) := seq i n ≫= fun j => pair j <$> block_recs 2048 (dir_block j) 0.

(** The blocks of a directory of [size] bytes. *)
Definition dir_blocks (size : Z) : nat := Z.to_nat ((size + (BLOCK_SIZE - 1)) / BLOCK_SIZE).

Definition dir_offsets (size : Z) : list (nat * Z) := dir_from 0 (dir_blocks size).
Definition dir_list (cap size : Z) : list drec := (fun '(i, o) => rec_at cap (dir_block i) o) <$> dir_offsets size.

(** The directory lies on the disk with the block after it, which is read too, and its records
    are whole. *)
Record dir_ok (size : Z) : Prop := {
  do_bytes : byte_list content;
  do_start : 0 <= start < 2 ^ 32;
  do_size : 0 <= size < 2 ^ 31;
  do_room : start + BLOCK_SIZE * (Z.of_nat (dir_blocks size) + 1) <= zlen content;
  do_recs : Forall (fun '(i, o) => name_room (dir_block i) o) (dir_offsets size) }.
End Directory.

Lemma block_recs_next f b o : (0 < f)%nat -> byte_list b -> o < BLOCK_SIZE -> getd b o <> 0 ->
  exists f', f = Datatypes.S f' /\ block_recs f b o = o :: block_recs f' b (o + getd b o) /\ 0 < getd b o < 256.
Proof.
  intros Hf Hb Ho Hg. destruct f as [|f]; [lia|]. exists f. split; [done|]. pose proof (getd_byte b o Hb).
  cbn [block_recs]. destruct (Z.ltb_spec o BLOCK_SIZE); [|lia]. destruct (Z.eqb_spec (getd b o) 0); [done|]. split; [done|lia].
Qed.

Lemma block_recs_end f b o : BLOCK_SIZE <= o \/ getd b o = 0 -> block_recs f b o = [].
Proof.
  intros Hc. destruct f as [|f]; [done|]. cbn [block_recs].
  destruct (Z.ltb_spec o BLOCK_SIZE), (Z.eqb_spec (getd b o) 0); try done; lia.
Qed.

Lemma dir_blocks_lt size (i : nat) : 0 <= size -> (i < dir_blocks size)%nat <-> BLOCK_SIZE * Z.of_nat i < size.
Proof.
  intros Hs. unfold dir_blocks, BLOCK_SIZE. pose proof (Z.div_mod (size + (2048 - 1)) 2048). pose proof (Z.mod_pos_bound (size + (2048 - 1)) 2048).
  set (q := (size + (2048 - 1)) / 2048) in *. lia.
Qed.

Section Find.
Context {S : Type} `{BlockSource S} (ok : S -> Prop) (dev : Z) (content : list Z) `{!BlockSourceLaws S ok dev content}.

Lemma read_block d buf pos : ok d -> zlen buf = BLOCK_SIZE -> 0 <= pos -> pos + BLOCK_SIZE <= zlen content ->
  exists d', src_read d dev buf pos BLOCK_SIZE = Ok (d', slice content pos BLOCK_SIZE, 0) /\ ok d'.
Proof.
  intros Hd Hb Hp Hl. unfold BLOCK_SIZE in *. destruct (src_block d buf pos 2048 Hd Hp ltac:(lia) Hl ltac:(lia)) as (d' & -> & Hd').
  exists d'. split; [|done]. rewrite splice_0, drop_ge, app_nil_r; [done|].
  pose proof (zlen_slice content pos 2048 ltac:(lia) ltac:(lia) Hl). unfold zlen in *. lia.
Qed.

Context (start size : Z) (seg segr scratch : list Z).
Context (Hdir : dir_ok content start size) (Hseg : nonul seg) (Hscr : zlen scratch = FMT_BUFFER).

Local Abbreviation blk := (dir_block content start).
Local Abbreviation n := (dir_blocks size).
Local Abbreviation segment := (seg ++ 0 :: segr).

Definition named (x : nat * Z) : bool := bool_decide (rec_name 256 (blk (fst x)) (snd x) = seg).
Definition found (l : list (nat * Z)) : option (list Z * Z) := (fun x => (blk (fst x), snd x)) <$> find named l.

Lemma zlen_blk i : (i <= n)%nat -> zlen (blk i) = BLOCK_SIZE.
Proof. intros Hi. destruct Hdir as [_ Hs _ Hr _]. apply zlen_slice; unfold BLOCK_SIZE in *; lia. Qed.

Lemma dir_from_step i : (Datatypes.S i < n)%nat ->
  dir_from content start (Datatypes.S i) (n - Datatypes.S i)
  = (pair (Datatypes.S i) <$> block_recs 2048 (blk (Datatypes.S i)) 0) ++ dir_from content start (Datatypes.S (Datatypes.S i)) (n - Datatypes.S (Datatypes.S i)).
Proof.
  intros Hi. replace (n - Datatypes.S i)%nat with (Datatypes.S (n - Datatypes.S (Datatypes.S i))) by lia. done.
Qed.

(** What the loop sees from block [i], offset [o] on. *)
Definition rest (g : nat) (i : nat) (o : Z) : list (nat * Z) :=
  (pair i <$> block_recs g (blk i) o) ++ dir_from content start (Datatypes.S i) (n - Datatypes.S i).

Definition loop_ok (fuel : nat) : Prop := forall g d i o nb, ok d -> zlen nb = 256 -> (i < n)%nat -> 0 <= o < BLOCK_SIZE ->
  BLOCK_SIZE - o <= Z.of_nat g -> Forall (fun x => name_room (blk (fst x)) (snd x)) (rest g i o) ->
  (length (rest g i o) + (n - i) <= fuel)%nat ->
  exists d', find_loop fuel d dev start size segment nb scratch (blk i) o (BLOCK_SIZE * Z.of_nat i) = Ok (d', found (rest g i o)) /\ ok d'.

(** Going on to the next block. *)
Lemma next_block fuel d i nb : loop_ok fuel -> ok d -> zlen nb = 256 -> (i < n)%nat ->
  let l := dir_from content start (Datatypes.S i) (n - Datatypes.S i) in
  Forall (fun x => name_room (blk (fst x)) (snd x)) l -> (length l + (n - Datatypes.S i) <= fuel)%nat ->
  exists d', (let progress := u32 (BLOCK_SIZE * Z.of_nat i + BLOCK_SIZE) in
     '(d, buffer, _) ← src_read d dev (blk i) (u64 (start + progress)) BLOCK_SIZE;
     if progress >=? size then Ok (d, None)
     else find_loop fuel d dev start size segment nb scratch buffer 0 progress) = Ok (d', found l) /\ ok d'.
Proof.
  intros IH Hd Hnb Hi l Hl Hf. pose proof Hdir as [_ Hs Hz Hr _]. pose proof (dir_blocks_lt size i ltac:(lia)) as Hlt. cbv zeta.
  assert (BLOCK_SIZE * Z.of_nat i < size) as Hlt' by (by apply Hlt). unfold BLOCK_SIZE in Hlt', Hr.
  replace (BLOCK_SIZE * Z.of_nat i + BLOCK_SIZE) with (BLOCK_SIZE * Z.of_nat (Datatypes.S i)) by (unfold BLOCK_SIZE; lia).
  rewrite (u32_small (BLOCK_SIZE * _)), u64_small by (unfold BLOCK_SIZE; lia).
  destruct (read_block d (blk i) (start + BLOCK_SIZE * Z.of_nat (Datatypes.S i)) Hd) as (d1 & -> & Hd1); [apply zlen_blk; lia|unfold BLOCK_SIZE; lia..|].
  cbn [mbind res_bind]. fold (blk (Datatypes.S i)). pose proof (dir_blocks_lt size (Datatypes.S i) ltac:(lia)) as Hlt2.
  destruct (Z.geb_spec (BLOCK_SIZE * Z.of_nat (Datatypes.S i)) size) as [Hge|Hless].
  - exists d1. split; [|done]. unfold l. replace (n - Datatypes.S i)%nat with 0%nat by lia. done.
  - assert (Datatypes.S i < n)%nat as Hin by (by apply Hlt2). assert (l = rest 2048 (Datatypes.S i) 0) as El by (by apply dir_from_step).
    rewrite El in *. apply (IH 2048%nat); try done; unfold BLOCK_SIZE; lia.
Qed.

Lemma find_loop_ok fuel : loop_ok fuel.
Proof.
  induction fuel as [|fuel IH]; intros g d i o nb Hd Hnb Hi Ho Hg Hrm Hf; [lia|]. pose proof Hdir as [Hby Hs Hz Hr _].
  cbn [find_loop]. destruct (Z.ltb_spec (BLOCK_SIZE * Z.of_nat i) size) as [_|Hc]; [|apply Z.le_ngt in Hc; destruct Hc; apply dir_blocks_lt; lia].
  assert (byte_list (blk i)) as Hbb by (by apply slice_byte). pose proof (zlen_blk i ltac:(lia)) as Hzb.
  unfold de_len. rewrite load_getd by lia. cbn [mbind res_bind]. destruct (Z.eqb_spec (getd (blk i) o) 0) as [E0|E0].
  - unfold rest in *. rewrite block_recs_end in * by (by right). apply next_block; try done. cbn [fmap list_fmap app] in Hf. lia.
  - destruct (block_recs_next g (blk i) o ltac:(unfold BLOCK_SIZE in *; lia) Hbb ltac:(lia) E0) as (g' & -> & Er & Hlen).
    unfold rest in *. rewrite Er in *. cbn [fmap list_fmap app length] in *. apply Forall_cons in Hrm as [Hnr Hrm]. cbn [fst snd] in Hnr.
    destruct (entry_name_ok 256 nb (blk i) o scratch Hbb Hnr Hnb ltac:(lia) Hscr) as (nb' & -> & [nr ->] & Hnb'). cbn [mbind res_bind].
    destruct (strcmp_total (rec_name 256 (blk i) o) seg nr segr (rec_name_nonul _ _ _ Hbb) Hseg) as (v & -> & Hv). cbn [mbind res_bind].
    unfold found. cbn [find]. unfold named at 1. cbn [fst snd]. destruct (Z.eqb_spec v 0) as [Hv0|Hv0].
    { rewrite bool_decide_eq_true_2 by (by apply Hv). exists d. done. }
    rewrite bool_decide_eq_false_2 by (rewrite <- Hv; done). rewrite (u16_small (o + getd (blk i) o)) by (unfold BLOCK_SIZE in *; lia).
    destruct (Z.geb_spec (o + getd (blk i) o) BLOCK_SIZE) as [Hge|Hlt].
    + rewrite block_recs_end in * by (by left). cbn [fmap list_fmap app] in *. apply next_block; try done. lia.
    + apply (IH g'); try done; unfold rest; lia.
Qed.
End Find.

Lemma find_fmap {A B} (f : A -> B) (P : B -> bool) (l : list A) : find P (f <$> l) = f <$> find (fun x => P (f x)) l.
Proof. induction l as [|x l IH]; simpl; [done|]. by destruct (P (f x)). Qed.

Lemma find_ext' {A} (P Q : A -> bool) (l : list A) : (forall x, P x = Q x) -> find P l = find Q l.
Proof. intros HPQ. induction l as [|x l IH]; simpl; [done|]. rewrite HPQ. by destruct (Q x). Qed.

(** The first record of a directory with a name. *)
Definition dir_lookup (content : list Z) (lba size : Z) (name : list Z) : option drec :=
  find (fun r => bool_decide (dr_name r = name)) (dir_list content (lba * BLOCK_SIZE) 256 size).

(** How many rounds a search takes: one per record and one per block. *)
Definition dir_fuel (content : list Z) (lba size : Z) : nat :=
  (length (dir_offsets content (lba * BLOCK_SIZE) size) + dir_blocks size)%nat.

Lemma le32_ok b i : 0 <= i -> i + 4 <= zlen b -> le32 b i = Ok (le_val (slice b i 4)).
Proof. intros. unfold le32. destruct (Z.leb_spec 0 i), (Z.leb_spec (i + 4) (zlen b)); done || lia. Qed.

Lemma find_elem {A} (P : A -> bool) l x : find P l = Some x -> x ∈ l.
Proof. induction l as [|y l IH]; simpl; [done|]. destruct (P y); [intros [= ->]; by left|intros ?; right; by apply IH]. Qed.

Section Lookup.
Context {S : Type} `{BlockSource S} (ok : S -> Prop) (dev : Z) (content : list Z) `{!BlockSourceLaws S ok dev content}.

(** The type, size and address of a record, and the bytes of its entry. *)
Definition entry_of (ext : list Z) (t size : Z) : Prop := zlen ext = DENTRY_SIZE /\ de_size ext 0 = Ok size /\ de_type ext 0 = Ok t.

Lemma find_ok fuel d lba size seg segr ext nb scratch : ok d -> dir_ok content (lba * BLOCK_SIZE) size -> nonul seg ->
  zlen scratch = FMT_BUFFER -> zlen nb = 256 -> zlen ext = DENTRY_SIZE -> (dir_fuel content lba size <= fuel)%nat ->
  exists d', ok d' /\
    match dir_lookup content lba size seg with
    | None => iso9660_find fuel d dev lba size (seg ++ 0 :: segr) ext nb scratch = Ok (d', (FS_TYPE_NONE, lba, size, ext))
    | Some r => exists ext', iso9660_find fuel d dev lba size (seg ++ 0 :: segr) ext nb scratch = Ok (d', (dr_type r, dr_lba r, dr_size r, ext')) /\
                  entry_of ext' (dr_type r) (dr_size r)
    end.
Proof.
  intros Hd Hdir Hseg Hscr Hnb Hext Hf. pose proof Hdir as [Hby Hs Hz Hr Hrec]. unfold iso9660_find.
  rewrite (u32_small (lba * BLOCK_SIZE)) by lia.
  destruct (read_block ok dev content d (heap_object BLOCK_SIZE) (lba * BLOCK_SIZE) Hd) as (d1 & -> & Hd1);
    [vm_compute; reflexivity|lia|unfold BLOCK_SIZE in *; lia|]. cbn [mbind res_bind].
  unfold dir_lookup, dir_list. rewrite find_fmap.
  rewrite (find_ext' _ (named content (lba * BLOCK_SIZE) seg)) by (by intros [i o]).
  set (offs := dir_offsets content (lba * BLOCK_SIZE) size) in *.
  assert (exists d', find_loop fuel d1 dev (lba * BLOCK_SIZE) size (seg ++ 0 :: segr) nb scratch (slice content (lba * BLOCK_SIZE) BLOCK_SIZE) 0 0
    = Ok (d', found content (lba * BLOCK_SIZE) seg offs) /\ ok d') as (d2 & -> & Hd2).
  { destruct (decide (0 < dir_blocks size)%nat) as [Hn|Hn].
    - assert (offs = rest content (lba * BLOCK_SIZE) size 2048 0 0) as Eo.
      { unfold offs, dir_offsets, rest. destruct (dir_blocks size) as [|k]; [lia|]. unfold dir_from. cbn [seq]. rewrite bind_cons. f_equal. f_equal. f_equal. lia. }
      destruct (find_loop_ok ok dev content (lba * BLOCK_SIZE) size seg segr scratch Hdir Hseg Hscr fuel 2048%nat d1 0%nat 0 nb) as (d2 & E & Hd2);
        [done|done|done|unfold BLOCK_SIZE; lia|unfold BLOCK_SIZE; lia| |unfold dir_fuel in Hf; fold offs in Hf; rewrite <- Eo; lia|].
      + rewrite <- Eo. eapply Forall_impl; [exact Hrec|]. by intros [i o].
      + exists d2. rewrite Eo. split; [|done]. unfold dir_block in E. rewrite Z.mul_0_r, Z.add_0_r in E. done.
    - exists d1. split; [|done]. assert (offs = []) as -> by (unfold offs, dir_offsets; by replace (dir_blocks size) with 0%nat by lia).
      assert (~ 0 < size) by (intros ?; apply Hn; apply dir_blocks_lt; unfold BLOCK_SIZE; lia).
      destruct fuel; cbn [find_loop]; (destruct (Z.ltb_spec 0 size); [lia|done]). }
  cbn [mbind res_bind]. exists d2. split; [done|]. unfold found.
  destruct (find (named content (lba * BLOCK_SIZE) seg) offs) as [[i o]|] eqn:E; cbn [fmap option_fmap option_map]; [|done].
  apply find_elem in E. rewrite Forall_forall in Hrec. specialize (Hrec _ E). cbv beta iota in Hrec. destruct Hrec as [Ho Hroom].
  cbn [fst snd]. set (b := dir_block content (lba * BLOCK_SIZE) i) in *. pose proof (getd_byte b (o + 32) (slice_byte _ _ _ Hby)).
  unfold de_lba, de_size, de_type, de_flags. rewrite !le32_ok, memcpy_ok by (rewrite ?Hext; unfold DENTRY_SIZE; lia). cbn [mbind res_bind].
  rewrite load_getd by lia. cbn [mbind res_bind rec_at dr_type dr_lba dr_size].
  assert (zlen (slice b o 33) = 33) as Hsl by (apply zlen_slice; lia).
  assert (splice ext 0 (slice b o DENTRY_SIZE) = slice b o 33) as Ee.
  { rewrite splice_0, drop_ge, app_nil_r; [done|]. unfold DENTRY_SIZE, zlen in *. lia. }
  rewrite Ee. eexists. split; [done|]. split_and!; [done|unfold de_size; rewrite le32_ok by lia; do 2 f_equal; apply slice_slice; lia|].
  unfold de_type, de_flags. rewrite load_getd by lia. cbn [mbind res_bind].
  by rewrite getd_slice by lia.
Qed.
End Lookup.

(** ** Paths *)

Section Resolve.
Context (content : list Z).

(** What a path leads to from a directory: type, address and size, or the error. *)
Fixpoint resolve (cur : Z * Z * Z) (segs : list (list Z)) : Z * Z * Z + Z :=
  match segs with
  | [] => inl cur
  | s :: more =>
      let '(_, lba, size) := cur in
      match dir_lookup content lba size s with
      | None => inr (- rc ENOENT)
      | Some r =>
          match more with
          | [] => inl (dr_type r, dr_lba r, dr_size r)
          | _ => if dr_type r =? FS_TYPE_DIR then resolve (dr_type r, dr_lba r, dr_size r) more else inr (- rc ENOENT)
          end
      end
  end.

(** The directories on the way are sound, and a search of each fits the fuel. *)
Fixpoint way_ok (fuel : nat) (lba size : Z) (segs : list (list Z)) : Prop :=
  match segs with
  | [] => True
  | s :: more =>
      dir_ok content (lba * BLOCK_SIZE) size /\ (dir_fuel content lba size <= fuel)%nat /\
      match dir_lookup content lba size s with Some r => way_ok fuel (dr_lba r) (dr_size r) more | None => True end
  end.
End Resolve.

Lemma rec_type r content lba size s : dir_lookup content lba size s = Some r -> dr_type r <> FS_TYPE_NONE.
Proof.
  intros E. apply find_elem in E. unfold dir_list in E. apply list_elem_of_fmap in E as ([i o] & -> & _).
  cbn [rec_at dr_type]. by destruct (negb _).
Qed.

Section Walk.
Context {S : Type} `{BlockSource S} (ok : S -> Prop) (dev : Z) (content : list Z) `{!BlockSourceLaws S ok dev content}.
Context (ffuel : nat) (nb scratch after : list Z) (t : nat).
Context (Hnb : zlen nb = 256) (Hscr : zlen scratch = FMT_BUFFER) (Haf : byte_list after).

(** What the walk returns for what the path leads to. *)
Definition walk_result (items : list (nat * list Z)) (cur : Z * Z * Z) (ext : list Z) (d' : S) (r : res (S * (Z * Z * Z * list Z + Z))) : Prop :=
  match resolve content cur items.*2 with
  | inr e => r = Ok (d', inr e)
  | inl (ty, lba, size) => exists ext', r = Ok (d', inl (ty, lba, size, ext')) /\ zlen ext' = DENTRY_SIZE /\
      match items with [] => ext' = ext | _ => entry_of ext' ty size end
  end.

Lemma iso_walk_ok items : forall fuel d segment dir size type ext, ok d -> zlen segment = SEGMENT_SIZE -> zlen ext = DENTRY_SIZE ->
  Forall (fun '(_, s) => seg_ok s) items -> (length items <= fuel)%nat -> way_ok content ffuel dir size items.*2 ->
  zlen (spell items t ++ 0 :: after) < 2 ^ 31 ->
  exists d', ok d' /\
    walk_result items (type, dir, size) ext d'
      (iso_walk fuel ffuel d dev segment (spell items t ++ 0 :: after) nb scratch (zlen items) dir size type ext).
Proof.
  unfold walk_result. induction items as [|[k s] items IH]; intros fuel d segment dir size type ext Hd Hseg Hext Hit Hf Hway Hlen.
  - exists d. split; [done|]. cbn. exists ext. split; [|done]. change (spell [] t) with (replicate t 47).
    destruct fuel; cbn [iso_walk]; by rewrite path_next_end.
  - apply Forall_cons in Hit as [Hs Hit]. pose proof Hs as (_ & Hsl & Hsn & _). destruct fuel as [|fuel]; [simpl in Hf; lia|].
    cbn [fmap list_fmap snd way_ok] in *. destruct Hway as (Hdir & Hff & Hway). rewrite spell_cons, <- !app_assoc in *. rewrite !zlen_app in Hlen.
    pose proof (zlen_nonneg (replicate (Datatypes.S k) 47)). cbn [iso_walk].
    rewrite path_next_seg; [|done| |apply spell_head|rewrite !zlen_app; lia|done..].
    2: { apply spell_nonul. eapply Forall_impl; [exact Hit|]. by intros [? x] (_ & _ & ? & _). }
    cbn [mbind res_bind]. destruct (splice_seg segment s Hsl Hseg) as (sr & E & Hseg'). rewrite E in *. rewrite zlen_cons.
    destruct (find_ok ok dev content ffuel d dir size s sr ext nb scratch Hd Hdir Hsn Hscr Hnb Hext Hff) as (d1 & Hd1 & Hfind).
    cbn [resolve]. destruct (dir_lookup content dir size s) as [r|] eqn:El.
    2: { exists d1. split; [done|]. by rewrite Hfind. }
    destruct Hfind as (ext1 & -> & He). pose proof He as (Hext1 & _). cbn [mbind res_bind]. pose proof (rec_type r _ _ _ _ El) as Ht.
    destruct (Z.eqb_spec (dr_type r) FS_TYPE_NONE); [done|]. replace (zlen items + 1 - 1) with (zlen items) by lia.
    destruct (Z.eqb_spec (zlen items) 0) as [Hz|Hz].
    { destruct items; [|rewrite zlen_cons in Hz; pose proof (zlen_nonneg items); lia]. exists d1. split; [done|]. cbn. eauto. }
    destruct items as [|it items]; [done|]. cbn [fmap list_fmap]. destruct (Z.eqb_spec (dr_type r) FS_TYPE_DIR) as [Hdt|Hdt]; cbn [negb].
    + cbn [length] in Hf, IH. apply IH; try done; [lia|]. rewrite zlen_app. pose proof (zlen_nonneg s). lia.
    + by exists d1.
Qed.

Lemma iso_walk_skip fuel d segment items left dir size type ext : 0 < zlen (spell items t) ->
  iso_walk fuel ffuel d dev segment (drop 1 (spell items t ++ 0 :: after)) nb scratch left dir size type ext
  = iso_walk fuel ffuel d dev segment (spell items t ++ 0 :: after) nb scratch left dir size type ext.
Proof.
  intros Hp. destruct (spell_head items t) as [E|Hh]; [by rewrite E in Hp|]. destruct (spell items t) as [|c l]; [done|]. simplify_eq/=. by destruct fuel.
Qed.
End Walk.

(** ** The block layer as the source of sectors *)

Section Device.
Context {D : Type} (usable : Z -> bool) (adr tid : Z) (Hu : usable tid = true).

(** A thread [tid] with its request at [adr] reads through [dev_block_read]. *)
#[local] Instance block_source : BlockSource (blkw D) :=
  {| src_read := fun w dev buf pos len => dev_block_read usable (Z.to_nat 65536) w dev adr tid buf pos len |}.

Context (inv : D -> Prop) (disk : D -> list Z) (serves : Z -> Prop) (Hserves : forall c, 0 < c -> serves c) (dev blk shift ss : Z) (dsk : list Z).

(** The device is up, its queue is empty, and requests of a block and a sector can be served at
    once. *)
Definition holds_disk (w : blkw D) : Prop :=
  exists b, attached w dev blk b shift /\ idle w blk b adr /\ reads_disk inv disk serves b /\ inv (bdrv w) /\ disk (bdrv w) = dsk /\
    sector_size b = ss /\ 0 <= burst_max b < 2 ^ 16 /\ 2048 / ss + 2 <= burst_cap b.

Lemma attached_after (w w' : blkw D) b : attached w dev blk b shift -> dev_array w' = dev_array w ->
  blks w' = <[blk := set_queue b None adr]> (blks w) -> attached w' dev blk (set_queue b None adr) shift.
Proof.
  intros [Hid (c & Hs & Hp & Hr & Ht & b1 & Hb1 & Hblk & Hsh) Hb Hi] Ea Eb. split; [done| | |done].
  - exists c. rewrite Ea, Eb. split_and!; try done. destruct (decide (dspecific (value c) = blk)) as [E|E].
    + rewrite E in *. rewrite lookup_insert_eq. eexists. split; [done|]. rewrite Hb in Hb1. by injection Hb1 as <-.
    + rewrite lookup_insert_ne by done. eauto.
  - by rewrite Eb, lookup_insert_eq.
Qed.

Context (Hss : 512 <= ss <= 2048) (Hsh : 0 <= shift) (Hdsk : zlen dsk mod ss = 0) (Hd32 : zlen dsk / ss < 2 ^ 32).

Lemma disk_read w buf pos len : holds_disk w -> 0 <= pos -> 0 < len < 2 ^ 24 -> pos + shift + len <= zlen dsk ->
  len <= zlen buf -> (2048 < len -> len + ss <= zlen buf) ->
  exists w' W, src_read w dev buf pos len = Ok (w', splice buf 0 (slice dsk (pos + shift) W), 0) /\ holds_disk w' /\
    len <= W < len + ss /\ (len <= 2048 -> W = len).
Proof.
  intros (b & Hat & Hid & Hrd & Hinv & Hd & Ess & Hbm & Hcap) Hp Hl Hpl Hbuf Hbuf2. set (p := pos + shift) in *. set (n := sectors_of ss p len).
  destruct (sectors_bounds ss p len) as (Hn0 & Hn1 & Hn2); [lia|unfold p; lia|lia|]. fold n in Hn0, Hn1, Hn2.
  pose proof (Z.mod_pos_bound p ss ltac:(lia)) as Hm. pose proof (Z.div_mod p ss ltac:(lia)) as Hpm. pose proof (Z.div_mod (zlen dsk) ss ltac:(lia)) as Hdm.
  pose proof (Z.div_mod 2048 ss ltac:(lia)) as H2. pose proof (Z.mod_pos_bound 2048 ss ltac:(lia)). assert (0 < 2048 / ss) by (apply Z.div_str_pos; lia).
  rewrite Hdsk, Z.add_0_r in Hdm. set (K := zlen dsk / ss) in *.
  assert (n < 65536) as Hn by (apply (Zmult_lt_reg_r _ _ ss); lia).
  assert (p / ss + n <= K) as HK.
  { apply Z.lt_succ_r. apply (Zmult_lt_reg_r _ _ ss); lia. }
  assert ((p / ss + n) * ss <= K * ss) as HK2 by (apply Z.mul_le_mono_nonneg_r; lia).
  assert (K * ss < 2 ^ 32 * 2048) as HK3.
  { assert (K * ss <= K * 2048) by (apply Z.mul_le_mono_nonneg_l; [apply Z.div_pos; pose proof (zlen_nonneg dsk); lia|lia]). lia. }
  assert (len <= 2048 -> n <= burst_cap b) as Hone.
  { intros Hle. assert (n < 2048 / ss + 3); [|lia]. apply (Zmult_lt_reg_r _ _ ss); lia. }
  destruct (block_read_ok usable inv disk serves (Z.to_nat 65536) w dev blk b shift adr tid buf pos len) as (w' & W & E & Ha & Hq & Hb & Hi' & Hd' & HW & H1);
    try done; try (intros c Hc; apply Hserves; lia); try (rewrite ?Ess, ?Hd; fold p n; lia); try lia.
  rewrite Ess, Hd in *. fold p n in HW, H1, E. exists w', W. split; [exact E|]. split_and!; [|lia|lia|].
  - exists (set_queue b None adr). split; [by apply (attached_after w)|]. split; [|split_and!; done || apply Hbm].
    split_and!; [by rewrite Hb, lookup_insert_eq|done|]. rewrite Hq. apply Hid.
  - auto.
Qed.

(** C16: [dev_block_read] keeps the promises the driver relies on, for a device that is up, with an
    empty queue and a disk of whole sectors: blocks come exactly, longer reads may write up to a
    sector more, and the device is left ready for the next call. *)
Theorem block_layer_serves_iso : BlockSourceLaws (blkw D) holds_disk dev (drop (Z.to_nat shift) dsk).
Proof.
  assert (forall pos len, 0 <= pos -> slice (drop (Z.to_nat shift) dsk) pos len = slice dsk (pos + shift) len) as Hsl.
  { intros pos len Hp. unfold slice. rewrite drop_drop. do 2 f_equal. lia. }
  assert (forall w buf pos, holds_disk w -> 0 <= pos -> src_read w dev buf pos 0 = Ok (w, splice buf 0 (slice (drop (Z.to_nat shift) dsk) pos 0), 0)) as H0.
  { intros w buf pos _ Hp. by rewrite slice_0, splice_nil. }
  assert (forall pos len, 0 <= pos -> 0 < len -> pos + len <= zlen (drop (Z.to_nat shift) dsk) -> pos + shift + len <= zlen dsk) as Hlen.
  { intros pos len. unfold zlen. rewrite length_drop. lia. }
  split.
  - intros w buf pos len Hw Hp Hl Hpl Hbl. destruct (decide (len = 0)) as [->|Hl0]; [eauto|].
    destruct (disk_read w buf pos len Hw Hp) as (w' & W & E & Hw' & _ & HW); [lia|apply Hlen; lia|lia|lia|].
    exists w'. rewrite Hsl by done. rewrite HW in E by lia. done.
  - intros w buf pos len Hw Hp Hl Hpl Hbl. destruct (decide (len = 0)) as [->|Hl0]; [exists w, 0; rewrite H0 by done; split_and!; done || lia|].
    destruct (disk_read w buf pos len Hw Hp) as (w' & W & E & Hw' & HW & _); [lia|apply Hlen; lia|lia|lia|].
    exists w', W. rewrite Hsl by done. split_and!; done || lia.
Qed.
End Device.

(** ** Calls on a mounted disk *)

Section Mounted.
Context {S : Type} `{BlockSource S} (ok : S -> Prop) (dev : Z) (content : list Z) `{!BlockSourceLaws S ok dev content}.

(** The buffers a path walk works in. *)
Record walk_bufs (segment nb scratch : list Z) : Prop := {
  wb_segment : zlen segment = SEGMENT_SIZE; wb_name : zlen nb = 256; wb_scratch : zlen scratch = FMT_BUFFER }.

(** A path with its segments and slashes, and the bytes after it. *)
Record path_ok (items : list (nat * list Z)) (t : nat) (after : list Z) : Prop := {
  po_segs : Forall (fun '(_, s) => seg_ok s) items;
  po_len : 0 < zlen (spell items t);
  po_end : zlen (spell items t ++ 0 :: after) < 2 ^ 31;
  po_after : byte_list after }.

Definition path_text (items : list (nat * list Z)) (t : nat) (after : list Z) : list Z := spell items t ++ 0 :: after.

(** A mounted disk: the size of the root directory is in its descriptor. *)
Record mounted (s : iso S) (rsize : Z) : Prop := {
  mo_src : ok (src s);
  mo_pvd : zlen (pvd s) = 2048;
  mo_root : le_val (slice (pvd s) 166 4) = rsize }.

Lemma walk_path_ok ffuel s items t after segment nb scratch uninit ext rsize : mounted s rsize -> path_ok items t after ->
  walk_bufs segment nb scratch -> way_ok content ffuel (root_lba s) rsize items.*2 -> zlen ext = DENTRY_SIZE ->
  exists d', ok d' /\
    match resolve content (uninit, root_lba s, rsize) items.*2 with
    | inr e => walk_path ffuel s dev (path_text items t after) segment nb scratch uninit ext = Ok (set_src s d', inr e)
    | inl (ty, lba, size) => exists ext',
        walk_path ffuel s dev (path_text items t after) segment nb scratch uninit ext = Ok (set_src s d', inl (ty, lba, size, ext')) /\
        match items with [] => ext' = ext | _ => entry_of ext' ty size end
    end.
Proof.
  intros [Hok Hpl Hrs] [Hsegs Hlen Hend Haf] [Hseg Hnb Hscr] Hway Hext. unfold walk_path, path_text.
  rewrite le32_ok, Hrs by lia. cbn [mbind res_bind]. rewrite path_count_ok by done. cbn [mbind res_bind]. rewrite iso_walk_skip by done.
  pose proof (length_canon_spell items t). pose proof (length_items_canon items).
  destruct (iso_walk_ok ok dev content ffuel nb scratch after t Hnb Hscr Haf items (length (spell items t ++ 0 :: after)) (src s) segment
    (root_lba s) rsize uninit ext Hok Hseg Hext Hsegs) as (d' & Hd' & Hres); [rewrite length_app; lia|done|done|].
  exists d'. split; [done|]. unfold walk_result in Hres. destruct (resolve _ _ _) as [[[ty lba] size]|e].
  - destruct Hres as (ext' & -> & _ & He). cbn [mbind res_bind]. eauto.
  - rewrite Hres. done.
Qed.

(** C20: opening a path on an ISO 9660 disk follows its segments through the directories: the
    first record with the name counts, a version after a semicolon does not, a missing segment or
    a file on the way is ENOENT and a directory at the end EISDIR.  A file gets a handle at its
    start, in the first free slot. *)
Theorem iso9660_open_resolves ffuel s items t after segment nb scratch uninit rsize : mounted s rsize -> path_ok items t after ->
  walk_bufs segment nb scratch -> way_ok content ffuel (root_lba s) rsize items.*2 ->
  exists d', ok d' /\
    iso9660_open ffuel s dev (path_text items t after) segment nb scratch uninit
    = Ok (match resolve content (uninit, root_lba s, rsize) items.*2 with
          | inr e => (set_src s d', e)
          | inl (ty, lba, size) =>
              if ty =? FS_TYPE_DIR then (set_src s d', - rc EISDIR)
              else let '(l, ret) := rcparray_add (lhandles s) (mk_lhandle lba size 0 0 [] 1 ty) in (set_lhandles (set_src s d') l, ret)
          end).
Proof.
  intros Hm Hp Hb Hw. destruct (walk_path_ok ffuel s items t after segment nb scratch uninit (replicate 33 0) rsize Hm Hp Hb Hw eq_refl) as (d' & Hd' & Hres).
  exists d'. split; [done|]. unfold iso9660_open. destruct (resolve _ _ _) as [[[ty lba] size]|e]; [|by rewrite Hres].
  destruct Hres as (ext' & -> & _). cbn [mbind res_bind]. destruct (ty =? FS_TYPE_DIR); [done|]. cbn [lhandles set_src]. by destruct (rcparray_add _ _).
Qed.

(** Information on a path: the device, the type and size in the record the path leads to, the
    root's own for the root, and the blocks that size takes; the errors of a path that leads
    nowhere leave what the caller passed alone. *)
Theorem iso9660_finfo_resolves ffuel s items t after segment nb scratch uninit rsize fi : mounted s rsize -> path_ok items t after ->
  walk_bufs segment nb scratch -> way_ok content ffuel (root_lba s) rsize items.*2 -> byte_list (pvd s) -> Z.land (getd (pvd s) 181) 2 = 2 ->
  exists d', ok d' /\
    iso9660_finfo ffuel s dev (path_text items t after) segment nb scratch uninit fi
    = Ok (match resolve content (FS_TYPE_DIR, root_lba s, rsize) items.*2 with
          | inr e => (set_src s d', fi, e)
          | inl (ty, _, size) => (set_src s d', mk_finfo dev ty size BLOCK_SIZE (u32 (size + BLOCK_SIZE - 1) / BLOCK_SIZE), 0)
          end).
Proof.
  intros Hm Hp Hb Hw Hby Hfl. pose proof Hm as [_ Hpl Hrs].
  destruct (walk_path_ok ffuel s items t after segment nb scratch uninit (slice (pvd s) 156 33) rsize Hm Hp Hb Hw) as (d' & Hd' & Hres);
    [apply (zlen_slice (pvd s) 156 33); lia|]. exists d'. split; [done|]. unfold iso9660_finfo. destruct items as [|it items].
  - cbn [fmap list_fmap resolve] in *. destruct Hres as (ext' & -> & ->). cbn [mbind res_bind].
    assert (zlen (slice (pvd s) 156 33) = 33) as Hz by (apply zlen_slice; lia). unfold de_size. rewrite le32_ok by lia. rewrite slice_slice by lia.
    cbn [mbind res_bind]. unfold de_type, de_flags. rewrite load_getd by lia. cbn [mbind res_bind]. rewrite getd_slice by lia.
    change (156 + (0 + 25)) with 181. change (156 + (0 + 10)) with 166. by rewrite Hfl, Hrs.
  - assert (resolve content (FS_TYPE_DIR, root_lba s, rsize) (it :: items).*2 = resolve content (uninit, root_lba s, rsize) (it :: items).*2) as -> by done.
    destruct (resolve _ _ _) as [[[ty lba] size]|e]; [|by rewrite Hres]. destruct Hres as (ext' & -> & (_ & Hsz & Hty)). cbn [mbind res_bind].
    rewrite Hsz. cbn [mbind res_bind]. rewrite Hty. done.
Qed.
End Mounted.

(** ** Open files

    An open file is the bytes of its extent and a position in them. *)
Section Files.
Context {S : Type} `{BlockSource S} (ok : S -> Prop) (dev : Z) (content : list Z) `{!BlockSourceLaws S ok dev content}.

(** The work on a handle, which leaves the table alone. *)
Lemma on_handle_ok {R} (s s' : iso S) ifd c (missing r : R) h' f : arr_slot (lhandles s) ifd = Some c -> present c = true -> counted c ->
  0 <= ifd < 2 ^ 64 -> (forall l, f (set_lhandles s l) (value c) = Ok (set_lhandles s' l, h', r)) ->
  on_handle s ifd missing f = Ok (set_lhandles s' (arr_set (lhandles s) ifd (Some (set_value c h'))), r).
Proof.
  intros Hs Hp Hr Hid Hf. unfold on_handle. destruct (get_write_unref _ _ _ Hs Hp Hr Hid) as (a1 & -> & Hun).
  rewrite Hf. cbn [mbind res_bind lhandles set_lhandles]. by rewrite Hun.
Qed.

(** The handle [ifd] is the file [f] at [pos]. *)
Definition file_handle (h : lhandle) (f : list Z) (pos : Z) : Prop :=
  l_type h <> FS_TYPE_DIR /\ l_pos h = pos /\ l_size h = zlen f /\ 0 <= pos <= zlen f /\ zlen f < 2 ^ 31 /\
  0 <= l_start h < 2 ^ 32 /\ l_start h * BLOCK_SIZE + zlen f <= zlen content /\ f = slice content (l_start h * BLOCK_SIZE) (zlen f).

Definition opened (s : iso S) (ifd : Z) (f : list Z) (pos : Z) : Prop :=
  ok (src s) /\ 0 <= ifd < 2 ^ 64 /\
  exists c, arr_slot (lhandles s) ifd = Some c /\ present c = true /\ counted c /\ file_handle (value c) f pos.

(** Where a seek goes. *)
Definition seek_to (f : list Z) (pos offset mode : Z) : Z :=
  Z.max 0 (Z.min (zlen f) (if mode =? 0 then offset else if mode =? 1 then pos + offset else if mode =? 2 then zlen f + offset else 0)).

Lemma opened_move (s s' : iso S) ifd f pos c p : arr_slot (lhandles s) ifd = Some c -> present c = true -> counted c -> ok (src s') ->
  0 <= ifd < 2 ^ 64 -> file_handle (value c) f pos -> 0 <= p <= zlen f ->
  opened (set_lhandles s' (arr_set (lhandles s) ifd (Some (set_value c (set_pos (value c) p))))) ifd f p.
Proof.
  intros Hs Hp Hr Hok Hid (Ht & _ & Hsz & _ & Hrest) Hp'. split; [done|]. split; [done|]. eexists. cbn [lhandles set_lhandles].
  rewrite arr_slot_set by (by eapply arr_slot_range). by split_and!.
Qed.

Lemma file_read s ifd f pos buffer len : opened s ifd f pos -> 0 <= len -> let n := Z.min (zlen f - pos) len in
  n < 2 ^ 24 -> n <= zlen buffer -> (2048 < n -> n + 2048 <= zlen buffer) ->
  exists s' buffer', iso9660_read s dev ifd buffer len = Ok (s', (buffer', n)) /\ slice buffer' 0 n = slice f pos n /\ opened s' ifd f (pos + n).
Proof.
  intros (Hok & Hid & c & Hs & Hp & Hr & Hh) Hlen n Hn Hb Hb2. pose proof Hh as (Ht & Epos & Esz & Hpos & Hf31 & Hst & Hroom & Ef).
  set (p := l_start (value c) * BLOCK_SIZE + pos). assert (0 <= p) as Hp0 by (unfold p, BLOCK_SIZE; lia).
  assert (exists d' W, src_read (src s) dev buffer p n = Ok (d', splice buffer 0 (slice content p W), 0) /\ ok d' /\ n <= W /\ W <= n + 2048 /\ (n <= 2048 -> W = n))
    as (d' & W & E & Hd' & HW1 & HW2 & HW3).
  { destruct (decide (n <= 2048)).
    - destruct (src_block (src s) buffer p n Hok Hp0) as (d' & E & Hd'); [lia|unfold p; lia|lia|]. exists d', n. split_and!; done || lia.
    - destruct (src_long (src s) buffer p n Hok Hp0) as (d' & W & E & Hd' & HW); [lia|unfold p; lia|lia|]. exists d', W. split_and!; done || lia. }
  assert (forall l, (fun s h =>
    if l_type h =? FS_TYPE_DIR then Ok (s, h, (buffer, - rc EBADF))
    else
      let actual_len := s32 (cmin (u32 (l_size h - l_pos h)) len) in
      '(d, b, _) ← src_read (src s) dev buffer (u64 (l_start h * BLOCK_SIZE + l_pos h)) (u64 actual_len);
      Ok (set_src s d, set_pos h (u32 (l_pos h + actual_len)), (b, actual_len))) (set_lhandles s l) (value c)
    = Ok (set_lhandles (set_src s d') l, set_pos (value c) (pos + n), (splice buffer 0 (slice content p W), n))) as Hf.
  { intros l. destruct (Z.eqb_spec (l_type (value c)) FS_TYPE_DIR); [done|]. rewrite Epos, Esz. cbv zeta.
    rewrite (u32_small (zlen f - pos)), cmin_min by lia. fold n. rewrite s32_small, u64_small, (u64_small n) by (unfold BLOCK_SIZE in *; lia).
    fold p. cbn [src set_lhandles]. rewrite E. cbn [mbind res_bind]. rewrite u32_small by lia. done. }
  unfold iso9660_read. rewrite (on_handle_ok _ (set_src s d') _ _ _ _ _ _ Hs Hp Hr Hid Hf). do 2 eexists. split; [done|]. split.
  - assert (slice f pos n = slice content p n) as -> by (rewrite Ef; apply slice_slice; unfold BLOCK_SIZE; lia).
    set (bs := slice content p W). assert (n <= zlen bs <= W) as Hbs.
    { unfold bs, slice, zlen in *. rewrite length_take, length_drop. unfold p in *. lia. }
    change 0 with (0 + 0) at 2. rewrite slice_splice_in by lia. unfold bs. rewrite slice_slice by lia. by rewrite Z.add_0_r.
  - apply (opened_move s (set_src s d') ifd f pos c (pos + n)); try done. lia.
Qed.

Lemma file_seek s ifd f pos offset mode : opened s ifd f pos -> - 2 ^ 62 <= offset < 2 ^ 62 ->
  exists s', iso9660_seek s ifd offset mode = Ok (s', 0) /\ opened s' ifd f (seek_to f pos offset mode).
Proof.
  intros (Hok & Hid & c & Hs & Hp & Hr & Hh) Hoff. pose proof Hh as (Ht & Epos & Esz & Hpos & Hf31 & _).
  pose proof (zlen_nonneg f) as Hz. set (p := seek_to f pos offset mode). assert (0 <= p <= zlen f) as Hp0 by (unfold p, seek_to; lia).
  unfold iso9660_seek. erewrite (on_handle_ok s s ifd c _ 0 (set_pos (value c) p)); try done.
  - eexists. split; [done|]. by apply (opened_move s s ifd f pos).
  - intros l. cbv beta. destruct (Z.eqb_spec (l_type (value c)) FS_TYPE_DIR); [done|]. rewrite Epos, Esz, !s32_small by lia.
    rewrite !s64_small by lia. rewrite cmax_max, cmin_min. do 3 f_equal. unfold p, seek_to. f_equal.
    destruct (mode =? 0), (mode =? 1), (mode =? 2); rewrite u32_small; lia.
Qed.

(** C21: an open file on an ISO 9660 disk is its bytes and a position: a read of fewer than 2^24 bytes
    brings the bytes from the position on, as many as are left or asked for, and moves the position
    past them; a seek stays between the start and the end; what an [ioctl] says is available is
    what is left; a write is refused.  A read of more than one block may write up to a block more
    than it returns, so the caller must have that much room: the theorem asks for it, and
    [iso9660_read_overruns] is a caller without. *)
Theorem iso9660_file_refines s ifd f pos : opened s ifd f pos ->
  (forall buffer len, 0 <= len -> let n := Z.min (zlen f - pos) len in
     n < 2 ^ 24 -> n <= zlen buffer -> (2048 < n -> n + 2048 <= zlen buffer) ->
     exists s' buffer', iso9660_read s dev ifd buffer len = Ok (s', (buffer', n)) /\ slice buffer' 0 n = slice f pos n /\ opened s' ifd f (pos + n)) /\
  (forall offset mode, - 2 ^ 62 <= offset < 2 ^ 62 ->
     exists s', iso9660_seek s ifd offset mode = Ok (s', 0) /\ opened s' ifd f (seek_to f pos offset mode)) /\
  iso9660_ioctl s ifd IOCTL_BYTES_AVAILABLE = Ok (s, (Some (zlen f - pos), 0)) /\ iso9660_write = - rc EROFS.
Proof.
  intros Ho. split_and!; [intros; by apply file_read|intros; by apply file_seek| |done].
  destruct Ho as (Hok & Hid & c & Hs & Hp & Hr & Ht & Epos & Esz & Hpos & Hf31 & _).
  unfold iso9660_ioctl. cbn [negb Z.eqb Pos.eqb IOCTL_BYTES_AVAILABLE].
  erewrite (on_handle_ok s s ifd c _ (Some (zlen f - pos), 0) (value c)); try done.
  - assert (set_value c (value c) = c) as -> by (by destruct c). unfold arr_set. rewrite list_insert_id by (by apply arr_slot_Some in Hs as [_ ?]). by destruct s.
  - intros l. cbv beta. rewrite Epos, Esz, u32_small by lia. done.
Qed.

(** A name looked up in a directory is its first record with that name, or none: the search
    visits the records of all its blocks in order and returns. *)
Theorem iso9660_find_first fuel d lba size seg segr ext nb scratch : ok d -> dir_ok content (lba * BLOCK_SIZE) size -> nonul seg ->
  zlen scratch = FMT_BUFFER -> zlen nb = 256 -> zlen ext = DENTRY_SIZE -> (dir_fuel content lba size <= fuel)%nat ->
  exists d' ext', ok d' /\
    iso9660_find fuel d dev lba size (seg ++ 0 :: segr) ext nb scratch
    = Ok (d', match dir_lookup content lba size seg with
              | None => (FS_TYPE_NONE, lba, size, ext)
              | Some r => (dr_type r, dr_lba r, dr_size r, ext')
              end).
Proof.
  intros Hd Hdir Hseg Hscr Hnb Hext Hf. destruct (find_ok ok dev content fuel d lba size seg segr ext nb scratch Hd Hdir Hseg Hscr Hnb Hext Hf) as (d' & Hd' & Hr).
  exists d'. destruct (dir_lookup content lba size seg) as [r|]; [|by exists ext]. destruct Hr as (ext' & E & _). by exists ext'.
Qed.
End Files.

(** ** Listing a directory *)
Section Listing.
Context {S : Type} `{BlockSource S} (ok : S -> Prop) (dev : Z) (content : list Z) `{!BlockSourceLaws S ok dev content}.
Context (lba size : Z) (scratch : list Z).
Context (H32 : lba * BLOCK_SIZE + size < 2 ^ 32).
Context (Hdir : dir_ok content (lba * BLOCK_SIZE) size) (Hscr : zlen scratch = FMT_BUFFER) (Hwhole : size = BLOCK_SIZE * Z.of_nat (dir_blocks size)).
(** No record crosses the end of its block. *)
Context (Hfit : Forall (fun '(i, o) => o + getd (dir_block content (lba * BLOCK_SIZE) i) o <= BLOCK_SIZE) (dir_offsets content (lba * BLOCK_SIZE) size)).

Local Abbreviation blk := (dir_block content (lba * BLOCK_SIZE)).
Local Abbreviation n := (dir_blocks size).
Local Abbreviation left_from := (rest content (lba * BLOCK_SIZE) size).

(** Where the records of a block end. *)
Fixpoint block_end (fuel : nat) (b : list Z) (o : Z) : Z :=
  match fuel with
  | O => o
  | Datatypes.S f => if (o <? BLOCK_SIZE) && negb (getd b o =? 0) then block_end f b (o + getd b o) else o
  end.

(** The flags after the last record are read too. *)
Definition end_ok (e : Z) : Prop := BLOCK_SIZE <= e \/ e + 25 < BLOCK_SIZE.
Context (Hend : forall i, (i < n)%nat -> end_ok (block_end 2048 (blk i) 0)).

(** The buffer of a handle holds the block [i], or the block is still to be read. *)
Definition loaded (h : lhandle) (i : nat) (o : Z) : Prop :=
  zlen (l_buffer h) = BLOCK_SIZE /\ (l_block_read h = Z.of_nat i /\ l_buffer h = blk i \/ l_block_read h <> Z.of_nat i /\ o = 0).

(** The handle is at the record at [o] of the block [i]; [l] is what is left. *)
Definition dir_at (h : lhandle) (l : list (nat * Z)) : Prop :=
  l_type h = FS_TYPE_DIR /\ l_start h = lba /\ l_size h = size /\ Forall (fun x => x ∈ dir_offsets content (lba * BLOCK_SIZE) size) l /\
  ((l_pos h = size /\ l = []) \/
   exists i o g, (i < n)%nat /\ 0 <= o < BLOCK_SIZE /\ l_pos h = BLOCK_SIZE * Z.of_nat i + o /\ BLOCK_SIZE - o <= Z.of_nat g /\
     l = left_from g i o /\ loaded h i o /\ end_ok (block_end g (blk i) o)).

Definition rec_of (x : nat * Z) : drec := rec_at 255 (blk (fst x)) (snd x).

Lemma dir_at_next h i l : l_type h = FS_TYPE_DIR -> l_start h = lba -> l_size h = size -> zlen (l_buffer h) = BLOCK_SIZE -> l_block_read h = Z.of_nat i ->
  (i < n)%nat -> l_pos h = BLOCK_SIZE * Z.of_nat (Datatypes.S i) -> l = dir_from content (lba * BLOCK_SIZE) (Datatypes.S i) (n - Datatypes.S i) ->
  Forall (fun x => x ∈ dir_offsets content (lba * BLOCK_SIZE) size) l -> dir_at h l.
Proof.
  intros Ht Hst Hsz Hb Hbr Hi Hpos -> Hl. split_and!; [done|done|done|done|]. destruct (decide (Datatypes.S i < n)%nat) as [Hlt|Hge].
  - right. exists (Datatypes.S i), 0, 2048%nat. split; [done|]. split; [unfold BLOCK_SIZE; lia|]. split; [lia|]. split; [unfold BLOCK_SIZE; lia|].
    split; [by apply dir_from_step|]. split; [|by apply Hend]. split; [done|]. right. split; [lia|done].
  - left. replace (n - Datatypes.S i)%nat with 0%nat by lia. split; [|done]. rewrite Hpos, Hwhole. do 2 f_equal. lia.
Qed.

(** The block a handle is at is brought in. *)
Lemma load_block (s : iso S) h i o : ok (src s) -> l_start h = lba -> (i < n)%nat -> l_pos h = BLOCK_SIZE * Z.of_nat i + o -> 0 <= o < BLOCK_SIZE -> loaded h i o ->
  exists d', ok d' /\
    (if negb (l_pos h / BLOCK_SIZE =? l_block_read h) then
       '(d, b, _) ← src_read (src s) dev (l_buffer h) (u32 (u32 (l_start h * BLOCK_SIZE) + l_pos h)) BLOCK_SIZE;
       Ok (set_src s d, set_block h (l_pos h / BLOCK_SIZE) b)
     else Ok (s, h)) = Ok (set_src s d', set_block h (Z.of_nat i) (blk i)).
Proof.
  intros Hok Hst Hi Hpos Ho (Hzb & Hld). pose proof Hdir as [_ Hs Hz Hr _]. assert (BLOCK_SIZE * Z.of_nat i < size) as Hlt by (apply dir_blocks_lt; lia).
  assert (l_pos h / BLOCK_SIZE = Z.of_nat i) as -> by (symmetry; apply (Z.div_unique_pos _ _ _ o); lia).
  destruct Hld as [[Hbr Hb]|[Hbr ->]].
  - exists (src s). split; [done|]. rewrite Hbr, Z.eqb_refl. cbn [negb]. rewrite <- Hbr, <- Hb. by destruct s, h.
  - destruct (Z.eqb_spec (Z.of_nat i) (l_block_read h)); [lia|]. cbn [negb]. rewrite Hst, Hpos, Z.add_0_r.
    rewrite (u32_small (lba * BLOCK_SIZE)), u32_small by (unfold BLOCK_SIZE in *; lia).
    destruct (read_block ok dev content (src s) (l_buffer h) (lba * BLOCK_SIZE + BLOCK_SIZE * Z.of_nat i) Hok Hzb) as (d' & -> & Hd'); [unfold BLOCK_SIZE in *; lia..|].
    by exists d'.
Qed.

Lemma readdir_loop_ok fuel : forall (s : iso S) h l name type, ok (src s) -> dir_at h l -> zlen name = 256 ->
  size / BLOCK_SIZE - l_pos h / BLOCK_SIZE <= Z.of_nat fuel ->
  exists d' h' r, readdir_loop fuel s dev h name scratch type = Ok (set_src s d', h', r) /\ ok d' /\
    match l with
    | [] => exists type', r = (type', name, -1) /\ dir_at h' []
    | x :: l' => exists name', r = (dr_type (rec_of x), name', 0) /\ holds_name name' (dr_name (rec_of x)) /\ dir_at h' l'
    end.
Proof.
  pose proof Hdir as [Hby Hs Hz Hr Hrec]. induction fuel as [|fuel IH]; intros s h l name type Hok Hat Hnm Hf;
    pose proof Hat as (Ht & Hst & Hsz & Hl & Hcase); cbn [readdir_loop]; rewrite Hsz.
  all: destruct Hcase as [[Hp ->]|(i & o & g & Hi & Ho & Hp & Hg & El & Hld & Hee)];
    [destruct (Z.geb_spec (l_pos h) size); [|lia]; exists (src s), h, (type, name, -1); split; [by destruct s|]; eauto|].
  all: assert (l_pos h / BLOCK_SIZE = Z.of_nat i) as Ediv by (symmetry; apply (Z.div_unique_pos _ _ _ o); lia).
  all: assert (size / BLOCK_SIZE = Z.of_nat n) as Esz by (rewrite Hwhole at 1; rewrite Z.mul_comm; apply Z.div_mul; unfold BLOCK_SIZE; lia).
  1: lia.
  assert (BLOCK_SIZE * Z.of_nat (Datatypes.S i) <= size) as Hle by (rewrite Hwhole; unfold BLOCK_SIZE; lia).
  destruct (Z.geb_spec (l_pos h) size); [unfold BLOCK_SIZE in *; lia|].
  destruct (load_block s h i o Hok Hst Hi Hp Ho Hld) as (d1 & Hd1 & ->). cbn [mbind res_bind].
  assert (l_pos h mod BLOCK_SIZE = o) as Emod by (symmetry; apply (Z.mod_unique_pos _ _ (Z.of_nat i)); unfold BLOCK_SIZE in *; lia).
  cbn [l_pos set_block l_buffer l_size]. rewrite Emod. assert (byte_list (blk i)) as Hbb by (by apply slice_byte).
  assert (zlen (blk i) = BLOCK_SIZE) as Hzb by (apply (zlen_blk content (lba * BLOCK_SIZE) size Hdir); lia).
  set (h1 := set_block h (Z.of_nat i) (blk i)).
  destruct (Z.eqb_spec (getd (blk i) o) 0) as [E0|E0].
  - assert (o + 25 < BLOCK_SIZE) as Ho25.
    { destruct g as [|g]; cbn [block_end] in Hee; [unfold BLOCK_SIZE in *; lia|]. rewrite E0, andb_false_r in Hee. destruct Hee; lia. }
    unfold de_type, de_flags, de_len. rewrite !load_getd by lia. cbn [mbind res_bind]. rewrite E0. cbn [Z.eqb].
    unfold rest in El. rewrite block_recs_end in El by (by right). cbn [fmap list_fmap app] in El.
    rewrite Hp. replace (BLOCK_SIZE * Z.of_nat i + o + (BLOCK_SIZE - o)) with (BLOCK_SIZE * Z.of_nat (Datatypes.S i)) by (unfold BLOCK_SIZE; lia).
    rewrite (u32_small (BLOCK_SIZE * _)) by (unfold BLOCK_SIZE in *; lia). set (h2 := set_pos h1 _). change (l_size h2) with (l_size h). rewrite Hsz. change (l_pos h2) with (BLOCK_SIZE * Z.of_nat (Datatypes.S i)).
    assert (dir_at h2 l) as Hat2 by (by apply (dir_at_next h2 i)).
    destruct (Z.geb_spec (BLOCK_SIZE * Z.of_nat (Datatypes.S i)) size) as [Hge|Hless].
    + exists d1, h2, (if negb (Z.land (getd (blk i) (o + 25)) 2 =? 0) then FS_TYPE_DIR else FS_TYPE_REG, name, -1). split; [by destruct s|]. split; [done|].
      assert (l = []) as -> by (rewrite El; replace (n - Datatypes.S i)%nat with 0%nat by (unfold BLOCK_SIZE in *; lia); done). eauto.
    + destruct (IH (set_src s d1) h2 l name (if negb (Z.land (getd (blk i) (o + 25)) 2 =? 0) then FS_TYPE_DIR else FS_TYPE_REG)) as (d2 & h3 & r & E & Hd2 & Hres); try done.
      * rewrite Esz. cbn [l_pos set_pos h2]. rewrite Z.mul_comm, Z.div_mul by (unfold BLOCK_SIZE; lia). lia.
      * exists d2, h3, r. split; [|done]. rewrite E. by destruct s.
  - destruct (block_recs_next g (blk i) o ltac:(unfold BLOCK_SIZE in *; lia) Hbb ltac:(lia) E0) as (g' & -> & Er & Hlen).
    unfold rest in El. rewrite Er in El. cbn [fmap list_fmap app] in El. subst l. apply Forall_cons in Hl as [Hin Hl].
    rewrite Forall_forall in Hrec, Hfit. pose proof (Hrec _ Hin) as Hnr. pose proof (Hfit _ Hin) as Hft. cbv beta iota in Hnr, Hft.
    pose proof Hnr as [_ Hroom]. pose proof (getd_byte (blk i) (o + 32) Hbb). unfold de_type, de_flags, de_len. rewrite !load_getd by lia. cbn [mbind res_bind].
    destruct (Z.eqb_spec (getd (blk i) o) 0); [done|].
    destruct (entry_name_ok 255 name (blk i) o scratch Hbb Hnr Hnm ltac:(lia) Hscr) as (nm & Enm & Hnm'). cbn [l_buffer set_pos h1 set_block].
    rewrite Enm. cbn [mbind res_bind]. rewrite Hp, (u32_small (_ + getd (blk i) o)) by (unfold BLOCK_SIZE in *; lia).
    do 3 eexists. split; [by destruct s|]. split; [done|]. exists nm. split; [done|]. split; [done|].
    destruct (decide (o + getd (blk i) o = BLOCK_SIZE)) as [Efull|Hpart].
    + rewrite block_recs_end in * by (left; lia). cbn [fmap list_fmap app] in *. eapply (dir_at_next _ i); try done. cbn [l_pos set_pos set_block]. unfold BLOCK_SIZE in *. lia.
    + split; [done|]. split; [done|]. split; [done|]. split; [done|]. right. exists i, (o + getd (blk i) o), g'.
      split; [done|]. split; [lia|]. split; [cbn [l_pos set_pos]; lia|]. split; [lia|]. split; [done|]. split; [by split; auto|].
      cbn [block_end] in Hee. destruct (Z.ltb_spec o BLOCK_SIZE); [|lia]. by destruct (Z.eqb_spec (getd (blk i) o) 0).
Qed.

(** The handle [ifd] is at the records [l]. *)
Definition opened_dir (s : iso S) (ifd : Z) (l : list (nat * Z)) : Prop :=
  ok (src s) /\ 0 <= ifd < 2 ^ 64 /\
  exists c, arr_slot (lhandles s) ifd = Some c /\ present c = true /\ counted c /\ dir_at (value c) l.

(** Calls of [readdir] until it fails: the types and names. *)
Fixpoint list_dir (k : nat) (s : iso S) (ifd : Z) (name : list Z) : res (list (Z * list Z)) :=
  match k with
  | O => OutOfFuel
  | Datatypes.S k =>
      '(s, r) ← iso9660_readdir n s dev ifd 0 name scratch;
      let '(type, name, ret) := (r : Z * list Z * Z) in
      if ret =? 0 then t ← cstr name; more ← list_dir k s ifd name; Ok ((type, t) :: more) else Ok []
  end.

Lemma list_dir_S k s ifd name : list_dir (Datatypes.S k) s ifd name =
  '(s, r) ← iso9660_readdir n s dev ifd 0 name scratch;
  let '(type, name, ret) := (r : Z * list Z * Z) in
  if ret =? 0 then t ← cstr name; more ← list_dir k s ifd name; Ok ((type, t) :: more) else Ok [].
Proof. reflexivity. Qed.

Lemma readdir_step s ifd l name : opened_dir s ifd l -> zlen name = 256 ->
  exists s' r, iso9660_readdir n s dev ifd 0 name scratch = Ok (s', r) /\
    match l with
    | [] => exists type', r = (type', name, -1)
    | x :: l' => exists name', r = (dr_type (rec_of x), name', 0) /\ holds_name name' (dr_name (rec_of x)) /\ opened_dir s' ifd l'
    end.
Proof.
  intros (Hok & Hid & c & Hs & Hp & Hr & Hat) Hnm. pose proof Hat as (Ht & _ & _ & _ & _).
  assert (0 <= l_pos (value c)) as Hpos.
  { pose proof Hdir as [_ _ Hz _ _]. destruct Hat as (_ & _ & _ & _ & [[Hps _]|(i & o & g & _ & ? & Hps & _)]); rewrite Hps; unfold BLOCK_SIZE in *; lia. }
  assert (size / BLOCK_SIZE = Z.of_nat n) as Esz by (rewrite Hwhole at 1; rewrite Z.mul_comm; apply Z.div_mul; unfold BLOCK_SIZE; lia).
  assert (0 <= l_pos (value c) / BLOCK_SIZE) by (apply Z.div_pos; unfold BLOCK_SIZE; lia).
  unfold iso9660_readdir, on_handle. destruct (get_write_unref _ _ _ Hs Hp Hr Hid) as (a1 & -> & Hun).
  rewrite Ht. cbn [negb Z.eqb FS_TYPE_DIR Pos.eqb].
  destruct (readdir_loop_ok n (set_lhandles s a1) (value c) l name 0 Hok Hat Hnm ltac:(lia)) as (d' & h' & r & -> & Hd' & Hres). cbn [mbind res_bind].
  do 2 eexists. split; [done|]. destruct l as [|x l]; [destruct Hres as (type' & -> & _); by exists type'|].
  destruct Hres as (name' & -> & Hn' & Hat'). exists name'. split; [done|]. split; [done|]. split; [done|]. split; [done|].
  exists (set_value c h'). cbn [lhandles set_lhandles set_src]. rewrite Hun, arr_slot_set by (by eapply arr_slot_range). done.
Qed.

Lemma list_dir_ok l : forall s ifd name, opened_dir s ifd l -> zlen name = 256 ->
  list_dir (Datatypes.S (length l)) s ifd name = Ok ((fun x => (dr_type (rec_of x), dr_name (rec_of x))) <$> l).
Proof.
  induction l as [|x l IH]; intros s ifd name Ho Hnm; destruct (readdir_step s ifd _ name Ho Hnm) as (s' & r & E & Hres); cbn [length]; rewrite list_dir_S, E;
    cbn [mbind res_bind].
  - by destruct Hres as (type' & ->).
  - destruct Hres as (name' & -> & [[nr Hn'] Hnl] & Ho'). cbn [Z.eqb]. rewrite Hn' at 1. rewrite cstr_nonul.
    + cbn [mbind res_bind]. rewrite IH by done. done.
    + apply rec_name_nonul. apply slice_byte. by destruct Hdir.
Qed.

(** A fresh handle is at the first record. *)
Lemma dir_at_start b : zlen b = BLOCK_SIZE -> dir_at (mk_lhandle lba size 0 (2 ^ 32 - 1) b 0 FS_TYPE_DIR) (dir_offsets content (lba * BLOCK_SIZE) size).
Proof.
  intros Hb. split; [done|]. split; [done|]. split; [done|]. split; [by apply Forall_forall|]. pose proof Hdir as [_ _ Hz _ _].
  destruct (decide (0 < n)%nat) as [Hn|Hn].
  - right. exists 0%nat, 0, 2048%nat. split; [done|]. split; [unfold BLOCK_SIZE; lia|]. split; [done|]. split; [unfold BLOCK_SIZE; lia|].
    split; [|split; [|by apply Hend]]. 2: { split; [done|]. right. split; [done|done]. }
    unfold rest, dir_offsets, dir_from. destruct n as [|k]; [lia|]. cbn [seq]. rewrite bind_cons. by replace (Datatypes.S k - 1)%nat with k by lia.
  - left. unfold dir_offsets. replace n with 0%nat in * by lia. split; [cbn; lia|done].
Qed.
End Listing.

(** A directory of whole blocks and records, with its addresses below 4 GiB. *)
Record listable (content : list Z) (lba size : Z) : Prop := {
  ls_dir : dir_ok content (lba * BLOCK_SIZE) size;
  ls_32 : lba * BLOCK_SIZE + size < 2 ^ 32;
  ls_whole : size = BLOCK_SIZE * Z.of_nat (dir_blocks size);
  ls_fit : Forall (fun '(i, o) => o + getd (dir_block content (lba * BLOCK_SIZE) i) o <= BLOCK_SIZE) (dir_offsets content (lba * BLOCK_SIZE) size);
  ls_end : forall i, (i < dir_blocks size)%nat -> end_ok (block_end 2048 (dir_block content (lba * BLOCK_SIZE) i) 0) }.

Section ListPath.
Context {S : Type} `{BlockSource S} (ok : S -> Prop) (dev : Z) (content : list Z) `{!BlockSourceLaws S ok dev content}.

(** C22: opening a directory and reading entries until there are no more gives the types and names
    of all its records, in the order they are on the disk, and then the end. *)
Theorem iso9660_readdir_lists ffuel s items t after segment nb scratch uninit rsize lba size name : mounted ok s rsize -> path_ok items t after ->
  walk_bufs segment nb scratch -> way_ok content ffuel (root_lba s) rsize items.*2 -> zlen (lhandles s) < 2 ^ 31 -> zlen name = 256 ->
  resolve content (uninit, root_lba s, rsize) items.*2 = inl (FS_TYPE_DIR, lba, size) -> listable content lba size ->
  exists s' ifd, iso9660_opendir ffuel s dev (path_text items t after) segment nb scratch uninit = Ok (s', ifd) /\ 0 <= ifd /\
    list_dir dev size scratch (Datatypes.S (length (dir_list content (lba * BLOCK_SIZE) 255 size))) s' ifd name
    = Ok ((fun r => (dr_type r, dr_name r)) <$> dir_list content (lba * BLOCK_SIZE) 255 size).
Proof.
  intros Hm Hp Hb Hw Hlh Hname Hres [Hdir H32 Hwhole Hfit Hend]. pose proof Hb as [_ _ Hscr]. pose proof Hdir as [_ Hst Hz Hr _].
  destruct (walk_path_ok ok dev content ffuel s items t after segment nb scratch uninit (replicate 33 0) rsize Hm Hp Hb Hw eq_refl) as (d' & Hd' & Hwalk).
  rewrite Hres in Hwalk. destruct Hwalk as (ext' & Ew & _). unfold iso9660_opendir. rewrite Ew. cbn [mbind res_bind negb Z.eqb FS_TYPE_DIR Pos.eqb].
  rewrite u32_small by lia.
  destruct (read_block ok dev content d' (heap_object BLOCK_SIZE) (lba * BLOCK_SIZE) Hd') as (d2 & E & Hd2);
    [vm_compute; reflexivity|lia|unfold BLOCK_SIZE in *; lia|]. cbn [src set_src]. rewrite E. cbn [mbind res_bind lhandles set_src].
  set (b := slice content (lba * BLOCK_SIZE) BLOCK_SIZE). assert (zlen b = BLOCK_SIZE) as Hzb by (apply zlen_slice; unfold BLOCK_SIZE in *; lia).
  pose proof (rcparray_add_spec (lhandles s) (mk_lhandle lba size 0 (2 ^ 32 - 1) b 0 FS_TYPE_DIR)) as Hadd.
  change (mk_lhandle lba size 0 (2 ^ 32 - 1) b 0 2) with (mk_lhandle lba size 0 (2 ^ 32 - 1) b 0 FS_TYPE_DIR).
  destruct (rcparray_add _ _) as [l id]. destruct Hadd as (Hid & _ & _ & [Hcell _] & _). do 2 eexists. split; [done|]. split; [lia|].
  unfold dir_list. rewrite length_fmap, <- list_fmap_compose.
  rewrite (list_dir_ok ok dev content lba size scratch H32 Hdir Hscr Hwhole Hfit Hend (dir_offsets content (lba * BLOCK_SIZE) size)); [|..|done].
  - f_equal. by apply list_fmap_ext; intros ? [i o].
  - split; [done|]. split; [lia|]. eexists. split; [exact Hcell|]. split; [done|]. split; [done|]. by apply dir_at_start.
Qed.
End ListPath.

(** ** A small disk *)
Module IsoDemo.
Definition entry (lba size flags : Z) (name : list Z) : list Z :=
  [33 + zlen name; 0; lba; 0; 0; 0] ++ replicate 4 0 ++ [size mod 256; size / 256; 0; 0] ++ replicate 11 0 ++ [flags] ++ replicate 6 0 ++ zlen name :: name.
Definition pad (n : nat) (l : list Z) : list Z := l ++ replicate (n - length l) 0.
(** The root directory at block 0 and a file of five bytes at block 1. *)
Definition image : list Z :=
  pad 2048 (entry 0 2048 2 [0] ++ entry 1 5 0 (bytes "HI.TXT;1")) ++ pad 2048 (bytes "hello").
Definition volume : list Z := pad 2048 (replicate 156 0 ++ entry 0 2048 2 [0]).

#[export] Instance plain : BlockSource (list Z) :=
  {| src_read := fun d _ buf pos len => Ok (d, splice buf 0 (slice d pos len), 0) |}.

#[export] Instance plain_laws : BlockSourceLaws (list Z) (fun d => d = image) 0 image.
Proof. split; intros d buf pos len ->; intros; simpl; eexists; [|exists len]; split_and!; done || lia. Qed.

Definition mount0 : iso (list Z) := mk_iso image volume 0 [].
Definition segment : list Z := replicate 256 0.
Definition scratch : list Z := replicate (Z.to_nat FMT_BUFFER) 0.

Lemma image_bytes : byte_list image.
Proof. unfold byte_list. apply (bool_decide_unpack _). vm_compute. exact I. Qed.

Lemma demo_root_ok : dir_ok image (0 * BLOCK_SIZE) 2048.
Proof.
  split; [exact image_bytes|lia|lia|vm_compute; done|]. vm_compute dir_offsets.
  repeat constructor; vm_compute; done.
Qed.
Definition items : list (nat * list Z) := [(0%nat, bytes "HI.TXT")].

Lemma demo_way : way_ok image 10 0 2048 items.*2.
Proof. split; [exact demo_root_ok|]. split; [vm_compute; lia|]. vm_compute dir_lookup. exact I. Qed.
Lemma demo_path : path_ok items 0 [].
Proof. split; [constructor; [split_and!; decided|done]|by vm_compute|by vm_compute|constructor]. Qed.
Lemma demo_bufs : walk_bufs segment segment scratch.
Proof. by split; vm_compute. Qed.
Lemma demo_root : mounted (fun d => d = image) mount0 2048.
Proof. by split; vm_compute. Qed.
End IsoDemo.
Import IsoDemo.

Lemma iso9660_open_resolves_witness :
  resolve image (7, 0, 2048) IsoDemo.items.*2 = inl (FS_TYPE_REG, 1, 5) /\
  exists d', iso9660_open 10 mount0 0 (path_text IsoDemo.items 0 []) segment segment scratch 7
    = Ok (mk_iso d' volume 0 [Some (mk_cell 1 true (mk_lhandle 1 5 0 0 [] 1 FS_TYPE_REG))], 0).
Proof.
  split; [vm_compute; reflexivity|].
  destruct (iso9660_open_resolves (fun d => d = image) 0 image 10 mount0 IsoDemo.items 0 [] segment segment scratch 7 2048 demo_root demo_path demo_bufs demo_way)
    as (d' & _ & E). exists d'. rewrite E. reflexivity.
Defined.

Lemma iso9660_finfo_resolves_witness :
  exists d', iso9660_finfo 10 mount0 0 (path_text IsoDemo.items 0 []) segment segment scratch 7 (mk_finfo 0 0 0 0 0)
    = Ok (mk_iso d' volume 0 [], mk_finfo 0 FS_TYPE_REG 5 2048 1, 0).
Proof.
  destruct (iso9660_finfo_resolves (fun d => d = image) 0 image 10 mount0 IsoDemo.items 0 [] segment segment scratch 7 2048 (mk_finfo 0 0 0 0 0)
    demo_root demo_path demo_bufs demo_way ltac:(apply (bool_decide_unpack _); vm_compute; exact I) eq_refl) as (d' & _ & E).
  exists d'. rewrite E. reflexivity.
Defined.

Lemma iso9660_find_first_witness :
  exists d' ext', iso9660_find 10 image 0 0 2048 (bytes "HI.TXT" ++ [0]) (replicate 33 0) segment scratch = Ok (d', (FS_TYPE_REG, 1, 5, ext')).
Proof.
  destruct (iso9660_find_first (fun d => d = image) 0 image 10 image 0 2048 (bytes "HI.TXT") [] (replicate 33 0) segment scratch eq_refl demo_root_ok
    ltac:(by repeat constructor) eq_refl eq_refl eq_refl ltac:(vm_compute; lia)) as (d' & ext' & _ & E).
  exists d', ext'. exact E.
Defined.

Lemma iso9660_readdir_lists_witness :
  exists s' ifd, iso9660_opendir 10 mount0 0 (path_text [(0%nat, bytes ".")] 0 []) segment segment scratch 7 = Ok (s', ifd) /\ 0 <= ifd /\
    list_dir 0 2048 scratch 3 s' ifd segment = Ok [(FS_TYPE_DIR, bytes "."); (FS_TYPE_REG, bytes "HI.TXT")].
Proof.
  destruct (iso9660_readdir_lists (fun d => d = image) 0 image 10 mount0 [(0%nat, bytes ".")] 0 [] segment segment scratch 7 2048 0 2048 segment)
    as (s' & ifd & E & Hid & Hl); [exact demo_root| |exact demo_bufs| |done|done|vm_compute; reflexivity| |exists s', ifd; split; [exact E|]; split; [exact Hid|exact Hl]].
  - split; [constructor; [split_and!; decided|done]|by vm_compute|by vm_compute|constructor].
  - split; [exact demo_root_ok|]. split; [vm_compute; lia|]. vm_compute dir_lookup. exact I.
  - split; [exact demo_root_ok|by vm_compute|by vm_compute| |].
    + vm_compute dir_offsets. repeat constructor; vm_compute; done.
    + intros i Hi. assert (i = 0%nat) as -> by (change (dir_blocks 2048) with 1%nat in Hi; lia). right. by vm_compute.
Defined.

Definition opened0 : iso (list Z) := mk_iso image volume 0 [Some (mk_cell 1 true (mk_lhandle 1 5 2 0 [] 1 FS_TYPE_REG))].

Lemma iso9660_file_refines_witness :
  exists s' buffer', iso9660_read opened0 0 0 (replicate 3 0) 10 = Ok (s', (buffer', 3)) /\ slice buffer' 0 3 = bytes "llo".
Proof.
  destruct (iso9660_file_refines (fun d => d = image) 0 image opened0 0 (bytes "hello") 2) as [Hrd _].
  - split; [done|]. split; [lia|]. eexists. split; [reflexivity|]. split; [done|]. split; [done|]. by split_and!; vm_compute.
  - destruct (Hrd (replicate 3 0) 10 ltac:(lia) ltac:(by vm_compute) ltac:(by vm_compute) ltac:(intros Hc; by vm_compute in Hc)) as (s' & b' & E & Hsl & _).
    exists s', b'. exact (conj E Hsl).
Defined.

(** A device of eight sectors of 512 bytes behind the block layer. *)
Definition bdisk : dev_block (list Z) := mk_dev_block 0 true 8 512 None 0
  (mk_block_ops None (Some (fun d _ sector count buf => Ok (d, splice buf 0 (slice d (sector * 512) (count * 512)), 0))) None None) None 0.
Definition bworld : blkw (list Z) := mk_blkw [Some (mk_cell 1 true (mk_dev (bytes "sra") DEV_TYPE_BLOCK 100))] {[100 := bdisk]} ∅ image.

(** A file of 4100 bytes behind the block layer, read whole into a buffer of its size: the last sector
    is copied whole, over what is behind the buffer. *)
Theorem iso9660_read_overruns :
  let world := mk_blkw [Some (mk_cell 1 true (mk_dev (bytes "sra") DEV_TYPE_BLOCK 100))] {[100 := bdisk]} ∅ (replicate 8192 1) in
  let s := mk_iso world volume 0 [Some (mk_cell 1 true (mk_lhandle 0 4100 0 0 [] 1 FS_TYPE_REG))] in
  @iso9660_read _ (@block_source (list Z) (fun _ => true) 7 1) s 0 0 (replicate 4100 0) 4100 = Fault /\
  exists s' b, @iso9660_read _ (@block_source (list Z) (fun _ => true) 7 1) s 0 0 (replicate 4608 0) 4100 = Ok (s', (b, 4100)) /\ b = replicate 4608 1.
Proof. split; [vm_compute; reflexivity|]. eexists _, _. split; vm_compute; reflexivity. Qed.

Lemma block_layer_serves_iso_witness :
  exists d', dev_block_read (fun _ => true) (Z.to_nat 65536) bworld 0 7 1 (replicate 2048 9) 2048 5
    = Ok (d', splice (replicate 2048 9) 0 (bytes "hello"), 0).
Proof.
  pose proof (block_layer_serves_iso (fun _ => true) 7 1 eq_refl (fun _ => True) (fun d => d) (fun _ => True) (fun _ _ => I) 0 100 0 512 image ltac:(lia) ltac:(lia) eq_refl ltac:(by vm_compute)) as Hl.
  destruct (@src_block _ _ _ _ _ Hl bworld (replicate 2048 9) 2048 5) as (d' & E & _).
  - exists bdisk. split; [|split; [by split_and!|]]; [|split; [|by split_and!]].
    + split; [lia| |reflexivity|done]. eexists. split; [reflexivity|]. split; [done|]. split; [done|]. split; [done|]. exists bdisk. by split_and!.
    + eexists. split; [reflexivity|]. intros d sector count buf _ _ Hs Hc Hl1 Hl2. exists d, 0. split; [reflexivity|]. split; [lia|]. split; [exact I|reflexivity].
  - lia.
  - lia.
  - by vm_compute.
  - by vm_compute.
  - exists d'. exact E.
Defined.
