(* ===== verification/Tty.v ===== *)
(** * Terminals: arch/x64/tty.c

    A [tty_char_t*] buffer is an address in [bufs]; at first all terminals share one.  [output] is
    the text memory of the display, [hw_cursor] the index in the cursor registers of the VGA
    controller.  A copy of cells is a check of both ranges and the copy ([memcpy] goes upwards, so
    it is right where the target is the lower one).  An operation runs under the terminal's
    [write_lock]. *)
From S2P Require Import Prelude Strings.

Record tty_char := mk_tty_char { ascii : Z; fgcolor : Z; bgcolor : Z }.

Record tty := mk_tty {
  cursor_x : Z; cursor_y : Z; size_x : Z; size_y : Z; color_fg : Z; color_bg : Z; buffer : Z }.

Definition set_cursor (t : tty) (x y : Z) : tty :=
  mk_tty x y (size_x t) (size_y t) (color_fg t) (color_bg t) (buffer t).
Definition set_color_fg (t : tty) (c : Z) : tty :=
  mk_tty (cursor_x t) (cursor_y t) (size_x t) (size_y t) c (color_bg t) (buffer t).
Definition set_color_bg (t : tty) (c : Z) : tty :=
  mk_tty (cursor_x t) (cursor_y t) (size_x t) (size_y t) (color_fg t) c (buffer t).

Record ttyw := mk_ttyw {
  tty_current : Z; ttys : list tty; bufs : gmap Z (list tty_char); output : list tty_char; hw_cursor : Z }.

Definition set_ttys (w : ttyw) x := mk_ttyw (tty_current w) x (bufs w) (output w) (hw_cursor w).
Definition set_bufs (w : ttyw) x := mk_ttyw (tty_current w) (ttys w) x (output w) (hw_cursor w).
Definition set_output (w : ttyw) x := mk_ttyw (tty_current w) (ttys w) (bufs w) x (hw_cursor w).

Definition TTY_AMOUNT : Z := 6.
(** Cells of [tty0_buffer], and of the text memory. *)
Definition TTY0_CELLS : Z := 4000.
Definition VGA_CELLS : Z := 16384.

(** The fields [fgcolor] and [bgcolor] are four bits wide. *)
Definition cell (c fg bg : Z) : tty_char := mk_tty_char (u8 c) (fg mod 16) (bg mod 16).

Definition blank (t : tty) : tty_char := cell 0 (color_fg t) (color_bg t).

(** [&ttys[vid]], and a store through it. *)
Definition tty_at (w : ttyw) (vid : Z) : res tty := res_of_option (get (ttys w) vid).
Definition put_tty (w : ttyw) (vid : Z) (t : tty) : ttyw := set_ttys w (<[Z.to_nat vid := t]> (ttys w)).

Definition buf_at (w : ttyw) (t : tty) : res (list tty_char) := res_of_option (bufs w !! buffer t).
Definition put_buf (w : ttyw) (t : tty) (b : list tty_char) : ttyw := set_bufs w (<[buffer t := b]> (bufs w)).

Definition in_range {A} (m : list A) (off n : Z) : bool := (0 <=? off) && (off + n <=? zlen m).

Definition copy_cells (dst : list tty_char) (doff : Z) (src : list tty_char) (soff n : Z) : res (list tty_char) :=
  if n <=? 0 then Ok dst
  else if in_range dst doff n && in_range src soff n then Ok (splice dst doff (slice src soff n)) else Fault.

Definition store_cell (b : list tty_char) (i : Z) (c : tty_char) : res (list tty_char) :=
  if in_range b i 1 then Ok (<[Z.to_nat i := c]> b) else Fault.

(** A loop that stores a cell at [n] places from [i] on. *)
Fixpoint fill_cells (b : list tty_char) (i : Z) (n : nat) (c : tty_char) : res (list tty_char) :=
  match n with O => Ok b | S n' => b ← store_cell b i c; fill_cells b (i + 1) n' c end.

Definition load_cell (b : list tty_char) (i : Z) : res tty_char := res_of_option (get b i).

(** [_tty_set_cursor_pos]: the arguments are bytes. *)
Definition _tty_set_cursor_pos (w : ttyw) (x y : Z) : ttyw :=
  mk_ttyw (tty_current w) (ttys w) (bufs w) (output w) (u16 (u8 y * 80 + u8 x)).

Definition tty0 : tty := mk_tty 0 0 80 25 15 0 0.

(** [vga] is what the text memory holds. *)
Definition tty_init (vga : list tty_char) : ttyw :=
  mk_ttyw 0 (replicate (Z.to_nat TTY_AMOUNT) tty0) {[0 := replicate (Z.to_nat TTY0_CELLS) (mk_tty_char 0 0 0)]}
    vga 0.

(** The whole screen to the display, for the current terminal. *)
Definition refresh (w : ttyw) (vid : Z) : res ttyw :=
  t ← tty_at w vid;
  if negb (vid =? tty_current w) then Ok w
  else b ← buf_at w t; o ← copy_cells (output w) 0 b 0 (size_x t * size_y t); Ok (set_output w o).

Definition tty_scroll (w : ttyw) (vid : Z) : res ttyw :=
  t ← tty_at w vid;
  b ← buf_at w t;
  b ← copy_cells b 0 b (size_x t) (size_x t * (size_y t - 1));
  b ← fill_cells b ((size_y t - 1) * size_x t) (Z.to_nat (size_x t)) (blank t);
  refresh (put_tty (put_buf w t b) vid (set_cursor t (cursor_x t) (cursor_y t - 1))) vid.

(** [while (tty->cursor_y > tty->size_y - 1) tty_scroll(vid);] *)
Fixpoint scroll_loop (fuel : nat) (w : ttyw) (vid : Z) : res ttyw :=
  t ← tty_at w vid;
  if cursor_y t >? size_y t - 1 then
    match fuel with O => OutOfFuel | S f => w ← tty_scroll w vid; scroll_loop f w vid end
  else Ok w.

Definition newline (w : ttyw) (vid : Z) : res ttyw :=
  t ← tty_at w vid;
  let t := set_cursor t 0 (cursor_y t + 1) in
  scroll_loop (Z.to_nat (cursor_y t)) (put_tty w vid t) vid.

(** A cursor past the end of its line goes to the next one. *)
Definition wrap (w : ttyw) (vid : Z) : res ttyw :=
  t ← tty_at w vid;
  if cursor_x t >=? size_x t then newline w vid else Ok w.

(** The loop of [tty_write]; the number of cells written. *)
Fixpoint write_loop (w : ttyw) (vid : Z) (text : list Z) (len : Z) : res (ttyw * Z) :=
  match text with
  | [] => Fault
  | c :: rest =>
      if c =? 0 then Ok (w, len)
      else
        w ← wrap w vid;
        t ← tty_at w vid;
        let at_ := cursor_x t + cursor_y t * size_x t in
        let t := set_cursor t (cursor_x t + 1) (cursor_y t) in
        let w := put_tty w vid t in
        if c =? 10 then w ← newline w vid; write_loop w vid rest len
        else if c =? 13 then write_loop (put_tty w vid (set_cursor t 0 (cursor_y t))) vid rest len
        else
          b ← buf_at w t;
          b ← store_cell b at_ (cell c (color_fg t) (color_bg t));
          write_loop (put_buf w t b) vid rest (len + 1)
  end.

Definition tty_write (w : ttyw) (vid : Z) (text : list Z) : res ttyw :=
  t ← tty_at w vid;
  let start := cursor_x t + cursor_y t * size_x t in
  '(w, len) ← write_loop w vid text 0;
  if negb (vid =? tty_current w) then Ok w
  else
    t ← tty_at w vid;
    b ← buf_at w t;
    o ← copy_cells (output w) start b start len;
    Ok (_tty_set_cursor_pos (set_output w o) (cursor_x t) (cursor_y t)).

(** The cursor registers, for the current terminal. *)
Definition move_cursor (w : ttyw) (vid : Z) : res ttyw :=
  t ← tty_at w vid;
  Ok (if vid =? tty_current w then _tty_set_cursor_pos w (cursor_x t) (cursor_y t) else w).

Definition tty_putchar (w : ttyw) (vid c : Z) : res ttyw :=
  w ← wrap w vid;
  t ← tty_at w vid;
  let at_ := cursor_x t + cursor_y t * size_x t in
  let t := if negb (c =? 8) then set_cursor t (cursor_x t + 1) (cursor_y t) else t in
  let w := put_tty w vid t in
  if c =? 10 then w ← newline w vid; move_cursor w vid
  else if c =? 13 then move_cursor (put_tty w vid (set_cursor t 0 (cursor_y t))) vid
  else if c =? 8 then
    if cursor_x t =? 0 then Ok (_tty_set_cursor_pos w (cursor_x t) (cursor_y t))
    else
      b ← buf_at w t;
      old ← load_cell b at_;
      b ← store_cell b at_ (mk_tty_char 32 (fgcolor old) (bgcolor old));
      move_cursor (put_tty (put_buf w t b) vid (set_cursor t (cursor_x t - 1) (cursor_y t))) vid
  else
    let start := cursor_x t - 1 + cursor_y t * size_x t in
    b ← buf_at w t;
    b ← store_cell b at_ (cell c (color_fg t) (color_bg t));
    let w := put_buf w t b in
    if negb (vid =? tty_current w) then Ok w
    else
      x ← load_cell b start;
      o ← store_cell (output w) start x;
      Ok (_tty_set_cursor_pos (set_output w o) (cursor_x t) (cursor_y t)).

Definition tty_clear (w : ttyw) (vid : Z) : res ttyw :=
  t ← tty_at w vid;
  b ← buf_at w t;
  b ← fill_cells b 0 (Z.to_nat (size_x t * size_y t)) (blank t);
  refresh (put_buf w t b) vid.

Definition ansi_to_vga : list Z := [0; 4; 2; 6; 1; 5; 3; 7; 8; 12; 10; 14; 9; 13; 11; 15].

(** [ansi] is a [char]. *)
Definition tty_set_color_ansi (w : ttyw) (vid ansi : Z) : res ttyw :=
  t ← tty_at w vid;
  let pick i := res_of_option (get ansi_to_vga i) in
  if (ansi >=? 30) && (ansi <=? 37) then c ← pick (ansi - 30); Ok (put_tty w vid (set_color_fg t c))
  else if (ansi >=? 40) && (ansi <=? 47) then c ← pick (ansi - 40); Ok (put_tty w vid (set_color_bg t c))
  else if (ansi >=? 90) && (ansi <=? 97) then c ← pick (ansi - 90 + 8); Ok (put_tty w vid (set_color_fg t c))
  else if (ansi >=? 100) && (ansi <=? 107) then c ← pick (ansi - 100 + 8); Ok (put_tty w vid (set_color_bg t c))
  else Ok w.

Definition tty_get_size (w : ttyw) (vid : Z) : res (Z * Z) := t ← tty_at w vid; Ok (size_x t, size_y t).

(** The tests look at where the cursor is, not at where it goes, and one of each pair holds. *)
Definition tty_set_cursor_pos (w : ttyw) (vid x y : Z) : res ttyw :=
  t ← tty_at w vid;
  let t := if (cursor_x t >=? 0) || (cursor_x t <? size_x t) then set_cursor t x (cursor_y t) else t in
  let t := if (cursor_y t >=? 0) || (cursor_y t <? size_y t) then set_cursor t (cursor_x t) y else t in
  move_cursor (put_tty w vid t) vid.

Definition tty_switch_to (w : ttyw) (vid : Z) : res ttyw :=
  let w := mk_ttyw vid (ttys w) (bufs w) (output w) (hw_cursor w) in
  t ← tty_at w vid;
  b ← buf_at w t;
  o ← copy_cells (output w) 0 b 0 (size_x t * size_y t);
  Ok (_tty_set_cursor_pos (set_output w o) (cursor_x t) (cursor_y t)).

(** [tty_init_post]: a buffer of its own for each other terminal; [i] is its address. *)
Fixpoint init_post_loop (n : nat) (i : Z) (w : ttyw) : res ttyw :=
  match n with
  | O => Ok w
  | S n' =>
      let t := mk_tty 0 0 80 25 15 0 i in
      w ← (if in_range (ttys w) i 1 then Ok (set_bufs (put_tty w i t) (<[i := replicate 2000 (mk_tty_char 0 0 0)]> (bufs w))) else Fault);
      w ← tty_clear w i;
      init_post_loop n' (i + 1) w
  end.

Definition tty_init_post (w : ttyw) : res ttyw := init_post_loop (Z.to_nat (TTY_AMOUNT - 1)) 1 w.

(** ** A screen as a grid

    The rows from top to bottom, each of [size_x] cells, and the cursor. *)
Record screen := mk_screen { rows : list (list tty_char); sx : Z; sy : Z }.

Section Grid.
Context (t : tty).

Definition blank_row : list tty_char := replicate (Z.to_nat (size_x t)) (blank t).

(** The next line; on the last one, the rows move up. *)
Definition next_line (s : screen) : screen :=
  if sy s + 1 <? size_y t then mk_screen (rows s) 0 (sy s + 1) else mk_screen (tail (rows s) ++ [blank_row]) 0 (sy s).

Definition wrap_line (s : screen) : screen := if sx s >=? size_x t then next_line s else s.

(** A cell at the cursor. *)
Definition put_at (f : tty_char -> tty_char) (s : screen) : list (list tty_char) :=
  alter (alter f (Z.to_nat (sx s))) (Z.to_nat (sy s)) (rows s).

(** What a character does. *)
Definition type_char (c : Z) (s : screen) : screen :=
  let s := wrap_line s in
  if c =? 10 then next_line s
  else if c =? 13 then mk_screen (rows s) 0 (sy s)
  else if c =? 8 then
    if sx s =? 0 then s else mk_screen (put_at (fun o => mk_tty_char 32 (fgcolor o) (bgcolor o)) s) (sx s - 1) (sy s)
  else mk_screen (put_at (fun _ => cell c (color_fg t) (color_bg t)) s) (sx s + 1) (sy s).

(** [tty_write] knows no backspace. *)
Definition write_char (c : Z) (s : screen) : screen :=
  if c =? 8 then let s := wrap_line s in mk_screen (put_at (fun _ => cell c (color_fg t) (color_bg t)) s) (sx s + 1) (sy s)
  else type_char c s.

Record screen_ok (s : screen) : Prop := {
  so_size : 0 < size_x t /\ 0 < size_y t;
  so_rows : zlen (rows s) = size_y t;
  so_cols : Forall (fun r => zlen r = size_x t) (rows s);
  so_x : 0 <= sx s <= size_x t;
  so_y : 0 <= sy s < size_y t }.
End Grid.

Lemma concat_length {A} (w : Z) (l : list (list A)) : Forall (fun r => zlen r = w) l -> zlen (concat l) = w * zlen l.
Proof. induction 1 as [|r l Hr _ IH]; [by rewrite Z.mul_0_r|]. cbn [concat]. rewrite zlen_app, zlen_cons, IH, Hr. lia. Qed.

(** The cell [x] of row [y] is [x + y * w] in the flat memory. *)
Lemma concat_alter {A} (w : Z) (l : list (list A)) f x : 0 <= x < w -> Forall (fun r => zlen r = w) l -> forall y : nat,
  concat (alter (alter f (Z.to_nat x)) y l) = alter f (Z.to_nat (x + Z.of_nat y * w)) (concat l).
Proof.
  intros Hx Hl. induction Hl as [|r l Hr Hl IH]; intros y; [by destruct y|]. destruct y as [|y]; cbn [alter list_alter concat].
  - rewrite Z.add_0_r. symmetry. apply alter_app_l. unfold zlen in Hr. lia.
  - change (list_alter (alter f (Z.to_nat x)) y l) with (alter (alter f (Z.to_nat x)) y l). rewrite IH.
    assert (0 <= Z.of_nat y * w) by (apply Z.mul_nonneg_nonneg; lia).
    replace (Z.to_nat (x + Z.of_nat (S y) * w)) with (length r + Z.to_nat (x + Z.of_nat y * w))%nat by (unfold zlen in Hr; lia).
    by rewrite alter_app_r.
Qed.

Lemma in_range_ok {A} (m : list A) off n : 0 <= off -> off + n <= zlen m -> in_range m off n = true.
Proof. intros. unfold in_range. destruct (Z.leb_spec 0 off), (Z.leb_spec (off + n) (zlen m)); done || lia. Qed.

Lemma store_cell_ok b i c : 0 <= i < zlen b -> store_cell b i c = Ok (<[Z.to_nat i := c]> b).
Proof. intros. unfold store_cell. by rewrite in_range_ok by lia. Qed.

Lemma copy_cells_ok dst doff src soff n : 0 <= doff -> 0 <= soff -> 0 <= n -> doff + n <= zlen dst -> soff + n <= zlen src ->
  copy_cells dst doff src soff n = Ok (splice dst doff (slice src soff n)).
Proof.
  intros. unfold copy_cells. destruct (Z.leb_spec n 0); [|by rewrite !in_range_ok by lia].
  replace n with 0 by lia. by rewrite slice_0, splice_nil.
Qed.

Lemma fill_cells_ok n c : forall b i, 0 <= i -> i + Z.of_nat n <= zlen b -> fill_cells b i n c = Ok (splice b i (replicate n c)).
Proof.
  induction n as [|n IH]; intros b i Hi Hn; cbn [fill_cells replicate]; [by rewrite splice_nil|].
  rewrite store_cell_ok by lia. cbn [mbind res_bind]. rewrite IH by (unfold zlen in *; rewrite ?length_insert; lia). f_equal. apply splice_insert_cons. lia.
Qed.

(** [splice] at the end of a prefix. *)
Lemma splice_app {A} (p q xs : list A) : splice (p ++ q) (zlen p) xs = p ++ xs ++ drop (length xs) q.
Proof.
  unfold splice, zlen. rewrite Nat2Z.id, take_app_length, drop_app_ge by lia. do 3 f_equal. lia.
Qed.

(** The two steps of a scroll move the rows up and clear the last one. *)
Lemma scroll_cells W H (bl : tty_char) r rs tl : 0 < W -> zlen r = W -> Forall (fun r => zlen r = W) rs -> zlen (r :: rs) = H ->
  (b ← copy_cells (concat (r :: rs) ++ tl) 0 (concat (r :: rs) ++ tl) W (W * (H - 1)); fill_cells b ((H - 1) * W) (Z.to_nat W) bl)
  = Ok (concat (rs ++ [replicate (Z.to_nat W) bl]) ++ tl).
Proof.
  intros HW Hr Hrs HH. rewrite zlen_cons in HH. pose proof (concat_length W rs Hrs) as Hc. pose proof (zlen_nonneg rs). pose proof (zlen_nonneg tl).
  assert (0 <= W * zlen rs) by (apply Z.mul_nonneg_nonneg; lia). replace (H - 1) with (zlen rs) by lia. cbn [concat]. rewrite <- app_assoc.
  rewrite copy_cells_ok by (rewrite ?zlen_app; lia). cbn [mbind res_bind].
  assert (slice (r ++ concat rs ++ tl) W (W * zlen rs) = concat rs) as ->.
  { unfold slice. replace (Z.to_nat W) with (length r) by (unfold zlen in Hr; lia). rewrite drop_app_length, <- Hc. unfold zlen. by rewrite Nat2Z.id, take_app_length. }
  rewrite splice_0. assert (exists x, drop (length (concat rs)) (r ++ concat rs ++ tl) = x ++ tl /\ zlen x = W) as (x & -> & Hx).
  { exists (drop (length (concat rs)) (r ++ concat rs)). rewrite app_assoc, drop_app_le by (rewrite length_app; lia). split; [done|].
    unfold zlen in *. rewrite length_drop, length_app. lia. }
  rewrite (Z.mul_comm (zlen rs)), <- Hc. rewrite fill_cells_ok by (rewrite ?zlen_app; lia). rewrite splice_app.
  rewrite concat_app. cbn [concat]. rewrite app_nil_r, <- app_assoc, length_replicate. do 3 f_equal.
  replace (Z.to_nat W) with (length x) by (unfold zlen in Hx; lia). apply drop_app_length.
Qed.

(** The terminal [vid], of the sizes and colours of [t], shows [s]. *)
Record holds (w : ttyw) (vid : Z) (t : tty) (s : screen) : Prop := {
  h_tty : get (ttys w) vid = Some (set_cursor t (sx s) (sy s));
  h_buf : exists tl, bufs w !! buffer t = Some (concat (rows s) ++ tl);
  h_ok : screen_ok t s;
  h_out : size_x t * size_y t <= zlen (output w) }.

(** The display shows the rows. *)
Definition in_sync (w : ttyw) (t : tty) (s : screen) : Prop := take (Z.to_nat (size_x t * size_y t)) (output w) = concat (rows s).

(** Nothing else changes, and the display follows the current terminal only. *)
Record only (w w' : ttyw) (vid : Z) (t : tty) (s s' : screen) : Prop := {
  on_current : tty_current w' = tty_current w;
  on_ttys : ttys w' = <[Z.to_nat vid := set_cursor t (sx s') (sy s')]> (ttys w);
  on_bufs : forall a, a <> buffer t -> bufs w' !! a = bufs w !! a;
  on_shown : vid = tty_current w -> in_sync w t s -> in_sync w' t s';
  on_hidden : vid <> tty_current w -> output w' = output w;
  on_len : zlen (output w') = zlen (output w) }.

Lemma only_trans w1 w2 w3 vid t s1 s2 s3 : only w1 w2 vid t s1 s2 -> only w2 w3 vid t s2 s3 -> only w1 w3 vid t s1 s3.
Proof.
  intros [H1 H2 H3 H4 H5 H6] [K1 K2 K3 K4 K5 K6]. split.
  - congruence.
  - by rewrite K2, H2, list_insert_insert_eq.
  - intros a Ha. by rewrite K3, H3.
  - intros E Hs. apply K4; [congruence|auto].
  - intros E. rewrite K5 by congruence. auto.
  - congruence.
Qed.

Lemma only_refl w vid t s : holds w vid t s -> only w w vid t s s.
Proof.
  intros [Ht _ _ _]. split; try done. symmetry. apply list_insert_id. by apply get_Some in Ht as [_ Ht].
Qed.

Lemma tty_at_ok w vid t : get (ttys w) vid = Some t -> tty_at w vid = Ok t.
Proof. intros E. unfold tty_at. by rewrite E. Qed.

Lemma get_put_tty w vid t t' : get (ttys w) vid = Some t -> get (ttys (put_tty w vid t')) vid = Some t'.
Proof. intros [Hi Hl]%get_Some. apply lookup_lt_Some in Hl. apply get_Some. split; [done|]. cbn. by rewrite list_lookup_insert_eq. Qed.

Lemma put_tty_twice w vid t t' : put_tty (put_tty w vid t) vid t' = put_tty w vid t'.
Proof. unfold put_tty, set_ttys. cbn. by rewrite list_insert_insert_eq. Qed.

Lemma grid_cells t s : screen_ok t s -> zlen (concat (rows s)) = size_x t * size_y t.
Proof. intros [_ Hr Hc _ _]. rewrite (concat_length _ _ Hc). by rewrite Hr. Qed.

Lemma in_sync_refresh w t s tl : screen_ok t s -> size_x t * size_y t <= zlen (output w) ->
  in_sync (set_output w (splice (output w) 0 (slice (concat (rows s) ++ tl) 0 (size_x t * size_y t)))) t s.
Proof.
  intros Hok Ho. pose proof (grid_cells t s Hok) as Hg. unfold in_sync. cbn [output set_output]. rewrite <- Hg.
  unfold zlen. rewrite Nat2Z.id. unfold slice. rewrite Nat2Z.id. change (Z.to_nat 0) with 0%nat. rewrite drop_0. by rewrite take_app_length, splice_0, take_app_length.
Qed.

(** The whole screen goes to the display. *)
Lemma refresh_ok w vid t s : holds w vid t s ->
  exists o, refresh w vid = Ok (set_output w o) /\ zlen o = zlen (output w) /\
    (vid = tty_current w -> in_sync (set_output w o) t s) /\ (vid <> tty_current w -> o = output w).
Proof.
  intros [Ht (tl & Hb) Hok Ho]. pose proof (grid_cells t s Hok) as Hg. unfold refresh. rewrite (tty_at_ok _ _ _ Ht). cbn [mbind res_bind].
  destruct (Z.eqb_spec vid (tty_current w)) as [E|E]; cbn [negb].
  - unfold buf_at. cbn [buffer set_cursor]. rewrite Hb. cbn [res_of_option mbind res_bind size_x size_y set_cursor]. pose proof (zlen_nonneg tl). pose proof (zlen_nonneg (concat (rows s))).
    rewrite copy_cells_ok by (rewrite ?zlen_app; lia). cbn [mbind res_bind]. eexists. split; [done|]. split; [|split; [intros _; by apply in_sync_refresh|done]].
    apply zlen_splice; [lia|]. rewrite zlen_slice; rewrite ?zlen_app; lia.
  - exists (output w). split; [by destruct w|]. split; [done|]. split; [done|done].
Qed.

(** A cursor somewhere else on the same rows. *)
Lemma screen_move t s x y : screen_ok t s -> 0 <= x <= size_x t -> 0 <= y < size_y t -> screen_ok t (mk_screen (rows s) x y).
Proof. intros [Hsz Hr Hc _ _] Hx Hy. by split. Qed.

Lemma screen_scroll t s y : screen_ok t s -> 0 <= y < size_y t -> screen_ok t (mk_screen (tail (rows s) ++ [blank_row t]) 0 y).
Proof.
  intros [Hsz Hr Hc _ Hy] Hy'. destruct (rows s) as [|r rs] eqn:E; [rewrite zlen_nil in Hr; lia|]. cbn [tail]. apply Forall_cons in Hc as [_ Hc].
  split; cbn [rows sx sy]; try done; try lia.
  - rewrite zlen_app, zlen_cons in *. rewrite zlen_nil. lia.
  - apply Forall_app. split; [done|]. constructor; [|done]. unfold blank_row, zlen. rewrite length_replicate. lia.
Qed.

Lemma tty_scroll_ok w vid t s x y : get (ttys w) vid = Some (set_cursor t x (y + 1)) -> (exists tl, bufs w !! buffer t = Some (concat (rows s) ++ tl)) ->
  screen_ok t s -> size_x t * size_y t <= zlen (output w) -> x = 0 -> 0 <= y < size_y t ->
  let s' := mk_screen (tail (rows s) ++ [blank_row t]) x y in
  exists w', tty_scroll w vid = Ok w' /\ holds w' vid t s' /\ only w w' vid t s s'.
Proof.
  intros Ht (tl & Hb) Hok Ho -> Hy s'. pose proof (screen_scroll t s y Hok Hy) as Hok'. pose proof Hok as [Hsz Hr Hc _ _]. unfold tty_scroll.
  rewrite (tty_at_ok _ _ _ Ht). cbn [mbind res_bind]. unfold buf_at. cbn [buffer set_cursor]. rewrite Hb. cbn [res_of_option mbind res_bind].
  destruct (rows s) as [|r rs] eqn:E; [rewrite zlen_nil in Hr; lia|]. cbn [tail] in *. apply Forall_cons in Hc as [Hc1 Hc].
  pose proof (scroll_cells (size_x t) (size_y t) (blank t) r rs tl ltac:(lia) Hc1 Hc Hr) as Hcells.
  destruct (copy_cells _ _ _ _ _) as [b1| | |]; try done. cbn [mbind res_bind] in *. cbn [size_x size_y set_cursor cursor_x cursor_y].
  change (blank (set_cursor t 0 (y + 1))) with (blank t). rewrite Hcells. cbn [mbind res_bind]. replace (y + 1 - 1) with y by lia.
  set (w1 := put_tty _ vid _). assert (holds w1 vid t s') as Hh1.
  { split; [|exists tl|done|done]; [apply (get_put_tty (put_buf w _ _) vid (set_cursor t 0 (y + 1))); done|]. cbn. by rewrite lookup_insert_eq. }
  destruct (refresh_ok w1 vid t s' Hh1) as (o & Eo & Hzo & Hsy & Hns).
  exists (set_output w1 o). split; [exact Eo|]. destruct Hh1 as [H1 H2 H3 H4]. split; [by split; cbn; rewrite ?Hzo|].
  split; cbn; [done|done| | |done|done].
  - intros a Ha. by rewrite lookup_insert_ne.
  - intros Ev _. by apply Hsy.
Qed.

Lemma newline_ok w vid t s : holds w vid t s -> exists w', newline w vid = Ok w' /\ holds w' vid t (next_line t s) /\ only w w' vid t s (next_line t s) /\
  (sy s + 1 < size_y t -> output w' = output w).
Proof.
  intros Hh. pose proof Hh as [Ht Hb Hok Ho]. pose proof Hok as [Hsz Hr Hc Hx Hy]. unfold newline. rewrite (tty_at_ok _ _ _ Ht). cbn [mbind res_bind]. cbv zeta.
  change (set_cursor (set_cursor t (sx s) (sy s)) 0 (cursor_y (set_cursor t (sx s) (sy s)) + 1)) with (set_cursor t 0 (sy s + 1)). cbn [cursor_y set_cursor].
  assert (get (ttys (put_tty w vid (set_cursor t 0 (sy s + 1)))) vid = Some (set_cursor t 0 (sy s + 1))) as Ht1 by (by apply (get_put_tty w vid _ _ Ht)).
  unfold next_line. destruct (Z.ltb_spec (sy s + 1) (size_y t)) as [Hlt|Hge].
  - assert (holds (put_tty w vid (set_cursor t 0 (sy s + 1))) vid t (mk_screen (rows s) 0 (sy s + 1))) as Hh1.
    { split; [done|done|apply screen_move; done || lia|done]. }
    exists (put_tty w vid (set_cursor t 0 (sy s + 1))). split; [|split; [done|split; [by split|done]]].
    destruct (Z.to_nat (sy s + 1)); cbn [scroll_loop]; rewrite (tty_at_ok _ _ _ Ht1); cbn [mbind res_bind cursor_y set_cursor size_y];
      by destruct (Z.gtb_spec (sy s + 1) (size_y t - 1)); [lia|].
  - destruct (tty_scroll_ok (put_tty w vid (set_cursor t 0 (sy s + 1))) vid t s 0 (sy s) Ht1 Hb Hok Ho eq_refl Hy) as (w' & Es & Hh' & Hon).
    exists w'. split; [|split; [done|split; [|lia]]].
    + destruct (Z.to_nat (sy s + 1)) as [|f] eqn:Ef; [lia|]. cbn [scroll_loop]. rewrite (tty_at_ok _ _ _ Ht1). cbn [mbind res_bind cursor_y set_cursor size_y].
      destruct (Z.gtb_spec (sy s + 1) (size_y t - 1)); [|lia].
      rewrite Es. cbn [mbind res_bind]. destruct Hh' as [Ht' _ _ _].
      destruct f; cbn [scroll_loop]; rewrite (tty_at_ok _ _ _ Ht'); cbn [mbind res_bind cursor_y set_cursor size_y sy]; (destruct (Z.gtb_spec (sy s) (size_y t - 1)); [lia|done]).
    + destruct Hon as [K1 K2 K3 K4 K5 K6]. split; try done. by rewrite K2; cbn; rewrite list_insert_insert_eq.
Qed.

Lemma wrap_ok w vid t s : holds w vid t s ->
  exists w', wrap w vid = Ok w' /\ holds w' vid t (wrap_line t s) /\ only w w' vid t s (wrap_line t s) /\ sx (wrap_line t s) < size_x t.
Proof.
  intros Hh. pose proof Hh as [Ht _ [Hsz _ _ Hx _] _]. unfold wrap, wrap_line. rewrite (tty_at_ok _ _ _ Ht). cbn [mbind res_bind cursor_x size_x set_cursor].
  destruct (Z.geb_spec (sx s) (size_x t)).
  - destruct (newline_ok w vid t s Hh) as (w' & E & Hh' & Hon & _). exists w'. split_and!; try done. unfold next_line. destruct (_ <? _); cbn; lia.
  - exists w. split_and!; try done. by apply only_refl.
Qed.

Lemma alter_insert_eq {A} (f : A -> A) (l : list A) i x : l !! i = Some x -> alter f i l = <[i := f x]> l.
Proof. revert i. induction l as [|y l IH]; intros [|i] E; simplify_eq/=; [done|]. f_equal. by apply IH. Qed.

Lemma insert_const {A} (c : A) (l : list A) i : <[i := c]> l = alter (fun _ => c) i l.
Proof. revert i. induction l as [|y l IH]; intros [|i]; simpl; [done..|]. f_equal. apply IH. Qed.

(** The index of the cell at the cursor. *)
Definition at_cursor (t : tty) (s : screen) : Z := sx s + sy s * size_x t.

Lemma at_cursor_range t s : screen_ok t s -> sx s < size_x t -> 0 <= at_cursor t s < size_x t * size_y t.
Proof.
  intros [Hsz _ _ Hx Hy] Hlt. unfold at_cursor. assert (sy s * size_x t <= (size_y t - 1) * size_x t) by (apply Z.mul_le_mono_nonneg_r; lia).
  assert (0 <= sy s * size_x t) by (apply Z.mul_nonneg_nonneg; lia). lia.
Qed.

Lemma put_at_cells t s f : screen_ok t s -> sx s < size_x t -> concat (put_at f s) = alter f (Z.to_nat (at_cursor t s)) (concat (rows s)).
Proof.
  intros [Hsz _ Hc Hx Hy] Hlt. unfold put_at, at_cursor. rewrite (concat_alter (size_x t)) by (done || lia). by rewrite Z2Nat.id by lia.
Qed.

Lemma put_at_ok t s f x : screen_ok t s -> 0 <= x <= size_x t -> screen_ok t (mk_screen (put_at f s) x (sy s)).
Proof.
  intros [Hsz Hr Hc Hx Hy] Hx'. split; cbn [rows sx sy]; try done; unfold put_at.
  - unfold zlen in *. by rewrite length_alter.
  - clear Hr. revert Hc. generalize (Z.to_nat (sy s)) as y. induction (rows s) as [|r rs IH]; intros y Hc; [by destruct y|]. apply Forall_cons in Hc as [Hr Hc].
    destruct y as [|y]; cbn; constructor; try done; [unfold zlen in *; by rewrite length_alter|by apply IH].
Qed.

(** A cell changed in the buffer of a terminal, the cursor moved in its line. *)
Lemma put_cell_ok w vid t s f c x old tl : get (ttys w) vid = Some (set_cursor t x (sy s)) -> bufs w !! buffer t = Some (concat (rows s) ++ tl) ->
  screen_ok t s -> size_x t * size_y t <= zlen (output w) -> sx s < size_x t -> 0 <= x <= size_x t ->
  get (concat (rows s) ++ tl) (at_cursor t s) = Some old -> c = f old ->
  store_cell (concat (rows s) ++ tl) (at_cursor t s) c = Ok (concat (put_at f s) ++ tl) /\
  holds (put_buf w t (concat (put_at f s) ++ tl)) vid t (mk_screen (put_at f s) x (sy s)).
Proof.
  intros Ht Hb Hok Ho Hlt Hx Hold ->. pose proof (grid_cells t s Hok) as Hg. pose proof (at_cursor_range t s Hok Hlt) as Hr. pose proof (zlen_nonneg tl).
  rewrite store_cell_ok by (rewrite zlen_app; lia). split.
  - f_equal. apply get_Some in Hold as [_ Hold]. rewrite <- (alter_insert_eq f) by done. rewrite alter_app_l by (unfold zlen in Hg; lia). by rewrite <- put_at_cells.
  - split; [done|exists tl; cbn; by rewrite lookup_insert_eq|by apply put_at_ok|done].
Qed.

(** The same change on the display. *)
Lemma sync_cell w t s f c x y : screen_ok t s -> sx s < size_x t -> size_x t * size_y t <= zlen (output w) -> (forall old, f old = c) -> in_sync w t s ->
  in_sync (set_output w (<[Z.to_nat (at_cursor t s) := c]> (output w))) t (mk_screen (put_at f s) x y).
Proof.
  intros Hok Hlt Ho Hf Hs. pose proof (at_cursor_range t s Hok Hlt) as Hr. unfold in_sync in *. cbn [output set_output rows].
  rewrite (put_at_cells t) by done. rewrite <- Hs, take_insert_lt by lia. rewrite insert_const. apply list_alter_ext; [|done]. by intros.
Qed.

Lemma holds_move w vid t s x : holds w vid t s -> 0 <= x <= size_x t ->
  holds (put_tty w vid (set_cursor t x (sy s))) vid t (mk_screen (rows s) x (sy s)) /\
  only w (put_tty w vid (set_cursor t x (sy s))) vid t s (mk_screen (rows s) x (sy s)).
Proof.
  intros [Ht Hb Hok Ho] Hx. pose proof Hok as [_ _ _ _ Hy]. split; [|by split].
  split; [by apply (get_put_tty w vid _ _ Ht)|done|by apply screen_move|done].
Qed.

(** The cursor registers make no difference to the screens. *)
Lemma holds_cursor w vid t s x y : holds w vid t s -> holds (_tty_set_cursor_pos w x y) vid t s.
Proof. intros [H1 H2 H3 H4]. by split. Qed.

Lemma only_cursor w w' vid t s s' x y : only w w' vid t s s' -> only w (_tty_set_cursor_pos w' x y) vid t s s'.
Proof. intros [H1 H2 H3 H4 H5 H6]. by split. Qed.

Lemma move_cursor_ok w w0 vid t s s0 : holds w vid t s -> only w0 w vid t s0 s ->
  exists w', move_cursor w vid = Ok w' /\ holds w' vid t s /\ only w0 w' vid t s0 s.
Proof.
  intros Hh Hon. pose proof Hh as [Ht _ _ _]. unfold move_cursor. rewrite (tty_at_ok _ _ _ Ht). cbn [mbind res_bind]. eexists. split; [done|].
  destruct (vid =? tty_current w); [|done]. split; [by apply holds_cursor|by apply only_cursor].
Qed.

Lemma cell_at w vid t s tl : holds w vid t s -> sx s < size_x t -> exists old, get (concat (rows s) ++ tl) (at_cursor t s) = Some old.
Proof.
  intros [_ _ Hok _] Hlt. pose proof (grid_cells t s Hok) as Hg. pose proof (at_cursor_range t s Hok Hlt) as Hr. pose proof (zlen_nonneg tl).
  apply get_in_range. rewrite zlen_app. lia.
Qed.

(** A plain character, with the cursor on its line. *)
Lemma plain_ok w vid t s c : holds w vid t s -> sx s < size_x t ->
  let k := cell c (color_fg t) (color_bg t) in
  let s' := mk_screen (put_at (fun _ => k) s) (sx s + 1) (sy s) in
  let w1 := put_tty w vid (set_cursor t (sx s + 1) (sy s)) in
  exists b, (b ← buf_at w1 t; store_cell b (at_cursor t s) k) = Ok b /\ holds (put_buf w1 t b) vid t s' /\ get b (at_cursor t s) = Some k /\
    only w (put_buf w1 t b) vid t s (if vid =? tty_current w then mk_screen (rows s) (sx s + 1) (sy s) else s') /\
    (in_sync w t s -> in_sync (set_output (put_buf w1 t b) (<[Z.to_nat (at_cursor t s) := k]> (output w))) t s').
Proof.
  intros Hh Hlt k s' w1. pose proof Hh as [Ht (tl & Hb) Hok Ho]. pose proof Hok as [Hsz _ _ Hx Hy]. destruct (cell_at w vid t s tl Hh Hlt) as (old & Eold).
  destruct (put_cell_ok w1 vid t s (fun _ => k) k (sx s + 1) old tl (get_put_tty w vid _ _ Ht) Hb Hok Ho Hlt ltac:(lia) Eold eq_refl) as [Est Hh'].
  exists (concat (put_at (fun _ => k) s) ++ tl). unfold buf_at. cbn [bufs w1 put_tty set_ttys]. rewrite Hb. cbn [res_of_option mbind res_bind].
  pose proof (at_cursor_range t s Hok Hlt) as Hr. pose proof (grid_cells t s Hok) as Hg.
  split; [done|]. split; [done|]. split; [|split].
  - rewrite (put_at_cells t) by done. apply get_Some in Eold as [Hp Eold]. apply get_Some. split; [done|].
    rewrite <- alter_app_l by (unfold zlen in Hg; lia). rewrite list_lookup_alter_eq. by rewrite Eold.
  - split; cbn; try done; [by destruct (vid =? tty_current w)|by intros a Ha; rewrite lookup_insert_ne|].
    intros ->. by rewrite Z.eqb_refl.
  - intros Hs. by apply (sync_cell w t s (fun _ => k)).
Qed.

(** What the other terminals see. *)
Record beside (w w' : ttyw) (vid : Z) (t : tty) (s' : screen) : Prop := {
  be_current : tty_current w' = tty_current w;
  be_ttys : ttys w' = <[Z.to_nat vid := set_cursor t (sx s') (sy s')]> (ttys w);
  be_bufs : forall a, a <> buffer t -> bufs w' !! a = bufs w !! a;
  be_hidden : vid <> tty_current w -> output w' = output w;
  be_len : zlen (output w') = zlen (output w) }.

Lemma only_beside w w' vid t s s' : only w w' vid t s s' -> beside w w' vid t s'.
Proof. intros [H1 H2 H3 _ H5 H6]. by split. Qed.

Lemma beside_trans w1 w2 w3 vid t s2 s3 : beside w1 w2 vid t s2 -> beside w2 w3 vid t s3 -> beside w1 w3 vid t s3.
Proof.
  intros [H1 H2 H3 H5 H6] [K1 K2 K3 K5 K6]. split.
  - congruence.
  - by rewrite K2, H2, list_insert_insert_eq.
  - intros a Ha. by rewrite K3, H3.
  - intros E. rewrite K5 by congruence. auto.
  - congruence.
Qed.

Lemma beside_cursor w w' vid t s' x y : beside w w' vid t s' -> beside w (_tty_set_cursor_pos w' x y) vid t s'.
Proof. intros [H1 H2 H3 H4 H5]. by split. Qed.

Lemma both_views w w' vid t s s' (P : Prop) : only w w' vid t s s' -> beside w w' vid t s' /\ (P -> only w w' vid t s s').
Proof. intros Hon. split; [by eapply only_beside|done]. Qed.

(** Another terminal with a buffer of its own shows what it did. *)
Lemma beside_holds w w' vid t s' v2 t2 s2 : beside w w' vid t s' -> 0 <= vid -> v2 <> vid -> buffer t2 <> buffer t -> holds w v2 t2 s2 -> holds w' v2 t2 s2.
Proof.
  intros [H1 H2 H3 H5 H6] Hv Hne Hb [K1 (tl & K2) K3 K4]. split; [|exists tl; by rewrite H3|done|lia].
  apply get_Some in K1 as [Hp K1]. apply get_Some. split; [done|]. rewrite H2, list_lookup_insert_ne by lia. done.
Qed.

Lemma putchar_ok w vid t s c : holds w vid t s -> exists w', tty_putchar w vid c = Ok w' /\ holds w' vid t (type_char t c s) /\
  beside w w' vid t (type_char t c s) /\ (c <> 8 -> only w w' vid t s (type_char t c s)).
Proof.
  intros Hh. destruct (wrap_ok w vid t s Hh) as (w1 & E1 & Hh1 & Hon1 & Hlt). unfold tty_putchar, type_char. rewrite E1. cbn [mbind res_bind].
  set (s1 := wrap_line t s) in *. clearbody s1. pose proof Hh1 as [Ht1 (tl & Hb1) Hok1 Ho1]. pose proof Hok1 as [Hsz _ _ Hx Hy].
  rewrite (tty_at_ok _ _ _ Ht1). cbn [mbind res_bind]. cbv zeta. cbn [cursor_x cursor_y size_x set_cursor].
  destruct (holds_move w1 vid t s1 (sx s1 + 1) Hh1 ltac:(lia)) as [Hh2 Hon2].
  destruct (Z.eqb_spec c 8) as [->|H8]; cbn [negb Z.eqb Pos.eqb].
  { change (put_tty w1 vid (set_cursor t (sx s1) (sy s1))) with (set_ttys w1 (<[Z.to_nat vid := set_cursor t (sx s1) (sy s1)]> (ttys w1))).
    rewrite list_insert_id by (by apply get_Some in Ht1 as [_ ?]). replace (set_ttys w1 (ttys w1)) with w1 by (by destruct w1).
    change (cursor_x (set_cursor t (sx s1) (sy s1))) with (sx s1). change (cursor_y (set_cursor t (sx s1) (sy s1))) with (sy s1).
    change (set_cursor (set_cursor t (sx s1) (sy s1)) (sx s1 - 1) (sy s1)) with (set_cursor t (sx s1 - 1) (sy s1)).
    destruct (Z.eqb_spec (sx s1) 0) as [E0|E0]; [eexists; split; [done|]; split; [by apply holds_cursor|split; [|done]]; by apply beside_cursor, (only_beside _ _ _ _ s)|].
    destruct (cell_at w1 vid t s1 tl Hh1 Hlt) as (old & Eold). set (k := mk_tty_char 32 (fgcolor old) (bgcolor old)).
    destruct (holds_move w1 vid t s1 (sx s1 - 1) Hh1 ltac:(lia)) as [[Ht3 _ _ _] _].
    destruct (put_cell_ok _ vid t s1 (fun o => mk_tty_char 32 (fgcolor o) (bgcolor o)) k (sx s1 - 1) old tl Ht3 Hb1 Hok1 Ho1 Hlt ltac:(lia) Eold eq_refl) as [Est Hh3].
    unfold buf_at, load_cell. cbn [buffer set_cursor]. rewrite Hb1. cbn [res_of_option mbind res_bind]. fold (at_cursor t s1). rewrite Eold. cbn [res_of_option mbind res_bind].
    fold k. rewrite Est. cbn [mbind res_bind]. unfold move_cursor. rewrite (tty_at_ok _ _ (set_cursor t (sx s1 - 1) (sy s1))).
    2: { apply (get_put_tty (put_buf w1 _ _) vid (set_cursor t (sx s1) (sy s1))). done. }
    cbn [mbind res_bind]. eexists. split; [done|]. split; [destruct (vid =? _); [apply holds_cursor|]; exact Hh3|]. split; [|done].
    apply (beside_trans w w1 _ vid t s1); [by eapply only_beside|]. destruct (vid =? _); [apply beside_cursor|]; split; try done; cbn; by intros a Ha; rewrite lookup_insert_ne. }
  change (set_cursor (set_cursor t (sx s1) (sy s1)) (sx s1 + 1) (sy s1)) with (set_cursor t (sx s1 + 1) (sy s1)).
  destruct (Z.eqb_spec c 10) as [->|H10]; [|destruct (Z.eqb_spec c 13) as [->|H13]].
  - destruct (newline_ok _ vid t _ Hh2) as (w3 & -> & Hh3 & Hon3 & _). cbn [mbind res_bind].
    assert (next_line t (mk_screen (rows s1) (sx s1 + 1) (sy s1)) = next_line t s1) as En by done. rewrite En in *.
    destruct (move_cursor_ok w3 w vid t _ s Hh3) as (w4 & -> & Hh4 & Hon4); [|exists w4; split; [done|]; split; [done|]; by eapply both_views].
    eapply only_trans; [exact Hon1|]. by eapply only_trans.
  - rewrite put_tty_twice. destruct (holds_move w1 vid t s1 0 Hh1 ltac:(lia)) as [Hh3 Hon3].
    destruct (move_cursor_ok _ w vid t _ s Hh3) as (w4 & E4 & Hh4 & Hon4); [by eapply only_trans|]. exists w4. split; [done|]. split; [done|]. by eapply both_views.
  - destruct (plain_ok w1 vid t s1 c Hh1 Hlt) as (b & Eb & Hh3 & Hgb & Hon3 & Hsy). unfold buf_at in *. cbn [buffer set_cursor color_fg color_bg bufs put_tty set_ttys] in *.
    destruct (bufs w1 !! buffer t) as [b0|]; [|done]. cbn [res_of_option mbind res_bind] in *. fold (at_cursor t s1). rewrite Eb. cbn [mbind res_bind].
    change (tty_current (put_buf _ _ _)) with (tty_current w1). destruct (Z.eqb_spec vid (tty_current w1)) as [Ev|Ev]; cbn [negb].
    + set (t1 := set_cursor t (sx s1 + 1) (sy s1)). assert (cursor_x t1 - 1 + cursor_y t1 * size_x t1 = at_cursor t s1) as -> by (cbn; unfold at_cursor; lia). unfold load_cell. rewrite Hgb. cbn [res_of_option mbind res_bind].
      pose proof (at_cursor_range t s1 Hok1 Hlt). rewrite store_cell_ok by (cbn; lia). cbn [mbind res_bind]. eexists. split; [done|]. split.
      * apply holds_cursor. destruct Hh3 as [K1 K2 K3 K4]. split; try done. cbn in *. unfold zlen in *. by rewrite length_insert.
      * eapply both_views. eapply only_trans; [exact Hon1|]. apply only_cursor. destruct Hon3 as [K1 K2 K3 K4 K5 K6]. split; try done. cbn. unfold zlen. by rewrite length_insert.
    + eexists. split; [done|]. split; [exact Hh3|]. eapply both_views. by eapply only_trans.
Qed.

(** ** Writing text *)

Definition type_text (t : tty) (text : list Z) (s : screen) : screen := foldl (fun s c => write_char t c s) s text.

(** The characters that take a cell. *)
Definition visible (text : list Z) : Z := zlen (filter (fun c => c <> 10 /\ c <> 13) text).

Lemma write_loop_step w vid t s c rest len : holds w vid t s -> c <> 0 ->
  exists w', write_loop w vid (c :: rest) len = write_loop w' vid rest (len + visible [c]) /\ holds w' vid t (write_char t c s) /\
    beside w w' vid t (write_char t c s) /\ (sx s < size_x t -> (c = 10 -> sy s + 1 < size_y t) -> output w' = output w).
Proof.
  intros Hh H0. destruct (wrap_ok w vid t s Hh) as (w1 & E1 & Hh1 & Hon1 & Hlt). cbn [write_loop]. destruct (Z.eqb_spec c 0); [done|]. rewrite E1. cbn [mbind res_bind].
  assert (sx s < size_x t -> output w1 = output w) as Hout1.
  { intros Hl. revert E1. unfold wrap. destruct Hh as [Ht _ _ _]. rewrite (tty_at_ok _ _ _ Ht). cbn. destruct (Z.geb_spec (sx s) (size_x t)); [lia|congruence]. }
  apply only_beside in Hon1. set (s1 := wrap_line t s) in *. pose proof Hh1 as [Ht1 _ Hok1 _]. pose proof Hok1 as [Hsz _ _ Hx Hy].
  rewrite (tty_at_ok _ _ _ Ht1). cbn [mbind res_bind]. cbv zeta. set (t1 := set_cursor (set_cursor t (sx s1) (sy s1)) _ _).
  change t1 with (set_cursor t (sx s1 + 1) (sy s1)). clear t1. destruct (holds_move w1 vid t s1 (sx s1 + 1) Hh1 ltac:(lia)) as [Hh2 Hon2].
  destruct (Z.eqb_spec c 10) as [->|H10]; [|destruct (Z.eqb_spec c 13) as [->|H13]].
  - destruct (newline_ok _ vid t _ Hh2) as (w3 & -> & Hh3 & Hon3 & Hout3). cbn [mbind res_bind]. exists w3. split; [by rewrite Z.add_0_r|]. split; [exact Hh3|]. split.
    + eapply beside_trans; [exact Hon1|]. apply (only_beside _ _ _ _ s1). by eapply only_trans.
    + intros Hl H10. rewrite <- Hout1 by done. apply Hout3. cbn. unfold s1, wrap_line. destruct (Z.geb_spec (sx s) (size_x t)); [lia|auto].
  - change (set_cursor (set_cursor t (sx s1 + 1) (sy s1)) 0 (cursor_y (set_cursor t (sx s1 + 1) (sy s1)))) with (set_cursor t 0 (sy s1)). rewrite put_tty_twice.
    destruct (holds_move w1 vid t s1 0 Hh1 ltac:(lia)) as [Hh3 Hon3]. eexists. split; [by rewrite Z.add_0_r|]. split; [exact Hh3|].
    split; [eapply beside_trans; [exact Hon1|]; by eapply only_beside|]. intros Hl _. by rewrite <- Hout1.
  - destruct (plain_ok w1 vid t s1 c Hh1 Hlt) as (b & Eb & Hh3 & Hgb & Hon3 & Hsy). unfold buf_at in *. cbn [buffer set_cursor bufs put_tty set_ttys] in *.
    destruct (bufs w1 !! buffer t) as [b0|]; [|done]. cbn [res_of_option mbind res_bind] in *. cbn [cursor_x cursor_y size_x set_cursor color_fg color_bg].
    fold (at_cursor t s1). rewrite Eb. cbn [mbind res_bind]. eexists. split; [|split; [|split]].
    + unfold visible. rewrite filter_cons_True by done. done.
    + unfold write_char, type_char. fold s1. destruct (Z.eqb_spec c 8); [exact Hh3|]. destruct (Z.eqb_spec c 10), (Z.eqb_spec c 13); done.
    + eapply beside_trans; [exact Hon1|]. apply only_beside in Hon3. destruct Hon3 as [K1 K2 K3 K5 K6].
      assert (sx (write_char t c s) = sx s1 + 1 /\ sy (write_char t c s) = sy s1) as [Ex Ey].
      { unfold write_char, type_char. fold s1. destruct (Z.eqb_spec c 8), (Z.eqb_spec c 10), (Z.eqb_spec c 13); done. }
      split; try done. etrans; [exact K2|]. rewrite Ex, Ey. by destruct (vid =? _).
    + intros Hl _. by rewrite <- Hout1.
Qed.

Lemma write_loop_ok r text : nonul text -> forall w vid t s len, holds w vid t s ->
  exists w', write_loop w vid (text ++ 0 :: r) len = Ok (w', len + visible text) /\ holds w' vid t (type_text t text s) /\ beside w w' vid t (type_text t text s).
Proof.
  induction 1 as [|c text Hc Ht IH]; intros w vid t s len Hh.
  - exists w. split; [cbn; by rewrite Z.add_0_r|]. split; [done|]. eapply only_beside. by apply only_refl.
  - destruct (write_loop_step w vid t s c (text ++ 0 :: r) len Hh ltac:(lia)) as (w1 & E & Hh1 & Hb1 & _).
    destruct (IH w1 vid t _ (len + visible [c]) Hh1) as (w2 & E2 & Hh2 & Hb2). exists w2. cbn [app]. rewrite E, E2. split; [|split; [exact Hh2|by eapply beside_trans]].
    do 2 f_equal. change (c :: text) with ([c] ++ text). unfold visible. rewrite filter_app, zlen_app. lia.
Qed.

(** ** Text that stays on its line *)

Definition plain (c : Z) : Prop := c <> 10 /\ c <> 13.

Definition cells (t : tty) (text : list Z) : list tty_char := (fun c => cell c (color_fg t) (color_bg t)) <$> text.

Lemma write_plain t s c : plain c -> sx s < size_x t ->
  write_char t c s = mk_screen (put_at (fun _ => cell c (color_fg t) (color_bg t)) s) (sx s + 1) (sy s).
Proof.
  intros [H10 H13] Hlt. assert (wrap_line t s = s) as E by (unfold wrap_line; destruct (Z.geb_spec (sx s) (size_x t)); [lia|done]).
  unfold write_char, type_char. rewrite E. destruct (Z.eqb_spec c 8), (Z.eqb_spec c 10), (Z.eqb_spec c 13); done.
Qed.

Lemma type_line t text : Forall plain text -> forall s, screen_ok t s -> sx s + zlen text <= size_x t ->
  let s' := type_text t text s in
  concat (rows s') = splice (concat (rows s)) (at_cursor t s) (cells t text) /\ sx s' = sx s + zlen text /\ sy s' = sy s /\ screen_ok t s'.
Proof.
  induction 1 as [|c text Hc Hp IH]; intros s Hok Hx; [cbn; rewrite splice_nil, Z.add_0_r; done|].
  rewrite zlen_cons in *. pose proof (zlen_nonneg text). pose proof Hok as [Hsz _ _ Hx0 _]. cbn [type_text foldl]. rewrite write_plain by (done || lia).
  set (k := cell c (color_fg t) (color_bg t)). set (s1 := mk_screen _ _ _). assert (screen_ok t s1) as Hok1 by (apply put_at_ok; done || lia).
  destruct (IH s1 Hok1 ltac:(cbn; lia)) as (E1 & E2 & E3 & E4). unfold type_text in *. cbv zeta. rewrite E1, E2, E3. split; [|split; [cbn; lia|done]].
  assert (at_cursor t s1 = at_cursor t s + 1) as -> by (unfold at_cursor; cbn; lia). cbn [rows s1]. rewrite (put_at_cells t) by (done || lia).
  rewrite <- insert_const. pose proof (at_cursor_range t s Hok ltac:(lia)). pose proof (grid_cells t s Hok). apply splice_insert_cons. lia.
Qed.

Lemma visible_plain text : Forall plain text -> visible text = zlen text.
Proof.
  intros H. unfold visible. f_equal. induction H as [|c text Hc _ IH]; [done|]. rewrite filter_cons_True by exact Hc. by rewrite IH.
Qed.

(** The display is left alone while nothing scrolls. *)
Lemma write_loop_line r text : nonul text -> Forall plain text -> forall w vid t s len, holds w vid t s -> sx s + zlen text <= size_x t ->
  exists w', write_loop w vid (text ++ r) len = write_loop w' vid r (len + zlen text) /\ holds w' vid t (type_text t text s) /\
    beside w w' vid t (type_text t text s) /\ output w' = output w.
Proof.
  induction 1 as [|c text Hc Ht IH]; intros Hp w vid t s len Hh Hx.
  - exists w. split; [cbn; by rewrite Z.add_0_r|]. split; [done|]. split; [|done]. eapply only_beside. by apply only_refl.
  - apply Forall_cons in Hp as [Hpc Hp]. rewrite zlen_cons in *. pose proof (zlen_nonneg text).
    destruct (write_loop_step w vid t s c (text ++ r) len Hh ltac:(lia)) as (w1 & E & Hh1 & Hb1 & Ho1).
    rewrite write_plain in Hh1, Hb1 by (done || lia).
    destruct (IH Hp w1 vid t _ (len + 1) Hh1 ltac:(cbn; lia)) as (w2 & E2 & Hh2 & Hb2 & Ho2). exists w2. cbn [app]. rewrite E.
    assert (visible [c] = 1) as -> by (by apply visible_plain, Forall_singleton). rewrite E2. cbn [type_text foldl]. rewrite write_plain by (done || lia).
    split; [f_equal; lia|]. split; [done|]. split; [by eapply beside_trans|]. rewrite Ho2. apply Ho1; [lia|]. by destruct Hpc.
Qed.

Lemma splice_app_l {A} (p q xs : list A) off : 0 <= off -> off + zlen xs <= zlen p -> splice (p ++ q) off xs = splice p off xs ++ q.
Proof.
  unfold splice, zlen. intros. rewrite take_app_le by lia. rewrite drop_app_le by lia. by rewrite <- !app_assoc.
Qed.

Lemma take_splice {A} (m xs : list A) off n : 0 <= off -> off + zlen xs <= n -> n <= zlen m -> take (Z.to_nat n) (splice m off xs) = splice (take (Z.to_nat n) m) off xs.
Proof.
  intros Ho Hx Hn. rewrite <- (take_drop (Z.to_nat n) m) at 1. assert (zlen (take (Z.to_nat n) m) = n) as Hz by (unfold zlen in *; rewrite length_take; pose proof (zlen_nonneg xs); unfold zlen in *; lia).
  rewrite splice_app_l by lia. replace (Z.to_nat n) with (length (splice (take (Z.to_nat n) m) off xs)) at 1; [apply take_app_length|].
  pose proof (zlen_splice (take (Z.to_nat n) m) xs off Ho ltac:(lia)). unfold zlen in *. lia.
Qed.

Lemma slice_splice_after {A} (m xs : list A) off o n : 0 <= off -> off + zlen xs <= o -> off + zlen xs <= zlen m -> slice (splice m off xs) o n = slice m o n.
Proof.
  unfold slice, splice, zlen. intros. f_equal. rewrite !drop_app_ge by (rewrite ?length_take; lia). rewrite drop_drop. f_equal. rewrite length_take. lia.
Qed.

(** The end of [tty_write], after the loop. *)
Lemma write_end w1 vid t s1 start len : holds w1 vid t s1 -> 0 <= start -> 0 <= len -> start + len <= size_x t * size_y t ->
  exists w' tl, (if negb (vid =? tty_current w1) then Ok w1
     else t ← tty_at w1 vid; b ← buf_at w1 t; o ← copy_cells (output w1) start b start len; Ok (_tty_set_cursor_pos (set_output w1 o) (cursor_x t) (cursor_y t))) = Ok w' /\
    holds w' vid t s1 /\ beside w1 w' vid t s1 /\ bufs w' !! buffer t = Some (concat (rows s1) ++ tl) /\
    (vid = tty_current w1 -> output w' = splice (output w1) start (slice (concat (rows s1)) start len)).
Proof.
  intros Hh Hs Hl Hr. pose proof Hh as [Ht (tl & Hb) Hok Ho]. pose proof (grid_cells t s1 Hok) as Hg. destruct (Z.eqb_spec vid (tty_current w1)) as [E|E]; cbn [negb].
  - rewrite (tty_at_ok _ _ _ Ht). cbn [mbind res_bind]. unfold buf_at. cbn [buffer set_cursor]. rewrite Hb. cbn [res_of_option mbind res_bind]. pose proof (zlen_nonneg tl).
    rewrite copy_cells_ok by (rewrite ?zlen_app; lia). cbn [mbind res_bind].
    assert (slice (concat (rows s1) ++ tl) start len = slice (concat (rows s1)) start len) as ->.
    { unfold slice. rewrite drop_app_le by (unfold zlen in Hg; lia). rewrite take_app_le; [done|]. rewrite length_drop. unfold zlen in Hg. lia. }
    eexists _, tl. split; [done|]. split; [|split; [|split; [done|done]]].
    + apply holds_cursor. split; try done; [by exists tl|]. cbn. rewrite zlen_splice; rewrite ?zlen_slice; lia.
    + split; try done; [|by cbn; rewrite zlen_splice; rewrite ?zlen_slice; lia]. symmetry. apply list_insert_id. by apply get_Some in Ht as [_ Ht].
  - exists w1, tl. split; [done|]. split; [done|]. split; [|done]. eapply only_beside. by apply only_refl.
Qed.

Lemma at_cursor_nonneg t s : screen_ok t s -> 0 <= at_cursor t s.
Proof. intros [Hsz _ _ Hx Hy]. unfold at_cursor. assert (0 <= sy s * size_x t) by (apply Z.mul_nonneg_nonneg; lia). lia. Qed.

(** Writing text to a terminal leaves on its screen what the characters do one after the
    other, scrolling where the last line ends, and nothing on the others; the display changes for
    the current terminal only, and shows the text when it stays on its line. *)
Theorem tty_write_text w vid t s text r : holds w vid t s -> nonul text -> at_cursor t s + visible text <= size_x t * size_y t ->
  exists w', tty_write w vid (text ++ 0 :: r) = Ok w' /\ holds w' vid t (type_text t text s) /\ beside w w' vid t (type_text t text s) /\
    (vid = tty_current w -> Forall plain text -> sx s + zlen text <= size_x t -> in_sync w t s -> in_sync w' t (type_text t text s)).
Proof.
  intros Hh Hn Hroom. pose proof Hh as [Ht _ Hok Ho]. destruct (write_loop_ok r text Hn w vid t s 0 Hh) as (w1 & E1 & Hh1 & Hb1). unfold tty_write.
  rewrite (tty_at_ok _ _ _ Ht). cbn [mbind res_bind cursor_x cursor_y size_x set_cursor]. fold (at_cursor t s). rewrite E1. cbn [mbind res_bind]. rewrite Z.add_0_l.
  pose proof (at_cursor_nonneg t s Hok). assert (0 <= visible text) by apply zlen_nonneg.
  destruct (write_end w1 vid t _ (at_cursor t s) (visible text) Hh1) as (w' & tl & E & Hh' & Hb' & _ & Ho'); [lia|lia|lia|].
  exists w'. split; [exact E|]. split; [done|]. split; [by eapply beside_trans|]. intros Ev Hp Hx Hs.
  destruct (write_loop_line (0 :: r) text Hn Hp w vid t s 0 Hh Hx) as (w2 & E2 & _ & _ & Eo). rewrite E1 in E2. cbn in E2. injection E2 as <- _.
  destruct (type_line t text Hp s Hok Hx) as (Ec & _ & _ & Hok'). rewrite (visible_plain text Hp) in *. pose proof (grid_cells t s Hok) as Hg.
  unfold in_sync in *. rewrite Ho' by (rewrite (be_current _ _ _ _ _ Hb1); done). rewrite Eo, Ec.
  assert (zlen (cells t text) = zlen text) as Hz by (unfold cells, zlen; by rewrite length_fmap).
  rewrite slice_splice by lia. rewrite take_splice by lia. by rewrite Hs.
Qed.

(** A line feed in a text hides what follows it: only as many cells as there are characters
    are copied, from where the text began, so the next line of the display stays as it was. *)
Theorem tty_write_newline_hidden w vid t s a b r : holds w vid t s -> vid = tty_current w -> nonul a -> nonul b -> Forall plain a -> Forall plain b -> 0 < zlen b ->
  sx s + zlen a + zlen b <= size_x t -> sy s + 1 < size_y t ->
  let next := (sy s + 1) * size_x t in
  exists w' tl, tty_write w vid (a ++ 10 :: b ++ 0 :: r) = Ok w' /\
    bufs w' !! buffer t = Some (concat (rows (type_text t (a ++ 10 :: b) s)) ++ tl) /\
    slice (concat (rows (type_text t (a ++ 10 :: b) s))) next (zlen b) = cells t b /\
    slice (output w') next (size_x t) = slice (output w) next (size_x t).
Proof.
  intros Hh Ev Hna Hnb Hpa Hpb Hb0 Hx Hy next. pose proof Hh as [Ht _ Hok Ho]. pose proof Hok as [Hsz _ _ Hx0 Hy0]. pose proof (zlen_nonneg a).
  unfold tty_write. rewrite (tty_at_ok _ _ _ Ht). cbn [mbind res_bind cursor_x cursor_y size_x set_cursor]. fold (at_cursor t s).
  destruct (write_loop_line (10 :: b ++ 0 :: r) a Hna Hpa w vid t s 0 Hh ltac:(lia)) as (w1 & -> & Hh1 & Hb1 & Ho1).
  destruct (type_line t a Hpa s Hok ltac:(lia)) as (_ & Ex1 & Ey1 & Hok1). set (s1 := type_text t a s) in *.
  destruct (write_loop_step w1 vid t s1 10 (b ++ 0 :: r) (0 + zlen a) Hh1 ltac:(lia)) as (w2 & -> & Hh2 & Hb2 & Ho2).
  assert (write_char t 10 s1 = mk_screen (rows s1) 0 (sy s + 1)) as E10.
  { unfold write_char, type_char, wrap_line, next_line. cbn [Z.eqb Pos.eqb]. destruct (Z.geb_spec (sx s1) (size_x t)); [lia|].
    rewrite Ey1. by destruct (Z.ltb_spec (sy s + 1) (size_y t)); [|lia]. }
  rewrite E10 in *. set (s2 := mk_screen (rows s1) 0 (sy s + 1)) in *. pose proof Hh2 as [_ _ Hok2 _].
  destruct (write_loop_line (0 :: r) b Hnb Hpb w2 vid t s2 (0 + zlen a + visible [10]) Hh2 ltac:(cbn; lia)) as (w3 & -> & Hh3 & Hb3 & Ho3).
  destruct (type_line t b Hpb s2 Hok2 ltac:(cbn; lia)) as (Ec & Ex & Ey & Hok3). cbn [write_loop Z.eqb mbind res_bind].
  assert (type_text t (a ++ 10 :: b) s = type_text t b s2) as -> by (unfold type_text; rewrite foldl_app; cbn [foldl]; fold (type_text t a s); fold s1; by rewrite E10).
  change (visible [10]) with 0. replace (0 + zlen a + 0 + zlen b) with (zlen a + zlen b) by lia.
  assert (at_cursor t s2 = next) as En by (unfold at_cursor; cbn; lia). pose proof (at_cursor_nonneg t s Hok) as Hc0.
  assert (at_cursor t s + (zlen a + zlen b) <= next) as Hle by (unfold at_cursor, next; lia).
  assert (next + size_x t <= size_x t * size_y t) as Hnx.
  { unfold next. assert ((sy s + 1 + 1) * size_x t <= size_y t * size_x t) by (apply Z.mul_le_mono_nonneg_r; lia). lia. }
  pose proof (grid_cells t s2 Hok2) as Hg2. pose proof (grid_cells t _ Hok3) as Hg3.
  destruct (write_end w3 vid t _ (at_cursor t s) (zlen a + zlen b) Hh3) as (w' & tl & E & _ & _ & Hbuf & Ho'); [lia..|].
  assert (tty_current w3 = tty_current w) as Ec3 by (rewrite (be_current _ _ _ _ _ Hb3), (be_current _ _ _ _ _ Hb2); by apply (be_current _ _ _ _ _ Hb1)).
  exists w', tl. split; [exact E|]. split; [done|]. split.
  - rewrite Ec, En. assert (zlen (cells t b) = zlen b) as Hz by (unfold cells, zlen; by rewrite length_fmap). apply slice_splice; lia.
  - rewrite Ho' by congruence. rewrite Ho3, Ho2 by (done || lia). rewrite Ho1. apply slice_splice_after; [lia|..]; rewrite ?zlen_slice; lia.
Qed.

(** C24: a terminal is a grid: a character goes to the cursor, a full line goes on below, and past
    the last line the rows move up and a blank one follows.  The screens of the other terminals
    stay as they are, and the display goes on showing the current terminal, except for a
    backspace, which blanks a cell of the buffer only. *)
Theorem tty_putchar_types w vid t s c : holds w vid t s ->
  exists w', tty_putchar w vid c = Ok w' /\ holds w' vid t (type_char t c s) /\
    (forall v2 t2 s2, v2 <> vid -> buffer t2 <> buffer t -> holds w v2 t2 s2 -> holds w' v2 t2 s2) /\
    (vid = tty_current w -> c <> 8 -> in_sync w t s -> in_sync w' t (type_char t c s)) /\
    (vid <> tty_current w -> output w' = output w).
Proof.
  intros Hh. destruct (putchar_ok w vid t s c Hh) as (w' & E & Hh' & Hb & Hon). exists w'. split; [done|]. split; [done|].
  destruct Hh as [[Hv _]%get_Some _ _ _]. split; [intros; by eapply beside_holds|]. split; [|by apply (be_hidden _ _ _ _ _ Hb)].
  intros Ev H8. by apply (on_shown _ _ _ _ _ _ (Hon H8)).
Qed.

(** ** Clearing and switching *)

Definition clear_screen (t : tty) (s : screen) : screen := mk_screen (replicate (Z.to_nat (size_y t)) (blank_row t)) (sx s) (sy s).

Lemma concat_replicate {A} (x : A) n m : concat (replicate n (replicate m x)) = replicate (m * n) x.
Proof. induction n as [|n IH]; [by rewrite Nat.mul_0_r|]. cbn. rewrite IH, <- replicate_add. f_equal. lia. Qed.

Lemma clear_ok t s : screen_ok t s -> screen_ok t (clear_screen t s).
Proof.
  intros [Hsz Hr Hc Hx Hy]. split; try done; cbn.
  - unfold zlen. rewrite length_replicate. lia.
  - apply Forall_replicate. unfold blank_row, zlen. rewrite length_replicate. lia.
Qed.

Lemma tty_clear_ok w vid t s : holds w vid t s ->
  exists w1, tty_clear w vid = Ok w1 /\ holds w1 vid t (clear_screen t s) /\ (vid = tty_current w -> in_sync w1 t (clear_screen t s)) /\
    beside w w1 vid t (clear_screen t s).
Proof.
  intros Hh. pose proof Hh as [Ht (tl & Hb) Hok Ho]. pose proof Hok as [Hsz _ _ _ _]. pose proof (grid_cells t s Hok) as Hg. pose proof (clear_ok t s Hok) as Hok'.
  pose proof (grid_cells t _ Hok') as Hg'. unfold tty_clear. rewrite (tty_at_ok _ _ _ Ht). cbn [mbind res_bind]. unfold buf_at at 1. cbn [buffer set_cursor]. rewrite Hb.
  cbn [res_of_option mbind res_bind size_x size_y set_cursor]. pose proof (zlen_nonneg tl). assert (0 <= size_x t * size_y t) by (apply Z.mul_nonneg_nonneg; lia).
  rewrite fill_cells_ok by (rewrite ?zlen_app; lia). cbn [mbind res_bind].
  change (blank (set_cursor t (sx s) (sy s))) with (blank t).
  assert (splice (concat (rows s) ++ tl) 0 (replicate (Z.to_nat (size_x t * size_y t)) (blank t)) = concat (rows (clear_screen t s)) ++ tl) as ->.
  { cbn. unfold blank_row. rewrite concat_replicate, splice_0, length_replicate, Z2Nat.inj_mul by lia. f_equal.
    rewrite <- Z2Nat.inj_mul by lia. rewrite <- Hg. unfold zlen. rewrite Nat2Z.id. apply drop_app_length. }
  set (w0 := put_buf w _ _). assert (holds w0 vid t (clear_screen t s)) as Hh0 by (split; [done|exists tl; cbn; by rewrite lookup_insert_eq|done|done]).
  destruct (refresh_ok w0 vid t _ Hh0) as (o & -> & Hzo & Hsy & Hsame). exists (set_output w0 o). split; [done|]. split; [|split; [done|]].
  - destruct Hh0 as [K1 K2 K3 K4]. split; try done. cbn. by rewrite Hzo.
  - split; try done.
    + cbn. symmetry. apply list_insert_id. by apply get_Some in Ht as [_ Ht].
    + intros a Ha. cbn. by rewrite lookup_insert_ne.
Qed.

Lemma tty_switch_ok w vid t s : holds w vid t s ->
  exists w', tty_switch_to w vid = Ok w' /\ tty_current w' = vid /\ holds w' vid t s /\ in_sync w' t s /\
    ttys w' = ttys w /\ bufs w' = bufs w /\ zlen (output w') = zlen (output w).
Proof.
  intros Hh. pose proof Hh as [Ht (tl & Hb) Hok Ho]. pose proof Hok as [Hsz _ _ _ _]. pose proof (grid_cells t s Hok) as Hg.
  pose proof (zlen_nonneg tl). assert (0 <= size_x t * size_y t) by (apply Z.mul_nonneg_nonneg; lia).
  unfold tty_switch_to. set (w1 := mk_ttyw vid _ _ _ _). assert (get (ttys w1) vid = Some (set_cursor t (sx s) (sy s))) as Ht1 by done. rewrite (tty_at_ok _ _ _ Ht1). cbn [mbind res_bind].
  unfold buf_at. cbn [buffer set_cursor bufs w1]. rewrite Hb. cbn [res_of_option mbind res_bind output size_x size_y set_cursor].
  rewrite copy_cells_ok by (rewrite ?zlen_app; cbn [output w1]; lia). cbn [mbind res_bind]. eexists. split; [done|]. split; [done|].
  pose proof (in_sync_refresh w t s tl Hok Ho) as Hs2.
  assert (zlen (splice (output w) 0 (slice (concat (rows s) ++ tl) 0 (size_x t * size_y t))) = zlen (output w)) as Hzo.
  { rewrite zlen_splice; [done|lia|]. rewrite zlen_slice; rewrite ?zlen_app; lia. }
  split; [|split; [exact Hs2|by split_and!]]. apply holds_cursor. split; [done|by exists tl|done|]. cbn. by rewrite Hzo.
Qed.

(** Clearing blanks the screen and leaves the cursor; switching to a terminal shows its
    screen. *)
Theorem tty_clear_switch w vid t s : holds w vid t s ->
  exists w1 w2, tty_clear w vid = Ok w1 /\ holds w1 vid t (clear_screen t s) /\ (vid = tty_current w -> in_sync w1 t (clear_screen t s)) /\
    tty_switch_to w1 vid = Ok w2 /\ tty_current w2 = vid /\ holds w2 vid t (clear_screen t s) /\ in_sync w2 t (clear_screen t s).
Proof.
  intros Hh. destruct (tty_clear_ok w vid t s Hh) as (w1 & E1 & Hh1 & Hs1 & _). destruct (tty_switch_ok w1 vid t _ Hh1) as (w2 & E2 & Hc2 & Hh2 & Hs2 & _). by exists w1, w2.
Qed.

(** ** Any sequence of operations *)

Inductive tty_op := Putchar (vid c : Z) | Clear (vid : Z) | Color (vid ansi : Z) | SwitchTo (vid : Z).

Definition do_op (w : ttyw) (op : tty_op) : res ttyw :=
  match op with
  | Putchar vid c => tty_putchar w vid c
  | Clear vid => tty_clear w vid
  | Color vid ansi => tty_set_color_ansi w vid ansi
  | SwitchTo vid => tty_switch_to w vid
  end.

Fixpoint do_ops (w : ttyw) (ops : list tty_op) : res ttyw :=
  match ops with [] => Ok w | op :: ops => w ← do_op w op; do_ops w ops end.

Definition op_vid (op : tty_op) : Z := match op with Putchar vid _ | Clear vid | Color vid _ | SwitchTo vid => vid end.

(** Each terminal has a buffer of its own, its address being the number, with a screen. *)
Definition terminals_ok (w : ttyw) : Prop :=
  0 <= tty_current w < TTY_AMOUNT /\ forall i, 0 <= i < TTY_AMOUNT -> exists t s, holds w i t s /\ buffer t = i.

Lemma terminals_beside w w' vid t s' : terminals_ok w -> 0 <= vid < TTY_AMOUNT -> beside w w' vid t s' -> holds w' vid t s' -> buffer t = vid -> terminals_ok w'.
Proof.
  intros [Hc Hall] Hv Hb Hh Hbuf. split; [by rewrite (be_current _ _ _ _ _ Hb)|]. intros i Hi. destruct (decide (i = vid)) as [->|Hne]; [by exists t, s'|].
  destruct (Hall i Hi) as (t2 & s2 & Hh2 & Hb2). exists t2, s2. split; [|done]. eapply beside_holds; [exact Hb|lia|done|congruence|done].
Qed.

(** Another colour is another terminal with the same screen. *)
Lemma terminals_recolored w vid t s t' : terminals_ok w -> 0 <= vid < TTY_AMOUNT -> holds w vid t s -> buffer t = vid ->
  size_x t' = size_x t -> size_y t' = size_y t -> buffer t' = buffer t -> t' = set_cursor t' (sx s) (sy s) -> terminals_ok (put_tty w vid t').
Proof.
  intros [Hc Hall] Hv Hh Hbuf Ex Ey Eb Ec. split; [done|]. intros i Hi. destruct (decide (i = vid)) as [->|Hne].
  - exists t', s. split; [|congruence]. destruct Hh as [H1 H2 H3 H4]. split.
    + rewrite <- Ec. by eapply get_put_tty.
    + by rewrite Eb.
    + destruct H3 as [K1 K2 K3 K4 K5]. by split; rewrite ?Ex, ?Ey.
    + by rewrite Ex, Ey.
  - destruct (Hall i Hi) as (t2 & s2 & [K1 K2 K3 K4] & Hb2). exists t2, s2. split; [|done]. split; [|done..].
    apply get_Some in K1 as [Hp K1]. apply get_Some. split; [done|]. cbn. by rewrite list_lookup_insert_ne by lia.
Qed.

Lemma color_ok w vid ansi : terminals_ok w -> 0 <= vid < TTY_AMOUNT -> exists w', tty_set_color_ansi w vid ansi = Ok w' /\ terminals_ok w'.
Proof.
  intros Hw Hv. destruct (proj2 Hw vid Hv) as (t & s & Hh & Hb). unfold tty_set_color_ansi. rewrite (tty_at_ok _ _ _ (h_tty _ _ _ _ Hh)). cbn [mbind res_bind].
  assert (forall i, 0 <= i < 16 -> exists c, get ansi_to_vga i = Some c) as Hpick by (intros i Hi; apply get_in_range; done).
  set (tc := set_cursor t (sx s) (sy s)).
  assert (forall i (f : Z -> tty), 0 <= i < 16 -> (forall c, size_x (f c) = size_x t /\ size_y (f c) = size_y t /\ buffer (f c) = buffer t /\ f c = set_cursor (f c) (sx s) (sy s)) ->
    exists w', (c ← res_of_option (get ansi_to_vga i); Ok (put_tty w vid (f c))) = Ok w' /\ terminals_ok w') as Hset.
  { intros i f Hi Hf. destruct (Hpick i Hi) as [c ->]. cbn [res_of_option mbind res_bind]. eexists. split; [done|]. destruct (Hf c) as (E1 & E2 & E3 & E4). by eapply terminals_recolored. }
  destruct ((ansi >=? 30) && (ansi <=? 37)) eqn:E1; [apply Hset; [lia|by intros]|]. destruct ((ansi >=? 40) && (ansi <=? 47)) eqn:E2; [apply Hset; [lia|by intros]|].
  destruct ((ansi >=? 90) && (ansi <=? 97)) eqn:E3; [apply Hset; [lia|by intros]|]. destruct ((ansi >=? 100) && (ansi <=? 107)) eqn:E4; [apply Hset; [lia|by intros]|]. by exists w.
Qed.

(** C25: characters, clearing, colours and switching, in any order and on any of the terminals,
    never touch memory outside of the screens: each terminal keeps a screen of its own with the
    cursor inside. *)
Theorem terminals_stay_ok ops : forall w, terminals_ok w -> Forall (fun op => 0 <= op_vid op < TTY_AMOUNT) ops ->
  exists w', do_ops w ops = Ok w' /\ terminals_ok w'.
Proof.
  induction ops as [|op ops IH]; intros w Hw Hops; [by exists w|]. apply Forall_cons in Hops as [Hv Hops]. cbn [do_ops].
  assert (exists w1, do_op w op = Ok w1 /\ terminals_ok w1) as (w1 & -> & Hw1); [|by apply IH].
  destruct (proj2 Hw _ Hv) as (t & s & Hh & Hb). destruct op as [vid c|vid|vid ansi|vid]; cbn [do_op op_vid] in *.
  - destruct (putchar_ok w vid t s c Hh) as (w1 & E & Hh1 & Hb1 & _). exists w1. split; [done|]. by eapply terminals_beside.
  - destruct (tty_clear_ok w vid t s Hh) as (w1 & E & Hh1 & _ & Hb1). exists w1. split; [done|]. by eapply terminals_beside.
  - by apply color_ok.
  - destruct (tty_switch_ok w vid t s Hh) as (w1 & E & Hc & _ & _ & Et & Ebf & Ez). exists w1. split; [done|]. split; [by rewrite Hc|]. intros i Hi.
    destruct (proj2 Hw i Hi) as (t2 & s2 & [K1 K2 K3 K4] & Hb2). exists t2, s2. split; [|done]. split; rewrite ?Et, ?Ebf, ?Ez; done.
Qed.

(** ** At boot *)

Definition boot_tty (i : Z) : tty := mk_tty 0 0 80 25 15 0 i.
Definition boot_screen (i : Z) : screen :=
  mk_screen (replicate 25 (replicate 80 (if i =? 0 then mk_tty_char 0 0 0 else blank (boot_tty i)))) 0 0.

Lemma boot_ok vga : 2000 <= zlen vga ->
  exists w, tty_init_post (tty_init vga) = Ok w /\ tty_current w = 0 /\ output w = vga /\
    forall i, 0 <= i < TTY_AMOUNT -> holds w i (boot_tty i) (boot_screen i).
Proof.
  intros Hv. eexists. split; [vm_compute; reflexivity|]. split; [reflexivity|]. split; [reflexivity|]. intros i Hi.
  assert (i = 0 \/ i = 1 \/ i = 2 \/ i = 3 \/ i = 4 \/ i = 5) as Hc by (unfold TTY_AMOUNT in Hi; lia).
  assert (screen_ok (boot_tty i) (boot_screen i)) as Hok.
  { split; [done|done| |cbn; lia|cbn; lia]. apply Forall_replicate. unfold zlen. by rewrite length_replicate. }
  assert (size_x (boot_tty i) * size_y (boot_tty i) <= zlen vga) as Ho by (cbn; lia).
  destruct Hc as [->|[->|[->|[->|[->| ->]]]]]; (split; [reflexivity| |exact Hok|exact Ho]).
  all: eexists; vm_compute; reflexivity.
Qed.

(** After boot every terminal has a buffer of its own with a blank screen, and the first one
    is current. *)
Theorem tty_boot vga : 2000 <= zlen vga ->
  exists w, tty_init_post (tty_init vga) = Ok w /\ tty_current w = 0 /\ output w = vga /\
    forall i, 0 <= i < TTY_AMOUNT -> holds w i (boot_tty i) (boot_screen i).
Proof. apply boot_ok. Qed.

(** ** A small terminal *)
Module TtyDemo.
Definition t0 : tty := mk_tty 0 0 4 2 7 0 0.
Definition s0 : screen := mk_screen (replicate 2 (replicate 4 (blank t0))) 2 0.
Definition s1 : screen := mk_screen (replicate 2 (replicate 4 (blank t0))) 4 1.
(** The cursor at column 2 of the first line, and past the end of the last one. *)
Definition w0 : ttyw := mk_ttyw 0 [set_cursor t0 2 0] {[0 := replicate 8 (blank t0)]} (replicate 8 (blank t0)) 0.
Definition w1 : ttyw := mk_ttyw 0 [set_cursor t0 4 1] {[0 := replicate 8 (blank t0)]} (replicate 8 (blank t0)) 0.

Lemma demo_holds s w : s = s0 /\ w = w0 \/ s = s1 /\ w = w1 -> holds w 0 t0 s.
Proof. intros [[-> ->]|[-> ->]]; (split; [reflexivity|exists []; reflexivity| |done]; split; try done; repeat constructor). Qed.
End TtyDemo.

Lemma tty_putchar_types_witness :
  exists w', tty_putchar TtyDemo.w1 0 65 = Ok w' /\ holds w' 0 TtyDemo.t0 (type_char TtyDemo.t0 65 TtyDemo.s1) /\
    sx (type_char TtyDemo.t0 65 TtyDemo.s1) = 1 /\ sy (type_char TtyDemo.t0 65 TtyDemo.s1) = 1.
Proof.
  destruct (tty_putchar_types TtyDemo.w1 0 TtyDemo.t0 TtyDemo.s1 65 ltac:(apply TtyDemo.demo_holds; auto)) as (w' & E & Hh & _).
  exists w'. split; [exact E|]. split; [exact Hh|]. by split.
Defined.

Lemma tty_write_text_witness :
  exists w', tty_write TtyDemo.w0 0 (bytes "ab" ++ [0]) = Ok w' /\ in_sync w' TtyDemo.t0 (type_text TtyDemo.t0 (bytes "ab") TtyDemo.s0).
Proof.
  destruct (tty_write_text TtyDemo.w0 0 TtyDemo.t0 TtyDemo.s0 (bytes "ab") [] ltac:(apply TtyDemo.demo_holds; auto) ltac:(by repeat constructor) ltac:(by vm_compute))
    as (w' & E & _ & _ & Hs).
  exists w'. split; [exact E|]. apply Hs; [done|by repeat constructor|by vm_compute|by vm_compute].
Defined.

Lemma tty_write_newline_hidden_witness :
  exists w' tl, tty_write TtyDemo.w0 0 ([97; 10; 98] ++ [0]) = Ok w' /\
    bufs w' !! 0 = Some (concat (rows (type_text TtyDemo.t0 [97; 10; 98] TtyDemo.s0)) ++ tl) /\
    slice (concat (rows (type_text TtyDemo.t0 [97; 10; 98] TtyDemo.s0))) 4 1 = cells TtyDemo.t0 [98] /\
    slice (output w') 4 4 = replicate 4 (blank TtyDemo.t0).
Proof.
  destruct (tty_write_newline_hidden TtyDemo.w0 0 TtyDemo.t0 TtyDemo.s0 [97] [98] []) as (w' & tl & E & Hb & Hc & Ho);
    [apply TtyDemo.demo_holds; auto|done|by repeat constructor|by repeat constructor|by repeat constructor|by repeat constructor|by vm_compute|by vm_compute|by vm_compute|].
  exists w', tl. split; [exact E|]. split; [exact Hb|]. split; [exact Hc|]. exact Ho.
Defined.

Lemma tty_clear_switch_witness :
  exists w1 w2, tty_clear TtyDemo.w0 0 = Ok w1 /\ tty_switch_to w1 0 = Ok w2 /\ in_sync w2 TtyDemo.t0 (clear_screen TtyDemo.t0 TtyDemo.s0).
Proof.
  destruct (tty_clear_switch TtyDemo.w0 0 TtyDemo.t0 TtyDemo.s0 ltac:(apply TtyDemo.demo_holds; auto)) as (w1 & w2 & E1 & _ & _ & E2 & _ & _ & Hs).
  exists w1, w2. exact (conj E1 (conj E2 Hs)).
Defined.

Lemma tty_boot_witness :
  exists w, tty_init_post (tty_init (replicate 2000 (mk_tty_char 0 0 0))) = Ok w /\ tty_current w = 0.
Proof.
  destruct (tty_boot (replicate 2000 (mk_tty_char 0 0 0)) ltac:(by vm_compute)) as (w & E & Hc & _).
  exists w. exact (conj E Hc).
Defined.

Lemma terminals_stay_ok_witness : exists w w', tty_init_post (tty_init (replicate 2000 (mk_tty_char 0 0 0))) = Ok w /\
  do_ops w [Putchar 2 65; Color 2 31; Putchar 2 10; SwitchTo 2; Clear 0] = Ok w' /\ terminals_ok w'.
Proof.
  destruct (boot_ok (replicate 2000 (mk_tty_char 0 0 0)) ltac:(done)) as (w & E & Ec & _ & Hh).
  assert (terminals_ok w) as Hw by (split; [rewrite Ec; unfold TTY_AMOUNT; lia|intros i Hi; exists (boot_tty i), (boot_screen i); by split; [apply Hh|]]).
  destruct (terminals_stay_ok [Putchar 2 65; Color 2 31; Putchar 2 10; SwitchTo 2; Clear 0] w Hw) as (w' & E' & Hw').
  - repeat constructor; unfold TTY_AMOUNT; cbn; lia.
  - exists w, w'. exact (conj E (conj E' Hw')).
Defined.
