(* ===== verification/Input.v ===== *)
(** * The keyboard: dev/input.c, and the keys sys/sys.c acts on

    Key events go through a ring buffer of bytes (CBuf.v), two for a key: the modifiers and the
    code.  [screen] is the terminals' state, which Ctrl+Alt with a function key switches;
    [shutdown_asked] is set where [sys_sysrq] calls [shutdown].  The static [sysrq] of
    [append_key_event] is a field.  [input_event] and the spinlock leave no trace. *)
From S2P Require Import Prelude Strings CBuf Tty.

Definition INPUT_SHIFT_FLAG : Z := 1.
Definition INPUT_CONTROL_FLAG : Z := 2.
Definition INPUT_ALT_FLAG : Z := 4.

Record input := mk_input {
  input_kb_cbufm : Cbufm.cbufm; pressed_keys : list bool; prscnt : Z; input_flags : Z;
  sysrq : bool; screen : ttyw; shutdown_asked : bool }.

Definition set_kb (s : input) x := mk_input x (pressed_keys s) (prscnt s) (input_flags s) (sysrq s) (screen s) (shutdown_asked s).
Definition set_flags (s : input) x := mk_input (input_kb_cbufm s) (pressed_keys s) (prscnt s) x (sysrq s) (screen s) (shutdown_asked s).
Definition set_sysrq (s : input) x := mk_input (input_kb_cbufm s) (pressed_keys s) (prscnt s) (input_flags s) x (screen s) (shutdown_asked s).
Definition set_screen (s : input) x := mk_input (input_kb_cbufm s) (pressed_keys s) (prscnt s) (input_flags s) (sysrq s) x (shutdown_asked s).
(** [prscnt = n; pressed_keys[key] = b;] *)
Definition set_pressed (s : input) (n key : Z) (b : bool) : input :=
  mk_input (input_kb_cbufm s) (<[Z.to_nat key := b]> (pressed_keys s)) n (input_flags s) (sysrq s) (screen s) (shutdown_asked s).

(** The layout, plain and with shift. *)
Definition def_keymap : list Z :=
  [0; 0; 47; 42; 45; 43; 13; 127; 8; 9; 0; 0; 0; 13; 14; 15;
   0; 0; 0; 0; 0; 0; 0; 0; 0; 0; 0; 0; 0; 0; 0; 0;
   32; 0; 0; 0; 0; 0; 0; 39; 0; 0; 0; 0; 44; 45; 46; 47;
   48; 49; 50; 51; 52; 53; 54; 55; 56; 57; 0; 0; 0; 61; 0; 0;
   0; 97; 98; 99; 100; 101; 102; 103; 104; 105; 106; 107; 108; 109; 110; 111;
   112; 113; 114; 115; 116; 117; 118; 119; 120; 121; 122; 91; 0; 93; 0; 0;
   96; 0; 0; 0; 0; 0; 0; 0; 0; 0; 0; 0; 0; 0; 0; 0] ++ replicate 144 0 ++
  [0; 0; 47; 42; 45; 43; 13; 127; 8; 9; 0; 0; 0; 13; 14; 15;
   0; 0; 0; 0; 0; 0; 0; 0; 0; 0; 0; 0; 0; 0; 0; 0;
   32; 0; 0; 0; 0; 0; 0; 34; 0; 0; 0; 0; 60; 95; 62; 63;
   41; 33; 64; 35; 36; 37; 94; 38; 42; 40; 0; 0; 0; 43; 0; 0;
   0; 65; 66; 67; 68; 69; 70; 71; 72; 73; 74; 75; 76; 77; 78; 79;
   80; 81; 82; 83; 84; 85; 86; 87; 88; 89; 90; 123; 0; 125; 0; 0;
   126; 0; 0; 0; 0; 0; 0; 0; 0; 0; 0; 0; 0; 0; 0; 0] ++ replicate 656 0.

(** [input_init] with the terminals as they are; the ring's bytes are a fresh heap object. *)
Definition input_init (w : ttyw) : input :=
  mk_input (Cbufm.cbufm_create (replicate 512 0) 512) (replicate 256 false) 0 0 false w false.

(** [sys_funckey], [sys_sysrq] *)
Definition sys_funckey (s : input) (key : Z) : res input :=
  let tty := key - 106 in
  if tty >=? TTY_AMOUNT then Ok s else w ← tty_switch_to (screen s) tty; Ok (set_screen s w).

Definition sys_sysrq (s : input) (key : Z) : input :=
  if key =? 83 then mk_input (input_kb_cbufm s) (pressed_keys s) (prscnt s) (input_flags s) (sysrq s) (screen s) true else s.

Definition flag (s : input) (f : Z) : bool := negb (Z.land (input_flags s) f =? 0).

Definition append_key_event (s : input) (key : Z) : res input :=
  if sysrq s then Ok (set_sysrq (sys_sysrq s key) false)
  else if (key =? 117) && flag s INPUT_CONTROL_FLAG && flag s INPUT_ALT_FLAG then Ok (set_sysrq s true)
  else if (key >=? 106) && (key <=? 113) && flag s INPUT_CONTROL_FLAG && flag s INPUT_ALT_FLAG then sys_funckey s key
  else
    '(c, _) ← Cbufm.cbufm_write 1 (input_kb_cbufm s) [input_flags s];
    '(c, _) ← Cbufm.cbufm_write 1 c [key];
    Ok (set_kb s c).

(** The modifier a key stands for, if it does. *)
Definition modifier (key : Z) : option Z :=
  if (key =? 14) || (key =? 15) then Some INPUT_SHIFT_FLAG
  else if key =? 23 then Some INPUT_ALT_FLAG
  else if key =? 24 then Some (Z.lor INPUT_ALT_FLAG INPUT_CONTROL_FLAG)
  else if (key =? 21) || (key =? 27) then Some INPUT_CONTROL_FLAG
  else None.

Definition input_kb_press (s : input) (key : Z) : res input :=
  match modifier key with
  | Some m => Ok (set_flags s (Z.lor (input_flags s) m))
  | None =>
      p ← res_of_option (get (pressed_keys s) key);
      s ← (if negb p then append_key_event s key else Ok s);
      Ok (set_pressed s 0 key true)
  end.

Definition input_kb_release (s : input) (key : Z) : res input :=
  match modifier key with
  | Some m => Ok (set_flags s (Z.land (input_flags s) (255 - m)))
  | None => p ← res_of_option (get (pressed_keys s) key); Ok (set_pressed s 0 key false)
  end.

(** The keys that are down, from [i] on: one round of [input_loop] repeats them. *)
Fixpoint repeat_keys (n : nat) (i : Z) (s : input) : res input :=
  match n with
  | O => Ok s
  | S n' =>
      p ← res_of_option (get (pressed_keys s) i);
      s ← (if p : bool then append_key_event s i else Ok s);
      repeat_keys n' (i + 1) s
  end.

Definition input_tick (s : input) : res input :=
  let s := mk_input (input_kb_cbufm s) (pressed_keys s) (s32 (prscnt s + 1)) (input_flags s) (sysrq s) (screen s) (shutdown_asked s) in
  if prscnt s <? 10 then Ok s else repeat_keys 256 0 s.

Definition input_fetch_keymap (keymap : list Z) : res (list Z) := memcpy keymap 0 def_keymap 0 1024.

(** A read of one byte; one that has to wait does not return here. *)
Definition read_byte (c : Cbufm.cbufm) (start : Z) : res (Z * Z) :=
  o ← Cbufm.cbufm_read 1 c [] start 1;
  match o with Cbufm.Done [b] st => Ok (b, st) | _ => OutOfFuel end.

(** The key, the modifiers (the caller's if there is no key) and the new position. *)
Definition input_kb_get (s : input) (modifiers last : Z) : res (Z * Z * Z) :=
  if Cbufm.cbufm_available (input_kb_cbufm s) last <? 2 then Ok (0, modifiers, last)
  else
    '(m, _) ← read_byte (input_kb_cbufm s) last;
    '(k, ret) ← read_byte (input_kb_cbufm s) (u64 (last + 1));
    Ok (k, m, ret).

Definition input_kb_available (s : input) (last : Z) : Z := u32 (Cbufm.cbufm_available (input_kb_cbufm s) last / 2).

Definition input_kb_sync (s : input) : Z := Cbufm.cbufm_sync (input_kb_cbufm s).

(** ** The queue of keys *)

Definition event_bytes (evs : list (Z * Z)) : list Z := evs ≫= fun '(m, k) => [m; k].

Lemma zlen_event_bytes evs : zlen (event_bytes evs) = 2 * zlen evs.
Proof. induction evs as [|[m k] evs IH]; [done|]. cbn [event_bytes mbind list_bind]. rewrite zlen_app. fold (event_bytes evs). rewrite IH. change (zlen [m; k]) with 2. rewrite zlen_cons. lia. Qed.

(** A reader at [last] has the keys [evs] before it. *)
Record pending (s : input) (last : Z) (evs : list (Z * Z)) : Prop := {
  pe_wf : Cbufm.wf (input_kb_cbufm s);
  pe_size : Cbufm.size (input_kb_cbufm s) = 512;
  pe_last : 0 <= last < 512;
  pe_even : last mod 2 = 0;
  pe_dist : Cbufm.dist (input_kb_cbufm s) last = 2 * zlen evs;
  pe_bytes : ring_at 0 (Cbufm.buffer (input_kb_cbufm s)) last (length (event_bytes evs)) = event_bytes evs }.

Lemma write_dist c last n : Cbufm.wf c -> 0 <= last < Cbufm.size c -> Cbufm.dist c last = n -> Cbufm.write_ptr c = (last + n) mod Cbufm.size c.
Proof.
  intros (Hs & _ & Hw) Hl <-. unfold Cbufm.dist. rewrite Zplus_mod_idemp_r. replace (last + (Cbufm.write_ptr c - last)) with (Cbufm.write_ptr c) by lia.
  by rewrite Z.mod_small by lia.
Qed.

(** One byte more in the ring. *)
Lemma write_byte_ok c b last bs : Cbufm.wf c -> 0 <= last < Cbufm.size c -> Cbufm.dist c last = zlen bs -> zlen bs + 1 < Cbufm.size c ->
  ring_at 0 (Cbufm.buffer c) last (length bs) = bs ->
  exists c', Cbufm.cbufm_write 1 c [b] = Ok (c', Cbufm.write_ptr c') /\ Cbufm.wf c' /\ Cbufm.size c' = Cbufm.size c /\
    Cbufm.dist c' last = zlen bs + 1 /\ ring_at 0 (Cbufm.buffer c') last (length (bs ++ [b])) = bs ++ [b].
Proof.
  intros Hwf Hl Hd Hs Hr. pose proof Hwf as (Hsz & _ & _). pose proof (zlen_nonneg bs). destruct (Cbufm.write_ok 1 c [b] Hwf ltac:(simpl; lia)) as (c' & E & Hwf' & Hsize & Hwp & Hring).
  exists c'. split_and!; try done.
  - unfold Cbufm.dist in *. rewrite Hwp, Hsize, Zminus_mod_idemp_l. change (zlen [b]) with 1. replace (Cbufm.write_ptr c + 1 - last) with (Cbufm.write_ptr c - last + 1) by lia.
    rewrite <- Zplus_mod_idemp_l, Hd. apply Z.mod_small. lia.
  - rewrite length_app. change (length [b]) with (length [b]). rewrite (Hring last (length bs)); [by rewrite Hr| |change (zlen [b]) with 1; unfold zlen in *; lia].
    by apply write_dist.
Qed.

(** Keys that are not taken for a command. *)
Definition ordinary (s : input) (key : Z) : Prop :=
  modifier key = None /\ (flag s INPUT_CONTROL_FLAG && flag s INPUT_ALT_FLAG = false \/ key < 106 \/ 113 < key /\ key <> 117).

Lemma append_ok s key last evs : sysrq s = false -> ordinary s key -> pending s last evs -> zlen evs < 255 ->
  exists c, append_key_event s key = Ok (set_kb s c) /\ pending (set_kb s c) last (evs ++ [(input_flags s, key)]).
Proof.
  intros Hq [_ Hord] [Hwf Hsz Hl He Hd Hb] Hn. unfold append_key_event. rewrite Hq.
  assert ((key =? 117) && flag s INPUT_CONTROL_FLAG && flag s INPUT_ALT_FLAG = false) as ->.
  { rewrite <- andb_assoc. destruct Hord as [->|Hk]; [by rewrite andb_false_r|]. by destruct (Z.eqb_spec key 117); [lia|]. }
  assert ((key >=? 106) && (key <=? 113) && flag s INPUT_CONTROL_FLAG && flag s INPUT_ALT_FLAG = false) as ->.
  { rewrite <- !andb_assoc. destruct Hord as [->|Hk]; [by rewrite !andb_false_r|]. destruct (Z.geb_spec key 106), (Z.leb_spec key 113); done || lia. }
  rewrite <- zlen_event_bytes in Hd. pose proof (zlen_event_bytes evs) as Hz.
  destruct (write_byte_ok _ (input_flags s) last (event_bytes evs) Hwf ltac:(lia) Hd ltac:(lia) Hb) as (c1 & -> & Hwf1 & Hsz1 & Hd1 & Hb1). cbn [mbind res_bind].
  rewrite Hsz in Hsz1. assert (zlen (event_bytes evs ++ [input_flags s]) = zlen (event_bytes evs) + 1) as Hz1 by (by rewrite zlen_app).
  destruct (write_byte_ok c1 key last (event_bytes evs ++ [input_flags s]) Hwf1 ltac:(lia) ltac:(lia) ltac:(lia) Hb1) as (c2 & -> & Hwf2 & Hsz2 & Hd2 & Hb2). cbn [mbind res_bind].
  exists c2. split; [done|]. assert (event_bytes (evs ++ [(input_flags s, key)]) = (event_bytes evs ++ [input_flags s]) ++ [key]) as E.
  { unfold event_bytes. rewrite bind_app. cbn. by rewrite <- app_assoc. }
  split; cbn [input_kb_cbufm set_kb]; try done.
  - congruence.
  - rewrite Hd2, Hz1, Hz, zlen_app. change (zlen [(input_flags s, key)]) with 1. lia.
  - by rewrite E.
Qed.

Lemma read_byte_ok c start b n : Cbufm.wf c -> 0 <= start < Cbufm.size c -> 1 <= Cbufm.dist c start ->
  ring_at 0 (Cbufm.buffer c) start (S n) = b :: ring_at 0 (Cbufm.buffer c) (start + 1) n ->
  read_byte c start = Ok (b, (start + 1) mod Cbufm.size c).
Proof.
  intros Hwf Hs Hd Hr. unfold read_byte. rewrite Cbufm.read_ok by (done || lia). cbn [mbind res_bind app]. change (Z.to_nat 1) with 1%nat. cbn [ring_at] in *. by injection Hr as ->.
Qed.

Lemma get_ok s last m k evs m0 : pending s last ((m, k) :: evs) ->
  exists last', input_kb_get s m0 last = Ok (k, m, last') /\ pending s last' evs.
Proof.
  intros [Hwf Hsz Hl He Hd Hb]. rewrite zlen_cons in Hd. pose proof (zlen_nonneg evs). unfold input_kb_get. set (c := input_kb_cbufm s) in *.
  rewrite Cbufm.available_dist by (done || lia). destruct (Z.ltb_spec (Cbufm.dist c last) 2); [lia|].
  cbn [event_bytes mbind list_bind app length ring_at] in Hb. injection Hb as Hm Hk Hb.
  assert (zlen (Cbufm.buffer c) = 512) as Hbl by (destruct Hwf as (_ & -> & _); done). rewrite Hbl in *.
  pose proof (Z.div_mod last 2). assert (last + 1 < 512) as Hlt by lia.
  assert (Cbufm.dist c (last + 1) = 2 * zlen evs + 1) as Hd1.
  { pose proof Hd as Hd'. rewrite Cbufm.dist_cases in Hd' by (done || lia). rewrite Cbufm.dist_cases by (done || lia). destruct (Z.ltb_spec (Cbufm.write_ptr c) last), (Z.ltb_spec (Cbufm.write_ptr c) (last + 1)); lia. }
  rewrite (read_byte_ok c last m 0) by (done || lia || (cbn; by rewrite Hbl, Hm)). cbn [mbind res_bind]. rewrite u64_small by lia.
  rewrite (read_byte_ok c (last + 1) k 0) by (done || lia || (cbn; by rewrite Hbl, Hk)). cbn [mbind res_bind]. rewrite Hsz. eexists. split; [done|].
  pose proof (Z.mod_pos_bound (last + 1 + 1) 512 ltac:(lia)). split; fold c; try done.
  - destruct (decide (last + 2 = 512)) as [E|E]; [by replace (last + 1 + 1) with 512 by lia|]. rewrite (Z.mod_small (last + 1 + 1) 512) by lia. replace (last + 1 + 1) with (last + 1 * 2) by lia.
    by rewrite Z.mod_add by lia.
  - unfold Cbufm.dist in *. rewrite Hsz in *. rewrite Zminus_mod_idemp_r. replace (Cbufm.write_ptr c - (last + 1 + 1)) with (Cbufm.write_ptr c - last - 2) by lia.
    pose proof (Z.mod_pos_bound (Cbufm.write_ptr c - last) 512 ltac:(lia)). rewrite <- Zminus_mod_idemp_l, Hd, Z.mod_small by lia. lia.
  - rewrite <- Hb at 2. apply ring_at_mod. rewrite Hbl. rewrite Z.mod_mod by lia. done.
Qed.

Lemma get_none s last m0 : pending s last [] -> input_kb_get s m0 last = Ok (0, m0, last).
Proof.
  intros [Hwf Hsz Hl He Hd Hb]. unfold input_kb_get. rewrite Cbufm.available_dist by (done || lia). by rewrite Hd.
Qed.

(** Presses one after the other; the keys read back. *)
Fixpoint press_all (s : input) (ks : list Z) : res input :=
  match ks with [] => Ok s | k :: ks => s ← input_kb_press s k; press_all s ks end.

Fixpoint get_all (n : nat) (s : input) (last : Z) : res (list (Z * Z) * Z) :=
  match n with
  | O => Ok ([], last)
  | S n => '(k, m, last) ← input_kb_get s 0 last; '(l, last) ← get_all n s last; Ok ((m, k) :: l, last)
  end.

Lemma get_all_ok s evs : forall last, pending s last evs -> exists last', get_all (length evs) s last = Ok (evs, last') /\ pending s last' [].
Proof.
  induction evs as [|[m k] evs IH]; intros last Hp; [by exists last|]. destruct (get_ok s last m k evs 0 Hp) as (l1 & E1 & Hp1).
  destruct (IH l1 Hp1) as (l2 & E2 & Hp2). exists l2. cbn [length get_all]. rewrite E1. cbn [mbind res_bind]. rewrite E2. done.
Qed.

Lemma press_ok s last evs key : sysrq s = false -> ordinary s key -> 0 <= key < 256 -> get (pressed_keys s) key = Some false -> pending s last evs -> zlen evs < 255 ->
  exists s', input_kb_press s key = Ok s' /\ pending s' last (evs ++ [(input_flags s, key)]) /\
    pressed_keys s' = <[Z.to_nat key := true]> (pressed_keys s) /\ input_flags s' = input_flags s /\ sysrq s' = false.
Proof.
  intros Hq Ho Hk Hup Hp Hn. destruct (append_ok s key last evs Hq Ho Hp Hn) as (c & E & [P1 P2 P3 P4 P5 P6]). destruct (Ho) as [Hm _]. unfold input_kb_press. rewrite Hm, Hup.
  cbn [res_of_option mbind res_bind negb]. rewrite E. cbn [mbind res_bind]. eexists. split; [done|]. split; [by split|]. done.
Qed.

(** Keys come out of the queue in the order they were pressed, each with the modifiers of the
    moment, as long as fewer than 256 wait. *)
Theorem input_keys_in_order s last evs ks : sysrq s = false -> pending s last evs -> zlen evs + zlen ks < 256 -> NoDup ks ->
  Forall (fun k => 0 <= k < 256 /\ ordinary s k /\ get (pressed_keys s) k = Some false) ks ->
  let all := evs ++ ((fun k => (input_flags s, k)) <$> ks) in
  exists s' last', press_all s ks = Ok s' /\ get_all (length all) s' last = Ok (all, last') /\ input_kb_get s' 0 last' = Ok (0, 0, last').
Proof.
  intros Hq Hp Hn Hnd Hks all.
  assert (exists s', press_all s ks = Ok s' /\ pending s' last all) as (s' & E & Hp').
  { unfold all. clear all. revert s evs Hq Hp Hn Hks. induction Hnd as [|k ks Hk Hnd IH]; intros s evs Hq Hp Hn Hks; [exists s; by rewrite app_nil_r|].
    apply Forall_cons in Hks as [(Hr & Ho & Hup) Hks]. rewrite zlen_cons in Hn. pose proof (zlen_nonneg ks).
    destruct (press_ok s last evs k Hq Ho Hr Hup Hp ltac:(lia)) as (s1 & E1 & Hp1 & Epk & Ef & Hq1).
    destruct (IH s1 _ Hq1 Hp1) as (s2 & E2 & Hp2).
    - rewrite zlen_app. change (zlen [(input_flags s, k)]) with 1. lia.
    - eapply Forall_impl; [apply Forall_and; split; [exact Hks|]; apply Forall_forall; intros x Hx; exact Hx|]. cbv beta. intros x [(Hx & Hox & Hupx) Hin]. split; [done|]. split.
      + unfold ordinary, flag in *. by rewrite Ef.
      + rewrite Epk. apply get_Some in Hupx as [? Hupx]. apply get_Some. split; [done|]. rewrite list_lookup_insert_ne; [done|]. intros E. apply Hk. by replace k with x by lia.
    - exists s2. cbn [press_all]. rewrite E1. cbn [mbind res_bind]. rewrite E2. split; [done|]. rewrite Ef in Hp2. cbn [fmap list_fmap]. by rewrite <- app_assoc in Hp2. }
  destruct (get_all_ok s' all last Hp') as (last' & Eg & He). exists s', last'. split; [done|]. split; [done|]. by apply get_none.
Qed.

Lemma input_keys_in_order_witness :
  exists s' last', press_all (input_init (tty_init [])) [65; 66] = Ok s' /\ get_all 2 s' 0 = Ok ([(0, 65); (0, 66)], last') /\ input_kb_get s' 0 last' = Ok (0, 0, last').
Proof.
  apply (input_keys_in_order (input_init (tty_init [])) 0 [] [65; 66]).
  - done.
  - by split.
  - by vm_compute.
  - by apply (bool_decide_unpack _).
  - repeat constructor; try lia; try done; by left.
Defined.
