(* ===== verification/Console.v ===== *)
(** * The console: drv/ttyk/ttyk.c

    Terminal devices over the keyboard and the screens.  A [dev_fd_t*] is an address.  The ANSI
    parser's static variables are one record, whatever terminal is written to.  A thread that
    reads sleeps until [input_event]: [wakes] are the states it wakes up in, [None] being an
    interrupted sleep; with none left it sleeps on.  [arg_buf] and [args] are stack objects of 8
    bytes and 6 numbers. *)
From S2P Require Import Prelude Strings CBuf Tty Input.

Definition IOCTL_BYTES_AVAILABLE : Z := 113.
Definition IOCTL_TTY_SIZE : Z := 161.

(** [ttyk_queue_t]; [size] is the length of [files]. *)
Record ttyk_queue := mk_ttyk_queue { current : option Z; files : list Z }.

(** The statics of [_tty_write]. *)
Record parser := mk_parser { pstate : Z; poffset : Z; pbuffer : list Z }.

Record console := mk_console {
  kbd : input; ttyk_current_ptr : Z; keymap : list Z; ttyk_queues : list ttyk_queue; ansi : parser }.

Definition set_kbd (c : console) x := mk_console x (ttyk_current_ptr c) (keymap c) (ttyk_queues c) (ansi c).
Definition set_ptr (c : console) x := mk_console (kbd c) x (keymap c) (ttyk_queues c) (ansi c).
Definition set_queues (c : console) x := mk_console (kbd c) (ttyk_current_ptr c) (keymap c) x (ansi c).
Definition set_ansi (c : console) x := mk_console (kbd c) (ttyk_current_ptr c) (keymap c) (ttyk_queues c) x.

(** The terminals, and an operation on them. *)
Definition on_screen (c : console) (f : ttyw -> res ttyw) : res console :=
  w ← f (screen (kbd c)); Ok (set_kbd c (set_screen (kbd c) w)).

(** ** Who reads *)

Definition append_file (q : ttyk_queue) (file : Z) : ttyk_queue := mk_ttyk_queue (Some file) (files q ++ [file]).

(** The loop of [remove_file]: the files moved down, and whether the file was there. *)
Fixpoint remove_loop (n : nat) (i : Z) (fs : list Z) (file : Z) (found : bool) : res (list Z * bool) :=
  match n with
  | O => Ok (fs, found)
  | S n' =>
      x ← load fs i;
      let found := found || (x =? file) in
      if negb found then remove_loop n' (i + 1) fs file found
      else if i =? zlen fs - 1 then Ok (fs, found)
      else y ← load fs (i + 1); fs ← store fs i y; remove_loop n' (i + 1) fs file found
  end.

(** [current] is read at the new size less one, also when that is no file. *)
Definition remove_file (q : ttyk_queue) (file : Z) : res ttyk_queue :=
  '(fs, found) ← remove_loop (length (files q)) 0 (files q) file false;
  if negb found then Panic "failed to remove_file()"
  else
    let size := u64 (zlen fs - 1) in
    x ← load fs (u64 (size - 1));
    Ok (mk_ttyk_queue (Some x) (take (Z.to_nat size) fs)).

Definition on_queue (c : console) (id : Z) (f : ttyk_queue -> res ttyk_queue) : res console :=
  q ← res_of_option (get (ttyk_queues c) id);
  q ← f q;
  Ok (set_queues c (<[Z.to_nat id := q]> (ttyk_queues c))).

Definition ttyk_open (c : console) (internal_id file : Z) : res (console * Z) :=
  c ← on_queue c internal_id (fun q => Ok (append_file q file)); Ok (c, 0).

Definition ttyk_close (c : console) (internal_id file : Z) : res console :=
  on_queue c internal_id (fun q => remove_file q file).

(** ** Reading *)

(** From [again:] on, until there is no key: the places left are not looked at. *)
Fixpoint read_again (fuel : nat) (c : console) (buffer : list Z) (at_ left : Z) : res (console * list Z * Z * Z) :=
  '(k, mod_, p) ← input_kb_get (kbd c) 0 (ttyk_current_ptr c);
  let c := set_ptr c p in
  if k =? 0 then Ok (c, buffer, at_, left)
  else
    match fuel with
    | O => OutOfFuel
    | S f =>
        let k := if negb (Z.land mod_ INPUT_SHIFT_FLAG =? 0) then k + 256 else k in
        ch ← load (keymap c) k;
        buffer ← store buffer at_ (if ch =? 13 then 10 else ch);
        read_again f c buffer (at_ + 1) (left - 1)
    end.

Fixpoint read_wait (wakes : list (option console)) (c : console) (internal_id file : Z) (buffer : list Z) (at_ left len : Z)
  : res (console * list Z * Z) :=
  if left >? 0 then
    match wakes with
    | [] => OutOfFuel
    | None :: _ => Ok (c, buffer, - rc EINTR)
    | Some c :: wakes =>
        if negb (internal_id =? tty_current (screen (kbd c))) then read_wait wakes c internal_id file buffer at_ left len
        else
          q ← res_of_option (get (ttyk_queues c) internal_id);
          if negb (bool_decide (current q = Some file)) then read_wait wakes c internal_id file buffer at_ left len
          else
            '(c, buffer, at_, left) ← read_again (S (Z.to_nat (input_kb_available (kbd c) (ttyk_current_ptr c)))) c buffer at_ left;
            read_wait wakes c internal_id file buffer at_ left len
    end
  else Ok (c, buffer, len).

Definition ttyk_read (wakes : list (option console)) (c : console) (internal_id file : Z) (buffer : list Z) (len : Z) : res (console * list Z * Z) :=
  read_wait wakes c internal_id file buffer 0 len len.

(** ** Writing *)

(** The loop over the sequence: the numbers so far and how many there are. *)
Fixpoint ansi_args (n : nat) (i offset : Z) (buffer arg_buf args : list Z) (ptr arg : Z) : res (list Z) :=
  match n with
  | O => Ok args
  | S n' =>
      b ← load buffer i;
      let c := s8 b in
      if ((c >=? 58) && (c <=? 63)) || (i =? offset) then
        if negb (ptr =? 0) then
          arg_buf ← store arg_buf ptr 0;
          v ← atoi arg_buf;
          args ← store args arg (u16 v);
          ansi_args n' (i + 1) offset buffer arg_buf args 0 (arg + 1)
        else ansi_args n' (i + 1) offset buffer arg_buf args ptr arg
      else
        arg_buf ← store arg_buf ptr b;
        ansi_args n' (i + 1) offset buffer arg_buf args (ptr + 1) arg
  end.

Definition interpret_ansi (c : console) (id : Z) (buffer : list Z) (offset : Z) (arg_buf : list Z) : res console :=
  final ← load buffer offset;
  args ← ansi_args (Z.to_nat offset) 1 offset buffer arg_buf (replicate 6 0) 0 0;
  a0 ← load args 0;
  a1 ← load args 1;
  if final =? 109 then on_screen c (fun w => tty_set_color_ansi w id (s8 a0))
  else if final =? 74 then (if a0 =? 2 then on_screen c (fun w => tty_clear w id) else Ok c)
  else if final =? 72 then on_screen c (fun w => tty_set_cursor_pos w id (a0 - 1) (a1 - 1))
  else Ok c.

(** One character; [arg_buf] is what the stack holds. *)
Definition _tty_write (c : console) (id b : Z) (arg_buf : list Z) : res console :=
  let p := ansi c in
  let ch := s8 b in
  if pstate p =? 0 then
    if ch =? 27 then Ok (set_ansi c (mk_parser 1 (poffset p) (pbuffer p)))
    else on_screen c (fun w => tty_putchar w id b)
  else if pstate p =? 1 then
    if (ch >=? 64) && (ch <=? 95) then
      buf ← store (pbuffer p) (poffset p) b;
      Ok (set_ansi c (mk_parser 2 (poffset p + 1) buf))
    else Ok (set_ansi c (mk_parser 0 (poffset p) (pbuffer p)))
  else if pstate p =? 2 then
    buf ← store (pbuffer p) (poffset p) b;
    let off := poffset p + 1 in
    if (ch >=? 64) && (ch <=? 126) then
      c ← interpret_ansi (set_ansi c (mk_parser 0 (off - 1) buf)) id buf (off - 1) arg_buf;
      Ok (set_ansi c (mk_parser 0 0 buf))
    else if off >? 22 then Ok (set_ansi c (mk_parser 0 0 buf))
    else Ok (set_ansi c (mk_parser 2 off buf))
  else Ok c.

Fixpoint write_chars (c : console) (id : Z) (text arg_buf : list Z) : res console :=
  match text with [] => Ok c | b :: text => c ← _tty_write c id b arg_buf; write_chars c id text arg_buf end.

Definition ttyk_write (c : console) (internal_id : Z) (buffer : list Z) (len : Z) (arg_buf : list Z) : res (console * Z) :=
  if len >? zlen buffer then Fault
  else c ← write_chars c internal_id (take (Z.to_nat len) buffer) arg_buf; Ok (c, len).

(** ** The rest *)

Definition ttyk_init (i : input) (fresh : list Z) : res console :=
  m ← input_fetch_keymap fresh;
  Ok (mk_console i 0 m (replicate (Z.to_nat TTY_AMOUNT) (mk_ttyk_queue None [])) (mk_parser 0 0 (replicate 24 0))).

(** What is written through [mem]. *)
Inductive ioctl_data := Bytes (n : Z) | Size (rows columns : Z).

Definition ttyk_ioctl (c : console) (internal_id code : Z) : res (option ioctl_data * Z) :=
  if code =? IOCTL_BYTES_AVAILABLE then Ok (Some (Bytes (s32 (input_kb_available (kbd c) (ttyk_current_ptr c)))), 0)
  else if code =? IOCTL_TTY_SIZE then
    '(x, y) ← tty_get_size (screen (kbd c)) internal_id; Ok (Some (Size (u16 y) (u16 x)), 0)
  else Ok (None, - rc ENOSYS).

(** ** Escape sequences *)

(** The bytes of [ESC \[ n1 ; n2 ; ... F]: each number as its digits. *)
Fixpoint spell_args (args : list (list Z)) : list Z :=
  match args with [] => [] | [ds] => ds | ds :: more => ds ++ 59 :: spell_args more end.

(** Numbers of one to seven digits. *)
Definition arg_ok (ds : list Z) : Prop := Forall is_digit ds /\ 0 < zlen ds <= 7.

(** The numbers in the places of [args]; places not given are 0. *)
Definition arg_values (args : list (list Z)) : list Z := (fun ds => u16 (dec_val 0 ds)) <$> args.

Lemma digit_s8 b : is_digit b -> s8 b = b.
Proof. unfold is_digit. intros. apply s8_small. lia. Qed.

Lemma dec_val_range ds : forall acc, 0 <= acc -> Forall is_digit ds -> dec_val acc ds < (acc + 1) * 10 ^ zlen ds /\ acc <= dec_val acc ds.
Proof.
  induction ds as [|d ds IH]; intros acc Ha Hd; [cbn; unfold zlen; cbn; lia|]. apply Forall_cons in Hd as [Hd Hds]. unfold is_digit in Hd. rewrite zlen_cons.
  rewrite Z.pow_add_r by (lia || apply zlen_nonneg). change (dec_val acc (d :: ds)) with (dec_val (acc * 10 + (d - 48)) ds).
  destruct (IH (acc * 10 + (d - 48)) ltac:(lia) Hds) as [H1 H2]. split; [|lia]. eapply Z.lt_le_trans; [exact H1|].
  assert (0 <= 10 ^ zlen ds) by (apply Z.pow_nonneg; lia). replace ((acc + 1) * (10 ^ zlen ds * 10 ^ 1)) with ((acc + 1) * 10 * 10 ^ zlen ds) by lia. apply Z.mul_le_mono_nonneg_r; lia.
Qed.

(** A number that has been put into [arg_buf]. *)
Lemma atoi_arg ds r : arg_ok ds -> atoi (ds ++ 0 :: r) = Ok (dec_val 0 ds).
Proof.
  intros [Hd Hl]. destruct ds as [|d ds]; [unfold zlen in Hl; simpl in Hl; lia|]. destruct (dec_val_range (d :: ds) 0 ltac:(lia) Hd) as [Hb Hb0].
  assert (10 ^ zlen (d :: ds) <= 10 ^ 7) by (apply Z.pow_le_mono_r; lia). unfold atoi, aton_common. cbn [app]. rewrite load_0. cbn [mbind res_bind].
  pose proof Hd as [Hdd _]%Forall_cons. unfold is_digit in Hdd. destruct (Z.eqb_spec d 45); [lia|].
  change (d :: ds ++ 0 :: r) with ((d :: ds) ++ 0 :: r). rewrite (aton_loop_ok s32 (2 ^ 31)); [|intros; apply s32_small; lia|lia|done|lia].
  cbn [mbind res_bind]. rewrite s32_small by lia. f_equal. lia.
Qed.

(** Digits go to [arg_buf]. *)
Lemma args_digits ds : Forall is_digit ds -> forall n pre post offset arg_buf args ptr arg, 0 <= ptr -> zlen pre + zlen ds <= offset -> ptr + zlen ds <= zlen arg_buf ->
  ansi_args (length ds + n) (zlen pre) offset (pre ++ ds ++ post) arg_buf args ptr arg
  = ansi_args n (zlen (pre ++ ds)) offset (pre ++ ds ++ post) (splice arg_buf ptr ds) args (ptr + zlen ds) arg.
Proof.
  induction 1 as [|d ds Hd Hds IH]; intros n pre post offset arg_buf args ptr arg Hp Ho Hb.
  - rewrite splice_nil, app_nil_r, Z.add_0_r. done.
  - rewrite zlen_cons in *. pose proof (zlen_nonneg ds). cbn [length Nat.add ansi_args app]. rewrite load_app. cbn [mbind res_bind]. rewrite (digit_s8 d Hd). unfold is_digit in Hd.
    destruct (Z.geb_spec d 58); [lia|]. cbn [andb orb]. destruct (Z.eqb_spec (zlen pre) offset); [lia|].
    rewrite store_in_range by lia. cbn [mbind res_bind]. specialize (IH n (pre ++ [d]) post offset (<[Z.to_nat ptr := d]> arg_buf) args (ptr + 1) arg).
    assert (zlen (pre ++ [d]) = zlen pre + 1) as Ez by (by rewrite zlen_app). rewrite <- !app_assoc in IH. cbn [app] in IH. rewrite <- Ez.
    rewrite IH by (unfold zlen in *; rewrite ?length_insert; lia). rewrite splice_insert_cons by lia. f_equal. lia.
Qed.

(** The end of a number: it goes to its place. *)
Lemma args_end ds sep : arg_ok ds -> forall n i offset buffer arg_buf0 args arg, zlen arg_buf0 = 8 -> 0 <= arg < zlen args ->
  load buffer i = Ok sep -> (58 <= sep <= 63 \/ i = offset) ->
  exists ab, zlen ab = 8 /\ ansi_args (S n) i offset buffer (splice arg_buf0 0 ds) args (0 + zlen ds) arg
    = ansi_args n (i + 1) offset buffer ab (<[Z.to_nat arg := u16 (dec_val 0 ds)]> args) 0 (arg + 1).
Proof.
  intros Hok n i offset buffer arg_buf0 args arg Hab Harg Hld Hsep. pose proof Hok as [Hd Hl]. cbn [ansi_args]. rewrite Hld. cbn [mbind res_bind].
  assert (((s8 sep >=? 58) && (s8 sep <=? 63)) || (i =? offset) = true) as ->.
  { destruct Hsep as [Hs| ->]; [|by rewrite Z.eqb_refl, orb_true_r]. rewrite s8_small by lia. destruct (Z.geb_spec sep 58), (Z.leb_spec sep 63); done || lia. }
  destruct (Z.eqb_spec (0 + zlen ds) 0); [lia|]. cbn [negb]. rewrite Z.add_0_l, splice_0.
  destruct (drop (length ds) arg_buf0) as [|x rest] eqn:Er; [apply (f_equal length) in Er; rewrite length_drop in Er; unfold zlen in *; simpl in Er; lia|].
  rewrite store_app. cbn [mbind res_bind]. rewrite atoi_arg by done. cbn [mbind res_bind]. rewrite store_in_range by lia. cbn [mbind res_bind].
  exists (ds ++ 0 :: rest). split; [|done]. apply (f_equal length) in Er. rewrite length_drop in Er. unfold zlen in *. rewrite length_app. simpl in *. lia.
Qed.

(** All the numbers of a sequence go to their places. *)
Lemma args_ok more : forall ds pre F post arg_buf args arg, Forall arg_ok (ds :: more) -> zlen arg_buf = 8 -> 0 <= arg -> arg + zlen (ds :: more) <= zlen args ->
  let body := spell_args (ds :: more) in
  ansi_args (S (length body)) (zlen pre) (zlen pre + zlen body) (pre ++ body ++ F :: post) arg_buf args 0 arg
  = Ok (splice args arg (arg_values (ds :: more))).
Proof.
  induction more as [|d2 more IH]; intros ds pre F post arg_buf args arg Hall Hab Harg Hroom body; apply Forall_cons in Hall as [Hok Hall]; pose proof Hok as [Hd Hl].
  - cbn [spell_args] in body. subst body. replace (S (length ds)) with (length ds + 1)%nat by lia.
    rewrite args_digits by (done || lia). rewrite zlen_cons in Hroom. change (zlen []) with 0 in Hroom.
    destruct (args_end ds F Hok 0 (zlen (pre ++ ds)) (zlen pre + zlen ds) (pre ++ ds ++ F :: post) arg_buf args arg Hab ltac:(lia)) as (ab & _ & ->).
    + rewrite app_assoc. apply load_app.
    + right. by rewrite zlen_app.
    + cbn [ansi_args arg_values fmap list_fmap]. f_equal. symmetry. rewrite <- splice_insert_cons by lia. by rewrite splice_nil.
  - set (rest := spell_args (d2 :: more)) in *. assert (body = ds ++ 59 :: rest) as -> by done. rewrite <- app_assoc. cbn [app].
    rewrite zlen_app, zlen_cons. replace (S (length (ds ++ 59 :: rest))) with (length ds + S (S (length rest)))%nat by (rewrite length_app; simpl; lia).
    pose proof (zlen_nonneg rest). rewrite args_digits by (done || lia). rewrite !zlen_cons in Hroom. pose proof (zlen_nonneg more).
    destruct (args_end ds 59 Hok (S (length rest)) (zlen (pre ++ ds)) (zlen pre + (zlen ds + (zlen rest + 1))) (pre ++ ds ++ 59 :: rest ++ F :: post) arg_buf args arg Hab ltac:(lia))
      as (ab & Hab2 & ->); [rewrite app_assoc; apply load_app|left; lia|].
    specialize (IH d2 (pre ++ ds ++ [59]) F post ab (<[Z.to_nat arg := u16 (dec_val 0 ds)]> args) (arg + 1) Hall Hab2 ltac:(lia)).
    cbv zeta in IH. fold rest in IH. assert (zlen (pre ++ ds ++ [59]) = zlen pre + zlen ds + 1) as Ez by (rewrite !zlen_app; change (zlen [59]) with 1; lia).
    rewrite Ez in IH. rewrite <- !app_assoc in IH. cbn [app] in IH. rewrite zlen_app.
    replace (zlen pre + (zlen ds + (zlen rest + 1))) with (zlen pre + zlen ds + 1 + zlen rest) by lia. rewrite IH.
    + f_equal. cbn [arg_values fmap list_fmap]. apply splice_insert_cons. lia.
    + unfold zlen in *. rewrite length_insert. simpl in *. lia.
Qed.

(** What a sequence asks for. *)
Definition ansi_command (c : console) (id final : Z) (vals : list Z) : res console :=
  let a i := default 0 (vals !! i) in
  if final =? 109 then on_screen c (fun w => tty_set_color_ansi w id (s8 (a 0%nat)))
  else if final =? 74 then (if a 0%nat =? 2 then on_screen c (fun w => tty_clear w id) else Ok c)
  else if final =? 72 then on_screen c (fun w => tty_set_cursor_pos w id (a 0%nat - 1) (a 1%nat - 1))
  else Ok c.

Lemma on_screen_ansi c p f : on_screen (set_ansi c p) f = (c ← on_screen c f; Ok (set_ansi c p)).
Proof. unfold on_screen. cbn. by destruct (f (screen (kbd c))). Qed.

Lemma load_vals vals (i : nat) : (i < 6)%nat -> zlen vals <= 6 -> load (splice (replicate 6 0) 0 vals) (Z.of_nat i) = Ok (default 0 (vals !! i)).
Proof.
  intros Hi Hv. unfold load. rewrite get_of_nat, splice_0. destruct (decide (i < length vals)%nat) as [Hl|Hl].
  - rewrite lookup_app_l by done. destruct (lookup_lt_is_Some_2 vals i Hl) as [x E]. by rewrite E.
  - rewrite lookup_app_r by lia. rewrite (lookup_ge_None_2 vals i) by lia. rewrite lookup_drop. unfold zlen in Hv.
    rewrite lookup_replicate_2 by lia. done.
Qed.

Lemma interpret_ok c id args F r arg_buf : Forall arg_ok args -> zlen args <= 6 -> zlen arg_buf = 8 ->
  interpret_ansi c id (91 :: spell_args args ++ F :: r) (1 + zlen (spell_args args)) arg_buf = ansi_command c id F (arg_values args).
Proof.
  intros Hall Hn Hab. unfold interpret_ansi, ansi_command. set (body := spell_args args). pose proof (zlen_nonneg body).
  rewrite (load_app_at (91 :: body) r F) by (rewrite zlen_cons; lia). cbn [mbind res_bind].
  assert (ansi_args (Z.to_nat (1 + zlen body)) 1 (1 + zlen body) (91 :: body ++ F :: r) arg_buf (replicate 6 0) 0 0 = Ok (splice (replicate 6 0) 0 (arg_values args))) as ->.
  { replace (Z.to_nat (1 + zlen body)) with (S (length body)) by (unfold zlen; lia). destruct args as [|ds more].
    - cbn [spell_args] in body. subst body. cbn [ansi_args length zlen]. rewrite (load_app_at [91] r F) by done. cbn [mbind res_bind].
      rewrite Z.add_0_r, Z.eqb_refl, orb_true_r. done.
    - apply (args_ok more ds [91] F r arg_buf (replicate 6 0) 0 Hall Hab); [lia|]. change (zlen (replicate 6 0)) with 6. lia. }
  cbn [mbind res_bind]. assert (zlen (arg_values args) <= 6) as Hv by (unfold arg_values, zlen in *; rewrite length_fmap; done).
  rewrite (load_vals _ 0) by (done || lia). cbn [mbind res_bind]. rewrite (load_vals _ 1) by (done || lia). done.
Qed.

Lemma set_ansi_twice c p q : set_ansi (set_ansi c p) q = set_ansi c q.
Proof. done. Qed.

(** A byte inside a sequence. *)
Definition inner (b : Z) : Prop := 32 <= b < 64.

Lemma inner_run id arg_buf text : Forall inner text -> forall c buf o, 0 <= o -> o + zlen text <= 22 -> zlen buf = 24 ->
  write_chars (set_ansi c (mk_parser 2 o buf)) id text arg_buf = Ok (set_ansi c (mk_parser 2 (o + zlen text) (splice buf o text))).
Proof.
  induction 1 as [|b text Hb Ht IH]; intros c buf o Ho Hl Hz; [cbn; by rewrite splice_nil, Z.add_0_r|]. rewrite zlen_cons in *. pose proof (zlen_nonneg text). unfold inner in Hb.
  cbn [write_chars]. unfold _tty_write. cbn [ansi set_ansi pstate poffset pbuffer Z.eqb Pos.eqb]. rewrite store_in_range by lia. cbn [mbind res_bind].
  rewrite s8_small by lia. destruct (Z.geb_spec b 64); [lia|]. cbn [andb]. destruct (Z.gtb_spec (o + 1) 22); [lia|]. cbn [mbind res_bind]. rewrite set_ansi_twice.
  rewrite (IH c (<[Z.to_nat o := b]> buf) (o + 1)) by (unfold zlen in *; rewrite ?length_insert; lia). do 3 f_equal; [lia|apply splice_insert_cons; lia].
Qed.

Lemma spell_inner args : Forall arg_ok args -> Forall inner (spell_args args).
Proof.
  assert (forall ds, arg_ok ds -> Forall inner ds) as Hd.
  { intros ds [Hd _]. eapply Forall_impl; [exact Hd|]. unfold is_digit, inner. intros; lia. }
  induction 1 as [|ds args Hok Hall IH]; [constructor|]. cbn [spell_args]. destruct args as [|d2 args]; [auto|]. apply Forall_app. split; [auto|]. constructor; [unfold inner; lia|done].
Qed.

Lemma write_chars_app id arg_buf a b : forall c, write_chars c id (a ++ b) arg_buf = (c ← write_chars c id a arg_buf; write_chars c id b arg_buf).
Proof. induction a as [|x a IH]; intros c; [done|]. cbn [app write_chars]. destruct (_tty_write c id x arg_buf); cbn [mbind res_bind]; done. Qed.

(** The parser between sequences. *)
Definition ready (c : console) : Prop := pstate (ansi c) = 0 /\ poffset (ansi c) = 0 /\ zlen (pbuffer (ansi c)) = 24.

(** From the escape to the byte before the last. *)
Lemma sequence_start c id arg_buf text : ready c -> Forall inner text -> zlen text <= 21 ->
  write_chars c id (27 :: 91 :: text) arg_buf = Ok (set_ansi c (mk_parser 2 (1 + zlen text) (splice (pbuffer (ansi c)) 0 (91 :: text)))).
Proof.
  intros (Hs & Ho & Hz) Hin Hl. set (c1 := set_ansi c (mk_parser 1 0 (pbuffer (ansi c)))).
  assert (_tty_write c id 27 arg_buf = Ok c1) as E1 by (unfold _tty_write; cbv zeta; by rewrite Hs, Ho).
  assert (_tty_write c1 id 91 arg_buf = Ok (set_ansi c (mk_parser 2 1 (<[Z.to_nat 0 := 91]> (pbuffer (ansi c)))))) as E2.
  { unfold _tty_write. cbn [ansi c1 set_ansi pstate poffset pbuffer Z.eqb Pos.eqb]. change (s8 91) with 91. cbn [Z.geb Z.leb Z.compare Pos.compare Pos.compare_cont andb].
    rewrite store_in_range by lia. done. }
  cbn [write_chars]. rewrite E1. cbn [mbind res_bind]. rewrite E2. cbn [mbind res_bind]. rewrite inner_run; [|done|lia|lia|unfold zlen in *; by rewrite length_insert].
  do 3 f_equal. apply (splice_insert_cons (pbuffer (ansi c)) 0). lia.
Qed.

Lemma ansi_sequence_run c id args F arg_buf : ready c -> Forall arg_ok args -> zlen args <= 6 -> zlen (spell_args args) <= 21 -> 64 <= F <= 126 -> zlen arg_buf = 8 ->
  exists buf, zlen buf = 24 /\
    write_chars c id (27 :: 91 :: spell_args args ++ [F]) arg_buf = (c ← ansi_command c id F (arg_values args); Ok (set_ansi c (mk_parser 0 0 buf))).
Proof.
  intros Hr Hall Hn Hl HF Hab. pose proof Hr as (Hs & Ho & Hz). set (body := spell_args args) in *. pose proof (zlen_nonneg body).
  change (27 :: 91 :: body ++ [F]) with ((27 :: 91 :: body) ++ [F]). rewrite write_chars_app.
  rewrite (sequence_start c id arg_buf body Hr (spell_inner args Hall) Hl). cbn [mbind res_bind write_chars].
  set (buf0 := splice (pbuffer (ansi c)) 0 (91 :: body)). assert (zlen buf0 = 24) as Hz0 by (unfold buf0; rewrite zlen_splice; rewrite ?zlen_cons; lia).
  unfold _tty_write. cbn [ansi set_ansi pstate poffset pbuffer Z.eqb Pos.eqb].
  assert (exists r, buf0 = (91 :: body) ++ r /\ zlen r = 23 - zlen body) as (r & Er & Hzr).
  { exists (drop (length (91 :: body)) (pbuffer (ansi c))). unfold buf0. rewrite splice_0. split; [done|]. unfold zlen in *. rewrite length_drop. simpl. lia. }
  destruct r as [|x r]; [change (zlen []) with 0 in Hzr; lia|]. rewrite Er. replace (1 + zlen body) with (zlen (91 :: body)) by (rewrite zlen_cons; lia).
  rewrite store_app. cbn [mbind res_bind]. rewrite s8_small by lia. destruct (Z.geb_spec F 64), (Z.leb_spec F 126); try lia. cbn [andb].
  replace (zlen (91 :: body) + 1 - 1) with (1 + zlen body) by (rewrite zlen_cons; lia). cbn [app]. rewrite (interpret_ok _ id args F r arg_buf Hall Hn Hab).
  exists (91 :: body ++ F :: r). split; [rewrite zlen_cons, zlen_app, zlen_cons; rewrite zlen_cons in Hzr; lia|].
  unfold ansi_command. set (p1 := mk_parser 0 (1 + zlen body) _). repeat case_match; cbn [mbind res_bind]; rewrite ?on_screen_ansi; cbn [mbind res_bind]; try done;
    by destruct (on_screen c _).
Qed.

(** An escape sequence of numbers and a final byte does what it asks for with those numbers,
    and the text after it is text again. *)
Theorem ansi_sequence c id args F arg_buf : ready c -> Forall arg_ok args -> zlen args <= 6 -> zlen (spell_args args) <= 21 -> 64 <= F <= 126 -> zlen arg_buf = 8 ->
  exists buf, zlen buf = 24 /\
    write_chars c id (27 :: 91 :: spell_args args ++ [F]) arg_buf = (c ← ansi_command c id F (arg_values args); Ok (set_ansi c (mk_parser 0 0 buf))).
Proof. apply ansi_sequence_run. Qed.

(** ** Text *)

Definition type_all (t : tty) (text : list Z) (s : Tty.screen) : Tty.screen := foldl (fun s b => type_char t b s) s text.

Lemma byte_escape b : 0 <= b < 256 -> (s8 b =? 27) = (b =? 27).
Proof.
  intros Hb. unfold s8, swrap. change (2 ^ (8 - 1)) with 128. change (2 ^ 8) with 256. destruct (Z.lt_ge_cases b 128).
  - rewrite Z.mod_small by lia. f_equal. lia.
  - replace (b + 128) with (b - 128 + 1 * 256) by lia. rewrite Z.mod_add, Z.mod_small by lia. destruct (Z.eqb_spec (b - 128 - 128) 27), (Z.eqb_spec b 27); done || lia.
Qed.

Lemma write_plain_ok id arg_buf text t : Forall (fun b => 0 <= b < 256 /\ b <> 27) text -> forall c s, pstate (ansi c) = 0 -> holds (screen (kbd c)) id t s ->
  exists c', write_chars c id text arg_buf = Ok c' /\ holds (screen (kbd c')) id t (type_all t text s) /\ ansi c' = ansi c.
Proof.
  induction 1 as [|b text [Hb Hne] Ht IH]; intros c s Hp Hh; [by exists c|]. cbn [write_chars]. unfold _tty_write. cbv zeta. rewrite Hp. cbn [Z.eqb].
  rewrite byte_escape by done. destruct (Z.eqb_spec b 27); [done|]. unfold on_screen. destruct (putchar_ok _ id t s b Hh) as (w' & -> & Hh' & _). cbn [mbind res_bind].
  destruct (IH (set_kbd c (set_screen (kbd c) w')) (type_char t b s) Hp Hh') as (c' & E & Hh2 & Ha). by exists c'.
Qed.

(** Text without escapes written to a terminal device is typed on its screen, character by
    character. *)
Theorem ttyk_write_text c id text arg_buf t s : pstate (ansi c) = 0 -> Forall (fun b => 0 <= b < 256 /\ b <> 27) text -> holds (screen (kbd c)) id t s ->
  exists c', ttyk_write c id text (zlen text) arg_buf = Ok (c', zlen text) /\ holds (screen (kbd c')) id t (type_all t text s) /\ ansi c' = ansi c.
Proof.
  intros Hp Ht Hh. destruct (write_plain_ok id arg_buf text t Ht c s Hp Hh) as (c' & E & Hh' & Ha). exists c'. unfold ttyk_write.
  destruct (Z.gtb_spec (zlen text) (zlen text)); [lia|]. replace (Z.to_nat (zlen text)) with (length text) by (unfold zlen; lia). rewrite firstn_all, E. done.
Qed.

(** The sequence that asks for the top left corner puts the cursor one row and one column
    outside, and the next visible character is stored before the screen's memory. *)
Theorem ansi_home_faults c id arg_buf t s b : ready c -> zlen arg_buf = 8 -> holds (screen (kbd c)) id t s -> b <> 27 -> 32 <= b < 127 ->
  write_chars c id [27; 91; 72; b] arg_buf = Fault.
Proof.
  intros Hr Hab Hh Hne Hb. destruct (ansi_sequence_run c id [] 72 arg_buf Hr ltac:(constructor) ltac:(done) ltac:(done) ltac:(lia) Hab) as (buf & _ & E).
  change [27; 91; 72; b] with ((27 :: 91 :: spell_args [] ++ [72]) ++ [b]). rewrite write_chars_app, E.
  pose proof Hh as [Ht _ [Hsz _ _ Hx Hy] _]. unfold ansi_command, on_screen. cbn [Z.eqb Pos.eqb]. change (default 0 (arg_values [] !! _) - 1) with (-1).
  unfold tty_set_cursor_pos. rewrite (tty_at_ok _ _ _ Ht). cbn [mbind res_bind]. cbn [cursor_x cursor_y set_cursor].
  destruct (Z.geb_spec (sx s) 0); [|lia]. cbn [orb cursor_y set_cursor]. destruct (Z.geb_spec (sy s) 0); [|lia]. cbn [orb cursor_x set_cursor].
  set (w0 := screen (kbd c)) in *. set (t1 := set_cursor _ (-1) (-1)). unfold move_cursor. rewrite (tty_at_ok _ _ _ (get_put_tty w0 id _ t1 Ht)). cbn [mbind res_bind].
  set (w1 := if id =? _ then _ else _). assert (get (ttys w1) id = Some t1) as Ht1 by (unfold w1; destruct (id =? _); by apply (get_put_tty w0 id _ t1 Ht)).
  cbn [write_chars]. unfold _tty_write. cbn [ansi set_ansi pstate Z.eqb]. rewrite byte_escape by lia. destruct (Z.eqb_spec b 27); [done|].
  unfold on_screen. cbn [kbd set_ansi set_kbd screen set_screen]. unfold tty_putchar, wrap. rewrite (tty_at_ok _ _ _ Ht1). cbn [mbind res_bind].
  cbn [cursor_x size_x set_cursor t1]. destruct (Z.geb_spec (-1) (size_x t)); [lia|]. cbn [mbind res_bind]. rewrite (tty_at_ok _ _ _ Ht1). cbn [mbind res_bind].
  destruct (Z.eqb_spec b 8), (Z.eqb_spec b 10), (Z.eqb_spec b 13); try lia. cbn [negb].
  unfold buf_at. destruct (bufs _ !! _) as [bf|]; [|done]. cbn [res_of_option mbind res_bind]. unfold store_cell, in_range. cbn [cursor_x cursor_y size_x set_cursor t1].
  destruct (Z.leb_spec 0 (-1 + -1 * size_x t)); [lia|]. done.
Qed.

Lemma store_end (ab : list Z) v : store ab (zlen ab) v = Fault.
Proof. unfold store, upd, zlen. destruct (Z.ltb_spec (Z.of_nat (length ab)) (Z.of_nat (length ab))); [lia|]. by rewrite andb_false_r. Qed.

(** Eight digits fill [arg_buf]; what follows, a digit or the end, is stored behind it. *)
Lemma args_overflow d8 more F r arg_buf args arg n : Forall is_digit d8 -> Forall is_digit more -> zlen d8 = 8 -> zlen arg_buf = 8 -> 64 <= F <= 126 ->
  ansi_args (length d8 + S n) 1 (1 + zlen (d8 ++ more)) (91 :: (d8 ++ more) ++ F :: r) arg_buf args 0 arg = Fault.
Proof.
  intros Hd Hm H8 Hab HF. rewrite <- app_assoc. rewrite (zlen_app d8 more). pose proof (zlen_nonneg more).
  rewrite (args_digits d8 Hd (S n) [91] (more ++ F :: r)) by (change (zlen [91]) with 1; lia).
  set (ab := splice arg_buf 0 d8). assert (zlen ab = 8) as Hzab by (unfold ab; rewrite zlen_splice; lia). cbn [ansi_args].
  rewrite Z.add_0_l, H8, <- Hzab. rewrite app_assoc. destruct more as [|d more].
  - rewrite (app_nil_l (F :: r)), (load_app ([91] ++ d8) r F). cbn [mbind res_bind]. rewrite zlen_app. change (zlen [91]) with 1. change (zlen (@nil Z)) with 0. rewrite H8, Z.add_0_r, Hzab, Z.eqb_refl, orb_true_r.
    cbn [negb Z.eqb]. rewrite <- Hzab, store_end. done.
  - change ((d :: more) ++ F :: r) with (d :: more ++ F :: r). rewrite (load_app ([91] ++ d8)). cbn [mbind res_bind]. apply Forall_cons in Hm as [Hdd _]. rewrite (digit_s8 d Hdd). unfold is_digit in Hdd.
    rewrite zlen_app. change (zlen [91]) with 1. rewrite !zlen_cons. pose proof (zlen_nonneg more). rewrite H8, Hzab.
    destruct (Z.geb_spec d 58); [lia|]. cbn [andb orb]. destruct (Z.eqb_spec (1 + 8) (1 + (8 + (zlen more + 1)))); [lia|]. rewrite <- Hzab, store_end. done.
Qed.

(** A number of more than seven digits in an escape sequence is stored past the end of
    [arg_buf]. *)
Theorem ansi_long_number_faults c id ds F arg_buf : ready c -> Forall is_digit ds -> 8 <= zlen ds <= 21 -> 64 <= F <= 126 -> zlen arg_buf = 8 ->
  write_chars c id (27 :: 91 :: ds ++ [F]) arg_buf = Fault.
Proof.
  intros Hr Hd Hl HF Hab. pose proof Hr as (_ & _ & Hz). change (27 :: 91 :: ds ++ [F]) with ((27 :: 91 :: ds) ++ [F]). rewrite write_chars_app.
  rewrite sequence_start; [|done|eapply Forall_impl; [exact Hd|]; unfold is_digit, inner; intros; lia|lia]. cbn [mbind res_bind write_chars].
  unfold _tty_write. cbn [ansi set_ansi pstate poffset pbuffer Z.eqb Pos.eqb]. rewrite splice_0.
  destruct (drop (length (91 :: ds)) (pbuffer (ansi c))) as [|x r] eqn:Er; [apply (f_equal length) in Er; rewrite length_drop in Er; unfold zlen in *; simpl in Er; lia|].
  rewrite (store_app_at (91 :: ds)) by (rewrite zlen_cons; lia). cbn [mbind res_bind]. rewrite s8_small by lia. destruct (Z.geb_spec F 64), (Z.leb_spec F 126); try lia. cbn [andb].
  unfold interpret_ansi. replace (1 + zlen ds + 1 - 1) with (1 + zlen ds) by lia. rewrite (load_app_at (91 :: ds)) by (rewrite zlen_cons; lia). cbn [mbind res_bind].
  assert (length (take 8 ds) = 8%nat) as E8 by (rewrite length_take; unfold zlen in *; lia).
  replace (Z.to_nat (1 + zlen ds)) with (length (take 8 ds) + S (length ds - 8))%nat by (rewrite E8; unfold zlen in *; lia).
  rewrite <- (take_drop 8 ds) in Hd. apply Forall_app in Hd as [Hd1 Hd2].
  pose proof (args_overflow (take 8 ds) (drop 8 ds) F r arg_buf (replicate 6 0) 0 (length ds - 8) Hd1 Hd2 ltac:(unfold zlen; lia) Hab HF) as Hov.
  rewrite take_drop in Hov. cbn [app]. rewrite Hov. done.
Qed.

(** ** Reading *)

(** The character a key stands for. *)
Definition key_char (keymap : list Z) (ev : Z * Z) : Z :=
  let '(m, k) := ev in
  let ch := default 0 (get keymap (if negb (Z.land m INPUT_SHIFT_FLAG =? 0) then k + 256 else k)) in
  if ch =? 13 then 10 else ch.

Lemma read_again_ok evs : Forall (fun '(m, k) => 0 < k < 256) evs -> forall fuel c buffer at_ left, pending (kbd c) (ttyk_current_ptr c) evs -> zlen (keymap c) = 1024 ->
  (length evs <= fuel)%nat -> 0 <= at_ -> at_ + zlen evs <= zlen buffer ->
  exists p, read_again fuel c buffer at_ left = Ok (set_ptr c p, splice buffer at_ (key_char (keymap c) <$> evs), at_ + zlen evs, left - zlen evs) /\ pending (kbd c) p [].
Proof.
  induction 1 as [|[m k] evs Hk Hall IH]; intros fuel c buffer at_ left Hp Hkm Hf Ha Hb.
  - exists (ttyk_current_ptr c). split; [|done]. destruct fuel; cbn [read_again]; rewrite (get_none _ _ _ Hp); cbn; by rewrite splice_nil, Z.add_0_r, Z.sub_0_r.
  - rewrite zlen_cons in *. pose proof (zlen_nonneg evs). destruct fuel as [|fuel]; [simpl in Hf; lia|]. cbn [read_again].
    destruct (get_ok _ _ _ _ _ 0 Hp) as (p1 & -> & Hp1). cbn [mbind res_bind]. destruct (Z.eqb_spec k 0); [lia|]. cbn [keymap set_ptr].
    set (k2 := if negb (Z.land m INPUT_SHIFT_FLAG =? 0) then k + 256 else k). assert (0 <= k2 < 1024) as Hk2 by (unfold k2; destruct (negb _); lia).
    destruct (get_in_range (keymap c) k2 ltac:(lia)) as [ch Ech]. unfold load. rewrite Ech. cbn [res_of_option mbind res_bind]. rewrite store_in_range by lia. cbn [mbind res_bind].
    destruct (IH fuel (set_ptr c p1) (<[Z.to_nat at_ := if ch =? 13 then 10 else ch]> buffer) (at_ + 1) (left - 1)) as (p & E & Hp2); try done; try lia.
    + simpl in Hf. lia.
    + unfold zlen in *. rewrite length_insert. lia.
    + exists p. split; [|done]. rewrite E. cbn [keymap set_ptr]. rewrite splice_insert_cons by lia. cbn [fmap list_fmap key_char]. fold k2. rewrite Ech. cbn [default].
      replace (at_ + 1 + zlen evs) with (at_ + (zlen evs + 1)) by lia. by replace (left - 1 - zlen evs) with (left - (zlen evs + 1)) by lia.
Qed.

(** More keys than places: the last one is stored behind the buffer. *)
Lemma read_again_over evs : Forall (fun '(m, k) => 0 < k < 256) evs -> forall fuel c buffer at_ left, pending (kbd c) (ttyk_current_ptr c) evs -> zlen (keymap c) = 1024 ->
  (length evs <= fuel)%nat -> 0 <= at_ <= zlen buffer -> zlen buffer < at_ + zlen evs -> read_again fuel c buffer at_ left = Fault.
Proof.
  induction 1 as [|[m k] evs Hk Hall IH]; intros fuel c buffer at_ left Hp Hkm Hf Ha Hb; [change (zlen (@nil (Z * Z))) with 0 in Hb; lia|].
  rewrite zlen_cons in *. destruct fuel as [|fuel]; [simpl in Hf; lia|]. cbn [read_again].
  destruct (get_ok _ _ _ _ _ 0 Hp) as (p1 & -> & Hp1). cbn [mbind res_bind]. destruct (Z.eqb_spec k 0); [lia|]. cbn [keymap set_ptr].
  set (k2 := if negb (Z.land m INPUT_SHIFT_FLAG =? 0) then k + 256 else k). assert (0 <= k2 < 1024) as Hk2 by (unfold k2; destruct (negb _); lia).
  destruct (get_in_range (keymap c) k2 ltac:(lia)) as [ch Ech]. unfold load. rewrite Ech. cbn [res_of_option mbind res_bind].
  destruct (decide (at_ = zlen buffer)) as [->|Hne]; [by rewrite store_end|]. rewrite store_in_range by lia. cbn [mbind res_bind].
  apply (IH fuel (set_ptr c p1)); try done; [simpl in Hf; lia|unfold zlen in *; rewrite length_insert; lia..].
Qed.

(** A reader that wakes up in [c] on the current terminal, with the keys [evs] typed. *)
Record woken (c : console) (id file : Z) (evs : list (Z * Z)) : Prop := {
  wo_current : tty_current (screen (kbd c)) = id;
  wo_file : exists q, get (ttyk_queues c) id = Some q /\ current q = Some file;
  wo_keys : pending (kbd c) (ttyk_current_ptr c) evs;
  wo_codes : Forall (fun '(m, k) => 0 < k < 256) evs;
  wo_map : zlen (keymap c) = 1024 }.

Lemma pending_available s last evs : pending s last evs -> input_kb_available s last = zlen evs.
Proof.
  intros [Hwf Hsz Hl He Hd Hb]. unfold input_kb_available. rewrite Cbufm.available_dist by (done || lia). rewrite Hd, Z.mul_comm, Z.div_mul by lia.
  pose proof (Z.mod_pos_bound (Cbufm.write_ptr (input_kb_cbufm s) - last) 512 ltac:(lia)). unfold Cbufm.dist in Hd. rewrite Hsz in Hd. apply u32_small. lia.
Qed.

(** A read of as many characters as keys were typed returns them, through the key map and with
    line feeds for returns; when more keys were typed than the caller has room for, the rest is
    stored past the end of its buffer. *)
Theorem ttyk_read_keys c c0 id file evs buffer rest : woken c id file evs -> 0 < zlen buffer ->
  (zlen evs = zlen buffer -> exists c', ttyk_read (Some c :: rest) c0 id file buffer (zlen buffer) = Ok (c', key_char (keymap c) <$> evs, zlen buffer) /\
     pending (kbd c') (ttyk_current_ptr c') []) /\
  (zlen buffer < zlen evs -> ttyk_read (Some c :: rest) c0 id file buffer (zlen buffer) = Fault).
Proof.
  intros [Hc (q & Hq & Hf) Hp Hk Hm] Hb. unfold ttyk_read.
  assert (read_wait (Some c :: rest) c0 id file buffer 0 (zlen buffer) (zlen buffer)
    = '(c, buf, pos, n) ← read_again (S (Z.to_nat (zlen evs))) c buffer 0 (zlen buffer); read_wait rest c id file buf pos n (zlen buffer)) as ->.
  { cbn [read_wait]. destruct (Z.gtb_spec (zlen buffer) 0); [|lia]. rewrite Hc, Z.eqb_refl, Hq. cbn [negb res_of_option mbind res_bind].
    rewrite Hf, bool_decide_eq_true_2 by done. cbn [negb]. rewrite (pending_available _ _ _ Hp). done. }
  split.
  - intros E. destruct (read_again_ok evs Hk (S (Z.to_nat (zlen evs))) c buffer 0 (zlen buffer) Hp Hm) as (p & -> & Hp2); [unfold zlen; lia|lia|lia|].
    cbn [mbind res_bind]. rewrite E, Z.sub_diag. exists (set_ptr c p). split; [|done]. destruct rest; cbn [read_wait Z.gtb Z.compare];
      rewrite splice_0, drop_ge, app_nil_r by (rewrite length_fmap; unfold zlen in E; lia); done.
  - intros Hlt. rewrite (read_again_over evs Hk); try done; [unfold zlen; lia|pose proof (zlen_nonneg buffer); lia].
Qed.

(** ** Who reads *)

Lemma remove_skip file a : file ∉ a -> forall n pre b, remove_loop (length a + n) (zlen pre) (pre ++ a ++ b) file false = remove_loop n (zlen (pre ++ a)) (pre ++ a ++ b) file false.
Proof.
  induction a as [|x a IH]; intros Hn n pre b; [by rewrite app_nil_r|]. apply not_elem_of_cons in Hn as [Hx Hn]. cbn [length Nat.add remove_loop app]. rewrite load_app. cbn [mbind res_bind orb].
  destruct (Z.eqb_spec x file); [done|]. cbn [negb]. specialize (IH Hn n (pre ++ [x]) b). rewrite <- !app_assoc in IH. cbn [app] in IH.
  assert (zlen (pre ++ [x]) = zlen pre + 1) as E by (by rewrite zlen_app). by rewrite E in IH.
Qed.

Lemma last_indep (b : list Z) z d d' : List.last (z :: b) d = List.last (z :: b) d'.
Proof. revert z. induction b as [|y b IH]; intros z; [done|]. apply (IH y). Qed.

Lemma remove_shift file b : forall n pre x, (length b < n)%nat ->
  remove_loop n (zlen pre) (pre ++ x :: b) file true = Ok (pre ++ b ++ [List.last b x], true).
Proof.
  induction b as [|y b IH]; intros n pre x Hn; (destruct n as [|n]; [simpl in Hn; lia|]); cbn [remove_loop]; rewrite load_app; cbn [mbind res_bind orb negb].
  - rewrite zlen_app. change (zlen [x]) with 1. replace (zlen pre + 1 - 1) with (zlen pre) by lia. by rewrite Z.eqb_refl.
  - rewrite zlen_app, !zlen_cons. pose proof (zlen_nonneg b). destruct (Z.eqb_spec (zlen pre) (zlen pre + (zlen b + 1 + 1) - 1)); [lia|].
    assert (zlen (pre ++ [y]) = zlen pre + 1) as E by (by rewrite zlen_app). assert (zlen (pre ++ [x]) = zlen pre + 1) as E' by (by rewrite zlen_app).
    change (pre ++ x :: y :: b) with (pre ++ [x] ++ y :: b). rewrite app_assoc, <- E', load_app, <- app_assoc. cbn [mbind res_bind app]. rewrite store_app. cbn [mbind res_bind].
    specialize (IH n (pre ++ [y]) y ltac:(simpl in Hn; lia)). rewrite <- !app_assoc in IH. cbn [app] in IH. rewrite E' , <- E, IH. cbn [app]. destruct b as [|z b]; [done|]. by rewrite (last_indep b z y x).
Qed.

Lemma load_last (l : list Z) x d : load ((l ++ [x]) ++ d) (zlen l) = Ok x.
Proof. rewrite <- app_assoc. apply load_app. Qed.

Lemma remove_file_ok q file a b : files q = a ++ file :: b -> file ∉ a -> zlen (files q) < 2 ^ 63 ->
  remove_file q file = match rev (a ++ b) with [] => Fault | x :: _ => Ok (mk_ttyk_queue (Some x) (a ++ b)) end.
Proof.
  intros Ef Hn Hl. unfold remove_file. rewrite Ef in *. pose proof (zlen_nonneg a). pose proof (zlen_nonneg b).
  replace (length (a ++ file :: b)) with (length a + S (length b))%nat by (rewrite length_app; simpl; lia).
  pose proof (remove_skip file a Hn (S (length b)) [] (file :: b)) as Hsk. cbn [app] in Hsk. change (zlen (@nil Z)) with 0 in Hsk. rewrite Hsk. clear Hsk.
  assert (remove_loop (S (length b)) (zlen a) (a ++ file :: b) file false = remove_loop (S (length b)) (zlen a) (a ++ file :: b) file true) as ->.
  { cbn [remove_loop]. rewrite load_app. cbn [mbind res_bind orb]. by rewrite Z.eqb_refl. }
  rewrite remove_shift by lia. cbn [mbind res_bind negb]. set (y := List.last b file). rewrite app_assoc.
  rewrite zlen_app in *. rewrite zlen_cons in Hl. change (zlen [y]) with 1. rewrite zlen_app.
  rewrite (u64_small (zlen a + zlen b + 1 - 1)) by lia. replace (zlen a + zlen b + 1 - 1) with (zlen (a ++ b)) by (rewrite zlen_app; lia).
  destruct (rev (a ++ b)) as [|x l] eqn:Er.
  - apply (f_equal (@rev Z)) in Er. rewrite rev_involutive in Er. cbn in Er. rewrite Er. change (zlen (@nil Z)) with 0. done.
  - apply (f_equal (@rev Z)) in Er. rewrite rev_involutive in Er. cbn [rev] in Er. rewrite Er. rewrite zlen_app. change (zlen [x]) with 1.
    pose proof (zlen_nonneg (rev l)). assert (zlen (a ++ b) = zlen (rev l) + 1) as Ez by (by rewrite Er, zlen_app). rewrite zlen_app in Ez. rewrite u64_small by lia.
    replace (zlen (rev l) + 1 - 1) with (zlen (rev l)) by lia. rewrite load_last. cbn [mbind res_bind]. do 2 f_equal.
    replace (Z.to_nat (zlen (rev l) + 1)) with (length (rev l ++ [x])) by (rewrite length_app; unfold zlen; simpl; lia). apply take_app_length.
Qed.

(** Opening a terminal gives its keys to the new file; closing a file gives them to the one
    opened last among the others, and closing the only file reads before the table. *)
Theorem ttyk_open_close c id q : get (ttyk_queues c) id = Some q -> zlen (files q) < 2 ^ 63 ->
  (forall file, exists c', ttyk_open c id file = Ok (c', 0) /\ get (ttyk_queues c') id = Some (mk_ttyk_queue (Some file) (files q ++ [file]))) /\
  (forall file a b, files q = a ++ file :: b -> file ∉ a ->
     match rev (a ++ b) with
     | [] => ttyk_close c id file = Fault
     | x :: _ => exists c', ttyk_close c id file = Ok c' /\ get (ttyk_queues c') id = Some (mk_ttyk_queue (Some x) (a ++ b))
     end).
Proof.
  intros Hq Hl. pose proof Hq as [Hid Hlk]%get_Some. apply lookup_lt_Some in Hlk as Hlt.
  assert (forall q1, get (<[Z.to_nat id := q1]> (ttyk_queues c)) id = Some q1) as Hset by (intros q1; apply get_Some; split; [done|]; by apply list_lookup_insert_eq).
  split.
  - intros file. unfold ttyk_open, on_queue. rewrite Hq. cbn [res_of_option mbind res_bind]. eexists. split; [done|]. apply Hset.
  - intros file a b Ef Hn. unfold ttyk_close, on_queue. rewrite Hq. cbn [res_of_option mbind res_bind]. rewrite (remove_file_ok q file a b Ef Hn Hl).
    destruct (rev (a ++ b)) as [|x l]; [done|]. cbn [mbind res_bind]. eexists. split; [done|]. apply Hset.
Qed.

(** ** A small console *)
Module ConDemo.
Definition c0 : console :=
  mk_console (input_init TtyDemo.w0) 0 def_keymap [mk_ttyk_queue (Some 9) [8; 9]] (mk_parser 0 0 (replicate 24 0)).
Definition stack : list Z := replicate 8 204.
Lemma demo_ready : ready c0.
Proof. by split_and!. Qed.
Lemma demo_screen : holds (screen (kbd c0)) 0 TtyDemo.t0 TtyDemo.s0.
Proof. apply TtyDemo.demo_holds. auto. Qed.
(** The keys A and, with shift, B typed. *)
Definition ring : list Z := [0; 65; 1; 66] ++ replicate 508 0.
Definition c1 : console := set_kbd c0 (set_kb (kbd c0) (Cbufm.mk_cbufm 4 512 ring)).
Lemma demo_woken : woken c1 0 9 [(0, 65); (1, 66)].
Proof.
  split; [done|by eexists| |by repeat constructor|done]. split; [|done|cbn; lia|done|done|done].
  split; [cbn; lia|]. split; [done|cbn; lia].
Qed.
End ConDemo.

Lemma ansi_sequence_witness :
  exists buf, zlen buf = 24 /\ write_chars ConDemo.c0 0 ([27; 91; 51; 49; 59; 53] ++ [109]) ConDemo.stack
    = (c ← on_screen ConDemo.c0 (fun w => tty_set_color_ansi w 0 31); Ok (set_ansi c (mk_parser 0 0 buf))).
Proof.
  apply (ansi_sequence ConDemo.c0 0 [[51; 49]; [53]] 109 ConDemo.stack ConDemo.demo_ready); [|done|done|lia|done].
  repeat constructor; done.
Defined.

Lemma ttyk_write_text_witness :
  exists c', ttyk_write ConDemo.c0 0 (bytes "hi") 2 ConDemo.stack = Ok (c', 2) /\ holds (screen (kbd c')) 0 TtyDemo.t0 (type_all TtyDemo.t0 (bytes "hi") TtyDemo.s0).
Proof.
  destruct (ttyk_write_text ConDemo.c0 0 (bytes "hi") ConDemo.stack TtyDemo.t0 TtyDemo.s0 eq_refl ltac:(by repeat constructor) ConDemo.demo_screen) as (c' & E & Hh & _).
  exists c'. exact (conj E Hh).
Defined.

Lemma ansi_home_faults_witness : write_chars ConDemo.c0 0 [27; 91; 72; 65] ConDemo.stack = Fault.
Proof. apply (ansi_home_faults ConDemo.c0 0 ConDemo.stack TtyDemo.t0 TtyDemo.s0 65 ConDemo.demo_ready eq_refl ConDemo.demo_screen); lia. Defined.

Lemma ansi_long_number_faults_witness : write_chars ConDemo.c0 0 ([27; 91; 48; 48; 48; 48; 48; 48; 48; 49] ++ [109]) ConDemo.stack = Fault.
Proof.
  apply (ansi_long_number_faults ConDemo.c0 0 [48; 48; 48; 48; 48; 48; 48; 49] 109 ConDemo.stack ConDemo.demo_ready); [|by vm_compute|lia|done].
  repeat constructor; done.
Defined.

Lemma ttyk_read_keys_witness :
  (exists c', ttyk_read [Some ConDemo.c1] ConDemo.c0 0 9 [0; 0] 2 = Ok (c', bytes "aB", 2)) /\ ttyk_read [Some ConDemo.c1] ConDemo.c0 0 9 [0] 1 = Fault.
Proof.
  destruct (ttyk_read_keys ConDemo.c1 ConDemo.c0 0 9 [(0, 65); (1, 66)] [0; 0] [] ConDemo.demo_woken ltac:(done)) as [H1 _].
  destruct (ttyk_read_keys ConDemo.c1 ConDemo.c0 0 9 [(0, 65); (1, 66)] [0] [] ConDemo.demo_woken ltac:(done)) as [_ H2].
  split; [|apply H2; done]. destruct (H1 eq_refl) as (c' & E & _). exists c'. exact E.
Defined.

Lemma ttyk_open_close_witness :
  exists c', ttyk_close ConDemo.c0 0 9 = Ok c' /\ get (ttyk_queues c') 0 = Some (mk_ttyk_queue (Some 8) [8]).
Proof.
  destruct (ttyk_open_close ConDemo.c0 0 (mk_ttyk_queue (Some 9) [8; 9]) eq_refl ltac:(by vm_compute)) as [_ Hc].
  apply (Hc 9 [8] []); [done|]. by apply (bool_decide_unpack _).
Defined.
