(* ===== verification/Irq.v ===== *)
(** * Interrupts: sys/irq.c

    A handler is known by its address, a chain of [irq_func_t] is the list of its handlers.
    Running a handler is a line in the log [ran].  The workers are the threads of [irq_worker];
    each has its status and the place it has got to in its loop, so that interrupts and other
    workers may come in between.  What a worker does under [irq_worker_spinlock] is one step. *)
From S2P Require Import Prelude Strings.

Definition IRQ_WORKER_AMOUNT : Z := 4.
Definition IRQQ_SIZE : Z := 8192.

(** Where a worker is: at the top of its loop, before the test of [irqq_wait], between that test
    and the blocking, or in the loop over the handlers with these left. *)
Inductive place := Top | Waiting | Blocking | Running (left : list Z).

Record worker := mk_worker { runnable : bool; at_ : place }.

(** [irqq] is [ibuffer] and [write_ptr]; [irq_last] and [irq_worker_to_use] are statics. *)
Record irqw := mk_irqw {
  irqs : list (list Z); irqs_imm : list (list Z); irq_workers : list worker;
  ibuffer : list Z; write_ptr : Z; irq_last : Z; irq_worker_to_use : Z; ran : list Z }.

Definition set_workers (w : irqw) x := mk_irqw (irqs w) (irqs_imm w) x (ibuffer w) (write_ptr w) (irq_last w) (irq_worker_to_use w) (ran w).
Definition set_irqq (w : irqw) b p := mk_irqw (irqs w) (irqs_imm w) (irq_workers w) b p (irq_last w) (irq_worker_to_use w) (ran w).
Definition set_last (w : irqw) x := mk_irqw (irqs w) (irqs_imm w) (irq_workers w) (ibuffer w) (write_ptr w) x (irq_worker_to_use w) (ran w).
Definition set_ran (w : irqw) x := mk_irqw (irqs w) (irqs_imm w) (irq_workers w) (ibuffer w) (write_ptr w) (irq_last w) (irq_worker_to_use w) x.
Definition set_irqs (w : irqw) x := mk_irqw x (irqs_imm w) (irq_workers w) (ibuffer w) (write_ptr w) (irq_last w) (irq_worker_to_use w) (ran w).
Definition set_irqs_imm (w : irqw) x := mk_irqw (irqs w) x (irq_workers w) (ibuffer w) (write_ptr w) (irq_last w) (irq_worker_to_use w) (ran w).
Definition set_to_use (w : irqw) x := mk_irqw (irqs w) (irqs_imm w) (irq_workers w) (ibuffer w) (write_ptr w) (irq_last w) x (ran w).

(** ** The queue *)

(** [None] for a read that has to wait. *)
Definition irqq_read (w : irqw) (start : Z) : res (option (Z * Z)) :=
  let w_off := if write_ptr w <? start then write_ptr w + IRQQ_SIZE else write_ptr w in
  let possible := u64 (IRQQ_SIZE - start) in
  let possible := if possible >? u64 (w_off - start) then u64 (w_off - start) else possible in
  let possible := if possible >? 1 then 1 else possible in
  if possible =? 0 then Ok None
  else
    irq ← load (ibuffer w) start;
    let start := start + possible in
    Ok (Some (irq, if start =? IRQQ_SIZE then 0 else start)).

Definition irqq_available (w : irqw) (start : Z) : Z :=
  if start =? write_ptr w then 0
  else if start >? write_ptr w then u64 (IRQQ_SIZE - start + write_ptr w)
  else write_ptr w - start.

Fixpoint irqq_put (fuel : nat) (b : list Z) (p irq len : Z) : res (list Z * Z) :=
  if len >? 0 then
    match fuel with
    | O => OutOfFuel
    | S f =>
        let amnt := IRQQ_SIZE - p in
        let amnt := if amnt >? len then len else amnt in
        b ← store b p irq;
        let p := u16 (p + amnt) in
        irqq_put f b (if p =? IRQQ_SIZE then 0 else p) irq (len - amnt)
    end
  else Ok (b, p).

Definition on_worker (w : irqw) (id : Z) (f : worker -> worker) : res irqw :=
  k ← res_of_option (get (irq_workers w) id);
  Ok (set_workers w (<[Z.to_nat id := f k]> (irq_workers w))).

Definition irqq_write (w : irqw) (irq : Z) : res irqw :=
  '(b, p) ← irqq_put 1 (ibuffer w) (write_ptr w) irq 1;
  let w := set_irqq w b p in
  let w := if irq_worker_to_use w >=? IRQ_WORKER_AMOUNT then set_to_use w 0 else w in
  on_worker w (irq_worker_to_use w) (fun k => mk_worker true (at_ k)).

(** ** The interrupt and the workers *)

Definition irq_enqueue (w : irqw) (irq : Z) : res irqw :=
  l ← res_of_option (get (irqs_imm w) irq);
  irqq_write (set_ran w (ran w ++ l)) irq.

(** One step of [irq_worker] on the thread of worker [id]. *)
Definition worker_step (w : irqw) (id : Z) : res irqw :=
  k ← res_of_option (get (irq_workers w) id);
  let goto w p := on_worker w id (fun k => mk_worker (runnable k) p) in
  match at_ k with
  | Top =>
      if irqq_available w (irq_last w) =? 0 then goto w Waiting
      else
        o ← irqq_read w (irq_last w);
        match o with
        | None => OutOfFuel
        | Some (irq, start) => l ← res_of_option (get (irqs w) irq); goto (set_last w start) (Running l)
        end
  | Waiting => if irqq_available w (irq_last w) =? 0 then goto w Blocking else goto w Top
  | Blocking => on_worker w id (fun _ => mk_worker false Waiting)
  | Running [] => goto w Top
  | Running (f :: l) => goto (set_ran w (ran w ++ [f])) (Running l)
  end.

(** ** Handlers *)

Definition irq_install (w : irqw) (irq func : Z) : res (irqw * Z) :=
  l ← res_of_option (get (irqs w) irq);
  Ok (set_irqs w (<[Z.to_nat irq := l ++ [func]]> (irqs w)), 0).

(** The walk to the last handler: [None] if the function is met before it. *)
Fixpoint install_walk (l : list Z) (func : Z) : option (list Z) :=
  match l with
  | [] => Some [func]
  | [f] => Some [f; func]
  | f :: next => if f =? func then None else match install_walk next func with Some l' => Some (f :: l') | None => None end
  end.

Definition irq_install_immediate (w : irqw) (irq func : Z) : res (irqw * Z) :=
  l ← res_of_option (get (irqs_imm w) irq);
  match install_walk l func with
  | None => Ok (w, -1)
  | Some l' => Ok (set_irqs_imm w (<[Z.to_nat irq := l']> (irqs_imm w)), 0)
  end.

(** The last handler is not looked at. *)
Fixpoint remove_walk (l : list Z) (func : Z) : option (list Z) :=
  match l with
  | [] | [_] => None
  | f :: next => if f =? func then Some next else match remove_walk next func with Some l' => Some (f :: l') | None => None end
  end.

Definition irq_remove (w : irqw) (irq func : Z) : res (irqw * Z) :=
  l ← res_of_option (get (irqs_imm w) irq);
  match remove_walk l func with
  | None => Ok (w, -1)
  | Some l' => Ok (set_irqs_imm w (<[Z.to_nat irq := l']> (irqs_imm w)), 0)
  end.

(** Before any interrupt, with the workers started. *)
Definition irq_initsys (w : irqw) : irqw := set_workers w (replicate (Z.to_nat IRQ_WORKER_AMOUNT) (mk_worker true Top)).
Definition irq_start (fresh : list Z) : irqw := mk_irqw (replicate 24 []) (replicate 24 []) [] fresh 0 0 0 [].

(** ** The queue holds the interrupts that wait *)

(** Where the [i]th waiting interrupt is. *)
Definition ring_at (last : Z) (i : nat) : nat := Z.to_nat ((last + Z.of_nat i) mod IRQQ_SIZE).

Record waiting_irqs (w : irqw) (pending : list Z) : Prop := {
  wi_size : zlen (ibuffer w) = IRQQ_SIZE;
  wi_last : 0 <= irq_last w < IRQQ_SIZE;
  wi_few : zlen pending < IRQQ_SIZE;
  wi_end : write_ptr w = (irq_last w + zlen pending) mod IRQQ_SIZE;
  wi_data : forall i x, pending !! i = Some x -> ibuffer w !! ring_at (irq_last w) i = Some x }.

Lemma mod_wrap x : 0 <= x < 2 * IRQQ_SIZE -> x mod IRQQ_SIZE = if x <? IRQQ_SIZE then x else x - IRQQ_SIZE.
Proof.
  unfold IRQQ_SIZE. intros Hx. destruct (Z.ltb_spec x 8192); [apply Z.mod_small; lia|].
  replace x with (x - 8192 + 1 * 8192) at 1 by lia. rewrite Z.mod_add by lia. apply Z.mod_small. lia.
Qed.

Lemma available_ok w pending : waiting_irqs w pending -> irqq_available w (irq_last w) = zlen pending.
Proof.
  intros [Hs Hl Hf He _]. pose proof (zlen_nonneg pending). unfold irqq_available. rewrite He, mod_wrap by lia. unfold IRQQ_SIZE in *.
  destruct (Z.ltb_spec (irq_last w + zlen pending) 8192).
  - destruct (Z.eqb_spec (irq_last w) (irq_last w + zlen pending)); [lia|]. destruct (Z.gtb_spec (irq_last w) (irq_last w + zlen pending)); lia.
  - destruct (Z.eqb_spec (irq_last w) (irq_last w + zlen pending - 8192)); [lia|]. destruct (Z.gtb_spec (irq_last w) (irq_last w + zlen pending - 8192)); [|lia].
    rewrite u64_small; lia.
Qed.

Lemma irq_read_ok w x pending : waiting_irqs w (x :: pending) ->
  let start := (irq_last w + 1) mod IRQQ_SIZE in irqq_read w (irq_last w) = Ok (Some (x, start)) /\ waiting_irqs (set_last w start) pending.
Proof.
  intros [Hs Hl Hf He Hd]. rewrite zlen_cons in *. pose proof (zlen_nonneg pending). split.
  - unfold irqq_read. set (w_off := if _ <? _ then _ else _). assert (w_off = irq_last w + (zlen pending + 1)) as ->.
    { unfold w_off. rewrite He, mod_wrap by lia. unfold IRQQ_SIZE in *. destruct (Z.ltb_spec (irq_last w + (zlen pending + 1)) 8192).
      - destruct (Z.ltb_spec (irq_last w + (zlen pending + 1)) (irq_last w)); lia.
      - destruct (Z.ltb_spec (irq_last w + (zlen pending + 1) - 8192) (irq_last w)); lia. }
    replace (irq_last w + (zlen pending + 1) - irq_last w) with (zlen pending + 1) by lia. unfold IRQQ_SIZE in *. rewrite !u64_small by lia.
    specialize (Hd 0%nat x eq_refl). unfold ring_at in Hd. rewrite Z.add_0_r in Hd. unfold IRQQ_SIZE in Hd. rewrite Z.mod_small in Hd by lia.
    assert ((if (if 8192 - irq_last w >? zlen pending + 1 then zlen pending + 1 else 8192 - irq_last w) >? 1 then 1
      else if 8192 - irq_last w >? zlen pending + 1 then zlen pending + 1 else 8192 - irq_last w) = 1) as ->.
    { destruct (Z.gtb_spec (8192 - irq_last w) (zlen pending + 1)); match goal with |- context [?a >? 1] => destruct (Z.gtb_spec a 1) end; lia. }
    cbn [Z.eqb]. rewrite (load_nat _ _ x) by (lia || done). cbn [mbind res_bind]. fold IRQQ_SIZE. rewrite mod_wrap by (unfold IRQQ_SIZE; lia). unfold IRQQ_SIZE.
    destruct (Z.eqb_spec (irq_last w + 1) 8192), (Z.ltb_spec (irq_last w + 1) 8192); do 3 f_equal; lia.
  - assert (0 < IRQQ_SIZE) as Hpos by done. split; cbn [ibuffer irq_last write_ptr set_last]; [done|by apply Z.mod_pos_bound|lia| |].
    + rewrite He, Z.add_mod_idemp_l by lia. f_equal. lia.
    + intros i y Hi. specialize (Hd (S i) y Hi). unfold ring_at in *. rewrite Z.add_mod_idemp_l by lia. rewrite <- Hd. do 3 f_equal. lia.
Qed.

Lemma put_ok b p irq : 0 <= p < IRQQ_SIZE -> zlen b = IRQQ_SIZE ->
  irqq_put 1 b p irq 1 = Ok (<[Z.to_nat p := irq]> b, (p + 1) mod IRQQ_SIZE).
Proof.
  intros Hp Hb. assert (store b p irq = Ok (<[Z.to_nat p := irq]> b)) as Es by (apply store_in_range; lia). cbn [irqq_put Z.gtb Z.compare]. rewrite Es.
  unfold IRQQ_SIZE in *. cbn [mbind res_bind]. assert ((if 8192 - p >? 1 then 1 else 8192 - p) = 1) as -> by (destruct (Z.gtb_spec (8192 - p) 1); lia).
  cbn [Z.sub Z.add Z.opp Z.pos_sub Z.gtb Z.compare]. unfold u16. rewrite (Z.mod_small (p + 1) (2 ^ 16)) by lia. fold IRQQ_SIZE. rewrite mod_wrap by (unfold IRQQ_SIZE; lia). unfold IRQQ_SIZE.
  destruct (Z.eqb_spec (p + 1) 8192), (Z.ltb_spec (p + 1) 8192); do 2 f_equal; lia.
Qed.

Lemma put_waiting w w' pending irq : waiting_irqs w pending -> zlen pending < IRQQ_SIZE - 1 -> irq_last w' = irq_last w ->
  ibuffer w' = <[Z.to_nat (write_ptr w) := irq]> (ibuffer w) -> write_ptr w' = (write_ptr w + 1) mod IRQQ_SIZE -> waiting_irqs w' (pending ++ [irq]).
Proof.
  intros [Hs Hl Hf He Hd] Hr El Eb Ep. assert (0 < IRQQ_SIZE) as Hpos by done. pose proof (zlen_nonneg pending). split.
  - by rewrite Eb, zlen_insert.
  - by rewrite El.
  - rewrite zlen_app. change (zlen [irq]) with 1. lia.
  - rewrite Ep, El, He, zlen_app. change (zlen [irq]) with 1. rewrite Z.add_mod_idemp_l by lia. f_equal. lia.
  - rewrite El, Eb. intros i x Hi. assert ((i < length pending)%nat \/ i = length pending /\ x = irq) as [Hlt|[-> ->]].
    { apply lookup_app_Some in Hi as [Hi|[Hge Hi]]; [left; by eapply lookup_lt_Some|]. right. destruct (i - length pending)%nat as [|n] eqn:En; [|done]. injection Hi as ->. split; [lia|done]. }
    + rewrite lookup_app_l in Hi by done. rewrite list_lookup_insert_ne; [by apply Hd|]. unfold ring_at. rewrite He. unfold zlen in *.
      intros E. apply Z2Nat.inj in E; [|by apply Z.mod_pos_bound..]. rewrite !mod_wrap in E by (unfold IRQQ_SIZE in *; lia). unfold IRQQ_SIZE in *.
      destruct (Z.ltb_spec (irq_last w + Z.of_nat (length pending)) 8192), (Z.ltb_spec (irq_last w + Z.of_nat i) 8192); lia.
    + unfold ring_at. rewrite He. unfold zlen. apply list_lookup_insert_eq. pose proof (Z.mod_pos_bound (irq_last w + Z.of_nat (length pending)) IRQQ_SIZE Hpos). unfold zlen in Hs. lia.
Qed.

(** ** Interleavings *)

Definition handlers (t : list (list Z)) (irq : Z) : list Z := default [] (get t irq).
Definition left_of (k : worker) : list Z := match at_ k with Running l => l | _ => [] end.
Definition lefts (ws : list worker) : list Z := ws ≫= left_of.

(** A machine, the interrupts that came and those a worker took. *)
Record istate := mk_istate { iw : irqw; arrived : list Z; taken : list Z }.

(** What the next step of a worker takes from the queue. *)
Definition takes (w : irqw) (id : Z) : list Z :=
  match get (irq_workers w) id with
  | Some k =>
      match at_ k with
      | Top => if irqq_available w (irq_last w) =? 0 then [] else match irqq_read w (irq_last w) with Ok (Some (irq, _)) => [irq] | _ => [] end
      | _ => []
      end
  | None => []
  end.

(** Interrupts, while there is room, and steps of workers that are not blocked, in any order. *)
Inductive istep : istate -> istate -> Prop :=
  | Interrupt w w' a t irq : irqq_available w (irq_last w) < IRQQ_SIZE - 1 -> irq_enqueue w irq = Ok w' -> istep (mk_istate w a t) (mk_istate w' (a ++ [irq]) t)
  | Work w w' a t id k : get (irq_workers w) id = Some k -> runnable k = true -> worker_step w id = Ok w' -> istep (mk_istate w a t) (mk_istate w' a (t ++ takes w id)).

Lemma get_set {A} (l : list A) id k k' : get l id = Some k -> get (<[Z.to_nat id := k']> l) id = Some k'.
Proof. intros [? H]%get_Some. apply get_Some. split; [done|]. apply list_lookup_insert_eq. by eapply lookup_lt_Some. Qed.

Lemma on_worker_ok w id k f : get (irq_workers w) id = Some k -> on_worker w id f = Ok (set_workers w (<[Z.to_nat id := f k]> (irq_workers w))).
Proof. intros H. unfold on_worker. by rewrite H. Qed.

(** A step of a worker, with its place known. *)
Lemma step_eq w id r p : get (irq_workers w) id = Some (mk_worker r p) -> worker_step w id =
  let goto (w : irqw) p' := Ok (set_workers w (<[Z.to_nat id := mk_worker r p']> (irq_workers w))) in
  match p with
  | Top => if irqq_available w (irq_last w) =? 0 then goto w Waiting
           else
             o ← irqq_read w (irq_last w);
             match o with None => OutOfFuel | Some (irq, start) => l ← res_of_option (get (irqs w) irq); goto (set_last w start) (Running l) end
  | Waiting => if irqq_available w (irq_last w) =? 0 then goto w Blocking else goto w Top
  | Blocking => Ok (set_workers w (<[Z.to_nat id := mk_worker false Waiting]> (irq_workers w)))
  | Running [] => goto w Top
  | Running (f :: l) => goto (set_ran w (ran w ++ [f])) (Running l)
  end.
Proof.
  intros H. unfold worker_step, on_worker. rewrite H. cbn [res_of_option mbind res_bind at_]. destruct p as [| | |[|f l]]; cbn [set_ran irq_workers]; rewrite ?H; try done.
  destruct (_ =? 0); [done|]. destruct (irqq_read _ _) as [[[irq start]|]| | |]; try done. cbn [mbind res_bind]. destruct (get (irqs w) irq); [|done].
  cbn [res_of_option mbind res_bind set_last irq_workers]. by rewrite H.
Qed.

Lemma lefts_update ws id k : get ws id = Some k -> exists p s, lefts ws = p ++ left_of k ++ s /\ forall k', lefts (<[Z.to_nat id := k']> ws) = p ++ left_of k' ++ s.
Proof.
  intros [_ H]%get_Some. exists (lefts (take (Z.to_nat id) ws)), (lefts (drop (S (Z.to_nat id)) ws)). split.
  - rewrite <- (take_drop_middle ws _ _ H) at 1. unfold lefts. rewrite bind_app. done.
  - intros k'. rewrite insert_take_drop by (by eapply lookup_lt_Some). unfold lefts. rewrite bind_app. done.
Qed.

Lemma waiting_same w w' pending : waiting_irqs w pending -> ibuffer w' = ibuffer w -> write_ptr w' = write_ptr w -> irq_last w' = irq_last w -> waiting_irqs w' pending.
Proof. intros [H1 H2 H3 H4 H5] Eb Ep El. split; rewrite ?Eb, ?Ep, ?El; done. Qed.

Lemma irq_write_ok w pending irq w' : waiting_irqs w pending -> irqq_write w irq = Ok w' ->
  exists k, get (irq_workers w) (if irq_worker_to_use w >=? IRQ_WORKER_AMOUNT then 0 else irq_worker_to_use w) = Some k /\
    irq_workers w' = <[Z.to_nat (if irq_worker_to_use w >=? IRQ_WORKER_AMOUNT then 0 else irq_worker_to_use w) := mk_worker true (at_ k)]> (irq_workers w) /\
    ibuffer w' = <[Z.to_nat (write_ptr w) := irq]> (ibuffer w) /\ write_ptr w' = (write_ptr w + 1) mod IRQQ_SIZE /\
    irq_last w' = irq_last w /\ irqs w' = irqs w /\ irqs_imm w' = irqs_imm w /\ ran w' = ran w.
Proof.
  intros Hw. unfold irqq_write. assert (0 <= write_ptr w < IRQQ_SIZE) as Hp by (rewrite (wi_end _ _ Hw); by apply Z.mod_pos_bound).
  rewrite put_ok by (done || apply Hw). cbn [mbind res_bind]. unfold on_worker. cbn [irq_worker_to_use set_irqq]. destruct (irq_worker_to_use w >=? IRQ_WORKER_AMOUNT).
  all: cbn [irq_workers set_irqq set_to_use irq_worker_to_use]; intros E; apply bind_Ok in E as (k & Hk%res_of_option_Ok & [= <-]); exists k; done.
Qed.

(** What holds after any number of steps from [w0]. *)
Definition irq_inv (w0 : irqw) (s : istate) : Prop :=
  irqs (iw s) = irqs w0 /\ irqs_imm (iw s) = irqs_imm w0 /\
  (exists pending, waiting_irqs (iw s) pending /\ arrived s = taken s ++ pending) /\
  ran (iw s) ++ lefts (irq_workers (iw s)) ≡ₚ (arrived s ≫= handlers (irqs_imm w0)) ++ (taken s ≫= handlers (irqs w0)).

Lemma inv_interrupt w0 w w' a t irq : irq_inv w0 (mk_istate w a t) -> irqq_available w (irq_last w) < IRQQ_SIZE - 1 -> irq_enqueue w irq = Ok w' ->
  irq_inv w0 (mk_istate w' (a ++ [irq]) t).
Proof.
  intros (Hi & Him & (pending & Hw & Ha) & Hp) Hroom E. cbn [iw arrived taken] in *. unfold irq_enqueue in E. apply bind_Ok in E as (l & Hl%res_of_option_Ok & E).
  rewrite (available_ok _ _ Hw) in Hroom. assert (waiting_irqs (set_ran w (ran w ++ l)) pending) as Hw1 by (by apply (waiting_same w)).
  destruct (irq_write_ok _ _ _ _ Hw1 E) as (k & Hk & Ew & Eb & Ep & El & Ei & Eim & Er). cbn [irq_workers ibuffer write_ptr irq_last irqs irqs_imm ran set_ran irq_worker_to_use] in *.
  split; [cbn; congruence|]. split; [cbn; congruence|]. cbn [iw arrived taken]. split.
  - exists (pending ++ [irq]). split; [by eapply put_waiting|]. by rewrite Ha, app_assoc.
  - destruct (lefts_update _ _ _ Hk) as (p & s & E1 & E2). rewrite Ew, E2, Er. change (left_of (mk_worker true (at_ k))) with (left_of k). rewrite <- E1.
    rewrite bind_app. cbn [mbind list_bind]. rewrite app_nil_r. unfold handlers at 2. rewrite <- Him, Hl. cbn [default]. rewrite Him.
    rewrite <- !app_assoc, (Permutation_app_comm l), app_assoc, Hp, <- !app_assoc. apply Permutation_app_head, Permutation_app_comm.
Qed.

(** A worker that only moves. *)
Lemma inv_move w0 w w' a t id k k' : irq_inv w0 (mk_istate w a t) -> get (irq_workers w) id = Some k -> left_of k = [] -> left_of k' = [] ->
  w' = set_workers w (<[Z.to_nat id := k']> (irq_workers w)) -> irq_inv w0 (mk_istate w' a (t ++ [])).
Proof.
  intros (Hi & Him & (pending & Hw & Ha) & Hp) Hk Hl Hl' ->. rewrite app_nil_r. split; [done|]. split; [done|]. split; [exists pending; split; [by apply (waiting_same w)|done]|].
  cbn [iw irq_workers set_workers ran] in *. destruct (lefts_update _ _ _ Hk) as (p & s & E1 & E2). rewrite E1, Hl in Hp. rewrite E2, Hl'. done.
Qed.

Ltac moved Ek := eapply inv_move; [eassumption|eassumption|unfold left_of; by rewrite Ek| |reflexivity]; reflexivity.

Lemma inv_work w0 w w' a t id : irq_inv w0 (mk_istate w a t) -> worker_step w id = Ok w' -> irq_inv w0 (mk_istate w' a (t ++ takes w id)).
Proof.
  intros Hinv E. unfold worker_step in E. apply bind_Ok in E as (k & Hk%res_of_option_Ok & E). cbv beta zeta in E. unfold takes. rewrite Hk.
  destruct (at_ k) as [| | |[|f l]] eqn:Ek.
  - destruct (Z.eqb_spec (irqq_available w (irq_last w)) 0) as [E0|E0].
    { rewrite (on_worker_ok w id k _ Hk) in E. injection E as <-. by moved Ek. }
    destruct Hinv as (Hi & Him & (pending & Hw & Ha) & Hp). cbn [iw arrived taken] in *. rewrite (available_ok _ _ Hw) in E0. destruct pending as [|x pending]; [done|].
    destruct (irq_read_ok _ _ _ Hw) as [Er Hw']. rewrite Er in *. cbn [mbind res_bind] in E. apply bind_Ok in E as (l & Hl%res_of_option_Ok & E).
    rewrite (on_worker_ok (set_last w _) id k _ Hk) in E. injection E as <-. split; [done|]. split; [done|]. cbn [iw arrived taken irq_workers set_workers ran set_last]. split.
    + exists pending. split; [by apply (waiting_same _ _ _ Hw')|]. by rewrite Ha, <- app_assoc.
    + destruct (lefts_update _ _ _ Hk) as (p & s & E1 & E2). assert (left_of k = []) as Hk0 by (unfold left_of; by rewrite Ek). rewrite E1, Hk0 in Hp. cbn [app] in Hp.
      rewrite E2. cbn [left_of at_]. rewrite bind_app. cbn [mbind list_bind]. rewrite app_nil_r. unfold handlers at 3. rewrite <- Hi, Hl. cbn [default].
      rewrite Hi, (app_assoc _ _ l), <- Hp, <- !app_assoc. do 2 apply Permutation_app_head. apply Permutation_app_comm.
  - destruct (irqq_available w (irq_last w) =? 0); rewrite (on_worker_ok w id k _ Hk) in E; injection E as <-; by moved Ek.
  - rewrite (on_worker_ok w id k _ Hk) in E. injection E as <-. by moved Ek.
  - rewrite (on_worker_ok w id k _ Hk) in E. injection E as <-. by moved Ek.
  - assert (get (irq_workers (set_ran w (ran w ++ [f]))) id = Some k) as Hk' by done. rewrite (on_worker_ok _ id k _ Hk') in E. injection E as <-. rewrite app_nil_r.
    destruct Hinv as (Hi & Him & (pending & Hw & Ha) & Hp). split; [done|]. split; [done|]. split; [exists pending; split; [by apply (waiting_same w)|done]|].
    cbn [iw irq_workers set_workers ran set_ran] in *. destruct (lefts_update _ _ _ Hk) as (p & s & E1 & E2). rewrite E1 in Hp. rewrite E2. cbn [left_of at_ runnable] in *.
    unfold left_of in Hp. rewrite Ek in Hp. rewrite <- Hp, <- !app_assoc. apply Permutation_app_head. cbn [app]. by rewrite Permutation_middle.
Qed.

Lemma inv_reachable w0 s s' : rtc istep s s' -> irq_inv w0 s -> irq_inv w0 s'.
Proof. induction 1 as [|x y z Hxy _ IH]; [done|]. intros Hx. apply IH. destruct Hxy; [by eapply inv_interrupt|by eapply inv_work]. Qed.

(** C26: however interrupts and workers interleave, in the runs in which an interrupt comes only while
    fewer than 8191 wait: workers take the interrupts in the order they came, the queue holds those
    that came and were not taken, every immediate handler has run exactly once for each interrupt
    that came, and every other handler has run exactly once for each interrupt a worker has taken, or
    is what that worker still has to run.  An interrupt that comes on top of 8191 waiting ones loses
    them all ([irq_queue_overflow]), and nothing here says that what waits is taken: a worker can go
    to sleep over it ([irq_wakeup_lost]). *)
Theorem irq_fifo w0 s : waiting_irqs w0 [] -> ran w0 = [] -> lefts (irq_workers w0) = [] -> rtc istep (mk_istate w0 [] []) s ->
  exists pending, arrived s = taken s ++ pending /\ irqq_available (iw s) (irq_last (iw s)) = zlen pending /\
    ran (iw s) ++ lefts (irq_workers (iw s)) ≡ₚ (arrived s ≫= handlers (irqs_imm w0)) ++ (taken s ≫= handlers (irqs w0)).
Proof.
  intros Hw Hr Hl Hs. apply (inv_reachable w0) in Hs as (_ & _ & (pending & Hp & Ha) & Hperm).
  - exists pending. split; [done|]. split; [by apply available_ok|done].
  - split; [done|]. split; [done|]. split; [by exists []|]. cbn. by rewrite Hr, Hl.
Qed.

(** ** A worker alone *)

Fixpoint run_worker (n : nat) (w : irqw) (id : Z) : res irqw :=
  match n with O => Ok w | S n => w ← worker_step w id; run_worker n w id end.

(** The steps to serve what waits: two and one for each handler, and three to go to sleep. *)
Definition drain_steps (w : irqw) (pending : list Z) : nat := foldr (fun irq n => (2 + length (handlers (irqs w) irq) + n)%nat) 3%nat pending.

Lemma run_app m : forall n w id, run_worker (m + n) w id = (w ← run_worker m w id; run_worker n w id).
Proof. induction m as [|m IH]; intros n w id; cbn [run_worker Nat.add]; [done|]. destruct (worker_step w id) as [w1| | |]; cbn [mbind res_bind]; [apply IH|done..]. Qed.

Lemma run_handlers l id : forall w k, get (irq_workers w) id = Some k -> at_ k = Running l ->
  run_worker (length l + 1) w id = Ok (set_workers (set_ran w (ran w ++ l)) (<[Z.to_nat id := mk_worker (runnable k) Top]> (irq_workers w))).
Proof.
  induction l as [|f l IH]; intros w [r p] Hk Ek; cbn [at_] in Ek; subst p; cbn [length Nat.add run_worker]; rewrite (step_eq _ _ _ _ Hk); cbv zeta iota beta; cbn [mbind res_bind].
  - rewrite app_nil_r. by destruct w.
  - rewrite (IH _ (mk_worker r (Running l))); [|by eapply get_set|done]. cbn [irq_workers set_workers ran set_ran runnable]. rewrite list_insert_insert_eq. f_equal.
    unfold set_workers, set_ran. cbn. by rewrite <- app_assoc.
Qed.

(** A worker that runs alone serves everything that waits, in order, calling the handlers of
    each interrupt in the order they were installed, and then goes to sleep. *)
Theorem irq_worker_drains pending : forall w id, waiting_irqs w pending -> get (irq_workers w) id = Some (mk_worker true Top) ->
  Forall (fun irq => is_Some (get (irqs w) irq)) pending ->
  exists w', run_worker (drain_steps w pending) w id = Ok w' /\ waiting_irqs w' [] /\ ran w' = ran w ++ (pending ≫= handlers (irqs w)) /\
    get (irq_workers w') id = Some (mk_worker false Waiting).
Proof.
  induction pending as [|x pending IH]; intros w id Hw Hk Hv; pose proof (available_ok _ _ Hw) as Hav.
  - change (drain_steps w []) with 3%nat. change (zlen (@nil Z)) with 0 in Hav. cbn [run_worker]. rewrite (step_eq _ _ _ _ Hk). cbv zeta iota beta. rewrite Hav. cbn [Z.eqb mbind res_bind].
    rewrite (step_eq _ _ true Waiting) by (by eapply get_set). cbv zeta iota beta. set (w1 := set_workers w _). change (irqq_available w1 (irq_last w1)) with (irqq_available w (irq_last w)). rewrite Hav.
    cbn [Z.eqb mbind res_bind]. rewrite (step_eq _ _ true Blocking) by (eapply get_set, get_set, Hk). cbv zeta iota beta. cbn [mbind res_bind].
    eexists. split; [done|]. split; [by apply (waiting_same w)|]. split; [by rewrite app_nil_r|]. eapply get_set, get_set, get_set, Hk.
  - apply Forall_cons in Hv as [[l Hl] Hv]. assert (handlers (irqs w) x = l) as Hh by (unfold handlers; by rewrite Hl).
    change (drain_steps w (x :: pending)) with (2 + length (handlers (irqs w) x) + drain_steps w pending)%nat. rewrite Hh.
    replace (2 + length l + drain_steps w pending)%nat with (S ((length l + 1) + drain_steps w pending)) by lia. cbn [run_worker].
    rewrite (step_eq _ _ _ _ Hk). cbv zeta iota beta. rewrite Hav, zlen_cons. destruct (Z.eqb_spec (zlen pending + 1) 0); [pose proof (zlen_nonneg pending); lia|].
    destruct (irq_read_ok _ _ _ Hw) as [-> Hw']. cbn [mbind res_bind]. rewrite Hl. cbn [res_of_option mbind res_bind].
    set (w0 := set_workers (set_last w _) _). assert (get (irq_workers w0) id = Some (mk_worker true (Running l))) as Hk0 by (eapply get_set, Hk).
    rewrite run_app, (run_handlers l id _ _ Hk0 eq_refl). unfold w0. cbn [mbind res_bind irq_workers set_workers set_last ran runnable]. rewrite list_insert_insert_eq.
    set (w1 := set_workers (set_ran _ _) _). destruct (IH w1 id) as (w' & E & Hw2 & Hr & Hk2); [by apply (waiting_same _ _ _ Hw')|by eapply get_set|done|].
    exists w'. change (drain_steps w1 pending) with (drain_steps w pending) in E. rewrite E. split; [done|]. split; [done|]. split; [|done].
    rewrite Hr. cbn [ran set_workers set_ran w1 irqs set_last mbind list_bind]. by rewrite Hh, <- app_assoc.
Qed.

(** ** What can go wrong *)

(** An interrupt that comes between a worker's test of the empty queue and its blocking is
    not served: the interrupt makes the worker runnable, the worker then blocks itself, and no
    worker can step while the interrupt waits. *)
Theorem irq_wakeup_lost w irq l : waiting_irqs w [] -> irq_worker_to_use w = 0 -> get (irqs_imm w) irq = Some l ->
  get (irq_workers w) 0 = Some (mk_worker true Blocking) -> (forall id k, get (irq_workers w) id = Some k -> runnable k = true -> id = 0) ->
  exists w1 w2, irq_enqueue w irq = Ok w1 /\ worker_step w1 0 = Ok w2 /\ waiting_irqs w2 [irq] /\ forall id k, get (irq_workers w2) id = Some k -> runnable k = false.
Proof.
  intros Hw Hu Hl Hk Hothers. assert (waiting_irqs (set_ran w (ran w ++ l)) []) as Hw1 by (by apply (waiting_same w)).
  assert (exists w1, irqq_write (set_ran w (ran w ++ l)) irq = Ok w1) as [w1 E].
  { unfold irqq_write. rewrite put_ok by (apply Hw || (cbn; rewrite (wi_end _ _ Hw); by apply Z.mod_pos_bound)). cbn [mbind res_bind irq_worker_to_use set_irqq set_ran]. rewrite Hu. cbn [Z.geb Z.compare IRQ_WORKER_AMOUNT].
    unfold on_worker. cbn [irq_worker_to_use set_irqq set_ran irq_workers]. rewrite Hu, Hk. by eexists. }
  destruct (irq_write_ok _ _ _ _ Hw1 E) as (k & Hk1 & Ew & Eb & Ep & El & _). cbn [irq_worker_to_use set_ran irq_workers ibuffer write_ptr irq_last] in *. rewrite Hu in Hk1, Ew. cbn [Z.geb Z.compare IRQ_WORKER_AMOUNT] in *.
  rewrite Hk in Hk1. injection Hk1 as <-. assert (get (irq_workers w1) 0 = Some (mk_worker true Blocking)) as Hk1 by (rewrite Ew; by eapply get_set).
  exists w1. eexists. split; [unfold irq_enqueue; by rewrite Hl|]. split; [|split].
  - by rewrite (step_eq _ _ _ _ Hk1).
  - apply (waiting_same w1); [|done..]. by apply (put_waiting (set_ran w (ran w ++ l)) w1 [] irq Hw1).
  - intros id k Hid. cbn [irq_workers set_workers] in Hid. rewrite Ew, list_insert_insert_eq in Hid. apply get_Some in Hid as [Hge Hid].
    destruct (decide (id = 0)) as [->|Hne].
    { apply get_Some in Hk as [_ Hlk]. rewrite list_lookup_insert_eq in Hid by (by eapply lookup_lt_Some). by injection Hid as <-. }
    rewrite list_lookup_insert_ne in Hid by lia. destruct (runnable k) eqn:Ek; [|done]. destruct Hne. eapply Hothers; [|exact Ek]. by apply get_Some.
Qed.

(** With 8191 interrupts waiting, one more makes the queue look empty: all of them are
    lost. *)
Theorem irq_queue_overflow w irq pending w' : waiting_irqs w pending -> zlen pending = IRQQ_SIZE - 1 -> irq_enqueue w irq = Ok w' ->
  irqq_available w (irq_last w) = IRQQ_SIZE - 1 /\ irqq_available w' (irq_last w') = 0.
Proof.
  intros Hw Hp E. split; [by rewrite (available_ok _ _ Hw)|]. unfold irq_enqueue in E. apply bind_Ok in E as (l & _ & E).
  assert (waiting_irqs (set_ran w (ran w ++ l)) pending) as Hw1 by (by apply (waiting_same w)). destruct (irq_write_ok _ _ _ _ Hw1 E) as (k & _ & _ & _ & Ep & El & _).
  cbn [write_ptr set_ran irq_last] in *. unfold irqq_available. rewrite El, Ep, (wi_end _ _ Hw), Hp, Z.add_mod_idemp_l by done.
  replace (irq_last w + (IRQQ_SIZE - 1) + 1) with (irq_last w + 1 * IRQQ_SIZE) by lia. rewrite Z.mod_add, Z.mod_small by (done || apply Hw). by rewrite Z.eqb_refl.
Qed.

(** ** Installing and removing *)

Lemma install_walk_ok a x func : install_walk (a ++ [x]) func = if bool_decide (func ∈ a) then None else Some (a ++ [x; func]).
Proof.
  induction a as [|y a IH]; [done|]. cbn [app]. assert (install_walk (y :: a ++ [x]) func = if y =? func then None else match install_walk (a ++ [x]) func with Some l' => Some (y :: l') | None => None end) as -> by (by destruct a).
  destruct (Z.eqb_spec y func) as [->|Hne]; [by rewrite bool_decide_eq_true_2 by left|]. rewrite IH. destruct (bool_decide_reflect (func ∈ a)).
  - by rewrite bool_decide_eq_true_2 by (by right).
  - rewrite bool_decide_eq_false_2; [done|]. intros [Heq|]%elem_of_cons; congruence.
Qed.

Lemma remove_walk_ok a b func : func ∉ a -> b <> [] -> remove_walk (a ++ func :: b) func = Some (a ++ b).
Proof.
  intros Hn Hb. induction a as [|y a IH]; cbn [app]; [destruct b; [done|]; cbn; by rewrite Z.eqb_refl|]. apply not_elem_of_cons in Hn as [Hy Hn].
  assert (remove_walk (y :: a ++ func :: b) func = if y =? func then Some (a ++ func :: b) else match remove_walk (a ++ func :: b) func with Some l' => Some (y :: l') | None => None end) as -> by (by destruct a).
  destruct (Z.eqb_spec y func); [congruence|]. by rewrite IH.
Qed.

Lemma remove_walk_none a x func : func ∉ a -> remove_walk (a ++ [x]) func = None.
Proof.
  intros Hn. induction a as [|y a IH]; [done|]. apply not_elem_of_cons in Hn as [Hy Hn]. cbn [app].
  assert (remove_walk (y :: a ++ [x]) func = if y =? func then Some (a ++ [x]) else match remove_walk (a ++ [x]) func with Some l' => Some (y :: l') | None => None end) as -> by (by destruct a).
  destruct (Z.eqb_spec y func); [congruence|]. by rewrite IH.
Qed.

(** A handler is installed behind the ones that are there; an immediate one not a second
    time, unless it is the last.  Removing works on immediate handlers only, and never on the
    last one: a handler that is alone stays for ever. *)
Theorem irq_install_remove w irq func a x : get (irqs_imm w) irq = Some (a ++ [x]) ->
  (forall l, get (irqs w) irq = Some l -> exists w', irq_install w irq func = Ok (w', 0) /\ get (irqs w') irq = Some (l ++ [func]) /\ irqs_imm w' = irqs_imm w) /\
  (func ∉ a -> exists w', irq_install_immediate w irq func = Ok (w', 0) /\ get (irqs_imm w') irq = Some (a ++ [x; func])) /\
  (func ∈ a -> irq_install_immediate w irq func = Ok (w, -1)) /\
  (forall b c, a = b ++ func :: c -> func ∉ b -> exists w', irq_remove w irq func = Ok (w', 0) /\ get (irqs_imm w') irq = Some (b ++ c ++ [x])) /\
  (func ∉ a -> irq_remove w irq func = Ok (w, -1)) /\
  (forall w' r, irq_remove w irq func = Ok (w', r) -> irqs w' = irqs w).
Proof.
  intros Hi. unfold irq_install, irq_install_immediate, irq_remove. rewrite Hi. cbn [res_of_option mbind res_bind]. rewrite install_walk_ok. split_and!.
  - intros l Hl. rewrite Hl. cbn [res_of_option mbind res_bind]. eexists. split; [done|]. split; [by eapply get_set|done].
  - intros Hn. rewrite bool_decide_eq_false_2 by done. eexists. split; [done|]. by eapply get_set.
  - intros He. by rewrite bool_decide_eq_true_2.
  - intros b c -> Hn. rewrite <- app_assoc. cbn [app]. rewrite remove_walk_ok; [|done|by destruct c]. eexists. split; [done|]. by eapply get_set.
  - intros Hn. by rewrite remove_walk_none.
  - intros w' r. by destruct (remove_walk _ _); intros [= <- _].
Qed.

(** ** A machine with two handlers *)
Module IrqDemo.
(** Interrupt 1 has a deferred handler 100 and interrupt 12 has 200; 1 has an immediate one. *)
Definition w0 : irqw :=
  irq_initsys (mk_irqw (<[1%nat := [100]]> (<[12%nat := [200; 201]]> (replicate 24 []))) (<[1%nat := [900]]> (replicate 24 [])) [] (replicate (Z.to_nat 8192) 0) 0 0 0 []).
Lemma start : waiting_irqs w0 [].
Proof. by split. Qed.
Definition get_ok {A} (d : A) (m : res A) : A := match m with Ok a => a | _ => d end.
(** Both interrupts have come; worker 0 has taken the first. *)
Definition w1 : irqw := get_ok w0 (irq_enqueue w0 1).
Definition w2 : irqw := get_ok w0 (irq_enqueue w1 12).
Definition w3 : irqw := get_ok w0 (worker_step w2 0).
(** All have gone to sleep but worker 0, which is about to. *)
Definition asleep : irqw :=
  get_ok w0 (w ← run_worker 3 w0 1; w ← run_worker 3 w 2; w ← run_worker 3 w 3; run_worker 2 w 0).
Lemma asleep_waits : waiting_irqs asleep [].
Proof. by split. Qed.
Definition full : irqw := mk_irqw (irqs w0) (irqs_imm w0) (irq_workers w0) (replicate (Z.to_nat 8192) 7) 8191 0 0 [].
Lemma full_waits : waiting_irqs full (replicate (Z.to_nat 8191) 7).
Proof.
  assert (zlen (replicate (Z.to_nat 8191) 7) = 8191) as El by (unfold zlen; rewrite length_replicate; lia).
  split; rewrite ?El; cbn [ibuffer irq_last write_ptr full]; unfold IRQQ_SIZE; [unfold zlen; rewrite length_replicate; lia|lia|lia|done|]. intros i x Hi. apply lookup_replicate in Hi as [-> Hi]. apply lookup_replicate. split; [done|].
  unfold ring_at. cbn [irq_last full]. unfold IRQQ_SIZE in *. pose proof (Z.mod_pos_bound (0 + Z.of_nat i) 8192 ltac:(done)). lia.
Qed.
End IrqDemo.

Lemma irq_fifo_witness : exists pending, [1; 12] = [1] ++ pending /\ irqq_available IrqDemo.w3 (irq_last IrqDemo.w3) = zlen pending.
Proof.
  destruct (irq_fifo IrqDemo.w0 (mk_istate IrqDemo.w3 [1; 12] [1]) IrqDemo.start eq_refl eq_refl) as (p & E & Hp & _).
  - eapply rtc_l; [apply (Interrupt IrqDemo.w0 IrqDemo.w1 [] [] 1); vm_compute; reflexivity|].
    eapply rtc_l; [apply (Interrupt IrqDemo.w1 IrqDemo.w2 [1] [] 12); vm_compute; reflexivity|].
    eapply rtc_l; [|apply rtc_refl]. refine (Work IrqDemo.w2 IrqDemo.w3 [1; 12] [] 0 (mk_worker true Top) _ _ _); vm_compute; reflexivity.
  - exists p. exact (conj E Hp).
Defined.

Lemma irq_worker_drains_witness : exists w', run_worker 3 IrqDemo.w0 0 = Ok w' /\ get (irq_workers w') 0 = Some (mk_worker false Waiting).
Proof.
  destruct (irq_worker_drains [] IrqDemo.w0 0 IrqDemo.start eq_refl ltac:(constructor)) as (w' & E & _ & _ & Hk). exists w'. exact (conj E Hk).
Defined.

Lemma irq_wakeup_lost_witness : exists w1 w2, irq_enqueue IrqDemo.asleep 12 = Ok w1 /\ worker_step w1 0 = Ok w2 /\ waiting_irqs w2 [12] /\
  forall id k, get (irq_workers w2) id = Some k -> runnable k = false.
Proof.
  apply (irq_wakeup_lost IrqDemo.asleep 12 [] IrqDemo.asleep_waits eq_refl eq_refl eq_refl).
  intros id k [Hid Hk]%get_Some Hr. destruct (Z.to_nat id) as [|[|[|[|n]]]] eqn:E; try (injection Hk as <-; discriminate Hr); [lia|]. discriminate Hk.
Defined.

Lemma irq_queue_overflow_witness : exists w', irq_enqueue IrqDemo.full 12 = Ok w' /\ irqq_available w' (irq_last w') = 0.
Proof.
  assert (exists w', irq_enqueue IrqDemo.full 12 = Ok w') as [w' E] by (eexists; vm_compute; reflexivity). exists w'. split; [exact E|].
  apply (irq_queue_overflow IrqDemo.full 12 _ w' IrqDemo.full_waits ltac:(by vm_compute) E).
Defined.

Lemma irq_install_remove_witness : irq_remove IrqDemo.w0 1 900 = Ok (IrqDemo.w0, -1).
Proof. apply (irq_install_remove IrqDemo.w0 1 900 [] 900 eq_refl). apply not_elem_of_nil. Defined.
