(* ===== verification/Ps2.v ===== *)
(** * The keyboard controller: arch/x64/ps2.c

    The interrupt handler takes one byte of the keyboard at a time and turns scan codes into
    presses and releases of Input.v; [pressed] is what the typematic repeats of the keyboard are
    recognised by.  Commands to the keyboard are given with the answers it has for them, which the
    handler puts into [last_cmd_byte]; the bytes that are sent are logged.  [ps2_init] is a function
    of what the controller answers, with a log of what is written to its ports; its handlers go
    into the lists of Irq.v.  The handler of the mouse, which throws three bytes away, is left out.
    Typing takes in the rounds of [input_loop] (Input.v), which repeat a key that is held. *)
From S2P Require Import Irq Prelude Tty CBuf Input.

(** Key codes of the scan codes. *)
Definition translation : list Z :=
  [0; 114; 0; 110; 108; 106; 107; 117; 0; 115; 113; 111; 109; 9; 96; 0;
   0; 23; 14; 0; 21; 81; 49; 0; 0; 0; 90; 83; 65; 87; 50; 0;
   0; 67; 88; 68; 69; 52; 51; 0; 0; 32; 86; 70; 84; 82; 53; 0;
   0; 78; 66; 72; 71; 89; 54; 0; 0; 0; 77; 74; 85; 55; 56; 0;
   0; 44; 75; 73; 79; 48; 57; 0; 0; 46; 47; 76; 59; 80; 45; 0;
   0; 0; 39; 0; 91; 61; 0; 0; 28; 15; 13; 93; 0; 92; 0; 0;
   0; 0; 0; 0; 0; 0; 8; 0; 0; 107; 0; 110; 113; 0; 0; 0;
   106; 7; 108; 111; 112; 114; 27; 1; 116; 5; 109; 4; 3; 115; 104; 0] ++ replicate 128 0.

Record ps2 := mk_ps2 { release : bool; pressed : list bool; last_cmd_byte : Z; leds : Z; sent : list Z; kb : input }.

Definition set_release (s : ps2) x := mk_ps2 x (pressed s) (last_cmd_byte s) (leds s) (sent s) (kb s).
Definition set_pressed_code (s : ps2) x := mk_ps2 (release s) x (last_cmd_byte s) (leds s) (sent s) (kb s).
Definition set_cmd_byte (s : ps2) x := mk_ps2 (release s) (pressed s) x (leds s) (sent s) (kb s).
Definition set_leds (s : ps2) x := mk_ps2 (release s) (pressed s) (last_cmd_byte s) x (sent s) (kb s).
Definition send (s : ps2) x := mk_ps2 (release s) (pressed s) (last_cmd_byte s) (leds s) (sent s ++ [x]) (kb s).
Definition set_input (s : ps2) x := mk_ps2 (release s) (pressed s) (last_cmd_byte s) (leds s) (sent s) x.

Definition ps2kb_irq (s : ps2) (scancode : Z) : res ps2 :=
  if scancode >=? 250 then Ok (set_cmd_byte s scancode)
  else if scancode =? 224 then Ok s
  else if scancode =? 240 then Ok (set_release s true)
  else if release s then
    pressed' ← store (pressed s) scancode false;
    key ← load translation scancode;
    i ← input_kb_release (kb s) key;
    Ok (set_release (set_input (set_pressed_code s pressed') i) false)
  else
    p ← load (pressed s) scancode;
    if p : bool then Ok s
    else
      pressed' ← store (pressed s) scancode true;
      key ← load translation scancode;
      i ← input_kb_press (kb s) key;
      Ok (set_input (set_pressed_code s pressed') i).

(** The attempts of [ps2kb_send_cmd] that are left; [answers] are the bytes the keyboard comes
    with, one for each time the command is sent. *)
Fixpoint try_cmd (n : nat) (s : ps2) (cmd : Z) (answers : list Z) : res (ps2 * Z) :=
  match n with
  | O => Ok (s, 0)
  | S n =>
      match answers with
      | [] => OutOfFuel
      | a :: answers =>
          s ← ps2kb_irq (send (set_cmd_byte s 0) cmd) a;
          if last_cmd_byte s =? 254 then try_cmd n s cmd answers
          else if negb (last_cmd_byte s =? 0) then Ok (s, last_cmd_byte s)
          else OutOfFuel
      end
  end.

Definition ps2kb_send_cmd (s : ps2) (cmd : Z) (answers : list Z) : res (ps2 * Z) := try_cmd 4 s cmd answers.

Definition ps2kb_update_leds (s : ps2) (answers answers2 : list Z) : res ps2 :=
  '(s, _) ← ps2kb_send_cmd s 237 answers; '(s, _) ← ps2kb_send_cmd s (leds s) answers2; Ok s.

Definition ps2kb_lock (bit : Z) (s : ps2) (on : bool) (answers answers2 : list Z) : res ps2 :=
  ps2kb_update_leds (set_leds s (if on then Z.lor (leds s) bit else Z.land (leds s) (u8 (Z.lnot bit)))) answers answers2.
Definition ps2kb_scrolllock : ps2 -> bool -> list Z -> list Z -> res ps2 := ps2kb_lock 1.
Definition ps2kb_numlock : ps2 -> bool -> list Z -> list Z -> res ps2 := ps2kb_lock 2.
Definition ps2kb_capslock : ps2 -> bool -> list Z -> list Z -> res ps2 := ps2kb_lock 4.

(** ** What the bytes mean *)

Inductive key_event := Down (code : Z) | Up (code : Z).

(** Key events in a stream of bytes; answers to commands and the prefix of extended keys do not
    count.  [up] is whether the release prefix is pending. *)
Fixpoint meaning (up : bool) (bs : list Z) : list key_event :=
  match bs with
  | [] => []
  | b :: bs =>
      if (b >=? 250) || (b =? 224) then meaning up bs
      else if b =? 240 then meaning true bs
      else (if up then Up b else Down b) :: meaning false bs
  end.

(** The keys that are down, and the keyboard. *)
Definition key_event_step (st : gset Z * input) (e : key_event) : res (gset Z * input) :=
  let '(down, i) := st in
  match e with
  | Up c => key ← load translation c; i ← input_kb_release i key; Ok (down ∖ {[c]}, i)
  | Down c => if decide (c ∈ down) then Ok (down, i) else key ← load translation c; i ← input_kb_press i key; Ok (down ∪ {[c]}, i)
  end.

Fixpoint run_events (st : gset Z * input) (es : list key_event) : res (gset Z * input) :=
  match es with [] => Ok st | e :: es => st ← key_event_step st e; run_events st es end.

Fixpoint run_bytes (s : ps2) (bs : list Z) : res ps2 := match bs with [] => Ok s | b :: bs => s ← ps2kb_irq s b; run_bytes s bs end.

(** Of 256 codes or keys, those that are marked. *)
Definition marked (l : list bool) (down : gset Z) : Prop := zlen l = 256 /\ forall c : Z, 0 <= c < 256 -> get l c = Some (bool_decide (c ∈ down)).

Lemma marked_set l down c (b : bool) : marked l down -> 0 <= c < 256 -> marked (<[Z.to_nat c := b]> l) (if b then down ∪ {[c]} else down ∖ {[c]}).
Proof.
  intros [Hz Hd] Hc. split; [by rewrite zlen_insert|]. intros c' Hc'. destruct (decide (c' = c)) as [->|Hne].
  - transitivity (Some b).
    + apply get_Some. split; [lia|]. apply list_lookup_insert_eq. unfold zlen in Hz. lia.
    + f_equal. symmetry. destruct b; [apply bool_decide_eq_true|apply bool_decide_eq_false]; set_solver.
  - transitivity (get l c').
    + unfold get. destruct (0 <=? c'); [|done]. by rewrite list_lookup_insert_ne by lia.
    + rewrite Hd by done. f_equal. destruct b; apply bool_decide_ext; set_solver.
Qed.

Definition codes_down (s : ps2) (down : gset Z) : Prop := marked (pressed s) down.

Lemma codes_set s down c b : codes_down s down -> 0 <= c < 256 ->
  store (pressed s) c b = Ok (<[Z.to_nat c := b]> (pressed s)) /\
  codes_down (set_pressed_code s (<[Z.to_nat c := b]> (pressed s))) (if b then down ∪ {[c]} else down ∖ {[c]}).
Proof. intros Hd Hc. split; [apply store_in_range; destruct Hd; lia|]. by apply (marked_set (pressed s)). Qed.

Definition matches (s : ps2) (r : res ps2) (r' : res (gset Z * input)) : Prop :=
  match r, r' with
  | Ok s', Ok (down, i) => kb s' = i /\ codes_down s' down
  | Panic m, Panic m' => m = m'
  | Fault, Fault => True
  | OutOfFuel, OutOfFuel => True
  | _, _ => False
  end.

Lemma decodes_ok s down bs : codes_down s down -> Forall (fun b => 0 <= b < 256) bs ->
  matches s (run_bytes s bs) (run_events (down, kb s) (meaning (release s) bs)).
Proof.
  intros Hd Hbs. revert s down Hd. induction Hbs as [|b bs Hb Hbs IH]; intros s down Hd; cbn [run_bytes meaning run_events]; [by split|].
  unfold ps2kb_irq. destruct (Z.geb_spec b 250); cbn [orb]; [cbn [mbind res_bind]; by apply (IH (set_cmd_byte s b))|].
  destruct (Z.eqb_spec b 224); cbn [mbind res_bind]; [by apply IH|]. destruct (Z.eqb_spec b 240); cbn [mbind res_bind]; [by apply (IH (set_release s true))|].
  destruct (release s) eqn:Er; cbn [run_events key_event_step].
  - destruct (codes_set s down b false Hd Hb) as [-> Hd']. cbn [mbind res_bind]. destruct (load translation b) as [key| | |]; cbn [mbind res_bind]; try done.
    destruct (input_kb_release (kb s) key) as [i| | |]; cbn [mbind res_bind]; try done. apply (IH (mk_ps2 false _ _ _ _ i) (down ∖ {[b]})). exact Hd'.
  - destruct Hd as [Hz Hd]. assert (load (pressed s) b = Ok (bool_decide (b ∈ down))) as -> by (unfold load; by rewrite Hd). cbn [mbind res_bind]. case_bool_decide as Hin.
    + rewrite decide_True by done. cbn [mbind res_bind]. rewrite <- Er. apply IH. by split.
    + rewrite decide_False by done. destruct (codes_set s down b true (conj Hz Hd) Hb) as [-> Hd']. cbn [mbind res_bind].
      destruct (load translation b) as [key| | |]; cbn [mbind res_bind]; try done. destruct (input_kb_press (kb s) key) as [i| | |]; cbn [mbind res_bind]; try done.
      rewrite <- Er. apply (IH (set_input (set_pressed_code s _) i) (down ∪ {[b]})). exact Hd'.
Qed.

(** C33: Whatever bytes the keyboard sends, the handler does to the keyboard of the kernel what the
    presses and releases in them say: a release prefix makes the next code a release, also when
    other bytes come between, a code that is already down is a repeat of the keyboard and does
    nothing, and everything else is one press. *)
Theorem ps2kb_irq_decodes s down bs : codes_down s down -> Forall (fun b => 0 <= b < 256) bs ->
  matches s (run_bytes s bs) (run_events (down, kb s) (meaning (release s) bs)).
Proof. apply decodes_ok. Qed.

(** ** Typing *)

(** The key of a code. *)
Definition key_of (c : Z) : Z := default 0 (get translation c).

Lemma key_of_ok c : 0 <= c < 256 -> load translation c = Ok (key_of c) /\ 0 <= key_of c < 256.
Proof.
  intros Hc. unfold load, key_of. destruct (get_in_range translation c) as [k E]; [by change (zlen translation) with 256|]. rewrite E. split; [done|].
  apply get_Some in E as [_ E]. assert (Forall (fun k => 0 <= k < 256) translation) as Hall; [|exact (Forall_lookup_1 _ _ _ _ Hall E)].
  unfold translation. apply Forall_app. split; [repeat constructor; lia|by apply Forall_replicate].
Qed.

(** What happens to the keyboard: a byte of it, or a round of [input_loop], which comes every 50 ms. *)
Inductive moment := Byte (b : Z) | Tick.

Definition moment_step (s : ps2) (m : moment) : res ps2 :=
  match m with
  | Byte b => ps2kb_irq s b
  | Tick => i ← input_tick (kb s); Ok (set_input s i)
  end.

Fixpoint run_moments (s : ps2) (ms : list moment) : res ps2 := match ms with [] => Ok s | m :: ms => s ← moment_step s m; run_moments s ms end.

(** A key is pressed after [pause] rounds and held through [held], repeats of the keyboard ([false])
    and rounds ([true]); [late] rounds come between the two bytes that let it go. *)
Record stroke := mk_stroke { pause : nat; code : Z; held : list bool; late : nat }.

Definition held_moments (c : Z) (h : list bool) : list moment := (fun tick : bool => if tick then Tick else Byte c) <$> h.
Definition stroke_moments (k : stroke) : list moment :=
  replicate (pause k) Tick ++ Byte (code k) :: held_moments (code k) (held k) ++ Byte 240 :: replicate (late k) Tick ++ [Byte (code k)].

Definition rounds (h : list bool) : nat := length (List.filter id h).

(** How often a key is appended that is held for [n] rounds already, in [q] rounds more. *)
Definition repeats (n q : nat) : nat := ((n + q - 9) - (n - 9))%nat.

(** What the readers get: the key, and again in each round from the tenth on. *)
Definition stroke_keys (fl : Z) (k : stroke) : list (Z * Z) := replicate (S (rounds (held k) + late k - 9)) (fl, key_of (code k)).

Lemma zlen_replicate {A} n (x : A) : zlen (replicate n x) = Z.of_nat n.
Proof. unfold zlen. by rewrite length_replicate. Qed.

Definition plain_code (i : input) (c : Z) : Prop := 0 <= c < 250 /\ c <> 224 /\ c <> 240 /\ ordinary i (key_of c).

Definition keys_down (i : input) (down : gset Z) : Prop := marked (pressed_keys i) down.

(** The keyboard with the codes [cs] and the keys [ks] down and [evs] before a reader at [last]. *)
Record at_rest (fl last : Z) (cs ks : gset Z) (rel : bool) (evs : list (Z * Z)) (s : ps2) : Prop := {
  ar_release : release s = rel;
  ar_codes : codes_down s cs;
  ar_keys : keys_down (kb s) ks;
  ar_sysrq : sysrq (kb s) = false;
  ar_flags : input_flags (kb s) = fl;
  ar_pending : pending (kb s) last evs }.

Section Strokes.
Context (fl last c : Z).
Context (Hc : 0 <= c < 250) (H224 : c <> 224) (H240 : c <> 240).
Hypothesis Hord : forall i, input_flags i = fl -> ordinary i (key_of c).
#[local] Abbreviation key := (key_of c).
#[local] Abbreviation up := (at_rest fl last ∅ ∅ false).
#[local] Abbreviation down := (at_rest fl last {[c]} {[key]}).

Lemma append_rest i evs : sysrq i = false -> input_flags i = fl -> pending i last evs -> zlen evs < 255 ->
  exists r, append_key_event i key = Ok (set_kb i r) /\ pending (set_kb i r) last (evs ++ [(fl, key)]).
Proof. intros Hq Hf Hp Hn. destruct (append_ok i key last evs Hq (Hord i Hf) Hp Hn) as (r & E & Hp'). rewrite Hf in Hp'. by exists r. Qed.

Lemma repeat_none n : forall from i, (forall j, from <= j < from + Z.of_nat n -> get (pressed_keys i) j = Some false) -> repeat_keys n from i = Ok i.
Proof.
  induction n as [|n IH]; intros from i Hj; cbn [repeat_keys]; [done|]. rewrite Hj by lia. cbn [res_of_option mbind res_bind]. apply IH. intros j ?. apply Hj. lia.
Qed.

Lemma repeat_one n : forall from i i', (forall j, from <= j < from + Z.of_nat n -> get (pressed_keys i) j = Some (bool_decide (j = key))) ->
  from <= key < from + Z.of_nat n -> append_key_event i key = Ok i' -> pressed_keys i' = pressed_keys i -> repeat_keys n from i = Ok i'.
Proof.
  induction n as [|n IH]; intros from i i' Hj Hk E Epk; [lia|]. cbn [repeat_keys]. rewrite Hj by lia. cbn [res_of_option mbind res_bind]. case_bool_decide as Hf.
  - rewrite Hf, E. cbn [mbind res_bind]. apply repeat_none. intros j ?. rewrite Epk, Hj by lia. f_equal. apply bool_decide_eq_false. lia.
  - cbn [mbind res_bind]. apply IH; try done; [|lia]. intros j ?. apply Hj. lia.
Qed.

Lemma up_tick evs s : up evs s -> exists s', moment_step s Tick = Ok s' /\ up evs s'.
Proof.
  intros [Hr Hcd [Hz Hk] Hq Hf Hp]. cbn [moment_step]. unfold input_tick. set (i := mk_input _ _ _ _ _ _ _).
  assert ((if prscnt i <? 10 then Ok i else repeat_keys 256 0 i) = Ok i) as ->.
  { destruct (_ <? _); [done|]. apply repeat_none. intros j Hj. exact (Hk j Hj). }
  eexists. split; [reflexivity|]. split; try done. by destruct Hp; split.
Qed.

Lemma up_ticks n evs : forall s, up evs s -> exists s', run_moments s (replicate n Tick) = Ok s' /\ up evs s'.
Proof.
  induction n as [|n IH]; intros s Hs; [by exists s|]. destruct (up_tick evs s Hs) as (s1 & E & Hs1). destruct (IH s1 Hs1) as (s2 & E2 & Hs2).
  exists s2. cbn [replicate run_moments]. rewrite E. done.
Qed.

(** A byte that is a scan code. *)
Lemma irq_code s : ps2kb_irq s c =
  if release s then
    pressed' ← store (pressed s) c false; k ← load translation c; i ← input_kb_release (kb s) k;
    Ok (set_release (set_input (set_pressed_code s pressed') i) false)
  else
    p ← load (pressed s) c;
    if p : bool then Ok s
    else pressed' ← store (pressed s) c true; k ← load translation c; i ← input_kb_press (kb s) k; Ok (set_input (set_pressed_code s pressed') i).
Proof. unfold ps2kb_irq. destruct (Z.geb_spec c 250), (Z.eqb_spec c 224), (Z.eqb_spec c 240); done || lia. Qed.

Lemma press_down evs s : up evs s -> zlen evs < 255 ->
  exists s', moment_step s (Byte c) = Ok s' /\ down false (evs ++ [(fl, key)]) s' /\ prscnt (kb s') = 0.
Proof.
  intros [Hr Hcd Hkd Hq Hf Hp] Hn. cbn [moment_step]. rewrite irq_code, Hr. destruct (key_of_ok c ltac:(lia)) as [El Hkr].
  assert (load (pressed s) c = Ok false) as -> by (unfold load; destruct Hcd as [_ ->]; [done|lia]). cbn [mbind res_bind].
  destruct (codes_set s ∅ c true Hcd ltac:(lia)) as [-> Hcd']. cbn [mbind res_bind]. rewrite El. cbn [mbind res_bind].
  destruct (append_rest (kb s) evs Hq Hf Hp Hn) as (r & E & Hp'). unfold input_kb_press. destruct (Hord _ Hf) as [-> _].
  assert (get (pressed_keys (kb s)) key = Some false) as -> by (destruct Hkd as [_ ->]; [by rewrite bool_decide_eq_false_2 by set_solver|done]).
  cbn [res_of_option mbind res_bind negb]. rewrite E. cbn [mbind res_bind]. eexists. split; [reflexivity|]. split; [|done].
  split; try done; cbn [kb set_input].
  - by rewrite union_empty_l_L in Hcd'.
  - rewrite <- (union_empty_l_L {[key]}). by apply (marked_set (pressed_keys (kb s)) ∅ key true).
  - by destruct Hp'; split.
Qed.

Lemma repeat_byte evs s : down false evs s -> moment_step s (Byte c) = Ok s.
Proof.
  intros [Hr Hcd _ _ _ _]. cbn [moment_step]. rewrite irq_code, Hr. unfold load. destruct Hcd as [_ ->]; [|lia]. by rewrite bool_decide_eq_true_2 by set_solver.
Qed.

Lemma down_tick rel evs n s : down rel evs s -> prscnt (kb s) = Z.of_nat n -> (n < 1000)%nat -> zlen evs + Z.of_nat (repeats n 1) < 256 ->
  exists s', moment_step s Tick = Ok s' /\ down rel (evs ++ replicate (repeats n 1) (fl, key)) s' /\ prscnt (kb s') = Z.of_nat (S n).
Proof.
  intros [Hr Hcd [Hz Hk] Hq Hf Hp] Hn Hlt He. destruct (key_of_ok c ltac:(lia)) as [_ Hkr]. cbn [moment_step]. unfold input_tick.
  rewrite Hn, s32_small by lia. set (i := mk_input _ _ _ _ _ _ _). change (prscnt i) with (Z.of_nat n + 1).
  assert (pending i last evs) as Hpi by (by destruct Hp; split). destruct (Z.ltb_spec (Z.of_nat n + 1) 10).
  - eexists. split; [reflexivity|]. replace (repeats n 1) with 0%nat by (unfold repeats; lia). cbn [replicate]. rewrite app_nil_r. split; [by split|]. cbn. lia.
  - assert (repeats n 1 = 1%nat) as E1 by (unfold repeats; lia). destruct (append_rest i evs Hq Hf Hpi ltac:(lia)) as (r & E & Hp'). rewrite (repeat_one 256 0 i (set_kb i r)); try done.
    + eexists. split; [reflexivity|]. rewrite E1. split; [by split|]. cbn. lia.
    + intros j Hj. change (pressed_keys i) with (pressed_keys (kb s)). rewrite Hk by lia. f_equal. apply bool_decide_ext. set_solver.
Qed.

Lemma repeats_step n q : repeats n (S q) = (repeats n 1 + repeats (S n) q)%nat.
Proof. unfold repeats. lia. Qed.

Lemma down_ticks rel q : forall evs n s, down rel evs s -> prscnt (kb s) = Z.of_nat n -> (n + q < 1000)%nat -> zlen evs + Z.of_nat (repeats n q) < 256 ->
  exists s', run_moments s (replicate q Tick) = Ok s' /\ down rel (evs ++ replicate (repeats n q) (fl, key)) s' /\ prscnt (kb s') = Z.of_nat (n + q).
Proof.
  induction q as [|q IH]; intros evs n s Hs Hn Hlt He.
  { exists s. replace (repeats n 0) with 0%nat by (unfold repeats; lia). rewrite app_nil_r, Nat.add_0_r. done. }
  rewrite repeats_step in He |- *. pose proof (zlen_nonneg evs).
  destruct (down_tick rel evs n s Hs Hn ltac:(lia) ltac:(lia)) as (s1 & E & Hs1 & Hn1).
  destruct (IH _ (S n) s1 Hs1 Hn1 ltac:(lia)) as (s2 & E2 & Hs2 & Hn2); [rewrite zlen_app, zlen_replicate; lia|].
  exists s2. cbn [replicate run_moments]. rewrite E. split; [exact E2|]. rewrite replicate_add, app_assoc. replace (n + S q)%nat with (S n + q)%nat by lia. done.
Qed.

Lemma down_held h : forall evs n s, down false evs s -> prscnt (kb s) = Z.of_nat n -> (n + rounds h < 1000)%nat -> zlen evs + Z.of_nat (repeats n (rounds h)) < 256 ->
  exists s', run_moments s (held_moments c h) = Ok s' /\ down false (evs ++ replicate (repeats n (rounds h)) (fl, key)) s' /\ prscnt (kb s') = Z.of_nat (n + rounds h).
Proof.
  induction h as [|[|] h IH]; intros evs n s Hs Hn Hlt He.
  - exists s. replace (repeats n (rounds [])) with 0%nat by (unfold repeats, rounds; simpl; lia). cbn [replicate]. rewrite app_nil_r, Nat.add_0_r. done.
  - change (rounds (true :: h)) with (S (rounds h)) in *. rewrite repeats_step in He |- *.
    destruct (down_tick false evs n s Hs Hn ltac:(lia) ltac:(lia)) as (s1 & E & Hs1 & Hn1).
    destruct (IH _ (S n) s1 Hs1 Hn1 ltac:(lia)) as (s2 & E2 & Hs2 & Hn2); [rewrite zlen_app, zlen_replicate; lia|].
    exists s2. cbn [held_moments fmap list_fmap run_moments]. rewrite E. split; [exact E2|]. rewrite replicate_add, app_assoc. replace (n + S (rounds h))%nat with (S n + rounds h)%nat by lia. done.
  - cbn [held_moments fmap list_fmap run_moments]. rewrite (repeat_byte evs s Hs). by apply IH.
Qed.

Lemma release_up evs s : down true evs s -> exists s', moment_step s (Byte c) = Ok s' /\ up evs s'.
Proof.
  intros [Hr Hcd Hkd Hq Hf Hp]. cbn [moment_step]. rewrite irq_code, Hr. destruct (key_of_ok c ltac:(lia)) as [El Hkr].
  destruct (codes_set s {[c]} c false Hcd ltac:(lia)) as [-> Hcd']. cbn [mbind res_bind]. rewrite El. cbn [mbind res_bind].
  unfold input_kb_release. destruct (Hord _ Hf) as [-> _].
  assert (get (pressed_keys (kb s)) key = Some true) as -> by (destruct Hkd as [_ ->]; [by rewrite bool_decide_eq_true_2 by set_solver|done]).
  cbn [res_of_option mbind res_bind]. eexists. split; [reflexivity|]. split; try done; cbn [kb set_input set_release].
  - by rewrite difference_diag_L in Hcd'.
  - rewrite <- (difference_diag_L {[key]}). by apply (marked_set (pressed_keys (kb s)) {[key]} key false).
  - by destruct Hp; split.
Qed.

Lemma run_moments_app s l1 l2 : run_moments s (l1 ++ l2) = (s ← run_moments s l1; run_moments s l2).
Proof. revert s. induction l1 as [|m l1 IH]; intros s; cbn [app run_moments mbind res_bind]; [done|]. destruct (moment_step s m); cbn [mbind res_bind]; auto. Qed.

(** A stroke, from the bytes to the queue. *)
Lemma stroke_queued p h l evs s : up evs s -> zlen evs + Z.of_nat (S (rounds h + l - 9)) < 256 ->
  exists s', run_moments s (stroke_moments (mk_stroke p c h l)) = Ok s' /\ up (evs ++ stroke_keys fl (mk_stroke p c h l)) s'.
Proof.
  intros Hs He. unfold stroke_moments, stroke_keys. cbn [pause code held late] in *. rewrite run_moments_app.
  destruct (up_ticks p evs s Hs) as (s0 & -> & Hs0). cbn [mbind res_bind run_moments]. destruct (press_down evs s0 Hs0 ltac:(lia)) as (s1 & -> & Hs1 & Hn1). cbn [mbind res_bind].
  rewrite run_moments_app. pose proof (zlen_nonneg evs) as H0. assert (zlen (evs ++ [(fl, key)]) = zlen evs + 1) as Hz by (by rewrite zlen_app).
  destruct (down_held h _ 0 s1 Hs1 Hn1) as (s2 & -> & Hs2 & Hn2); [lia|rewrite Hz; unfold repeats; lia|]. cbn [mbind res_bind run_moments].
  assert (down true (evs ++ [(fl, key)] ++ replicate (repeats 0 (rounds h)) (fl, key)) (set_release s2 true)) as Hs3 by (rewrite app_assoc; by destruct Hs2; split).
  change (moment_step s2 (Byte 240)) with (Ok (set_release s2 true)). cbn [mbind res_bind]. rewrite run_moments_app.
  destruct (down_ticks true l _ (0 + rounds h) (set_release s2 true) Hs3 Hn2) as (s4 & -> & Hs4 & _); [lia| |].
  { rewrite app_assoc, zlen_app, Hz, zlen_replicate. unfold repeats. lia. }
  cbn [mbind res_bind run_moments]. destruct (release_up _ s4 Hs4) as (s5 & -> & Hs5). exists s5. split; [done|].
  replace (S (rounds h + l - 9)) with (1 + (repeats 0 (rounds h) + repeats (0 + rounds h) l))%nat by (unfold repeats; lia).
  rewrite !replicate_add, !app_assoc. rewrite !app_assoc in Hs5. exact Hs5.
Qed.
End Strokes.

Definition all_keys (fl : Z) (ks : list stroke) : list (Z * Z) := ks ≫= stroke_keys fl.

Lemma strokes_queued fl last ks : forall evs s, at_rest fl last ∅ ∅ false evs s -> Forall (fun k => plain_code (kb s) (code k)) ks ->
  zlen evs + zlen (all_keys fl ks) < 256 ->
  exists s', run_moments s (ks ≫= stroke_moments) = Ok s' /\ at_rest fl last ∅ ∅ false (evs ++ all_keys fl ks) s'.
Proof.
  induction ks as [|[p c h l] ks IH]; intros evs s Hs Hks He; [exists s; by rewrite app_nil_r|].
  apply Forall_cons in Hks as [(Hc & H1 & H2 & Hord) Hks]. unfold all_keys in *. cbn [mbind list_bind code] in *. rewrite zlen_app in He. pose proof (zlen_nonneg (ks ≫= stroke_keys fl)).
  assert (forall i, input_flags i = fl -> forall k, ordinary (kb s) k -> ordinary i k) as Hsame by (intros i Hi k; unfold ordinary, flag; by rewrite Hi, (ar_flags _ _ _ _ _ _ _ Hs)).
  destruct (stroke_queued fl last c Hc H1 H2 (fun i Hi => Hsame i Hi _ Hord) p h l evs s Hs) as (s1 & E1 & Hs1).
  { assert (zlen (stroke_keys fl (mk_stroke p c h l)) = Z.of_nat (S (rounds h + l - 9))) by apply zlen_replicate. lia. }
  destruct (IH _ s1 Hs1) as (s2 & E2 & Hs2).
  - eapply Forall_impl; [exact Hks|]. intros k (? & ? & ? & Hk). unfold plain_code. do 3 (split; [done|]). apply Hsame; [exact (ar_flags _ _ _ _ _ _ _ Hs1)|exact Hk].
  - rewrite zlen_app. unfold mbind in *. lia.
  - exists s2. rewrite run_moments_app, E1. split; [exact E2|]. by rewrite <- app_assoc in Hs2.
Qed.


(** A command goes out at most four times, and again only while the keyboard asks for it. *)
Theorem ps2kb_send_cmd_tries s cmd k a answers : 0 <= cmd < 256 -> 250 <= a < 256 -> a <> 254 ->
  exists s', ps2kb_send_cmd s cmd (replicate k 254 ++ a :: answers) = Ok (s', if (k <? 4)%nat then a else 0) /\
    sent s' = sent s ++ replicate (Nat.min (S k) 4) cmd /\ kb s' = kb s.
Proof.
  intros Hc Ha Hne. unfold ps2kb_send_cmd. generalize 4%nat as n. intros n. revert s k. induction n as [|n IH]; intros s k; cbn [try_cmd].
  - exists s. rewrite Nat.min_0_r, app_nil_r. destruct (Nat.ltb_spec k 0); [lia|]. done.
  - destruct k as [|k]; cbn [replicate app].
    + unfold ps2kb_irq. destruct (Z.geb_spec a 250); [|lia]. cbn [mbind res_bind last_cmd_byte set_cmd_byte]. destruct (Z.eqb_spec a 254); [done|]. destruct (Z.eqb_spec a 0); [lia|].
      eexists. split; [done|]. done.
    + cbn [ps2kb_irq Z.geb Z.compare Pos.compare Pos.compare_cont mbind res_bind last_cmd_byte set_cmd_byte Z.eqb Pos.eqb].
      destruct (IH (set_cmd_byte (send (set_cmd_byte s 0) cmd) 254) k) as (s' & E & Es & Ek). exists s'. cbn [sent send set_cmd_byte kb] in Es, Ek.
      unfold ps2kb_irq. cbn [Z.geb Z.compare Pos.compare Pos.compare_cont mbind res_bind last_cmd_byte set_cmd_byte Z.eqb Pos.eqb]. rewrite E.
      change (S k <? S n)%nat with (k <? n)%nat. split; [done|]. split; [|done]. rewrite Es, <- app_assoc. done.
Qed.

Definition ps2_start (i : input) : ps2 := mk_ps2 false (replicate 256 false) 0 0 [] i.

Lemma start_none i : codes_down (ps2_start i) ∅.
Proof. split; [done|]. intros c Hc. apply get_Some. split; [lia|]. by rewrite bool_decide_false by set_solver; apply lookup_replicate_2; lia. Qed.

(** A, which repeats once, with an answer to a command in between, and B. *)
Lemma ps2kb_irq_decodes_witness : exists w, let s := ps2_start (input_init w) in
  matches s (run_bytes s [28; 28; 240; 250; 28; 50]) (run_events (∅, kb s) [Down 28; Down 28; Up 28; Down 50]).
Proof.
  exists (tty_init []). apply (ps2kb_irq_decodes (ps2_start (input_init (tty_init []))) ∅ [28; 28; 240; 250; 28; 50]); [apply start_none|repeat constructor; lia].
Defined.


Lemma ps2kb_send_cmd_tries_witness : exists s', ps2kb_send_cmd (ps2_start (input_init (tty_init []))) 237 [254; 254; 250] = Ok (s', 250) /\ sent s' = [237; 237; 237].
Proof.
  destruct (ps2kb_send_cmd_tries (ps2_start (input_init (tty_init []))) 237 2 250 [] ltac:(lia) ltac:(lia) ltac:(done)) as (s' & E & Es & _).
  exists s'. exact (conj E Es).
Defined.

(** The digits of the keypad have the codes of function keys. *)
Lemma keypad_is_function_keys : key_of 105 = key_of 6 /\ key_of 107 = key_of 3 /\ key_of 117 = key_of 1.
Proof. by vm_compute. Qed.

(** ** The initialisation of the controller *)

Definition PS2_DATA : Z := 96.
Definition PS2_COMMAND : Z := 100.

(** The rounds of the self test: the count when the loop is left, the answers that are left and
    what was written. *)
Fixpoint self_test (n : nat) (count : Z) (data : list Z) (out : list (Z * Z)) : res (Z * list Z * list (Z * Z)) :=
  match n with
  | O => Ok (count + 1, data, out)
  | S n =>
      match data with
      | [] => OutOfFuel
      | resp :: data =>
          let out := out ++ [(PS2_COMMAND, 170)] in
          if negb (resp =? 85) then self_test n (count + 1) data out else Ok (count + 1, data, out)
      end
  end.

Definition next_byte (data : list Z) : res (Z * list Z) := match data with [] => OutOfFuel | b :: data => Ok (b, data) end.

(** [data] is what the controller answers with, [kb] and [ms] are the addresses of the two interrupt
    handlers; whether it came to its end, whether there are two devices, and what was written.  The
    bytes that are flushed have no effect. *)
Definition ps2_init (data : list Z) (w : irqw) (kb ms : Z) : res (bool * bool * list (Z * Z) * irqw) :=
  let out := [(PS2_COMMAND, 173); (PS2_COMMAND, 167); (PS2_COMMAND, 32)] in
  '(cfg, data) ← next_byte data;
  let dual := negb (Z.land cfg 16 =? 0) in
  let cfg := Z.land cfg 188 in
  let out := out ++ [(PS2_COMMAND, 96); (PS2_DATA, cfg)] in
  '(count, data, out) ← self_test 4 0 data out;
  if count >=? 4 then Ok (false, dual, out, w)
  else
    let out := out ++ [(PS2_COMMAND, 96); (PS2_DATA, cfg)] in
    let cfg := Z.lor cfg 1 in
    let cfg := if dual then Z.lor cfg 2 else cfg in
    '(_, data) ← next_byte data;
    let out := out ++ [(PS2_COMMAND, 171)] in
    '(_, out) ← (if dual then '(_, data) ← next_byte data; Ok (data, out ++ [(PS2_COMMAND, 169)]) else Ok (data, out));
    let out := out ++ [(PS2_COMMAND, 96); (PS2_DATA, cfg); (PS2_COMMAND, 174)] in
    let out := if dual then out ++ [(PS2_COMMAND, 168)] else out in
    let out := out ++ [(PS2_COMMAND, 255)] in
    let out := if dual then out ++ [(PS2_COMMAND, 255)] else out in
    '(w, _) ← irq_install w 1 kb;
    '(w, _) ← irq_install w 12 ms;
    Ok (true, dual, out, w).

(** The bytes that go to the data port. *)
Definition data_written (out : list (Z * Z)) : list Z := omap (fun x => if x.1 =? PS2_DATA then Some x.2 else None) out.

Lemma self_test_passes fails : forall n count data out, Forall (fun r => r <> 85) fails -> (length fails < n)%nat ->
  self_test n count (fails ++ 85 :: data) out = Ok (count + zlen fails + 1, data, out ++ replicate (S (length fails)) (PS2_COMMAND, 170)).
Proof.
  induction fails as [|r fails IH]; intros n count data out Hf Hn; (destruct n as [|n]; [cbn in Hn; lia|]); cbn [app self_test].
  - cbn [Z.eqb Pos.eqb negb]. change (zlen (@nil Z)) with 0. by rewrite Z.add_0_r.
  - apply Forall_cons in Hf as [Hr Hf]. destruct (Z.eqb_spec r 85); [done|]. cbn [negb]. rewrite (IH n) by (done || cbn in Hn; lia).
    rewrite zlen_cons. replace (count + 1 + zlen fails + 1) with (count + (zlen fails + 1) + 1) by lia. rewrite <- app_assoc. do 4 f_equal; lia.
Qed.

Lemma self_test_fails fails : forall n count data out, Forall (fun r => r <> 85) fails -> length fails = n ->
  exists out', self_test n count (fails ++ data) out = Ok (count + zlen fails + 1, data, out').
Proof.
  induction fails as [|r fails IH]; intros n count data out Hf <-; cbn [app self_test length].
  - exists out. change (zlen (@nil Z)) with 0. by rewrite Z.add_0_r.
  - apply Forall_cons in Hf as [Hr Hf]. destruct (Z.eqb_spec r 85); [done|]. cbn [negb].
    destruct (IH _ (count + 1) data (out ++ [(PS2_COMMAND, 170)]) Hf eq_refl) as [out' ->]. exists out'. rewrite zlen_cons. do 3 f_equal. lia.
Qed.

Lemma data_written_app a b : data_written (a ++ b) = data_written a ++ data_written b.
Proof. apply omap_app. Qed.
Lemma data_written_commands n c : data_written (replicate n (PS2_COMMAND, c)) = [].
Proof. induction n; [done|]. exact IHn. Qed.

(** Both handlers are behind the ones their lines have. *)
Lemma two_handlers w kb ms l1 l12 : get (irqs w) 1 = Some l1 -> get (irqs w) 12 = Some l12 ->
  exists w', ('(w, _) ← irq_install w 1 kb; '(w, _) ← irq_install w 12 ms; Ok w) = Ok w' /\ get (irqs w') 1 = Some (l1 ++ [kb]) /\ get (irqs w') 12 = Some (l12 ++ [ms]).
Proof.
  intros H1 H12. unfold irq_install. rewrite H1. cbn [res_of_option mbind res_bind irqs set_irqs].
  assert (get (<[Z.to_nat 1:=l1 ++ [kb]]> (irqs w)) 12 = Some l12) as H12' by (unfold get; rewrite list_lookup_insert_ne by done; exact H12).
  rewrite H12'. cbn [res_of_option mbind res_bind irqs set_irqs]. eexists. split; [done|]. apply get_Some in H1 as [_ H1]. apply get_Some in H12' as [_ H12'].
  split; apply get_Some; (split; [lia|]); cbn [irqs set_irqs].
  - rewrite list_lookup_insert_ne by done. apply list_lookup_insert_eq. by apply lookup_lt_Some in H1.
  - apply list_lookup_insert_eq. by apply lookup_lt_Some in H12'.
Qed.

(** A controller whose self test passes after at most two failures is set up: of the configuration
    that was read, the interrupts and the translation are off at first, and in the end the
    interrupts of the devices that are there are on; the handlers are behind lines 1 and 12.  When
    the test passes at the fourth attempt, the last that is made, it is taken for failed, as when
    it never does. *)
Theorem ps2_init_self_test cfg fails data w kb ms l1 l12 : Forall (fun r => r <> 85) fails -> get (irqs w) 1 = Some l1 -> get (irqs w) 12 = Some l12 ->
  let dual := negb (Z.land cfg 16 =? 0) in
  let off := Z.land cfg 188 in
  ((length fails < 3)%nat -> (2 <= length data)%nat -> exists out w', ps2_init (cfg :: fails ++ 85 :: data) w kb ms = Ok (true, dual, out, w') /\
    data_written out = [off; off; Z.lor off (if dual then 3 else 1)] /\ get (irqs w') 1 = Some (l1 ++ [kb]) /\ get (irqs w') 12 = Some (l12 ++ [ms])) /\
  (length fails = 3%nat -> exists out, ps2_init (cfg :: fails ++ 85 :: data) w kb ms = Ok (false, dual, out, w)) /\
  (length fails = 4%nat -> exists out, ps2_init (cfg :: fails ++ data) w kb ms = Ok (false, dual, out, w)).
Proof.
  intros Hf H1 H12 dual off. split_and!; intros Hl; [intros Hd| |]; unfold ps2_init; cbn [next_byte mbind res_bind]; fold dual off.
  - rewrite self_test_passes by (done || lia). cbn [mbind res_bind]. rewrite Z.geb_leb. unfold zlen. destruct (Z.leb_spec 4 (0 + Z.of_nat (length fails) + 1)); [lia|].
    destruct data as [|r1 [|r2 data]]; [cbn in Hd; lia..|]. destruct (two_handlers w kb ms l1 l12 H1 H12) as (w' & E & Hw).
    destruct (irq_install w 1 kb) as [[w1 ?]| | |] eqn:E1; try done. cbn [mbind res_bind] in E. destruct (irq_install w1 12 ms) as [[w2 ?]| | |] eqn:E2; try done. cbn [mbind res_bind] in E. injection E as ->.
    destruct dual; cbn [next_byte mbind res_bind]; rewrite E2; cbn [mbind res_bind]; (eexists _, _; split; [done|]; split; [|exact Hw]); rewrite !data_written_app, data_written_commands, <- ?Z.lor_assoc; done.
  - rewrite self_test_passes by (done || lia). cbn [mbind res_bind]. unfold zlen. rewrite Hl. by eexists.
  - destruct (self_test_fails fails 4 0 data ([(PS2_COMMAND, 173); (PS2_COMMAND, 167); (PS2_COMMAND, 32)] ++ [(PS2_COMMAND, 96); (PS2_DATA, off)]) Hf Hl) as [out' ->].
    cbn [mbind res_bind]. unfold zlen. rewrite Hl. by eexists.
Qed.
