(* ===== verification/Devfs.v ===== *)
(** * Character devices and the device file system: dev/char.c and fs/drv/devfs/devfs.c, with the null device

    A [dev_char_t*] is an address in [chars].  A driver is a record of functions over a state [D],
    NULL being [None]; [R] is what an [ioctl] writes through its pointer.  The [dev_fd_t] a driver
    is given lies in the handle of the file, and is known by the handle's number.  The heap
    objects of directory handles are the positions they hold. *)
From S2P Require Import Prelude Strings Format Rcp Pool Path Block.

Section Devfs.
Context {D R : Type}.

Record char_ops := mk_char_ops {
  cop_open : option (D -> Z -> Z -> res (D * Z));
  cop_read : option (D -> Z -> Z -> list Z -> Z -> res (D * list Z * Z));
  cop_write : option (D -> Z -> Z -> list Z -> Z -> res (D * Z));
  cop_close : option (D -> Z -> Z -> res D);
  cop_ioctl : option (D -> Z -> Z -> Z -> res (D * option R * Z)) }.

Record dev_char := mk_dev_char { c_internal_id : Z; c_ops : char_ops }.

Record charw := mk_charw { c_array : rcparray dev; chars : gmap Z dev_char; cdrv : D }.

Definition set_c_array (w : charw) x := mk_charw x (chars w) (cdrv w).
Definition set_cdrv (w : charw) x := mk_charw (c_array w) (chars w) x.

(** ** Character devices *)

(** [addr] is the [dev_char_t*], and the name goes to [fresh], the 32 bytes of the new [dev_t]'s. *)
Definition dev_register_char (w : charw) (name : list Z) (addr : Z) (fresh scratch : list Z) : res (charw * Z) :=
  '(nm, _) ← snprintf fresh 32 (bytes "%s" ++ [0]) [VStr name] scratch;
  let '(a, id) := dev_register (c_array w) (mk_dev nm DEV_TYPE_CHAR addr) in
  Ok (set_c_array w a, id).

Definition dev_char_get (w : charw) (dev_id : Z) : charw * option Z :=
  match rcparray_get (c_array w) dev_id with
  | (a, None) => (set_c_array w a, None)
  | (a, Some d) =>
      if negb (dtype d =? DEV_TYPE_CHAR) then (set_c_array w (rcparray_unref a dev_id), None)
      else (set_c_array w a, Some (dspecific d))
  end.

Definition dev_char_unref (w : charw) (dev_id : Z) : charw := set_c_array w (rcparray_unref (c_array w) dev_id).

(** The device looked up, the driver called, the reference given back.  [missing] is the result
    without the device, [unable] the one without the operation, a fault where that is not
    checked. *)
Definition on_char {F X} (w : charw) (id : Z) (sel : char_ops -> option F) (missing : X) (unable : res X) (call : F -> D -> Z -> res (D * X)) : res (charw * X) :=
  match dev_char_get w id with
  | (w, None) => Ok (w, missing)
  | (w, Some p) =>
      c ← res_of_option (chars w !! p);
      match sel (c_ops c) with
      | None => x ← unable; Ok (dev_char_unref w id, x)
      | Some f => '(d, x) ← call f (cdrv w) (c_internal_id c); Ok (dev_char_unref (set_cdrv w d) id, x)
      end
  end.

Definition dev_char_open (w : charw) (id dfd : Z) : res (charw * Z) :=
  on_char w id cop_open (- rc ENODEV) Fault (fun f d i => f d i dfd).

Definition dev_char_read (w : charw) (id dfd : Z) (buffer : list Z) (len : Z) : res (charw * (list Z * Z)) :=
  on_char w id cop_read (buffer, - rc ENODEV) (Ok (buffer, - rc ENOSYS))
    (fun f d i => '(d, b, v) ← f d i dfd buffer (s32 len); Ok (d, (b, v))).

Definition dev_char_write (w : charw) (id dfd : Z) (buffer : list Z) (len : Z) : res (charw * Z) :=
  on_char w id cop_write (- rc ENODEV) (Ok (- rc ENOSYS)) (fun f d i => f d i dfd buffer (s32 len)).

Definition dev_char_close (w : charw) (id dfd : Z) : res (charw * Z) :=
  on_char w id cop_close (- rc ENODEV) Fault (fun f d i => d ← f d i dfd; Ok (d, 0)).

Definition dev_char_ioctl (w : charw) (id dfd code : Z) : res (charw * (option R * Z)) :=
  on_char w id cop_ioctl (None, - rc ENODEV) (Ok (None, - rc ENOSYS)) (fun f d i => '(d, r, v) ← f d i dfd code; Ok (d, (r, v))).

(** ** The file system *)

Definition FS_TYPE_DIR : Z := 2.
Definition FS_TYPE_CHAR : Z := 4.
Definition FS_TYPE_BLOCK : Z := 8.
Definition FS_TYPE_NET : Z := 16.

(** [lhandle_t]; [dh_data] is the position of a directory. *)
Record dhandle := mk_dhandle { dh_id : Z; dh_refs : Z; dh_data : option Z }.

Record devfs := mk_devfs { dfs_chars : charw; dfs_handles : rcparray dhandle }.

Definition set_dfs_chars (s : devfs) x := mk_devfs x (dfs_handles s).
Definition set_dfs_handles (s : devfs) x := mk_devfs (dfs_chars s) x.

Definition devfs_mount (dev_id : Z) : Z := if negb (dev_id =? -1) then -1 else 0.

(** [dev_name2id] *)
Definition dev_find (a : rcparray dev) (name : list Z) : rcparray dev * Z :=
  match rcparray_find a (fun d => match strcmp (dname d) name with Ok v => v =? 0 | _ => false end) with
  | (a, None) => (a, - rc ENODEV)
  | (a, Some (id, _)) => (rcparray_unref a id, id)
  end.

(** A path without its slash; -ENOENT for no such device. *)
Definition path_device (s : devfs) (path : list Z) : devfs * Z :=
  let '(a, id) := dev_find (c_array (dfs_chars s)) (drop 1 path) in
  (set_dfs_chars s (set_c_array (dfs_chars s) a), if id =? - rc ENODEV then - rc ENOENT else id).

(** A failed open leaves its handle behind. *)
Definition devfs_open (s : devfs) (path : list Z) : res (devfs * Z) :=
  let '(s, dev_id) := path_device s path in
  if is_error dev_id then Ok (s, dev_id)
  else
    let '(l, id) := rcparray_add (dfs_handles s) (mk_dhandle dev_id 1 None) in
    match rcparray_get l id with
    | (_, None) => Fault
    | (l, Some _) =>
        '(w, ret) ← dev_char_open (dfs_chars s) dev_id id;
        let s := mk_devfs w (rcparray_unref l id) in
        if is_error ret then Ok (s, ret) else Ok (s, id)
    end.

(** The handle looked up, the work, the reference given back. *)
Definition on_dhandle {X} (s : devfs) (ifd : Z) (missing : X) (f : charw -> dhandle -> res (charw * dhandle * X)) : res (devfs * X) :=
  match rcparray_get (dfs_handles s) ifd with
  | (l, None) => Ok (set_dfs_handles s l, missing)
  | (l, Some h) =>
      '(w, h, x) ← f (dfs_chars s) h;
      Ok (mk_devfs w (rcparray_unref (rcparray_write l ifd h) ifd), x)
  end.

Definition devfs_read (s : devfs) (ifd : Z) (buffer : list Z) (len : Z) : res (devfs * (list Z * Z)) :=
  on_dhandle s ifd (buffer, - rc EBADF) (fun w h => '(w, x) ← dev_char_read w (dh_id h) ifd buffer len; Ok (w, h, x)).

Definition devfs_write (s : devfs) (ifd : Z) (buffer : list Z) (len : Z) : res (devfs * Z) :=
  on_dhandle s ifd (- rc EBADF) (fun w h => '(w, x) ← dev_char_write w (dh_id h) ifd buffer len; Ok (w, h, x)).

Definition devfs_seek : Z := - rc ENOSYS.

Definition devfs_ioctl (s : devfs) (ifd code : Z) : res (devfs * (option R * Z)) :=
  on_dhandle s ifd (None, - rc EBADF) (fun w h => '(w, (r, v)) ← dev_char_ioctl w (dh_id h) ifd code; Ok (w, h, (r, s32 v))).

Definition devfs_dup (s : devfs) (ifd : Z) : res (devfs * Z) :=
  on_dhandle s ifd (- rc EBADF) (fun w h => Ok (w, mk_dhandle (dh_id h) (s32 (dh_refs h + 1)) (dh_data h), ifd)).

Definition devfs_close (s : devfs) (ifd : Z) : res (devfs * Z) :=
  match rcparray_get (dfs_handles s) ifd with
  | (l, None) => Ok (set_dfs_handles s l, - rc EBADF)
  | (l, Some h) =>
      let refs := s32 (dh_refs h - 1) in
      let l := rcparray_write l ifd (mk_dhandle (dh_id h) refs (dh_data h)) in
      if refs >? 0 then Ok (set_dfs_handles s (rcparray_unref l ifd), 0)
      else
        let l := fst (rcparray_remove l ifd) in
        '(w, ret) ← dev_char_close (dfs_chars s) (dh_id h) ifd;
        Ok (mk_devfs w (rcparray_unref l ifd), ret)
  end.

(** [finfo->type], from the kind of a device. *)
Definition fs_type_of (t : Z) : Z :=
  if t =? DEV_TYPE_BLOCK then FS_TYPE_BLOCK else if t =? DEV_TYPE_CHAR then FS_TYPE_CHAR else if t =? DEV_TYPE_NET then FS_TYPE_NET else t.

(** The type, the other fields being zero, and the return value. *)
Definition devfs_finfo (s : devfs) (path : list Z) : res (devfs * (option Z * Z)) :=
  c ← strcmp path (bytes "/" ++ [0]);
  if c =? 0 then Ok (s, (Some FS_TYPE_DIR, 0))
  else
    let '(s, dev_id) := path_device s path in
    if is_error dev_id then Ok (s, (None, dev_id))
    else
      let '(a, t) := dev_type (c_array (dfs_chars s)) dev_id in
      let s := set_dfs_chars s (set_c_array (dfs_chars s) a) in
      if is_error t then Ok (s, (None, t)) else Ok (s, (Some (fs_type_of t), 0)).

Definition devfs_opendir (s : devfs) (path : list Z) : res (devfs * Z) :=
  c ← strcmp path (bytes "/" ++ [0]);
  if negb (c =? 0) then Ok (s, - rc ENOTDIR)
  else
    let '(l, id) := rcparray_add (dfs_handles s) (mk_dhandle 0 1 None) in
    match rcparray_get l id with
    | (_, None) => Fault
    | (l, Some _) => Ok (set_dfs_handles s (rcparray_unref (rcparray_write l id (mk_dhandle 0 1 (Some 0))) id), id)
    end.

(** The loop of [devfs_readdir] from [pos] on: the new position, the entry and the result. *)
Fixpoint dreaddir_loop (fuel : nat) (w : charw) (pos : Z) (name : list Z) (type : Z) : res (charw * Z * (list Z * Z * Z)) :=
  if pos <? zlen (c_array w) then
    match fuel with
    | O => OutOfFuel
    | S f =>
        '(a, name, cd) ← dev_id2name (c_array w) pos name;
        let w := set_c_array w a in
        if is_error cd then dreaddir_loop f w (pos + 1) name type
        else
          let '(a, t) := dev_type (c_array w) pos in
          let type := if (t =? DEV_TYPE_BLOCK) || (t =? DEV_TYPE_CHAR) || (t =? DEV_TYPE_NET) then fs_type_of t else type in
          Ok (set_c_array w a, pos + 1, (name, type, 0))
    end
  else Ok (w, pos, (name, type, -1)).

(** A handle that is no directory has no position: it is read through a null pointer. *)
Definition devfs_readdir (s : devfs) (ifd : Z) (name : list Z) (type : Z) : res (devfs * (list Z * Z * Z)) :=
  on_dhandle s ifd (name, type, - rc EBADF) (fun w h =>
    pos ← res_of_option (dh_data h);
    '(w, pos, x) ← dreaddir_loop (length (c_array w)) w pos name type;
    Ok (w, mk_dhandle (dh_id h) (dh_refs h) (Some pos), x)).
End Devfs.

Arguments char_ops D R : clear implicits.
Arguments dev_char D R : clear implicits.
Arguments charw D R : clear implicits.
Arguments devfs D R : clear implicits.

(** ** Calls on devices *)

(** The device with the name, the first one in the table. *)
Definition dev_lookup (a : rcparray dev) (name : list Z) : option (Z * dev) :=
  find_from (fun d => match strcmp (dname d) name with Ok v => v =? 0 | _ => false end) a 0.

Lemma find_from_slot {A} cond (a : rcparray A) : forall i0 i v, 0 <= i0 -> find_from cond a i0 = Some (i, v) ->
  exists c, arr_slot a (i - i0) = Some c /\ present c = true /\ value c = v /\ i0 <= i.
Proof.
  induction a as [|o a IH]; intros i0 i v Hi E; [done|]. cbn [find_from] in E.
  assert (find_from cond a (i0 + 1) = Some (i, v) -> exists c, arr_slot (o :: a) (i - i0) = Some c /\ present c = true /\ value c = v /\ i0 <= i) as Hnext.
  { intros E'. destruct (IH (i0 + 1) i v ltac:(lia) E') as (c & Hs & Hp & Hv & Hle). exists c. split_and!; try done; [|lia].
    apply arr_slot_Some in Hs as [? Hs]. apply arr_slot_Some. split; [lia|]. replace (Z.to_nat (i - i0)) with (S (Z.to_nat (i - (i0 + 1)))) by lia. done. }
  destruct o as [c|]; [|auto]. destruct (present c && cond (value c)) eqn:Ec; [|auto]. injection E as <- <-. apply andb_true_iff in Ec as [Hp _].
  exists c. rewrite Z.sub_diag. by split_and!.
Qed.

Lemma dev_find_ok a name id d : dev_lookup a name = Some (id, d) -> zlen a < 2 ^ 64 -> (forall j c, arr_slot a j = Some c -> counted c) ->
  dev_find a name = (a, id) /\ 0 <= id < zlen a.
Proof.
  intros E Hz Hr. unfold dev_find, rcparray_find. fold (dev_lookup a name). rewrite E. destruct (find_from_slot _ a 0 id d ltac:(lia) E) as (c & Hs & Hp & Hv & Hle).
  rewrite Z.sub_0_r in Hs. rewrite Hs. pose proof (arr_slot_range _ _ _ Hs) as Hrg. split; [|done].
  destruct (get_unref_same a id c Hs Hp (Hr _ _ Hs) ltac:(lia)) as (a1 & Hg & Hu). rewrite rcparray_get_eq, Hs, Hp in Hg by lia. injection Hg as Hg. by rewrite Hg, Hu.
Qed.

(** ** Numbered devices: "tty%i", "tts%i" *)

Definition numbered (pre : list Z) (i : Z) : list Z := pre ++ [48 + i].

Lemma numbered_printed a b c buffer scratch i : Forall (fun x => 0 < x < 256 /\ x <> 37) [a; b; c] -> zlen buffer = 8 -> zlen scratch = FMT_BUFFER -> 0 <= i < 10 ->
  snprintf buffer 8 ([a; b; c] ++ bytes "%i" ++ [0]) [VInt i] scratch = Ok (numbered [a; b; c] i ++ 0 :: drop 5 buffer, 4).
Proof.
  intros Hp Hb Hs Hi. pose proof (snprintf_ok buffer 8 [Lit a; Lit b; Lit c; Dir false [] None 105] [] [VInt i] scratch (numbered [a; b; c] i)) as E.
  change ([a; b; c] ++ bytes "%i" ++ [0]) with (print_items [Lit a; Lit b; Lit c; Dir false [] None 105] ++ 0 :: []). rewrite E; [|..].
  - rewrite splice_0. change (take (Z.to_nat (8 - 1)) (numbered [a; b; c] i)) with (numbered [a; b; c] i). rewrite <- app_assoc. done.
  - inversion Hp as [|? ? [? ?] Hp1]; subst. inversion Hp1 as [|? ? [? ?] Hp2]; subst. inversion Hp2 as [|? ? [? ?] _]; subst. repeat constructor; unfold is_digit; simpl; try (done || lia).
  - by repeat constructor.
  - done.
  - assert (i = 0 \/ i = 1 \/ i = 2 \/ i = 3 \/ i = 4 \/ i = 5 \/ i = 6 \/ i = 7 \/ i = 8 \/ i = 9) as Hc by lia. by destruct Hc as [->|[->|[->|[->|[->|[->|[->|[->|[->| ->]]]]]]]]].
  - lia.
  - lia.
Qed.

Lemma register_named {D R} (w : charw D R) name rest addr fresh scratch : zlen fresh = 32 -> zlen scratch = FMT_BUFFER -> nonul name -> zlen name < 31 ->
  dev_register_char w (name ++ 0 :: rest) addr fresh scratch
  = let '(a, id) := rcparray_add (c_array w) (mk_dev (name ++ 0 :: drop (S (length name)) fresh) DEV_TYPE_CHAR addr) in @Ok (charw D R * Z) (set_c_array w a, id).
Proof.
  intros Hm Hs Hn Hl. unfold dev_register_char. destruct (snprintf_str fresh 32 scratch name 0 rest) as (v & ->); [done|lia|done|left; split; [done|lia]|].
  rewrite splice_0, <- app_assoc. cbn [app mbind res_bind]. by rewrite length_app, Nat.add_1_r.
Qed.

Section Calls.
Context {D R : Type}.
Implicit Types (w : charw D R) (s : devfs D R).

(** Device [id] is the character device [c]. *)
Definition char_at w (id : Z) (c : dev_char D R) : Prop :=
  0 <= id < 2 ^ 64 /\ exists k, arr_slot (c_array w) id = Some k /\ present k = true /\ counted k /\ dtype (value k) = DEV_TYPE_CHAR /\ chars w !! dspecific (value k) = Some c.

Lemma on_char_ok {F X} w id c (sel : char_ops D R -> option F) (missing : X) unable call f d x : char_at w id c -> sel (c_ops c) = Some f ->
  call f (cdrv w) (c_internal_id c) = Ok (d, x) -> on_char w id sel missing unable call = Ok (set_cdrv w d, x).
Proof.
  intros (Hid & k & Hs & Hp & Hr & Ht & Hc) Hf Hcall. unfold on_char, dev_char_get. destruct (get_unref_same _ _ _ Hs Hp Hr Hid) as (a1 & -> & Hun).
  rewrite Ht. cbn [negb Z.eqb Pos.eqb DEV_TYPE_CHAR chars set_c_array]. rewrite Hc. cbn [res_of_option mbind res_bind]. rewrite Hf. cbn [cdrv set_c_array]. rewrite Hcall.
  cbn [mbind res_bind]. unfold dev_char_unref, set_c_array, set_cdrv. cbn [c_array chars cdrv]. by rewrite Hun.
Qed.

(** The handle [ifd] is [h]. *)
Definition handle_at s (ifd : Z) (h : dhandle) : Prop :=
  0 <= ifd < 2 ^ 64 /\ exists k, arr_slot (dfs_handles s) ifd = Some k /\ present k = true /\ refs k = 1 /\ value k = h.

Lemma on_dhandle_ok {X} s ifd h (missing x : X) f w' h' : handle_at s ifd h -> f (dfs_chars s) h = Ok (w', h', x) ->
  on_dhandle s ifd missing f = Ok (mk_devfs w' (arr_set (dfs_handles s) ifd (Some (mk_cell 1 true h'))), x).
Proof.
  intros (Hid & k & Hs & Hp & Hr & <-) Hf. unfold on_dhandle. destruct (get_write_unref _ _ _ Hs Hp ltac:(unfold counted; lia) Hid) as (a1 & -> & Hun).
  rewrite Hf. cbn [mbind res_bind]. rewrite Hun. do 4 f_equal. unfold set_value. by rewrite Hp, Hr.
Qed.

Lemma handle_same s ifd h : handle_at s ifd h -> arr_set (dfs_handles s) ifd (Some (mk_cell 1 true h)) = dfs_handles s.
Proof.
  intros (Hid & k & Hs & Hp & Hr & <-). apply arr_slot_Some in Hs as [_ Hs]. unfold arr_set. apply list_insert_id. rewrite Hs. destruct k. simpl in *. by subst.
Qed.

Lemma devfs_read_ok s ifd h c f buffer len d' b v : handle_at s ifd h -> char_at (dfs_chars s) (dh_id h) c -> cop_read (c_ops c) = Some f ->
  f (cdrv (dfs_chars s)) (c_internal_id c) ifd buffer (s32 len) = Ok (d', b, v) ->
  devfs_read s ifd buffer len = Ok (mk_devfs (set_cdrv (dfs_chars s) d') (dfs_handles s), (b, v)).
Proof.
  intros Hh Hc Hf E. unfold devfs_read, dev_char_read. erewrite on_dhandle_ok; [by rewrite (handle_same s ifd h Hh)|done|].
  rewrite (on_char_ok _ _ c _ _ _ _ f d' (b, v)); [done|done|done|]. cbv beta. by rewrite E.
Qed.

Lemma devfs_write_ok s ifd h c f buffer len d' v : handle_at s ifd h -> char_at (dfs_chars s) (dh_id h) c -> cop_write (c_ops c) = Some f ->
  f (cdrv (dfs_chars s)) (c_internal_id c) ifd buffer (s32 len) = Ok (d', v) ->
  devfs_write s ifd buffer len = Ok (mk_devfs (set_cdrv (dfs_chars s) d') (dfs_handles s), v).
Proof.
  intros Hh Hc Hf E. unfold devfs_write, dev_char_write. erewrite on_dhandle_ok; [by rewrite (handle_same s ifd h Hh)|done|].
  by rewrite (on_char_ok _ _ c _ _ _ _ f d' v).
Qed.

(** Reading, writing and controlling an open device file is the driver's own operation, with
    the device's number, the handle and the length as an [int]; the tables stay as they are.
    What the driver does not offer is ENOSYS. *)
Theorem devfs_io_dispatch s ifd h c : handle_at s ifd h -> char_at (dfs_chars s) (dh_id h) c ->
  let i := c_internal_id c in let d := cdrv (dfs_chars s) in
  let with_drv d' := mk_devfs (set_cdrv (dfs_chars s) d') (dfs_handles s) in
  (forall f buffer len d' b v, cop_read (c_ops c) = Some f -> f d i ifd buffer (s32 len) = Ok (d', b, v) -> devfs_read s ifd buffer len = Ok (with_drv d', (b, v))) /\
  (forall f buffer len d' v, cop_write (c_ops c) = Some f -> f d i ifd buffer (s32 len) = Ok (d', v) -> devfs_write s ifd buffer len = Ok (with_drv d', v)) /\
  (forall f code d' r v, cop_ioctl (c_ops c) = Some f -> f d i ifd code = Ok (d', r, v) -> devfs_ioctl s ifd code = Ok (with_drv d', (r, s32 v))) /\
  (forall buffer len, cop_write (c_ops c) = None -> devfs_write s ifd buffer len = Ok (s, - rc ENOSYS)).
Proof.
  intros Hh Hc. cbv zeta. split_and!.
  - intros f buffer len d' b v Hf E. by apply (devfs_read_ok s ifd h c f).
  - intros f buffer len d' v Hf E. by apply (devfs_write_ok s ifd h c f).
  - intros f code d' r v Hf E. unfold devfs_ioctl, dev_char_ioctl. erewrite on_dhandle_ok; [by rewrite (handle_same s ifd h Hh)|done|]. rewrite (on_char_ok _ _ c _ _ _ _ f d' (r, v)); [done|done|done|]. cbv beta. by rewrite E.
  - intros buffer len Hn. unfold devfs_write, dev_char_write, on_char, dev_char_get. erewrite (on_dhandle_ok s ifd h _ (- rc ENOSYS) _ (dfs_chars s)); [by rewrite handle_same; [destruct s|]|done|].
    destruct Hc as (Hid & k & Hs & Hp & Hr & Ht & Hck). destruct (get_unref_same _ _ _ Hs Hp Hr Hid) as (a1 & -> & Hun). rewrite Ht.
    cbn [negb Z.eqb Pos.eqb DEV_TYPE_CHAR chars set_c_array]. rewrite Hck. cbn [res_of_option mbind res_bind]. rewrite Hn. cbn [mbind res_bind].
    unfold dev_char_unref, set_c_array. cbn [c_array chars cdrv]. rewrite Hun. by destruct (dfs_chars s).
Qed.
End Calls.

Section OpenClose.
Context {D R : Type}.
Implicit Types (w : charw D R) (s : devfs D R).

(** A handle that is closed is released: its place is free and the others are as before. *)
Lemma release_slot {A} (l : rcparray A) id k v : arr_slot l id = Some k -> present k = true -> refs k = 1 -> 0 <= id < 2 ^ 64 ->
  exists a1, rcparray_get l id = (a1, Some (value k)) /\
    rcparray_unref (fst (rcparray_remove (rcparray_write a1 id v) id)) id = arr_set l id None.
Proof.
  intros Hs Hp Hr Hid. rewrite rcparray_get_eq, Hs, Hp by done. eexists. split; [done|]. pose proof (arr_slot_range _ _ _ Hs) as Hrg.
  assert (forall o o', arr_set (arr_set l id o) id o' = arr_set l id o') as Htw by (intros; apply list_insert_insert_eq).
  assert (rcparray_write (arr_set l id (Some (set_refs k (refs k + 1)))) id v = arr_set l id (Some (mk_cell 2 true v))) as ->.
  { unfold rcparray_write. rewrite u64_small, arr_slot_set by (done || lia). rewrite Htw. unfold set_value, set_refs. cbn [refs present]. by rewrite Hr, Hp. }
  rewrite rcparray_remove_eq, arr_slot_set by done. cbn [fst retire refs value Z.eqb Z.sub Z.opp Z.add Z.pos_sub Pos.pred_double]. rewrite Htw.
  change (retire (mk_cell 2 true v)) with (Some (mk_cell 1 false v)). rewrite rcparray_unref_eq, arr_slot_set by done. by rewrite Htw.
Qed.

Lemma close_last s ifd h c f d' : handle_at s ifd h -> dh_refs h = 1 -> char_at (dfs_chars s) (dh_id h) c -> cop_close (c_ops c) = Some f ->
  f (cdrv (dfs_chars s)) (c_internal_id c) ifd = Ok d' ->
  devfs_close s ifd = Ok (mk_devfs (set_cdrv (dfs_chars s) d') (arr_set (dfs_handles s) ifd None), 0).
Proof.
  intros (Hid & k & Hs & Hp & Hr & <-) H1 Hc Hf E. unfold devfs_close.
  destruct (release_slot _ _ _ (mk_dhandle (dh_id (value k)) 0 (dh_data (value k))) Hs Hp Hr Hid) as (a1 & -> & Hun).
  rewrite H1. change (s32 (1 - 1)) with 0. cbn [Z.gtb Z.compare]. unfold dev_char_close.
  rewrite (on_char_ok _ _ c _ _ _ _ f d' 0); [|done|done|by rewrite E]. cbn [mbind res_bind]. by rewrite Hun.
Qed.

Lemma open_ok s path id dv c fo : dev_lookup (c_array (dfs_chars s)) (drop 1 path) = Some (id, dv) ->
  zlen (c_array (dfs_chars s)) < 2 ^ 31 -> (forall j k, arr_slot (c_array (dfs_chars s)) j = Some k -> counted k) -> zlen (dfs_handles s) < 2 ^ 31 ->
  char_at (dfs_chars s) id c -> cop_open (c_ops c) = Some fo ->
  let '(l, ifd) := rcparray_add (dfs_handles s) (mk_dhandle id 1 None) in
  forall d1 v, fo (cdrv (dfs_chars s)) (c_internal_id c) ifd = Ok (d1, v) -> 0 <= v ->
  let s1 := mk_devfs (set_cdrv (dfs_chars s) d1) l in devfs_open s path = Ok (s1, ifd) /\ handle_at s1 ifd (mk_dhandle id 1 None).
Proof.
  intros Hl Hz Hrefs Hzh Hc Hfo. destruct (dev_find_ok _ _ _ _ Hl ltac:(lia) Hrefs) as (Ef & Hid).
  unfold devfs_open, path_device. rewrite Ef. destruct (Z.eqb_spec id (- rc ENODEV)) as [E|_]; [assert (0 < rc ENODEV) by done; lia|].
  assert (is_error id = false) as -> by (unfold is_error; apply Z.ltb_ge; lia). cbn [dfs_handles set_dfs_chars dfs_chars].
  pose proof (rcparray_add_spec (dfs_handles s) (mk_dhandle id 1 None)) as Hadd. destruct (rcparray_add _ _) as [l h] eqn:El.
  destruct Hadd as (Hh & _ & _ & [Hcell _] & _). cbn [cell_at] in *. intros d1 v Eo Hv.
  destruct (get_unref_same l h _ Hcell eq_refl ltac:(done) ltac:(lia)) as (a1 & Hg & Hun). rewrite Hg.
  replace (set_c_array (dfs_chars s) (c_array (dfs_chars s))) with (dfs_chars s) by (by destruct (dfs_chars s)).
  unfold dev_char_open. rewrite (on_char_ok _ _ c _ _ _ _ fo d1 v); [|done|done|done]. cbn [mbind res_bind]. assert (is_error v = false) as -> by (unfold is_error; apply Z.ltb_ge; lia).
  rewrite Hun. split; [done|]. split; [lia|]. by eexists.
Qed.

Lemma dup_close s ifd id : handle_at s ifd (mk_dhandle id 1 None) -> exists s2, devfs_dup s ifd = Ok (s2, ifd) /\ devfs_close s2 ifd = Ok (s, 0).
Proof.
  intros Hh. set (h2 := mk_dhandle id 2 None). eexists. split.
  { unfold devfs_dup. by rewrite (on_dhandle_ok s ifd (mk_dhandle id 1 None) _ ifd _ (dfs_chars s) h2 Hh). }
  pose proof Hh as (Hid & k & Hcell & _). pose proof (arr_slot_range _ _ _ Hcell) as Hrg. unfold devfs_close. cbn [dfs_handles].
  assert (arr_slot (arr_set (dfs_handles s) ifd (Some (mk_cell 1 true h2))) ifd = Some (mk_cell 1 true h2)) as Hs2 by (by rewrite arr_slot_set).
  destruct (get_write_unref _ _ _ Hs2 eq_refl ltac:(done) Hid) as (a3 & -> & Hun3). cbn [value dh_refs h2]. change (s32 (2 - 1)) with 1. cbn [Z.gtb Z.compare].
  rewrite Hun3. unfold set_dfs_handles, set_value. cbn [refs present dh_id dh_data dfs_chars]. unfold arr_set. rewrite list_insert_insert_eq.
  pose proof (handle_same s ifd _ Hh) as Hsame. unfold arr_set in Hsame. cbn in *. rewrite Hsame. by destruct s.
Qed.

(** Opening a device file asks the driver once and gives the first free handle; closing that
    handle tells the driver and leaves the handles as they were.  A duplicate keeps the file
    open: the first of the two closes only undoes it. *)
Theorem devfs_open_close s path id dv c fo fc d1 d2 v : dev_lookup (c_array (dfs_chars s)) (drop 1 path) = Some (id, dv) ->
  zlen (c_array (dfs_chars s)) < 2 ^ 31 -> (forall j k, arr_slot (c_array (dfs_chars s)) j = Some k -> counted k) -> zlen (dfs_handles s) < 2 ^ 31 ->
  char_at (dfs_chars s) id c -> cop_open (c_ops c) = Some fo -> cop_close (c_ops c) = Some fc ->
  let ifd := snd (rcparray_add (dfs_handles s) (mk_dhandle id 1 None)) in
  fo (cdrv (dfs_chars s)) (c_internal_id c) ifd = Ok (d1, v) -> 0 <= v -> fc d1 (c_internal_id c) ifd = Ok d2 ->
  exists s1, devfs_open s path = Ok (s1, ifd) /\ handle_at s1 ifd (mk_dhandle id 1 None) /\ dfs_chars s1 = set_cdrv (dfs_chars s) d1 /\
    (exists s2, devfs_dup s1 ifd = Ok (s2, ifd) /\ devfs_close s2 ifd = Ok (s1, 0)) /\
    exists s4, devfs_close s1 ifd = Ok (s4, 0) /\ dfs_chars s4 = set_cdrv (dfs_chars s) d2 /\ forall j, 0 <= j < 2 ^ 64 -> arr_slot (dfs_handles s4) j = arr_slot (dfs_handles s) j.
Proof.
  intros Hl Hz Hrefs Hzh Hc Hfo Hfc ifd Eo Hv Ec. pose proof (open_ok s path id dv c fo Hl Hz Hrefs Hzh Hc Hfo) as Ho.
  pose proof (rcparray_add_spec (dfs_handles s) (mk_dhandle id 1 None)) as Hadd. unfold ifd in *. clear ifd. destruct (rcparray_add _ _) as [l h] eqn:El. cbn [snd] in *.
  destruct Hadd as (Hh & Hnone & _ & [Hcell Hoth] & _). cbn [cell_at] in *. destruct (Ho d1 v Eo Hv) as [E1 Hh1].
  set (s1 := mk_devfs (set_cdrv (dfs_chars s) d1) l) in *. exists s1. split; [done|]. split; [done|]. split; [done|]. split; [by apply (dup_close s1 h id)|].
  assert (char_at (dfs_chars s1) id c) as Hc1 by exact Hc.
  eexists. split; [apply (close_last s1 h _ c fc d2 Hh1 eq_refl Hc1 Hfc Ec)|]. split; [done|]. intros j Hj. cbn [dfs_handles s1]. pose proof (arr_slot_range _ _ _ Hcell) as Hrg.
  destruct (decide (j = h)) as [->|Hne]; [by rewrite arr_slot_set, Hnone by lia|]. rewrite arr_slot_set_ne by (lia || done). by apply Hoth.
Qed.

Lemma opendir_ok s : zlen (dfs_handles s) < 2 ^ 31 ->
  exists s1 ifd, devfs_opendir s (bytes "/" ++ [0]) = Ok (s1, ifd) /\ dfs_chars s1 = dfs_chars s /\ handle_at s1 ifd (mk_dhandle 0 1 (Some 0)).
Proof.
  intros Hz. unfold devfs_opendir. change (strcmp (bytes "/" ++ [0]) (bytes "/" ++ [0])) with (Ok 0). cbn [mbind res_bind negb Z.eqb].
  pose proof (rcparray_add_spec (dfs_handles s) (mk_dhandle 0 1 None)) as Hadd. destruct (rcparray_add _ _) as [l h] eqn:El. cbn [snd] in *.
  destruct Hadd as (Hh & _ & _ & [Hcell _] & _). cbn [cell_at] in *. pose proof (arr_slot_range _ _ _ Hcell) as Hrg.
  destruct (get_write_unref l h _ Hcell eq_refl ltac:(done) ltac:(lia)) as (a1 & -> & Hun). rewrite Hun. unfold set_value. cbn [refs present].
  eexists _, h. split; [done|]. split; [done|]. split; [lia|]. eexists. split; [cbn; by rewrite arr_slot_set|done].
Qed.

(** A directory of devices has no device of its own, but closing it tells the driver of
    device 0 to close a file it never opened. *)
Theorem devfs_closedir_closes_device s c f : zlen (dfs_handles s) < 2 ^ 31 -> char_at (dfs_chars s) 0 c -> cop_close (c_ops c) = Some f ->
  exists s1 ifd, devfs_opendir s (bytes "/" ++ [0]) = Ok (s1, ifd) /\ dfs_chars s1 = dfs_chars s /\
    forall d', f (cdrv (dfs_chars s)) (c_internal_id c) ifd = Ok d' -> exists s2, devfs_close s1 ifd = Ok (s2, 0) /\ cdrv (dfs_chars s2) = d'.
Proof.
  intros Hz Hc Hf. destruct (opendir_ok s Hz) as (s1 & ifd & E & Hs & Hh). exists s1, ifd. split; [done|]. split; [done|]. intros d' Ed. rewrite <- Hs in *.
  eexists. split; [by apply (close_last s1 ifd _ c f d' Hh)|done].
Qed.
End OpenClose.

(** ** Listing *)

(** The devices of the table, in order. *)
Definition devices (a : rcparray dev) : list dev :=
  omap (fun o => match o with Some k => if present k then Some (value k) else None | None => None end) a.

(** A usable table: references are held, names fill their 32 bytes, the kinds are known. *)
Record table_ok (a : rcparray dev) : Prop := {
  tb_size : zlen a < 2 ^ 31;
  tb_refs : forall j k, arr_slot a j = Some k -> counted k;
  tb_devs : Forall (fun d => zlen (dname d) = 32 /\ DEV_TYPE_CHAR <= dtype d <= DEV_TYPE_NET) (devices a) }.

(** What an entry shows of a device; the name goes over the first bytes of what is there. *)
Definition dentry_of (d : dev) (name : list Z) : list Z * Z := (dname d ++ drop 32 name, fs_type_of (dtype d)).

Section Listing.
Context {D R : Type}.
Implicit Types (w : charw D R) (s : devfs D R).

(** Reading the directory until it ends. *)
Fixpoint devfs_list (n : nat) s (ifd : Z) (name : list Z) (type : Z) : res (devfs D R * list (list Z * Z) * Z) :=
  '(s, (name, type, r)) ← devfs_readdir s ifd name type;
  if negb (r =? 0) then Ok (s, [], r)
  else match n with O => OutOfFuel | S n => '(s, l, e) ← devfs_list n s ifd name type; Ok (s, (name, type) :: l, e) end.

(** What the entries are: each name is written over the last. *)
Fixpoint entries (ds : list dev) (name : list Z) : list (list Z * Z) :=
  match ds with [] => [] | d :: ds => dentry_of d name :: entries ds name end.

Lemma drop_name d name : zlen (dname d) = 32 -> drop 32 (dname d ++ drop 32 name) = drop 32 name.
Proof. intros H. unfold zlen in H. rewrite drop_app_ge by lia. replace (32 - length (dname d))%nat with 0%nat by lia. done. Qed.

Lemma entries_name ds d name : zlen (dname d) = 32 -> entries ds (dname d ++ drop 32 name) = entries ds name.
Proof. intros H. induction ds as [|x ds IH]; cbn [entries]; [done|]. unfold dentry_of. by rewrite drop_name, IH. Qed.

(** The next entry: the first device from the position on. *)
Lemma dreaddir_ok w : table_ok (c_array w) -> forall r p fuel name type, c_array w = p ++ r -> (length r <= fuel)%nat -> 32 <= zlen name ->
  match devices r with
  | [] => dreaddir_loop fuel w (zlen p) name type = Ok (w, zlen (c_array w), (name, type, -1))
  | d :: ds => exists p' r', c_array w = p' ++ r' /\ devices r' = ds /\
      dreaddir_loop fuel w (zlen p) name type = Ok (w, zlen p', ((dentry_of d name).1, (dentry_of d name).2, 0))
  end.
Proof.
  intros Hw. induction r as [|o r IH]; intros p fuel name type Ea Hf Hn.
  - rewrite app_nil_r in Ea. cbn [devices omap]. destruct fuel; cbn [dreaddir_loop]; rewrite Ea, Z.ltb_irrefl; done.
  - destruct fuel as [|f]; [cbn in Hf; lia|]. assert (zlen p < zlen (c_array w)) as Hlt by (rewrite Ea, zlen_app, zlen_cons; pose proof (zlen_nonneg r); lia).
    assert (arr_slot (c_array w) (zlen p) = o) as Hs by (rewrite Ea; apply slot_mid). pose proof (tb_size _ Hw). pose proof (zlen_nonneg p).
    assert (c_array w = (p ++ [o]) ++ r) as Ea' by (by rewrite <- app_assoc).
    assert (zlen (p ++ [o]) = zlen p + 1) as Ez by (by rewrite zlen_app).
    cbn [dreaddir_loop]. destruct (Z.ltb_spec (zlen p) (zlen (c_array w))); [|lia]. unfold dev_id2name.
    specialize (IH (p ++ [o]) f name type Ea' ltac:(cbn in Hf; lia) Hn). rewrite Ez in IH.
    assert (set_c_array w (c_array w) = w) as Ew by (by destruct w).
    assert (forall x, o = x -> match x with Some k => present k = false | None => True end -> devices (o :: r) = devices r /\ rcparray_get (c_array w) (zlen p) = (c_array w, None)) as Hskip.
    { intros x <- Hx. rewrite rcparray_get_eq, Hs by lia. unfold devices. destruct o as [k|]; [|done]. simpl in Hx. rewrite Hx. split; [|done]. cbn. by rewrite Hx. }
    destruct o as [k|]; [destruct (present k) eqn:Hp|].
    + assert (devices (Some k :: r) = value k :: devices r) as -> by (unfold devices; cbn; by rewrite Hp). destruct (get_unref_same _ _ _ Hs Hp (tb_refs _ Hw _ _ Hs) ltac:(lia)) as (a1 & Hg & Hun). rewrite Hg.
      pose proof (tb_devs _ Hw) as Hd. rewrite Forall_forall in Hd. destruct (Hd (value k)) as [Hnm Ht].
      { unfold devices. apply list_elem_of_omap. exists (Some k). split; [rewrite Ea; apply elem_of_app; right; left|by rewrite Hp]. }
      rewrite memcpy_ok by lia. cbn [mbind res_bind]. rewrite Hun, Ew. cbn [is_error Z.ltb Z.compare].
      unfold dev_type. rewrite Hg, Hun. assert (splice name 0 (slice (dname (value k)) 0 32) = dname (value k) ++ drop 32 name) as ->.
      { rewrite splice_0. unfold slice. change (Z.to_nat 32) with 32%nat. change (drop (Z.to_nat 0) (dname (value k))) with (dname (value k)). unfold zlen in Hnm. rewrite take_ge by lia. do 2 f_equal. lia. }
      assert ((dtype (value k) =? DEV_TYPE_BLOCK) || (dtype (value k) =? DEV_TYPE_CHAR) || (dtype (value k) =? DEV_TYPE_NET) = true) as ->.
      { unfold DEV_TYPE_CHAR, DEV_TYPE_BLOCK, DEV_TYPE_NET in *. lia. }
      exists (p ++ [Some k]), r. rewrite Ew, Ez. done.
    + destruct (Hskip _ eq_refl Hp) as [-> ->]. cbn [mbind res_bind is_error Z.ltb Z.compare]. by rewrite Ew.
    + destruct (Hskip _ eq_refl I) as [-> ->]. cbn [mbind res_bind is_error Z.ltb Z.compare]. by rewrite Ew.
Qed.

(** Reading on from a position. *)
Lemma devfs_list_ok : forall ds s ifd h pre r name type, table_ok (c_array (dfs_chars s)) -> handle_at s ifd h -> dh_data h = Some (zlen pre) ->
  c_array (dfs_chars s) = pre ++ r -> devices r = ds -> 32 <= zlen name ->
  exists s2, devfs_list (length ds) s ifd name type = Ok (s2, entries ds name, -1) /\ dfs_chars s2 = dfs_chars s.
Proof.
  induction ds as [|d ds IH]; intros s ifd h pre r name type Ht Hh Hd Ea Hr Hn;
    pose proof (dreaddir_ok _ Ht r pre (length (c_array (dfs_chars s))) name type Ea ltac:(rewrite Ea, length_app; lia) Hn) as Hx; rewrite Hr in Hx.
  - cbn [devfs_list length]. unfold devfs_readdir.
    erewrite on_dhandle_ok; [|exact Hh|rewrite Hd; cbn [res_of_option mbind res_bind]; rewrite Hx; done]. eexists. by split.
  - destruct Hx as (p' & r' & Ea' & Hr' & Hx). cbn [devfs_list length]. unfold devfs_readdir at 1.
    erewrite on_dhandle_ok; [|exact Hh|rewrite Hd; cbn [res_of_option mbind res_bind]; rewrite Hx; done]. cbn [mbind res_bind negb Z.eqb].
    set (h1 := mk_dhandle _ _ _). set (s1 := mk_devfs _ _). assert (handle_at s1 ifd h1) as Hh1.
    { destruct Hh as (Hid & k & Hs & _). split; [done|]. eexists. split; [cbn; apply arr_slot_set, (arr_slot_range _ _ _ Hs)|done]. }
    assert (zlen (dname d) = 32) as Hnm. { pose proof (tb_devs _ Ht) as Hall. rewrite Ea in Hall. unfold devices in Hall. rewrite omap_app in Hall. fold (devices pre) (devices r) in Hall. rewrite Hr in Hall. by apply Forall_app in Hall as [_ [[? _] _]%Forall_cons]. }
    destruct (IH s1 ifd h1 p' r' (dname d ++ drop 32 name) (fs_type_of (dtype d)) Ht Hh1 eq_refl Ea' Hr') as (s2 & E & Hc2).
    { rewrite zlen_app, Hnm. pose proof (zlen_nonneg (drop 32 name)). lia. }
    unfold dentry_of in *. cbn [fst snd]. rewrite E. exists s2. cbn [mbind res_bind]. by rewrite entries_name.
Qed.

(** Reading a directory of devices from its start gives every device of the table once, in
    the table's order, with its name and kind, passing over the holes, and then the end; the
    devices stay as they are. *)
Theorem devfs_readdir_lists s name type : table_ok (c_array (dfs_chars s)) -> zlen (dfs_handles s) < 2 ^ 31 -> 32 <= zlen name ->
  exists s1 ifd, devfs_opendir s (bytes "/" ++ [0]) = Ok (s1, ifd) /\
  exists s2, devfs_list (length (devices (c_array (dfs_chars s)))) s1 ifd name type = Ok (s2, entries (devices (c_array (dfs_chars s))) name, -1) /\
    dfs_chars s2 = dfs_chars s.
Proof.
  intros Ht Hz Hn. destruct (opendir_ok s Hz) as (s1 & ifd & E & Hc & Hh). exists s1, ifd. split; [done|]. rewrite <- Hc in *.
  by eapply (devfs_list_ok _ s1 ifd _ [] _ name type Ht Hh).
Qed.
End Listing.

(** ** The null device: drv/pseudo/null.c *)

Section Null.
Context {D R : Type}.
Implicit Types (d : D).

Definition pseudo_null_open d (fd file : Z) : res (D * Z) := Ok (d, 0).
Definition pseudo_null_read d (fd file : Z) (buffer : list Z) (len : Z) : res (D * list Z * Z) := Ok (d, buffer, -1).
Definition pseudo_null_write d (fd file : Z) (buffer : list Z) (len : Z) : res (D * Z) := Ok (d, len).
Definition pseudo_null_close d (fd file : Z) : res D := Ok d.
Definition pseudo_null_ops : char_ops D R := mk_char_ops (Some pseudo_null_open) (Some pseudo_null_read) (Some pseudo_null_write) (Some pseudo_null_close) None.

(** [addr] is the address of [pseudo_null_dev]. *)
Definition pseudo_null_init (w : charw D R) (addr : Z) (fresh scratch : list Z) : res (charw D R * Z) :=
  dev_register_char (mk_charw (c_array w) (<[addr := mk_dev_char 0 pseudo_null_ops]> (chars w)) (cdrv w)) (bytes "null" ++ [0]) addr fresh scratch.

(** In an empty table it is device 0; its file takes whatever is written and gives nothing. *)
Theorem null_file m d addr fresh scratch : zlen fresh = 32 -> zlen scratch = FMT_BUFFER ->
  exists w s, pseudo_null_init (mk_charw [] m d) addr fresh scratch = Ok (w, 0) /\ devfs_open (mk_devfs w []) (bytes "/null" ++ [0]) = Ok (s, 0) /\
    (forall buffer len, devfs_write s 0 buffer len = Ok (s, s32 len) /\ devfs_read s 0 buffer len = Ok (s, (buffer, -1))).
Proof.
  intros Hf Hs. unfold pseudo_null_init. change (bytes "null" ++ [0]) with (bytes "null" ++ 0 :: []). rewrite (register_named _ (bytes "null") [] addr fresh scratch Hf Hs); [|unfold nonul; by repeat constructor|done].
  cbn [c_array rcparray_add first_null app zlen length]. set (dv := mk_dev _ _ _). set (w := set_c_array _ _). exists w.
  assert (char_at w 0 (mk_dev_char 0 pseudo_null_ops)) as Hc.
  { split; [lia|]. exists (mk_cell 1 true dv). split_and!; try done. cbn. by rewrite lookup_insert_eq. }
  pose proof (open_ok (mk_devfs w []) (bytes "/null" ++ [0]) 0 dv (mk_dev_char 0 pseudo_null_ops) pseudo_null_open eq_refl ltac:(done)) as Ho.
  specialize (Ho ltac:(by intros j k [_ E]%arr_slot_Some; cbn in E; apply list_lookup_singleton_Some in E as [_ [= <-]]) ltac:(done) Hc eq_refl).
  cbn [dfs_handles rcparray_add first_null app zlen length] in Ho. destruct (Ho d 0 eq_refl ltac:(lia)) as [Eo Hh]. eexists. split; [done|]. split; [exact Eo|]. intros buffer len. split.
  - apply (devfs_write_ok _ 0 _ (mk_dev_char 0 pseudo_null_ops) pseudo_null_write buffer len d (s32 len) Hh Hc eq_refl eq_refl).
  - apply (devfs_read_ok _ 0 _ (mk_dev_char 0 pseudo_null_ops) pseudo_null_read buffer len d buffer (-1) Hh Hc eq_refl eq_refl).
Qed.
End Null.


(** ** Two devices and a hole *)
Module DevDemo.
Definition nm (s : string) : list Z := bytes s ++ replicate (32 - String.length s) 0.
(** A driver that remembers the last thing it was told. *)
Definition ops : char_ops (list Z) unit :=
  mk_char_ops (Some (fun _ i fd => Ok ([i; fd], 0))) (Some (fun d i fd b n => Ok (d, b, n))) (Some (fun _ i fd b n => Ok (b, n)))
    (Some (fun d i fd => Ok (d ++ [99]))) None.
Definition table : rcparray dev :=
  [Some (mk_cell 1 true (mk_dev (nm "null") DEV_TYPE_CHAR 7)); None; Some (mk_cell 1 true (mk_dev (nm "tty") DEV_TYPE_CHAR 8))].
Definition c (i : Z) : dev_char (list Z) unit := mk_dev_char i ops.
Definition w : charw (list Z) unit := mk_charw table {[7 := c 40; 8 := c 41]} [].
Definition s : devfs (list Z) unit := mk_devfs w [Some (mk_cell 1 true (mk_dhandle 2 1 None))].
Lemma table_refs j k : arr_slot table j = Some k -> counted k.
Proof. intros [_ H]%arr_slot_Some. apply list_elem_of_lookup_2 in H. unfold table in H. rewrite !elem_of_cons, elem_of_nil in H. destruct H as [H|[H|[H|[]]]]; try discriminate H; by injection H as ->. Qed.
Lemma table_fine : table_ok table.
Proof. split; [done|apply table_refs|repeat constructor; done]. Qed.
Lemma char0 : char_at w 0 (c 40).
Proof. split; [lia|]. by eexists. Qed.
Lemma char2 : char_at w 2 (c 41).
Proof. split; [lia|]. by eexists. Qed.
Lemma handle0 : handle_at s 0 (mk_dhandle 2 1 None).
Proof. split; [lia|]. by eexists. Qed.
End DevDemo.

Lemma devfs_io_dispatch_witness : devfs_write DevDemo.s 0 [5; 6] 2 = Ok (mk_devfs (set_cdrv DevDemo.w [5; 6]) (dfs_handles DevDemo.s), 2).
Proof. destruct (devfs_io_dispatch DevDemo.s 0 _ (DevDemo.c 41) DevDemo.handle0 DevDemo.char2) as (_ & H & _). by eapply H. Defined.

Lemma devfs_open_close_witness :
  exists s1, devfs_open DevDemo.s (bytes "/tty" ++ [0]) = Ok (s1, 1) /\ cdrv (dfs_chars s1) = [41; 1] /\
    exists s4, devfs_close s1 1 = Ok (s4, 0) /\ cdrv (dfs_chars s4) = [41; 1; 99].
Proof.
  destruct (devfs_open_close DevDemo.s (bytes "/tty" ++ [0]) 2 (mk_dev (DevDemo.nm "tty") DEV_TYPE_CHAR 8) (DevDemo.c 41) _ _ [41; 1] [41; 1; 99] 0
    ltac:(vm_compute; reflexivity) ltac:(done) DevDemo.table_refs ltac:(done) DevDemo.char2 eq_refl eq_refl eq_refl ltac:(lia) eq_refl) as (s1 & E1 & _ & Hc & _ & s4 & E4 & Hc4 & _).
  exists s1. split; [exact E1|]. split; [by rewrite Hc|]. exists s4. split; [exact E4|]. by rewrite Hc4.
Defined.

Lemma devfs_closedir_closes_device_witness :
  exists s1 ifd s2, devfs_opendir DevDemo.s (bytes "/" ++ [0]) = Ok (s1, ifd) /\ devfs_close s1 ifd = Ok (s2, 0) /\ cdrv (dfs_chars s2) = [99].
Proof.
  destruct (devfs_closedir_closes_device DevDemo.s (DevDemo.c 40) _ ltac:(done) DevDemo.char0 eq_refl) as (s1 & ifd & E & _ & H).
  destruct (H _ eq_refl) as (s2 & E2 & Hd). exists s1, ifd, s2. exact (conj E (conj E2 Hd)).
Defined.

Lemma devfs_readdir_lists_witness : exists s1 ifd s2, devfs_opendir DevDemo.s (bytes "/" ++ [0]) = Ok (s1, ifd) /\
  devfs_list 2 s1 ifd (replicate 256 0) 0 = Ok (s2, entries (devices DevDemo.table) (replicate 256 0), -1).
Proof.
  destruct (devfs_readdir_lists DevDemo.s (replicate 256 0) 0 DevDemo.table_fine ltac:(done) ltac:(done)) as (s1 & ifd & E & s2 & E2 & _).
  exists s1, ifd, s2. exact (conj E E2).
Defined.
