(* ===== verification/Terminal.v ===== *)
(** * Terminals as files: drv/ttyk/ttyk.c on dev/char.c and fs/drv/devfs/devfs.c

    The console's operations as a driver, the registration of its devices by [ttyk_init] next to
    whatever devices and screens there are by then, and what a file on [/ttyN] shows.  [wakes] are
    the states in which a reader wakes up and [stack] is what [arg_buf] holds, as for the console;
    [alloc] gives the addresses of the [dev_char_t] objects and [mem] what is in the memory for
    the [dev_t] names. *)
From S2P Require Import Prelude Strings Format Rcp Block Tty Input Console Devfs.

Definition ttyk_ops (wakes : list (option console)) (stack : list Z) : char_ops console ioctl_data :=
  mk_char_ops (Some ttyk_open) (Some (ttyk_read wakes)) (Some (fun c id _ buffer len => ttyk_write c id buffer len stack)) (Some ttyk_close)
    (Some (fun c id _ code => '(r, v) ← ttyk_ioctl c id code; Ok (c, r, v))).

(** The loop of [ttyk_init]: the devices tty0, tty1, ... *)
Fixpoint register_ttys (n : nat) (i : Z) (w : charw console ioctl_data) (ops : char_ops console ioctl_data) (alloc : Z -> Z) (mem : Z -> list Z) (buffer scratch : list Z)
  : res (charw console ioctl_data) :=
  match n with
  | O => Ok w
  | S n =>
      let w := mk_charw (c_array w) (<[alloc i := mk_dev_char i ops]> (chars w)) (cdrv w) in
      '(buffer, _) ← snprintf buffer 8 (bytes "tty%i" ++ [0]) [VInt i] scratch;
      '(w, _) ← dev_register_char w buffer (alloc i) (mem i) scratch;
      register_ttys n (i + 1) w ops alloc mem buffer scratch
  end.

(** [ttyk_init], over any screens, keyboard and devices: the console, and its devices next to the
    ones there are.  What is read of the keyboard and the screens is in [i]. *)
Definition start_ttyk (i : input) (a : rcparray dev) (ch : gmap Z (dev_char console ioctl_data)) (fresh : list Z) (wakes : list (option console)) (stack : list Z)
    (alloc : Z -> Z) (mem : Z -> list Z) (buffer scratch : list Z) : res (charw console ioctl_data) :=
  c ← ttyk_init i fresh;
  register_ttys (Z.to_nat TTY_AMOUNT) 0 (mk_charw a ch c) (ttyk_ops wakes stack) alloc mem buffer scratch.

(** ** The devices *)

Definition tty_text (i : Z) : list Z := bytes "tty" ++ [48 + i].
Definition tty_name (mem : Z -> list Z) (i : Z) : list Z := tty_text i ++ 0 :: drop 5 (mem i).
Definition tty_path (i : Z) : list Z := bytes "/" ++ tty_text i ++ [0].

Lemma tty_name_printed buffer scratch i : zlen buffer = 8 -> zlen scratch = FMT_BUFFER -> 0 <= i < TTY_AMOUNT ->
  snprintf buffer 8 (bytes "tty%i" ++ [0]) [VInt i] scratch = Ok (tty_text i ++ 0 :: drop 5 buffer, 4).
Proof. intros Hb Hs Hi. apply (numbered_printed 116 116 121); [by repeat constructor|done|done|unfold TTY_AMOUNT in Hi; lia]. Qed.

Definition tty_dev (alloc : Z -> Z) (mem : Z -> list Z) (i : Z) : dev := mk_dev (tty_name mem i) DEV_TYPE_CHAR (alloc i).

Lemma register_tty w alloc mem buffer scratch i : zlen (mem i) = 32 -> zlen buffer = 8 -> zlen scratch = FMT_BUFFER -> 0 <= i < TTY_AMOUNT ->
  dev_register_char w (tty_text i ++ 0 :: drop 5 buffer) (alloc i) (mem i) scratch
  = let '(a, id) := rcparray_add (c_array w) (tty_dev alloc mem i) in @Ok (charw console ioctl_data * Z) (set_c_array w a, id).
Proof.
  intros Hm Hb Hs Hi. apply (register_named w (tty_text i) (drop 5 buffer) (alloc i) (mem i) scratch Hm Hs); [|done].
  unfold TTY_AMOUNT in Hi. unfold nonul, tty_text. change (bytes "tty") with [116; 116; 121]. cbn [app]. repeat (apply Forall_cons; split; [lia|]). apply Forall_nil_2.
Qed.

(** The test of [dev_find]. *)
Definition named (name : list Z) (d : dev) : bool := match strcmp (dname d) name with Ok v => v =? 0 | _ => false end.

Lemma tty_named alloc mem i n : 0 <= i < TTY_AMOUNT -> 0 <= n < TTY_AMOUNT -> named (tty_text n ++ [0]) (tty_dev alloc mem i) = bool_decide (i = n).
Proof.
  unfold TTY_AMOUNT. intros Hi Hn. assert (i = 0 \/ i = 1 \/ i = 2 \/ i = 3 \/ i = 4 \/ i = 5) as Hc by lia. assert (n = 0 \/ n = 1 \/ n = 2 \/ n = 3 \/ n = 4 \/ n = 5) as Hd by lia.
  destruct Hc as [->|[->|[->|[->|[->| ->]]]]]; by destruct Hd as [->|[->|[->|[->|[->| ->]]]]].
Qed.

(** The one entry that fits is found. *)
Lemma find_only {A} cond (a : rcparray A) k c : arr_slot a k = Some c -> present c = true -> cond (value c) = true ->
  (forall j d, arr_slot a j = Some d -> present d = true -> cond (value d) = true -> j = k) -> find_from cond a 0 = Some (k, value c).
Proof.
  intros Hs Hp Hc Ho. pose proof (arr_slot_range _ _ _ Hs) as Hr. apply arr_slot_Some in Hs as [_ Hl]. pose proof (take_drop_middle a _ _ Hl) as E.
  rewrite <- E at 1. rewrite find_from_hit; [|apply not_true_is_false|done|done].
  - repeat f_equal. unfold zlen in *. rewrite length_take. lia.
  - intros (o & Ho1 & Ho2)%existsb_exists. apply list_elem_of_In, list_elem_of_lookup in Ho1 as (j & Hj). apply lookup_take_Some in Hj as [Hj Hlt].
    destruct o as [d|]; [|done]. cbn [slot_hit] in Ho2. apply andb_true_iff in Ho2 as [Hd1 Hd2].
    assert (Z.of_nat j = k) as Hjk by (apply (Ho _ d); [apply arr_slot_Some; split; [lia|by rewrite Nat2Z.id]|done|done]). lia.
Qed.

Section Boot.
Context (alloc : Z -> Z) (mem : Z -> list Z) (Hmem : forall i, zlen (mem i) = 32)
  (Halloc : forall i j, 0 <= i < TTY_AMOUNT -> 0 <= j < TTY_AMOUNT -> alloc i = alloc j -> i = j).

(** The first [i] terminals are registered, each once, and there is room for the others. *)
Record ttys_at ops (i : Z) (w : charw console ioctl_data) : Prop := mk_ttys_at {
  ta_size : zlen (c_array w) + (TTY_AMOUNT - i) < 2 ^ 31;
  ta_counted : forall j k, arr_slot (c_array w) j = Some k -> counted k;
  ta_there : forall m, 0 <= m < i -> chars w !! alloc m = Some (mk_dev_char m ops) /\
    exists id, arr_slot (c_array w) id = Some (mk_cell 1 true (tty_dev alloc mem m)) /\
      forall j k, arr_slot (c_array w) j = Some k -> present k = true -> named (tty_text m ++ [0]) (value k) = true -> j = id;
  ta_free : forall m j k, i <= m < TTY_AMOUNT -> arr_slot (c_array w) j = Some k -> present k = true -> named (tty_text m ++ [0]) (value k) = false }.

Lemma ttys_next ops i w : 0 <= i < TTY_AMOUNT -> ttys_at ops i w ->
  let a := fst (rcparray_add (c_array w) (tty_dev alloc mem i)) in ttys_at ops (i + 1) (mk_charw a (<[alloc i := mk_dev_char i ops]> (chars w)) (cdrv w)).
Proof.
  intros Hi [Hz Hc Ht Hf]. pose proof (rcparray_add_spec (c_array w) (tty_dev alloc mem i)) as Hadd. destruct (rcparray_add _ _) as [a id]. cbn [fst].
  destruct Hadd as (Hid & Hnone & _ & [Hcell Hoth] & Hgrow). assert (forall j, 0 <= j < 2 ^ 64 -> j <> id -> arr_slot a j = arr_slot (c_array w) j) as Hoth0 by exact Hoth. clear Hoth. rename Hoth0 into Hoth. change (arr_slot a id = Some (mk_cell 1 true (tty_dev alloc mem i))) in Hcell.
  assert (forall j k, arr_slot a j = Some k -> (j = id /\ k = mk_cell 1 true (tty_dev alloc mem i)) \/ (j <> id /\ arr_slot (c_array w) j = Some k)) as Hcase.
  { intros j k Hj. destruct (decide (j = id)) as [->|Hne]; [left; split; [done|congruence]|right]. split; [done|]. pose proof (arr_slot_range _ _ _ Hj). rewrite <- Hoth by (done || lia). done. }
  split; cbn [c_array chars].
  - lia.
  - intros j k [[-> ->]|[_ Hj]]%Hcase; [done|by eapply Hc].
  - intros m Hm. destruct (decide (m = i)) as [->|Hne].
    + split; [apply lookup_insert_eq|]. exists id. split; [done|]. intros j k [[-> _]|[Hji Hj]]%Hcase Hp Hn; [done|]. by rewrite (Hf i j k) in Hn by (done || lia).
    + destruct (Ht m ltac:(lia)) as (Hch & id' & Hid' & Hu). split; [rewrite lookup_insert_ne; [done|intros E; apply Halloc in E; lia]|].
      assert (id' <> id) by congruence. exists id'. pose proof (arr_slot_range _ _ _ Hid'). split; [rewrite Hoth by (done || lia); done|].
      intros j k [[-> ->]|[_ Hj]]%Hcase Hp Hn; [|by eapply Hu]. cbn [value] in Hn; rewrite tty_named in Hn by lia. apply bool_decide_eq_true in Hn. lia.
  - intros m j k Hm [[-> ->]|[_ Hj]]%Hcase Hp; [|apply (Hf m j); (done || lia)]. cbn [value]. rewrite tty_named by lia. apply bool_decide_eq_false. lia.
Qed.

Lemma register_ttys_ok ops scratch : zlen scratch = FMT_BUFFER -> forall n i w buffer, 0 <= i -> i + Z.of_nat n = TTY_AMOUNT -> zlen buffer = 8 -> ttys_at ops i w ->
  exists w', register_ttys n i w ops alloc mem buffer scratch = Ok w' /\ cdrv w' = cdrv w /\ ttys_at ops TTY_AMOUNT w'.
Proof.
  intros Hs. induction n as [|n IH]; intros i w buffer Hi0 Hi Hb Ha.
  - assert (i = TTY_AMOUNT) as -> by lia. by exists w.
  - assert (0 <= i < TTY_AMOUNT) as Hir by lia. cbn [register_ttys]. rewrite tty_name_printed by done. cbn [mbind res_bind]. rewrite register_tty by done. cbn [c_array].
    pose proof (ttys_next ops i w Hir Ha) as Hn. cbv zeta in Hn. destruct (rcparray_add (c_array w) (tty_dev alloc mem i)) as [a id]. cbn [fst] in Hn. cbn [mbind res_bind].
    match goal with |- context [register_ttys n (i + 1) ?w1 _ _ _ ?b1 _] => destruct (IH (i + 1) w1 b1) as (w' & E & Hd & Hr); [lia|lia| |exact Hn|by exists w'] end.
    rewrite zlen_app, zlen_cons. unfold zlen in *. rewrite length_drop. cbn. lia.
Qed.

(** [/ttyN] leads to the terminal [n], which shows [x], and nothing written to a terminal has stopped
    in the middle of an escape sequence. *)
Record tty_ready (wakes : list (option console)) (stack : list Z) (s : devfs console ioctl_data) (n : Z) (b : tty) (x : Tty.screen) : Prop := mk_tty_ready {
  rd_size : zlen (c_array (dfs_chars s)) < 2 ^ 31 /\ zlen (dfs_handles s) < 2 ^ 31;
  rd_counted : forall j k, arr_slot (c_array (dfs_chars s)) j = Some k -> counted k;
  rd_path : exists id d, dev_lookup (c_array (dfs_chars s)) (drop 1 (tty_path n)) = Some (id, d) /\ char_at (dfs_chars s) id (mk_dev_char n (ttyk_ops wakes stack));
  rd_queue : is_Some (get (ttyk_queues (cdrv (dfs_chars s))) n);
  rd_parser : pstate (ansi (cdrv (dfs_chars s))) = 0;
  rd_screen : holds (Input.screen (kbd (cdrv (dfs_chars s)))) n b x }.

(** [ttyk_init] leaves every terminal ready, whatever it showed. *)
Lemma ttyk_ready i a ch fresh wakes stack buffer scratch : 1024 <= zlen fresh -> zlen buffer = 8 -> zlen scratch = FMT_BUFFER ->
  zlen a < 2 ^ 31 - TTY_AMOUNT -> (forall j k, arr_slot a j = Some k -> counted k) ->
  (forall m j k, 0 <= m < TTY_AMOUNT -> arr_slot a j = Some k -> present k = true -> named (tty_text m ++ [0]) (value k) = false) ->
  exists w, start_ttyk i a ch fresh wakes stack alloc mem buffer scratch = Ok w /\
    forall l n b x, 0 <= n < TTY_AMOUNT -> zlen l < 2 ^ 31 -> holds (Input.screen i) n b x -> tty_ready wakes stack (mk_devfs w l) n b x.
Proof.
  intros Hf Hb Hs Hz Hc Hno. unfold start_ttyk, ttyk_init, input_fetch_keymap. rewrite memcpy_ok by (change (zlen def_keymap) with 1024; lia). cbn [mbind res_bind]. set (c := mk_console _ _ _ _ _).
  destruct (register_ttys_ok (ttyk_ops wakes stack) scratch Hs (Z.to_nat TTY_AMOUNT) 0 (mk_charw a ch c) buffer ltac:(lia) ltac:(done) Hb) as (w & E & Hd & [Hz' Hc' Ht _]).
  { split; [cbn [c_array]; unfold TTY_AMOUNT in *; lia|done|intros; lia|done]. }
  exists w. split; [exact E|]. intros l n b x Hn Hl Hh. destruct (Ht n Hn) as (Hch & id & Hid & Hu). pose proof (arr_slot_range _ _ _ Hid) as Hr. split; cbn [dfs_chars dfs_handles].
  - split; [lia|done].
  - done.
  - exists id, (tty_dev alloc mem n). split.
    + apply (find_only _ _ id (mk_cell 1 true (tty_dev alloc mem n)) Hid eq_refl); [|exact Hu]. cbn [value]. pose proof (tty_named alloc mem n n Hn Hn) as E1. by rewrite bool_decide_eq_true_2 in E1 by done.
    + split; [lia|]. exists (mk_cell 1 true (tty_dev alloc mem n)). by split_and!.
  - rewrite Hd. exists (mk_ttyk_queue None []). apply get_Some. split; [lia|]. apply lookup_replicate. split; [done|]. unfold TTY_AMOUNT in *. lia.
  - by rewrite Hd.
  - by rewrite Hd.
Qed.

Lemma ready_write wakes stack s n b x text : 0 <= n < TTY_AMOUNT -> tty_ready wakes stack s n b x -> Forall (fun c => 0 <= c < 256 /\ c <> 27) text -> zlen text < 2 ^ 31 ->
  exists s1 s2 ifd, devfs_open s (tty_path n) = Ok (s1, ifd) /\ devfs_write s1 ifd text (zlen text) = Ok (s2, zlen text) /\
    holds (Input.screen (kbd (cdrv (dfs_chars s2)))) n b (type_all b text x).
Proof.
  intros Hn [[Hz Hzl] Hcn (id & d & Hl & Hc) [q Hq] Hp Hh] Ht Hlen. pose proof (open_ok s (tty_path n) id d (mk_dev_char n (ttyk_ops wakes stack)) ttyk_open Hl Hz Hcn Hzl Hc eq_refl) as Ho.
  destruct (rcparray_add (dfs_handles s) (mk_dhandle id 1 None)) as [l ifd]. cbn [c_internal_id] in Ho.
  destruct (Ho (set_queues (cdrv (dfs_chars s)) (<[Z.to_nat n := append_file q ifd]> (ttyk_queues (cdrv (dfs_chars s))))) 0) as [Eo Hh1]; [unfold ttyk_open, on_queue; by rewrite Hq|done|].
  set (s1 := mk_devfs _ l) in *. exists s1.
  destruct (write_plain_ok n stack text b Ht (cdrv (dfs_chars s1)) x) as (c' & Ew & Hh2 & _); [exact Hp|exact Hh|].
  eexists _, ifd. split; [exact Eo|]. split.
  - apply (devfs_write_ok s1 ifd _ (mk_dev_char n (ttyk_ops wakes stack)) (fun c id _ b len => ttyk_write c id b len stack) text (zlen text) c' (zlen text) Hh1 Hc eq_refl).
    pose proof (zlen_nonneg text). rewrite s32_small by lia. unfold ttyk_write. destruct (Z.gtb_spec (zlen text) (zlen text)); [lia|].
    replace (Z.to_nat (zlen text)) with (length text) by (unfold zlen; lia). rewrite firstn_all. cbn [c_internal_id]. by rewrite Ew.
  - exact Hh2.
Qed.

(** C23: [ttyk_init] makes every terminal a file: over any screens, keyboard and device table without a
    [ttyN] of its own, it leaves [/ttyN] ready ([tty_ready]) with terminal N showing what it
    showed.  And from any ready state, [/ttyN] can be opened, and text without an escape
    character that is written to the file is typed on terminal N where its cursor is, all of
    it. *)
Theorem tty_file_shows_text i a ch fresh wakes stack buffer scratch : 1024 <= zlen fresh -> zlen buffer = 8 -> zlen scratch = FMT_BUFFER ->
  zlen a < 2 ^ 31 - TTY_AMOUNT -> (forall j k, arr_slot a j = Some k -> counted k) ->
  (forall m j k, 0 <= m < TTY_AMOUNT -> arr_slot a j = Some k -> present k = true -> named (tty_text m ++ [0]) (value k) = false) ->
  (exists w, start_ttyk i a ch fresh wakes stack alloc mem buffer scratch = Ok w /\
    forall l n b x, 0 <= n < TTY_AMOUNT -> zlen l < 2 ^ 31 -> holds (Input.screen i) n b x -> tty_ready wakes stack (mk_devfs w l) n b x) /\
  (forall s n b x text, 0 <= n < TTY_AMOUNT -> tty_ready wakes stack s n b x -> Forall (fun c => 0 <= c < 256 /\ c <> 27) text -> zlen text < 2 ^ 31 ->
    exists s1 s2 ifd, devfs_open s (tty_path n) = Ok (s1, ifd) /\ devfs_write s1 ifd text (zlen text) = Ok (s2, zlen text) /\
      holds (Input.screen (kbd (cdrv (dfs_chars s2)))) n b (type_all b text x)).
Proof. intros Hf Hb Hs Hz Hc Hno. split; [by apply ttyk_ready|]. intros. by eapply ready_write. Qed.
End Boot.

(** The kernel has printed on terminal 0 before there are terminals, and has a device. *)
Module TerminalDemo.
Definition vga : list tty_char := replicate 2000 (mk_tty_char 0 0 0).
Definition printed : ttyw := Eval vm_compute in
  match (w ← tty_clear (tty_init vga) 0; w ← tty_write w 0 (bytes "AEX" ++ [0]); tty_init_post w) with Ok w => w | _ => tty_init vga end.
Definition header : Tty.screen := type_text (boot_tty 0) (bytes "AEX") (clear_screen (boot_tty 0) (boot_screen 0)).
Definition null : dev := mk_dev (bytes "null" ++ 0 :: replicate 27 0) DEV_TYPE_CHAR 99.

Definition keyboard : input := input_init printed.
Lemma printed_header : holds (Input.screen keyboard) 0 (boot_tty 0) header.
Proof.
  split; [reflexivity|eexists; vm_compute; reflexivity| |vm_compute; discriminate].
  split; [done|reflexivity|repeat constructor|vm_compute; split; congruence|vm_compute; split; congruence].
Qed.

Lemma null_only j k : arr_slot [Some (mk_cell 1 true null)] j = Some k -> k = mk_cell 1 true null.
Proof. intros Hj. pose proof (arr_slot_range _ _ _ Hj) as Hr. unfold zlen in Hr. cbn in Hr. assert (j = 0) as -> by lia. by injection Hj as <-. Qed.

Lemma not_null m : 0 <= m < TTY_AMOUNT -> named (tty_text m ++ [0]) null = false.
Proof. unfold TTY_AMOUNT. intros Hm. assert (m = 0 \/ m = 1 \/ m = 2 \/ m = 3 \/ m = 4 \/ m = 5) as Hc by lia. by destruct Hc as [->|[->|[->|[->|[->| ->]]]]]. Qed.
End TerminalDemo.

Lemma tty_file_shows_text_witness :
  exists w s1 s2 ifd, start_ttyk TerminalDemo.keyboard [Some (mk_cell 1 true TerminalDemo.null)] ∅ (replicate 1024 0) [] (replicate 8 0) id (fun _ => replicate 32 7) (replicate 8 0) (replicate 72 0) = Ok w /\
    devfs_open (mk_devfs w []) (bytes "/tty0" ++ [0]) = Ok (s1, ifd) /\ devfs_write s1 ifd (bytes "ok") 2 = Ok (s2, 2) /\
    holds (Input.screen (kbd (cdrv (dfs_chars s2)))) 0 (boot_tty 0) (type_all (boot_tty 0) (bytes "ok") TerminalDemo.header).
Proof.
  destruct (tty_file_shows_text id (fun _ => replicate 32 7) (fun _ => eq_refl) (fun i j _ _ E => E) TerminalDemo.keyboard [Some (mk_cell 1 true TerminalDemo.null)] ∅
    (replicate 1024 0) [] (replicate 8 0) (replicate 8 0) (replicate 72 0)) as [(w & E & Hr) Hw]; [done|done|done|done| | |].
  - intros j k ->%TerminalDemo.null_only. done.
  - intros m j k Hm ->%TerminalDemo.null_only _. by apply TerminalDemo.not_null.
  - pose proof (Hr [] 0 (boot_tty 0) TerminalDemo.header (conj (Z.le_refl 0) eq_refl) eq_refl TerminalDemo.printed_header) as Hd.
    assert (Forall (fun c => 0 <= c < 256 /\ c <> 27) (bytes "ok")) as Ht by (by repeat constructor).
    destruct (Hw (mk_devfs w []) 0 (boot_tty 0) TerminalDemo.header (bytes "ok") (conj (Z.le_refl 0) eq_refl) Hd Ht eq_refl) as (s1 & s2 & ifd & E2 & E3 & E4).
    exists w, s1, s2, ifd. split; [exact E|]. split; [exact E2|]. split; [exact E3|exact E4].
Defined.
