(* ===== verification/Hook.v ===== *)
(** * Hooks: kernel/hook.c

    [hooks] is the list of the chains, each the list of its entries in [next] order.  Calling a
    function is [call] with its address, and changes a state [S].  A pointer to an entry is its
    position in the chain, which is left alone while such a pointer is kept. *)
From S2P Require Import Prelude Strings.

Definition MAX_HOOKS : Z := 64.

Record hook_func := mk_hook_func { hname : list Z; hfunc : Z }.

Section Hook.
Context {S : Type} (call : Z -> Z -> S -> res (S * Z)).
Implicit Types (hooks : list (list hook_func)).

Definition hook_id_bad (id : Z) : bool := (id >=? MAX_HOOKS) || (id <? 0).

(** A name that is too long is cut where the caller has it. *)
Definition hook_add hooks (id : Z) (name : list Z) (func : Z) : res (list (list hook_func) * list Z) :=
  if hook_id_bad id then Ok (hooks, name)
  else
    chain ← res_of_option (get hooks id);
    n ← strlen name;
    name ← (if n >? 47 then store name 47 0 else Ok name);
    nm ← strcpy (replicate 48 0) name;
    Ok (<[Z.to_nat id := chain ++ [mk_hook_func nm func]]> hooks, name).

Fixpoint remove_named (chain : list hook_func) (name : list Z) : res (list hook_func) :=
  match chain with
  | [] => Ok []
  | h :: next =>
      c ← strcmp (hname h) name;
      if c =? 0 then Ok next else next ← remove_named next name; Ok (h :: next)
  end.

Definition hook_remove hooks (id : Z) (name : list Z) : res (list (list hook_func)) :=
  if hook_id_bad id then Ok hooks
  else
    chain ← res_of_option (get hooks id);
    chain ← remove_named chain name;
    Ok (<[Z.to_nat id := chain]> hooks).

Fixpoint invoke_all (chain : list hook_func) (data : Z) (s : S) : res S :=
  match chain with
  | [] => Ok s
  | h :: next => '(s, _) ← call (hfunc h) data s; invoke_all next data s
  end.

Definition hook_invoke hooks (id data : Z) (s : S) : res S :=
  if hook_id_bad id then Ok s else chain ← res_of_option (get hooks id); invoke_all chain data s.

(** What [*pointer] becomes.  A bad id does not return. *)
Definition hook_first hooks (id : Z) : res (option nat) :=
  chain ← res_of_option (get hooks id);
  Ok (match chain with [] => None | _ => Some 0%nat end).

Definition hook_invoke_advance hooks (id data : Z) (pointer : option nat) (s : S) : res (S * option nat * Z) :=
  if hook_id_bad id then Ok (s, pointer, 0)
  else
    chain ← res_of_option (get hooks id);
    match chain with
    | [] => Ok (s, pointer, 0)
    | _ =>
        let k := default 0%nat pointer in
        h ← res_of_option (chain !! k);
        let pointer := if decide (Datatypes.S k < length chain)%nat then Some (Datatypes.S k) else None in
        '(s, r) ← call (hfunc h) data s;
        Ok (s, pointer, r)
    end.

(** ** What hooks do *)

Lemma id_good id : 0 <= id < MAX_HOOKS -> hook_id_bad id = false.
Proof. unfold hook_id_bad. intros H. destruct (Z.geb_spec id MAX_HOOKS), (Z.ltb_spec id 0); lia || done. Qed.

Lemma invoke_app c1 c2 data s : invoke_all (c1 ++ c2) data s = (s ← invoke_all c1 data s; invoke_all c2 data s).
Proof. revert s. induction c1 as [|h c1 IH]; intros s; [done|]. cbn [app invoke_all]. destruct (call (hfunc h) data s) as [[s' r]| | |]; cbn [mbind res_bind]; [apply IH|done..]. Qed.

(** A string that fits the 48 bytes of an entry. *)
Definition short_name (t : list Z) : Prop := nonul t /\ zlen t <= 47.

Definition entry_of (t : list Z) (func : Z) : hook_func := mk_hook_func (t ++ 0 :: drop (Datatypes.S (length t)) (replicate 48 0)) func.

Lemma hook_add_ok hooks id chain t rest func : 0 <= id < MAX_HOOKS -> get hooks id = Some chain -> short_name t ->
  hook_add hooks id (t ++ 0 :: rest) func = Ok (<[Z.to_nat id := chain ++ [entry_of t func]]> hooks, t ++ 0 :: rest).
Proof.
  intros Hid Hc [Ht Hl]. unfold hook_add. rewrite id_good, Hc by done. cbn [res_of_option mbind res_bind]. rewrite strlen_cstr by done. cbn [mbind res_bind].
  destruct (Z.gtb_spec (zlen t) 47); [lia|]. cbn [mbind res_bind]. rewrite strcpy_ok; [done|done|]. rewrite length_replicate. unfold zlen in Hl. lia.
Qed.

Lemma get_insert hooks id chain chain' : get hooks id = Some chain -> get (<[Z.to_nat id := chain']> hooks) id = Some chain'.
Proof. intros [? H]%get_Some. apply get_Some. split; [done|]. apply list_lookup_insert_eq. by eapply lookup_lt_Some. Qed.

(** A function that is added to a hook is called after those that were there, with the same
    data and in the state they left; the other hooks do what they did. *)
Theorem hook_add_invoke hooks id chain t rest func : 0 <= id < MAX_HOOKS -> get hooks id = Some chain -> short_name t ->
  exists hooks', hook_add hooks id (t ++ 0 :: rest) func = Ok (hooks', t ++ 0 :: rest) /\
    (forall data s, hook_invoke hooks' id data s = (s ← hook_invoke hooks id data s; '(s, _) ← call func data s; Ok s)) /\
    forall id' data s, id' <> id -> hook_invoke hooks' id' data s = hook_invoke hooks id' data s.
Proof.
  intros Hid Hc Ht. eexists. split; [by apply hook_add_ok|]. split.
  - intros data s. unfold hook_invoke. rewrite id_good, Hc, (get_insert _ _ _ _ Hc) by done. cbn [res_of_option mbind res_bind]. rewrite invoke_app.
    by destruct (invoke_all chain data s).
  - intros id' data s Hne. unfold hook_invoke. destruct (hook_id_bad id') eqn:Eb; [done|]. assert (0 <= id') by (unfold hook_id_bad in Eb; lia).
    assert (get (<[Z.to_nat id := chain ++ [entry_of t func]]> hooks) id' = get hooks id') as ->; [|done].
    unfold get. destruct (0 <=? id'); [|done]. apply list_lookup_insert_ne. lia.
Qed.

(** Going through a hook, function by function, until the pointer is null. *)
Fixpoint advance_all (n : nat) hooks (id data : Z) (pointer : option nat) (s : S) : res S :=
  match n with
  | O => OutOfFuel
  | Datatypes.S n =>
      '(s, p, _) ← hook_invoke_advance hooks id data pointer s;
      match p with None => Ok s | Some _ => advance_all n hooks id data p s end
  end.

Lemma advance_from hooks id data chain : 0 <= id < MAX_HOOKS -> get hooks id = Some chain -> forall rest done s, chain = done ++ rest -> rest <> [] ->
  advance_all (length rest) hooks id data (Some (length done)) s = invoke_all rest data s.
Proof.
  intros Hid Hc. induction rest as [|h rest IH]; intros dn s Ec Hne; [done|]. cbn [length advance_all]. unfold hook_invoke_advance. rewrite id_good, Hc by done.
  cbn [res_of_option mbind res_bind default]. assert (exists x y, chain = x :: y) as (x & y & Exy) by (rewrite Ec; destruct dn; by eexists _, _). rewrite Exy at 1.
  rewrite Ec, list_lookup_middle by done. cbn [res_of_option mbind res_bind invoke_all]. destruct (call (hfunc h) data s) as [[s' r]| | |]; try done. cbn [mbind res_bind].
  rewrite length_app. cbn [length]. destruct rest as [|h2 rest].
  - rewrite decide_False by (cbn; lia). done.
  - rewrite decide_True by (cbn; lia). specialize (IH (dn ++ [h]) s'). rewrite length_app in IH. cbn [length] in IH. rewrite Nat.add_1_r in IH. apply IH; [|done]. by rewrite <- app_assoc.
Qed.

(** Going through a hook with [hook_first] and [hook_invoke_advance] calls the same functions
    as [hook_invoke], in the same order, and ends with the null pointer; a call with that pointer
    begins again. *)
Theorem hook_advance_is_invoke hooks id chain data s : 0 <= id < MAX_HOOKS -> get hooks id = Some chain -> chain <> [] ->
  exists p, hook_first hooks id = Ok (Some p) /\ advance_all (length chain) hooks id data (Some p) s = hook_invoke hooks id data s /\
    hook_invoke_advance hooks id data None s = hook_invoke_advance hooks id data (Some p) s.
Proof.
  intros Hid Hc Hne. exists 0%nat. unfold hook_first. rewrite Hc. cbn [res_of_option mbind res_bind]. split; [by destruct chain|].
  split; [|unfold hook_invoke_advance; rewrite id_good, Hc by done; by destruct chain].
  pose proof (advance_from hooks id data chain Hid Hc chain [] s eq_refl Hne) as Ea. cbn [length] in Ea. rewrite Ea. unfold hook_invoke. by rewrite id_good, Hc.
Qed.

(** An id out of range makes [hook_first] read outside of the table, after it has written
    NULL. *)
Theorem hook_first_bad_id hooks id : zlen hooks = MAX_HOOKS -> ~ 0 <= id < MAX_HOOKS -> hook_first hooks id = Fault.
Proof.
  intros Hz Hid. unfold hook_first. destruct (get hooks id) as [c|] eqn:E; [|done]. apply get_Some in E as [? E]. apply lookup_lt_Some in E. unfold zlen in Hz. lia.
Qed.

(** The entry of a name. *)
Lemma name_cmp t' f t rest : short_name t' -> short_name t -> exists v, strcmp (hname (entry_of t' f)) (t ++ 0 :: rest) = Ok v /\ (v =? 0) = bool_decide (t' = t).
Proof.
  intros [H1 _] [H2 _]. destruct (strcmp_total t' t (drop (Datatypes.S (length t')) (replicate 48 0)) rest H1 H2) as (v & E & Hv). exists v. split; [exact E|].
  case_bool_decide as Hd; [apply Z.eqb_eq|apply Z.eqb_neq]; by rewrite Hv.
Qed.

(** A chain whose entries were added under these names. *)
Definition named (names : list (list Z)) (chain : list hook_func) : Prop :=
  Forall2 (fun t h => short_name t /\ exists f, h = entry_of t f) names chain.

Lemma remove_new names chain t rest func : short_name t -> named names chain -> t ∉ names -> remove_named (chain ++ [entry_of t func]) (t ++ 0 :: rest) = Ok chain.
Proof.
  intros Ht Hc. induction Hc as [|t' h names chain (Ht' & f & ->) Hc IH]; intros Hn; cbn [app remove_named].
  - destruct (name_cmp t func t rest Ht Ht) as (v & -> & Hv). cbn [mbind res_bind]. by rewrite Hv, bool_decide_eq_true_2.
  - apply not_elem_of_cons in Hn as [Hne Hn]. destruct (name_cmp t' f t rest Ht' Ht) as (v & -> & Hv). cbn [mbind res_bind]. rewrite Hv, bool_decide_eq_false_2 by congruence.
    by rewrite IH.
Qed.

(** A function that is added under a new name is removed by that name: the hooks are what
    they were. *)
Theorem hook_add_remove hooks id names chain t rest func : 0 <= id < MAX_HOOKS -> get hooks id = Some chain -> named names chain -> short_name t -> t ∉ names ->
  exists hooks', hook_add hooks id (t ++ 0 :: rest) func = Ok (hooks', t ++ 0 :: rest) /\ hook_remove hooks' id (t ++ 0 :: rest) = Ok hooks.
Proof.
  intros Hid Hc Hnm Ht Hn. eexists. split; [by apply hook_add_ok|]. unfold hook_remove. rewrite id_good, (get_insert _ _ _ _ Hc) by done. cbn [res_of_option mbind res_bind].
  rewrite (remove_new names) by done. cbn [mbind res_bind]. rewrite list_insert_insert_eq. f_equal. apply list_insert_id. by apply get_Some in Hc as [_ ?].
Qed.
End Hook.

(** ** Two functions on a hook *)
Module HookDemo.
Definition hooks : list (list hook_func) := <[1%nat := [entry_of (bytes "first") 10; entry_of (bytes "second") 20]]> (replicate 64 []).
(** A function notes that it was called. *)
Definition call (f data : Z) (s : list Z) : res (list Z * Z) := Ok (s ++ [f + data], 0).
Lemma fs_name : short_name (bytes "fs").
Proof. split; [repeat constructor; done|done]. Qed.
Lemma names : named [bytes "first"; bytes "second"] [entry_of (bytes "first") 10; entry_of (bytes "second") 20].
Proof. repeat constructor; try (vm_compute; done); by eexists. Qed.
End HookDemo.

Lemma hook_add_invoke_witness : exists h, hook_add HookDemo.hooks 1 (bytes "fs" ++ [0]) 30 = Ok (h, bytes "fs" ++ [0]) /\ hook_invoke HookDemo.call h 1 5 [] = Ok [15; 25; 35].
Proof.
  destruct (hook_add_invoke HookDemo.call HookDemo.hooks 1 _ (bytes "fs") [] 30 ltac:(unfold MAX_HOOKS; lia) eq_refl HookDemo.fs_name) as (h & E & H & _).
  exists h. split; [exact E|]. by rewrite H.
Defined.

Lemma hook_advance_is_invoke_witness : exists p, hook_first HookDemo.hooks 1 = Ok (Some p) /\ advance_all HookDemo.call 2 HookDemo.hooks 1 5 (Some p) [] = Ok [15; 25].
Proof.
  destruct (hook_advance_is_invoke HookDemo.call HookDemo.hooks 1 _ 5 [] ltac:(unfold MAX_HOOKS; lia) eq_refl ltac:(done)) as (p & E & H & _).
  exists p. split; [exact E|]. exact H.
Defined.

Lemma hook_first_bad_id_witness : hook_first HookDemo.hooks 64 = Fault.
Proof. apply (hook_first_bad_id HookDemo.hooks 64); [done|unfold MAX_HOOKS; lia]. Defined.

Lemma hook_add_remove_witness : exists h, hook_add HookDemo.hooks 1 (bytes "fs" ++ [0]) 30 = Ok (h, bytes "fs" ++ [0]) /\ hook_remove h 1 (bytes "fs" ++ [0]) = Ok HookDemo.hooks.
Proof.
  apply (hook_add_remove HookDemo.hooks 1 [bytes "first"; bytes "second"] _ (bytes "fs") [] 30 ltac:(unfold MAX_HOOKS; lia) eq_refl HookDemo.names HookDemo.fs_name).
  rewrite !not_elem_of_cons. repeat split; try done. apply not_elem_of_nil.
Defined.
