(* ===== verification/Naming.v ===== *)
(** * Device names: dev_name_inc of dev/name.c

    Names made from a pattern, with a letter of the pattern's own in the place of the [@].
    [dev_incrementations] is a [klist]; an entry's [pattern] is its 8 bytes on the heap. *)
From S2P Require Import Prelude Strings Lists.

Record dev_incr := mk_dev_incr { pattern : list Z; c : Z }.

(** The search: the node of the entry, [None] at the end of the list. *)
Fixpoint inc_find (fuel : nat) (l : klist dev_incr) (at_ : option nat) (pat : list Z) : res (option nat) :=
  match klist_iter l at_ with
  | (k, Some e) =>
      v ← strcmp (pattern e) pat;
      if v =? 0 then Ok k else match fuel with O => OutOfFuel | S f => inc_find f l k pat end
  | (_, None) => Ok None
  end.

Fixpoint inc_loop (buffer : list Z) (i : Z) (pat : list Z) (letter : Z) : res (list Z) :=
  match pat with
  | [] => Fault
  | ch :: pat =>
      if ch =? 0 then store buffer i 0
      else buffer ← store buffer i (if ch =? 64 then letter else ch); inc_loop buffer (i + 1) pat letter
  end.

(** [entry->c++] in the list. *)
Definition inc_entry (l : klist dev_incr) (k : nat) : res (klist dev_incr * Z) :=
  e ← res_of_option (kfirst l !! k);
  let d := mk_dev_incr (pattern (data e)) (s8 (c (data e) + 1)) in
  Ok (mk_klist (kcount l) (<[k := mk_klist_entry (index e) d]> (kfirst l)), c d).

Definition dev_name_inc (l : klist dev_incr) (pat buffer fresh : list Z) : res (klist dev_incr * list Z) :=
  o ← inc_find (length (kfirst l)) l None pat;
  '(l, letter) ←
    match o with
    | Some k => inc_entry l k
    | None =>
        p ← memcpy fresh 0 pat 0 8;
        let e := mk_dev_incr p 97 in
        Ok (fst (klist_set l (u64 (kcount l + 1)) (Some e)), c e)
    end;
  b ← inc_loop buffer 0 pat (u8 letter);
  Ok (l, b).

(** ** Each pattern counts for itself *)

(** The text of a name. *)
Definition spelled (t : list Z) (letter : Z) : list Z := (fun ch => if ch =? 64 then letter else ch) <$> t.

(** A pattern of at most seven characters in an object of at least eight bytes. *)
Definition pat_ok (t rest : list Z) : Prop := nonul t /\ zlen t <= 7 /\ 7 <= zlen t + zlen rest.

Definition incr_entry (i : Z) (te : list Z * list Z * Z) : klist_entry dev_incr :=
  let '(t, r, n) := te in mk_klist_entry i (mk_dev_incr (t ++ 0 :: r) (s8 (97 + n))).

(** The list holds these patterns with these counts, under the indices 1, 2, ... *)
Definition counts_are (l : klist dev_incr) (es : list (list Z * list Z * Z)) : Prop :=
  kcount l = zlen es /\ kfirst l = zip_with incr_entry (seqZ 1 (zlen es)) es /\ NoDup (es.*1.*1) /\ Forall (fun te => nonul te.1.1) es /\ zlen es < 2 ^ 32.

(** Where a pattern is, and its count. *)
Fixpoint slot_of (es : list (list Z * list Z * Z)) (t : list Z) : option nat :=
  match es with [] => None | (t', _, _) :: es => if decide (t' = t) then Some 0%nat else (S <$> slot_of es t) end.
Fixpoint count_of (es : list (list Z * list Z * Z)) (t : list Z) : option Z :=
  match es with [] => None | (t', _, n) :: es => if decide (t' = t) then Some n else count_of es t end.

Lemma inc_loop_ok t : nonul t -> forall pre buffer rest letter, zlen t < zlen buffer ->
  inc_loop (pre ++ buffer) (zlen pre) (t ++ 0 :: rest) letter = Ok (pre ++ spelled t letter ++ 0 :: drop (S (length t)) buffer).
Proof.
  induction t as [|ch t IH]; intros Ht pre buffer rest letter Hb; cbn [app inc_loop].
  - destruct buffer as [|x b]; [unfold zlen in Hb; cbn in Hb; lia|]. rewrite store_in_range by (rewrite zlen_app, zlen_cons; pose proof (zlen_nonneg pre); pose proof (zlen_nonneg b); lia).
    f_equal. replace (Z.to_nat (zlen pre)) with (length pre + 0)%nat by (unfold zlen; lia). rewrite insert_app_r. done.
  - apply nonul_cons in Ht as [Hc Ht]. destruct (Z.eqb_spec ch 0); [lia|]. rewrite zlen_cons in Hb. pose proof (zlen_nonneg t).
    destruct buffer as [|x b]; [unfold zlen in Hb at 2; cbn in Hb; lia|]. rewrite zlen_cons in Hb. rewrite store_in_range by (rewrite zlen_app, zlen_cons; pose proof (zlen_nonneg pre); lia).
    cbn [mbind res_bind]. replace (Z.to_nat (zlen pre)) with (length pre + 0)%nat by (unfold zlen; lia). rewrite insert_app_r. cbn [insert list_insert].
    specialize (IH Ht (pre ++ [if ch =? 64 then letter else ch]) b rest letter ltac:(lia)). rewrite zlen_app, <- !app_assoc in IH. cbn [app] in IH. exact IH.
Qed.

(** The search among entries from the [k]th on. *)
Lemma inc_find_ok (l : klist dev_incr) t rest : nonul t -> forall es fuel k (at_ : option nat), drop k (kfirst l) = zip_with incr_entry (seqZ (1 + Z.of_nat k) (zlen es)) es ->
  Forall (fun te => nonul te.1.1) es -> k = match at_ with None => 0%nat | Some j => S j end -> (length es <= fuel)%nat ->
  inc_find fuel l at_ (t ++ 0 :: rest) = Ok (match slot_of es t with Some j => Some (k + j)%nat | None => None end).
Proof.
  intros Ht. induction es as [|[[t' r'] n] es IH]; intros fuel k at_ Hd Hes Hk Hf.
  - assert (kfirst l !! k = None) as Hn by (rewrite <- (Nat.add_0_r k), <- lookup_drop, Hd; done).
    destruct fuel; cbn [inc_find]; unfold klist_iter; rewrite <- Hk, Hn; done.
  - apply Forall_cons in Hes as [Ht' Hes]. cbn [fst] in Ht'. rewrite zlen_cons in Hd. rewrite seqZ_cons in Hd by (pose proof (zlen_nonneg es); lia). cbn [zip_with] in Hd.
    assert (kfirst l !! k = Some (incr_entry (1 + Z.of_nat k) (t', r', n))) as He by (rewrite <- (Nat.add_0_r k) at 1; rewrite <- lookup_drop, Hd; done).
    destruct fuel as [|f]; [cbn in Hf; lia|]. cbn [inc_find]. unfold klist_iter. rewrite <- Hk, He. cbn [incr_entry data pattern].
    destruct (strcmp_total t' t r' rest Ht' Ht) as (v & -> & Hv). cbn [mbind res_bind slot_of].
    destruct (decide (t' = t)) as [->|Hne]; [rewrite (proj2 Hv eq_refl); cbn [Z.eqb]; do 2 f_equal; lia|]. destruct (Z.eqb_spec v 0) as [E|_]; [by apply Hv in E|].
    rewrite (IH f (S k) (Some k)); [|..|done|cbn in Hf; lia].
    + destruct (slot_of es t); cbn; do 2 f_equal. lia.
    + rewrite <- (Nat.add_1_r k), <- drop_drop, Hd. change (drop 1 (?x :: ?y)) with y. f_equal. f_equal; lia.
    + done.
Qed.

Lemma slot_spec es t : match slot_of es t with
  | None => count_of es t = None /\ t ∉ (es.*1.*1)
  | Some j => exists a r n b, es = (a ++ (t, r, n) :: b) /\ j = length a /\ (t ∉ a.*1.*1) /\ count_of es t = Some n
  end.
Proof.
  induction es as [|[[t' r'] n'] es IH]; cbn [slot_of count_of]; [split; [done|apply not_elem_of_nil]|]. destruct (decide (t' = t)) as [->|Hne].
  - exists [], r', n', es. split_and!; try done. apply not_elem_of_nil.
  - destruct (slot_of es t) as [j|]; cbn [fmap option_fmap option_map].
    + destruct IH as (a & r & n & b & -> & -> & Hn & Hc). exists ((t', r', n') :: a), r, n, b. split_and!; try done. cbn. apply not_elem_of_cons. split; [congruence|done].
    + destruct IH as [Hc Hn]. split; [done|]. cbn. apply not_elem_of_cons. split; [congruence|done].
Qed.

Lemma count_app a b t : count_of (a ++ b) t = match count_of a t with Some n => Some n | None => count_of b t end.
Proof. induction a as [|[[t' r] n] a IH]; cbn [app count_of]; [done|]. by destruct (decide (t' = t)). Qed.

Lemma count_notin a t : t ∉ (a.*1.*1) -> count_of a t = None.
Proof. intros H. pose proof (slot_spec a t) as Hs. destruct (slot_of a t); [|apply Hs]. destruct Hs as (a' & r & m & b & -> & _). destruct H. rewrite !fmap_app. apply elem_of_app. right. left. Qed.

Lemma s8_succ z : s8 (s8 z + 1) = s8 (z + 1).
Proof. unfold s8, swrap. change (2 ^ (8 - 1)) with 128. change (2 ^ 8) with 256. f_equal. replace ((z + 128) mod 256 - 128 + 1 + 128) with ((z + 128) mod 256 + 1) by lia. rewrite Z.add_mod_idemp_l by done. f_equal. lia. Qed.

Lemma u8_s8 z : u8 (s8 z) = u8 z.
Proof. unfold u8, s8, swrap. change (2 ^ (8 - 1)) with 128. change (2 ^ 8) with 256. rewrite Zminus_mod_idemp_l. f_equal. lia. Qed.

(** One call: the pattern's count goes up, and the name has its letter. *)
Lemma dev_name_inc_ok l es t rest buffer fresh : counts_are l es -> zlen es < 2 ^ 32 - 1 -> pat_ok t rest -> zlen t < zlen buffer -> zlen fresh = 8 ->
  let m := default (-1) (count_of es t) + 1 in
  exists l' es', dev_name_inc l (t ++ 0 :: rest) buffer fresh = Ok (l', spelled t (u8 (97 + m)) ++ 0 :: drop (S (length t)) buffer) /\
    counts_are l' es' /\ zlen es' <= zlen es + 1 /\ forall t', count_of es' t' = if decide (t' = t) then Some m else count_of es t'.
Proof.
  intros (Hk & Hf & Hnd & Hes & Hz) Hroom (Ht & Hl & Hlr) Hb Hfr m. unfold dev_name_inc.
  rewrite (inc_find_ok l t rest Ht es _ 0 None); [|by rewrite drop_0, Hf|done|done|rewrite Hf, length_zip_with, length_seqZ; unfold zlen; lia].
  cbn [mbind res_bind]. pose proof (slot_spec es t) as Hs. destruct (slot_of es t) as [j|].
  - destruct Hs as (a & r & n & b & -> & -> & Hn & Hc). unfold m. rewrite Hc. cbn [default Nat.add]. unfold inc_entry.
    rewrite zlen_app, zlen_cons in *. pose proof (zlen_nonneg a). pose proof (zlen_nonneg b).
    rewrite (seqZ_app 1 (zlen a)), zip_with_app in Hf by (try lia; rewrite length_seqZ; unfold zlen; lia). rewrite (seqZ_cons (1 + zlen a)) in Hf by lia. cbn [zip_with] in Hf.
    assert (length (zip_with incr_entry (seqZ 1 (zlen a)) a) = length a) as Hla by (rewrite length_zip_with, length_seqZ; unfold zlen; lia).
    assert (kfirst l !! length a = Some (incr_entry (1 + zlen a) (t, r, n))) as Hlk by (rewrite Hf, <- Hla; by apply list_lookup_middle).
    set (za := zip_with incr_entry (seqZ 1 (zlen a)) a) in *. set (zb := zip_with incr_entry (seqZ _ _) b) in *.
    assert (forall x, <[length a := x]> (kfirst l) = za ++ x :: zb) as Hins by (intros x; rewrite Hf, <- Hla, <- (Nat.add_0_r (length za)), insert_app_r; done).
    rewrite Hlk. cbn [res_of_option mbind res_bind incr_entry data c pattern index]. rewrite Hins.
    pose proof (inc_loop_ok t Ht [] buffer rest (u8 (s8 (s8 (97 + n) + 1))) Hb) as El. cbn [app zlen length Z.of_nat] in El. change (zlen []) with 0 in El. rewrite El. cbn [mbind res_bind].
    rewrite s8_succ, u8_s8. eexists _, (a ++ (t, r, n + 1) :: b). split; [by rewrite <- Z.add_assoc|]. split; [|split].
    + split; [cbn; rewrite zlen_app, zlen_cons; lia|]. split; [cbn|].
      { rewrite zlen_app, zlen_cons, (seqZ_app 1 (zlen a)), zip_with_app by (try lia; rewrite length_seqZ; unfold zlen; lia). rewrite (seqZ_cons (1 + zlen a)) by lia. cbn [zip_with incr_entry]. done. }
      rewrite !fmap_app in *. split; [done|]. split; [|rewrite zlen_app, zlen_cons; lia]. apply Forall_app in Hes as [Ha Hbb]. apply Forall_cons in Hbb as [? ?]. apply Forall_app. split; [done|]. by apply Forall_cons.
    + rewrite zlen_app, zlen_cons. lia.
    + intros t'. rewrite !count_app. cbn [count_of]. destruct (decide (t' = t)) as [->|Hne].
      * rewrite (count_notin a t) by done. by rewrite decide_True.
      * destruct (count_of a t'); [done|]. by rewrite !decide_False.
  - destruct Hs as [Hc Hn]. unfold m. rewrite Hc. cbn [default]. pose proof (zlen_nonneg es). pose proof (zlen_nonneg t).
    rewrite memcpy_ok by (rewrite ?zlen_app, ?zlen_cons; lia). cbn [mbind res_bind c].
    pose proof (inc_loop_ok t Ht [] buffer rest (u8 97) Hb) as El. cbn [app] in El. change (zlen []) with 0 in El. rewrite El. cbn [mbind res_bind].
    assert (slice (t ++ 0 :: rest) 0 8 = t ++ 0 :: take (7 - length t) rest) as Esl.
    { unfold slice. change (Z.to_nat 8) with 8%nat. change (drop (Z.to_nat 0) (t ++ 0 :: rest)) with (t ++ 0 :: rest). unfold zlen in Hl. rewrite take_app_ge by lia.
      replace (8 - length t)%nat with (S (7 - length t)) by lia. done. }
    assert (splice fresh 0 (slice (t ++ 0 :: rest) 0 8) = t ++ 0 :: take (7 - length t) rest) as ->.
    { rewrite splice_0, Esl, drop_ge, app_nil_r; [done|]. rewrite length_app. cbn [length]. rewrite length_take. unfold zlen in *. lia. }
    unfold klist_set. rewrite u64_small by lia. pose proof (klist_walk_spec (kfirst l) (kcount l + 1) (Some (mk_dev_incr (t ++ 0 :: take (7 - length t) rest) 97))) as Hw.
    destruct (klist_walk (kfirst l) (kcount l + 1) _) as [[es' d]|].
    { destruct Hw as [Hin _]. rewrite Hf in Hin. apply list_elem_of_fmap in Hin as (e & Ee & Hin). apply list_elem_of_lookup in Hin as [i Hi].
      apply lookup_zip_with_Some in Hi as (x & [[t1 r1] n1] & -> & Hx & Hi). apply lookup_seqZ in Hx as [-> Hx]. cbn in Ee. lia. }
    cbn [fst]. eexists _, (es ++ [(t, take (7 - length t) rest, 0)]). split; [done|]. split; [|split].
    + split; [cbn; rewrite zlen_app; change (zlen [_]) with 1; lia|]. split; [cbn|].
      { rewrite Hf, zlen_app. change (zlen [_]) with 1. rewrite (seqZ_app 1 (zlen es)), zip_with_app by (try lia; rewrite length_seqZ; unfold zlen; lia). do 2 f_equal.
        rewrite (seqZ_cons (1 + zlen es)) by lia. cbn [zip_with incr_entry]. do 2 f_equal. lia. }
      rewrite !fmap_app. split; [|split].
      * apply NoDup_app. split; [done|]. split; [|apply NoDup_singleton]. intros x Hx [->|[]%elem_of_nil]%elem_of_cons. done.
      * apply Forall_app. split; [done|]. by repeat constructor.
      * rewrite zlen_app. change (zlen [_]) with 1. lia.
    + rewrite zlen_app. change (zlen [_]) with 1. lia.
    + intros t'. rewrite count_app. cbn [count_of]. destruct (decide (t' = t)) as [->|Hne]; [by rewrite Hc, decide_True|]. destruct (count_of es t'); [done|]. by rewrite decide_False.
Qed.

(** ** Names one after the other *)

(** The names given for these patterns, each in a buffer of its own with these bytes. *)
Fixpoint name_all (l : klist dev_incr) (pats : list (list Z * list Z)) (buffer fresh : list Z) : res (klist dev_incr * list (list Z)) :=
  match pats with
  | [] => Ok (l, [])
  | (t, rest) :: pats =>
      '(l, b) ← dev_name_inc l (t ++ 0 :: rest) buffer fresh;
      '(l, bs) ← name_all l pats buffer fresh;
      Ok (l, b :: bs)
  end.

(** How often a pattern has been used. *)
Definition used (before : list (list Z)) (t : list Z) : Z := zlen (filter (fun t' => t' = t) before).

(** What they are: the letter is ['a'] and as many on as the pattern was used before. *)
Fixpoint names_of (before : list (list Z)) (pats : list (list Z * list Z)) (buffer : list Z) : list (list Z) :=
  match pats with
  | [] => []
  | (t, _) :: pats => (spelled t (u8 (97 + used before t)) ++ 0 :: drop (S (length t)) buffer) :: names_of (before ++ [t]) pats buffer
  end.

Lemma used_snoc before t t' : used (before ++ [t]) t' = used before t' + (if decide (t = t') then 1 else 0).
Proof. unfold used. rewrite filter_app, zlen_app. destruct (decide (t = t')) as [->|Hne]; [by rewrite filter_cons_True|by rewrite filter_cons_False]. Qed.

Lemma name_all_ok buffer fresh : zlen fresh = 8 -> forall pats before l es, counts_are l es -> zlen es <= zlen before -> zlen before + zlen pats < 2 ^ 32 ->
  Forall (fun p => pat_ok p.1 p.2 /\ zlen p.1 < zlen buffer) pats -> (forall t, default (-1) (count_of es t) + 1 = used before t) ->
  exists l', name_all l pats buffer fresh = Ok (l', names_of before pats buffer).
Proof.
  intros Hfr. induction pats as [|[t rest] pats IH]; intros before l es Hl Hz Hlen Hp Hu; [by eexists|]. apply Forall_cons in Hp as [[Hp Hb] Hps]. cbn [fst snd] in *.
  rewrite zlen_cons in Hlen. pose proof (zlen_nonneg pats). cbn [name_all names_of].
  destruct (dev_name_inc_ok l es t rest buffer fresh Hl ltac:(lia) Hp Hb Hfr) as (l1 & es1 & E & Hl1 & Hz1 & Hc). rewrite E. cbn [mbind res_bind].
  destruct (IH (before ++ [t]) l1 es1 Hl1) as (l2 & E2); [rewrite zlen_app; change (zlen [t]) with 1; lia|rewrite zlen_app; change (zlen [t]) with 1; lia|done| |].
  - intros t'. rewrite Hc, used_snoc, <- !Hu. destruct (decide (t' = t)) as [->|Hne]; [rewrite decide_True by done; simpl; lia|rewrite decide_False by congruence; lia].
  - rewrite E2. cbn [mbind res_bind]. exists l2. by rewrite Hu.
Qed.

(** Names are given in the order of the alphabet, each pattern counting for itself whatever
    other patterns are used in between; the count starts at [a] and wraps after 256 names. *)
Theorem dev_names_count pats buffer fresh : zlen fresh = 8 -> zlen pats < 2 ^ 32 -> Forall (fun p => pat_ok p.1 p.2 /\ zlen p.1 < zlen buffer) pats ->
  exists l, name_all klist_init pats buffer fresh = Ok (l, names_of [] pats buffer).
Proof. intros Hf Hz Hp. apply (name_all_ok buffer fresh Hf pats [] klist_init []); try done. split_and!; try done. constructor. Qed.

(** A pattern in an object of less than eight bytes, as the literal of the one caller is, is
    read past its end the first time it is used. *)
Theorem dev_name_inc_short_pattern l pat buffer fresh : zlen pat < 8 -> zlen fresh = 8 -> inc_find (length (kfirst l)) l None pat = Ok None ->
  dev_name_inc l pat buffer fresh = Fault.
Proof.
  intros Hp Hf E. unfold dev_name_inc. rewrite E. cbn [mbind res_bind]. by rewrite memcpy_over by (pose proof (zlen_nonneg pat); lia).
Qed.

Lemma dev_names_count_witness : exists l, name_all klist_init [(bytes "sr@", [1; 2; 3; 4]); (bytes "hd@", [5; 6; 7; 8]); (bytes "sr@", [1; 2; 3; 4])] (replicate 5 9) (replicate 8 0) =
  Ok (l, [bytes "sra" ++ [0; 9]; bytes "hda" ++ [0; 9]; bytes "srb" ++ [0; 9]]).
Proof.
  apply (dev_names_count [(bytes "sr@", [1; 2; 3; 4]); (bytes "hd@", [5; 6; 7; 8]); (bytes "sr@", [1; 2; 3; 4])] (replicate 5 9) (replicate 8 0) eq_refl ltac:(done)).
  repeat constructor; done.
Defined.

Lemma dev_name_inc_short_pattern_witness : dev_name_inc klist_init (bytes "sr@" ++ [0]) (replicate 32 0) (replicate 8 0) = Fault.
Proof. apply (dev_name_inc_short_pattern klist_init); [done|done|by vm_compute]. Defined.
