(* ===== verification/Tree.v ===== *)
(** * The device tree: dev/tree.c

    Buses with their devices and drivers, and the classes.  A [driver_t*] or [class_t*] is an
    address in [drvs] or [klasses]; their functions may change the device they are given and a
    state [D], which is all that drivers keep.  A [device_t*] on a bus is its place there, and
    following it after the place has been released is a [Fault].  Messages are left out, and so is
    [dev_debug], which prints the tree. *)
From S2P Require Import Prelude Strings Format Rcp.

Inductive dresource_type := DRT_Memory | DRT_IO | DRT_IRQ | DRT_Other.

Record dattribute := mk_dattribute { a_name : list Z; a_value : Z }.
(** [start] is also [value]. *)
Record dresource := mk_dresource { r_type : dresource_type; r_start : Z; r_end : Z }.
Record device := mk_device {
  d_name : list Z; d_class : list Z; d_class_data : Z; attributes : rcparray dattribute; resources : rcparray dresource;
  device_private : Z; driver_data : Z }.

Definition device0 : device := mk_device (replicate 32 0) (replicate 32 0) 0 [] [] 0 0.
Definition set_d_name (d : device) x := mk_device x (d_class d) (d_class_data d) (attributes d) (resources d) (device_private d) (driver_data d).
Definition set_d_class (d : device) x := mk_device (d_name d) x (d_class_data d) (attributes d) (resources d) (device_private d) (driver_data d).
Definition set_attributes (d : device) x := mk_device (d_name d) (d_class d) (d_class_data d) x (resources d) (device_private d) (driver_data d).
Definition set_resources (d : device) x := mk_device (d_name d) (d_class d) (d_class_data d) (attributes d) x (device_private d) (driver_data d).
Definition set_private (d : device) x := mk_device (d_name d) (d_class d) (d_class_data d) (attributes d) (resources d) x (driver_data d).

Definition same_name (a b : list Z) : bool := match strcmp a b with Ok v => v =? 0 | _ => false end.

(** ** Attributes and resources of a device *)

Definition dev_set_attribute (d : device) (name : list Z) (val : Z) (scratch : list Z) : res (device * Z) :=
  match rcparray_find (attributes d) (fun a => same_name (a_name a) name) with
  | (l, Some (id, a)) => Ok (set_attributes d (rcparray_unref (rcparray_write l id (mk_dattribute (a_name a) val)) id), 1)
  | (l, None) =>
      '(nm, _) ← snprintf (replicate 16 0) 16 (bytes "%s" ++ [0]) [VStr name] scratch;
      Ok (set_attributes d (fst (rcparray_add l (mk_dattribute nm val))), 0)
  end.

(** The reference that the search took is kept. *)
Definition dev_get_attribute (d : device) (name : list Z) : device * Z :=
  match rcparray_find (attributes d) (fun a => same_name (a_name a) name) with
  | (l, None) => (set_attributes d l, 0)
  | (l, Some (_, a)) => (set_attributes d l, s64 (a_value a))
  end.

Definition dev_get_resource (d : device) (id : Z) : device * option dresource :=
  let '(l, o) := rcparray_get (resources d) id in (set_resources d (rcparray_unref l id), o).

Definition dev_assign_resource (d : device) (r : dresource) : device * Z := (set_resources d (fst (rcparray_add (resources d) r)), 0).

Section Tree.
Context {D : Type}.

Record driver := mk_driver { v_name : list Z; v_check : D -> device -> res (D * device * Z); v_bind : D -> device -> res (D * device * Z) }.
Record class := mk_class { k_name : list Z; k_bind : D -> device -> res (D * device * Z) }.
Record bus := mk_bus { b_name : list Z; b_devices : rcparray device; b_drivers : rcparray Z }.

Record tree := mk_tree { buses : rcparray bus; classes : rcparray Z; drvs : gmap Z driver; klasses : gmap Z class; tdrv : D }.

Definition set_buses (t : tree) x := mk_tree x (classes t) (drvs t) (klasses t) (tdrv t).
Definition set_classes (t : tree) x := mk_tree (buses t) x (drvs t) (klasses t) (tdrv t).
Definition set_tdrv (t : tree) x := mk_tree (buses t) (classes t) (drvs t) (klasses t) x.

Definition find_bus (t : tree) (name : list Z) : rcparray bus * option (Z * bus) := rcparray_find (buses t) (fun b => same_name (b_name b) name).

Definition dev_add_bus (t : tree) (name scratch : list Z) : res (tree * Z) :=
  match find_bus t name with
  | (l, Some (id, _)) => Ok (set_buses t (rcparray_unref l id), 1)
  | (l, None) =>
      '(nm, _) ← snprintf (replicate 32 0) 32 (bytes "%s" ++ [0]) [VStr name] scratch;
      Ok (set_buses t (fst (rcparray_add l (mk_bus nm [] []))), 0)
  end.

(** A device through its pointer. *)
Definition device_at (l : rcparray device) (id : Z) : res device := k ← res_of_option (arr_slot l id); Ok (value k).

(** A driver is offered a device: whether it took it. *)
Definition offer (dr : driver) (d : D) (dev : device) : res (D * device * bool) :=
  '(d, dev, ret) ← v_check dr d dev;
  if ret =? 0 then '(d, dev, _) ← v_bind dr d dev; Ok (d, dev, true) else Ok (d, dev, false).

(** The loop of [_try_bind_device].  After a driver that does not fit, a reference goes back to
    the devices, under the number of the driver. *)
Fixpoint bind_device_loop (ids : list Z) (m : gmap Z driver) (d : D) (b : bus) (id : Z) : res (D * bus) :=
  match ids with
  | [] => Ok (d, b)
  | did :: ids =>
      match rcparray_get (b_drivers b) did with
      | (l, None) => bind_device_loop ids m d (mk_bus (b_name b) (b_devices b) l) id
      | (l, Some p) =>
          dr ← res_of_option (m !! p);
          dev ← device_at (b_devices b) id;
          '(d, dev, took) ← offer dr d dev;
          let devs := rcparray_write (b_devices b) id dev in
          bind_device_loop ids m d (mk_bus (b_name b) (if took : bool then devs else rcparray_unref devs did) l) id
      end
  end.

Definition _try_bind_device (m : gmap Z driver) (d : D) (b : bus) (id : Z) : res (D * bus) := bind_device_loop (rcparray_foreach (b_drivers b)) m d b id.

(** The references on the bus and on a device of the same name are kept. *)
Definition dev_add (t : tree) (name : list Z) (dev : device) : res (tree * Z) :=
  match find_bus t name with
  | (l, None) => Ok (set_buses t l, -1)
  | (l, Some (bid, b)) =>
      match rcparray_find (b_devices b) (fun x => same_name (d_name x) (d_name dev)) with
      | (ds, Some _) => Ok (set_buses t (rcparray_write l bid (mk_bus (b_name b) ds (b_drivers b))), -1)
      | (ds, None) =>
          let '(ds, id) := rcparray_add ds dev in
          let '(ds, _) := rcparray_get ds id in
          '(d, b) ← _try_bind_device (drvs t) (tdrv t) (mk_bus (b_name b) ds (b_drivers b)) id;
          Ok (set_tdrv (set_buses t (rcparray_write l bid (mk_bus (b_name b) (rcparray_unref (b_devices b) id) (b_drivers b)))) d, 0)
      end
  end.

(** The loop of [_try_bind_driver]: the reference on a device that was taken is kept. *)
Fixpoint bind_driver_loop (ids : list Z) (dr : driver) (d : D) (l : rcparray device) : res (D * rcparray device) :=
  match ids with
  | [] => Ok (d, l)
  | did :: ids =>
      match rcparray_get l did with
      | (l, None) => bind_driver_loop ids dr d l
      | (l, Some dev) =>
          '(d, dev, took) ← offer dr d dev;
          let l := rcparray_write l did dev in
          bind_driver_loop ids dr d (if took : bool then l else rcparray_unref l did)
      end
  end.

Definition _try_bind_driver (dr : driver) (d : D) (l : rcparray device) : res (D * rcparray device) := bind_driver_loop (rcparray_foreach l) dr d l.

(** At the end a reference goes back to the devices, under the number of the driver. *)
Definition dev_register_driver (t : tree) (name : list Z) (p : Z) : res (tree * Z) :=
  match find_bus t name with
  | (l, None) => Ok (set_buses t l, -1)
  | (l, Some (bid, b)) =>
      dr ← res_of_option (drvs t !! p);
      match rcparray_find (b_drivers b) (fun q => match drvs t !! q with Some x => same_name (v_name x) (v_name dr) | None => false end) with
      | (vs, Some (id, _)) => Ok (set_buses t (rcparray_unref (rcparray_write l bid (mk_bus (b_name b) (b_devices b) (rcparray_unref vs id))) bid), -1)
      | (vs, None) =>
          let '(vs, id) := rcparray_add vs p in
          let '(vs, _) := rcparray_get vs id in
          '(d, ds) ← _try_bind_driver dr (tdrv t) (b_devices b);
          Ok (set_tdrv (set_buses t (rcparray_unref (rcparray_write l bid (mk_bus (b_name b) (rcparray_unref ds id) vs)) bid)) d, 0)
      end
  end.

(** [id] is -1 when the buses are given a reference back. *)
Definition dev_register_class (t : tree) (p : Z) : res (tree * Z) :=
  k ← res_of_option (klasses t !! p);
  match rcparray_find (classes t) (fun q => match klasses t !! q with Some x => same_name (k_name x) (k_name k) | None => false end) with
  | (l, Some (id, _)) => Ok (set_classes t (rcparray_unref l id), -1)
  | (l, None) => Ok (mk_tree (rcparray_unref (buses t) (-1)) (fst (rcparray_add l p)) (drvs t) (klasses t) (tdrv t), 0)
  end.

(** The result of the search is followed before anything else. *)
Definition dev_set_class (t : tree) (dev : device) (name scratch : list Z) : res (tree * device * Z) :=
  match rcparray_find (classes t) (fun q => match klasses t !! q with Some x => same_name (k_name x) name | None => false end) with
  | (_, None) => Fault
  | (l, Some (id, p)) =>
      if p =? 0 then Ok (set_classes t l, dev, -1)
      else
        k ← res_of_option (klasses t !! p);
        '(d, dev, ret) ← k_bind k (tdrv t) dev;
        if ret <? 0 then Ok (set_tdrv (set_classes t (rcparray_unref l id)) d, dev, ret)
        else
          '(nm, _) ← snprintf (d_class dev) 32 (bytes "%s" ++ [0]) [VStr name] scratch;
          Ok (set_tdrv (set_classes t l) d, set_d_class dev nm, 0)
  end.
End Tree.

Arguments driver D : clear implicits.
Arguments class D : clear implicits.
Arguments tree D : clear implicits.


(** ** Attributes *)

(** A table of named attributes. *)
Definition attr_ok (o : option (cell dattribute)) : Prop :=
  match o with Some c => counted c /\ exists t r, nonul t /\ a_name (value c) = t ++ 0 :: r | None => True end.
Definition attributes_ok (d : device) : Prop := Forall attr_ok (attributes d) /\ zlen (attributes d) < 2 ^ 31.

Lemma same_name_iff a b ra rb : nonul a -> nonul b -> same_name (a ++ 0 :: ra) (b ++ 0 :: rb) = bool_decide (a = b).
Proof.
  intros Ha Hb. unfold same_name. destruct (strcmp_total a b ra rb Ha Hb) as (v & -> & Hv). case_bool_decide as H; [by apply Z.eqb_eq, Hv|]. apply Z.eqb_neq. by rewrite Hv.
Qed.

Definition called (t : list Z) : dattribute -> bool := fun a => same_name (a_name a) (t ++ [0]).

(** Another name is found as before when one slot is written under a name of its own. *)
Lemma find_other (p r : rcparray dattribute) o o' cond i : slot_hit cond o = false -> slot_hit cond o' = false -> find_from cond (p ++ o :: r) i = find_from cond (p ++ o' :: r) i.
Proof.
  intros Ho Ho'. revert i. induction p as [|x p IH]; intros i; cbn [app find_from]; [|by rewrite !IH].
  destruct o as [c|], o' as [c'|]; cbn [slot_hit] in *; by rewrite ?Ho, ?Ho'.
Qed.

(** What [dev_get_attribute] returns. *)
Definition attr_of (d : device) (t : list Z) : Z := match find_from (called t) (attributes d) 0 with Some (_, a) => s64 (a_value a) | None => 0 end.

Lemma get_attribute_ok d t : snd (dev_get_attribute d (t ++ [0])) = attr_of d t.
Proof. unfold dev_get_attribute, attr_of, rcparray_find. fold (called t). destruct (find_from (called t) (attributes d) 0) as [[i a]|]; done. Qed.

Lemma existsb_find {A} cond (a : rcparray A) : find_from cond a 0 = None -> existsb (slot_hit cond) a = false.
Proof.
  generalize 0. induction a as [|o a IH]; intros i E; [done|]. cbn [find_from existsb] in *. destruct o as [c|]; cbn [slot_hit]; [|by eapply IH].
  destruct (present c && cond (value c)); [done|]. by eapply IH.
Qed.

(** An attribute that was set is what is got under its name, whether it was there or not,
    and the attributes of other names are as before. *)
Theorem dev_attribute_set_get d t v scratch : attributes_ok d -> nonul t -> zlen t <= 15 -> zlen scratch = FMT_BUFFER ->
  exists d' r, dev_set_attribute d (t ++ [0]) v scratch = Ok (d', r) /\
    (r = 1 /\ find_from (called t) (attributes d) 0 <> None \/ r = 0 /\ find_from (called t) (attributes d) 0 = None) /\
    snd (dev_get_attribute d' (t ++ [0])) = s64 v /\
    (forall t', nonul t' -> t' <> t -> snd (dev_get_attribute d' (t' ++ [0])) = snd (dev_get_attribute d (t' ++ [0]))).
Proof.
  intros [Hok Hz] Ht Hl Hs. unfold dev_set_attribute. fold (called t). destruct (find_from (called t) (attributes d) 0) as [[i a]|] eqn:E.
  - destruct (find_from_split _ _ _ _ _ E) as (p & c & r & Ea & -> & Hp & <- & Hc & Hn). rewrite (find_split _ _ p c r) by done.
    rewrite Ea in Hok, Hz. rewrite zlen_app in Hz. pose proof (zlen_nonneg (Some c :: r)). apply Forall_app in Hok as [_ [[Hr (t0 & r0 & Ht0 & En)] _]%Forall_cons].
    rewrite write_mid, unref_mid, drop_value by (done || lia).
    set (c' := set_value c _). exists (set_attributes d (p ++ Some c' :: r)), 1. split; [done|]. split; [by left|]. split.
    + rewrite get_attribute_ok. unfold attr_of. cbn [attributes set_attributes]. by rewrite (find_from_hit (called t)) by done.
    + intros t' Ht' Hne. rewrite !get_attribute_ok. unfold attr_of. cbn [attributes set_attributes]. rewrite Ea.
      assert (called t' (value c) = false) as Hno.
      { unfold called in Hc |- *. rewrite En in Hc |- *. rewrite same_name_iff in Hc by done. apply bool_decide_eq_true in Hc as ->. rewrite same_name_iff by done. by apply bool_decide_eq_false. }
      rewrite (find_other p r (Some c) (Some c') (called t') 0); [done|cbn; by rewrite Hno, andb_false_r|]. cbn. change (called t' (mk_dattribute (a_name (value c)) v)) with (called t' (value c)). by rewrite Hno, andb_false_r.
  - pose proof (existsb_find _ _ E) as Hn. rewrite find_none by done.
    destruct (snprintf_str (replicate 16 0) 16 scratch t 0 []) as (n & ->); [done|done|done|left; split; [done|lia]|]. cbn [mbind res_bind].
    set (nm := splice _ _ _). assert (nm = t ++ 0 :: drop (S (length t)) (replicate 16 0)) as Enm.
    { unfold nm. rewrite splice_0, <- app_assoc, length_app. cbn [length app]. do 3 f_equal. lia. }
    destruct (add_mid (attributes d) (mk_dattribute nm v)) as (p & r & Eadd & Ha & _). rewrite Eadd. cbn [fst].
    eexists _, 0. split; [done|]. split; [by right|]. rewrite !get_attribute_ok.
    assert (existsb (slot_hit (called t)) p = false) as Hnp.
    { destruct Ha as [Ha|[Ha ->]]; rewrite Ha in Hn; [|done]. rewrite existsb_app in Hn. by apply orb_false_iff in Hn as [? _]. }
    assert (forall t', nonul t' -> called t' (mk_dattribute nm v) = bool_decide (t = t')) as Hcall by (intros t' Ht'; unfold called; cbn [a_name]; rewrite Enm; by apply same_name_iff).
    split.
    + unfold attr_of. cbn [attributes set_attributes]. rewrite (find_from_hit (called t)); [done..|]. cbn [value]. rewrite Hcall by done. by apply bool_decide_eq_true.
    + intros t' Ht' Hne. rewrite !get_attribute_ok. unfold attr_of. cbn [attributes set_attributes].
      assert (slot_hit (called t') (Some (mk_cell 1 true (mk_dattribute nm v))) = false) as Hno by (cbn [slot_hit value present andb]; rewrite Hcall by done; by apply bool_decide_eq_false).
      destruct Ha as [->|[-> ->]]; [by rewrite (find_other p r None (Some (mk_cell 1 true (mk_dattribute nm v))) (called t') 0) by done|].
      assert (find_from (called t') (p ++ [Some (mk_cell 1 true (mk_dattribute nm v))]) 0 = find_from (called t') p 0) as ->; [|done].
      revert Hno. generalize (Some (mk_cell 1 true (mk_dattribute nm v))) as o. generalize 0 as j. clear. induction p as [|x p IH]; intros j o Hno; cbn [app find_from].
      * destruct o as [c|]; [|done]. cbn [slot_hit] in Hno. by rewrite Hno.
      * by rewrite !IH by done.
Qed.

(** ** Drivers and devices meet *)

(** The ids of [rcparray_foreach]: the first ones, up to the last present element. *)
Lemma foreach_seq {A} (a : rcparray A) : zlen a < 2 ^ 64 -> exists n, rcparray_foreach a = seqZ 0 (Z.of_nat n) /\ (n <= length a)%nat /\ existsb is_present (drop n a) = false.
Proof.
  intros Hz. unfold rcparray_foreach.
  assert (forall f i, (i + f = length a)%nat -> exists n, foreach_ids f a (Z.of_nat i) = seqZ (Z.of_nat i) (Z.of_nat n) /\ (n <= f)%nat /\ existsb is_present (drop (i + n) a) = false) as H.
  { induction f as [|f IH]; intros i Hi; cbn [foreach_ids].
    - exists 0%nat. split_and!; [done|lia|]. rewrite drop_ge by lia. done.
    - unfold foreach_more. unfold zlen in Hz. rewrite u64_small, Nat2Z.id by lia. destruct (existsb is_present (drop i a)) eqn:E.
      + destruct (IH (S i)) as (n & En & Hn & Hd); [lia|]. exists (S n). split; [|split; [lia|by rewrite Nat.add_succ_r]].
        replace (Z.of_nat i + 1) with (Z.of_nat (S i)) by lia. rewrite En. rewrite (seqZ_cons (Z.of_nat i)) by lia. by rewrite !Nat2Z.inj_succ, Z.pred_succ.
      + exists 0%nat. rewrite Nat.add_0_r. split_and!; [done|lia|done]. }
  destruct (H (length a) 0%nat ltac:(lia)) as (n & En & Hn & Hd). exists n. by split_and!.
Qed.

Section Binding.
Context {D : Type}.
Implicit Types (dr : driver D) (d : D) (t : tree D).

(** Each device of a table is offered to the driver, in order. *)
Fixpoint offer_all dr d (l : rcparray device) : res (D * rcparray device) :=
  match l with
  | [] => Ok (d, [])
  | Some k :: l =>
      if present k then
        '(d, dev, took) ← offer dr d (value k);
        '(d, l) ← offer_all dr d l;
        Ok (d, Some (mk_cell (if took : bool then s32 (refs k + 1) else refs k) true dev) :: l)
      else '(d, l) ← offer_all dr d l; Ok (d, Some k :: l)
  | None :: l => '(d, l) ← offer_all dr d l; Ok (d, None :: l)
  end.

Lemma offer_none dr l : forall d, existsb is_present l = false -> offer_all dr d l = Ok (d, l).
Proof.
  induction l as [|o l IH]; intros d H; [done|]. cbn [existsb] in H. apply orb_false_iff in H as [Ho Hl]. cbn [offer_all]. rewrite IH by done.
  destruct o as [k|]; [|done]. cbn [is_present] in Ho. by rewrite Ho.
Qed.

Lemma offer_app dr a b : forall d, offer_all dr d (a ++ b) = ('(d, a) ← offer_all dr d a; '(d, b) ← offer_all dr d b; Ok (d, a ++ b)).
Proof.
  induction a as [|o a IH]; intros d; cbn [app offer_all mbind res_bind]; [by destruct (offer_all dr d b) as [[]| | |]|].
  destruct o as [k|]; [destruct (present k)|].
  - destruct (offer dr d (value k)) as [[[d1 dev] took]| | |]; try done. cbn [mbind res_bind]. rewrite IH.
    destruct (offer_all dr d1 a) as [[d2 a2]| | |]; try done. cbn [mbind res_bind]. by destruct (offer_all dr d2 b) as [[]| | |].
  - rewrite IH. destruct (offer_all dr d a) as [[d2 a2]| | |]; try done. cbn [mbind res_bind]. by destruct (offer_all dr d2 b) as [[]| | |].
  - rewrite IH. destruct (offer_all dr d a) as [[d2 a2]| | |]; try done. cbn [mbind res_bind]. by destruct (offer_all dr d2 b) as [[]| | |].
Qed.

Definition held (l : rcparray device) : Prop := Forall (fun o => match o with Some k => counted k | None => True end) l.

Lemma bind_loop_ok dr n : forall pre l d, (n <= length l)%nat -> held l -> zlen (pre ++ l) < 2 ^ 64 ->
  bind_driver_loop (seqZ (zlen pre) (Z.of_nat n)) dr d (pre ++ l) = ('(d, l1) ← offer_all dr d (take n l); Ok (d, pre ++ l1 ++ drop n l)).
Proof.
  induction n as [|n IH]; intros pre l d Hn Hl Hz; [done|]. destruct l as [|o l]; [cbn in Hn; lia|]. apply Forall_cons in Hl as [Ho Hl].
  rewrite seqZ_cons by lia. replace (Z.pred (Z.of_nat (S n))) with (Z.of_nat n) by lia. cbn [bind_driver_loop]. rewrite zlen_app, zlen_cons in Hz. pose proof (zlen_nonneg l). rewrite get_mid by lia.
  assert (forall o' d1, bind_driver_loop (seqZ (Z.succ (zlen pre)) (Z.of_nat n)) dr d1 (pre ++ o' :: l)
    = ('(d2, l1) ← offer_all dr d1 (take n l); Ok (d2, pre ++ (o' :: l1) ++ drop n l))) as Hnext.
  { intros o' d1. specialize (IH (pre ++ [o']) l d1 ltac:(cbn in Hn; lia) Hl). rewrite !zlen_app in IH. change (zlen [o']) with 1 in IH. rewrite <- app_assoc in IH. cbn [app] in IH.
    change (Z.succ (zlen pre)) with (zlen pre + 1). rewrite IH by lia. destruct (offer_all dr d1 (take n l)) as [[d2 l1]| | |]; try done. cbn [mbind res_bind]. by rewrite <- app_assoc. }
  cbn [take drop offer_all]. destruct o as [k|]; [destruct (present k) eqn:Ep|].
  - destruct (offer dr d (value k)) as [[[d1 dev] took]| | |]; try done. cbn [mbind res_bind]. rewrite write_mid by lia.
    destruct took.
    + rewrite Hnext. destruct (offer_all dr d1 (take n l)) as [[d2 l1]| | |]; try done. cbn [mbind res_bind]. do 4 f_equal. unfold set_value, set_refs. cbn. by rewrite Ep.
    + rewrite unref_mid by lia. rewrite Hnext. destruct (offer_all dr d1 (take n l)) as [[d2 l1]| | |]; try done. cbn [mbind res_bind]. do 4 f_equal.
      rewrite drop_value by done. unfold set_value. by rewrite Ep.
  - rewrite Hnext. by destruct (offer_all dr d (take n l)) as [[d2 l1]| | |].
  - rewrite Hnext. by destruct (offer_all dr d (take n l)) as [[d2 l1]| | |].
Qed.

Lemma try_bind_ok dr d l : held l -> zlen l < 2 ^ 64 -> _try_bind_driver dr d l = offer_all dr d l.
Proof.
  intros Hl Hz. unfold _try_bind_driver. destruct (foreach_seq l Hz) as (n & -> & Hn & Hd).
  change 0 with (zlen (@nil (option (cell device)))). change l with ([] ++ l) at 1. rewrite (bind_loop_ok dr n [] l d Hn Hl Hz). cbn [app].
  assert (offer_all dr d l = offer_all dr d (take n l ++ drop n l)) as -> by (by rewrite take_drop). rewrite offer_app. destruct (offer_all dr d (take n l)) as [[d1 l1]| | |]; try done. cbn [mbind res_bind]. by rewrite offer_none.
Qed.

(** The bus of a name, with the references it has. *)
Definition bus_at t (p r : rcparray bus) (k : cell bus) (name : list Z) : Prop :=
  buses t = p ++ Some k :: r /\ existsb (slot_hit (fun b => same_name (b_name b) name)) p = false /\ present k = true /\ counted k /\
  same_name (b_name (value k)) name = true /\ zlen p < 2 ^ 31.

(** No driver of the name is there yet. *)
Definition new_driver t (b : bus) dr : Prop :=
  existsb (slot_hit (fun q => match drvs t !! q with Some x => same_name (v_name x) (v_name dr) | None => false end)) (b_drivers b) = false.

Lemma register_ok t p r k name q dr d' ds : bus_at t p r k name -> drvs t !! q = Some dr -> new_driver t (value k) dr ->
  held (b_devices (value k)) -> zlen (b_devices (value k)) < 2 ^ 31 -> offer_all dr (tdrv t) (b_devices (value k)) = Ok (d', ds) ->
  exists vs, let id := snd (rcparray_add (b_drivers (value k)) q) in
    dev_register_driver t name q = Ok (set_tdrv (set_buses t (p ++ Some (mk_cell (refs k) true (mk_bus (b_name (value k)) (rcparray_unref ds id) vs)) :: r)) d', 0).
Proof.
  intros (Eb & Hp & Hpr & Hr & Hn & Hz) Hq Hnew Hh Hzd Ho. unfold dev_register_driver, find_bus. rewrite (find_split _ _ p k r) by done. rewrite Hq. cbn [res_of_option mbind res_bind].
  rewrite find_none by done. destruct (rcparray_add (b_drivers (value k)) q) as [vs id]. cbn [snd]. destruct (rcparray_get vs id) as [vs2 o]. rewrite try_bind_ok, Ho by (done || lia). cbn [mbind res_bind].
  exists vs2. rewrite write_mid, unref_mid by lia. do 4 f_equal. rewrite drop_value by done. unfold set_value. by rewrite Hpr.
Qed.

(** Registering a driver offers it every device of its bus, once and in order, those that fit
    are bound, and what the functions do to the devices is kept; at the end the device whose
    number is the driver's loses a reference that was never taken for it. *)
Theorem dev_register_driver_offers t p r k name q dr d' ds : bus_at t p r k name -> drvs t !! q = Some dr -> new_driver t (value k) dr ->
  held (b_devices (value k)) -> zlen (b_devices (value k)) < 2 ^ 31 -> offer_all dr (tdrv t) (b_devices (value k)) = Ok (d', ds) ->
  let id := snd (rcparray_add (b_drivers (value k)) q) in
  exists t' k', dev_register_driver t name q = Ok (t', 0) /\ tdrv t' = d' /\ bus_at t' p r k' name /\ refs k' = refs k /\ b_devices (value k') = rcparray_unref ds id.
Proof.
  intros Hb Hq Hnew Hh Hzd Ho. destruct (register_ok _ _ _ _ _ _ _ _ _ Hb Hq Hnew Hh Hzd Ho) as (vs & E). cbv zeta in E. rewrite E.
  destruct Hb as (Eb & Hp & Hpr & Hr & Hn & Hz). eexists _, (mk_cell (refs k) true (mk_bus (b_name (value k)) _ vs)). split; [done|]. split; [done|]. by split_and!.
Qed.

(** So a device that does not fit disappears from the bus when a driver gets its number: the
    bus has had no drivers, and the driver does not take the first device. *)
Theorem dev_register_driver_drops_device t p r k name q dr d1 dev1 d' c ds ds' : bus_at t p r k name -> drvs t !! q = Some dr -> b_drivers (value k) = [] ->
  held (b_devices (value k)) -> zlen (b_devices (value k)) < 2 ^ 31 -> b_devices (value k) = Some c :: ds -> present c = true -> refs c = 1 ->
  offer dr (tdrv t) (value c) = Ok (d1, dev1, false) -> offer_all dr d1 ds = Ok (d', ds') ->
  exists t' k', dev_register_driver t name q = Ok (t', 0) /\ bus_at t' p r k' name /\ arr_slot (b_devices (value k')) 0 = None.
Proof.
  intros Hb Hq Hv Hh Hzd Hds Hc H1 Ho Hrest.
  assert (offer_all dr (tdrv t) (b_devices (value k)) = Ok (d', Some (mk_cell 1 true dev1) :: ds')) as Hall.
  { rewrite Hds. cbn [offer_all]. rewrite Hc, Ho. cbn [mbind res_bind]. by rewrite Hrest, H1. }
  assert (new_driver t (value k) dr) as Hnew by (unfold new_driver; by rewrite Hv).
  destruct (register_ok _ _ _ _ _ _ _ _ _ Hb Hq Hnew Hh Hzd Hall) as (vs & E). cbv zeta in E. rewrite E, Hv. cbn [rcparray_add first_null snd].
  destruct Hb as (Eb & Hp & Hpr & Hr & Hn & Hz). eexists _, (mk_cell (refs k) true _). split; [done|]. split; [by split_and!|].
  cbn [value b_devices]. change (zlen (@nil (option (cell Z)))) with (zlen (@nil (option (cell device)))). change (Some (mk_cell 1 true dev1) :: ds') with ([] ++ Some (mk_cell 1 true dev1) :: ds').
  rewrite unref_mid by done. done.
Qed.

(** Giving a device a class that is not registered follows a null pointer. *)
Theorem dev_set_class_unknown_faults t dev name scratch :
  existsb (slot_hit (fun q => match klasses t !! q with Some x => same_name (k_name x) name | None => false end)) (classes t) = false ->
  dev_set_class t dev name scratch = Fault.
Proof. intros H. unfold dev_set_class. by rewrite find_none. Qed.
End Binding.

(** ** A bus with a bridge and a disk controller *)
Module TreeDemo.
Definition nm (s : string) : list Z := bytes s ++ replicate (32 - String.length s) 0.
Definition dev_named (s : string) : device := set_d_name device0 (nm s).
(** A driver that takes the device of its name, and remembers the names it bound. *)
Definition drv (s : string) : driver (list (list Z)) :=
  mk_driver (nm s) (fun d x => Ok (d, x, if same_name (d_name x) (nm s) then 0 else -1)) (fun d x => Ok (d ++ [d_name x], x, 0)).
Definition b : bus := mk_bus (nm "pci") [Some (mk_cell 1 true (dev_named "bridge")); Some (mk_cell 1 true (dev_named "ahci"))] [].
Definition t : tree (list (list Z)) := mk_tree [Some (mk_cell 1 true b)] [] {[5 := drv "ahci"]} ∅ [].
Lemma at_bus : bus_at t [] [] (mk_cell 1 true b) (nm "pci").
Proof. by split_and!. Qed.
Lemma all_held : held (b_devices b).
Proof. repeat constructor; done. Qed.
End TreeDemo.

Lemma dev_attribute_set_get_witness :
  exists d' r, dev_set_attribute (TreeDemo.dev_named "ahci") (bytes "class" ++ [0]) 6 (replicate 72 0) = Ok (d', r) /\ snd (dev_get_attribute d' (bytes "class" ++ [0])) = 6.
Proof.
  destruct (dev_attribute_set_get (TreeDemo.dev_named "ahci") (bytes "class") 6 (replicate 72 0)) as (d' & r & E & _ & H & _); [by split; [constructor|]|repeat constructor; done|done|done|].
  exists d', r. split; [exact E|exact H].
Defined.

Lemma dev_register_driver_offers_witness : exists t', dev_register_driver TreeDemo.t (TreeDemo.nm "pci") 5 = Ok (t', 0) /\ tdrv t' = [TreeDemo.nm "ahci"].
Proof.
  destruct (dev_register_driver_offers TreeDemo.t [] [] _ (TreeDemo.nm "pci") 5 (TreeDemo.drv "ahci") [TreeDemo.nm "ahci"]
    [Some (mk_cell 1 true (TreeDemo.dev_named "bridge")); Some (mk_cell 2 true (TreeDemo.dev_named "ahci"))] TreeDemo.at_bus eq_refl eq_refl TreeDemo.all_held ltac:(done) ltac:(by vm_compute)) as (t' & k' & E & Hd & _).
  exists t'. exact (conj E Hd).
Defined.

Lemma dev_register_driver_drops_device_witness : exists t' k', dev_register_driver TreeDemo.t (TreeDemo.nm "pci") 5 = Ok (t', 0) /\ bus_at t' [] [] k' (TreeDemo.nm "pci") /\
  arr_slot (b_devices (value k')) 0 = None.
Proof.
  eapply (dev_register_driver_drops_device TreeDemo.t [] [] _ (TreeDemo.nm "pci") 5 (TreeDemo.drv "ahci") [] (TreeDemo.dev_named "bridge") [TreeDemo.nm "ahci"] (mk_cell 1 true (TreeDemo.dev_named "bridge"))
    [Some (mk_cell 1 true (TreeDemo.dev_named "ahci"))] [Some (mk_cell 2 true (TreeDemo.dev_named "ahci"))] TreeDemo.at_bus eq_refl eq_refl TreeDemo.all_held); try done; by vm_compute.
Defined.

Lemma dev_set_class_unknown_faults_witness : dev_set_class TreeDemo.t (TreeDemo.dev_named "ahci") (TreeDemo.nm "disk") (replicate 72 0) = Fault.
Proof. by apply dev_set_class_unknown_faults. Defined.
