(* ===== verification/Pci.v ===== *)
(** * PCI: sys/pci.c

    Configuration registers are reached through the two ports of the configuration mechanism, an
    interface with its laws: one port selects a register, the other one reads and writes the
    register that is selected, as far as its bits can be written.  The ports belong to the state
    [T] that drivers work on, so a driver that is bound may use them.  [pci_entry_t] objects are
    addresses in [entries]; [alloc] gives the one of a function's entry. *)
From S2P Require Import Prelude Strings Bitmap Format Rcp Lists Pool Frame Paging Tree.

Definition PCI_CONFIG_ADDRESS : Z := 3320.
Definition PCI_CONFIG_DATA : Z := 3324.

Class PciPorts (T : Type) := { inportd : T -> Z -> T * Z; outportd : T -> Z -> Z -> T }.

(** [latch] is the register that is selected, [reg] the content of the registers, [wmask] their
    writable bits; [plain] are the registers whose other bits only hardware changes, which leaves
    out those with bits that are cleared by writing them. *)
Class PciPortsLaws (T : Type) `{PciPorts T} (latch : T -> Z) (reg : T -> Z -> Z) (wmask : Z -> Z) (plain : Z -> Prop) := {
  select_latch : forall t v, latch (outportd t PCI_CONFIG_ADDRESS v) = v;
  select_reg : forall t v a, reg (outportd t PCI_CONFIG_ADDRESS v) a = reg t a;
  read_value : forall t, snd (inportd t PCI_CONFIG_DATA) = reg t (latch t);
  read_latch : forall t, latch (fst (inportd t PCI_CONFIG_DATA)) = latch t;
  read_reg : forall t a, reg (fst (inportd t PCI_CONFIG_DATA)) a = reg t a;
  write_latch : forall t v, latch (outportd t PCI_CONFIG_DATA v) = latch t;
  write_reg : forall t v, plain (latch t) -> reg (outportd t PCI_CONFIG_DATA v) (latch t)
    = Z.lor (Z.land v (wmask (latch t))) (Z.land (reg t (latch t)) (Z.lnot (wmask (latch t))));
  write_other : forall t v a, a <> latch t -> reg (outportd t PCI_CONFIG_DATA v) a = reg t a;
  reg_range : forall t a, 0 <= reg t a < 2 ^ 32;
  wmask_range : forall a, 0 <= wmask a < 2 ^ 32 }.

Record pci_address := mk_pci_address { a_bus : Z; a_device : Z; a_function : Z }.
(** [type] is never set. *)
Record pci_bar := mk_pci_bar { is_io : bool; prefetchable : bool; bar_present : bool; physical_addr : Z; virtual_addr : Z; length_ : Z }.
Record pci_entry := mk_pci_entry {
  address : pci_address; vendor_id : Z; device_id : Z; e_class : Z; e_subclass : Z; revision_id : Z; prog_if : Z; bars : list pci_bar }.

Definition bar0 : pci_bar := mk_pci_bar false false false 0 0 0.

(** ** Configuration space *)
Section Config.
Context {T : Type} `{PciPorts T}.

Definition address_d (a : pci_address) (offset : Z) : Z :=
  u32 (Z.lor (Z.lor (Z.lor (Z.lor (Z.shiftl (a_bus a) 16) (Z.shiftl (a_device a) 11)) (Z.shiftl (a_function a) 8)) (Z.land offset 252)) 2147483648).

Definition select (t : T) (a : pci_address) (offset : Z) : T := outportd t PCI_CONFIG_ADDRESS (address_d a offset).

Definition pci_config_read_byte (t : T) (a : pci_address) (offset : Z) : T * Z :=
  let '(t, d) := inportd (select t a offset) PCI_CONFIG_DATA in (t, u8 (Z.land (Z.shiftr d (Z.land offset 3 * 8)) 255)).

Definition pci_config_read_word (t : T) (a : pci_address) (offset : Z) : T * Z :=
  let '(t, d) := inportd (select t a offset) PCI_CONFIG_DATA in (t, u16 (Z.land (Z.shiftr d (Z.land offset 2 * 8)) 65535)).

Definition pci_config_read_dword (t : T) (a : pci_address) (offset : Z) : T * Z :=
  inportd (select t a offset) PCI_CONFIG_DATA.

(** The register is read before it is selected. *)
Definition pci_config_write_part (mask sel : Z) (t : T) (a : pci_address) (offset v : Z) : T :=
  let '(t, d) := inportd t PCI_CONFIG_DATA in
  let shift := Z.land offset sel * 8 in
  let d := u32 (Z.land d (Z.lnot (Z.shiftl mask shift))) in
  let d := u32 (Z.lor d (Z.shiftl v shift)) in
  outportd (select t a offset) PCI_CONFIG_DATA d.

Definition pci_config_write_byte : T -> pci_address -> Z -> Z -> T := pci_config_write_part 255 3.
Definition pci_config_write_word : T -> pci_address -> Z -> Z -> T := pci_config_write_part 65535 2.

Definition pci_config_write_dword (t : T) (a : pci_address) (offset v : Z) : T := outportd (select t a offset) PCI_CONFIG_DATA v.

(** What is returned for a device that answers is its device id. *)
Definition pci_get_vendor (t : T) (a : pci_address) : T * Z :=
  let '(t, vendor) := pci_config_read_word t a 0 in
  if vendor =? 65535 then (t, vendor) else pci_config_read_word t a 2.

Definition pci_get_header_type (t : T) (a : pci_address) : T * Z := pci_config_read_word t a 14.

(** ** Functions *)

(** The loop over the BARs; a 64-bit one takes two registers, and one round. *)
Fixpoint probe_bars (n : nat) (i : Z) (t : T) (a : pci_address) (offset : Z) (d : device) (bs : list pci_bar) : res (T * device * list pci_bar) :=
  match n with
  | O => Ok (t, d, bs)
  | S n =>
      let '(t, bar) := pci_config_read_dword t a (u8 offset) in
      let '(t, bar2) := pci_config_read_dword t a (u8 (offset + 4)) in
      let type := Z.land (Z.shiftr bar 1) 3 in
      let io := Z.land bar 1 >? 0 in
      if bar =? 0 then probe_bars n (i + 1) t a (offset + 4) d bs
      else
        let mask := if io then 4294967292 else 4294967280 in
        let addr := Z.land bar mask in
        let addr := if type =? 2 then Z.lor addr (u64 (Z.shiftl bar2 32)) else addr in
        let t := pci_config_write_dword t a (u8 offset) 4294967295 in
        let '(t, r) := pci_config_read_dword t a (u8 offset) in
        let len := u32 (u32 (Z.lnot (Z.land r mask)) + 1) in
        let len := if type =? 1 then Z.land len 65535 else len in
        let len := if Z.land len 4294901760 >? 0 then Z.land len 65535 else len in
        bs ← Prelude.store bs i (mk_pci_bar io (Z.land bar 8 >? 0) true addr 0 len);
        let d := fst (dev_assign_resource d (mk_dresource (if io then DRT_IO else DRT_Memory) addr (u64 (addr + len)))) in
        let t := pci_config_write_dword t a (u8 offset) bar in
        probe_bars n (i + 1) t a (if type =? 2 then offset + 8 else offset + 4) d bs
  end.

Record pciw := mk_pciw { ptree : tree T; pci_entries : klist Z; entries : gmap Z pci_entry }.

Definition cstring (s : string) : list Z := bytes s ++ [0].

(** The attributes, from the words at 10 and 8. *)
Definition set_attribute_list (d : device) (l : list (string * Z)) (scratch : list Z) : res device :=
  foldl (fun d nv => d ← d; '(d, _) ← dev_set_attribute d (cstring nv.1) nv.2 scratch; Ok d) (Ok d) l.

Definition pci_check_function (s : pciw) (a : pci_address) (alloc : pci_address -> Z) (scratch : list Z) : res pciw :=
  let t := tdrv (ptree s) in
  let '(t, vendor) := pci_config_read_word t a 0 in
  let '(t, id) := pci_config_read_word t a 2 in
  let '(t, cs) := pci_config_read_word t a 10 in
  let class := Z.land (Z.shiftr cs 8) 255 in
  let subclass := Z.land cs 255 in
  let '(t, rp) := pci_config_read_word t a 8 in
  let revision := Z.land rp 255 in
  let prog := Z.land (Z.shiftr rp 8) 255 in
  d ← set_attribute_list device0 [("class", class); ("subclass", subclass); ("revision", revision); ("prog_if", prog)]%string scratch;
  '(nm, _) ← snprintf (d_name d) 32 (cstring "%02x:%02x:%02x") [VInt (a_bus a); VInt (a_device a); VInt (a_function a)] scratch;
  '(t, d, bs) ← probe_bars 6 0 t a 16 (set_d_name d nm) (replicate 6 bar0);
  let p := alloc a in
  '(tr, _) ← dev_add (set_tdrv (ptree s) t) (cstring "pci") (set_private d p);
  Ok (mk_pciw tr (fst (klist_set (pci_entries s) (kcount (pci_entries s)) (Some p))) (<[p := mk_pci_entry a vendor id class subclass revision prog bs]> (entries s))).

Definition set_ports (s : pciw) (t : T) : pciw := mk_pciw (set_tdrv (ptree s) t) (pci_entries s) (entries s).

(** The functions above 0 of a device that has more than one. *)
Fixpoint check_functions (n : nat) (s : pciw) (a : pci_address) (function : Z) (alloc : pci_address -> Z) (scratch : list Z) : res pciw :=
  match n with
  | O => Ok s
  | S n =>
      let a := mk_pci_address (a_bus a) (a_device a) function in
      let '(t, vendor) := pci_get_vendor (tdrv (ptree s)) a in
      let s := set_ports s t in
      s ← (if vendor =? 65535 then Ok s else pci_check_function s a alloc scratch);
      check_functions n s a (function + 1) alloc scratch
  end.

Definition pci_check_device (s : pciw) (a : pci_address) (alloc : pci_address -> Z) (scratch : list Z) : res pciw :=
  let '(t, vendor) := pci_get_vendor (tdrv (ptree s)) a in
  let s := set_ports s t in
  if vendor =? 65535 then Ok s
  else
    s ← pci_check_function s a alloc scratch;
    let '(t, header) := pci_get_header_type (tdrv (ptree s)) a in
    let s := set_ports s t in
    if Z.land header 128 >? 0 then check_functions 7 s a 1 alloc scratch else Ok s.

Fixpoint check_devices (n : nat) (s : pciw) (bus device : Z) (alloc : pci_address -> Z) (scratch : list Z) : res pciw :=
  match n with
  | O => Ok s
  | S n => s ← pci_check_device s (mk_pci_address bus device 0) alloc scratch; check_devices n s bus (device + 1) alloc scratch
  end.

Definition pci_check_bus (s : pciw) (bus : Z) (alloc : pci_address -> Z) (scratch : list Z) : res pciw := check_devices 32 s bus 0 alloc scratch.

Fixpoint check_buses (n : nat) (s : pciw) (bus : Z) (alloc : pci_address -> Z) (scratch : list Z) : res pciw :=
  match n with
  | O => Ok s
  | S n => s ← pci_check_bus s (u8 bus) alloc scratch; check_buses n s (bus + 1) alloc scratch
  end.

Definition pci_init (tr : tree T) (alloc : pci_address -> Z) (scratch : list Z) : res pciw :=
  '(tr, _) ← dev_add_bus tr (cstring "pci") scratch;
  check_buses 256 (mk_pciw tr klist_init ∅) 0 alloc scratch.

(** ** Finding and using a function *)

(** The first entry in the list that fits; [k] is the node the iterator stands on. *)
Fixpoint find_entry (fuel : nat) (s : pciw) (k : option nat) (fits : pci_entry -> bool) : res (option Z) :=
  match klist_iter (pci_entries s) k with
  | (k, Some p) =>
      e ← res_of_option (entries s !! p);
      if fits e then Ok (Some p) else match fuel with O => OutOfFuel | S f => find_entry f s k fits end
  | (_, None) => Ok None
  end.

Definition pci_find_first_cs (s : pciw) (class subclass : Z) : res (option Z) :=
  find_entry (List.length (kfirst (pci_entries s))) s None (fun e => (e_class e =? class) && (e_subclass e =? subclass)).
Definition pci_find_first_csi (s : pciw) (class subclass prog : Z) : res (option Z) :=
  find_entry (List.length (kfirst (pci_entries s))) s None (fun e => (e_class e =? class) && (e_subclass e =? subclass) && (prog_if e =? prog)).

Definition pci_enable_busmaster (t : T) (a : pci_address) : T :=
  let '(t, v) := pci_config_read_dword t a 4 in
  if negb (Z.land v 4 =? 0) then t
  else let '(t, v) := pci_config_read_dword t a 4 in pci_config_write_dword t a 4 (Z.lor v 4).
End Config.

Arguments pciw T : clear implicits.

(** The mapping of the BARs: a BAR that begins where the last one mapped plus its own length ends
    is taken to follow it. *)
Section Setup.
Context {F : Type} `{FrameSource F}.

Fixpoint setup_bars (fuel : nat) (s : pg F) (bs : list pci_bar) (phys_prev virt_prev : Z) : res (pg F * list pci_bar) :=
  match bs with
  | [] => Ok (s, [])
  | b :: bs =>
      if negb (bar_present b) || negb (virtual_addr b =? 0) then '(s, bs) ← setup_bars fuel s bs phys_prev virt_prev; Ok (s, b :: bs)
      else
        let len := length_ b in
        '(s, virt) ← (if u64 (phys_prev + len) =? physical_addr b then Ok (s, u64 (virt_prev + len))
                      else '(s, v) ← kpmap fuel s (kptopg len) (physical_addr b) 27; Ok (s, u64 (v + Z.land (physical_addr b) 4095)));
        '(s, bs) ← setup_bars fuel s bs (physical_addr b) virt;
        Ok (s, mk_pci_bar (is_io b) (prefetchable b) (bar_present b) (physical_addr b) virt len :: bs)
  end.

Definition pci_setup_entry (fuel : nat) (s : pg F) (e : pci_entry) : res (pg F * pci_entry) :=
  '(s, bs) ← setup_bars fuel s (bars e) 0 0;
  Ok (s, mk_pci_entry (address e) (vendor_id e) (device_id e) (e_class e) (e_subclass e) (revision_id e) (prog_if e) bs).
End Setup.

(** ** Bits of a register *)
Lemma testbit_range r n : 0 <= r < 2 ^ 32 -> 32 <= n -> Z.testbit r n = false.
Proof. intros Hr Hn. by rewrite <- (Z.mod_small r (2 ^ 32)), Z.mod_pow2_bits_high by lia. Qed.

Lemma lor_mask x w : Z.lor (Z.land x w) (Z.land x (Z.lnot w)) = x.
Proof. apply Z.bits_inj'. intros n Hn. rewrite Z.lor_spec, !Z.land_spec, Z.lnot_spec by done. by destruct (Z.testbit x n), (Z.testbit w n). Qed.

(** Writing the old value back restores a register. *)
Lemma restored x v w : let x' := Z.lor (Z.land v w) (Z.land x (Z.lnot w)) in
  Z.lor (Z.land x w) (Z.land x' (Z.lnot w)) = x.
Proof.
  cbv zeta. apply Z.bits_inj'. intros n Hn. rewrite !Z.lor_spec, !Z.land_spec, !Z.lor_spec, !Z.land_spec, !Z.lnot_spec by done.
  by destruct (Z.testbit x n), (Z.testbit w n), (Z.testbit v n).
Qed.

(** What sizing finds: the writable bits, with the others below. *)
Lemma sizing_value x W k : 0 <= x < 2 ^ W -> W <= 32 -> 0 <= k -> let w := Z.ldiff (Z.ones W) (Z.ones k) in
  Z.lor (Z.land 4294967295 w) (Z.land x (Z.lnot w)) = Z.lor w (x mod 2 ^ k).
Proof.
  intros Hx HW Hk w. assert (0 <= W) by (destruct (Z.le_gt_cases 0 W); [done|rewrite Z.pow_neg_r in Hx; lia]).
  change 4294967295 with (Z.ones 32). rewrite <- Z.land_ones by lia. apply Z.bits_inj'. intros n Hn. unfold w.
  rewrite !Z.lor_spec, !Z.land_spec, !Z.lnot_spec, !Z.ldiff_spec, !Z.testbit_ones_nonneg by lia.
  destruct (Z.ltb_spec n 32), (Z.ltb_spec n k), (Z.ltb_spec n W); try lia; simpl; rewrite ?andb_true_r, ?andb_false_r; try done.
  all: rewrite <- (Z.mod_small x (2 ^ W)), Z.mod_pow2_bits_high by lia; done.
Qed.

(** A base address register as hardware has it: memory of 32 or 64 bits of address, or ports, whose
    register may have its upper half missing. [sb_bits] is the power of two of the size, and no lower
    bit of the address can be written. *)
Inductive bar_kind := Memory32 | Memory64 | Ports16 | Ports32.
Record bar_spec := mk_bar_spec { sb_kind : bar_kind; sb_base : Z; sb_bits : Z; sb_prefetch : bool }.

Definition sb_io (b : bar_spec) : bool := match sb_kind b with Ports16 | Ports32 => true | _ => false end.
Definition sb_wide (b : bar_spec) : bool := match sb_kind b with Memory64 => true | _ => false end.
(** The low bits of the register, that tell the kind. *)
Definition sb_flags (b : bar_spec) : Z :=
  match sb_kind b with Memory32 => 0 | Memory64 => 4 | Ports16 | Ports32 => 1 end + (if sb_prefetch b then 8 else 0).
Definition sb_low (b : bar_spec) : Z := sb_base b mod 2 ^ 32 + sb_flags b.
Definition sb_writable (b : bar_spec) : Z := Z.ldiff (Z.ones (match sb_kind b with Ports16 => 16 | _ => 32 end)) (Z.ones (sb_bits b)).

(** The sizes and addresses there are: at least 16 bytes of memory, at least 4 ports; ports must
    begin at a multiple of 8, which leaves out every second place of four ports. *)
Definition bar_good (b : bar_spec) : Prop := sb_base b mod 2 ^ sb_bits b = 0 /\ 0 <= sb_base b /\ sb_low b <> 0 /\
  match sb_kind b with
  | Memory32 => 4 <= sb_bits b < 32 /\ sb_base b < 2 ^ 32
  | Memory64 => 4 <= sb_bits b < 64 /\ sb_base b < 2 ^ 64
  | Ports32 => 2 <= sb_bits b < 32 /\ sb_base b < 2 ^ 32 /\ sb_base b mod 8 = 0 /\ sb_prefetch b = false
  | Ports16 => 2 <= sb_bits b < 16 /\ sb_base b < 2 ^ 16 /\ sb_base b mod 8 = 0 /\ sb_prefetch b = false
  end.

Definition bar_mask (io : bool) : Z := if io then 4294967292 else 4294967280.

(** The size [pci_check_function] derives: [2 ^ k] below 64 KiB, nothing from there on. *)
Definition bar_length (r : Z) (io : bool) : Z :=
  let len := u32 (u32 (Z.lnot (Z.land r (bar_mask io))) + 1) in
  if Z.land len 4294901760 >? 0 then Z.land len 65535 else len.

Definition found_length (b : bar_spec) : Z := if sb_bits b <? 16 then 2 ^ sb_bits b else 0.

(** Whether an address of ports has bit 3, which is taken for the mark of prefetchable memory. *)
Definition found_prefetch (b : bar_spec) : bool := if sb_io b then Z.testbit (sb_base b) 3 else sb_prefetch b.

(** [k] is one of the [n] numbers from [lo] on. *)
Lemma in_range lo n k : lo <= k < lo + Z.of_nat n -> exists j, (j < n)%nat /\ k = lo + Z.of_nat j.
Proof. exists (Z.to_nat (k - lo)). lia. Qed.

Lemma bar_length_eq b : bar_good b -> bar_length (Z.lor (sb_writable b) (sb_flags b)) (sb_io b) = found_length b.
Proof.
  destruct b as [kd base k pf]. intros (_ & _ & _ & H). unfold found_length, sb_writable, sb_flags, sb_io. cbn [sb_kind sb_bits sb_base sb_prefetch] in *.
  destruct kd.
  - destruct (in_range 4 28 k ltac:(lia)) as (j & Hj & ->). clear H. do 28 (destruct j as [|j]; [by destruct pf|]). lia.
  - destruct (in_range 4 60 k ltac:(lia)) as (j & Hj & ->). clear H. do 60 (destruct j as [|j]; [by destruct pf|]). lia.
  - destruct H as (H & _ & _ & ->). destruct (in_range 2 14 k ltac:(lia)) as (j & Hj & ->). clear H. do 14 (destruct j as [|j]; [done|]). lia.
  - destruct H as (H & _ & _ & ->). destruct (in_range 2 30 k ltac:(lia)) as (j & Hj & ->). clear H. do 30 (destruct j as [|j]; [done|]). lia.
Qed.

(** A register [q] times [2 ^ m] and low bits [f]. *)
Lemma register_low_bits q m f x : 0 <= m -> 0 <= f < 2 ^ m -> Z.land (q * 2 ^ m + f) (Z.land (Z.ones m) x) = Z.land f x.
Proof. intros Hm Hf. rewrite Z.land_assoc, Z.land_ones, Z.add_comm, Z.mod_add by lia. by rewrite Z.mod_small. Qed.

Lemma register_high_bits q m f : 0 <= m -> 0 <= f < 2 ^ m -> Z.ldiff (q * 2 ^ m + f) (Z.ones m) = q * 2 ^ m.
Proof. intros Hm Hf. rewrite Z.ldiff_ones_r, Z.shiftl_mul_pow2, Z.shiftr_div_pow2 by lia. rewrite Z.add_comm, Z.div_add by lia. by rewrite Z.div_small by lia. Qed.

Lemma bits_at q m f j : 0 <= m -> 0 <= f < 2 ^ m -> 0 <= j ->
  Z.testbit (q * 2 ^ m + f) j = if j <? m then Z.testbit f j else Z.testbit q (j - m).
Proof.
  intros Hm Hf Hj. destruct (Z.ltb_spec j m).
  - rewrite <- (Z.mod_pow2_bits_low _ m j) by lia. rewrite Z.add_comm, Z.mod_add by lia. by rewrite Z.mod_small.
  - replace j with ((j - m) + m) at 1 by lia. rewrite <- Z.div_pow2_bits by lia. rewrite Z.add_comm, Z.div_add by lia. by rewrite Z.div_small by lia.
Qed.

Lemma mask_ldiff x m : 0 <= x < 2 ^ 32 -> 0 <= m -> Z.land x (Z.ldiff (Z.ones 32) (Z.ones m)) = Z.ldiff x (Z.ones m).
Proof. intros Hx Hm. rewrite !Z.ldiff_land, Z.land_assoc, Z.land_ones by lia. by rewrite (Z.mod_small x). Qed.

Lemma bit_gt x n : 0 <= n -> (Z.land x (2 ^ n) >? 0) = Z.testbit x n.
Proof.
  intros Hn. assert (Z.land x (2 ^ n) = if Z.testbit x n then 2 ^ n else 0) as ->.
  { apply Z.bits_inj'. intros j Hj. rewrite Z.land_spec, Z.pow2_bits_eqb by done. destruct (Z.eqb_spec n j) as [->|Hne].
    - rewrite andb_true_r. destruct (Z.testbit x j) eqn:E; [|by rewrite Z.bits_0]. by rewrite Z.pow2_bits_true.
    - rewrite andb_false_r. destruct (Z.testbit x n); [by rewrite Z.pow2_bits_false|by rewrite Z.bits_0]. }
  pose proof (Z.pow_pos_nonneg 2 n). destruct (Z.testbit x n); [|done]. apply Z.gtb_lt. lia.
Qed.

Lemma low_multiple base k m : 0 <= m <= 32 -> m <= k -> base mod 2 ^ k = 0 -> exists q, base mod 2 ^ 32 = q * 2 ^ m.
Proof.
  intros Hm Hk Hb. assert (base mod 2 ^ m = 0) as Hm0.
  { apply Z.mod_divide; [lia|]. apply Z.mod_divide in Hb; [|lia]. etrans; [|exact Hb].
    exists (2 ^ (k - m)). rewrite <- Z.pow_add_r by lia. f_equal. lia. }
  exists (base mod 2 ^ 32 / 2 ^ m). assert (base mod 2 ^ 32 mod 2 ^ m = 0).
  { rewrite Z.mod_mod_divide; [done|]. exists (2 ^ (32 - m)). rewrite <- Z.pow_add_r by lia. f_equal. lia. }
  pose proof (Z.div_mod (base mod 2 ^ 32) (2 ^ m)). lia.
Qed.

(** The fields of a memory register: everything below bit 4 is the flags. *)
Lemma memory_fields b : bar_good b -> sb_io b = false -> let bar := sb_low b in
  Z.land (Z.shiftr bar 1) 3 = (if sb_wide b then 2 else 0) /\ (Z.land bar 1 >? 0) = false /\ (Z.land bar 8 >? 0) = sb_prefetch b /\
  Z.land bar 4294967280 = sb_base b mod 2 ^ 32.
Proof.
  destruct b as [kd base k pf]. unfold sb_low, sb_flags, sb_wide, sb_io. cbn [sb_kind sb_bits sb_base sb_prefetch]. intros (Hal & Hb & _ & Hk) Hio.
  cbn [sb_base sb_kind sb_bits sb_prefetch] in Hal, Hk, Hb. destruct (low_multiple base k 4) as (q & E); [lia|destruct kd; try done; lia|done|].
  pose proof (Z.mod_pos_bound base (2 ^ 32) ltac:(lia)) as Hr. rewrite E in Hr |- *.
  set (f := match kd with Memory32 => 0 | Memory64 => 4 | _ => 1 end + (if pf then 8 else 0)).
  assert (0 <= f < 2 ^ 4) as Hf by (unfold f; destruct kd, pf; simpl; lia). cbv zeta. split_and!.
  - change 3 with (Z.shiftr 6 1). rewrite <- Z.shiftr_land. change 6 with (Z.land (Z.ones 4) 6). rewrite register_low_bits by lia. unfold f. by destruct kd, pf.
  - change 1 with (Z.land (Z.ones 4) 1). rewrite register_low_bits by lia. unfold f. by destruct kd, pf.
  - change 8 with (Z.land (Z.ones 4) 8). rewrite register_low_bits by lia. unfold f. by destruct kd, pf.
  - change 4294967280 with (Z.ldiff (Z.ones 32) (Z.ones 4)). rewrite mask_ldiff by (try lia; change (2 ^ 32) with (268435456 * 2 ^ 4) in *; nia).
    apply register_high_bits; lia.
Qed.

(** The fields of a register of ports: bits 1 and 2 belong to the address, but are taken for the
    width of a memory address, and bit 3 for the mark of prefetchable memory. *)
Lemma ports_fields base m : 0 <= base < 2 ^ 32 -> 2 <= m <= 3 -> base mod 2 ^ m = 0 -> let bar := base + 1 in
  Z.land (Z.shiftr bar 1) 3 = (if Z.testbit base 2 then 2 else 0) /\ (Z.land bar 1 >? 0) = true /\ (Z.land bar 8 >? 0) = Z.testbit base 3 /\
  Z.land bar 4294967292 = base.
Proof.
  intros Hb Hm H0 bar. assert (exists q, base = q * 2 ^ 2) as (q & E).
  { exists (base / 4). assert (base mod 4 = 0) by (assert (m = 2 \/ m = 3) as [-> | ->] by lia; [done|apply Z.mod_divide in H0; [|done]; apply Z.mod_divide; [done|etrans; [|exact H0]; by exists 2]]).
    pose proof (Z.div_mod base 4). lia. }
  assert (forall j, 0 <= j -> Z.testbit bar j = if j <? 2 then Z.testbit 1 j else Z.testbit base j) as Hbit.
  { intros j Hj. pose proof (bits_at q 2 0 j) as B0. pose proof (bits_at q 2 1 j) as B1. rewrite Z.add_0_r, <- E in B0. rewrite <- E in B1.
    unfold bar. rewrite B0, B1 by lia. by destruct (j <? 2). }
  split_and!.
  - apply Z.bits_inj'. intros j Hj. rewrite Z.land_spec, Z.shiftr_spec, Hbit by lia. change 3 with (Z.ones 2). rewrite Z.testbit_ones_nonneg by lia.
    assert (j = 0 \/ j = 1 \/ 2 <= j) as [-> |[-> |Hj2]] by lia; [by destruct (Z.testbit base 2)|change (1 + 1) with 2; by destruct (Z.testbit base 2)|].
    destruct (Z.ltb_spec j 2); [lia|]. rewrite andb_false_r. destruct (Z.testbit base 2); [|by rewrite Z.bits_0].
    change 2 with (2 ^ 1). by rewrite Z.pow2_bits_false by lia.
  - change 1 with (2 ^ 0). by rewrite bit_gt, Hbit.
  - change 8 with (2 ^ 3). by rewrite bit_gt, Hbit.
  - change 4294967292 with (Z.ldiff (Z.ones 32) (Z.ones 2)). assert (base <= 2 ^ 32 - 4) by (change (2 ^ 32) with (1073741824 * 2 ^ 2) in *; nia).
    rewrite mask_ldiff by (unfold bar; lia). unfold bar. rewrite E. by apply register_high_bits.
Qed.

(** The address of a 64-bit region is put together from its two registers. *)
Lemma joined base : 0 <= base < 2 ^ 64 -> Z.lor (base mod 2 ^ 32) (u64 (Z.shiftl (base / 2 ^ 32) 32)) = base.
Proof.
  intros Hb. rewrite Z.shiftl_mul_pow2 by done. pose proof (Z.div_mod base (2 ^ 32)) as E. pose proof (Z.mod_pos_bound base (2 ^ 32)).
  rewrite u64_small by (unfold u64 in *; change (2 ^ 64) with (2 ^ 32 * 2 ^ 32) in Hb; split; nia).
  rewrite <- Z.shiftl_mul_pow2 by done. apply Z.bits_inj'. intros n Hn.
  rewrite Z.lor_spec, Z.shiftl_spec by done. destruct (Z.lt_ge_cases n 32).
  - rewrite Z.mod_pow2_bits_low by lia. rewrite (Z.testbit_neg_r (base / _)) by lia. by rewrite ?orb_false_r, ?orb_false_l.
  - rewrite Z.mod_pow2_bits_high by lia. rewrite ?orb_false_r, ?orb_false_l. rewrite Z.div_pow2_bits by lia. f_equal. lia.
Qed.

Lemma bar_fields b : bar_good b -> let bar := sb_low b in
  Z.land (Z.shiftr bar 1) 3 = (if sb_wide b then 2 else 0) /\ (Z.land bar 1 >? 0) = sb_io b /\ (Z.land bar 8 >? 0) = found_prefetch b /\
  Z.land bar (bar_mask (sb_io b)) = sb_base b mod 2 ^ 32.
Proof.
  intros Hg. destruct (sb_io b) eqn:Hio; [|destruct (memory_fields b Hg Hio) as (? & ? & ? & ?); unfold found_prefetch; rewrite Hio; by split_and!].
  destruct b as [kd base k pf], Hg as (Hal & Hb & _ & Hk). unfold found_prefetch, sb_low, sb_flags, sb_wide. rewrite Hio.
  unfold sb_io in Hio. cbn [sb_kind sb_base sb_bits sb_prefetch] in *.
  assert (0 <= base < 2 ^ 32 /\ base mod 8 = 0 /\ pf = false) as (Hr & H8 & ->) by (destruct kd; try done; destruct Hk as (? & ? & ? & ->); lia).
  destruct (ports_fields base 3 Hr ltac:(lia) H8) as (E1 & E2 & E3 & E4). rewrite (Z.mod_small base) by done.
  assert (Z.testbit base 2 = false) as Hbit by (rewrite <- (Z.mod_pow2_bits_low base 3 2) by lia; change (2 ^ 3) with 8; by rewrite H8).
  rewrite Hbit in E1. destruct kd; try done; by split_and!.
Qed.

(** What sizing reads back. *)
Lemma bar_sized b : bar_good b -> 0 <= sb_low b < 2 ^ 32 ->
  Z.lor (Z.land 4294967295 (sb_writable b)) (Z.land (sb_low b) (Z.lnot (sb_writable b))) = Z.lor (sb_writable b) (sb_flags b).
Proof.
  destruct b as [kd base k pf]. intros (Hal & Hb & _ & Hk) Hlow. unfold sb_writable. cbn [sb_kind sb_base sb_bits sb_prefetch] in *.
  rewrite sizing_value; [|destruct kd; try exact Hlow|destruct kd; lia|destruct kd; lia].
  - f_equal. unfold sb_low in *. cbn [sb_base] in *. set (f := sb_flags _) in *.
    assert (0 <= f < 2 ^ Z.min k 4) as Hf.
    { unfold f, sb_flags. cbn [sb_kind sb_prefetch]. assert (kd = Memory32 \/ kd = Memory64 \/ pf = false) as Hc by (destruct kd; intuition).
      destruct kd; [rewrite Z.min_r by lia; destruct pf; simpl; lia..| |]; destruct Hk as (? & ? & ? & ->); pose proof (Z.pow_le_mono_r 2 1 (Z.min k 4)); simpl; lia. }
    pose proof (Z.pow_le_mono_r 2 (Z.min k 4) k). destruct (low_multiple base k (Z.min k 32)) as (q & E); [destruct kd; lia|lia|done|].
    destruct (Z.le_gt_cases k 32).
    + rewrite E, Z.min_l, Z.add_comm, Z.mod_add by lia. apply Z.mod_small. lia.
    + rewrite Z.min_r in E by lia. pose proof (Z.mod_pos_bound base (2 ^ 32) ltac:(lia)). assert (q = 0) as -> by nia.
      rewrite E, Z.add_0_l. apply Z.mod_small. lia.
  - unfold sb_low, sb_flags in *. cbn [sb_kind sb_base sb_prefetch] in *. destruct Hk as (? & ? & ? & ->). rewrite Z.mod_small in * by lia.
    pose proof (Z.div_mod base 8). lia.
Qed.

(** ** With ports that keep the promise *)
Section Laws.
Context {T : Type} `{PciPorts T}.
Context (latch : T -> Z) (reg : T -> Z -> Z) (wmask : Z -> Z) (plain : Z -> Prop) `{!PciPortsLaws T latch reg wmask plain}.

Definition same_regs (t t' : T) : Prop := forall x, reg t' x = reg t x.

#[local] Instance same_regs_preorder : PreOrder same_regs.
Proof. split; [done|]. intros t1 t2 t3 H1 H2 x. by rewrite H2, H1. Qed.

Lemma read_dword_ok t a offset : exists t', pci_config_read_dword t a offset = (t', reg t (address_d a offset)) /\ same_regs t t'.
Proof.
  unfold pci_config_read_dword. destruct (inportd (select t a offset) PCI_CONFIG_DATA) as [t' v] eqn:E.
  pose proof (read_value (select t a offset)) as Hv. pose proof (fun x => read_reg (select t a offset) x) as Hr. rewrite E in Hv, Hr. simpl in *.
  exists t'. unfold select in *. rewrite select_latch in Hv. split; [|intros x; by rewrite Hr, select_reg].
  by rewrite Hv, select_reg.
Qed.

Lemma write_dword_at t a offset v : plain (address_d a offset) -> let r := address_d a offset in
  reg (pci_config_write_dword t a offset v) r = Z.lor (Z.land v (wmask r)) (Z.land (reg t r) (Z.lnot (wmask r))).
Proof.
  intros Hp r. unfold pci_config_write_dword, select. fold r.
  pose proof (write_reg (outportd t PCI_CONFIG_ADDRESS r) v) as Hw. rewrite select_latch in Hw. by rewrite Hw, select_reg.
Qed.

Lemma write_dword_other t a offset v x : x <> address_d a offset -> reg (pci_config_write_dword t a offset v) x = reg t x.
Proof. intros Hx. unfold pci_config_write_dword, select. rewrite write_other; [apply select_reg|]. by rewrite select_latch. Qed.

(** The register of a region at [offset], and the other one of a 64-bit region. *)
Definition implements (t : T) (a : pci_address) (offset : Z) (o : option bar_spec) : Prop :=
  let r := address_d a (u8 offset) in
  match o with
  | None => reg t r = 0
  | Some b => bar_good b /\ plain r /\ wmask r = sb_writable b /\ reg t r = sb_low b /\
      (sb_wide b = true -> reg t (address_d a (u8 (offset + 4))) = sb_base b / 2 ^ 32)
  end.

Definition bar_width (o : option bar_spec) : Z := match o with Some b => if sb_wide b then 8 else 4 | None => 4 end.

(** Regions, and registers that hold 0, one behind the other. *)
Fixpoint laid_out (t : T) (a : pci_address) (offset : Z) (specs : list (option bar_spec)) : Prop :=
  match specs with
  | [] => True
  | o :: specs => implements t a offset o /\ laid_out t a (offset + bar_width o) specs
  end.

Definition found (o : option bar_spec) : pci_bar :=
  match o with
  | None => bar0
  | Some b => mk_pci_bar (sb_io b) (found_prefetch b) true (sb_base b) 0 (found_length b)
  end.
Definition found_resource (d : device) (o : option bar_spec) : device :=
  match o with
  | None => d
  | Some b => fst (dev_assign_resource d (mk_dresource (if sb_io b then DRT_IO else DRT_Memory) (sb_base b) (u64 (sb_base b + found_length b))))
  end.

Lemma implements_same t t' a offset o : same_regs t t' -> implements t a offset o -> implements t' a offset o.
Proof. intros Hs Hi. destruct o as [b|]; unfold implements in *; rewrite !Hs; exact Hi. Qed.

Lemma laid_out_same t t' a specs : same_regs t t' -> forall offset, laid_out t a offset specs -> laid_out t' a offset specs.
Proof. intros Hs. induction specs as [|o specs IH]; [done|]. intros offset [Hi Hl]. split; [by eapply implements_same|by apply IH]. Qed.

(** Writing all ones to a register and its old value again leaves it as it was. *)
Lemma probe_restores t t' a offset v : plain (address_d a offset) -> same_regs (pci_config_write_dword t a offset v) t' ->
  same_regs t (pci_config_write_dword t' a offset (reg t (address_d a offset))).
Proof.
  intros Hp Hs y. destruct (decide (y = address_d a offset)) as [->|Hy].
  - rewrite write_dword_at, Hs, write_dword_at by done. apply restored.
  - by rewrite write_dword_other, Hs, write_dword_other.
Qed.

(** The address the loop puts together. *)
Lemma bar_address b v : bar_good b -> (sb_wide b = true -> v = sb_base b / 2 ^ 32) ->
  (if sb_wide b then Z.lor (sb_base b mod 2 ^ 32) (u64 (Z.shiftl v 32)) else sb_base b mod 2 ^ 32) = sb_base b.
Proof.
  intros (_ & Hb & _ & Hk) Hv. unfold sb_wide in *. destruct (sb_kind b); [apply Z.mod_small; lia| |apply Z.mod_small; lia..].
  rewrite Hv by done. apply joined. lia.
Qed.

(** One round. *)
Lemma probe_round n i t a offset d pre post x o : implements t a offset o -> i = zlen pre -> (o = None -> x = bar0) ->
  exists t', same_regs t t' /\ probe_bars (S n) i t a offset d (pre ++ x :: post)
    = probe_bars n (i + 1) t' a (offset + bar_width o) (found_resource d o) (pre ++ found o :: post).
Proof.
  intros Ho Hi Hx. cbn [probe_bars]. destruct (read_dword_ok t a (u8 offset)) as (t1 & -> & H1).
  destruct (read_dword_ok t1 a (u8 (offset + 4))) as (t2 & -> & H2). rewrite H1. set (r := address_d a (u8 offset)) in *.
  assert (same_regs t t2) as H12 by (by etrans). clear H1 H2.
  destruct o as [b|]; unfold implements in Ho; fold r in Ho; [|rewrite Ho, (Hx eq_refl); exists t2; split; [exact H12|reflexivity]].
  destruct Ho as (Hg & Hp & Hw & Hr & Hhigh). rewrite Hr. destruct (Z.eqb_spec (sb_low b) 0) as [E|_]; [by destruct Hg as (_ & _ & ? & _)|].
  pose proof (reg_range t r) as Hrange. rewrite Hr in Hrange.
  destruct (bar_fields b Hg) as (-> & -> & -> & Haddr). change (if sb_io b then 4294967292 else 4294967280) with (bar_mask (sb_io b)). rewrite Haddr.
  set (t3 := pci_config_write_dword t2 a (u8 offset) 4294967295).
  assert (reg t3 r = Z.lor (sb_writable b) (sb_flags b)) as H3 by (unfold t3, r; rewrite write_dword_at by done; fold r; by rewrite Hw, H12, Hr, bar_sized).
  destruct (read_dword_ok t3 a (u8 offset)) as (t4 & -> & H4). fold r. rewrite H3. replace ((if sb_wide b then 2 else 0) =? 1) with false by (by destruct (sb_wide b)).
  fold (bar_length (Z.lor (sb_writable b) (sb_flags b)) (sb_io b)). rewrite bar_length_eq by done.
  pose proof (bar_address b _ Hg Hhigh) as Ha. exists (pci_config_write_dword t4 a (u8 offset) (sb_low b)). split.
  - etrans; [exact H12|]. rewrite <- Hr, <- (H12 r). by eapply probe_restores.
  - unfold found, found_resource, bar_width. destruct (sb_wide b); cbn [Z.eqb Pos.eqb]; rewrite Ha, (store_app_at pre post x) by done; reflexivity.
Qed.

Lemma probe_rounds a specs : forall i t offset d pre, laid_out t a offset specs -> i = zlen pre ->
  exists t', same_regs t t' /\ probe_bars (length specs) i t a offset d (pre ++ replicate (length specs) bar0)
    = Ok (t', foldl found_resource d specs, pre ++ map found specs).
Proof.
  induction specs as [|o specs IH]; intros i t offset d pre Hs Hi.
  { exists t. split; [done|reflexivity]. }
  destruct Hs as [Ho Hs]. cbn [length replicate foldl map].
  destruct (probe_round (length specs) i t a offset d pre (replicate (length specs) bar0) bar0 o Ho Hi ltac:(done)) as (t1 & H1 & ->).
  destruct (IH (i + 1) t1 (offset + bar_width o) (found_resource d o) (pre ++ [found o])) as (t' & H' & E).
  - by eapply laid_out_same.
  - rewrite zlen_app, Hi. done.
  - exists t'. split; [by etrans|]. by rewrite <- !app_assoc in E.
Qed.

(** C35: sizing the base address registers of a function is right and leaves no trace, when the six
    rounds of the loop meet regions of these kinds or registers that hold 0: memory of 32 or 64 bits
    of address and at least 16 bytes, and at least four ports that begin at a multiple of 8.  Then
    each region is entered, in order, with its address, its kind and its number of bytes (none at
    all from 64 KiB on), the device gets a resource for each, and all registers have their contents
    back.  The mark of prefetchable memory of ports is bit 3 of their address.  A 64-bit region takes
    two registers and one round, so [specs] goes on behind the six registers for each of them, and
    what is there must be 0 or look like a region.  Where these conditions fail,
    [probe_bars_four_ports] and [probe_bars_goes_on] show what the code does instead. *)
Theorem probe_bars_finds t a d specs : length specs = 6%nat -> laid_out t a 16 specs ->
  exists t', probe_bars 6 0 t a 16 d (replicate 6 bar0) = Ok (t', foldl found_resource d specs, map found specs) /\ same_regs t t'.
Proof.
  intros Hl Hs. destruct (probe_rounds a specs 0 t 16 d [] Hs eq_refl) as (t' & H' & E). exists t'. split; [|done]. rewrite Hl in E. exact E.
Qed.

(** Four ports at an address with bit 2, which is every second place there is for them: the bit is
    taken for the mark of a 64-bit region, so the next register becomes the upper half of the address
    and is passed over, whatever region it belongs to. *)
Theorem probe_bars_four_ports n i t a offset d pre post x base : let r := address_d a (u8 offset) in
  plain r -> wmask r = Z.ldiff (Z.ones 32) (Z.ones 2) -> reg t r = base + 1 -> 0 <= base < 2 ^ 32 -> base mod 8 = 4 -> i = zlen pre ->
  exists t', same_regs t t' /\
    let addr := Z.lor base (u64 (Z.shiftl (reg t (address_d a (u8 (offset + 4)))) 32)) in
    probe_bars (S n) i t a offset d (pre ++ x :: post)
      = probe_bars n (i + 1) t' a (offset + 8) (fst (dev_assign_resource d (mk_dresource DRT_IO addr (u64 (addr + 4)))))
          (pre ++ mk_pci_bar true (Z.testbit base 3) true addr 0 4 :: post).
Proof.
  intros r Hp Hw Hr Hb H8 Hi. cbn [probe_bars]. destruct (read_dword_ok t a (u8 offset)) as (t1 & -> & H1).
  destruct (read_dword_ok t1 a (u8 (offset + 4))) as (t2 & -> & H2). rewrite H1. fold r. assert (same_regs t t2) as H12 by (by etrans).
  assert (base mod 2 ^ 2 = 0) as H4 by (change (2 ^ 2) with 4; pose proof (Z.div_mod base 8); pose proof (Z.div_mod base 4); pose proof (Z.mod_pos_bound base 4); lia).
  assert (Z.testbit base 2 = true) as Hbit by (rewrite <- (Z.mod_pow2_bits_low base 3 2) by lia; change (2 ^ 3) with 8; by rewrite H8).
  rewrite Hr. destruct (Z.eqb_spec (base + 1) 0); [lia|]. destruct (ports_fields base 2 Hb ltac:(lia) H4) as (-> & -> & -> & ->). rewrite Hbit. cbn [Z.eqb Pos.eqb].
  set (t3 := pci_config_write_dword t2 a (u8 offset) 4294967295).
  assert (reg t3 r = Z.lor (Z.ldiff (Z.ones 32) (Z.ones 2)) 1) as H3.
  { pose proof (reg_range t r) as Hrange. unfold t3, r. rewrite write_dword_at by done. fold r. rewrite Hw, H12, Hr, sizing_value by lia. f_equal.
    rewrite <- Zplus_mod_idemp_l, H4. done. }
  destruct (read_dword_ok t3 a (u8 offset)) as (t4 & -> & Hs4). fold r. rewrite H3, (store_app_at pre post x) by done.
  exists (pci_config_write_dword t4 a (u8 offset) (base + 1)). split; [|reflexivity].
  etrans; [exact H12|]. rewrite <- Hr, <- (H12 r). by eapply probe_restores.
Qed.

Lemma config_byte_ok t a offset : snd (pci_config_read_byte t a offset)
  = u8 (Z.land (Z.shiftr (reg t (address_d a offset)) (Z.land offset 3 * 8)) 255).
Proof.
  destruct (read_dword_ok t a offset) as (t' & E & _). unfold pci_config_read_dword in E. unfold pci_config_read_byte. by rewrite E.
Qed.

(** Byte [i] of a register. *)
Definition reg_byte (r i : Z) : Z := Z.land (Z.shiftr r (8 * i)) 255.

Lemma testbit_byte v n : 0 <= v < 256 -> 8 <= n -> Z.testbit v n = false.
Proof. intros Hv Hn. by rewrite <- (Z.mod_small v (2 ^ 8)), Z.mod_pow2_bits_high by lia. Qed.

Lemma merged_byte d i v j : 0 <= i < 4 -> 0 <= j < 4 -> 0 <= v < 256 ->
  reg_byte (u32 (Z.lor (u32 (Z.land d (Z.lnot (Z.shiftl 255 (i * 8))))) (Z.shiftl v (i * 8)))) j = if j =? i then v else reg_byte d j.
Proof.
  intros Hi Hj Hv. unfold reg_byte, u32. change 255 with (Z.ones 8). apply Z.bits_inj'. intros n Hn.
  rewrite Z.land_spec, Z.testbit_ones_nonneg, Z.shiftr_spec by lia. destruct (Z.ltb_spec n 8).
  - rewrite Z.mod_pow2_bits_low, Z.lor_spec, Z.mod_pow2_bits_low by lia.
    rewrite Z.land_spec, Z.lnot_spec, !Z.shiftl_spec by lia. destruct (Z.eqb_spec j i) as [->|Hne].
    + replace (n + 8 * i - i * 8) with n by lia. rewrite Z.testbit_ones_nonneg by lia. destruct (Z.ltb_spec n 8); [|lia]. by rewrite andb_false_r, andb_true_r.
    + rewrite Z.land_spec, (Z.testbit_ones_nonneg 8 n), Z.shiftr_spec by lia. destruct (Z.ltb_spec n 8); [|lia].
      assert (n + 8 * j - i * 8 < 0 \/ 8 <= n + 8 * j - i * 8) as [Hlt|Hge] by lia.
      * rewrite !(Z.testbit_neg_r _ _ Hlt). by rewrite orb_false_r, andb_true_r.
      * rewrite (testbit_byte v), Z.testbit_ones_nonneg by lia. destruct (Z.ltb_spec (n + 8 * j - i * 8) 8); [lia|].
        by rewrite orb_false_r, andb_true_r.
  - rewrite andb_false_r. symmetry. destruct (j =? i); [by apply testbit_byte|].
    rewrite Z.land_spec, Z.testbit_ones_nonneg by lia. destruct (Z.ltb_spec n 8); [lia|]. by rewrite andb_false_r.
Qed.

(** Writing a byte of a register keeps the other three bytes only when that register was the
    one selected before: the bytes around the new one are read before the register is selected,
    so they are those of whatever register was used last. *)
Theorem write_byte_takes_last t a offset v j : plain (address_d a offset) -> wmask (address_d a offset) = Z.ones 32 ->
  0 <= v < 256 -> 0 <= j < 4 ->
  reg_byte (reg (pci_config_write_byte t a offset v) (address_d a offset)) j
    = if j =? Z.land offset 3 then v else reg_byte (reg t (latch t)) j.
Proof.
  intros Hp Hw Hv Hj. unfold pci_config_write_byte, pci_config_write_part.
  destruct (inportd t PCI_CONFIG_DATA) as [t1 d] eqn:E. pose proof (read_value t) as Hd. rewrite E in Hd. simpl in Hd. subst d.
  set (d' := u32 (Z.lor _ _)). fold (pci_config_write_dword t1 a offset d').
  rewrite write_dword_at by done. rewrite Hw.
  assert (Z.lor (Z.land d' (Z.ones 32)) (Z.land (reg t1 (address_d a offset)) (Z.lnot (Z.ones 32))) = d') as ->.
  { apply Z.bits_inj'. intros n Hn. rewrite Z.lor_spec, !Z.land_spec, Z.lnot_spec, Z.testbit_ones_nonneg by lia.
    destruct (Z.ltb_spec n 32); simpl; rewrite ?andb_true_r, ?andb_false_r, ?orb_false_r; [done|].
    rewrite (testbit_range (reg t1 _)), (testbit_range d'); [done|apply Z.mod_pos_bound; lia|lia|apply reg_range|lia]. }
  unfold d'. apply merged_byte; [|done..]. change 3 with (Z.ones 2). rewrite Z.land_ones by lia. by apply Z.mod_pos_bound.
Qed.

(** Bus mastering, once its bit can be written. *)
Lemma enable_busmaster_sets t a : let r := address_d a 4 in plain r -> Z.testbit (wmask r) 2 = true ->
  Z.testbit (reg (pci_enable_busmaster t a) r) 2 = true.
Proof.
  intros r Hp Hw. unfold pci_enable_busmaster. destruct (read_dword_ok t a 4) as (t1 & -> & H1). fold r.
  destruct (negb (Z.land (reg t r) 4 =? 0)) eqn:E.
  - change 4 with (Z.shiftl 1 2) in E. rewrite H1. rewrite land_bit in E; [done|lia].
  - destruct (read_dword_ok t1 a 4) as (t2 & -> & H2). fold r. rewrite write_dword_at by done. fold r.
    rewrite Z.lor_spec, !Z.land_spec, Z.lor_spec, Hw. by rewrite orb_true_r.
Qed.
End Laws.

(** ** The mapping of a BAR *)
Section SetupLaws.
Context {F : Type} `{FrameSourceLaws F}.
Implicit Types s : pg F.

(** What [pci_setup_entry] passes over. *)
Definition passed_over (b : pci_bar) : Prop := bar_present b = false \/ virtual_addr b <> 0.

Lemma setup_pass fuel pre : forall s bs p v, Forall passed_over pre ->
  setup_bars fuel s (pre ++ bs) p v = ('(s, bs) ← setup_bars fuel s bs p v; Ok (s, pre ++ bs)).
Proof.
  induction pre as [|b pre IH]; intros s bs p v Hpre; cbn [app setup_bars].
  { by destruct (setup_bars fuel s bs p v) as [[? ?]| | |]. }
  inversion Hpre as [|? ? Hb Hpre']; subst. assert (negb (bar_present b) || negb (virtual_addr b =? 0) = true) as ->.
  { destruct Hb as [->|Hv]; [done|]. destruct (Z.eqb_spec (virtual_addr b) 0); [done|]. by rewrite orb_true_r. }
  rewrite IH by done. by destruct (setup_bars fuel s bs p v) as [[? ?]| | |].
Qed.

Definition set_virtual (b : pci_bar) (v : Z) : pci_bar := mk_pci_bar (is_io b) (prefetchable b) (bar_present b) (physical_addr b) v (length_ b).

(** Setting an entry up maps its BAR, but the address it enters is right only for a region that
    begins with a page: [kpmap] already adds the offset into the page, and it is added again, so
    byte [j] from the entered address is the byte [j] of the region plus that offset. *)
Theorem pci_setup_entry_maps fuel s e k pre b post : pg_ok s -> bars e = pre ++ b :: post -> Forall passed_over pre -> Forall passed_over post ->
  bar_present b = true -> virtual_addr b = 0 -> 0 < length_ b < 2 ^ 32 -> 0 <= physical_addr b < 2 ^ 64 -> physical_addr b <> length_ b -> 0 <= k ->
  0 <= vstart (pmap s) < 2 ^ 64 -> vstart (pmap s) mod 4096 = 0 ->
  let n := map_pages (kptopg (length_ b)) (physical_addr b) in run_free s (vstart (pmap s)) k n -> k + n < Z.of_nat fuel ->
  result True (pci_setup_entry fuel s e) (fun '(s', e') => pg_ok s' /\ exists v, bars e' = pre ++ set_virtual b v :: post /\
    forall j, 0 <= j < length_ b - page_flags (physical_addr b) ->
      exists s2, kppaddrof s' (u64 (v + j)) = Ok (s2, u64 (physical_addr b + page_flags (physical_addr b) + j))).
Proof.
  intros Hok Eb Hpre Hpost Hpres Hv0 Hlen Hphys Hne Hk Hvs Hal n Hrun Hfuel. unfold pci_setup_entry. rewrite Eb, setup_pass by done.
  cbn [setup_bars]. rewrite Hpres, Hv0. cbn [negb orb Z.eqb]. rewrite Z.add_0_l, (u64_small (length_ b)) by lia.
  destruct (Z.eqb_spec (length_ b) (physical_addr b)) as [|_]; [lia|].
  assert (0 < kptopg (length_ b) < 2 ^ 36 /\ length_ b <= kptopg (length_ b) * MEM_PAGE_SIZE) as [Hpg Hcov].
  { pose proof (kptopg_bounds (length_ b)). unfold PAGE_SIZE, MEM_PAGE_SIZE in *. lia. }
  pose proof (kpmap_bytes fuel s (kptopg (length_ b)) (physical_addr b) 27 k Hok Hpg Hphys Hk Hvs Hal Hrun Hfuel) as Hm.
  destruct (kpmap fuel s _ _ 27) as [[s1 v]|m| |]; cbn [mbind res_bind result] in *; try done.
  rewrite <- (app_nil_r post), setup_pass by done. cbn [setup_bars mbind res_bind result bars]. rewrite app_nil_r.
  destruct Hm as (Hok1 & r & _ & _ & _ & Hbytes). split; [done|]. exists (u64 (v + page_flags (physical_addr b))).
  split; [unfold set_virtual; by rewrite Hpres|].
  pose proof (Z.mod_pos_bound (physical_addr b) 4096). intros j Hj.
  set (o := page_flags (physical_addr b)) in *. assert (0 <= o) by (unfold o; rewrite page_flags_eq; lia).
  destruct (Hbytes (o + j) ltac:(lia)) as (s2 & E). exists s2.
  replace (u64 (u64 (v + o) + j)) with (u64 (v + (o + j))) by (unfold u64; rewrite Zplus_mod_idemp_l; f_equal; lia).
  rewrite E. do 3 f_equal. lia.
Qed.
End SetupLaws.

(** ** Ports with registers behind them: function 0 of device 3 on bus 0 has a page of memory, 128
    KiB of prefetchable memory, 64 bytes of memory above 4 GiB and 4 ports; device 1 is a disk
    controller with eight and four ports; device 2 has two regions of 64-bit memory and a subsystem
    id that cannot be written *)
Record demo_ports := mk_demo_ports { d_latch : Z; d_regs : gmap Z Z }.

Definition demo_fn : pci_address := mk_pci_address 0 3 0.
Definition demo_ide : pci_address := mk_pci_address 0 1 0.
Definition demo_wide : pci_address := mk_pci_address 0 2 0.
Definition demo_reg (t : demo_ports) (a : Z) : Z := u32 (default 0 (d_regs t !! a)).
Definition demo_masks : gmap Z Z := list_to_map
  [(address_d demo_fn 16, Z.ldiff (Z.ones 32) (Z.ones 12)); (address_d demo_fn 20, Z.ldiff (Z.ones 32) (Z.ones 17));
   (address_d demo_fn 24, Z.ldiff (Z.ones 32) (Z.ones 6)); (address_d demo_fn 32, Z.ldiff (Z.ones 16) (Z.ones 2));
   (address_d demo_ide 16, Z.ldiff (Z.ones 32) (Z.ones 3)); (address_d demo_ide 20, Z.ldiff (Z.ones 32) (Z.ones 2));
   (address_d demo_wide 16, Z.ldiff (Z.ones 32) (Z.ones 12)); (address_d demo_wide 24, Z.ldiff (Z.ones 32) (Z.ones 12));
   (address_d demo_wide 44, 0)].
Definition demo_wmask (a : Z) : Z := u32 (default (Z.ones 32) (demo_masks !! a)).

#[local] Instance demo_pci_ports : PciPorts demo_ports := {|
  inportd t p := (t, if p =? PCI_CONFIG_DATA then demo_reg t (d_latch t) else 0);
  outportd t p v :=
    if p =? PCI_CONFIG_ADDRESS then mk_demo_ports v (d_regs t)
    else let a := d_latch t in
      mk_demo_ports a (<[a := Z.lor (Z.land v (demo_wmask a)) (Z.land (demo_reg t a) (Z.lnot (demo_wmask a)))]> (d_regs t)) |}.

Lemma demo_wmask_range a : 0 <= demo_wmask a < 2 ^ 32.
Proof. by apply Z.mod_pos_bound. Qed.

Lemma demo_reg_range t a : 0 <= demo_reg t a < 2 ^ 32.
Proof. by apply Z.mod_pos_bound. Qed.

#[local] Instance demo_pci_laws : PciPortsLaws demo_ports d_latch demo_reg demo_wmask (fun _ => True).
Proof.
  split; try done.
  - intros t v _. cbn -[u32 demo_wmask Z.lor Z.land Z.lnot]. unfold demo_reg at 1. cbn [d_regs]. rewrite lookup_insert_eq.
    cbn [default id]. unfold u32. rewrite <- Z.land_ones by lia. apply Z.bits_inj'. intros n Hn.
    rewrite Z.land_spec, Z.lor_spec, !Z.land_spec, Z.testbit_ones_nonneg by lia. destruct (Z.ltb_spec n 32); [by rewrite andb_true_r|].
    rewrite (testbit_range (demo_wmask _)), (testbit_range (demo_reg _ _)); [by rewrite !andb_false_r|apply demo_reg_range|done|apply demo_wmask_range|done].
  - intros t v a Ha. cbn -[u32 demo_wmask Z.lor Z.land Z.lnot]. unfold demo_reg at 1. cbn [d_regs]. by rewrite lookup_insert_ne.
  - apply demo_reg_range.
  - apply demo_wmask_range.
Qed.

Definition demo_state : demo_ports := mk_demo_ports 0 (list_to_map
  [(0, 305419896); (address_d demo_fn 16, 4273930240); (address_d demo_fn 20, 3758096392);
   (address_d demo_fn 24, 68); (address_d demo_fn 28, 2); (address_d demo_fn 32, 1009);
   (address_d demo_ide 16, 497); (address_d demo_ide 20, 1013); (address_d demo_ide 24, 369);
   (address_d demo_wide 16, 4); (address_d demo_wide 20, 1); (address_d demo_wide 24, 4100); (address_d demo_wide 28, 1);
   (address_d demo_wide 44, 285219572)]).
Definition demo_specs : list (option bar_spec) :=
  [Some (mk_bar_spec Memory32 4273930240 12 false); Some (mk_bar_spec Memory32 3758096384 17 true);
   Some (mk_bar_spec Memory64 8589934656 6 false); Some (mk_bar_spec Ports16 1008 2 false); None; None].

Lemma probe_bars_finds_witness : exists t' d', probe_bars 6 0 demo_state demo_fn 16 device0 (replicate 6 bar0)
    = Ok (t', d', [mk_pci_bar false false true 4273930240 0 4096; mk_pci_bar false true true 3758096384 0 0;
                   mk_pci_bar false false true 8589934656 0 64; mk_pci_bar true false true 1008 0 4; bar0; bar0]) /\ same_regs demo_reg demo_state t'.
Proof.
  destruct (probe_bars_finds d_latch demo_reg demo_wmask (fun _ => True) demo_state demo_fn device0 demo_specs eq_refl) as (t' & E & Hs).
  { vm_compute. intuition congruence. }
  exists t', (foldl found_resource device0 demo_specs). split; [exact E|exact Hs].
Defined.

(** The four ports at 0x3F4 of the disk controller, with the eight at 0x170 behind them. *)
Lemma probe_bars_four_ports_witness : exists t' d', probe_bars 1 1 demo_state demo_ide 20 device0 (replicate 6 bar0)
    = Ok (t', d', [bar0; mk_pci_bar true false true 1584842933236 0 4; bar0; bar0; bar0; bar0]).
Proof.
  destruct (probe_bars_four_ports d_latch demo_reg demo_wmask (fun _ => True) 0 1 demo_state demo_ide 20 device0 [bar0] (replicate 4 bar0) bar0 1012
    I eq_refl eq_refl ltac:(lia) eq_refl eq_refl) as (t' & _ & E).
  eexists t', _. exact E.
Defined.

(** With two regions of 64-bit memory the last of the six rounds is at the subsystem id, which is
    overwritten for the sizing and entered as a region. *)
Theorem probe_bars_goes_on : exists t' d', probe_bars 6 0 demo_state demo_wide 16 device0 (replicate 6 bar0)
    = Ok (t', d', [mk_pci_bar false false true 4294967296 0 4096; mk_pci_bar false false true 4294971392 0 4096; bar0; bar0; bar0;
                   mk_pci_bar false false true 285219568 0 58640]).
Proof. eexists _, _. vm_compute. reflexivity. Qed.

Lemma write_byte_takes_last_witness : reg_byte (demo_reg (pci_config_write_byte demo_state demo_fn 61 5) (address_d demo_fn 61)) 0 = 120.
Proof. exact (write_byte_takes_last d_latch demo_reg demo_wmask (fun _ => True) demo_state demo_fn 61 5 0 I eq_refl ltac:(lia) ltac:(lia)). Defined.

(** A region of 256 bytes in the middle of a page. *)
Definition demo_bar : pci_bar := mk_pci_bar false false true 4273930496 0 256.

Lemma pci_setup_entry_maps_witness : exists s' e' v,
  pci_setup_entry 8 demo_pg (mk_pci_entry demo_fn 4660 4369 1 6 0 1 [bar0; demo_bar; bar0]) = Ok (s', e') /\ bars e' = [bar0; set_virtual demo_bar v; bar0].
Proof.
  pose proof (pci_setup_entry_maps 8 demo_pg (mk_pci_entry demo_fn 4660 4369 1 6 0 1 [bar0; demo_bar; bar0]) 0 [bar0] demo_bar [bar0] demo_ok eq_refl
    ltac:(repeat constructor) ltac:(repeat constructor) eq_refl eq_refl ltac:(vm_compute; split; done) ltac:(vm_compute; split; done) ltac:(done) ltac:(lia) ltac:(vm_compute; split; done)
    eq_refl (demo_free _ _) eq_refl) as H.
  destruct (pci_setup_entry 8 demo_pg _) as [[s' e']|m| |] eqn:E; cbn [result] in H; [|vm_compute in E; discriminate E..].
  destruct H as (_ & v & H & _). exists s', e', v. split; [reflexivity|exact H].
Defined.
