(* ===== verification/Ahci.v ===== *)
(** * The AHCI controller and its optical drives: drv/ata/ahci.c, drv/ata/ahci/sr.c

    The registers of a port are an interface, [HbaPort]: reading or writing one may let the
    controller work on the memory it shares with the driver, [dmem], the command headers, the
    command tables and the DMA buffers.  [HbaLaws] is what a controller with a disc in its drive
    does: it takes commands when it has been started, is busy for a bounded number of polls, and
    carries out the command the memory describes ([exec]).  What the driver does with the tables
    is proved from these laws.  Messages are left out, and so is the loop over the ports with the
    allocation of the objects; [ahci_rw] and [ahci_flush] have no callers. *)
From S2P Require Import Rcp Prelude Strings Bitmap Lists Naming Block Tree.

(** ** The shared memory *)
Record cmd_header := mk_cmd_header { cfl : Z; h_a : Z; h_w : Z; prdtl : Z; prdbc : Z; ctba : Z }.
Record prdt_entry := mk_prdt { dba : Z; dbc : Z; p_i : Z }.
Record cmd_table := mk_cmd_table { cfis : list Z; acmd : list Z; prdt0 : prdt_entry }.

(** [t_phys] and [b_phys] are the physical addresses of [tables] and [dma_buffers]. *)
Record dmem := mk_dmem {
  headers : list cmd_header; tables : list (option cmd_table); dma_buffers : list (option (list Z)); t_phys : list Z; b_phys : list Z }.

Definition set_headers (m : dmem) x := mk_dmem x (tables m) (dma_buffers m) (t_phys m) (b_phys m).
Definition set_tables (m : dmem) x := mk_dmem (headers m) x (dma_buffers m) (t_phys m) (b_phys m).
Definition set_buffers (m : dmem) x := mk_dmem (headers m) (tables m) x (t_phys m) (b_phys m).
Definition set_h_prdbc (h : cmd_header) x := mk_cmd_header (cfl h) (h_a h) (h_w h) (prdtl h) x (ctba h).

(** Through the pointers of slot [i]; a pointer that was not set is null. *)
Definition on_header (m : dmem) (i : Z) (f : cmd_header -> cmd_header) : res dmem :=
  h ← load (headers m) i; l ← store (headers m) i (f h); Ok (set_headers m l).
Definition table_at (m : dmem) (i : Z) : res cmd_table := o ← load (tables m) i; res_of_option o.
Definition put_table (m : dmem) (i : Z) (t : cmd_table) : res dmem := l ← store (tables m) i (Some t); Ok (set_tables m l).
Definition buffer_at (m : dmem) (i : Z) : res (list Z) := o ← load (dma_buffers m) i; res_of_option o.

(** ** A port *)
Inductive preg := P_clb | P_fb | P_fbu | P_is | P_cmd | P_tfd | P_sig | P_ssts | P_sact | P_ci.

Class HbaPort (H : Type) := {
  port_rd : H -> dmem -> preg -> H * dmem * Z;
  port_wr : H -> dmem -> preg -> Z -> H * dmem }.

Definition ATA_DEV_BUSY : Z := 128.
Definition ATA_DEV_DRQ : Z := 8.
Definition HBA_CMD_ST : Z := 1.
Definition HBA_CMD_FRE : Z := 16.
Definition HBA_CMD_CR : Z := 32768.

Definition AHCI_DEV_NULL : Z := 0.
Definition AHCI_DEV_SATA : Z := 1.
Definition AHCI_DEV_SATAPI : Z := 2.
Definition AHCI_DEV_SEMB : Z := 3.
Definition AHCI_DEV_PM : Z := 4.

(** The driver [ahci] takes mass storage controllers of the SATA kind that speak AHCI. *)
Definition ahci_check (d : device) : device * Z :=
  let '(d, c) := dev_get_attribute d (bytes "class" ++ [0]) in
  if negb (c =? 1) then (d, -1)
  else
    let '(d, s) := dev_get_attribute d (bytes "subclass" ++ [0]) in
    if negb (s =? 6) then (d, -1)
    else
      let '(d, p) := dev_get_attribute d (bytes "prog_if" ++ [0]) in
      if p =? 1 then (d, 0) else (d, -1).

Section Ahci.
Context {H : Type} `{HbaPort H}.

Record ahw := mk_ahw { hba : H; mem : dmem }.

Definition rd (w : ahw) (r : preg) : ahw * Z := let '(h, m, v) := port_rd (hba w) (mem w) r in (mk_ahw h m, v).
Definition wr (w : ahw) (r : preg) (v : Z) : ahw := let '(h, m) := port_wr (hba w) (mem w) r v in mk_ahw h m.
Definition set_mem (w : ahw) (m : dmem) : ahw := mk_ahw (hba w) m.

Definition ahci_probe_port (w : ahw) : ahw * Z :=
  let '(w, ssts) := rd w P_ssts in
  let ipm := Z.land (Z.shiftr ssts 8) 15 in
  let det := Z.land ssts 15 in
  if negb (ipm =? 1) || negb (det =? 3) then (w, AHCI_DEV_NULL)
  else
    let '(w, sig) := rd w P_sig in
    (w, if sig =? 3943956737 then AHCI_DEV_SATAPI else if sig =? 3275489537 then AHCI_DEV_SEMB
        else if sig =? 2523463937 then AHCI_DEV_PM else if sig =? 257 then AHCI_DEV_SATA else AHCI_DEV_NULL).

(** The first slot below [n + i] that is free. *)
Fixpoint free_slot (slots : Z) (i : Z) (n : nat) : Z :=
  match n with
  | O => -1
  | S n => if negb (Z.testbit slots i) then i else free_slot slots (i + 1) n
  end.

Definition ahci_find_cmdslot (max_commands : Z) (w : ahw) : ahw * Z :=
  let '(w, sact) := rd w P_sact in
  let '(w, ci) := rd w P_ci in
  (w, free_slot (Z.lor sact ci) 0 (Z.to_nat max_commands)).

(** [while (port->reg & mask);] *)
Fixpoint wait_clear (fuel : nat) (w : ahw) (r : preg) (mask : Z) : res ahw :=
  let '(w, v) := rd w r in
  if Z.land v mask =? 0 then Ok w else match fuel with O => OutOfFuel | S f => wait_clear f w r mask end.

Definition cmd_clear (w : ahw) (b : Z) : ahw := let '(w, v) := rd w P_cmd in wr w P_cmd (Z.land v (u32 (Z.lnot b))).
Definition cmd_set (w : ahw) (b : Z) : ahw := let '(w, v) := rd w P_cmd in wr w P_cmd (Z.lor v b).

Definition ahci_start_cmd (fuel : nat) (w : ahw) : res ahw :=
  w ← wait_clear fuel (cmd_clear w HBA_CMD_ST) P_cmd HBA_CMD_CR;
  Ok (cmd_set (cmd_set w HBA_CMD_FRE) HBA_CMD_ST).

Definition ahci_stop_cmd (fuel : nat) (w : ahw) : res ahw :=
  w ← wait_clear fuel (cmd_clear w HBA_CMD_ST) P_cmd HBA_CMD_CR;
  Ok (cmd_clear w HBA_CMD_FRE).

(** Until the slot is free or a task file error shows; whether it was an error. *)
Fixpoint wait_slot (fuel : nat) (w : ahw) (slot : Z) : res (ahw * bool) :=
  let '(w, ci) := rd w P_ci in
  if negb (Z.testbit ci slot) then let '(w, st) := rd w P_is in Ok (w, Z.testbit st 30)
  else
    let '(w, st) := rd w P_is in
    if Z.testbit st 30 then Ok (w, true) else match fuel with O => OutOfFuel | S f => wait_slot f w slot end.

(** The end of every command: whether it failed. *)
Definition run_command (fuel : nat) (w : ahw) (slot : Z) : res (ahw * bool) :=
  w ← wait_clear fuel w P_tfd (Z.lor ATA_DEV_BUSY ATA_DEV_DRQ);
  w ← ahci_start_cmd fuel w;
  let w := wr w P_ci (Z.shiftl 1 slot) in
  '(w, failed) ← wait_slot fuel w slot;
  if failed : bool then Ok (w, true) else w ← ahci_stop_cmd fuel w; Ok (w, false).

(** A register FIS, 20 bytes at the beginning of the table. *)
Definition reg_fis (command lba0 lba1 lba2 dev lba3 lba4 lba5 countl counth : Z) : list Z :=
  [39; 128; command; 0; lba0; lba1; lba2; dev; lba3; lba4; lba5; 0; countl; counth; 0; 0; 0; 0; 0; 0].
Definition put_fis (t : cmd_table) (fis : list Z) : cmd_table := mk_cmd_table (splice (cfis t) 0 fis) (acmd t) (prdt0 t).

(** [prdt[0].dbc] has 22 bits. *)
Definition set_prdt (t : cmd_table) (a n : Z) : cmd_table := mk_cmd_table (cfis t) (acmd t) (mk_prdt a (n mod 2 ^ 22) (p_i (prdt0 t))).

(** ** Packets *)

(** [packet] is the array and what follows it on the stack: 16 bytes of it are copied, and the
    callers' arrays have 12. *)
Definition ahci_scsi_packet (fuel : nat) (max_commands : Z) (w : ahw) (packet : list Z) (len : Z) (buffer : list Z) : res (ahw * list Z * Z) :=
  let '(w, slot) := ahci_find_cmdslot max_commands w in
  m ← on_header (mem w) slot (fun h => mk_cmd_header 5 1 0 1 0 (ctba h));
  t ← table_at m slot;
  a ← load (b_phys m) slot;
  let t := put_fis (set_prdt t a (len - 1)) (reg_fis 160 0 8 8 0 0 0 0 0 0) in
  c ← memcpy (acmd t) 0 packet 0 16;
  m ← put_table m slot (mk_cmd_table (cfis t) c (prdt0 t));
  '(w, failed) ← run_command fuel (set_mem w m) slot;
  if failed : bool then Ok (w, buffer, -1)
  else
    b ← buffer_at (mem w) slot;
    buffer ← memcpy buffer 0 b 0 len;
    h ← load (headers (mem w)) slot;
    Ok (w, buffer, s32 (prdbc h)).

Definition byte_of (v shift : Z) : Z := Z.land (Z.shiftr v shift) 255.

Definition rw_packet (start count : Z) (write : bool) : list Z :=
  [if write then 170 else 168; 0; byte_of start 24; byte_of start 16; byte_of start 8; byte_of start 0; 0; 0; 0; u8 count; 0; 0].

(** Any count but 0 is taken for success. *)
Definition ahci_rw_scsi (fuel : nat) (max_commands : Z) (junk : list Z) (w : ahw) (start count : Z) (buffer : list Z) (write : bool) : res (ahw * list Z * Z) :=
  '(w, buffer, amnt) ← ahci_scsi_packet fuel max_commands w (rw_packet start count write ++ junk) (count * 2048) buffer;
  Ok (w, buffer, if negb (amnt =? 0) then 0 else -1).

Definition ahci_sr_read (fuel : nat) (max_commands : Z) (junk : list Z) (w : ahw) (sector count : Z) (buffer : list Z) : res (ahw * list Z * Z) :=
  ahci_rw_scsi fuel max_commands junk w sector count buffer false.
Definition ahci_sr_write (fuel : nat) (max_commands : Z) (junk : list Z) (w : ahw) (sector count : Z) (buffer : list Z) : res (ahw * list Z * Z) :=
  ahci_rw_scsi fuel max_commands junk w sector count buffer true.

(** ** Setting a drive up *)
Record ahci_device := mk_ahci_device { ad_model : list Z; ad_sector_count : Z; ad_sector_size : Z; ad_atapi : bool }.

(** The words of the text come with their bytes exchanged. *)
Fixpoint swap_model (n : nat) (i : Z) (model identify : list Z) : res (list Z) :=
  match n with
  | O => store model i 0
  | S n =>
      a ← load identify (54 + i + 1); b ← load identify (54 + i);
      model ← store model i a; model ← store model (i + 1) b;
      swap_model n (i + 2) model identify
  end.

Definition uint32_bswap (x : Z) : Z :=
  Z.lor (Z.lor (Z.lor (Z.shiftr (Z.land x 4278190080) 24) (Z.shiftr (Z.land x 16711680) 8)) (Z.shiftl (Z.land x 65280) 8)) (u32 (Z.shiftl x 24)).

Definition ahci_init_dev (fuel : nat) (max_commands : Z) (junk : list Z) (w : ahw) (dev : ahci_device) : res (ahw * ahci_device * Z) :=
  let '(w, slot) := ahci_find_cmdslot max_commands w in
  m ← on_header (mem w) slot (fun h => mk_cmd_header 5 0 0 1 0 (ctba h));
  t ← table_at m slot;
  m ← put_table m slot (put_fis t (reg_fis (if ad_atapi dev then 161 else 236) 0 0 0 0 0 0 0 0 0));
  '(w, failed) ← run_command fuel (set_mem w m) slot;
  if failed : bool then Ok (w, dev, -1)
  else
    identify ← buffer_at (mem w) slot;
    model ← swap_model 20 0 (ad_model dev) identify;
    let dev := mk_ahci_device model (ad_sector_count dev) (ad_sector_size dev) (ad_atapi dev) in
    if negb (ad_atapi dev) then
      if 208 <=? zlen identify then Ok (w, mk_ahci_device model (le_val (slice identify 200 8)) 512 false, 0) else Fault
    else
      '(w, buffer, ret) ← ahci_scsi_packet fuel max_commands w ([37; 0; 0; 0; 0; 0; 0; 0; 0; 0; 0; 0] ++ junk) 8 (replicate 8 0);
      if ret =? 0 then Ok (w, dev, -1)
      else
        let b0 := uint32_bswap (le_val (slice buffer 0 4)) in
        let b1 := uint32_bswap (le_val (slice buffer 4 4)) in
        let dev := mk_ahci_device model b0 (ad_sector_size dev) true in
        if negb (b1 =? 2048) then Ok (w, dev, -1) else Ok (w, mk_ahci_device model b0 2048 true, 0).

(** The four slots of [ahci_port_rebase]; [pages] has the physical addresses and contents of the
    pages [kpcalloc] gives: a table's and a buffer's for each slot. *)
Fixpoint rebase_slots (pages : list (Z * cmd_table * (Z * list Z))) (i : Z) (m : dmem) : res dmem :=
  match pages with
  | [] => Ok m
  | (cp, t, (dp, b)) :: pages =>
      m ← on_header m i (fun h => mk_cmd_header (cfl h) (h_a h) (h_w h) 1 (prdbc h) cp);
      ts ← store (tables m) i (Some (mk_cmd_table (replicate 64 0) (replicate 16 0) (mk_prdt dp (16384 mod 2 ^ 22) 1)));
      tp ← store (t_phys m) i cp; bs ← store (dma_buffers m) i (Some b); bp ← store (b_phys m) i dp;
      rebase_slots pages (i + 1) (mk_dmem (headers m) ts bs tp bp)
  end.

Definition ahci_port_rebase (w : ahw) (clb_phys fb_phys : Z) (page : list cmd_header) (pages : list (Z * cmd_table * (Z * list Z))) : res ahw :=
  let w := set_mem w (mk_dmem page (replicate 32 None) (replicate 32 None) (replicate 32 0) (replicate 32 0)) in
  let w := wr (wr (wr w P_clb clb_phys) P_fb (u32 fb_phys)) P_fbu 0 in
  m ← rebase_slots pages 0 (mem w);
  Ok (set_mem w m).

(** The class data of an optical drive. *)
Definition sr_disk (fuel : nat) (max_commands : Z) (junk : list Z) (dev : ahci_device) (name : list Z) : class_disk (D0 := ahw) :=
  mk_class_disk name 2 (ad_sector_count dev) (ad_sector_size dev) 16 None
    (Some (ahci_sr_read fuel max_commands junk)) (Some (ahci_sr_write fuel max_commands junk)) None.

Definition ahci_srdrv_check (dev : ahci_device) : Z := if negb (ad_atapi dev) then -1 else 0.

(** The drive gets a name, and the class that is set makes a block device of it; [pat] is the text
    [sr@] and what follows it. *)
Definition ahci_srdrv_bind (fuel : nat) (max_commands : Z) (junk pat fresh : list Z) (names : klist dev_incr) (disks : rcparray (class_disk (D0 := ahw)))
    (dev : ahci_device) : res (klist dev_incr * rcparray (class_disk (D0 := ahw)) * dev_block (dstate (D0 := ahw))) :=
  '(names, name) ← dev_name_inc names pat (replicate 16 0) fresh;
  let '(disks, b) := class_disk_bind disks (sr_disk fuel max_commands junk dev name) in
  Ok (names, disks, b).

(** ** Transfers with a disk, which nothing calls *)
Definition rw_fis (start count : Z) (write : bool) : list Z :=
  reg_fis (if write then 53 else 37) (byte_of start 0) (byte_of start 8) (byte_of start 16) 64
    (byte_of start 24) (byte_of start 32) (byte_of start 40) (Z.land count 255) (Z.land (Z.shiftr count 8) 255).

(** [buffer] is the address, [paddrof] what [kppaddrof] gives; the controller moves the bytes. *)
Definition ahci_rw (fuel : nat) (max_commands : Z) (paddrof : Z -> Z) (w : ahw) (start count buffer : Z) (write : bool) : res (ahw * Z) :=
  if negb (Z.land buffer 1 =? 0) then Panic "ahci_rw() buffer address not aligned to word"
  else
    let '(w, slot) := ahci_find_cmdslot max_commands w in
    m ← on_header (mem w) slot (fun h => mk_cmd_header 5 0 (if write then 1 else 0) 1 0 (ctba h));
    t ← table_at m slot;
    m ← put_table m slot (put_fis (set_prdt t (paddrof buffer) (count * 512 - 1)) (rw_fis start count write));
    '(w, failed) ← run_command fuel (set_mem w m) slot;
    Ok (w, if failed : bool then -1 else 0).

Definition ahci_flush (fuel : nat) (max_commands : Z) (w : ahw) : res (ahw * Z) :=
  let '(w, slot) := ahci_find_cmdslot max_commands w in
  m ← on_header (mem w) slot (fun h => mk_cmd_header 5 (h_a h) 1 1 0 (ctba h));
  t ← table_at m slot;
  a ← load (b_phys m) slot;
  m ← put_table m slot (put_fis (set_prdt t a 256) (reg_fis 231 0 0 0 0 0 0 0 0 0));
  '(w, failed) ← run_command fuel (set_mem w m) slot;
  Ok (w, if failed : bool then -1 else 0).
End Ahci.

Arguments ahw H : clear implicits.

(** ** Bytes of a number *)
Lemma byte_of_eq v n : 0 <= n -> byte_of v n = (v / 2 ^ n) mod 256.
Proof. intros Hn. unfold byte_of. change 255 with (Z.ones 8). by rewrite Z.land_ones, Z.shiftr_div_pow2 by lia. Qed.

Lemma byte_of_range v n : 0 <= n -> 0 <= byte_of v n < 256.
Proof. intros Hn. rewrite byte_of_eq by done. by apply Z.mod_pos_bound. Qed.

Lemma lor_shiftl a b n : 0 <= n -> 0 <= a < 2 ^ n -> Z.lor a (Z.shiftl b n) = a + b * 2 ^ n.
Proof.
  intros Hn Ha. rewrite <- Z.shiftl_mul_pow2 by done. rewrite Z.add_nocarry_lxor, Z.lxor_lor; [done|..]; apply Z.bits_inj'; intros k Hk;
    rewrite Z.land_spec, Z.bits_0, Z.shiftl_spec by lia; destruct (Z.ltb_spec k n); try (by rewrite (Z.testbit_neg_r b), andb_false_r by lia);
    rewrite <- (Z.mod_small a (2 ^ n)) by lia; by rewrite Z.mod_pow2_bits_high by lia.
Qed.

Lemma land_byte x n : 0 <= n -> Z.land x (Z.shiftl 255 n) = Z.shiftl (byte_of x n) n.
Proof.
  intros Hn. unfold byte_of. apply Z.bits_inj'. intros k Hk. rewrite Z.land_spec, !Z.shiftl_spec by lia.
  destruct (Z.ltb_spec k n); [rewrite !(Z.testbit_neg_r _ (k - n)) by lia; by rewrite andb_false_r|].
  rewrite Z.land_spec, Z.shiftr_spec by lia. by replace (k - n + n) with k by lia.
Qed.

(** [uint32_bswap] reads a number the other way round. *)
Lemma bswap_eq x : uint32_bswap x = byte_of x 24 + 256 * (byte_of x 16 + 256 * (byte_of x 8 + 256 * byte_of x 0)).
Proof.
  pose proof (byte_of_range x 24 ltac:(lia)). pose proof (byte_of_range x 16 ltac:(lia)). pose proof (byte_of_range x 8 ltac:(lia)). pose proof (byte_of_range x 0 ltac:(lia)).
  unfold uint32_bswap. change 4278190080 with (Z.shiftl 255 24). change 16711680 with (Z.shiftl 255 16). change 65280 with (Z.shiftl 255 8).
  rewrite !land_byte, Z.shiftr_shiftl_l by lia. change (24 - 24) with 0. rewrite Z.shiftl_0_r. rewrite (Z.shiftr_shiftl_l (byte_of x 16)) by lia. change (16 - 8) with 8.
  rewrite Z.shiftl_shiftl by lia. change (8 + 8) with 16.
  assert (u32 (Z.shiftl x 24) = Z.shiftl (byte_of x 0) 24) as ->.
  { unfold u32. rewrite byte_of_eq, !Z.shiftl_mul_pow2 by lia. change (2 ^ 0) with 1. rewrite Z.div_1_r. change (2 ^ 32) with (256 * 2 ^ 24). by rewrite Z.mul_mod_distr_r by lia. }
  rewrite (lor_shiftl (byte_of x 24)) by lia. change (2 ^ 8) with 256. rewrite (lor_shiftl _ (byte_of x 8)) by lia. change (2 ^ 16) with 65536.
  rewrite lor_shiftl by lia. lia.
Qed.

Lemma be32_eq v : 0 <= v < 2 ^ 32 -> byte_of v 0 + 256 * (byte_of v 8 + 256 * (byte_of v 16 + 256 * byte_of v 24)) = v.
Proof.
  intros Hv. rewrite !byte_of_eq by lia. change (2 ^ 0) with 1. change (2 ^ 8) with 256. change (2 ^ 16) with (256 * 256). change (2 ^ 24) with (256 * 256 * 256).
  rewrite Z.div_1_r, <- !Z.div_div by lia. assert (v / 256 / 256 / 256 < 256) by (rewrite !Z.div_div by lia; apply Z.div_lt_upper_bound; lia).
  pose proof (Z.div_mod v 256). pose proof (Z.div_mod (v / 256) 256). pose proof (Z.div_mod (v / 256 / 256) 256).
  rewrite (Z.mod_small (v / 256 / 256 / 256)) by (split; [repeat apply Z.div_pos; lia|lia]). lia.
Qed.

Definition be_val (bs : list Z) : Z := le_val (rev bs).
Definition be32 (v : Z) : list Z := [byte_of v 24; byte_of v 16; byte_of v 8; byte_of v 0].

Lemma be32_val v : 0 <= v < 2 ^ 32 -> be_val (be32 v) = v.
Proof. intros Hv. unfold be_val, be32. cbn [rev app le_val]. rewrite <- (be32_eq v Hv) at 5. lia. Qed.

Lemma bswap_be32 v : 0 <= v < 2 ^ 32 -> uint32_bswap (le_val (be32 v)) = v.
Proof.
  intros Hv. rewrite bswap_eq. unfold be32. cbn [le_val]. pose proof (be32_eq v Hv) as E.
  pose proof (byte_of_range v 24 ltac:(lia)). pose proof (byte_of_range v 16 ltac:(lia)). pose proof (byte_of_range v 8 ltac:(lia)). pose proof (byte_of_range v 0 ltac:(lia)).
  set (b3 := byte_of v 24) in *. set (b2 := byte_of v 16) in *. set (b1 := byte_of v 8) in *. set (b0 := byte_of v 0) in *.
  set (x := b3 + _). assert (forall n q r, 0 <= n -> x = q * 2 ^ n + r -> 0 <= r < 2 ^ n -> byte_of x n = q mod 256) as Hx.
  { intros n q r Hn -> Hr. rewrite byte_of_eq by done. by rewrite Z.div_add_l, (Z.div_small r), Z.add_0_r by lia. }
  rewrite (Hx 24 b0 (b3 + 256 * b2 + 65536 * b1)), (Hx 16 (b1 + b0 * 256) (b3 + 256 * b2)), (Hx 8 (b2 + (b1 + 256 * b0) * 256) b3), (Hx 0 (b3 + (b2 + 256 * (b1 + 256 * b0)) * 256) 0);
    try (unfold x; lia). rewrite !Z.mod_add, (Z.mod_small b3), (Z.mod_small b2), (Z.mod_small b1), (Z.mod_small b0) by lia. lia.
Qed.

(** ** A controller with a disc in its drive *)

(** A port that is idle, started or not, with the polls its command engine takes to stop, or one
    that works on a slot for some more polls. *)
Inductive port_state := Idle (started : bool) (k : nat) | Running (k : nat) (slot : Z).

(** What a drive answers to the packets READ(12) and READ CAPACITY, and to the command in a table,
    such a packet or IDENTIFY PACKET DEVICE. *)
Definition packet_response (disc p : list Z) : option (list Z) :=
  match get p 0 with
  | Some 168 =>
      let lba := be_val (slice p 2 4) in
      let count := be_val (slice p 6 4) in
      if (lba + count) * 2048 <=? zlen disc then Some (slice disc (lba * 2048) (count * 2048)) else None
  | Some 37 => Some (be32 (zlen disc / 2048 - 1) ++ be32 2048)
  | _ => None
  end.

Definition response (disc ident : list Z) (h : cmd_header) (t : cmd_table) : option (list Z) :=
  if (cfl h =? 5) && (prdtl h =? 1) && (h_w h =? 0) && bool_decide (slice (cfis t) 0 2 = [39; 128]) then
    match get (cfis t) 2 with
    | Some 161 => Some ident
    | Some 160 => if h_a h =? 1 then packet_response disc (acmd t) else None
    | _ => None
    end
  else None.

(** The command of a slot is carried out: what it answers is moved to the buffer the table leads
    to, and counted in the header. *)
Definition exec (disc ident : list Z) (m : dmem) (slot : Z) : option dmem :=
  h ← get (headers m) slot; ot ← get (tables m) slot; t ← ot; ob ← get (dma_buffers m) slot; b ← ob;
  tp ← get (t_phys m) slot; bp ← get (b_phys m) slot;
  data ← response disc ident h t;
  if (ctba h =? tp) && (dba (prdt0 t) =? bp) && (zlen data <=? dbc (prdt0 t) + 1) && (zlen data <=? zlen b) then
    Some (mk_dmem (<[Z.to_nat slot := set_h_prdbc h (zlen data)]> (headers m)) (tables m)
            (<[Z.to_nat slot := Some (splice b 0 data)]> (dma_buffers m)) (t_phys m) (b_phys m))
  else None.

Class HbaLaws (H : Type) `{HbaPort H} (disc ident : list Z) (patience : nat) (St : H -> port_state -> Prop) := {
  law_tfd : forall h m s k, St h (Idle s k) ->
    exists h' v, port_rd h m P_tfd = (h', m, v) /\ St h' (Idle s k) /\ Z.land v (Z.lor ATA_DEV_BUSY ATA_DEV_DRQ) = 0;
  law_slots : forall h m s k r, St h (Idle s k) -> r = P_sact \/ r = P_ci -> exists h', port_rd h m r = (h', m, 0) /\ St h' (Idle s k);
  law_cmd : forall h m s k, St h (Idle s k) ->
    exists h' v, port_rd h m P_cmd = (h', m, v) /\ St h' (Idle s (pred k)) /\ Z.testbit v 0 = s /\ (s = false -> Z.testbit v 15 = negb (k =? 0)%nat);
  law_set_cmd : forall h m s k v, St h (Idle s k) ->
    exists h' k', port_wr h m P_cmd v = (h', m) /\ St h' (Idle (Z.testbit v 0) k') /\ (k' <= patience)%nat;
  law_issue : forall h m k slot, St h (Idle true k) -> 0 <= slot < 32 ->
    exists h' k', port_wr h m P_ci (Z.shiftl 1 slot) = (h', m) /\ St h' (Running k' slot) /\ (k' <= patience)%nat;
  law_status : forall h m st, St h st -> exists h' v, port_rd h m P_is = (h', m, v) /\ St h' st /\ Z.testbit v 30 = false;
  law_busy : forall h m k slot, St h (Running (S k) slot) ->
    exists h' v, port_rd h m P_ci = (h', m, v) /\ St h' (Running k slot) /\ Z.testbit v slot = true;
  law_done : forall h m slot m', St h (Running O slot) -> exec disc ident m slot = Some m' ->
    exists h' v, port_rd h m P_ci = (h', m', v) /\ St h' (Idle true 0) /\ Z.testbit v slot = false }.

Section Laws.
Context {H : Type} `{HbaPort H} (disc ident : list Z) (patience : nat) (St : H -> port_state -> Prop) `{!HbaLaws H disc ident patience St}.
Implicit Types (w : ahw H) (m : dmem).

Definition idles w (s : bool) : Prop := exists k, St (hba w) (Idle s k) /\ (k <= patience)%nat.

Lemma cmd_read_ok w s k : St (hba w) (Idle s k) -> exists h' v, rd w P_cmd = (mk_ahw h' (mem w), v) /\ St h' (Idle s (pred k)) /\
  Z.testbit v 0 = s /\ (s = false -> Z.testbit v 15 = negb (k =? 0)%nat).
Proof. intros Hs. unfold rd. destruct (law_cmd (hba w) (mem w) s k Hs) as (h' & v & -> & ?). by exists h', v. Qed.

Lemma set_cmd_ok w s v : idles w s -> exists w', wr w P_cmd v = w' /\ mem w' = mem w /\ idles w' (Z.testbit v 0).
Proof.
  intros (k & Hs & _). unfold wr. destruct (law_set_cmd (hba w) (mem w) s k v Hs) as (h' & k' & -> & Hs' & Hk).
  eexists. split; [done|]. split; [done|]. by exists k'.
Qed.

Lemma cmd_clear_ok w s b : idles w s -> exists w', cmd_clear w b = w' /\ mem w' = mem w /\ idles w' (s && Z.testbit (u32 (Z.lnot b)) 0).
Proof.
  intros (k & Hs & Hk). unfold cmd_clear. destruct (cmd_read_ok w s k Hs) as (h' & v & -> & Hs' & Hv & _).
  destruct (set_cmd_ok (mk_ahw h' (mem w)) s (Z.land v (u32 (Z.lnot b)))) as (w' & -> & Hm & Hi); [exists (pred k); split; [done|lia]|].
  exists w'. rewrite Z.land_spec, Hv in Hi. done.
Qed.

Lemma cmd_set_ok w s b : idles w s -> exists w', cmd_set w b = w' /\ mem w' = mem w /\ idles w' (s || Z.testbit b 0).
Proof.
  intros (k & Hs & Hk). unfold cmd_set. destruct (cmd_read_ok w s k Hs) as (h' & v & -> & Hs' & Hv & _).
  destruct (set_cmd_ok (mk_ahw h' (mem w)) s (Z.lor v b)) as (w' & -> & Hm & Hi); [exists (pred k); split; [done|lia]|].
  exists w'. rewrite Z.lor_spec, Hv in Hi. done.
Qed.

(** The command engine stops. *)
Lemma wait_cr_ok k : forall fuel w, St (hba w) (Idle false k) -> (k <= fuel)%nat ->
  exists w', wait_clear fuel w P_cmd HBA_CMD_CR = Ok w' /\ mem w' = mem w /\ St (hba w') (Idle false 0).
Proof.
  induction k as [|k IH]; intros fuel w Hs Hf; destruct (cmd_read_ok w false _ Hs) as (h' & v & E & Hs' & _ & Hv);
    specialize (Hv eq_refl); pose proof (land_bit v 15 ltac:(lia)) as Hb; change (Z.shiftl 1 15) with HBA_CMD_CR in Hb; rewrite Hv in Hb.
  - destruct fuel; cbn [wait_clear]; rewrite E; (destruct (Z.land v HBA_CMD_CR =? 0); [|done]); eexists; (split; [done|by split]).
  - destruct fuel as [|fuel]; [lia|]. cbn [wait_clear]. rewrite E. destruct (Z.land v HBA_CMD_CR =? 0); [done|].
    apply (IH fuel (mk_ahw h' (mem w))); [done|lia].
Qed.

Lemma halt_ok fuel w s : idles w s -> (patience <= fuel)%nat ->
  exists w', wait_clear fuel (cmd_clear w HBA_CMD_ST) P_cmd HBA_CMD_CR = Ok w' /\ mem w' = mem w /\ idles w' false.
Proof.
  intros Hi Hf. destruct (cmd_clear_ok w s HBA_CMD_ST Hi) as (w1 & -> & Hm & (k & Hs & Hk)). rewrite andb_false_r in Hs.
  destruct (wait_cr_ok k fuel w1 Hs ltac:(lia)) as (w2 & -> & Hm2 & Hs2). exists w2. split; [done|]. split; [congruence|]. exists 0%nat. split; [done|lia].
Qed.

Lemma start_ok fuel w s : idles w s -> (patience <= fuel)%nat -> exists w', ahci_start_cmd fuel w = Ok w' /\ mem w' = mem w /\ idles w' true.
Proof.
  intros Hi Hf. unfold ahci_start_cmd. destruct (halt_ok fuel w s Hi Hf) as (w1 & -> & Hm1 & Hi1). cbn [mbind res_bind].
  destruct (cmd_set_ok w1 false HBA_CMD_FRE Hi1) as (w2 & -> & Hm2 & Hi2). destruct (cmd_set_ok w2 _ HBA_CMD_ST Hi2) as (w3 & -> & Hm3 & Hi3).
  exists w3. split; [done|]. split; [congruence|]. exact Hi3.
Qed.

Lemma stop_ok fuel w s : idles w s -> (patience <= fuel)%nat -> exists w', ahci_stop_cmd fuel w = Ok w' /\ mem w' = mem w /\ idles w' false.
Proof.
  intros Hi Hf. unfold ahci_stop_cmd. destruct (halt_ok fuel w s Hi Hf) as (w1 & -> & Hm1 & Hi1). cbn [mbind res_bind].
  destruct (cmd_clear_ok w1 false HBA_CMD_FRE Hi1) as (w2 & -> & Hm2 & Hi2). exists w2. split; [done|]. split; [congruence|exact Hi2].
Qed.

Lemma status_ok w st : St (hba w) st -> exists w' v, rd w P_is = (w', v) /\ mem w' = mem w /\ St (hba w') st /\ Z.testbit v 30 = false.
Proof. intros Hs. unfold rd. destruct (law_status (hba w) (mem w) st Hs) as (h' & v & -> & ?). eexists _, v. by split. Qed.

(** The command of a running slot is carried out. *)
Lemma wait_slot_ok slot m' k : forall fuel w, St (hba w) (Running k slot) -> exec disc ident (mem w) slot = Some m' -> (k <= fuel)%nat ->
  exists w', wait_slot fuel w slot = Ok (w', false) /\ mem w' = m' /\ idles w' true.
Proof.
  induction k as [|k IH]; intros fuel w Hs He Hf.
  - destruct (law_done _ _ _ _ Hs He) as (h' & v & E & Hs' & Hv). destruct (status_ok (mk_ahw h' m') _ Hs') as (w2 & v2 & E2 & Hm2 & Hs2 & Hv2).
    exists w2. split; [|split; [done|exists 0%nat; split; [done|lia]]].
    destruct fuel; cbn [wait_slot]; unfold rd at 1; rewrite E, Hv; cbn [negb]; by rewrite E2, Hv2.
  - destruct fuel as [|fuel]; [lia|]. cbn [wait_slot]. unfold rd at 1. destruct (law_busy (hba w) (mem w) k slot Hs) as (h' & v & -> & Hs' & ->). cbn [negb].
    destruct (status_ok (mk_ahw h' (mem w)) _ Hs') as (w2 & v2 & -> & Hm2 & Hs2 & ->). cbn [mem] in Hm2. apply IH; [done|by rewrite Hm2|lia].
Qed.

Lemma run_ok fuel w s slot m' : idles w s -> exec disc ident (mem w) slot = Some m' -> 0 <= slot < 32 -> (patience <= fuel)%nat ->
  exists w', run_command fuel w slot = Ok (w', false) /\ mem w' = m' /\ idles w' false.
Proof.
  intros (k & Hs & Hk) He Hsl Hf. unfold run_command.
  destruct (law_tfd (hba w) (mem w) s k Hs) as (h1 & v & E1 & Hs1 & Hv).
  assert (wait_clear fuel w P_tfd (Z.lor ATA_DEV_BUSY ATA_DEV_DRQ) = Ok (mk_ahw h1 (mem w))) as ->.
  { destruct fuel; cbn [wait_clear]; unfold rd; rewrite E1, Hv; done. }
  cbn [mbind res_bind]. destruct (start_ok fuel (mk_ahw h1 (mem w)) s) as (w2 & -> & Hm2 & (k2 & Hs2 & Hk2)); [by exists k|done|]. cbn [mem mbind res_bind] in *.
  unfold wr. destruct (law_issue (hba w2) (mem w2) k2 slot Hs2 Hsl) as (h3 & k3 & -> & Hs3 & Hk3).
  destruct (wait_slot_ok slot m' k3 fuel (mk_ahw h3 (mem w2))) as (w4 & -> & Hm4 & Hi4); [done|cbn [mem]; congruence|lia|]. cbn [mbind res_bind].
  destruct (stop_ok fuel w4 true Hi4 Hf) as (w5 & -> & Hm5 & Hi5). cbn [mbind res_bind]. exists w5. split; [done|]. split; [congruence|done].
Qed.

Lemma find_slot_ok w s max : idles w s -> 0 < max -> exists w', ahci_find_cmdslot max w = (w', 0) /\ mem w' = mem w /\ idles w' s.
Proof.
  intros (k & Hs & Hk) Hm. unfold ahci_find_cmdslot, rd. destruct (law_slots (hba w) (mem w) s k P_sact Hs) as (h1 & -> & Hs1); [by left|]. cbn [hba mem].
  destruct (law_slots h1 (mem w) s k P_ci Hs1) as (h2 & -> & Hs2); [by right|].
  exists (mk_ahw h2 (mem w)). split; [|split; [done|by exists k]]. replace (Z.to_nat max) with (S (pred (Z.to_nat max))) by lia. done.
Qed.

(** The driver's side of slot 0: a header, a table and a buffer of 16 KiB, each where the
    controller looks for it. *)
Definition slot0_ok m : Prop := exists h hs t ts b bs tps bp bps,
  headers m = h :: hs /\ tables m = Some t :: ts /\ dma_buffers m = Some b :: bs /\ t_phys m = ctba h :: tps /\ b_phys m = bp :: bps /\
  zlen (cfis t) = 64 /\ zlen (acmd t) = 16 /\ zlen b = 16384.

Lemma store_first {A} (x y : A) l : Prelude.store (x :: l) 0 y = Ok (y :: l).
Proof. apply (store_app [] l). Qed.

Lemma load_first {A} (x : A) l : load (x :: l) 0 = Ok x.
Proof. done. Qed.

Lemma splice_all (l k : list Z) : zlen l = zlen k -> splice l 0 k = k.
Proof. intros E. rewrite splice_0, drop_ge by (unfold zlen in E; lia). apply app_nil_r. Qed.

Lemma slice_take (l : list Z) n : slice l 0 n = take (Z.to_nat n) l.
Proof. done. Qed.

(** A packet on an idle port: its answer is in the caller's buffer. *)
Lemma scsi_packet_ok fuel max w s packet len buffer data : idles w s -> slot0_ok (mem w) -> 0 < max -> (patience <= fuel)%nat ->
  16 <= zlen packet -> packet_response disc (take 16 packet) = Some data -> zlen data = len -> 0 < len <= 16384 -> len <= zlen buffer ->
  exists w', ahci_scsi_packet fuel max w packet len buffer = Ok (w', splice buffer 0 data, len) /\ idles w' false /\ slot0_ok (mem w').
Proof.
  intros Hi (h & hs & t & ts & b & bs & tps & bp & bps & Eh & Et & Eb & Etp & Ebp & Hc & Ha & Hb) Hm Hf Hp Hr Hd Hl Hbuf.
  unfold ahci_scsi_packet. destruct (find_slot_ok w s max Hi Hm) as (w1 & -> & Hm1 & Hi1). rewrite Hm1.
  unfold on_header. rewrite Eh, load_first. cbn [mbind res_bind]. rewrite store_first. cbn [mbind res_bind].
  unfold table_at. cbn [tables set_headers]. rewrite Et, load_first. cbn [mbind res_bind res_of_option b_phys set_headers]. rewrite Ebp, load_first. cbn [mbind res_bind].
  cbn [put_fis set_prdt cfis acmd prdt0 p_i]. rewrite memcpy_ok by lia. cbn [mbind res_bind]. rewrite slice_take. change (Z.to_nat 16) with 16%nat.
  assert (zlen (take 16 packet) = 16) as Htp by (unfold zlen in *; rewrite length_take; lia). rewrite (splice_all (acmd t)) by lia.
  unfold put_table. cbn [tables set_headers]. rewrite Et, store_first. cbn [mbind res_bind]. set (hd := mk_cmd_header 5 1 0 1 0 (ctba h)).
  set (fis := splice (cfis t) 0 _). rewrite (Z.mod_small (len - 1)) by lia. set (tb := mk_cmd_table fis (take 16 packet) _).
  assert (zlen fis = 64) as Hfis by (unfold fis; rewrite zlen_splice; [done|lia|change (zlen (reg_fis 160 0 8 8 0 0 0 0 0 0)) with 20; lia]).
  set (m1 := set_tables _ _). set (m2 := mk_dmem (set_h_prdbc hd len :: hs) (Some tb :: ts) (Some (splice b 0 data) :: bs) (ctba h :: tps) (bp :: bps)).
  assert (exec disc ident m1 0 = Some m2) as He.
  { unfold exec, m1. cbn [headers tables dma_buffers t_phys b_phys set_tables set_headers]. rewrite Eb, Etp, Ebp.
    change (get (hd :: hs) 0) with (Some hd). change (get (Some tb :: ts) 0) with (Some (Some tb)). change (get (Some b :: bs) 0) with (Some (Some b)).
    change (get (ctba h :: tps) 0) with (Some (ctba h)). change (get (bp :: bps) 0) with (Some bp). cbn [mbind option_bind].
    assert (response disc ident hd tb = Some data) as ->; [|cbn [mbind option_bind prdt0 tb dba dbc hd ctba]].
    { unfold response. cbn [cfl hd prdtl h_w h_a Z.eqb Pos.eqb andb tb acmd cfis].
      assert (slice fis 0 2 = [39; 128] /\ get fis 2 = Some 160) as [-> ->]; [|by rewrite bool_decide_true].
      unfold fis. rewrite splice_0. done. }
    rewrite Z.eqb_refl. rewrite Z.eqb_refl. destruct (Z.leb_spec (zlen data) (len - 1 + 1)); [|lia]. destruct (Z.leb_spec (zlen data) (zlen b)); [|lia].
    cbn [andb]. by rewrite Hd. }
  destruct (run_ok fuel (set_mem w1 m1) s 0 m2) as (w2 & -> & Hm2 & Hi2); [exact Hi1|exact He|lia|done|]. cbn [mbind res_bind].
  unfold buffer_at. rewrite Hm2. cbn [m2 dma_buffers headers]. rewrite !load_first. cbn [mbind res_bind res_of_option].
  assert (zlen (splice b 0 data) = 16384) as Hsp by (rewrite zlen_splice; lia). rewrite memcpy_ok by lia. cbn [mbind res_bind].
  rewrite slice_splice by lia. cbn [set_h_prdbc prdbc]. rewrite s32_small by lia.
  exists w2. split; [done|]. split; [done|]. exists (set_h_prdbc hd len), hs, tb, ts, (splice b 0 data), bs, tps, bp, bps. rewrite Hm2. by split_and!.
Qed.

(** READ(12), as the driver spells it. *)
Lemma read_packet_response start count junk : 0 <= start < 2 ^ 32 -> 0 <= count < 256 -> 4 <= zlen junk -> (start + count) * 2048 <= zlen disc ->
  packet_response disc (take 16 (rw_packet start count false ++ junk)) = Some (slice disc (start * 2048) (count * 2048)).
Proof.
  intros Hs Hc Hj Hd. rewrite take_app_ge by (cbn; lia). change (length (rw_packet start count false)) with 12%nat. change (16 - 12)%nat with 4%nat.
  assert (u8 count = count) as Ec by (by apply Z.mod_small). pose proof (be32_val start Hs) as Eb. unfold rw_packet, packet_response. cbn [app].
  change (get (_ :: _) 0) with (Some 168). cbv beta iota. unfold slice. change (Z.to_nat 2) with 2%nat. change (Z.to_nat 4) with 4%nat. change (Z.to_nat 6) with 6%nat. cbn [drop take].
  change [byte_of start 24; byte_of start 16; byte_of start 8; byte_of start 0] with (be32 start). rewrite Eb.
  assert (be_val [0; 0; 0; u8 count] = count) as -> by (unfold be_val; cbn [rev app le_val]; lia).
  destruct (Z.leb_spec ((start + count) * 2048) (zlen disc)); [done|lia].
Qed.

(** Reading sectors of an optical drive: on a port that is idle, up to eight sectors are the
    bytes of the disc there, whatever follows the packet on the stack; the port is idle again and
    its memory fit for the next command.  All the waits end. *)
Lemma ahci_sr_read_ok fuel max junk w s sector count buffer : idles w s -> slot0_ok (mem w) -> 0 < max -> (patience <= fuel)%nat -> 4 <= zlen junk ->
  0 <= sector < 2 ^ 32 -> 0 < count <= 8 -> (sector + count) * 2048 <= zlen disc -> count * 2048 <= zlen buffer ->
  exists w', ahci_sr_read fuel max junk w sector count buffer = Ok (w', splice buffer 0 (slice disc (sector * 2048) (count * 2048)), 0) /\
    idles w' false /\ slot0_ok (mem w').
Proof.
  intros Hi H0' Hm Hf Hj Hs Hc Hd Hb. unfold ahci_sr_read, ahci_rw_scsi.
  destruct (scsi_packet_ok fuel max w s (rw_packet sector count false ++ junk) (count * 2048) buffer (slice disc (sector * 2048) (count * 2048)))
    as (w' & -> & Hi' & H0''); try done; try lia.
  - rewrite zlen_app. change (zlen (rw_packet sector count false)) with 12. lia.
  - apply read_packet_response; lia || done.
  - apply zlen_slice; lia.
  - cbn [mbind res_bind]. destruct (Z.eqb_spec (count * 2048) 0); [lia|]. by exists w'.
Qed.

(** What the block layer may rely on: a port that is idle, with its memory. *)
Definition drive_ready w : Prop := (exists s, idles w s) /\ slot0_ok (mem w).

Lemma sr_disk_reads fuel max junk dev name : 0 < max -> (patience <= fuel)%nat -> 4 <= zlen junk -> ad_sector_size dev = 2048 -> zlen disc < 2 ^ 43 ->
  disk_reads drive_ready (fun _ => disc) (fun c => 0 < c <= 8) (sr_disk fuel max junk dev name).
Proof.
  intros Hm Hf Hj Hss Hd. eexists. split; [done|]. intros w sector count buf [[s Hi] H0'] Hc Hs _. cbn [cd_sector_size sr_disk]. rewrite Hss. intros Hl Hb.
  destruct (ahci_sr_read_ok fuel max junk w s sector count buf) as (w' & E & Hi' & H0''); try done; try lia.
  exists w', 0. split; [exact E|]. split; [lia|]. split; [|done]. split; [by exists false|done].
Qed.

(** C17: From the block layer down to the registers of the controller: a read of an optical drive
    through the block device that the disk class made of it brings the bytes of the disc, at any
    position and in any length, as long as it touches no more than eight sectors.  The controller
    is idle afterwards and ready for the next read. *)
Theorem optical_drive_read usable bfuel fuel max junk dev name disks disks' b l (w : blkw (dstate (D0 := ahw H))) dev_id blk shift adr tid buffer pos len :
  0 < max -> (patience <= fuel)%nat -> 4 <= zlen junk -> ad_sector_size dev = 2048 -> zlen disc < 2 ^ 43 ->
  zlen disks < 2 ^ 64 - 1 -> class_disk_bind disks (sr_disk fuel max junk dev name) = (disks', b) ->
  let bd := set_queue (set_initialized b true) None l in
  attached w dev_id blk bd shift -> idle w blk bd adr -> listed (internal_id b) (sr_disk fuel max junk dev name) (bdrv w) ->
  drive_ready (snd (bdrv w)) -> usable tid = true -> 0 <= pos -> 0 <= shift -> pos + shift < 2 ^ 64 -> 0 < len ->
  let n := sectors_of 2048 (pos + shift) len in n <= 8 -> ((pos + shift) / 2048 + n) * 2048 <= zlen disc -> len <= zlen buffer -> n <= Z.of_nat bfuel ->
  exists w' : blkw (dstate (D0 := ahw H)), dev_block_read usable bfuel w dev_id adr tid buffer pos len = Ok (w', splice buffer 0 (slice disc (pos + shift) len), 0) /\
    dev_array w' = dev_array w /\ brqs w' = brqs w /\ drive_ready (snd (bdrv w')).
Proof.
  intros Hm Hf Hj Hss Hd Hz Hbind bd Hat Hid Hli Hdr Hu Hpos Hsh Hps Hlen n Hn Hdl Hbl Hbf.
  pose proof (sr_disk_reads fuel max junk dev name Hm Hf Hj Hss Hd) as Hrd.
  destruct (class_disk_reads _ _ _ disks _ disks' b Hrd Hz Hbind) as (_ & (f & Hop & Hlaw) & _).
  assert (sector_size b = 2048 /\ burst_max b = 16) as [Es Eb].
  { unfold class_disk_bind in Hbind. destruct (rcparray_add disks _). injection Hbind as _ <-. by rewrite <- Hss. }
  destruct (sectors_bounds 2048 (pos + shift) len) as (Hn0 & Hn1 & Hn2); [lia|lia|lia|]. fold n in Hn0, Hn1, Hn2. pose proof (Z.mod_pos_bound (pos + shift) 2048 ltac:(lia)) as Hmod.
  assert (sector_size bd = 2048) as Esd by done. assert (burst_cap bd = 16) as Ecap by (unfold burst_cap; cbn [burst_max sector_size bd set_queue set_initialized]; rewrite Es, Eb; done).
  destruct (block_read_ok usable (fun st => listed (internal_id b) (sr_disk fuel max junk dev name) st /\ drive_ready (snd st)) (fun _ => disc) (fun c => 0 < c <= 8)
    bfuel w dev_id blk bd shift adr tid buffer pos len) as (w' & W & E & Ha & Hq & _ & [_ Hdr'] & _ & HW & H1); rewrite ?Esd, ?Ecap; fold n; try done; try lia.
  - by exists f.
  - cbn [burst_max bd set_queue set_initialized]. lia.
  - exists w'. rewrite Esd, Ecap in *. fold n in H1. rewrite (H1 ltac:(lia)) in E. done.
Qed.
(** The bytes of each word exchanged. *)
Fixpoint swapped (l : list Z) : list Z := match l with a :: b :: l => b :: a :: swapped l | _ => [] end.

Lemma slice_pair (l : list Z) off n : 0 <= off -> 0 <= n -> off + 2 + n <= zlen l ->
  exists a b, load l off = Ok a /\ load l (off + 1) = Ok b /\ slice l off (2 + n) = a :: b :: slice l (off + 2) n.
Proof.
  intros Ho Hn Hl. destruct (lookup_zlen l off) as [a Ha]; [lia|]. destruct (lookup_zlen l (off + 1)) as [b Hb]; [lia|]. exists a, b.
  rewrite (load_nat _ _ a), (load_nat _ _ b) by (lia || done). split_and!; [done|done|].
  rewrite <- (slice_join l off 2 n) by lia. unfold slice at 1. change (Z.to_nat 2) with 2%nat. replace (Z.to_nat (off + 1)) with (S (Z.to_nat off)) in Hb by lia.
  rewrite (drop_S _ _ _ Ha), (drop_S _ _ _ Hb). done.
Qed.

Lemma swap_model_ok identify n : forall i pre rest, zlen pre = i -> 54 + i + 2 * Z.of_nat n <= zlen identify -> (2 * n < length rest)%nat ->
  swap_model n i (pre ++ rest) identify = Ok (pre ++ swapped (slice identify (54 + i) (2 * Z.of_nat n)) ++ 0 :: drop (2 * n + 1) rest).
Proof.
  induction n as [|n IH]; intros i pre rest Hp Hid Hr; cbn [swap_model].
  - destruct rest as [|x rest]; [simpl in Hr; lia|]. by rewrite (store_app_at pre) by done.
  - destruct rest as [|x [|y rest]]; [cbn [length] in Hr; lia..|]. cbn [length] in Hr. pose proof (zlen_nonneg pre).
    destruct (slice_pair identify (54 + i) (2 * Z.of_nat n)) as (a & b & Ha & Hb & Es); [lia|lia|lia|].
    rewrite Hb, Ha. cbn [mbind res_bind]. rewrite (store_app_at pre) by done. cbn [mbind res_bind].
    replace (pre ++ b :: y :: rest) with ((pre ++ [b]) ++ y :: rest) by (by rewrite <- app_assoc).
    rewrite (store_app_at (pre ++ [b])) by (rewrite zlen_app; change (zlen [b]) with 1; lia). cbn [mbind res_bind].
    replace ((pre ++ [b]) ++ a :: rest) with ((pre ++ [b; a]) ++ rest) by (by rewrite <- !app_assoc).
    rewrite (IH (i + 2) (pre ++ [b; a])); [|rewrite zlen_app; change (zlen [b; a]) with 2; lia|lia|lia].
    replace (2 * Z.of_nat (S n)) with (2 + 2 * Z.of_nat n) by lia. rewrite Es. cbn [swapped]. rewrite <- !app_assoc. cbn [app].
    replace (54 + (i + 2)) with (54 + i + 2) by lia. replace (2 * S n + 1)%nat with (S (S (2 * n + 1))) by lia. done.
Qed.

(** The data area of slot 0 as [ahci_port_rebase] leaves it. *)
Definition prdt_ok m : Prop := exists t ts bp bps, tables m = Some t :: ts /\ b_phys m = bp :: bps /\ dba (prdt0 t) = bp /\ 511 <= dbc (prdt0 t).

(** Setting an optical drive up: the text of its model is read with the bytes of its words
    exchanged and terminated, its sectors have 2048 bytes, but the number of its sectors is one
    less than the disc has: what the drive reports is the last sector. *)
Theorem ahci_init_dev_drive fuel max junk w s dev : idles w s -> slot0_ok (mem w) -> prdt_ok (mem w) -> 0 < max -> (patience <= fuel)%nat ->
  4 <= zlen junk -> zlen ident = 512 -> 2048 <= zlen disc < 2 ^ 43 -> ad_atapi dev = true -> zlen (ad_model dev) = 64 ->
  exists w', ahci_init_dev fuel max junk w dev
    = Ok (w', mk_ahci_device (swapped (slice ident 54 40) ++ 0 :: drop 41 (ad_model dev)) (zlen disc / 2048 - 1) 2048 true, 0) /\ drive_ready w'.
Proof.
  intros Hi (h & hs & t & ts & b & bs & tps & bp & bps & Eh & Et & Eb & Etp & Ebp & Hc & Ha & Hb) (t' & ts' & bp' & bps' & Et' & Ebp' & Hdba & Hdbc) Hm Hf Hj Hid Hd Hat Hmod.
  rewrite Et in Et'. rewrite Ebp in Ebp'. injection Et' as <- <-. injection Ebp' as <- <-.
  unfold ahci_init_dev. destruct (find_slot_ok w s max Hi Hm) as (w1 & -> & Hm1 & Hi1). rewrite Hm1.
  unfold on_header. rewrite Eh, load_first. cbn [mbind res_bind]. rewrite store_first. cbn [mbind res_bind].
  unfold table_at. cbn [tables set_headers]. rewrite Et, load_first. cbn [mbind res_bind res_of_option].
  unfold put_table. cbn [tables set_headers]. rewrite Et, store_first. cbn [mbind res_bind]. rewrite Hat. set (hd := mk_cmd_header 5 0 0 1 0 (ctba h)).
  unfold put_fis. set (fis := splice (cfis t) 0 _). set (tb := mk_cmd_table fis (acmd t) (prdt0 t)).
  assert (zlen fis = 64) as Hfis by (unfold fis; rewrite zlen_splice; [done|lia|change (zlen (reg_fis 161 0 0 0 0 0 0 0 0 0)) with 20; lia]).
  set (m1 := set_tables _ _). set (m2 := mk_dmem (set_h_prdbc hd 512 :: hs) (Some tb :: ts) (Some (splice b 0 ident) :: bs) (ctba h :: tps) (bp :: bps)).
  assert (exec disc ident m1 0 = Some m2) as He.
  { unfold exec, m1. cbn [headers tables dma_buffers t_phys b_phys set_tables set_headers]. rewrite Eb, Etp, Ebp.
    change (get (hd :: hs) 0) with (Some hd). change (get (Some tb :: ts) 0) with (Some (Some tb)). change (get (Some b :: bs) 0) with (Some (Some b)).
    change (get (ctba h :: tps) 0) with (Some (ctba h)). change (get (bp :: bps) 0) with (Some bp). cbn [mbind option_bind].
    assert (response disc ident hd tb = Some ident) as ->; [|cbn [mbind option_bind prdt0 tb hd ctba]].
    { unfold response. cbn [cfl hd prdtl h_w h_a Z.eqb Pos.eqb andb tb acmd cfis].
      assert (slice fis 0 2 = [39; 128] /\ get fis 2 = Some 161) as [-> ->]; [|by rewrite bool_decide_true].
      unfold fis. rewrite splice_0. done. }
    rewrite Z.eqb_refl, Hdba, Z.eqb_refl. destruct (Z.leb_spec (zlen ident) (dbc (prdt0 t) + 1)); [|lia]. destruct (Z.leb_spec (zlen ident) (zlen b)); [|lia].
    cbn [andb]. by rewrite Hid. }
  destruct (run_ok fuel (set_mem w1 m1) s 0 m2) as (w2 & -> & Hm2 & Hi2); [exact Hi1|exact He|lia|done|]. cbn [mbind res_bind].
  unfold buffer_at. rewrite Hm2. cbn [m2 dma_buffers headers]. rewrite !load_first. cbn [mbind res_bind res_of_option].
  assert (zlen (splice b 0 ident) = 16384) as Hsp by (rewrite zlen_splice; lia).
  rewrite (swap_model_ok _ 20 0 [] (ad_model dev)); [|done|lia|unfold zlen in Hmod; lia]. cbn [mbind res_bind ad_atapi negb].
  change (2 * Z.of_nat 20) with 40. assert (slice (splice b 0 ident) (54 + 0) 40 = slice ident 54 40) as -> by (rewrite <- (Z.add_0_l (54 + 0)); apply slice_splice_in; lia).
  assert (0 <= zlen disc / 2048 - 1 < 2 ^ 32) as Hcap.
  { assert (1 <= zlen disc / 2048) by (apply Z.div_le_lower_bound; lia). assert (zlen disc / 2048 < 2 ^ 32) by (apply Z.div_lt_upper_bound; lia). lia. }
  destruct (scsi_packet_ok fuel max w2 false ([37; 0; 0; 0; 0; 0; 0; 0; 0; 0; 0; 0] ++ junk) 8 (replicate 8 0) (be32 (zlen disc / 2048 - 1) ++ be32 2048))
    as (w3 & -> & Hi3 & H03); try done; try lia.
  { rewrite Hm2. exists (set_h_prdbc hd 512), hs, tb, ts, (splice b 0 ident), bs, tps, bp, bps. by split_and!. }
  { rewrite zlen_app. change (zlen [37; 0; 0; 0; 0; 0; 0; 0; 0; 0; 0; 0]) with 12. lia. }
  cbn [mbind res_bind Z.eqb Pos.eqb]. rewrite splice_all by done.
  change (slice (be32 (zlen disc / 2048 - 1) ++ be32 2048) 0 4) with (be32 (zlen disc / 2048 - 1)).
  change (slice (be32 (zlen disc / 2048 - 1) ++ be32 2048) 4 4) with (be32 2048). rewrite !bswap_be32 by lia. cbn [Z.eqb Pos.eqb negb].
  exists w3. split; [done|]. split; [by exists false|done].
Qed.
End Laws.

(** ** Transfers that go wrong *)

(** What holds of a result, if there is one. *)
Definition yields {A} (r : res A) (P : A -> Prop) : Prop := match r with Ok a => P a | _ => True end.

Lemma yields_bind {A B} (r : res A) (f : A -> res B) P Q : yields r P -> (forall a, P a -> yields (f a) Q) -> yields (r ≫= f) Q.
Proof. destruct r; simpl; auto. Qed.

Lemma yields_any {A} (r : res A) : yields r (fun _ => True).
Proof. by destruct r. Qed.

(** A copy of more bytes than there are is a fault. *)
Lemma memcpy_short dst src n : zlen src < n -> yields (memcpy dst 0 src 0 n) (fun _ => False).
Proof.
  intros Hn. unfold memcpy. assert (forall k i d, 0 <= i <= zlen src -> zlen src < i + Z.of_nat k -> yields (memcpy_loop d 0 src 0 i k) (fun _ => False)) as Hl.
  { induction k as [|k IH]; intros i d Hi Hk; [lia|]. cbn [memcpy_loop]. rewrite !Z.add_0_l. destruct (decide (i = zlen src)) as [->|Hne].
    - unfold load. destruct (get src (zlen src)) as [x|] eqn:E; [|done]. apply get_Some in E as [_ E]. apply lookup_lt_Some in E. unfold zlen in E. lia.
    - eapply yields_bind; [apply yields_any|intros x _]. eapply yields_bind; [apply yields_any|intros d' _]. apply IH; lia. }
  pose proof (zlen_nonneg src). apply Hl; lia.
Qed.

Section Lies.
Context {H : Type} `{HbaPort H}.
Implicit Types (w : ahw H) (m : dmem).

(** A controller that writes where the tables lead it leaves the objects as long as they are. *)
Definition bounded m : Prop := Forall (fun o => match o with Some b => zlen b <= 16384 | None => True end) (dma_buffers m).
Context (Hrd : forall h m r, bounded m -> bounded (snd (fst (port_rd h m r)))) (Hwr : forall h m r v, bounded m -> bounded (snd (port_wr h m r v))).

Lemma rd_bounded w r : bounded (mem w) -> bounded (mem (fst (rd w r))).
Proof. intros Hb. unfold rd. pose proof (Hrd (hba w) (mem w) r Hb). by destruct (port_rd (hba w) (mem w) r) as [[h m] v]. Qed.

Lemma wr_bounded w r v : bounded (mem w) -> bounded (mem (wr w r v)).
Proof. intros Hb. unfold wr. pose proof (Hwr (hba w) (mem w) r v Hb). by destruct (port_wr (hba w) (mem w) r v) as [h m]. Qed.

Lemma wait_clear_bounded r mask fuel : forall w, bounded (mem w) -> yields (wait_clear fuel w r mask) (fun w' => bounded (mem w')).
Proof.
  induction fuel as [|f IH]; intros w Hb; cbn [wait_clear]; pose proof (rd_bounded w r Hb) as Hb'; destruct (rd w r) as [w' v]; destruct (_ =? 0); cbn [yields]; auto.
Qed.

Lemma cmd_bounded w b : bounded (mem w) -> bounded (mem (cmd_clear w b)) /\ bounded (mem (cmd_set w b)).
Proof. intros Hb. unfold cmd_clear, cmd_set. pose proof (rd_bounded w P_cmd Hb). destruct (rd w P_cmd) as [w' v]. split; by apply wr_bounded. Qed.

Lemma wait_slot_bounded slot fuel : forall w, bounded (mem w) -> yields (wait_slot fuel w slot) (fun '(w', _) => bounded (mem w')).
Proof.
  induction fuel as [|f IH]; intros w Hb; cbn [wait_slot]; pose proof (rd_bounded w P_ci Hb) as Hb1; destruct (rd w P_ci) as [w1 v1];
    pose proof (rd_bounded w1 P_is Hb1) as Hb2; destruct (rd w1 P_is) as [w2 v2]; cbn [fst] in *; repeat case_match; cbn [yields]; auto.
Qed.

Lemma run_bounded fuel w slot : bounded (mem w) -> yields (run_command fuel w slot) (fun '(w', _) => bounded (mem w')).
Proof.
  intros Hb. unfold run_command. eapply yields_bind; [by apply wait_clear_bounded|]. intros w1 Hb1. cbv beta in Hb1.
  unfold ahci_start_cmd. eapply yields_bind.
  { eapply yields_bind; [by apply wait_clear_bounded, cmd_bounded|]. intros w2 Hb2. cbn [yields]. instantiate (1 := fun w => bounded (mem w)).
    by apply cmd_bounded, cmd_bounded. }
  intros w2 Hb2. cbv beta in Hb2. eapply yields_bind; [by apply wait_slot_bounded, wr_bounded|]. intros [w3 failed] Hb3. destruct failed; [done|].
  unfold ahci_stop_cmd. eapply yields_bind; [eapply yields_bind; [by apply wait_clear_bounded, cmd_bounded|]|].
  - intros w4 Hb4. cbn [yields]. instantiate (1 := fun w => bounded (mem w)). by apply cmd_bounded.
  - done.
Qed.

(** More than eight sectors never arrive, whatever the controller does: the DMA buffer has 16
    KiB and the driver copies two KiB for each sector out of it.  When a read of nine sectors or
    more comes back at all, the command has failed, the caller's buffer is as it was, and the
    result is 0, which is success; the disk class allows bursts of sixteen sectors. *)
Theorem ahci_sr_read_long fuel max junk w sector count buffer : bounded (mem w) -> 8 < count < 2 ^ 16 ->
  yields (ahci_sr_read fuel max junk w sector count buffer) (fun '(_, buffer', v) => buffer' = buffer /\ v = 0).
Proof.
  intros Hb Hc. unfold ahci_sr_read, ahci_rw_scsi. eapply (yields_bind _ _ (fun '(_, b, v) => b = buffer /\ v = -1)); [|by intros [[w' b] v] [-> ->]].
  unfold ahci_scsi_packet, ahci_find_cmdslot. pose proof (rd_bounded w P_sact Hb) as Hb1. destruct (rd w P_sact) as [w1 v1]. cbn [fst] in Hb1.
  pose proof (rd_bounded w1 P_ci Hb1) as Hb2. destruct (rd w1 P_ci) as [w2 v2]. cbn [fst] in Hb2. set (slot := free_slot _ _ _).
  eapply (yields_bind _ _ bounded). { unfold on_header. eapply yields_bind; [apply yields_any|intros h _]. eapply yields_bind; [apply yields_any|by intros l _]. }
  intros m1 Hm1. eapply yields_bind; [apply yields_any|intros t _]. eapply yields_bind; [apply yields_any|intros a _]. eapply yields_bind; [apply yields_any|intros p _].
  eapply (yields_bind _ _ bounded). { unfold put_table. eapply yields_bind; [apply yields_any|by intros l _]. }
  intros m2 Hm2. eapply yields_bind; [by apply run_bounded|]. intros [w3 failed] Hb3. destruct failed; [done|].
  eapply (yields_bind _ _ (fun b => zlen b <= 16384)).
  { unfold buffer_at, load. destruct (get (dma_buffers (mem w3)) slot) as [o|] eqn:E; [|done]. apply get_Some in E as [_ E].
    pose proof (Forall_lookup_1 _ _ _ _ Hb3 E) as Hz. by destruct o. }
  intros b Hz. eapply (yields_bind _ _ (fun _ => False)); [|done].
  apply memcpy_short. lia.
Qed.
End Lies.

Lemma exec_bounded disc ident (m : dmem) slot m' : exec disc ident m slot = Some m' -> bounded m -> bounded m'.
Proof.
  unfold exec, bounded. intros E Hb. destruct (get (headers m) slot) as [h|]; [|done]. cbn [mbind option_bind] in E.
  destruct (get (tables m) slot) as [[t|]|]; try done. cbn [mbind option_bind] in E. destruct (get (dma_buffers m) slot) as [[b|]|] eqn:Eb; try done. cbn [mbind option_bind] in E.
  destruct (get (t_phys m) slot) as [tp|]; [|done]. destruct (get (b_phys m) slot) as [bp|]; [|done]. cbn [mbind option_bind] in E.
  destruct (response disc ident h t) as [data|]; [|done]. cbn [mbind option_bind] in E.
  destruct (Z.leb_spec (zlen data) (zlen b)); [|by rewrite andb_false_r in E]. destruct (_ && _); [|done]. injection E as <-. cbn [dma_buffers].
  apply Forall_insert; [done|]. rewrite zlen_splice by lia. apply get_Some in Eb as [_ Eb]. exact (Forall_lookup_1 _ _ _ _ Hb Eb).
Qed.

(** ** Ports to try it on: a controller that follows the laws, and one whose commands fail *)
Module AhciDemo.
(** The state of the engine; [None] is a command that failed. *)
Record demo_hba := mk_demo_hba { d_state : option port_state; d_fails : bool }.

Definition disc : list Z := replicate (Z.to_nat 8192) 7 ++ replicate (Z.to_nat 2048) 9 ++ replicate (Z.to_nat 2048) 5.
Definition ident : list Z := replicate 54 0 ++ bytes "EQUMD DVR-MO                            " ++ replicate 418 0.

Definition rd_port (h : demo_hba) (m : dmem) (r : preg) : demo_hba * dmem * Z :=
  match r, d_state h with
  | P_cmd, Some (Idle s k) => (mk_demo_hba (Some (Idle s (pred k))) (d_fails h), m, Z.lor (if s then 1 else 0) (if s || negb (k =? 0)%nat then 32768 else 0))
  | P_ci, Some (Running (S k) slot) => (mk_demo_hba (if d_fails h then None else Some (Running k slot)) (d_fails h), m, Z.shiftl 1 slot)
  | P_ci, Some (Running O slot) =>
      match exec disc ident m slot with
      | Some m' => (mk_demo_hba (Some (Idle true 0)) (d_fails h), m', 0)
      | None => (mk_demo_hba None (d_fails h), m, 0)
      end
  | P_is, None => (h, m, Z.shiftl 1 30)
  | _, _ => (h, m, 0)
  end.

Definition wr_port (h : demo_hba) (m : dmem) (r : preg) (v : Z) : demo_hba * dmem :=
  match r, d_state h with
  | P_cmd, Some (Idle _ _) => (mk_demo_hba (Some (Idle (Z.testbit v 0) 1)) (d_fails h), m)
  | P_ci, Some (Idle true _) => (mk_demo_hba (Some (Running 2 (Z.log2 v))) (d_fails h), m)
  | _, _ => (h, m)
  end.

#[global] Instance port : HbaPort demo_hba := {| port_rd := rd_port; port_wr := wr_port |}.

Definition st (h : demo_hba) (s : port_state) : Prop := h = mk_demo_hba (Some s) false /\ match s with Running _ slot => 0 <= slot | _ => True end.

#[global] Instance laws : HbaLaws demo_hba disc ident 2 st.
Proof.
  split; unfold st.
  - intros h m s k [-> _]. eexists _, 0. by split_and!.
  - intros h m s k r [-> _] [-> | ->]; eexists; by split.
  - intros h m s k [-> _]. eexists _, _. split_and!; [done|done|done|by destruct s, k|]. intros ->. by destruct k.
  - intros h m s k v [-> _]. eexists _, 1%nat. split_and!; [done|done|done|lia].
  - intros h m k slot [-> _] Hs. eexists _, 2%nat. split_and!; [done| |lia|lia]. rewrite Z.shiftl_1_l, Z.log2_pow2 by lia. done.
  - intros h m [s k|k slot] [-> Hs]; eexists _, 0; by split_and!.
  - intros h m k slot [-> Hs]. eexists _, _. split_and!; [done|done|done|]. rewrite Z.shiftl_spec, Z.sub_diag by lia. done.
  - intros h m slot m' [-> Hs] E. eexists _, 0. cbn [port_rd port rd_port d_state]. rewrite E. split_and!; [done|done|done|by rewrite Z.bits_0].
Qed.

Definition pages : list (Z * cmd_table * (Z * list Z)) :=
  [(4096, mk_cmd_table [] [] (mk_prdt 0 0 0), (16384, replicate (Z.to_nat 16384) 0))].
Definition blank : cmd_header := mk_cmd_header 0 0 0 0 0 0.
Definition w0 (fails : bool) : ahw demo_hba :=
  match ahci_port_rebase (mk_ahw (mk_demo_hba (Some (Idle false 0)) fails) (mk_dmem [] [] [] [] [])) 8192 12288 (replicate 128 blank) pages with
  | Ok w => w
  | _ => mk_ahw (mk_demo_hba None fails) (mk_dmem [] [] [] [] [])
  end.

Lemma w0_mem fails : mem (w0 fails) = mk_dmem (mk_cmd_header 0 0 0 1 0 4096 :: replicate 127 blank)
  (Some (mk_cmd_table (replicate 64 0) (replicate 16 0) (mk_prdt 16384 16384 1)) :: replicate 31 None)
  (Some (replicate (Z.to_nat 16384) 0) :: replicate 31 None) (4096 :: replicate 31 0) (16384 :: replicate 31 0).
Proof. reflexivity. Qed.

Lemma demo_rd_bounded (h : demo_hba) m r : bounded m -> bounded (snd (fst (port_rd h m r))).
Proof.
  intros Hb. cbn [port_rd port]. unfold rd_port. destruct r; try (by destruct (d_state h) as [[s k|[|k] slot]|]).
  destruct (d_state h) as [[s k|[|k] slot]|]; try done. destruct (exec disc ident m slot) as [m'|] eqn:E; [|done]. by eapply exec_bounded.
Qed.

Lemma demo_wr_bounded (h : demo_hba) m r v : bounded m -> bounded (snd (port_wr h m r v)).
Proof. intros Hb. cbn [port_wr port]. unfold wr_port. by destruct r, (d_state h) as [[[] k|k slot]|]. Qed.

Lemma w0_bounded fails : bounded (mem (w0 fails)).
Proof. rewrite w0_mem. unfold bounded. cbn [dma_buffers]. constructor; [done|]. by apply Forall_replicate. Qed.

Lemma w0_ready : drive_ready 2 st (w0 false).
Proof.
  split.
  - exists false, 0%nat. split; [|lia]. split; done.
  - rewrite w0_mem. eexists _, _, _, _, _, _, _, _, _. by split_and!.
Qed.
End AhciDemo.

(** The disk class made block device 0 of the drive. *)
Module DriveDemo.
Import AhciDemo.
Definition drive_dev : ahci_device := mk_ahci_device [] 5 2048 true.
Definition drive : class_disk (D0 := ahw demo_hba) := sr_disk 2 1 [1; 2; 3; 4] drive_dev (bytes "sra" ++ [0]).
Definition bound : rcparray (class_disk (D0 := ahw demo_hba)) * dev_block (dstate (D0 := ahw demo_hba)) := class_disk_bind [] drive.
Definition bd : dev_block (dstate (D0 := ahw demo_hba)) := set_queue (set_initialized (snd bound) true) None 0.
Definition w : blkw (dstate (D0 := ahw demo_hba)) :=
  mk_blkw [Some (mk_cell 1 true (mk_dev (bytes "sra" ++ [0]) DEV_TYPE_BLOCK 100))] {[100 := bd]} ∅ (fst bound, w0 false).
End DriveDemo.

Lemma optical_drive_read_witness : exists w',
  dev_block_read (fun _ => true) 2 DriveDemo.w 0 7 1 (replicate 8 0) 8190 6 = Ok (w', [7; 7; 9; 9; 9; 9; 0; 0], 0).
Proof.
  destruct (optical_drive_read AhciDemo.disc AhciDemo.ident 2 AhciDemo.st (fun _ => true) 2 2 1 [1; 2; 3; 4] DriveDemo.drive_dev (bytes "sra" ++ [0]) []
    (fst DriveDemo.bound) (snd DriveDemo.bound) 0 DriveDemo.w 0 100 0 7 1 (replicate 8 0) 8190 6) as (w' & E & _).
  - lia.
  - lia.
  - by vm_compute.
  - reflexivity.
  - by vm_compute.
  - by vm_compute.
  - reflexivity.
  - split; [lia| |reflexivity|reflexivity]. eexists. split; [reflexivity|]. split; [reflexivity|]. split; [done|]. split; [reflexivity|].
    exists DriveDemo.bd. split; [reflexivity|]. split; reflexivity.
  - split; [reflexivity|]. split; reflexivity.
  - eexists. split; [reflexivity|]. split; [reflexivity|]. split; [done|reflexivity].
  - apply AhciDemo.w0_ready.
  - reflexivity.
  - lia.
  - lia.
  - lia.
  - lia.
  - by vm_compute.
  - by vm_compute.
  - by vm_compute.
  - by vm_compute.
  - exists w'. rewrite E. vm_compute. reflexivity.
Defined.

Lemma ahci_init_dev_drive_witness : exists w' model, ahci_init_dev 2 1 [1; 2; 3; 4] (AhciDemo.w0 false) (mk_ahci_device (replicate 64 0) 0 0 true)
  = Ok (w', mk_ahci_device model 5 2048 true, 0) /\ take 12 model = bytes "QEMU DVD-ROM".
Proof.
  destruct (ahci_init_dev_drive AhciDemo.disc AhciDemo.ident 2 AhciDemo.st 2 1 [1; 2; 3; 4] (AhciDemo.w0 false) false (mk_ahci_device (replicate 64 0) 0 0 true)) as (w' & E & _).
  - exists 0%nat. split; [split; reflexivity|lia].
  - apply AhciDemo.w0_ready.
  - rewrite AhciDemo.w0_mem. eexists _, _, _, _. split; [reflexivity|]. split; [reflexivity|]. split; [reflexivity|cbn; lia].
  - lia.
  - lia.
  - by vm_compute.
  - by vm_compute.
  - by vm_compute.
  - reflexivity.
  - reflexivity.
  - eexists w', _. split; [rewrite E; vm_compute; reflexivity|reflexivity].
Defined.

Lemma ahci_sr_read_long_witness : exists w', ahci_sr_read 3 1 [1; 2; 3; 4] (AhciDemo.w0 true) 0 9 [1; 2; 3] = Ok (w', [1; 2; 3], 0).
Proof.
  pose proof (ahci_sr_read_long AhciDemo.demo_rd_bounded AhciDemo.demo_wr_bounded 3 1 [1; 2; 3; 4] (AhciDemo.w0 true) 0 9 [1; 2; 3] (AhciDemo.w0_bounded true) ltac:(lia)) as Hl.
  destruct (ahci_sr_read 3 1 [1; 2; 3; 4] (AhciDemo.w0 true) 0 9 [1; 2; 3]) as [[[w' b] v]| | |] eqn:E; [|vm_compute in E; discriminate E..].
  destruct Hl as [-> ->]. exists w'. reflexivity.
Defined.
