(* ===== verification/Vfs.v ===== *)
(** * fs/fs.c and fs/fd.c: mounts, open files and file descriptors

    A filesystem driver is a record of functions, NULL being [None], over a state [D] that stands
    for everything a driver touches: its own data, the devices and the caller's buffers, which are
    addresses here.  A driver is given its mount and does not write to it once mounted.  A
    [mount_t*] is an index into [mounts] and a [filesystem_t*] one into [filesystems]; following
    one to a NULL slot is a [Fault].  An operation runs with its table references held, the way
    the code takes them. *)
From S2P Require Import Prelude Strings Format Rcp Pool Path.

(** [path] is the memory of the mount path, NUL terminated; [[]] is the NULL pointer. *)
Record mount := mk_mount { mpath : list Z; mdev_id : Z; private_data : Z; mfs : Z }.

Definition set_mpath (m : mount) (p : list Z) (fs : Z) : mount :=
  mk_mount p (mdev_id m) (private_data m) fs.

(** [fs_handle_t] *)
Record fs_handle := mk_handle { h_ifd : Z; h_mount : Z }.

(** [file_ops_t]: which entries are set; an entry that is set is the [_fs_] function of its name. *)
Record file_ops := mk_ops {
  o_read : bool; o_write : bool; o_seek : bool; o_close : bool; o_ioctl : bool; o_readdir : bool; o_dup : bool }.

Record file_descriptor := mk_fd { f_ifd : Z; f_ops : file_ops }.

Definition open_ops : file_ops := mk_ops true true true true true true true.
Definition opendir_ops : file_ops := mk_ops true false true true true true false.

Section Vfs.
Context {D : Type}.

(** [filesystem_t] *)
Record filesystem := mk_filesystem {
  fs_name : list Z;
  op_mount : option (D -> mount -> res (D * mount * Z));
  op_open : option (D -> mount -> list Z -> Z -> res (D * Z));
  op_read : option (D -> mount -> Z -> Z -> Z -> res (D * Z));
  op_write : option (D -> mount -> Z -> Z -> Z -> res (D * Z));
  op_seek : option (D -> mount -> Z -> Z -> Z -> res (D * Z));
  op_close : option (D -> mount -> Z -> res (D * Z));
  op_ioctl : option (D -> mount -> Z -> Z -> Z -> res (D * Z));
  op_opendir : option (D -> mount -> list Z -> res (D * Z));
  op_readdir : option (D -> mount -> Z -> Z -> res (D * Z));
  op_finfo : option (D -> mount -> list Z -> Z -> res (D * Z));
  op_dup : option (D -> mount -> Z -> res (D * Z)) }.

(** The tables of fs.c and fd.c; [devices] holds the names in [dev_array]. *)
Record vfs := mk_vfs {
  filesystems : rcparray filesystem;
  mounts : rcparray mount;
  handles : rcparray fs_handle;
  fds : rcparray file_descriptor;
  devices : rcparray (list Z);
  drv : D }.

Definition set_filesystems (s : vfs) x := mk_vfs x (mounts s) (handles s) (fds s) (devices s) (drv s).
Definition set_mounts (s : vfs) x := mk_vfs (filesystems s) x (handles s) (fds s) (devices s) (drv s).
Definition set_handles (s : vfs) x := mk_vfs (filesystems s) (mounts s) x (fds s) (devices s) (drv s).
Definition set_fds (s : vfs) x := mk_vfs (filesystems s) (mounts s) (handles s) x (devices s) (drv s).
Definition set_devices (s : vfs) x := mk_vfs (filesystems s) (mounts s) (handles s) (fds s) x (drv s).
Definition set_drv (s : vfs) x := mk_vfs (filesystems s) (mounts s) (handles s) (fds s) (devices s) x.

(** [mount->fs->op], a NULL entry faulting when it is called. *)
Definition fs_op {A} (s : vfs) (m : mount) (sel : filesystem -> option A) : res A :=
  c ← res_of_option (arr_slot (filesystems s) (mfs m));
  res_of_option (sel (value c)).

(** A dereferenced [mount_t*]. *)
Definition mount_at (s : vfs) (id : Z) : res mount :=
  c ← res_of_option (arr_slot (mounts s) id); Ok (value c).

(** ** Filesystems and mounts *)

Definition fs_register (s : vfs) (fs : filesystem) : vfs :=
  set_filesystems s (fst (rcparray_add (filesystems s) fs)).

(** [dev_name2id] of dev/name.c; [id] is an [int]. *)
Definition dev_name2id (devs : rcparray (list Z)) (name : list Z) : rcparray (list Z) * Z :=
  let '(devs', o) := rcparray_find devs (fun n => match strcmp n name with Ok v => v =? 0 | _ => false end) in
  match o with
  | None => (devs', - rc ENODEV)
  | Some (id, _) => (rcparray_unref devs' id, id)
  end.

(** The loop of [fs_get_mount]. *)
Fixpoint get_mount_loop (fuel : nat) (ms : rcparray mount) (path : list Z) (mnt_id sel_id spec_len : Z)
  : res (rcparray mount * Z * Z) :=
  if foreach_more ms mnt_id then
    match fuel with
    | O => OutOfFuel
    | S f =>
        let '(ms, o) := rcparray_get ms mnt_id in
        match o with
        | None => Fault
        | Some mount =>
            n ← strlen (mpath mount);
            let path_len := s32 (n - 1) in
            c ← memcmp (mpath mount) path (Z.to_nat (u64 path_len));
            let hit := (c =? 0) && (path_len >=? spec_len) in
            get_mount_loop f (rcparray_unref ms mnt_id) path (mnt_id + 1)
              (if hit then s32 mnt_id else sel_id) (if hit then path_len else spec_len)
        end
    end
  else Ok (ms, sel_id, spec_len).

(** The mount id and [*new_path]. *)
Definition fs_get_mount (s : vfs) (path : list Z) : res (vfs * Z * list Z) :=
  '(ms, sel_id, spec_len) ← get_mount_loop (length (mounts s)) (mounts s) path 0 (- rc ENOENT) 0;
  let s := set_mounts s ms in
  if is_error sel_id then Ok (s, sel_id, [])
  else
    c ← load path spec_len;
    Ok (s, sel_id, if negb (c =? 47) then bytes "/" ++ [0] else drop (Z.to_nat spec_len) path).

(** The common part of [fs_open], [fs_opendir] and [fs_finfo]: find the mount, hold it over the
    driver's call, let it go. *)
Definition on_mount (s : vfs) (path : list Z)
    (sel : filesystem -> option (D -> mount -> list Z -> res (D * Z))) : res (vfs * Z * Z) :=
  '(s, mount_id, new_path) ← fs_get_mount s path;
  if is_error mount_id then Ok (s, mount_id, mount_id)
  else
    let '(ms, o) := rcparray_get (mounts s) mount_id in
    match o with
    | None => Fault
    | Some mount =>
        op ← fs_op s mount sel;
        '(d, ret) ← op (drv s) mount new_path;
        Ok (set_drv (set_mounts s (rcparray_unref ms mount_id)) d, mount_id, ret)
    end.

Definition fs_finfo (s : vfs) (path : list Z) (finfo : Z) : res (vfs * Z) :=
  '(s, _, ret) ← on_mount s path (fun fs => (fun f d m p => f d m p finfo) <$> op_finfo fs);
  if is_error ret then Ok (s, ret) else Ok (s, 0).

Definition fs_exists (s : vfs) (path : list Z) (finfo : Z) : res (vfs * bool) :=
  '(s, r) ← fs_finfo s path finfo;
  Ok (s, r =? 0).

(** The string [fs_mount] keeps: the path with a slash at its end. *)
Definition mount_path (path scratch : list Z) : res (list Z) :=
  len ← strlen path;
  let path' := if len =? 0 then bytes "/" ++ [0] else path in
  c ← load path' (len - 1);
  '(p, _) ← snprintf (heap_object (len + 3)) (len + 2)
              (if negb (c =? 47) then bytes "%s/" ++ [0] else bytes "%s" ++ [0]) [VStr path'] scratch;
  Ok p.

(** The loop of [fs_mount] over the registered filesystems.  A filesystem of another name is left
    referenced, as in the code. *)
Fixpoint mount_loop (fuel : nat) (s : vfs) (mnt : mount) (path : list Z) (fsname : option (list Z))
    (scratch : list Z) (fs_id ret : Z) : res (vfs * mount * Z) :=
  if foreach_more (filesystems s) fs_id then
    match fuel with
    | O => OutOfFuel
    | S f =>
        let '(fss, o) := rcparray_get (filesystems s) fs_id in
        let s := set_filesystems s fss in
        match o with
        | None => Fault
        | Some fs =>
            same ← (match fsname with None => Ok 0 | Some n => strcmp (fs_name fs) n end);
            if same =? 0 then
              op ← res_of_option (op_mount fs);
              '(d, mnt, ret) ← op (drv s) mnt;
              let s := set_drv s d in
              let s' := set_filesystems s (rcparray_unref (filesystems s) fs_id) in
              if is_error ret then mount_loop f s' mnt path fsname scratch (fs_id + 1) ret
              else p ← mount_path path scratch; Ok (s', set_mpath mnt p fs_id, ret)
            else mount_loop f s mnt path fsname scratch (fs_id + 1) ret
        end
    end
  else Ok (s, mnt, ret).

(** [finfo_tmp] is the address of the local [finfo_t]. *)
Definition fs_mount (s : vfs) (dev : option (list Z)) (path : list Z) (fsname : option (list Z))
    (finfo_tmp : Z) (scratch : list Z) : res (vfs * Z) :=
  let '(s, dev_id) :=
    match dev with
    | None => (s, -1)
    | Some n => let '(devs, id) := dev_name2id (devices s) n in (set_devices s devs, id)
    end in
  if match dev with Some _ => is_error dev_id | None => false end then Ok (s, dev_id)
  else
    root ← strcmp path (bytes "/" ++ [0]);
    '(s, fcode) ← (if root =? 0 then Ok (s, 0) else fs_finfo s path finfo_tmp);
    if is_error fcode then Ok (s, fcode)
    else
      '(s, mnt, ret) ← mount_loop (length (filesystems s)) s (mk_mount [] dev_id 0 0) path fsname scratch 0 (- rc EINVAL);
      if is_error ret then Ok (s, - rc ENOENT)
      else
        let '(ms, id) := rcparray_add (mounts s) mnt in
        Ok (set_mounts s ms, s32 id).

(** ** File handles *)

Definition handle_add (s : vfs) (h : fs_handle) : vfs * Z :=
  let '(hs, id) := rcparray_add (handles s) h in (set_handles s hs, s32 id).

Definition fd_add (s : vfs) (fd : file_descriptor) : vfs * Z :=
  let '(f, id) := rcparray_add (fds s) fd in (set_fds s f, s32 id).

Definition fs_open (s : vfs) (path : list Z) (mode : Z) : res (vfs * Z) :=
  '(s, mount_id, ret) ← on_mount s path (fun fs => (fun f d m p => f d m p mode) <$> op_open fs);
  if is_error ret then Ok (s, ret)
  else
    let '(s, fs_fd) := handle_add s (mk_handle ret mount_id) in
    Ok (fd_add s (mk_fd fs_fd open_ops)).

Definition fs_opendir (s : vfs) (path : list Z) : res (vfs * Z) :=
  '(s, mount_id, ret) ← on_mount s path op_opendir;
  if is_error ret then Ok (s, ret)
  else
    let '(s, fs_fd) := handle_add s (mk_handle ret mount_id) in
    Ok (fd_add s (mk_fd fs_fd opendir_ops)).

(** The common shape of [_fs_read], [_fs_write], [_fs_seek], [_fs_ioctl] and [_fs_readdir]: the
    handle is held over the driver's call. *)
Definition handle_call (s : vfs) (fd : Z)
    (sel : filesystem -> option (D -> mount -> Z -> res (D * Z))) : res (vfs * Z) :=
  let '(hs, o) := rcparray_get (handles s) fd in
  match o with
  | None => Ok (set_handles s hs, - rc EBADF)
  | Some handle =>
      m ← mount_at s (h_mount handle);
      op ← fs_op s m sel;
      '(d, ret) ← op (drv s) m (h_ifd handle);
      Ok (set_drv (set_handles s (rcparray_unref hs fd)) d, ret)
  end.

Definition _fs_read (s : vfs) (fd buffer len : Z) : res (vfs * Z) :=
  handle_call s fd (fun fs => (fun f d m i => f d m i buffer len) <$> op_read fs).

Definition _fs_write (s : vfs) (fd buffer len : Z) : res (vfs * Z) :=
  handle_call s fd (fun fs => (fun f d m i => f d m i buffer len) <$> op_write fs).

Definition _fs_seek (s : vfs) (fd offset mode : Z) : res (vfs * Z) :=
  handle_call s fd (fun fs => (fun f d m i => f d m i offset mode) <$> op_seek fs).

Definition _fs_ioctl (s : vfs) (fd code data : Z) : res (vfs * Z) :=
  handle_call s fd (fun fs => (fun f d m i => f d m i code data) <$> op_ioctl fs).

Definition _fs_readdir (s : vfs) (fd dentry_dst : Z) : res (vfs * Z) :=
  handle_call s fd (fun fs => (fun f d m i => f d m i dentry_dst) <$> op_readdir fs).

Definition _fs_close (s : vfs) (fd : Z) : res (vfs * Z) :=
  let '(hs, o) := rcparray_get (handles s) fd in
  match o with
  | None => Ok (set_handles s hs, - rc EBADF)
  | Some copy =>
      let s := set_handles s (fst (rcparray_remove (rcparray_unref hs fd) fd)) in
      m ← mount_at s (h_mount copy);
      op ← fs_op s m op_close;
      '(d, ret) ← op (drv s) m (h_ifd copy);
      Ok (set_drv s d, ret)
  end.

Definition _fs_dup (s : vfs) (fd : Z) : res (vfs * Z) :=
  let '(hs, o) := rcparray_get (handles s) fd in
  match o with
  | None => Ok (set_handles s hs, - rc EBADF)
  | Some handle =>
      m ← mount_at s (h_mount handle);
      op ← fs_op s m op_dup;
      '(d, ret) ← op (drv s) m (h_ifd handle);
      let s := set_drv s d in
      if is_error ret then Ok (set_handles s (rcparray_unref hs fd), ret)
      else
        let '(hs, fd_new) := rcparray_add hs (mk_handle (h_ifd handle) (h_mount handle)) in
        Ok (set_handles s (rcparray_unref hs fd), s32 fd_new)
  end.

(** ** File descriptors, fs/fd.c *)

(** [_fd->ops.f(_fd->ifd, ...)] with the descriptor held. *)
Definition fd_call (s : vfs) (fd : Z) (set : file_ops -> bool) (f : vfs -> Z -> res (vfs * Z)) : res (vfs * Z) :=
  let '(fs, o) := rcparray_get (fds s) fd in
  match o with
  | None => Ok (set_fds s fs, - rc EBADF)
  | Some _fd =>
      if set (f_ops _fd) then
        '(s, ret) ← f (set_fds s fs) (f_ifd _fd);
        Ok (set_fds s (rcparray_unref (fds s) fd), ret)
      else Fault
  end.

Definition fd_read (s : vfs) (fd buffer len : Z) := fd_call s fd o_read (fun s i => _fs_read s i buffer len).
Definition fd_write (s : vfs) (fd buffer len : Z) := fd_call s fd o_write (fun s i => _fs_write s i buffer len).
Definition fd_seek (s : vfs) (fd len mode : Z) := fd_call s fd o_seek (fun s i => _fs_seek s i len mode).
Definition fd_ioctl (s : vfs) (fd code data : Z) := fd_call s fd o_ioctl (fun s i => _fs_ioctl s i code data).
Definition fd_readdir (s : vfs) (fd dentry_dst : Z) := fd_call s fd o_readdir (fun s i => _fs_readdir s i dentry_dst).

(** The part under [close_lock] takes the descriptor out of the table; the close follows. *)
Definition fd_close (s : vfs) (fd : Z) : res (vfs * Z) :=
  let '(fs, o) := rcparray_get (fds s) fd in
  match o with
  | None => Ok (set_fds s fs, - rc EBADF)
  | Some copy =>
      let s := set_fds s (fst (rcparray_remove (rcparray_unref fs fd) fd)) in
      if o_close (f_ops copy) then _fs_close s (f_ifd copy) else Fault
  end.

Definition fd_dup (s : vfs) (fd : Z) : res (vfs * Z) :=
  let '(fs, o) := rcparray_get (fds s) fd in
  match o with
  | None => Ok (set_fds s fs, - rc EBADF)
  | Some _fd =>
      if o_dup (f_ops _fd) then
        '(s, ret) ← _fs_dup (set_fds s fs) (f_ifd _fd);
        if is_error ret then Ok (set_fds s (rcparray_unref (fds s) fd), ret)
        else
          let '(s, ret) := fd_add s (mk_fd ret (f_ops _fd)) in
          Ok (set_fds s (rcparray_unref (fds s) fd), ret)
      else Fault
  end.

End Vfs.

Arguments filesystem D : clear implicits.
Arguments vfs D : clear implicits.

(** ** Tables between calls *)
Section Quiet.
Context {A : Type}.
Implicit Types (a : rcparray A) (c : cell A).

(** Nobody but the table itself refers to an entry. *)
Definition quiet (a : rcparray A) : Prop := forall id c, arr_slot a id = Some c -> present c = true /\ refs c = 1.

Definition small (a : rcparray A) : Prop := zlen a < 2 ^ 31 - 1.

Lemma slot_id a id c : small a -> arr_slot a id = Some c -> 0 <= id < 2 ^ 31 - 1.
Proof. unfold small. intros ? H%arr_slot_range. lia. Qed.

Lemma arr_set_twice a id o o' : arr_set (arr_set a id o) id o' = arr_set a id o'.
Proof. apply list_insert_insert_eq. Qed.

Lemma arr_set_same a id c : arr_slot a id = Some c -> arr_set a id (Some c) = a.
Proof. intros [_ H]%arr_slot_Some. by apply list_insert_id. Qed.

(** A reference taken on a live entry and given back leaves the table as it was. *)
Lemma get_hit a id c : arr_slot a id = Some c -> small a -> present c = true ->
  rcparray_get a id = (arr_set a id (Some (set_refs c (refs c + 1))), Some (value c)).
Proof. intros Hc Hs Hp. pose proof (slot_id a id c Hs Hc). rewrite rcparray_get_eq by lia. by rewrite Hc, Hp. Qed.

Lemma unref_held_any a id c : arr_slot a id = Some c -> zlen a < 2 ^ 64 -> counted c ->
  rcparray_unref (arr_set a id (Some (set_refs c (refs c + 1)))) id = a.
Proof.
  intros Hc Hs Hr. pose proof (arr_slot_range a id c Hc). rewrite rcparray_unref_eq by lia.
  rewrite arr_slot_set, drop_taken by done. rewrite arr_set_twice. by apply arr_set_same.
Qed.

Lemma unref_held a id c : arr_slot a id = Some c -> small a -> counted c ->
  rcparray_unref (arr_set a id (Some (set_refs c (refs c + 1)))) id = a.
Proof. unfold small. intros. apply unref_held_any; [done|lia|done]. Qed.

Lemma get_miss a id : 0 <= id < 2 ^ 64 -> arr_slot a id = None -> rcparray_get a id = (a, None).
Proof. intros Hi Hn. rewrite rcparray_get_eq by lia. by rewrite Hn. Qed.

(** Whatever the [int], what [rcparray_get] does on a quiet table. *)
Lemma get_cases a id : quiet a -> small a -> - 2 ^ 31 <= id < 2 ^ 31 ->
  (exists c, arr_slot a id = Some c /\ rcparray_get a id = (arr_set a id (Some (set_refs c (refs c + 1))), Some (value c)))
  \/ (arr_slot a id = None /\ rcparray_get a id = (a, None)).
Proof.
  intros Hq Hs Hi. destruct (Z.lt_ge_cases id 0) as [Hneg|Hpos].
  - right. split; [unfold arr_slot, get; destruct (Z.leb_spec 0 id); [lia|done]|].
    unfold rcparray_get. assert (u64 id = id + 2 ^ 64) as ->.
    { unfold u64. rewrite <- (Z.mod_add id 1) by lia. rewrite Z.mul_1_l. apply Z.mod_small. lia. }
    rewrite Z.geb_leb. unfold small in Hs. destruct (Z.leb_spec (zlen a) (id + 2 ^ 64)); [done|lia].
  - destruct (arr_slot a id) as [c|] eqn:E; [left|right; split; [done|apply get_miss; [lia|done]]].
    exists c. split; [done|]. apply get_hit; [done|done|]. by apply Hq in E as [? _].
Qed.

(** A listed entry nobody holds is released by [rcparray_unref] and [rcparray_remove]. *)
Lemma remove_held a id c : arr_slot a id = Some c -> small a -> refs c = 1 ->
  fst (rcparray_remove (rcparray_unref (arr_set a id (Some (set_refs c (refs c + 1)))) id) id) = arr_set a id None.
Proof.
  intros Hc Hs Hr. pose proof (slot_id a id c Hs Hc). rewrite unref_held by (done || unfold counted; lia).
  rewrite rcparray_remove_eq by lia. rewrite Hc. simpl. unfold retire. by rewrite Hr.
Qed.

Lemma first_null_held a id c x : arr_slot a id = Some c -> forall i, first_null (arr_set a id (Some x)) i = first_null a i.
Proof.
  intros [Hi H]%arr_slot_Some. unfold arr_set. revert H. generalize (Z.to_nat id). clear id Hi.
  induction a as [|[y|] a IH]; intros [|n] H i; simplify_eq/=; try done. by apply IH.
Qed.

(** A reference held over [rcparray_add] does not disturb it. *)
Lemma add_held a id c v : arr_slot a id = Some c -> small a -> counted c ->
  rcparray_add (arr_set a id (Some (set_refs c (refs c + 1)))) v
  = (arr_set (fst (rcparray_add a v)) id (Some (set_refs c (refs c + 1))), snd (rcparray_add a v)) /\
  rcparray_unref (arr_set (fst (rcparray_add a v)) id (Some (set_refs c (refs c + 1)))) id = fst (rcparray_add a v).
Proof.
  intros Hc Hs Hr. pose proof (arr_slot_range a id c Hc). pose proof (rcparray_add_spec a v) as Hadd.
  assert (arr_slot (fst (rcparray_add a v)) id = Some c -> zlen (fst (rcparray_add a v)) <= zlen a + 1 ->
    rcparray_unref (arr_set (fst (rcparray_add a v)) id (Some (set_refs c (refs c + 1)))) id = fst (rcparray_add a v)) as Hback
    by (unfold small in Hs; intros; apply unref_held_any; [done|lia|done]).
  unfold rcparray_add in *. rewrite (first_null_held a id c) by done. rewrite zlen_arr_set.
  destruct (first_null a 0) as [k|] eqn:E; destruct Hadd as (Hk & Hnone & _ & [_ Hoth] & Hlen); simpl in *.
  - assert (id <> k) by (intros ->; congruence). split.
    + f_equal. unfold arr_set. apply list_insert_insert_ne. lia.
    + unfold small in Hs. apply Hback; [|done]. rewrite <- Hc. apply Hoth; lia.
  - split; [f_equal; unfold arr_set; symmetry; apply insert_app_l; unfold zlen in *; lia|].
    unfold small in Hs. apply Hback; [|done]. rewrite <- Hc. apply Hoth; lia.
Qed.

Lemma quiet_add a v : quiet a -> small a -> quiet (fst (rcparray_add a v)).
Proof.
  intros Hq Hs id c Hc. pose proof (rcparray_add_spec a v) as Hadd.
  destruct (rcparray_add a v) as [a' k]; destruct Hadd as (Hk & _ & _ & [Hk' Hoth] & Hl). simpl in *.
  unfold small in Hs. pose proof (arr_slot_range _ _ _ Hc). destruct (decide (id = k)) as [->|].
  - rewrite Hk' in Hc. by simplify_eq.
  - rewrite Hoth in Hc by lia. by apply Hq in Hc.
Qed.

Lemma quiet_clear a id : quiet a -> 0 <= id < zlen a -> quiet (arr_set a id None).
Proof.
  intros Hq Hi j c Hc. destruct (decide (j = id)) as [->|].
  - by rewrite arr_slot_set in Hc.
  - rewrite arr_slot_set_ne in Hc by (done || lia). by apply Hq in Hc.
Qed.

(** What a fresh entry changes. *)
Lemma add_slots a v : small a -> exists id,
  rcparray_add a v = (fst (rcparray_add a v), id) /\ 0 <= id < 2 ^ 31 - 1 /\ s32 id = id /\ arr_slot a id = None /\
  arr_slot (fst (rcparray_add a v)) id = Some (mk_cell 1 true v) /\
  forall j, j <> id -> arr_slot (fst (rcparray_add a v)) j = arr_slot a j.
Proof.
  intros Hs. pose proof (rcparray_add_spec a v) as Hadd.
  destruct (rcparray_add a v) as [a' k]; destruct Hadd as (Hk & Hn & _ & [Hk' Hoth] & Hl). simpl in *.
  unfold small in Hs. exists k. split_and!; try done; try lia; [by apply s32_small; lia|].
  intros j Hj. destruct (decide (0 <= j < 2 ^ 64)); [by apply Hoth|].
  destruct (arr_slot a' j) as [c|] eqn:E; [apply arr_slot_range in E; lia|].
  destruct (arr_slot a j) as [c|] eqn:E2; [apply arr_slot_range in E2; lia|done].
Qed.
End Quiet.

(** ** The state between system calls *)
Section VfsLaws.
Context {D : Type}.
Implicit Types (s : vfs D).

Definition full {A} (a : rcparray A) : Prop := forall i, 0 <= i < zlen a -> arr_slot a i <> None.

(** A mount path: the text before its last slash, which names the mounted directory. *)
Definition mount_text (m : mount) (p : list Z) : Prop :=
  nonul p /\ zlen p < 2 ^ 31 - 1 /\ exists r, mpath m = p ++ 47 :: 0 :: r.

(** Every descriptor has its own handle, every handle a mount, every mount a filesystem; nobody
    holds a reference. *)
Record wf (s : vfs D) : Prop := {
  wf_fs : forall id c, arr_slot (filesystems s) id = Some c -> present c = true /\ counted c;
  wf_fs_full : full (filesystems s);
  wf_mounts : quiet (mounts s);
  wf_mounts_full : full (mounts s);
  wf_handles : quiet (handles s);
  wf_fds : quiet (fds s);
  wf_mount_fs : forall id c, arr_slot (mounts s) id = Some c -> is_Some (arr_slot (filesystems s) (mfs (value c)));
  wf_mount_path : forall id c, arr_slot (mounts s) id = Some c -> exists p, mount_text (value c) p;
  wf_handle_mount : forall id c, arr_slot (handles s) id = Some c -> is_Some (arr_slot (mounts s) (h_mount (value c)));
  wf_fd_handle : forall id c, arr_slot (fds s) id = Some c -> is_Some (arr_slot (handles s) (f_ifd (value c)));
  wf_fd_inj : forall i j c d, arr_slot (fds s) i = Some c -> arr_slot (fds s) j = Some d ->
    f_ifd (value c) = f_ifd (value d) -> i = j }.

(** No table is close to [2^31] entries. *)
Definition smalls (s : vfs D) : Prop :=
  small (filesystems s) /\ small (mounts s) /\ small (handles s) /\ small (fds s).

(** What [fd] leads to: descriptor, handle, mount and filesystem. *)
Definition resolves (s : vfs D) (fd : Z) (f : file_descriptor) (h : fs_handle) (m : mount) (fs : filesystem D) : Prop :=
  exists cf ch cm cs, arr_slot (fds s) fd = Some cf /\ value cf = f /\
    arr_slot (handles s) (f_ifd f) = Some ch /\ value ch = h /\
    arr_slot (mounts s) (h_mount h) = Some cm /\ value cm = m /\
    arr_slot (filesystems s) (mfs m) = Some cs /\ value cs = fs.

Lemma wf_resolves s fd c : wf s -> arr_slot (fds s) fd = Some c ->
  exists h m fs, resolves s fd (value c) h m fs.
Proof.
  intros Hw Hc. destruct (wf_fd_handle s Hw fd c Hc) as [ch Hch].
  destruct (wf_handle_mount s Hw _ ch Hch) as [cm Hcm]. destruct (wf_mount_fs s Hw _ cm Hcm) as [cs Hcs].
  exists (value ch), (value cm), (value cs), c, ch, cm, cs. done.
Qed.

(** A handle operation is the driver's operation on the handle's file. *)
Lemma handle_call_hit s fd sel ch cm cs : arr_slot (handles s) fd = Some ch -> small (handles s) ->
  present ch = true -> refs ch = 1 -> arr_slot (mounts s) (h_mount (value ch)) = Some cm ->
  arr_slot (filesystems s) (mfs (value cm)) = Some cs ->
  handle_call s fd sel = (op ← res_of_option (sel (value cs));
                          '(d, ret) ← op (drv s) (value cm) (h_ifd (value ch)); Ok (set_drv s d, ret)).
Proof.
  intros Hh Hs Hp Hr Hm Hf. unfold handle_call. rewrite (get_hit _ _ ch) by done.
  unfold mount_at, fs_op. rewrite Hm. cbn [res_of_option mbind res_bind]. rewrite Hf. cbn [res_of_option mbind res_bind].
  destruct (sel (value cs)) as [op|]; [|done]. cbn [res_of_option mbind res_bind].
  destruct (op (drv s) (value cm) (h_ifd (value ch))) as [[d ret]| | |]; try done. cbn [mbind res_bind].
  rewrite unref_held by (done || unfold counted; lia). by destruct s.
Qed.

(** A descriptor operation on a resolved descriptor. *)
Lemma fd_call_hit s fd f h m fs set sel : wf s -> smalls s -> resolves s fd f h m fs ->
  fd_call s fd set (fun s i => handle_call s i sel)
  = if set (f_ops f) then
      op ← res_of_option (sel fs); '(d, ret) ← op (drv s) m (h_ifd h); Ok (set_drv s d, ret)
    else Fault.
Proof.
  intros Hw (_ & Hsm & Hsh & Hsf) (cf & ch & cm & cs & Hf & <- & Hh & <- & Hm & <- & Hfs & <-).
  destruct (wf_fds s Hw _ _ Hf) as [Hp Hr]. destruct (wf_handles s Hw _ _ Hh) as [Hph Hrh].
  unfold fd_call. rewrite (get_hit _ _ cf) by done. destruct (set (f_ops (value cf))); [|done].
  rewrite (handle_call_hit _ _ _ ch cm cs) by done.
  destruct (sel (value cs)) as [op|]; [|done]. cbn [res_of_option mbind res_bind].
  change (drv (set_fds s ?x)) with (drv s).
  destruct (op (drv s) (value cm) (h_ifd (value ch))) as [[d ret]| | |]; try done. cbn [mbind res_bind].
  cbn [fds set_drv set_fds]. rewrite unref_held by (done || unfold counted; lia). by destruct s.
Qed.

Lemma fd_call_miss s fd set f : wf s -> smalls s -> - 2 ^ 31 <= fd < 2 ^ 31 -> arr_slot (fds s) fd = None ->
  fd_call s fd set f = Ok (s, - rc EBADF).
Proof.
  intros Hw (_ & _ & _ & Hsf) Hi Hn. unfold fd_call.
  destruct (get_cases (fds s) fd (wf_fds s Hw) Hsf Hi) as [(c & Hc & _)|(_ & ->)]; [congruence|]. by destruct s.
Qed.

(** On a listed descriptor, [fd_read], [fd_write], [fd_seek], [fd_ioctl] and [fd_readdir] are
    the driver's operation on the mount and the file the descriptor was opened on: they return
    what the driver returns and leave every table, and every reference count, as it was.  On any
    other number they return [-EBADF] and do nothing. *)
Theorem fd_ops_dispatch s (fd a b : Z) :
  wf s -> smalls s -> - 2 ^ 31 <= fd < 2 ^ 31 ->
  match arr_slot (fds s) fd with
  | None =>
      fd_read s fd a b = Ok (s, - rc EBADF) /\ fd_write s fd a b = Ok (s, - rc EBADF) /\
      fd_seek s fd a b = Ok (s, - rc EBADF) /\ fd_ioctl s fd a b = Ok (s, - rc EBADF) /\
      fd_readdir s fd a = Ok (s, - rc EBADF)
  | Some c =>
      exists h m fs, resolves s fd (value c) h m fs /\
        let call (set : bool) (o : option (res (D * Z))) :=
          match set, o with true, Some r => '(d, ret) ← r; Ok (set_drv s d, ret) | _, _ => Fault end in
        let ops := f_ops (value c) in
        fd_read s fd a b = call (o_read ops) ((fun f => f (drv s) m (h_ifd h) a b) <$> op_read fs) /\
        fd_write s fd a b = call (o_write ops) ((fun f => f (drv s) m (h_ifd h) a b) <$> op_write fs) /\
        fd_seek s fd a b = call (o_seek ops) ((fun f => f (drv s) m (h_ifd h) a b) <$> op_seek fs) /\
        fd_ioctl s fd a b = call (o_ioctl ops) ((fun f => f (drv s) m (h_ifd h) a b) <$> op_ioctl fs) /\
        fd_readdir s fd a = call (o_readdir ops) ((fun f => f (drv s) m (h_ifd h) a) <$> op_readdir fs)
  end.
Proof.
  intros Hw Hs Hi. destruct (arr_slot (fds s) fd) as [c|] eqn:Hc; [|by split_and!; apply fd_call_miss].
  destruct (wf_resolves s fd c Hw Hc) as (h & m & fs & Hres). exists h, m, fs. split; [done|]. cbv zeta.
  unfold fd_read, fd_write, fd_seek, fd_ioctl, fd_readdir, _fs_read, _fs_write, _fs_seek, _fs_ioctl, _fs_readdir.
  split_and!; rewrite (fd_call_hit s fd (value c) h m fs) by done;
    [destruct (o_read _), (op_read fs)|destruct (o_write _), (op_write fs)|destruct (o_seek _), (op_seek fs)
    |destruct (o_ioctl _), (op_ioctl fs)|destruct (o_readdir _), (op_readdir fs)]; done.
Qed.

(** ** Which mount a path belongs to *)

(** [memcmp] of a mount's text with the bytes of a path. *)
Lemma memcmp_prefix (p x t r : list Z) : nonul p -> nonul t ->
  exists v, memcmp (p ++ x) (t ++ 0 :: r) (length p) = Ok v /\ (v = 0 <-> p `prefix_of` t).
Proof.
  intros Hp. revert t. induction p as [|c p IH]; intros t Ht; cbn [memcmp length app].
  - exists 0. split; [by destruct x|]. split; [intros _; apply prefix_nil|done].
  - apply nonul_cons in Hp as [Hc Hp]. destruct t as [|d t]; cbn [app].
    + destruct (Z.ltb_spec c 0); [lia|]. destruct (Z.ltb_spec 0 c); [|lia]. exists 1. split; [done|].
      split; [done|]. intros [k Hk]. discriminate.
    + apply nonul_cons in Ht as [Hd Ht]. destruct (Z.ltb_spec c d).
      { exists (-1). split; [done|]. split; [done|]. intros Hk%prefix_cons_inv_1. lia. }
      destruct (Z.ltb_spec d c).
      { exists 1. split; [done|]. split; [done|]. intros Hk%prefix_cons_inv_1. lia. }
      destruct (IH Hp t Ht) as (v & Hv & Hvp). exists v. split; [done|]. rewrite Hvp. assert (c = d) as -> by lia.
      split; [apply prefix_cons|apply prefix_cons_inv_2].
Qed.

(** The mount at [id] covers the path text [t], over [n] bytes. *)
Definition covers (s : vfs D) (t : list Z) (id n : Z) : Prop :=
  exists c p, arr_slot (mounts s) id = Some c /\ mount_text (value c) p /\ p `prefix_of` t /\ n = zlen p.

Lemma mount_text_inj m p p' : mount_text m p -> mount_text m p' -> p = p'.
Proof.
  intros (Hp & _ & r & E) (Hp' & _ & r' & E'). rewrite E in E'. clear E.
  assert (nonul (p ++ [47])) as H1 by (apply nonul_app; split; [done|by repeat constructor]).
  assert (nonul (p' ++ [47])) as H2 by (apply nonul_app; split; [done|by repeat constructor]).
  replace (p ++ 47 :: 0 :: r) with ((p ++ [47]) ++ 0 :: r) in E' by (by rewrite <- app_assoc).
  replace (p' ++ 47 :: 0 :: r') with ((p' ++ [47]) ++ 0 :: r') in E' by (by rewrite <- app_assoc).
  assert (Ok (p ++ [47]) = Ok (p' ++ [47])) as E2 by (by rewrite <- (cstr_nonul _ r H1), <- (cstr_nonul _ r' H2), E').
  injection E2 as E2. by apply app_inj_2 in E2 as [? _].
Qed.

(** [sel] is the best mount among those below [i]. *)
Definition best (s : vfs D) (t : list Z) (i sel n : Z) : Prop :=
  (sel = - rc ENOENT /\ n = 0 /\ forall j m, 0 <= j < i -> ~ covers s t j m) \/
  (0 <= sel < i /\ covers s t sel n /\ forall j m, 0 <= j < i -> covers s t j m -> m < n \/ m = n /\ j <= sel).

Lemma best_step s t i sel n v p c : arr_slot (mounts s) i = Some c -> mount_text (value c) p -> 0 <= i ->
  (v = 0 <-> p `prefix_of` t) -> best s t i sel n ->
  best s t (i + 1) (if (v =? 0) && (zlen p >=? n) then i else sel) (if (v =? 0) && (zlen p >=? n) then zlen p else n).
Proof.
  intros Hc Hp Hi Hv Hb. assert (forall m, covers s t i m <-> v = 0 /\ m = zlen p) as Hcov.
  { intros m. split.
    - intros (c' & p' & Hc' & Hp' & Hpre & ->). rewrite Hc in Hc'. injection Hc' as <-.
      rewrite <- (mount_text_inj _ _ _ Hp Hp') in *. tauto.
    - intros [? ->]. exists c, p. tauto. }
  assert (0 <= zlen p) by apply zlen_nonneg.
  rewrite Z.geb_leb. destruct (Z.eqb_spec v 0) as [Hv0|Hv0]; cbn [andb]; [destruct (Z.leb_spec n (zlen p))|].
  - right. split; [lia|]. split; [by apply Hcov|]. intros j m Hj Hm. destruct (decide (j = i)) as [->|].
    + apply Hcov in Hm. lia.
    + destruct Hb as [(_ & _ & Hno)|(_ & _ & Hbest)]; [by destruct (Hno j m ltac:(lia))|].
      destruct (Hbest j m ltac:(lia) Hm); lia.
  - destruct Hb as [(-> & -> & Hno)|(Hsel & Hcs & Hbest)]; [lia|]. right. split_and!; [lia|lia|done|].
    intros j m Hj Hm. destruct (decide (j = i)) as [->|]; [apply Hcov in Hm; lia|]. apply Hbest; [lia|done].
  - destruct Hb as [(-> & -> & Hno)|(Hsel & Hcs & Hbest)]; [left|right]; split_and!; try done; try lia.
    all: intros j m Hj Hm; destruct (decide (j = i)) as [->|]; [by apply Hcov in Hm as [? _]|].
    + by destruct (Hno j m ltac:(lia)).
    + apply Hbest; [lia|done].
Qed.

Lemma get_mount_loop_ok s t r : wf s -> small (mounts s) -> nonul t ->
  forall fuel i sel n, 0 <= i -> i + Z.of_nat fuel = zlen (mounts s) -> best s t i sel n ->
  exists sel' n', get_mount_loop fuel (mounts s) (t ++ 0 :: r) i sel n = Ok (mounts s, sel', n') /\
    best s t (zlen (mounts s)) sel' n'.
Proof.
  intros Hw Hs Ht. induction fuel as [|fuel IH]; intros i sel n Hi Hf Hb; cbn [get_mount_loop].
  - assert (foreach_more (mounts s) i = false) as ->.
    { apply not_true_is_false. intros Hm. unfold small in Hs. apply foreach_more_true in Hm; [|lia].
      destruct Hm as (j & c & Hj & Hc%arr_slot_range & _). lia. }
    exists sel, n. split; [done|]. by replace (zlen (mounts s)) with i by lia.
  - assert (exists c, arr_slot (mounts s) i = Some c) as [c Hc].
    { pose proof (wf_mounts_full s Hw i ltac:(lia)). destruct (arr_slot (mounts s) i); [eauto|done]. }
    destruct (wf_mounts s Hw i c Hc) as [Hp Hr]. unfold small in Hs.
    assert (foreach_more (mounts s) i = true) as -> by (apply foreach_more_true; [lia|]; exists i, c; split_and!; [lia|done|done]).
    rewrite (get_hit _ _ c) by done. destruct (wf_mount_path s Hw i c Hc) as [p Htxt].
    pose proof Htxt as (Hnp & Hlp & x & Hx). rewrite Hx.
    replace (p ++ 47 :: 0 :: x) with ((p ++ [47]) ++ 0 :: x) by (by rewrite <- app_assoc).
    rewrite strlen_cstr by (apply nonul_app; split; [done|by repeat constructor]). cbn [mbind res_bind].
    assert (zlen (p ++ [47]) - 1 = zlen p) as -> by (rewrite zlen_app; unfold zlen; simpl; lia).
    pose proof (zlen_nonneg p). rewrite s32_small by lia. rewrite u64_small by lia.
    replace (Z.to_nat (zlen p)) with (length p) by (unfold zlen; lia). rewrite <- app_assoc.
    destruct (memcmp_prefix p ([47] ++ 0 :: x) t r Hnp Ht) as (v & -> & Hv). cbn [mbind res_bind].
    rewrite unref_held by (done || unfold counted; lia). rewrite (s32_small i) by lia.
    apply IH; [lia|lia|]. by apply (best_step s t i sel n v p c).
Qed.

(** What the driver is asked for: the path below the mount, the mounted directory itself being
    [/]. *)
Definition below (t r : list Z) (n : Z) : list Z :=
  if decide (head (drop (Z.to_nat n) t) = Some 47) then drop (Z.to_nat n) t ++ 0 :: r else bytes "/" ++ [0].

Lemma fs_get_mount_ok s t r : wf s -> small (mounts s) -> nonul t ->
  exists sel n, best s t (zlen (mounts s)) sel n /\
    fs_get_mount s (t ++ 0 :: r) = Ok (s, sel, if is_error sel then [] else below t r n).
Proof.
  intros Hw Hs Ht. destruct (get_mount_loop_ok s t r Hw Hs Ht (length (mounts s)) 0 (- rc ENOENT) 0)
    as (sel & n & Hrun & Hb); [lia|unfold zlen; lia|left; split_and!; [done|done|lia]|].
  exists sel, n. split; [done|]. unfold fs_get_mount. rewrite Hrun. cbn [mbind res_bind].
  assert (set_mounts s (mounts s) = s) as -> by (by destruct s).
  destruct Hb as [(-> & _)|(Hsel & (c & p & _ & _ & [q ->] & ->) & _)]; [done|].
  assert (is_error sel = false) as -> by (unfold is_error; destruct (Z.ltb_spec sel 0); [lia|done]).
  unfold below. replace (Z.to_nat (zlen p)) with (length p) by (unfold zlen; lia). rewrite <- app_assoc, !drop_app_length.
  destruct q as [|c' q]; cbn [app].
  - rewrite load_app. cbn [mbind res_bind]. done.
  - rewrite load_app. cbn [mbind res_bind head]. destruct (Z.eqb_spec c' 47), (decide (Some c' = Some 47)); simplify_eq; done.
Qed.

Lemma best_mount s t i sel n : best s t i sel n -> is_error sel = false ->
  0 <= sel < i /\ exists c, arr_slot (mounts s) sel = Some c /\ covers s t sel n.
Proof.
  intros [(-> & _)|(Hsel & Hc & _)] He; [done|]. split; [done|]. destruct Hc as (c & p & Hc & Hp). exists c. split; [done|]. by exists c, p.
Qed.

(** [fs_open], [fs_opendir] and [fs_finfo] up to the driver's answer. *)
Lemma on_mount_ok s t r sel : wf s -> smalls s -> nonul t ->
  exists id n, best s t (zlen (mounts s)) id n /\
    ((is_error id = true /\ on_mount s (t ++ 0 :: r) sel = Ok (s, id, id)) \/
     (is_error id = false /\ exists cm cs, arr_slot (mounts s) id = Some cm /\
       arr_slot (filesystems s) (mfs (value cm)) = Some cs /\
       on_mount s (t ++ 0 :: r) sel
       = (op ← res_of_option (sel (value cs)); '(d, ret) ← op (drv s) (value cm) (below t r n); Ok (set_drv s d, id, ret)))).
Proof.
  intros Hw (_ & Hsm & _) Ht. destruct (fs_get_mount_ok s t r Hw Hsm Ht) as (id & n & Hb & Hget).
  exists id, n. split; [done|]. unfold on_mount. rewrite Hget. cbn [mbind res_bind].
  destruct (is_error id) eqn:He; [by left|right]. split; [done|].
  destruct (best_mount s t _ id n Hb He) as (Hid & cm & Hcm & _). destruct (wf_mount_fs s Hw id cm Hcm) as [cs Hcs].
  exists cm, cs. split_and!; [done|done|]. destruct (wf_mounts s Hw id cm Hcm) as [Hp Hr].
  rewrite (get_hit _ _ cm) by done. unfold fs_op. rewrite Hcs. cbn [res_of_option mbind res_bind].
  destruct (sel (value cs)) as [op|]; [|done]. cbn [res_of_option mbind res_bind].
  destruct (op (drv s) (value cm) (below t r n)) as [[d ret]| | |]; try done. cbn [mbind res_bind].
  rewrite unref_held by (done || unfold counted; lia). by destruct s.
Qed.

Lemma wf_set_drv s d : wf s -> wf (set_drv s d).
Proof. intros [? ? ? ? ? ? ? ? ? ? ?]. by split. Qed.

(** ** Opening *)

(** The state after [fs_open] or [fs_opendir] made a handle and a descriptor. *)
Definition opened (s : vfs D) (ifd mnt : Z) (ops : file_ops) (s' : vfs D) (fd : Z) : Prop :=
  exists hid, arr_slot (handles s) hid = None /\ arr_slot (fds s) fd = None /\ 0 <= fd < 2 ^ 31 - 1 /\ 0 <= hid < 2 ^ 31 - 1 /\
    handles s' = fst (rcparray_add (handles s) (mk_handle ifd mnt)) /\
    fds s' = fst (rcparray_add (fds s) (mk_fd hid ops)) /\
    arr_slot (handles s') hid = Some (mk_cell 1 true (mk_handle ifd mnt)) /\
    (forall j, j <> hid -> arr_slot (handles s') j = arr_slot (handles s) j) /\
    arr_slot (fds s') fd = Some (mk_cell 1 true (mk_fd hid ops)) /\
    (forall j, j <> fd -> arr_slot (fds s') j = arr_slot (fds s) j) /\
    filesystems s' = filesystems s /\ mounts s' = mounts s /\ devices s' = devices s /\ drv s' = drv s.

Lemma open_tables s ifd mnt ops : smalls s ->
  exists s' fd, (let '(s1, fs_fd) := handle_add s (mk_handle ifd mnt) in fd_add s1 (mk_fd fs_fd ops)) = (s', fd) /\
    opened s ifd mnt ops s' fd.
Proof.
  intros (_ & _ & Hsh & Hsf). unfold handle_add.
  destruct (add_slots (handles s) (mk_handle ifd mnt) Hsh) as (hid & E & Hhid & Hs32 & Hn & Hnew & Hoth).
  rewrite E. cbn [fst]. rewrite Hs32. unfold fd_add. cbn [fds set_handles].
  destruct (add_slots (fds s) (mk_fd hid ops) Hsf) as (fd & E2 & Hfd & Hs32' & Hn2 & Hnew2 & Hoth2).
  rewrite E2. cbn [fst]. rewrite Hs32'. eexists _, fd. split; [done|]. exists hid. cbn. done.
Qed.

Lemma opened_wf s ifd mnt ops s' fd : wf s -> smalls s -> is_Some (arr_slot (mounts s) mnt) ->
  opened s ifd mnt ops s' fd -> wf s'.
Proof.
  intros Hw (_ & _ & Hsh & Hsf) Hm (hid & Hhn & Hfn & _ & _ & Eh & Ef & Hh & Hho & Hf & Hfo & Efs & Em & _).
  destruct Hw. split; rewrite ?Efs, ?Em; try done.
  - rewrite Eh. by apply quiet_add.
  - rewrite Ef. by apply quiet_add.
  - intros id c Hc. destruct (decide (id = hid)) as [->|]; [|rewrite Hho in Hc by done; by apply (wf_handle_mount0 id)].
    rewrite Hh in Hc. by injection Hc as <-.
  - intros id c Hc. destruct (decide (id = fd)) as [->|].
    + rewrite Hf in Hc. injection Hc as <-. simpl. by rewrite Hh.
    + rewrite Hfo in Hc by done. apply wf_fd_handle0 in Hc as [ch Hch]. rewrite Hho by congruence. by eexists.
  - intros i j c d Hi Hj Hij. destruct (decide (i = fd)) as [->|], (decide (j = fd)) as [->|]; [done|..].
    + rewrite Hf in Hi. injection Hi as <-. simpl in Hij. rewrite Hfo in Hj by done.
      apply wf_fd_handle0 in Hj as [ch Hch]. congruence.
    + rewrite Hf in Hj. injection Hj as <-. simpl in Hij. rewrite Hfo in Hi by done.
      apply wf_fd_handle0 in Hi as [ch Hch]. congruence.
    + rewrite Hfo in Hi, Hj by done. by apply (wf_fd_inj0 i j c d).
Qed.

(** ** Closing and duplicating *)

Definition closed (s : vfs D) (fd ifd : Z) : vfs D :=
  set_handles (set_fds s (arr_set (fds s) fd None)) (arr_set (handles s) ifd None).

Lemma fd_close_hit s fd f h m fs : wf s -> smalls s -> resolves s fd f h m fs ->
  fd_close s fd
  = if o_close (f_ops f) then
      op ← res_of_option (op_close fs); '(d, ret) ← op (drv s) m (h_ifd h); Ok (set_drv (closed s fd (f_ifd f)) d, ret)
    else Fault.
Proof.
  intros Hw (_ & Hsm & Hsh & Hsf) (cf & ch & cm & cs & Hf & <- & Hh & <- & Hm & <- & Hfs & <-).
  destruct (wf_fds s Hw _ _ Hf) as [Hp Hr]. destruct (wf_handles s Hw _ _ Hh) as [Hph Hrh].
  unfold fd_close. rewrite (get_hit _ _ cf) by done. rewrite remove_held by done.
  destruct (o_close (f_ops (value cf))); [|done]. unfold _fs_close. cbn [handles set_fds].
  rewrite (get_hit _ _ ch) by done. rewrite remove_held by done.
  unfold mount_at, fs_op. cbn [mounts filesystems set_handles set_fds]. rewrite Hm. cbn [res_of_option mbind res_bind].
  rewrite Hfs. done.
Qed.

Lemma fd_close_miss s fd : wf s -> smalls s -> - 2 ^ 31 <= fd < 2 ^ 31 -> arr_slot (fds s) fd = None ->
  fd_close s fd = Ok (s, - rc EBADF).
Proof.
  intros Hw (_ & _ & _ & Hsf) Hi Hn. unfold fd_close.
  destruct (get_cases (fds s) fd (wf_fds s Hw) Hsf Hi) as [(c & Hc & _)|(_ & ->)]; [congruence|]. by destruct s.
Qed.

Lemma closed_wf s fd f h m fs : wf s -> resolves s fd f h m fs -> wf (closed s fd (f_ifd f)).
Proof.
  intros Hw (cf & ch & cm & cs & Hf & <- & Hh & <- & Hm & <- & Hfs & <-). destruct Hw.
  pose proof (arr_slot_range _ _ _ Hf). pose proof (arr_slot_range _ _ _ Hh).
  split; cbn [filesystems mounts handles fds devices drv closed set_handles set_fds]; try done.
  - by apply quiet_clear.
  - by apply quiet_clear.
  - intros id c Hc. destruct (decide (id = f_ifd (value cf))) as [->|].
    + by rewrite arr_slot_set in Hc.
    + rewrite arr_slot_set_ne in Hc by (done || lia). by apply (wf_handle_mount0 id).
  - intros id c Hc. destruct (decide (id = fd)) as [->|]; [by rewrite arr_slot_set in Hc|].
    rewrite arr_slot_set_ne in Hc by (done || lia). rewrite arr_slot_set_ne; [by apply (wf_fd_handle0 id)|lia|].
    intros E. by apply (wf_fd_inj0 id fd c cf) in E.
  - intros i j c d Hi Hj Hij. destruct (decide (i = fd)) as [->|]; [by rewrite arr_slot_set in Hi|].
    destruct (decide (j = fd)) as [->|]; [by rewrite arr_slot_set in Hj|].
    rewrite arr_slot_set_ne in Hi, Hj by (done || lia). by apply (wf_fd_inj0 i j c d).
Qed.

Lemma fs_dup_hit s fd ch cm cs : arr_slot (handles s) fd = Some ch -> small (handles s) ->
  present ch = true -> refs ch = 1 -> arr_slot (mounts s) (h_mount (value ch)) = Some cm ->
  arr_slot (filesystems s) (mfs (value cm)) = Some cs ->
  _fs_dup s fd = (op ← res_of_option (op_dup (value cs));
                  '(d, ret) ← op (drv s) (value cm) (h_ifd (value ch));
                  if is_error ret then Ok (set_drv s d, ret)
                  else Ok (handle_add (set_drv s d) (value ch))).
Proof.
  intros Hh Hs Hp Hr Hm Hf. unfold _fs_dup. rewrite (get_hit _ _ ch) by done.
  unfold mount_at, fs_op. rewrite Hm. cbn [res_of_option mbind res_bind]. rewrite Hf. cbn [res_of_option mbind res_bind].
  destruct (op_dup (value cs)) as [op|]; [|done]. cbn [res_of_option mbind res_bind].
  destruct (op (drv s) (value cm) (h_ifd (value ch))) as [[d ret]| | |]; try done. cbn [mbind res_bind].
  destruct (is_error ret).
  - rewrite unref_held by (done || unfold counted; lia). by destruct s.
  - assert (mk_handle (h_ifd (value ch)) (h_mount (value ch)) = value ch) as -> by (by destruct (value ch)).
    destruct (add_held (handles s) fd ch (value ch) Hh Hs ltac:(unfold counted; lia)) as [-> Hkeep].
    rewrite Hkeep. unfold handle_add. cbn [handles set_drv]. by destruct (rcparray_add (handles s) (value ch)).
Qed.

Lemma fd_dup_hit s fd f h m fs : wf s -> smalls s -> resolves s fd f h m fs ->
  fd_dup s fd
  = if o_dup (f_ops f) then
      op ← res_of_option (op_dup fs);
      '(d, ret) ← op (drv s) m (h_ifd h);
      if is_error ret then Ok (set_drv s d, ret)
      else let '(s1, hid) := handle_add (set_drv s d) h in Ok (fd_add s1 (mk_fd hid (f_ops f)))
    else Fault.
Proof.
  intros Hw (_ & Hsm & Hsh & Hsf) (cf & ch & cm & cs & Hf & <- & Hh & <- & Hm & <- & Hfs & <-).
  destruct (wf_fds s Hw _ _ Hf) as [Hp Hr]. destruct (wf_handles s Hw _ _ Hh) as [Hph Hrh].
  unfold fd_dup. rewrite (get_hit _ _ cf) by done. destruct (o_dup (f_ops (value cf))); [|done].
  rewrite (fs_dup_hit _ _ ch cm cs) by done.
  destruct (op_dup (value cs)) as [op|]; [|done]. cbn [res_of_option mbind res_bind].
  change (drv (set_fds s ?x)) with (drv s).
  destruct (op (drv s) (value cm) (h_ifd (value ch))) as [[d ret]| | |]; try done. cbn [mbind res_bind].
  destruct (is_error ret) eqn:He; cbn [mbind res_bind].
  - rewrite He. cbn [fds set_drv set_fds]. rewrite unref_held by (done || unfold counted; lia). by destruct s.
  - unfold handle_add. cbn [handles set_drv set_fds].
    destruct (add_slots (handles s) (value ch) Hsh) as (hid & E & Hhid & Hs32 & _). rewrite E, Hs32. cbn [fst].
    assert (is_error hid = false) as -> by (unfold is_error; destruct (Z.ltb_spec hid 0); [lia|done]).
    unfold fd_add. cbn [fds set_handles set_drv set_fds].
    destruct (add_held (fds s) fd cf (mk_fd hid (f_ops (value cf))) Hf Hsf ltac:(unfold counted; lia)) as [-> Hkeep].
    cbn [fds set_fds]. rewrite Hkeep. by destruct (rcparray_add (fds s) (mk_fd hid (f_ops (value cf)))).
Qed.

(** [fs_open] and [fs_opendir] from the driver's answer on. *)
Lemma open_common s t r sel ops : wf s -> smalls s -> nonul t ->
  let open := ('(s, mount_id, ret) ← on_mount s (t ++ 0 :: r) sel;
               if is_error ret then Ok (s, ret)
               else let '(s, fs_fd) := handle_add s (mk_handle ret mount_id) in Ok (fd_add s (mk_fd fs_fd ops))) in
  exists id n, best s t (zlen (mounts s)) id n /\
    ((id = - rc ENOENT /\ open = Ok (s, - rc ENOENT)) \/
     exists cm cs, arr_slot (mounts s) id = Some cm /\ arr_slot (filesystems s) (mfs (value cm)) = Some cs /\
       match (op ← res_of_option (sel (value cs)); op (drv s) (value cm) (below t r n)) with
       | Ok (d, ret) =>
           if is_error ret then open = Ok (set_drv s d, ret)
           else exists s' fd, open = Ok (s', fd) /\ opened (set_drv s d) ret id ops s' fd
       | Panic msg => open = Panic msg
       | Fault => open = Fault
       | OutOfFuel => open = OutOfFuel
       end).
Proof.
  intros Hw Hs Ht open. destruct (on_mount_ok s t r sel Hw Hs Ht) as (id & n & Hb & Hon). exists id, n. split; [done|].
  destruct Hon as [[He Hon]|(He & cm & cs & Hcm & Hcs & Hon)]; unfold open; rewrite Hon; cbn [mbind res_bind].
  - left. rewrite He. destruct Hb as [(-> & _)|(Hid & _)]; [done|]. unfold is_error in He. apply Z.ltb_lt in He. lia.
  - right. exists cm, cs. split_and!; [done|done|]. destruct (sel (value cs)) as [op|]; [|done].
    cbn [res_of_option mbind res_bind]. destruct (op (drv s) (value cm) (below t r n)) as [[d ret]| | |]; try done.
    cbn [mbind res_bind]. destruct (is_error ret); [done|].
    destruct (open_tables (set_drv s d) ret id ops Hs) as (s' & fd & E & Hop). exists s', fd. split; [|done].
    destruct (handle_add (set_drv s d) (mk_handle ret id)). by rewrite E.
Qed.

(** [fs_open] hands the path below the mount with the longest matching path, the latest of
    equals, to that mount's driver.  No mount: [-ENOENT].  The driver refuses: its error, and the
    tables are untouched.  Otherwise a new handle holds the driver's file, a new descriptor with
    every operation set leads to it, and nothing else changes. *)
Theorem fs_open_branches s (t r : list Z) (mode : Z) :
  wf s -> smalls s -> nonul t ->
  exists id n, best s t (zlen (mounts s)) id n /\
    ((id = - rc ENOENT /\ fs_open s (t ++ 0 :: r) mode = Ok (s, - rc ENOENT)) \/
     exists cm cs, arr_slot (mounts s) id = Some cm /\ arr_slot (filesystems s) (mfs (value cm)) = Some cs /\
       match (f ← res_of_option (op_open (value cs)); f (drv s) (value cm) (below t r n) mode) with
       | Ok (d, ret) =>
           if is_error ret then fs_open s (t ++ 0 :: r) mode = Ok (set_drv s d, ret)
           else exists s' fd, fs_open s (t ++ 0 :: r) mode = Ok (s', fd) /\ opened (set_drv s d) ret id open_ops s' fd
       | Panic msg => fs_open s (t ++ 0 :: r) mode = Panic msg
       | Fault => fs_open s (t ++ 0 :: r) mode = Fault
       | OutOfFuel => fs_open s (t ++ 0 :: r) mode = OutOfFuel
       end).
Proof.
  intros Hw Hs Ht.
  destruct (open_common s t r (fun fs => (fun f d m p => f d m p mode) <$> op_open fs) open_ops Hw Hs Ht)
    as (id & n & Hb & H). exists id, n. split; [done|]. destruct H as [H|(cm & cs & Hcm & Hcs & H)]; [by left|right].
  exists cm, cs. split_and!; [done|done|]. by destruct (op_open (value cs)).
Qed.

Lemma opened_resolves s ifd mnt ops s' fd cm cs : opened s ifd mnt ops s' fd ->
  arr_slot (mounts s) mnt = Some cm -> arr_slot (filesystems s) (mfs (value cm)) = Some cs ->
  exists hid, resolves s' fd (mk_fd hid ops) (mk_handle ifd mnt) (value cm) (value cs) /\
    (forall j, arr_slot (fds (closed s' fd hid)) j = arr_slot (fds s) j) /\
    (forall j, arr_slot (handles (closed s' fd hid)) j = arr_slot (handles s) j).
Proof.
  intros (hid & Hhn & Hfn & Hfd & Hhid & _ & _ & Hh & Hho & Hf & Hfo & Efs & Em & _ & _) Hcm Hcs. exists hid.
  split; [|split; cbn [fds handles closed set_handles set_fds]].
  - eexists _, _, _, _. rewrite Em, Efs. split_and!; try done; simpl; done.
  - intros j. destruct (decide (j = fd)) as [->|].
    + rewrite arr_slot_set by (by apply arr_slot_range in Hf). done.
    + rewrite arr_slot_set_ne by (done || lia). by apply Hfo.
  - intros j. destruct (decide (j = hid)) as [->|].
    + rewrite arr_slot_set by (by apply arr_slot_range in Hh). done.
    + rewrite arr_slot_set_ne by (done || lia). by apply Hho.
Qed.

Lemma fs_open_close_ok s (t r : list Z) (mode fd : Z) s1 s2 (ret : Z) :
  wf s -> smalls s -> nonul t -> fs_open s (t ++ 0 :: r) mode = Ok (s1, fd) -> 0 <= fd -> smalls s1 ->
  fd_close s1 fd = Ok (s2, ret) ->
  (forall j, arr_slot (fds s2) j = arr_slot (fds s) j) /\ (forall j, arr_slot (handles s2) j = arr_slot (handles s) j) /\
  mounts s2 = mounts s /\ filesystems s2 = filesystems s /\ wf s2 /\ fd_close s2 fd = Ok (s2, - rc EBADF) /\
  exists id n cm cs fo fc d ifd, best s t (zlen (mounts s)) id n /\ arr_slot (mounts s) id = Some cm /\
    arr_slot (filesystems s) (mfs (value cm)) = Some cs /\ op_open (value cs) = Some fo /\ op_close (value cs) = Some fc /\
    fo (drv s) (value cm) (below t r n) mode = Ok (d, ifd) /\ fc d (value cm) ifd = Ok (drv s2, ret).
Proof.
  intros Hw Hs Ht Hopen Hfd Hs1 Hclose.
  destruct (open_common s t r (fun fs => (fun f d m p => f d m p mode) <$> op_open fs) open_ops Hw Hs Ht)
    as (id & n & Hb & H). change (_ = Ok _) with (fs_open s (t ++ 0 :: r) mode = Ok (s1, fd)) in Hopen.
  destruct H as [[-> H]|(cm & cs & Hcm & Hcs & H)].
  { unfold fs_open in Hopen. rewrite H in Hopen. injection Hopen as <- <-. simpl in Hfd. lia. }
  destruct (op_open (value cs)) as [fo|] eqn:Efo; cbn [fmap option_fmap option_map res_of_option mbind res_bind] in H;
    [|unfold fs_open in Hopen; by rewrite H in Hopen].
  destruct (fo (drv s) (value cm) (below t r n) mode) as [[d ifd]| | |] eqn:Efor; try (unfold fs_open in Hopen; by rewrite H in Hopen).
  destruct (is_error ifd) eqn:He.
  { unfold fs_open in Hopen. rewrite H in Hopen. injection Hopen as <- <-. unfold is_error in He. apply Z.ltb_lt in He. lia. }
  destruct H as (s1' & fd' & H & Hop). unfold fs_open in Hopen. rewrite H in Hopen. injection Hopen as <- <-.
  pose proof (opened_wf _ _ _ _ _ _ (wf_set_drv s d Hw) Hs (ex_intro _ cm Hcm) Hop) as Hw1.
  destruct (opened_resolves _ _ _ _ _ _ cm cs Hop Hcm Hcs) as (hid & Hres & Hfds & Hhs).
  rewrite (fd_close_hit s1' fd' _ _ _ _ Hw1 Hs1 Hres) in Hclose. cbn [o_close f_ops open_ops f_ifd h_ifd] in Hclose.
  destruct (op_close (value cs)) as [fc|] eqn:Efc; [|done]. cbn [res_of_option mbind res_bind] in Hclose.
  destruct (fc (drv s1') (value cm) ifd) as [[d2 ret']| | |] eqn:Efcr; try done. injection Hclose as <- <-.
  pose proof Hop as (hid' & _ & Hfn & Hrange & _ & _ & _ & _ & _ & _ & _ & Efs & Em & _ & Ed).
  pose proof (closed_wf s1' fd' _ _ _ _ Hw1 Hres) as Hw2.
  split_and!; [done|done|exact Em|exact Efs|by apply wf_set_drv| |].
  - apply fd_close_miss; [by apply wf_set_drv| |lia|].
    + destruct Hs1 as (? & ? & ? & ?). unfold smalls, small in *. cbn [filesystems mounts handles fds devices set_drv closed set_handles set_fds].
      rewrite !zlen_arr_set. done.
    + change (fds (set_drv ?x ?y)) with (fds x). by rewrite Hfds.
  - rewrite Ed in Efcr. by exists id, n, cm, cs, fo, fc, d, ifd.
Qed.

(** Closing what [fs_open] opened closes the driver's file and gives every table entry back;
    a second [fd_close] of the same number is [-EBADF]. *)
Theorem fs_open_close_restores s (t r : list Z) (mode fd : Z) s1 s2 (ret : Z) :
  wf s -> smalls s -> nonul t -> fs_open s (t ++ 0 :: r) mode = Ok (s1, fd) -> 0 <= fd -> smalls s1 ->
  fd_close s1 fd = Ok (s2, ret) ->
  (forall j, arr_slot (fds s2) j = arr_slot (fds s) j) /\ (forall j, arr_slot (handles s2) j = arr_slot (handles s) j) /\
  mounts s2 = mounts s /\ filesystems s2 = filesystems s /\ wf s2 /\ fd_close s2 fd = Ok (s2, - rc EBADF) /\
  exists id n cm cs fo fc d ifd, best s t (zlen (mounts s)) id n /\ arr_slot (mounts s) id = Some cm /\
    arr_slot (filesystems s) (mfs (value cm)) = Some cs /\ op_open (value cs) = Some fo /\ op_close (value cs) = Some fc /\
    fo (drv s) (value cm) (below t r n) mode = Ok (d, ifd) /\ fc d (value cm) ifd = Ok (drv s2, ret).
Proof. apply fs_open_close_ok. Qed.

(** [fd_dup] asks the driver once and gives a second descriptor, with its own handle, on the
    same driver file: the number the driver's [dup] answers only decides between success and
    error. *)
Theorem fd_dup_same_file s (fd : Z) f h m fs (op : D -> mount -> Z -> res (D * Z)) d (ret : Z) :
  wf s -> smalls s -> resolves s fd f h m fs -> o_dup (f_ops f) = true -> op_dup fs = Some op ->
  op (drv s) m (h_ifd h) = Ok (d, ret) ->
  if is_error ret then fd_dup s fd = Ok (set_drv s d, ret)
  else exists s' fd' f', fd_dup s fd = Ok (s', fd') /\ fd' <> fd /\ opened (set_drv s d) (h_ifd h) (h_mount h) (f_ops f) s' fd' /\
    wf s' /\ resolves s' fd' f' h m fs /\ resolves s' fd f h m fs /\ f_ifd f' <> f_ifd f.
Proof.
  intros Hw Hs Hres Ho Hop Hrun. rewrite (fd_dup_hit s fd f h m fs Hw Hs Hres), Ho, Hop. cbn [res_of_option mbind res_bind].
  rewrite Hrun. cbn [mbind res_bind]. destruct (is_error ret); [done|].
  assert (h = mk_handle (h_ifd h) (h_mount h)) as Eh by (by destruct h).
  destruct (open_tables (set_drv s d) (h_ifd h) (h_mount h) (f_ops f) Hs) as (s' & fd' & E & Hopn).
  rewrite <- Eh in E. pose proof Hres as (cf & ch & cm & cs & Hf & Hvf & Hh & Hvh & Hm & Hvm & Hfs & Hvfs). subst m fs.
  destruct (opened_resolves _ _ _ _ _ _ cm cs Hopn Hm Hfs) as (hid & Hr' & _). rewrite <- Eh in Hr'.
  pose proof Hopn as (hid' & Hhn & Hfn & _ & _ & _ & _ & Hnew & Hho & Hfnew & Hfo & Efs & Em & _).
  assert (fd' <> fd) by (intros ->; cbn [fds set_drv] in Hfn; congruence).
  assert (hid' <> f_ifd f) by (intros ->; cbn [handles set_drv] in Hhn; congruence).
  exists s', fd', (mk_fd hid (f_ops f)). destruct (handle_add (set_drv s d) h). rewrite E. split_and!; try done.
  - eapply opened_wf; [by apply wf_set_drv|exact Hs| |exact Hopn]. by exists cm.
  - exists cf, ch, cm, cs. rewrite Hfo, Hho, Em, Efs by done. done.
  - destruct Hr' as (c1 & c2 & _ & _ & Hc1 & Hv1 & _). rewrite Hfnew in Hc1. injection Hc1 as <-.
    simpl in Hv1. injection Hv1 as Ev. simpl. congruence.
Qed.

(** ** Mounting *)

(** The mount path that [fs_mount] keeps ends with exactly the slash it adds or finds. *)
Lemma mount_path_ok t r scratch : nonul t -> t <> [] -> zlen t < 2 ^ 31 - 3 -> object_ok (t ++ 0 :: r) ->
  zlen scratch = FMT_BUFFER ->
  exists p x, mount_path (t ++ 0 :: r) scratch = Ok (p ++ 47 :: 0 :: x) /\ nonul p /\ zlen p < 2 ^ 31 - 1 /\
    (p = t \/ t = p ++ [47]).
Proof.
  intros Ht Hne Hl Ho Hscr. assert (Forall arg_ok [VStr (t ++ 0 :: r)]) as Harg by (constructor; done).
  unfold mount_path. rewrite strlen_cstr by done. cbn [mbind res_bind].
  destruct (exists_last Hne) as (p & c & ->). rewrite zlen_app in Hl |- *. change (zlen [c]) with 1 in *. pose proof (zlen_nonneg p).
  destruct (Z.eqb_spec (zlen p + 1) 0); [lia|]. rewrite <- (app_assoc p [c]). cbn [app].
  rewrite (load_app_at p) by lia. cbn [mbind res_bind]. pose proof (length_heap_object (zlen p + 1 + 3) ltac:(lia)).
  replace (p ++ c :: 0 :: r) with ((p ++ [c]) ++ 0 :: r) by (by rewrite <- app_assoc).
  destruct (Z.eqb_spec c 47) as [->|]; cbn [negb].
  - change (bytes "%s" ++ [0]) with (print_items [Dir false [] None 115] ++ 0 :: []).
    rewrite (snprintf_ok _ _ _ _ _ _ (p ++ [47])); [|repeat constructor; unfold is_digit; simpl; try (done || lia)|done|done| |lia|lia].
    2: { cbn [render]. rewrite item_text_s by done. simpl. by rewrite app_nil_r. }
    cbn [mbind res_bind]. rewrite take_ge by (rewrite length_app; unfold zlen in *; simpl; lia). rewrite splice_0.
    eexists p, _. split_and!; [by rewrite <- !app_assoc|by apply nonul_app in Ht as [? _]|lia|by right].
  - change (bytes "%s/" ++ [0]) with (print_items [Dir false [] None 115; Lit 47] ++ 0 :: []).
    rewrite (snprintf_ok _ _ _ _ _ _ ((p ++ [c]) ++ [47])); [|repeat constructor; unfold is_digit; simpl; try (done || lia)|done|done| |lia|lia].
    2: { cbn [render]. rewrite item_text_s by done. simpl. done. }
    cbn [mbind res_bind]. rewrite take_ge by (rewrite !length_app; unfold zlen in *; simpl; lia). rewrite splice_0.
    eexists (p ++ [c]), _. split_and!; [by rewrite <- !app_assoc|done|rewrite zlen_app; change (zlen [c]) with 1; lia|by left].
Qed.

(** What mounting may do to the table of filesystems: an entry from [from] on may be left with one
    reference more. *)
Definition leaked (from : Z) (a a' : rcparray (filesystem D)) : Prop :=
  zlen a' = zlen a /\ forall id, match arr_slot a id with
    | None => arr_slot a' id = None
    | Some c => exists c', arr_slot a' id = Some c' /\ value c' = value c /\ present c' = present c /\
        (refs c' = refs c \/ from <= id /\ refs c' = refs c + 1)
    end.

Lemma leaked_refl from a : leaked from a a.
Proof. split; [done|]. intros id. destruct (arr_slot a id) as [c|]; [|done]. exists c. auto. Qed.

(** Room for one more reference on every entry from [from] on. *)
Definition room (from : Z) (a : rcparray (filesystem D)) : Prop := forall id c, from <= id -> arr_slot a id = Some c -> refs c < 2 ^ 31 - 1.

Lemma leaked_held from a a' c : arr_slot a from = Some c -> counted c -> room from a ->
  leaked (from + 1) (arr_set a from (Some (set_refs c (refs c + 1)))) a' -> leaked from a a'.
Proof.
  intros Hc Hr Hm [Hl Hg]. pose proof (arr_slot_range _ _ _ Hc). specialize (Hm from c ltac:(lia) Hc). unfold counted in Hr. rewrite set_refs_small in Hg by lia.
  split; [by rewrite Hl, zlen_arr_set|]. intros j. specialize (Hg j). destruct (decide (j = from)) as [->|].
  - rewrite arr_slot_set in Hg by done. rewrite Hc. destruct Hg as (c' & E & Ev & Ep & Er). exists c'. cbn [refs present value] in *. split_and!; try done. destruct Er as [?|[? _]]; [right; lia|lia].
  - rewrite arr_slot_set_ne in Hg by (done || lia). destruct (arr_slot a j) as [x|]; [|done]. destruct Hg as (c' & E & Ev & Ep & Er). exists c'. split_and!; try done. destruct Er as [?|[? ?]]; [by left|right; lia].
Qed.

Definition fs_table_ok (a : rcparray (filesystem D)) : Prop :=
  (forall id c, arr_slot a id = Some c -> present c = true /\ counted c) /\ full a.

Lemma leaked_ok from a a' : leaked from a a' -> room from a -> fs_table_ok a -> fs_table_ok a'.
Proof.
  intros [Hl Hg] Hm [Ha Hf]. split.
  - intros id c Hc. specialize (Hg id). destruct (arr_slot a id) as [x|] eqn:E; [|congruence].
    destruct Hg as (y & Hy & _ & Hp & Hr). rewrite Hc in Hy. injection Hy as <-. destruct (Ha id x E) as [? Hx]. unfold counted in *. split; [congruence|].
    destruct Hr as [?|[Hi ?]]; [lia|]. specialize (Hm id x Hi E). lia.
  - intros i Hi. rewrite Hl in Hi. specialize (Hf i Hi). specialize (Hg i). destruct (arr_slot a i); [|done].
    destruct Hg as (? & -> & _). done.
Qed.

Lemma room_held from a c : arr_slot a from = Some c -> room from a -> room (from + 1) (arr_set a from (Some (set_refs c (refs c + 1)))).
Proof.
  intros Hc Hm id x Hi Hx. pose proof (arr_slot_range _ _ _ Hc). rewrite arr_slot_set_ne in Hx by lia. apply (Hm id x); [lia|done].
Qed.

Lemma table_held from a c : arr_slot a from = Some c -> room from a -> fs_table_ok a -> fs_table_ok (arr_set a from (Some (set_refs c (refs c + 1)))).
Proof.
  intros Hc Hm Ha. apply (leaked_ok from a _); [|done|done]. apply (leaked_held _ _ _ c Hc); [by apply (proj1 Ha from)|done|apply leaked_refl].
Qed.

(** The loop of [fs_mount] leaves the other tables alone; a mount it makes has the path and a
    registered filesystem. *)
Lemma mount_loop_ok t r fsname scratch : nonul t -> zlen t < 2 ^ 31 - 3 -> object_ok (t ++ 0 :: r) ->
  zlen scratch = FMT_BUFFER -> forall fuel (s : vfs D) mnt fs_id ret s' mnt' ret',
  fs_table_ok (filesystems s) -> small (filesystems s) -> room fs_id (filesystems s) -> 0 <= fs_id -> is_error ret = true ->
  fs_id + Z.of_nat fuel <= zlen (filesystems s) ->
  mount_loop fuel s mnt (t ++ 0 :: r) fsname scratch fs_id ret = Ok (s', mnt', ret') ->
  (mounts s' = mounts s /\ handles s' = handles s /\ fds s' = fds s /\ devices s' = devices s) /\
  leaked fs_id (filesystems s) (filesystems s') /\
  (is_error ret' = false -> is_Some (arr_slot (filesystems s') (mfs mnt')) /\ exists p, mount_text mnt' p).
Proof.
  intros Ht Hl Ho Hscr. induction fuel as [|fuel IH]; intros s mnt fs_id ret s' mnt' ret' Hok Hsm Hroom Hid Hret Hf Hrun;
    cbn [mount_loop] in Hrun; destruct (foreach_more (filesystems s) fs_id) eqn:Hmore; try done;
    try (injection Hrun as <- <- <-; split_and!; try done; [apply leaked_refl|congruence]).
  assert (exists c, arr_slot (filesystems s) fs_id = Some c) as [c Hc].
  { destruct Hok as [_ Hfull]. specialize (Hfull fs_id ltac:(lia)). destruct (arr_slot (filesystems s) fs_id); [eauto|done]. }
  destruct (proj1 Hok fs_id c Hc) as [Hp Hr]. rewrite (get_hit _ _ c) in Hrun by done.
  apply bind_Ok in Hrun as (same & _ & Hrun). destruct (same =? 0).
  - apply bind_Ok in Hrun as (op & _ & Hrun). apply bind_Ok in Hrun as ([[d mnt1] ret1] & _ & Hrun).
    cbn [filesystems set_drv set_filesystems] in Hrun. rewrite unref_held in Hrun by done.
    destruct (is_error ret1) eqn:He.
    + apply IH in Hrun; cbn [filesystems mounts handles fds devices set_drv set_filesystems] in *; try done; [|intros id x ?; apply Hroom; lia|lia|lia].
      destruct Hrun as (? & [Hl1 Hg1] & ?). split; [done|]. split; [|done]. split; [done|]. intros id. specialize (Hg1 id). destruct (arr_slot (filesystems s) id) as [x|]; [|done].
      destruct Hg1 as (c' & ? & ? & ? & [?|[? ?]]); exists c'; split_and!; try done; [by left|right; lia].
    + apply bind_Ok in Hrun as (mp & Hmp & Hrun). injection Hrun as <- <- <-.
      destruct (decide (t = [])) as [->|Hne]; [done|].
      destruct (mount_path_ok t r scratch Ht Hne Hl Ho Hscr) as (p & x & E & Hnp & Hlp & _).
      rewrite E in Hmp. injection Hmp as <-. split_and!; try done; [apply leaked_refl|]. intros _. simpl. split.
      * rewrite Hc. by eexists.
      * exists p. split_and!; [done|lia|by exists x].
  - apply IH in Hrun; try done; cbn [filesystems set_filesystems] in *.
    + destruct Hrun as (? & Hg & ?). split_and!; try tauto. by apply (leaked_held _ _ _ c).
    + by apply table_held.
    + unfold small. by rewrite zlen_arr_set.
    + by apply room_held.
    + lia.
    + rewrite zlen_arr_set. lia.
Qed.

Lemma wf_grow s s' : wf s -> mounts s' = mounts s -> handles s' = handles s -> fds s' = fds s ->
  leaked 0 (filesystems s) (filesystems s') -> room 0 (filesystems s) -> wf s'.
Proof.
  intros [] Em Eh Ef Hg Hm. destruct (leaked_ok _ _ _ Hg Hm (conj wf_fs0 wf_fs_full0)). split; rewrite ?Em, ?Eh, ?Ef; try done.
  intros id c Hc. apply wf_mount_fs0 in Hc as [x Hx]. destruct Hg as [_ Hg]. specialize (Hg (mfs (value c))).
  rewrite Hx in Hg. destruct Hg as (? & ? & _). by eexists.
Qed.

Lemma full_add {A} (a : rcparray A) v : full a -> small a -> full (fst (rcparray_add a v)).
Proof.
  intros Hf Hs i Hi. destruct (add_slots a v Hs) as (id & _ & _ & _ & Hn & Hnew & Hoth).
  destruct (decide (i = id)) as [->|]; [by rewrite Hnew|]. rewrite Hoth by done. apply Hf. 
  pose proof (rcparray_add_spec a v) as Hadd. destruct (rcparray_add a v) as [a' k]; destruct Hadd as (Hk & Hkn & _ & [Hk' _] & Hl).
  simpl in *. assert (k = id) as -> by (destruct (decide (k = id)); [done|]; rewrite Hoth in Hk' by done; congruence).
  destruct (decide (id < zlen a)); [|lia]. destruct (Hf id); [lia|done].
Qed.

Lemma wf_add_mount s mnt : wf s -> small (mounts s) -> is_Some (arr_slot (filesystems s) (mfs mnt)) ->
  (exists p, mount_text mnt p) -> wf (set_mounts s (fst (rcparray_add (mounts s) mnt))).
Proof.
  intros Hw Hs Hfs Hp. destruct (add_slots (mounts s) mnt Hs) as (id & _ & _ & _ & Hn & Hnew & Hoth). destruct Hw.
  split; cbn [filesystems mounts handles fds devices drv set_mounts]; try done.
  - by apply quiet_add.
  - by apply full_add.
  - intros j c Hc. destruct (decide (j = id)) as [->|].
    + rewrite Hnew in Hc. by injection Hc as <-.
    + rewrite Hoth in Hc by done. by apply (wf_mount_fs0 j).
  - intros j c Hc. destruct (decide (j = id)) as [->|].
    + rewrite Hnew in Hc. by injection Hc as <-.
    + rewrite Hoth in Hc by done. by apply (wf_mount_path0 j).
  - intros j c Hc. apply wf_handle_mount0 in Hc as [x Hx]. rewrite Hoth by congruence. by eexists.
Qed.

Lemma wf_register s fs : wf s -> small (filesystems s) -> wf (fs_register s fs).
Proof.
  intros Hw Hs. destruct (add_slots (filesystems s) fs Hs) as (id & _ & _ & _ & Hn & Hnew & Hoth). destruct Hw.
  unfold fs_register. split; cbn [filesystems mounts handles fds devices drv set_filesystems]; try done.
  - intros j c Hc. destruct (decide (j = id)) as [->|].
    + rewrite Hnew in Hc. injection Hc as <-. simpl. split; [done|unfold counted; simpl; lia].
    + rewrite Hoth in Hc by done. by apply (wf_fs0 j).
  - by apply full_add.
  - intros j c Hc. apply wf_mount_fs0 in Hc as [x Hx]. rewrite Hoth by congruence. by eexists.
Qed.

(** ** Every sequence of calls *)

Inductive call : Type :=
  | KRegister (fs : filesystem D)
  | KMount (dev : option (list Z)) (path : list Z) (fsname : option (list Z)) (finfo_tmp : Z) (scratch : list Z)
  | KOpen (path : list Z) (mode : Z)
  | KOpendir (path : list Z)
  | KFinfo (path : list Z) (finfo : Z)
  | KRead (fd buffer len : Z)
  | KWrite (fd buffer len : Z)
  | KSeek (fd offset mode : Z)
  | KIoctl (fd code data : Z)
  | KReaddir (fd dentry : Z)
  | KDup (fd : Z)
  | KClose (fd : Z).

Definition run (s : vfs D) (c : call) : res (vfs D * Z) :=
  match c with
  | KRegister fs => Ok (fs_register s fs, 0)
  | KMount dev path fsname finfo_tmp scratch => fs_mount s dev path fsname finfo_tmp scratch
  | KOpen path mode => fs_open s path mode
  | KOpendir path => fs_opendir s path
  | KFinfo path finfo => fs_finfo s path finfo
  | KRead fd buffer len => fd_read s fd buffer len
  | KWrite fd buffer len => fd_write s fd buffer len
  | KSeek fd offset mode => fd_seek s fd offset mode
  | KIoctl fd code data => fd_ioctl s fd code data
  | KReaddir fd dentry => fd_readdir s fd dentry
  | KDup fd => fd_dup s fd
  | KClose fd => fd_close s fd
  end.

Definition path_arg (path : list Z) : Prop :=
  exists t r, path = t ++ 0 :: r /\ nonul t /\ zlen t < 2 ^ 31 - 3 /\ object_ok path.

Definition args_ok (c : call) : Prop :=
  match c with
  | KRegister _ => True
  | KMount _ path _ _ scratch => path_arg path /\ zlen scratch = FMT_BUFFER
  | KOpen path _ | KOpendir path | KFinfo path _ => path_arg path
  | KRead fd _ _ | KWrite fd _ _ | KSeek fd _ _ | KIoctl fd _ _ | KReaddir fd _ | KDup fd | KClose fd => - 2 ^ 31 <= fd < 2 ^ 31
  end.

(** One call that returns, and a sequence of them. *)
Inductive step : call -> vfs D -> vfs D -> Prop :=
  | step_call s c s' r : smalls s -> args_ok c -> run s c = Ok (s', r) -> step c s s'.

Inductive steps : list call -> vfs D -> vfs D -> Prop :=
  | steps_none s : steps [] s s
  | steps_one c cs s s1 s2 : steps cs s s1 -> step c s1 s2 -> steps (c :: cs) s s2.

Definition is_mount (c : call) : bool := match c with KMount _ _ _ _ _ => true | _ => false end.
Definition mounts_in (cs : list call) : Z := zlen (filter is_mount cs).

(** A mount needs room in the counts of the filesystems, because it may leave one reference more. *)
Definition call_ok (s : vfs D) (c : call) : Prop :=
  match c with
  | KMount _ path _ _ scratch => (path_arg path /\ zlen scratch = FMT_BUFFER) /\ room 0 (filesystems s)
  | _ => args_ok c
  end.

Lemma fd_call_wf s fd set sel s' r : wf s -> smalls s -> - 2 ^ 31 <= fd < 2 ^ 31 ->
  fd_call s fd set (fun s i => handle_call s i sel) = Ok (s', r) -> wf s' /\ filesystems s' = filesystems s.
Proof.
  intros Hw Hs Hi Hrun. destruct (arr_slot (fds s) fd) as [c|] eqn:Hc.
  - destruct (wf_resolves s fd c Hw Hc) as (h & m & fs & Hres). rewrite (fd_call_hit s fd _ _ _ _ set sel Hw Hs Hres) in Hrun.
    destruct (set _); [|done]. apply bind_Ok in Hrun as (op & _ & Hrun). apply bind_Ok in Hrun as ([d ret] & _ & Hrun).
    injection Hrun as <- <-. split; [by apply wf_set_drv|done].
  - rewrite fd_call_miss in Hrun by done. by injection Hrun as <- <-.
Qed.

Lemma open_wf s t r sel ops s' fd : wf s -> smalls s -> nonul t ->
  ('(s, mount_id, ret) ← on_mount s (t ++ 0 :: r) sel;
   if is_error ret then Ok (s, ret)
   else let '(s, fs_fd) := handle_add s (mk_handle ret mount_id) in Ok (fd_add s (mk_fd fs_fd ops))) = Ok (s', fd) -> wf s' /\ filesystems s' = filesystems s.
Proof.
  intros Hw Hs Ht Hrun. destruct (open_common s t r sel ops Hw Hs Ht) as (id & n & _ & H).
  destruct H as [[_ H]|(cm & cs & Hcm & _ & H)].
  - rewrite H in Hrun. by injection Hrun as <- <-.
  - destruct (op ← res_of_option (sel (value cs)); op (drv s) (value cm) (below t r n)) as [[d ret]| | |];
      [|by rewrite H in Hrun..]. destruct (is_error ret).
    + rewrite H in Hrun. injection Hrun as <- <-. split; [by apply wf_set_drv|done].
    + destruct H as (s1 & fd1 & H & Hop). rewrite H in Hrun. injection Hrun as <- <-.
      split; [|by destruct Hop as (? & _ & _ & _ & _ & _ & _ & _ & _ & _ & _ & -> & _)].
      eapply opened_wf; [by apply wf_set_drv|exact Hs| |exact Hop]. by exists cm.
Qed.

Lemma fs_finfo_tables s t r finfo s' ret : wf s -> smalls s -> nonul t ->
  fs_finfo s (t ++ 0 :: r) finfo = Ok (s', ret) -> s' = s \/ exists d, s' = set_drv s d.
Proof.
  intros Hw Hs Ht Hrun. unfold fs_finfo in Hrun.
  destruct (on_mount_ok s t r (fun fs => (fun f d m p => f d m p finfo) <$> op_finfo fs) Hw Hs Ht)
    as (id & n & _ & [[He Hon]|(_ & cm & cs & _ & _ & Hon)]); rewrite Hon in Hrun; cbn [mbind res_bind] in Hrun.
  - rewrite He in Hrun. injection Hrun as <- <-. by left.
  - destruct (res_of_option _) as [op| | |]; try done. cbn [mbind res_bind] in Hrun.
    destruct (op (drv s) (value cm) (below t r n)) as [[d ret1]| | |]; try done. cbn [mbind res_bind] in Hrun.
    destruct (is_error ret1); injection Hrun as <- <-; eauto.
Qed.

Lemma fs_mount_wf s dev t r fsname finfo_tmp scratch s' ret : wf s -> smalls s -> nonul t -> zlen t < 2 ^ 31 - 3 ->
  object_ok (t ++ 0 :: r) -> zlen scratch = FMT_BUFFER -> room 0 (filesystems s) ->
  fs_mount s dev (t ++ 0 :: r) fsname finfo_tmp scratch = Ok (s', ret) -> wf s' /\ leaked 0 (filesystems s) (filesystems s').
Proof.
  intros Hw Hs Ht Hl Ho Hscr Hroom Hrun. unfold fs_mount in Hrun.
  set (sd := match dev with None => (s, -1) | Some n => let '(devs, id) := dev_name2id (devices s) n in (set_devices s devs, id) end) in Hrun.
  assert (exists devs id, sd = (set_devices s devs, id)) as (devs & id & Esd).
  { unfold sd. destruct dev as [n|]; [destruct (dev_name2id (devices s) n); eauto|]. exists (devices s), (-1). by destruct s. }
  rewrite Esd in Hrun. assert (wf (set_devices s devs)) as Hw1 by (destruct Hw; by split).
  destruct (match dev with Some _ => is_error id | None => false end); [injection Hrun as <- <-; split; [done|apply leaked_refl]|].
  apply bind_Ok in Hrun as (root & _ & Hrun). apply bind_Ok in Hrun as ([s1 fcode] & Hf & Hrun).
  assert (mounts s1 = mounts s /\ filesystems s1 = filesystems s /\ wf s1) as (Em & Efs & Hw2).
  { destruct (root =? 0); [by injection Hf as <- <-|]. 
    destruct (fs_finfo_tables (set_devices s devs) t r finfo_tmp s1 fcode Hw1 Hs Ht Hf) as [->|[d ->]]; split_and!; try done.
    by apply wf_set_drv. }
  destruct (is_error fcode); [injection Hrun as <- <-; split; [done|rewrite Efs; apply leaked_refl]|].
  apply bind_Ok in Hrun as ([[s2 mnt] ret2] & Hloop & Hrun). destruct Hs as (Hs1 & Hs2 & _).
  apply mount_loop_ok in Hloop as ((E1 & E2 & E3 & _) & Hg & Hnew);
    try done; [|by split; [apply (wf_fs s1)|apply (wf_fs_full s1)]|by rewrite Efs..].
  assert (wf s2) as Hw3 by (apply (wf_grow s1); rewrite ?Efs; try done; by rewrite <- Efs). rewrite Efs in Hg. destruct (is_error ret2); [by injection Hrun as <- <-|].
  destruct (Hnew eq_refl) as [Hfs Hp]. assert (small (mounts s2)) as Hsm by (by rewrite E1, Em).
  destruct (add_slots (mounts s2) mnt Hsm) as (mid & E & _). rewrite E in Hrun. injection Hrun as <- <-. split; [by apply wf_add_mount|exact Hg].
Qed.

(** What a call does to the table of filesystems. *)
Definition fs_change (s : vfs D) (c : call) (s' : vfs D) : Prop :=
  match c with
  | KRegister fs => filesystems s' = fst (rcparray_add (filesystems s) fs)
  | KMount _ _ _ _ _ => leaked 0 (filesystems s) (filesystems s')
  | _ => filesystems s' = filesystems s
  end.

Lemma call_result_ok s c s' r : wf s -> smalls s -> call_ok s c -> run s c = Ok (s', r) -> wf s' /\ fs_change s c s'.
Proof.
  intros Hw Hs Hc Hrun. destruct c; cbn [run call_ok args_ok fs_change] in *; try (by eapply fd_call_wf).
  - injection Hrun as <- <-. split; [apply wf_register; [done|apply Hs]|done].
  - destruct Hc as [[(t & x & -> & Ht & Hl & Ho) Hscr] Hroom]. by eapply fs_mount_wf.
  - destruct Hc as (t & x & -> & Ht & _). by eapply open_wf.
  - destruct Hc as (t & x & -> & Ht & _). by eapply open_wf.
  - destruct Hc as (t & x & -> & Ht & _). apply fs_finfo_tables in Hrun as [->|[d ->]]; try done. split; [by apply wf_set_drv|done].
  - destruct (arr_slot (fds s) fd) as [cf|] eqn:E.
    + destruct (wf_resolves s fd cf Hw E) as (h & m & fs & Hres). rewrite (fd_dup_hit s fd _ _ _ _ Hw Hs Hres) in Hrun.
      destruct (o_dup _); [|done]. apply bind_Ok in Hrun as (op & _ & Hrun). apply bind_Ok in Hrun as ([d ret] & _ & Hrun).
      destruct (is_error ret); [injection Hrun as <- <-; split; [by apply wf_set_drv|done]|].
      destruct (open_tables (set_drv s d) (h_ifd h) (h_mount h) (f_ops (value cf)) Hs) as (s1 & fd1 & E1 & Hop).
      assert (mk_handle (h_ifd h) (h_mount h) = h) as Eh by (by destruct h). rewrite Eh in E1.
      destruct (handle_add (set_drv s d) h). rewrite E1 in Hrun. injection Hrun as <- <-.
      split; [|by destruct Hop as (? & _ & _ & _ & _ & _ & _ & _ & _ & _ & _ & -> & _)].
      eapply opened_wf; [by apply wf_set_drv|exact Hs| |exact Hop].
      destruct Hres as (? & ? & cm & ? & _ & _ & _ & _ & Hcm & _). by exists cm.
    + unfold fd_dup in Hrun. destruct Hs as (_ & _ & _ & Hsf).
      destruct (get_cases (fds s) fd (wf_fds s Hw) Hsf Hc) as [(c & Hcc & _)|(_ & Eg)]; [congruence|].
      rewrite Eg in Hrun. injection Hrun as <- <-. by destruct s.
  - destruct (arr_slot (fds s) fd) as [cf|] eqn:E.
    + destruct (wf_resolves s fd cf Hw E) as (h & m & fs & Hres). rewrite (fd_close_hit s fd _ _ _ _ Hw Hs Hres) in Hrun.
      destruct (o_close _); [|done]. apply bind_Ok in Hrun as (op & _ & Hrun). apply bind_Ok in Hrun as ([d ret] & _ & Hrun).
      injection Hrun as <- <-. split; [|done]. apply wf_set_drv. by eapply closed_wf.
    + rewrite fd_close_miss in Hrun by done. by injection Hrun as <- <-.
Qed.

Lemma run_wf s c s' r : wf s -> smalls s -> call_ok s c -> run s c = Ok (s', r) -> wf s'.
Proof. intros Hw Hs Hc Hrun. by apply (call_result_ok s c s' r). Qed.

(** No filesystem has more than [n] references. *)
Definition at_most (n : Z) (s : vfs D) : Prop := forall id c, arr_slot (filesystems s) id = Some c -> refs c <= n.

Lemma call_step_ok c s s' n : step c s s' -> wf s -> at_most n s -> 1 <= n -> n < 2 ^ 31 - 1 -> wf s' /\ at_most (n + mounts_in [c]) s'.
Proof.
  intros [s0 k s1 r Hs Ha Hr] Hw Hn H1 Hlt. assert (call_ok s0 k) as Hk.
  { destruct k; try exact Ha. split; [exact Ha|]. intros id x _ Hx. specialize (Hn id x Hx). lia. }
  destruct (call_result_ok s0 k s1 r Hw Hs Hk Hr) as [Hw' Hc]. split; [done|]. unfold mounts_in. intros id x Hx.
  destruct k; cbn [fs_change is_mount filter list_filter] in *; change (zlen (@nil call)) with 0; rewrite ?Z.add_0_r; try (rewrite Hc in Hx; by apply (Hn id)).
  - destruct Hs as [Hs _]. destruct (add_slots (filesystems s0) fs Hs) as (i & _ & _ & _ & _ & Hnew & Hoth). rewrite Hc in Hx.
    destruct (decide (id = i)) as [->|]; [rewrite Hnew in Hx; injection Hx as <-; simpl; lia|]. rewrite Hoth in Hx by done. by apply (Hn id).
  - destruct Hc as [_ Hc]. specialize (Hc id). destruct (arr_slot (filesystems s0) id) as [y|] eqn:Ey; [|congruence].
    destruct Hc as (c' & Ec & _ & _ & Hcr). rewrite Hx in Ec. injection Ec as <-. specialize (Hn id y Ey). simpl. unfold zlen. simpl. destruct Hcr as [?|[_ ?]]; lia.
Qed.

(** The tables at boot. *)
Definition boot (devs : rcparray (list Z)) (d : D) : vfs D := mk_vfs [] [] [] [] devs d.

Lemma boot_wf devs d : wf (boot devs d).
Proof.
  assert (forall A (id : Z), arr_slot ([] : rcparray A) id = None) as Hn.
  { intros A id. destruct (arr_slot ([] : rcparray A) id) eqn:E; [|done]. apply arr_slot_range in E. unfold zlen in E. simpl in E. lia. }
  split; unfold boot, quiet, full; cbn [filesystems mounts handles fds];
    try (intros; rewrite Hn in *; done); try (intros i Hi; unfold zlen in Hi; simpl in Hi; lia).
Qed.

Lemma mounts_in_cons c cs : mounts_in (c :: cs) = mounts_in [c] + mounts_in cs.
Proof. unfold mounts_in. rewrite !filter_cons. by case_decide; rewrite ?zlen_cons, ?filter_nil; change (zlen (@nil call)) with 0; lia. Qed.

Lemma steps_ok cs s0 s : steps cs s0 s -> wf s0 -> at_most 1 s0 -> mounts_in cs < 2 ^ 31 - 2 -> wf s /\ at_most (1 + mounts_in cs) s.
Proof.
  induction 1 as [|c cs s0 s1 s2 Hcs IH Hc]; intros Hw Hm Hn; [by split|]. rewrite mounts_in_cons in *.
  pose proof (zlen_nonneg (filter is_mount cs)). pose proof (zlen_nonneg (filter is_mount [c])). unfold mounts_in in *.
  destruct (IH Hw Hm ltac:(lia)) as [Hw1 Hm1]. destruct (call_step_ok c s1 s2 _ Hc Hw1 Hm1 ltac:(lia) ltac:(lia)) as [Hw2 Hm2].
  split; [done|]. intros id x Hx. specialize (Hm2 id x Hx). unfold mounts_in in Hm2. lia.
Qed.


(** A filesystem that is not the one asked for is passed over with the reference that the loop has
    taken on it. *)
Theorem fs_mount_leaks s s' (k : cell (filesystem D)) rest n finfo_tmp scratch r x :
  wf s -> smalls s -> room 0 (filesystems s) -> zlen scratch = FMT_BUFFER -> filesystems s = Some k :: rest ->
  strcmp (fs_name (value k)) n = Ok x -> x <> 0 ->
  fs_mount s None (bytes "/" ++ [0]) (Some n) finfo_tmp scratch = Ok (s', r) ->
  exists k', arr_slot (filesystems s') 0 = Some k' /\ refs k' = refs k + 1.
Proof.
  intros Hw Hs Hroom Hscr Hfs Hcmp Hx Hrun. assert (arr_slot (filesystems s) 0 = Some k) as Hk by (by rewrite Hfs).
  destruct (wf_fs s Hw 0 k Hk) as [Hp Hr]. pose proof (Hroom 0 k ltac:(lia) Hk) as Hlt. unfold fs_mount in Hrun. cbn [mbind res_bind] in Hrun.
  assert (strcmp (bytes "/" ++ [0]) (bytes "/" ++ [0]) = Ok 0) as E by (vm_compute; reflexivity). rewrite E in Hrun. cbn [mbind res_bind Z.eqb is_error Z.ltb Z.compare] in Hrun.
  rewrite Hfs in Hrun at 1. cbn [length mount_loop] in Hrun.
  assert (foreach_more (filesystems s) 0 = true) as Hm by (apply foreach_more_true; [lia|]; exists 0, k; done). rewrite Hm in Hrun.
  rewrite (get_hit _ _ k) in Hrun by (done || apply Hs). rewrite Hcmp in Hrun. cbn [mbind res_bind] in Hrun. destruct (Z.eqb_spec x 0); [done|].
  apply bind_Ok in Hrun as ([[s2 mnt] ret2] & Hloop & Hrun).
  apply (mount_loop_ok [47] []) in Hloop as (_ & [_ Hg] & _); try done; cbn [filesystems set_filesystems].
  - specialize (Hg 0). cbn [filesystems set_filesystems] in Hg. rewrite arr_slot_set in Hg by (by eapply arr_slot_range). destruct Hg as (k' & E1 & _ & _ & [E2|[? _]]); [|lia].
    exists k'. destruct (is_error ret2); [injection Hrun as <- <-|destruct (rcparray_add (mounts s2) mnt); injection Hrun as <- <-]; (split; [exact E1|]); rewrite E2; unfold set_refs; cbn [refs]; apply s32_small; destruct Hr; lia.
  - repeat constructor; lia.
  - split; [change (zlen ([47] ++ [0])) with 2; lia|]. repeat constructor; lia.
  - apply table_held; [done|done|]. split; [apply (wf_fs s Hw)|apply (wf_fs_full s Hw)].
  - unfold small. rewrite zlen_arr_set. apply Hs.
  - by apply room_held.
  - rewrite zlen_arr_set, Hfs, zlen_cons. unfold zlen. lia.
Qed.

(** [fs_get_mount] picks, among the mounts whose path without its last slash begins the given
    path, one with the longest path, the latest of equals; it answers the rest of the path when
    that rest begins with a slash and [/] otherwise, and [-ENOENT] when no mount matches.  No
    mount is left referenced. *)
Theorem fs_get_mount_longest s (t r : list Z) :
  wf s -> small (mounts s) -> nonul t ->
  exists id n new_path, fs_get_mount s (t ++ 0 :: r) = Ok (s, id, new_path) /\
    ((id = - rc ENOENT /\ forall j m, 0 <= j < zlen (mounts s) -> ~ covers s t j m) \/
     (covers s t id n /\ new_path = below t r n /\
      forall j m, 0 <= j < zlen (mounts s) -> covers s t j m -> m < n \/ m = n /\ j <= id)).
Proof.
  intros Hw Hs Ht. destruct (fs_get_mount_ok s t r Hw Hs Ht) as (id & n & Hb & Hget). exists id, n, (if is_error id then [] else below t r n).
  split; [done|]. destruct Hb as [(-> & _ & Hno)|(Hid & Hc & Hbest)]; [by left|right].
  assert (is_error id = false) as -> by (unfold is_error; destruct (Z.ltb_spec id 0); [lia|done]). done.
Qed.

(** The match does not stop at a name's end: a path that only begins with the letters of a
    mounted directory, such as [/device] with [/dev/] mounted, belongs to that mount and is
    handed to its driver as [/]. *)
Theorem fs_get_mount_no_boundary s (id x : Z) (c : cell mount) (p y r : list Z) :
  wf s -> small (mounts s) -> nonul (p ++ x :: y) -> x <> 47 ->
  arr_slot (mounts s) id = Some c -> mount_text (value c) p ->
  (forall j m, covers s (p ++ x :: y) j m -> j <> id -> m < zlen p) ->
  fs_get_mount s (p ++ x :: y ++ 0 :: r) = Ok (s, id, bytes "/" ++ [0]).
Proof.
  intros Hw Hs Ht Hx Hc Hp Hlong. replace (p ++ x :: y ++ 0 :: r) with ((p ++ x :: y) ++ 0 :: r) by (by rewrite <- app_assoc).
  destruct (fs_get_mount_ok s (p ++ x :: y) r Hw Hs Ht) as (id' & n & Hb & ->). pose proof (arr_slot_range _ _ _ Hc) as Hr.
  assert (covers s (p ++ x :: y) id (zlen p)) as Hcov by (exists c, p; split_and!; try done; by eexists).
  destruct Hb as [(_ & _ & Hno)|(Hid & Hc' & Hbest)]; [by destruct (Hno id (zlen p) ltac:(lia))|].
  assert (id' = id) as ->.
  { destruct (decide (id' = id)) as [|Hne]; [done|]. specialize (Hlong id' n Hc' Hne). destruct (Hbest id (zlen p) ltac:(lia) Hcov); lia. }
  destruct Hc' as (c' & p' & Hc' & Hp' & _ & ->). rewrite Hc in Hc'. injection Hc' as <-.
  rewrite <- (mount_text_inj _ _ _ Hp Hp').
  assert (is_error id = false) as -> by (unfold is_error; destruct (Z.ltb_spec id 0); [lia|done]).
  unfold below. replace (Z.to_nat (zlen p)) with (length p) by (unfold zlen; lia). rewrite drop_app_length. cbn [head].
  destruct (decide (Some x = Some 47)); [congruence|done].
Qed.

End VfsLaws.

(** ** A driver to run the kernel with: it answers with what it is asked and keeps a log *)
Module Demo.
Definition log (k : Z) (d : list Z) (x : Z) : res (list Z * Z) := Ok (k :: x :: d, x).

Definition logfs : filesystem (list Z) := {|
  fs_name := bytes "logfs" ++ [0];
  op_mount := Some (fun d m => Ok (1 :: d, m, 0));
  op_open := Some (fun d _ p _ => log 2 d (zlen p));
  op_read := Some (fun d _ i _ len => log 3 d (i + len));
  op_write := None;
  op_seek := Some (fun d _ i o _ => log 5 d o);
  op_close := Some (fun d _ i => log 6 d i);
  op_ioctl := None;
  op_opendir := Some (fun d _ p => log 8 d (zlen p));
  op_readdir := None;
  op_finfo := Some (fun d _ p _ => log 10 d 0);
  op_dup := Some (fun d _ i => log 11 d 99) |}.

Definition scratch : list Z := replicate 72 0.
Definition root_mount : mount := mk_mount (bytes "/" ++ replicate 15 0) (-1) 0 0.
Definition dev_mount : mount := mk_mount (bytes "/dev/" ++ replicate 11 0) (-1) 0 0.

(** After the registration, after the mounts of [/] and of [/dev/], and after an open. *)
Definition s1 : vfs (list Z) := mk_vfs [Some (mk_cell 1 true logfs)] [] [] [] [] [].
Definition s2 : vfs (list Z) := mk_vfs [Some (mk_cell 1 true logfs)] [Some (mk_cell 1 true root_mount)] [] [] [] [1].
Definition s3 : vfs (list Z) := mk_vfs [Some (mk_cell 1 true logfs)]
  [Some (mk_cell 1 true root_mount); Some (mk_cell 1 true dev_mount)] [] [] [] [1; 10; 0; 1].
Definition s4 : vfs (list Z) := mk_vfs [Some (mk_cell 1 true logfs)]
  [Some (mk_cell 1 true root_mount); Some (mk_cell 1 true dev_mount)]
  [Some (mk_cell 1 true (mk_handle 5 1))] [Some (mk_cell 1 true (mk_fd 0 open_ops))] [] [2; 5; 1; 10; 0; 1].

Lemma path_ok p : bool_decide (nonul p) = true -> bool_decide (zlen p < 2 ^ 30) = true -> path_arg (p ++ [0]).
Proof.
  intros H1%bool_decide_eq_true H2%bool_decide_eq_true. exists p, []. split_and!; [done|done|lia|].
  split; [rewrite zlen_app; change (zlen [0]) with 1; lia|]. apply Forall_app. split; [|constructor; [lia|done]].
  eapply Forall_impl; [exact H1|]. simpl. lia.
Qed.

Definition mount_root : call (D := list Z) := KMount None (bytes "/" ++ [0]) None 0 scratch.
Definition mount_dev : call (D := list Z) := KMount None (bytes "/dev/" ++ [0]) (Some (bytes "logfs" ++ [0])) 0 scratch.
Definition open_tty : call (D := list Z) := KOpen (bytes "/dev/tty" ++ [0]) 1.
Lemma step12 : step mount_root s1 s2.
Proof. apply (step_call s1 mount_root s2 0); [split_and!; vm_compute; reflexivity|split; [by apply path_ok|done]|vm_compute; reflexivity]. Qed.
Lemma step23 : step mount_dev s2 s3.
Proof. apply (step_call s2 mount_dev s3 1); [split_and!; vm_compute; reflexivity|split; [by apply path_ok|done]|vm_compute; reflexivity]. Qed.
Lemma step34 : step open_tty s3 s4.
Proof. apply (step_call s3 open_tty s4 0); [split_and!; vm_compute; reflexivity|by apply path_ok|vm_compute; reflexivity]. Qed.
Lemma boots3 : steps [mount_dev; mount_root; KRegister logfs] (boot [] []) s3.
Proof.
  eapply steps_one; [|exact step23]. eapply steps_one; [|exact step12]. eapply steps_one; [apply steps_none|].
  apply (step_call (boot [] []) (KRegister logfs) s1 0); [split_and!; vm_compute; reflexivity|done|done].
Qed.
Lemma boots : steps [open_tty; mount_dev; mount_root; KRegister logfs] (boot [] []) s4.
Proof. eapply steps_one; [exact boots3|exact step34]. Qed.
Lemma boot_none : at_most 1 (boot [] [] : vfs (list Z)).
Proof. intros id x Hx. apply arr_slot_range in Hx. unfold zlen in Hx. simpl in Hx. lia. Qed.
Lemma wf3 : wf s3.
Proof. by apply (steps_ok _ _ _ boots3 (boot_wf [] []) boot_none). Qed.
Lemma wf4 : wf s4.
Proof. by apply (steps_ok _ _ _ boots (boot_wf [] []) boot_none). Qed.
Lemma smalls3 : smalls s3.
Proof. split_and!; vm_compute; reflexivity. Qed.
Lemma smalls4 : smalls s4.
Proof. split_and!; vm_compute; reflexivity. Qed.
End Demo.

Lemma fd_ops_dispatch_witness :
  fd_read Demo.s4 0 7 8 = Ok (set_drv Demo.s4 (3 :: 13 :: drv Demo.s4), 13) /\ fd_read Demo.s4 5 7 8 = Ok (Demo.s4, - rc EBADF).
Proof.
  pose proof (fd_ops_dispatch Demo.s4 0 7 8 Demo.wf4 Demo.smalls4 ltac:(split; vm_compute; congruence)) as H.
  pose proof (fd_ops_dispatch Demo.s4 5 7 8 Demo.wf4 Demo.smalls4 ltac:(split; vm_compute; congruence)) as H5.
  split; [|destruct H5 as [H5 _]; exact H5]. destruct H as (h & m & fs & (cf & ch & cm & cs & Hf & _ & Hh & <- & Hm & <- & Hfs & <-) & Hread & _).
  vm_compute in Hh. injection Hh as <-. vm_compute in Hm. injection Hm as <-. vm_compute in Hfs. injection Hfs as <-. exact Hread.
Defined.

Lemma fs_open_branches_witness : exists s' fd, fs_open Demo.s3 (bytes "/dev/tty" ++ [0]) 1 = Ok (s', fd) /\ fd = 0.
Proof.
  destruct (fs_open_branches Demo.s3 (bytes "/dev/tty") [] 1 Demo.wf3 Demo.smalls3 ltac:(decided)) as (id & n & _ & [[_ H]|_]).
  - vm_compute in H. discriminate H.
  - eexists _, _. vm_compute. done.
Defined.

Lemma fs_open_close_restores_witness :
  fs_open Demo.s3 (bytes "/dev/tty" ++ [0]) 1 = Ok (Demo.s4, 0) /\
  let s5 := set_drv (closed Demo.s4 0 0) (6 :: 5 :: drv Demo.s4) in
  fd_close Demo.s4 0 = Ok (s5, 5) /\ fd_close s5 0 = Ok (s5, - rc EBADF).
Proof.
  assert (fs_open Demo.s3 (bytes "/dev/tty" ++ [0]) 1 = Ok (Demo.s4, 0)) as Hopen by (vm_compute; reflexivity).
  assert (fd_close Demo.s4 0 = Ok (set_drv (closed Demo.s4 0 0) (6 :: 5 :: drv Demo.s4), 5)) as Hclose by (vm_compute; reflexivity).
  split; [exact Hopen|]. split; [exact Hclose|].
  apply (fs_open_close_restores Demo.s3 (bytes "/dev/tty") [] 1 0 Demo.s4 _ 5 Demo.wf3 Demo.smalls3 ltac:(decided) Hopen
    ltac:(lia) Demo.smalls4 Hclose).
Defined.

Lemma fd_dup_same_file_witness : exists s' fd', fd_dup Demo.s4 0 = Ok (s', fd') /\ fd' <> 0.
Proof.
  destruct (wf_resolves Demo.s4 0 (mk_cell 1 true (mk_fd 0 open_ops)) Demo.wf4 ltac:(vm_compute; reflexivity)) as (h & m & fs & Hres).
  pose proof Hres as (cf & ch & cm & cs & Hf & _ & Hh & Eh & Hm & Em & Hfs & Efs). subst h m fs.
  vm_compute in Hh. injection Hh as <-. vm_compute in Hm. injection Hm as <-. vm_compute in Hfs. injection Hfs as <-.
  destruct (fd_dup_same_file Demo.s4 0 _ _ _ _ (fun d _ i => Demo.log 11 d 99) (11 :: 99 :: drv Demo.s4) 99
    Demo.wf4 Demo.smalls4 Hres eq_refl eq_refl eq_refl) as (s' & fd' & f' & H & Hne & _).
  by exists s', fd'.
Defined.


Lemma fs_get_mount_longest_witness :
  exists id n new_path, fs_get_mount Demo.s3 (bytes "/dev/tty" ++ [0]) = Ok (Demo.s3, id, new_path) /\ id = 1 /\
    (covers Demo.s3 (bytes "/dev/tty") id n \/ id = - rc ENOENT).
Proof.
  destruct (fs_get_mount_longest Demo.s3 (bytes "/dev/tty") [] Demo.wf3 ltac:(vm_compute; reflexivity) ltac:(decided))
    as (id & n & np & H & Hc). exists id, n, np. split; [done|].
  vm_compute in H. injection H as <- <-. split; [done|]. destruct Hc as [[? _]|[? _]]; auto.
Defined.

Lemma fs_get_mount_no_boundary_witness :
  fs_get_mount Demo.s3 (bytes "/device" ++ [0]) = Ok (Demo.s3, 1, bytes "/" ++ [0]).
Proof.
  apply (fs_get_mount_no_boundary Demo.s3 1 105 (mk_cell 1 true Demo.dev_mount)
    (bytes "/dev") (bytes "ce") [] Demo.wf3 ltac:(vm_compute; reflexivity) ltac:(decided) ltac:(lia) ltac:(vm_compute; reflexivity)).
  - split_and!; [decided|decided|]. by exists (replicate 10 0).
  - intros j m (c & p & Hc & Hp & _ & ->) Hj. pose proof (arr_slot_range _ _ _ Hc) as Hr.
    assert (zlen (mounts Demo.s3) = 2) as E by (vm_compute; reflexivity). rewrite E in Hr.
    assert (j = 0) as -> by lia. vm_compute in Hc. injection Hc as <-.
    assert (p = []) as ->; [|vm_compute; reflexivity].
    apply (mount_text_inj _ _ _ Hp). split_and!; [decided|decided|]. by eexists.
Defined.

