(* ===== verification/Files.v ===== *)
(** * Files as the kernel itself reads them

    The loader of programs and the loader of the kernel's symbols open a file, seek in it and read
    it.  [FileOps] are the four calls they make, [FileLaws] what those promise of an open file: it
    is its bytes and a position.  fs/fs.c and fs/fd.c keep the promise for any driver that does
    ([vfs_files]); the bytes a driver puts behind the pointer it is given are [moved]. *)
From S2P Require Import Prelude Strings Rcp Vfs.

Definition SEEK_SET : Z := 0.
Definition FS_MODE_READ : Z := 1.

Class FileOps (S : Type) := {
  file_open : S -> list Z -> Z -> res (S * Z);
  file_read : S -> Z -> Z -> res (S * list Z * Z);
  file_seek : S -> Z -> Z -> Z -> res (S * Z);
  file_close : S -> Z -> res (S * Z) }.

(** The bytes of a read of [len] at [p]. *)
Definition read_of (c : list Z) (p len : Z) : list Z := slice c p len.

Class FileLaws (S : Type) `{FileOps S} := {
  open_at : S -> Z -> list Z -> Z -> Prop;
  listed : S -> Z -> Prop;
  law_read s fd c p len : open_at s fd c p -> 0 <= len < 2 ^ 63 ->
    exists s', file_read s fd len = Ok (s', read_of c p len, zlen (read_of c p len)) /\ open_at s' fd c (p + zlen (read_of c p len)) /\
      forall x, listed s' x <-> listed s x;
  law_seek s fd c p o : open_at s fd c p -> 0 <= o < 2 ^ 62 ->
    exists s' r, file_seek s fd o SEEK_SET = Ok (s', r) /\ open_at s' fd c (Z.min o (zlen c)) /\ forall x, listed s' x <-> listed s x;
  law_close s fd c p : open_at s fd c p -> exists s' r, file_close s fd = Ok (s', r) /\ forall x, listed s' x <-> listed s x /\ x <> fd }.

Lemma slice_end {A} (l : list A) o n : 0 <= o -> slice l (Z.min o (zlen l)) n = slice l o n.
Proof.
  intros Ho. unfold slice, zlen. destruct (decide (o <= Z.of_nat (length l))); [by rewrite Z.min_l by done|]. rewrite Z.min_r by lia. rewrite Nat2Z.id, !drop_ge by lia. done.
Qed.

(** ** The calls of fs/fd.c *)
Section VfsFiles.
Context {D : Type} (moved : D -> list Z) (file_at : filesystem D -> mount -> D -> Z -> list Z -> Z -> Prop).

Definition BUFFER : Z := 0.

#[local] Instance vfs_ops : FileOps (vfs D) := {|
  file_open s path mode := fs_open s path mode;
  file_read s fd len := '(s, r) ← fd_read s fd BUFFER len; Ok (s, moved (drv s), r);
  file_seek s fd o mode := fd_seek s fd o mode;
  file_close s fd := fd_close s fd |}.

(** What a driver promises of a file: the same. *)
Class DriverFiles : Prop := {
  drv_read fs m d i c p len : file_at fs m d i c p -> 0 <= len < 2 ^ 63 -> exists f d', op_read fs = Some f /\ f d m i BUFFER len = Ok (d', zlen (read_of c p len)) /\
    moved d' = read_of c p len /\ file_at fs m d' i c (p + zlen (read_of c p len));
  drv_seek fs m d i c p o : file_at fs m d i c p -> 0 <= o < 2 ^ 62 -> exists f d' r, op_seek fs = Some f /\ f d m i o SEEK_SET = Ok (d', r) /\ file_at fs m d' i c (Z.min o (zlen c));
  drv_close fs m d i c p : file_at fs m d i c p -> exists f d' r, op_close fs = Some f /\ f d m i = Ok (d', r) }.

Context `{!DriverFiles}.

Definition vfs_open_at (s : vfs D) (fd : Z) (c : list Z) (p : Z) : Prop :=
  wf s /\ smalls s /\ exists f h m fs, resolves s fd f h m fs /\ f_ops f = open_ops /\ file_at fs m (drv s) (h_ifd h) c p.
Definition vfs_listed (s : vfs D) (fd : Z) : Prop := is_Some (arr_slot (fds s) fd).

Lemma vfs_laws_read s fd c p len : vfs_open_at s fd c p -> 0 <= len < 2 ^ 63 ->
  exists s', file_read s fd len = Ok (s', read_of c p len, zlen (read_of c p len)) /\ vfs_open_at s' fd c (p + zlen (read_of c p len)) /\ forall x, vfs_listed s' x <-> vfs_listed s x.
Proof.
  intros (Hw & Hs & f & h & m & fs & Hr & Ef & Ha) Hl. destruct (drv_read _ _ _ _ _ _ len Ha Hl) as (op & d' & Eop & Er & Em & Ha').
  cbn [file_read vfs_ops]. unfold fd_read, _fs_read. rewrite (fd_call_hit s fd f h m fs) by done. rewrite Ef, Eop. cbn [o_read open_ops fmap option_fmap option_map res_of_option mbind res_bind].
  rewrite Er. cbn [mbind res_bind drv set_drv]. rewrite Em. exists (set_drv s d'). split; [done|]. split; [|done]. split; [by apply wf_set_drv|]. split; [done|]. by exists f, h, m, fs.
Qed.

Lemma vfs_laws_seek s fd c p o : vfs_open_at s fd c p -> 0 <= o < 2 ^ 62 ->
  exists s' r, file_seek s fd o SEEK_SET = Ok (s', r) /\ vfs_open_at s' fd c (Z.min o (zlen c)) /\ forall x, vfs_listed s' x <-> vfs_listed s x.
Proof.
  intros (Hw & Hs & f & h & m & fs & Hr & Ef & Ha) Ho. destruct (drv_seek _ _ _ _ _ _ o Ha Ho) as (op & d' & r & Eop & Er & Ha').
  cbn [file_seek vfs_ops]. unfold fd_seek, _fs_seek. rewrite (fd_call_hit s fd f h m fs) by done. rewrite Ef, Eop. cbn [o_seek open_ops fmap option_fmap option_map res_of_option mbind res_bind].
  rewrite Er. cbn [mbind res_bind]. exists (set_drv s d'), r. split; [done|]. split; [|done]. split; [by apply wf_set_drv|]. split; [done|]. by exists f, h, m, fs.
Qed.

Lemma vfs_laws_close s fd c p : vfs_open_at s fd c p -> exists s' r, file_close s fd = Ok (s', r) /\ forall x, vfs_listed s' x <-> vfs_listed s x /\ x <> fd.
Proof.
  intros (Hw & Hs & f & h & m & fs & Hr & Ef & Ha). destruct (drv_close _ _ _ _ _ _ Ha) as (op & d' & r & Eop & Er).
  cbn [file_close vfs_ops]. rewrite (fd_close_hit s fd f h m fs) by done. rewrite Ef, Eop. cbn [o_close open_ops res_of_option mbind res_bind]. rewrite Er. cbn [mbind res_bind].
  eexists _, r. split; [done|]. destruct Hr as (cf & _ & _ & _ & Hf & _). pose proof (arr_slot_range _ _ _ Hf). intros x. unfold vfs_listed. cbn [fds closed set_handles set_fds set_drv].
  destruct (decide (x = fd)) as [->|Hne].
  - rewrite arr_slot_set by done. split; [by intros []|by intros []].
  - rewrite arr_slot_set_ne by (done || lia). tauto.
Qed.

#[local] Instance vfs_files : FileLaws (vfs D) := {|
  open_at := vfs_open_at; listed := vfs_listed; law_read := vfs_laws_read; law_seek := vfs_laws_seek; law_close := vfs_laws_close |}.
End VfsFiles.

(** ** A driver with one file, in memory *)
Module RamFile.
Record ram := mk_ram { r_content : list Z; r_pos : Z; r_moved : list Z }.

Definition ramfs : filesystem ram := {|
  fs_name := bytes "ramfs" ++ [0];
  op_mount := Some (fun d m => Ok (d, m, 0));
  op_open := Some (fun d _ _ _ => Ok (mk_ram (r_content d) 0 [], 7));
  op_read := Some (fun d _ _ _ len => let b := slice (r_content d) (r_pos d) len in Ok (mk_ram (r_content d) (r_pos d + zlen b) b, zlen b));
  op_write := None;
  op_seek := Some (fun d _ _ o _ => Ok (mk_ram (r_content d) (Z.min o (zlen (r_content d))) [], 0));
  op_close := Some (fun d _ _ => Ok (d, 0));
  op_ioctl := None; op_opendir := None; op_readdir := None;
  op_finfo := Some (fun d _ p _ => Ok (mk_ram (r_content d) (r_pos d) [if zlen p <? 4 then 2 else 1], 0));
  op_dup := Some (fun d _ i => Ok (d, i)) |}.

(** The type of what was asked for last: the root is a directory, a longer path a file. *)
Definition ram_type (d : ram) (_ : Z) : Z := default 0 (head (r_moved d)).

Definition ram_at (fs : filesystem ram) (m : mount) (d : ram) (i : Z) (c : list Z) (p : Z) : Prop := fs = ramfs /\ r_content d = c /\ r_pos d = p.

#[export] Instance ram_ops : FileOps (vfs ram) := vfs_ops r_moved.

#[export] Instance ram_driver : DriverFiles r_moved ram_at.
Proof.
  split.
  - intros fs m d i c p len (-> & <- & <-) Hl. eexists _, _. split; [done|]. split; [done|]. done.
  - intros fs m d i c p o (-> & <- & <-) Ho. eexists _, _, _. split; [done|]. split; [done|]. done.
  - intros fs m d i c p (-> & <- & <-). eexists _, _, _. done.
Qed.

#[export] Instance ram_files : FileLaws (vfs ram) := vfs_files r_moved ram_at.

(** After the registration and the mount of [/]. *)
Definition registered (c : list Z) : vfs ram := mk_vfs [Some (mk_cell 1 true ramfs)] [] [] [] [] (mk_ram c 0 []).
Definition mounted (c : list Z) : vfs ram := mk_vfs [Some (mk_cell 1 true ramfs)] [Some (mk_cell 1 true Demo.root_mount)] [] [] [] (mk_ram c 0 []).
Definition opened (c : list Z) : vfs ram := mk_vfs [Some (mk_cell 1 true ramfs)] [Some (mk_cell 1 true Demo.root_mount)]
  [Some (mk_cell 1 true (mk_handle 7 0))] [Some (mk_cell 1 true (mk_fd 0 open_ops))] [] (mk_ram c 0 []).

Lemma open_eq c path mode : path_arg (47 :: path) -> fs_open (mounted c) (47 :: path) mode = Ok (opened c, 0) -> wf (opened c).
Proof.
  intros Hp E. assert (wf (registered c)) as H1 by (apply (wf_register (boot [] (mk_ram c 0 [])) ramfs); [apply boot_wf|vm_compute; reflexivity]).
  assert (wf (mounted c)) as H2.
  { apply (run_wf (registered c) (KMount None (bytes "/" ++ [0]) None 0 Demo.scratch) (mounted c) 0 H1); [split_and!; vm_compute; reflexivity| |vm_compute; reflexivity].
    split; [split; [by apply (Demo.path_ok (bytes "/"))|done]|]. intros id k _ Hk. pose proof (arr_slot_range _ _ _ Hk) as Hr. change (zlen (filesystems (registered c))) with 1 in Hr. assert (id = 0) as -> by lia. by injection Hk as <-. }
  apply (run_wf (mounted c) (KOpen (47 :: path) mode) (opened c) 0 H2); [split_and!; vm_compute; reflexivity|exact Hp|exact E].
Qed.

Lemma opened_at c : wf (opened c) -> open_at (opened c) 0 c 0.
Proof.
  intros Hw. split; [done|]. split; [split_and!; vm_compute; reflexivity|]. eexists _, _, _, _. split; [|split; [|split; [reflexivity|done]]].
  - eexists _, _, _, _. split; [vm_compute; reflexivity|]. split; [reflexivity|]. split; [vm_compute; reflexivity|]. split; [reflexivity|].
    split; [vm_compute; reflexivity|]. split; [reflexivity|]. split; [vm_compute; reflexivity|]. reflexivity.
  - reflexivity.
Qed.
End RamFile.
