(* ===== verification/Symbols.v ===== *)
(** * The kernel's own symbols: arch/x64/elftypes.h and arch/x64/debug.c

    At start-up the kernel reads the symbols of its image from the file it was loaded from; an
    address is then shown with the name of the symbol in front of it.  The files are those of
    [FileOps]; [junk n] is what [n] bytes of memory held before they are written. *)
From S2P Require Import Prelude Strings Rcp Path Vfs Files.

(** ** elftypes.h *)
Record elf_header := mk_elf_header {
  magic_number : list Z; bits : Z; endianiness : Z; elf_header_version : Z; abi : Z;
  e_type : Z; isa : Z; elf_version : Z;
  e_entry : Z; prog_header_table_pos : Z; sect_header_table_pos : Z;
  e_flags : Z; header_size : Z; prog_hdr_tbl_entry_size : Z; prog_hdr_tbl_entry_amount : Z;
  sect_hdr_tbl_entry_size : Z; sect_hdr_tbl_entry_amount : Z; index_with_section_names : Z }.

Record elf_program_header := mk_program_header {
  p_type : Z; p_flags : Z; p_offset : Z; p_addr : Z; p_no_clue : Z; p_fsize : Z; p_msize : Z; p_alignment : Z }.

Record elf_section_header := mk_section_header {
  s_name_index : Z; s_type : Z; s_flags : Z; s_addr : Z; s_offset : Z; s_size : Z; s_link : Z; s_info : Z; s_alignment : Z; s_member_size : Z }.

Record elf_symbol := mk_elf_symbol { y_name_index : Z; y_info : Z; y_other : Z; y_symbol_index : Z; y_addr : Z; y_size : Z }.

(** A field of [n] bytes at [o]: the structures are packed. *)
Definition fld (b : list Z) (o n : Z) : Z := le_val (slice b o n).

Definition as_elf_header (b : list Z) : elf_header :=
  mk_elf_header (slice b 0 4) (fld b 4 1) (fld b 5 1) (fld b 6 1) (fld b 7 1) (fld b 16 2) (fld b 18 2) (fld b 20 4)
    (fld b 24 8) (fld b 32 8) (fld b 40 8) (fld b 48 4) (fld b 52 2) (fld b 54 2) (fld b 56 2) (fld b 58 2) (fld b 60 2) (fld b 62 2).
Definition as_program_header (b : list Z) : elf_program_header :=
  mk_program_header (fld b 0 4) (fld b 4 4) (fld b 8 8) (fld b 16 8) (fld b 24 8) (fld b 32 8) (fld b 40 8) (fld b 48 8).
Definition as_section_header (b : list Z) : elf_section_header :=
  mk_section_header (fld b 0 4) (fld b 4 4) (fld b 8 8) (fld b 16 8) (fld b 24 8) (fld b 32 8) (fld b 40 4) (fld b 44 4) (fld b 48 8) (fld b 56 8).
Definition as_elf_symbol (b : list Z) : elf_symbol :=
  mk_elf_symbol (fld b 0 4) (fld b 4 1) (fld b 5 1) (fld b 6 2) (fld b 8 8) (fld b 16 8).

Definition SIZEOF_ELF_HEADER : Z := 64.
Definition SIZEOF_PROGRAM_HEADER : Z := 56.
Definition SIZEOF_SECTION_HEADER : Z := 64.
Definition SIZEOF_ELF_SYMBOL : Z := 24.

(** [table[i]], of elements of [n] bytes. *)
Definition element (t : list Z) (n i : Z) : res (list Z) := if (0 <=? i) && (n * (i + 1) <=? zlen t) then Ok (slice t (n * i) n) else Fault.

(** The string at [base + i]. *)
Definition string_at (base : list Z) (i : Z) : res (list Z) := if i <=? zlen base then Ok (drop (Z.to_nat i) base) else Fault.

(** ** debug.c *)
Record kernel_symbol := mk_kernel_symbol { ks_addr : Z; ks_size : Z; ks_name : list Z }.

(** [symbol_list] and the text its names come from. *)
Record debug := mk_debug { kernel_image_strings : option (list Z); symbol_list : list kernel_symbol }.

Section Load.
Context {W : Type} `{FileOps W} (junk : Z -> list Z).

(** [fd_read(fd, &object, len)] *)
Definition read_into (s : W) (fd : Z) (object : list Z) (len : Z) : res (W * list Z * Z) :=
  '(s, b, r) ← file_read s fd len; o ← memcpy object 0 b 0 (zlen b); Ok (s, o, r).

(** [.strtab]: the last section of that name. *)
Fixpoint strtab_loop (n : nat) (s : W) (fd : Z) (names sheaders : list Z) (i : Z) (d : debug) : res (W * debug) :=
  match n with
  | O => Ok (s, d)
  | S n =>
      b ← element sheaders SIZEOF_SECTION_HEADER i;
      let h := as_section_header b in
      tstr ← string_at names (s_name_index h);
      c ← strcmp tstr (bytes ".strtab" ++ [0]);
      if negb (c =? 0) then strtab_loop n s fd names sheaders (i + 1) d
      else
        '(s, _) ← file_seek s fd (s64 (s_offset h)) SEEK_SET;
        '(s, strs, _) ← read_into s fd (junk (s_size h)) (s_size h);
        strtab_loop n s fd names sheaders (i + 1) (mk_debug (Some strs) (symbol_list d))
  end.

(** [while (si < sheaders[i].size)]; [current] tells if [current_symbol] is set: it is then the last
    of the list.  [buf] is [elf_symbol]. *)
Fixpoint symtab_loop (fuel : nat) (s : W) (fd size : Z) (buf : list Z) (si : Z) (current : bool) (d : debug) : res (W * debug) :=
  if si <? size then
    match fuel with
    | O => OutOfFuel
    | S fuel =>
        '(s, buf, _) ← read_into s fd buf SIZEOF_ELF_SYMBOL;
        let y := as_elf_symbol buf in
        strs ← res_of_option (kernel_image_strings d);
        sstr ← string_at strs (y_name_index y);
        let si := u32 (si + SIZEOF_ELF_SYMBOL) in
        n ← strlen sstr;
        match symbol_list d, current with
        | _ :: _, false => Fault
        | _, _ =>
            name ← strcpy (replicate (Z.to_nat (n + 1)) 0) sstr;
            symtab_loop fuel s fd size buf si true (mk_debug (kernel_image_strings d) (symbol_list d ++ [mk_kernel_symbol (y_addr y) (y_size y) name]))
        end
    end
  else Ok (s, d).

Fixpoint symbols_loop (n fuel : nat) (s : W) (fd : Z) (names sheaders : list Z) (i : Z) (d : debug) : res (W * debug) :=
  match n with
  | O => Ok (s, d)
  | S n =>
      b ← element sheaders SIZEOF_SECTION_HEADER i;
      let h := as_section_header b in
      tstr ← string_at names (s_name_index h);
      c ← strcmp tstr (bytes ".symtab" ++ [0]);
      if negb (c =? 0) then symbols_loop n fuel s fd names sheaders (i + 1) d
      else
        '(s, _) ← file_seek s fd (s64 (s_offset h)) SEEK_SET;
        '(s, d) ← symtab_loop fuel s fd (s_size h) (junk SIZEOF_ELF_SYMBOL) 0 false d;
        symbols_loop n fuel s fd names sheaders (i + 1) d
  end.

Definition debug_load_symbols (fuel : nat) (s : W) (d : debug) : res (W * debug) :=
  '(s, fd) ← file_open s (bytes "/sys/aexkrnl.elf" ++ [0]) 0;
  '(s, hb, _) ← read_into s fd (junk SIZEOF_ELF_HEADER) SIZEOF_ELF_HEADER;
  let header := as_elf_header hb in
  let phdr_cnt := prog_hdr_tbl_entry_amount header in
  let shdr_cnt := sect_hdr_tbl_entry_amount header in
  '(s, _) ← file_seek s fd (s64 (prog_header_table_pos header)) SEEK_SET;
  '(s, _, _) ← read_into s fd (junk (SIZEOF_PROGRAM_HEADER * phdr_cnt)) (SIZEOF_PROGRAM_HEADER * phdr_cnt);
  '(s, _) ← file_seek s fd (s64 (sect_header_table_pos header)) SEEK_SET;
  '(s, sheaders, _) ← read_into s fd (junk (SIZEOF_SECTION_HEADER * shdr_cnt)) (SIZEOF_SECTION_HEADER * shdr_cnt);
  nb ← element sheaders SIZEOF_SECTION_HEADER (index_with_section_names header);
  let nh := as_section_header nb in
  '(s, _) ← file_seek s fd (s64 (s_offset nh)) SEEK_SET;
  '(s, names, _) ← read_into s fd (junk (s_size nh)) (s_size nh);
  '(s, d) ← strtab_loop (Z.to_nat shdr_cnt) s fd names sheaders 0 d;
  '(s, d) ← symbols_loop (Z.to_nat shdr_cnt) fuel s fd names sheaders 0 d;
  '(s, _) ← file_close s fd;
  Ok (s, d).
End Load.

Fixpoint resolve_loop (l : list kernel_symbol) (addr delta_best : Z) (name : option (list Z)) : option (list Z) :=
  match l with
  | [] => name
  | y :: l =>
      let delta := s32 (addr - ks_addr y) in
      if (0 <=? delta) && (delta <? delta_best) then resolve_loop l addr delta (Some (ks_name y)) else resolve_loop l addr delta_best name
  end.
Definition debug_resolve_symbol (d : debug) (addr : Z) : option (list Z) := resolve_loop (symbol_list d) addr 2147483647 None.

(** The frames behind [stkfr] with the symbols of their return addresses, as they are printed;
    [rd] reads eight bytes of memory. *)
Fixpoint debug_stacktrace (fuel : nat) (rd : Z -> res Z) (d : debug) (stkfr : Z) : res (list (Z * option (list Z))) :=
  if stkfr =? 0 then Ok [] else
  match fuel with
  | O => OutOfFuel
  | S fuel =>
      rip ← rd (u64 (stkfr + 8));
      rbp ← rd stkfr;
      l ← debug_stacktrace fuel rd d rbp;
      Ok ((rip, debug_resolve_symbol d rip) :: l)
  end.

(** ** What is in the file *)
Section Image.
Context (c : list Z).

Definition image_header : elf_header := as_elf_header (slice c 0 SIZEOF_ELF_HEADER).
Definition sections : Z := sect_hdr_tbl_entry_amount image_header.
Definition section (i : Z) : elf_section_header := as_section_header (slice c (sect_header_table_pos image_header + SIZEOF_SECTION_HEADER * i) SIZEOF_SECTION_HEADER).
Definition section_bytes (h : elf_section_header) : list Z := slice c (s_offset h) (s_size h).
Definition section_names : list Z := section_bytes (section (index_with_section_names image_header)).
Definition text_of (base : list Z) (i : Z) : list Z := cut 0 (drop (Z.to_nat i) base).
Definition section_name (i : Z) : list Z := text_of section_names (s_name_index (section i)).

(** The [j]-th symbol of the section [sym], with its name from the section [str]. *)
Definition image_symbol (str sym : elf_section_header) (j : Z) : kernel_symbol :=
  let y := as_elf_symbol (slice c (s_offset sym + SIZEOF_ELF_SYMBOL * j) SIZEOF_ELF_SYMBOL) in
  mk_kernel_symbol (y_addr y) (y_size y) (text_of (section_bytes str) (y_name_index y) ++ [0]).
Definition image_symbols (str sym : elf_section_header) : list kernel_symbol := image_symbol str sym <$> seqZ 0 (s_size sym / SIZEOF_ELF_SYMBOL).

Definition in_file (o n : Z) : Prop := 0 <= o /\ 0 <= n /\ o + n <= zlen c.

(** The text at [i] of [base] ends in it. *)
Definition has_text (base : list Z) (i : Z) : Prop := 0 <= i <= zlen base /\ exists t r, drop (Z.to_nat i) base = t ++ 0 :: r /\ nonul t.

(** An image with one section [.strtab], the [istr]-th, and one section [.symtab], the [isym]-th. *)
Record symbol_image (istr isym : Z) : Prop := mk_symbol_image {
  im_bytes : byte_list c;
  im_len : SIZEOF_ELF_HEADER <= zlen c < 2 ^ 32;
  im_phdr : prog_header_table_pos image_header < 2 ^ 62;
  im_table : in_file (sect_header_table_pos image_header) (SIZEOF_SECTION_HEADER * sections);
  im_index : index_with_section_names image_header < sections;
  im_in : forall i, 0 <= i < sections -> i = index_with_section_names image_header \/ i = istr \/ i = isym -> in_file (s_offset (section i)) (s_size (section i));
  im_name : forall i, 0 <= i < sections -> has_text section_names (s_name_index (section i));
  im_str : 0 <= istr < sections /\ forall i, 0 <= i < sections -> section_name i = bytes ".strtab" <-> i = istr;
  im_sym : 0 <= isym < sections /\ forall i, 0 <= i < sections -> section_name i = bytes ".symtab" <-> i = isym;
  im_whole : s_size (section isym) mod SIZEOF_ELF_SYMBOL = 0;
  im_texts : forall j, 0 <= j < s_size (section isym) / SIZEOF_ELF_SYMBOL ->
    has_text (section_bytes (section istr)) (y_name_index (as_elf_symbol (slice c (s_offset (section isym) + SIZEOF_ELF_SYMBOL * j) SIZEOF_ELF_SYMBOL))) }.
End Image.

Lemma has_text_at base i : has_text base i -> exists r, string_at base i = Ok (text_of base i ++ 0 :: r) /\ nonul (text_of base i).
Proof.
  intros ([H0 H1] & t & r & E & Ht). exists r. unfold string_at, text_of. destruct (Z.leb_spec i (zlen base)); [|lia]. rewrite E, cut_text by done. done.
Qed.

Lemma fld_range b o n : byte_list b -> 0 <= n -> 0 <= fld b o n < 256 ^ n.
Proof. apply le_slice_range. Qed.

Lemma element_ok t n i k : 0 < n -> 0 <= i < k -> zlen t = n * k -> element t n i = Ok (slice t (n * i) n).
Proof. intros Hn Hi Ht. unfold element. destruct (Z.leb_spec 0 i); [|lia]. destruct (Z.leb_spec (n * (i + 1)) (zlen t)); [done|nia]. Qed.

Section LoadLaws.
Context {W : Type} `{FileLaws W} (junk : Z -> list Z) (Hjunk : forall n, 0 <= n -> zlen (junk n) = n).
Context (s0 : W) (fd : Z) (c : list Z).

(** The file, open at [p]; the descriptors as at the start. *)
Definition at_pos (s : W) (p : Z) : Prop := open_at s fd c p /\ forall x, listed s x <-> listed s0 x.

Lemma seek_at s p o : at_pos s p -> 0 <= o < 2 ^ 62 -> exists s' r, file_seek s fd (s64 o) SEEK_SET = Ok (s', r) /\ at_pos s' (Z.min o (zlen c)).
Proof.
  intros [Ho Hl] Hr. rewrite s64_small by lia. destruct (law_seek s fd c p o Ho Hr) as (s' & r & E & Ho' & Hl'). exists s', r. split; [done|]. split; [done|]. intros x. by rewrite Hl'.
Qed.

(** A read that the file may end in. *)
Lemma read_any s p obj len : at_pos s p -> 0 <= len < 2 ^ 63 -> zlen obj = len ->
  exists s' o r p', read_into s fd obj len = Ok (s', o, r) /\ at_pos s' p'.
Proof.
  intros [Ho Hl] Hr Hz. destruct (law_read s fd c p len Ho Hr) as (s' & E & Ho' & Hl'). unfold read_into. rewrite E. cbn [mbind res_bind].
  pose proof (zlen_nonneg (read_of c p len)). assert (zlen (read_of c p len) <= len) by (unfold read_of, slice, zlen; rewrite length_take; lia).
  rewrite memcpy_ok by lia. cbn [mbind res_bind]. eexists s', _, _, _. split; [done|]. split; [done|]. intros x. by rewrite Hl'.
Qed.

(** A read of what is there. *)
Lemma read_all s p o obj len : at_pos s (Z.min o (zlen c)) -> in_file c o len -> len < 2 ^ 63 -> zlen obj = len -> p = o + len ->
  exists s' r, read_into s fd obj len = Ok (s', slice c o len, r) /\ at_pos s' (Z.min p (zlen c)).
Proof.
  intros [Ho Hl] (Hof & Hn & Hin) Hr Hz ->. rewrite Z.min_l in Ho by lia. destruct (law_read s fd c o len Ho ltac:(lia)) as (s' & E & Ho' & Hl'). unfold read_of in *.
  assert (zlen (slice c o len) = len) as Es by (by apply zlen_slice). rewrite Es in *. unfold read_into. rewrite E. cbn [mbind res_bind]. rewrite Es.
  rewrite memcpy_ok by lia. cbn [mbind res_bind]. exists s', len. split.
  - do 3 f_equal. rewrite splice_0. rewrite (slice_slice c o len 0 len), Z.add_0_r by lia. rewrite drop_ge, app_nil_r by (unfold zlen in *; lia). done.
  - rewrite Z.min_l by lia. split; [done|]. intros x. by rewrite Hl'.
Qed.
End LoadLaws.

Section LoadImage.
Context {W : Type} `{FileLaws W} (junk : Z -> list Z) (Hjunk : forall n, 0 <= n -> zlen (junk n) = n).
Context (s0 : W) (fd : Z) (c : list Z) (istr isym : Z) (Him : symbol_image c istr isym).

#[local] Abbreviation at_pos := (at_pos s0 fd c).
#[local] Abbreviation n := (sections c).
#[local] Abbreviation names := (section_names c).
#[local] Abbreviation table := (slice c (sect_header_table_pos (image_header c)) (SIZEOF_SECTION_HEADER * sections c)).
#[local] Abbreviation strs := (section_bytes c (section c istr)).
#[local] Abbreviation sym := (section c isym).

Lemma image_fld b o k o' k' : b = slice c o' k' -> 0 <= k -> 0 <= fld b o k < 256 ^ k.
Proof. intros -> Hk. apply fld_range; [apply slice_byte, Him|done]. Qed.

Lemma table_element i : 0 <= i < n -> element table SIZEOF_SECTION_HEADER i = Ok (slice c (sect_header_table_pos (image_header c) + SIZEOF_SECTION_HEADER * i) SIZEOF_SECTION_HEADER).
Proof.
  intros Hi. destruct (im_table _ _ _ Him) as (H1 & H2 & H3). unfold SIZEOF_SECTION_HEADER in *. rewrite (element_ok _ _ _ n) by first [lia|by apply zlen_slice]. rewrite slice_slice by lia. done.
Qed.

Lemma section_fields i : 0 <= s_offset (section c i) < 2 ^ 64 /\ 0 <= s_size (section c i) < 2 ^ 64.
Proof. split; apply (image_fld _ _ 8 _ _ eq_refl); lia. Qed.

Lemma section_text i : 0 <= i < n -> exists r, string_at names (s_name_index (section c i)) = Ok (section_name c i ++ 0 :: r) /\ nonul (section_name c i).
Proof. intros Hi. apply has_text_at, (im_name _ _ _ Him), Hi. Qed.

Lemma named_section i nm r : nonul nm -> nonul (section_name c i) -> exists v, strcmp (section_name c i ++ 0 :: r) (nm ++ [0]) = Ok v /\ (v = 0 <-> section_name c i = nm).
Proof. intros Hnm Hs. apply strcmp_total; done. Qed.

(** Reading a whole section. *)
Lemma read_section s p i : at_pos s p -> 0 <= i < n -> in_file c (s_offset (section c i)) (s_size (section c i)) ->
  exists s1 r1 s2 r2 p', file_seek s fd (s64 (s_offset (section c i))) SEEK_SET = Ok (s1, r1) /\
    read_into s1 fd (junk (s_size (section c i))) (s_size (section c i)) = Ok (s2, section_bytes c (section c i), r2) /\ at_pos s2 p'.
Proof.
  intros Hp Hi Hin. pose proof Hin as (H1 & H2 & H3). destruct (im_len _ _ _ Him) as [_ Hlen].
  destruct (seek_at s0 fd c s p (s_offset (section c i)) Hp ltac:(lia)) as (s1 & r1 & E1 & Hp1).
  destruct (read_all s0 fd c s1 _ _ (junk (s_size (section c i))) _ Hp1 Hin ltac:(lia) (Hjunk _ H2) eq_refl) as (s2 & r2 & E2 & Hp2).
  by exists s1, r1, s2, r2, (Z.min (s_offset (section c i) + s_size (section c i)) (zlen c)).
Qed.

Lemma strtab_loop_ok k : forall i s p d, at_pos s p -> 0 <= i -> i + Z.of_nat k = n ->
  exists s' p', strtab_loop junk k s fd names table i d = Ok (s', mk_debug (if i <=? istr then Some strs else kernel_image_strings d) (symbol_list d)) /\ at_pos s' p'.
Proof.
  pose proof (im_str _ _ _ Him) as [Hr Hu]. induction k as [|k IH]; intros i s p d Hp Hi Hk; cbn [strtab_loop].
  - destruct (Z.leb_spec i istr); [lia|]. exists s, p. split; [by destruct d|done].
  - rewrite table_element by lia. cbn [mbind res_bind]. fold (section c i). destruct (section_text i ltac:(lia)) as (r & -> & Hn). cbn [mbind res_bind].
    destruct (named_section i (bytes ".strtab") r ltac:(by repeat constructor) Hn) as (v & -> & Hv). cbn [mbind res_bind]. rewrite Hu in Hv by lia. destruct (Z.eqb_spec v 0) as [E|E]; cbn [negb].
    + assert (i = istr) as Ei by tauto. destruct (read_section s p i Hp ltac:(lia)) as (s1 & r1 & s2 & r2 & p2 & -> & E2 & Hp2); [apply (im_in _ _ _ Him); [lia|tauto]|].
      cbn [mbind res_bind]. rewrite E2. cbn [mbind res_bind]. destruct (IH (i + 1) s2 p2 (mk_debug (Some (section_bytes c (section c i))) (symbol_list d)) Hp2 ltac:(lia) ltac:(lia)) as (s' & p' & -> & Hp').
      exists s', p'. split; [|done]. cbn [kernel_image_strings symbol_list]. rewrite Ei. destruct (Z.leb_spec (istr + 1) istr), (Z.leb_spec istr istr); done || lia.
    + destruct (IH (i + 1) s p d Hp ltac:(lia) ltac:(lia)) as (s' & p' & -> & Hp'). exists s', p'. split; [|done]. do 3 f_equal.
      destruct (Z.leb_spec (i + 1) istr), (Z.leb_spec i istr); try done; [lia|]. destruct E. apply Hv. lia.
Qed.

Lemma symtab_loop_ok fuel : forall k j s buf l current, at_pos s (Z.min (s_offset sym + SIZEOF_ELF_SYMBOL * j) (zlen c)) -> (k <= fuel)%nat -> 0 <= j ->
  s_size sym = SIZEOF_ELF_SYMBOL * (j + Z.of_nat k) -> current = true \/ l = [] -> zlen buf = SIZEOF_ELF_SYMBOL ->
  exists s' p', symtab_loop fuel s fd (s_size sym) buf (SIZEOF_ELF_SYMBOL * j) current (mk_debug (Some strs) l)
    = Ok (s', mk_debug (Some strs) (l ++ (image_symbol c (section c istr) sym <$> seqZ j (Z.of_nat k)))) /\ at_pos s' p'.
Proof.
  pose proof (im_sym _ _ _ Him) as [Hr Hu]. destruct (im_in _ _ _ Him isym Hr ltac:(tauto)) as (I1 & I2 & I3). destruct (im_len _ _ _ Him) as [_ Hlen]. unfold SIZEOF_ELF_SYMBOL in *.
  induction fuel as [|fuel IH]; intros k j s buf l current Hp Hk Hj Hsz Hcur Hbuf.
  - assert (k = O) as -> by lia. cbn [symtab_loop]. destruct (Z.ltb_spec (24 * j) (s_size sym)); [lia|]. exists s. eexists. rewrite seqZ_nil, app_nil_r by lia. done.
  - destruct k as [|k]; cbn [symtab_loop].
    + destruct (Z.ltb_spec (24 * j) (s_size sym)); [lia|]. exists s. eexists. rewrite seqZ_nil, app_nil_r by lia. done.
    + destruct (Z.ltb_spec (24 * j) (s_size sym)); [|lia]. unfold SIZEOF_ELF_SYMBOL.
      destruct (read_all s0 fd c s (s_offset sym + 24 * (j + 1)) _ buf 24 Hp ltac:(split_and!; lia) ltac:(lia) Hbuf ltac:(lia)) as (s1 & r1 & -> & Hp1). cbn [mbind res_bind kernel_image_strings res_of_option symbol_list].
      assert (j < s_size sym / 24) as Hjk by (rewrite Hsz, Z.mul_comm, Z.div_mul by lia; lia).
      set (b := slice c _ _) in *. destruct (has_text_at _ _ (im_texts _ _ _ Him j ltac:(unfold SIZEOF_ELF_SYMBOL; lia))) as (r & Es & Hn). unfold SIZEOF_ELF_SYMBOL in Es, Hn. fold b in Es, Hn. rewrite Es. cbn [mbind res_bind].
      set (t := text_of _ _) in *. rewrite strlen_cstr by done. cbn [mbind res_bind]. rewrite u32_small by lia.
      assert (strcpy (replicate (Z.to_nat (zlen t + 1)) 0) (t ++ 0 :: r) = Ok (t ++ [0])) as Ec.
      { rewrite strcpy_ok; [|done|rewrite length_replicate; unfold zlen; lia]. do 2 f_equal. rewrite drop_ge; [done|]. rewrite length_replicate. unfold zlen. lia. }
      rewrite Ec. cbn [mbind res_bind].
      destruct (IH k (j + 1) s1 b (l ++ [mk_kernel_symbol (y_addr (as_elf_symbol b)) (y_size (as_elf_symbol b)) (t ++ [0])]) true Hp1 ltac:(lia) ltac:(lia) ltac:(lia) ltac:(by left)) as (s' & p' & E & Hp'); [unfold b; apply zlen_slice; lia|].
      replace (24 * (j + 1)) with (24 * j + 24) in E by lia. rewrite E. exists s', p'. split; [|done].
      rewrite (seqZ_cons j) by lia. cbn [fmap list_fmap]. rewrite <- app_assoc. replace (Z.pred (Z.of_nat (S k))) with (Z.of_nat k) by lia. replace (Z.succ j) with (j + 1) by lia.
      destruct l, current; try done. by destruct Hcur.
Qed.
Lemma symbols_loop_ok fuel k : forall i s p l, at_pos s p -> 0 <= i -> i + Z.of_nat k = n -> (i <= isym -> l = []) -> s_size sym / SIZEOF_ELF_SYMBOL <= Z.of_nat fuel ->
  exists s' p', symbols_loop junk k fuel s fd names table i (mk_debug (Some strs) l)
    = Ok (s', mk_debug (Some strs) (if i <=? isym then image_symbols c (section c istr) sym else l)) /\ at_pos s' p'.
Proof.
  pose proof (im_sym _ _ _ Him) as [Hr Hu]. induction k as [|k IH]; intros i s p l Hp Hi Hk Hl Hf; cbn [symbols_loop].
  - destruct (Z.leb_spec i isym); [lia|]. by exists s, p.
  - rewrite table_element by lia. cbn [mbind res_bind]. fold (section c i). destruct (section_text i ltac:(lia)) as (r & -> & Hn). cbn [mbind res_bind].
    destruct (named_section i (bytes ".symtab") r ltac:(by repeat constructor) Hn) as (v & -> & Hv). cbn [mbind res_bind]. rewrite Hu in Hv by lia. destruct (Z.eqb_spec v 0) as [E|E]; cbn [negb].
    + assert (i = isym) as Ei by tauto. rewrite Ei, Z.leb_refl in *. clear i Ei. rewrite Hl by lia. destruct (im_in _ _ _ Him isym Hr ltac:(tauto)) as (I1 & I2 & I3). destruct (im_len _ _ _ Him) as [_ Hlen].
      destruct (seek_at s0 fd c s p (s_offset sym) Hp ltac:(lia)) as (s1 & r1 & E1 & Hp1). rewrite E1. cbn [mbind res_bind].
      set (kk := s_size sym / SIZEOF_ELF_SYMBOL) in *. pose proof (Z.div_mod (s_size sym) SIZEOF_ELF_SYMBOL ltac:(done)) as Ed. rewrite (im_whole _ _ _ Him), Z.add_0_r in Ed. fold kk in Ed.
      assert (0 <= kk) as Hkk by (apply Z.div_pos; done).
      destruct (symtab_loop_ok fuel (Z.to_nat kk) 0 s1 (junk SIZEOF_ELF_SYMBOL) [] false) as (s2 & p2 & E2 & Hp2); [by rewrite Z.mul_0_r, Z.add_0_r|lia|lia|rewrite Z2Nat.id by done; lia|by right|by apply Hjunk|].
      rewrite Z.mul_0_r in E2. rewrite E2. cbn [mbind res_bind app]. rewrite Z2Nat.id by done.
      destruct (IH (isym + 1) s2 p2 (image_symbols c (section c istr) sym) Hp2 ltac:(lia) ltac:(lia) ltac:(lia) ltac:(lia)) as (s' & p' & E3 & Hp').
      fold kk in E3. unfold image_symbols in E3 |- *. fold kk in E3 |- *. rewrite E3. exists s', p'. split; [|done]. destruct (Z.leb_spec (isym + 1) isym); [lia|]. done.
    + destruct (IH (i + 1) s p l Hp ltac:(lia) ltac:(lia) ltac:(intros; apply Hl; lia) Hf) as (s' & p' & -> & Hp'). exists s', p'. split; [|done]. do 3 f_equal.
      destruct (Z.leb_spec (i + 1) isym), (Z.leb_spec i isym); try done; [lia|]. destruct E. apply Hv. lia.
Qed.
End LoadImage.

(** All of it: the symbols of the image, and the file closed. *)
Lemma load_ok {W : Type} `{FileLaws W} junk fuel s s1 fd c istr isym d : (forall n, 0 <= n -> zlen (junk n) = n) -> symbol_image c istr isym ->
  file_open s (bytes "/sys/aexkrnl.elf" ++ [0]) 0 = Ok (s1, fd) -> open_at s1 fd c 0 -> symbol_list d = [] ->
  s_size (section c isym) / SIZEOF_ELF_SYMBOL <= Z.of_nat fuel ->
  exists s2, debug_load_symbols junk fuel s d = Ok (s2, mk_debug (Some (section_bytes c (section c istr))) (image_symbols c (section c istr) (section c isym))) /\
    forall x, listed s2 x <-> listed s1 x /\ x <> fd.
Proof.
  intros Hjunk Him Eo Ho Hd Hf. assert (at_pos s1 fd c s1 0) as Hp0 by done. destruct (im_len _ _ _ Him) as [Hl1 Hl2]. destruct (im_table _ _ _ Him) as (T1 & T2 & T3).
  unfold debug_load_symbols. rewrite Eo. cbn [mbind res_bind]. unfold SIZEOF_ELF_HEADER in *.
  destruct (read_all s1 fd c s1 64 0 (junk 64) 64) as (s2 & r2 & E2 & Hp2); [by rewrite Z.min_l by lia|split_and!; lia|lia|by apply Hjunk|lia|]. rewrite E2. cbn [mbind res_bind].
  change (as_elf_header (slice c 0 64)) with (image_header c). change (sect_hdr_tbl_entry_amount (image_header c)) with (sections c).
  assert (forall o k, 0 <= k -> 0 <= fld (slice c 0 64) o k < 256 ^ k) as Hfld by (intros; apply (image_fld c istr isym Him _ _ _ _ _ eq_refl); lia).
  pose proof (im_phdr _ _ _ Him) as Hph. assert (0 <= prog_header_table_pos (image_header c)) as Hph0 by (apply (Hfld 32 8); lia).
  assert (0 <= prog_hdr_tbl_entry_amount (image_header c) < 65536) as Hpn by (apply (Hfld 56 2); lia). assert (0 <= sections c < 65536) as Hsn by (apply (Hfld 60 2); lia).
  assert (0 <= index_with_section_names (image_header c)) as Hx0 by (apply (Hfld 62 2); lia). pose proof (im_index _ _ _ Him) as Hx.
  destruct (seek_at s1 fd c s2 _ _ Hp2 (conj Hph0 Hph)) as (s3 & r3 & E3 & Hp3). rewrite E3. cbn [mbind res_bind]. unfold SIZEOF_PROGRAM_HEADER.
  destruct (read_any s1 fd c s3 _ (junk (56 * prog_hdr_tbl_entry_amount (image_header c))) (56 * prog_hdr_tbl_entry_amount (image_header c)) Hp3 ltac:(lia) (Hjunk (56 * prog_hdr_tbl_entry_amount (image_header c)) ltac:(lia))) as (s4 & o4 & r4 & p4 & E4 & Hp4). rewrite E4. cbn [mbind res_bind].
  destruct (seek_at s1 fd c s4 _ (sect_header_table_pos (image_header c)) Hp4 ltac:(lia)) as (s5 & r5 & E5 & Hp5). rewrite E5. cbn [mbind res_bind].
  destruct (read_all s1 fd c s5 _ _ (junk (SIZEOF_SECTION_HEADER * sections c)) _ Hp5 (im_table _ _ _ Him) ltac:(unfold SIZEOF_SECTION_HEADER; lia) (Hjunk _ T2) eq_refl) as (s6 & r6 & E6 & Hp6).
  rewrite E6. cbn [mbind res_bind]. rewrite (table_element c istr isym Him) by lia. cbn [mbind res_bind]. fold (section c (index_with_section_names (image_header c))).
  destruct (read_section junk Hjunk s1 fd c istr isym Him s6 _ (index_with_section_names (image_header c)) Hp6 ltac:(lia)) as (s7 & r7 & s8 & r8 & p8 & E7 & E8 & Hp8); [apply (im_in _ _ _ Him); [lia|by left]|].
  rewrite E7. cbn [mbind res_bind]. rewrite E8. cbn [mbind res_bind]. fold (section_names c).
  destruct (strtab_loop_ok junk Hjunk s1 fd c istr isym Him (Z.to_nat (sections c)) 0 s8 p8 d Hp8 ltac:(lia) ltac:(lia)) as (s9 & p9 & E9 & Hp9). rewrite E9. cbn [mbind res_bind]. rewrite Hd.
  destruct (im_str _ _ _ Him) as [[Hi0 _] _]. destruct (im_sym _ _ _ Him) as [[Hj0 _] _]. destruct (Z.leb_spec 0 istr); [|lia].
  destruct (symbols_loop_ok junk Hjunk s1 fd c istr isym Him fuel (Z.to_nat (sections c)) 0 s9 p9 [] Hp9 ltac:(lia) ltac:(lia) ltac:(done) Hf) as (s10 & p10 & E10 & Ho10 & Hl10). rewrite E10. cbn [mbind res_bind].
  destruct (Z.leb_spec 0 isym); [|lia]. destruct (law_close s10 fd c p10 Ho10) as (s11 & r11 & E11 & Hl11). rewrite E11. cbn [mbind res_bind]. exists s11. split; [done|]. intros x. by rewrite Hl11, Hl10.
Qed.

(** ** The symbol in front of an address *)

(** How far [addr] is behind the symbol, as [delta] has it: an [int]. *)
Definition distance (addr : Z) (y : kernel_symbol) : Z := s32 (addr - ks_addr y).
Definition in_front (addr : Z) (y : kernel_symbol) : Prop := 0 <= distance addr y < 2 ^ 31 - 1.

(** [y] is the symbol for [addr]: none is closer in front of it, and none before it is as close. *)
Definition nearest (l : list kernel_symbol) (addr : Z) (i : nat) (y : kernel_symbol) : Prop :=
  l !! i = Some y /\ in_front addr y /\
  forall j z, l !! j = Some z -> in_front addr z -> distance addr y <= distance addr z /\ (distance addr z = distance addr y -> (i <= j)%nat).

(** The symbol begins at the address or less than two GiB in front of it. *)
Definition before (addr : Z) (y : kernel_symbol) : Prop := ks_addr y <= addr < ks_addr y + 2 ^ 31 - 1.

(** No symbol is taken to be in front of the address because of the [int]. *)
Definition unmistaken (l : list kernel_symbol) (addr : Z) : Prop := Forall (fun y => in_front addr y -> before addr y) l.

Lemma before_distance addr y : before addr y -> distance addr y = addr - ks_addr y /\ in_front addr y.
Proof. unfold before, in_front, distance. intros H. rewrite s32_small by lia. lia. Qed.

Lemma resolve_ok addr l : forall best name, 0 <= best < 2 ^ 31 ->
  (resolve_loop l addr best name = name /\ Forall (fun z => in_front addr z -> best <= distance addr z) l) \/
  (exists i y, resolve_loop l addr best name = Some (ks_name y) /\ nearest l addr i y /\ distance addr y < best).
Proof.
  induction l as [|x l IH]; intros best name Hb; cbn [resolve_loop]; [left; by split|]. fold (distance addr x).
  destruct (Z.leb_spec 0 (distance addr x)); cbn [andb].
  - destruct (Z.ltb_spec (distance addr x) best).
    + right. destruct (IH (distance addr x) (Some (ks_name x)) ltac:(lia)) as [[-> Hf]|(i & y & -> & (Hi & Hfr & Hn) & Hy)].
      * exists O, x. split; [done|]. split; [|done]. split; [done|]. split; [unfold in_front; lia|]. intros [|j] z Hz Hzf; [injection Hz as ->; done|].
        pose proof (Forall_lookup_1 _ _ _ _ Hf Hz Hzf). lia.
      * exists (S i), y. split; [done|]. split; [|lia]. split; [done|]. split; [done|]. intros [|j] z Hz Hzf; [injection Hz as <-; lia|]. destruct (Hn j z Hz Hzf). split; [done|]. intros. assert (i <= j)%nat by auto. lia.
    + destruct (IH best name Hb) as [[-> Hf]|(i & y & -> & (Hi & Hfr & Hn) & Hy)]; [left; split; [done|]; constructor; [|done]; intros; lia|].
      right. exists (S i), y. split; [done|]. split; [|done]. split; [done|]. split; [done|]. intros [|j] z Hz Hzf; [injection Hz as <-; lia|]. destruct (Hn j z Hz Hzf). split; [done|]. intros. assert (i <= j)%nat by auto. lia.
  - destruct (IH best name Hb) as [[-> Hf]|(i & y & -> & (Hi & Hfr & Hn) & Hy)]; [left; split; [done|]; constructor; [|done]; unfold in_front; intros; lia|].
    right. exists (S i), y. split; [done|]. split; [|done]. split; [done|]. split; [done|]. intros [|j] z Hz Hzf; [injection Hz as <-; unfold in_front in Hzf; lia|]. destruct (Hn j z Hz Hzf). split; [done|]. intros. assert (i <= j)%nat by auto. lia.
Qed.

(** C15: After the symbols of the kernel's image are loaded, all of [.symtab] in its order, the null
    symbol included, any address is shown with the name of the symbol whose distance in front of
    it, as an [int], is the least, the first of equals, and with none exactly if no distance is
    in range; the names are those of [.strtab], and the file is closed again.  So an address that no
    far symbol is mistaken for being in front of is shown with the name of the last symbol that
    really begins in front of it, less than two GiB away.  An address of the kernel's text is
    one of these, with symbols at 0 and at one MiB in the table; [resolve_wraps] is one that is
    not. *)
Theorem symbols_name_addresses {W : Type} `{FileLaws W} junk fuel s s1 fd c istr isym d addr : (forall n, 0 <= n -> zlen (junk n) = n) -> symbol_image c istr isym ->
  file_open s (bytes "/sys/aexkrnl.elf" ++ [0]) 0 = Ok (s1, fd) -> open_at s1 fd c 0 -> symbol_list d = [] -> s_size (section c isym) / SIZEOF_ELF_SYMBOL <= Z.of_nat fuel ->
  let l := image_symbols c (section c istr) (section c isym) in
  exists s2 d', debug_load_symbols junk fuel s d = Ok (s2, d') /\ (forall x, listed s2 x <-> listed s1 x /\ x <> fd) /\
    match debug_resolve_symbol d' addr with
    | Some name => exists i y, nearest l addr i y /\ name = ks_name y /\
        (unmistaken l addr -> before addr y /\ Forall (fun z => before addr z -> ks_addr z <= ks_addr y) l)
    | None => Forall (fun y => ~ in_front addr y /\ ~ before addr y) l
    end.
Proof.
  intros Hjunk Him Eo Ho Hd Hf l. subst l. set (l := image_symbols _ _ _) in *. destruct (load_ok junk fuel s s1 fd c istr isym d Hjunk Him Eo Ho Hd Hf) as (s2 & E & Hl). eexists s2, _. split; [exact E|]. split; [done|].
  unfold debug_resolve_symbol. cbn [symbol_list]. fold l. destruct (resolve_ok addr l 2147483647 None ltac:(lia)) as [[-> Hn]|(i & y & -> & Hy & _)].
  - eapply Forall_impl; [exact Hn|]. cbn beta. intros y Hy1. assert (~ in_front addr y) as Hy2 by (intros Hy2; specialize (Hy1 Hy2); unfold in_front in Hy2; lia). split; [done|]. by intros [_ ?]%before_distance.
  - exists i, y. split; [done|]. split; [done|]. intros Hu. pose proof Hy as (Hi & Hfr & Hn). assert (before addr y) as Hby by (by apply (Forall_lookup_1 _ _ _ _ Hu Hi)). split; [done|].
    apply Forall_lookup_2. intros j z Hz Hbz. destruct (before_distance addr y Hby) as [Ey _]. destruct (before_distance addr z Hbz) as [Ez Hfz]. destruct (Hn j z Hz Hfz). lia.
Qed.

(** The distance is kept in 32 bits: an address is taken for the one [2^32] further on or
    further back, so one far behind every symbol is shown with the name of one of them. *)
Theorem resolve_wraps d addr k y : symbol_list d = [y] -> 0 <= addr - ks_addr y - 2 ^ 32 * k < 2 ^ 31 - 1 -> debug_resolve_symbol d addr = Some (ks_name y).
Proof.
  intros E Hr. unfold debug_resolve_symbol. rewrite E. cbn [resolve_loop].
  assert (s32 (addr - ks_addr y) = addr - ks_addr y - 2 ^ 32 * k) as ->.
  { unfold s32, swrap. change (2 ^ (32 - 1)) with (2 ^ 31). replace (addr - ks_addr y + 2 ^ 31) with ((addr - ks_addr y - 2 ^ 32 * k + 2 ^ 31) + k * 2 ^ 32) by lia.
    rewrite Z.mod_add, Z.mod_small by lia. lia. }
  destruct (Z.leb_spec 0 (addr - ks_addr y - 2 ^ 32 * k)); [|lia]. destruct (Z.ltb_spec (addr - ks_addr y - 2 ^ 32 * k) 2147483647); [done|lia].
Qed.

(** ** An image with a null symbol, one of the code that starts the kernel, and two of its text *)
Module SymbolDemo.
Import RamFile.

Definition shdr (name type offset size : Z) : list Z :=
  le_bytes 4 name ++ le_bytes 4 type ++ le_bytes 8 0 ++ le_bytes 8 0 ++ le_bytes 8 offset ++ le_bytes 8 size ++ le_bytes 4 0 ++ le_bytes 4 0 ++ le_bytes 8 1 ++ le_bytes 8 0.
Definition symbol (name addr size : Z) : list Z := le_bytes 4 name ++ [18; 0] ++ le_bytes 2 1 ++ le_bytes 8 addr ++ le_bytes 8 size.

(** [.shstrtab] behind the header, then [.strtab], [.symtab] and the table of sections. *)
Definition names : list Z := 0 :: (bytes ".shstrtab" ++ [0]) ++ (bytes ".strtab" ++ [0]) ++ (bytes ".symtab" ++ [0]).
Definition strings : list Z := 0 :: (bytes "main" ++ [0]) ++ (bytes "fault" ++ [0]) ++ (bytes "_start" ++ [0]).
Definition symbols : list Z := replicate 24 0 ++ symbol 12 1048576 16 ++ symbol 1 18446744071563120640 64 ++ symbol 6 18446744071563120704 32.
Definition header : list Z :=
  [127; 69; 76; 70; 2; 1; 1; 0] ++ replicate 8 0 ++ le_bytes 2 2 ++ le_bytes 2 62 ++ le_bytes 4 1 ++ le_bytes 8 1048576 ++ le_bytes 8 0 ++ le_bytes 8 206 ++
  le_bytes 4 0 ++ le_bytes 2 64 ++ le_bytes 2 56 ++ le_bytes 2 0 ++ le_bytes 2 64 ++ le_bytes 2 4 ++ le_bytes 2 1.
Definition image : list Z := header ++ names ++ strings ++ symbols ++ shdr 0 0 0 0 ++ shdr 1 3 64 27 ++ shdr 11 3 91 19 ++ shdr 19 2 110 96.

Lemma is_text base i : byte_list base -> 0 <= i <= zlen base -> existsb (Z.eqb 0) (drop (Z.to_nat i) base) = true -> has_text base i.
Proof.
  intros Hb Hi He. split; [done|]. destruct (cut_split 0 (drop (Z.to_nat i) base)) as (r & E & [->|(r' & ->)]).
  - rewrite app_nil_r in E. apply existsb_exists in He as (x & Hx & <-%Z.eqb_eq). rewrite E in Hx. pose proof (cut_free 0 (drop (Z.to_nat i) base)) as Hf. rewrite Forall_forall in Hf. destruct (Hf 0); [by apply list_elem_of_In|done].
  - eexists _, r'. split; [exact E|]. apply cut0_nonul. by apply Forall_drop.
Qed.

Lemma image_is_bytes : byte_list image.
Proof. apply (bool_decide_eq_true_1 (Forall (fun c => 0 <= c < 256) image)). vm_compute. reflexivity. Qed.

Lemma below_4 (P : Z -> Prop) : P 0 -> P 1 -> P 2 -> P 3 -> forall i, 0 <= i < sections image -> P i.
Proof. intros H0 H1 H2 H3 i Hi. change (sections image) with 4 in Hi. assert (i = 0 \/ i = 1 \/ i = 2 \/ i = 3) as [-> |[-> |[-> | ->]]] by lia; done. Qed.

Lemma symbol_image_ok : symbol_image image 2 3.
Proof.
  split.
  - exact image_is_bytes.
  - split; vm_compute; [discriminate|reflexivity].
  - vm_compute. reflexivity.
  - split_and!; vm_compute; discriminate.
  - vm_compute. reflexivity.
  - apply (below_4 (fun i => i = index_with_section_names (image_header image) \/ i = 2 \/ i = 3 -> in_file image (s_offset (section image i)) (s_size (section image i)))); (intros _; split; [|split]; vm_compute; discriminate).
  - assert (byte_list (section_names image)) as Hb by apply slice_byte, image_is_bytes. apply (below_4 (fun i => has_text (section_names image) (s_name_index (section image i)))); (apply is_text; [exact Hb|split; vm_compute; discriminate|vm_compute; reflexivity]).
  - split; [split; [discriminate|vm_compute; reflexivity]|]. apply (below_4 (fun i => section_name image i = bytes ".strtab" <-> i = 2)); (split; [intros E; vm_compute in E; (discriminate || reflexivity)|intros E; (discriminate || (vm_compute; reflexivity))]).
  - split; [split; [discriminate|vm_compute; reflexivity]|]. apply (below_4 (fun i => section_name image i = bytes ".symtab" <-> i = 3)); (split; [intros E; vm_compute in E; (discriminate || reflexivity)|intros E; (discriminate || (vm_compute; reflexivity))]).
  - vm_compute. reflexivity.
  - intros j Hj. change (_ / _) with 4 in Hj. assert (j = 0 \/ j = 1 \/ j = 2 \/ j = 3) as [-> |[-> |[-> | ->]]] by lia; (apply is_text; [apply slice_byte, image_is_bytes|split; vm_compute; discriminate|vm_compute; reflexivity]).
Qed.

Definition kernel_path : list Z := bytes "/sys/aexkrnl.elf" ++ [0].
Lemma kernel_opens : fs_open (mounted image) kernel_path 0 = Ok (opened image, 0).
Proof. vm_compute. reflexivity. Qed.
Lemma kernel_open_at : open_at (opened image) 0 image 0.
Proof. apply opened_at, (open_eq image (bytes "sys/aexkrnl.elf" ++ [0]) 0); [by apply (Demo.path_ok (bytes "/sys/aexkrnl.elf"))|exact kernel_opens]. Qed.
End SymbolDemo.

#[local] Existing Instances RamFile.ram_ops RamFile.ram_files.

(** The address of an instruction of [main]. *)
Lemma symbols_name_addresses_witness : exists s2 d', debug_load_symbols (fun n => replicate (Z.to_nat n) 0) 4 (RamFile.mounted SymbolDemo.image) (mk_debug None []) = Ok (s2, d') /\
  ~ listed s2 0 /\ exists y, debug_resolve_symbol d' 18446744071563120694 = Some (bytes "main" ++ [0]) /\ ks_name y = bytes "main" ++ [0] /\ before 18446744071563120694 y.
Proof.
  destruct (symbols_name_addresses (fun n => replicate (Z.to_nat n) 0) 4 (RamFile.mounted SymbolDemo.image) (RamFile.opened SymbolDemo.image) 0 SymbolDemo.image 2 3 (mk_debug None []) 18446744071563120694) as (s2 & d' & E & Hl & Hr).
  - intros n Hn. unfold zlen. rewrite length_replicate. lia.
  - exact SymbolDemo.symbol_image_ok.
  - exact SymbolDemo.kernel_opens.
  - exact SymbolDemo.kernel_open_at.
  - reflexivity.
  - vm_compute. discriminate.
  - exists s2, d'. split; [exact E|]. split; [intros Hx; apply Hl in Hx as [_ Hx]; by destruct Hx|].
    assert (debug_resolve_symbol d' 18446744071563120694 = Some (bytes "main" ++ [0])) as Er by (vm_compute in E; injection E as <- <-; vm_compute; reflexivity).
    rewrite Er in Hr. destruct Hr as (i & y & _ & Hy & Hu). exists y. split; [exact Er|]. split; [by symmetry|]. apply Hu.
    apply (bool_decide_eq_true_1 (Forall _ _)). vm_compute. reflexivity.
Defined.

(** The start of a program is taken for a symbol of the kernel. *)
Lemma resolve_wraps_witness : debug_resolve_symbol (mk_debug None [mk_kernel_symbol (2 ^ 64 - 2 ^ 31) 0 (bytes "start" ++ [0])]) (2 ^ 32 - 2 ^ 31 + 4096) = Some (bytes "start" ++ [0]).
Proof. apply (resolve_wraps _ (2 ^ 32 - 2 ^ 31 + 4096) (1 - 2 ^ 32) (mk_kernel_symbol (2 ^ 64 - 2 ^ 31) 0 (bytes "start" ++ [0]))); [reflexivity|split; vm_compute; [discriminate|reflexivity]]. Defined.
