(* ===== verification/Elf.v ===== *)
(** * Loading a program: arch/x64/exec_elf.c

    [elf_load] reads the image through the open files, makes a new map, gives its segments pages
    of their own and fills those through a window in the kernel's own map; the arguments follow
    in a page of theirs.  [world] is what it works on: the files, the frames, the tables of all
    maps, the kernel's map and what the frames hold. *)
From S2P Require Import Prelude Strings Rcp Pool Bitmap Frame Paging Spaces Window Exec Path Vfs Files Symbols.

Definition PT_LOAD : Z := 1.
Definition USER_END : Z := 140737488355327. (* 0x7FFFFFFFFFFF *)
Definition elf_magic : list Z := [127; 69; 76; 70].

(** [struct exec_data] *)
Record exec_data := mk_exec_data { x_entry : Z; x_kernel_entry : Z; x_phys_addr : Z; x_init_code_addr : Z; x_page_amount : Z }.
Definition no_exec_data : exec_data := mk_exec_data 0 0 0 0 0.

Section Elf.
Context {F W : Type} `{FrameSource F} `{FileOps W} (junk : Z -> list Z) (entry_caller : list Z) (PDPT1 : Z) (fuel : nat).

Record world := mk_world { w_files : W; w_fr : F; w_tabs : gmap Z (list Z); w_kernel : pagemap; w_mem : Z -> list Z }.
Definition set_files (w : world) x := mk_world x (w_fr w) (w_tabs w) (w_kernel w) (w_mem w).
Definition set_mem (w : world) x := mk_world (w_files w) (w_fr w) (w_tabs w) (w_kernel w) x.
Definition kernel_view (w : world) : pg F := mk_pg (w_fr w) (w_tabs w) (w_kernel w).
Definition map_view (w : world) (map : pagemap) : pg F := mk_pg (w_fr w) (w_tabs w) map.

(** A call on the kernel's map, [NULL] in the code, and on [map]. *)
Definition on_kernel {A} (w : world) (f : pg F -> res (pg F * A)) : res (world * A) :=
  '(s, a) ← f (kernel_view w); Ok (mk_world (w_files w) (fr s) (tabs s) (pmap s) (w_mem w), a).
Definition on_map {A} (w : world) (map : pagemap) (f : pg F -> res (pg F * A)) : res (world * pagemap * A) :=
  '(s, a) ← f (map_view w map); Ok (mk_world (w_files w) (fr s) (tabs s) (w_kernel w) (w_mem w), pmap s, a).

(** The frame the kernel reaches at an address, and the frames of [n] pages from there. *)
Definition kernel_frame (w : world) (v : Z) : res Z :=
  let e := pte (w_tabs w) (pg_root (kernel_view w)) v in if Z.land e PAGE_PRESENT =? 0 then Fault else Ok (page_mask e).
Fixpoint kernel_frames (n : nat) (w : world) (v : Z) : res (list Z) :=
  match n with O => Ok [] | S n => a ← kernel_frame w v; l ← kernel_frames n w (v + MEM_PAGE_SIZE); Ok (a :: l) end.

Definition put_frame (mem : Z -> list Z) (a : Z) (b : list Z) : Z -> list Z := fun x => if x =? a then b else mem x.
Fixpoint put_frames (mem : Z -> list Z) (l : list Z) (b : list Z) : Z -> list Z :=
  match l with [] => mem | a :: l => put_frames (put_frame mem a (take (Z.to_nat MEM_PAGE_SIZE) b)) l (drop (Z.to_nat MEM_PAGE_SIZE) b) end.

(** [f] on the [len] bytes at the kernel's address [v]. *)
Definition at_kernel (w : world) (v len : Z) (f : list Z -> res (list Z)) : res world :=
  let n := (v mod MEM_PAGE_SIZE + len + (MEM_PAGE_SIZE - 1)) / MEM_PAGE_SIZE in
  l ← kernel_frames (Z.to_nat n) w (page_mask v);
  let b := l ≫= w_mem w in
  o ← f (slice b (v mod MEM_PAGE_SIZE) len);
  Ok (set_mem w (put_frames (w_mem w) l (splice b (v mod MEM_PAGE_SIZE) o))).

(** [pheaders[i]] *)
Definition pheader (pheaders : list Z) (i : Z) : res elf_program_header :=
  b ← element pheaders SIZEOF_PROGRAM_HEADER i; Ok (as_program_header b).

(** [pg_msize] and [pg_fsize] have 32 bits, and so does their product with the size of a page. *)
Definition pages_of (size : Z) : Z := u32 (kptopg size).

Fixpoint elf_is_safe_loop (n : nat) (pheaders : list Z) (i vend : Z) : res bool :=
  match n with
  | O => Ok true
  | S n =>
      p ← pheader pheaders i;
      if negb (p_type p =? PT_LOAD) then elf_is_safe_loop n pheaders (i + 1) vend
      else if (vend <? p_addr p) || (vend <? u64 (p_addr p + u32 (pages_of (p_msize p) * MEM_PAGE_SIZE))) then Ok false
      else elf_is_safe_loop n pheaders (i + 1) vend
  end.
Definition elf_is_safe (pheaders : list Z) (phdr_cnt : Z) (map : pagemap) : res bool := elf_is_safe_loop (Z.to_nat phdr_cnt) pheaders 0 (vend map).

(** The pages of a segment. *)
Fixpoint page_loop (n : nat) (w : world) (map : pagemap) (fd section_ptr i pg_fsize fsize_remaining : Z) : res (world * pagemap) :=
  match n with
  | O => Ok (w, map)
  | S n =>
      '(w, map, phys) ← on_map w map (fun s => kppaddrof s section_ptr);
      '(w, mapped) ← on_kernel w (fun s => kpmap fuel s 1 phys PAGE_WRITE);
      w ← at_kernel w mapped MEM_PAGE_SIZE (fun b => Ok (replicate (length b) 0));
      '(w, fsize_remaining) ←
        (if i <? pg_fsize then
           let len := if fsize_remaining <? MEM_PAGE_SIZE then fsize_remaining else MEM_PAGE_SIZE in
           '(fs, b, _) ← file_read (w_files w) fd len;
           w ← at_kernel (set_files w fs) mapped MEM_PAGE_SIZE (fun m => memcpy m 0 b 0 (zlen b));
           Ok (w, u64 (fsize_remaining - MEM_PAGE_SIZE))
         else Ok (w, fsize_remaining));
      '(w, _) ← on_kernel w (fun s => s ← kpunmap s mapped 1; Ok (s, tt));
      page_loop n w map fd (u64 (section_ptr + MEM_PAGE_SIZE)) (i + 1) pg_fsize fsize_remaining
  end.

Definition load_segment (w : world) (map : pagemap) (fd : Z) (p : elf_program_header) : res (world * pagemap) :=
  '(w, map, section_ptr) ← on_map w map (fun s => kpvalloc s (pages_of (p_msize p)) (p_addr p) (Z.lor PAGE_USER PAGE_WRITE));
  '(fs, _) ← file_seek (w_files w) fd (s64 (p_offset p)) SEEK_SET;
  page_loop (Z.to_nat (pages_of (p_msize p))) (set_files w fs) map fd section_ptr 0 (pages_of (p_fsize p)) (p_fsize p).

Fixpoint segments_loop (n : nat) (w : world) (map : pagemap) (fd : Z) (pheaders : list Z) (i : Z) : res (world * pagemap) :=
  match n with
  | O => Ok (w, map)
  | S n =>
      p ← pheader pheaders i;
      if negb (p_type p =? PT_LOAD) then segments_loop n w map fd pheaders (i + 1)
      else '(w, map) ← load_segment w map fd p; segments_loop n w map fd pheaders (i + 1)
  end.

(** The page or pages with [entry_caller] and the arguments. *)
Definition load_arguments (w : world) (map : pagemap) (args : list (option (list Z))) : res (world * pagemap * Z) :=
  n ← caller_pages args;
  '(w, map, ker) ← on_map w map (fun s => kpcalloc fuel s n (Z.lor PAGE_USER PAGE_WRITE));
  '(w, map, phys) ← on_map w map (fun s => kppaddrof s ker);
  '(w, ker_mem) ← on_kernel w (fun s => kpmap fuel s n phys PAGE_WRITE);
  w ← at_kernel w ker_mem (n * MEM_PAGE_SIZE) (fun m => setup_entry_caller entry_caller m ker args);
  '(w, _) ← on_kernel w (fun s => s ← kpunmap s ker_mem n; Ok (s, tt));
  Ok (w, map, ker).

Definition file_done (w : world) (fd : Z) : res world := '(fs, _) ← file_close (w_files w) fd; Ok (set_files w fs).

(** The map is the one [elf_load] leaves behind [map], if it made one. *)
Definition elf_load (w : world) (path : list Z) (args : list (option (list Z))) : res (world * option pagemap * exec_data * Z) :=
  '(fs, fd) ← file_open (w_files w) path FS_MODE_READ;
  let w := set_files w fs in
  if is_error fd then Ok (w, None, no_exec_data, fd) else
  '(fs, hb, _) ← read_into (w_files w) fd (junk SIZEOF_ELF_HEADER) SIZEOF_ELF_HEADER;
  let w := set_files w fs in
  let header := as_elf_header hb in
  c ← memcmp (magic_number header) elf_magic 4;
  if negb (c =? 0) then w ← file_done w fd; Ok (w, None, no_exec_data, - rc EBADEXE) else
  if negb (bits header =? 2) || negb (endianiness header =? 1) || negb (isa header =? 62) || negb (prog_hdr_tbl_entry_size header =? 56)
  then w ← file_done w fd; Ok (w, None, no_exec_data, - rc EBADEXE) else
  let phdr_cnt := prog_hdr_tbl_entry_amount header in
  let exec := mk_exec_data (e_entry header) 0 0 0 0 in
  '(fs, _) ← file_seek (w_files w) fd (s64 (prog_header_table_pos header)) SEEK_SET;
  '(fs, pheaders, _) ← read_into fs fd (junk (SIZEOF_PROGRAM_HEADER * phdr_cnt)) (SIZEOF_PROGRAM_HEADER * phdr_cnt);
  let w := set_files w fs in
  '(f, m, map) ← kp_create_map (w_fr w) (w_tabs w) PDPT1;
  let w := mk_world (w_files w) f m (w_kernel w) (w_mem w) in
  let map := mk_pagemap (root_dir map) 0 USER_END (pm_frames_used map) (dir_frames_used map) (map_frames_used map) in
  safe ← elf_is_safe pheaders phdr_cnt map;
  if negb safe then
    f ← kp_dispose_map (w_fr w) (w_tabs w) map;
    w ← file_done (mk_world (w_files w) f (w_tabs w) (w_kernel w) (w_mem w)) fd;
    Ok (w, Some map, exec, - rc EBADEXE)
  else
    '(w, map, phys) ← on_map w map (fun s => kppaddrof s 0);
    '(w, map) ← segments_loop (Z.to_nat phdr_cnt) w map fd pheaders 0;
    '(w, map, ker) ← load_arguments w map args;
    w ← file_done w fd;
    Ok (w, Some map, mk_exec_data (e_entry header) ker phys ker 0, 0).
End Elf.
