(* ===== verification/Load.v ===== *)
(** * What the loader of programs does

    Theorems about [elf_load].  The kernel fills the pages of the new map through a page of its
    own map, a window, that it maps for each of them; [loading] is what holds between two such
    steps. *)
From S2P Require Import Prelude Strings Rcp Pool Bitmap Frame Paging Spaces Window Exec Path Vfs Files Symbols Elf.

Section Load.
Context {F W : Type} `{FrameSource F} {HL : FrameSourceLaws F} `{FileLaws W}.
Implicit Types (w : world (F := F) (W := W)) (map : pagemap).

Definition map_root map : Z := page_mask (root_dir map).
Definition kroot w : Z := pg_root (kernel_view w).

(** A page of the new map: what its frame holds. *)
Definition page_of w map (v : Z) : option (list Z) :=
  let e := pte (w_tabs w) (map_root map) v in if e =? 0 then None else Some (w_mem w (page_mask e)).

(** The frame of a page of the new map is its own. *)
Definition page_frames (m : gmap Z (list Z)) (used : Z -> Prop) (root : Z) : Prop := forall v, own v -> pte m root v <> 0 ->
  let a := page_mask (pte m root v) in present (pte m root v) /\ used a /\ 0 <= a < 2 ^ 64 /\
  forall u, own u -> pte m root u <> 0 -> page_mask (pte m root u) = a -> same_page u v.

Record loading w0 w map : Prop := mk_loading {
  lo_src : source_ok (w_fr w);
  lo_apart : apart (w_tabs w) (taken (w_fr w)) (kroot w) (map_root map);
  lo_same : same_map (kernel_view w0) (kernel_view w);
  lo_pte : forall v, pte (w_tabs w) (kroot w0) v = pte (w_tabs w0) (kroot w0) v;
  lo_mem : forall a, zlen (w_mem w a) = MEM_PAGE_SIZE;
  lo_page : page_frames (w_tabs w) (taken (w_fr w)) (map_root map);
  lo_start : vstart map = 0 }.

Lemma lo_root w0 w map : loading w0 w map -> kroot w = kroot w0.
Proof. intros Hl. apply (same_map_root (kernel_view w0) (kernel_view w)), Hl. Qed.

Lemma lo_kernel w0 w map : loading w0 w map -> pg_ok (kernel_view w).
Proof. intros Hl. split; [apply Hl|]. apply (lo_apart _ _ _ Hl). Qed.

Lemma lo_map w0 w map : loading w0 w map -> pg_ok (map_view w map).
Proof. intros Hl. split; [apply Hl|]. apply (lo_apart _ _ _ Hl). Qed.

Lemma own_dec v : own v \/ ~ own v.
Proof. unfold own. destruct (decide (idx v 39 = 511%nat)); tauto. Qed.

Lemma psteps_start (s s' : pg F) : psteps s s' -> vstart (pmap s') = vstart (pmap s).
Proof. intros Hs. induction Hs as [|s s1 s2 Hst _ IH]; [done|]. rewrite IH. by destruct Hst. Qed.

(** Steps on the kernel's map that put its entries back. *)
Lemma after_kernel w0 w map s fs mem : loading w0 w map -> psteps (kernel_view w) s -> same_map (kernel_view w) s ->
  (forall v, pte (tabs s) (kroot w) v = pte (w_tabs w) (kroot w) v) -> (forall a, zlen (mem a) = MEM_PAGE_SIZE) ->
  loading w0 (mk_world fs (fr s) (tabs s) (pmap s) mem) map /\ forall v, own v -> pte (tabs s) (map_root map) v = pte (w_tabs w) (map_root map) v.
Proof.
  intros Hl Hs Hsm Hp Hm. pose proof (lo_kernel _ _ _ Hl) as Hok. destruct (apart_steps (kernel_view w) s (map_root map) Hok (lo_apart _ _ _ Hl) Hs) as (Hok' & Er & Ha & Hk).
  cbn [tabs fr kernel_view] in *. split; [|done]. split; cbn [w_fr w_tabs w_kernel w_mem w_files].
  - apply Hok'.
  - unfold kroot, kernel_view. cbn [w_fr w_tabs w_kernel]. replace (mk_pg (fr s) (tabs s) (pmap s)) with s by (by destruct s). rewrite Er. done.
  - eapply same_map_trans; [apply Hl|]. done.
  - intros v. rewrite <- (lo_root _ _ _ Hl) in *. rewrite Hp. rewrite (lo_root _ _ _ Hl). apply Hl.
  - done.
  - intros v Hv. rewrite Hk by done. intros Hn. destruct (lo_page _ _ _ Hl v Hv Hn) as (P1 & P2 & P3 & P4). split; [done|]. split; [by apply (psteps_taken _ _ Hs)|]. split; [done|].
    intros u Hu. rewrite Hk by done. by apply P4.
  - apply Hl.
Qed.

(** Steps on the new map that leave the part of the kernel. *)
Lemma after_map w0 w map s fs : loading w0 w map -> psteps (map_view w map) s -> (forall v, ~ own v -> pte (tabs s) (map_root map) v = pte (w_tabs w) (map_root map) v) ->
  page_frames (tabs s) (taken (fr s)) (map_root map) ->
  loading w0 (mk_world fs (fr s) (tabs s) (w_kernel w) (w_mem w)) (pmap s) /\ map_root (pmap s) = map_root map.
Proof.
  intros Hl Hs Hp Hf. pose proof (lo_map _ _ _ Hl) as Hok. destruct (apart_steps (map_view w map) s (kroot w) Hok (apart_sym _ _ _ _ (lo_apart _ _ _ Hl)) Hs) as (Hok' & Er & Ha & Hk).
  change (pg_root (map_view w map)) with (map_root map) in *. change (map_root (pmap s)) with (pg_root s). cbn [tabs map_view] in *. rewrite Er. split; [|done].
  split; cbn [w_fr w_tabs w_kernel w_mem w_files]; try (change (map_root (pmap s)) with (pg_root s); rewrite Er).
  - apply Hok'.
  - by apply apart_sym.
  - apply Hl.
  - intros v. rewrite <- (lo_pte _ _ _ Hl). rewrite <- (lo_root _ _ _ Hl). destruct (own_dec v) as [Hv|Hv]; [by apply Hk|].
    rewrite <- (shared_pte _ _ _ _ v Ha Hv), Hp by done. apply (shared_pte _ _ _ _ v (apart_sym _ _ _ _ (lo_apart _ _ _ Hl)) Hv).
  - apply Hl.
  - done.
  - rewrite (psteps_start _ _ Hs). apply Hl.
Qed.

(** ** One page through the window *)

Lemma page_frames_ext (m m' : gmap Z (list Z)) (used used' : Z -> Prop) root : page_frames m used root -> (forall v, own v -> pte m' root v = pte m root v) -> (forall b, used b -> used' b) -> page_frames m' used' root.
Proof.
  intros Hf Hp Hu v Hv. cbv zeta. rewrite Hp by done. intros Hn. destruct (Hf v Hv Hn) as (P1 & P2 & P3 & P4). split; [done|]. split; [auto|]. split; [done|]. intros u Hv'. rewrite Hp by done. by apply P4.
Qed.

(** [kppaddrof] changes nothing but the tables that are missing. *)
Lemma paddr_any w0 w map v : loading w0 w map -> 0 <= page_mask (pte (w_tabs w) (map_root map) v) < 2 ^ 64 -> v mod 4096 = 0 ->
  result (~ has_table (map_view w map) v) (on_map w map (fun s => kppaddrof s v)) (fun '(w1, map1, a) => a = page_mask (pte (w_tabs w) (map_root map) v) /\ loading w0 w1 map1 /\
    map_root map1 = map_root map /\ w_files w1 = w_files w /\ w_mem w1 = w_mem w /\ forall u, pte (w_tabs w1) (map_root map) u = pte (w_tabs w) (map_root map) u).
Proof.
  intros Hl Ha Hm. pose proof (lo_map _ _ _ Hl) as Hok. unfold on_map, kppaddrof. pose proof (paddrof_ok (map_view w map) v Hok) as Hr.
  destruct (_kppaddrof (map_view w map) v) as [[s a]|msg| |] eqn:E; cbn [result mbind res_bind] in *; [|done..]. destruct Hr as (_ & -> & Hp). pose proof (paddrof_steps _ _ _ _ Hok E) as Hs.
  change (pg_root (map_view w map)) with (map_root map) in *. cbn [tabs map_view] in *. rewrite Hm, Z.add_0_r, u64_small by done.
  destruct (after_map w0 w map s (w_files w) Hl Hs) as [Hl1 Er]; [auto|apply (page_frames_ext (w_tabs w) _ (taken (w_fr w)) _ _ (lo_page _ _ _ Hl)); [auto|apply (psteps_taken _ _ Hs)]|].
  split_and!; done.
Qed.

(** [kppaddrof] of a page that is there. *)
Lemma paddr_step w0 w map v : loading w0 w map -> own v -> v mod 4096 = 0 -> pte (w_tabs w) (map_root map) v <> 0 ->
  exists w1 map1, on_map w map (fun s => kppaddrof s v) = Ok (w1, map1, page_mask (pte (w_tabs w) (map_root map) v)) /\ loading w0 w1 map1 /\
    map_root map1 = map_root map /\ w_files w1 = w_files w /\ w_mem w1 = w_mem w /\ forall u, own u -> pte (w_tabs w1) (map_root map) u = pte (w_tabs w) (map_root map) u.
Proof.
  intros Hl Hv Hm Hn. destruct (lo_page _ _ _ Hl v Hv Hn) as (_ & _ & Ha & _). destruct (result_Ok _ _ _ (paddr_any w0 w map v Hl Ha Hm)) as ([[w1 map1] a] & -> & -> & H2).
  - assert (has_table (map_view w map) v) as Ht; [|tauto].
    unfold has_table. destruct (walk _ _ (vpath v)) eqn:E; [by eexists|]. destruct Hn. unfold pte, leaf. change (map_root map) with (pg_root (map_view w map)). cbn [tabs map_view] in E. by rewrite E.
  - exists w1, map1. split; [done|]. destruct H2 as (P1 & P2 & P3 & P4 & P5). split_and!; auto.
Qed.

(** The kernel's map has a free page for the window, the first [k + 1] pages are enough to find it. *)
Record can_open w (fuel : nat) (k : Z) : Prop := mk_can_open {
  co_k : 0 <= k; co_fuel : k + 1 < Z.of_nat fuel;
  co_start : 0 <= vstart (w_kernel w) < 2 ^ 64; co_page : vstart (w_kernel w) mod 4096 = 0;
  co_count : 0 <= map_frames_used (w_kernel w) < 2 ^ 64;
  co_free : pte (w_tabs w) (kroot w) (vstart (w_kernel w) + 4096 * k) = 0 }.

Lemma win_open w0 w map fuel k a : loading w0 w map -> can_open w0 fuel k -> 0 <= a < 2 ^ 64 -> page_mask a = a ->
  result True (on_kernel w (fun s => kpmap fuel s 1 a PAGE_WRITE)) (fun '(w2, v) => w_files w2 = w_files w /\ w_mem w2 = w_mem w /\ v mod 4096 = 0 /\ kernel_frame w2 v = Ok a /\
    forall fs mem, (forall x, zlen (mem x) = MEM_PAGE_SIZE) -> exists w3, on_kernel (mk_world fs (w_fr w2) (w_tabs w2) (w_kernel w2) mem) (fun s => s ← kpunmap s v 1; Ok (s, tt)) = Ok (w3, tt) /\
      loading w0 w3 map /\ w_files w3 = fs /\ w_mem w3 = mem /\ forall u, own u -> pte (w_tabs w3) (map_root map) u = pte (w_tabs w) (map_root map) u).
Proof.
  intros Hl [C1 C2 C3 C4 C5 C6] Ha Hal. pose proof (lo_kernel _ _ _ Hl) as Hok. pose proof (lo_same _ _ _ Hl) as (_ & Ev & _ & _ & Em). cbn [pmap kernel_view] in Ev, Em.
  assert (run_free (kernel_view w) (vstart (pmap (kernel_view w))) k 1) as Hf.
  { apply run_one. cbn [pmap kernel_view tabs]. rewrite Ev. change (pg_root (kernel_view w)) with (kroot w). by rewrite (lo_root _ _ _ Hl), (lo_pte _ _ _ Hl). }
  unfold on_kernel at 1. pose proof (window_ok fuel (kernel_view w) a PAGE_WRITE k Hok Ha Hal) as Hw. cbn [pmap kernel_view] in Hw, Hf. rewrite Ev, Em in *. specialize (Hw C1 C3 C4 C5 Hf C2).
  destruct (kpmap fuel (kernel_view w) 1 a PAGE_WRITE) as [[s v]|m| |] eqn:E; cbn [result mbind res_bind] in *; [|done..]. destruct Hw as (Hok1 & Er & Hv & _ & (Hpr & Hno & Hea) & s2 & Eu & Hg & Hp).
  pose proof (kpmap_steps _ _ _ _ _ _ _ Hok E) as Hs1. split; [done|]. split; [done|]. split; [done|].
  change (pg_root (kernel_view w)) with (kroot w) in *. split.
  { unfold kernel_frame. cbn [w_tabs]. match goal with |- context [pg_root (kernel_view ?x)] => change (pg_root (kernel_view x)) with (pg_root s) end. rewrite Er. unfold present in Hpr. destruct (Z.eqb_spec (Z.land (pte (tabs s) (kroot w) v) PAGE_PRESENT) 0); [done|]. by rewrite Hea. }
  intros fs mem Hmem. unfold on_kernel, kernel_view. cbn [w_fr w_tabs w_kernel w_files w_mem]. replace (mk_pg (fr s) (tabs s) (pmap s)) with s by (by destruct s). rewrite Eu. cbn [mbind res_bind].
  assert (psteps (kernel_view w) s2) as Hs by (eapply psteps_trans; [exact Hs1|]; apply (unmap_steps s v); [done|by rewrite Er|done]).
  destruct (after_kernel w0 w map s2 fs mem Hl Hs ltac:(apply Hg) Hp Hmem) as [Hl2 Hk]. eexists. split; [done|]. split_and!; done.
Qed.

Lemma at_kernel_page w v a (f : list Z -> res (list Z)) : kernel_frame w v = Ok a -> v mod 4096 = 0 -> zlen (w_mem w a) = MEM_PAGE_SIZE ->
  (forall o, f (w_mem w a) = Ok o -> zlen o = MEM_PAGE_SIZE) -> at_kernel w v MEM_PAGE_SIZE f = (o ← f (w_mem w a); Ok (set_mem w (put_frame (w_mem w) a o))).
Proof.
  intros Hk Hv Hm Ho. unfold at_kernel, MEM_PAGE_SIZE in *. rewrite Hv. change (Z.to_nat ((0 + 4096 + (4096 - 1)) / 4096)) with 1%nat. cbn [kernel_frames].
  rewrite page_mask_aligned by done. rewrite Hk. cbn [mbind res_bind list_bind]. rewrite app_nil_r. replace (slice (w_mem w a) 0 4096) with (w_mem w a).
  2: { unfold slice. rewrite drop_0. symmetry. apply take_ge. unfold zlen in Hm. lia. }
  destruct (f (w_mem w a)) as [o| | |] eqn:E; cbn [mbind res_bind]; [|done..]. specialize (Ho o eq_refl). cbn [put_frames]. rewrite splice_0. rewrite (drop_ge (w_mem w a)) by (unfold zlen in *; lia).
  rewrite app_nil_r, take_ge by (unfold MEM_PAGE_SIZE, zlen in *; lia). done.
Qed.

Lemma page_of_after w map w3 map3 v a (b : list Z) : page_frames (w_tabs w) (taken (w_fr w)) (map_root map) -> own v -> pte (w_tabs w) (map_root map) v <> 0 -> a = page_mask (pte (w_tabs w) (map_root map) v) ->
  map_root map3 = map_root map -> (forall u, own u -> pte (w_tabs w3) (map_root map) u = pte (w_tabs w) (map_root map) u) ->
  (forall x, w_mem w3 x = if x =? a then b else w_mem w x) ->
  page_of w3 map3 v = Some b /\ forall u, own u -> ~ same_page u v -> page_of w3 map3 u = page_of w map u.
Proof.
  intros Hf Hv Hn -> Er Hp Hm. unfold page_of. rewrite Er. split.
  - rewrite Hp by done. destruct (Z.eqb_spec (pte (w_tabs w) (map_root map) v) 0); [done|]. by rewrite Hm, Z.eqb_refl.
  - intros u Hu Hns. rewrite Hp by done. destruct (Z.eqb_spec (pte (w_tabs w) (map_root map) u) 0) as [|Hnu]; [done|]. rewrite Hm.
    destruct (Z.eqb_spec (page_mask (pte (w_tabs w) (map_root map) u)) (page_mask (pte (w_tabs w) (map_root map) v))) as [E|]; [|done].
    destruct (Hf v Hv Hn) as (_ & _ & _ & Hs). by destruct Hns; apply Hs.
Qed.

(** A page that begins with [b] and is zero behind. *)
Definition padded (b : list Z) : list Z := b ++ replicate (Z.to_nat (MEM_PAGE_SIZE - zlen b)) 0.

Lemma zlen_padded b : zlen b <= MEM_PAGE_SIZE -> zlen (padded b) = MEM_PAGE_SIZE.
Proof. unfold padded, zlen. intros. rewrite length_app, length_replicate. lia. Qed.

Lemma copy_padded b : zlen b <= MEM_PAGE_SIZE -> memcpy (replicate (Z.to_nat MEM_PAGE_SIZE) 0) 0 b 0 (zlen b) = Ok (padded b).
Proof.
  intros Hb. pose proof (zlen_nonneg b). rewrite memcpy_ok; [|lia|lia|lia|unfold zlen in *; rewrite length_replicate; lia|lia].
  rewrite splice_0. f_equal. unfold padded, slice. rewrite drop_0, take_ge by (unfold zlen; lia). f_equal. rewrite drop_replicate. f_equal. unfold zlen, MEM_PAGE_SIZE in *. lia.
Qed.

Lemma slice_moves {A} (l : list A) p n : 0 <= p -> 0 <= n -> Z.min p (zlen l) + zlen (slice l p n) = Z.min (p + n) (zlen l).
Proof. intros. unfold slice, zlen. rewrite length_take, length_drop. lia. Qed.

Lemma slice_short {A} (l : list A) p n : 0 <= n -> zlen (slice l p n) <= n.
Proof. intros. unfold slice, zlen. rewrite length_take. lia. Qed.

Lemma read_step (s0 : W) fd c s p len : Symbols.at_pos s0 fd c s (Z.min p (zlen c)) -> 0 <= p -> 0 <= len < 2 ^ 63 ->
  exists s' r, file_read s fd len = Ok (s', slice c p len, r) /\ Symbols.at_pos s0 fd c s' (Z.min (p + len) (zlen c)).
Proof.
  intros [Ho Hl] Hp Hlen. destruct (law_read s fd c _ len Ho Hlen) as (s' & E & Ho' & Hl'). unfold read_of in *. rewrite slice_end in * by done. rewrite slice_moves in Ho' by lia.
  eexists s', _. split; [done|]. split; [done|]. intros x. by rewrite Hl'.
Qed.

(** One turn of the loop over the pages of a segment: page [v] gets the next bytes of the file and
    is zero behind them, nothing else in the new map changes, and the kernel's map is as it was. *)
Lemma page_turn w0 w map fuel k (s0 : W) fd c n v i pgf rem p Q : loading w0 w map -> can_open w0 fuel k -> own v -> v mod 4096 = 0 -> page_of w map v <> None ->
  Symbols.at_pos s0 fd c (w_files w) (Z.min p (zlen c)) -> 0 <= p -> (i < pgf -> 0 <= rem) ->
  let len := if i <? pgf then Z.min rem MEM_PAGE_SIZE else 0 in
  (forall w' map', loading w0 w' map' -> map_root map' = map_root map -> Symbols.at_pos s0 fd c (w_files w') (Z.min (p + len) (zlen c)) ->
     page_of w' map' v = Some (padded (slice c p len)) -> (forall u, own u -> ~ same_page u v -> page_of w' map' u = page_of w map u) ->
     result True (page_loop fuel n w' map' fd (u64 (v + MEM_PAGE_SIZE)) (i + 1) pgf (if i <? pgf then u64 (rem - MEM_PAGE_SIZE) else rem)) Q) ->
  result True (page_loop fuel (S n) w map fd v i pgf rem) Q.
Proof.
  intros Hl Hco Hv Hm Hpage Hpos Hp Hrem len HQ. cbn [page_loop].
  assert (pte (w_tabs w) (map_root map) v <> 0) as Hn by (unfold page_of in Hpage; destruct (Z.eqb_spec (pte (w_tabs w) (map_root map) v) 0); done).
  destruct (lo_page _ _ _ Hl v Hv Hn) as (_ & _ & Har & _). set (a := page_mask (pte (w_tabs w) (map_root map) v)) in *.
  destruct (paddr_step w0 w map v Hl Hv Hm Hn) as (w1 & map1 & -> & Hl1 & Er1 & Ef1 & Em1 & Hp1). cbn [mbind res_bind]. fold a.
  eapply result_bind; [apply (win_open w0 w1 map1 fuel k a Hl1 Hco Har); apply page_mask_idem|done|]. intros [w2 v2] (Ef2 & Em2 & Hv2 & Hk2 & Hclose).
  pose proof (lo_mem _ _ _ Hl) as Hmem. assert (zlen (w_mem w2 a) = MEM_PAGE_SIZE) as Ha by (by rewrite Em2, Em1).
  assert (forall o : list Z, length (replicate (length o) 0) = length o) as Hrl by (intros; apply length_replicate).
  rewrite (at_kernel_page w2 v2 a) by first [done|intros o [= <-]; unfold zlen; rewrite Hrl; exact Ha]. cbn [mbind res_bind].
  assert (length (w_mem w2 a) = Z.to_nat MEM_PAGE_SIZE) as Hlen by (unfold zlen in Ha; lia). rewrite Hlen. set (zs := replicate (Z.to_nat MEM_PAGE_SIZE) 0).
  set (w3 := set_mem w2 (put_frame (w_mem w2) a zs)). assert (w_mem w3 a = zs) as Hz by (cbn; unfold put_frame; by rewrite Z.eqb_refl).
  assert (exists w4, (if i <? pgf then
           '(fs, b, _) ← file_read (w_files w3) fd (if rem <? MEM_PAGE_SIZE then rem else MEM_PAGE_SIZE);
           w ← at_kernel (set_files w3 fs) v2 MEM_PAGE_SIZE (fun m => memcpy m 0 b 0 (zlen b));
           Ok (w, u64 (rem - MEM_PAGE_SIZE))
         else Ok (w3, rem)) = Ok (w4, if i <? pgf then u64 (rem - MEM_PAGE_SIZE) else rem) /\ Symbols.at_pos s0 fd c (w_files w4) (Z.min (p + len) (zlen c)) /\
      w4 = mk_world (w_files w4) (w_fr w2) (w_tabs w2) (w_kernel w2) (w_mem w4) /\ forall x, w_mem w4 x = if x =? a then padded (slice c p len) else w_mem w x) as (w4 & -> & Hpos4 & Ew4 & Hm4).
  { rewrite <- Ef1, <- Ef2 in Hpos. unfold len. destruct (Z.ltb_spec i pgf) as [Hi|Hi].
    - specialize (Hrem Hi). replace (if rem <? MEM_PAGE_SIZE then rem else MEM_PAGE_SIZE) with (Z.min rem MEM_PAGE_SIZE) by (destruct (Z.ltb_spec rem MEM_PAGE_SIZE); lia).
      destruct (read_step s0 fd c (w_files w2) p (Z.min rem MEM_PAGE_SIZE) Hpos Hp ltac:(unfold MEM_PAGE_SIZE; lia)) as (s' & r & E & Hpos').
      change (w_files w3) with (w_files w2). rewrite E. cbn [mbind res_bind]. pose proof (slice_short c p (Z.min rem MEM_PAGE_SIZE) ltac:(unfold MEM_PAGE_SIZE; lia)) as Hs.
      assert (memcpy zs 0 (slice c p (Z.min rem MEM_PAGE_SIZE)) 0 (zlen (slice c p (Z.min rem MEM_PAGE_SIZE))) = Ok (padded (slice c p (Z.min rem MEM_PAGE_SIZE)))) as Ec by (apply copy_padded; lia).
      rewrite (at_kernel_page _ v2 a); [|done|done|change (w_mem (set_files w3 s') a) with (w_mem w3 a); rewrite Hz; by apply (zlen_padded [])|change (w_mem (set_files w3 s') a) with (w_mem w3 a); rewrite Hz, Ec; intros o [= <-]; apply zlen_padded; lia].
      change (w_mem (set_files w3 s') a) with (w_mem w3 a). rewrite Hz, Ec. cbn [mbind res_bind]. eexists. split; [done|]. cbn [w_files set_mem set_files w_mem]. split; [done|]. split; [done|].
      intros x. unfold put_frame. destruct (Z.eqb_spec x a); [done|]. cbn. unfold put_frame. destruct (Z.eqb_spec x a); [done|]. by rewrite Em2, Em1.
    - exists w3. split; [done|]. rewrite Z.add_0_r. split; [done|]. split; [done|]. intros x. cbn. unfold put_frame. rewrite slice_0. destruct (Z.eqb_spec x a); [done|]. by rewrite Em2, Em1. }
  cbn [mbind res_bind]. destruct (Hclose (w_files w4) (w_mem w4)) as (w5 & E5 & Hl5 & Ef5 & Em5 & Hp5).
  { intros x. rewrite Hm4. destruct (x =? a); [|done]. apply zlen_padded. pose proof (slice_short c p len). unfold len, MEM_PAGE_SIZE in *. destruct (Z.ltb_spec i pgf); [specialize (Hrem ltac:(done))|]; lia. }
  rewrite <- Ew4 in E5. rewrite E5. cbn [mbind res_bind]. rewrite Er1 in Hp5. destruct (page_of_after w map w5 map1 v a (padded (slice c p len)) (lo_page _ _ _ Hl) Hv Hn eq_refl Er1) as [Hd Ho].
  { intros u Hu. rewrite Hp5, Hp1 by done. done. }
  { intros x. by rewrite Em5, Hm4. }
  apply HQ; [done|done|by rewrite Ef5|done|done].
Qed.

Lemma off_ahead v k : 0 <= k < 2 ^ 36 -> off (v + 4096 * k) v = k.
Proof. intros Hk. unfold off. rewrite (Z.mul_comm 4096), Z.div_add by lia. replace (v / 4096 + k - v / 4096) with k by lia. by apply Z.mod_small. Qed.

Lemma low_own v : 0 <= v < 2 ^ 47 -> own v.
Proof. intros Hv E. pose proof (low_user v Hv) as Hu. unfold user in Hu. lia. Qed.

(** What page [j] of a segment with [fs] bytes at [o] of the file has. *)
Definition file_page (c : list Z) (o fs j : Z) : list Z := padded (slice c (o + 4096 * j) (Z.max 0 (Z.min 4096 (fs - 4096 * j)))).

Lemma page_loop_ok w0 fuel k (s0 : W) fd c o fs pgf n : can_open w0 fuel k -> 0 <= o -> 0 <= fs < 2 ^ 64 -> (forall i, 0 <= i -> i < pgf <-> 4096 * i < fs) ->
  forall w map v i pos rem, loading w0 w map -> v mod 4096 = 0 -> 0 <= v -> v + 4096 * Z.of_nat n <= 2 ^ 47 -> (forall j, 0 <= j < Z.of_nat n -> page_of w map (v + 4096 * j) <> None) ->
  0 <= i -> Symbols.at_pos s0 fd c (w_files w) (Z.min pos (zlen c)) -> 0 <= pos -> (i < pgf -> pos = o + 4096 * i /\ rem = fs - 4096 * i) ->
  result True (page_loop fuel n w map fd v i pgf rem) (fun '(w', map') => loading w0 w' map' /\ map_root map' = map_root map /\
    (exists pos', Symbols.at_pos s0 fd c (w_files w') pos') /\
    (forall j, 0 <= j < Z.of_nat n -> page_of w' map' (v + 4096 * j) = Some (file_page c o fs (i + j))) /\
    forall u, own u -> Z.of_nat n <= off u v -> page_of w' map' u = page_of w map u).
Proof.
  intros Hco Ho Hfs Hpgf. induction n as [|n IH]; intros w map v i pos rem Hl Hm Hv0 Hv Hpages Hi Hpos Hp Hrem.
  { cbn [page_loop result]. split; [done|]. split; [done|]. split; [by eexists|]. split; [lia|done]. }
  assert (own v) as Hown by (apply low_own; lia). assert (forall j, 0 <= j < Z.of_nat n -> own (v + 4096 * (j + 1)) /\ ~ same_page (v + 4096 * (j + 1)) v) as Hnext.
  { intros j Hj. split; [apply low_own; lia|]. rewrite same_page_off, off_ahead by lia. lia. }
  eapply (page_turn w0 w map fuel k s0 fd c n v i pgf rem pos); [done|done|done|done| |done|done|intros Hi'; destruct (Hrem Hi') as [_ ->]; apply Hpgf in Hi'; lia|].
  { specialize (Hpages 0 ltac:(lia)). by rewrite Z.mul_0_r, Z.add_0_r in Hpages. }
  cbv zeta. set (len := if i <? pgf then Z.min rem MEM_PAGE_SIZE else 0). intros w1 map1 Hl1 Er1 Hpos1 Hd1 Hk1.
  assert (slice c pos len = slice c (o + 4096 * i) (Z.max 0 (Z.min 4096 (fs - 4096 * i)))) as Hsl.
  { unfold len, MEM_PAGE_SIZE. destruct (Z.ltb_spec i pgf) as [Hlt|Hge]; [destruct (Hrem Hlt) as [-> ->]; apply Hpgf in Hlt; [|done]; f_equal; lia|].
    replace (Z.max 0 (Z.min 4096 (fs - 4096 * i))) with 0; [by rewrite !slice_0|]. assert (~ 4096 * i < fs) by (rewrite <- Hpgf by done; lia). lia. }
  assert (0 <= len) as Hlen by (unfold len, MEM_PAGE_SIZE; destruct (Z.ltb_spec i pgf) as [Hlt|Hge]; [destruct (Hrem Hlt) as [_ ->]; apply Hpgf in Hlt|]; lia).
  rewrite u64_small by (unfold MEM_PAGE_SIZE; lia). unfold MEM_PAGE_SIZE at 1.
  eapply result_mono; [apply (IH w1 map1 (v + 4096) (i + 1) (pos + len))|done|].
  - done.
  - by rewrite <- Zplus_mod_idemp_l, Hm.
  - lia.
  - lia.
  - intros j Hj. replace (v + 4096 + 4096 * j) with (v + 4096 * (j + 1)) by lia. destruct (Hnext j Hj). rewrite Hk1 by done. apply Hpages. lia.
  - lia.
  - done.
  - lia.
  - intros Hlt. apply Hpgf in Hlt; [|lia]. assert (i < pgf) as Hlt' by (apply Hpgf; lia). destruct (Hrem Hlt') as [-> ->]. unfold len, MEM_PAGE_SIZE in *. destruct (Z.ltb_spec i pgf); [|lia]. rewrite u64_small; lia.
  - intros [w' map'] (Hl' & Er' & Hpos' & Hd' & Hk'). split; [done|]. split; [by rewrite Er'|]. split; [done|]. split.
    + intros j Hj. destruct (decide (j = 0)) as [->|Hne].
      * rewrite Z.mul_0_r, !Z.add_0_r. unfold file_page. rewrite <- Hsl, <- Hd1. apply Hk'; [done|]. replace (v + 4096) with (v + 4096 * 1) by lia.
        rewrite off_pages, off_refl. change ((0 - 1) mod 2 ^ 36) with (2 ^ 36 - 1). lia.
      * replace (v + 4096 * j) with (v + 4096 + 4096 * (j - 1)) by lia. replace (i + j) with (i + 1 + (j - 1)) by lia. apply Hd'. lia.
    + intros u Hu Hoff. pose proof (off_range u v). rewrite Hk', Hk1; [done|done|rewrite same_page_off; lia|done|].
      replace (v + 4096) with (v + 4096 * 1) by lia. rewrite off_pages, Z.mod_small by lia. lia.
Qed.

(** ** A segment *)

Lemma off_same u v b : off u b = off v b -> same_page u v.
Proof.
  unfold off. intros E. apply same_page_iff. apply (f_equal (fun x => (x + b / 4096) mod 2 ^ 36)) in E. rewrite !Zplus_mod_idemp_l in E. by rewrite !Z.sub_add in E.
Qed.

Lemma own_same u v : same_page u v -> own u <-> own v.
Proof. unfold own, same_page, vpath. cbn [idxs]. intros [[= E _ _] _]. by rewrite E. Qed.

Lemma own_run u v n : 0 <= v -> v + 4096 * n <= 2 ^ 47 -> off u v < n -> own u.
Proof.
  intros Hv Hb Ho. pose proof (off_range u v). apply (own_same u (v + 4096 * off u v)); [|apply low_own; lia]. apply (off_same _ _ v). by rewrite off_ahead.
Qed.

Lemma valloc_step w0 w map n addr : loading w0 w map -> 0 <= n -> 0 <= addr -> addr + 4096 * n <= 2 ^ 47 ->
  result True (on_map w map (fun s => kpvalloc s n addr (Z.lor PAGE_USER PAGE_WRITE))) (fun '(w1, map1, ptr) => loading w0 w1 map1 /\ map_root map1 = map_root map /\
    w_files w1 = w_files w /\ w_mem w1 = w_mem w /\ (0 < n -> ptr = addr) /\ (forall j, 0 <= j < n -> page_of w1 map1 (addr + 4096 * j) <> None) /\
    forall u, own u -> n <= off u addr -> page_of w1 map1 u = page_of w map u).
Proof.
  intros Hl Hn Ha Hb. pose proof (lo_map _ _ _ Hl) as Hok. unfold on_map, kpvalloc. destruct (Z.eqb_spec n 0) as [->|Hn0].
  { cbn [mbind res_bind result]. unfold map_view. cbn [fr tabs pmap]. destruct w as [fs f m kp mem]. cbn in *. split; [done|]. split_and!; try done; lia. }
  destruct (valloc_loop (Z.to_nat n) (map_view w map) addr _) as [s|msg| |] eqn:E; pose proof (valloc_loop_ok (Z.land (Z.lor PAGE_USER PAGE_WRITE) 4095) (Z.to_nat n) (map_view w map) addr Hok ltac:(lia)) as Hr;
    rewrite E in Hr; cbn [result mbind res_bind] in *; [|done..]. pose proof (valloc_loop_steps _ _ _ _ _ Hok E) as Hs. destruct Hr as (Hg & l & Hll & Hnd & Hall & Hp).
  change (pg_root (map_view w map)) with (map_root map) in *. cbn [tabs map_view] in Hp. set (s1 := set_pmap s _).
  assert (psteps (map_view w map) s1) as Hs1 by (eapply psteps_trans; [exact Hs|by apply count_step]). rewrite Forall_forall in Hall.
  assert (forall v, (exists a, l !! Z.to_nat (off v addr) = Some a /\ off v addr < n /\ pte (tabs s) (map_root map) v = own_entry a (Z.land (Z.lor PAGE_USER PAGE_WRITE) 4095)) \/
    n <= off v addr /\ pte (tabs s) (map_root map) v = pte (w_tabs w) (map_root map) v) as Hcase.
  { intros v. rewrite Hp. unfold get. pose proof (off_range v addr). destruct (Z.leb_spec 0 (off v addr)); [|lia]. destruct (l !! Z.to_nat (off v addr)) as [a|] eqn:El; [left|right].
    - apply lookup_lt_Some in El as Hlt. exists a. split; [done|]. split; [lia|done].
    - apply lookup_ge_None in El. split; [lia|done]. }
  assert (page_frames (tabs s) (taken (fr s)) (map_root map)) as Hpf.
  { intros v Hv Hnz. destruct (Hcase v) as [(a & Hla & Hva & Ev)|[Hva Ev]].
    - rewrite Ev. destruct (Hall a) as ([Har Hal] & Hfr & Hta); [by eapply list_elem_of_lookup_2|]. destruct (own_entry_ok a (Z.lor PAGE_USER PAGE_WRITE) Hal) as [Hpr Em]. rewrite Em. split; [done|]. split; [done|]. split; [done|].
      intros u Hu Hnu Eu. destruct (Hcase u) as [(a' & Hla' & Hua & Eu')|[Hua Eu']]; rewrite Eu' in Eu.
      + destruct (Hall a') as ([_ Hal'] & _); [by eapply list_elem_of_lookup_2|]. destruct (own_entry_ok a' (Z.lor PAGE_USER PAGE_WRITE) Hal') as [_ Em']. rewrite Em' in Eu. subst a'.
        apply (off_same _ _ addr). pose proof (NoDup_lookup _ _ _ _ Hnd Hla' Hla). pose proof (off_range u addr). pose proof (off_range v addr). lia.
      + rewrite Eu' in Hnu. destruct (lo_page _ _ _ Hl u Hu Hnu) as (_ & Ht & _). rewrite Eu in Ht. done.
    - rewrite Ev in *. destruct (lo_page _ _ _ Hl v Hv Hnz) as (Q1 & Q2 & Q3 & Q4). split; [done|]. split; [by apply (psteps_taken _ _ Hs)|]. split; [done|].
      intros u Hu Hnu Eu. destruct (Hcase u) as [(a' & Hla' & Hua & Eu')|[Hua Eu']]; rewrite Eu' in Eu, Hnu; [|by apply Q4].
      destruct (Hall a') as ([_ Hal'] & Hfr' & _); [by eapply list_elem_of_lookup_2|]. destruct (own_entry_ok a' (Z.lor PAGE_USER PAGE_WRITE) Hal') as [_ Em']. rewrite Em' in Eu. subst a'. done. }
  destruct (after_map w0 w map s1 (w_files w) Hl Hs1) as [Hl1 Er1]; [|done|].
  { intros v Hv. destruct (Hcase v) as [(a & _ & Hva & _)|[_ Ev]]; [|done]. by destruct Hv; eapply own_run. }
  split; [done|]. split; [done|]. split; [done|]. split; [done|]. split; [done|]. split.
  - intros j Hj. unfold page_of. cbn [w_tabs]. rewrite Er1. destruct (Hcase (addr + 4096 * j)) as [(a & Hla & _ & Ev)|[Hge _]]; rewrite ?off_ahead in * by lia; [|lia].
    cbn [tabs s1 set_pmap]. rewrite Ev. destruct (Hall a) as ([_ Hal] & _); [by eapply list_elem_of_lookup_2|]. destruct (own_entry_ok a (Z.lor PAGE_USER PAGE_WRITE) Hal) as [Hpr _]. apply present_nonzero in Hpr. by destruct (Z.eqb_spec (own_entry a (Z.land (Z.lor PAGE_USER PAGE_WRITE) 4095)) 0).
  - intros u Hu Hge. unfold page_of. cbn [w_tabs w_mem]. rewrite Er1. destruct (Hcase u) as [(a & _ & Hlt & _)|[_ Ev]]; [lia|]. cbn [tabs s1 set_pmap]. by rewrite Ev.
Qed.

(** The pages of a segment, and the addresses in them. *)
Definition seg_pages (p : elf_program_header) : Z := pages_of (p_msize p).
Definition covers (p : elf_program_header) (v : Z) : Prop := p_type p = PT_LOAD /\ off v (p_addr p) < seg_pages p.

(** A segment the loader can load: it begins on a page and ends below the end of the address space.
    An entry of another type is not looked at. *)
Definition loadable (p : elf_program_header) : Prop := p_type p = PT_LOAD ->
  p_addr p mod 4096 = 0 /\ 0 <= p_addr p /\ p_addr p + 4096 * seg_pages p < 2 ^ 47 /\ 0 <= p_offset p < 2 ^ 62 /\ 0 <= p_fsize p <= 2 ^ 44 - 4096 /\ 0 <= p_msize p <= 2 ^ 44 - 4096.

(** The pages of the segment have its bytes of the file. *)
Definition has_segment w map (c : list Z) (p : elf_program_header) : Prop :=
  forall j, 0 <= j < seg_pages p -> page_of w map (p_addr p + 4096 * j) = Some (file_page c (p_offset p) (p_fsize p) j).

Lemma pages_of_eq n : 0 <= n <= 2 ^ 44 - 4096 -> pages_of n = (n + 4095) / 4096 /\ 0 <= pages_of n < 2 ^ 32.
Proof.
  intros Hn. unfold pages_of, kptopg, PAGE_SIZE. change (4096 - 1) with 4095. rewrite u64_small by lia. assert (0 <= (n + 4095) / 4096 < 2 ^ 32) by (split; [apply Z.div_pos; lia|apply Z.div_lt_upper_bound; lia]).
  by rewrite u32_small.
Qed.

Lemma load_segment_ok w0 w map fuel k (s0 : W) fd c pos p : can_open w0 fuel k -> loading w0 w map -> Symbols.at_pos s0 fd c (w_files w) pos -> loadable p -> p_type p = PT_LOAD ->
  result True (load_segment fuel w map fd p) (fun '(w', map') => loading w0 w' map' /\ map_root map' = map_root map /\ (exists pos', Symbols.at_pos s0 fd c (w_files w') pos') /\
    has_segment w' map' c p /\ forall u, own u -> ~ covers p u -> page_of w' map' u = page_of w map u).
Proof.
  intros Hco Hl Hpos Hp Ht. destruct (Hp Ht) as (Hm & Ha & Hb & Ho & Hf & Hms). destruct (pages_of_eq _ Hms) as [_ Hn]. fold (seg_pages p) in Hn. unfold load_segment. fold (seg_pages p).
  eapply result_bind; [by apply (valloc_step w0 w map (seg_pages p) (p_addr p) Hl); lia|done|]. intros [[w1 map1] ptr] (Hl1 & Er1 & Ef1 & _ & Hptr & Hpg1 & Hk1).
  destruct (seek_at s0 fd c (w_files w1) pos (p_offset p)) as (fs & r & -> & Hpos1); [by rewrite Ef1|done|]. cbn [mbind res_bind].
  assert (loading w0 (set_files w1 fs) map1) as Hl2 by (by destruct Hl1). destruct (decide (seg_pages p = 0)) as [E0|E0].
  { rewrite E0. cbn [Z.to_nat page_loop result]. split; [done|]. split; [done|]. split; [by eexists|]. split; [intros j; lia|]. intros u Hu _. apply Hk1; [done|]. rewrite E0. apply off_range. }
  rewrite Hptr by lia. destruct (pages_of_eq _ Hf) as [Epf _].
  eapply result_mono; [apply (page_loop_ok w0 fuel k s0 fd c (p_offset p) (p_fsize p) (pages_of (p_fsize p)) (Z.to_nat (seg_pages p)) Hco ltac:(lia) ltac:(lia)) with (pos := p_offset p)|done|].
  - intros i Hi. rewrite Epf. pose proof (Z.div_mod (p_fsize p + 4095) 4096 ltac:(lia)). pose proof (Z.mod_pos_bound (p_fsize p + 4095) 4096 ltac:(lia)). lia.
  - done.
  - done.
  - done.
  - lia.
  - intros j Hj. apply Hpg1. lia.
  - done.
  - done.
  - lia.
  - intros _. lia.
  - rewrite Z2Nat.id by lia. intros [w' map'] (Hl' & Er' & Hpos' & Hd & Hk). split; [done|]. split; [by rewrite Er'|]. split; [done|]. split; [exact Hd|].
    intros u Hu Hc. assert (seg_pages p <= off u (p_addr p)) by (unfold covers in Hc; destruct (Z.lt_ge_cases (off u (p_addr p)) (seg_pages p)); [tauto|done]).
    rewrite Hk by done. apply (Hk1 u Hu). done.
Qed.

Lemma covers_own p v : loadable p -> covers p v -> own v.
Proof. intros Hp [Ht Ho]. destruct (Hp Ht) as (_ & Ha & Hb & _). apply (own_run v (p_addr p) (seg_pages p)); lia. Qed.

Lemma segment_kept w map w' map' c p : loadable p -> p_type p = PT_LOAD -> has_segment w map c p -> (forall u, covers p u -> page_of w' map' u = page_of w map u) -> has_segment w' map' c p.
Proof.
  intros Hp Ht Hs Hk j Hj. rewrite Hk; [by apply Hs|]. split; [done|]. destruct (Hp Ht) as (_ & _ & Hb & _ & _ & Hms). destruct (pages_of_eq _ Hms) as [_ Hn]. fold (seg_pages p) in Hn. rewrite off_ahead by lia. lia.
Qed.

(** All segments, one after another. *)
Lemma segments_loop_ok w0 fuel k (s0 : W) fd c pheaders l : can_open w0 fuel k -> forall w map i pos, loading w0 w map -> Symbols.at_pos s0 fd c (w_files w) pos -> Forall loadable l ->
  ForallOrdPairs (fun p q => forall v, covers p v -> ~ covers q v) l -> (forall j p, l !! j = Some p -> pheader pheaders (i + Z.of_nat j) = Ok p) ->
  result True (segments_loop fuel (length l) w map fd pheaders i) (fun '(w', map') => loading w0 w' map' /\ map_root map' = map_root map /\ (exists pos', Symbols.at_pos s0 fd c (w_files w') pos') /\
    (forall p, p ∈ l -> p_type p = PT_LOAD -> has_segment w' map' c p) /\ forall u, own u -> (forall p, p ∈ l -> ~ covers p u) -> page_of w' map' u = page_of w map u).
Proof.
  intros Hco. induction l as [|p l IH]; intros w map i pos Hl Hpos Hall Hdis Hh; cbn [length segments_loop].
  { cbn [result]. split; [done|]. split; [done|]. split; [by eexists|]. split; [set_solver|done]. }
  apply Forall_cons in Hall as [Hp Hall]. inversion Hdis as [|? ? Hd1 Hdis']; subst. pose proof (Hh O p eq_refl) as E. rewrite Z.add_0_r in E. rewrite E. cbn [mbind res_bind].
  assert (forall j q, l !! j = Some q -> pheader pheaders (i + 1 + Z.of_nat j) = Ok q) as Hh' by (intros j q Hj; rewrite <- (Hh (S j) q Hj); f_equal; lia).
  destruct (Z.eqb_spec (p_type p) PT_LOAD) as [Ht|Ht]; cbn [negb].
  - eapply result_bind; [by apply (load_segment_ok w0 w map fuel k s0 fd c pos p)|done|]. intros [w1 map1] (Hl1 & Er1 & (pos1 & Hpos1) & Hs1 & Hk1).
    eapply result_mono; [by apply (IH w1 map1 (i + 1) pos1)|done|]. intros [w' map'] (Hl' & Er' & Hpos' & Hs' & Hk'). split; [done|]. split; [by rewrite Er'|]. split; [done|]. split.
    + intros q [->|Hq]%elem_of_cons Hqt; [|by apply Hs']. apply (segment_kept w1 map1); [done|done|done|]. intros u Hu. apply Hk'; [by apply (covers_own p)|]. intros q' Hq'. rewrite Forall_forall in Hd1. by apply Hd1.
    + intros u Hu Hno. rewrite Hk', Hk1; [done|done|apply Hno; set_solver|done|]. intros q Hq. apply Hno. set_solver.
  - eapply result_mono; [by apply (IH w map (i + 1) pos)|done|]. intros [w' map'] (Hl' & Er' & Hpos' & Hs' & Hk'). split; [done|]. split; [done|]. split; [done|]. split.
    + intros q [->|Hq]%elem_of_cons Hqt; [done|by apply Hs'].
     + intros u Hu Hno. apply Hk'; [done|]. intros q Hq. apply Hno. set_solver.
Qed.

(** ** The page with the arguments *)

Lemma kpcalloc_step w0 w map fuel kk : loading w0 w map -> 0 <= kk -> kk + 1 < Z.of_nat fuel -> 4096 * (kk + 1) <= 2 ^ 47 -> page_of w map (4096 * kk) = None ->
  result True (on_map w map (fun s => kpcalloc fuel s 1 (Z.lor PAGE_USER PAGE_WRITE))) (fun '(w1, map1, ker) => loading w0 w1 map1 /\ map_root map1 = map_root map /\
    w_files w1 = w_files w /\ w_mem w1 = w_mem w /\ ker mod 4096 = 0 /\ 0 <= ker <= 4096 * kk /\ page_of w map ker = None /\ pte (w_tabs w1) (map_root map) ker <> 0 /\
    forall u, ~ same_page u ker -> page_of w1 map1 u = page_of w map u).
Proof.
  intros Hl Hkk Hf Hb Hno. pose proof (lo_map _ _ _ Hl) as Hok. unfold on_map.
  assert (forall v, page_of w map v = None <-> pte (w_tabs w) (map_root map) v = 0) as Hnone by (intros v; unfold page_of; destruct (Z.eqb_spec (pte (w_tabs w) (map_root map) v) 0); done).
  pose proof (kpcalloc_ok fuel (map_view w map) (Z.lor PAGE_USER PAGE_WRITE) kk Hok Hkk) as Hr. cbn [pmap map_view] in Hr. rewrite (lo_start _ _ _ Hl) in Hr. specialize (Hr ltac:(lia)).
  rewrite run_one in Hr. cbn [tabs map_view] in Hr. change (pg_root (map_view w map)) with (map_root map) in Hr. rewrite Z.add_0_l in Hr. specialize (Hr (proj1 (Hnone _) Hno) Hf).
  destruct (kpcalloc fuel (map_view w map) 1 _) as [[s ker]|msg| |] eqn:E; cbn [result mbind res_bind] in *; [|done..]. pose proof (kpcalloc_steps _ _ _ _ _ Hok E) as Hs.
  destruct Hr as (_ & _ & r & a & -> & Hr & Hfree & [Har Hal] & Hfr & Hta & Hp). rewrite run_one in Hfree. cbn [tabs map_view] in Hfree. change (pg_root (map_view w map)) with (map_root map) in *. rewrite Z.add_0_l in *.
  rewrite u64_small in * by lia. cbn [tabs map_view] in Hp. destruct (own_entry_ok a (Z.lor PAGE_USER PAGE_WRITE) Hal) as [Hpr Em]. set (e := own_entry a _) in *. assert (own (4096 * r)) as Hown by (apply low_own; lia).
  destruct (after_map w0 w map s (w_files w) Hl Hs) as [Hl1 Er1].
  { intros v Hv. rewrite Hp. destruct (decide _) as [Hsp|]; [|done]. by destruct Hv; apply (own_same _ _ Hsp). }
  { intros v Hv. cbv zeta. rewrite Hp. destruct (decide (same_page v (4096 * r))) as [Hsv|Hsv]; intros Hnz.
    - rewrite Em. split; [done|]. split; [done|]. split; [done|]. intros u Hu. rewrite Hp. destruct (decide (same_page u (4096 * r))) as [[Q1 Q2]|Hsu]; [intros _ _; destruct Hsv; split; congruence|].
      intros Hnu Eu. destruct (lo_page _ _ _ Hl u Hu Hnu) as (_ & Ht & _). rewrite Eu in Ht. done.
    - destruct (lo_page _ _ _ Hl v Hv Hnz) as (Q1 & Q2 & Q3 & Q4). split; [done|]. split; [by apply (psteps_taken _ _ Hs)|]. split; [done|]. intros u Hu. rewrite Hp.
      destruct (decide (same_page u (4096 * r))) as [Hsu|Hsu]; [|by apply Q4]. rewrite Em. intros _ Ea. rewrite <- Ea in Q2. done. }
  split; [done|]. split; [done|]. split; [done|]. split; [done|]. split; [by rewrite Z.mul_comm, Z.mod_mul|]. split; [lia|]. split; [by apply Hnone|]. split.
  - cbn [w_tabs]. rewrite Hp, decide_True by done. by apply present_nonzero.
  - intros u Hu. unfold page_of. cbn [w_tabs w_mem]. rewrite Er1, Hp. by rewrite decide_False.
Qed.

(** The code and the arguments are on the first free page of the new map. *)
Lemma load_arguments_ok w0 w map fuel k kk code args ss : loading w0 w map -> can_open w0 fuel k -> is_argv args ss -> caller_size ss <= PAGE_SIZE -> 32 <= zlen code ->
  0 <= kk -> kk + 1 < Z.of_nat fuel -> 4096 * (kk + 1) <= 2 ^ 47 -> page_of w map (4096 * kk) = None ->
  result True (load_arguments code fuel w map args) (fun '(w', map', ker) => loading w0 w' map' /\ map_root map' = map_root map /\ w_files w' = w_files w /\
    0 <= ker <= 4096 * kk /\ page_of w map ker = None /\
    (exists m m', zlen m = PAGE_SIZE /\ setup_entry_caller code m ker args = Ok m' /\ page_of w' map' ker = Some m') /\
    forall u, own u -> ~ same_page u ker -> page_of w' map' u = page_of w map u).
Proof.
  intros Hl Hco Ha Hsz Hc Hkk Hf Hb Hno. unfold load_arguments. rewrite (one_page args ss Ha Hsz). cbn [mbind res_bind].
  eapply result_bind; [by apply (kpcalloc_step w0 w map fuel kk)|done|]. intros [[w1 map1] ker] (Hl1 & Er1 & Ef1 & Em1 & Hm & Hker & Hnk & Hpk & Hk1).
  assert (own ker) as Hown by (apply low_own; lia). rewrite <- Er1 in Hpk. destruct (lo_page _ _ _ Hl1 ker Hown Hpk) as (_ & _ & Har & _). set (a := page_mask (pte (w_tabs w1) (map_root map1) ker)) in *.
  destruct (paddr_step w0 w1 map1 ker Hl1 Hown Hm Hpk) as (w2 & map2 & -> & Hl2 & Er2 & Ef2 & Em2 & Hp2). cbn [mbind res_bind]. fold a.
  eapply result_bind; [apply (win_open w0 w2 map2 fuel k a Hl2 Hco Har); apply page_mask_idem|done|]. intros [w3 v3] (Ef3 & Em3 & Hv3 & Hk3 & Hclose).
  pose proof (lo_mem _ _ _ Hl a) as Hma. assert (w_mem w3 a = w_mem w a) as Ema by (by rewrite Em3, Em2, Em1).
  destruct (args_found code (w_mem w a) ker args ss (mk_regs 0 0 0 0 0 0 0) 0 Ha Hc) as (m' & _ & Es & _ & _ & _ & _ & _ & _ & Hzm & _); [by rewrite Hma|lia|rewrite Hma; unfold MEM_PAGE_SIZE; lia|].
  change (1 * MEM_PAGE_SIZE) with MEM_PAGE_SIZE. rewrite (at_kernel_page w3 v3 a); [|done|done|by rewrite Ema|rewrite Ema, Es; intros o [= <-]; by rewrite Hzm]. rewrite Ema, Es. cbn [mbind res_bind].
  destruct (Hclose (w_files w3) (put_frame (w_mem w3) a m')) as (w4 & E4 & Hl4 & Ef4 & Em4 & Hp4).
  { intros x. unfold put_frame. destruct (x =? a); [by rewrite Hzm|]. rewrite Em3, Em2, Em1. apply Hl. }
  match goal with |- context [on_kernel ?x _] => change x with (mk_world (w_files w3) (w_fr w3) (w_tabs w3) (w_kernel w3) (put_frame (w_mem w3) a m')) end. rewrite E4. cbn [mbind res_bind result].
  destruct (page_of_after w1 map1 w4 map2 ker a m' (lo_page _ _ _ Hl1) Hown Hpk eq_refl Er2) as [Hd Ho].
  { intros u Hu. rewrite <- Er2. rewrite Hp4 by done. rewrite Er2. by apply Hp2. }
  { intros x. rewrite Em4. unfold put_frame. by rewrite Em3, Em2. }
  split; [done|]. split; [by rewrite Er2|]. split; [by rewrite Ef4, Ef3, Ef2|]. split; [done|]. split; [done|]. split; [by eexists _, _|]. intros u Hu Hs. by rewrite Ho, Hk1.
Qed.

(** ** The whole of it *)

(** The program headers of an image. *)
Definition phdrs (c : list Z) : list elf_program_header :=
  (fun i => as_program_header (slice c (prog_header_table_pos (image_header c) + SIZEOF_PROGRAM_HEADER * i) SIZEOF_PROGRAM_HEADER)) <$> seqZ 0 (prog_hdr_tbl_entry_amount (image_header c)).

(** Two segments that have no page in common. *)
Definition disjoint_segments (p q : elf_program_header) : Prop := p_type p = PT_LOAD -> p_type q = PT_LOAD ->
  p_addr p + 4096 * seg_pages p <= p_addr q \/ p_addr q + 4096 * seg_pages q <= p_addr p.

(** An executable image for this machine. *)
Record elf_image (c : list Z) : Prop := mk_elf_image {
  ei_bytes : byte_list c;
  ei_len : SIZEOF_ELF_HEADER <= zlen c < 2 ^ 62;
  ei_magic : magic_number (image_header c) = elf_magic;
  ei_kind : bits (image_header c) = 2 /\ endianiness (image_header c) = 1 /\ isa (image_header c) = 62 /\ prog_hdr_tbl_entry_size (image_header c) = 56;
  ei_table : in_file c (prog_header_table_pos (image_header c)) (SIZEOF_PROGRAM_HEADER * prog_hdr_tbl_entry_amount (image_header c));
  ei_loadable : Forall loadable (phdrs c);
  ei_disjoint : ForallOrdPairs disjoint_segments (phdrs c) }.

Lemma disjoint_covers p q : loadable p -> loadable q -> disjoint_segments p q -> forall v, covers p v -> ~ covers q v.
Proof.
  intros Hp Hq Hd v [Hpt Hpo] [Hqt Hqo]. destruct (Hp Hpt) as (Pm & Pa & Pb & _), (Hq Hqt) as (Qm & Qa & Qb & _). specialize (Hd Hpt Hqt). pose proof (off_range v (p_addr p)). pose proof (off_range v (p_addr q)).
  assert (same_page (p_addr p + 4096 * off v (p_addr p)) (p_addr q + 4096 * off v (p_addr q))) as E.
  { apply (off_same _ _ 0). assert (forall b, off (b + 4096 * off v b) 0 = off v 0) as Hgen; [|by rewrite !Hgen].
    intros b. unfold off. rewrite (Z.mul_comm 4096), Z.div_add by lia. change (0 / 4096) with 0. rewrite !Z.sub_0_r, Zplus_mod_idemp_r. f_equal. lia. }
  apply same_page_iff in E. rewrite !(Z.mul_comm 4096), !Z.div_add in E by lia. pose proof (Z.div_mod (p_addr p) 4096 ltac:(lia)). pose proof (Z.div_mod (p_addr q) 4096 ltac:(lia)).
  rewrite !Z.mod_small in E by lia. lia.
Qed.

Lemma pairs_covers l : Forall loadable l -> ForallOrdPairs disjoint_segments l -> ForallOrdPairs (fun p q => forall v, covers p v -> ~ covers q v) l.
Proof.
  intros Hl Hd. induction Hd as [|p l Hp Hd IH]; [constructor|]. apply Forall_cons in Hl as [Hp' Hl]. constructor; [|by apply IH].
  rewrite Forall_forall in *. intros q Hq. apply disjoint_covers; auto.
Qed.

Lemma safe_ok l pheaders v : Forall loadable l -> v = USER_END -> forall i, (forall j p, l !! j = Some p -> pheader pheaders (i + Z.of_nat j) = Ok p) -> elf_is_safe_loop (length l) pheaders i v = Ok true.
Proof.
  intros Hl ->. induction Hl as [|p l Hp Hl IH]; intros i Hh; cbn [length elf_is_safe_loop]; [done|]. pose proof (Hh O p eq_refl) as E. rewrite Z.add_0_r in E. rewrite E. cbn [mbind res_bind].
  assert (elf_is_safe_loop (length l) pheaders (i + 1) USER_END = Ok true) as Hn by (apply IH; intros j q Hj; rewrite <- (Hh (S j) q Hj); f_equal; lia).
  destruct (Z.eqb_spec (p_type p) PT_LOAD) as [Ht|Ht]; cbn [negb]; [|done]. destruct (Hp Ht) as (_ & Ha & Hb & _ & _ & Hm). destruct (pages_of_eq _ Hm) as [_ Hn']. fold (seg_pages p) in *. unfold USER_END, MEM_PAGE_SIZE in *.
  assert (0 <= u32 (seg_pages p * 4096) <= seg_pages p * 4096) as Hu by (unfold u32; split; [apply Z.mod_pos_bound; lia|apply Z.mod_le; lia]).
  rewrite u64_small by lia. destruct (Z.ltb_spec 140737488355327 (p_addr p)), (Z.ltb_spec 140737488355327 (p_addr p + u32 (seg_pages p * 4096))); cbn [orb]; lia || done.
Qed.

Lemma image_headers c : elf_image c -> length (phdrs c) = Z.to_nat (prog_hdr_tbl_entry_amount (image_header c)) /\
  forall j p, phdrs c !! j = Some p -> pheader (slice c (prog_header_table_pos (image_header c)) (SIZEOF_PROGRAM_HEADER * prog_hdr_tbl_entry_amount (image_header c))) (0 + Z.of_nat j) = Ok p.
Proof.
  intros Hi. destruct (ei_table _ Hi) as (T1 & T2 & T3). unfold phdrs. split; [by rewrite length_fmap, length_seqZ|]. intros j p Hj. rewrite list_lookup_fmap in Hj. apply fmap_Some in Hj as (i & Hs & ->). apply lookup_seqZ in Hs as [-> Hlt].
  unfold pheader, SIZEOF_PROGRAM_HEADER in *. set (n := prog_hdr_tbl_entry_amount (image_header c)) in *. rewrite (element_ok _ _ _ n) by first [lia|by apply zlen_slice]. cbn [mbind res_bind]. by rewrite slice_slice by lia.
Qed.

Lemma image_field c o k : elf_image c -> 0 <= k -> 0 <= fld (slice c 0 64) o k < 256 ^ k.
Proof. intros Hi Hk. apply fld_range; [apply slice_byte, Hi|done]. Qed.

(** A new map is one the loader can fill. *)
Lemma loading_new w PDPT1 f m map : source_ok (w_fr w) -> tree_ok (w_tabs w) (taken (w_fr w)) (kroot w) -> walk (w_tabs w) (kroot w) [511%nat] = Some PDPT1 -> PDPT1 mod 4096 = 0 ->
  (forall a, zlen (w_mem w a) = MEM_PAGE_SIZE) -> kp_create_map (w_fr w) (w_tabs w) PDPT1 = Ok (f, m, map) ->
  let w1 := mk_world (w_files w) f m (w_kernel w) (w_mem w) in let map1 := mk_pagemap (root_dir map) 0 USER_END (pm_frames_used map) (dir_frames_used map) (map_frames_used map) in
  loading w w1 map1 /\ forall v, own v -> page_of w1 map1 v = None.
Proof.
  intros Hsrc Hk Hp1 Hpa Hm E. pose proof (create_map_ok (w_fr w) (w_tabs w) PDPT1 Hsrc) as Hc. rewrite E in Hc. destruct Hc as (a & -> & -> & Hsrc1 & Hal & Hfr & Htk). intros w1 map1.
  destruct (create_apart (w_fr w) f (w_tabs w) PDPT1 (kroot w) a Hk Hp1 Hpa Hfr Htk) as (Hap & Hpk & Hpo). assert (map_root map1 = a) as Er by (unfold map_root; done). split.
  - split; rewrite ?Er; try done. intros v Hv. rewrite Er || idtac. cbn [w_tabs w1]. by rewrite Hpo.
  - intros v Hv. unfold page_of. rewrite Er. cbn [w_tabs w1]. by rewrite Hpo.
Qed.

(** What the program reads at an address of its own. *)
Definition user_byte w map (v : Z) : option Z := b ← page_of w map v; get b (v mod 4096).

Lemma page_of_same w map u v : same_page u v -> page_of w map u = page_of w map v.
Proof. intros E. unfold page_of. by rewrite (pte_same _ _ u v E). Qed.

Lemma file_page_byte c o fs j : 0 <= o -> 0 <= j -> 0 <= fs -> get (file_page c o fs (j / 4096)) (j mod 4096) = Some (if j <? fs then default 0 (c !! Z.to_nat (o + j)) else 0).
Proof.
  intros Ho Hj Hfs. pose proof (Z.mod_pos_bound j 4096 ltac:(lia)) as Ht. pose proof (Z.div_mod j 4096 ltac:(lia)) as Ed. set (q := j / 4096) in *. set (t := j mod 4096) in *. assert (0 <= q) by (apply Z.div_pos; lia).
  unfold get. destruct (Z.leb_spec 0 t); [|lia]. unfold file_page, padded. set (n := Z.max 0 (Z.min 4096 (fs - 4096 * q))). pose proof (slice_short c (o + 4096 * q) n ltac:(lia)) as Hs.
  assert (zlen (slice c (o + 4096 * q) n) = Z.max 0 (Z.min n (zlen c - (o + 4096 * q)))) as El by (unfold slice, zlen; rewrite length_take, length_drop; lia).
  destruct (decide (t < zlen (slice c (o + 4096 * q) n))) as [Hin|Hin].
  - rewrite lookup_app_l by (unfold zlen in Hin; lia). unfold slice. rewrite lookup_take_lt by lia. rewrite lookup_drop. replace (Z.to_nat (o + 4096 * q) + Z.to_nat t)%nat with (Z.to_nat (o + j)) by lia.
    destruct (Z.ltb_spec j fs); [|lia]. destruct (lookup_lt_is_Some_2 c (Z.to_nat (o + j))) as [x ->]; [unfold zlen in *; lia|done].
  - rewrite lookup_app_r by (unfold zlen in Hin; lia). rewrite lookup_replicate_2 by (unfold MEM_PAGE_SIZE, zlen in *; lia). destruct (Z.ltb_spec j fs); [|done]. rewrite lookup_ge_None_2; [done|]. unfold zlen in *. lia.
Qed.

Lemma segment_bytes w map c p j : loadable p -> p_type p = PT_LOAD -> has_segment w map c p -> 0 <= j < p_msize p ->
  user_byte w map (p_addr p + j) = Some (if j <? p_fsize p then default 0 (c !! Z.to_nat (p_offset p + j)) else 0).
Proof.
  intros Hp Ht Hs Hj. destruct (Hp Ht) as (Hm & Ha & _ & Ho & Hf & Hms). destruct (pages_of_eq _ Hms) as [En _]. fold (seg_pages p) in En. unfold user_byte.
  pose proof (Z.div_mod j 4096 ltac:(lia)). pose proof (Z.mod_pos_bound j 4096 ltac:(lia)). pose proof (Z.div_mod (p_msize p + 4095) 4096 ltac:(lia)). pose proof (Z.mod_pos_bound (p_msize p + 4095) 4096 ltac:(lia)).
  rewrite (page_of_same w map _ (p_addr p + 4096 * (j / 4096))).
  - rewrite Hs by (split; [apply Z.div_pos; lia|lia]). cbn [mbind option_bind]. rewrite <- (file_page_byte c (p_offset p) (p_fsize p) j) by lia. f_equal. by rewrite <- Zplus_mod_idemp_l, Hm.
  - apply same_page_iff. f_equal. rewrite (Z.mul_comm 4096), Z.div_add by lia. pose proof (Z.div_mod (p_addr p) 4096 ltac:(lia)) as Ea. rewrite Hm, Z.add_0_r in Ea.
    replace (p_addr p + j) with (j + p_addr p / 4096 * 4096) by lia. rewrite Z.div_add by lia. lia.
Qed.

(** What the loader has to find: the kernel's own map in order, with a page for the window, and the
    part all maps share. *)
Record kernel_ready w (PDPT1 : Z) (fuel : nat) (k : Z) : Prop := mk_kernel_ready {
  kr_src : source_ok (w_fr w); kr_tree : tree_ok (w_tabs w) (taken (w_fr w)) (kroot w);
  kr_shared : walk (w_tabs w) (kroot w) [511%nat] = Some PDPT1; kr_page : PDPT1 mod 4096 = 0;
  kr_mem : forall a, zlen (w_mem w a) = MEM_PAGE_SIZE; kr_open : can_open w fuel k }.

(** What is in the map of a new program, with the caller's code at [ker]. *)
Record program_in w map (c code : list Z) (args : list (option (list Z))) (ss : list (list Z)) (ker : Z) : Prop := mk_program_in {
  pi_bytes : forall p j, p ∈ phdrs c -> p_type p = PT_LOAD -> 0 <= j < p_msize p ->
    user_byte w map (p_addr p + j) = Some (if j <? p_fsize p then default 0 (c !! Z.to_nat (p_offset p + j)) else 0);
  pi_args : forall r, exists m r', page_of w map ker = Some m /\ take 32 m = take 32 code /\ start_registers r (e_entry (image_header c)) ker args = Ok r' /\
    rax r' = e_entry (image_header c) /\ rdi r' = zlen ss /\ program_args m ker r' = Some <$> ss;
  pi_else : forall v, own v -> page_of w map v <> None -> same_page v ker \/ exists p, p ∈ phdrs c /\ covers p v }.

Lemma elf_load_ok w junk code PDPT1 fuel k kk path args ss c fs fd : (forall n, 0 <= n -> zlen (junk n) = n) -> 32 <= zlen code -> kernel_ready w PDPT1 fuel k ->
  file_open (w_files w) path FS_MODE_READ = Ok (fs, fd) -> is_error fd = false -> open_at fs fd c 0 -> elf_image c -> is_argv args ss -> caller_size ss <= PAGE_SIZE ->
  0 <= kk -> kk + 1 < Z.of_nat fuel -> 4096 * (kk + 1) <= 2 ^ 47 -> (forall p, p ∈ phdrs c -> ~ covers p (4096 * kk)) ->
  result True (elf_load junk code PDPT1 fuel w path args) (fun '(w', o, exec, r) => r = 0 /\ x_entry exec = e_entry (image_header c) /\ x_kernel_entry exec = x_init_code_addr exec /\
    (exists map, o = Some map /\ program_in w' map c code args ss (x_init_code_addr exec)) /\
    same_map (kernel_view w) (kernel_view w') /\ (forall v, pte (w_tabs w') (kroot w) v = pte (w_tabs w) (kroot w) v) /\ forall x, listed (w_files w') x <-> listed fs x /\ x <> fd).
Proof.
  intros Hjunk Hc [K1 K2 K3 K4 K5 K6] Eo Hfd Hop Hi Ha Hsz Hkk Hf Hb Hfree. assert (Symbols.at_pos fs fd c fs 0) as Hp0 by done. destruct (ei_len _ Hi) as [L1 L2]. pose proof (ei_table _ Hi) as Htab. unfold elf_load. rewrite Eo. cbn [mbind res_bind]. rewrite Hfd. cbn [w_files set_files].
  unfold SIZEOF_ELF_HEADER in *. destruct (read_all fs fd c fs 64 0 (junk 64) 64) as (s2 & r2 & -> & Hp2); [by rewrite Z.min_l by lia|split_and!; lia|lia|by apply Hjunk|lia|]. cbn [mbind res_bind].
  change (as_elf_header (slice c 0 64)) with (image_header c). rewrite (ei_magic _ Hi). change (memcmp elf_magic elf_magic 4) with (Ok 0). cbn [mbind res_bind Z.eqb negb].
  destruct (ei_kind _ Hi) as (-> & -> & -> & ->). cbn [Z.eqb Pos.eqb negb orb]. set (n := prog_hdr_tbl_entry_amount (image_header c)) in *. destruct Htab as (T1 & T2 & T3).
  destruct (seek_at fs fd c s2 (Z.min 64 (zlen c)) (prog_header_table_pos (image_header c)) Hp2 ltac:(lia)) as (s3 & r3 & -> & Hp3). cbn [mbind res_bind w_files set_files].
  assert (SIZEOF_PROGRAM_HEADER * n < 2 ^ 63) as Hnb by lia.
  destruct (read_all fs fd c s3 _ _ (junk (SIZEOF_PROGRAM_HEADER * n)) _ Hp3 (conj T1 (conj T2 T3)) Hnb (Hjunk _ T2) eq_refl) as (s4 & r4 & -> & Hp4). cbn [mbind res_bind].
  destruct (image_headers c Hi) as [Hlen Hh]. fold n in Hlen, Hh. set (pheaders := slice c _ _) in *.
  cbn [w_fr w_tabs w_kernel w_mem w_files set_files]. destruct (kp_create_map (w_fr w) (w_tabs w) PDPT1) as [[[f m] map0]|msg| |] eqn:Em; pose proof (create_map_ok (w_fr w) (w_tabs w) PDPT1 K1) as Hcm; rewrite Em in Hcm; cbn [result mbind res_bind] in *; [|done..]. clear Hcm.
  destruct (loading_new w PDPT1 f m map0 K1 K2 K3 K4 K5 Em) as [Hl0 Hn0]. set (map1 := mk_pagemap _ 0 USER_END _ _ _) in *.
  unfold elf_is_safe. rewrite <- Hlen, (safe_ok (phdrs c) pheaders (vend map1) (ei_loadable _ Hi) eq_refl 0 Hh). cbn [mbind res_bind negb].
  set (w1 := mk_world s4 f m (w_kernel w) (w_mem w)). assert (loading w w1 map1) as Hl1 by (by destruct Hl0). assert (forall v, own v -> page_of w1 map1 v = None) as Hn1 by exact Hn0. clear Hl0 Hn0.
  assert (pte (w_tabs w1) (map_root map1) 0 = 0) as Hz. { specialize (Hn1 0 ltac:(by apply low_own)). unfold page_of in Hn1. by destruct (Z.eqb_spec (pte (w_tabs w1) (map_root map1) 0) 0). }
  eapply result_bind; [apply (paddr_any w w1 map1 0 Hl1); [by rewrite Hz|done]|done|]. intros [[w2 map2] phys] (_ & Hl2 & Er2 & Ef2 & Em2 & Hpt2).
  assert (forall v, own v -> page_of w2 map2 v = None) as Hn2 by (intros v Hv; rewrite <- (Hn1 v Hv); unfold page_of; by rewrite Er2, Hpt2, Em2).
  eapply result_bind; [apply (segments_loop_ok w fuel k fs fd c pheaders (phdrs c) K6 w2 map2 0 (Z.min (prog_header_table_pos (image_header c) + SIZEOF_PROGRAM_HEADER * n) (zlen c)) Hl2); [rewrite Ef2; exact Hp4|apply Hi|by apply pairs_covers; apply Hi|exact Hh]|done|].
  intros [w3 map3] (Hl3 & Er3 & (pos3 & Hp3') & Hs3 & Hk3).
  eapply result_bind; [apply (load_arguments_ok w w3 map3 fuel k kk code args ss Hl3 K6 Ha Hsz Hc Hkk Hf Hb); rewrite Hk3 by (done || (apply low_own; lia)); apply Hn2, low_own; lia|done|].
  intros [[w4 map4] ker] (Hl4 & Er4 & Ef4 & Hker & Hnk & (m0 & m' & Hm0 & Es & Hpk) & Hk4). rewrite <- Ef4 in Hp3'. destruct Hp3' as [Ho4 Hls4].
  destruct (law_close (w_files w4) fd c pos3 Ho4) as (s5 & r5 & E5 & Hls5). unfold file_done. rewrite E5. cbn [mbind res_bind result x_entry x_kernel_entry x_init_code_addr].
  split; [done|]. split; [done|]. split; [done|]. split; [|split; [apply Hl4|split; [apply Hl4|intros x; by rewrite Hls5, Hls4]]]. exists map4. split; [done|].
  assert (forall u, page_of (set_files w4 s5) map4 u = page_of w4 map4 u) as Hset by done. pose proof (ei_loadable _ Hi) as Hall. rewrite Forall_forall in Hall.
  assert (forall p u, p ∈ phdrs c -> covers p u -> page_of w3 map3 u <> None /\ own u) as Hcov.
  { intros p u Hp Hcu. pose proof Hcu as [Ht Hoff]. split; [|by apply (covers_own p); [apply Hall|]]. rewrite (page_of_same _ _ u (p_addr p + 4096 * off u (p_addr p))).
    - rewrite (Hs3 p Hp Ht); [done|]. pose proof (off_range u (p_addr p)). lia.
    - apply (off_same _ _ (p_addr p)). rewrite off_ahead; [done|apply off_range]. }
  split.
  - intros p j Hp Ht Hj. apply segment_bytes; [by apply Hall|done| |done]. apply (segment_kept w3 map3); [by apply Hall|done|by apply Hs3|]. intros u Hu. destruct (Hcov p u Hp Hu) as [Hne Hu']. rewrite Hset. apply Hk4; [done|]. intros Hsp. apply Hne. by rewrite (page_of_same _ _ u ker).
  - intros r. destruct (args_found code m0 ker args ss r (e_entry (image_header c)) Ha Hc ltac:(lia) ltac:(lia) ltac:(unfold PAGE_SIZE in *; lia)) as (m1 & r' & Es' & R1 & R2 & R3 & R4 & _ & R5 & _). rewrite Es in Es'. injection Es' as <-. by exists m', r'.
  - intros v Hv. rewrite Hset. destruct (decide (same_page v ker)) as [|Hns]; [by left|]. rewrite Hk4 by done. intros Hne. right.
    destruct (decide (Exists (fun p => covers p v) (phdrs c))) as [He|Hno]; [by apply Exists_exists in He as (p & Hp & Hcv); exists p|]. destruct Hne. rewrite Hk3; [by apply Hn2|done|].
    intros p Hp Hcv. apply Hno. apply Exists_exists. by exists p.
Qed.

(** C6: A program that is loaded is the program of the file.  Every byte of every segment of the new
    map is the byte of the file, or zero behind the bytes the file has for it; the first thread
    finds its arguments and the code that calls the entry; nothing else is mapped that is not the
    kernel's.  The kernel's own map has every entry it had, and the file is closed.  The loader
    gives up only for want of frames. *)
Theorem elf_load_program w junk code PDPT1 fuel k kk path args ss c fs fd : (forall n, 0 <= n -> zlen (junk n) = n) -> 32 <= zlen code -> kernel_ready w PDPT1 fuel k ->
  file_open (w_files w) path FS_MODE_READ = Ok (fs, fd) -> is_error fd = false -> open_at fs fd c 0 -> elf_image c -> is_argv args ss -> caller_size ss <= PAGE_SIZE ->
  0 <= kk -> kk + 1 < Z.of_nat fuel -> 4096 * (kk + 1) <= 2 ^ 47 -> (forall p, p ∈ phdrs c -> ~ covers p (4096 * kk)) ->
  result True (elf_load junk code PDPT1 fuel w path args) (fun '(w', o, exec, r) => r = 0 /\ x_entry exec = e_entry (image_header c) /\ x_kernel_entry exec = x_init_code_addr exec /\
    (exists map, o = Some map /\ program_in w' map c code args ss (x_init_code_addr exec)) /\
    same_map (kernel_view w) (kernel_view w') /\ (forall v, pte (w_tabs w') (kroot w) v = pte (w_tabs w) (kroot w) v) /\ forall x, listed (w_files w') x <-> listed fs x /\ x <> fd).
Proof. apply elf_load_ok. Qed.

(** ** What is not loaded *)

Lemma memcmp_total n : forall a b : list Z, (n <= length a)%nat -> (n <= length b)%nat -> exists v, memcmp a b n = Ok v.
Proof. induction n as [|n IH]; intros [|x a] [|y b]; simpl; intros; try lia; eauto. destruct (x <? y), (y <? x); eauto. apply IH; lia. Qed.

Definition good_header (h : elf_header) : Prop := magic_number h = elf_magic /\ bits h = 2 /\ endianiness h = 1 /\ isa h = 62 /\ prog_hdr_tbl_entry_size h = 56.


(** A segment that does not begin on a page is never loaded: the window begins inside a page then,
    and giving it back panics. *)
Lemma u64_in_page x : u64 x mod 4096 = x mod 4096.
Proof. unfold u64. change (2 ^ 64) with (4096 * 2 ^ 52). by rewrite Z.rem_mul_r, (Z.mul_comm 4096), Z.mod_add, Z.mod_mod by lia. Qed.

Lemma u64_pages x n : x mod 4096 = 0 -> u64 (x + MEM_PAGE_SIZE * n) mod 4096 = 0.
Proof. intros Hx. unfold MEM_PAGE_SIZE. by rewrite u64_in_page, (Z.mul_comm 4096), Z.mod_add. Qed.

Lemma contiguous_aligned fuel : forall (s : pg F) tb index virt start combo amount r, contiguous_loop fuel s tb index virt start combo amount = Ok r -> virt mod 4096 = 0 -> start mod 4096 = 0 -> r mod 4096 = 0.
Proof.
  induction fuel as [|fuel IH]; intros s tb index virt start combo amount r E Hv Hs; cbn [contiguous_loop] in E; [done|]. pose proof (u64_pages virt 1 Hv) as H1'. pose proof (u64_pages virt 512 Hv) as H512. rewrite Z.mul_1_r in H1'.
  apply bind_Ok in E as ([[t|] i] & _ & E).
  - apply bind_Ok in E as (e & _ & E). destruct (negb (e =? 0)); [by eapply IH|]. destruct (_ >=? _); [by simplify_eq|by eapply IH].
  - destruct (_ >=? _); [by simplify_eq|by eapply IH].
Qed.

Lemma find_aligned fuel (s s' : pg F) amount v : mempg_find_contiguous fuel s amount = Ok (s', v) -> vstart (pmap s) mod 4096 = 0 -> v mod 4096 = 0.
Proof.
  unfold mempg_find_contiguous. intros E Hs. destruct (amount =? 0); [by simplify_eq|]. apply bind_Ok in E as (o & _ & E). apply bind_Ok in E as ([s1 tb] & _ & E). apply bind_Ok in E as (st & E1 & [= _ <-]).
  by eapply contiguous_aligned.
Qed.

Lemma elf_unaligned_segment w map fuel fd p : p_addr p mod 4096 <> 0 -> 0 < seg_pages p -> vstart (w_kernel w) mod 4096 = 0 -> forall r, load_segment fuel w map fd p <> Ok r.
Proof.
  intros Ha Hn Hv r E. unfold load_segment in E. fold (seg_pages p) in E. apply bind_Ok in E as ([[w1 map1] ptr] & E1 & E). apply bind_Ok in E1 as ([s1 v1] & E1 & [= <- <- <-]).
  unfold kpvalloc in E1. destruct (Z.eqb_spec (seg_pages p) 0); [lia|]. apply bind_Ok in E1 as (s2 & _ & [= <- <-]). apply bind_Ok in E as ([fs x] & _ & E). destruct (Z.to_nat (seg_pages p)) as [|n0] eqn:En; [lia|].
  cbn [page_loop] in E. apply bind_Ok in E as ([[w2 map2] phys] & E1 & E). apply bind_Ok in E1 as ([s3 a] & E1 & [= <- <- <-]). unfold kppaddrof, _kppaddrof in E1. apply bind_Ok in E1 as ([s4 t] & _ & E1). apply bind_Ok in E1 as (e & _ & [= <- <-]).
  apply bind_Ok in E as ([w3 mapped] & E1 & E). apply bind_Ok in E1 as ([s5 v5] & E1 & [= <- <-]). unfold kpmap in E1. apply bind_Ok in E1 as ([s6 v6] & E2 & E1). apply bind_Ok in E1 as (s7 & _ & [= <- <-]).
  pose proof (find_aligned _ _ _ _ _ E2 Hv) as Hv6. assert (forall y, page_flags y = y mod 4096) as Hpf by exact page_flags_eq.
  assert (page_flags (u64 (page_mask e + page_flags (p_addr p))) = p_addr p mod 4096) as Hfl.
  { rewrite !Hpf, u64_in_page, page_mask_eq. rewrite <- Zplus_mod_idemp_l, Zminus_mod_idemp_r, Z.sub_diag, Z.mod_0_l, Z.add_0_l, Z.mod_mod by lia. done. }
  apply bind_Ok in E as (w8 & _ & E). apply bind_Ok in E as ([w9 rem] & _ & E). apply bind_Ok in E as ([w10 []] & E1 & _). apply bind_Ok in E1 as ([s8 []] & E1 & _). apply bind_Ok in E1 as (s9 & E1 & _). unfold kpunmap, kpfree in E1.
  rewrite Hfl in E1. rewrite Hpf, u64_in_page, <- Zplus_mod_idemp_l, Hv6, Z.add_0_l, Z.mod_mod in E1 by lia. pose proof (Z.mod_pos_bound (p_addr p) 4096). destruct (Z.gtb_spec (p_addr p mod 4096) 0); [done|lia].
Qed.

(** [elf_is_safe] looks at the low 32 bits of the size: a segment of four GiB, or any number of
    times that, passes wherever it begins. *)
Lemma elf_is_safe_wraps pheaders map p : pheader pheaders 0 = Ok p -> p_type p = PT_LOAD -> 0 <= p_addr p <= vend map -> vend map < 2 ^ 64 -> 0 <= p_msize p <= 2 ^ 44 - 4096 -> p_msize p mod 2 ^ 32 = 0 ->
  elf_is_safe pheaders 1 map = Ok true.
Proof.
  intros Ep Ht Ha Hv Hm E. unfold elf_is_safe. change (Z.to_nat 1) with 1%nat. cbn [elf_is_safe_loop]. rewrite Ep. cbn [mbind res_bind]. rewrite Ht. change (PT_LOAD =? PT_LOAD) with true. cbn [negb].
  destruct (pages_of_eq _ Hm) as [-> _]. pose proof (Z.div_mod (p_msize p) (2 ^ 32) ltac:(lia)) as Ed. rewrite E, Z.add_0_r in Ed. set (g := p_msize p / 2 ^ 32) in *.
  assert ((p_msize p + 4095) / 4096 = g * 2 ^ 20) as -> by (symmetry; apply (Z.div_unique_pos _ _ _ 4095); lia).
  assert (u32 (g * 2 ^ 20 * MEM_PAGE_SIZE) = 0) as -> by (unfold u32, MEM_PAGE_SIZE; replace (g * 2 ^ 20 * 4096) with (g * 2 ^ 32) by lia; by rewrite Z.mod_mul).
  rewrite Z.add_0_r, u64_small by lia. destruct (Z.ltb_spec (vend map) (p_addr p)); [lia|done].
Qed.
End Load.

(** ** A program that is loaded *)
Module LoadDemo.
Import RamFile.

(** One segment of six bytes and zeros behind them, two pages at 4 MiB, and a header of another
    type; the second page is not in the file. *)
Definition phdr (type offset addr fsize msize : Z) : list Z :=
  le_bytes 4 type ++ le_bytes 4 5 ++ le_bytes 8 offset ++ le_bytes 8 addr ++ le_bytes 8 addr ++ le_bytes 8 fsize ++ le_bytes 8 msize ++ le_bytes 8 4096.
Definition header : list Z :=
  [127; 69; 76; 70; 2; 1; 1; 0] ++ replicate 8 0 ++ le_bytes 2 2 ++ le_bytes 2 62 ++ le_bytes 4 1 ++ le_bytes 8 4194305 ++ le_bytes 8 64 ++ le_bytes 8 0 ++
  le_bytes 4 0 ++ le_bytes 2 64 ++ le_bytes 2 56 ++ le_bytes 2 2 ++ le_bytes 2 64 ++ le_bytes 2 0 ++ le_bytes 2 0.
Definition image : list Z := header ++ phdr 1 176 4194304 6 5000 ++ phdr 1685382481 0 0 0 0 ++ [72; 49; 192; 15; 5; 195].

(** A file that is no image. *)
Definition script : list Z := bytes "#!/bin/sh" ++ repeat 10 64.

Definition kernel_map : pagemap := mk_pagemap 1048576 18446743523953737728 18446744073709551615 0 0 0.
Definition start (c : list Z) : world := mk_world (mounted c) SpaceDemo.memory SpaceDemo.kernel_tables kernel_map (fun _ => replicate 4096 7).
Definition path : list Z := bytes "/bin/ls" ++ [0].
Definition code : list Z := repeat 144 32.

Lemma program_opens c : c = image \/ c = script -> fs_open (mounted c) path 1 = Ok (opened c, 0).
Proof. intros [-> | ->]; vm_compute; reflexivity. Qed.
Lemma program_open_at c : c = image \/ c = script -> open_at (opened c) 0 c 0.
Proof. intros Hc. apply opened_at, (open_eq c (bytes "bin/ls" ++ [0]) 1); [by apply (Demo.path_ok (bytes "/bin/ls"))|by apply program_opens]. Qed.

Lemma image_phdrs : phdrs image = [mk_program_header 1 5 176 4194304 4194304 6 5000 4096; mk_program_header 1685382481 5 0 0 0 0 0 4096].
Proof. vm_compute. reflexivity. Qed.

Lemma image_ready : elf_image image.
Proof.
  split.
  - apply (bool_decide_eq_true_1 (Forall (fun c => 0 <= c < 256) image)). vm_compute. reflexivity.
  - split; vm_compute; [discriminate|reflexivity].
  - vm_compute. reflexivity.
  - split_and!; vm_compute; reflexivity.
  - split_and!; vm_compute; discriminate.
  - rewrite image_phdrs. constructor; [|constructor; [|constructor]]; intros Ht; [|discriminate Ht]. split_and!; vm_compute; (reflexivity || discriminate).
  - rewrite image_phdrs. constructor; [constructor; [intros _ Ht; discriminate Ht|constructor]|constructor; constructor].
Qed.

Lemma start_ready c : kernel_ready (start c) 1052672 8 0.
Proof.
  split.
  - exact SpaceDemo.memory_ok.
  - exact SpaceDemo.kernel_tree.
  - vm_compute. reflexivity.
  - reflexivity.
  - intros a. vm_compute. reflexivity.
  - split; try (split; [vm_compute; discriminate|vm_compute; reflexivity]); vm_compute; (reflexivity || discriminate).
Qed.

Lemma page_0_free p : p ∈ phdrs image -> ~ covers p (4096 * 0).
Proof. rewrite image_phdrs. intros [-> |[-> |H]%elem_of_cons]%elem_of_cons [Ht Ho]; [vm_compute in Ho; discriminate Ho|discriminate Ht|by apply elem_of_nil in H]. Qed.
End LoadDemo.

#[local] Existing Instances RamFile.ram_ops RamFile.ram_files.

Lemma elf_load_program_witness : exists w' map exec, elf_load (fun n => replicate (Z.to_nat n) 0) LoadDemo.code 1052672 8 (LoadDemo.start LoadDemo.image) LoadDemo.path Exec.demo_args = Ok (w', Some map, exec, 0) /\
  x_entry exec = 4194305 /\ user_byte w' map 4194305 = Some 49 /\ user_byte w' map 4194310 = Some 0 /\ user_byte w' map 4199303 = Some 0 /\ ~ listed (w_files w') 0.
Proof.
  assert (match elf_load (fun n => replicate (Z.to_nat n) 0) LoadDemo.code 1052672 8 (LoadDemo.start LoadDemo.image) LoadDemo.path Exec.demo_args with Ok _ => true | _ => false end = true) as Hok by (vm_compute; reflexivity).
  pose proof (elf_load_program (LoadDemo.start LoadDemo.image) (fun n => replicate (Z.to_nat n) 0) LoadDemo.code 1052672 8 0 0 LoadDemo.path Exec.demo_args Exec.demo_texts LoadDemo.image (RamFile.opened LoadDemo.image) 0
    ltac:(intros n Hn; unfold zlen; rewrite length_replicate; lia) ltac:(vm_compute; discriminate) (LoadDemo.start_ready LoadDemo.image) (LoadDemo.program_opens LoadDemo.image (or_introl eq_refl)) eq_refl (LoadDemo.program_open_at LoadDemo.image (or_introl eq_refl))
    LoadDemo.image_ready Exec.demo_argv ltac:(vm_compute; discriminate) ltac:(lia) ltac:(lia) ltac:(lia) LoadDemo.page_0_free) as Hr.
  destruct (elf_load _ _ _ _ _ _ _) as [[[[w' o] exec] r]|m| |]; [|discriminate Hok..]. cbn [result] in Hr. destruct Hr as (-> & Hx & _ & (map & -> & [Hb _ _]) & _ & _ & Hl).
  exists w', map, exec. split; [reflexivity|]. split; [exact Hx|]. rewrite LoadDemo.image_phdrs in Hb. pose proof (fun j => Hb (mk_program_header 1 5 176 4194304 4194304 6 5000 4096) j ltac:(by left) eq_refl) as Hj. cbn [p_addr p_fsize p_msize p_offset] in Hj.
  split; [apply (Hj 1); lia|]. split; [apply (Hj 6); lia|]. split; [apply (Hj 4999); lia|]. intros Hin. apply Hl in Hin as [_ Hne]. by apply Hne.
Defined.

