(* ===== verification/Proc.v ===== *)
(** * Processes and system calls: the process half of proc/task.c, fs/syscalls_fs.c,
    kernel/syscall.c and the process cleanup of fs/fs.c

    The kernel of one CPU: the process table, the threads (Task.v) and the open files (Vfs.v).  A
    [process_t*] obtained from the table is written through in place.  [segment] and [scratch]
    are the stack buffers of [fs_to_absolute_path] and [snprintf]; [ftype] reads the [type] field
    of a [finfo_t] at an address, which lies in the drivers' state as every buffer does.  Memory
    that is freed or leaked is not tracked. *)
From S2P Require Import Prelude Strings Format Rcp Pool Task Path Vfs.

(** [pagemap_t]: the counters that [task_prinfo] reports. *)
Record pagemap := mk_pagemap { frames_used : Z; dir_frames_used : Z; map_frames_used : Z }.

Record process := mk_process {
  pname : list Z;
  cwd : option (list Z);
  parent : Z;
  pbusy : Z;
  ppagemap : pagemap;
  fiddies : rcparray Z;
  pthreads : rcparray Z;
  ecode : Z }.

Definition set_fiddies (p : process) (f : rcparray Z) : process :=
  mk_process (pname p) (cwd p) (parent p) (pbusy p) (ppagemap p) f (pthreads p) (ecode p).
Definition set_pthreads (p : process) (t : rcparray Z) : process :=
  mk_process (pname p) (cwd p) (parent p) (pbusy p) (ppagemap p) (fiddies p) t (ecode p).
Definition set_pbusy (p : process) (n : Z) : process :=
  mk_process (pname p) (cwd p) (parent p) n (ppagemap p) (fiddies p) (pthreads p) (ecode p).
Definition set_cwd (p : process) (c : list Z) : process :=
  mk_process (pname p) (Some c) (parent p) (pbusy p) (ppagemap p) (fiddies p) (pthreads p) (ecode p).

(** [pcreate_info_t] *)
Record pcreate_info := mk_pinfo { pi_stdin : Z; pi_stdout : Z; pi_stderr : Z; pi_cwd : option (list Z) }.

Definition FS_TYPE_DIR : Z := 2.
Definition PATH_LEN_MAX : Z := 2048 - 1.
Definition CPU_PAGE_SIZE : Z := 4096.

Section Proc.
Context {D : Type}.
Context (ftype : D -> Z -> Z).

(** [cpu_locals] tells whether [task_cpu_locals] is set. *)
Record kernel := mk_kernel {
  procs : rcptable process;
  process_count : Z;
  tasks : tstate;
  kvfs : vfs D;
  cpu_locals : bool }.

Definition set_procs (k : kernel) x := mk_kernel x (process_count k) (tasks k) (kvfs k) (cpu_locals k).
Definition set_tasks (k : kernel) x := mk_kernel (procs k) (process_count k) x (kvfs k) (cpu_locals k).
Definition set_vfs (k : kernel) x := mk_kernel (procs k) (process_count k) (tasks k) x (cpu_locals k).

Definition CURRENT_PID (k : kernel) : Z := current_pid (cpu (tasks k)).

(** [process = rcptable_get(processes, pid)], the work on [*process], [rcptable_unref]; the work
    is not done when there is no such process. *)
Definition on_process {R} (k : kernel) (pid : Z) (missing : R) (f : kernel -> process -> res (kernel * process * R))
  : res (kernel * R) :=
  let '(ps, o) := rcptable_get (procs k) pid in
  match o with
  | None => Ok (set_procs k ps, missing)
  | Some p =>
      '(k, p, r) ← f (set_procs k ps) p;
      Ok (set_procs k (rcptable_unref (rcptable_write (procs k) pid p) pid), r)
  end.

(** ** Working directories *)

(** [finfo] is the address of the local [finfo_t]. *)
Definition cwd_isvalid (v : vfs D) (dir : list Z) (finfo : Z) : res (vfs D * Z) :=
  len ← strlen dir;
  if len >? PATH_LEN_MAX then Ok (v, - rc ENAMETOOLONG)
  else
    '(v, ret) ← fs_finfo v dir finfo;
    if is_error ret then Ok (v, ret)
    else if negb (ftype (drv v) finfo =? FS_TYPE_DIR) then Ok (v, - rc ENOTDIR)
    else Ok (v, 0).

(** [RETURN_IF_ERROR(cwd_isvalid(dir))]: the macro evaluates its argument again to return it. *)
Definition return_if_invalid (v : vfs D) (dir : list Z) (finfo : Z) : res (vfs D * option Z) :=
  '(v, r) ← cwd_isvalid v dir finfo;
  if is_error r then '(v, r) ← cwd_isvalid v dir finfo; Ok (v, Some r) else Ok (v, None).

Definition task_prset_cwd (k : kernel) (pid : Z) (dir : list Z) (finfo : Z) : res (kernel * Z) :=
  n ← strlen dir;
  c ← load dir (n - 1);
  let len := if negb (c =? 47) then n + 1 else n in
  '(v, e) ← return_if_invalid (kvfs k) dir finfo;
  let k := set_vfs k v in
  match e with
  | Some r => Ok (k, r)
  | None =>
      on_process k pid (- rc ENOPS) (fun k p =>
        m ← strcpy (heap_object (len + 1)) dir;
        m ← Prelude.store m (len - 1) 47;
        m ← Prelude.store m len 0;
        Ok (k, set_cwd p m, 0))
  end.

(** The result is the caller's buffer. *)
Definition task_prget_cwd (k : kernel) (pid : Z) (buffer : list Z) (size : Z) : res (kernel * (list Z * Z)) :=
  on_process k pid (buffer, - rc ENOPS) (fun k p =>
    match cwd p with
    | None => Fault
    | Some c =>
        n ← strlen c;
        if n + 1 >? size then Ok (k, p, (buffer, - rc ERANGE))
        else b ← strcpy buffer c; Ok (k, p, (b, 0))
    end).

(** ** Processes *)

(** [image_path] is not used. *)
Definition task_prcreate (k : kernel) (name : list Z) (pmap : pagemap) (pinfo : option pcreate_info) (finfo : Z)
  : res (kernel * Z) :=
  '(v, e) ← match pinfo with
            | Some i => match pi_cwd i with Some c => return_if_invalid (kvfs k) c finfo | None => Ok (kvfs k, None) end
            | None => Ok (kvfs k, None)
            end;
  let k := set_vfs k v in
  match e with
  | Some r => Ok (k, r)
  | None =>
      n ← strlen name;
      nm ← strcpy (heap_object (n + 1)) name;
      let par := if cpu_locals k then CURRENT_PID k else 0 in
      let pid := s32 (counter (procs k)) in
      fc ← match pinfo with
           | None => Ok ([], None)
           | Some i =>
               let '(f, _) := rcparray_add [] (pi_stdin i) in
               let '(f, _) := rcparray_add f (pi_stdout i) in
               let '(f, _) := rcparray_add f (pi_stderr i) in
               match pi_cwd i with
               | None => Ok (f, None)
               | Some c => len ← strlen c; m ← strcpy (heap_object (len + 1)) c; Ok (f, Some m)
               end
           end;
      let '(f, c) := (fc : rcparray Z * option (list Z)) in
      let t := mk_rcptable (table (procs k)) (u64 (counter (procs k) + 1)) in
      Ok (mk_kernel (rcptable_set t pid (mk_process nm c par 0 pmap f [] 0)) (process_count k + 1) (tasks k) (kvfs k) (cpu_locals k),
          pid)
  end.

(** [while ( *input != '/') --input;] *)
Fixpoint name_start (fuel : nat) (input : list Z) (i : Z) : res Z :=
  c ← load input i;
  if c =? 47 then Ok i else match fuel with O => OutOfFuel | S f => name_start f input (i - 1) end.

Definition generate_name (input : list Z) : res (list Z) :=
  n ← strlen input;
  i ← name_start (S (Z.to_nat n)) input n;
  let input := drop (Z.to_nat (i + 1)) input in
  len ← strchrnul input 46;
  ret ← memcpy (heap_object (len + 1)) 0 input 0 len;
  Prelude.store ret len 0.

Definition task_prget_pmap (k : kernel) (pid : Z) : res (kernel * option pagemap) :=
  on_process k pid None (fun k p => Ok (k, p, Some (ppagemap p))).

(** [process_info_t]: used_phys_memory, mapped_memory, dir_phys_usage, parent. *)
Definition task_prinfo (k : kernel) (pid : Z) (info : Z * Z * Z * Z) : res (kernel * (Z * Z * Z * Z * Z)) :=
  on_process k pid (info, - rc ENOPS) (fun k p =>
    let m := ppagemap p in
    Ok (k, p, (u64 ((frames_used m + dir_frames_used m) * CPU_PAGE_SIZE), u64 (map_frames_used m * CPU_PAGE_SIZE),
               u64 (dir_frames_used m * CPU_PAGE_SIZE), parent p, 0))).

Definition task_pruse (k : kernel) (pid : Z) : res (kernel * bool) :=
  on_process k pid false (fun k p => Ok (k, set_pbusy p (pbusy p + 1), true)).

Definition task_prrelease (k : kernel) (pid : Z) : res (kernel * unit) :=
  on_process k pid tt (fun k p => Ok (k, set_pbusy p (pbusy p - 1), tt)).

(** The initial context is in Spawn.v. *)
Definition task_tcreate (k : kernel) (pid map_lock : Z) (kernelmode : bool) : res (kernel * Z) :=
  on_process k pid (-1) (fun k p =>
    '(st, tid) ← tcreate_thread (tasks k) pid map_lock kernelmode;
    Ok (set_tasks k st, set_pthreads p (fst (rcparray_add (pthreads p) tid)), tid)).

(** [rcparray_foreach] with a body that takes the element, works on it and gives it back. *)
Fixpoint foreach_thread (fuel : nat) (a : rcparray Z) (lid : Z) (st : tstate) (f : tstate -> Z -> res tstate)
  : res (rcparray Z * tstate) :=
  if foreach_more a lid then
    match fuel with
    | O => OutOfFuel
    | S n =>
        let '(a, o) := rcparray_get a lid in
        match o with
        | None => Fault
        | Some id => st ← f st id; foreach_thread n (rcparray_unref a lid) (lid + 1) st f
        end
    end
  else Ok (a, st).

Definition task_prstart (k : kernel) (pid : Z) : res (kernel * unit) :=
  on_process k pid tt (fun k p =>
    '(a, st) ← foreach_thread (length (pthreads p)) (pthreads p) 0 (tasks k) task_tstart;
    Ok (set_tasks k st, set_pthreads p a, tt)).

(** [fs_proc_cleanup] of fs/fs.c on the process that dies.  The reference it took on a descriptor
    is given back to the array of threads. *)
Fixpoint cleanup_loop (fuel : nat) (v : vfs D) (p : process) (lid : Z) : res (vfs D * process) :=
  if foreach_more (fiddies p) lid then
    match fuel with
    | O => OutOfFuel
    | S n =>
        let '(f, o) := rcparray_get (fiddies p) lid in
        match o with
        | None => Fault
        | Some fd =>
            '(v, _) ← fd_close v fd;
            cleanup_loop n v (set_pthreads (set_fiddies p f) (rcparray_unref (pthreads p) lid)) (lid + 1)
        end
    end
  else Ok (v, p).

Definition fs_proc_cleanup (v : vfs D) (p : process) : res (vfs D * process) :=
  cleanup_loop (length (fiddies p)) v p 0.

(** ** System calls on files *)

Definition syscall_fopen (k : kernel) (path : list Z) (mode : Z) (segment scratch : list Z) : res (kernel * Z) :=
  on_process k (CURRENT_PID k) (- rc EINTR) (fun k p =>
    _path ← fs_to_absolute_path path (cwd p) segment scratch;
    '(v, fd) ← fs_open (kvfs k) _path mode;
    let k := set_vfs k v in
    if is_error fd then Ok (k, p, fd)
    else let '(f, lfd) := rcparray_add (fiddies p) fd in Ok (k, set_fiddies p f, s32 lfd)).

Definition syscall_opendir (k : kernel) (path segment scratch : list Z) : res (kernel * Z) :=
  on_process k (CURRENT_PID k) (- rc EINTR) (fun k p =>
    _path ← fs_to_absolute_path path (cwd p) segment scratch;
    '(v, fd) ← fs_opendir (kvfs k) _path;
    let k := set_vfs k v in
    if is_error fd then Ok (k, p, fd)
    else let '(f, lfd) := rcparray_add (fiddies p) fd in Ok (k, set_fiddies p f, s32 lfd)).

Definition syscall_finfo (k : kernel) (path : list Z) (finfo : Z) (segment scratch : list Z) : res (kernel * Z) :=
  on_process k (CURRENT_PID k) (- rc EINTR) (fun k p =>
    _path ← fs_to_absolute_path path (cwd p) segment scratch;
    '(v, ret) ← fs_finfo (kvfs k) _path finfo;
    Ok (set_vfs k v, p, ret)).

(** The common body of [syscall_fread], [syscall_fwrite], [syscall_fseek], [syscall_ioctl] and
    [syscall_readdir]. *)
Definition fd_syscall (k : kernel) (lfd : Z) (f : vfs D -> Z -> res (vfs D * Z)) : res (kernel * Z) :=
  on_process k (CURRENT_PID k) (- rc EINTR) (fun k p =>
    let '(a, o) := rcparray_get (fiddies p) lfd in
    match o with
    | None => Ok (k, set_fiddies p a, - rc EBADF)
    | Some _fd =>
        '(v, ret) ← f (kvfs k) _fd;
        Ok (set_vfs k v, set_fiddies p (rcparray_unref a lfd), ret)
    end).

Definition syscall_fread (k : kernel) (lfd buffer len : Z) := fd_syscall k lfd (fun v fd => fd_read v fd buffer len).
Definition syscall_fwrite (k : kernel) (lfd buffer len : Z) := fd_syscall k lfd (fun v fd => fd_write v fd buffer len).
Definition syscall_fseek (k : kernel) (lfd offset mode : Z) := fd_syscall k lfd (fun v fd => fd_seek v fd offset mode).
Definition syscall_ioctl (k : kernel) (lfd code mem : Z) := fd_syscall k lfd (fun v fd => fd_ioctl v fd code mem).
Definition syscall_readdir (k : kernel) (lfd dentry : Z) := fd_syscall k lfd (fun v fd => fd_readdir v fd dentry).

(** The descriptor leaves the process under [fiddie_lock], then it is closed. *)
Definition syscall_fclose (k : kernel) (lfd : Z) : res (kernel * Z) :=
  on_process k (CURRENT_PID k) (- rc EINTR) (fun k p =>
    let '(a, o) := rcparray_get (fiddies p) lfd in
    match o with
    | None => Ok (k, set_fiddies p a, - rc EBADF)
    | Some _fd =>
        let p := set_fiddies p (fst (rcparray_remove (rcparray_unref a lfd) lfd)) in
        '(v, ret) ← fd_close (kvfs k) _fd;
        Ok (set_vfs k v, p, ret)
    end).

Definition syscall_getcwd (k : kernel) (buffer : list Z) (len : Z) := task_prget_cwd k (CURRENT_PID k) buffer len.
Definition syscall_setcwd (k : kernel) (buffer : list Z) (finfo : Z) := task_prset_cwd k (CURRENT_PID k) buffer finfo.

(** ** Dispatch, kernel/syscall.c: [syscalls] holds the functions, applied to their arguments *)
Definition syscall_wrapper (syscalls : list (option (kernel -> res (kernel * Z)))) (k : kernel) (id : Z) : res (kernel * Z) :=
  if id >=? zlen syscalls then Ok (k, - rc ENOSYS)
  else
    func ← load syscalls id;
    match func with
    | None => Ok (k, - rc ENOSYS)
    | Some func =>
        '(st, _) ← task_tuse (tasks k) (current_tid (cpu (tasks k)));
        '(k, ret) ← func (set_tasks k st);
        st ← task_trelease (tasks k) (current_tid (cpu (tasks k)));
        Ok (set_tasks k st, ret)
    end.
End Proc.

Arguments kernel D : clear implicits.

(** ** The process table under a held reference *)
Section Held.
Context {A : Type}.
Implicit Types (t : rcptable A).

Lemma seg_find_insert (s : list (option (tcell A))) id c' : forall k i c, seg_find s id k = Some (i, c) ->
  seg_find (<[(i - k)%nat := Some (mk_tcell id c')]> s) id k = Some (i, c').
Proof.
  induction s as [|o s IH]; intros k i c Hf; [done|]. pose proof (seg_find_Some _ _ _ _ _ Hf) as [Hle _].
  destruct o as [d|]; cbn [seg_find] in Hf.
  - destruct (Z.eqb_spec (tid d) id) as [He|Hne].
    + injection Hf as <- <-. rewrite Nat.sub_diag. cbn [insert list_insert seg_find tid tc]. by rewrite Z.eqb_refl.
    + pose proof (seg_find_Some _ _ _ _ _ Hf) as [Hle' _]. replace (i - k)%nat with (S (i - S k)) by lia.
      cbn [insert list_insert seg_find]. destruct (Z.eqb_spec (tid d) id); [done|]. by apply (IH (S k) i c).
  - pose proof (seg_find_Some _ _ _ _ _ Hf) as [Hle' _]. replace (i - k)%nat with (S (i - S k)) by lia.
    cbn [insert list_insert seg_find]. by apply (IH (S k) i c).
Qed.

(** Replace the cell in slot [i] of the segment of [id]. *)
Definition tput t (id : Z) (i : nat) (c : cell A) : rcptable A :=
  set_seg t (rcptable_hash t id) (<[i := Some (mk_tcell id c)]> (seg t (rcptable_hash t id))).

Definition tfind t (id : Z) : option (nat * cell A) := seg_find (seg t (rcptable_hash t id)) id 0.

Lemma tput_hash t id i c j : rcptable_hash (tput t id i c) j = rcptable_hash t j.
Proof. apply hash_set_seg. Qed.

Lemma tfind_put t id i c c' : table_ok t -> tfind t id = Some (i, c) -> tfind (tput t id i c') id = Some (i, c').
Proof.
  intros Ht Hf. unfold tfind. rewrite tput_hash. unfold tput. rewrite seg_set_seg by (by apply hash_range).
  destruct (decide _); [|done]. replace i with (i - 0)%nat at 1 by lia. by apply (seg_find_insert _ id c' 0 i c).
Qed.

Lemma tput_put t id i c c' : table_ok t -> tput (tput t id i c) id i c' = tput t id i c'.
Proof.
  intros Ht. unfold tput at 1. rewrite tput_hash. unfold tput at 1 2. rewrite seg_set_seg by (by apply hash_range).
  destruct (decide _); [|done]. unfold set_seg. simpl. by rewrite !list_insert_insert_eq.
Qed.

Lemma tput_same t id i c : table_ok t -> tfind t id = Some (i, c) -> tput t id i c = t.
Proof.
  intros Ht Hf. unfold tput. apply seg_find_Some in Hf as [_ Hf]. rewrite Nat.sub_0_r in Hf.
  rewrite list_insert_id by done. pose proof (hash_range t id Ht) as Hh. unfold seg, set_seg.
  destruct (lookup_lt_is_Some_2 _ _ Hh) as [x Hx]. rewrite Hx. simpl. rewrite list_insert_id by done. by destruct t.
Qed.

Lemma get_put t id i c : 0 <= id < 2 ^ 64 -> tfind t id = Some (i, c) -> present c = true ->
  rcptable_get t id = (tput t id i (set_refs c (refs c + 1)), Some (value c)).
Proof. intros Hi Hf Hp. unfold rcptable_get. rewrite u64_small by done. unfold tfind in Hf. by rewrite Hf, Hp. Qed.

Lemma write_put t id i c v : 0 <= id < 2 ^ 64 -> tfind t id = Some (i, c) ->
  rcptable_write t id v = tput t id i (set_value c v).
Proof. intros Hi Hf. unfold rcptable_write. rewrite u64_small by done. unfold tfind in Hf. by rewrite Hf. Qed.

Lemma unref_put t id i c : 0 <= id < 2 ^ 64 -> tfind t id = Some (i, c) -> forall c', drop_ref c = Some c' ->
  rcptable_unref t id = tput t id i c'.
Proof.
  intros Hi Hf c' Hr. unfold rcptable_unref. rewrite u64_small by done. unfold tfind in Hf. by rewrite Hf, Hr.
Qed.

(** Taking a reference, writing through the pointer and giving it back is the write. *)
Lemma held_write t id c : table_ok t -> 0 <= id < 2 ^ 64 -> cell_at t id = Some c -> present c = true -> counted c ->
  exists t1, rcptable_get t id = (t1, Some (value c)) /\
    forall v, rcptable_unref (rcptable_write t1 id v) id = rcptable_write t id v.
Proof.
  intros Ht Hi Hc Hp Hr. simpl in Hc. fold (tfind t id) in Hc. destruct (tfind t id) as [[i c']|] eqn:Hf; simplify_eq/=.
  rewrite (get_put t id i c) by done. eexists. split; [done|]. intros v.
  assert (table_ok (tput t id i (set_refs c (refs c + 1)))) as Ht1 by (apply (table_update t id i c (Some _) Ht Hf)).
  rewrite (write_put t id i c v Hi Hf).
  rewrite (write_put _ id i (set_refs c (refs c + 1)) v Hi (tfind_put t id i c _ Ht Hf)), tput_put by done.
  rewrite (unref_put _ id i (set_value (set_refs c (refs c + 1)) v) Hi (tfind_put t id i c _ Ht Hf) _ (drop_value c v Hr)).
  by rewrite tput_put.
Qed.

Lemma write_back t id c : table_ok t -> 0 <= id < 2 ^ 64 -> cell_at t id = Some c -> rcptable_write t id (value c) = t.
Proof.
  intros Ht Hi Hc. simpl in Hc. fold (tfind t id) in Hc. destruct (tfind t id) as [[i c']|] eqn:Hf; simplify_eq/=.
  rewrite (write_put t id i c (value c) Hi Hf).
  assert (set_value c (value c) = c) as -> by (by destruct c). by apply tput_same.
Qed.

Lemma write_update t id c v : table_ok t -> 0 <= id < 2 ^ 64 -> cell_at t id = Some c ->
  table_ok (rcptable_write t id v) /\ cell_update t id (Some (set_value c v)) (rcptable_write t id v).
Proof.
  intros Ht Hi Hc. simpl in Hc. fold (tfind t id) in Hc. destruct (tfind t id) as [[i c']|] eqn:Hf; simplify_eq/=.
  rewrite (write_put t id i c v Hi Hf). by apply (table_update t id i c (Some (set_value c v))).
Qed.
End Held.

(** ** One process at a time *)
Section ProcLaws.
Context {D : Type}.
Context (ftype : D -> Z -> Z).
Implicit Types (k : kernel D) (p : process).

(** The process [pid] is alive: listed, and with the table's own reference. *)
Definition alive k (pid : Z) (c : cell process) : Prop :=
  table_ok (procs k) /\ 0 <= pid < 2 ^ 64 /\ cell_at (procs k) pid = Some c /\ present c = true /\ counted c.

Definition gone k (pid : Z) : Prop :=
  table_ok (procs k) /\ 0 <= pid < 2 ^ 64 /\ forall c, cell_at (procs k) pid = Some c -> present c = false.

Lemma on_process_gone {R} k pid (missing : R) f : gone k pid -> on_process k pid missing f = Ok (k, missing).
Proof.
  intros (Ht & Hi & Hc). unfold on_process. pose proof (law_get_miss (procs k) pid Ht Hi Hc) as Hg. simpl in Hg. rewrite Hg. by destruct k.
Qed.

(** The work on a process, when it leaves the process table alone: [g] is its outcome, whatever
    the table holds meanwhile. *)
Lemma on_process_alive {R} k pid (missing : R) f c (g : res (kernel D * process * R)) : alive k pid c ->
  (forall t, f (set_procs k t) (value c) = ('(k', p', r) ← g; Ok (set_procs k' t, p', r))) ->
  on_process k pid missing f = ('(k', p', r) ← g; Ok (set_procs k' (rcptable_write (procs k) pid p'), r)).
Proof.
  intros (Ht & Hi & Hc & Hp & Hr) Hf. destruct (held_write (procs k) pid c Ht Hi Hc Hp Hr) as (t1 & Hg & Hw).
  unfold on_process. rewrite Hg, Hf. destruct g as [[[k' p'] r]| | |]; try done. cbn [mbind res_bind procs set_procs]. by rewrite Hw.
Qed.

(** What such work changes: the process and nothing else in the table. *)
Definition put_process k (pid : Z) (p : process) : kernel D := set_procs k (rcptable_write (procs k) pid p).

Lemma put_process_back k pid c : alive k pid c -> put_process k pid (value c) = k.
Proof. intros (Ht & Hi & Hc & _). unfold put_process. rewrite write_back by done. by destruct k. Qed.

Lemma put_process_alive k pid c p : alive k pid c ->
  alive (put_process k pid p) pid (set_value c p) /\
  forall j, 0 <= j < 2 ^ 64 -> j <> pid -> cell_at (procs (put_process k pid p)) j = cell_at (procs k) j.
Proof.
  intros (Ht & Hi & Hc & Hp & Hr). destruct (write_update (procs k) pid c p Ht Hi Hc) as [Ht' [Hc' Ho]]. by split_and!.
Qed.

(** ** System calls on descriptors *)

(** The caller of a system call, between system calls. *)
Definition caller k (c : cell process) : Prop :=
  alive k (CURRENT_PID k) c /\ Vfs.quiet (fiddies (value c)) /\ small (fiddies (value c)).

Lemma set_fiddies_same p : set_fiddies p (fiddies p) = p.
Proof. by destruct p. Qed.

Lemma fd_syscall_hit k lfd f c cf : caller k c -> arr_slot (fiddies (value c)) lfd = Some cf ->
  fd_syscall k lfd f = ('(v, ret) ← f (kvfs k) (value cf); Ok (set_vfs k v, ret)).
Proof.
  intros (Ha & Hq & Hs) Hl. unfold fd_syscall. destruct (Hq lfd cf Hl) as [Hp Hr].
  rewrite (on_process_alive k (CURRENT_PID k) _ _ c ('(v, ret) ← f (kvfs k) (value cf); Ok (set_vfs k v, value c, ret)) Ha).
  - destruct (f (kvfs k) (value cf)) as [[v ret]| | |]; try done. cbn [mbind res_bind]. destruct Ha as (Ht & Hi & Hc & _).
    rewrite write_back by done. by destruct k.
  - intros t. rewrite (get_hit _ _ cf) by done. rewrite unref_held by (done || (unfold counted; lia)). rewrite set_fiddies_same.
    change (kvfs (set_procs k t)) with (kvfs k). by destruct (f (kvfs k) (value cf)) as [[v ret]| | |].
Qed.

Lemma fd_syscall_miss k lfd f c : caller k c -> - 2 ^ 31 <= lfd < 2 ^ 31 -> arr_slot (fiddies (value c)) lfd = None ->
  fd_syscall k lfd f = Ok (k, - rc EBADF).
Proof.
  intros (Ha & Hq & Hs) Hi Hl. unfold fd_syscall.
  destruct (get_cases (fiddies (value c)) lfd Hq Hs Hi) as [(? & ? & _)|(_ & Eg)]; [congruence|].
  rewrite (on_process_alive k (CURRENT_PID k) _ _ c (Ok (k, value c, - rc EBADF)) Ha).
  - cbn [mbind res_bind]. destruct Ha as (Ht & Hpid & Hc & _). rewrite write_back by done. by destruct k.
  - intros t. by rewrite Eg, set_fiddies_same.
Qed.

(** A system call on an open descriptor of the calling process is the kernel's operation on
    the file behind it and changes nothing in the process table; on any other number it is
    [-EBADF], and for a process that is gone [-EINTR], with nothing changed. *)
Theorem syscall_fd_dispatch k (c : cell process) (lfd a b : Z) :
  - 2 ^ 31 <= lfd < 2 ^ 31 ->
  (gone k (CURRENT_PID k) ->
     syscall_fread k lfd a b = Ok (k, - rc EINTR) /\ syscall_fwrite k lfd a b = Ok (k, - rc EINTR) /\
     syscall_fseek k lfd a b = Ok (k, - rc EINTR) /\ syscall_ioctl k lfd a b = Ok (k, - rc EINTR) /\
     syscall_readdir k lfd a = Ok (k, - rc EINTR)) /\
  (caller k c ->
     match arr_slot (fiddies (value c)) lfd with
     | None =>
         syscall_fread k lfd a b = Ok (k, - rc EBADF) /\ syscall_fwrite k lfd a b = Ok (k, - rc EBADF) /\
         syscall_fseek k lfd a b = Ok (k, - rc EBADF) /\ syscall_ioctl k lfd a b = Ok (k, - rc EBADF) /\
         syscall_readdir k lfd a = Ok (k, - rc EBADF)
     | Some cf =>
         let back (r : res (vfs D * Z)) := '(v, ret) ← r; Ok (set_vfs k v, ret) in
         syscall_fread k lfd a b = back (fd_read (kvfs k) (value cf) a b) /\
         syscall_fwrite k lfd a b = back (fd_write (kvfs k) (value cf) a b) /\
         syscall_fseek k lfd a b = back (fd_seek (kvfs k) (value cf) a b) /\
         syscall_ioctl k lfd a b = back (fd_ioctl (kvfs k) (value cf) a b) /\
         syscall_readdir k lfd a = back (fd_readdir (kvfs k) (value cf) a)
     end).
Proof.
  intros Hi. split; [intros Hg; split_and!; by apply on_process_gone|]. intros Hc.
  destruct (arr_slot (fiddies (value c)) lfd) as [cf|] eqn:E.
  - unfold syscall_fread, syscall_fwrite, syscall_fseek, syscall_ioctl, syscall_readdir.
    split_and!; by rewrite (fd_syscall_hit k lfd _ c cf).
  - split_and!; by apply (fd_syscall_miss k lfd _ c).
Qed.

(** ** Opening and closing *)

Lemma syscall_fopen_hit k path mode segment scratch c _path : caller k c ->
  fs_to_absolute_path path (cwd (value c)) segment scratch = Ok _path ->
  syscall_fopen k path mode segment scratch
  = ('(v, fd) ← fs_open (kvfs k) _path mode;
     if is_error fd then Ok (set_vfs k v, fd)
     else let '(f, lfd) := rcparray_add (fiddies (value c)) fd in
       Ok (set_vfs (put_process k (CURRENT_PID k) (set_fiddies (value c) f)) v, s32 lfd)).
Proof.
  intros (Ha & Hq & Hs) Hp. unfold syscall_fopen.
  rewrite (on_process_alive k (CURRENT_PID k) _ _ c
    ('(v, fd) ← fs_open (kvfs k) _path mode;
     if is_error fd then Ok (set_vfs k v, value c, fd)
     else let '(f, lfd) := rcparray_add (fiddies (value c)) fd in Ok (set_vfs k v, set_fiddies (value c) f, s32 lfd)) Ha).
  - destruct (fs_open (kvfs k) _path mode) as [[v fd]| | |]; try done. cbn [mbind res_bind].
    destruct (is_error fd); cbn [mbind res_bind].
    + destruct Ha as (Ht & Hi & Hc & _). rewrite write_back by done. by destruct k.
    + by destruct (rcparray_add (fiddies (value c)) fd).
  - intros t. rewrite Hp. cbn [mbind res_bind]. change (kvfs (set_procs k t)) with (kvfs k).
    destruct (fs_open (kvfs k) _path mode) as [[v fd]| | |]; try done. cbn [mbind res_bind].
    destruct (is_error fd); [done|]. by destruct (rcparray_add (fiddies (value c)) fd).
Qed.

Lemma syscall_fclose_hit k lfd c cf : caller k c -> arr_slot (fiddies (value c)) lfd = Some cf ->
  syscall_fclose k lfd
  = ('(v, ret) ← fd_close (kvfs k) (value cf);
     Ok (set_vfs (put_process k (CURRENT_PID k) (set_fiddies (value c) (arr_set (fiddies (value c)) lfd None))) v, ret)).
Proof.
  intros (Ha & Hq & Hs) Hl. unfold syscall_fclose. destruct (Hq lfd cf Hl) as [Hp Hr].
  rewrite (on_process_alive k (CURRENT_PID k) _ _ c
    ('(v, ret) ← fd_close (kvfs k) (value cf);
     Ok (set_vfs k v, set_fiddies (value c) (arr_set (fiddies (value c)) lfd None), ret)) Ha).
  - by destruct (fd_close (kvfs k) (value cf)) as [[v ret]| | |].
  - intros t. rewrite (get_hit _ _ cf) by done. rewrite remove_held by done.
    change (kvfs (set_procs k t)) with (kvfs k). by destruct (fd_close (kvfs k) (value cf)) as [[v ret]| | |].
Qed.

(** C37: [fopen] gives the calling process its lowest free descriptor; [fclose] of it closes the
    file and leaves the process, every other process and the open files of the kernel as they
    were before the [fopen]. *)
Theorem syscall_open_close k (path segment scratch t r : list Z) (mode lfd ret : Z) (c : cell process) k1 k2 :
  caller k c -> wf (kvfs k) -> smalls (kvfs k) ->
  fs_to_absolute_path path (cwd (value c)) segment scratch = Ok (t ++ 0 :: r) -> nonul t ->
  syscall_fopen k path mode segment scratch = Ok (k1, lfd) -> 0 <= lfd ->
  zlen (fiddies (value c)) < 2 ^ 31 - 2 -> smalls (kvfs k1) ->
  syscall_fclose k1 lfd = Ok (k2, ret) ->
  arr_slot (fiddies (value c)) lfd = None /\ (forall j, 0 <= j < lfd -> arr_slot (fiddies (value c)) j <> None) /\
  (exists f, cell_at (procs k2) (CURRENT_PID k) = Some (set_value c (set_fiddies (value c) f)) /\
     forall j, arr_slot f j = arr_slot (fiddies (value c)) j) /\
  (forall j, 0 <= j < 2 ^ 64 -> j <> CURRENT_PID k -> cell_at (procs k2) j = cell_at (procs k) j) /\
  tasks k2 = tasks k /\ wf (kvfs k2) /\ mounts (kvfs k2) = mounts (kvfs k) /\
  (forall j, arr_slot (fds (kvfs k2)) j = arr_slot (fds (kvfs k)) j) /\
  (forall j, arr_slot (handles (kvfs k2)) j = arr_slot (handles (kvfs k)) j).
Proof.
  intros Hcall Hw Hs Hp Ht Hopen Hlfd Hroom Hs1 Hclose. pose proof Hcall as (Ha & Hq & Hsm).
  rewrite (syscall_fopen_hit k path mode segment scratch c _ Hcall Hp) in Hopen.
  apply bind_Ok in Hopen as ([v1 fd] & Hfo & Hopen). destruct (is_error fd) eqn:He.
  { injection Hopen as <- <-. unfold is_error in He. apply Z.ltb_lt in He. lia. }
  pose proof (rcparray_add_spec (fiddies (value c)) fd) as Hspec.
  destruct (add_slots (fiddies (value c)) fd Hsm) as (id & E & Hid & Hs32 & Hn & Hnew & Hoth).
  rewrite E in Hopen, Hspec. rewrite Hs32 in Hopen. injection Hopen as <- <-. destruct Hspec as (_ & _ & Hlow & _ & Hlen).
  set (f1 := fst (rcparray_add (fiddies (value c)) fd)) in *. set (p1 := set_fiddies (value c) f1) in *.
  destruct (put_process_alive k (CURRENT_PID k) c p1 Ha) as [Ha1 Hother].
  assert (caller (set_vfs (put_process k (CURRENT_PID k) p1) v1) (set_value c p1)) as Hcall1.
  { split_and!; [exact Ha1|by apply quiet_add|]. unfold small. simpl. lia. }
  rewrite (syscall_fclose_hit _ id _ (mk_cell 1 true fd) Hcall1) in Hclose by done.
  apply bind_Ok in Hclose as ([v2 ret2] & Hfc & Hclose). injection Hclose as <- <-.
  assert (0 <= fd) as Hfd by (unfold is_error in He; apply Z.ltb_ge in He; lia).
  destruct (fs_open_close_ok (kvfs k) t r mode fd v1 v2 ret2 Hw Hs Ht Hfo Hfd Hs1 Hfc) as (Hfds & Hhs & Hm & _ & Hw2 & _).
  set (f2 := arr_set f1 id None). change (CURRENT_PID (set_vfs _ _)) with (CURRENT_PID k).
  destruct (put_process_alive (set_vfs (put_process k (CURRENT_PID k) p1) v1) (CURRENT_PID k) (set_value c p1)
    (set_fiddies p1 f2) Ha1) as [(_ & _ & Hc2 & _) Hother2].
  split_and!; try done.
  - intros j Hj. destruct (Hlow j Hj) as [x ->]. done.
  - exists f2. split; [exact Hc2|]. intros j. unfold f2. destruct (decide (j = id)) as [->|].
    + rewrite arr_slot_set by (by apply arr_slot_range in Hnew). done.
    + rewrite arr_slot_set_ne by (done || lia). by apply Hoth.
  - intros j Hj Hne. etransitivity; [apply Hother2|apply Hother]; done.
Qed.

(** ** Working directories *)

Definition slash_end (d : list Z) : list Z := if decide (last d = Some 47) then d else d ++ [47].

Lemma zlen_zeros n : 0 <= n -> zlen (replicate (Z.to_nat n) 0) = n.
Proof. intros. unfold zlen. rewrite length_replicate. lia. Qed.

(** The copy [task_prset_cwd] makes. *)
Lemma cwd_copy (d r : list Z) : nonul d -> d <> [] ->
  let len := if negb (default 0 (last d) =? 47) then zlen d + 1 else zlen d in
  exists x, (m ← strcpy (heap_object (len + 1)) (d ++ 0 :: r); m ← Prelude.store m (len - 1) 47; Prelude.store m len 0)
    = Ok (slash_end d ++ 0 :: x).
Proof.
  intros Hd Hne len. destruct (exists_last Hne) as (d' & x & ->). unfold len, slash_end. rewrite last_snoc. cbn [from_option id]. unfold id.
  rewrite zlen_app. change (zlen [x]) with 1. pose proof (zlen_nonneg d').
  destruct (Z.eqb_spec x 47) as [->|Hx]; cbn [negb];
    [pose proof (length_heap_object (zlen d' + 1 + 1) ltac:(lia)) as Hh|pose proof (length_heap_object (zlen d' + 1 + 1 + 1) ltac:(lia)) as Hh];
    rewrite strcpy_ok by (done || rewrite length_app; unfold zlen in *; cbn [length]; lia); cbn [mbind res_bind].
  - set (tl := drop _ (heap_object _)). destruct (decide (Some 47 = Some 47)); [|done].
    assert (Prelude.store ((d' ++ [47]) ++ 0 :: tl) (zlen d' + 1 - 1) 47 = Ok ((d' ++ [47]) ++ 0 :: tl)) as ->
      by (rewrite <- !app_assoc; apply store_app_at; lia). cbn [mbind res_bind].
    exists tl. apply store_app_at. rewrite zlen_app. done.
  - destruct (decide (Some x = Some 47)); [congruence|].
    set (h := heap_object (zlen d' + 1 + 1 + 1)) in *. set (off := S (length (d' ++ [x]))).
    assert (off < length h)%nat as Hn by (unfold off; rewrite length_app; unfold zlen in *; simpl; lia).
    destruct (drop off h) as [|y tl] eqn:Etl; [apply (f_equal length) in Etl; rewrite length_drop in Etl; simpl in Etl; lia|].
    assert (Prelude.store ((d' ++ [x]) ++ 0 :: y :: tl) (zlen d' + 1 + 1 - 1) 47 = Ok ((d' ++ [x]) ++ 47 :: y :: tl)) as ->
      by (apply store_app_at; rewrite zlen_app; change (zlen [x]) with 1; lia). cbn [mbind res_bind].
    exists tl. replace ((d' ++ [x]) ++ 47 :: y :: tl) with (((d' ++ [x]) ++ [47]) ++ y :: tl) by (by rewrite <- !app_assoc).
    apply store_app_at. rewrite !zlen_app. change (zlen [x]) with 1. change (zlen [47]) with 1. lia.
Qed.

Lemma slash_end_nonul d : nonul d -> nonul (slash_end d).
Proof. intros. unfold slash_end. destruct (decide _); [done|]. apply nonul_app. split; [done|by repeat constructor]. Qed.

Lemma last_load (d r : list Z) : d <> [] -> load (d ++ 0 :: r) (zlen d - 1) = Ok (default 0 (last d)).
Proof.
  intros Hne. destruct (exists_last Hne) as (d' & x & ->). rewrite last_snoc. apply last_byte.
Qed.

(** A directory that passes the check becomes the process's working directory, kept with a
    slash at its end; [task_prget_cwd] then copies exactly that text into a buffer with room for
    it and its NUL, and is [-ERANGE], the buffer untouched, when it has not.  Nothing else of the
    process table changes. *)
Theorem prset_prget_cwd k (pid finfo size : Z) (c : cell process) (d r buffer : list Z) (v : vfs D) :
  alive k pid c -> nonul d -> d <> [] -> size <= zlen buffer ->
  return_if_invalid ftype (kvfs k) (d ++ 0 :: r) finfo = Ok (v, None) ->
  exists k1 m x, task_prset_cwd ftype k pid (d ++ 0 :: r) finfo = Ok (k1, 0) /\ m = slash_end d ++ 0 :: x /\
    k1 = set_vfs (put_process k pid (set_cwd (value c) m)) v /\
    task_prget_cwd k1 pid buffer size
    = Ok (k1, if zlen (slash_end d) + 1 >? size then (buffer, - rc ERANGE)
              else (slash_end d ++ 0 :: drop (S (length (slash_end d))) buffer, 0)).
Proof.
  intros Ha Hd Hne Hsz Hv. destruct (cwd_copy d r Hd Hne) as (x & Hm). set (m := slash_end d ++ 0 :: x) in *.
  exists (set_vfs (put_process k pid (set_cwd (value c) m)) v), m, x. split_and!; [|done|done|].
  - unfold task_prset_cwd. rewrite strlen_cstr by done. cbn [mbind res_bind]. rewrite last_load by done. cbn [mbind res_bind].
    rewrite Hv. cbn [mbind res_bind].
    rewrite (on_process_alive (set_vfs k v) pid _ _ c (Ok (set_vfs k v, set_cwd (value c) m, 0))); [done|exact Ha|].
    intros t. apply bind_Ok in Hm as (m1 & -> & Hm). cbn [mbind res_bind]. apply bind_Ok in Hm as (m2 & -> & Hm). cbn [mbind res_bind].
    rewrite Hm. done.
  - destruct (put_process_alive k pid c (set_cwd (value c) m) Ha) as [Ha1 _]. unfold task_prget_cwd.
    set (k1 := set_vfs _ v). set (out := if zlen (slash_end d) + 1 >? size then _ else _).
    rewrite (on_process_alive k1 pid _ _ (set_value c (set_cwd (value c) m)) (Ok (k1, set_cwd (value c) m, out))); [|exact Ha1|].
    + cbn [mbind res_bind]. destruct Ha1 as (Ht1 & Hi1 & Hc1 & _).
      pose proof (write_back (procs k1) pid _ Ht1 Hi1 Hc1) as E. cbn [value set_value] in E. rewrite E. done.
    + intros t. cbn [cwd value set_value set_cwd]. unfold m. rewrite strlen_cstr by (by apply slash_end_nonul). cbn [mbind res_bind].
      unfold out. rewrite Z.gtb_ltb. destruct (Z.ltb_spec size (zlen (slash_end d) + 1)); [done|].
      rewrite strcpy_ok; [done|by apply slash_end_nonul|unfold zlen in *; lia].
Qed.

(** ** Creation *)

Lemma copy_string (s r : list Z) : nonul s -> exists x, strcpy (heap_object (zlen s + 1)) (s ++ 0 :: r) = Ok (s ++ 0 :: x).
Proof.
  intros Hs. pose proof (length_heap_object (zlen s + 1) ltac:(pose proof (zlen_nonneg s); lia)).
  rewrite strcpy_ok; [by eexists|done|unfold zlen in *; lia].
Qed.

(** [task_prcreate] with a valid working directory adds one process under the next free pid:
    named as asked, the child of the caller, with the three given files as its descriptors 0, 1
    and 2, its own copy of the directory, no thread and not busy; every other process stays as it
    was.  With an invalid directory it returns the error and creates nothing. *)
Theorem prcreate_adds k (name rn w rw : list Z) (pm : pagemap) (i : pcreate_info) (finfo : Z) (v : vfs D) (e : option Z) :
  table_ok (procs k) -> 0 <= counter (procs k) < 2 ^ 31 - 1 -> cell_at (procs k) (counter (procs k)) = None ->
  nonul name -> pi_cwd i = Some (w ++ 0 :: rw) -> nonul w ->
  return_if_invalid ftype (kvfs k) (w ++ 0 :: rw) finfo = Ok (v, e) ->
  match e with
  | Some r => task_prcreate ftype k (name ++ 0 :: rn) pm (Some i) finfo = Ok (set_vfs k v, r)
  | None =>
      exists k' nm wm, task_prcreate ftype k (name ++ 0 :: rn) pm (Some i) finfo = Ok (k', counter (procs k)) /\
        cstr nm = Ok name /\ cstr wm = Ok w /\
        cell_at (procs k') (counter (procs k)) = Some (mk_cell 1 true
          (mk_process nm (Some wm) (if cpu_locals k then CURRENT_PID k else 0) 0 pm
             [Some (mk_cell 1 true (pi_stdin i)); Some (mk_cell 1 true (pi_stdout i)); Some (mk_cell 1 true (pi_stderr i))] [] 0)) /\
        (forall j, 0 <= j < 2 ^ 64 -> j <> counter (procs k) -> cell_at (procs k') j = cell_at (procs k) j) /\
        table_ok (procs k') /\ counter (procs k') = counter (procs k) + 1 /\
        process_count k' = process_count k + 1 /\ tasks k' = tasks k /\ kvfs k' = v
  end.
Proof.
  intros Ht Hc Hn Hname Hcwd Hw Hv. unfold task_prcreate. rewrite Hcwd, Hv. cbn [mbind res_bind]. destruct e as [r|]; [done|].
  rewrite (strlen_cstr name rn) by done. cbn [mbind res_bind]. destruct (copy_string name rn Hname) as [x1 ->]. cbn [mbind res_bind].
  cbn [rcparray_add first_null app]. rewrite (strlen_cstr w rw) by done. cbn [mbind res_bind].
  destruct (copy_string w rw Hw) as [x2 ->]. cbn [mbind res_bind].
  change (procs (set_vfs k v)) with (procs k). change (cpu_locals (set_vfs k v)) with (cpu_locals k).
  change (CURRENT_PID (set_vfs k v)) with (CURRENT_PID k). rewrite s32_small by lia. rewrite u64_small by lia.
  set (t := mk_rcptable (table (procs k)) (counter (procs k) + 1)). set (p := mk_process _ _ _ _ _ _ _ _).
  destruct (rcptable_set_spec t (counter (procs k)) p Ht ltac:(lia) Hn) as [Ht' [Hnew Hoth]].
  eexists _, _, _. split; [reflexivity|]. split_and!; try done; try (by apply cstr_nonul).
  cbn [procs]. unfold rcptable_set. by destruct (seg_null _ 0).
Qed.

(** ** Cleanup *)

Lemma get_keeps_none (a : rcparray Z) id j : 0 <= id < 2 ^ 64 ->
  arr_slot (fst (rcparray_get a id)) j = None <-> arr_slot a j = None.
Proof.
  intros Hi. rewrite rcparray_get_eq by done. destruct (arr_slot a id) as [c|] eqn:E; [|done]. destruct (present c); [|done]. simpl.
  pose proof (arr_slot_range _ _ _ E). destruct (decide (j = id)) as [->|].
  - rewrite arr_slot_set by done. split; [done|congruence].
  - rewrite arr_slot_set_ne by (done || lia). done.
Qed.

Lemma get_keeps_present (a : rcparray Z) id j c : 0 <= id < 2 ^ 64 -> arr_slot a j = Some c -> present c = true ->
  exists c', arr_slot (fst (rcparray_get a id)) j = Some c' /\ present c' = true.
Proof.
  intros Hi Hc Hp. rewrite rcparray_get_eq by done. destruct (arr_slot a id) as [d|] eqn:E; [|by exists c].
  destruct (present d) eqn:Hd; [|by exists c]. simpl. pose proof (arr_slot_range _ _ _ E). destruct (decide (j = id)) as [->|].
  - rewrite arr_slot_set by done. by eexists.
  - rewrite arr_slot_set_ne by (done || lia). by exists c.
Qed.

Lemma cleanup_hole n m : 0 <= n < m -> m < 2 ^ 64 -> forall fuel (v : vfs D) p lid r,
  0 <= lid <= n -> arr_slot (fiddies p) n = None -> (exists c, arr_slot (fiddies p) m = Some c /\ present c = true) ->
  cleanup_loop fuel v p lid <> Ok r.
Proof.
  intros Hnm Hm. induction fuel as [|fuel IH]; intros v p lid r Hl Hn (c & Hc & Hp); cbn [cleanup_loop];
    (assert (foreach_more (fiddies p) lid = true) as -> by (apply foreach_more_true; [lia|]; exists m, c; split_and!; [lia|done|done])); [done|].
  pose proof (get_keeps_none (fiddies p) lid n ltac:(lia)) as Hk.
  destruct (get_keeps_present (fiddies p) lid m c ltac:(lia) Hc Hp) as (c' & Hc' & Hp').
  destruct (rcparray_get (fiddies p) lid) as [f o] eqn:E. simpl in Hk, Hc'. destruct o as [fd|]; [|done].
  destruct (decide (lid = n)) as [->|].
  { exfalso. rewrite rcparray_get_eq, Hn in E by lia. by injection E. }
  intros Hrun. apply bind_Ok in Hrun as ([v' x] & _ & Hrun). revert Hrun. apply IH; [lia|by apply Hk|by exists c'].
Qed.

(** The cleanup of a dying process does not survive a hole in its descriptors: if it closed a
    descriptor below one that is still open, the loop reaches the closed one and reads through a
    NULL pointer, whatever the drivers do. *)
Theorem cleanup_hole_faults (v : vfs D) p (n m : Z) (c : cell Z) r :
  0 <= n < m -> m < 2 ^ 64 -> arr_slot (fiddies p) n = None -> arr_slot (fiddies p) m = Some c -> present c = true ->
  fs_proc_cleanup v p <> Ok r.
Proof. intros Hnm Hm Hn Hc Hp. apply (cleanup_hole n m); try done; [lia|by exists c]. Qed.

(** ** Dispatch *)

Lemma set_tasks_twice k st st' : set_tasks (set_tasks k st) st' = set_tasks k st'.
Proof. by destruct k. Qed.

Lemma busy_back t : set_busy (set_busy t (busy t + 1)) (busy t + 1 - 1) = t.
Proof. destruct t. unfold set_busy. simpl. f_equal. lia. Qed.

(** The dispatcher answers [-ENOSYS], with nothing changed, past the end of the table and on an
    empty entry; a negative number is looked up in front of the table.  A call whose function
    leaves the threads alone runs with the thread marked busy and leaves the mark as it was. *)
Theorem syscall_wrapper_dispatch k (syscalls : list (option (kernel D -> res (kernel D * Z)))) (id : Z) :
  (zlen syscalls <= id -> syscall_wrapper syscalls k id = Ok (k, - rc ENOSYS)) /\
  (0 <= id -> syscalls !! Z.to_nat id = Some None -> syscall_wrapper syscalls k id = Ok (k, - rc ENOSYS)) /\
  (id < 0 -> syscall_wrapper syscalls k id = Fault) /\
  (forall func t k' ret, 0 <= id -> syscalls !! Z.to_nat id = Some (Some func) -> calm (tasks k) ->
     0 <= current_tid (cpu (tasks k)) -> Task.slot (threads (tasks k)) (current_tid (cpu (tasks k))) = Some t -> abort_ t = false ->
     (forall st, cpu st = cpu (tasks k) -> func (set_tasks k st) = Ok (set_tasks k' st, ret)) ->
     syscall_wrapper syscalls k id = Ok (set_tasks k' (tasks k), ret)).
Proof.
  unfold syscall_wrapper. rewrite Z.geb_leb. split_and!.
  - intros H. destruct (Z.leb_spec (zlen syscalls) id); [done|lia].
  - intros H1 H2. pose proof (lookup_lt_Some _ _ _ H2). destruct (Z.leb_spec (zlen syscalls) id); [unfold zlen in *; lia|].
    by rewrite (load_nat _ _ _ H1 H2).
  - intros H. pose proof (zlen_nonneg syscalls). destruct (Z.leb_spec (zlen syscalls) id); [lia|].
    unfold load, get. destruct (Z.leb_spec 0 id); [lia|done].
  - intros func t k' ret H1 H2 Hcalm Htid Hs Hab Hf. pose proof (lookup_lt_Some _ _ _ H2).
    destruct (Z.leb_spec (zlen syscalls) id); [unfold zlen in *; lia|]. rewrite (load_nat _ _ _ H1 H2). cbn [mbind res_bind].
    unfold task_tuse. rewrite with_thread_ok, Hs by done. cbn [mbind res_bind fst snd]. rewrite Hf by done. cbn [mbind res_bind tasks set_tasks].
    set (st1 := set_threads _ _). assert (calm st1) as Hcalm1 by exact Hcalm.
    assert (Task.slot (threads st1) (current_tid (cpu (tasks k))) = Some (set_busy t (busy t + 1))) as Hs1.
    { pose proof (slot_range _ _ _ Hs). unfold st1, Task.slot. destruct (Z.leb_spec 0 (current_tid (cpu (tasks k)))); [|lia].
      cbn [threads set_threads]. rewrite list_lookup_insert_eq by (unfold zlen in *; lia). done. }
    unfold task_trelease. change (cpu st1) with (cpu (tasks k)). rewrite with_thread_ok, Hs1 by done. cbn [mbind res_bind fst snd abort_ set_busy busy].
    rewrite Hab, andb_false_r. cbn [andb mbind res_bind]. f_equal. f_equal. rewrite set_tasks_twice. f_equal.
    unfold st1. cbn [threads set_threads]. rewrite busy_back, list_insert_insert_eq.
    assert (<[Z.to_nat (current_tid (cpu (tasks k))) := Some t]> (threads (tasks k)) = threads (tasks k)) as ->; [|by destruct (tasks k)].
    apply list_insert_id. unfold Task.slot in Hs. destruct (Z.leb_spec 0 (current_tid (cpu (tasks k)))); [|lia].
    destruct (threads (tasks k) !! _) as [o|]; [|done]. simpl in Hs. by rewrite Hs.
Qed.
End ProcLaws.

(** ** A kernel to run: one process, whose working directory is [/dev/], over the files of Vfs.v *)
Module Demo.
Definition ftype (_ : list Z) (_ : Z) : Z := FS_TYPE_DIR.
Definition pm : pagemap := mk_pagemap 3 1 4.
Definition init (f : rcparray Z) : process := mk_process (bytes "init" ++ [0]) (Some (bytes "/dev/" ++ [0])) 0 0 pm f [] 0.
Definition thread1 : thread := mk_thread 1 RUNNABLE true 0 false true 0.
Definition st : tstate := mk_tstate [None; Some thread1] 1 (mk_cpu 1 1 1 0 false) ∅ true 0.
Definition ptable (f : rcparray Z) : rcptable process := mk_rcptable (table (rcptable_set (rcptable_init 32 1) 1 (init f))) 2.
Definition kern (f : rcparray Z) (v : vfs (list Z)) : kernel (list Z) := mk_kernel (ptable f) 1 st v true.

Lemma ptable_ok f : table_ok (ptable f).
Proof. apply (rcptable_set_spec (rcptable_init 32 1) 1 (init f)); [apply init_table_ok; lia|lia|reflexivity]. Qed.

Lemma alive1 f v : alive (kern f v) 1 (mk_cell 1 true (init f)).
Proof. split_and!; [apply ptable_ok|lia|lia|reflexivity|reflexivity|unfold counted; simpl; lia]. Qed.

Lemma quiet_nil : Vfs.quiet ([] : rcparray Z).
Proof. intros id c H. apply arr_slot_range in H. unfold zlen in H. simpl in H. lia. Qed.

Lemma quiet_one (x : Z) : Vfs.quiet [Some (mk_cell 1 true x)].
Proof.
  intros id c H. pose proof (arr_slot_range _ _ _ H) as Hr. unfold zlen in Hr. simpl in Hr. assert (id = 0) as -> by lia. by injection H as <-.
Qed.
End Demo.

Lemma syscall_fd_dispatch_witness :
  exists d, syscall_fread (Demo.kern [Some (mk_cell 1 true 0)] Vfs.Demo.s4) 0 7 8
    = Ok (Demo.kern [Some (mk_cell 1 true 0)] (set_drv Vfs.Demo.s4 d), 13).
Proof.
  pose proof (proj2 (syscall_fd_dispatch (Demo.kern [Some (mk_cell 1 true 0)] Vfs.Demo.s4)
    (mk_cell 1 true (Demo.init [Some (mk_cell 1 true 0)])) 0 7 8 ltac:(split; lia))) as H.
  assert (caller (Demo.kern [Some (mk_cell 1 true 0)] Vfs.Demo.s4) (mk_cell 1 true (Demo.init [Some (mk_cell 1 true 0)]))) as Hc
    by (split_and!; [apply Demo.alive1|apply Demo.quiet_one|vm_compute; reflexivity]).
  specialize (H Hc).
  destruct H as [H _]. exists (3 :: 13 :: drv Vfs.Demo.s4).
  assert (fd_read Vfs.Demo.s4 0 7 8 = Ok (set_drv Vfs.Demo.s4 (3 :: 13 :: drv Vfs.Demo.s4), 13)) as E by (vm_compute; reflexivity).
  change (kvfs (Demo.kern _ Vfs.Demo.s4)) with Vfs.Demo.s4 in H. change (value (mk_cell 1 true 0)) with 0 in H. rewrite E in H. exact H.
Defined.

Lemma syscall_open_close_witness :
  exists k1 k2, syscall_fopen (Demo.kern [] Vfs.Demo.s3) (bytes "tty" ++ [0]) 1 (replicate 256 0) (replicate 72 0) = Ok (k1, 0) /\
    syscall_fclose k1 0 = Ok (k2, 12) /\
    forall j, arr_slot (fds (kvfs k2)) j = arr_slot (fds Vfs.Demo.s3) j.
Proof.
  destruct (syscall_fopen (Demo.kern [] Vfs.Demo.s3) (bytes "tty" ++ [0]) 1 (replicate 256 0) (replicate 72 0))
    as [[k1 lfd]| | |] eqn:E1; [|vm_compute in E1; discriminate E1..].
  assert (lfd = 0) as -> by (vm_compute in E1; injection E1 as _ <-; reflexivity).
  destruct (syscall_fclose k1 0) as [[k2 ret]| | |] eqn:E2;
    [|vm_compute in E1; injection E1 as <-; vm_compute in E2; discriminate E2..].
  assert (ret = 12) as -> by (vm_compute in E1; injection E1 as <-; vm_compute in E2; injection E2 as _ <-; reflexivity).
  assert (caller (Demo.kern [] Vfs.Demo.s3) (mk_cell 1 true (Demo.init []))) as Hc
    by (split_and!; [apply Demo.alive1|apply Demo.quiet_nil|vm_compute; reflexivity]).
  assert (fs_to_absolute_path (bytes "tty" ++ [0]) (Some (bytes "/dev/" ++ [0])) (replicate 256 0) (replicate 72 0)
    = Ok (bytes "/dev/tty" ++ 0 :: replicate 7 0)) as Hp by (vm_compute; reflexivity).
  assert (smalls (kvfs k1)) as Hs1 by (vm_compute in E1; injection E1 as <-; split_and!; vm_compute; reflexivity).
  exists k1, k2. split; [reflexivity|]. split; [exact E2|].
  destruct (syscall_open_close (Demo.kern [] Vfs.Demo.s3) (bytes "tty" ++ [0]) (replicate 256 0) (replicate 72 0)
    (bytes "/dev/tty") (replicate 7 0) 1 0 12 (mk_cell 1 true (Demo.init [])) k1 k2 Hc Vfs.Demo.wf3 Vfs.Demo.smalls3 Hp
    ltac:(decided) E1 ltac:(lia) ltac:(vm_compute; reflexivity) Hs1 E2) as (_ & _ & _ & _ & _ & _ & _ & Hf & _). exact Hf.
Defined.

Lemma prset_prget_cwd_witness :
  exists k1, task_prset_cwd Demo.ftype (Demo.kern [] Vfs.Demo.s3) 1 (bytes "/dev" ++ [0]) 0 = Ok (k1, 0) /\
    task_prget_cwd k1 1 (replicate 8 9) 8 = Ok (k1, (bytes "/dev/" ++ [0; 9; 9], 0)).
Proof.
  destruct (return_if_invalid Demo.ftype Vfs.Demo.s3 (bytes "/dev" ++ [0]) 0) as [[v [e|]]| | |] eqn:E;
    [vm_compute in E; discriminate E| |vm_compute in E; discriminate E..].
  destruct (prset_prget_cwd Demo.ftype (Demo.kern [] Vfs.Demo.s3) 1 0 8 (mk_cell 1 true (Demo.init [])) (bytes "/dev") []
    (replicate 8 9) v (Demo.alive1 [] Vfs.Demo.s3) ltac:(decided) ltac:(done) ltac:(decided) E) as (k1 & m & x & H1 & _ & _ & H2).
  exists k1. split; [exact H1|exact H2].
Defined.

Lemma prcreate_adds_witness :
  exists k', task_prcreate Demo.ftype (Demo.kern [] Vfs.Demo.s3) (bytes "shell" ++ [0]) Demo.pm
    (Some (mk_pinfo 4 5 6 (Some (bytes "/dev" ++ [0])))) 0 = Ok (k', 2).
Proof.
  destruct (return_if_invalid Demo.ftype Vfs.Demo.s3 (bytes "/dev" ++ [0]) 0) as [[v e]| | |] eqn:E;
    [|vm_compute in E; discriminate E..].
  pose proof (prcreate_adds Demo.ftype (Demo.kern [] Vfs.Demo.s3) (bytes "shell") [] (bytes "/dev") [] Demo.pm
    (mk_pinfo 4 5 6 (Some (bytes "/dev" ++ [0]))) 0 v e (Demo.ptable_ok []) ltac:(simpl; lia) ltac:(reflexivity) ltac:(decided)
    eq_refl ltac:(decided) E) as H.
  destruct e as [r|]; [vm_compute in E; discriminate E|]. destruct H as (k' & _ & _ & H & _). by exists k'.
Defined.

Lemma cleanup_hole_faults_witness :
  fs_proc_cleanup Vfs.Demo.s4 (Demo.init [Some (mk_cell 1 true 0); None; Some (mk_cell 1 true 1)]) <> Ok (Vfs.Demo.s4, Demo.init []).
Proof.
  apply (cleanup_hole_faults _ _ 1 2 (mk_cell 1 true 1)); [lia|lia|reflexivity|reflexivity|reflexivity].
Defined.

Lemma syscall_wrapper_dispatch_witness :
  syscall_wrapper [None; Some (fun k => syscall_fread k 0 7 8)] (Demo.kern [] Vfs.Demo.s4) 1
  = Ok (Demo.kern [] Vfs.Demo.s4, - rc EBADF).
Proof.
  apply (proj2 (proj2 (proj2 (syscall_wrapper_dispatch (Demo.kern [] Vfs.Demo.s4) [None; Some (fun k => syscall_fread k 0 7 8)] 1)))
    (fun k => syscall_fread k 0 7 8) Demo.thread1 (Demo.kern [] Vfs.Demo.s4) (- rc EBADF)); try done.
  intros [ts n c l rd rs] Hc. cbn in Hc. subst c. vm_compute. reflexivity.
Defined.
