(* ===== verification/Kill.v ===== *)
(** * Killing threads and processes: [task_tkill], [_task_cleaner] and the end of a process in
    proc/task.c

    A thread is removed by a thread of its own, the cleaner; the others hand it one request at a
    time, in [thkill_data], and wait.  The request lies on the stack of the thread that asks, so
    a pointer to it is the tid of that thread ([kdatas]).  Each thread in [task_tkill] and the
    cleaner have a place in the code; [kill_step] is what the current thread does up to its next
    place, and between steps the scheduler (Task.v) may switch.  A part that runs under
    [sheduler_lock] is one step.  A pointer to a thread is its tid: it is good as long as the
    thread is in the array, since the cleaner frees it when it takes it out. *)
From S2P Require Import Prelude Rcp Task Path Vfs Proc.

(** [thkill_data_t] *)
Record thkill := mk_thkill { kd_tid : Z; kd_requester : Z; kd_done : bool }.

(** Where a thread is in [task_tkill]. *)
Inductive kplace :=
  | Entered
  | Idling  (** [while (thread->busy > 0)] *)
  | Marking  (** before [task_tset_status(tid, DEAD)] *)
  | Taking  (** [while (!thread_try_take(thread))] *)
  | Unlisting  (** the second part under the lock *)
  | Posting  (** before the compare-and-swap of [thkill_data] *)
  | Waking (mine : bool)  (** after it; [mine] when [prev == NULL] *)
  | Awaiting  (** the loops at the end *).

Record kcall := mk_kcall { k_tid : Z; k_at : kplace }.

(** Where [_task_cleaner] is; [r] is [thdata]. *)
Inductive cplace :=
  | Looking
  | Sleeping  (** before it blocks itself *)
  | Yielding
  | Fetching (r : Z)
  | CMarking (r : Z) (found : bool)
  | CTaking (r : Z) (found : bool)
  | Cleaning (r : Z) (found suicide : bool)
  | Finishing (r : Z) (suicide : bool)
  | Resetting (r : Z).

Section Kill.
Context {D : Type}.

Record kworld := mk_kworld {
  kk : kernel D;
  thkill_data : option Z;
  kdatas : gmap Z thkill;
  kcalls : gmap Z kcall;
  thread_cleaner_tid : Z;
  cleaner_at : cplace }.

Definition set_kk (w : kworld) x := mk_kworld x (thkill_data w) (kdatas w) (kcalls w) (thread_cleaner_tid w) (cleaner_at w).
Definition set_mail (w : kworld) x := mk_kworld (kk w) x (kdatas w) (kcalls w) (thread_cleaner_tid w) (cleaner_at w).
Definition set_datas (w : kworld) x := mk_kworld (kk w) (thkill_data w) x (kcalls w) (thread_cleaner_tid w) (cleaner_at w).
Definition set_calls (w : kworld) x := mk_kworld (kk w) (thkill_data w) (kdatas w) x (thread_cleaner_tid w) (cleaner_at w).
Definition set_cleaner (w : kworld) x := mk_kworld (kk w) (thkill_data w) (kdatas w) (kcalls w) (thread_cleaner_tid w) x.

Definition ktasks (w : kworld) : tstate := tasks (kk w).
Definition set_st (w : kworld) (st : tstate) : kworld := set_kk w (set_tasks (kk w) st).

(** [thread->...] for a thread whose address was looked up before. *)
Definition deref (st : tstate) (tid : Z) : res thread := res_of_option (slot (threads st) tid).

(** [task_tyield()]: the scheduler runs at the time [ms]. *)
Definition yield (ms : Z) (w : kworld) : res kworld :=
  st ← task_tyield (ktasks w); st ← task_shed_choose st ms; Ok (set_st w st).

(** ** [task_tkill] *)

(** [rcparray_foreach(process->threads, id)] with the body that removes [tid]. *)
Fixpoint unlist_loop (fuel : nat) (a : rcparray Z) (id tid : Z) : res (rcparray Z) :=
  if foreach_more a id then
    match fuel with
    | O => OutOfFuel
    | S n =>
        let '(a, lid) := rcparray_get a id in
        match lid with
        | None => unlist_loop n a (id + 1) tid
        | Some l =>
            let a := if l =? tid then fst (rcparray_remove a id) else a in
            unlist_loop n (rcparray_unref a id) (id + 1) tid
        end
    end
  else Ok a.

(** The process of the thread is looked up and never given back. *)
Definition unlist (ps : rcptable process) (pid tid : Z) : res (rcptable process) :=
  let '(ps, o) := rcptable_get ps pid in
  match o with
  | None => Ok ps
  | Some p => a ← unlist_loop (length (pthreads p)) (pthreads p) 0 tid; Ok (rcptable_write ps pid (set_pthreads p a))
  end.

Section Step.
Context (ms : Z).

Definition goto (w : kworld) (me tid : Z) (p : kplace) : kworld := set_calls w (<[me := mk_kcall tid p]> (kcalls w)).
Definition returned (w : kworld) (me : Z) : kworld := set_datas (set_calls w (delete me (kcalls w))) (delete me (kdatas w)).

(** From the search for the process to the release of the lock; the lock is held. *)
Definition request (w : kworld) (me tid : Z) : res kworld :=
  t ← deref (ktasks w) tid;
  ps ← unlist (procs (kk w)) (tprocess t) tid;
  st ← spinlock_release SHEDULER_LOCK (ktasks w);
  Ok (goto (set_datas (set_kk w (set_tasks (set_procs (kk w) ps) st)) (<[me := mk_thkill tid me false]> (kdatas w))) me tid Posting).

Definition call_step (w : kworld) (me : Z) (c : kcall) : res kworld :=
  let tid := k_tid c in let st := ktasks w in
  match k_at c with
  | Entered =>
      st ← spinlock_acquire SHEDULER_LOCK st;
      o ← thread_get (threads st) tid;
      match o with
      | None => st ← spinlock_release SHEDULER_LOCK st; Ok (returned (set_st w st) me)
      | Some t =>
          let t := set_abort t true in
          let t := if bool_decide (status t = DEAD) then t else set_status t RUNNABLE in
          ts ← Prelude.store (threads st) tid (Some t);
          let st := set_threads st ts in
          if negb (tid =? me) then st ← spinlock_release SHEDULER_LOCK st; Ok (goto (set_st w st) me tid Idling)
          else request (set_st w st) me tid
      end
  | Idling => t ← deref st tid; if busy t >? 0 then yield ms w else Ok (goto w me tid Marking)
  | Marking => st ← task_tset_status st tid DEAD; Ok (goto (set_st w st) me tid Taking)
  | Taking =>
      t ← deref st tid;
      let '(t', took) := thread_try_take t in
      ts ← Prelude.store (threads st) tid (Some t');
      Ok (goto (set_st w (set_threads st ts)) me tid (if took : bool then Unlisting else Taking))
  | Unlisting => st ← spinlock_acquire SHEDULER_LOCK st; request (set_st w st) me tid
  | Posting =>
      match thkill_data w with
      | None => Ok (goto (set_mail w (Some me)) me tid (Waking true))
      | Some _ => Ok (goto w me tid (Waking false))
      end
  | Waking mine =>
      st ← task_tset_status st (thread_cleaner_tid w) RUNNABLE;
      let w := set_st w st in
      if mine then Ok (goto w me tid Awaiting) else yield ms (goto w me tid Posting)
  | Awaiting =>
      if tid =? me then yield ms w
      else
        d ← res_of_option (kdatas w !! me);
        if negb (kd_done d) then yield ms w else Ok (returned w me)
  end.

(** ** [_task_cleaner] *)

(** [_task_cleanup]: the stacks of the thread go with it. *)
Definition _task_cleanup (w : kworld) (tid : Z) : res kworld :=
  st ← spinlock_acquire SHEDULER_LOCK (ktasks w);
  ts ← thread_remove (threads st) tid;
  st ← spinlock_release SHEDULER_LOCK (set_threads st ts);
  Ok (returned (set_st w st) tid).

Definition cleaner_step (w : kworld) : res kworld :=
  let st := ktasks w in
  match cleaner_at w with
  | Looking => Ok (set_cleaner w (match thkill_data w with None => Sleeping | Some r => Fetching r end))
  | Sleeping => st ← task_tset_status st (current_tid (cpu st)) BLOCKED; Ok (set_cleaner (set_st w st) Yielding)
  | Yielding => yield ms (set_cleaner w Looking)
  | Fetching r =>
      d ← res_of_option (kdatas w !! r);
      st ← spinlock_acquire SHEDULER_LOCK st;
      o ← thread_get (threads st) (kd_tid d);
      st ← spinlock_release SHEDULER_LOCK st;
      let found := match o with Some _ => true | None => false end in
      let suicide := kd_tid d =? kd_requester d in
      Ok (set_cleaner (set_st w st) (if suicide then CMarking r found else Cleaning r found suicide))
  | CMarking r found =>
      d ← res_of_option (kdatas w !! r);
      st ← task_tset_status st (kd_tid d) DEAD;
      Ok (set_cleaner (set_st w st) (CTaking r found))
  | CTaking r found =>
      d ← res_of_option (kdatas w !! r);
      t ← (if found then deref st (kd_tid d) else Fault);
      let '(t', took) := thread_try_take t in
      ts ← Prelude.store (threads st) (kd_tid d) (Some t');
      Ok (set_cleaner (set_st w (set_threads st ts)) (if took : bool then Cleaning r found true else CTaking r found))
  | Cleaning r found suicide =>
      w ← (if found then d ← res_of_option (kdatas w !! r); _task_cleanup w (kd_tid d) else Ok w);
      Ok (set_cleaner w (Finishing r suicide))
  | Finishing r suicide =>
      w ← (if suicide then Ok w
           else d ← res_of_option (kdatas w !! r); Ok (set_datas w (<[r := mk_thkill (kd_tid d) (kd_requester d) true]> (kdatas w))));
      Ok (set_cleaner w (Resetting r))
  | Resetting r =>
      let mail := if bool_decide (thkill_data w = Some r) then None else thkill_data w in
      Ok (set_cleaner (set_mail w mail) Looking)
  end.

(** What the current thread does next, if it is the cleaner or in [task_tkill]. *)
Definition kill_step (w : kworld) : res kworld :=
  let me := current_tid (cpu (ktasks w)) in
  if me =? thread_cleaner_tid w then cleaner_step w
  else match kcalls w !! me with Some c => call_step w me c | None => Ok w end.
End Step.

(** The threads of the kernel at work.  [task_tkill] is called for a thread that nobody else is
    killing (see [tkill_twice_faults] for two callers of one thread), and not for the idle
    thread or the cleaner.  The caller itself may be on somebody's list, and the thread it kills
    may be in [task_tkill] too. *)
Definition may_call (w : kworld) (me tid : Z) : Prop :=
  me <> thread_cleaner_tid w /\ tid <> thread_cleaner_tid w /\ 1 <= tid /\ kcalls w !! me = None /\
  forall k c, kcalls w !! k = Some c -> k_tid c <> tid.

Inductive kstep : kworld -> kworld -> Prop :=
  | Tick ms w st : task_shed_choose (ktasks w) ms = Ok st -> kstep w (set_st w st)
  | Exec ms w w' : kill_step ms w = Ok w' -> kstep w w'
  | Call w tid : may_call w (current_tid (cpu (ktasks w))) tid -> kstep w (goto w (current_tid (cpu (ktasks w))) tid Entered)
  | Use w st b : kcalls w !! current_tid (cpu (ktasks w)) = None -> current_tid (cpu (ktasks w)) <> thread_cleaner_tid w ->
      task_tuse (ktasks w) (current_tid (cpu (ktasks w))) = Ok (st, b) -> kstep w (set_st w st)
  | Release w st : kcalls w !! current_tid (cpu (ktasks w)) = None -> current_tid (cpu (ktasks w)) <> thread_cleaner_tid w ->
      task_trelease (ktasks w) (current_tid (cpu (ktasks w))) = Ok st -> kstep w (set_st w st).

(** ** The threads of a process *)

(** The lists of threads fit the index of the loop. *)
Definition lists_ok (ps : rcptable process) : Prop :=
  table_ok ps /\ forall pid c, 0 <= pid < 2 ^ 64 -> cell_at ps pid = Some c -> zlen (pthreads (value c)) < 2 ^ 64.

Lemma zlen_get (a : rcparray Z) id : zlen (fst (rcparray_get a id)) = zlen a.
Proof. unfold rcparray_get. case_match; [done|]. case_match; [|done]. case_match; [apply zlen_arr_set|done]. Qed.
Lemma zlen_unref (a : rcparray Z) id : zlen (rcparray_unref a id) = zlen a.
Proof. unfold rcparray_unref. case_match; [done|]. case_match; [apply zlen_arr_set|done]. Qed.
Lemma zlen_remove (a : rcparray Z) id : zlen (fst (rcparray_remove a id)) = zlen a.
Proof. unfold rcparray_remove. case_match; [done|]. case_match; [apply zlen_arr_set|done]. Qed.

Lemma foreach_more_end (a : rcparray Z) id : zlen a <= id < 2 ^ 64 -> foreach_more a id = false.
Proof.
  intros Hi. destruct (foreach_more a id) eqn:E; [|done]. apply foreach_more_true in E as (j & c & Hj & Hs%arr_slot_range & _); [|pose proof (zlen_nonneg a)]; lia.
Qed.

Lemma unlist_loop_ok tid n : forall a id, zlen a < 2 ^ 64 -> 0 <= id <= zlen a -> zlen a - id <= Z.of_nat n ->
  exists a', unlist_loop n a id tid = Ok a' /\ zlen a' = zlen a.
Proof.
  induction n as [|n IH]; intros a id Ha Hid Hn; cbn [unlist_loop].
  - rewrite foreach_more_end by lia. eauto.
  - destruct (foreach_more a id) eqn:Em; [|by eauto]. assert (id < zlen a).
    { apply foreach_more_true in Em as (j & c & Hj & Hs%arr_slot_range & _); lia. }
    pose proof (zlen_get a id) as Hg. destruct (rcparray_get a id) as [a1 o]. cbn [fst] in Hg. destruct o as [l|].
    + set (a2 := if l =? tid then _ else _). assert (zlen (rcparray_unref a2 id) = zlen a) as H2.
      { rewrite zlen_unref. unfold a2. destruct (l =? tid); [by rewrite zlen_remove|done]. }
      destruct (IH (rcparray_unref a2 id) (id + 1)) as (a' & -> & E); [lia..|]. exists a'. split; [done|]. lia.
    + destruct (IH a1 (id + 1)) as (a' & -> & E); [lia..|]. exists a'. split; [done|]. lia.
Qed.

Lemma u64_twice z : u64 (u64 z) = u64 z.
Proof. unfold u64. by apply Z.mod_mod. Qed.

(** Looking the process up for [task_tkill] takes a reference for good. *)
Lemma unlist_ok ps pid tid : lists_ok ps ->
  exists ps', unlist ps pid tid = Ok ps' /\ lists_ok ps' /\
    match cell_at ps (u64 pid) with
    | Some c => if present c
        then exists a, unlist_loop (length (pthreads (value c))) (pthreads (value c)) 0 tid = Ok a /\
               cell_update ps (u64 pid) (Some (set_value (set_refs c (refs c + 1)) (set_pthreads (value c) a))) ps'
        else ps' = ps
    | None => ps' = ps
    end.
Proof.
  intros [Ht Hl]. pose proof (u64_range pid) as Hr. assert (rcptable_get ps pid = rcptable_get ps (u64 pid)) as Eg by (unfold rcptable_get; by rewrite u64_twice).
  unfold unlist. rewrite Eg. destruct (cell_at ps (u64 pid)) as [c|] eqn:Ec.
  - destruct (present c) eqn:Ep.
    + destruct (law_get_hit ps (u64 pid) c Ht Hr Ec Ep) as (ps1 & Eg1 & Ht1 & Hu1 & Ho1). cbn [rc_get rcptable_store] in Eg1. rewrite Eg1.
      destruct (unlist_loop_ok tid (length (pthreads (value c))) (pthreads (value c)) 0) as (a & Ea & Hz); [by eapply Hl|pose proof (zlen_nonneg (pthreads (value c))); lia|unfold zlen; lia|].
      rewrite Ea. cbn [mbind res_bind]. assert (rcptable_write ps1 pid (set_pthreads (value c) a) = rcptable_write ps1 (u64 pid) (set_pthreads (value c) a)) as -> by (unfold rcptable_write; by rewrite u64_twice).
      destruct (write_update ps1 (u64 pid) _ (set_pthreads (value c) a) Ht1 Hr Hu1) as (Ht2 & Hu2 & Ho2). eexists. split; [done|]. split.
      * split; [done|]. intros j d Hj Hd. destruct (decide (j = u64 pid)) as [->|Hne]; [|rewrite Ho2, Ho1 in Hd by done; by eapply Hl].
        rewrite Hu2 in Hd. injection Hd as <-. cbn. rewrite Hz. by eapply Hl.
      * exists a. split; [done|]. split; [done|]. intros j Hj Hne. by rewrite Ho2, Ho1.
    + pose proof (law_get_miss ps (u64 pid) Ht Hr) as Em. cbn [rc_get rcptable_store] in Em. rewrite Em by (intros ? E; congruence). by eexists.
  - pose proof (law_get_miss ps (u64 pid) Ht Hr) as Em. cbn [rc_get rcptable_store] in Em. rewrite Em by (intros ? E; congruence). by eexists.
Qed.

(** ** The state in between *)

Definition posted (p : kplace) : Prop := p = Waking true \/ p = Awaiting.

(** Dead and not on the CPU; and also taken, so that it never is again. *)
Definition off (st : tstate) (tid : Z) : Prop :=
  exists t, slot (threads st) tid = Some t /\ status t = DEAD /\ tid <> current_tid (cpu st).
Definition stopped (st : tstate) (tid : Z) : Prop :=
  exists t, slot (threads st) tid = Some t /\ status t = DEAD /\ running t = true /\ tid <> current_tid (cpu st).
Definition there (st : tstate) (tid : Z) : Prop := is_Some (slot (threads st) tid).

(** A thread that was handed to the cleaner by [k]. *)
Definition handed (st : tstate) (k tid : Z) : Prop := there st tid /\ (tid <> k -> stopped st tid).

Definition call_ok (w : kworld) (k : Z) (c : kcall) : Prop :=
  let st := ktasks w in let tid := k_tid c in
  k <> thread_cleaner_tid w /\ tid <> thread_cleaner_tid w /\ 1 <= tid /\
  match k_at c with
  | Entered => True
  | Idling | Marking => there st tid /\ tid <> k
  | Taking => off st tid
  | Unlisting => stopped st tid
  | Posting | Waking false => kdatas w !! k = Some (mk_thkill tid k false) /\ handed st k tid
  | Waking true | Awaiting =>
      (kdatas w !! k = Some (mk_thkill tid k true) /\ slot (threads st) tid = None) \/
      (kdatas w !! k = Some (mk_thkill tid k false) /\ thkill_data w = Some k /\
         (handed st k tid \/ cleaner_at w = Finishing k false))
  end.

(** The request of [r] waits, or the cleaner works on it. *)
Definition pending (w : kworld) (r tid : Z) : Prop :=
  thkill_data w = Some r /\ kdatas w !! r = Some (mk_thkill tid r false) /\
  exists p, kcalls w !! r = Some (mk_kcall tid p) /\ posted p.
Definition settled (w : kworld) (r : Z) : Prop :=
  forall c, kcalls w !! r = Some c -> posted (k_at c) -> kdatas w !! r = Some (mk_thkill (k_tid c) r true).

Definition cleaner_ok (w : kworld) : Prop :=
  let st := ktasks w in
  match cleaner_at w with
  | Looking | Sleeping | Yielding => forall r, thkill_data w = Some r -> exists tid, pending w r tid
  | Fetching r => exists tid, pending w r tid
  | CMarking r found => found = true /\ pending w r r
  | CTaking r found => found = true /\ pending w r r /\ off st r
  | Cleaning r found suicide => found = true /\ exists tid, pending w r tid /\ suicide = (tid =? r) /\ stopped st tid
  | Finishing r suicide =>
      if suicide then thkill_data w = Some r /\ settled w r
      else exists tid, pending w r tid /\ slot (threads st) tid = None
  | Resetting r => thkill_data w = Some r /\ settled w r
  end.

Record kinv (w : kworld) : Prop := mk_kinv {
  ki_lists : lists_ok (procs (kk w));
  ki_sched : sched_ok (ktasks w);
  ki_calm : calm (ktasks w);
  ki_cleaner : 1 <= thread_cleaner_tid w;
  ki_alive : forall t, slot (threads (ktasks w)) (thread_cleaner_tid w) = Some t -> status t <> DEAD;
  ki_once : forall k1 c1 k2 c2, kcalls w !! k1 = Some c1 -> kcalls w !! k2 = Some c2 -> k_tid c1 = k_tid c2 -> k1 = k2;
  ki_call : forall k c, kcalls w !! k = Some c -> call_ok w k c;
  ki_clean : cleaner_ok w }.

(** ** What the steps do to the threads *)

(** Threads other than [x] and the cleaner [ct] are as dead as before. *)
Record keeps (x ct : Z) (st st' : tstate) : Prop := mk_keeps {
  kp_sched : sched_ok st';
  kp_calm : calm st';
  kp_there : forall j, 1 <= j -> j <> x -> there st j <-> there st' j;
  kp_off : forall j, 1 <= j -> j <> x -> j <> ct -> off st j -> off st' j;
  kp_stopped : forall j, 1 <= j -> j <> x -> j <> ct -> stopped st j -> stopped st' j;
  kp_alive : (forall t, slot (threads st) ct = Some t -> status t <> DEAD) ->
    forall t, slot (threads st') ct = Some t -> status t <> DEAD }.

Definition upd (st : tstate) (tid : Z) (o : option thread) : tstate := set_threads st (<[Z.to_nat tid := o]> (threads st)).

Lemma slot_upd st tid o j t : slot (threads st) tid = Some t ->
  slot (threads (upd st tid o)) j = if decide (j = tid) then o else slot (threads st) j.
Proof.
  intros H%slot_range. cbn [upd threads set_threads]. destruct o as [t'|]; [by apply slot_insert|].
  unfold slot, zlen in *. destruct (Z.leb_spec 0 j); [|case_decide; [lia|done]].
  case_decide; [subst; by rewrite list_lookup_insert_eq by lia|by rewrite list_lookup_insert_ne by lia].
Qed.

Lemma slot_upd_eq st tid o t : slot (threads st) tid = Some t -> slot (threads (upd st tid o)) tid = o.
Proof. intros Hs. rewrite (slot_upd _ _ _ _ _ Hs). by rewrite decide_True. Qed.

Lemma sched_upd st tid o t : sched_ok st -> slot (threads st) tid = Some t ->
  (forall t', o = Some t' -> running t' = true -> tid = current_tid (cpu st) \/ status t' = DEAD) -> sched_ok (upd st tid o).
Proof.
  intros (H1 & H2 & H3 & H4 & H5 & H6) Hs Ho. split; [done|]. split; [by change (threads (upd st tid o)) with (<[Z.to_nat tid := o]> (threads st)); rewrite zlen_insert|].
  do 3 (split; [done|]). intros j t'. rewrite (slot_upd _ _ _ _ _ Hs). case_decide as Hd; [intros ->; rewrite Hd; by apply Ho|apply H6].
Qed.

Lemma keeps_upd ct st tid o t : sched_ok st -> calm st -> slot (threads st) tid = Some t ->
  (forall t', o = Some t' -> running t' = true -> tid = current_tid (cpu st) \/ status t' = DEAD) ->
  (forall t', tid = ct -> o = Some t' -> status t' <> DEAD) -> keeps tid ct st (upd st tid o).
Proof.
  intros Hok Hc Hs Ho Ha. assert (forall j, j <> tid -> slot (threads (upd st tid o)) j = slot (threads st) j) as E
    by (intros j Hj; rewrite (slot_upd _ _ _ _ _ Hs); by rewrite decide_False).
  split; [by eapply sched_upd|exact Hc| | | |].
  - intros j _ Hj. unfold there. by rewrite E.
  - intros j _ Hj _. unfold off. by rewrite E.
  - intros j _ Hj _. unfold stopped. by rewrite E.
  - intros Hal t'. rewrite (slot_upd _ _ _ _ _ Hs). case_decide; [intros ->; by apply Ha|apply Hal].
Qed.

Lemma keeps_same x ct st : sched_ok st -> calm st -> keeps x ct st st.
Proof. intros Hs Hc. by split. Qed.

Lemma keeps_tick x ct st st' ms : sched_ok st -> calm st -> task_shed_choose st ms = Ok st' -> keeps x ct st st'.
Proof.
  intros Hok [Hl Hc] E. destruct (shed_choose_cases st ms Hok) as (st1 & E1 & [_ Hsh] & Hh & _ & Hok' & _ & Hmv & Hcase).
  rewrite E in E1. injection E1 as <-.
  assert (forall j t, slot (threads st) j = Some t -> status t = DEAD -> 1 <= j -> j <> current_tid (cpu st')) as Hcur.
  { intros j t Hs Hd Hj ->. destruct Hcase as [(E0 & _)|(t0 & Hs0 & Hr & _)]; [lia|]. rewrite Hs in Hs0. injection Hs0 as <-.
    unfold can_run in Hr. by rewrite Hd in Hr. }
  assert (forall j t, slot (threads st) j = Some t -> status t = DEAD -> exists t', slot (threads st') j = Some t' /\ status t' = DEAD /\
    (j <> current_tid (cpu st) -> j <> current_tid (cpu st') -> running t' = running t)) as Hdead.
  { intros j t Hs Hd. specialize (Hmv j). rewrite Hs in Hmv. destruct (slot (threads st') j) as [t'|]; [|done].
    destruct Hmv as (_ & _ & _ & Hst & Hr). exists t'. split; [done|]. split; [destruct Hst as [->|[]]; congruence|tauto]. }
  split; [done|by split; [rewrite Hh|]| | | |].
  - intros j _ _. specialize (Hmv j). unfold there. destruct (slot (threads st) j), (slot (threads st') j); try done; split; by intros [].
  - intros j Hj _ _ (t & Hs & Hd & _). destruct (Hdead _ _ Hs Hd) as (t' & ? & ? & _). exists t'. eauto.
  - intros j Hj _ _ (t & Hs & Hd & Hr & Hne). destruct (Hdead _ _ Hs Hd) as (t' & ? & ? & Er). exists t'.
    pose proof (Hcur _ _ Hs Hd Hj). rewrite Er by done. done.
  - intros Ha t' Hs'. specialize (Hmv ct). rewrite Hs' in Hmv. destruct (slot (threads st) ct) as [t|]; [|done].
    destruct Hmv as (_ & _ & _ & [->|[_ ->]] & _); [by apply Ha|done].
Qed.

(** ** The invariant *)

Lemma keeps_handed x ct st st' k j : keeps x ct st st' -> 1 <= j -> j <> x -> j <> ct -> handed st k j -> handed st' k j.
Proof. intros Hk Hj Hx Hc [Ht Hs]. split; [by apply (kp_there _ _ _ _ Hk)|]. intros Hne. apply (kp_stopped _ _ _ _ Hk); auto. Qed.

Lemma keeps_none x ct st st' j : keeps x ct st st' -> 1 <= j -> j <> x -> slot (threads st) j = None -> slot (threads st') j = None.
Proof. intros Hk Hj Hx. rewrite !eq_None_not_Some. intros Hn Hs. apply Hn. by apply (kp_there _ _ _ _ Hk j). Qed.

Lemma call_ok_frame w w' x k c : call_ok w k c -> keeps x (thread_cleaner_tid w) (ktasks w) (ktasks w') -> k_tid c <> x ->
  thread_cleaner_tid w' = thread_cleaner_tid w -> kdatas w' !! k = kdatas w !! k ->
  (posted (k_at c) -> kdatas w !! k = Some (mk_thkill (k_tid c) k false) -> thkill_data w = Some k ->
     thkill_data w' = Some k /\ (cleaner_at w = Finishing k false -> cleaner_at w' = Finishing k false)) ->
  call_ok w' k c.
Proof.
  intros (H1 & H2 & H3 & H) Hk Hx Hct Hd Hm. unfold call_ok. rewrite Hct, Hd. do 3 (split; [done|]). unfold posted in Hm.
  destruct (k_at c) as [| | | | | |[|]|]; try done.
  - destruct H as [Ht ?]. split; [by apply (kp_there _ _ _ _ Hk)|done].
  - destruct H as [Ht ?]. split; [by apply (kp_there _ _ _ _ Hk)|done].
  - by apply (kp_off _ _ _ _ Hk).
  - by apply (kp_stopped _ _ _ _ Hk).
  - destruct H as [? Ha]. split; [done|]. by eapply keeps_handed.
  - destruct H as [[? ?]|(? & ? & H)]; [left; split; [done|by eapply keeps_none]|right]. destruct Hm as [? Hf]; auto. split; [done|]. split; [done|].
    destruct H as [Ha|?]; [left; by eapply keeps_handed|right; auto].
  - destruct H as [? Ha]. split; [done|]. by eapply keeps_handed.
  - destruct H as [[? ?]|(? & ? & H)]; [left; split; [done|by eapply keeps_none]|right]. destruct Hm as [? Hf]; auto. split; [done|]. split; [done|].
    destruct H as [Ha|?]; [left; by eapply keeps_handed|right; auto].
Qed.

Lemma pending_tid w r tid : kinv w -> pending w r tid -> r <> thread_cleaner_tid w /\ tid <> thread_cleaner_tid w /\ 1 <= tid.
Proof. intros Hi (_ & _ & p & Hc & _). by destruct (ki_call w Hi _ _ Hc) as (? & ? & ? & _). Qed.

Lemma cleaner_ok_frame w w' x : kinv w -> keeps x (thread_cleaner_tid w) (ktasks w) (ktasks w') ->
  (forall r tid, pending w r tid -> pending w' r tid /\ tid <> x) -> (forall r, settled w r -> settled w' r) ->
  thkill_data w' = thkill_data w -> cleaner_at w' = cleaner_at w -> cleaner_ok w'.
Proof.
  intros Hi Hk Hp Hs Hm Hc. pose proof (ki_clean w Hi) as H. unfold cleaner_ok in *. rewrite Hc, ?Hm.
  assert (forall r tid, pending w r tid -> pending w' r tid /\ tid <> x /\ tid <> thread_cleaner_tid w /\ 1 <= tid) as Hp'.
  { intros r tid Hr. destruct (Hp r tid Hr), (pending_tid w r tid Hi Hr) as (_ & ? & ?). done. }
  destruct (cleaner_at w) as [| | |r|r f|r f|r f s|r [|]|r].
  - intros r Hr. destruct (H r Hr) as [tid Hr']. exists tid. by apply Hp.
  - intros r Hr. destruct (H r Hr) as [tid Hr']. exists tid. by apply Hp.
  - intros r Hr. destruct (H r Hr) as [tid Hr']. exists tid. by apply Hp.
  - destruct H as [tid Hr']. exists tid. by apply Hp.
  - destruct H as [? Hr']. split; [done|]. by apply Hp.
  - destruct H as (? & Hr' & Ho). destruct (Hp' _ _ Hr') as (? & ? & ? & ?). split; [done|]. split; [done|]. by apply (kp_off _ _ _ _ Hk).
  - destruct H as (? & tid & Hr' & ? & Ho). destruct (Hp' _ _ Hr') as (? & ? & ? & ?). split; [done|]. exists tid. split; [done|]. split; [done|]. by apply (kp_stopped _ _ _ _ Hk).
  - destruct H. split; [done|auto].
  - destruct H as (tid & Hr' & Ho). destruct (Hp' _ _ Hr') as (? & ? & ? & ?). exists tid. split; [done|]. by eapply keeps_none.
  - destruct H. split; [done|auto].
Qed.

(** The calls are those of [w], whatever their places. *)
Definition same_targets (w : kworld) (cs : gmap Z kcall) : Prop :=
  forall k c, cs !! k = Some c -> exists c0, kcalls w !! k = Some c0 /\ k_tid c0 = k_tid c.

Lemma same_insert w me tid p p' : kcalls w !! me = Some (mk_kcall tid p) -> same_targets w (<[me := mk_kcall tid p']> (kcalls w)).
Proof. intros Hme k c. destruct (decide (k = me)) as [->|Hne]; [rewrite lookup_insert_eq; intros [= <-]; eauto|rewrite lookup_insert_ne by done; eauto]. Qed.

Lemma same_delete w me : same_targets w (delete me (kcalls w)).
Proof. intros k c [_ H]%lookup_delete_Some. eauto. Qed.

Lemma targets_apart w cs : kinv w -> same_targets w cs ->
  forall k1 c1 k2 c2, cs !! k1 = Some c1 -> cs !! k2 = Some c2 -> k_tid c1 = k_tid c2 -> k1 = k2.
Proof.
  intros Hi Hs k1 c1 k2 c2 H1 H2 E. destruct (Hs _ _ H1) as (d1 & E1 & E1'), (Hs _ _ H2) as (d2 & E2 & E2').
  apply (ki_once w Hi k1 d1 k2 d2); congruence.
Qed.

(** A step of [me] inside its call, away from the mailbox. *)
Lemma inv_local w w' me tid p p' : kinv w -> kcalls w !! me = Some (mk_kcall tid p) -> ~ posted p -> ~ posted p' ->
  thread_cleaner_tid w' = thread_cleaner_tid w -> cleaner_at w' = cleaner_at w -> thkill_data w' = thkill_data w ->
  kcalls w' = <[me := mk_kcall tid p']> (kcalls w) -> (forall r, r <> me -> kdatas w' !! r = kdatas w !! r) ->
  keeps tid (thread_cleaner_tid w) (ktasks w) (ktasks w') -> lists_ok (procs (kk w')) -> call_ok w' me (mk_kcall tid p') -> kinv w'.
Proof.
  intros Hi Hme Hp Hp' Hct Hca Hm Hcs Hd Hk Hls Hok.
  assert (same_targets w (kcalls w')) as Hst by (rewrite Hcs; by eapply same_insert). pose proof (targets_apart w _ Hi Hst) as Ho.
  split.
  - done.
  - apply Hk.
  - apply Hk.
  - rewrite Hct. apply Hi.
  - rewrite Hct. apply (kp_alive _ _ _ _ Hk). apply Hi.
  - exact Ho.
  - intros k c. rewrite Hcs. destruct (decide (k = me)) as [->|Hne]; [rewrite lookup_insert_eq; by intros [= <-]|rewrite lookup_insert_ne by done].
    intros Hc. apply (call_ok_frame w w' tid); [by apply Hi|done| |done|by apply Hd|rewrite Hm, Hca; done].
    intros E. apply Hne. apply (ki_once w Hi k c me (mk_kcall tid p)); done.
  - apply (cleaner_ok_frame w w' tid); [done|done| | |done|done].
    + intros r t (H1 & H2 & q & H3 & H4). assert (r <> me) as Hne by (intros ->; rewrite Hme in H3; injection H3 as <- <-; done).
      split; [|intros ->; apply Hne; by apply (ki_once w Hi _ _ _ _ H3 Hme)]. split; [by rewrite Hm|]. split; [by rewrite Hd|].
      exists q. by rewrite Hcs, lookup_insert_ne by done.
    + intros r Hs c. rewrite Hcs. destruct (decide (r = me)) as [->|Hne]; [rewrite lookup_insert_eq; by intros [= <-]|].
      rewrite lookup_insert_ne, Hd by done. apply Hs.
Qed.

(** The threads change, and nothing else. *)
Lemma inv_threads w st x : kinv w -> keeps x (thread_cleaner_tid w) (ktasks w) st -> (forall k c, kcalls w !! k = Some c -> k_tid c <> x) -> kinv (set_st w st).
Proof.
  intros Hi Hk Hx. split; [apply Hi|apply Hk|apply Hk|apply Hi|exact (kp_alive _ _ _ _ Hk (ki_alive w Hi))|apply Hi| |].
  - intros k c Hc. apply (call_ok_frame w (set_st w st) x); [by apply Hi|exact Hk|by eapply Hx|done..].
  - apply (cleaner_ok_frame w (set_st w st) x); [done|exact Hk| |done..]. intros r tid (? & ? & p & Hc & ?). split; [split; eauto|]. by apply (Hx r _ Hc).
Qed.

Lemma inv_tick w st ms : kinv w -> task_shed_choose (ktasks w) ms = Ok st -> kinv (set_st w st).
Proof. intros Hi E. apply (inv_threads w st 0); [done|eapply keeps_tick; [apply Hi|apply Hi|done]|]. intros k c Hc. destruct (ki_call w Hi k c Hc) as (_ & _ & ? & _). lia. Qed.

(** ** Each step *)

(** The threads that nobody asked to kill are still there. *)
Definition spares (w w' : kworld) : Prop :=
  forall j, 1 <= j -> (forall k c, kcalls w !! k = Some c -> k_tid c <> j) -> there (ktasks w) j -> there (ktasks w') j.
Definition kgood (w w' : kworld) : Prop := kinv w' /\ spares w w'.

Lemma spares_same w w' : ktasks w' = ktasks w -> spares w w'.
Proof. intros E j _ _. by rewrite E. Qed.
Lemma spares_upd w w' x t o : slot (threads (ktasks w)) x = Some t -> ktasks w' = upd (ktasks w) x o ->
  (o = None -> exists k c, kcalls w !! k = Some c /\ k_tid c = x) -> spares w w'.
Proof.
  intros Hs E Ho j _ Hj. rewrite E. unfold there. rewrite (slot_upd _ _ _ _ _ Hs). case_decide as Hd; [|done]. subst j.
  destruct o as [t'|]; [eauto|]. destruct (Ho eq_refl) as (k & c & Hk & Hc). by destruct (Hj k c Hk).
Qed.
Lemma spares_keeps w w' x ct : keeps x ct (ktasks w) (ktasks w') -> (1 <= x -> exists k c, kcalls w !! k = Some c /\ k_tid c = x) -> spares w w'.
Proof.
  intros Hk Hx j Hj Hno Ht. apply (kp_there _ _ _ _ Hk); [done| |done]. intros ->. destruct (Hx Hj) as (k & c & Hkc & Hc). by destruct (Hno k c Hkc).
Qed.
Lemma spares_trans w1 w2 w3 : spares w1 w2 -> spares w2 w3 -> same_targets w1 (kcalls w2) -> spares w1 w3.
Proof.
  intros H1 H2 Hs j Hj Hno Ht. apply H2; [done| |by apply H1]. intros k c Hk. destruct (Hs k c Hk) as (c0 & Hc & <-). by apply (Hno k c0).
Qed.


Lemma set_st_id w : set_st w (ktasks w) = w.
Proof. destruct w as [[]]. done. Qed.

Lemma yield_ok ms w : kinv w -> exists st, yield ms w = Ok (set_st w st) /\ kgood w (set_st w st).
Proof.
  intros Hi. unfold yield. assert (task_tyield (ktasks w) = Ok (task_reshed (ktasks w))) as ->.
  { unfold task_tyield. destruct (ki_sched w Hi) as (_ & _ & _ & -> & _). done. }
  cbn [mbind res_bind]. destruct (shed_choose_cases (task_reshed (ktasks w)) ms (ki_sched w Hi)) as (st & E & _). rewrite E. cbn [mbind res_bind].
  assert (keeps 0 (thread_cleaner_tid w) (ktasks w) st) as Hk.
  { destruct (keeps_tick 0 (thread_cleaner_tid w) (task_reshed (ktasks w)) st ms) as [? ? ? ? ? ?]; [apply Hi|apply Hi|done|by split]. }
  exists st. split; [done|]. split; [|apply (spares_keeps w (set_st w st) 0 _ Hk); lia]. apply (inv_threads w st 0 Hi Hk).
  - intros k c Hc. destruct (ki_call w Hi k c Hc) as (_ & _ & ? & _). lia.
Qed.

Lemma tset_ok st tid s : calm st -> 0 <= tid -> task_tset_status st tid s =
  Ok (match slot (threads st) tid with Some t => upd st tid (Some (set_status t s)) | None => st end).
Proof. intros Hc Ht. unfold task_tset_status. rewrite with_thread_ok by done. by destruct (slot (threads st) tid). Qed.

Lemma request_ok w st ts me tid t : calm st -> lists_ok (procs (kk w)) -> ktasks w = set_threads (locked SHEDULER_LOCK st) ts -> slot ts tid = Some t ->
  exists ps, unlist (procs (kk w)) (tprocess t) tid = Ok ps /\ lists_ok ps /\
    request w me tid = Ok (goto (set_datas (set_kk w (set_tasks (set_procs (kk w) ps) (set_threads st ts))) (<[me := mk_thkill tid me false]> (kdatas w))) me tid Posting).
Proof.
  intros [Hl Hc] Hls Est Hs. destruct (unlist_ok (procs (kk w)) (tprocess t) tid Hls) as (ps & E & Hok & _). exists ps. split; [done|]. split; [done|].
  unfold request, deref. rewrite Est. cbn [threads set_threads]. rewrite Hs. cbn [res_of_option mbind res_bind]. rewrite E. cbn [mbind res_bind]. by rewrite release_ok.
Qed.

Lemma inv_return w me c : kinv w -> kcalls w !! me = Some c -> (posted (k_at c) -> kdatas w !! me = Some (mk_thkill (k_tid c) me true)) -> kinv (returned w me).
Proof.
  intros Hi Hme Hp. pose proof (targets_apart w _ Hi (same_delete w me)) as Ho. assert (forall k c0, delete me (kcalls w) !! k = Some c0 -> k <> me /\ kcalls w !! k = Some c0) as Hd.
  { intros k c0 H. by apply lookup_delete_Some in H as [? ?]. }
  split; [apply Hi..| | |].
  - exact Ho.
  - intros k c0 [Hne Hk]%Hd. apply (call_ok_frame w (returned w me) 0); [by apply Hi|apply keeps_same; apply Hi| |done|by apply lookup_delete_ne|done].
    destruct (ki_call w Hi _ _ Hk) as (_ & _ & ? & _). lia.
  - apply (cleaner_ok_frame w (returned w me) 0); [done|apply keeps_same; apply Hi| | |done|done].
    + intros r tid Hr. pose proof (pending_tid w r tid Hi Hr) as (_ & _ & ?). split; [|lia]. destruct Hr as (H1 & H2 & q & H3 & H4).
      assert (me <> r) as Hne. { intros ->. rewrite Hme in H3. injection H3 as ->. specialize (Hp H4). rewrite Hp in H2. done. }
      split; [done|]. split; [by cbn; rewrite lookup_delete_ne|]. exists q. by cbn; rewrite lookup_delete_ne.
    + intros r Hs c0 [Hne Hk]%Hd Hq. cbn. rewrite lookup_delete_ne by done. by apply Hs.
Qed.

(** The request goes into the empty mailbox. *)
Lemma inv_post w me tid : kinv w -> kcalls w !! me = Some (mk_kcall tid Posting) -> thkill_data w = None ->
  kinv (goto (set_mail w (Some me)) me tid (Waking true)).
Proof.
  intros Hi Hme Hm. pose proof (targets_apart w _ Hi (same_insert w me tid _ (Waking true) Hme)) as Ho.
  destruct (ki_call w Hi _ _ Hme) as (H1 & H2 & H3 & Hd & Hh). cbn [k_tid k_at] in *.
  assert (pending (goto (set_mail w (Some me)) me tid (Waking true)) me tid) as Hpd.
  { split; [done|]. split; [done|]. exists (Waking true). split; [apply lookup_insert_eq|by left]. }
  split; [apply Hi..| | |].
  - exact Ho.
  - intros k c. cbn [goto set_calls set_mail kcalls]. destruct (decide (k = me)) as [->|Hne]; [rewrite lookup_insert_eq; intros [= <-]|rewrite lookup_insert_ne by done].
    + do 3 (split; [done|]). right. split; [done|]. split; [done|]. by left.
    + intros Hk. apply (call_ok_frame w _ 0); [by apply Hi|apply keeps_same; apply Hi| |done|done|by rewrite Hm].
      destruct (ki_call w Hi _ _ Hk) as (_ & _ & ? & _). lia.
  - pose proof (ki_clean w Hi) as Hc. unfold cleaner_ok in *. cbn [goto set_calls set_mail cleaner_at thkill_data] in *.
    assert (forall r t, ~ pending w r t) as Hno by (intros r t (E & _); congruence).
    destruct (cleaner_at w) as [| | |r|r f|r f|r f s|r [|]|r].
    1,2,3: intros r [= <-]; by exists tid.
    all: exfalso; naive_solver congruence.
Qed.

Lemma inv_await w me tid : kinv w -> kcalls w !! me = Some (mk_kcall tid (Waking true)) -> kinv (goto w me tid Awaiting).
Proof.
  intros Hi Hme. pose proof (targets_apart w _ Hi (same_insert w me tid _ Awaiting Hme)) as Ho.
  pose proof (ki_call w Hi _ _ Hme) as Hok.
  split; [apply Hi..| | |].
  - exact Ho.
  - intros k c. cbn [goto set_calls kcalls]. destruct (decide (k = me)) as [->|Hne]; [rewrite lookup_insert_eq; by intros [= <-]|rewrite lookup_insert_ne by done].
    intros Hk. apply (call_ok_frame w _ 0); [by apply Hi|apply keeps_same; apply Hi| |done|done|done].
    destruct (ki_call w Hi _ _ Hk) as (_ & _ & ? & _). lia.
  - apply (cleaner_ok_frame w _ 0); [done|apply keeps_same; apply Hi| | |done|done].
    + intros r t Hr. pose proof (pending_tid w r t Hi Hr) as (_ & _ & ?). split; [|lia]. destruct Hr as (E1 & E2 & q & E3 & E4). split; [done|]. split; [done|].
      cbn. destruct (decide (r = me)) as [->|Hne]; [|exists q; by rewrite lookup_insert_ne by done].
      rewrite Hme in E3. injection E3 as <- <-. exists Awaiting. split; [apply lookup_insert_eq|by right].
    + intros r Hs c. cbn. destruct (decide (r = me)) as [->|Hne]; [|rewrite lookup_insert_ne by done; apply Hs].
      rewrite lookup_insert_eq. intros [= <-] _. apply (Hs _ Hme). by left.
Qed.

(** *** The caller *)

(** The thread of the call is changed and the call goes on. *)
Lemma inv_touch w me tid p p' o t : kinv w -> kcalls w !! me = Some (mk_kcall tid p) -> ~ posted p -> ~ posted p' -> slot (threads (ktasks w)) tid = Some t ->
  (forall t', o = Some t' -> running t' = true -> tid = current_tid (cpu (ktasks w)) \/ status t' = DEAD) ->
  call_ok (goto (set_st w (upd (ktasks w) tid o)) me tid p') me (mk_kcall tid p') -> kinv (goto (set_st w (upd (ktasks w) tid o)) me tid p').
Proof.
  intros Hi Hme Hp Hp' Hs Ho Hok. destruct (ki_call w Hi _ _ Hme) as (_ & Hct & _).
  eapply (inv_local w _ me tid p p'); try done; [|apply Hi]. eapply (keeps_upd _ (ktasks w)); [apply Hi|apply Hi|exact Hs|exact Ho|done].
Qed.

Lemma inv_goto w me tid p p' : kinv w -> kcalls w !! me = Some (mk_kcall tid p) -> ~ posted p -> ~ posted p' ->
  call_ok (goto w me tid p') me (mk_kcall tid p') -> kinv (goto w me tid p').
Proof. intros Hi Hme Hp Hp' Hok. eapply (inv_local w _ me tid p p'); try done; [apply keeps_same; apply Hi|apply Hi]. Qed.

Lemma not_posted p : p <> Waking true -> p <> Awaiting -> ~ posted p.
Proof. by intros ? ? []. Qed.
Hint Resolve not_posted : core.

Lemma locked_same st : set_threads (locked SHEDULER_LOCK st) (threads st) = locked SHEDULER_LOCK st.
Proof. destruct (locked_threads SHEDULER_LOCK st) as (<- & _). apply set_threads_id. Qed.

(** The request is made: the thread is about to be posted. *)
Lemma inv_request w me tid p ts t : kinv w -> kcalls w !! me = Some (mk_kcall tid p) -> ~ posted p -> slot ts tid = Some t ->
  keeps tid (thread_cleaner_tid w) (ktasks w) (set_threads (ktasks w) ts) -> handed (set_threads (ktasks w) ts) me tid ->
  exists w', request (set_st w (set_threads (locked SHEDULER_LOCK (ktasks w)) ts)) me tid = Ok w' /\ kgood w w'.
Proof.
  intros Hi Hme Hp Hs Hk Hh. destruct (request_ok (set_st w (set_threads (locked SHEDULER_LOCK (ktasks w)) ts)) (ktasks w) ts me tid t) as (ps & _ & Hls & ->); try done; [apply Hi..|].
  eexists. split; [done|]. split; [|eapply (spares_keeps w _ tid); [exact Hk|by eauto]]. destruct (ki_call w Hi _ _ Hme) as (H1 & H2 & H3 & _).
  eapply (inv_local w _ me tid p Posting); try done; [by apply not_posted| |].
  - intros r Hr. cbn. by rewrite lookup_insert_ne.
  - do 3 (split; [done|]). split; [apply lookup_insert_eq|done].
Qed.

Lemma call_exec ms w c : kinv w -> kcalls w !! current_tid (cpu (ktasks w)) = Some c ->
  exists w', call_step ms w (current_tid (cpu (ktasks w))) c = Ok w' /\ kgood w w'.
Proof.
  intros Hi Hme. set (me := current_tid _) in *. set (st := ktasks w) in *. destruct c as [tid p]. pose proof (ki_call w Hi _ _ Hme) as (H1 & H2 & H3 & H).
  pose proof (ki_calm w Hi) as Hcalm. pose proof Hcalm as [Hlk Hsr]. pose proof (ki_sched w Hi) as Hsc. cbn [k_tid k_at] in *.
  assert (forall t, slot (threads st) tid = Some t -> running t = true -> tid = me \/ status t = DEAD) as Hrun by (intros; by apply Hsc).
  destruct (locked_threads SHEDULER_LOCK st) as (Elt & _). unfold call_step. cbn [k_tid k_at]. fold st. fold st in H.
  destruct p as [| | | | | |mine|].
  - rewrite acquire_ok by done. cbn [mbind res_bind]. rewrite Elt, thread_get_slot by lia. cbn [mbind res_bind]. destruct (slot (threads st) tid) as [t|] eqn:Es.
    + set (t' := if bool_decide _ then _ else _). pose proof (slot_range _ _ _ Es) as Hr. rewrite store_in_range by done. cbn [mbind res_bind].
      assert (forall t0, Some t' = Some t0 -> running t0 = true -> tid = me \/ status t0 = DEAD) as Hrun'.
      { intros t0 [= <-]. unfold t'. intros Hr'. case_bool_decide as Hd; [by right|]. cbn in Hr'. destruct (Hrun _ eq_refl Hr') as [?|?]; [by left|by destruct Hd]. }
      destruct (Z.eqb_spec tid me) as [->|Hne]; cbn [negb].
      * apply (inv_request w me me Entered _ t'); [done|done|by apply not_posted| | |]; fold st.
        -- by apply (slot_upd_eq st me (Some t') t).
        -- eapply (keeps_upd _ st me (Some t')); [done|done|exact Es|exact Hrun'|done].
        -- split; [|done]. exists t'. by apply (slot_upd_eq st me (Some t') t).
      * rewrite release_ok by done. cbn [mbind res_bind]. eexists. split; [done|]. split; [|by eapply (spares_upd w _ tid t)].
        apply (inv_touch w me tid Entered Idling (Some t') t); try done; [by apply not_posted..|]. do 3 (split; [done|]). split; [|done].
        exists t'. by apply (slot_upd_eq st tid (Some t') t).
    + pose proof (release_ok SHEDULER_LOCK st (threads st) Hlk Hsr) as E. rewrite locked_same, set_threads_id in E. rewrite E. cbn [mbind res_bind].
      eexists. split; [done|]. unfold st. rewrite set_st_id. split; [|by apply spares_same]. apply (inv_return w me (mk_kcall tid Entered)); [done|done|]. by intros [].
  - destruct H as [[t Es] Hne]. unfold deref. rewrite Es. cbn [res_of_option mbind res_bind]. destruct (busy t >? 0).
    + destruct (yield_ok ms w Hi) as (st' & -> & Hi'). eauto.
    + eexists. split; [done|]. split; [|by apply spares_same]. apply (inv_goto w me tid Idling Marking); [done|done|by apply not_posted..|]. do 3 (split; [done|]). split; [by exists t|done].
  - destruct H as [[t Es] Hne]. rewrite tset_ok by (done || lia). rewrite Es. cbn [mbind res_bind]. eexists. split; [done|]. split; [|by eapply (spares_upd w _ tid t)].
    apply (inv_touch w me tid Marking Taking (Some (set_status t DEAD)) t); try done; [by apply not_posted..| |].
    + intros t' [= <-] _. by right.
    + do 3 (split; [done|]). exists (set_status t DEAD). split; [by apply (slot_upd_eq st tid (Some (set_status t DEAD)) t)|done].
  - destruct H as (t & Es & Hd & Hne). unfold deref. rewrite Es. cbn [res_of_option mbind res_bind]. unfold thread_try_take.
    destruct (running t) eqn:Er; (rewrite store_in_range by (by eapply slot_range)); cbn [mbind res_bind]; eexists; (split; [done|]); (split; [|by eapply (spares_upd w _ tid t)]).
    + apply (inv_touch w me tid Taking Taking (Some t) t); try done; [by apply not_posted..|intros ? [= <-]; by right|].
      do 3 (split; [done|]). exists t. split; [by apply (slot_upd_eq st tid (Some t) t)|done].
    + apply (inv_touch w me tid Taking Unlisting (Some (set_running t true)) t); try done; [by apply not_posted..|intros ? [= <-]; by right|].
      do 3 (split; [done|]). exists (set_running t true). split; [by apply (slot_upd_eq st tid (Some (set_running t true)) t)|done].
  - rewrite acquire_ok by done. cbn [mbind res_bind]. rewrite <- locked_same. destruct H as (t & Es & ?). apply (inv_request w me tid Unlisting (threads st) t); [done|done|by apply not_posted|done| |]; fold st; rewrite set_threads_id.
    + by apply keeps_same.
    + split; [by exists t|]. intros _. by exists t.
  - destruct (thkill_data w) eqn:Em; (eexists; split; [done|]; split; [|by apply spares_same]).
    + apply (inv_goto w me tid Posting (Waking false)); [done|done|by apply not_posted..|]. by do 3 (split; [done|]).
    + by apply inv_post.
  - rewrite tset_ok by (done || (pose proof (ki_cleaner w Hi); lia)). cbn [mbind res_bind]. set (st1 := match slot _ _ with Some _ => _ | None => _ end).
    assert (spares w (set_st w st1)) as Hsp.
    { unfold st1. destruct (slot (threads st) (thread_cleaner_tid w)) as [t|] eqn:Es; [by eapply (spares_upd w _ _ t)|by apply spares_same]. }
    assert (kinv (set_st w st1)) as Hi1.
    { unfold st1. destruct (slot (threads st) (thread_cleaner_tid w)) as [t|] eqn:Es; [|unfold st; by rewrite set_st_id].
      apply (inv_threads w _ (thread_cleaner_tid w) Hi); [|intros k c Hk; by apply (ki_call w Hi k c)].
      eapply (keeps_upd _ (ktasks w)); [done|done|exact Es| |by intros ? _ [= <-]]. intros t' [= <-] Hr. cbn in Hr. left.
      destruct Hsc as (_ & _ & _ & _ & _ & Hx). destruct (Hx _ _ Es Hr) as [?|Hd]; [done|]. by destruct (ki_alive w Hi t Es). }
    destruct mine.
    + eexists. split; [done|]. split; [apply (inv_await (set_st w st1) me tid Hi1 Hme)|exact Hsp].
    + assert (kinv (goto (set_st w st1) me tid Posting)) as Hi2.
      { apply (inv_goto (set_st w st1) me tid (Waking false) Posting Hi1 Hme); [by apply not_posted..|]. do 3 (split; [done|]).
        by destruct (ki_call _ Hi1 me _ Hme) as (_ & _ & _ & Hx). }
      destruct (yield_ok ms _ Hi2) as (st' & -> & Hi' & Hsp'). eexists. split; [done|]. split; [done|]. apply (spares_trans w (goto (set_st w st1) me tid Posting) _ Hsp Hsp'). by apply (same_insert w me tid (Waking false)).
  - destruct (yield_ok ms w Hi) as (st' & Ey & Hi'). destruct (Z.eqb_spec tid me) as [->|Hne]; [eauto|]. destruct H as [[Hd Hn]|(Hd & _)]; rewrite Hd; cbn [res_of_option mbind res_bind kd_done negb]; [|eauto].
    eexists. split; [done|]. split; [|by apply spares_same]. by apply (inv_return w me (mk_kcall tid Awaiting)).
Qed.

(** *** The cleaner *)

Definition busy_place (w : kworld) : Prop := forall k, cleaner_at w <> Finishing k false.

(** The cleaner goes on, and changes one thread perhaps; [r] asked for its own end if it does. *)
Lemma inv_cleaner w st x y : kinv w -> busy_place w -> keeps x (thread_cleaner_tid w) (ktasks w) st ->
  (forall k c, kcalls w !! k = Some c -> k_tid c = x -> k = x /\ posted (k_at c) /\ kdatas w !! x = Some (mk_thkill x x false) /\ there st x) ->
  cleaner_ok (set_cleaner (set_st w st) y) -> kinv (set_cleaner (set_st w st) y).
Proof.
  intros Hi Hb Hk Hx Hc. split; [apply Hi|apply Hk|apply Hk|apply Hi|exact (kp_alive _ _ _ _ Hk (ki_alive w Hi))|apply Hi| |done].
  intros k c Hkc. pose proof (ki_call w Hi k c Hkc) as Hok. destruct (decide (k_tid c = x)) as [E|Hne].
  - destruct (Hx k c Hkc E) as (-> & Hp & Hd & Ht). destruct Hok as (H1 & H2 & H3 & H). unfold call_ok.
    do 3 (split; [done|]). rewrite E in *. assert (handed st x x) as Hh by (split; [done|by intros []]).
    destruct Hp as [Ep|Ep]; rewrite Ep in *; (destruct H as [[E1 _]|(_ & Hm & _)]; [congruence|]); right; (split; [done|]); (split; [done|]); by left.
  - apply (call_ok_frame w _ x); try done. intros _ _ Hm. split; [done|]. intros Hf. by destruct (Hb k).
Qed.

Lemma inv_place w y : kinv w -> busy_place w -> cleaner_ok (set_cleaner w y) -> kinv (set_cleaner w y).
Proof.
  intros Hi Hb Hc. rewrite <- (set_st_id w) in *. cbn [ktasks kk set_st set_kk tasks set_tasks] in *.
  apply (inv_cleaner _ (ktasks w) 0 y); [by rewrite set_st_id in *|done|apply keeps_same; rewrite set_st_id in Hi; apply Hi| |done].
  intros k c Hk E. rewrite set_st_id in *. destruct (ki_call w Hi k c Hk) as (_ & _ & ? & _). lia.
Qed.

(** The thread that asked for its own end is changed. *)
Lemma inv_suicide w r t t' y : kinv w -> busy_place w -> pending w r r -> slot (threads (ktasks w)) r = Some t ->
  (running t' = true -> r = current_tid (cpu (ktasks w)) \/ status t' = DEAD) ->
  cleaner_ok (set_cleaner (set_st w (upd (ktasks w) r (Some t'))) y) -> kinv (set_cleaner (set_st w (upd (ktasks w) r (Some t'))) y).
Proof.
  intros Hi Hb Hp Hs Hr Hc. pose proof (pending_tid w r r Hi Hp) as (_ & Hct & _). destruct Hp as (Hm & Hd & p & Hpc & Hpp).
  apply (inv_cleaner w _ r); [done|done| | |done].
  - eapply (keeps_upd _ (ktasks w)); [apply Hi|apply Hi|exact Hs|by intros ? [= <-]|done].
  - intros k c Hk E. assert (k = r) as -> by (by apply (ki_once w Hi k c r (mk_kcall r p))). split; [done|]. rewrite Hpc in Hk. injection Hk as <-.
    split; [done|]. split; [done|]. exists t'. by apply (slot_upd_eq (ktasks w) r (Some t') t).
Qed.

(** The thread is taken out of the array. *)
Lemma inv_removed w r tid t : kinv w -> busy_place w -> pending w r tid -> slot (threads (ktasks w)) tid = Some t ->
  kinv (set_cleaner (returned (set_st w (upd (ktasks w) tid None)) tid) (Finishing r (tid =? r))).
Proof.
  intros Hi Hb Hp Hs. pose proof (pending_tid w r tid Hi Hp) as (_ & Hct & _). destruct Hp as (Hm & Hd & p & Hpc & Hpp).
  set (w' := set_cleaner _ _). pose proof (targets_apart w _ Hi (same_delete w tid)) as Ho.
  assert (keeps tid (thread_cleaner_tid w) (ktasks w) (ktasks w')) as Hk by (eapply (keeps_upd _ (ktasks w)); [apply Hi|apply Hi|exact Hs|done..]).
  assert (slot (threads (ktasks w')) tid = None) as Hnone by (by apply (slot_upd_eq (ktasks w) tid None t)).
  split; [apply Hi|apply Hk|apply Hk|apply Hi|exact (kp_alive _ _ _ _ Hk (ki_alive w Hi))|exact Ho| |].
  - intros k c Hkc. change (delete tid (kcalls w) !! k = Some c) in Hkc. apply lookup_delete_Some in Hkc as [Hne Hkc]. pose proof (ki_call w Hi k c Hkc) as Hok.
    assert (kdatas w' !! k = kdatas w !! k) as Hdk by (by apply lookup_delete_ne).
    destruct (decide (k_tid c = tid)) as [E|Hne'].
    + assert (k = r) as -> by (by apply (ki_once w Hi k c r (mk_kcall tid p))). rewrite Hpc in Hkc. injection Hkc as <-.
      destruct Hok as (H1 & H2 & H3 & _). do 3 (split; [done|]). unfold call_ok. cbn [k_at k_tid] in *. rewrite Hdk. assert (cleaner_at w' = Finishing r false) as Hf.
      { cbn. by destruct (Z.eqb_spec tid r) as [Heq|]; [destruct Hne|]. }
      destruct Hpp as [-> | ->]; right; (split; [done|]); (split; [done|]); by right.
    + apply (call_ok_frame w w' tid); try done. intros _ _ Hmk. split; [done|]. intros Hf. by destruct (Hb k).
  - unfold cleaner_ok. cbn [w' set_cleaner cleaner_at]. fold w'. destruct (Z.eqb_spec tid r) as [->|Hne].
    + split; [done|]. intros c Hc. change (delete r (kcalls w) !! r = Some c) in Hc. by apply lookup_delete_Some in Hc as [? _].
    + exists tid. split; [|done]. split; [done|]. split; [by cbn; rewrite lookup_delete_ne|]. exists p. split; [by cbn; rewrite lookup_delete_ne|done].
Qed.

(** The thread that asked is told. *)
Lemma inv_done w r tid : kinv w -> cleaner_at w = Finishing r false -> pending w r tid -> slot (threads (ktasks w)) tid = None ->
  kinv (set_cleaner (set_datas w (<[r := mk_thkill tid r true]> (kdatas w))) (Resetting r)).
Proof.
  intros Hi Hf (Hm & Hd & p & Hpc & Hpp) Hs. set (w' := set_cleaner _ _). split; [apply Hi..| |].
  - intros k c Hkc. pose proof (ki_call w Hi k c Hkc) as Hok. destruct (decide (k = r)) as [->|Hne].
    + change (kcalls w !! r = Some c) in Hkc. rewrite Hpc in Hkc. injection Hkc as <-. destruct Hok as (H1 & H2 & H3 & _). do 3 (split; [done|]).
      unfold call_ok. cbn [k_at k_tid] in *. assert (kdatas w' !! r = Some (mk_thkill tid r true)) as -> by apply lookup_insert_eq. destruct Hpp as [-> | ->]; by left.
    + apply (call_ok_frame w w' 0); [done|apply keeps_same; apply Hi| |done|by apply lookup_insert_ne|].
      * destruct Hok as (_ & _ & ? & _). lia.
      * intros _ _ Hmk. rewrite Hm in Hmk. by injection Hmk.
  - split; [done|]. intros c Hkc _. change (kcalls w !! r = Some c) in Hkc. rewrite Hpc in Hkc. injection Hkc as <-. apply lookup_insert_eq.
Qed.

Lemma inv_reset w r : kinv w -> cleaner_at w = Resetting r -> kinv (set_cleaner (set_mail w None) Looking).
Proof.
  intros Hi Hc. pose proof (ki_clean w Hi) as Hok. unfold cleaner_ok in Hok. rewrite Hc in Hok. destruct Hok as [Hm Hs].
  split; [apply Hi..| |done]. intros k c Hk. apply (call_ok_frame w _ 0); [by apply Hi|apply keeps_same; apply Hi| |done|done|].
  - destruct (ki_call w Hi _ _ Hk) as (_ & _ & ? & _). lia.
  - intros Hp Hd Hmk. rewrite Hm in Hmk. injection Hmk as ->. pose proof (Hs c Hk Hp) as E. rewrite E in Hd. done.
Qed.

Lemma cleaner_exec ms w : kinv w -> current_tid (cpu (ktasks w)) = thread_cleaner_tid w ->
  exists w', cleaner_step ms w = Ok w' /\ kgood w w'.
Proof.
  intros Hi Hme. pose proof (ki_calm w Hi) as Hcalm. pose proof Hcalm as [Hlk Hsr]. pose proof (ki_sched w Hi) as Hsc. pose proof (ki_cleaner w Hi) as Hpos.
  pose proof (ki_clean w Hi) as Hc. unfold cleaner_ok in Hc. unfold cleaner_step.
  destruct (cleaner_at w) as [| | |r|r f|r f|r f s|r s|r] eqn:Ea.
  - eexists. split; [done|]. split; [|by apply spares_same]. destruct (thkill_data w) as [r|] eqn:Em; (apply inv_place; [done|by intros k; rewrite Ea|]).
    + by apply Hc.
    + intros r Hr. change (thkill_data w = Some r) in Hr. congruence.
  - rewrite Hme, tset_ok by (done || lia). cbn [mbind res_bind]. eexists. split; [done|].
    destruct (slot (threads (ktasks w)) (thread_cleaner_tid w)) as [t|] eqn:Es.
    + split; [|by eapply (spares_upd w _ _ t)]. apply (inv_cleaner w _ (thread_cleaner_tid w)); [done|by intros k; rewrite Ea| | |exact Hc].
      * eapply (keeps_upd _ (ktasks w)); [done|done|exact Es| |by intros ? _ [= <-]]. intros ? [= <-] _. by left.
      * intros k c Hk E. by destruct (ki_call w Hi k c Hk) as (_ & ? & _).
    + rewrite set_st_id. split; [|by apply spares_same]. apply inv_place; [done|by intros k; rewrite Ea|exact Hc].
  - assert (kinv (set_cleaner w Looking)) as Hi1 by (apply inv_place; [done|by intros k; rewrite Ea|exact Hc]).
    destruct (yield_ok ms _ Hi1) as (st & -> & Hi'). eauto.
  - destruct Hc as (tid & Hp). pose proof (pending_tid w r tid Hi Hp) as (_ & _ & Ht1). pose proof Hp as (Hm & Hd & p & Hpc & Hpp). rewrite Hd. cbn [res_of_option mbind res_bind kd_tid kd_requester].
    assert (there (ktasks w) tid /\ (tid <> r -> stopped (ktasks w) tid)) as [[t Es] Hst].
    { destruct (ki_call w Hi _ _ Hpc) as (_ & _ & _ & H). cbn [k_at k_tid] in H. rewrite Ea in H.
      destruct Hpp as [-> | ->]; (destruct H as [[E _]|(_ & _ & [?|?])]; [congruence|done|done]). }
    rewrite acquire_ok by done. cbn [mbind res_bind]. destruct (locked_threads SHEDULER_LOCK (ktasks w)) as (-> & _). rewrite thread_get_slot by lia. cbn [mbind res_bind]. rewrite Es.
    pose proof (release_ok SHEDULER_LOCK (ktasks w) (threads (ktasks w)) Hlk Hsr) as E. rewrite locked_same, set_threads_id in E. rewrite E. cbn [mbind res_bind]. rewrite set_st_id.
    eexists. split; [done|]. split; [|by apply spares_same]. destruct (Z.eqb_spec tid r) as [->|Hne]; (apply inv_place; [done|by intros k; rewrite Ea|]).
    + done.
    + split; [done|]. exists tid. split; [done|]. split; [by destruct (Z.eqb_spec tid r)|]. by apply Hst.
  - destruct Hc as [-> Hp]. pose proof (pending_tid w r r Hi Hp) as (_ & Hct & Hr1). pose proof Hp as (Hm & Hd & p & Hpc & Hpp). rewrite Hd. cbn [res_of_option mbind res_bind kd_tid].
    assert (there (ktasks w) r) as [t Es].
    { destruct (ki_call w Hi _ _ Hpc) as (_ & _ & _ & H). cbn [k_at k_tid] in H. rewrite Ea in H.
      destruct Hpp as [-> | ->]; (destruct H as [[E _]|(_ & _ & [[? _]|?])]; [congruence|done|done]). }
    rewrite tset_ok by (done || lia). rewrite Es. cbn [mbind res_bind]. eexists. split; [done|]. split; [|by eapply (spares_upd w _ r t)].
    apply (inv_suicide w r t); [done|by intros k; rewrite Ea|done|done|by right|]. split; [done|]. split; [done|].
    exists (set_status t DEAD). split; [by apply (slot_upd_eq (ktasks w) r (Some (set_status t DEAD)) t)|]. split; [done|]. change (r <> current_tid (cpu (ktasks w))). by rewrite Hme.
  - destruct Hc as (-> & Hp & (t & Es & Hdd & Hne)). pose proof Hp as (Hm & Hd & p & Hpc & Hpp). rewrite Hd. cbn [res_of_option mbind res_bind kd_tid]. unfold deref. rewrite Es. cbn [res_of_option mbind res_bind].
    unfold thread_try_take. destruct (running t) eqn:Er; (rewrite store_in_range by (by eapply slot_range)); cbn [mbind res_bind]; eexists; (split; [done|]); (split; [|by eapply (spares_upd w _ r t)]).
    + apply (inv_suicide w r t); [done|by intros k; rewrite Ea|done|done|by right|]. split; [done|]. split; [done|]. exists t. split; [by apply (slot_upd_eq (ktasks w) r (Some t) t)|done].
    + apply (inv_suicide w r t); [done|by intros k; rewrite Ea|done|done|by right|]. split; [done|]. exists r. split; [done|]. split; [by rewrite Z.eqb_refl|].
      exists (set_running t true). split; [by apply (slot_upd_eq (ktasks w) r (Some (set_running t true)) t)|done].
  - destruct Hc as (-> & tid & Hp & -> & (t & Es & _)). pose proof (pending_tid w r tid Hi Hp) as (_ & _ & Ht1). pose proof Hp as (Hm & Hd & _). rewrite Hd. cbn [res_of_option mbind res_bind kd_tid].
    unfold _task_cleanup. rewrite acquire_ok by done. cbn [mbind res_bind]. destruct (locked_threads SHEDULER_LOCK (ktasks w)) as (-> & _).
    unfold thread_remove. pose proof (slot_range _ _ _ Es) as Hr. rewrite Z.geb_leb. destruct (Z.leb_spec (zlen (threads (ktasks w))) tid); [lia|].
    rewrite store_in_range by done. cbn [mbind res_bind]. rewrite release_ok by done. cbn [mbind res_bind]. eexists. split; [done|]. split; [|eapply (spares_upd w _ tid t None); [done|done|]; intros _; destruct Hp as (_ & _ & p & ? & _); by exists r, (mk_kcall tid p)].
    by apply (inv_removed w r tid t Hi); [intros k; rewrite Ea|..].
  - destruct s.
    + cbn [mbind res_bind]. eexists. split; [done|]. split; [|by apply spares_same]. apply inv_place; [done|intros k; by rewrite Ea|exact Hc].
    + destruct Hc as (tid & Hp & Hs). pose proof Hp as (_ & Hd & _). rewrite Hd. cbn [res_of_option mbind res_bind kd_tid kd_requester]. eexists. split; [done|]. split; [by apply inv_done|by apply spares_same].
  - destruct Hc as [Hm _]. rewrite bool_decide_true by done. eexists. split; [done|]. split; [by apply (inv_reset w r)|by apply spares_same].
Qed.

Lemma exec_ok ms w : kinv w -> exists w', kill_step ms w = Ok w' /\ kgood w w'.
Proof.
  intros Hi. unfold kill_step. destruct (Z.eqb_spec (current_tid (cpu (ktasks w))) (thread_cleaner_tid w)); [by apply cleaner_exec|].
  destruct (kcalls w !! _) eqn:E; [by apply call_exec|]. exists w. split; [done|]. split; [done|by apply spares_same].
Qed.

(** ** All steps *)

Lemma inv_call w tid : kinv w -> may_call w (current_tid (cpu (ktasks w))) tid -> kinv (goto w (current_tid (cpu (ktasks w))) tid Entered).
Proof.
  set (me := current_tid _). intros Hi (H1 & H2 & H3 & H4 & H6). set (w' := goto w me tid Entered).
  assert (forall k c, kcalls w' !! k = Some c -> k = me /\ c = mk_kcall tid Entered \/ k <> me /\ kcalls w !! k = Some c) as Hold.
  { intros k c. cbn. destruct (decide (k = me)) as [->|Hne]; [rewrite lookup_insert_eq; intros [= <-]; by left|rewrite lookup_insert_ne by done; by right]. }
  split; [apply Hi..| | |].
  - intros k1 c1 k2 c2 [[-> ->]|[? Hk1]]%Hold [[-> ->]|[? Hk2]]%Hold E; try done; cbn in E.
    + by destruct (H6 k2 c2 Hk2 (eq_sym E)).
    + by destruct (H6 k1 c1 Hk1 E).
    + by apply (ki_once w Hi k1 c1 k2 c2).
  - intros k c [[-> ->]|[? Hk]]%Hold; [done|]. apply (call_ok_frame w w' 0); [by apply Hi|apply keeps_same; apply Hi| |done..].
    destruct (ki_call w Hi k c Hk) as (_ & _ & ? & _). lia.
  - apply (cleaner_ok_frame w w' 0); [done|apply keeps_same; apply Hi| | |done..].
    + intros r t Hr. pose proof (pending_tid w r t Hi Hr) as (_ & _ & ?). split; [|lia]. destruct Hr as (E1 & E2 & q & E3 & E4). split; [done|]. split; [done|].
      exists q. cbn. by rewrite lookup_insert_ne by congruence.
    + intros r Hs c [[-> ->]|[? Hk]]%Hold; [by intros []|by apply Hs].
Qed.

(** The current thread changes itself. *)
Lemma keeps_current ct st t t' : sched_ok st -> calm st -> slot (threads st) (current_tid (cpu st)) = Some t -> current_tid (cpu st) <> ct ->
  keeps 0 ct st (upd st (current_tid (cpu st)) (Some t')).
Proof.
  intros Hs Hc Hsl Hne. destruct (keeps_upd ct st _ (Some t') t Hs Hc Hsl) as [K1 K2 K3 K4 K5 K6]; [by intros; left|done|]. set (cur := current_tid (cpu st)) in *.
  split; [done|done| | | |done].
  - intros j Hj _. destruct (decide (j = cur)) as [->|Hd]; [|by apply K3]. unfold there. rewrite (slot_upd_eq _ _ _ _ Hsl), Hsl. split; eauto.
  - intros j Hj _ Hjc Ho. apply K4; try done. intros ->. by destruct Ho as (? & _ & _ & []).
  - intros j Hj _ Hjc Ho. apply K5; try done. intros ->. by destruct Ho as (? & _ & _ & _ & []).
Qed.

Lemma keeps_trans x ct st1 st2 st3 : keeps x ct st1 st2 -> keeps x ct st2 st3 -> keeps x ct st1 st3.
Proof.
  intros [A1 A2 A3 A4 A5 A6] [B1 B2 B3 B4 B5 B6]. split; [done|done| |by auto..]. intros j Hj Hx. rewrite (A3 j Hj Hx). by apply B3.
Qed.

Lemma use_keeps w st b : kinv w -> current_tid (cpu (ktasks w)) <> thread_cleaner_tid w ->
  task_tuse (ktasks w) (current_tid (cpu (ktasks w))) = Ok (st, b) -> keeps 0 (thread_cleaner_tid w) (ktasks w) st.
Proof.
  intros Hi Hne. pose proof (ki_sched w Hi) as Hs. pose proof (ki_calm w Hi) as Hc. assert (0 <= current_tid (cpu (ktasks w))) by apply Hs.
  unfold task_tuse. rewrite with_thread_ok by done. destruct (slot _ _) as [t|] eqn:E; cbn [mbind res_bind]; intros [= <- <-]; [by apply (keeps_current _ _ t)|by apply keeps_same].
Qed.

Lemma release_keeps w st : kinv w -> current_tid (cpu (ktasks w)) <> thread_cleaner_tid w ->
  task_trelease (ktasks w) (current_tid (cpu (ktasks w))) = Ok st -> keeps 0 (thread_cleaner_tid w) (ktasks w) st.
Proof.
  intros Hi Hne. pose proof (ki_sched w Hi) as Hs. pose proof (ki_calm w Hi) as Hc. assert (0 <= current_tid (cpu (ktasks w))) by apply Hs.
  unfold task_trelease. rewrite with_thread_ok by done. destruct (slot _ _) as [t|] eqn:E; cbn [mbind res_bind fst snd]; [|intros [= <-]; by apply keeps_same].
  set (t' := set_busy t (busy t - 1)). pose proof (keeps_current (thread_cleaner_tid w) _ t t' Hs Hc E Hne) as Hk1. fold (upd (ktasks w) (current_tid (cpu (ktasks w))) (Some t')). set (st1 := upd _ _ _) in *.
  destruct (_ && _); [|by intros [= <-]]. change (cpu st1) with (cpu (ktasks w)).
  rewrite tset_ok by (done || apply Hk1). assert (slot (threads st1) (current_tid (cpu (ktasks w))) = Some t') as -> by (by apply (slot_upd_eq _ _ _ _ E)). cbn [mbind res_bind].
  assert (keeps 0 (thread_cleaner_tid w) st1 (upd st1 (current_tid (cpu st1)) (Some (set_status t' BLOCKED)))) as Hk2.
  { apply (keeps_current _ _ t'); [apply Hk1|apply Hk1|by apply (slot_upd_eq _ _ _ _ E)|done]. }
  pose proof (keeps_trans _ _ _ _ _ Hk1 Hk2) as Hk. change (cpu st1) with (cpu (ktasks w)) in Hk. set (st2 := upd st1 _ _) in *. unfold task_tyield.
  assert (reshed_block (cpu st2) = 0) as -> by apply Hk. intros [= <-]. by destruct Hk.
Qed.

Lemma kstep_ok w w' : kinv w -> kstep w w' -> kgood w w'.
Proof.
  intros Hi Hst. assert (forall k c, kcalls w !! k = Some c -> k_tid c <> 0) as H0.
  { intros k c Hk. destruct (ki_call w Hi k c Hk) as (_ & _ & ? & _). lia. }
  destruct Hst as [ms w st E|ms w w' E|w tid Hm|w st b Hn Hne E|w st Hn Hne E].
  - split; [by eapply inv_tick|]. apply (spares_keeps w (set_st w st) 0 (thread_cleaner_tid w)); [eapply keeps_tick; [apply Hi|apply Hi|done]|lia].
  - destruct (exec_ok ms w Hi) as (w1 & E1 & Hg). rewrite E in E1. by injection E1 as <-.
  - split; [by apply inv_call|by apply spares_same].
  - pose proof (use_keeps w st b Hi Hne E) as Hk. split; [by apply (inv_threads w st 0)|]. apply (spares_keeps w (set_st w st) 0 _ Hk). lia.
  - pose proof (release_keeps w st Hi Hne E) as Hk. split; [by apply (inv_threads w st 0)|]. apply (spares_keeps w (set_st w st) 0 _ Hk). lia.
Qed.

Lemma ksteps_ok w w' : kinv w -> rtc kstep w w' -> kinv w'.
Proof. intros Hi Hs. induction Hs as [|w1 w2 w3 H1 _ IH]; [done|]. apply IH. by apply (kstep_ok w1 w2). Qed.

(** The machine when nothing has been asked for: the scheduler between two runs, an empty
    mailbox, a living cleaner. *)
Definition kstart (w : kworld) : Prop :=
  lists_ok (procs (kk w)) /\ sched_ok (ktasks w) /\ calm (ktasks w) /\ 1 <= thread_cleaner_tid w /\
  (forall t, slot (threads (ktasks w)) (thread_cleaner_tid w) = Some t -> status t <> DEAD) /\
  kcalls w = ∅ /\ thkill_data w = None /\ (cleaner_at w = Looking \/ cleaner_at w = Sleeping \/ cleaner_at w = Yielding).

Lemma kstart_inv w : kstart w -> kinv w.
Proof.
  intros (H1 & H2 & H3 & H4 & H5 & H6 & H7 & H8). split; try done; rewrite ?H6.
  - intros k1 c1 k2 c2 E. by rewrite lookup_empty in E.
  - intros k c E. by rewrite lookup_empty in E.
  - unfold cleaner_ok. destruct H8 as [-> | [-> | ->]]; intros r Hr; congruence.
Qed.

(** C3: The scheduler, the cleaner and any number of callers of [task_tkill], each for a thread that
    no other call of the moment is for; a caller may be killed itself while it is in the
    function, and may kill a caller.  However they interleave, nobody follows a pointer to a
    thread or a stack that is gone, no lock is held over a switch, a thread is taken out only
    when somebody asked for it and it is dead, taken and not on the CPU, a caller is told only
    when its thread is out of the array, and every other thread stays.  Two callers for one
    thread are another matter ([tkill_twice_faults]); and it is not said that the thread is
    taken out in the end ([tkill_wakeup_lost], [tkill_killer_killed]). *)
Theorem tkill_safe (w0 w : kworld) : kstart w0 -> rtc kstep w0 w ->
  (forall ms, exists w', kill_step ms w = Ok w') /\
  (forall w' j, kstep w w' -> 1 <= j -> (forall k c, kcalls w !! k = Some c -> k_tid c <> j) -> there (ktasks w) j -> there (ktasks w') j) /\
  (forall k tid d, kcalls w !! k = Some (mk_kcall tid Awaiting) -> kdatas w !! k = Some d -> kd_done d = true -> slot (threads (ktasks w)) tid = None) /\
  (forall r found suicide, cleaner_at w = Cleaning r found suicide -> found = true /\
     exists tid p, kcalls w !! r = Some (mk_kcall tid p) /\ kdatas w !! r = Some (mk_thkill tid r false) /\ stopped (ktasks w) tid) /\
  SHEDULER_LOCK ∉ held_locks (ktasks w).
Proof.
  intros Hs Hr. pose proof (ksteps_ok w0 w (kstart_inv w0 Hs) Hr) as Hi. split; [|split; [|split; [|split; [|apply (ki_calm w Hi)]]]].
  - intros ms. destruct (exec_ok ms w Hi) as (w' & E & _). eauto.
  - intros w' j Hst. by apply (kstep_ok w w').
  - intros k tid d Hk Hd Hdone. destruct (ki_call w Hi _ _ Hk) as (_ & _ & _ & [[E ?]|[E _]]); cbn in *; [done|]. rewrite E in Hd. injection Hd as <-. done.
  - intros r f sc E. pose proof (ki_clean w Hi) as Hc. unfold cleaner_ok in Hc. rewrite E in Hc. destruct Hc as (-> & tid & (_ & Hd & p & Hp & _) & _ & Hst). split; [done|]. by exists tid, p.
Qed.

(** ** The lost wake-up *)

(** A step in which nobody else calls [task_tkill]. *)
Definition nstep (w w' : kworld) : Prop := kstep w w' /\ forall k, kcalls w !! k = None -> kcalls w' !! k = None.

Lemma shed_iter_keeps ct ms n : forall st st', sched_ok st -> calm st -> shed_iter n st ms = Ok st' -> keeps 0 ct st st'.
Proof.
  induction n as [|n IH]; intros st st' Hs Hc E; cbn [shed_iter] in E; [injection E as <-; by apply keeps_same|].
  apply bind_Ok in E as (st1 & E1 & E). pose proof (keeps_tick 0 ct st st1 ms Hs Hc E1) as Hk. apply (keeps_trans _ _ _ _ _ Hk). apply IH; [apply Hk|apply Hk|done].
Qed.

Lemma shed_iter_steps ms n : forall w st', shed_iter n (ktasks w) ms = Ok st' -> rtc nstep w (set_st w st').
Proof.
  induction n as [|n IH]; intros w st' E; cbn [shed_iter] in E; [injection E as <-; by rewrite set_st_id|].
  apply bind_Ok in E as (st1 & E1 & E). eapply rtc_l; [split; [by apply (Tick ms)|done]|]. by apply (IH (set_st w st1)).
Qed.

(** The cleaner sleeps although a request waits. *)
Record asleep (k tid : Z) (w : kworld) : Prop := mk_asleep {
  as_inv : kinv w;
  as_calls : kcalls w = {[k := mk_kcall tid Awaiting]};
  as_data : kdatas w !! k = Some (mk_thkill tid k false);
  as_place : cleaner_at w = Looking;
  as_cleaner : exists t, slot (threads (ktasks w)) (thread_cleaner_tid w) = Some t /\ status t = BLOCKED;
  as_other : current_tid (cpu (ktasks w)) <> thread_cleaner_tid w }.

Lemma asleep_tick k tid w st ms st0 : kinv w -> kcalls w = {[k := mk_kcall tid Awaiting]} -> kdatas w !! k = Some (mk_thkill tid k false) -> cleaner_at w = Looking ->
  (exists t, slot (threads (ktasks w)) (thread_cleaner_tid w) = Some t /\ status t = BLOCKED) -> task_shed_choose st0 ms = Ok st -> sched_ok st0 -> calm st0 -> threads st0 = threads (ktasks w) -> kinv (set_st w st) -> asleep k tid (set_st w st).
Proof.
  intros Hi Hc Hd Hp (t & Hs & Hb) E Hsc Hca Hth Hi'. destruct (shed_choose_cases st0 ms Hsc) as (st1 & E1 & _ & _ & _ & _ & _ & Hmv & Hcase).
  rewrite E in E1. injection E1 as <-. split; try done.
  - specialize (Hmv (thread_cleaner_tid w)). rewrite Hth, Hs in Hmv. cbn. destruct (slot (threads st) (thread_cleaner_tid w)) as [t'|]; [|done].
    exists t'. split; [done|]. destruct Hmv as (_ & _ & _ & [->|[Hx _]] & _); [done|congruence].
  - cbn. intros Heq. destruct Hcase as [(E0 & _)|(t0 & Hs0 & Hr & _)]; [pose proof (ki_cleaner w Hi); lia|].
    rewrite Heq, Hth, Hs in Hs0. injection Hs0 as <-. unfold can_run in Hr. by rewrite Hb in Hr.
Qed.

Lemma asleep_forever k tid w w' : asleep k tid w -> nstep w w' -> asleep k tid w'.
Proof.
  intros Ha [Hst Hno]. pose proof Ha as [Hi Hc Hd Hp (t & Hs & Hb) Ho]. destruct (kstep_ok w w' Hi Hst) as [Hi' _].
  assert (forall st, current_tid (cpu st) = current_tid (cpu (ktasks w)) -> slot (threads st) (thread_cleaner_tid w) = Some t -> kinv (set_st w st) -> asleep k tid (set_st w st)) as Hset.
  { intros st E1 E2 Hi2. split; try done; [by exists t|]. by cbn; rewrite E1. }
  assert (forall t', slot (threads (ktasks w)) (current_tid (cpu (ktasks w))) = Some t' ->
    forall o, slot (threads (upd (ktasks w) (current_tid (cpu (ktasks w))) o)) (thread_cleaner_tid w) = Some t) as Hupd.
  { intros t' E2 o. rewrite (slot_upd _ _ _ _ _ E2). rewrite decide_False by congruence. done. }
  destruct Hst as [ms w st E|ms w w' E|w tid' Hm|w st b Hn Hne E|w st Hn Hne E].
  - apply (asleep_tick k tid w st ms (ktasks w)); try done; first [apply Hi|eauto].
  - unfold kill_step in E. destruct (Z.eqb_spec (current_tid (cpu (ktasks w))) (thread_cleaner_tid w)); [done|]. rewrite Hc in E.
    destruct (decide (current_tid (cpu (ktasks w)) = k)) as [Ek|Ek]; [|rewrite lookup_singleton_ne in E by done; by injection E as <-].
    rewrite Ek, lookup_singleton_eq in E. unfold call_step in E. cbn [k_at k_tid] in E.
    assert (yield ms w = Ok w') as Ey by (destruct (tid =? k); [done|]; rewrite Hd in E; exact E). unfold yield in Ey.
    apply bind_Ok in Ey as (st0 & E0 & Ey). apply bind_Ok in Ey as (st & E1 & [= <-]). unfold task_tyield in E0.
    destruct (ki_sched w Hi) as (_ & _ & _ & Hz & _). rewrite Hz in E0. cbn in E0. injection E0 as <-.
    apply (asleep_tick k tid w st ms (task_reshed (ktasks w))); try done; first [apply Hi|eauto].
  - destruct Hm as (_ & _ & _ & Hn & _). apply Hno in Hn. cbn in Hn. by rewrite lookup_insert_eq in Hn.
  - unfold task_tuse in E. rewrite with_thread_ok in E; [|apply Hi|apply (ki_sched w Hi)]. destruct (slot (threads (ktasks w)) _) as [t'|] eqn:Es; cbn [mbind res_bind fst snd] in E; injection E as <- <-.
    + apply Hset; [done| |done]. by eapply Hupd.
    + by apply Hset.
  - unfold task_trelease in E. rewrite with_thread_ok in E; [|apply Hi|apply (ki_sched w Hi)]. destruct (slot (threads (ktasks w)) _) as [t'|] eqn:Es; cbn [mbind res_bind fst snd] in E; [|injection E as <-; by apply Hset].
    fold (upd (ktasks w) (current_tid (cpu (ktasks w))) (Some (set_busy t' (busy t' - 1)))) in E. set (t1 := set_busy _ _) in *. set (st1 := upd _ _ _) in *.
    assert (slot (threads st1) (thread_cleaner_tid w) = Some t) as H1 by (by eapply Hupd).
    destruct (_ && _); [|injection E as <-; by apply Hset]. apply bind_Ok in E as (st2 & E2 & E). change (cpu st1) with (cpu (ktasks w)) in E2.
    rewrite tset_ok in E2; [|apply (ki_calm w Hi)|apply (ki_sched w Hi)]. assert (slot (threads st1) (current_tid (cpu (ktasks w))) = Some t1) as E1 by (by apply (slot_upd_eq _ _ _ _ Es)).
    rewrite E1 in E2. injection E2 as <-. unfold task_tyield in E. destruct (_ >? 0); [done|]. injection E as <-. apply Hset; [done| |done].
    change (slot (threads (upd st1 (current_tid (cpu (ktasks w))) (Some (set_status t1 BLOCKED)))) (thread_cleaner_tid w) = Some t).
    rewrite (slot_upd _ _ _ _ _ E1). by rewrite decide_False by congruence.
Qed.

Lemma nstep_exec w w' ms : kill_step ms w = Ok w' -> (forall j, kcalls w !! j = None -> kcalls w' !! j = None) -> nstep w w'.
Proof. intros E Hno. split; [by apply (Exec ms)|done]. Qed.

Lemma nsteps_kinv w w' : kinv w -> rtc nstep w w' -> kinv w'.
Proof. intros Hi Hs. induction Hs as [|w1 w2 w3 [H1 _] _ IH]; [done|]. apply IH. by apply (kstep_ok w1 w2). Qed.

(** The request is posted and the cleaner is made runnable. *)
Definition posted_world (w : kworld) (k tid : Z) (t : thread) : kworld :=
  goto (set_st (goto (set_mail w (Some k)) k tid (Waking true)) (upd (ktasks w) (thread_cleaner_tid w) (Some (set_status t RUNNABLE)))) k tid Awaiting.

Lemma post_steps w k tid t : kinv w -> kcalls w = {[k := mk_kcall tid Posting]} -> current_tid (cpu (ktasks w)) = k -> thkill_data w = None ->
  slot (threads (ktasks w)) (thread_cleaner_tid w) = Some t ->
  rtc nstep w (posted_world w k tid t) /\ kcalls (posted_world w k tid t) = {[k := mk_kcall tid Awaiting]}.
Proof.
  intros Hi Hc Hk Hm Ht. assert (kcalls w !! k = Some (mk_kcall tid Posting)) as Hck by (rewrite Hc; apply lookup_singleton_eq).
  destruct (ki_call w Hi _ _ Hck) as (Hne & _). pose proof (ki_cleaner w Hi) as Hpos.
  assert (kcalls (posted_world w k tid t) = {[k := mk_kcall tid Awaiting]}) as Hcb by (cbn; by rewrite Hc, !insert_singleton_eq).
  split; [|done]. set (wa := goto (set_mail w (Some k)) k tid (Waking true)). eapply (rtc_l _ _ wa); [|apply rtc_once].
  - apply (nstep_exec _ _ 0).
    + unfold kill_step. rewrite Hk. destruct (Z.eqb_spec k (thread_cleaner_tid w)); [done|]. rewrite Hck. unfold call_step. cbn [k_at]. by rewrite Hm.
    + intros j. cbn. rewrite Hc, insert_singleton_eq. by rewrite !lookup_singleton_None.
  - apply (nstep_exec _ _ 0).
    + unfold kill_step. change (ktasks wa) with (ktasks w). change (thread_cleaner_tid wa) with (thread_cleaner_tid w). rewrite Hk. destruct (Z.eqb_spec k (thread_cleaner_tid w)); [done|].
      assert (kcalls wa !! k = Some (mk_kcall tid (Waking true))) as -> by apply lookup_insert_eq. unfold call_step. cbn [k_at k_tid].
      change (ktasks wa) with (ktasks w). change (thread_cleaner_tid wa) with (thread_cleaner_tid w). rewrite tset_ok by (apply Hi || lia). by rewrite Ht.
    + intros j. rewrite Hcb. cbn. rewrite Hc, insert_singleton_eq. by rewrite !lookup_singleton_None.
Qed.

(** The scheduler comes to the cleaner if it can run. *)
Lemma cleaner_scheduled w t : kinv w -> slot (threads (ktasks w)) (thread_cleaner_tid w) = Some t -> status t = RUNNABLE ->
  exists st t', rtc nstep w (set_st w st) /\ current_tid (cpu st) = thread_cleaner_tid w /\ slot (threads st) (thread_cleaner_tid w) = Some t'.
Proof.
  intros Hi Ht Hr. pose proof (ki_cleaner w Hi). destruct (shed_reaches (ktasks w) 0 (thread_cleaner_tid w)) as (n & st & _ & Hit & Hcur & _); [apply Hi| |by unfold eligible, can_run; rewrite Ht, Hr|].
  { pose proof (slot_range _ _ _ Ht). destruct (ki_sched w Hi) as (_ & ? & _). lia. }
  pose proof (shed_iter_keeps (thread_cleaner_tid w) 0 n _ _ (ki_sched w Hi) (ki_calm w Hi) Hit) as Hkp.
  assert (there st (thread_cleaner_tid w)) as [t' Ht'] by (apply (kp_there _ _ _ _ Hkp); [lia|lia|by eexists]).
  exists st, t'. split; [by apply (shed_iter_steps 0 n)|done].
Qed.

(** The cleaner goes to sleep over a request. *)
Lemma falls_asleep w k tid t : kinv w -> kcalls w = {[k := mk_kcall tid Awaiting]} -> kdatas w !! k = Some (mk_thkill tid k false) -> cleaner_at w = Sleeping ->
  current_tid (cpu (ktasks w)) = thread_cleaner_tid w -> slot (threads (ktasks w)) (thread_cleaner_tid w) = Some t ->
  exists w1, rtc nstep w w1 /\ asleep k tid w1.
Proof.
  intros Hi Hc Hd Hp Hcur Ht. pose proof (ki_cleaner w Hi) as Hpos. set (wd := set_cleaner (set_st w (upd (ktasks w) (thread_cleaner_tid w) (Some (set_status t BLOCKED)))) Yielding).
  assert (nstep w wd) as Hcd.
  { apply (nstep_exec _ _ 0); [|done]. unfold kill_step. rewrite Hcur, Z.eqb_refl. unfold cleaner_step. rewrite Hp, Hcur, tset_ok by (apply Hi || lia). by rewrite Ht. }
  destruct (kstep_ok w wd Hi (proj1 Hcd)) as [Hid _]. assert (kinv (set_cleaner wd Looking)) as Hil by (apply inv_place; [done|done|exact (ki_clean wd Hid)]).
  destruct (yield_ok 0 (set_cleaner wd Looking) Hil) as (st & Ey & Hi3 & _). exists (set_st (set_cleaner wd Looking) st). split.
  - eapply rtc_l; [exact Hcd|]. apply rtc_once, (nstep_exec _ _ 0); [|done]. unfold kill_step. change (cpu (ktasks wd)) with (cpu (ktasks w)).
    change (thread_cleaner_tid wd) with (thread_cleaner_tid w). by rewrite Hcur, Z.eqb_refl.
  - unfold yield in Ey. apply bind_Ok in Ey as (st4 & E4 & Ey). apply bind_Ok in Ey as (st5 & E5 & [= <-]). unfold task_tyield in E4. destruct (_ >? 0); [done|]. injection E4 as <-.
    eapply (asleep_tick k tid (set_cleaner wd Looking) st5 0); [| | | | |exact E5|apply Hid|apply Hid|done|]; try done.
    cbn. eexists. split; [by apply (slot_upd_eq _ _ _ _ Ht)|done].
Qed.

(** A killer that posts its request after the cleaner has found the mailbox empty and before
    it has blocked itself wakes it in vain: the cleaner then goes to sleep with the request in
    the mailbox, and unless another thread is killed the killer waits forever, and the thread it
    kills is never removed. *)
Theorem tkill_wakeup_lost (w0 w : kworld) (k tid : Z) : kstart w0 -> rtc kstep w0 w ->
  kcalls w = {[k := mk_kcall tid Posting]} -> current_tid (cpu (ktasks w)) = k -> thkill_data w = None -> cleaner_at w = Sleeping ->
  there (ktasks w) (thread_cleaner_tid w) ->
  exists w1, rtc nstep w w1 /\ forall w2, rtc nstep w1 w2 ->
    kcalls w2 = {[k := mk_kcall tid Awaiting]} /\ kdatas w2 !! k = Some (mk_thkill tid k false) /\ there (ktasks w2) tid.
Proof.
  intros Hs0 Hr Hc Hk Hm Hp [t Ht]. pose proof (ksteps_ok w0 w (kstart_inv w0 Hs0) Hr) as Hi.
  destruct (ki_call w Hi k (mk_kcall tid Posting)) as (_ & _ & _ & Hd & _); [by rewrite Hc; apply lookup_singleton_eq|].
  destruct (post_steps w k tid t Hi Hc Hk Hm Ht) as [Hab Hcb]. set (wb := posted_world w k tid t) in *. pose proof (nsteps_kinv _ _ Hi Hab) as Hib.
  destruct (cleaner_scheduled wb (set_status t RUNNABLE) Hib) as (st & t2 & Hbc & Hcur & Ht2); [by apply (slot_upd_eq _ _ _ _ Ht)|done|].
  destruct (falls_asleep (set_st wb st) k tid t2 (nsteps_kinv _ _ Hib Hbc) Hcb Hd Hp Hcur Ht2) as (w1 & Hcd & Has).
  exists w1. split; [by etrans; [exact Hab|]; etrans|]. intros w2 Hr2. assert (asleep k tid w2) as [Hi2 Hc2 Hd2 Hp2 _ _].
  { clear -Has Hr2. induction Hr2 as [|x y z Hxy _ IH]; [done|]. apply IH. by eapply asleep_forever. }
  split; [done|]. split; [done|]. destruct (ki_call w2 Hi2 k (mk_kcall tid Awaiting)) as (_ & _ & _ & [[E _]|(_ & _ & [[? _]|E])]); [by rewrite Hc2, lookup_singleton_eq|congruence|done|congruence].
Qed.

(** ** The list of the process *)

(** What is left of a slot. *)
Definition unlisted (tid : Z) (o : option (cell Z)) : option (cell Z) :=
  match o with Some c => if value c =? tid then None else Some c | None => None end.

Lemma unlist_round (a : rcparray Z) id tid : Vfs.quiet a -> 0 <= id < 2 ^ 64 ->
  exists a', (forall n, foreach_more a id = true -> unlist_loop (S n) a id tid = unlist_loop n a' (id + 1) tid) /\
    zlen a' = zlen a /\ Vfs.quiet a' /\ (forall j, arr_slot a' j = if decide (j = id) then unlisted tid (arr_slot a j) else arr_slot a j).
Proof.
  intros Hq Hid. destruct (arr_slot a id) as [c|] eqn:Es.
  - destruct (Hq id c Es) as [Hp Hr]. pose proof (arr_slot_range _ _ _ Es) as Hrg.
    exists (arr_set a id (unlisted tid (Some c))). split; [|split; [apply zlen_arr_set|split]].
    + intros n Hm. cbn [unlist_loop]. rewrite Hm, rcparray_get_eq, Es, Hp, Hr by done. cbn [unlisted]. destruct (Z.eqb_spec (value c) tid).
      * rewrite rcparray_remove_eq by done. rewrite arr_slot_set by done. cbn [fst]. rewrite rcparray_unref_eq by done. rewrite arr_slot_set by (by rewrite zlen_arr_set).
        unfold arr_set. change (retire (set_refs c (1 + 1))) with (Some (mk_cell 1 false (value c))).
        change (drop_ref (mk_cell 1 false (value c))) with (@None (cell Z)). by rewrite !list_insert_insert_eq.
      * rewrite rcparray_unref_eq, arr_slot_set by done. unfold arr_set.
        change (drop_ref (set_refs c (1 + 1))) with (Some (set_refs c 1)). rewrite !list_insert_insert_eq. destruct c. cbn in Hr, Hp. by subst.
    + intros j d. destruct (decide (j = id)) as [->|Hne]; [rewrite arr_slot_set by done|rewrite arr_slot_set_ne by (done || lia); apply Hq].
      cbn [unlisted]. destruct (_ =? _); [done|]. intros [= <-]. done.
    + intros j. case_decide as Hd; [subst j; rewrite arr_slot_set by done; by rewrite Es|by rewrite arr_slot_set_ne by (done || lia)].
  - exists a. split; [|split; [done|split; [done|]]].
    + intros n Hm. cbn [unlist_loop]. by rewrite Hm, rcparray_get_eq, Es by done.
    + intros j. case_decide; [subst; by rewrite Es|done].
Qed.

Lemma unlist_loop_quiet tid n : forall a id, Vfs.quiet a -> zlen a < 2 ^ 64 -> 0 <= id <= zlen a -> zlen a - id <= Z.of_nat n ->
  exists a', unlist_loop n a id tid = Ok a' /\ forall j, arr_slot a' j = if decide (id <= j) then unlisted tid (arr_slot a j) else arr_slot a j.
Proof.
  induction n as [|n IH]; intros a id Hq Hz Hid Hn.
  - cbn [unlist_loop]. rewrite foreach_more_end by lia. exists a. split; [done|]. intros j. case_decide; [|done].
    destruct (arr_slot a j) eqn:E; [apply arr_slot_range in E; lia|done].
  - destruct (foreach_more a id) eqn:Em.
    + destruct (unlist_round a id tid Hq) as (a1 & E & Hz1 & Hq1 & Hs1); [lia|]. rewrite (E n Em).
      assert (id < zlen a) by (apply foreach_more_true in Em as (j & c & Hj & Hs%arr_slot_range & _); lia).
      destruct (IH a1 (id + 1) Hq1) as (a' & -> & Ha); [lia..|]. exists a'. split; [done|]. intros j. rewrite Ha, Hs1.
      repeat case_decide; try done; lia.
    + cbn [unlist_loop]. rewrite Em. exists a. split; [done|]. intros j. case_decide as Hj; [|done]. destruct (arr_slot a j) as [c|] eqn:E; [|done].
      assert (foreach_more a id = true) as Hm; [|congruence]. apply foreach_more_true; [lia|]. exists j, c. split; [lia|]. split; [done|]. by destruct (Hq j c E).
Qed.

(** Killing a thread takes exactly it off the list of its process, and takes a reference of the
    process that is never given back: the count of the process stays above what its holders
    know of, so a later [while (rcptable_refcount(processes, pid) > 1)] for it does not end. *)
Theorem unlist_keeps_reference (ps : rcptable process) (pid tid : Z) (c : cell process) : lists_ok ps -> 0 <= pid < 2 ^ 64 ->
  cell_at ps pid = Some c -> present c = true -> Vfs.quiet (pthreads (value c)) ->
  exists ps' a, unlist ps pid tid = Ok ps' /\ (forall j, arr_slot a j = unlisted tid (arr_slot (pthreads (value c)) j)) /\
    cell_update ps pid (Some (mk_cell (s32 (refs c + 1)) true (set_pthreads (value c) a))) ps'.
Proof.
  intros Hl Hp Hc Hpr Hq. destruct (unlist_ok ps pid tid Hl) as (ps' & E & _ & H). rewrite u64_small, Hc, Hpr in H by done. destruct H as (a & Ea & Hu).
  destruct (unlist_loop_quiet tid (length (pthreads (value c))) (pthreads (value c)) 0 Hq) as (a' & Ea' & Ha); [by eapply Hl|pose proof (zlen_nonneg (pthreads (value c))); lia|unfold zlen; lia|].
  rewrite Ea in Ea'. injection Ea' as <-. exists ps', a. split; [done|]. split.
  - intros j. rewrite Ha. case_decide; [done|]. destruct (arr_slot (pthreads (value c)) j) eqn:Ej; [apply arr_slot_range in Ej; lia|done].
  - unfold set_value, set_refs in Hu. cbn in Hu. by rewrite Hpr in Hu.
Qed.
End Kill.
Arguments kworld D : clear implicits.

(** ** A kernel with an idle thread, a killer, a victim and the cleaner *)
Module KillDemo.
Definition pm : pagemap := mk_pagemap 3 1 4.
Definition shell : process := mk_process (bytes "shell" ++ [0]) None 1 0 pm [] [Some (mk_cell 1 true 2)] 0.
Definition ps : rcptable process := rcptable_set (rcptable_init 32 1) 2 shell.
Definition thread_of (pid : Z) (r : bool) : thread := mk_thread pid RUNNABLE true 0 false r 0.
Definition st : tstate := mk_tstate [Some (thread_of 0 false); Some (thread_of 1 false); Some (thread_of 2 false); Some (thread_of 1 true)] 3 (mk_cpu 1 3 3 0 false) ∅ true 0.
Definition v : vfs unit := mk_vfs [] [] [] [] [] tt.
Definition w0 : kworld unit := mk_kworld (mk_kernel ps 1 st v true) None ∅ ∅ 3 Looking.

Lemma shell_cell : cell_at ps 2 = Some (mk_cell 1 true shell).
Proof. reflexivity. Qed.

Lemma ps_lists : lists_ok ps.
Proof.
  destruct (rcptable_set_spec (rcptable_init 32 1) 2 shell) as (H1 & H2 & H3); [apply init_table_ok; lia|lia|reflexivity|]. split; [exact H1|].
  intros pid c Hp. destruct (decide (pid = 2)) as [->|Hne].
  - unfold ps. rewrite H2. intros [= <-]. reflexivity.
  - unfold ps. rewrite H3 by done. intros Hc. assert (cell_at (rcptable_init 32 1 : rcptable process) pid = None) as E; [|congruence].
    cbn [cell_at rcptable_store]. unfold seg, rcptable_init. cbn [table]. destruct (_ !! _) as [s|] eqn:Es; [|done]. apply lookup_replicate in Es as [-> _]. done.
Qed.

Lemma kdemo_start_ok : kstart w0.
Proof.
  split; [apply ps_lists|]. split; [|split; [done|split; [done|split; [by vm_compute; intros t [= <-]|split; [done|split; [done|by left]]]]]].
  unfold sched_ok. split_and!; try (vm_compute; done). intros tid t Hs Hr. pose proof (slot_range _ _ _ Hs) as Hrg. change (zlen (threads (ktasks w0))) with 4 in Hrg.
  assert (tid = 0 \/ tid = 1 \/ tid = 2 \/ tid = 3) as H4 by lia. destruct H4 as [->|[->|[->| ->]]]; vm_compute in Hs; simplify_eq; try done; by left.
Qed.

(** The current thread does [n] steps. *)
Fixpoint go (n : nat) (w : kworld unit) : kworld unit :=
  match n with O => w | S n => match kill_step 0 w with Ok w' => go n w' | _ => w end end.
Lemma go_steps n : forall w, rtc kstep w (go n w).
Proof. induction n as [|n IH]; intros w; cbn [go]; [done|]. destruct (kill_step 0 w) as [w'| | |] eqn:E; [|done..]. eapply rtc_l; [by apply (Exec 0)|apply IH]. Qed.

Definition ticked (w : kworld unit) : kworld unit := match task_shed_choose (ktasks w) 0 with Ok st => set_st w st | _ => w end.
Lemma ticked_step w : rtc kstep w (ticked w).
Proof. unfold ticked. destruct (task_shed_choose (ktasks w) 0) as [st'| | |] eqn:E; [by apply rtc_once, (Tick 0)|done..]. Qed.

(** The cleaner has looked; the killer has called [task_tkill(2)] and is about to post. *)
Definition w1 : kworld unit := ticked (go 1 w0).
Definition w2 : kworld unit := go 5 (goto w1 1 2 Entered).
Lemma w2_reached : rtc kstep w0 w2.
Proof.
  etrans; [apply (go_steps 1)|]. etrans; [apply ticked_step|]. eapply rtc_l; [|apply (go_steps 5)].
  apply (Call w1 2). split; [done|]. split; [done|]. split; [done|]. split; [done|]. intros k c E. vm_compute in E. done.
Qed.

(** The same with a second killer, thread 4, and what happens in a run: a switch, a step of the
    current thread, or its call of [task_tkill]. *)
Definition st5 : tstate := mk_tstate (threads st ++ [Some (thread_of 1 false)]) 4 (mk_cpu 1 3 3 0 false) ∅ true 0.
Definition w5 : kworld unit := mk_kworld (mk_kernel ps 1 st5 v true) None ∅ ∅ 3 Looking.
Inductive event := ESwitch | EStep | EKill (tid : Z).
Definition act (e : event) (w : kworld unit) : res (kworld unit) :=
  match e with
  | ESwitch => st ← task_shed_choose (ktasks w) 0; Ok (set_st w st)
  | EStep => kill_step 0 w
  | EKill tid => if decide (kcalls w !! current_tid (cpu (ktasks w)) = None) then Ok (goto w (current_tid (cpu (ktasks w))) tid Entered) else Fault
  end.
Fixpoint play (es : list event) (w : kworld unit) : res (kworld unit) := match es with [] => Ok w | e :: es => w ← act e w; play es w end.
(** Thread 4 kills thread 2 and waits until it is idle; thread 1 kills thread 2 too; its request
    is done when thread 4 goes on. *)
Definition two_callers : list event := [ESwitch; EKill 2; EStep; ESwitch; EKill 2] ++ replicate 12 EStep ++ [ESwitch].
(** Thread 4 has stopped thread 2 and is about to post the request when thread 1 kills thread 4. *)
Definition killer_killed : list event := [ESwitch; EKill 2] ++ replicate 5 EStep ++ [ESwitch; EKill 4] ++ replicate 17 EStep.
End KillDemo.

(** A thread that two callers kill at once: the second one still has the pointer to it when the
    first one's request is done, and reads the thread that was freed. *)
Theorem tkill_twice_faults : exists w, KillDemo.play KillDemo.two_callers KillDemo.w5 = Ok w /\
  kcalls w !! 4 = Some (mk_kcall 2 Idling) /\ current_tid (cpu (ktasks w)) = 4 /\ slot (threads (ktasks w)) 2 = None /\ kill_step 0 w = Fault.
Proof. eexists. split; [vm_compute; reflexivity|]. split_and!; vm_compute; reflexivity. Qed.

(** A caller that is killed itself leaves the thread it was killing behind: dead, taken, in the
    array, and asked for by nobody. *)
Theorem tkill_killer_killed : exists w t, KillDemo.play KillDemo.killer_killed KillDemo.w5 = Ok w /\
  slot (threads (ktasks w)) 4 = None /\ slot (threads (ktasks w)) 2 = Some t /\ status t = DEAD /\ running t = true /\
  kcalls w = ∅ /\ thkill_data w = None.
Proof. eexists _, _. split; [vm_compute; reflexivity|]. split_and!; vm_compute; reflexivity. Qed.

Lemma tkill_safe_witness : exists w', kill_step 0 KillDemo.w2 = Ok w'.
Proof. exact (proj1 (tkill_safe KillDemo.w0 KillDemo.w2 KillDemo.kdemo_start_ok KillDemo.w2_reached) 0). Defined.

Lemma tkill_wakeup_lost_witness : exists w1, rtc nstep KillDemo.w2 w1 /\ forall w2, rtc nstep w1 w2 ->
  kcalls w2 = {[1 := mk_kcall 2 Awaiting]} /\ kdatas w2 !! 1 = Some (mk_thkill 2 1 false) /\ there (ktasks w2) 2.
Proof.
  apply (tkill_wakeup_lost KillDemo.w0 KillDemo.w2 1 2 KillDemo.kdemo_start_ok KillDemo.w2_reached); [vm_compute; reflexivity..|]. vm_compute. by eexists.
Defined.

Lemma unlist_keeps_reference_witness : exists ps' a, unlist KillDemo.ps 2 2 = Ok ps' /\ (forall j, arr_slot a j = unlisted 2 (arr_slot [Some (mk_cell 1 true 2)] j)) /\
  cell_update KillDemo.ps 2 (Some (mk_cell 2 true (set_pthreads KillDemo.shell a))) ps'.
Proof.
  apply (unlist_keeps_reference KillDemo.ps 2 2 (mk_cell 1 true KillDemo.shell) KillDemo.ps_lists ltac:(lia) KillDemo.shell_cell eq_refl).
  apply Proc.Demo.quiet_one.
Defined.
