(* ===== verification/Exit.v ===== *)
(** * The end of a process: [_task_prkill_async], [task_prwait] and the system calls of
    proc/syscalls_task.c

    A process is ended by a kernel thread of its own, while threads of other processes wait for
    it.  Each of these threads has a place in the code, as in Kill.v, and [exit_step] is what the
    current thread does up to its next place.  What is written through a [process_t*] goes to the
    cell of the table, listed or not ([held_process]); the event of the process lies beside the
    table.  [task_tkill] is one step here, when its thread is in no system call: Kill.v has its
    steps, and shows that the thread is out of the array when it returns.  The frames and the page
    map of the process are not tracked. *)
From S2P Require Import Prelude Rcp Task Path Vfs Proc Kill.

(** Where the thread is that runs [_task_prkill_async]; [lid] is its loop variable. *)
Inductive xplace :=
  | XStart
  | XPrepare (lid : Z)
  | XKill (lid : Z)
  | XKilling (lid id : Z)
  | XBusy  (** [while (process->busy > 0)] *)
  | XCode
  | XHook
  | XDefunct
  | XRefs  (** [while (rcptable_refcount(processes, pid) > 1)] *)
  | XFree
  | XDone.

(** Where a thread is in [task_prwait]. *)
Inductive wplace :=
  | WCalled
  | WWait  (** it has the process, and calls [event_wait] *)
  | WAsleep  (** in [event_wait], until it runs again *)
  | WRead (ret : Z)
  | WUnref (ret code : Z)
  | WReturned (ret : Z) (code : option Z)  (** [code] when [*ecode] was written *).

(** The process a pointer leads to. *)
Definition held_process (ps : rcptable process) (pid : Z) : res process :=
  c ← res_of_option (cell_at ps pid); Ok (value c).

Definition set_ecode (p : process) (x : Z) : process :=
  mk_process (pname p) (cwd p) (parent p) (pbusy p) (ppagemap p) (fiddies p) (pthreads p) x.

Section Exit.
Context {D : Type}.
(** What the functions of [HOOK_PKILL] do, [fs_proc_cleanup] among them. *)
Context (pkill_hook : vfs D -> process -> res (vfs D * process)).
Context (pid ecode_arg killer : Z).

Record xworld := mk_xworld { xk : kernel D; signal_event : event; xat : xplace; waiters : gmap Z wplace }.

Definition set_xk (w : xworld) x := mk_xworld x (signal_event w) (xat w) (waiters w).
Definition set_signal (w : xworld) x := mk_xworld (xk w) x (xat w) (waiters w).
Definition set_xat (w : xworld) x := mk_xworld (xk w) (signal_event w) x (waiters w).
Definition set_waiter (w : xworld) (t : Z) (p : wplace) := mk_xworld (xk w) (signal_event w) (xat w) (<[t := p]> (waiters w)).

Definition xtasks (w : xworld) : tstate := tasks (xk w).
Definition set_xst (w : xworld) (st : tstate) : xworld := set_xk w (set_tasks (xk w) st).
Definition set_xprocs (w : xworld) (ps : rcptable process) : xworld := set_xk w (set_procs (xk w) ps).
Definition write_process (w : xworld) (p : process) : xworld := set_xprocs w (rcptable_write (procs (xk w)) pid p).

Definition xyield (ms : Z) (w : xworld) : res xworld :=
  st ← task_tyield (xtasks w); st ← task_shed_choose st ms; Ok (set_xst w st).

(** [rcparray_get(process->threads, lid)]; [None] at the end of [rcparray_foreach]. *)
Definition next_thread (p : process) (lid : Z) : res (option (process * Z)) :=
  if foreach_more (pthreads p) lid then
    let '(a, o) := rcparray_get (pthreads p) lid in
    match o with None => Fault | Some id => Ok (Some (set_pthreads p a, id)) end
  else Ok None.
Definition drop_thread (p : process) (lid : Z) : process := set_pthreads p (rcparray_unref (pthreads p) lid).

Definition killer_step (ms : Z) (w : xworld) : res xworld :=
  match xat w with
  | XStart =>
      let '(ps, o) := rcptable_get (procs (xk w)) pid in
      match o with
      | None => Ok (set_xat (set_xprocs w ps) XDone)
      | Some _ => Ok (set_xat (set_xprocs w (rcptable_remove ps pid)) (XPrepare 0))
      end
  | XPrepare lid =>
      p ← held_process (procs (xk w)) pid;
      n ← next_thread p lid;
      match n with
      | None => Ok (set_xat w (XKill 0))
      | Some (p, id) =>
          st ← _task_prepare_tkill (xtasks w) id;
          Ok (set_xat (write_process (set_xst w st) (drop_thread p lid)) (XPrepare (lid + 1)))
      end
  | XKill lid =>
      p ← held_process (procs (xk w)) pid;
      n ← next_thread p lid;
      match n with
      | None => Ok (set_xat w XBusy)
      | Some (p, id) => Ok (set_xat (write_process w p) (XKilling lid id))
      end
  | XKilling lid id =>
      let gone w := p ← held_process (procs (xk w)) pid; Ok (set_xat (write_process w (drop_thread p lid)) (XKill (lid + 1))) in
      match slot (threads (xtasks w)) id with
      | None => gone w
      | Some t => if busy t >? 0 then xyield ms w else gone (set_xst w (upd (xtasks w) id None))
      end
  | XBusy =>
      p ← held_process (procs (xk w)) pid;
      if pbusy p >? 0 then xyield ms w else Ok (set_xat w XCode)
  | XCode => p ← held_process (procs (xk w)) pid; Ok (set_xat (write_process w (set_ecode p ecode_arg)) XHook)
  | XHook =>
      p ← held_process (procs (xk w)) pid;
      '(v, p) ← pkill_hook (kvfs (xk w)) p;
      Ok (set_xat (write_process (set_xk w (set_vfs (xk w) v)) p) XDefunct)
  | XDefunct =>
      _ ← held_process (procs (xk w)) pid;
      '(st, e) ← event_defunct (xtasks w) (signal_event w);
      Ok (set_xat (set_signal (set_xst w st) e) XRefs)
  | XRefs => if rcptable_refcount (procs (xk w)) pid >? 1 then xyield ms w else Ok (set_xat w XFree)
  | XFree =>
      _ ← held_process (procs (xk w)) pid;
      let k := xk w in
      Ok (set_xat (set_xk w (mk_kernel (rcptable_unref (procs k) pid) (process_count k - 1) (tasks k) (kvfs k) (cpu_locals k))) XDone)
  | XDone => Ok w
  end.

(** [task_prwait(pid, &code)] on thread [t]. *)
Definition waiter_step (ms : Z) (w : xworld) (t : Z) (p : wplace) : res xworld :=
  match p with
  | WCalled =>
      let '(ps, o) := rcptable_get (procs (xk w)) pid in
      Ok (set_waiter (set_xprocs w ps) t (match o with None => WReturned (- rc ENOPS) None | Some _ => WWait end))
  | WWait =>
      _ ← held_process (procs (xk w)) pid;
      '(st, e, r) ← event_wait_begin (xtasks w) (signal_event w);
      let w := set_signal (set_xst w st) e in
      match r with
      | Some _ => Ok (set_waiter w t (WRead (- rc EINTR)))
      | None => st ← task_shed_choose st ms; Ok (set_waiter (set_xst w st) t WAsleep)
      end
  | WAsleep =>
      '(st, r) ← event_wait_end (xtasks w) (signal_event w);
      Ok (set_waiter (set_xst w st) t (WRead (if r =? 0 then 0 else - rc EINTR)))
  | WRead ret => p ← held_process (procs (xk w)) pid; Ok (set_waiter w t (WUnref ret (ecode p)))
  | WUnref ret code => Ok (set_waiter (set_xprocs w (rcptable_unref (procs (xk w)) pid)) t (WReturned ret (Some code)))
  | WReturned _ _ => Ok w
  end.

Definition exit_step (ms : Z) (w : xworld) : res xworld :=
  let me := current_tid (cpu (xtasks w)) in
  if me =? killer then killer_step ms w
  else match waiters w !! me with Some p => waiter_step ms w me p | None => Ok w end.

Inductive xstep : xworld -> xworld -> Prop :=
  | XTick ms w st : task_shed_choose (xtasks w) ms = Ok st -> xstep w (set_xst w st)
  | XExec ms w w' : exit_step ms w = Ok w' -> xstep w w'.
End Exit.
Arguments xworld D : clear implicits.

(** ** The system calls *)

Section Calls.
Context {D : Type}.

(** [syscall_wait] returns what [task_prwait] left in [code]. *)
Definition wait_result (p : wplace) : option Z :=
  match p with WReturned _ o => Some (default 0 o) | _ => None end.

(** A negative delay blocks the thread for good. *)
Definition syscall_sleep (st : tstate) (now delay : Z) : res tstate :=
  if delay <? 0 then st ← task_tset_status st (current_tid (cpu st)) BLOCKED; task_tyield st
  else task_tsleep st now delay.

Definition syscall_yield (st : tstate) : res tstate := task_tyield st.
End Calls.

(** ** The invariant *)

Section Laws.
Context {D : Type} (pkill_hook : vfs D -> process -> res (vfs D * process)) (pid ecode_arg killer : Z).
Implicit Types (w : xworld D).

(** The values of an array that went through gets and unrefs. *)
Definition values_in (a a' : rcparray Z) : Prop :=
  forall j d', arr_slot a' j = Some d' -> exists d, arr_slot a j = Some d /\ value d' = value d.

Lemma values_refl a : values_in a a.
Proof. intros j d E. eauto. Qed.
Lemma values_trans a b c : values_in a b -> values_in b c -> values_in a c.
Proof. intros H1 H2 j d E. destruct (H2 j d E) as (d1 & E1 & ->). by apply H1. Qed.
Lemma values_set (a : rcparray Z) i c o : arr_slot a i = Some c -> (forall d, o = Some d -> value d = value c) -> values_in a (arr_set a i o).
Proof.
  intros Hs Ho j d. pose proof (arr_slot_range _ _ _ Hs). destruct (decide (j = i)) as [->|Hne].
  - rewrite arr_slot_set by done. intros ->. exists c. split; [done|by apply Ho].
  - rewrite arr_slot_set_ne by (done || lia). eauto.
Qed.
Lemma values_get a id : values_in a (fst (rcparray_get a id)).
Proof.
  unfold rcparray_get. case_match; [apply values_refl|]. destruct (arr_slot a (u64 id)) as [c|] eqn:E; [|apply values_refl].
  destruct (present c); [|apply values_refl]. eapply values_set; [exact E|]. by intros d [= <-].
Qed.
Lemma values_unref a id : values_in a (rcparray_unref a id).
Proof.
  unfold rcparray_unref. case_match; [apply values_refl|]. destruct (arr_slot a (u64 id)) as [c|] eqn:E; [|apply values_refl].
  eapply values_set; [exact E|]. unfold drop_ref. intros d. case_match; [done|]. by intros [= <-].
Qed.
Lemma get_value (a : rcparray Z) id a' v : rcparray_get a id = (a', Some v) -> exists d, arr_slot a (u64 id) = Some d /\ v = value d.
Proof.
  unfold rcparray_get. case_match; [done|]. destruct (arr_slot a (u64 id)) as [c|] eqn:E; [|done]. destruct (present c); [|done]. intros [= <- <-]. eauto.
Qed.

(** The process as far as its threads and its exit code go. *)
Definition process_ok (ws : gmap Z wplace) (p : process) : Prop :=
  forall j d, arr_slot (pthreads p) j = Some d -> ws !! value d = None /\ 0 <= value d.

(** The functions of the hook leave the exit code and add no threads. *)
Context (hook_keeps : forall v p v' p', pkill_hook v p = Ok (v', p') -> ecode p' = ecode p /\ values_in (pthreads p) (pthreads p')).
Context (pid_range : 0 <= pid < 2 ^ 64).

Definition holds (p : wplace) : Z := match p with WCalled | WReturned _ _ => 0 | _ => 1 end.
Definition holders (ws : gmap Z wplace) : Z := map_fold (fun _ p n => holds p + n) 0 ws.

Lemma holders_insert ws t p p' : ws !! t = Some p -> holders (<[t := p']> ws) = holders ws - holds p + holds p'.
Proof.
  intros Ht. unfold holders. rewrite <- (insert_delete_id ws t p Ht) at 2. rewrite <- insert_delete_eq.
  rewrite !map_fold_insert_L by (intros; lia || apply lookup_delete_eq). lia.
Qed.

Lemma holders_nonneg ws : 0 <= holders ws.
Proof. unfold holders. apply (map_fold_weak_ind (fun n _ => 0 <= n)); [done|]. intros t p m n _ Hn. destruct p; cbn; lia. Qed.

Lemma holders_held ws t p : ws !! t = Some p -> holds p = 1 -> 1 <= holders ws.
Proof.
  intros Ht Hp. pose proof (holders_insert ws t p WCalled Ht) as E. pose proof (holders_nonneg (<[t := WCalled]> ws)). rewrite Hp in E. cbn in E. lia.
Qed.

Lemma holders_size ws : holders ws <= Z.of_nat (size ws).
Proof.
  unfold holders. induction ws as [|t p ws Hn IH] using map_ind; [done|]. rewrite map_fold_insert_L by (done || (intros; lia)).
  rewrite map_size_insert_None by done. destruct p; cbn [holds]; lia.
Qed.

(** No more threads than a count has room for. *)
Definition few (ws : gmap Z wplace) : Prop := Z.of_nat (size ws) < 2 ^ 31 - 1.

Lemma few_insert ws t p p' : ws !! t = Some p -> few ws -> few (<[t := p']> ws).
Proof. unfold few. intros Hp. by rewrite map_size_insert_Some. Qed.

Definition told (x : xplace) : Prop := x = XRefs \/ x = XFree \/ x = XDone.
Definition coded (x : xplace) : Prop := x = XHook \/ x = XDefunct \/ told x.

Definition cell_ok w : Prop :=
  let o := cell_at (procs (xk w)) pid in let n := holders (waiters w) in
  match xat w with
  | XStart => exists c, o = Some c /\ present c = true /\ refs c = 1 + n
  | XDone => o = None /\ n = 0
  | XFree => n = 0 /\ exists c, o = Some c /\ present c = false /\ refs c = 1
  | _ => exists c, o = Some c /\ present c = false /\ refs c = 1 + n
  end.

Definition waiter_ok w (t : Z) (p : wplace) : Prop :=
  1 <= t /\ (exists th, slot (threads (xtasks w)) t = Some th /\ abort_ th = false /\
    (p = WAsleep -> ~ told (xat w) -> status th = BLOCKED /\ t <> current_tid (cpu (xtasks w)))) /\
  match p with
  | WRead ret => ret = 0 /\ told (xat w)
  | WUnref ret code => ret = 0 /\ told (xat w) /\ code = ecode_arg
  | WReturned ret o => (ret = - rc ENOPS /\ o = None) \/ (ret = 0 /\ o = Some ecode_arg)
  | _ => True
  end.

Record xinv w : Prop := mk_xinv {
  xi_sched : sched_ok (xtasks w);
  xi_calm : calm (xtasks w);
  xi_event : event_ok (xtasks w) (signal_event w);
  xi_table : table_ok (procs (xk w));
  xi_killer : waiters w !! killer = None;
  xi_few : few (waiters w);
  xi_cell : cell_ok w;
  xi_code : forall c, cell_at (procs (xk w)) pid = Some c -> process_ok (waiters w) (value c) /\ (coded (xat w) -> ecode (value c) = ecode_arg);
  xi_target : forall lid id, xat w = XKilling lid id -> waiters w !! id = None /\ 0 <= id;
  xi_waiter : forall t p, waiters w !! t = Some p -> waiter_ok w t p }.

(** ** What the steps do to the threads *)

(** Threads other than [x]: nobody is asked to stop, and who is blocked stays so. *)
Definition tframe (x : Z) (st st' : tstate) : Prop :=
  sched_ok st' /\ calm st' /\ held_locks st' = held_locks st /\
  forall t th, 1 <= t -> t <> x -> slot (threads st) t = Some th -> exists th', slot (threads st') t = Some th' /\ abort_ th' = abort_ th /\
    (status th = BLOCKED -> t <> current_tid (cpu st) -> status th' = BLOCKED /\ t <> current_tid (cpu st')).

Lemma tframe_same x st : sched_ok st -> calm st -> tframe x st st.
Proof. intros H1 H2. split; [done|]. split; [done|]. split; [done|]. intros t th _ _ Hs. by exists th. Qed.

Lemma tick_blocked st st' ms t th : sched_ok st -> task_shed_choose st ms = Ok st' -> 1 <= t -> slot (threads st) t = Some th ->
  exists th', slot (threads st') t = Some th' /\ abort_ th' = abort_ th /\ (status th = BLOCKED -> status th' = BLOCKED /\ t <> current_tid (cpu st')).
Proof.
  intros Hok E Ht Hs. destruct (shed_choose_cases st ms Hok) as (st1 & E1 & _ & _ & _ & _ & _ & Hmv & Hcase). rewrite E in E1. injection E1 as <-.
  specialize (Hmv t). rewrite Hs in Hmv. destruct (slot (threads st') t) as [th'|]; [|done]. exists th'. split; [done|].
  destruct Hmv as (_ & _ & Hab & Hst & _). split; [done|]. intros Hb. split; [destruct Hst as [->|[]]; congruence|].
  intros ->. destruct Hcase as [(E0 & _)|(t0 & Hs0 & Hr & _)]; [lia|]. rewrite Hs in Hs0. injection Hs0 as <-. unfold can_run in Hr. by rewrite Hb in Hr.
Qed.

Lemma tframe_tick x st st' ms : sched_ok st -> calm st -> task_shed_choose st ms = Ok st' -> tframe x st st'.
Proof.
  intros Hok [Hl Hsr] E. destruct (shed_choose_cases st ms Hok) as (st1 & E1 & [_ Hsh] & Hh & _ & Hok' & _). rewrite E in E1. injection E1 as <-.
  split; [done|]. split; [by split; [rewrite Hh|]|]. split; [done|]. intros t th Ht _ Hs.
  destruct (tick_blocked st st' ms t th Hok E Ht Hs) as (th' & ? & ? & H). exists th'. split; [done|]. split; [done|]. auto.
Qed.

Lemma tframe_upd st x o t : sched_ok st -> calm st -> slot (threads st) x = Some t ->
  (forall t', o = Some t' -> running t' = true -> x = current_tid (cpu st) \/ status t' = DEAD) -> tframe x st (upd st x o).
Proof.
  intros Hok Hc Hs Ho. split; [by eapply sched_upd|]. split; [done|]. split; [done|]. intros j th _ Hj Hsj. rewrite (slot_upd _ _ _ _ _ Hs), decide_False by done. by exists th.
Qed.

Lemma event_ok_frame st st' e : event_ok st e -> held_locks st' = held_locks st -> event_ok st' e.
Proof. unfold event_ok. by intros H ->. Qed.

(** ** Preservation *)

Lemma waiter_frame w w' x t p : xinv w -> waiters w !! t = Some p -> waiters w !! x = None -> tframe x (xtasks w) (xtasks w') ->
  (told (xat w) -> told (xat w')) -> waiter_ok w' t p.
Proof.
  intros Hi Hp Hx (_ & _ & _ & Hf) Ht. destruct (xi_waiter w Hi t p Hp) as (H1 & (th & Hs & Hab & Hb) & H3). split; [done|]. split.
  - destruct (Hf t th H1) as (th' & ? & ? & Hbl); [by intros ->; congruence|done|]. exists th'. split; [done|]. split; [congruence|].
    intros E Hn. destruct (Hb E) as [? ?]; [by intros ?; apply Hn, Ht|]. by apply Hbl.
  - destruct p; try done; naive_solver.
Qed.

Lemma no_waiter0 w : xinv w -> waiters w !! 0 = None.
Proof. intros Hi. destruct (waiters w !! 0) as [p|] eqn:E; [|done]. destruct (xi_waiter w Hi 0 p E) as [? _]. lia. Qed.

Lemma inv_xtick w st st0 ms : xinv w -> threads st0 = threads (xtasks w) -> sched_ok st0 -> calm st0 -> held_locks st0 = held_locks (xtasks w) ->
  current_tid (cpu st0) = current_tid (cpu (xtasks w)) -> task_shed_choose st0 ms = Ok st -> xinv (set_xst w st).
Proof.
  intros Hi Hth Hs Hc Hh Hcu E. destruct (tframe_tick 0 st0 st ms Hs Hc E) as (F1 & F2 & F3 & F4).
  assert (tframe 0 (xtasks w) st) as Hf.
  { split; [done|]. split; [done|]. split; [congruence|]. rewrite <- Hth, <- Hcu. exact F4. }
  split; try (by apply Hi); try done.
  - apply (event_ok_frame (xtasks w)); [apply Hi|exact (eq_trans F3 Hh)].
  - intros t p Hp. apply (waiter_frame w (set_xst w st) 0); try done. by apply no_waiter0.
Qed.

Lemma xyield_inv ms w w' : xinv w -> xyield ms w = Ok w' -> xinv w'.
Proof.
  intros Hi E. unfold xyield in E. apply bind_Ok in E as (st0 & E0 & E). apply bind_Ok in E as (st & E1 & [= <-]). unfold task_tyield in E0. destruct (_ >? 0); [done|]. injection E0 as <-.
  eapply (inv_xtick w st (task_reshed (xtasks w))); try done; apply Hi.
Qed.

(** What the count of the process says. *)
Lemma cell_refs w c : xinv w -> cell_at (procs (xk w)) pid = Some c -> refs c = 1 + holders (waiters w) /\ counted c.
Proof.
  intros Hi Hc. pose proof (xi_cell w Hi) as H. unfold cell_ok in H. rewrite Hc in H. pose proof (holders_nonneg (waiters w)). pose proof (holders_size (waiters w)). pose proof (xi_few w Hi) as Hf. unfold few in Hf.
  assert (refs c = 1 + holders (waiters w)) as E; [|unfold counted; lia].
  destruct (xat w); try (by destruct H as (c0 & [= <-] & _ & Hr)); [destruct H as (-> & c0 & [= <-] & _ & Hr); lia|by destruct H].
Qed.

Definition mid (x : xplace) : Prop := x <> XStart /\ x <> XFree /\ x <> XDone.

Lemma mid_cell w : xinv w -> mid (xat w) -> exists c, cell_at (procs (xk w)) pid = Some c /\ present c = false /\ refs c = 1 + holders (waiters w).
Proof. intros Hi (H1 & H2 & H3). pose proof (xi_cell w Hi) as H. unfold cell_ok in H. by destruct (xat w). Qed.

(** A step of the killer in the middle, which may change the process, a thread and the files. *)
Lemma inv_mid w w' c p' x : xinv w -> mid (xat w) -> mid (xat w') -> cell_at (procs (xk w)) pid = Some c -> waiters w' = waiters w -> signal_event w' = signal_event w ->
  table_ok (procs (xk w')) -> cell_at (procs (xk w')) pid = Some (set_value c p') -> values_in (pthreads (value c)) (pthreads p') -> (coded (xat w') -> ecode p' = ecode_arg) ->
  tframe x (xtasks w) (xtasks w') -> waiters w !! x = None -> (told (xat w) -> told (xat w')) -> (forall lid id, xat w' = XKilling lid id -> waiters w !! id = None /\ 0 <= id) -> xinv w'.
Proof.
  intros Hi Hm Hm' Hc Hws He Ht Hc' Hv Hco Hf Hx Hto Hta. destruct (mid_cell w Hi Hm) as (c0 & Hc0 & Hpr & Hr). rewrite Hc in Hc0. injection Hc0 as <-.
  split; rewrite ?Hws, ?He; try done; try apply Hf; try apply Hi.
  - apply (event_ok_frame (xtasks w)); [apply Hi|apply Hf].
  - unfold cell_ok. rewrite Hws, Hc'. destruct Hm' as (? & ? & ?). assert (exists c1, Some (set_value c p') = Some c1 /\ present c1 = false /\ refs c1 = 1 + holders (waiters w)) as Hx' by eauto.
    by destruct (xat w').
  - rewrite Hc'. intros ? [= <-]. split; [|done]. destruct (xi_code w Hi c Hc) as [Hok _]. intros j d Hd. destruct (Hv j d Hd) as (d0 & Hd0 & ->). by apply (Hok j d0).
  - intros t p Hp. by apply (waiter_frame w w' x).
Qed.

Lemma mid_same w y c : xinv w -> mid (xat w) -> mid y -> cell_at (procs (xk w)) pid = Some c -> (coded y -> ecode (value c) = ecode_arg) -> (told (xat w) -> told y) ->
  (forall lid id, y = XKilling lid id -> False) -> xinv (set_xat w y).
Proof.
  intros Hi Hm Hy Hc Hco Hto Hta. pose proof (no_waiter0 w Hi) as H0.
  apply (inv_mid w _ c (value c) 0); try done; try apply Hi.
  - by destruct c.
  - apply values_refl.
  - exact (tframe_same 0 (xtasks w) (xi_sched w Hi) (xi_calm w Hi)).
  - intros lid id E. by destruct (Hta lid id).
Qed.

(** What is written to the process is there. *)
Lemma written w c p : xinv w -> cell_at (procs (xk w)) pid = Some c -> table_ok (procs (xk (write_process pid w p))) /\ cell_at (procs (xk (write_process pid w p))) pid = Some (set_value c p).
Proof. intros Hi Hc. destruct (write_update (procs (xk w)) pid c p (xi_table w Hi) pid_range Hc) as (H1 & H2 & _). done. Qed.

Lemma next_thread_ok p lid p' id ws : process_ok ws p -> next_thread p lid = Ok (Some (p', id)) -> values_in (pthreads p) (pthreads p') /\ ecode p' = ecode p /\ ws !! id = None /\ 0 <= id.
Proof.
  unfold next_thread. intros Hp. destruct (foreach_more _ _); [|done]. pose proof (values_get (pthreads p) lid) as Hv.
  destruct (rcparray_get (pthreads p) lid) as [a [v|]] eqn:E; [|done]. intros [= <- <-]. destruct (get_value _ _ _ _ E) as (d & Hd & ->). destruct (Hp _ _ Hd). done.
Qed.

Lemma prepare_frame st st' id : sched_ok st -> calm st -> 0 <= id -> _task_prepare_tkill st id = Ok st' -> tframe id st st'.
Proof.
  intros Hs Hc Hid E. unfold _task_prepare_tkill in E. rewrite with_thread_ok in E by done. destruct (slot (threads st) id) as [t|] eqn:Et; cbn [mbind res_bind fst snd] in E; injection E as <-; [|by apply tframe_same].
  eapply (tframe_upd st id (Some _)); [done|done|exact Et|]. intros t' [= <-] Hr. destruct Hs as (_ & _ & _ & _ & _ & Hrun).
  case_bool_decide as Hd; [by right|]. cbn in Hr. destruct (Hrun id t Et Hr) as [?|?]; [by left|by destruct Hd].
Qed.

(** *** The killer, at the ends *)

Lemma inv_start w c ps : xinv w -> xat w = XStart -> cell_at (procs (xk w)) pid = Some c -> present c = true -> rcptable_get (procs (xk w)) pid = (ps, Some (value c)) ->
  xinv (set_xat (set_xprocs w (rcptable_remove ps pid)) (XPrepare 0)).
Proof.
  intros Hi Hx Hc Hp E. destruct (law_get_hit (procs (xk w)) pid c (xi_table w Hi) pid_range Hc Hp) as (ps1 & E1 & Ht1 & Hu1 & _). cbn [rc_get rcptable_store] in E1. rewrite E in E1. injection E1 as <-.
  destruct (law_remove ps pid _ Ht1 pid_range Hu1) as (Ht2 & Hu2 & _). cbn [rc_remove rcptable_store] in Ht2, Hu2.
  pose proof (xi_cell w Hi) as Hce. unfold cell_ok in Hce. rewrite Hx, Hc in Hce. destruct Hce as (c0 & [= <-] & _ & Hr). pose proof (holders_nonneg (waiters w)) as Hn.
  rewrite (retire_taken c (proj2 (cell_refs w c Hi Hc))) in Hu2. split; try (by apply Hi); try done.
  - exists (mk_cell (refs c) false (value c)). split; [exact Hu2|]. split; [done|]. exact Hr.
  - intros c1 Hc1. change (cell_at (rcptable_remove ps pid) pid = Some c1) in Hc1. rewrite Hu2 in Hc1. injection Hc1 as <-. destruct (xi_code w Hi c Hc) as [Hok _]. split; [done|].
    intros [?|[?|[?|[?|?]]]]; done.
  - intros t p Ht. destruct (xi_waiter w Hi t p Ht) as (H1 & (th & Hs & Hab & Hb) & H3). split; [done|]. split.
    + exists th. split; [done|]. split; [done|]. intros Ep _. apply Hb; [done|]. rewrite Hx. by intros [?|[?|?]].
    + assert (~ told (xat w)) as Hnt by (rewrite Hx; by intros [?|[?|?]]). destruct p; naive_solver.
Qed.

Lemma inv_defunct w c st e : xinv w -> xat w = XDefunct -> cell_at (procs (xk w)) pid = Some c -> event_defunct (xtasks w) (signal_event w) = Ok (st, e) ->
  xinv (set_xat (set_signal (set_xst w st) e) XRefs).
Proof.
  intros Hi Hx Hc E. rewrite defunct_ok in E by apply Hi. injection E as <- <-. destruct (xi_event w Hi) as (Ev1 & Ev2 & Ev3 & Ev4 & Ev5 & Ev6). set (q := wait_queue _) in *.
  assert (forall t th, slot (threads (xtasks w)) t = Some th -> exists th', slot (wake_slots (threads (xtasks w)) q) t = Some th' /\ abort_ th' = abort_ th /\ running th' = running th /\
    (status th = DEAD -> status th' = DEAD)) as Hw.
  { intros t th Hs. rewrite wake_slots_spec, Hs. case_decide; [|by exists th]. cbn. case_bool_decide as Hb; [|by exists th]. eexists. split; [done|]. split; [done|]. split; [done|]. intros Hd. congruence. }
  split; try (by apply Hi); try done.
  - destruct (xi_sched w Hi) as (S1 & S2 & S3 & S4 & S5 & S6). split; [done|]. split.
    { enough (forall ts, zlen (wake_slots ts q) = zlen ts) as Hz by (change (zlen (wake_slots (threads (xtasks w)) q) <= thread_count (xtasks w) + 1); by rewrite Hz).
      clear. induction q as [|t q IH]; intros ts; [done|]. cbn [wake_slots foldl]. unfold wake_slots in IH. rewrite IH. unfold wake_slot. repeat case_match; try done. apply zlen_insert. }
    do 3 (split; [done|]). intros t th' Hs Hr. change (slot (wake_slots (threads (xtasks w)) q) t = Some th') in Hs.
    assert (exists th, slot (threads (xtasks w)) t = Some th) as [th Hth].
    { rewrite wake_slots_spec in Hs. destruct (slot (threads (xtasks w)) t) eqn:Et; [eauto|]. by case_decide. }
    destruct (Hw t th Hth) as (th1 & H1 & _ & H2 & H3). rewrite Hs in H1. injection H1 as <-. rewrite H2 in Hr. destruct (S6 t th Hth Hr); [by left|right; auto].
  - pose proof (xi_cell w Hi) as Hce. unfold cell_ok in *. by rewrite Hx in Hce.
  - intros c1 Hc1. destruct (xi_code w Hi c1 Hc1) as [Hok Hco]. split; [done|]. intros _. apply Hco. rewrite Hx. right. by left.
  - intros t p Ht. destruct (xi_waiter w Hi t p Ht) as (H1 & (th & Hs & Hab & Hb) & H3). split; [done|]. split.
    + destruct (Hw t th Hs) as (th' & ? & E & _). exists th'. split; [done|]. split; [congruence|]. intros _ Hn. destruct Hn. by left.
    + assert (told XRefs) by (by left). destruct p; naive_solver.
Qed.

Lemma inv_free w c : xinv w -> xat w = XFree -> cell_at (procs (xk w)) pid = Some c ->
  xinv (set_xat (set_xk w (mk_kernel (rcptable_unref (procs (xk w)) pid) (process_count (xk w) - 1) (tasks (xk w)) (kvfs (xk w)) (cpu_locals (xk w)))) XDone).
Proof.
  intros Hi Hx Hc. pose proof (xi_cell w Hi) as Hce. unfold cell_ok in Hce. rewrite Hx in Hce. destruct Hce as (Hn & c0 & Hc0 & Hp & Hr). rewrite Hc in Hc0. injection Hc0 as <-.
  destruct (law_unref (procs (xk w)) pid c (xi_table w Hi) pid_range Hc) as (Ht & Hu & _). cbn [rc_unref rcptable_store] in Ht, Hu. unfold drop_ref in Hu. rewrite Hr in Hu. change (s32 (1 - 1) =? 0) with true in Hu. cbv iota in Hu.
  split; try (by apply Hi); try done.
  - intros c1 Hc1. change (cell_at (rcptable_unref (procs (xk w)) pid) pid = Some c1) in Hc1. congruence.
  - intros t p Htp. destruct (xi_waiter w Hi t p Htp) as (H1 & (th & Hs & Hab & Hb) & H3). split; [done|]. split.
    + exists th. split; [done|]. split; [done|]. intros _ Hnt. destruct Hnt. right. by right.
    + assert (told XDone) by (right; by right). destruct p; naive_solver.
Qed.

(** *** All steps of the killer *)

Lemma held_ok w p : held_process (procs (xk w)) pid = Ok p -> exists c, cell_at (procs (xk w)) pid = Some c /\ value c = p.
Proof. unfold held_process. intros E. apply bind_Ok in E as (c & Ec%res_of_option_Ok & [= <-]). eauto. Qed.

Lemma refcount_ok (ps : rcptable process) c : cell_at ps pid = Some c -> rcptable_refcount ps pid = refs c.
Proof.
  unfold rcptable_refcount. rewrite u64_small by done. cbn [cell_at rcptable_store]. by destruct (seg_find _ _ _) as [[i d]|]; cbn; intros [= <-].
Qed.

(** The process is written and the killer goes on. *)
Lemma inv_write w st v c p' y x : xinv w -> mid (xat w) -> mid y -> cell_at (procs (xk w)) pid = Some c ->
  values_in (pthreads (value c)) (pthreads p') -> (coded y -> ecode p' = ecode_arg) -> tframe x (xtasks w) st -> waiters w !! x = None ->
  (told (xat w) -> told y) -> (forall lid id, y = XKilling lid id -> waiters w !! id = None /\ 0 <= id) ->
  xinv (set_xat (write_process pid (set_xk w (set_vfs (set_tasks (xk w) st) v)) p') y).
Proof.
  intros Hi Hm Hy Hc Hv Hco Hf Hx Hto Hta. destruct (written w c p' Hi Hc) as [Ht Hc']. by apply (inv_mid w _ c p' x).
Qed.

Lemma set_xst_split w st : set_xst w st = set_xk w (set_vfs (set_tasks (xk w) st) (kvfs (xk w))).
Proof. by destruct w as [[] ? ? ?]. Qed.
Lemma xk_id w : w = set_xk w (set_vfs (set_tasks (xk w) (xtasks w)) (kvfs (xk w))).
Proof. by destruct w as [[] ? ? ?]. Qed.

(** A place before the exit code is set, or before the event. *)
Ltac early := solve [by intros [?|[?|[?|[?|?]]]] | by intros [?|[?|?]]].

Lemma killer_inv ms w w' : xinv w -> killer_step pkill_hook pid ecode_arg ms w = Ok w' -> xinv w'.
Proof.
  intros Hi E. pose proof (no_waiter0 w Hi) as H0. pose proof (tframe_same 0 (xtasks w) (xi_sched w Hi) (xi_calm w Hi)) as Hsame.
  unfold killer_step in E. destruct (xat w) as [|lid|lid|lid id| | | | | | |] eqn:Hx.
  - pose proof (xi_cell w Hi) as Hce. unfold cell_ok in Hce. rewrite Hx in Hce. destruct Hce as (c & Hc & Hp & _).
    destruct (law_get_hit (procs (xk w)) pid c (xi_table w Hi) pid_range Hc Hp) as (ps & Eg & _). cbn [rc_get rcptable_store] in Eg. rewrite Eg in E. injection E as <-. by eapply inv_start.
  - apply bind_Ok in E as (p & (c & Hc & <-)%held_ok & E). destruct (xi_code w Hi c Hc) as [Hok Hco]. apply bind_Ok in E as (n & En & E). destruct n as [[p id]|].
    + destruct (next_thread_ok _ _ _ _ _ Hok En) as (Hv & He & Hid & Hid0). apply bind_Ok in E as (st & Est & [= <-]).
      rewrite set_xst_split. eapply (inv_write w st (kvfs (xk w)) c _ _ id); try done; rewrite ?Hx; try done.
      * eapply values_trans; [exact Hv|apply values_unref].
      * early.
      * eapply prepare_frame; [apply Hi|apply Hi|done|exact Est].
      * early.
    + injection E as <-. eapply mid_same; rewrite ?Hx; try done; [early|early].
  - apply bind_Ok in E as (p & (c & Hc & <-)%held_ok & E). destruct (xi_code w Hi c Hc) as [Hok Hco]. apply bind_Ok in E as (n & En & E). destruct n as [[p id]|].
    + destruct (next_thread_ok _ _ _ _ _ Hok En) as (Hv & He & Hid & Hid0). injection E as <-. 
      rewrite (xk_id w) at 1. eapply (inv_write w (xtasks w) (kvfs (xk w)) c _ _ 0); rewrite ?Hx; try done; [early|early|by intros ? ? [= <- <-]].
    + injection E as <-. eapply mid_same; rewrite ?Hx; try done; [early|early].
  - destruct (xi_target w Hi lid id Hx) as [Hid Hid0]. destruct (slot (threads (xtasks w)) id) as [t|] eqn:Et.
    + destruct (busy t >? 0); [by eapply xyield_inv|]. apply bind_Ok in E as (p & (c & Hc & <-)%held_ok & [= <-]). rewrite set_xst_split.
      eapply (inv_write w _ (kvfs (xk w)) c _ _ id); rewrite ?Hx; try done; [apply values_unref|early| |early].
      eapply tframe_upd; [apply Hi|apply Hi|exact Et|done].
    + apply bind_Ok in E as (p & (c & Hc & <-)%held_ok & [= <-]). 
      rewrite (xk_id w) at 1. eapply (inv_write w (xtasks w) (kvfs (xk w)) c _ _ 0); rewrite ?Hx; try done; [apply values_unref|early|early].
  - apply bind_Ok in E as (p & (c & Hc & <-)%held_ok & E). destruct (pbusy _ >? 0); [by eapply xyield_inv|]. injection E as <-.
    eapply mid_same; rewrite ?Hx; try done; [early|early].
  - apply bind_Ok in E as (p & (c & Hc & <-)%held_ok & [= <-]). 
    rewrite (xk_id w) at 1. eapply (inv_write w (xtasks w) (kvfs (xk w)) c _ _ 0); rewrite ?Hx; try done; [apply values_refl|early].
  - apply bind_Ok in E as (p & (c & Hc & <-)%held_ok & E). apply bind_Ok in E as ([v p] & Eh & [= <-]). destruct (hook_keeps _ _ _ _ Eh) as [He Hv]. destruct (xi_code w Hi c Hc) as [_ Hco].
    assert (set_xk w (set_vfs (xk w) v) = set_xk w (set_vfs (set_tasks (xk w) (xtasks w)) v)) as -> by (by destruct w as [[] ? ? ?]).
    eapply (inv_write w (xtasks w) v c _ _ 0); rewrite ?Hx; try done; [|early]. intros _. rewrite He. apply Hco. rewrite Hx. by left.
  - apply bind_Ok in E as (p & (c & Hc & <-)%held_ok & E). apply bind_Ok in E as ([st e] & Ed & [= <-]). by eapply inv_defunct.
  - destruct (mid_cell w Hi) as (c & Hc & Hp & Hr); [by rewrite Hx|]. rewrite (refcount_ok _ c Hc) in E. destruct (Z.gtb_spec (refs c) 1); [by eapply xyield_inv|]. injection E as <-.
    pose proof (holders_nonneg (waiters w)). destruct (xi_code w Hi c Hc) as [Hok Hco]. split; try (by apply Hi); try done.
    + split; [cbn; lia|]. exists c. split; [done|]. split; [done|]. lia.
    + intros c1 Hc1. change (cell_at (procs (xk w)) pid = Some c1) in Hc1. rewrite Hc in Hc1. injection Hc1 as <-. split; [done|]. intros _. apply Hco. rewrite Hx. right; right. by left.
    + intros t p Ht. destruct (xi_waiter w Hi t p Ht) as (Hw1 & (th & Hs & Hab & Hb) & Hw3). split; [done|]. split.
      * exists th. split; [done|]. split; [done|]. intros _ Hnt. destruct Hnt. right. by left.
      * assert (told XFree) by (right; by left). destruct p; naive_solver.
  - apply bind_Ok in E as (p & (c & Hc & <-)%held_ok & [= <-]). by eapply inv_free.
  - by injection E as <-.
Qed.

(** *** The waiters *)

Lemma tframe_trans x st1 st2 st3 : tframe x st1 st2 -> tframe x st2 st3 -> tframe x st1 st3.
Proof.
  intros (_ & _ & A3 & A4) (B1 & B2 & B3 & B4). split; [done|]. split; [done|]. split; [congruence|]. intros t th Ht Hx Hs.
  destruct (A4 t th Ht Hx Hs) as (th1 & Hs1 & E1 & H1). destruct (B4 t th1 Ht Hx Hs1) as (th2 & Hs2 & E2 & H2). exists th2. split; [done|]. split; [congruence|].
  intros Hb Hc. destruct (H1 Hb Hc). auto.
Qed.

(** A waiter goes on, with the references and the threads as they then are. *)
Lemma inv_waiter w w' t p p' o : xinv w -> waiters w !! t = Some p -> waiters w' = <[t := p']> (waiters w) -> xat w' = xat w ->
  tframe t (xtasks w) (xtasks w') -> event_ok (xtasks w') (signal_event w') -> table_ok (procs (xk w')) -> cell_at (procs (xk w')) pid = o ->
  (forall c, cell_at (procs (xk w)) pid = Some c -> (holds p' = holds p /\ o = Some c) \/ o = Some (set_refs c (refs c + holds p' - holds p))) ->
  (cell_at (procs (xk w)) pid = None -> o = None /\ holds p' = holds p) -> (xat w = XFree -> holds p' = holds p) -> waiter_ok w' t p' -> xinv w'.
Proof.
  intros Hi Hp Hws Hx Hf He Ht Ho Hc Hn Hfr Hok. pose proof (holders_insert (waiters w) t p p' Hp) as Hh.
  assert (forall c, cell_at (procs (xk w)) pid = Some c -> exists c', o = Some c' /\ present c' = present c /\ value c' = value c /\ refs c' = refs c + holds p' - holds p) as Hc'.
  { intros c Hcc. destruct (cell_refs w c Hi Hcc) as [Er Hct]. pose proof (xi_few w Hi) as Hfw. apply (few_insert _ t p p' Hp) in Hfw. unfold few in Hfw.
    pose proof (holders_size (<[t := p']> (waiters w))). pose proof (holders_nonneg (<[t := p']> (waiters w))). unfold counted in Hct.
    destruct (Hc c Hcc) as [[E ->]| ->]; eexists; (split; [done|]); (split; [done|]); (split; [done|]); [lia|]. cbn [refs set_refs]. rewrite s32_small by lia. lia. }
  split; rewrite ?Hws, ?Hx, ?Ho; try done; try apply Hf.
  - destruct (decide (killer = t)) as [<-|Hne]; [pose proof (xi_killer w Hi); congruence|]. rewrite lookup_insert_ne by done. apply Hi.
  - apply (few_insert _ t p p' Hp), Hi.
  - pose proof (xi_cell w Hi) as Hce. unfold cell_ok in *. rewrite Hx, Hws, Ho, Hh.
    destruct (xat w); try (destruct Hce as (c & Hcc & H1 & H2); destruct (Hc' c Hcc) as (c' & -> & E1 & _ & E2); exists c'; split; [done|]; split; [congruence|]; lia).
    + destruct Hce as (H0 & c & Hcc & H1 & H2). specialize (Hfr eq_refl). destruct (Hc' c Hcc) as (c' & -> & E1 & _ & E2). split; [lia|]. exists c'. split; [done|]. split; [congruence|]. lia.
    + destruct Hce as [Hcc H0]. destruct (Hn Hcc) as [-> E]. split; [done|]. lia.
  - intros c1 Hc1. destruct (cell_at (procs (xk w)) pid) as [c|] eqn:Hcc; [|destruct (Hn eq_refl); congruence]. destruct (Hc' c eq_refl) as (c' & E & _ & Ev & _). assert (c' = c1) as -> by congruence.
    destruct (xi_code w Hi c Hcc) as [Hpo Hco]. rewrite Ev. split; [|done]. intros j d Hd. destruct (Hpo j d Hd) as [Hnd ?]. split; [|done]. rewrite lookup_insert_ne; [done|]. intros ->. congruence.
  - intros lid id E. destruct (xi_target w Hi lid id E) as [Hnd ?]. split; [|done]. rewrite lookup_insert_ne; [done|]. intros ->. congruence.
  - intros j q. destruct (decide (j = t)) as [->|Hne]; [rewrite lookup_insert_eq; by intros [= <-]|rewrite lookup_insert_ne by done]. intros Hq.
    destruct (xi_waiter w Hi j q Hq) as (H1 & (th & Hs & Hab & Hb) & H3). split; [done|]. split.
    + destruct Hf as (_ & _ & _ & Hf). destruct (Hf j th H1 Hne Hs) as (th' & ? & ? & Hbl). exists th'. split; [done|]. split; [congruence|]. rewrite Hx. intros E Hnt. destruct (Hb E Hnt). auto.
    + rewrite Hx. exact H3.
Qed.

Lemma holder_cell w t p : xinv w -> waiters w !! t = Some p -> holds p = 1 -> exists c, cell_at (procs (xk w)) pid = Some c /\ 2 <= refs c /\ xat w <> XFree /\ xat w <> XDone.
Proof.
  intros Hi Hp Hh. pose proof (holders_held _ _ _ Hp Hh) as Hn. pose proof (xi_cell w Hi) as Hc. unfold cell_ok in Hc.
  destruct (xat w); try (destruct Hc as (c & -> & _ & Hr); exists c; split; [done|]; split; [lia|]; by split).
  - destruct Hc as [? _]. lia.
  - destruct Hc as [_ ?]. lia.
Qed.

(** The thread of a waiter, when it runs. *)
Lemma waiter_thread w t p : xinv w -> waiters w !! t = Some p -> t = current_tid (cpu (xtasks w)) -> exists th, slot (threads (xtasks w)) t = Some th /\ abort_ th = false /\ 1 <= t /\ (p = WAsleep -> told (xat w)).
Proof.
  intros Hi Hp Ht. destruct (xi_waiter w Hi t p Hp) as (H1 & (th & Hs & Hab & Hb) & _). exists th. split; [done|]. split; [done|]. split; [done|].
  intros E. assert (told (xat w) \/ ~ told (xat w)) as [?|Hn]; [|done|by destruct (Hb E Hn)]. unfold told. destruct (xat w); naive_solver.
Qed.

(** A step of the waiter [t]: only it and its place change. *)
Definition wgood w w' (t : Z) : Prop :=
  xinv w' /\ tframe t (xtasks w) (xtasks w') /\ xat w' = xat w /\ exists p, waiters w' = <[t := p]> (waiters w).

Lemma waiter_called ms w t : xinv w -> waiters w !! t = Some WCalled -> t = current_tid (cpu (xtasks w)) ->
  exists w', waiter_step pid ms w t WCalled = Ok w' /\ wgood w w' t.
Proof.
  intros Hi Hp Ht. destruct (waiter_thread w t _ Hi Hp Ht) as (th & Hs & Hab & H1 & _). pose proof (tframe_same t (xtasks w) (xi_sched w Hi) (xi_calm w Hi)) as Hf.
  assert (forall w' p', xtasks w' = xtasks w -> p' <> WAsleep -> match p' with WWait => True | WReturned r o => r = - rc ENOPS /\ o = None | _ => False end -> waiter_ok w' t p') as Hok.
  { intros w' p' E Hne Hm. split; [done|]. split; [rewrite E; by exists th|]. destruct p'; naive_solver. }
  unfold waiter_step. pose proof (law_get_miss (procs (xk w)) pid (xi_table w Hi) pid_range) as Hmiss. cbn [rc_get rcptable_store] in Hmiss.
  destruct (cell_at (procs (xk w)) pid) as [c|] eqn:Hc.
  - destruct (present c) eqn:Hpr.
    + destruct (law_get_hit (procs (xk w)) pid c (xi_table w Hi) pid_range Hc Hpr) as (ps & Eg & Ht1 & Hu & _). cbn [rc_get rcptable_store] in Eg. rewrite Eg. eexists. split; [done|]. split; [|split; [exact Hf|split; [done|by eexists]]].
      apply (inv_waiter w _ t WCalled WWait (cell_at ps pid) Hi Hp); [done|done|exact Hf|apply Hi|exact Ht1|done| | | |by apply Hok].
      * intros ? Hc0. rewrite Hc in Hc0. injection Hc0 as <-. right. rewrite Hu. do 2 f_equal. cbn. lia.
      * congruence.
      * pose proof (xi_cell w Hi) as Hce. unfold cell_ok in Hce. intros Hx. rewrite Hx in Hce. destruct Hce as (_ & c0 & E & ? & _). congruence.
    + rewrite Hmiss by (intros ? E; congruence). eexists. split; [done|]. split; [|split; [exact Hf|split; [done|by eexists]]]. apply (inv_waiter w _ t WCalled (WReturned (- rc ENOPS) None) (cell_at (procs (xk w)) pid) Hi Hp); [done|done|exact Hf|apply Hi|apply Hi|done| | |done|by apply Hok]; rewrite Hc.
      * intros ? Hc0. by left.
      * done.
  - rewrite Hmiss by (intros ? E; congruence). eexists. split; [done|]. split; [|split; [exact Hf|split; [done|by eexists]]]. apply (inv_waiter w _ t WCalled (WReturned (- rc ENOPS) None) (cell_at (procs (xk w)) pid) Hi Hp); [done|done|exact Hf|apply Hi|apply Hi|done| | |done|by apply Hok]; rewrite Hc.
    + done.
    + done.
Qed.

(** A waiter that keeps its reference. *)
Lemma inv_keep w w' t p p' : xinv w -> waiters w !! t = Some p -> holds p = holds p' -> waiters w' = <[t := p']> (waiters w) -> xat w' = xat w -> procs (xk w') = procs (xk w) ->
  tframe t (xtasks w) (xtasks w') -> event_ok (xtasks w') (signal_event w') -> waiter_ok w' t p' -> xinv w'.
Proof.
  intros Hi Hp Hh Hws Hx Hps Hf He Hok. apply (inv_waiter w w' t p p' (cell_at (procs (xk w)) pid) Hi Hp); try done; rewrite ?Hps; try apply Hi; try done.
  intros c Hc. by left.
Qed.

Lemma waiter_waits ms w t : xinv w -> waiters w !! t = Some WWait -> t = current_tid (cpu (xtasks w)) ->
  exists w', waiter_step pid ms w t WWait = Ok w' /\ wgood w w' t /\ waiters w' !! t = Some WAsleep /\
    exists th, slot (threads (xtasks w')) t = Some th /\ status th = BLOCKED /\ t <> current_tid (cpu (xtasks w')).
Proof.
  intros Hi Hp Ht. destruct (waiter_thread w t _ Hi Hp Ht) as (th & Hs & Hab & H1 & _). destruct (holder_cell w t _ Hi Hp eq_refl) as (c & Hc & _ & _).
  unfold waiter_step, held_process. rewrite Hc. cbn [res_of_option mbind res_bind]. subst t. set (cur := current_tid _) in *. set (st := xtasks w) in *.
  rewrite (wait_begin_ok st (signal_event w) th) by (done || apply Hi || (fold cur; lia)). cbv zeta. fold cur. set (st1 := set_threads st _).
  assert (reshed_block (cpu st) = 0) as Hb by apply Hi. unfold task_tcan_yield, task_tyield. change (cpu st1) with (cpu st). rewrite Hb. cbn [Z.eqb Z.gtb Z.compare mbind res_bind].
  assert (tframe cur st st1) as Hf1.
  { apply (tframe_upd st cur (Some (set_status th BLOCKED)) th); [apply Hi|apply Hi|done|]. intros ? _ _. by left. }
  destruct Hf1 as (F1 & F2 & F3 & F4). assert (sched_ok (task_reshed st1)) as Hsc by done.
  destruct (shed_choose_cases (task_reshed st1) ms Hsc) as (st2 & E2 & _). rewrite E2. cbn [mbind res_bind]. eexists. split; [done|].
  assert (tframe cur st st2) as Hf.
  { apply (tframe_trans cur st st1); [done|]. by apply (tframe_tick cur (task_reshed st1) st2 ms). }
  destruct (tick_blocked (task_reshed st1) st2 ms cur (set_status th BLOCKED) Hsc E2 H1) as (th' & Hs' & Hab' & Hbl).
  { by apply (slot_upd_eq st cur (Some (set_status th BLOCKED)) th). }
  split; [|split; [apply lookup_insert_eq|by exists th'; destruct (Hbl eq_refl)]].
  split; [|split; [exact Hf|split; [done|by eexists]]]. apply (inv_keep w _ cur WWait WAsleep Hi Hp); try done.
  - destruct (xi_event w Hi) as (Ev1 & Ev2 & Ev3 & Ev4 & Ev5 & Ev6). destruct Hf as (_ & _ & Hh & _).
    change (event_ok st2 (set_queue (signal_event w) (wait_queue (signal_event w) ++ [cur]))). unfold event_ok. cbn [ev_lock tq_lock set_queue wait_queue]. rewrite Hh.
    split_and!; try done. apply Forall_app. split; [done|]. constructor; [lia|done].
  - split; [done|]. split; [|done]. exists th'. split; [done|]. split; [by rewrite Hab'|]. intros _ _. by apply Hbl.
Qed.

Lemma waiter_wakes ms w t : xinv w -> waiters w !! t = Some WAsleep -> t = current_tid (cpu (xtasks w)) ->
  exists w', waiter_step pid ms w t WAsleep = Ok w' /\ wgood w w' t.
Proof.
  intros Hi Hp Ht. destruct (waiter_thread w t _ Hi Hp Ht) as (th & Hs & Hab & H1 & Hto). pose proof (tframe_same t (xtasks w) (xi_sched w Hi) (xi_calm w Hi)) as Hf.
  unfold waiter_step, event_wait_end, task_tshould_exit. rewrite with_thread_ok by (apply Hi || (rewrite <- Ht; lia)). rewrite <- Ht, Hs. cbn [mbind res_bind fst snd default from_option id].
  rewrite Hab, (insert_slot_id _ _ _ Hs), set_threads_id. cbn [mbind res_bind]. eexists. split; [done|]. split; [|split; [exact Hf|split; [done|by eexists]]].
  apply (inv_keep w _ t WAsleep (WRead 0) Hi Hp); try done.
  - exact (xi_event w Hi).
  - split; [done|]. split; [by exists th|]. split; [done|]. by apply Hto.
Qed.

Lemma waiter_reads ms w t ret : xinv w -> waiters w !! t = Some (WRead ret) -> exists w', waiter_step pid ms w t (WRead ret) = Ok w' /\ wgood w w' t.
Proof.
  intros Hi Hp. destruct (xi_waiter w Hi t _ Hp) as (H1 & (th & Hs & Hab & _) & -> & Hto). destruct (holder_cell w t _ Hi Hp eq_refl) as (c & Hc & _ & _).
  unfold waiter_step, held_process. rewrite Hc. cbn [res_of_option mbind res_bind]. eexists. split; [done|].
  split; [|split; [exact (tframe_same t (xtasks w) (xi_sched w Hi) (xi_calm w Hi))|split; [done|by eexists]]]. apply (inv_keep w _ t (WRead 0) (WUnref 0 (ecode (value c))) Hi Hp); try done.
  - exact (tframe_same t (xtasks w) (xi_sched w Hi) (xi_calm w Hi)).
  - exact (xi_event w Hi).
  - split; [done|]. split; [by exists th|]. split; [done|]. split; [done|]. destruct (xi_code w Hi c Hc) as [_ Hco]. apply Hco. right; by right.
Qed.

Lemma waiter_unrefs ms w t ret code : xinv w -> waiters w !! t = Some (WUnref ret code) -> exists w', waiter_step pid ms w t (WUnref ret code) = Ok w' /\ wgood w w' t.
Proof.
  intros Hi Hp. destruct (xi_waiter w Hi t _ Hp) as (H1 & (th & Hs & Hab & _) & -> & Hto & ->). destruct (holder_cell w t _ Hi Hp eq_refl) as (c & Hc & Hr & Hx1 & Hx2).
  unfold waiter_step. eexists. split; [done|]. destruct (law_unref (procs (xk w)) pid c (xi_table w Hi) pid_range Hc) as (Ht & Hu & _). cbn [rc_unref rcptable_store] in Ht, Hu.
  split; [|split; [exact (tframe_same t (xtasks w) (xi_sched w Hi) (xi_calm w Hi))|split; [done|by eexists]]]. apply (inv_waiter w _ t (WUnref 0 ecode_arg) (WReturned 0 (Some ecode_arg)) (drop_ref c) Hi Hp); try done.
  - exact (tframe_same t (xtasks w) (xi_sched w Hi) (xi_calm w Hi)).
  - exact (xi_event w Hi).
  - intros ? Hc0. rewrite Hc in Hc0. injection Hc0 as <-. right. destruct (cell_refs w c Hi Hc) as [_ Hct]. unfold counted in Hct. rewrite drop_small by lia. cbn [holds]. rewrite Z.add_0_r, set_refs_small by lia. done.
  - congruence.
  - split; [done|]. split; [by exists th|]. by right.
Qed.

Lemma waiter_inv ms w t p : xinv w -> waiters w !! t = Some p -> t = current_tid (cpu (xtasks w)) -> exists w', waiter_step pid ms w t p = Ok w' /\ wgood w w' t.
Proof.
  intros Hi Hp Ht. destruct p; [by apply waiter_called|by destruct (waiter_waits ms w t Hi Hp Ht) as (w' & ? & ? & _); exists w'|by apply waiter_wakes|by apply waiter_reads|by apply waiter_unrefs|].
  exists w. split; [done|]. split; [done|]. split; [exact (tframe_same t (xtasks w) (xi_sched w Hi) (xi_calm w Hi))|]. split; [done|]. exists (WReturned ret code). by rewrite insert_id.
Qed.

Lemma xstep_inv w w' : xinv w -> xstep pkill_hook pid ecode_arg killer w w' -> xinv w'.
Proof.
  intros Hi Hst. destruct Hst as [ms w1 st E|ms w1 w2 E].
  - by eapply (inv_xtick w1 st (xtasks w1)); try done; apply Hi.
  - unfold exit_step in E. destruct (_ =? killer); [by eapply killer_inv|]. destruct (waiters w1 !! _) as [p|] eqn:Ep; [|by injection E as <-].
    destruct (waiter_inv ms w1 _ p Hi Ep eq_refl) as (w3 & E3 & Hi3 & _). rewrite E in E3. by injection E3 as <-.
Qed.

Lemma xsteps_inv w w' : xinv w -> rtc (xstep pkill_hook pid ecode_arg killer) w w' -> xinv w'.
Proof. intros Hi Hs. induction Hs as [|w1 w2 w3 H1 _ IH]; [done|]. apply IH. by apply (xstep_inv w1 w2). Qed.

(** ** What holds *)

(** The process is listed and alive, the threads that may wait for it have not called yet, and
    none of them is one of its threads. *)
Definition xstart w : Prop :=
  sched_ok (xtasks w) /\ calm (xtasks w) /\ event_ok (xtasks w) (signal_event w) /\ table_ok (procs (xk w)) /\ waiters w !! killer = None /\ few (waiters w) /\ xat w = XStart /\
  (exists c, cell_at (procs (xk w)) pid = Some c /\ present c = true /\ refs c = 1 /\ process_ok (waiters w) (value c)) /\
  forall t p, waiters w !! t = Some p -> p = WCalled /\ 1 <= t /\ exists th, slot (threads (xtasks w)) t = Some th /\ abort_ th = false.

Lemma nobody_holds ws : (forall t p, ws !! t = Some p -> p = WCalled) -> holders ws = 0.
Proof.
  unfold holders. induction ws as [|t p ws Hn IH] using map_ind; intros H; [done|]. rewrite map_fold_insert_L by (done || (intros; lia)). rewrite IH.
  - by rewrite (H t p (lookup_insert_eq _ _ _)).
  - intros j q Hj. apply (H j q). rewrite lookup_insert_ne; [done|]. intros ->. congruence.
Qed.

Lemma xstart_inv w : xstart w -> xinv w.
Proof.
  intros (H1 & H2 & H3 & H4 & H5 & H7 & H6 & (c & Hc & Hp & Hr & Hok) & H8). split; try done.
  - unfold cell_ok. rewrite H6, nobody_holds; [by exists c|]. intros t p Ht. by apply (H8 t p).
  - intros c1 Hc1. rewrite Hc in Hc1. injection Hc1 as <-. split; [done|]. rewrite H6. by intros [?|[?|[?|[?|?]]]].
  - intros lid id E. congruence.
  - intros t p Ht. destruct (H8 t p Ht) as (-> & ? & th & Hs & Hab). split; [done|]. split; [|done]. exists th. split; [done|]. by split.
Qed.

(** C4: However the end of a process, the scheduler and any number of threads that wait for the process
    interleave, nothing wrong is said and nothing is released too early: a waiter that has
    returned was told the exit code, or that there is no such process; as long as a waiter has
    the process it is in memory; no step of a waiter fails; and once the end is complete the
    process is gone and no waiter has it.  It is a statement about what has happened: that a
    waiter returns and that the end completes is not said, and is false for a waiter that is
    interrupted before it sleeps ([prwait_too_late]).  The waiters are not threads of the
    process and are not being killed themselves. *)
Theorem prwait_gets_code w0 w : xstart w0 -> rtc (xstep pkill_hook pid ecode_arg killer) w0 w ->
  (forall t ret code, waiters w !! t = Some (WReturned ret code) -> (ret = - rc ENOPS /\ code = None) \/ (ret = 0 /\ code = Some ecode_arg)) /\
  (forall t p, waiters w !! t = Some p -> holds p = 1 -> is_Some (cell_at (procs (xk w)) pid)) /\
  (forall ms p, waiters w !! current_tid (cpu (xtasks w)) = Some p -> exists w', exit_step pkill_hook pid ecode_arg killer ms w = Ok w') /\
  (xat w = XDone -> cell_at (procs (xk w)) pid = None /\ forall t p, waiters w !! t = Some p -> holds p = 0).
Proof.
  intros Hs Hr. pose proof (xsteps_inv _ _ (xstart_inv _ Hs) Hr) as Hi. split; [|split; [|split]].
  - intros t ret code Ht. by destruct (xi_waiter w Hi t _ Ht) as (_ & _ & H).
  - intros t p Ht Hp. destruct (holder_cell w t p Hi Ht Hp) as (c & -> & _). by eexists.
  - intros ms p Hp. unfold exit_step. destruct (Z.eqb_spec (current_tid (cpu (xtasks w))) killer) as [E|_]; [pose proof (xi_killer w Hi); congruence|].
    rewrite Hp. destruct (waiter_inv ms w _ p Hi Hp eq_refl) as (w' & E & _). eauto.
  - intros Hx. pose proof (xi_cell w Hi) as Hc. unfold cell_ok in Hc. rewrite Hx in Hc. destruct Hc as [Hc Hn]. split; [done|]. intros t p Ht.
    assert (holds p = 0 \/ holds p = 1) as [?|Hp]; [destruct p; auto|done|]. pose proof (holders_held _ _ _ Ht Hp). lia.
Qed.

(** A waiter that came too late. *)
Record late (t : Z) w : Prop := mk_late {
  la_inv : xinv w;
  la_at : xat w = XRefs;
  la_waiter : waiters w !! t = Some WWait \/ waiters w !! t = Some WAsleep /\
    exists th, slot (threads (xtasks w)) t = Some th /\ status th = BLOCKED /\ t <> current_tid (cpu (xtasks w)) }.

Lemma late_frame t x w w' : late t w -> xinv w' -> xat w' = XRefs -> waiters w' !! t = waiters w !! t -> t <> x -> tframe x (xtasks w) (xtasks w') -> late t w'.
Proof.
  intros [Hi Ha Hw] Hi' Ha' Hws Hx (_ & _ & _ & Hf). split; [done|done|]. rewrite Hws. destruct Hw as [?|[Hw (th & Hs & Hb & Hc)]]; [by left|right]. split; [done|].
  destruct (xi_waiter w Hi t _ Hw) as [H1 _]. destruct (Hf t th H1 Hx Hs) as (th' & ? & _ & Hbl). exists th'. split; [done|]. by apply Hbl.
Qed.

Lemma late_yield t ms w w' : late t w -> xyield ms w = Ok w' -> late t w'.
Proof.
  intros Hl E. pose proof (la_inv t w Hl) as Hi. pose proof (xyield_inv ms w w' Hi E) as Hi'. unfold xyield in E. apply bind_Ok in E as (st0 & E0 & E). apply bind_Ok in E as (st & E1 & [= <-]).
  unfold task_tyield in E0. destruct (_ >? 0); [done|]. injection E0 as <-. assert (tframe 0 (xtasks w) st) as Hf by (apply (tframe_tick 0 (task_reshed (xtasks w)) st ms); [apply Hi|apply Hi|done]).
  apply (late_frame t 0 w (set_xst w st)); try done; [apply Hl|]. intros ->. pose proof (no_waiter0 w Hi) as H0. destruct (la_waiter _ w Hl) as [?|[? _]]; congruence.
Qed.

Lemma late_step t w w' : late t w -> xstep pkill_hook pid ecode_arg killer w w' -> late t w'.
Proof.
  intros Hl Hst. pose proof (la_inv t w Hl) as Hi. pose proof (xstep_inv w w' Hi Hst) as Hi'.
  assert (exists p, waiters w !! t = Some p /\ holds p = 1) as (p & Hp & Hh) by (destruct (la_waiter t w Hl) as [?|[? _]]; eauto).
  destruct Hst as [ms w st E|ms w w' E].
  - assert (t <> 0) as Ht0 by (intros ->; pose proof (no_waiter0 w Hi); congruence).
    apply (late_frame t 0 w (set_xst w st)); try done; [apply Hl|]. apply (tframe_tick 0 (xtasks w) st ms); [apply Hi|apply Hi|done].
  - unfold exit_step in E. destruct (Z.eqb_spec (current_tid (cpu (xtasks w))) killer).
    + unfold killer_step in E. rewrite (la_at t w Hl) in E. destruct (holder_cell w t p Hi Hp Hh) as (c & Hc & Hr & _). rewrite (refcount_ok _ c Hc) in E.
      destruct (Z.gtb_spec (refs c) 1); [|lia]. by eapply late_yield.
    + destruct (waiters w !! current_tid (cpu (xtasks w))) as [q|] eqn:Eq; [|by injection E as <-].
      destruct (waiter_inv ms w _ q Hi Eq eq_refl) as (w3 & E3 & _ & Hf & Hx & p' & Hws). rewrite E in E3. injection E3 as <-.
      destruct (decide (t = current_tid (cpu (xtasks w)))) as [Hc|Hne].
      * destruct (la_waiter t w Hl) as [Hw|[_ (_ & _ & _ & Hnc)]]; [|done]. rewrite <- Hc, Hw in Eq. injection Eq as <-.
        destruct (waiter_waits ms w t Hi Hw Hc) as (w4 & E4 & _ & H4). rewrite <- Hc in E. rewrite E in E4. injection E4 as <-.
        split; [done|by rewrite Hx; apply Hl|]. by right.
      * apply (late_frame t (current_tid (cpu (xtasks w))) w w'); try done; [by rewrite Hx; apply Hl|]. by rewrite Hws, lookup_insert_ne.
Qed.

(** A thread that looks the process up in time, but calls [event_wait] only after the event was
    declared defunct, waits forever: [event_wait] does not look at the counter that says so.
    The end of the process waits forever too, for the reference of that thread. *)
Theorem prwait_too_late w0 w w' (t : Z) : xstart w0 -> rtc (xstep pkill_hook pid ecode_arg killer) w0 w ->
  xat w = XRefs -> waiters w !! t = Some WWait -> rtc (xstep pkill_hook pid ecode_arg killer) w w' ->
  xat w' = XRefs /\ (waiters w' !! t = Some WWait \/ waiters w' !! t = Some WAsleep) /\ is_Some (cell_at (procs (xk w')) pid).
Proof.
  intros Hs Hr Hx Ht Hr'. assert (late t w) as Hl by (split; [by eapply xsteps_inv; [apply xstart_inv|]|done|by left]).
  assert (late t w') as [Hi Ha Hw]. { clear -Hl Hr' hook_keeps pid_range. induction Hr' as [|x y z Hxy _ IH]; [done|]. apply IH. by eapply late_step. }
  split; [done|]. assert (waiters w' !! t = Some WWait \/ waiters w' !! t = Some WAsleep) as Hw' by (destruct Hw as [?|[? _]]; auto). split; [done|].
  destruct Hw' as [E|E]; destruct (holder_cell w' t _ Hi E eq_refl) as (c & -> & _); by eexists.
Qed.
End Laws.

(** [fs_proc_cleanup] keeps what the hook has to keep. *)
Lemma cleanup_loop_keeps {D} n : forall (v : vfs D) p lid v' p', cleanup_loop n v p lid = Ok (v', p') -> ecode p' = ecode p /\ values_in (pthreads p) (pthreads p').
Proof.
  induction n as [|n IH]; intros v p lid v' p' E; cbn [cleanup_loop] in E; destruct (foreach_more _ _); try done; try (injection E as <- <-; split; [done|apply values_refl]).
  destruct (rcparray_get (fiddies p) lid) as [f [fd|]]; [|done]. apply bind_Ok in E as ([v1 r] & _ & E). destruct (IH _ _ _ _ _ E) as [He Hv]. split; [done|].
  eapply values_trans; [apply (values_unref (pthreads p) lid)|exact Hv].
Qed.

Lemma fs_proc_cleanup_keeps {D} (v : vfs D) p v' p' : fs_proc_cleanup v p = Ok (v', p') -> ecode p' = ecode p /\ values_in (pthreads p) (pthreads p').
Proof. apply cleanup_loop_keeps. Qed.

(** ** A process with one thread, the thread that ends it, and a thread that waits for it *)
Module ExitDemo.
Definition shell : process := mk_process (bytes "shell" ++ [0]) None 1 0 KillDemo.pm [Some (mk_cell 1 true 0)] [Some (mk_cell 1 true 3)] 0.
Definition ps : rcptable process := rcptable_set (rcptable_init 32 1) 5 shell.
Definition th := KillDemo.thread_of.
Definition st : tstate := mk_tstate [Some (th 0 false); Some (th 1 false); Some (th 2 true); Some (th 5 false)] 3 (mk_cpu 2 2 2 0 false) ∅ true 0.
Definition w0 : xworld (list Z) := mk_xworld (mk_kernel ps 2 st Vfs.Demo.s4 true) (mk_event 11 12 0 []) XStart {[2 := WCalled]}.

Abbreviation stepf := (exit_step fs_proc_cleanup 5 7 1 0).
Abbreviation steps := (rtc (xstep fs_proc_cleanup 5 7 1)).

Lemma xdemo_start_ok : xstart 5 1 w0.
Proof.
  destruct (rcptable_set_spec (rcptable_init 32 1) 5 shell) as (H1 & H2 & _); [apply init_table_ok; lia|lia|reflexivity|].
  split; [|split; [done|split; [by do 5 (split; [done|])|split; [exact H1|split; [done|split; [done|split; [done|split]]]]]]].
  - unfold sched_ok. split_and!; try (vm_compute; done). intros tid t Hs Hr. pose proof (slot_range _ _ _ Hs) as Hrg. change (zlen (threads (xtasks w0))) with 4 in Hrg.
    assert (tid = 0 \/ tid = 1 \/ tid = 2 \/ tid = 3) as H4 by lia. destruct H4 as [->|[->|[->| ->]]]; vm_compute in Hs; simplify_eq; try done; by left.
  - exists (mk_cell 1 true shell). split; [exact H2|]. split; [done|]. split; [done|]. intros j d Hd. pose proof (arr_slot_range _ _ _ Hd) as Hr. change (zlen (pthreads (value (mk_cell 1 true shell)))) with 1 in Hr.
    assert (j = 0) as -> by lia. injection Hd as <-. done.
  - intros t p Hp. change (({[2 := WCalled]} : gmap Z wplace) !! t = Some p) in Hp. apply lookup_singleton_Some in Hp as [<- <-]. split; [done|]. split; [done|]. by exists (th 2 true).
Qed.

Fixpoint go (n : nat) (w : xworld (list Z)) : xworld (list Z) := match n with O => w | S n => match stepf w with Ok w' => go n w' | _ => w end end.
Lemma xgo_steps n : forall w, steps w (go n w).
Proof. induction n as [|n IH]; intros w; cbn [go]; [done|]. destruct (stepf w) as [w'| | |] eqn:E; [|done..]. eapply rtc_l; [by apply (XExec _ _ _ _ 0)|apply IH]. Qed.
Definition ticked (w : xworld (list Z)) : xworld (list Z) := match task_shed_choose (xtasks w) 0 with Ok st => set_xst w st | _ => w end.
Lemma xticked_step w : steps w (ticked w).
Proof. unfold ticked. destruct (task_shed_choose (xtasks w) 0) as [st'| | |] eqn:E; [by apply rtc_once, (XTick _ _ _ _ 0)|done..]. Qed.

(** It waits in time: it sleeps, the process dies, it wakes up, reads the code and returns. *)
Definition timely : xworld (list Z) := go 5 (ticked (go 4 (go 12 (ticked (go 2 w0))))).
(** It is interrupted between the two. *)
Definition tardy : xworld (list Z) := go 11 (ticked (ticked (go 1 w0))).
End ExitDemo.

Lemma prwait_gets_code_witness : exists code, waiters ExitDemo.timely !! 2 = Some (WReturned 0 (Some code)) /\ code = 7 /\ cell_at (procs (xk ExitDemo.timely)) 5 = None.
Proof.
  assert (ExitDemo.steps ExitDemo.w0 ExitDemo.timely) as Hr.
  { unfold ExitDemo.timely. etrans; [apply (ExitDemo.xgo_steps 2)|]. etrans; [apply ExitDemo.xticked_step|]. etrans; [apply (ExitDemo.xgo_steps 12)|].
    etrans; [apply (ExitDemo.xgo_steps 4)|]. etrans; [apply ExitDemo.xticked_step|]. apply ExitDemo.xgo_steps. }
  destruct (prwait_gets_code fs_proc_cleanup 5 7 1 fs_proc_cleanup_keeps ltac:(lia) _ _ ExitDemo.xdemo_start_ok Hr) as (H1 & _ & _ & H4). exists 7.
  assert (waiters ExitDemo.timely !! 2 = Some (WReturned 0 (Some 7))) as E by (vm_compute; reflexivity).
  destruct (H1 2 0 (Some 7) E) as [[H _]|_]; [discriminate H|]. split; [exact E|]. split; [done|]. apply H4. vm_compute. reflexivity.
Defined.

Lemma prwait_too_late_witness : exists w', ExitDemo.steps ExitDemo.tardy w' /\ xat w' = XRefs /\ is_Some (cell_at (procs (xk w')) 5).
Proof.
  exists (ExitDemo.go 9 ExitDemo.tardy). split; [apply ExitDemo.xgo_steps|]. assert (ExitDemo.steps ExitDemo.w0 ExitDemo.tardy) as Hr.
  { unfold ExitDemo.tardy. etrans; [apply (ExitDemo.xgo_steps 1)|]. etrans; [apply ExitDemo.xticked_step|]. etrans; [apply ExitDemo.xticked_step|]. apply ExitDemo.xgo_steps. }
  destruct (prwait_too_late fs_proc_cleanup 5 7 1 fs_proc_cleanup_keeps ltac:(lia) _ _ (ExitDemo.go 9 ExitDemo.tardy) 2 ExitDemo.xdemo_start_ok Hr) as (H1 & _ & H3);
    [vm_compute; reflexivity..|apply ExitDemo.xgo_steps|]. by split.
Defined.
