(* ===== verification/Spawn.v ===== *)
(** * Starting a program: task_tcreate and task_pricreate of proc/task.c, syscall_spawn of
    proc/syscalls_task.c

    The loader of Elf.v, the process table of Proc.v and the threads of Task.v together.  The
    context of a thread is filled by arch/x64/cpu.c.  The stacks come from [kpalloc], which at
    this commit takes two locks, allocates nothing and returns nothing (Task.v): what its caller
    finds in the register is given as [ker_stack] and [usr_stack], and because a thread for user
    mode calls it twice, no program is ever started.  The map of a process is in [m_maps] under
    its pid, its lock is [map_lock], its counters are in the process as Proc.v has them.  Memory
    that is freed or leaked is not tracked. *)
From S2P Require Import Prelude Strings Format Rcp Pool Path Lists Task Bitmap Frame Paging Spaces Window Vfs Files Exec Symbols Elf.
From S2P Require Proc Load.

Definition FS_TYPE_REG : Z := 1.
Definition KERNEL_PROCESS : Z := 1.

(** [thread_context_t] and the stacks of a [thread_t]. *)
Record tcontext := mk_tcontext {
  c_regs : regs; c_cr3 : Z; c_rip : Z; c_cs : Z; c_ss : Z; c_rflags : Z; c_rsp : Z; c_mxcsr : Z; c_kernel_stack : Z; c_initial_user_stack : Z }.
Definition zero_context : tcontext := mk_tcontext (mk_regs 0 0 0 0 0 0 0) 0 0 0 0 0 0 0 0 0.

Definition cpu_fill_context (c : tcontext) (kernelmode : bool) (entry paging_descriptor_addr : Z) : tcontext :=
  mk_tcontext (c_regs c) paging_descriptor_addr entry (if kernelmode then 8 else 35) (if kernelmode then 16 else 27) 514 (c_rsp c) 8064
    (c_kernel_stack c) (c_initial_user_stack c).

Definition cpu_set_stack (c : tcontext) (ptr size : Z) : tcontext :=
  mk_tcontext (c_regs c) (c_cr3 c) (c_rip c) (c_cs c) (c_ss c) (c_rflags c) (u64 (ptr + size)) (c_mxcsr c) (c_kernel_stack c) (c_initial_user_stack c).

Definition cpu_set_stacks (c : tcontext) (kernel_stack kstk_size user_stack ustk_size : Z) : tcontext :=
  mk_tcontext (c_regs c) (c_cr3 c) (c_rip c) (c_cs c) (c_ss c) (c_rflags c) (u64 (user_stack + ustk_size)) (c_mxcsr c)
    (if negb (kernel_stack =? 0) then u64 (kernel_stack + kstk_size) else 0) (u64 (user_stack + ustk_size)).

Definition set_regs (c : tcontext) (r : regs) : tcontext :=
  mk_tcontext r (c_cr3 c) (c_rip c) (c_cs c) (c_ss c) (c_rflags c) (c_rsp c) (c_mxcsr c) (c_kernel_stack c) (c_initial_user_stack c).

Section Spawn.
Context {F D : Type} `{FrameSource F} `{FileOps (vfs D)} (ftype : D -> Z -> Z).
(** What an executor is given, and what it has put behind its pointers. *)
Record program_load := mk_load { l_path : list Z; l_args : list (option (list Z)); l_out : res (world (F := F) (W := vfs D) * exec_data * option pagemap) }.

Record machine := mk_machine {
  m_kernel : Proc.kernel D; m_fr : F; m_tabs : gmap Z (list Z); m_pmap : pagemap; m_mem : Z -> list Z;
  m_maps : gmap Z pagemap; m_contexts : gmap Z tcontext; m_executors : option (kslist (executor (St := program_load))) }.

Definition set_kernel (m : machine) x := mk_machine x (m_fr m) (m_tabs m) (m_pmap m) (m_mem m) (m_maps m) (m_contexts m) (m_executors m).
Definition set_maps (m : machine) x := mk_machine (m_kernel m) (m_fr m) (m_tabs m) (m_pmap m) (m_mem m) x (m_contexts m) (m_executors m).
Definition set_contexts (m : machine) x := mk_machine (m_kernel m) (m_fr m) (m_tabs m) (m_pmap m) (m_mem m) (m_maps m) x (m_executors m).
Definition set_mvfs (m : machine) (v : vfs D) := set_kernel m (Proc.set_vfs (m_kernel m) v).
Definition m_tasks (m : machine) : tstate := Proc.tasks (m_kernel m).
Definition m_vfs (m : machine) : vfs D := Proc.kvfs (m_kernel m).

(** The machine as the loader sees it. *)
Definition loader_view (m : machine) : world (F := F) (W := vfs D) := mk_world (m_vfs m) (m_fr m) (m_tabs m) (m_pmap m) (m_mem m).
Definition set_loaded (m : machine) (w : world (F := F) (W := vfs D)) : machine :=
  mk_machine (Proc.set_vfs (m_kernel m) (w_files w)) (w_fr w) (w_tabs w) (w_kernel w) (w_mem w) (m_maps m) (m_contexts m) (m_executors m).

(** ** [elf_load] among the executors *)
Definition elf_executor (junk : Z -> list Z) (entry_caller : list Z) (PDPT1 : Z) (fuel : nat) : executor (St := program_load) := fun s =>
  match l_out s with
  | Ok (w, exec, map) =>
      match elf_load junk entry_caller PDPT1 fuel w (l_path s) (l_args s) with
      | Ok (w, map', exec, ret) => (ret, mk_load (l_path s) (l_args s) (Ok (w, exec, match map' with Some p => Some p | None => map end)))
      | Panic msg => (0, mk_load (l_path s) (l_args s) (Panic msg))
      | Fault => (0, mk_load (l_path s) (l_args s) Fault)
      | OutOfFuel => (0, mk_load (l_path s) (l_args s) OutOfFuel)
      end
  | _ => (0, s)
  end.

(** ** Threads *)

(** [map_lock] is the lock of the map of the process; [ker_stack] and [usr_stack] are what is in the
    register after the calls of [kpalloc]. *)
Definition task_tcreate (m : machine) (pid map_lock entry : Z) (kernelmode : bool) (ker_stack usr_stack : Z) : res (machine * Z) :=
  '(k, tid) ← Proc.task_tcreate (m_kernel m) pid map_lock kernelmode;
  let m := set_kernel m k in
  if tid =? -1 then Ok (m, -1)
  else
    map ← res_of_option (m_maps m !! pid);
    let c := cpu_fill_context zero_context kernelmode entry (root_dir map) in
    let c := cpu_set_stacks c (if kernelmode then 0 else ker_stack) KERNEL_STACK_SIZE usr_stack USR_STACK_SIZE in
    Ok (set_contexts m (<[tid := c]> (m_contexts m)), tid).

(** The context of a thread worked on under [sheduler_lock]; [missing] is what happens without the
    thread. *)
Definition on_context (m : machine) (tid : Z) (missing : res unit) (f : regs -> res regs) : res machine :=
  st ← spinlock_acquire SHEDULER_LOCK (m_tasks m);
  let m := set_kernel m (Proc.set_tasks (m_kernel m) st) in
  o ← thread_get (threads st) tid;
  m ← match o with
      | None => _ ← missing; Ok m
      | Some _ =>
          c ← res_of_option (m_contexts m !! tid);
          r ← f (c_regs c);
          Ok (set_contexts m (<[tid := set_regs c r]> (m_contexts m)))
      end;
  st ← spinlock_release SHEDULER_LOCK (m_tasks m);
  Ok (set_kernel m (Proc.set_tasks (m_kernel m) st)).

(** [argc] is not looked at: six arguments are taken. *)
Definition task_tset_args (m : machine) (tid a0 a1 a2 a3 a4 a5 : Z) : res machine :=
  on_context m tid (Ok tt) (fun r => Ok (set_varguments r a0 a1 a2 a3 a4 a5)).

(** [call] is the address of [_call_async]; the registers of the arguments that are not given
    get [x3], [x4] and [x5]. *)
Definition task_call_async (m : machine) (call func arg callback x3 x4 x5 usr_stack : Z) : res (machine * Z) :=
  '(m, async_thread) ← task_tcreate m KERNEL_PROCESS KERNEL_PMAP_LOCK call true 0 usr_stack;
  if is_error async_thread then Ok (m, async_thread)
  else
    m ← task_tset_args m async_thread func arg callback x3 x4 x5;
    st ← task_tstart (m_tasks m) async_thread;
    Ok (set_kernel m (Proc.set_tasks (m_kernel m) st), 0).

(** ** Processes *)

(** The counters of a map, all zero where the executor made none. *)
Definition counters (map : option pagemap) : Proc.pagemap :=
  match map with
  | Some p => Proc.mk_pagemap (pm_frames_used p) (dir_frames_used p) (map_frames_used p)
  | None => Proc.mk_pagemap 0 0 0
  end.

(** [task_prcreate] with the map that goes with the process. *)
Definition task_prcreate (m : machine) (name : list Z) (map : option pagemap) (pinfo : option Proc.pcreate_info) (finfo : Z) : res (machine * Z) :=
  '(k, pid) ← Proc.task_prcreate ftype (m_kernel m) name (counters map) pinfo finfo;
  let m := set_kernel m k in
  if is_error pid then Ok (m, pid)
  else Ok (set_maps m (match map with Some p => <[pid := p]> (m_maps m) | None => delete pid (m_maps m) end), pid).

(** [exec] is what the local structure holds before; [finfo] the address of the local [finfo_t]. *)
Definition task_pricreate (m : machine) (image_path : list Z) (args : list (option (list Z))) (pinfo : option Proc.pcreate_info)
    (finfo : Z) (exec : exec_data) (map_lock ker_stack usr_stack : Z) : res (machine * Z) :=
  '(v, ret) ← fs_finfo (m_vfs m) image_path finfo;
  let m := set_mvfs m v in
  if is_error ret then Ok (m, ret)
  else if ftype (drv v) finfo =? Proc.FS_TYPE_DIR then Ok (m, - rc EISDIR)
  else if negb (ftype (drv v) finfo =? FS_TYPE_REG) then Ok (m, - rc EINVAL)
  else
    '(v, e) ← match pinfo with
              | Some i => match Proc.pi_cwd i with Some c => Proc.return_if_invalid ftype (m_vfs m) c finfo | None => Ok (m_vfs m, None) end
              | None => Ok (m_vfs m, None)
              end;
    let m := set_mvfs m v in
    match e with
    | Some r => Ok (m, r)
    | None =>
        name ← Proc.generate_name image_path;
        '(ret, s) ← exec_load (m_executors m) (mk_load image_path args (Ok (loader_view m, exec, None)));
        '(w, exec, pgmap) ← l_out s;
        let m := set_loaded m w in
        if is_error ret then Ok (m, ret)
        else
          '(m, new_pid) ← task_prcreate m name pgmap pinfo finfo;
          if is_error new_pid then Ok (m, new_pid)
          else
            '(m, main_tid) ← task_tcreate m new_pid map_lock (x_kernel_entry exec) false ker_stack usr_stack;
            m ← on_context m main_tid Fault (fun r => start_registers r (x_entry exec) (x_init_code_addr exec) args);
            Ok (m, new_pid)
    end.

(** ** System calls, proc/syscalls_task.c *)

(** [spawn_options_usr_t] *)
Record spawn_options := mk_spawn_options { so_stdin : Z; so_stdout : Z; so_stderr : Z }.

(** [*(int* ) rcparray_get(process->fiddies, id)], and the reference given back. *)
Definition std_fd (a : rcparray Z) (id : Z) : res (rcparray Z * Z) :=
  match rcparray_get a id with (_, None) => Fault | (a, Some fd) => Ok (a, fd) end.

(** One descriptor of the options: 0 leaves what there is, and so does a number that is not open. *)
Definition option_fd (a : rcparray Z) (id fd : Z) : rcparray Z * Z :=
  if id =? 0 then (a, fd)
  else match rcparray_get a id with (a, None) => (a, fd) | (a, Some fd) => (rcparray_unref a id, fd) end.

Definition option_fds (a : rcparray Z) (options : option spawn_options) (stdin stdout stderr : Z) : rcparray Z * (Z * Z * Z) :=
  match options with
  | None => (a, (stdin, stdout, stderr))
  | Some o =>
      let '(a, stdin) := option_fd a (so_stdin o) stdin in
      let '(a, stdout) := option_fd a (so_stdout o) stdout in
      let '(a, stderr) := option_fd a (so_stderr o) stderr in
      (a, (stdin, stdout, stderr))
  end.

Definition spawn_body (m : machine) (p : Proc.process) (image_path : list Z) (options : option spawn_options) (args : list (option (list Z)))
    (segment scratch : list Z) (finfo : Z) (exec : exec_data) (map_lock ker_stack usr_stack : Z) : res (machine * Proc.process * (Z * Z * Z * Z)) :=
  _path ← fs_to_absolute_path image_path (Proc.cwd p) segment scratch;
  '(a, stdin) ← std_fd (Proc.fiddies p) 0;
  '(a, stdout) ← std_fd a 1;
  '(a, stderr) ← std_fd a 2;
  let a := rcparray_unref (rcparray_unref (rcparray_unref a 0) 1) 2 in
  let '(a, (stdin, stdout, stderr)) := option_fds a options stdin stdout stderr in
  let p := Proc.set_fiddies p a in
  '(v, stdin) ← fd_dup (m_vfs m) stdin;
  '(v, stdout) ← fd_dup v stdout;
  '(v, stderr) ← fd_dup v stderr;
  '(m, pid) ← task_pricreate (set_mvfs m v) _path args (Some (Proc.mk_pinfo stdin stdout stderr (Proc.cwd p))) finfo exec map_lock ker_stack usr_stack;
  Ok (m, p, (pid, stdin, stdout, stderr)).

Definition syscall_spawn (m : machine) (image_path : list Z) (options : option spawn_options) (args : list (option (list Z)))
    (segment scratch : list Z) (finfo : Z) (exec : exec_data) (map_lock ker_stack usr_stack : Z) : res (machine * Z) :=
  '(k, o) ← Proc.on_process (m_kernel m) (Proc.CURRENT_PID (m_kernel m)) None (fun k p =>
    '(m, p, r) ← spawn_body (set_kernel m k) p image_path options args segment scratch finfo exec map_lock ker_stack usr_stack;
    Ok (m_kernel m, p, Some (m, r)));
  match o with
  | None => Ok (set_kernel m k, - rc EINTR)
  | Some (m, (pid, stdin, stdout, stderr)) =>
      let m := set_kernel m k in
      if is_error pid then
        '(v, _) ← fd_close (m_vfs m) stdin;
        '(v, _) ← fd_close v stdout;
        '(v, _) ← fd_close v stderr;
        Ok (set_mvfs m v, pid)
      else
        '(k, _) ← Proc.task_prstart (m_kernel m) pid;
        Ok (set_kernel m k, pid)
  end.

End Spawn.

Arguments machine F D : clear implicits.

(** ** The name of a process *)

Lemma name_start_ok (pre b r : list Z) : Forall (fun c => c <> 47) b -> forall j fuel, (j <= length b)%nat -> (j <= fuel)%nat ->
  Proc.name_start fuel (pre ++ 47 :: b ++ r) (zlen pre + Z.of_nat j) = Ok (zlen pre).
Proof.
  intros Hb j. induction j as [|j IH]; intros fuel Hj Hf; destruct fuel as [|fuel]; cbn [Proc.name_start]; try lia.
  1,2: rewrite (load_nat _ _ 47); [cbn [mbind res_bind]; rewrite Z.eqb_refl; f_equal; lia|unfold zlen; lia|].
  1,2: apply list_lookup_middle; unfold zlen; lia.
  destruct (lookup_lt_is_Some_2 b j ltac:(lia)) as [x Hx]. rewrite (load_nat _ _ x).
  - cbn [mbind res_bind]. rewrite Forall_lookup in Hb. pose proof (Hb _ _ Hx). destruct (Z.eqb_spec x 47); [done|]. replace (_ - 1) with (zlen pre + Z.of_nat j) by lia. apply IH; lia.
  - unfold zlen. lia.
  - replace (Z.to_nat _) with (length (pre ++ [47%Z]) + j)%nat by (rewrite length_app; unfold zlen; simpl; lia). replace (pre ++ 47 :: b ++ r) with ((pre ++ [47]) ++ b ++ r) by (by rewrite <- app_assoc).
    rewrite lookup_app_r, lookup_app_l by lia. rewrite <- Hx. f_equal. lia.
Qed.

(** A process is called after its image: what is behind the last slash, up to the first dot. *)
Lemma generate_name_ok (pre base r : list Z) : nonul (pre ++ 47 :: base) -> Forall (fun c => c <> 47) base ->
  exists x, Proc.generate_name (pre ++ 47 :: base ++ 0 :: r) = Ok (cut 46 base ++ 0 :: x).
Proof.
  intros Hp Hb. unfold Proc.generate_name. assert (strlen (pre ++ 47 :: base ++ 0 :: r) = Ok (zlen (pre ++ 47 :: base))) as -> by (rewrite <- (strlen_cstr _ r Hp); f_equal; by rewrite <- app_assoc).
  cbn [mbind res_bind]. replace (zlen (pre ++ 47 :: base)) with (zlen pre + Z.of_nat (length (base ++ [0]))) by (rewrite zlen_app, zlen_cons, length_app; unfold zlen; simpl; lia).
  replace (pre ++ 47 :: base ++ 0 :: r) with (pre ++ 47 :: (base ++ [0]) ++ r) by (by rewrite <- app_assoc). rewrite name_start_ok; [|apply Forall_app; split; [done|by constructor]|done|unfold zlen; lia].
  cbn [mbind res_bind]. replace (drop (Z.to_nat (zlen pre + 1)) _) with (base ++ 0 :: r).
  2: { replace (Z.to_nat (zlen pre + 1)) with (length pre + 1)%nat by (unfold zlen; lia). by rewrite drop_app_add, <- app_assoc. }
  assert (nonul base) as Hn by (by apply Forall_app, proj2, Forall_cons in Hp as [_ Hp]). rewrite strchrnul_at by done. cbn [mbind res_bind].
  destruct (cut_split 46 base) as (t & Et & _). set (name := cut 46 base) in *. pose proof (zlen_nonneg name). pose proof (length_heap_object (zlen name + 1) ltac:(lia)).
  assert (zlen base = zlen name + zlen t) as El by (rewrite Et at 1; apply zlen_app). pose proof (zlen_nonneg t). pose proof (zlen_nonneg r).
  rewrite memcpy_ok by first [lia|rewrite zlen_app, zlen_cons; lia]. cbn [mbind res_bind]. assert (slice (base ++ 0 :: r) 0 (zlen name) = name) as ->.
  { unfold slice. rewrite drop_0, Et, <- app_assoc. apply take_app_length'. unfold zlen. lia. }
  rewrite splice_0. destruct (drop (length name) (heap_object (zlen name + 1))) as [|y x] eqn:Ex.
  - apply (f_equal length) in Ex. rewrite length_drop in Ex. unfold zlen in *. simpl in Ex. lia.
  - exists x. apply store_app.
Qed.

(** ** The descriptors of a child *)

Lemma arr_set_commute {A} (a : rcparray A) i j o o' : 0 <= i -> 0 <= j -> i <> j -> arr_set (arr_set a i o) j o' = arr_set (arr_set a j o') i o.
Proof. intros. unfold arr_set. apply list_insert_insert_ne. lia. Qed.

Lemma small_set {A} (a : rcparray A) i o : small a -> small (arr_set a i o).
Proof. unfold small, arr_set, zlen. by rewrite length_insert. Qed.

Definition held_once {A} (a : rcparray A) (i : Z) (c : cell A) : rcparray A := arr_set a i (Some (set_refs c (refs c + 1))).

Section Descriptors.
Context (a : rcparray Z) (Hq : quiet a) (Hs : small a).

(** The three standard descriptors, taken and given back. *)
Lemma std_fds_ok c0 c1 c2 : arr_slot a 0 = Some c0 -> arr_slot a 1 = Some c1 -> arr_slot a 2 = Some c2 ->
  std_fd a 0 = Ok (held_once a 0 c0, value c0) /\ std_fd (held_once a 0 c0) 1 = Ok (held_once (held_once a 0 c0) 1 c1, value c1) /\
  std_fd (held_once (held_once a 0 c0) 1 c1) 2 = Ok (held_once (held_once (held_once a 0 c0) 1 c1) 2 c2, value c2) /\
  rcparray_unref (rcparray_unref (rcparray_unref (held_once (held_once (held_once a 0 c0) 1 c1) 2 c2) 0) 1) 2 = a.
Proof.
  intros H0 H1 H2. destruct (Hq _ _ H0) as [P0 R0], (Hq _ _ H1) as [P1 R1], (Hq _ _ H2) as [P2 R2].
  assert (forall (b : rcparray Z) i j x, 0 <= i -> 0 <= j -> i <> j -> arr_slot (held_once b j x) i = arr_slot b i) as Hne by (intros; by apply arr_slot_set_ne).
  assert (counted c0 /\ counted c1 /\ counted c2) as (C0 & C1 & C2) by (unfold counted; lia).
  unfold std_fd. split; [by rewrite (get_hit _ _ c0)|]. split; [by rewrite (get_hit _ _ c1) by (done || (by apply small_set) || (by rewrite Hne))|].
  split; [by rewrite (get_hit _ _ c2) by (done || (by apply small_set, small_set) || (by rewrite !Hne))|].
  unfold held_once. rewrite (arr_set_commute _ 1 2), (arr_set_commute _ 0 2), (arr_set_commute _ 0 1) by lia.
  rewrite (unref_held _ 0 c0) by (done || (by apply small_set, small_set) || (by rewrite !arr_slot_set_ne by lia)).
  rewrite (unref_held _ 1 c1) by (done || (by apply small_set) || (by rewrite !arr_slot_set_ne by lia)). by apply unref_held.
Qed.

(** What a number in the options stands for. *)
Definition chosen_fd (id fd : Z) : Z := if id =? 0 then fd else match arr_slot a id with Some c => value c | None => fd end.

Lemma option_fd_ok id fd : - 2 ^ 31 <= id < 2 ^ 31 -> option_fd a id fd = (a, chosen_fd id fd).
Proof.
  intros Hi. unfold option_fd, chosen_fd. destruct (id =? 0); [done|]. destruct (get_cases a id Hq Hs Hi) as [(c & Hc & ->)|[Hc ->]]; rewrite Hc; [|done].
  destruct (Hq _ _ Hc). by rewrite unref_held by (done || (unfold counted; lia)).
Qed.

Definition option_ok (options : option spawn_options) : Prop := match options with None => True | Some o => - 2 ^ 31 <= so_stdin o < 2 ^ 31 /\ - 2 ^ 31 <= so_stdout o < 2 ^ 31 /\ - 2 ^ 31 <= so_stderr o < 2 ^ 31 end.
Definition chosen (options : option spawn_options) (f0 f1 f2 : Z) : Z * Z * Z :=
  match options with None => (f0, f1, f2) | Some o => (chosen_fd (so_stdin o) f0, chosen_fd (so_stdout o) f1, chosen_fd (so_stderr o) f2) end.

Lemma option_fds_ok options f0 f1 f2 : option_ok options -> option_fds a options f0 f1 f2 = (a, chosen options f0 f1 f2).
Proof. destruct options as [o|]; [|done]. intros (O0 & O1 & O2). unfold option_fds. by rewrite !option_fd_ok. Qed.

(** Without one of the three there is no spawning. *)
Lemma std_fds_missing i : 0 <= i <= 2 -> arr_slot a i = None -> ('(b, x) ← std_fd a 0; '(b, y) ← std_fd b 1; '(b, z) ← std_fd b 2; Ok (b, x, y, z)) = Fault.
Proof.
  intros Hi Hn. assert (forall (b : rcparray Z) j, 0 <= j <= 2 -> arr_slot b j = None -> std_fd b j = Fault) as Hmiss by (intros b j Hj E; unfold std_fd; by rewrite get_miss by (done || lia)).
  assert (forall (b : rcparray Z) k j, small b -> j <> k -> 0 <= j <= 2 -> 0 <= k <= 2 -> (forall c, arr_slot b k = Some c -> Rcp.present c = true) -> arr_slot b j = None -> exists r, std_fd b k = r /\ (r = Fault \/ exists b' x, r = Ok (b', x) /\ small b' /\ arr_slot b' j = None /\ forall l, l <> k -> 0 <= l -> arr_slot b' l = arr_slot b l)) as Hstep.
  { intros b k j Hb Hjk Hj Hk Hp E. eexists. split; [done|]. destruct (arr_slot b k) as [c|] eqn:Ec; [right|left; by apply Hmiss].
    unfold std_fd. rewrite (get_hit _ _ c) by auto. eexists _, _. split; [done|]. split; [by apply small_set|]. split; [by rewrite arr_slot_set_ne by lia|]. intros l Hl Hl0. by rewrite arr_slot_set_ne by lia. }
  destruct (decide (i = 0)) as [->|H0]; [by rewrite Hmiss by (done || lia)|].
  destruct (Hstep a 0 i Hs H0 ltac:(lia) ltac:(lia) ltac:(intros c Hc; by apply Hq in Hc as [? _]) Hn) as (r & -> & [->|(b & x & -> & Hb & Eb & Hsame)]); cbn [mbind res_bind]; [done|].
  destruct (decide (i = 1)) as [->|H1]; [by rewrite Hmiss by (done || lia)|].
  destruct (Hstep b 1 i Hb H1 ltac:(lia) ltac:(lia) ltac:(intros c Hc; rewrite Hsame in Hc by lia; by apply Hq in Hc as [? _]) Eb) as (r & -> & [->|(b' & y & -> & _ & Eb' & _)]); cbn [mbind res_bind]; [done|].
  by rewrite Hmiss by (done || lia || (by replace 2 with i by lia)).
Qed.
End Descriptors.

(** ** A program from its file to its first thread *)
Section Program.
Context {F D : Type} `{FrameSource F} {HL : FrameSourceLaws F} `{FileLaws (vfs D)} (ftype : D -> Z -> Z).
Context (junk : Z -> list Z) (code : list Z) (PDPT1 : Z) (fuel : nat).
Implicit Types m : machine F D.

(** A regular file at [pre ++ '/' :: base], a working directory [w] that is one, room for a process,
    and [elf_load] the first of the executors.  [v] are the files after the
    questions about both. *)
Record launch m (i : Proc.pcreate_info) (pre base r w rw : list Z) (finfo : Z) (v : vfs D) : Prop := mk_launch {
  la_path : nonul (pre ++ 47 :: base) /\ Forall (fun c => c <> 47) base;
  la_cwd : Proc.pi_cwd i = Some (w ++ 0 :: rw) /\ nonul w;
  la_files : exists v1 fi, fs_finfo (m_vfs m) (pre ++ 47 :: base ++ 0 :: r) finfo = Ok (v1, fi) /\ is_error fi = false /\ ftype (drv v1) finfo = FS_TYPE_REG /\
    Proc.return_if_invalid ftype v1 (w ++ 0 :: rw) finfo = Ok (v, None);
  la_procs : let ps := Proc.procs (m_kernel m) in table_ok ps /\ 0 <= counter ps < 2 ^ 31 - 1 /\ cell_at ps (counter ps) = None;
  la_exec : exists l rest, m_executors m = Some l /\ kdata <$> sfirst l = elf_executor junk code PDPT1 fuel :: rest }.

(** Whether the working directory still is one. *)
Definition cwd_stays (v : vfs D) (w : list Z) (finfo : Z) : Prop :=
  match Proc.return_if_invalid ftype v w finfo with Ok (_, None) => True | _ => False end.

Lemma executed m l rest path args exec0 w' o exec (v : vfs D) : m_executors m = Some l -> kdata <$> sfirst l = elf_executor junk code PDPT1 fuel :: rest ->
  elf_load junk code PDPT1 fuel (loader_view (set_mvfs m v)) path args = Ok (w', o, exec, 0) ->
  exec_load (m_executors m) (mk_load path args (Ok (loader_view (set_mvfs m v), exec0, None))) = Ok (0, mk_load path args (Ok (w', exec, match o with Some p => Some p | None => None end))).
Proof.
  intros -> El E. unfold exec_load. f_equal. rewrite (exec_load_loop_drop l _ 0) by lia. rewrite drop_0, El. cbn [try_all elf_executor l_out l_path l_args]. rewrite E. done.
Qed.

(** The image at [path] in the files [v], which the kernel can load with [args]; page [kk] of the new
    map is free for these. *)
Record loads m (v : vfs D) (path c : list Z) (args : list (option (list Z))) (ss : list (list Z)) (w : list Z) (finfo k kk : Z) : Prop := mk_loads {
  lo_junk : forall n, 0 <= n -> zlen (junk n) = n; lo_code : 32 <= zlen code; lo_ready : Load.kernel_ready (loader_view (set_mvfs m v)) PDPT1 fuel k;
  lo_open : exists fs fd, file_open v path FS_MODE_READ = Ok (fs, fd) /\ is_error fd = false /\ open_at fs fd c 0;
  lo_image : Load.elf_image c; lo_args : is_argv args ss /\ caller_size ss <= PAGE_SIZE;
  lo_room : 0 <= kk /\ kk + 1 < Z.of_nat fuel /\ 4096 * (kk + 1) <= 2 ^ 47 /\ forall p, p ∈ Load.phdrs c -> ~ Load.covers p (4096 * kk);
  lo_cwd : match elf_load junk code PDPT1 fuel (loader_view (set_mvfs m v)) path args with Ok (w', _, _, _) => cwd_stays (w_files w') w finfo | _ => True end }.

(** ** The thread of a new process *)

(** The thread a process in user mode begins with is never created. *)
Lemma user_thread m pid map_lock entry ker_stack usr_stack : task_tcreate m pid map_lock entry false ker_stack usr_stack =
  match rcptable_get (Proc.procs (m_kernel m)) pid with (ps, None) => Ok (set_kernel m (Proc.set_procs (m_kernel m) ps), -1) | (_, Some _) => stuck end.
Proof.
  unfold task_tcreate, Proc.task_tcreate, Proc.on_process. destruct (rcptable_get _ pid) as [ps [p|]]; [|done]. by rewrite tcreate_user_panics.
Qed.

Lemma on_no_context m f m' : on_context m (-1) Fault f <> Ok m'.
Proof.
  unfold on_context. destruct (spinlock_acquire _ _) as [st| | |]; cbn [mbind res_bind]; try done. unfold thread_get. pose proof (zlen_nonneg (threads st)).
  rewrite Z.geb_leb. destruct (Z.leb_spec (zlen (threads st)) (-1)); [lia|done].
Qed.

Lemma invalid_answer v dir finfo v' r : Proc.return_if_invalid ftype v dir finfo = Ok (v', Some r) -> r <= 0.
Proof.
  unfold Proc.return_if_invalid. intros E. apply bind_Ok in E as ([v1 r1] & _ & E). destruct (is_error r1); [|done]. apply bind_Ok in E as ([v2 r2] & E & [= _ <-]).
  unfold Proc.cwd_isvalid in E. apply bind_Ok in E as (n & _ & E). case_match; [by injection E as _ <-|]. apply bind_Ok in E as ([v3 r3] & _ & E).
  destruct (is_error r3) eqn:Er; [injection E as _ <-; unfold is_error in Er; lia|]. case_match; by injection E as _ <-.
Qed.

Lemma error_neg r : is_error r = true -> r <= 0.
Proof. unfold is_error. lia. Qed.

(** So [task_pricreate], when it returns, returns no process, and has made no thread.  (The answer 0
    is that of a working directory that is looked at twice and was bad only the first time.) *)
Lemma pricreate_no_child m path args i finfo exec0 map_lock ker_stack usr_stack m' r :
  task_pricreate ftype m path args i finfo exec0 map_lock ker_stack usr_stack = Ok (m', r) -> r <= 0 /\ m_tasks m' = m_tasks m.
Proof.
  unfold task_pricreate. intros E. apply bind_Ok in E as ([v ret] & _ & E). destruct (is_error ret) eqn:Er; [injection E as <- <-; split; [by apply error_neg|done]|].
  case_match; [by injection E as <- <-|]. case_match; [by injection E as <- <-|]. apply bind_Ok in E as ([v1 e] & Ei & E). destruct e as [x|].
  { injection E as <- <-. split; [|done]. destruct i as [i|]; [destruct (Proc.pi_cwd i)|]; try done. by eapply invalid_answer. }
  apply bind_Ok in E as (name & _ & E). apply bind_Ok in E as ([ret1 s] & _ & E). apply bind_Ok in E as ([[w exec] map] & _ & E). destruct (is_error ret1) eqn:Er1; [injection E as <- <-; split; [by apply error_neg|done]|].
  apply bind_Ok in E as ([m1 new_pid] & Ep & E). destruct (is_error new_pid) eqn:En.
  - injection E as <- <-. split; [by apply error_neg|]. unfold task_prcreate in Ep. apply bind_Ok in Ep as ([k p] & Ek & Ep). enough (Proc.tasks k = m_tasks m) by (destruct (is_error p); by injection Ep as <- _).
    unfold Proc.task_prcreate in Ek. apply bind_Ok in Ek as ([v2 e2] & _ & Ek). destruct e2; [by injection Ek as <- _|]. apply bind_Ok in Ek as (n & _ & Ek). apply bind_Ok in Ek as (nm & _ & Ek).
    apply bind_Ok in Ek as ([f c] & _ & Ek). by injection Ek as <- _.
  - rewrite user_thread in E. destruct (rcptable_get _ new_pid) as [ps [p|]]; [done|]. cbn [mbind res_bind] in E. apply bind_Ok in E as (m2 & E2 & _). by destruct (on_no_context _ _ _ E2).
Qed.

(** A program that is in order is loaded, and then its thread is not created. *)
Lemma pricreate_stops m i (pre base r w rw : list Z) finfo v exec0 map_lock ker_stack usr_stack args ss c k kk :
  launch m i pre base r w rw finfo v -> loads m v (pre ++ 47 :: base ++ 0 :: r) c args ss (w ++ 0 :: rw) finfo k kk ->
  exists msg, task_pricreate ftype m (pre ++ 47 :: base ++ 0 :: r) args (Some i) finfo exec0 map_lock ker_stack usr_stack = Panic msg /\
    (msg = "spinlock_acquire stuck for too long"%string \/ elf_load junk code PDPT1 fuel (loader_view (set_mvfs m v)) (pre ++ 47 :: base ++ 0 :: r) args = Panic msg).
Proof.
  intros [[Hp1 Hp2] [Hcwd Hw] (v1 & fi & Efi & Hfi & Hreg & Ecwd) (Ht & Hcn & Hn) (l & rest & El & Ex)] [Hjunk Hc Hkr (fs & fd & Eo & Hfd & Hop) Him [Ha Hsz] (Hkk & Hf & Hb & Hfree) Hstay].
  pose proof (Load.elf_load_ok (loader_view (set_mvfs m v)) junk code PDPT1 fuel k kk (pre ++ 47 :: base ++ 0 :: r) args ss c fs fd Hjunk Hc Hkr Eo Hfd Hop Him Ha Hsz Hkk Hf Hb Hfree) as Hload.
  destruct (generate_name_ok pre base r Hp1 Hp2) as [x0 En].
  unfold task_pricreate. rewrite Efi. cbn [mbind res_bind]. rewrite Hfi, Hreg. change (FS_TYPE_REG =? Proc.FS_TYPE_DIR) with false. change (FS_TYPE_REG =? FS_TYPE_REG) with true. cbn [negb].
  rewrite Hcwd. change (m_vfs (set_mvfs m v1)) with v1. rewrite Ecwd. cbn [mbind res_bind]. rewrite En. cbn [mbind res_bind].
  change (set_mvfs (set_mvfs m v1) v) with (set_mvfs m v). change (m_executors (set_mvfs m v)) with (m_executors m).
  destruct (elf_load junk code PDPT1 fuel _ _ args) as [[[[w' o] exec] ret]|msg| |] eqn:Ew; cbn [result] in Hload; [| |done..].
  - destruct Hload as (-> & _ & _ & (map & -> & _) & _). rewrite (executed m l rest _ args exec0 w' (Some map) exec v El Ex Ew). cbn [mbind res_bind l_out is_error Z.ltb Z.compare].
    unfold cwd_stays in Hstay. destruct (Proc.return_if_invalid ftype (w_files w') (w ++ 0 :: rw) finfo) as [[v2 [e|]]| | |] eqn:Ev; try done. clear Hstay.
    assert (nonul (cut 46 base)) as Hnm by (apply cut_sub; by apply Forall_app, proj2, Forall_cons in Hp1 as [_ Hp1]).
    change (set_loaded (set_mvfs m v) w') with (set_loaded m w').
    destruct (Proc.prcreate_adds ftype (m_kernel (set_loaded m w')) (cut 46 base) x0 w rw (counters (Some map)) i finfo v2 None Ht Hcn Hn Hnm Hcwd Hw Ev) as (k1 & nm & wm & E1 & _ & _ & Hcell & _ & Ht1 & _).
    change (counter (Proc.procs (m_kernel (set_loaded m w')))) with (counter (Proc.procs (m_kernel m))) in *. set (pid := counter (Proc.procs (m_kernel m))) in *.
    unfold task_prcreate. rewrite E1. cbn [mbind res_bind]. assert (is_error pid = false) as Hpe by (unfold is_error; case_cmp; lia). rewrite Hpe. cbn [mbind res_bind]. rewrite Hpe.
    rewrite user_thread. destruct (law_get_hit (Proc.procs k1) pid _ Ht1 ltac:(lia) Hcell eq_refl) as (t2 & Eg & _). cbn [rc_get rcptable_store] in Eg. cbn [m_kernel set_maps set_kernel]. rewrite Eg.
    cbn [mbind res_bind]. eexists. split; [reflexivity|by left].
  - unfold exec_load. rewrite El. rewrite (exec_load_loop_drop l _ 0) by lia. rewrite drop_0, Ex. cbn [try_all elf_executor l_out l_path l_args]. rewrite Ew. cbn [mbind res_bind l_out]. eexists. split; [reflexivity|by right].
Qed.


(** ** [syscall_spawn] *)

Lemma spawn_body_missing m p image_path options args segment scratch finfo exec0 map_lock ker_stack usr_stack path i : quiet (Proc.fiddies p) -> small (Proc.fiddies p) ->
  fs_to_absolute_path image_path (Proc.cwd p) segment scratch = Ok path -> 0 <= i <= 2 -> arr_slot (Proc.fiddies p) i = None ->
  spawn_body ftype m p image_path options args segment scratch finfo exec0 map_lock ker_stack usr_stack = Fault.
Proof.
  intros Hq Hs Ep Hi Hn. unfold spawn_body. rewrite Ep. cbn [mbind res_bind]. pose proof (std_fds_missing _ Hq Hs i Hi Hn) as Hf.
  destruct (std_fd (Proc.fiddies p) 0) as [[b x]| | |]; cbn [mbind res_bind] in *; try done. destruct (std_fd b 1) as [[b' y]| | |]; cbn [mbind res_bind] in *; try done.
  by destruct (std_fd b' 2) as [[b'' z]| | |].
Qed.

(** A process that has closed one of its first three descriptors and starts a program makes the
    kernel follow a null pointer. *)
Theorem spawn_without_std_faults m c image_path options args segment scratch finfo exec0 map_lock ker_stack usr_stack path i : Proc.caller (m_kernel m) c ->
  fs_to_absolute_path image_path (Proc.cwd (value c)) segment scratch = Ok path -> 0 <= i <= 2 -> arr_slot (Proc.fiddies (value c)) i = None ->
  syscall_spawn ftype m image_path options args segment scratch finfo exec0 map_lock ker_stack usr_stack = Fault.
Proof.
  intros (Ha & Hq & Hs) Ep Hi Hn. unfold syscall_spawn.
  rewrite (Proc.on_process_alive (m_kernel m) (Proc.CURRENT_PID (m_kernel m)) _ _ c Fault Ha); [done|]. intros t.
  by rewrite (spawn_body_missing _ _ _ _ _ _ _ _ _ _ _ _ path i).
Qed.

Lemma spawn_body_ok m p image_path options args segment scratch finfo exec0 map_lock ker_stack usr_stack path c0 c1 c2 : quiet (Proc.fiddies p) -> small (Proc.fiddies p) ->
  fs_to_absolute_path image_path (Proc.cwd p) segment scratch = Ok path -> arr_slot (Proc.fiddies p) 0 = Some c0 -> arr_slot (Proc.fiddies p) 1 = Some c1 -> arr_slot (Proc.fiddies p) 2 = Some c2 ->
  option_ok options -> spawn_body ftype m p image_path options args segment scratch finfo exec0 map_lock ker_stack usr_stack =
    (let '(f0, f1, f2) := chosen (Proc.fiddies p) options (value c0) (value c1) (value c2) in
     '(v, d0) ← fd_dup (m_vfs m) f0; '(v, d1) ← fd_dup v f1; '(v, d2) ← fd_dup v f2;
     '(m, pid) ← task_pricreate ftype (set_mvfs m v) path args (Some (Proc.mk_pinfo d0 d1 d2 (Proc.cwd p))) finfo exec0 map_lock ker_stack usr_stack;
     Ok (m, p, (pid, d0, d1, d2))).
Proof.
  intros Hq Hs Ep S0 S1 S2 Ho. unfold spawn_body. rewrite Ep. cbn [mbind res_bind]. destruct (std_fds_ok _ Hq Hs c0 c1 c2 S0 S1 S2) as (-> & E1 & E2 & E3). cbn [mbind res_bind]. rewrite E1. cbn [mbind res_bind].
  rewrite E2. cbn [mbind res_bind]. rewrite E3, (option_fds_ok _ Hq Hs) by done. destruct (chosen _ _ _ _ _) as [[f0 f1] f2]. by rewrite Proc.set_fiddies_same.
Qed.

(** A reference held while the table changes elsewhere. *)
Lemma held_get {A} (t : rcptable A) id c : table_ok t -> 0 <= id < 2 ^ 64 -> cell_at t id = Some c -> Rcp.present c = true ->
  exists t1, rcptable_get t id = (t1, Some (value c)) /\ table_ok t1 /\ counter t1 = counter t /\ cell_update t id (Some (set_refs c (refs c + 1))) t1.
Proof.
  intros Ht Hi Hc Hp. destruct (law_get_hit t id c Ht Hi Hc Hp) as (t1 & E & Ht1 & Hu). exists t1. split; [exact E|]. split; [done|]. split; [|done].
  simpl in Hc, E. fold (Proc.tfind t id) in Hc. destruct (Proc.tfind t id) as [[i c']|] eqn:Hf; simplify_eq/=. rewrite (Proc.get_put t id i c) in E by done. by injection E as <-.
Qed.

Lemma launch_elsewhere m i pre base r w rw finfo v ps : launch m i pre base r w rw finfo v -> table_ok ps -> counter ps = counter (Proc.procs (m_kernel m)) ->
  cell_at ps (counter ps) = None -> launch (set_kernel m (Proc.set_procs (m_kernel m) ps)) i pre base r w rw finfo v.
Proof. intros [L1 L2 L3 (_ & L4 & _) L6] Ht Ec Hn. split; [done..| |done]. cbn. split; [done|]. rewrite Ec in *. done. Qed.


Lemma spawn_body_no_child m p image_path options args segment scratch finfo exec0 map_lock ker_stack usr_stack m' p' pid d0 d1 d2 :
  spawn_body ftype m p image_path options args segment scratch finfo exec0 map_lock ker_stack usr_stack = Ok (m', p', (pid, d0, d1, d2)) -> pid <= 0 /\ m_tasks m' = m_tasks m.
Proof.
  unfold spawn_body. intros E. apply bind_Ok in E as (path & _ & E). apply bind_Ok in E as ([a1 x1] & _ & E). apply bind_Ok in E as ([a2 x2] & _ & E). apply bind_Ok in E as ([a3 x3] & _ & E).
  destruct (option_fds _ _ _ _ _) as [a [[f0 f1] f2]]. apply bind_Ok in E as ([v1 e1] & _ & E). apply bind_Ok in E as ([v2 e2] & _ & E). apply bind_Ok in E as ([v3 e3] & _ & E).
  apply bind_Ok in E as ([m1 r] & E1 & E). injection E as <- _ <- _ _ _. by apply pricreate_no_child in E1.
Qed.

(** C5: No program is ever started.  Whatever the state, the path, the options and the file,
    [syscall_spawn] never returns the number of a process, and when it returns an error there is
    no thread more than before.  For an executable file that the kernel can load, a caller with
    its three descriptors and a table with room for the child, it does not return at all: the
    kernel panics, when the image is being loaded and memory runs out, or else when the child is
    to get its first thread, because the second [kpalloc] in [task_tcreate] waits for a lock that
    the first has taken and not given back.  (The loader is run with the locks of page.c free;
    were they not, it would be the one to wait.) *)
Theorem syscall_spawn_never_starts m image_path options args segment scratch finfo exec0 map_lock ker_stack usr_stack :
  (forall m' ret, syscall_spawn ftype m image_path options args segment scratch finfo exec0 map_lock ker_stack usr_stack = Ok (m', ret) ->
     ret <= 0 /\ (ret < 0 -> m_tasks m' = m_tasks m)) /\
  (forall p0 (pre base r w rw : list Z) c0 c1 c2 v1 v2 v3 d0 d1 d2 v c ss k kk,
     let p := value p0 in let '(f0, f1, f2) := chosen (Proc.fiddies p) options (value c0) (value c1) (value c2) in let i := Proc.mk_pinfo d0 d1 d2 (Proc.cwd p) in
     Proc.caller (m_kernel m) p0 -> arr_slot (Proc.fiddies p) 0 = Some c0 -> arr_slot (Proc.fiddies p) 1 = Some c1 -> arr_slot (Proc.fiddies p) 2 = Some c2 -> option_ok options ->
     fs_to_absolute_path image_path (Proc.cwd p) segment scratch = Ok (pre ++ 47 :: base ++ 0 :: r) ->
     fd_dup (m_vfs m) f0 = Ok (v1, d0) -> fd_dup v1 f1 = Ok (v2, d1) -> fd_dup v2 f2 = Ok (v3, d2) ->
     launch (set_mvfs m v3) i pre base r w rw finfo v -> loads (set_mvfs m v3) v (pre ++ 47 :: base ++ 0 :: r) c args ss (w ++ 0 :: rw) finfo k kk ->
     exists msg, syscall_spawn ftype m image_path options args segment scratch finfo exec0 map_lock ker_stack usr_stack = Panic msg /\
       (msg = "spinlock_acquire stuck for too long"%string \/
        elf_load junk code PDPT1 fuel (loader_view (set_mvfs m v)) (pre ++ 47 :: base ++ 0 :: r) args = Panic msg)).
Proof.
  split.
  - intros m' ret E. unfold syscall_spawn in E. apply bind_Ok in E as ([k o] & Ek & E). unfold Proc.on_process in Ek. destruct (rcptable_get _ _) as [ps [p|]].
    + apply bind_Ok in Ek as ([[k1 p1] o1] & Ef & Ek). apply bind_Ok in Ef as ([[m1 p2] [[[pid d0] d1] d2]] & Eb & [= <- <- <-]). injection Ek as <- <-.
      destruct (spawn_body_no_child _ _ _ _ _ _ _ _ _ _ _ _ _ _ _ _ _ _ Eb) as [Hpid Ht]. destruct (is_error pid) eqn:Ep.
      * apply bind_Ok in E as ([v1 x1] & _ & E). apply bind_Ok in E as ([v2 x2] & _ & E). apply bind_Ok in E as ([v3 x3] & _ & E). injection E as <- <-. done.
      * apply bind_Ok in E as ([k2 []] & _ & E). injection E as <- <-. split; [done|]. unfold is_error in Ep. lia.
    + injection Ek as <- <-. by injection E as <- <-.
  - intros p0 pre base r w rw c0 c1 c2 v1 v2 v3 d0 d1 d2 v c ss k kk p. destruct (chosen _ _ _ _ _) as [[f0 f1] f2] eqn:Ech. intros i (Ha & Hq & Hs) S0 S1 S2 Ho Ep E0 E1 E2 Hla Hlo.
    destruct Ha as (Ht & Hcur & Hc & Hp & _). set (cur := Proc.CURRENT_PID (m_kernel m)) in *. destruct (held_get _ cur p0 Ht Hcur Hc Hp) as (t1 & Eg & Ht1 & Ec1 & [Hc1 Ho1]).
    destruct (la_procs _ _ _ _ _ _ _ _ _ Hla) as (_ & Hpid & Hnone). change (Proc.procs (m_kernel (set_mvfs m v3))) with (Proc.procs (m_kernel m)) in *.
    assert (cur <> counter (Proc.procs (m_kernel m))) as Hne by (intros E; rewrite E in Hc; congruence).
    unfold syscall_spawn, Proc.on_process. fold cur. rewrite Eg. cbv beta iota. fold p. set (m0 := set_kernel m (Proc.set_procs (m_kernel m) t1)).
    rewrite (spawn_body_ok m0 p image_path options args segment scratch finfo exec0 map_lock ker_stack usr_stack _ c0 c1 c2 Hq Hs Ep S0 S1 S2 Ho). rewrite Ech. change (m_vfs m0) with (m_vfs m).
    rewrite E0. cbn [mbind res_bind]. rewrite E1. cbn [mbind res_bind]. rewrite E2. cbn [mbind res_bind].
    assert (launch (set_mvfs m0 v3) i pre base r w rw finfo v) as Hla0 by (apply (launch_elsewhere (set_mvfs m v3) i pre base r w rw finfo v t1 Hla Ht1 Ec1); rewrite Ec1, Ho1 by lia; done).
    assert (loads (set_mvfs m0 v3) v (pre ++ 47 :: base ++ 0 :: r) c args ss (w ++ 0 :: rw) finfo k kk) as Hlo0 by (by destruct Hlo).
    destruct (pricreate_stops (set_mvfs m0 v3) i pre base r w rw finfo v exec0 map_lock ker_stack usr_stack args ss c k kk Hla0 Hlo0) as (msg & E & Hmsg). fold i. rewrite E. cbn [mbind res_bind]. exists msg. by split.
Qed.

End Program.

(** ** A shell that starts a program *)
Module SpawnDemo.
Import RamFile.
#[local] Existing Instances ram_ops ram_files.

Definition junk (n : Z) : list Z := replicate (Z.to_nat n) 0.
Definition executors : kslist (executor (St := program_load (F := frames) (D := ram))) :=
  mk_kslist 1 [mk_kslist_entry 0 (bytes "elf" ++ [0]) (elf_executor junk Load.LoadDemo.code 1052672 8)].
(** A shell with one file open, as all three of its standard descriptors. *)
Definition fiddies3 : rcparray Z := [Some (mk_cell 1 true 0); Some (mk_cell 1 true 0); Some (mk_cell 1 true 0)].
Definition sh (f : rcparray Z) : Proc.process := Proc.mk_process (bytes "sh" ++ [0]) (Some (bytes "/" ++ [0])) 0 0 Proc.Demo.pm f [] 0.
Definition sh_table (f : rcparray Z) : rcptable Proc.process := mk_rcptable (table (rcptable_set (rcptable_init 32 1) 1 (sh f))) 2.
Definition files0 : vfs ram := opened Load.LoadDemo.image.
Definition next (r : res (vfs ram * Z)) : vfs ram := match r with Ok (v, _) => v | _ => files0 end.
Definition files1 : vfs ram := Eval vm_compute in next (fd_dup files0 0).
Definition files2 : vfs ram := Eval vm_compute in next (fd_dup files1 0).
Definition files3 : vfs ram := Eval vm_compute in next (fd_dup files2 0).
Definition program_path : list Z := bytes "/bin/ls.elf" ++ [0].
Definition files4 : vfs ram := Eval vm_compute in next (fs_finfo (next (fs_finfo files3 program_path 0)) (bytes "/" ++ [0]) 0).
Definition files5 : vfs ram := Eval vm_compute in next (fs_open files4 program_path 1).
Definition parent (f : rcparray Z) : machine frames ram :=
  mk_machine (Proc.mk_kernel (sh_table f) 1 Proc.Demo.st files0 true) SpaceDemo.memory SpaceDemo.kernel_tables Load.LoadDemo.kernel_map (fun _ => replicate 4096 7) ∅ ∅ (Some executors).
Definition child_info : Proc.pcreate_info := Proc.mk_pinfo 1 2 3 (Some (bytes "/" ++ [0])).

Lemma files_wf : wf files5.
Proof.
  assert (wf files0) as W0 by (apply (open_eq Load.LoadDemo.image (bytes "bin/ls" ++ [0]) 1); [by apply (Demo.path_ok (bytes "/bin/ls"))|vm_compute; reflexivity]).
  assert (wf files1) as W1 by (apply (run_wf files0 (KDup 0) files1 1 W0); [split_and!; vm_compute; reflexivity|split; lia|vm_compute; reflexivity]).
  assert (wf files2) as W2 by (apply (run_wf files1 (KDup 0) files2 2 W1); [split_and!; vm_compute; reflexivity|split; lia|vm_compute; reflexivity]).
  assert (wf files3) as W3 by (apply (run_wf files2 (KDup 0) files3 3 W2); [split_and!; vm_compute; reflexivity|split; lia|vm_compute; reflexivity]).
  assert (wf (next (fs_finfo files3 program_path 0))) as W4 by (apply (run_wf files3 (KFinfo program_path 0) _ 0 W3); [split_and!; vm_compute; reflexivity|by apply (Demo.path_ok (bytes "/bin/ls.elf"))|vm_compute; reflexivity]).
  assert (wf files4) as W5 by (apply (run_wf (next (fs_finfo files3 program_path 0)) (KFinfo (bytes "/" ++ [0]) 0) files4 0 W4); [split_and!; vm_compute; reflexivity|by apply (Demo.path_ok (bytes "/"))|vm_compute; reflexivity]).
  apply (run_wf files4 (KOpen program_path 1) files5 4 W5); [split_and!; vm_compute; reflexivity|by apply (Demo.path_ok (bytes "/bin/ls.elf"))|vm_compute; reflexivity].
Qed.

Lemma files_at : open_at files5 4 Load.LoadDemo.image 0.
Proof.
  split; [exact files_wf|]. split; [split_and!; vm_compute; reflexivity|]. eexists _, _, _, _. split; [|split; [|split; [reflexivity|done]]].
  - eexists _, _, _, _. split; [vm_compute; reflexivity|]. split; [reflexivity|]. split; [vm_compute; reflexivity|]. split; [reflexivity|].
    split; [vm_compute; reflexivity|]. split; [reflexivity|]. split; [vm_compute; reflexivity|]. reflexivity.
  - reflexivity.
Qed.

Lemma parent_launch : launch ram_type junk Load.LoadDemo.code 1052672 8 (set_mvfs (parent fiddies3) files3) child_info (bytes "/bin") (bytes "ls.elf") (replicate 4 0) (bytes "/") [] 0 files4.
Proof.
  split.
  - split; decided.
  - split; [reflexivity|decided].
  - eexists _, _. split; [vm_compute; reflexivity|]. split; [reflexivity|]. split; [reflexivity|]. vm_compute. reflexivity.
  - split; [apply (rcptable_set_spec (rcptable_init 32 1) 1 (sh _)); [apply init_table_ok; lia|lia|reflexivity]|]. split; [simpl; lia|reflexivity].
  - by eexists _, [].
Qed.

Lemma fiddies3_quiet : quiet fiddies3.
Proof.
  intros j c Hc. pose proof (arr_slot_range _ _ _ Hc) as Hr. change (zlen fiddies3) with 3 in Hr. assert (j = 0 \/ j = 1 \/ j = 2) as [-> |[-> | ->]] by lia; by injection Hc as <-.
Qed.

Lemma parent_caller f : quiet f -> small f -> Proc.caller (m_kernel (parent f)) (mk_cell 1 true (sh f)).
Proof.
  intros Hq Hs. split; [|by split].
  split_and!; [apply (rcptable_set_spec (rcptable_init 32 1) 1 (sh _)); [apply init_table_ok; lia|lia|reflexivity]|vm_compute; discriminate|vm_compute; reflexivity|reflexivity|reflexivity|unfold counted; simpl; lia].
Qed.

Lemma demo_loads m v path fs fd args ss : is_argv args ss -> caller_size ss <= PAGE_SIZE -> m_fr m = SpaceDemo.memory -> m_tabs m = SpaceDemo.kernel_tables -> m_pmap m = Load.LoadDemo.kernel_map -> m_mem m = (fun _ => replicate 4096 7) ->
  file_open v path FS_MODE_READ = Ok (fs, fd) -> is_error fd = false -> open_at fs fd Load.LoadDemo.image 0 ->
  match elf_load junk Load.LoadDemo.code 1052672 8 (loader_view (set_mvfs m v)) path args with Ok (w', _, _, _) => cwd_stays ram_type (w_files w') (bytes "/" ++ [0]) 0 | _ => True end ->
  loads ram_type junk Load.LoadDemo.code 1052672 8 m v path Load.LoadDemo.image args ss (bytes "/" ++ [0]) 0 0 0.
Proof.
  intros Ha Hsz E1 E2 E3 E4 Eo Hfd Hop Hst. split.
  - intros n Hn. unfold junk, zlen. rewrite length_replicate. lia.
  - vm_compute. discriminate.
  - destruct m. simpl in *. subst. destruct (Load.LoadDemo.start_ready Load.LoadDemo.image) as [K1 K2 K3 K4 K5 [C1 C2 C3 C4 C5 C6]]. by split; [..|split].
  - by eexists _, _.
  - exact Load.LoadDemo.image_ready.
  - done.
  - split; [lia|]. split; [lia|]. split; [lia|]. exact Load.LoadDemo.page_0_free.
  - exact Hst.
Qed.
End SpawnDemo.

#[local] Existing Instances RamFile.ram_ops RamFile.ram_files.

(** A program that could be loaded, for a shell that could start it. *)
Lemma syscall_spawn_never_starts_witness :
  exists msg, syscall_spawn RamFile.ram_type (SpawnDemo.parent SpawnDemo.fiddies3) SpawnDemo.program_path None Exec.demo_args (replicate 256 0) (replicate 72 0) 0 no_exec_data 7 65536 131072 = Panic msg.
Proof.
  pose proof (proj2 (syscall_spawn_never_starts RamFile.ram_type SpawnDemo.junk Load.LoadDemo.code 1052672 8 (SpawnDemo.parent SpawnDemo.fiddies3) SpawnDemo.program_path None Exec.demo_args (replicate 256 0) (replicate 72 0) 0 no_exec_data 7 65536 131072)
    (mk_cell 1 true (SpawnDemo.sh SpawnDemo.fiddies3)) (bytes "/bin") (bytes "ls.elf") (replicate 4 0) (bytes "/") [] (mk_cell 1 true 0) (mk_cell 1 true 0) (mk_cell 1 true 0) SpawnDemo.files1 SpawnDemo.files2 SpawnDemo.files3 1 2 3 SpawnDemo.files4 Load.LoadDemo.image Exec.demo_texts 0 0
    (SpawnDemo.parent_caller _ SpawnDemo.fiddies3_quiet eq_refl) eq_refl eq_refl eq_refl I ltac:(vm_compute; reflexivity) ltac:(vm_compute; reflexivity) ltac:(vm_compute; reflexivity) ltac:(vm_compute; reflexivity) SpawnDemo.parent_launch) as Hr.
  specialize (Hr (SpawnDemo.demo_loads (set_mvfs (SpawnDemo.parent SpawnDemo.fiddies3) SpawnDemo.files3) SpawnDemo.files4 (bytes "/bin" ++ 47 :: bytes "ls.elf" ++ 0 :: replicate 4 0) SpawnDemo.files5 4 Exec.demo_args Exec.demo_texts Exec.demo_argv ltac:(vm_compute; discriminate) eq_refl eq_refl eq_refl eq_refl
    ltac:(vm_compute; reflexivity) eq_refl SpawnDemo.files_at ltac:(vm_compute; exact I))).
  destruct Hr as (msg & E & _). exists msg. exact E.
Defined.

Lemma spawn_without_std_faults_witness : syscall_spawn RamFile.ram_type (SpawnDemo.parent []) SpawnDemo.program_path None Exec.demo_args (replicate 256 0) (replicate 72 0) 0 no_exec_data 7 65536 131072 = Fault.
Proof.
  apply (spawn_without_std_faults RamFile.ram_type (SpawnDemo.parent []) (mk_cell 1 true (SpawnDemo.sh [])) _ _ _ _ _ _ _ _ _ _ (bytes "/bin/ls.elf" ++ 0 :: replicate 4 0) 0).
  - apply SpawnDemo.parent_caller; [exact Proc.Demo.quiet_nil|reflexivity].
  - vm_compute. reflexivity.
  - lia.
  - reflexivity.
Defined.
