(* ===== verification/Ports.v ===== *)
(** * The I/O ports of the machine: arch/x64/cpu_int.h

    The operations the drivers are written against; what a device behind the ports does is a
    class of laws where its driver is (Uart.v, Irqc.v). *)
From S2P Require Import Prelude.

(** [inportb] and [outportb]: reading a byte may change the device. *)
Class PortIO (P : Type) := { inportb : P -> Z -> Z * P; outportb : P -> Z -> Z -> P }.
