(* ===== verification/Irqc.v ===== *)
(** * Interrupts of the processor: the descriptor table of arch/x64/cpu.c and arch/x64/irqc.c

    The stubs that interrupts go to are in assembly and known by their addresses.  The two 8259
    controllers are behind the ports of the machine, with laws ([PortPics]).  The timer, which is
    set with floating point, the stacks in the task state segment and the loading of the table are
    left out. *)
From S2P Require Import Strings Irq Ports Prelude.

(** ** The table *)

Record idt_entry := mk_idt_entry { offset0 : Z; selector : Z; ist : Z; type_attr : Z; offset1 : Z; offset2 : Z; zero : Z }.
Definition no_entry : idt_entry := mk_idt_entry 0 0 0 0 0 0 0.

Definition idt_set_entry (idt : list idt_entry) (index ptr attributes ist_ : Z) : res (list idt_entry) :=
  store idt index (mk_idt_entry (Z.land ptr 65535) 8 ist_ attributes (Z.shiftr (Z.land ptr 4294901760) 16) (Z.shiftr (Z.land ptr 18446744069414584320) 32) 0).

Definition idt_init : list idt_entry := replicate 256 no_entry.

(** The calls of [idt_set_entry] in [isr_init] and [irq_init]: stubs by number, with the stack of
    each. *)
Fixpoint set_entries (idt : list idt_entry) (l : list (Z * Z * Z)) : res (list idt_entry) :=
  match l with
  | [] => Ok idt
  | (index, ptr, ist_) :: l => idt ← idt_set_entry idt index ptr 142 ist_; set_entries idt l
  end.
Definition isr_init (isr : Z -> Z) (idt : list idt_entry) : res (list idt_entry) :=
  set_entries idt ((fun i => (i, isr i, if i =? 8 then 2 else 1)) <$> seqZ 0 32).
Definition irq_entries (irq : Z -> Z) : list (Z * Z * Z) :=
  (fun i => (32 + i, irq i, if i =? 0 then 2 else if Z.odd i then 3 else 4)) <$> seqZ 0 16.

(** ** The controllers *)

Section Pic.
Context {P : Type} `{!PortIO P}.

Definition mask_port (irq : Z) : Z * Z := if irq <? 8 then (33, irq) else (161, irq - 8).

Definition irq_set_mask (p : P) (irq : Z) : P :=
  let '(port, irq) := mask_port irq in
  let '(v, p) := inportb p port in
  outportb p port (u8 (Z.lor v (Z.shiftl 1 irq))).

Definition irq_clear_mask (p : P) (irq : Z) : P :=
  let '(port, irq) := mask_port irq in
  let '(v, p) := inportb p port in
  outportb p port (u8 (Z.land v (Z.lnot (Z.shiftl 1 irq)))).

Fixpoint clear_masks (n : nat) (i : Z) (p : P) : P :=
  match n with O => p | S n => clear_masks n (i + 1) (irq_clear_mask p i) end.

Fixpoint outs (p : P) (l : list (Z * Z)) : P :=
  match l with [] => p | (port, v) :: l => outs (outportb p port v) l end.

Definition irq_init (irq : Z -> Z) (idt : list idt_entry) (p : P) : res (list idt_entry * P) :=
  let p := outs p [(32, 17); (160, 17); (33, 32); (161, 40); (33, 4); (161, 2); (33, 1); (161, 1); (33, 0); (161, 0)] in
  idt ← set_entries idt (irq_entries irq);
  let p := clear_masks 16 0 p in
  Ok (idt, irq_set_mask p 7).

(** Without the timer and the entry of system calls. *)
Definition cpu_init (isr irq : Z -> Z) (p : P) : res (list idt_entry * P) :=
  idt ← isr_init isr idt_init;
  irq_init irq idt p.

(** [int_no] is what the stub has pushed. *)
Definition irq_handler (p : P) (w : irqw) (int_no : Z) : res (P * irqw) :=
  w ← irq_enqueue w (u8 (int_no - 32));
  let p := if int_no >=? 40 then outportb p 160 32 else p in
  Ok (outportb p 32 32, w).
End Pic.

(** ** The 8259 *)

(** [stage] is the word of the initialisation that is expected, 0 with none. *)
Record pic := mk_pic { stage : Z; vector_base : Z; cascade : Z; mode : Z; imr : Z; in_service : Z }.

(** The end of the interrupt with the highest priority. *)
Definition eoi (c : pic) : pic := mk_pic (stage c) (vector_base c) (cascade c) (mode c) (imr c) (Z.land (in_service c) (in_service c - 1)).

(** A write at the first or the second address. *)
Definition pic_out (second : bool) (v : Z) (c : pic) : pic :=
  if second then
    if stage c =? 2 then mk_pic 3 (Z.land v 248) (cascade c) (mode c) (imr c) (in_service c)
    else if stage c =? 3 then mk_pic 4 (vector_base c) v (mode c) (imr c) (in_service c)
    else if stage c =? 4 then mk_pic 0 (vector_base c) (cascade c) v (imr c) (in_service c)
    else mk_pic (stage c) (vector_base c) (cascade c) (mode c) v (in_service c)
  else if negb (Z.land v 16 =? 0) then mk_pic 2 (vector_base c) (cascade c) (mode c) 0 0
  else if v =? 32 then eoi c else c.

(** Whose address a port is, the second controller's or the first's, and which. *)
Definition pic_port (port : Z) : option (bool * bool) :=
  if port =? 32 then Some (false, false) else if port =? 33 then Some (false, true)
  else if port =? 160 then Some (true, false) else if port =? 161 then Some (true, true) else None.

Definition pics_out (port v : Z) (c : pic * pic) : pic * pic :=
  match pic_port port with
  | Some (false, a) => (pic_out a v c.1, c.2)
  | Some (true, a) => (c.1, pic_out a v c.2)
  | None => c
  end.

(** [pics p] are the controllers; the second address reads as the mask. *)
Class PortPics (P : Type) `{!PortIO P} := {
  pics : P -> pic * pic;
  pics_write p port v : is_Some (pic_port port) -> pics (outportb p port v) = pics_out port (u8 v) (pics p);
  pics_read p port : is_Some (pic_port port) -> pics (inportb p port).2 = pics p;
  pics_mask p (second : bool) : (inportb p (if second then 161 else 33)).1 = imr (if second then (pics p).2 else (pics p).1) }.

#[export] Instance two_pics : PortIO (pic * pic) := {
  inportb c port := (match pic_port port with Some (s, true) => imr (if s then c.2 else c.1) | _ => 0 end, c);
  outportb c port v := pics_out port (u8 v) c }.
#[export] Instance two_pics_laws : PortPics (pic * pic).
Proof. refine {| pics := id |}; [done|done|by intros c []]. Defined.

Section Laws.
Context {P : Type} `{!PortIO P, !PortPics P}.
Implicit Types (p : P).

Definition line_mask (irq : Z) (f : Z -> Z) (c : pic * pic) : pic * pic :=
  if irq <? 8 then (pic_out true (u8 (f (imr c.1))) c.1, c.2) else (c.1, pic_out true (u8 (f (imr c.2))) c.2).

Lemma u8_u8 x : u8 (u8 x) = u8 x.
Proof. apply Zmod_mod. Qed.

(** Reading the mask at a port and writing it back with [f]. *)
Lemma mask_changed p (second : bool) f : let port := if second then 161 else 33 in
  pics (let '(v, p) := inportb p port in outportb p port (u8 (f v))) = pics_out port (u8 (f (imr (if second then (pics p).2 else (pics p).1)))) (pics p).
Proof.
  intros port. pose proof (pics_mask p second) as Hm. pose proof (pics_read p port ltac:(by destruct second; eexists)) as Hr. fold port in Hm. destruct (inportb p port) as [v p1]. cbn [fst snd] in *. subst v.
  rewrite pics_write by (by destruct second; eexists). by rewrite Hr, u8_u8.
Qed.

Lemma set_mask_ok p irq : pics (irq_set_mask p irq) = line_mask irq (fun v => Z.lor v (Z.shiftl 1 (if irq <? 8 then irq else irq - 8))) (pics p).
Proof. unfold irq_set_mask, mask_port, line_mask. destruct (irq <? 8); [by rewrite (mask_changed p false)|by rewrite (mask_changed p true)]. Qed.

Lemma clear_mask_ok p irq : pics (irq_clear_mask p irq) = line_mask irq (fun v => Z.land v (Z.lnot (Z.shiftl 1 (if irq <? 8 then irq else irq - 8)))) (pics p).
Proof. unfold irq_clear_mask, mask_port, line_mask. destruct (irq <? 8); [by rewrite (mask_changed p false (fun v => Z.land v _))|by rewrite (mask_changed p true (fun v => Z.land v _))]. Qed.

Lemma outs_ok l : Forall (fun x => is_Some (pic_port x.1)) l -> forall p, pics (outs p l) = fold_left (fun c x => pics_out x.1 (u8 x.2) c) l (pics p).
Proof. induction 1 as [|[port v] l Hp _ IH]; intros p; [done|]. cbn [outs fold_left]. rewrite IH. by rewrite pics_write. Qed.

(** ** The entries *)

Definition entry_target (e : idt_entry) : Z := offset0 e + 65536 * offset1 e + 4294967296 * offset2 e.
Definition stub_entry (ptr ist_ : Z) : idt_entry := mk_idt_entry (Z.land ptr 65535) 8 ist_ 142 (Z.shiftr (Z.land ptr 4294901760) 16) (Z.shiftr (Z.land ptr 18446744069414584320) 32) 0.

(** The three parts of an address lead back to it. *)
Lemma entry_target_ok ptr ist_ : 0 <= ptr < 2 ^ 64 -> entry_target (stub_entry ptr ist_) = ptr.
Proof.
  intros Hp. unfold entry_target, stub_entry. cbn [offset0 offset1 offset2]. pose proof (Z.land_ones ptr 16 ltac:(lia)) as E. change (Z.ones 16) with 65535 in E. rewrite E. clear E.
  assert (Z.shiftr (Z.land ptr 4294901760) 16 = (ptr / 2 ^ 16) mod 2 ^ 16) as ->.
  { rewrite Z.shiftr_land. change (Z.shiftr 4294901760 16) with (Z.ones 16). by rewrite Z.land_ones, Z.shiftr_div_pow2 by lia. }
  assert (Z.shiftr (Z.land ptr 18446744069414584320) 32 = ptr / 2 ^ 32) as ->.
  { rewrite Z.shiftr_land. change (Z.shiftr 18446744069414584320 32) with (Z.ones 32). rewrite Z.land_ones, Z.shiftr_div_pow2 by lia. apply Z.mod_small. split; [apply Z.div_pos; lia|apply Z.div_lt_upper_bound; lia]. }
  change (2 ^ 32) with (2 ^ 16 * 2 ^ 16). rewrite <- Z.div_div by lia. pose proof (Z.div_mod ptr (2 ^ 16) ltac:(lia)). pose proof (Z.div_mod (ptr / 2 ^ 16) (2 ^ 16) ltac:(lia)). lia.
Qed.

Lemma set_entries_ok l : Forall (fun x => 0 <= x.1.1 < 256) l -> NoDup (l.*1.*1) -> forall idt, zlen idt = 256 ->
  exists idt', set_entries idt l = Ok idt' /\ zlen idt' = 256 /\ (forall i ptr s, (i, ptr, s) ∈ l -> get idt' i = Some (stub_entry ptr s)) /\ (forall i, i ∉ l.*1.*1 -> get idt' i = get idt i).
Proof.
  induction 1 as [|[[i ptr] s] l Hi _ IH]; intros Hnd idt Hz; [exists idt; split_and!; try done; by intros ? ? ? ?%not_elem_of_nil|]. cbn [fmap list_fmap fst snd] in *. apply NoDup_cons in Hnd as [Hni Hnd]. cbn [set_entries]. unfold idt_set_entry.
  rewrite store_in_range by lia. cbn [mbind res_bind]. destruct (IH Hnd (<[Z.to_nat i := stub_entry ptr s]> idt) ltac:(by rewrite zlen_insert)) as (idt' & E & Hz' & Hin & Hout). exists idt'. split; [exact E|]. split; [done|]. split.
  - intros j q t [[= -> -> ->]|Hj]%elem_of_cons; [|by apply Hin]. rewrite (Hout i Hni). apply get_Some. split; [lia|]. apply list_lookup_insert_eq. unfold zlen in Hz. lia.
  - intros j [Hne Hj]%not_elem_of_cons. rewrite (Hout j Hj). unfold get. destruct (Z.leb_spec 0 j); [|done]. apply list_lookup_insert_ne. lia.
Qed.
(** The chips after the initialisation words, with all lines open. *)
Definition pics_ready : pic * pic := (mk_pic 0 32 4 1 0 0, mk_pic 0 40 2 1 0 0).

Lemma clear_masks_ok n : forall i p, 0 <= i -> i + Z.of_nat n <= 16 -> pics p = pics_ready -> pics (clear_masks n i p) = pics_ready.
Proof.
  induction n as [|n IH]; intros i p Hi Hn Hp; [done|]. cbn [clear_masks]. apply IH; [lia|lia|]. rewrite clear_mask_ok, Hp. unfold line_mask. by destruct (i <? 8).
Qed.

Lemma isr_keys (isr : Z -> Z) : ((fun i => (i, isr i, if i =? 8 then 2 else 1)) <$> seqZ 0 32).*1.*1 = seqZ 0 32.
Proof. rewrite <- !list_fmap_compose. apply list_fmap_id. Qed.
Lemma irq_keys (irq : Z -> Z) : (irq_entries irq).*1.*1 = seqZ 32 16.
Proof. unfold irq_entries. rewrite <- !list_fmap_compose. change (seqZ 32 16) with ((fun i => 32 + i) <$> seqZ 0 16). done. Qed.

(** What interrupt [n] does: the stub it goes to, and the stack it goes on. *)
Definition goes_to (idt : list idt_entry) (n stub : Z) : Prop :=
  exists e, get idt n = Some e /\ entry_target e = stub /\ selector e = 8 /\ type_attr e = 142 /\ 1 <= ist e <= 4.

(** after [cpu_init] every exception and every line of the controllers goes to its own stub, on
    one of the four stacks, the other entries are empty, the controllers raise line [i] as interrupt
    32 + [i], and of all lines only 7 is masked. *)
Theorem cpu_init_ok isr irq p : (forall i, 0 <= isr i < 2 ^ 64) -> (forall i, 0 <= irq i < 2 ^ 64) ->
  exists idt p', cpu_init isr irq p = Ok (idt, p') /\ (forall n, 0 <= n < 32 -> goes_to idt n (isr n)) /\ (forall n, 0 <= n < 16 -> goes_to idt (32 + n) (irq n)) /\
    (forall n, 48 <= n < 256 -> get idt n = Some no_entry) /\ pics p' = (mk_pic 0 32 4 1 128 0, mk_pic 0 40 2 1 0 0).
Proof.
  intros Hisr Hirq. unfold cpu_init, isr_init. set (l := _ <$> seqZ 0 32).
  destruct (set_entries_ok l) with (idt := idt_init) as (idt1 & -> & Hz1 & Hin1 & Hout1).
  { apply Forall_fmap, Forall_forall. intros i Hi%elem_of_seqZ. cbn. lia. } { unfold l. rewrite isr_keys. apply NoDup_seqZ. } { done. }
  cbn [mbind res_bind]. unfold irq_init. destruct (set_entries_ok (irq_entries irq)) with (idt := idt1) as (idt2 & -> & Hz2 & Hin2 & Hout2).
  { apply Forall_fmap, Forall_forall. intros i Hi%elem_of_seqZ. cbn. lia. } { rewrite irq_keys. apply NoDup_seqZ. } { done. }
  cbn [mbind res_bind]. eexists _, _. split; [done|]. split_and!.
  - intros n Hn. exists (stub_entry (isr n) (if n =? 8 then 2 else 1)). split; [|split; [by apply entry_target_ok|split_and!; [done|done|cbn; destruct (n =? 8); lia..]]].
    rewrite Hout2 by (rewrite irq_keys, elem_of_seqZ; lia). apply Hin1. apply list_elem_of_fmap. exists n. split; [done|]. apply elem_of_seqZ. lia.
  - intros n Hn. set (s := if n =? 0 then 2 else if Z.odd n then 3 else 4). exists (stub_entry (irq n) s). split; [|split; [by apply entry_target_ok|split_and!; [done|done|cbn; unfold s; destruct (n =? 0), (Z.odd n); lia..]]].
    apply Hin2. apply list_elem_of_fmap. exists n. split; [done|]. apply elem_of_seqZ. lia.
  - intros n Hn. rewrite Hout2 by (rewrite irq_keys, elem_of_seqZ; lia). rewrite Hout1 by (unfold l; rewrite isr_keys, elem_of_seqZ; lia). apply get_Some. split; [lia|]. apply lookup_replicate. split; [done|lia].
  - rewrite set_mask_ok, (clear_masks_ok 16 0); [done|lia|lia|]. rewrite outs_ok by (repeat constructor; by eexists). by destruct (pics p) as [[] []].
Qed.

(** An interrupt of a line is queued, and the controllers are told of its end: the second only for
    its own lines. *)
Theorem irq_handler_ends p w w' i : 0 <= i < 16 -> irq_enqueue w i = Ok w' ->
  exists p', irq_handler p w (32 + i) = Ok (p', w') /\ pics p' = (eoi (pics p).1, if i <? 8 then (pics p).2 else eoi (pics p).2).
Proof.
  intros Hi E. unfold irq_handler. replace (32 + i - 32) with i by lia. rewrite u8_small, E by lia. cbn [mbind res_bind]. eexists. split; [done|]. rewrite Z.geb_leb.
  destruct (Z.leb_spec 40 (32 + i)), (Z.ltb_spec i 8); try lia; rewrite !pics_write by (by eexists); by destruct (pics p) as [c1 c2].
Qed.

End Laws.

Lemma cpu_init_ok_witness : exists idt p', cpu_init (fun i => u64 (1048576 + 16 * i)) (fun i => u64 (2097152 + 16 * i)) (mk_pic 0 8 4 1 184 0, mk_pic 0 112 2 1 143 0) = Ok (idt, p') /\ goes_to idt 33 2097168.
Proof.
  destruct (cpu_init_ok (P := pic * pic) (fun i => u64 (1048576 + 16 * i)) (fun i => u64 (2097152 + 16 * i)) (mk_pic 0 8 4 1 184 0, mk_pic 0 112 2 1 143 0)) as (idt & p' & E & _ & H & _); [intros i; apply u64_range..|].
  exists idt, p'. split; [|apply (H 1); lia]. exact E.
Defined.
