(* ===== verification/Uart.v ===== *)
(** * The serial ports: arch/x64/pcuart/pcuart.c

    The ports of the machine are the class [PortIO]; [PortUarts] is what the code relies on, a
    16550 behind each of the four port ranges or nothing there.  The driver never enables the FIFOs, so
    the device has one byte of room in each direction: a byte that comes in on top of one that was not
    read, and one that is written on top of one that was not sent, take its place.  When a written
    byte has been sent is up to the device ([emptied]).  A thread that reads goes through
    the places of [pcuart_read]: it waits for bytes, takes the lock, and reads from the ring, so
    that interrupts and other readers may come in between.  Writing is one step, under its lock.
    The names of the locks are left out. *)
From S2P Require Import Strings CBuf Format Rcp Block Console Devfs Irq Ports Prelude.

Definition MAX_SERIAL : Z := 4.
Definition pcuart_ioports : list Z := [1016; 760; 1000; 744].

Definition REG_DATA : Z := 0.
Definition REG_INT : Z := 1.
Definition REG_DIV_LO : Z := 0.
Definition REG_DIV_HI : Z := 1.
Definition REG_LCONTROL : Z := 3.
Definition REG_MCONTROL : Z := 4.
Definition REG_LSTATUS : Z := 5.
Definition REG_SCRATCH : Z := 7.

Section Driver.
Context {P : Type} `{!PortIO P}.

(** The ports and the statics of the file; [read_spinlockes] is whether each is held. *)
Record pcuart := mk_pcuart {
  ports : P; pcuart_present : list bool; pcuart_buffers : list Cbufm.cbufm; pcuart_last : list Z; read_spinlockes : list bool }.

Definition set_ports (u : pcuart) x := mk_pcuart x (pcuart_present u) (pcuart_buffers u) (pcuart_last u) (read_spinlockes u).
Definition set_buffers (u : pcuart) x := mk_pcuart (ports u) (pcuart_present u) x (pcuart_last u) (read_spinlockes u).
Definition set_uart_last (u : pcuart) x := mk_pcuart (ports u) (pcuart_present u) (pcuart_buffers u) x (read_spinlockes u).
Definition set_locks (u : pcuart) x := mk_pcuart (ports u) (pcuart_present u) (pcuart_buffers u) (pcuart_last u) x.

(** Before [pcuart_init]. *)
Definition pcuart_boot (p : P) : pcuart :=
  mk_pcuart p (replicate 4 false) (replicate 4 (Cbufm.mk_cbufm 0 0 [])) (replicate 4 0) (replicate 4 false).

(** ** The line *)

Definition pcuart_set_baud_div (p : P) (port divisor : Z) : res P :=
  base ← load pcuart_ioports port;
  let '(tmp, p) := inportb p (base + REG_LCONTROL) in
  let p := outportb p (base + REG_LCONTROL) (Z.lor tmp 128) in
  let p := outportb p (base + REG_DIV_LO) (Z.land divisor 255) in
  let p := outportb p (base + REG_DIV_HI) (Z.land (Z.shiftr divisor 8) 255) in
  Ok (outportb p (base + REG_LCONTROL) tmp).

Definition pcuart_set_params (p : P) (port data_bits : Z) (stop_bits1_5or2 : bool) (parity : Z) : res P :=
  base ← load pcuart_ioports port;
  Ok (outportb p (base + REG_LCONTROL)
    (u8 (Z.land (parity - 5) 3 + (if stop_bits1_5or2 then 4 else 0) + Z.shiftl (Z.land parity 7) 3))).

(** ** Interrupts *)

(** One of the loops of the handlers, on port [i]; [fuel] is how many bytes come. *)
Fixpoint irq_drain (fuel : nat) (u : pcuart) (i base : Z) : res pcuart :=
  let '(status, p) := inportb (ports u) (base + REG_LSTATUS) in
  let u := set_ports u p in
  if Z.land status 1 =? 0 then Ok u
  else
    match fuel with
    | O => OutOfFuel
    | S f =>
        let '(c, p) := inportb (ports u) (base + REG_DATA) in
        let c := if c =? 127 then 8 else c in
        b ← load (pcuart_buffers u) i;
        '(b, _) ← Cbufm.cbufm_write 1 b [c];
        bs ← store (pcuart_buffers u) i b;
        irq_drain f (set_buffers (set_ports u p) bs) i base
    end.

Definition irq_port (fuel : nat) (u : pcuart) (i : Z) : res pcuart :=
  here ← load (pcuart_present u) i;
  if here : bool then base ← load pcuart_ioports i; irq_drain fuel u i base else Ok u.

Definition pcuart_0_2_irq (fuel : nat) (u : pcuart) : res pcuart := u ← irq_port fuel u 0; irq_port fuel u 2.
Definition pcuart_1_3_irq (fuel : nat) (u : pcuart) : res pcuart := u ← irq_port fuel u 1; irq_port fuel u 3.

(** ** Reading *)

(** Where a thread in [pcuart_read] is: before the test of the loop, behind it, or in
    [cbufm_read] with the lock, with what it has, its place in the ring and what it still
    wants. *)
Inductive read_place := Testing | Passed | Holding (out : list Z) (start want : Z) | Returned (out : list Z).

Record reader := mk_reader { r_fd : Z; r_len : Z; r_at : read_place }.

Definition start_read (fd len : Z) : reader := mk_reader fd (if len >? 64 then 64 else len) Testing.

(** One step; a thread that has to wait stays where it is. *)
Definition reader_step (u : pcuart) (r : reader) : res (pcuart * reader) :=
  let goto p := mk_reader (r_fd r) (r_len r) p in
  b ← load (pcuart_buffers u) (r_fd r);
  last ← load (pcuart_last u) (r_fd r);
  match r_at r with
  | Testing => Ok (u, if Cbufm.cbufm_available b (u64 last) <? u32 (r_len r) then r else goto Passed)
  | Passed =>
      held ← load (read_spinlockes u) (r_fd r);
      if held : bool then Ok (u, r)
      else l ← store (read_spinlockes u) (r_fd r) true; Ok (set_locks u l, goto (Holding [] (u64 last) (u64 (r_len r))))
  | Holding out start want =>
      o ← Cbufm.cbufm_read (Z.to_nat want) b out start want;
      match o with
      | Cbufm.Blocked out start want => Ok (u, goto (Holding out start want))
      | Cbufm.Done out start =>
          ls ← store (pcuart_last u) (r_fd r) (s32 start);
          l ← store (read_spinlockes u) (r_fd r) false;
          Ok (set_locks (set_uart_last u ls) l, goto (Returned out))
      end
  | Returned _ => Ok (u, r)
  end.

(** A thread that reads, with what others do between its steps; without end when it still waits
    after all of that. *)
Fixpoint read_through (others : list (pcuart -> res pcuart)) (u : pcuart) (r : reader) : res (pcuart * list Z) :=
  '(u, r) ← reader_step u r;
  match r_at r, others with
  | Returned out, _ => Ok (u, out)
  | _, [] => OutOfFuel
  | _, f :: others => u ← f u; read_through others u r
  end.

Definition pcuart_read (others : list (pcuart -> res pcuart)) (u : pcuart) (fd file : Z) (buffer : list Z) (len : Z) : res (pcuart * list Z * Z) :=
  let r := start_read fd len in
  '(u, out) ← read_through others u r;
  buffer ← memcpy buffer 0 out 0 (zlen out);
  Ok (u, buffer, r_len r).

(** ** Writing *)

Fixpoint send_chars (n : nat) (i : Z) (p : P) (port : Z) (buffer : list Z) : res P :=
  match n with
  | O => Ok p
  | S n =>
      b ← load buffer i;
      send_chars n (i + 1) (if b =? 10 then outportb (outportb p port 13) port 10 else outportb p port b) port buffer
  end.

Definition pcuart_write (u : pcuart) (fd file : Z) (buffer : list Z) (len : Z) : res (pcuart * Z) :=
  base ← load pcuart_ioports fd;
  p ← send_chars (Z.to_nat len) 0 (ports u) (base + REG_DATA) buffer;
  Ok (set_ports u p, len).

(** ** The other operations *)

Definition pcuart_open (u : pcuart) (fd file : Z) : res (pcuart * Z) := Ok (u, 0).
Definition pcuart_close (u : pcuart) (fd file : Z) : res pcuart := Ok u.

(** With the lock held by a reader that waits in [cbufm_read] this spins for ever. *)
Definition pcuart_ioctl (u : pcuart) (fd file code : Z) : res (pcuart * option Z * Z) :=
  if code =? IOCTL_BYTES_AVAILABLE then
    held ← load (read_spinlockes u) fd;
    if held : bool then OutOfFuel
    else
      b ← load (pcuart_buffers u) fd;
      last ← load (pcuart_last u) fd;
      Ok (u, Some (s32 (Cbufm.cbufm_available b (u64 last))), 0)
  else Ok (u, None, - rc ENOSYS).

Definition pcuart_ops (others : list (pcuart -> res pcuart)) : char_ops pcuart Z :=
  mk_char_ops (Some pcuart_open) (Some (pcuart_read others)) (Some pcuart_write) (Some pcuart_close) (Some pcuart_ioctl).

(** ** Set-up *)

(** The probe: whether the scratch register keeps a value. *)
Definition probe (p : P) (base : Z) : bool * P :=
  let '(ret, p) := inportb (outportb p (base + REG_SCRATCH) 52) (base + REG_SCRATCH) in (ret =? 52, p).

(** What is written to a port that was found. *)
Definition configure (p : P) (i base : Z) : res P :=
  let p := outportb p (base + REG_INT) 0 in
  p ← pcuart_set_baud_div p i 2;
  p ← pcuart_set_params p i 8 false 0;
  Ok (outportb (outportb p (base + REG_MCONTROL) 11) (base + REG_INT) 1).

(** The loop of [pcuart_init]: [alloc] gives the addresses of the [dev_char_t] objects, [mem] what
    is in the memory for the [dev_t] names, [ring] that for the buffers, [buffer] what is in
    [name]. *)
Fixpoint init_ports (n : nat) (i cnt : Z) (w : charw pcuart Z) (ops : char_ops pcuart Z) (alloc : Z -> Z) (mem ring : Z -> list Z) (buffer scratch : list Z)
  : res (charw pcuart Z) :=
  match n with
  | O => Ok w
  | S n =>
      base ← load pcuart_ioports i;
      let '(found, p) := probe (ports (cdrv w)) base in
      let u := set_ports (cdrv w) p in
      if negb found then init_ports n (i + 1) cnt (set_cdrv w u) ops alloc mem ring buffer scratch
      else
        p ← configure p i base;
        let w := mk_charw (c_array w) (<[alloc i := mk_dev_char i ops]> (chars w)) (set_ports u p) in
        '(buffer, _) ← snprintf buffer 8 (bytes "tts%i" ++ [0]) [VInt cnt] scratch;
        '(w, _) ← dev_register_char w buffer (alloc i) (mem i) scratch;
        let u := cdrv w in
        here ← store (pcuart_present u) i true;
        bs ← store (pcuart_buffers u) i (Cbufm.cbufm_create (ring i) 256);
        let u := mk_pcuart (ports u) here bs (pcuart_last u) (read_spinlockes u) in
        init_ports n (i + 1) (cnt + 1) (set_cdrv w u) ops alloc mem ring buffer scratch
  end.

(** [irq02] and [irq13] are the addresses of the two handlers. *)
Definition pcuart_init (w : charw pcuart Z) (q : irqw) (ops : char_ops pcuart Z) (alloc : Z -> Z) (mem ring : Z -> list Z) (buffer scratch : list Z) (irq02 irq13 : Z)
  : res (charw pcuart Z * irqw) :=
  w ← init_ports (Z.to_nat MAX_SERIAL) 0 0 w ops alloc mem ring buffer scratch;
  '(q, _) ← irq_install_immediate q 4 irq02;
  '(q, _) ← irq_install_immediate q 3 irq13;
  Ok (w, q).
End Driver.

Arguments pcuart P : clear implicits.


(** ** The 16550 *)

(** The transmitter: [emptied n] is whether the byte written before has left the holding register
    when the one with number [n] is written; the driver cannot know, since it never reads that bit
    of the line status.  [taken] are the bytes written so far, [line] those that get on the line; the
    last one of them may still be in the register. *)
Record transmitter := mk_transmitter { emptied : nat -> bool; taken : list Z; line : list Z }.

Definition transmit_byte (t : transmitter) (v : Z) : transmitter :=
  mk_transmitter (emptied t) (taken t ++ [v]) ((if emptied t (length (taken t)) then line t else List.removelast (line t)) ++ [v]).
Definition transmit (t : transmitter) (vs : list Z) : transmitter := foldl transmit_byte t vs.

(** [rx] is the byte that was received, if there is one. *)
Record uart := mk_uart { divisor_lo : Z; divisor_hi : Z; ier : Z; lcr : Z; mcr : Z; uscratch : Z; rx : list Z; tx : transmitter }.

(** The bit that puts the divisor in the place of the first two registers. *)
Definition dlab (c : uart) : bool := Z.testbit (lcr c) 7.

(** What a read and a write of a register do to it. *)
Definition uart_in (r : Z) (c : uart) : uart :=
  if (r =? 0) && negb (dlab c) then mk_uart (divisor_lo c) (divisor_hi c) (ier c) (lcr c) (mcr c) (uscratch c) (drop 1 (rx c)) (tx c) else c.
Definition uart_out (r v : Z) (c : uart) : uart :=
  if r =? 0 then
    if dlab c then mk_uart v (divisor_hi c) (ier c) (lcr c) (mcr c) (uscratch c) (rx c) (tx c)
    else mk_uart (divisor_lo c) (divisor_hi c) (ier c) (lcr c) (mcr c) (uscratch c) (rx c) (transmit_byte (tx c) v)
  else if r =? 1 then
    if dlab c then mk_uart (divisor_lo c) v (ier c) (lcr c) (mcr c) (uscratch c) (rx c) (tx c)
    else mk_uart (divisor_lo c) (divisor_hi c) v (lcr c) (mcr c) (uscratch c) (rx c) (tx c)
  else if r =? 3 then mk_uart (divisor_lo c) (divisor_hi c) (ier c) v (mcr c) (uscratch c) (rx c) (tx c)
  else if r =? 4 then mk_uart (divisor_lo c) (divisor_hi c) (ier c) (lcr c) v (uscratch c) (rx c) (tx c)
  else if r =? 7 then mk_uart (divisor_lo c) (divisor_hi c) (ier c) (lcr c) (mcr c) v (rx c) (tx c)
  else c.

(** A byte comes in on the line. *)
Definition uart_receive (x : Z) (c : uart) : uart :=
  mk_uart (divisor_lo c) (divisor_hi c) (ier c) (lcr c) (mcr c) (uscratch c) [x] (tx c).

(** [fitted p i] is the device behind port [i]; with none there the scratch register keeps
    nothing. *)
Class PortUarts (P : Type) `{!PortIO P} := {
  fitted : P -> Z -> option uart;
  in_device p i b r j : get pcuart_ioports i = Some b -> 0 <= r < 8 -> 0 <= j < 4 ->
    fitted (inportb p (b + r)).2 j = if decide (j = i) then uart_in r <$> fitted p i else fitted p j;
  out_device p i b r v j : get pcuart_ioports i = Some b -> 0 <= r < 8 -> 0 <= j < 4 ->
    fitted (outportb p (b + r) v) j = if decide (j = i) then uart_out r (u8 v) <$> fitted p i else fitted p j;
  in_data p i b c x q : get pcuart_ioports i = Some b -> fitted p i = Some c -> dlab c = false -> rx c = x :: q -> (inportb p (b + REG_DATA)).1 = x;
  in_lcontrol p i b c : get pcuart_ioports i = Some b -> fitted p i = Some c -> (inportb p (b + REG_LCONTROL)).1 = lcr c;
  in_lstatus p i b c : get pcuart_ioports i = Some b -> fitted p i = Some c ->
    Z.land (inportb p (b + REG_LSTATUS)).1 1 = match rx c with [] => 0 | _ => 1 end;
  in_scratch p i b c : get pcuart_ioports i = Some b -> fitted p i = Some c -> (inportb p (b + REG_SCRATCH)).1 = uscratch c;
  in_absent p i b : get pcuart_ioports i = Some b -> fitted p i = None -> (inportb p (b + REG_SCRATCH)).1 = 255 }.

(** A bus with four places for them. *)
Abbreviation bus := (list (option uart)).
Definition bus_port (port : Z) : option (Z * Z) :=
  if (1016 <=? port) && (port <? 1024) then Some (0, port - 1016)
  else if (760 <=? port) && (port <? 768) then Some (1, port - 760)
  else if (1000 <=? port) && (port <? 1008) then Some (2, port - 1000)
  else if (744 <=? port) && (port <? 752) then Some (3, port - 744) else None.
Definition uart_reg (r : Z) (c : uart) : Z :=
  if r =? 0 then (if dlab c then divisor_lo c else List.hd 0 (rx c))
  else if r =? 3 then lcr c
  else if r =? 5 then (match rx c with [] => 96 | _ => 97 end)
  else if r =? 7 then uscratch c else 0.
Definition bus_uart (p : bus) (i : Z) : option uart := default None (p !! Z.to_nat i).
Definition bus_set (p : bus) (i : Z) (c : uart) : bus := <[Z.to_nat i := Some c]> p.
#[export] Instance bus_io : PortIO bus := {
  inportb p port :=
    match bus_port port with
    | Some (i, r) => match bus_uart p i with Some c => (uart_reg r c, bus_set p i (uart_in r c)) | None => (255, p) end
    | None => (255, p)
    end;
  outportb p port v :=
    match bus_port port with
    | Some (i, r) => match bus_uart p i with Some c => bus_set p i (uart_out r (u8 v) c) | None => p end
    | None => p
    end }.

Lemma port_cases i b : get pcuart_ioports i = Some b -> (i = 0 /\ b = 1016) \/ (i = 1 /\ b = 760) \/ (i = 2 /\ b = 1000) \/ (i = 3 /\ b = 744).
Proof.
  intros H. assert (0 <= i < 4) as Hi by (apply (get_is_Some pcuart_ioports); by rewrite H).
  assert (i = 0 \/ i = 1 \/ i = 2 \/ i = 3) as Hc by lia. destruct Hc as [->|[->|[->| ->]]]; injection H as <-; intuition.
Qed.

Lemma bus_port_of i b r : get pcuart_ioports i = Some b -> 0 <= r < 8 -> bus_port (b + r) = Some (i, r).
Proof.
  intros Hb Hr. unfold bus_port. destruct (port_cases i b Hb) as [[-> ->]|[[-> ->]|[[-> ->]|[-> ->]]]]; case_cmp; simpl; try lia; do 2 f_equal; lia.
Qed.

Lemma bus_uart_set p i c c' j : bus_uart p i = Some c -> 0 <= i < 4 -> 0 <= j < 4 -> bus_uart (bus_set p i c') j = if decide (j = i) then Some c' else bus_uart p j.
Proof.
  unfold bus_uart, bus_set. intros H Hi Hj. destruct (decide (j = i)) as [->|Hne].
  - rewrite list_lookup_insert_eq; [done|]. destruct (p !! Z.to_nat i) eqn:E; [|done]. by apply lookup_lt_Some in E.
  - rewrite list_lookup_insert_ne by lia. done.
Qed.

Lemma port_index i b : get pcuart_ioports i = Some b -> 0 <= i < 4.
Proof. intros H. apply (get_is_Some pcuart_ioports). by rewrite H. Qed.

#[export] Instance bus_uarts : PortUarts bus.
Proof.
  refine {| fitted := bus_uart |}.
  - intros p i b r j Hb Hr Hj. cbn [inportb bus_io]. rewrite (bus_port_of i b r Hb Hr). destruct (bus_uart p i) as [c|] eqn:Ec; cbn [snd fmap option_fmap option_map].
    + by rewrite (bus_uart_set p i c _ j Ec (port_index i b Hb) Hj).
    + by destruct (decide (j = i)) as [->|].
  - intros p i b r v j Hb Hr Hj. cbn [outportb bus_io]. rewrite (bus_port_of i b r Hb Hr). destruct (bus_uart p i) as [c|] eqn:Ec; cbn [fmap option_fmap option_map].
    + by rewrite (bus_uart_set p i c _ j Ec (port_index i b Hb) Hj).
    + by destruct (decide (j = i)) as [->|].
  - intros p i b c x q Hb Hc Hd Hx. cbn [inportb bus_io]. rewrite (bus_port_of i b _ Hb) by (unfold REG_DATA; lia). rewrite Hc. cbn [fst]. unfold uart_reg, REG_DATA. cbn [Z.eqb]. by rewrite Hd, Hx.
  - intros p i b c Hb Hc. cbn [inportb bus_io]. rewrite (bus_port_of i b _ Hb) by (unfold REG_LCONTROL; lia). by rewrite Hc.
  - intros p i b c Hb Hc. cbn [inportb bus_io]. rewrite (bus_port_of i b _ Hb) by (unfold REG_LSTATUS; lia). rewrite Hc. cbn [fst]. by destruct c as [? ? ? ? ? ? [|? ?] ?].
  - intros p i b c Hb Hc. cbn [inportb bus_io]. rewrite (bus_port_of i b _ Hb) by (unfold REG_SCRATCH; lia). by rewrite Hc.
  - intros p i b Hb Hc. cbn [inportb bus_io]. rewrite (bus_port_of i b _ Hb) by (unfold REG_SCRATCH; lia). by rewrite Hc.
Defined.

(** ** Bytes, interrupts and threads in any order *)

(** The driver with the threads that read, seen from one port (a byte comes in only when the one before
    has been read from the device, which else loses that one): what has come in on its line, and
    what was handed to readers so far, one read after the other. *)
Record serial (P : Type) := mk_serial { drv : pcuart P; readers : list reader; arrived : list Z; delivered : list Z }.
Arguments mk_serial {P}.
Arguments drv {P}.
Arguments readers {P}.
Arguments arrived {P}.
Arguments delivered {P}.

(** What the step of a reader hands out. *)
Definition handed (i : Z) (r r' : reader) : list Z :=
  match r_at r, r_at r' with
  | Holding _ _ _, Returned out => if r_fd r =? i then out else []
  | _, _ => []
  end.

Inductive serial_step {P : Type} `{PortUarts P} (i : Z) : serial P -> serial P -> Prop :=
  | step_receive s j x p' : 0 <= j < 4 -> (forall c, fitted (ports (drv s)) j = Some c -> rx c = []) ->
      (forall k, 0 <= k < 4 -> fitted p' k = if decide (k = j) then uart_receive x <$> fitted (ports (drv s)) k else fitted (ports (drv s)) k) ->
      serial_step i s (mk_serial (set_ports (drv s) p') (readers s) (if decide (j = i) then arrived s ++ [x] else arrived s) (delivered s))
  | step_irq02 s fuel u' : pcuart_0_2_irq fuel (drv s) = Ok u' -> serial_step i s (mk_serial u' (readers s) (arrived s) (delivered s))
  | step_irq13 s fuel u' : pcuart_1_3_irq fuel (drv s) = Ok u' -> serial_step i s (mk_serial u' (readers s) (arrived s) (delivered s))
  | step_call s fd len : - 2 ^ 31 <= len < 2 ^ 31 -> serial_step i s (mk_serial (drv s) (readers s ++ [start_read fd len]) (arrived s) (delivered s))
  | step_read s k r u' r' : readers s !! k = Some r -> reader_step (drv s) r = Ok (u', r') ->
      serial_step i s (mk_serial u' (<[k := r']> (readers s)) (arrived s) (delivered s ++ handed i r r'))
  | step_write s fd file buffer len u' n : pcuart_write (drv s) fd file buffer len = Ok (u', n) -> serial_step i s (mk_serial u' (readers s) (arrived s) (delivered s)).

(** Runs in which the ring never has to hold more than 255 bytes.  In others the writer overtakes the
    readers, and nobody notices: [Cbufm.cbufm_overrun_available] (CBuf.v). *)
Inductive serial_steps {P : Type} `{PortUarts P} (i : Z) : serial P -> serial P -> Prop :=
  | serial_done s : serial_steps i s s
  | serial_more s s' s'' : serial_steps i s s' -> zlen (arrived s') - zlen (delivered s') < 256 -> serial_step i s' s'' -> serial_steps i s s''.

(** ** What the ports say *)

Section Laws.
Context {P : Type} `{!PortIO P, !PortUarts P}.
Implicit Types (u : pcuart P) (p : P).

(** What the registers hold after a write. *)
Lemma out_lcr v c : uart_out REG_LCONTROL v c = mk_uart (divisor_lo c) (divisor_hi c) (ier c) v (mcr c) (uscratch c) (rx c) (tx c).
Proof. done. Qed.
Lemma out_mcr v c : uart_out REG_MCONTROL v c = mk_uart (divisor_lo c) (divisor_hi c) (ier c) (lcr c) v (uscratch c) (rx c) (tx c).
Proof. done. Qed.
Lemma out_scratch v c : uart_out REG_SCRATCH v c = mk_uart (divisor_lo c) (divisor_hi c) (ier c) (lcr c) (mcr c) v (rx c) (tx c).
Proof. done. Qed.
Lemma out_div_lo v c : dlab c = true -> uart_out REG_DIV_LO v c = mk_uart v (divisor_hi c) (ier c) (lcr c) (mcr c) (uscratch c) (rx c) (tx c).
Proof. intros H. unfold uart_out, REG_DIV_LO. by rewrite H. Qed.
Lemma out_data v c : dlab c = false -> uart_out REG_DATA v c = mk_uart (divisor_lo c) (divisor_hi c) (ier c) (lcr c) (mcr c) (uscratch c) (rx c) (transmit_byte (tx c) v).
Proof. intros H. unfold uart_out, REG_DATA. by rewrite H. Qed.
Lemma out_div_hi v c : dlab c = true -> uart_out REG_DIV_HI v c = mk_uart (divisor_lo c) v (ier c) (lcr c) (mcr c) (uscratch c) (rx c) (tx c).
Proof. intros H. unfold uart_out, REG_DIV_HI. by rewrite H. Qed.
Lemma out_int v c : uart_out REG_INT v c
  = mk_uart (divisor_lo c) (if dlab c then v else divisor_hi c) (if dlab c then ier c else v) (lcr c) (mcr c) (uscratch c) (rx c) (tx c).
Proof. unfold uart_out, REG_INT. by destruct (dlab c). Qed.

(** The answer of a read with what it does to the devices. *)
Lemma in_split p i b r : get pcuart_ioports i = Some b -> 0 <= r < 8 ->
  exists v p', (inportb p (b + r)).1 = v /\ inportb p (b + r) = (v, p') /\
    forall j, 0 <= j < 4 -> fitted p' j = if decide (j = i) then uart_in r <$> fitted p i else fitted p j.
Proof.
  intros Hb Hr. destruct (inportb p (b + r)) as [v p'] eqn:E. exists v, p'. split_and!; [done|done|]. intros j Hj.
  rewrite <- (in_device p i b r j Hb Hr Hj), E. done.
Qed.

(** Reads other than of the data register, or with the divisor in its place, change nothing. *)
Lemma in_same p i b r c : get pcuart_ioports i = Some b -> 0 < r < 8 -> fitted p i = Some c ->
  exists v p', (inportb p (b + r)).1 = v /\ inportb p (b + r) = (v, p') /\ forall j, 0 <= j < 4 -> fitted p' j = fitted p j.
Proof.
  intros Hb Hr Hc. destruct (in_split p i b r Hb ltac:(lia)) as (v & p' & Ev & E & Hf). exists v, p'. split_and!; [done|done|]. intros j Hj. rewrite (Hf j Hj).
  destruct (decide (j = i)) as [->|]; [|done]. rewrite Hc. cbn [fmap option_fmap option_map]. unfold uart_in. destruct (Z.eqb_spec r 0); [lia|done].
Qed.

Definition others_same p p' (i : Z) : Prop := forall j, 0 <= j < 4 -> j <> i -> fitted p' j = fitted p j.

Lemma out_fitted p i b r v c : get pcuart_ioports i = Some b -> 0 <= r < 8 -> fitted p i = Some c ->
  fitted (outportb p (b + r) v) i = Some (uart_out r (u8 v) c) /\ others_same p (outportb p (b + r) v) i.
Proof.
  intros Hb Hr Hc. split.
  - rewrite (out_device p i b r v i Hb Hr (port_index i b Hb)), decide_True by done. by rewrite Hc.
  - intros j Hj Hne. by rewrite (out_device p i b r v j Hb Hr Hj), decide_False.
Qed.

Lemma same_trans p p' p'' i : others_same p p' i -> others_same p' p'' i -> others_same p p'' i.
Proof. intros H1 H2 j Hj Hne. by rewrite (H2 j Hj Hne), (H1 j Hj Hne). Qed.

(** ** The set-up of a port *)

Lemma u8_dlab v : Z.testbit (u8 (Z.lor v 128)) 7 = true.
Proof. unfold u8. rewrite Z.mod_pow2_bits_low by lia. by rewrite Z.lor_spec, orb_true_r. Qed.

Ltac out_step p1 Hp1 Hs1 :=
  match goal with
  | Hb : get pcuart_ioports ?i = Some ?b, Hc : fitted ?p ?i = Some ?c |- context [outportb ?p (?b + ?r) ?v] =>
      destruct (out_fitted p i b r v c Hb ltac:(unfold REG_DATA, REG_INT, REG_DIV_LO, REG_DIV_HI, REG_LCONTROL, REG_MCONTROL, REG_SCRATCH; lia) Hc) as [Hp1 Hs1];
      set (p1 := outportb p (b + r) v) in *; clearbody p1
  end.

Lemma baud_ok p i b c d : get pcuart_ioports i = Some b -> fitted p i = Some c ->
  exists p', pcuart_set_baud_div p i d = Ok p' /\ others_same p p' i /\
    fitted p' i = Some (mk_uart (u8 d) (u8 (Z.shiftr d 8)) (ier c) (u8 (lcr c)) (mcr c) (uscratch c) (rx c) (tx c)).
Proof.
  intros Hb Hc. unfold pcuart_set_baud_div, load. rewrite Hb. cbn [res_of_option mbind res_bind].
  destruct (in_same p i b REG_LCONTROL c Hb ltac:(unfold REG_LCONTROL; lia) Hc) as (v & p0 & Ev & E & Hs0). rewrite (in_lcontrol p i b c Hb Hc) in Ev. rewrite E. subst v. clear E.
  rewrite <- (Hs0 i (port_index i b Hb)) in Hc. out_step p1 Hp1 Hs1. clear Hc. out_step p2 Hp2 Hs2. clear Hp1. out_step p3 Hp3 Hs3. clear Hp2. out_step p4 Hp4 Hs4.
  exists p4. split; [done|]. split.
  - intros j Hj Hne. by rewrite (Hs4 j Hj Hne), (Hs3 j Hj Hne), (Hs2 j Hj Hne), (Hs1 j Hj Hne), (Hs0 j Hj).
  - rewrite Hp4, out_lcr, out_div_hi, out_div_lo, out_lcr; rewrite ?out_div_lo, ?out_lcr; try apply u8_dlab. cbn [divisor_lo divisor_hi ier lcr mcr uscratch rx tx].
    rewrite !(Z.land_ones _ 8) by lia. unfold u8. by rewrite !Zmod_mod.
Qed.

(** The arguments of the parameters are mixed up: the word length is taken from the parity and
    [data_bits] from nothing. *)
Lemma params_ok p i b c data_bits stop parity : get pcuart_ioports i = Some b -> fitted p i = Some c ->
  exists p', pcuart_set_params p i data_bits stop parity = Ok p' /\ others_same p p' i /\
    fitted p' i = Some (mk_uart (divisor_lo c) (divisor_hi c) (ier c) (u8 (Z.land (parity - 5) 3 + (if stop then 4 else 0) + Z.shiftl (Z.land parity 7) 3)) (mcr c) (uscratch c) (rx c) (tx c)).
Proof.
  intros Hb Hc. unfold pcuart_set_params, load. rewrite Hb. cbn [res_of_option mbind res_bind]. out_step p1 Hp1 Hs1. exists p1. split; [done|]. split; [done|].
  rewrite Hp1, out_lcr. unfold u8. by rewrite Zmod_mod.
Qed.

Lemma configure_ok p i b c : get pcuart_ioports i = Some b -> fitted p i = Some c ->
  exists p', configure p i b = Ok p' /\ others_same p p' i /\ fitted p' i = Some (mk_uart 2 0 1 3 11 (uscratch c) (rx c) (tx c)).
Proof.
  intros Hb Hc. unfold configure. out_step p1 Hp1 Hs1.
  destruct (baud_ok p1 i b _ 2 Hb Hp1) as (p2 & -> & Hs2 & Hp2). cbn [mbind res_bind].
  destruct (params_ok p2 i b _ 8 false 0 Hb Hp2) as (p3 & -> & Hs3 & Hp3). cbn [mbind res_bind].
  set (c3 := mk_uart _ _ _ _ _ _ _ _) in Hp3. clear Hc Hp1 Hp2. out_step p4 Hp4 Hs4. clear Hp3. out_step p5 Hp5 Hs5. exists p5. split; [done|]. split.
  - intros j Hj Hne. by rewrite (Hs5 j Hj Hne), (Hs4 j Hj Hne), (Hs3 j Hj Hne), (Hs2 j Hj Hne), (Hs1 j Hj Hne).
  - rewrite Hp5, out_int, out_mcr. unfold c3. rewrite !out_int. done.
Qed.
(** ** What is in a ring *)

(** The bytes a reader at [last] has not taken. *)
Definition ring_unread (b : Cbufm.cbufm) (last : Z) : list Z := CBuf.ring_at 0 (Cbufm.buffer b) last (Z.to_nat (Cbufm.dist b last)).

Lemma zlen_unread b last : Cbufm.wf b -> zlen (ring_unread b last) = Cbufm.dist b last.
Proof. intros (Hs & _). unfold zlen, ring_unread. rewrite CBuf.length_ring_at. pose proof (Z.mod_pos_bound (Cbufm.write_ptr b - last) (Cbufm.size b) ltac:(lia)). unfold Cbufm.dist. lia. Qed.

Lemma dist_advance b last k : Cbufm.wf b -> 0 <= k <= Cbufm.dist b last -> Cbufm.dist b ((last + k) mod Cbufm.size b) = Cbufm.dist b last - k.
Proof.
  intros (Hs & _) Hk. pose proof (Z.mod_pos_bound (Cbufm.write_ptr b - last) (Cbufm.size b) ltac:(lia)). unfold Cbufm.dist in *. rewrite Zminus_mod_idemp_r.
  replace (Cbufm.write_ptr b - (last + k)) with (Cbufm.write_ptr b - last - k) by lia. rewrite <- Zminus_mod_idemp_l. apply Z.mod_small. lia.
Qed.

Lemma unread_write b last x : Cbufm.wf b -> 0 <= last < Cbufm.size b -> zlen (ring_unread b last) + 1 < Cbufm.size b ->
  exists b', Cbufm.cbufm_write 1 b [x] = Ok (b', Cbufm.write_ptr b') /\ Cbufm.wf b' /\ Cbufm.size b' = Cbufm.size b /\ ring_unread b' last = ring_unread b last ++ [x].
Proof.
  intros Hwf Hl Hr. rewrite zlen_unread in Hr by done. destruct (Cbufm.write_ok 1 b [x] Hwf ltac:(done)) as (b' & E & Hwf' & Hs & Hp & Hring). exists b'. split_and!; try done.
  pose proof Hwf as (Hsz & _ & Hw). pose proof (Z.mod_pos_bound (Cbufm.write_ptr b - last) (Cbufm.size b) ltac:(lia)) as Hb.
  assert (Cbufm.dist b' last = Cbufm.dist b last + 1) as Hd.
  { unfold Cbufm.dist in *. rewrite Hp, Hs. change (zlen [x]) with 1. rewrite Zminus_mod_idemp_l. replace (Cbufm.write_ptr b + 1 - last) with (Cbufm.write_ptr b - last + 1) by lia.
    rewrite <- Zplus_mod_idemp_l. apply Z.mod_small. lia. }
  unfold ring_unread. rewrite Hd. unfold Cbufm.dist in *. rewrite Z2Nat.inj_add by lia. apply Hring.
  - rewrite Z2Nat.id by lia. rewrite Zplus_mod_idemp_r. replace (last + (Cbufm.write_ptr b - last)) with (Cbufm.write_ptr b) by lia. by rewrite Z.mod_small.
  - change (zlen [x]) with 1. lia.
Qed.

(** A read from [k] bytes behind the reader: all it wants, or all there is. *)
Lemma unread_read b last k n : Cbufm.wf b -> 0 <= last < Cbufm.size b -> 0 <= k -> 0 <= n -> k + n <= zlen (ring_unread b last) ->
  Cbufm.cbufm_read (Z.to_nat n) b (take (Z.to_nat k) (ring_unread b last)) ((last + k) mod Cbufm.size b) n
  = Ok (Cbufm.Done (take (Z.to_nat (k + n)) (ring_unread b last)) ((last + (k + n)) mod Cbufm.size b)).
Proof.
  intros Hwf Hl Hk Hn Hr. rewrite zlen_unread in Hr by done. pose proof Hwf as (Hsz & Hbl & Hw). pose proof (Z.mod_pos_bound (last + k) (Cbufm.size b) ltac:(lia)).
  pose proof (Z.mod_pos_bound (Cbufm.write_ptr b - last) (Cbufm.size b) ltac:(lia)) as Hb. unfold Cbufm.dist in Hr.
  assert (Cbufm.dist b ((last + k) mod Cbufm.size b) = Cbufm.dist b last - k) as Hd by (apply dist_advance; [done|unfold Cbufm.dist in *; lia]).
  rewrite (Cbufm.read_ok (Z.to_nat n) b _ ((last + k) mod Cbufm.size b) n Hwf ltac:(done)); [|rewrite Hd; unfold Cbufm.dist; lia|lia]. do 2 f_equal.
  - unfold ring_unread, Cbufm.dist. replace (Z.to_nat ((Cbufm.write_ptr b - last) mod Cbufm.size b)) with (Z.to_nat k + (Z.to_nat n + Z.to_nat ((Cbufm.write_ptr b - last) mod Cbufm.size b - k - n)))%nat by lia.
    rewrite !CBuf.ring_at_app. rewrite take_app_length' by (by rewrite CBuf.length_ring_at). replace (Z.to_nat (k + n)) with (Z.to_nat k + Z.to_nat n)%nat by lia.
    rewrite app_assoc, take_app_length' by (rewrite length_app, !CBuf.length_ring_at; lia). f_equal. apply CBuf.ring_at_mod. rewrite Hbl, Z.mod_mod, Z2Nat.id by lia. done.
  - rewrite Zplus_mod_idemp_l. f_equal. lia.
Qed.

(** A read that wants more than there is takes that and waits. *)
Lemma read_short f : forall b out start n, Cbufm.wf b -> 0 <= start < Cbufm.size b -> Cbufm.dist b start < n -> (Z.to_nat n <= f)%nat ->
  Cbufm.cbufm_read f b out start n = Ok (Cbufm.Blocked (out ++ ring_unread b start) (Cbufm.write_ptr b) (n - Cbufm.dist b start)).
Proof.
  induction f as [|f IH]; intros b out start n Hwf Hst Hd Hf; pose proof Hwf as (Hs & Hbl & Hw); pose proof (Z.mod_pos_bound (Cbufm.write_ptr b - start) (Cbufm.size b) ltac:(lia)) as Hm;
    fold (Cbufm.dist b start) in Hm; [lia|].
  cbn [Cbufm.cbufm_read]. destruct (Z.gtb_spec n 0); [|lia]. rewrite Cbufm.mread_possible_eq by (done || lia).
  destruct (decide (Cbufm.dist b start = 0)) as [E0|Hne].
  - rewrite E0, Z.min_r by lia. rewrite Z.min_r by lia. cbn [Z.eqb]. unfold ring_unread. rewrite E0. change (Z.to_nat 0) with 0%nat. cbn [CBuf.ring_at]. rewrite app_nil_r, Z.sub_0_r.
    assert (start = Cbufm.write_ptr b) as -> by (rewrite Cbufm.dist_cases in E0 by done; revert E0; case_cmp; lia). done.
  - set (m := Z.min n _). assert (0 < m <= Cbufm.dist b start /\ m <= Cbufm.size b - start) as [Hm1 Hm2] by lia. clearbody m. destruct (Z.eqb_spec m 0); [lia|].
    rewrite memcpy_ok by (rewrite ?Hbl; unfold zlen; rewrite ?length_replicate; lia). cbn [mbind res_bind]. rewrite Cbufm.step_ptr by lia.
    pose proof (Z.mod_pos_bound (start + m) (Cbufm.size b) ltac:(lia)).
    pose proof (dist_advance b start m Hwf ltac:(lia)) as Hd2.
    rewrite IH by (done || lia). rewrite Hd2. do 2 f_equal; [|lia]. rewrite <- (assoc_L (++)). f_equal. unfold ring_unread. rewrite Hd2.
    replace (Z.to_nat (Cbufm.dist b start)) with (Z.to_nat m + Z.to_nat (Cbufm.dist b start - m))%nat by lia. rewrite CBuf.ring_at_app, Z2Nat.id by lia. f_equal.
    + rewrite CBuf.ring_at_slice, Z2Nat.id by lia. rewrite splice_0, drop_ge, app_nil_r; [done|]. rewrite length_replicate.
      assert (zlen (slice (Cbufm.buffer b) start m) = m) by (apply zlen_slice; lia). unfold zlen in *. lia.
    + apply CBuf.ring_at_mod. rewrite Hbl, Z.mod_mod by lia. done.
Qed.

Lemma unread_short b last k n : Cbufm.wf b -> 0 <= last < Cbufm.size b -> 0 <= k <= zlen (ring_unread b last) -> zlen (ring_unread b last) < k + n ->
  Cbufm.cbufm_read (Z.to_nat n) b (take (Z.to_nat k) (ring_unread b last)) ((last + k) mod Cbufm.size b) n
  = Ok (Cbufm.Blocked (ring_unread b last) ((last + zlen (ring_unread b last)) mod Cbufm.size b) (n - (zlen (ring_unread b last) - k))).
Proof.
  intros Hwf Hl Hk Hn. pose proof (zlen_unread b last Hwf) as Hz. rewrite Hz in *. pose proof Hwf as (Hsz & Hbl & Hw). pose proof (Z.mod_pos_bound (last + k) (Cbufm.size b) ltac:(lia)).
  pose proof (Z.mod_pos_bound (Cbufm.write_ptr b - last) (Cbufm.size b) ltac:(lia)) as Hb. fold (Cbufm.dist b last) in Hb.
  assert (Cbufm.dist b ((last + k) mod Cbufm.size b) = Cbufm.dist b last - k) as Hd by (apply dist_advance; [done|unfold Cbufm.dist in *; lia]).
  rewrite read_short by (done || lia). rewrite Hd. do 2 f_equal.
  - unfold ring_unread. rewrite Hd. replace (Z.to_nat (Cbufm.dist b last)) with (Z.to_nat k + Z.to_nat (Cbufm.dist b last - k))%nat by lia.
    rewrite !CBuf.ring_at_app. rewrite take_app_length' by (by rewrite CBuf.length_ring_at). f_equal. apply CBuf.ring_at_mod. rewrite Hbl, Z.mod_mod, Z2Nat.id by lia. done.
  - unfold Cbufm.dist. rewrite Zplus_mod_idemp_r. replace (last + (Cbufm.write_ptr b - last)) with (Cbufm.write_ptr b) by lia. by rewrite Z.mod_small.
Qed.

(** ** A port that is in use *)

(** What the driver makes of a byte. *)
Definition uart_char (x : Z) : Z := if x =? 127 then 8 else x.

(** Port [i] with the bytes [q] in its ring that nobody has read, and the device behind it. *)
Record port_ok (u : pcuart P) (i : Z) (c : uart) (q : list Z) : Prop := {
  po_index : exists b, get pcuart_ioports i = Some b;
  po_present : get (pcuart_present u) i = Some true;
  po_device : fitted (ports u) i = Some c;
  po_dlab : dlab c = false;
  po_ring : exists b last, get (pcuart_buffers u) i = Some b /\ get (pcuart_last u) i = Some last /\ Cbufm.wf b /\ Cbufm.size b = 256 /\ 0 <= last < 256 /\ ring_unread b last = q;
  po_lock : exists held, get (read_spinlockes u) i = Some held }.

(** What the interrupt handlers of other ports leave alone. *)
Record but_for (i : Z) (u u' : pcuart P) : Prop := {
  bf_present : pcuart_present u' = pcuart_present u;
  bf_last : pcuart_last u' = pcuart_last u;
  bf_locks : read_spinlockes u' = read_spinlockes u;
  bf_ports : others_same (ports u) (ports u') i;
  bf_buffers : forall j, j <> i -> get (pcuart_buffers u') j = get (pcuart_buffers u) j }.

Lemma get_insert_eq {A} (l : list A) i x y : get l i = Some x -> get (<[Z.to_nat i := y]> l) i = Some y.
Proof. intros [Hi Hx]%get_Some. apply get_Some. split; [done|]. apply list_lookup_insert_eq. by apply lookup_lt_Some in Hx. Qed.
Lemma get_insert_ne {A} (l : list A) i j y : 0 <= i -> j <> i -> get (<[Z.to_nat i := y]> l) j = get l j.
Proof. intros Hi Hne. unfold get. destruct (Z.leb_spec 0 j); [|done]. apply list_lookup_insert_ne. lia. Qed.
Lemma store_get {A} (l : list A) i x y : get l i = Some x -> store l i y = Ok (<[Z.to_nat i := y]> l).
Proof. intros H. apply store_in_range, get_is_Some. by rewrite H. Qed.

(** A port keeps its state when only other ports change. *)
Lemma port_ok_frame u u' i j c q : port_ok u i c q -> but_for j u u' -> i <> j -> port_ok u' i c q.
Proof.
  intros [(b & Hb) Hpr Hc Hd Hr Hl] [E1 E2 E3 Hp Hbs] Hne. split; try (rewrite ?E1, ?E2, ?E3; done).
  - by exists b.
  - by rewrite (Hp i (port_index i b Hb) Hne).
  - rewrite E2, Hbs by done. exact Hr.
Qed.

(** The loop of a handler moves what has come in from the device to the ring. *)
Lemma drain_ok i b fuel : get pcuart_ioports i = Some b -> forall u c q, port_ok u i c q -> zlen q + zlen (rx c) < 256 ->
  irq_drain fuel u i b = OutOfFuel /\ (fuel < length (rx c))%nat \/
  exists u', irq_drain fuel u i b = Ok u' /\ but_for i u u' /\
    port_ok u' i (mk_uart (divisor_lo c) (divisor_hi c) (ier c) (lcr c) (mcr c) (uscratch c) [] (tx c)) (q ++ (uart_char <$> rx c)).
Proof.
  intros Hb. pose proof (port_index i b Hb) as Hi. induction fuel as [|fuel IH]; intros u c q Hok Hr; pose proof Hok as [_ Hpr Hc Hd (rb & last & Hrb & Hla & Hwf & Hsz & Hlr & Hq) Hl];
    destruct (in_same (ports u) i b REG_LSTATUS c Hb ltac:(unfold REG_LSTATUS; lia) Hc) as (v & p0 & Ev & E & Hs0); pose proof (in_lstatus (ports u) i b c Hb Hc) as Hst; rewrite Ev in Hst;
    assert (but_for i u (set_ports u p0)) as Hbf0 by (split; try done; intros j Hj _; apply Hs0; done);
    assert (port_ok (set_ports u p0) i c q) as Hok0 by (destruct Hok; split; try done; cbn [ports set_ports]; by rewrite (Hs0 i Hi));
    cbn [irq_drain]; rewrite E, Hst; destruct (rx c) as [|x r] eqn:Erx; cbn [Z.eqb].
  1,3: right; exists (set_ports u p0); split; [done|]; split; [done|]; cbn [fmap list_fmap]; rewrite app_nil_r; by destruct c; simpl in *; subst.
  - left. split; [done|simpl; lia].
  - clear E Hst Ev v. cbn [ports set_ports]. rewrite <- (Hs0 i Hi) in Hc. destruct (in_split p0 i b REG_DATA Hb ltac:(unfold REG_DATA; lia)) as (v & p1 & Ev & E & Hs1).
    rewrite (in_data p0 i b c x r Hb Hc Hd Erx) in Ev. subst v. rewrite E. fold (uart_char x). cbn [pcuart_buffers set_ports]. unfold load. rewrite Hrb. cbn [res_of_option mbind res_bind].
    rewrite zlen_cons in Hr. pose proof (zlen_nonneg r). destruct (unread_write rb last (uart_char x) Hwf ltac:(lia) ltac:(rewrite Hq; lia)) as (rb' & -> & Hwf' & Hsz' & Hq').
    cbn [mbind res_bind]. rewrite (store_get _ _ _ _ Hrb). cbn [mbind res_bind].
    set (c1 := mk_uart (divisor_lo c) (divisor_hi c) (ier c) (lcr c) (mcr c) (uscratch c) r (tx c)).
    set (u1 := set_buffers _ _). assert (port_ok u1 i c1 (q ++ [uart_char x])) as Hok1.
    { destruct Hok as [Hx _ _ _ _ _]. split; try done.
      - cbn [ports u1 set_buffers set_ports]. rewrite (Hs1 i Hi), decide_True, Hc by done. cbn [fmap option_fmap option_map]. unfold uart_in, REG_DATA. rewrite Hd, Erx. done.
      - exists rb', last. cbn [pcuart_buffers u1 set_buffers set_ports pcuart_last]. split_and!; try done; [by apply (get_insert_eq _ _ rb)|lia|lia|lia|by rewrite Hq', Hq]. }
    destruct (IH u1 c1 _ Hok1) as [[-> Hlt]|(u' & -> & Hbf & Hok')]; [rewrite zlen_app; change (zlen [uart_char x]) with 1; cbn [rx c1]; lia|left; split; [done|cbn [rx c1 length] in *; lia]|].
    right. exists u'. split; [done|]. split.
    + destruct Hbf as [E1 E2 E3 Hp Hbs]. split; try done.
      * intros j Hj Hne. rewrite (Hp j Hj Hne). cbn [ports u1 set_buffers set_ports]. by rewrite (Hs1 j Hj), decide_False, (Hs0 j Hj).
      * intros j Hne. rewrite (Hbs j Hne). cbn [pcuart_buffers u1 set_buffers set_ports]. apply get_insert_ne; lia.
    + cbn [fmap list_fmap]. rewrite <- app_assoc in Hok'. exact Hok'.
Qed.

Lemma drain_frame i b fuel : get pcuart_ioports i = Some b -> forall u u', irq_drain fuel u i b = Ok u' -> but_for i u u'.
Proof.
  intros Hb. induction fuel as [|fuel IH]; intros u u' E; cbn [irq_drain] in E;
    destruct (in_split (ports u) i b REG_LSTATUS Hb ltac:(unfold REG_LSTATUS; lia)) as (v & p0 & _ & E0 & Hs0); rewrite E0 in E; destruct (Z.land v 1 =? 0);
    try done; try (injection E as <-; split; try done; intros j Hj Hne; cbn [ports set_ports]; by rewrite (Hs0 j Hj), decide_False).
  cbn [ports set_ports] in E. destruct (in_split p0 i b REG_DATA Hb ltac:(unfold REG_DATA; lia)) as (x & p1 & _ & E1 & Hs1). rewrite E1 in E.
  apply bind_Ok in E as (rb & Hrb & E). apply bind_Ok in E as ([rb' n] & _ & E). apply bind_Ok in E as (bs & Hbs & E). apply IH in E as [E2 E3 E4 Hp Hbu].
  unfold load in Hrb. apply res_of_option_Ok in Hrb. rewrite (store_get _ _ _ _ Hrb) in Hbs. injection Hbs as <-. split; try done.
  - intros j Hj Hne. rewrite (Hp j Hj Hne). cbn [ports set_buffers set_ports]. by rewrite (Hs1 j Hj), decide_False, (Hs0 j Hj), decide_False.
  - intros j Hne. rewrite (Hbu j Hne). cbn [pcuart_buffers set_buffers set_ports]. apply get_insert_ne; [|done]. apply get_Some in Hrb. lia.
Qed.

Definition uart_drained (c : uart) : uart := mk_uart (divisor_lo c) (divisor_hi c) (ier c) (lcr c) (mcr c) (uscratch c) [] (tx c).

(** Either handler, seen from a port that is in use: its bytes are moved, or it is not the
    handler's. *)
Lemma irq_port_ok i fuel u c q u' : port_ok u i c q -> zlen q + zlen (rx c) < 256 -> irq_port fuel u i = Ok u' ->
  port_ok u' i (uart_drained c) (q ++ (uart_char <$> rx c)) /\ but_for i u u'.
Proof.
  intros Hok Hr. pose proof Hok as [(b & Hb) Hpr _ _ _ _]. unfold irq_port, load. rewrite Hpr. cbn [res_of_option mbind res_bind]. rewrite Hb. cbn [res_of_option mbind res_bind].
  destruct (drain_ok i b fuel Hb u c q Hok Hr) as [[-> _]|(u1 & -> & Hbf & Hok')]; [done|]. by intros [= <-].
Qed.

Lemma irq_port_frame j fuel u u' : irq_port fuel u j = Ok u' -> but_for j u u'.
Proof.
  unfold irq_port. intros E. apply bind_Ok in E as (here & _ & E). destruct here; [|by injection E as <-]. apply bind_Ok in E as (b & Hb & E).
  apply res_of_option_Ok in Hb. by apply (drain_frame j b fuel Hb).
Qed.

Lemma ring_advance b last n : Cbufm.wf b -> 0 <= last < Cbufm.size b -> 0 <= n <= zlen (ring_unread b last) ->
  ring_unread b ((last + n) mod Cbufm.size b) = drop (Z.to_nat n) (ring_unread b last).
Proof.
  intros Hwf Hl Hn. pose proof (zlen_unread b last Hwf) as Hz. pose proof Hwf as (Hs & Hbl & _). unfold ring_unread. rewrite dist_advance by (done || lia).
  replace (Z.to_nat (Cbufm.dist b last)) with (Z.to_nat n + Z.to_nat (Cbufm.dist b last - n))%nat by lia. rewrite CBuf.ring_at_app, drop_app_length' by (by rewrite CBuf.length_ring_at).
  apply CBuf.ring_at_mod. rewrite Hbl, Z.mod_mod, Z2Nat.id by lia. done.
Qed.

(** ** Nothing is lost and nothing comes twice *)

(** Where a reader of port [i] may be, the ring being [q] from [last] on. *)
Definition reader_fine (i last : Z) (held : bool) (q : list Z) (r : reader) : Prop :=
  r_fd r = i ->
  match r_at r with
  | Testing => - 2 ^ 31 <= r_len r <= 64
  | Passed => 0 <= r_len r <= 64
  | Holding out start want => held = true /\ 0 <= r_len r <= 64 /\ exists k, 0 <= k <= zlen q /\ k <= r_len r /\ out = take (Z.to_nat k) q /\ start = (last + k) mod 256 /\ want = r_len r - k
  | Returned out => zlen out = r_len r
  end.

Definition holds_lock (i : Z) (r : reader) : bool := (r_fd r =? i) && match r_at r with Holding _ _ _ => true | _ => false end.

Record serial_inv (i : Z) (s : serial P) : Prop := mk_serial_inv {
  si_port : exists c q, port_ok (drv s) i c q /\ delivered s ++ q ++ (uart_char <$> rx c) = uart_char <$> arrived s /\
    exists last held, get (pcuart_last (drv s)) i = Some last /\ get (read_spinlockes (drv s)) i = Some held /\ Forall (reader_fine i last held q) (readers s);
  si_one : forall k k' r r', readers s !! k = Some r -> readers s !! k' = Some r' -> holds_lock i r = true -> holds_lock i r' = true -> k = k' }.

(** More bytes in the ring do not disturb a reader. *)
Lemma reader_fine_more i last held q q' r : reader_fine i last held q r -> reader_fine i last held (q ++ q') r.
Proof.
  intros Hr Hi. specialize (Hr Hi). destruct (r_at r) as [| |out start want|]; try done. destruct Hr as (Hh & Hl & k & Hk & Hkl & -> & Hs & Hw). split; [done|]. split; [done|]. exists k.
  rewrite zlen_app. pose proof (zlen_nonneg q'). split_and!; try done; try lia. rewrite take_app_le; [done|]. unfold zlen in *. lia.
Qed.

Lemma room (s : serial P) c q : zlen (arrived s) - zlen (delivered s) < 256 -> delivered s ++ q ++ (uart_char <$> rx c) = uart_char <$> arrived s -> zlen q + zlen (rx c) < 256.
Proof. intros Hr E. apply (f_equal zlen) in E. rewrite !zlen_app in E. unfold zlen in *. rewrite !length_fmap in E. lia. Qed.

(** Steps that leave the readers and the port alone, but for what the device has received and
    the ring got of it. *)
Lemma serial_moved_inv i s u' : serial_inv i s -> (forall c q, port_ok (drv s) i c q -> delivered s ++ q ++ (uart_char <$> rx c) = uart_char <$> arrived s ->
    exists c' new, port_ok u' i c' (q ++ new) /\ new ++ (uart_char <$> rx c') = uart_char <$> rx c) ->
  pcuart_last u' = pcuart_last (drv s) -> read_spinlockes u' = read_spinlockes (drv s) ->
  serial_inv i (mk_serial u' (readers s) (arrived s) (delivered s)).
Proof.
  intros [(c & q & Hp & Hd & last & held & Hl & Hh & Hf) H1] Hm El Eh. split; [|done]. destruct (Hm c q Hp Hd) as (c' & new & Hp' & En). exists c', (q ++ new). cbn [drv delivered arrived readers].
  split; [done|]. split; [by rewrite <- app_assoc, En|]. exists last, held. rewrite El, Eh. split_and!; try done. eapply Forall_impl; [exact Hf|]. intros r. apply reader_fine_more.
Qed.

(** Both handlers run the loops of two ports. *)
Lemma serial_irq_inv i s fuel u' j j' : serial_inv i s -> zlen (arrived s) - zlen (delivered s) < 256 -> j <> j' ->
  (u ← irq_port fuel (drv s) j; irq_port fuel u j') = Ok u' -> serial_inv i (mk_serial u' (readers s) (arrived s) (delivered s)).
Proof.
  intros Hinv Hr Hne E. apply bind_Ok in E as (u1 & E1 & E2). pose proof (irq_port_frame _ _ _ _ E1) as F1. pose proof (irq_port_frame _ _ _ _ E2) as F2.
  apply serial_moved_inv; [done|intros c q Hp Hd; pose proof (room s c q Hr Hd) as Hroom; pose proof (po_device _ _ _ _ Hp)|by rewrite (bf_last _ _ _ F2), (bf_last _ _ _ F1)|by rewrite (bf_locks _ _ _ F2), (bf_locks _ _ _ F1)].
  destruct (decide (i = j)) as [<-|Hj]; [|destruct (decide (i = j')) as [<-|Hj']].
  - destruct (irq_port_ok _ _ _ _ _ _ Hp Hroom E1) as [Hp1 _]. exists (uart_drained c), (uart_char <$> rx c). split; [by apply (port_ok_frame u1 u' i j')|by rewrite app_nil_r].
  - apply (port_ok_frame _ u1 i j) in Hp; [|done|done]. destruct (irq_port_ok _ _ _ _ _ _ Hp Hroom E2) as [Hp1 _]. exists (uart_drained c), (uart_char <$> rx c). split; [done|by rewrite app_nil_r].
  - exists c, []. split; [|done]. rewrite app_nil_r. apply (port_ok_frame u1 u' i j'); [|done|done]. by apply (port_ok_frame (drv s) u1 i j).
Qed.

(** ** What is written *)

Definition crlf (text : list Z) : list Z := text ≫= fun b => if b =? 10 then [13; 10] else [u8 b].
Definition uart_sent (c : uart) (x : list Z) : uart := mk_uart (divisor_lo c) (divisor_hi c) (ier c) (lcr c) (mcr c) (uscratch c) (rx c) (transmit (tx c) x).

Lemma sent_none c : uart_sent c [] = c.
Proof. by destruct c. Qed.

Lemma sent_sent c x y : uart_sent (uart_sent c x) y = uart_sent c (x ++ y).
Proof. unfold uart_sent. cbn [tx divisor_lo divisor_hi ier lcr mcr uscratch rx]. unfold transmit. by rewrite foldl_app. Qed.

(** Every byte is handed to the register, in order. *)
Lemma taken_transmit vs : forall t, taken (transmit t vs) = taken t ++ vs /\ emptied (transmit t vs) = emptied t.
Proof.
  induction vs as [|v vs IH]; intros t; [by rewrite app_nil_r|]. destruct (IH (transmit_byte t v)) as [E1 E2].
  cbn [transmit foldl]. unfold transmit in E1, E2. rewrite E1, E2. cbn [transmit_byte taken emptied]. by rewrite <- app_assoc.
Qed.

(** All of them get on the line when the register is empty for each. *)
Lemma line_transmit vs : forall t, (forall n, (length (taken t) <= n < length (taken t) + length vs)%nat -> emptied t n = true) ->
  line (transmit t vs) = line t ++ vs.
Proof.
  induction vs as [|v vs IH]; intros t Ht; [by rewrite app_nil_r|]. cbn [length] in Ht. change (transmit t (v :: vs)) with (transmit (transmit_byte t v) vs).
  rewrite IH; cbn [transmit_byte line taken emptied]; [rewrite (Ht (length (taken t))) by lia; by rewrite <- app_assoc|].
  intros n Hn. rewrite length_app in Hn. cbn [length] in Hn. apply Ht. lia.
Qed.

(** Only the last one does when it stays full. *)
Lemma line_transmit_last vs v : forall t, (forall n, (length (taken t) <= n < length (taken t) + S (length vs))%nat -> emptied t n = false) ->
  line (transmit t (vs ++ [v])) = List.removelast (line t) ++ [v].
Proof.
  induction vs as [|w vs IH]; intros t Ht; cbn [app length] in *.
  - change (transmit t [v]) with (transmit_byte t v). cbn [transmit_byte line]. by rewrite Ht by lia.
  - change (transmit t (w :: vs ++ [v])) with (transmit (transmit_byte t w) (vs ++ [v])). rewrite IH; cbn [transmit_byte line taken emptied].
    + by rewrite Ht, List.removelast_last by lia.
    + intros n Hn. rewrite length_app in Hn. cbn [length] in Hn. apply Ht. lia.
Qed.

Lemma data_out_ok p i b v c : get pcuart_ioports i = Some b -> fitted p i = Some c -> dlab c = false ->
  fitted (outportb p (b + REG_DATA) v) i = Some (uart_sent c [u8 v]) /\ others_same p (outportb p (b + REG_DATA) v) i.
Proof. intros Hb Hc Hd. destruct (out_fitted p i b REG_DATA v c Hb ltac:(unfold REG_DATA; lia) Hc) as [H1 H2]. split; [|done]. by rewrite H1, out_data. Qed.

Lemma send_chars_ok i b buffer : get pcuart_ioports i = Some b -> forall n k p c, fitted p i = Some c -> dlab c = false -> 0 <= k -> k + Z.of_nat n <= zlen buffer ->
  exists p', send_chars n k p (b + REG_DATA) buffer = Ok p' /\ others_same p p' i /\ fitted p' i = Some (uart_sent c (crlf (slice buffer k (Z.of_nat n)))).
Proof.
  intros Hb. induction n as [|n IH]; intros k p c Hc Hd Hk Hn; cbn [send_chars].
  - exists p. split; [done|]. split; [done|]. by rewrite slice_0, sent_none.
  - destruct (get_in_range buffer k ltac:(lia)) as [x Ex]. unfold load. rewrite Ex. cbn [res_of_option mbind res_bind].
    assert (slice buffer k (Z.of_nat (S n)) = x :: slice buffer (k + 1) (Z.of_nat n)) as ->.
    { apply slice_cons; [done|]. by apply get_Some in Ex as [_ Ex]. }
    assert (exists p1, (if x =? 10 then outportb (outportb p (b + REG_DATA) 13) (b + REG_DATA) 10 else outportb p (b + REG_DATA) x) = p1 /\ others_same p p1 i /\
      fitted p1 i = Some (uart_sent c (if x =? 10 then [13; 10] else [u8 x]))) as (p1 & -> & Hs1 & Hc1).
    { eexists. split; [done|]. destruct (x =? 10); [|destruct (data_out_ok p i b x c Hb Hc Hd); done].
      destruct (data_out_ok p i b 13 c Hb Hc Hd) as [H1 H2]. destruct (data_out_ok _ i b 10 _ Hb H1 Hd) as [H3 H4]. split; [by eapply same_trans|]. by rewrite H3, sent_sent. }
    destruct (IH (k + 1) p1 _ Hc1 Hd ltac:(lia) ltac:(lia)) as (p' & E & Hs & Hc'). exists p'. split; [done|]. split; [by eapply same_trans|]. by rewrite Hc', sent_sent.
Qed.

(** Whatever is written to whatever port: no device but sends more. *)
Lemma data_out_moves i j b v p c : get pcuart_ioports j = Some b -> 0 <= i < 4 -> fitted p i = Some c -> dlab c = false ->
  exists x, fitted (outportb p (b + REG_DATA) v) i = Some (uart_sent c x).
Proof.
  intros Hb Hi Hc Hd. rewrite (out_device p j b REG_DATA v i Hb ltac:(unfold REG_DATA; lia) Hi). destruct (decide (i = j)) as [->|].
  - rewrite Hc. cbn [fmap option_fmap option_map]. rewrite out_data by done. by exists [u8 v].
  - exists []. by rewrite Hc, sent_none.
Qed.

Lemma send_chars_moves i j b buffer : get pcuart_ioports j = Some b -> 0 <= i < 4 -> forall n k p p' c, send_chars n k p (b + REG_DATA) buffer = Ok p' -> fitted p i = Some c -> dlab c = false ->
  exists x, fitted p' i = Some (uart_sent c x).
Proof.
  intros Hb Hi. induction n as [|n IH]; intros k p p' c E Hc Hd; cbn [send_chars] in E.
  - injection E as <-. exists []. by rewrite sent_none.
  - apply bind_Ok in E as (x & _ & E). assert (exists y, fitted (if x =? 10 then outportb (outportb p (b + REG_DATA) 13) (b + REG_DATA) 10 else outportb p (b + REG_DATA) x) i = Some (uart_sent c y)) as (y & Hy).
    { destruct (x =? 10); [|by apply (data_out_moves i j)]. destruct (data_out_moves i j b 13 p c Hb Hi Hc Hd) as (y & Hy).
      destruct (data_out_moves i j b 10 _ _ Hb Hi Hy Hd) as (z & Hz). exists (y ++ z). by rewrite Hz, sent_sent. }
    destruct (IH _ _ _ _ E Hy Hd) as (z & Hz). exists (y ++ z). by rewrite Hz, sent_sent.
Qed.

Lemma serial_write_inv i s fd file buffer len u' n : serial_inv i s -> pcuart_write (drv s) fd file buffer len = Ok (u', n) -> serial_inv i (mk_serial u' (readers s) (arrived s) (delivered s)).
Proof.
  intros Hinv E. unfold pcuart_write in E. apply bind_Ok in E as (b & Hb & E). apply res_of_option_Ok in Hb. apply bind_Ok in E as (p & E & [= <- <-]).
  apply serial_moved_inv; [done| |done|done]. intros c q Hp Hd. destruct Hp as [(bi & Hbi) Hpr Hc Hdl Hr Hl].
  destruct (send_chars_moves i fd b buffer Hb (port_index i bi Hbi) _ _ _ _ _ E Hc Hdl) as (x & Hx). exists (uart_sent c x), []. split; [|done]. rewrite app_nil_r. split; try done. by exists bi.
Qed.

Lemma serial_receive_inv i s j x p' : serial_inv i s -> (forall c, fitted (ports (drv s)) j = Some c -> rx c = []) -> (forall k, 0 <= k < 4 -> fitted p' k = if decide (k = j) then uart_receive x <$> fitted (ports (drv s)) k else fitted (ports (drv s)) k) ->
  serial_inv i (mk_serial (set_ports (drv s) p') (readers s) (if decide (j = i) then arrived s ++ [x] else arrived s) (delivered s)).
Proof.
  intros [(c & q & [(b & Hb) Hpr Hc Hdl Hr Hl] & Hd & Hrest) H1] Hrx Hp. split; [|done]. specialize (Hp i (port_index i b Hb)). cbn [drv delivered arrived readers pcuart_last read_spinlockes set_ports].
  destruct (decide (i = j)) as [<-|Hne].
  - rewrite (Hrx c Hc), app_nil_r in Hd. exists (uart_receive x c), q. split_and!; [|cbn [uart_receive rx]; rewrite decide_True, fmap_app by done; by rewrite <- Hd, <- app_assoc|done].
    split; try done; [by exists b|]. cbn [ports set_ports]. by rewrite Hp, Hc.
  - exists c, q. rewrite decide_False by done. split_and!; try done. split; try done; [by exists b|]. cbn [ports set_ports]. by rewrite Hp.
Qed.

Lemma serial_call_inv i s fd len : serial_inv i s -> - 2 ^ 31 <= len < 2 ^ 31 -> serial_inv i (mk_serial (drv s) (readers s ++ [start_read fd len]) (arrived s) (delivered s)).
Proof.
  intros [(c & q & Hp & Hd & last & held & Hl & Hh & Hf) H1] Hlen. split.
  - exists c, q. split; [done|]. split; [done|]. exists last, held. split_and!; try done. apply Forall_app. split; [done|]. apply Forall_singleton. intros _. cbn [r_at r_len start_read].
    destruct (Z.gtb_spec len 64); lia.
  - cbn [readers]. assert (forall k r, (readers s ++ [start_read fd len]) !! k = Some r -> holds_lock i r = true -> readers s !! k = Some r) as Hk.
    { intros k r [Hk|[_ Hk]]%lookup_app_Some Hr; [done|]. apply list_lookup_singleton_Some in Hk as [_ <-]. unfold holds_lock in Hr. cbn in Hr. by rewrite andb_false_r in Hr. }
    intros k k' r r' E E' Hr Hr'. eapply H1; eauto.
Qed.

(** What a step of a reader does not touch. *)
Record step_frame (r : reader) (u u' : pcuart P) : Prop := {
  sf_ports : ports u' = ports u;
  sf_present : pcuart_present u' = pcuart_present u;
  sf_buffers : pcuart_buffers u' = pcuart_buffers u;
  sf_last : forall j, j <> r_fd r -> get (pcuart_last u') j = get (pcuart_last u) j;
  sf_locks : forall j, j <> r_fd r -> get (read_spinlockes u') j = get (read_spinlockes u) j }.

Lemma reader_step_frame u r u' r' : reader_step u r = Ok (u', r') -> step_frame r u u' /\ r_fd r' = r_fd r /\ r_len r' = r_len r.
Proof.
  unfold reader_step. intros E. apply bind_Ok in E as (b & Hb & E). apply bind_Ok in E as (last & _ & E). apply res_of_option_Ok in Hb. assert (0 <= r_fd r) as Hr by (apply get_Some in Hb; lia).
  assert (forall A (l l' : list A) x, store l (r_fd r) x = Ok l' -> forall j, j <> r_fd r -> get l' j = get l j) as Hst.
  { intros A l l' x El j Hj. unfold store, upd in El. destruct (_ && _) in El; [|done]. injection El as <-. by apply get_insert_ne. }
  destruct (r_at r) as [| |out start want|out].
  - injection E as <- <-. case_match; by repeat split.
  - apply bind_Ok in E as (held & _ & E). destruct held; [by injection E as <- <-|]. apply bind_Ok in E as (l & El & E). injection E as <- <-. split; [|done]. split; try done. eauto.
  - apply bind_Ok in E as (o & _ & E). destruct o as [out' start'|out' start' want']; [|by injection E as <- <-]. apply bind_Ok in E as (ls & Els & E). apply bind_Ok in E as (l & El & E).
    injection E as <- <-. split; [|done]. split; try done; eauto.
  - by injection E as <- <-.
Qed.

(** Replacing a reader of another port, or one that gains no lock. *)
Lemma holds_replaced i (s : serial P) k r r' : readers s !! k = Some r -> (holds_lock i r' = true -> holds_lock i r = true \/ forall k2 r2, readers s !! k2 = Some r2 -> holds_lock i r2 = false) ->
  (forall k k' r r', readers s !! k = Some r -> readers s !! k' = Some r' -> holds_lock i r = true -> holds_lock i r' = true -> k = k') ->
  forall k1 k2 r1 r2, (<[k := r']> (readers s)) !! k1 = Some r1 -> (<[k := r']> (readers s)) !! k2 = Some r2 -> holds_lock i r1 = true -> holds_lock i r2 = true -> k1 = k2.
Proof.
  intros Hk Hr' H1 k1 k2 r1 r2 E1 E2 T1 T2. apply list_lookup_insert_Some in E1 as [(-> & <- & _)|[Hn1 E1]]; apply list_lookup_insert_Some in E2 as [(-> & <- & _)|[Hn2 E2]]; [done| | |by eapply H1].
  - destruct (Hr' T1) as [T|Hall]; [by eapply H1|]. by rewrite (Hall _ _ E2) in T2.
  - destruct (Hr' T2) as [T|Hall]; [by eapply H1|]. by rewrite (Hall _ _ E1) in T1.
Qed.

Lemma serial_read_other i s k r u' r' : serial_inv i s -> readers s !! k = Some r -> reader_step (drv s) r = Ok (u', r') -> r_fd r <> i ->
  serial_inv i (mk_serial u' (<[k := r']> (readers s)) (arrived s) (delivered s ++ handed i r r')).
Proof.
  intros [(c & q & [Hb Hpr Hc Hdl Hr Hl] & Hd & last & held & Hla & Hh & Hf) H1] Hk E Hne. destruct (reader_step_frame _ _ _ _ E) as ([E1 E2 E3 E4 E5] & Efd & _).
  assert (handed i r r' = []) as -> by (unfold handed; destruct (Z.eqb_spec (r_fd r) i); [done|]; by destruct (r_at r), (r_at r')). rewrite app_nil_r. split; cbn [readers].
  - exists c, q. split; [|split; [done|]].
    + cbn [drv]. split; try done; rewrite ?E1, ?E2, ?E3, ?E4, ?E5 by done; done.
    + exists last, held. cbn [drv readers]. rewrite E4, E5 by done. split_and!; try done. apply Forall_insert; [done|]. intros Hi. by rewrite Efd in Hi.
  - apply (holds_replaced i s k r r' Hk); [|done]. intros Hi. unfold holds_lock in Hi. rewrite Efd in Hi. by destruct (Z.eqb_spec (r_fd r) i).
Qed.

(** The steps of a reader on a port, from the bytes in its ring. *)
Lemma testing_step u i c q len : port_ok u i c q -> - 2 ^ 31 <= len <= 64 ->
  exists last, get (pcuart_last u) i = Some last /\
  reader_step u (mk_reader i len Testing) = Ok (u, mk_reader i len (if (0 <=? len) && (len <=? zlen q) then Passed else Testing)).
Proof.
  intros [_ _ _ _ (b & last & Hb & Hla & Hwf & Hs & Hl & Hq) _] Hlen. exists last. split; [done|]. unfold reader_step, load. cbn [r_fd r_at r_len]. rewrite Hb, Hla. cbn [res_of_option mbind res_bind].
  rewrite u64_small, Cbufm.available_dist, <- zlen_unread, Hq by (done || lia). pose proof (zlen_nonneg q).
  assert (zlen q < 256) by (rewrite <- Hq, zlen_unread by done; unfold Cbufm.dist; pose proof (Z.mod_pos_bound (Cbufm.write_ptr b - last) (Cbufm.size b) ltac:(lia)); lia).
  destruct (Z.leb_spec 0 len); cbn [andb].
  - rewrite u32_small by lia. destruct (Z.ltb_spec (zlen q) len), (Z.leb_spec len (zlen q)); done || lia.
  - assert (u32 len = len + 2 ^ 32) as -> by (unfold u32; symmetry; apply (Z.mod_unique _ _ (-1)); lia). destruct (Z.ltb_spec (zlen q) (len + 2 ^ 32)); [done|lia].
Qed.

Lemma passed_step u i c q len : port_ok u i c q -> 0 <= len <= 64 -> exists last held, get (pcuart_last u) i = Some last /\ 0 <= last < 256 /\ get (read_spinlockes u) i = Some held /\
  reader_step u (mk_reader i len Passed)
  = Ok (if held then (u, mk_reader i len Passed) else (set_locks u (<[Z.to_nat i := true]> (read_spinlockes u)), mk_reader i len (Holding [] last len))).
Proof.
  intros [_ _ _ _ (b & last & Hb & Hla & Hwf & Hs & Hl & Hq) (held & Hh)] Hlen. exists last, held. split_and!; try done; try lia. unfold reader_step, load. cbn [r_fd r_at r_len]. rewrite Hb, Hla. cbn [res_of_option mbind res_bind].
  rewrite Hh. cbn [res_of_option mbind res_bind]. destruct held; [done|]. rewrite (store_get _ _ _ _ Hh). cbn [mbind res_bind]. by rewrite !u64_small by lia.
Qed.

Lemma holding_step u i c q len last k : port_ok u i c q -> 0 <= len <= 64 -> get (pcuart_last u) i = Some last -> 0 <= k <= zlen q -> k <= len ->
  reader_step u (mk_reader i len (Holding (take (Z.to_nat k) q) ((last + k) mod 256) (len - k)))
  = Ok (if len <=? zlen q
        then (set_locks (set_uart_last u (<[Z.to_nat i := (last + len) mod 256]> (pcuart_last u))) (<[Z.to_nat i := false]> (read_spinlockes u)), mk_reader i len (Returned (take (Z.to_nat len) q)))
        else (u, mk_reader i len (Holding q ((last + zlen q) mod 256) (len - zlen q)))).
Proof.
  intros [_ _ _ _ (b & last' & Hb & Hla & Hwf & Hs & Hl & Hq) (held & Hh)] Hlen Hla' Hk Hkl. rewrite Hla in Hla'. injection Hla' as ->. unfold reader_step, load. cbn [r_fd r_at r_len]. rewrite Hb, Hla. cbn [res_of_option mbind res_bind].
  rewrite <- Hs, <- Hq in *. destruct (Z.leb_spec len (zlen (ring_unread b last))).
  - rewrite (unread_read b last k (len - k)) by (done || lia). cbn [mbind res_bind]. rewrite (store_get _ _ _ _ Hla). cbn [mbind res_bind]. rewrite (store_get _ _ _ _ Hh). cbn [mbind res_bind].
    replace (k + (len - k)) with len by lia. pose proof (Z.mod_pos_bound (last + len) (Cbufm.size b) ltac:(lia)). by rewrite s32_small by lia.
  - rewrite (unread_short b last k (len - k)) by (done || lia). cbn [mbind res_bind]. by replace (len - k - (zlen (ring_unread b last) - k)) with (len - zlen (ring_unread b last)) by lia.
Qed.

(** After a read the ring begins behind it. *)
Lemma returned_ok u i c q len last : port_ok u i c q -> 0 <= len <= zlen q -> get (pcuart_last u) i = Some last ->
  port_ok (set_locks (set_uart_last u (<[Z.to_nat i := (last + len) mod 256]> (pcuart_last u))) (<[Z.to_nat i := false]> (read_spinlockes u))) i c (drop (Z.to_nat len) q).
Proof.
  intros [Hb Hpr Hc Hdl (b & last' & Hbb & Hla & Hwf & Hs & Hl & Hq) (held & Hh)] Hlen Hla'. rewrite Hla in Hla'. injection Hla' as ->. split; try done.
  - exists b, ((last + len) mod 256). cbn [pcuart_buffers pcuart_last set_locks set_uart_last]. pose proof (Z.mod_pos_bound (last + len) 256 ltac:(lia)). split_and!; try done; try lia.
    + by apply (get_insert_eq _ _ last).
    + rewrite <- Hs, ring_advance, Hq by (rewrite ?Hq; done || lia). done.
  - exists false. by apply (get_insert_eq _ _ held).
Qed.

Lemma serial_read_own i s k r u' r' : serial_inv i s -> readers s !! k = Some r -> reader_step (drv s) r = Ok (u', r') -> r_fd r = i ->
  serial_inv i (mk_serial u' (<[k := r']> (readers s)) (arrived s) (delivered s ++ handed i r r')).
Proof.
  intros [(c & q & Hp & Hd & last & held & Hla & Hh & Hf) H1] Hk E Hi. pose proof (proj1 (Forall_lookup _ _) Hf k r Hk Hi) as Hfine. destruct r as [fd len at_]. cbn [r_fd r_at r_len] in *. subst fd.
  destruct at_ as [| |out start want|out].
  - destruct (testing_step _ _ _ _ len Hp Hfine) as (last' & _ & E'). rewrite E' in E. injection E as <- <-. change (handed i _ _) with (@nil Z). rewrite app_nil_r. split; cbn [readers drv delivered arrived].
    + exists c, q. split; [done|]. split; [done|]. exists last, held. split_and!; try done. apply Forall_insert; [done|]. intros _. cbn [r_at r_len]. destruct (Z.leb_spec 0 len); cbn [andb]; [destruct (len <=? zlen q)|]; lia.
    + apply (holds_replaced i s k _ _ Hk); [|done]. unfold holds_lock. cbn [r_fd r_at]. destruct (_ && _); by rewrite andb_false_r.
  - destruct (passed_step _ _ _ _ len Hp Hfine) as (last' & held' & Hla' & Hlr & Hh' & E'). rewrite E' in E. rewrite Hla in Hla'. injection Hla' as <-. rewrite Hh in Hh'. injection Hh' as <-.
    destruct held; injection E as <- <-; change (handed i _ _) with (@nil Z); rewrite app_nil_r.
    + rewrite list_insert_id by done. split; [|done]. exists c, q. split; [done|]. split; [done|]. by exists last, true.
    + assert (forall k2 r2, readers s !! k2 = Some r2 -> holds_lock i r2 = false) as Hfree.
      { intros k2 r2 Hk2. unfold holds_lock. destruct (Z.eqb_spec (r_fd r2) i) as [E2|]; [|done]. pose proof (proj1 (Forall_lookup _ _) Hf k2 r2 Hk2 E2) as Hf2. destruct (r_at r2); try done. by destruct Hf2. }
      split; cbn [readers drv delivered arrived]; [|apply (holds_replaced i s k _ _ Hk); [by right|done]]. exists c, q. split; [|split; [done|]].
      * destruct Hp as [Hb Hpr Hc Hdl Hr (h & Hl)]. split; try done. exists true. by apply (get_insert_eq _ _ h).
      * exists last, true. cbn [pcuart_last read_spinlockes set_locks]. split_and!; [done|by apply (get_insert_eq _ _ false)|]. apply Forall_insert.
        -- apply Forall_lookup. intros k2 r2 Hk2 E2. pose proof (proj1 (Forall_lookup _ _) Hf k2 r2 Hk2 E2) as Hf2. destruct (r_at r2); try done. by destruct Hf2.
        -- intros _. cbn [r_at r_len]. split; [done|]. split; [done|]. exists 0. pose proof (zlen_nonneg q). rewrite Z.add_0_r, Z.mod_small, Z.sub_0_r by lia. split_and!; done || lia.
  - destruct Hfine as (-> & Hlen & kk & Hkk & Hkl & -> & -> & ->). rewrite (holding_step _ _ _ _ len last kk Hp Hlen Hla Hkk Hkl) in E. assert (forall k2 r2, readers s !! k2 = Some r2 -> k2 <> k -> holds_lock i r2 = false) as Hfree.
    { intros k2 r2 Hk2 Hne. destruct (holds_lock i r2) eqn:T; [|done]. exfalso. apply Hne. eapply H1; [exact Hk2|exact Hk|done|]. unfold holds_lock. cbn. by rewrite Z.eqb_refl. }
    destruct (Z.leb_spec len (zlen q)) as [Hle|Hlt]; injection E as <- <-.
    + unfold handed. cbn [r_at r_fd]. rewrite Z.eqb_refl. split; cbn [readers drv delivered arrived].
      * exists c, (drop (Z.to_nat len) q). split; [by (apply returned_ok; [done|lia|done])|]. split; [by rewrite <- app_assoc, (app_assoc (take _ _)), take_drop|].
        exists ((last + len) mod 256), false. cbn [pcuart_last read_spinlockes set_locks set_uart_last]. split_and!; [by apply (get_insert_eq _ _ last)|by apply (get_insert_eq _ _ true)|].
        apply Forall_lookup. intros k2 r2 Hk2 E2. apply list_lookup_insert_Some in Hk2 as [(-> & <- & _)|[Hne Hk2]].
        -- cbn [r_at r_len]. unfold zlen in *. rewrite length_take. lia.
        -- pose proof (proj1 (Forall_lookup _ _) Hf k2 r2 Hk2 E2) as Hf2. specialize (Hfree k2 r2 Hk2 ltac:(done)). unfold holds_lock in Hfree. rewrite E2, Z.eqb_refl in Hfree. by destruct (r_at r2).
      * apply (holds_replaced i s k _ _ Hk); [|done]. unfold holds_lock. cbn [r_fd r_at]. by rewrite andb_false_r.
    + change (handed i _ _) with (@nil Z). rewrite app_nil_r. split; cbn [readers drv delivered arrived].
      * exists c, q. split; [done|]. split; [done|]. exists last, true. split_and!; try done. apply Forall_insert; [done|]. intros _. cbn [r_at r_len]. split; [done|]. split; [done|]. exists (zlen q).
        rewrite take_ge by (unfold zlen; lia). split_and!; done || lia.
      * apply (holds_replaced i s k _ _ Hk); [|done]. left. unfold holds_lock. cbn. by rewrite Z.eqb_refl.
  - assert (reader_step (drv s) (mk_reader i len (Returned out)) = Ok (drv s, mk_reader i len (Returned out))) as E'.
    { destruct Hp as [_ _ _ _ (b & l' & Hb & Hl' & _) _]. unfold reader_step, load. cbn [r_fd r_at]. by rewrite Hb, Hl'. }
    rewrite E' in E. injection E as <- <-. change (handed i _ _) with (@nil Z). rewrite app_nil_r, list_insert_id by done. split; [|done]. exists c, q. split; [done|]. split; [done|]. by exists last, held.
Qed.

Lemma serial_step_inv i s s' : serial_inv i s -> zlen (arrived s) - zlen (delivered s) < 256 -> serial_step i s s' -> serial_inv i s'.
Proof.
  intros Hinv Hr Hs. destruct Hs as [s j x p' Hj Hrx Hp'|s fuel u' E|s fuel u' E|s fd len Hlen|s k r u' r' Hk E|s fd file buffer len u' n E].
  - by apply serial_receive_inv.
  - by apply (serial_irq_inv i s fuel u' 0 2).
  - by apply (serial_irq_inv i s fuel u' 1 3).
  - by apply serial_call_inv.
  - destruct (decide (r_fd r = i)); [by apply serial_read_own|by apply serial_read_other].
  - by apply (serial_write_inv i s fd file buffer len u' n).
Qed.

Lemma serial_steps_inv i s s' : serial_inv i s -> serial_steps i s s' -> serial_inv i s'.
Proof. intros H0 Hs. induction Hs as [|s s1 s2 _ IH Hr Hs]; [done|]. exact (serial_step_inv i s1 s2 (IH H0) Hr Hs). Qed.

Lemma serial_start i u c held : port_ok u i c [] -> rx c = [] -> get (read_spinlockes u) i = Some held -> serial_inv i (mk_serial u [] [] []).
Proof.
  intros Hp Hr Hh. split; [|done]. exists c, []. cbn [drv delivered arrived]. rewrite Hr. split; [done|]. split; [done|]. pose proof Hp as [_ _ _ _ (b & last & _ & Hl & _) _]. exists last, held. split_and!; done.
Qed.

(** ** The set-up *)

(** The ports that have a device. *)
Definition found_below (p : P) (n : Z) : list Z := List.filter (fun i => match fitted p i with Some _ => true | None => false end) (seqZ 0 n).
Definition found_ports (p : P) : list Z := found_below p 4.

Definition fresh_uart (c : uart) : uart := mk_uart 2 0 1 3 11 52 (rx c) (tx c).

Definition tts_text (k : Z) : list Z := numbered [116; 116; 115] k.
Definition tts_dev (alloc : Z -> Z) (mem : Z -> list Z) (k i : Z) : dev := mk_dev (tts_text k ++ 0 :: drop 5 (mem i)) DEV_TYPE_CHAR (alloc i).
Definition tts_table (alloc : Z -> Z) (mem : Z -> list Z) (l : list Z) : rcparray dev := imap (fun k i => Some (mk_cell 1 true (tts_dev alloc mem (Z.of_nat k) i))) l.

Lemma found_snoc p n : 0 <= n -> found_below p (n + 1) = found_below p n ++ (match fitted p n with Some _ => [n] | None => [] end).
Proof. intros Hn. unfold found_below. rewrite (seqZ_app 0 n 1) by lia. assert (seqZ (0 + n) 1 = [n]) as -> by (unfold seqZ; simpl; f_equal; lia). rewrite List.filter_app. cbn. by destruct (fitted p n). Qed.

Lemma found_elem p n i : i ∈ found_below p n -> 0 <= i < n /\ is_Some (fitted p i).
Proof.
  unfold found_below. rewrite list_elem_of_In, List.filter_In, <- list_elem_of_In, elem_of_seqZ. intros [Hi Hf]. split; [lia|]. by destruct (fitted p i).
Qed.

Lemma table_add alloc mem l i : rcparray_add (tts_table alloc mem l) (tts_dev alloc mem (zlen l) i) = (tts_table alloc mem (l ++ [i]), zlen l).
Proof.
  unfold rcparray_add. assert (forall (l : list Z) (f : nat -> Z -> cell dev) k, first_null (imap (fun n i => Some (f n i : cell dev)) l) k = None) as Hn.
  { clear. intros l. induction l as [|x l IH]; intros f k; [done|]. cbn. apply (IH (f ∘ S)). }
  unfold tts_table. rewrite Hn. unfold zlen. rewrite length_imap, imap_app. cbn. by rewrite Nat.add_0_r.
Qed.

Lemma probe_ok p i b : get pcuart_ioports i = Some b -> exists p', probe p b = (match fitted p i with Some _ => true | None => false end, p') /\ others_same p p' i /\
  fitted p' i = (fun c => mk_uart (divisor_lo c) (divisor_hi c) (ier c) (lcr c) (mcr c) 52 (rx c) (tx c)) <$> fitted p i.
Proof.
  intros Hb. unfold probe. destruct (in_split (outportb p (b + REG_SCRATCH) 52) i b REG_SCRATCH Hb ltac:(unfold REG_SCRATCH; lia)) as (v & p' & Ev & E & Hf). rewrite E.
  pose proof (fun j => out_device p i b REG_SCRATCH 52 j Hb ltac:(unfold REG_SCRATCH; lia)) as Ho. exists p'. pose proof (port_index i b Hb) as Hi. destruct (fitted p i) as [c|] eqn:Ec.
  - rewrite (in_scratch _ i b (uart_out REG_SCRATCH 52 c) Hb) in Ev by (by rewrite (Ho i Hi), decide_True). rewrite out_scratch in Ev. cbn [uscratch] in Ev. subst v. split; [done|]. split.
    + intros j Hj Hne. by rewrite (Hf j Hj), decide_False, (Ho j Hj), decide_False.
    + by rewrite (Hf i Hi), decide_True, (Ho i Hi), decide_True.
  - rewrite (in_absent _ i b Hb) in Ev by (by rewrite (Ho i Hi), decide_True). subst v. split; [done|]. split.
    + intros j Hj Hne. by rewrite (Hf j Hj), decide_False, (Ho j Hj), decide_False.
    + by rewrite (Hf i Hi), decide_True, (Ho i Hi), decide_True.
Qed.

Section Init.
Context (alloc : Z -> Z) (mem ring : Z -> list Z) (ops : char_ops (pcuart P) Z) (scratch : list Z) (p0 : P)
  (Hmem : forall i, zlen (mem i) = 32) (Hring : forall i, zlen (ring i) = 256) (Hscratch : zlen scratch = FMT_BUFFER)
  (Halloc : forall i j, 0 <= i < 4 -> 0 <= j < 4 -> alloc i = alloc j -> i = j).

(** After the ports below [n]. *)
Record set_up (n : Z) (w : charw (pcuart P) Z) : Prop := {
  su_table : c_array w = tts_table alloc mem (found_below p0 n);
  su_chars : forall i, i ∈ found_below p0 n -> chars w !! alloc i = Some (mk_dev_char i ops);
  su_ports : forall i c, fitted p0 i = Some c -> 0 <= i < n -> port_ok (cdrv w) i (fresh_uart c) [];
  su_absent : forall i, fitted p0 i = None -> 0 <= i < n -> get (pcuart_present (cdrv w)) i = Some false;
  su_rest : forall i, n <= i < 4 -> fitted (ports (cdrv w)) i = fitted p0 i /\ get (pcuart_present (cdrv w)) i = Some false;
  su_last : pcuart_last (cdrv w) = replicate 4 0;
  su_locks : read_spinlockes (cdrv w) = replicate 4 false;
  su_buffers : zlen (pcuart_buffers (cdrv w)) = 4 }.

Lemma set_up_none n b p1 w : get pcuart_ioports n = Some b -> set_up n w -> others_same (ports (cdrv w)) p1 n -> fitted p0 n = None -> fitted p1 n = None ->
  set_up (n + 1) (set_cdrv w (set_ports (cdrv w) p1)).
Proof.
  intros Hb [Ht Hc Hp Ha Hr Hl Hk Hbs] Hs Hn Hn1. pose proof (port_index n b Hb) as Hi.
  assert (found_below p0 (n + 1) = found_below p0 n) as Ef by (rewrite found_snoc, Hn by lia; by rewrite app_nil_r). split; rewrite ?Ef; try done.
  - intros i c Hi0 Hin. destruct (decide (i = n)) as [->|]; [by rewrite Hn in Hi0|]. apply (port_ok_frame (cdrv w) _ i n); [apply Hp; [done|lia]|by split|done].
  - intros i Hi0 Hin. destruct (decide (i = n)) as [->|]; [apply Hr; lia|]. apply Ha; [done|lia].
  - intros i Hin. destruct (Hr i ltac:(lia)) as [E1 E2]. split; [|done]. cbn [cdrv set_cdrv ports set_ports]. by rewrite (Hs i) by lia.
Qed.

Lemma set_up_found n b c p3 w rest : get pcuart_ioports n = Some b -> set_up n w -> others_same (ports (cdrv w)) p3 n -> fitted p0 n = Some c -> fitted p3 n = Some (fresh_uart c) ->
  let w1 := mk_charw (c_array w) (<[alloc n := mk_dev_char n ops]> (chars w)) (set_ports (cdrv w) p3) in
  exists w2 id, dev_register_char w1 (tts_text (zlen (found_below p0 n)) ++ 0 :: rest) (alloc n) (mem n) scratch = Ok (w2, id) /\ cdrv w2 = set_ports (cdrv w) p3 /\
  exists here bs, store (pcuart_present (cdrv w2)) n true = Ok here /\ store (pcuart_buffers (cdrv w2)) n (Cbufm.cbufm_create (ring n) 256) = Ok bs /\
  set_up (n + 1) (set_cdrv w2 (mk_pcuart (ports (cdrv w2)) here bs (pcuart_last (cdrv w2)) (read_spinlockes (cdrv w2)))).
Proof.
  intros Hb Hw Hs Hn Hn3 w1. pose proof Hw as [Ht Hc Hp Ha Hr Hl Hk Hbs]. pose proof (port_index n b Hb) as Hi. destruct (Hr n ltac:(lia)) as [_ Hpn].
  pose proof (found_elem p0 n) as Hel. assert (zlen (found_below p0 n) <= n) as Hlen.
  { unfold found_below, zlen. pose proof (List.filter_length_le (fun i => match fitted p0 i with Some _ => true | None => false end) (seqZ 0 n)) as Hf. rewrite length_seqZ in Hf. lia. }
  pose proof (zlen_nonneg (found_below p0 n)).
  assert (found_below p0 (n + 1) = found_below p0 n ++ [n]) as Ef by (by rewrite found_snoc, Hn by lia).
  unfold w1. rewrite (register_named _ (tts_text (zlen (found_below p0 n))) rest (alloc n) (mem n) scratch (Hmem n) Hscratch); [|unfold nonul, tts_text, numbered; cbn [app]; repeat (apply Forall_cons; split; [lia|]); apply Forall_nil_2|done].
  change (S (length (tts_text _))) with 5%nat. cbn [c_array]. rewrite Ht. fold (tts_dev alloc mem (zlen (found_below p0 n)) n). rewrite table_add. eexists _, _. split; [done|]. split; [done|].
  cbn [cdrv set_c_array pcuart_present pcuart_buffers set_ports]. rewrite (store_get _ _ _ _ Hpn), store_in_range by lia. eexists _, _. split; [done|]. split; [done|]. destruct (get_in_range (pcuart_buffers (cdrv w)) n ltac:(lia)) as [ob Eob].
  split; rewrite ?Ef; try done.
  - intros i [Hin| ->%list_elem_of_singleton]%elem_of_app; cbn [chars set_cdrv set_c_array]; [|by rewrite lookup_insert_eq].
    rewrite lookup_insert_ne; [by apply Hc|]. intros E. destruct (Hel i Hin). apply Halloc in E; lia.
  - intros i ci Hi0 Hin. destruct (decide (i = n)) as [->|Hne].
    + rewrite Hn in Hi0. injection Hi0 as <-. split; cbn [cdrv set_cdrv set_c_array set_ports pcuart_present ports pcuart_buffers pcuart_last read_spinlockes]; [by exists b|by apply (get_insert_eq _ _ false)|done|done| |].
      * exists (Cbufm.cbufm_create (ring n) 256), 0. rewrite Hl. split_and!; try done; [by apply (get_insert_eq _ _ ob)|apply get_Some; split; [lia|]; apply lookup_replicate; split; [done|lia]|].
        split; [done|]. split; [cbn; apply Hring|done].
      * exists false. rewrite Hk. apply get_Some. split; [lia|]. apply lookup_replicate. split; [done|lia].
    + destruct (Hp i ci Hi0 ltac:(lia)) as [(bi & Hbi) H2 H3 H4 H5 H6]. split; cbn [cdrv set_cdrv set_c_array set_ports pcuart_present ports pcuart_buffers pcuart_last read_spinlockes]; try done; [by exists bi|by rewrite get_insert_ne by lia|by rewrite (Hs i) by lia|by rewrite get_insert_ne by lia].
  - intros i Hi0 Hin. assert (i <> n) by (intros ->; by rewrite Hn in Hi0). cbn [cdrv set_cdrv set_c_array set_ports pcuart_present]. rewrite get_insert_ne by lia. apply Ha; [done|lia].
  - intros i Hin. destruct (Hr i ltac:(lia)) as [E1 E2]. cbn [cdrv set_cdrv set_c_array set_ports pcuart_present ports]. rewrite (Hs i), get_insert_ne by lia. done.
  - cbn [cdrv set_cdrv set_c_array set_ports pcuart_buffers]. by rewrite zlen_insert.
Qed.

Lemma init_ports_ok m : forall n w buffer, 0 <= n -> n + Z.of_nat m = 4 -> zlen buffer = 8 -> set_up n w ->
  exists w', init_ports m n (zlen (found_below p0 n)) w ops alloc mem ring buffer scratch = Ok w' /\ set_up 4 w'.
Proof.
  induction m as [|m IH]; intros n w buffer Hn0 Hn Hbf Hw; [assert (n = 4) as -> by lia; by exists w|]. cbn [init_ports].
  assert (exists b, get pcuart_ioports n = Some b) as (b & Hb) by (apply get_in_range; change (zlen pcuart_ioports) with 4; lia). unfold load. rewrite Hb. cbn [res_of_option mbind res_bind].
  destruct (probe_ok (ports (cdrv w)) n b Hb) as (p1 & -> & Hs1 & Hp1). destruct (su_rest _ _ Hw n ltac:(lia)) as [Er _]. rewrite Er in *.
  destruct (fitted p0 n) as [c|] eqn:Ec; cbn [negb].
  - destruct (configure_ok p1 n b _ Hb Hp1) as (p2 & -> & Hs2 & Hp2). cbn [mbind res_bind].
    change (bytes "tts%i" ++ [0]) with ([116; 116; 115] ++ bytes "%i" ++ [0]). pose proof (zlen_nonneg (found_below p0 n)). assert (zlen (found_below p0 n) < 10).
    { unfold found_below, zlen. pose proof (List.filter_length_le (fun i => match fitted p0 i with Some _ => true | None => false end) (seqZ 0 n)) as Hf. rewrite length_seqZ in Hf. lia. }
    rewrite numbered_printed by (done || lia || by repeat constructor). cbn [mbind res_bind].
    destruct (set_up_found n b c p2 w (drop 5 buffer) Hb Hw (same_trans _ _ _ _ Hs1 Hs2) Ec Hp2) as (w2 & id & E & Ed & here & bs & Eh & Eb & Hw2).
    unfold tts_text in E. change (set_ports (set_ports (cdrv w) p1) p2) with (set_ports (cdrv w) p2). rewrite E. cbn [mbind res_bind]. rewrite Eh. cbn [mbind res_bind]. rewrite Eb. cbn [mbind res_bind].
    replace (zlen (found_below p0 n) + 1) with (zlen (found_below p0 (n + 1))) by (rewrite found_snoc, Ec, zlen_app by lia; done).
    apply IH; [lia|lia| |done]. rewrite zlen_app, zlen_cons. unfold zlen in *. rewrite length_drop. cbn. lia.
  - replace (zlen (found_below p0 n)) with (zlen (found_below p0 (n + 1))) by (rewrite found_snoc, Ec by lia; by rewrite app_nil_r). apply IH; [lia|lia|done|]. by apply (set_up_none n b).
Qed.

Lemma set_up_boot : set_up 0 (mk_charw [] ∅ (pcuart_boot p0)).
Proof.
  split; try done; try lia; [by intros i Hi%not_elem_of_nil|]. intros i Hi. split; [done|]. apply get_Some. split; [lia|]. apply lookup_replicate. split; [done|lia].
Qed.

Definition tts_path (k : Z) : list Z := bytes "/" ++ tts_text k ++ [0].

Lemma found_length : zlen (found_ports p0) <= 4.
Proof.
  unfold found_ports, found_below, zlen. pose proof (List.filter_length_le (fun i => match fitted p0 i with Some _ => true | None => false end) (seqZ 0 4)) as Hf. rewrite length_seqZ in Hf. lia.
Qed.

Lemma tts_lookup (l : list Z) k i : zlen l <= 4 -> l !! k = Some i -> dev_lookup (tts_table alloc mem l) (drop 1 (tts_path (Z.of_nat k))) = Some (Z.of_nat k, tts_dev alloc mem (Z.of_nat k) i).
Proof.
  intros Hl Hk. destruct l as [|a [|b [|c [|d [|e l]]]]]; [by destruct k| | | | |rewrite !zlen_cons in Hl; pose proof (zlen_nonneg l); lia];
    (destruct k as [|[|[|[|k]]]]; try done; injection Hk as ->; reflexivity).
Qed.

Lemma tts_char w k i : set_up 4 w -> found_ports p0 !! k = Some i -> char_at w (Z.of_nat k) (mk_dev_char i ops).
Proof.
  intros Hw Hk. pose proof found_length as Hl. assert (k < 4)%nat as Hk4 by (apply lookup_lt_Some in Hk; unfold zlen in Hl; lia). split; [lia|].
  exists (mk_cell 1 true (tts_dev alloc mem (Z.of_nat k) i)). split_and!; try done.
  - rewrite (su_table _ _ Hw). apply arr_slot_Some. split; [lia|]. rewrite Nat2Z.id. unfold tts_table. fold (found_ports p0). by rewrite list_lookup_imap, Hk.
  - apply (su_chars _ _ Hw). by eapply list_elem_of_lookup_2.
Qed.

End Init.

(** Nothing happens between the steps of a reader. *)
Definition alone : list (pcuart P -> res (pcuart P)) := [Ok; Ok].

Lemma read_alone u i c q file buffer len : port_ok u i c q -> get (read_spinlockes u) i = Some false -> 0 <= len <= 64 -> len <= zlen q -> len <= zlen buffer ->
  exists u', pcuart_read alone u i file buffer len = Ok (u', take (Z.to_nat len) q ++ drop (Z.to_nat len) buffer, len) /\ port_ok u' i c (drop (Z.to_nat len) q) /\ get (read_spinlockes u') i = Some false.
Proof.
  intros Hp Hk Hl Hq Hb. pose proof (zlen_nonneg q). unfold pcuart_read, start_read. destruct (Z.gtb_spec len 64); [lia|]. unfold alone. cbn [read_through].
  destruct (testing_step u i c q len Hp ltac:(lia)) as (last & Hla & ->). cbn [mbind res_bind]. destruct (Z.leb_spec 0 len); [|lia]. destruct (Z.leb_spec len (zlen q)); [|lia]. cbn [andb r_at].
  destruct (passed_step u i c q len Hp Hl) as (last' & held & Hla' & Hlr & Hk' & ->). rewrite Hla in Hla'. injection Hla' as <-. rewrite Hk in Hk'. injection Hk' as <-. cbn [mbind res_bind r_at].
  set (u1 := set_locks u _). assert (port_ok u1 i c q) as Hp1.
  { destruct Hp as [? ? ? ? ? [h ?]]. split; try done. exists true. by apply (get_insert_eq _ _ h). }
  pose proof (holding_step u1 i c q len last 0 Hp1 Hl Hla ltac:(lia) ltac:(lia)) as E. rewrite Z.add_0_r, Z.sub_0_r, Z.mod_small in E by lia. change (take (Z.to_nat 0) q) with (@nil Z) in E. rewrite E. clear E.
  destruct (Z.leb_spec len (zlen q)); [|lia]. cbn [mbind res_bind r_at]. assert (zlen (take (Z.to_nat len) q) = len) as Hz by (unfold zlen in *; rewrite length_take; lia).
  rewrite memcpy_ok by lia. cbn [mbind res_bind r_len]. eexists. split; [|split; [by apply (returned_ok u1 i c q len last)|]].
  - do 3 f_equal. rewrite splice_0. unfold slice. rewrite drop_0, Hz, take_take, Nat.min_id. do 2 f_equal. unfold zlen in Hz. lia.
  - apply (get_insert_eq _ _ true). by apply (get_insert_eq _ _ false).
Qed.

Lemma write_text u i c q file text : port_ok u i c q -> exists u', pcuart_write u i file text (zlen text) = Ok (u', zlen text) /\ port_ok u' i (uart_sent c (crlf text)) q /\ read_spinlockes u' = read_spinlockes u.
Proof.
  intros [(b & Hb) H2 H3 H4 H5 H6]. unfold pcuart_write, load. rewrite Hb. cbn [res_of_option mbind res_bind].
  destruct (send_chars_ok i b text Hb (Z.to_nat (zlen text)) 0 (ports u) c H3 H4 ltac:(lia)) as (p' & -> & Hs & Hc); [pose proof (zlen_nonneg text); lia|]. cbn [mbind res_bind].
  eexists. split; [done|]. split; [|done]. rewrite Z2Nat.id in Hc by apply zlen_nonneg. unfold slice in Hc. rewrite drop_0, take_ge in Hc by (unfold zlen; lia). split; try done. by exists b.
Qed.

(** C32: from any state of a serial port in which nothing is unread, and for any order of bytes that
    come in on the lines, interrupts, readers at every place of [pcuart_read] and writers: what
    the readers were handed, what is in the ring and what the device still has are together, in
    this order, the bytes that came in (with backspaces for deletes).  The runs are those in which
    the ring never has to hold 256 bytes that were not handed out (else the writer overtakes the
    readers unnoticed and bytes are lost) and a byte comes in only when the device has room for it,
    since the interrupt took the one before ([uart_overrun]). *)
Theorem serial_in_order i u c held s : port_ok u i c [] -> rx c = [] -> get (read_spinlockes u) i = Some held -> serial_steps i (mk_serial u [] [] []) s ->
  exists c' q, port_ok (drv s) i c' q /\ delivered s ++ q ++ (uart_char <$> rx c') = uart_char <$> arrived s.
Proof.
  intros Hp Hr Hh Hs. destruct (serial_steps_inv i _ s (serial_start i u c held Hp Hr Hh) Hs) as [(c' & q & Hp' & Hd & _) _]. by exists c', q.
Qed.

(** The bytes are counted before the lock is taken: two readers can count the same ones.  The
    second then waits for more with the lock in its hands, and until some come no other reader
    gets on and the number of available bytes cannot be asked for. *)
Theorem serial_reader_keeps_lock u i c q len : port_ok u i c q -> get (read_spinlockes u) i = Some false -> 0 < len <= 64 -> zlen q = len ->
  let counted := mk_reader i len Passed in
  reader_step u (mk_reader i len Testing) = Ok (u, counted) /\
  exists u1 u2 u3 start, reader_step u counted = Ok (u1, mk_reader i len (Holding [] start len)) /\
    reader_step u1 (mk_reader i len (Holding [] start len)) = Ok (u2, mk_reader i len (Returned q)) /\
  exists start', reader_step u2 counted = Ok (u3, mk_reader i len (Holding [] start' len)) /\
    reader_step u3 (mk_reader i len (Holding [] start' len)) = Ok (u3, mk_reader i len (Holding [] start' len)) /\
    (forall len', reader_step u3 (mk_reader i len' Passed) = Ok (u3, mk_reader i len' Passed)) /\
    (forall file, pcuart_ioctl u3 i file IOCTL_BYTES_AVAILABLE = OutOfFuel).
Proof.
  intros Hp Hk Hl Hq counted. assert (forall v, port_ok u i c v -> True) as _ by done.
  destruct (testing_step u i c q len Hp ltac:(lia)) as (last & Hla & ->). destruct (Z.leb_spec 0 len); [|lia]. destruct (Z.leb_spec len (zlen q)); [|lia]. cbn [andb]. split; [done|].
  assert (forall u v, port_ok u i c v -> port_ok (set_locks u (<[Z.to_nat i := true]> (read_spinlockes u))) i c v) as Hlock.
  { intros x v [? ? ? ? ? [h ?]]. split; try done. exists true. by apply (get_insert_eq _ _ h). }
  destruct (passed_step u i c q len Hp ltac:(lia)) as (last1 & held & Hla1 & Hlr & Hk1 & E1). rewrite Hla in Hla1. injection Hla1 as <-. rewrite Hk in Hk1. injection Hk1 as <-.
  set (u1 := set_locks u _) in E1. exists u1. pose proof (Hlock u q Hp) as Hp1. fold u1 in Hp1.
  pose proof (holding_step u1 i c q len last 0 Hp1 ltac:(lia) Hla ltac:(lia) ltac:(lia)) as E2. rewrite Z.add_0_r, Z.sub_0_r, Z.mod_small in E2 by lia. change (take (Z.to_nat 0) q) with (@nil Z) in E2.
  destruct (Z.leb_spec len (zlen q)); [|lia]. rewrite (take_ge q) in E2 by (unfold zlen in Hq; lia). set (u2 := set_locks _ _) in E2. exists u2.
  assert (port_ok u2 i c []) as Hp2. { pose proof (returned_ok u1 i c q len last Hp1 ltac:(lia) Hla) as Hp2. rewrite drop_ge in Hp2 by (unfold zlen in Hq; lia). exact Hp2. }
  assert (get (read_spinlockes u2) i = Some false) as Hk2 by (apply (get_insert_eq _ _ true); by apply (get_insert_eq _ _ false)).
  destruct (passed_step u2 i c [] len Hp2 ltac:(lia)) as (last2 & held & Hla2 & Hlr2 & Hk2' & E3). rewrite Hk2 in Hk2'. injection Hk2' as <-. set (u3 := set_locks _ _) in E3. pose proof (Hlock u2 [] Hp2) as Hp3. fold u3 in Hp3.
  exists u3, last. split; [exact E1|]. split; [exact E2|]. exists last2. split; [exact E3|].
  pose proof (holding_step u3 i c [] len last2 0 Hp3 ltac:(lia) Hla2 ltac:(change (zlen (@nil Z)) with 0; lia) ltac:(lia)) as E4. rewrite Z.add_0_r, Z.sub_0_r, Z.mod_small in E4 by lia. cbn [take] in E4.
  change (zlen (@nil Z)) with 0 in E4. destruct (Z.leb_spec len 0); [lia|]. rewrite Z.add_0_r, Z.sub_0_r, Z.mod_small in E4 by lia. rewrite take_nil in E4. split; [exact E4|].
  assert (get (read_spinlockes u3) i = Some true) as Hk3 by (by apply (get_insert_eq _ _ false)). pose proof Hp3 as [_ _ _ _ (b & last3 & Hb & Hl3 & _) _]. split.
  - intros len'. unfold reader_step, load. cbn [r_fd r_at r_len]. by rewrite Hb, Hl3, Hk3.
  - intros file. unfold pcuart_ioctl, load. cbn [Z.eqb Pos.eqb IOCTL_BYTES_AVAILABLE]. by rewrite Hk3.
Qed.

(** A byte that comes in before the interrupt has taken the last one loses that one. *)
Lemma uart_overrun x y c : rx (uart_receive y (uart_receive x c)) = [y].
Proof. done. Qed.

(** [pcuart_write] does not wait for the transmitter: of a text that is written while the holding
    register stays full, as one is that is written faster than 57600 baud send it, only the last byte
    gets on the line, and the byte before the text is lost with the others. *)
Theorem pcuart_write_loses u i c q file text vs v : port_ok u i c q -> crlf text = vs ++ [v] ->
  (forall n, (length (taken (tx c)) <= n < length (taken (tx c)) + S (length vs))%nat -> emptied (tx c) n = false) ->
  exists u' c', pcuart_write u i file text (zlen text) = Ok (u', zlen text) /\ port_ok u' i c' q /\
    taken (tx c') = taken (tx c) ++ vs ++ [v] /\ line (tx c') = List.removelast (line (tx c)) ++ [v].
Proof.
  intros Hp Et He. destruct (write_text u i c q file text Hp) as (u' & E & Hp' & _). exists u', (uart_sent c (crlf text)). split; [done|]. split; [done|].
  rewrite Et. cbn [uart_sent tx]. split; [apply taken_transmit|by apply line_transmit_last].
Qed.

(** C38: [pcuart_init] finds the ports that have a device, whatever state that is in, sets them to 57600
    baud and 8 bits, names them tts0, tts1, ... in their order and takes the interrupts; the file
    [/ttsK] can be opened, and in every later state a read of bytes that are in the ring returns
    the first of them and leaves the rest, and the bytes of a text that is written, with carriage
    returns before its line feeds, are handed to the transmitter in order.  They all get on the line if
    the holding register is empty whenever one is written; the driver does not see to that, and
    otherwise loses bytes ([pcuart_write_loses]). *)
Theorem serial_file alloc mem ring scratch buffer p irqbuf irq02 irq13 k i c :
  (forall i, zlen (mem i) = 32) -> (forall i, zlen (ring i) = 256) -> zlen scratch = FMT_BUFFER -> zlen buffer = 8 ->
  (forall i j, 0 <= i < 4 -> 0 <= j < 4 -> alloc i = alloc j -> i = j) -> found_ports p !! k = Some i -> fitted p i = Some c ->
  exists w q, pcuart_init (mk_charw [] ∅ (pcuart_boot p)) (irq_start irqbuf) (pcuart_ops alone) alloc mem ring buffer scratch irq02 irq13 = Ok (w, q) /\
    get (irqs_imm q) 4 = Some [irq02] /\ get (irqs_imm q) 3 = Some [irq13] /\
    port_ok (cdrv w) i (fresh_uart c) [] /\ read_spinlockes (cdrv w) = replicate 4 false /\
  exists s, devfs_open (mk_devfs w []) (tts_path (Z.of_nat k)) = Ok (s, 0) /\ cdrv (dfs_chars s) = cdrv w /\
  forall u c' unread, port_ok u i c' unread -> get (read_spinlockes u) i = Some false ->
    let at_ u := mk_devfs (set_cdrv (dfs_chars s) u) (dfs_handles s) in
    (forall buf len, 0 <= len <= 64 -> len <= zlen unread -> len <= zlen buf -> exists u',
      devfs_read (at_ u) 0 buf len = Ok (at_ u', (take (Z.to_nat len) unread ++ drop (Z.to_nat len) buf, len)) /\ port_ok u' i c' (drop (Z.to_nat len) unread)) /\
    (forall text, zlen text < 2 ^ 31 -> exists u' c'', devfs_write (at_ u) 0 text (zlen text) = Ok (at_ u', zlen text) /\ port_ok u' i c'' unread /\
      rx c'' = rx c' /\ taken (tx c'') = taken (tx c') ++ crlf text /\
      ((forall n, (length (taken (tx c')) <= n < length (taken (tx c')) + length (crlf text))%nat -> emptied (tx c') n = true) ->
        line (tx c'') = line (tx c') ++ crlf text)).
Proof.
  intros Hm Hrg Hsc Hbf Ha Hk Hc. destruct (init_ports_ok alloc mem ring (pcuart_ops alone) scratch p Hm Hrg Hsc Ha (Z.to_nat MAX_SERIAL) 0 _ buffer ltac:(lia) ltac:(done) Hbf (set_up_boot alloc mem (pcuart_ops alone) p)) as (w & E & Hw).
  unfold pcuart_init. change (zlen (found_below p 0)) with 0 in E. rewrite E. cbn [mbind res_bind]. exists w. eexists. split; [done|]. split; [done|]. split; [done|].
  assert (i ∈ found_ports p) as [Hi _]%found_elem by (by eapply list_elem_of_lookup_2). split; [by apply (su_ports _ _ _ _ _ _ Hw)|]. split; [apply (su_locks _ _ _ _ _ _ Hw)|].
  pose proof (tts_char alloc mem (pcuart_ops alone) p w k i Hw Hk) as Hch. pose proof (found_length p) as Hlen. pose proof (lookup_lt_Some _ _ _ Hk).
  assert (forall j c, arr_slot (c_array w) j = Some c -> counted c) as Hrefs.
  { intros j cl Hj. rewrite (su_table _ _ _ _ _ _ Hw) in Hj. apply arr_slot_Some in Hj as [_ Hj]. unfold tts_table in Hj. rewrite list_lookup_imap in Hj. destruct (found_below p 4 !! Z.to_nat j); [|done]. by injection Hj as <-. }
  pose proof (open_ok (mk_devfs w []) (tts_path (Z.of_nat k)) (Z.of_nat k) (tts_dev alloc mem (Z.of_nat k) i) (mk_dev_char i (pcuart_ops alone)) pcuart_open) as Ho.
  cbn [dfs_chars dfs_handles c_ops] in Ho. specialize (Ho ltac:(rewrite (su_table _ _ _ _ _ _ Hw); by apply tts_lookup)).
  specialize (Ho ltac:(rewrite (su_table _ _ _ _ _ _ Hw); unfold tts_table, zlen in *; rewrite length_imap; fold (found_ports p); lia) Hrefs ltac:(done) Hch eq_refl).
  unfold rcparray_add in Ho. cbn [first_null zlen length app] in Ho. destruct (Ho (cdrv w) 0 eq_refl ltac:(lia)) as [Eo Hh].
  eexists. split; [exact Eo|]. split; [done|]. intros u c' q Hp Hlk. cbn beta zeta. set (s1 := mk_devfs (set_cdrv w (cdrv w)) _) in *.
  set (at_ := fun x => mk_devfs (set_cdrv (dfs_chars s1) x) (dfs_handles s1)).
  assert (handle_at (at_ u) 0 (mk_dhandle (Z.of_nat k) 1 None)) as Hh1 by exact Hh. assert (char_at (dfs_chars (at_ u)) (Z.of_nat k) (mk_dev_char i (pcuart_ops alone))) as Hch1 by exact Hch. split.
  - intros buf len Hl Hlq Hlb. destruct (read_alone u i c' q 0 buf len Hp Hlk Hl Hlq Hlb) as (u' & Er & Hp' & _). exists u'. split; [|done].
    apply (devfs_read_ok (at_ u) 0 _ _ (pcuart_read alone) buf len u' _ len Hh1 Hch1 eq_refl). by rewrite s32_small by lia.
  - intros text Ht. destruct (write_text u i c' q 0 text Hp) as (u' & Ew & Hp' & _). exists u', (uart_sent c' (crlf text)).
    split; [|split; [done|]; split; [done|]; split; [apply taken_transmit|apply line_transmit]].
    apply (devfs_write_ok (at_ u) 0 _ _ pcuart_write text (zlen text) u' (zlen text) Hh1 Hch1 eq_refl). pose proof (zlen_nonneg text). by rewrite s32_small by lia.
Qed.
End Laws.

Module UartDemo.
(** A transmitter that keeps up. *)
Definition quick : transmitter := mk_transmitter (fun _ => true) [] [].
Definition quiet : uart := mk_uart 12 0 5 27 0 0 [] quick.
Definition ready : uart := fresh_uart quiet.
Definition demo_ports : bus := [Some ready; None; None; None].
Definition ring : Cbufm.cbufm := Cbufm.cbufm_create (replicate 256 0) 256.
Definition u0 : pcuart bus := mk_pcuart demo_ports [true; false; false; false] [ring; ring; ring; ring] [0; 0; 0; 0] [false; false; false; false].

Lemma u0_ok : port_ok u0 0 ready [].
Proof. split; try done; [by exists 1016| |by exists false]. exists ring, 0. by repeat split. Qed.

(** Two bytes come in, with an interrupt for each, a thread asks for them, is given the lock, and reads. *)
Definition at_line (s : serial bus) (x : Z) : serial bus :=
  mk_serial (set_ports (drv s) (match ports (drv s) with Some c :: l => Some (uart_receive x c) :: l | l => l end)) (readers s) (arrived s ++ [x]) (delivered s).
Definition irq (s : serial bus) : serial bus :=
  match pcuart_0_2_irq 2 (drv s) with Ok u => mk_serial u (readers s) (arrived s) (delivered s) | _ => s end.
Definition call (s : serial bus) (len : Z) : serial bus := mk_serial (drv s) (readers s ++ [start_read 0 len]) (arrived s) (delivered s).
Definition read_once (s : serial bus) : serial bus :=
  match readers s with
  | [r] => match reader_step (drv s) r with Ok (u, r') => mk_serial u [r'] (arrived s) (delivered s ++ handed 0 r r') | _ => s end
  | _ => s
  end.
Definition s4 : serial bus := irq (at_line (irq (at_line (mk_serial u0 [] [] []) 104)) 127).
Definition s8 : serial bus := read_once (read_once (read_once (call s4 2))).

Lemma read_once_step s : (match readers s with [r] => match reader_step (drv s) r with Ok _ => true | _ => false end | _ => false end) = true -> serial_step 0 s (read_once s).
Proof.
  unfold read_once. destruct (readers s) as [|r [|? ?]] eqn:Er; try done. destruct (reader_step (drv s) r) as [[u r']| | |] eqn:E; try done. intros _.
  pose proof (step_read 0 s 0 r u r') as H. rewrite Er in H. by apply H.
Qed.

Lemma irq_step s : (match pcuart_0_2_irq 2 (drv s) with Ok _ => true | _ => false end) = true -> serial_step 0 s (irq s).
Proof. unfold irq. destruct (pcuart_0_2_irq 2 (drv s)) as [u| | |] eqn:E; try done. intros _. by apply (step_irq02 0 s 2). Qed.

Lemma line_step s x c l : ports (drv s) = Some c :: l -> rx c = [] -> serial_step 0 s (at_line s x).
Proof.
  intros E Hr. unfold at_line. rewrite E. apply (step_receive 0 s 0 x (Some (uart_receive x c) :: l) ltac:(lia)).
  - intros c'. rewrite E. by intros [= <-].
  - intros k Hk. rewrite E. cbn [fitted bus_uarts]. unfold bus_uart. destruct (decide (k = 0)) as [->|Hne]; [done|].
    assert (exists n, Z.to_nat k = S n) as [n ->] by (exists (Z.to_nat (k - 1)); lia). done.
Qed.

Lemma demo_steps : serial_steps 0 (mk_serial u0 [] [] []) s8.
Proof.
  eapply serial_more; [|shelve|apply read_once_step; vm_compute; reflexivity].
  eapply serial_more; [|shelve|apply read_once_step; vm_compute; reflexivity].
  eapply serial_more; [|shelve|apply read_once_step; vm_compute; reflexivity].
  apply (serial_more 0 _ s4); [|shelve|apply (step_call 0 s4 0 2); lia].
  eapply serial_more; [|shelve|apply irq_step; vm_compute; reflexivity].
  eapply serial_more; [|shelve|eapply line_step; [vm_compute; reflexivity|done]].
  eapply serial_more; [|shelve|apply irq_step; vm_compute; reflexivity].
  eapply serial_more; [apply serial_done|shelve|eapply line_step; [vm_compute; reflexivity|done]].
  Unshelve. all: vm_compute; reflexivity.
Qed.
End UartDemo.

Lemma serial_in_order_witness : delivered UartDemo.s8 = [104; 8] /\
  exists c' q, port_ok (drv UartDemo.s8) 0 c' q /\ delivered UartDemo.s8 ++ q ++ (uart_char <$> rx c') = uart_char <$> arrived UartDemo.s8.
Proof.
  split; [vm_compute; reflexivity|]. exact (serial_in_order 0 UartDemo.u0 UartDemo.ready false UartDemo.s8 UartDemo.u0_ok eq_refl eq_refl UartDemo.demo_steps).
Defined.

(** Ports 1 and 3 have devices, with transmitters that keep up: /tts1 is port 3. *)
Lemma serial_file_witness :
  exists w q, pcuart_init (mk_charw [] ∅ (pcuart_boot [None; Some UartDemo.quiet; None; Some UartDemo.quiet])) (irq_start []) (pcuart_ops alone) id (fun _ => replicate 32 7) (fun _ => replicate 256 9) (replicate 8 0) (replicate 72 0) 500 501 = Ok (w, q) /\
  exists s, devfs_open (mk_devfs w []) (bytes "/tts1" ++ [0]) = Ok (s, 0) /\
  exists u' c', devfs_write s 0 (bytes "ok") 2 = Ok (mk_devfs (set_cdrv (dfs_chars s) u') (dfs_handles s), 2) /\ port_ok u' 3 c' [] /\ line (tx c') = bytes "ok".
Proof.
  destruct (serial_file id (fun _ => replicate 32 7) (fun _ => replicate 256 9) (replicate 72 0) (replicate 8 0) [None; Some UartDemo.quiet; None; Some UartDemo.quiet] [] 500 501 1%nat 3 UartDemo.quiet)
    as (w & q & E & _ & _ & Hp & Hk & s & Eo & Ec & H); [done|done|done|done|by intros i j _ _ E|done|done|].
  exists w, q. split; [exact E|]. exists s. split; [exact Eo|]. destruct (H (cdrv w) (fresh_uart UartDemo.quiet) [] Hp ltac:(by rewrite Hk)) as [_ Hw].
  destruct (Hw (bytes "ok") ltac:(done)) as (u' & c' & Ew & Hp' & _ & _ & Hl). exists u', c'. split; [|split; [exact Hp'|by apply Hl]].
  rewrite <- Ec in Ew. destruct s as [[a ch d] l]. exact Ew.
Defined.
