(* ===== verification/Acpi.v ===== *)
(** * The tables of the firmware: kernel/acpi/acpi.c

    Physical memory is a function from addresses to bytes.  A pointer into mapped memory is a
    [view]: the pages that were mapped and a place in them; a read outside of the pages is a fault.
    The mapping itself is Paging.v's; the pages that are unmapped again are not tracked.  The LAI
    library is not in the repository: [acpi_init] ends with what it is handed. *)
From S2P Require Import Pool Strings Prelude.

Definition CPU_PAGE_SIZE : Z := 4096.

Record view := mk_view { v_base : Z; v_pages : Z; v_off : Z }.
Definition shift (v : view) (o : Z) : view := mk_view (v_base v) (v_pages v) (v_off v + o).

(** The size of [acpi_sdt_header_t]. *)
Definition SDT_HEADER : Z := 36.

Section Acpi.
Context (mem : Z -> Z).

Definition peek (v : view) (o : Z) : res Z :=
  if (0 <=? v_off v + o) && (v_off v + o <? v_pages v * CPU_PAGE_SIZE) then Ok (mem (v_base v + v_off v + o)) else Fault.
Fixpoint peeks (n : nat) (v : view) (o : Z) : res (list Z) :=
  match n with O => Ok [] | S n => b ← peek v o; l ← peeks n v (o + 1); Ok (b :: l) end.
Definition peek_int (n : nat) (v : view) (o : Z) : res Z := l ← peeks n v o; Ok (le_val l).

(** ** Checksums *)

(** The loops of [acpi_validate_bare] and [acpi_validate]; the bytes are [char]s. *)
Fixpoint sum_loop (n : nat) (v : view) (i sum : Z) : res Z :=
  match n with O => Ok sum | S n => c ← peek v i; sum_loop n v (i + 1) (u8 (sum + s8 c)) end.
Definition acpi_validate_bare (v : view) (len : Z) : res bool := s ← sum_loop (Z.to_nat len) v 0 0; Ok (s =? 0).
Definition sdt_length (v : view) : res Z := peek_int 4 v 4.
Definition acpi_validate (v : view) : res bool := len ← sdt_length v; s ← sum_loop (Z.to_nat len) v 0 0; Ok (s =? 0).

(** ** Tables *)

Definition acpi_map_sdt (phys : Z) : res view :=
  let phys_aligned := phys - phys mod CPU_PAGE_SIZE in
  len ← sdt_length (mk_view phys_aligned (kptopg (SDT_HEADER + CPU_PAGE_SIZE)) (phys mod CPU_PAGE_SIZE));
  Ok (mk_view phys_aligned (kptopg (u64 (s32 len + CPU_PAGE_SIZE))) (phys mod CPU_PAGE_SIZE)).

(** [memcmp] with what is at a pointer, which is read no further than the first difference. *)
Fixpoint same_at (text : list Z) (v : view) (o : Z) : res bool :=
  match text with [] => Ok true | c :: text => b ← peek v o; if b =? c then same_at text v (o + 1) else Ok false end.

(** The loop over the places where the root pointer may be. *)
Fixpoint rsdp_loop (n : nat) (v : view) : res (option view) :=
  match n with
  | O => Ok None
  | S n => b ← same_at (bytes "RSD PTR ") v 0; if b : bool then Ok (Some v) else rsdp_loop n (shift v 16)
  end.

(** The search in the first area and, with nothing found there, in the second. *)
Definition search_rsdp (n1 n2 : nat) : res (option view) :=
  ebda_segment ← peek_int 2 (mk_view 0 (kptopg 4096) 0) 1038;
  r ← rsdp_loop n1 (mk_view (Z.land (ebda_segment * 16) 4294963200) (kptopg (262144 + CPU_PAGE_SIZE * 4)) (Z.land (ebda_segment * 16) 4095));
  match r with
  | Some rsd => Ok (Some rsd)
  | None => rsdp_loop n2 (mk_view 917504 (kptopg (1048575 - 917504)) 0)
  end.

(** The address of the root table with the table, or none. *)
Definition look_for_rsdt : res (option (Z * view)) :=
  r ← search_rsdp (Z.to_nat 16384) (Z.to_nat 8192);
  match r with
  | None => Ok None
  | Some rsd =>
      ok ← acpi_validate_bare rsd 20;
      if negb ok then Ok None
      else
        phys ← peek_int 4 rsd 16;
        rsdt ← acpi_map_sdt phys;
        ok ← acpi_validate rsdt;
        Ok (if ok : bool then Some (phys, rsdt) else None)
  end.

(** [table_list]; with no table its first entry is there and has no address. *)
Definition acpi_add_table (l : list view) (table : view) : list view := l ++ [table].

Fixpoint table_search (l : list view) (signature : list Z) (index : Z) : res (option view) :=
  match l with
  | [] => Ok None
  | t :: l =>
      b ← same_at signature t 0;
      if b : bool then (if index =? 0 then Ok (Some t) else table_search l signature (s32 (index - 1)))
      else table_search l signature index
  end.

Definition acpi_find_table (l : list view) (signature : list Z) (index : Z) : res (option view) :=
  match l with [] => Fault | _ => table_search l signature index end.

Definition understand_fadt (l : list view) (fadt : view) : res (list view) :=
  phys ← peek_int 4 fadt 40;
  dsdt ← acpi_map_sdt phys;
  ok ← acpi_validate dsdt;
  Ok (if ok : bool then acpi_add_table l dsdt else l).

(** ** Start *)

(** How [acpi_init] ends: without ACPI, or with the revision and the interrupt that LAI and
    the interrupt handler are set up with. *)
Inductive acpi_state := NoAcpi | HasPsdt | NoFadt | Enabled (revision sci_interrupt : Z).

Fixpoint tables_loop (n : nat) (i : Z) (rsdt : view) (l : list view) : res (list view) :=
  match n with
  | O => Ok l
  | S n =>
      phys ← peek_int 4 rsdt (SDT_HEADER + 4 * i);
      table ← acpi_map_sdt phys;
      ok ← acpi_validate table;
      tables_loop n (i + 1) rsdt (if ok : bool then acpi_add_table l table else l)
  end.

Definition acpi_init : res (list view * acpi_state) :=
  r ← look_for_rsdt;
  match r with
  | None => Ok ([], NoAcpi)
  | Some (_, rsdt) =>
      len ← sdt_length rsdt;
      let table_count := s32 (u64 (len - SDT_HEADER) / 4) in
      l ← tables_loop (Z.to_nat table_count) 0 rsdt [];
      psdt ← acpi_find_table l (bytes "PSDT") 0;
      match psdt with
      | Some _ => Ok (l, HasPsdt)
      | None =>
          fadt ← acpi_find_table l (bytes "FACP") 0;
          match fadt with
          | None => Ok (l, NoFadt)
          | Some fadt =>
              l ← understand_fadt l fadt;
              revision ← peek rsdt 8;
              sci ← peek_int 2 fadt 46;
              Ok (l, Enabled revision sci)
          end
      end
  end.
End Acpi.

(** The power button, which LAI has a number for: [event] is what it says, [handling] the static;
    whether to shut down. *)
Definition acpi_sci_handler (ACPI_POWER_BUTTON : Z) (handling : bool) (event : Z) : bool * bool :=
  if negb (Z.land event ACPI_POWER_BUTTON =? 0) then (true, negb handling) else (handling, false).

(** ** What the loops compute *)

Section Facts.
Context (mem : Z -> Z) (Hbyte : forall a, 0 <= mem a < 256).

Definition at_mem (a n : Z) : list Z := mem <$> seqZ a n.
Definition addr (v : view) : Z := v_base v + v_off v.
(** The first [n] bytes behind the pointer are mapped. *)
Definition covers (v : view) (n : Z) : Prop := 0 <= v_off v /\ v_off v + n <= v_pages v * CPU_PAGE_SIZE.

Lemma at_mem_cons a n : 0 < n -> at_mem a n = mem a :: at_mem (a + 1) (n - 1).
Proof. intros Hn. unfold at_mem. rewrite seqZ_cons by done. by replace (Z.succ a) with (a + 1) by lia; replace (Z.pred n) with (n - 1) by lia. Qed.

Lemma peek_ok v n o : covers v n -> 0 <= o < n -> peek mem v o = Ok (mem (addr v + o)).
Proof.
  intros [H1 H2] Ho. unfold peek. destruct (Z.leb_spec 0 (v_off v + o)); [|lia]. destruct (Z.ltb_spec (v_off v + o) (v_pages v * CPU_PAGE_SIZE)); [|lia]. done.
Qed.

Lemma peeks_ok v n k : forall o, covers v n -> 0 <= o -> o + Z.of_nat k <= n -> peeks mem k v o = Ok (at_mem (addr v + o) (Z.of_nat k)).
Proof.
  induction k as [|k IH]; intros o Hc Ho Hk; [done|]. cbn [peeks]. rewrite (peek_ok v n) by (done || lia). cbn [mbind res_bind]. rewrite IH by (done || lia). cbn [mbind res_bind].
  rewrite (at_mem_cons _ (Z.of_nat (S k))) by lia. replace (addr v + (o + 1)) with (addr v + o + 1) by lia. by replace (Z.of_nat (S k) - 1) with (Z.of_nat k) by lia.
Qed.

Definition int_at (k : nat) (a : Z) : Z := le_val (at_mem a (Z.of_nat k)).
Lemma peek_int_ok v n k o : covers v n -> 0 <= o -> o + Z.of_nat k <= n -> peek_int mem k v o = Ok (int_at k (addr v + o)).
Proof. intros Hc Ho Hk. unfold peek_int. by rewrite (peeks_ok v n). Qed.

Lemma le_val_bytes l : Forall (fun b => 0 <= b < 256) l -> 0 <= le_val l < 256 ^ zlen l.
Proof.
  induction 1 as [|b l Hb _ IH]; [done|]. rewrite zlen_cons, Z.add_comm, Z.pow_add_r by (pose proof (zlen_nonneg l); lia). cbn [le_val]. lia.
Qed.

Lemma int_at_range k a : 0 <= int_at k a < 256 ^ Z.of_nat k.
Proof.
  pose proof (le_val_bytes (at_mem a (Z.of_nat k))) as H. assert (zlen (at_mem a (Z.of_nat k)) = Z.of_nat k) as Hz by (unfold zlen, at_mem; rewrite length_fmap, length_seqZ; lia).
  rewrite Hz in H. apply H. unfold at_mem. apply Forall_fmap, Forall_true. intros x. apply Hbyte.
Qed.

(** *** Checksums *)

Definition sum_bytes (l : list Z) : Z := foldr Z.add 0 l.

Lemma u8_add_char a b : u8 (a + s8 b) = u8 (a + b).
Proof. unfold s8, swrap, u8. change (2 ^ (8 - 1)) with 128. rewrite Z.add_sub_assoc, Zminus_mod, Zplus_mod_idemp_r, <- Zminus_mod. f_equal. lia. Qed.

Lemma sum_loop_ok v n k : forall i sum, covers v n -> 0 <= i -> i + Z.of_nat k <= n -> 0 <= sum < 256 ->
  sum_loop mem k v i sum = Ok (u8 (sum + sum_bytes (at_mem (addr v + i) (Z.of_nat k)))).
Proof.
  induction k as [|k IH]; intros i sum Hc Hi Hk Hs; cbn [sum_loop]; [cbn; rewrite Z.add_0_r, u8_small by lia; done|]. rewrite (peek_ok v n) by (done || lia). cbn [mbind res_bind].
  rewrite IH by (done || lia || apply u8_range). rewrite u8_add_char, (at_mem_cons _ (Z.of_nat (S k))) by lia. cbn [sum_bytes foldr]. fold (sum_bytes (at_mem (addr v + i + 1) (Z.of_nat (S k) - 1))). f_equal. unfold u8. rewrite Zplus_mod_idemp_l. f_equal.
  replace (addr v + (i + 1)) with (addr v + i + 1) by lia. replace (Z.of_nat (S k) - 1) with (Z.of_nat k) by lia. lia.
Qed.

Definition sums_to_zero (a n : Z) : bool := u8 (sum_bytes (at_mem a n)) =? 0.

Lemma bare_ok v n : covers v n -> acpi_validate_bare mem v n = Ok (sums_to_zero (addr v) n).
Proof.
  intros Hc. unfold acpi_validate_bare, sums_to_zero. destruct (Z.le_gt_cases 0 n) as [Hn|Hn].
  - rewrite (sum_loop_ok v n) by (done || lia). cbn [mbind res_bind]. by rewrite Z2Nat.id, Z.add_0_r, Z.add_0_l by lia.
  - replace (Z.to_nat n) with 0%nat by lia. unfold at_mem. rewrite seqZ_nil by lia. done.
Qed.

Lemma same_at_ok text : forall v n o, covers v n -> 0 <= o -> o + zlen text <= n -> same_at mem text v o = Ok (bool_decide (at_mem (addr v + o) (zlen text) = text)).
Proof.
  induction text as [|c text IH]; intros v n o Hc Ho Hn; [done|]. rewrite zlen_cons in *. pose proof (zlen_nonneg text). cbn [same_at]. rewrite (peek_ok v n) by (done || lia). cbn [mbind res_bind]. rewrite at_mem_cons by lia.
  destruct (Z.eqb_spec (mem (addr v + o)) c) as [<-|Hne].
  - rewrite (IH v n) by (done || lia). f_equal. replace (addr v + (o + 1)) with (addr v + o + 1) by lia. replace (zlen text + 1 - 1) with (zlen text) by lia. apply bool_decide_ext. split; [by intros ->|by intros [= ->]].
  - f_equal. symmetry. apply bool_decide_eq_false_2. by intros [= ? ?].
Qed.

(** *** Tables *)

Definition sdt_len (a : Z) : Z := int_at 4 (a + 4).
Definition table_view (a : Z) : view := mk_view (a - a mod CPU_PAGE_SIZE) (kptopg (sdt_len a + CPU_PAGE_SIZE)) (a mod CPU_PAGE_SIZE).
(** A table with a header, and not too large to be mapped. *)
Definition table_fits (a : Z) : Prop := SDT_HEADER <= sdt_len a < 2 ^ 31 - 2 * CPU_PAGE_SIZE.
Definition table_valid (a : Z) : bool := sums_to_zero a (sdt_len a).

Lemma addr_table a : addr (table_view a) = a.
Proof. unfold addr, table_view. cbn. lia. Qed.

Lemma table_covers a : table_fits a -> covers (table_view a) (sdt_len a).
Proof.
  unfold table_fits, SDT_HEADER, covers, table_view, kptopg, PAGE_SIZE, CPU_PAGE_SIZE. intros H. cbn [v_off v_pages]. pose proof (Z.mod_pos_bound a 4096 ltac:(lia)). split; [lia|]. rewrite u64_small by lia.
  pose proof (Z.div_mod (sdt_len a + 4096 + (4096 - 1)) 4096 ltac:(lia)). pose proof (Z.mod_pos_bound (sdt_len a + 4096 + (4096 - 1)) 4096 ltac:(lia)). lia.
Qed.

Lemma map_sdt_ok a : table_fits a -> acpi_map_sdt mem a = Ok (table_view a).
Proof.
  intros H. unfold acpi_map_sdt, sdt_length. pose proof (Z.mod_pos_bound a CPU_PAGE_SIZE ltac:(done)) as Hm.
  rewrite (peek_int_ok _ 4096) by (unfold covers; cbn [v_off v_pages]; first [lia | split; [lia|]; change (kptopg (SDT_HEADER + CPU_PAGE_SIZE)) with 2; unfold CPU_PAGE_SIZE in *; lia]).
  cbn [mbind res_bind]. unfold addr. cbn [v_base v_off]. replace (a - a mod CPU_PAGE_SIZE + a mod CPU_PAGE_SIZE + 4) with (a + 4) by lia. fold (sdt_len a). unfold table_fits, SDT_HEADER, CPU_PAGE_SIZE in H.
  rewrite s32_small by lia. rewrite u64_small by (unfold CPU_PAGE_SIZE; lia). done.
Qed.

Lemma sdt_length_ok a : table_fits a -> sdt_length mem (table_view a) = Ok (sdt_len a).
Proof. intros H. unfold sdt_length. rewrite (peek_int_ok _ _ _ _ (table_covers a H)) by (unfold table_fits, SDT_HEADER in H; lia). by rewrite addr_table. Qed.

Lemma validate_ok a : table_fits a -> acpi_validate mem (table_view a) = Ok (table_valid a).
Proof.
  intros H. unfold acpi_validate. rewrite sdt_length_ok by done. cbn [mbind res_bind]. pose proof (bare_ok (table_view a) (sdt_len a) (table_covers a H)) as E. unfold acpi_validate_bare in E. by rewrite E, addr_table.
Qed.

(** The addresses in the root table. *)
Definition entry_at (r i : Z) : Z := int_at 4 (r + SDT_HEADER + 4 * i).
Definition entries (r : Z) : list Z := entry_at r <$> seqZ 0 ((sdt_len r - SDT_HEADER) / 4).

Lemma tables_loop_ok r n : table_fits r -> forall i l, 0 <= i -> SDT_HEADER + 4 * (i + Z.of_nat n) <= sdt_len r -> (forall j, i <= j < i + Z.of_nat n -> table_fits (entry_at r j)) ->
  tables_loop mem n i (table_view r) l = Ok (l ++ (table_view <$> List.filter table_valid (entry_at r <$> seqZ i (Z.of_nat n)))).
Proof.
  intros Hr. induction n as [|n IH]; intros i l Hi Hn Hf; cbn [tables_loop]; [cbn; by rewrite app_nil_r|].
  rewrite (peek_int_ok _ _ _ _ (table_covers r Hr)) by (unfold SDT_HEADER in *; lia). cbn [mbind res_bind]. rewrite addr_table. replace (r + (SDT_HEADER + 4 * i)) with (r + SDT_HEADER + 4 * i) by lia. fold (entry_at r i).
  assert (table_fits (entry_at r i)) as He by (apply Hf; lia). rewrite (map_sdt_ok _ He). cbn [mbind res_bind]. rewrite (validate_ok _ He). cbn [mbind res_bind].
  rewrite IH; [|lia|lia|intros j Hj; apply Hf; lia]. rewrite (seqZ_cons i (Z.of_nat (S n))) by lia. replace (Z.succ i) with (i + 1) by lia. replace (Z.pred (Z.of_nat (S n))) with (Z.of_nat n) by lia.
  cbn [fmap list_fmap List.filter]. destruct (table_valid (entry_at r i)); [|done]. unfold acpi_add_table. by rewrite <- app_assoc.
Qed.

Definition has_signature (sig : list Z) (a : Z) : bool := bool_decide (at_mem a 4 = sig).

Lemma table_search_ok sig l : zlen sig = 4 -> Forall table_fits l -> forall index, 0 <= index < 2 ^ 31 ->
  table_search mem (table_view <$> l) sig index = Ok (table_view <$> (List.filter (has_signature sig) l !! Z.to_nat index)).
Proof.
  intros Hs. induction 1 as [|a l Ha _ IH]; intros index Hi; [done|]. cbn [fmap list_fmap table_search List.filter]. pose proof (table_covers a Ha) as Hc. unfold table_fits, SDT_HEADER in Ha.
  rewrite (same_at_ok sig _ _ 0 Hc) by lia. cbn [mbind res_bind]. rewrite addr_table, Z.add_0_r, Hs. fold (has_signature sig a). destruct (has_signature sig a); [|by apply IH].
  destruct (Z.eqb_spec index 0) as [->|]; [done|]. rewrite s32_small by lia. rewrite IH by lia. replace (Z.to_nat index) with (S (Z.to_nat (index - 1))) by lia. done.
Qed.

Lemma acpi_find_ok sig l index : zlen sig = 4 -> Forall table_fits l -> l <> [] -> 0 <= index < 2 ^ 31 ->
  acpi_find_table mem (table_view <$> l) sig index = Ok (table_view <$> (List.filter (has_signature sig) l !! Z.to_nat index)).
Proof. intros Hs Hl Hn Hi. unfold acpi_find_table. rewrite <- (table_search_ok sig l Hs Hl index Hi). by destruct l. Qed.

(** *** The root pointer *)

Definition is_rsdp (a : Z) : bool := bool_decide (at_mem a 8 = bytes "RSD PTR ").
Definition places (from : Z) (n : Z) : list Z := (fun k => from + 16 * k) <$> seqZ 0 n.
Definition ebda : Z := int_at 2 1038 * 16.
(** The places where the root pointer may be, in the order they are looked at. *)
Definition rsdp_places : list Z := places ebda 16384 ++ places 917504 8192.

Lemma rsdp_loop_ok n : forall v, covers v (16 * Z.of_nat n - 8) ->
  exists r, rsdp_loop mem n v = Ok r /\ addr <$> r = List.find is_rsdp (places (addr v) (Z.of_nat n)) /\ forall w, r = Some w -> exists k, 0 <= k < Z.of_nat n /\ w = shift v (16 * k).
Proof.
  induction n as [|n IH]; intros v Hc; [by exists None|]. cbn [rsdp_loop]. rewrite (same_at_ok _ v _ 0 Hc) by (change (zlen (bytes "RSD PTR ")) with 8; lia). cbn [mbind res_bind].
  unfold places. rewrite seqZ_cons by lia. cbn [fmap list_fmap List.find]. rewrite Z.add_0_r, Z.mul_0_r, Z.add_0_r. change (zlen (bytes "RSD PTR ")) with 8. fold (is_rsdp (addr v)). destruct (is_rsdp (addr v)).
  - exists (Some v). split; [done|]. split; [done|]. intros w [= <-]. exists 0. split; [lia|]. unfold shift. rewrite Z.mul_0_r, Z.add_0_r. by destruct v.
  - destruct (IH (shift v 16)) as (r & E & Ef & Hw); [destruct Hc; split; cbn; lia|]. exists r. split; [done|]. split.
    + rewrite Ef. f_equal. unfold places. replace (Z.pred (Z.of_nat (S n))) with (Z.of_nat n) by lia. rewrite <- (fmap_add_seqZ 1 0). rewrite <- list_fmap_compose. apply list_fmap_ext. intros _ k _. unfold addr. cbn. lia.
    + intros w Ew. destruct (Hw w Ew) as (k & Hk & ->). exists (k + 1). split; [lia|]. unfold shift. cbn. f_equal. lia.
Qed.

Lemma ebda_range : 0 <= ebda < 1048576.
Proof. unfold ebda. pose proof (int_at_range 2 1038). change (256 ^ Z.of_nat 2) with 65536 in *. lia. Qed.

Lemma land_page a : 0 <= a < 2 ^ 32 -> Z.land a 4294963200 = a - a mod 4096 /\ Z.land a 4095 = a mod 4096.
Proof.
  intros Ha. assert (Z.land a 4095 = a mod 4096) as E by (apply (Z.land_ones a 12); lia). split; [|done].
  assert (Z.land a 4294963200 = Z.ldiff a 4095) as ->.
  { apply Z.bits_inj'. intros n Hn. rewrite Z.land_spec, Z.ldiff_spec. destruct (Z.lt_ge_cases n 32) as [H|H].
    - f_equal. change 4294963200 with (Z.ldiff (Z.ones 32) (Z.ones 12)). rewrite Z.ldiff_spec, Z.ones_spec_low by lia. done.
    - assert (Z.testbit a n = false) as ->; [|done]. destruct (decide (a = 0)) as [->|]; [apply Z.bits_0|]. apply Z.bits_above_log2; [lia|]. assert (Z.log2 a < 32) by (apply Z.log2_lt_pow2; lia). lia. }
  change 4095 with (Z.ones 12). rewrite Z.ldiff_ones_r by lia. rewrite Z.shiftl_mul_pow2, Z.shiftr_div_pow2 by lia. change (2 ^ 12) with 4096. pose proof (Z.div_mod a 4096 ltac:(lia)). lia.
Qed.

(** Where the root pointer is, the search finds it; the last place has no room for the bytes behind the
    name. *)
Lemma rsdp_found n1 n2 : Z.of_nat n1 = 16384 -> Z.of_nat n2 = 8192 -> exists r, search_rsdp mem n1 n2 = Ok r /\
  addr <$> r = List.find is_rsdp rsdp_places /\ forall w, r = Some w -> addr w <> 1048560 -> covers w 20.
Proof.
  intros Hn1 Hn2. unfold search_rsdp. rewrite (peek_int_ok _ 4096) by (done || lia). cbn [mbind res_bind]. change (int_at 2 (addr _ + 1038)) with (int_at 2 1038). fold ebda. pose proof ebda_range as He.
  destruct (land_page ebda ltac:(lia)) as [-> ->]. set (v := mk_view (ebda - ebda mod 4096) _ _). assert (addr v = ebda) as Ev by (unfold addr, v; cbn [v_base v_off]; lia).
  assert (covers v (16 * 16384 + 20)) as Hc.
  { split; cbn [v v_off v_pages]; pose proof (Z.mod_pos_bound ebda 4096 ltac:(lia)); [lia|]. change (kptopg (262144 + CPU_PAGE_SIZE * 4)) with 68. unfold CPU_PAGE_SIZE. lia. }
  destruct (rsdp_loop_ok n1 v) as (r1 & -> & Ef & Hw); [destruct Hc; split; lia|]. cbn [mbind res_bind]. rewrite Ev, Hn1 in Ef. unfold rsdp_places.
  assert (forall l k, List.find is_rsdp (l ++ k) = match List.find is_rsdp l with Some a => Some a | None => List.find is_rsdp k end) as Happ by (intros l k; induction l as [|x l IH]; [done|]; cbn; by destruct (is_rsdp x)).
  rewrite Happ, <- Ef. destruct r1 as [w|]; cbn [fmap option_fmap option_map].
  - exists (Some w). split; [done|]. split; [done|]. intros ? [= <-] _. destruct (Hw w eq_refl) as (k & Hk & ->). destruct Hc. split; cbn [shift v_off v_pages]; lia.
  - set (b := mk_view 917504 _ _). destruct (rsdp_loop_ok n2 b) as (r2 & -> & Ef2 & Hw2); [split; [done|]; change (v_pages b) with 32; change (v_off b) with 0; unfold CPU_PAGE_SIZE; lia|].
    exists r2. split; [done|]. rewrite Hn2 in Ef2. split; [exact Ef2|]. intros w -> Hne. destruct (Hw2 w eq_refl) as (k & Hk & ->). unfold addr in Hne. cbn [shift b v_base v_off] in Hne.
    split; cbn [shift b v_off v_pages]; [lia|]. change (kptopg (1048575 - 917504)) with 32. unfold CPU_PAGE_SIZE. lia.
Qed.

(** What the start of ACPI comes to, for a root table at [r]. *)
Definition acpi_result (r : Z) : list Z * acpi_state :=
  let l := List.filter table_valid (entries r) in
  match List.find (has_signature (bytes "PSDT")) l, List.find (has_signature (bytes "FACP")) l with
  | Some _, _ => (l, HasPsdt)
  | None, None => (l, NoFadt)
  | None, Some f => let d := int_at 4 (f + 40) in (l ++ (if table_valid d then [d] else []), Enabled (mem (r + 8)) (int_at 2 (f + 46)))
  end.

Lemma find_head {A} (f : A -> bool) l : List.filter f l !! 0%nat = List.find f l.
Proof. induction l as [|x l IH]; [done|]. cbn. by destruct (f x). Qed.

Lemma find_in {A} (f : A -> bool) l x : List.find f l = Some x -> x ∈ l.
Proof. intros H. apply List.find_some in H as [H _]. by apply list_elem_of_In. Qed.

Lemma rsdt_found p : List.find is_rsdp rsdp_places = Some p -> p <> 1048560 -> let r := int_at 4 (p + 16) in table_fits r ->
  look_for_rsdt mem = Ok (if sums_to_zero p 20 && table_valid r then Some (r, table_view r) else None).
Proof.
  intros Hp Hne r Hr. destruct (rsdp_found (Z.to_nat 16384) (Z.to_nat 8192) ltac:(lia) ltac:(lia)) as (o & E & Ef & Hc). unfold look_for_rsdt. rewrite E. clear E. cbn [mbind res_bind].
  rewrite Hp in Ef. destruct o as [w|]; [|done]. injection Ef as <-.
  pose proof (Hc w eq_refl Hne) as Hw. rewrite (bare_ok w 20 Hw). cbn [mbind res_bind]. destruct (sums_to_zero (addr w) 20); [|done]. cbn [negb andb]. rewrite (peek_int_ok w 20) by (done || lia). cbn [mbind res_bind]. fold r.
  rewrite (map_sdt_ok _ Hr). cbn [mbind res_bind]. rewrite (validate_ok _ Hr). cbn [mbind res_bind]. done.
Qed.

(** Without a root pointer in either area ACPI ends at once. *)
Theorem acpi_init_no_root : List.find is_rsdp rsdp_places = None -> acpi_init mem = Ok ([], NoAcpi).
Proof.
  intros Hp. unfold acpi_init, look_for_rsdt. destruct (rsdp_found (Z.to_nat 16384) (Z.to_nat 8192) ltac:(lia) ltac:(lia)) as (o & -> & Ef & _).
  rewrite Hp in Ef. by destruct o.
Qed.

(** C27: the start of ACPI when a root pointer is found, the first one in the two areas, in any place
    but the last one below 1 MiB (behind which the mapping ends), and all tables that are reached fit:
    the length in each is at least that of its header and below 2^31 - 8192 (the root table, the tables it
    lists and the DSDT of each FACP), and each FACP has at least 48 bytes.  A bad checksum of the root pointer or
    the root table ends it; otherwise the tables of the root table whose bytes sum up to zero are listed
    in their order, a PSDT or the lack of a FACP ends it, and else the DSDT of the first FACP is added
    when it is good and LAI gets the revision of the root table and the interrupt of the FACP.  With no
    good table the search of the list reads through a NULL pointer. *)
Theorem acpi_init_finds p : List.find is_rsdp rsdp_places = Some p -> p <> 1048560 -> let r := int_at 4 (p + 16) in table_fits r ->
  Forall table_fits (entries r) -> (forall f, f ∈ entries r -> has_signature (bytes "FACP") f = true -> 48 <= sdt_len f /\ table_fits (int_at 4 (f + 40))) ->
  acpi_init mem = if sums_to_zero p 20 && table_valid r then
      (if bool_decide (List.filter table_valid (entries r) = []) then Fault else Ok (table_view <$> (acpi_result r).1, (acpi_result r).2))
    else Ok ([], NoAcpi).
Proof.
  intros Hp Hne r Hr He Hf. unfold acpi_init. rewrite (rsdt_found p Hp Hne Hr). fold r. cbn [mbind res_bind]. destruct (_ && _); [|done]. rewrite (sdt_length_ok _ Hr). cbn [mbind res_bind].
  pose proof Hr as Hr'. unfold table_fits, SDT_HEADER, CPU_PAGE_SIZE in Hr'. assert (0 <= (sdt_len r - SDT_HEADER) / 4 < 2 ^ 31) as Hn by (unfold SDT_HEADER; split; [apply Z.div_pos; lia|apply Z.div_lt_upper_bound; lia]).
  rewrite u64_small by (unfold SDT_HEADER; lia). rewrite s32_small by lia. rewrite (tables_loop_ok r _ Hr 0 []); [|lia|pose proof (Z.mul_div_le (sdt_len r - SDT_HEADER) 4 ltac:(lia)); lia|].
  2: { intros j Hj. rewrite Forall_forall in He. apply He. unfold entries. apply list_elem_of_fmap. exists j. split; [done|]. apply elem_of_seqZ. lia. }
  rewrite Z2Nat.id by lia. fold (entries r). cbn [mbind res_bind app]. set (l := List.filter table_valid (entries r)).
  assert (forall f, f ∈ l -> f ∈ entries r) as Hin by (intros f Hl; apply list_elem_of_In in Hl; apply List.filter_In in Hl as [Hl _]; by apply list_elem_of_In).
  assert (Forall table_fits l) as Hl by (apply Forall_forall; intros f Hfl; rewrite Forall_forall in He; by apply He, Hin). case_bool_decide as El; [by rewrite El|].
  rewrite (acpi_find_ok (bytes "PSDT") l 0 eq_refl Hl El) by lia. change (Z.to_nat 0) with 0%nat. rewrite find_head. cbn [mbind res_bind]. unfold acpi_result. fold l. destruct (List.find (has_signature (bytes "PSDT")) l) as [t|]; cbn [fmap option_fmap option_map]; [done|].
  rewrite (acpi_find_ok (bytes "FACP") l 0 eq_refl Hl El) by lia. change (Z.to_nat 0) with 0%nat. rewrite find_head. cbn [mbind res_bind]. destruct (List.find (has_signature (bytes "FACP")) l) as [f|] eqn:Ff; cbn [fmap option_fmap option_map]; [|done].
  destruct (Hf f (Hin f (find_in _ _ _ Ff)) (proj2 (List.find_some _ _ Ff))) as [Hlen Hd]. assert (table_fits f) as Hff by (rewrite Forall_forall in Hl; by apply Hl, (find_in _ _ _ Ff)).
  unfold understand_fadt. rewrite (peek_int_ok _ _ _ 40 (table_covers f Hff)) by lia. cbn [mbind res_bind]. rewrite addr_table, (map_sdt_ok _ Hd). cbn [mbind res_bind]. rewrite (validate_ok _ Hd). cbn [mbind res_bind].
  rewrite (peek_ok _ _ 8 (table_covers r Hr)) by lia. cbn [mbind res_bind]. rewrite (peek_int_ok _ _ _ 46 (table_covers f Hff)) by lia. cbn [mbind res_bind]. rewrite !addr_table. cbn [fst snd].
  destruct (table_valid (int_at 4 (f + 40))); unfold acpi_add_table; [by rewrite fmap_app|by rewrite app_nil_r].
Qed.
End Facts.

Module AcpiDemo.
(** A table with its checksum. *)
Definition sealed (l : list Z) (at_ : nat) : list Z := <[at_ := u8 (- sum_bytes l)]> l.
Definition header (sig : string) (len : Z) : list Z := bytes sig ++ le_bytes 4 len ++ [1] ++ replicate 27 0.
Definition rsdp : list Z := sealed (bytes "RSD PTR " ++ replicate 8 0 ++ le_bytes 4 16777216) 8.
Definition rsdt : list Z := sealed (header "RSDT" 44 ++ le_bytes 4 16781312 ++ le_bytes 4 16785408) 9.
Definition facp : list Z := sealed (header "FACP" 48 ++ le_bytes 4 0 ++ le_bytes 4 16789504 ++ [0; 0; 9; 0]) 9.
Definition broken : list Z := header "SSDT" 36.
Definition dsdt : list Z := sealed (header "DSDT" 36) 9.
(** The root pointer in the second place of the first area, the tables at 16 MiB. *)
Definition blocks : list (Z * list Z) := [(1038, le_bytes 2 40896); (654352, rsdp); (16777216, rsdt); (16781312, facp); (16785408, broken); (16789504, dsdt)].
Definition mem (a : Z) : Z := foldr (fun '(base, l) d => if (base <=? a) && (a <? base + zlen l) then default 0 (get l (a - base)) else d) 0 blocks.

Lemma mem_byte a : 0 <= mem a < 256.
Proof.
  assert (Forall (fun '(_, l) => Forall (fun b => 0 <= b < 256) l) blocks) as H by (apply (bool_decide_eq_true_1 _); vm_compute; reflexivity).
  unfold mem. induction H as [|[base l] bs Hl _ IH]; cbn [foldr]; [lia|]. destruct (_ && _); [|done]. destruct (get l (a - base)) eqn:E; [|done]. apply get_Some in E as [_ E]. exact (proj1 (Forall_lookup _ _) Hl _ _ E).
Qed.

Lemma second_place f from n k : 2 <= n -> f from = false -> f (from + 16) = true -> List.find f (places from n ++ k) = Some (from + 16).
Proof.
  intros Hn H1 H2. unfold places. rewrite (seqZ_cons _ n), (seqZ_cons _ (Z.pred n)) by lia. cbn [fmap list_fmap app List.find]. rewrite Z.mul_0_r, Z.add_0_r, H1. change (from + 16 * Z.succ 0) with (from + 16). by rewrite H2.
Qed.

Lemma rsdp_place : List.find (is_rsdp mem) (rsdp_places mem) = Some 654352.
Proof.
  assert (ebda mem = 654336) as E by (vm_compute; reflexivity). unfold rsdp_places. rewrite E.
  apply (second_place (is_rsdp mem) 654336); [lia|vm_compute; reflexivity|vm_compute; reflexivity].
Qed.
End AcpiDemo.

(** The FACP is listed, the table with the bad sum is not, the DSDT comes last; interrupt 9. *)
Lemma acpi_init_finds_witness : acpi_init AcpiDemo.mem = Ok ([mk_view 16781312 2 0; mk_view 16789504 2 0], Enabled 1 9).
Proof.
  rewrite (acpi_init_finds AcpiDemo.mem AcpiDemo.mem_byte 654352); [vm_compute; reflexivity|exact AcpiDemo.rsdp_place|lia|split; [vm_compute; discriminate|vm_compute; reflexivity]| |].
  - repeat constructor; vm_compute; discriminate || reflexivity.
  - intros f Hf Hs. assert (entries AcpiDemo.mem (int_at AcpiDemo.mem 4 (654352 + 16)) = [16781312; 16785408]) as E by (vm_compute; reflexivity). rewrite E in Hf.
    apply elem_of_cons in Hf as [->|Hf]; [split; [vm_compute; discriminate|split; [vm_compute; discriminate|vm_compute; reflexivity]]|]. apply list_elem_of_singleton in Hf as ->. vm_compute in Hs. discriminate Hs.
Defined.
